(* ===== verification/_CoqProject ===== *)
-Q . S2P
Prelude.v
GoStrings.v
Wire.v
Spool.v
SpoolQueue.v
Operations.v
Maintenance.v
Users.v
Negotiation.v
DataPlane.v
Reports.v
Destinations.v
Limiter.v
NodeUsers.v
Json.v
Envelope.v
PluginNames.v
PluginGate.v
PluginWorld.v
PluginSecrets.v
Supervisor.v
SupervisorRuns.v
SupervisorDemo.v
SupervisorFrame.v
SupervisorOnce.v
SupervisorProcs.v
SupervisorInvariant.v
SupervisorStart.v
SupervisorResults.v
GoNet.v
AnxLine.v
AnxPaths.v
MaintenanceStream.v
MaintenanceOutbox.v
WireGuard.v
WireGuardTraffic.v
WireGuardNodes.v
Disk.v
StateStore.v
StateBinding.v
ErrorCodes.v
Pki.v
PkiStored.v
IdentityManager.v
IdentityRuns.v
Upgrade.v
UpgradeTrust.v
UpgradeAgent.v
UpgradeHandOff.v
UpgradeHanded.v
NetworkPlan.v
NodeReports.v
NodeReporting.v
NetworkRoute.v
NetworkRouting.v
NetworkRules.v
AnxServer.v
AnxServing.v
AnxServed.v
KernelForward.v
KernelForwarding.v
Network.v
NetworkApplied.v
NodeController.v
NodeReload.v
NodeFrames.v
NodeSnapshots.v
NodeServing.v
NodeStart.v
NodeWireGuard.v
NodeDemo.v
Selector.v
SelectorRuns.v
AnixInbound.v
AnixUsers.v
AnixPlan.v
AnixCore.v
AnixKernel.v
AnixNetwork.v
AnixHistory.v
