(* ===== verification/Prelude.v ===== *)
(** * AnixOps Agent: verification development

    The Agent runs proxy nodes for a Control service.  It holds one control
    stream per node: Control pushes configuration, users, alive lists, network
    plans and operations on it, the Agent sends back acknowledgements, observed
    states and reports.  Around the stream it runs plugins, cores, forwards,
    routes and anx-servers, keeps its state on disk and is upgraded by a
    privileged updater.  This development models the part of the program that
    decides what is done, kept and sent -- state, guards, queues, retries,
    bounds, roll back, recovery after crashes -- and leaves transport, processes
    and commands to the environment, whose answers are arguments.

    ** Parts and files

    Foundations:
    - Prelude.v: results, Go's time and integer widths, list lemmas, the
      tactics [zcases] and [str_cases] and the hint database [agent].
    - GoStrings.v, GoNet.v: the functions of Go's strings, strconv, net and
      netip the code calls, with their round trips.
    - Json.v: decoded JSON values and the class [Codec] (JSON, SHA-256, base64).
    - Disk.v: a directory of files with renames and syncs, where every call may
      fail or be the last before the process or the machine stops; its module
      [DiskViews] has triples and views to reason about programs on it.

    The control stream:
    - Wire.v: the messages of Control's SDK as records; the protobuf codec is
      the class [Proto] with the law [ProtoLaws].
    - Spool.v (api/agent/spool/spool.go): the on-disk queue of report batches;
      SpoolQueue.v: its specification, a queue with expiry and eviction, and
      the refinement of each operation and of reopening.
    - Operations.v (api/agent/client.go): operations of a session -- receive,
      queue, cancel, execute, remember -- as a step relation of the receive
      loop, the worker and session ends, cut where the code holds its locks.
    - Negotiation.v (api/agent/negotiation.go, client.go): capabilities, the
      dispatch of payloads, the reconnect delay; class [SDK].
    - DataPlane.v (api/agent/dataplane.go, dataplane_alive.go): sessions and
      modes, configuration snapshots and their statuses, alive lists.
    - Users.v (api/agent/dataplane_users.go): user sets and deltas; Control's
      change log is the specification.
    - Reports.v (api/agent/dataplane_reports.go): the report loop over the
      interface [BatchStore], which the spool implements ([spool_store_laws]).
    - Maintenance.v (common/maintenance): health incidents of plugins, restart
      budget and durable outbox; MaintenanceStream.v
      (api/agent/dataplane_maintenance.go): the outbox on the stream, over the
      interface [Outbox]; MaintenanceOutbox.v (node/maintenance.go): the store
      discharges it.
    - StateStore.v, StateBinding.v (api/agent/state/state.go, dataplane.go):
      what a node keeps on disk, and what a start reads of it.
    - Envelope.v (api/agent/operation_envelope.go): plugin operations.
    - ErrorCodes.v (api/agent/errorcodes.go): error codes and refusals of
      certificates; class [ControlCodes].
    - Pki.v (api/agent/pki): checks of issued certificates and the identity
      directory, over the class [PKI]; PkiStored.v: what a start reads of it.
    - IdentityManager.v (api/agent/identity.go): sessions, enrolments and
      renewals; IdentityRuns.v: their interleavings.

    Plugins (plugin/supervisor.go, lifecycle_gate.go, secret_material.go,
    maintenance.go): PluginNames.v (identifiers, paths, configurations),
    PluginGate.v (admission and locks as interleavings of critical sections),
    PluginWorld.v (state and the effect monad: every external call answers from
    an arbitrary environment and may be where the Agent crashes),
    PluginSecrets.v, Supervisor.v (the operations), SupervisorRuns.v (journal,
    start, exits, shutdown); the theorems are in SupervisorFrame.v,
    SupervisorOnce.v, SupervisorProcs.v (a Hoare logic on the view of one
    plugin), SupervisorInvariant.v, SupervisorStart.v, SupervisorResults.v, a
    concrete system in SupervisorDemo.v.

    Nodes and cores:
    - Destinations.v (common/destinations): destination statistics, with the
      Stats in a heap shared by the collector and the connections.
    - Limiter.v (limiter): speed and device limits.
    - NodeUsers.v (node/user.go, node/task.go): differences of user lists and
      their application to a core ([CoreUsers]) and to the limiter.
    - WireGuard.v, WireGuardTraffic.v, WireGuardNodes.v
      (core/wireguard/wireguard.go): the WireGuard core.
    - NodeReports.v, NodeReporting.v (node/dataplane_reports.go): traffic
      windows, online addresses, logs and status, over [ReportPlane].
    - NodeController.v (node/controller.go, reload.go, task.go, cert.go): the
      controller of one protocol of a node, over the interfaces [Core] and
      [Host] with the laws [CoreNodes] and [CoreLaws]; limiters are addressed
      objects, a panic is an outcome.  NodeReload.v, NodeFrames.v: what a call
      leaves in the core.  NodeSnapshots.v (node/dataplane.go, extra.go): a
      snapshot applied to a node with its further protocols, over [Documents]
      and [Members]; NodeServing.v: what runs afterwards.  NodeStart.v: the
      start from stored state or the stream.  NodeWireGuard.v: the WireGuard
      core is a [Core]; NodeDemo.v: nodes on a core in memory.
    - Selector.v (core/selector.go, core.go, conf/node.go): several cores
      behind a selector, over [Member], [Appliers] and [OptionsCodec];
      SelectorRuns.v: it keeps the promises of a core.
    - The anixcore core (core/anixcore): AnixInbound.v (inbound.go, user.go:
      inbounds, user names, traffic; class [InboundCodec]), AnixPlan.v
      (anxline.go, forward.go, reverse_proxy.go: what a plan asks for and the
      statuses; class [PlanSDK]), AnixCore.v (the record of the core and its
      operations, over the kernel's management API as the class [Kernel]).
      AnixUsers.v: names and billing.  AnixKernel.v, AnixNetwork.v: what each
      operation and a restart keep of the kernel, under [KernelLaws] and, for
      tags, [Tags]; AnixHistory.v: histories, with a small kernel in
      [AnixDemo].
    - AnxLine.v, AnxPaths.v (anxline): the AnxLine section, its packet filter,
      and the MPTCP path monitors.

    The device network model:
    - NetworkPlan.v: the plan's messages, Go's orders and sorts.
    - NetworkRoute.v (networkroute/networkroute.go): the policy routing of a
      plan and its installation; NetworkRouting.v: the routes of a plan;
      NetworkRules.v: the host's rules, over the class [IPRoute2], and a host.
    - AnxServer.v (anxserver/plan.go): accepted transports, listeners, groups;
      AnxServing.v (anxserver/manager.go, buffers.go): the calls to a process,
      the loop that keeps it at the wanted links (one step per call sequence)
      and the manager; AnxServed.v: what processes run, over the class
      [AnxProcessLaws], and a process.
    - KernelForward.v (kernelfwd/kernelfwd.go): targets, checks, the nftables
      table and its manager; KernelForwarding.v: the table on the host, over
      the class [KernelHostLaws], and a host.
    - Network.v (node/network.go): how a delivered plan is checked, applied to
      routes, forwards, core and anx-servers, and reported;
      NetworkApplied.v: what runs afterwards, and a device.

    Upgrades: Upgrade.v (upgrade/upgrade.go, apply.go, kernel.go): the updater,
    on Disk.v; UpgradeTrust.v: what it installs and reports; UpgradeAgent.v
    (upgrade/agent.go): the Agent's half; UpgradeHandOff.v, UpgradeHanded.v: both
    halves with other operations, over [UpgradeSDK].

    Stateful functions take and return their state; a function that calls out
    without its lock is cut there.  Clocks, random ids, answers of commands and
    faults are arguments.  A [sync.Map] or a map is a [gmap]; where the code
    ranges over a map, the order of [map_to_list] stands for Go's order and no
    theorem depends on it, or the order is an argument.  Error messages are
    abbreviated.

    ** What the theorems show

    - The spool is its queue: what was appended is read back in order until it
      is removed, expires or is evicted by its bounds, and a restart loses
      nothing ([append_refines_queue], [reopen_refines_queue]).
    - An operation runs at most once and only forward in revisions, replays are
      answered from memory ([handler_calls_increase]).
    - Only negotiated payloads with a handler are delivered, only verified
      configuration is applied ([config_verified_before_applied]), the node's
      users are Control's users at the cursor it reports
      ([users_track_control]), and the core and limiter follow the list
      ([user_diff_applied]).
    - Reports: a bounded window, no batch lost or in two places
      ([report_window_bounded], [batch_in_one_spool]); events stay in the
      maintenance outbox until Control answers, and then leave it
      ([stored_event_leaves_only_answered], [stored_outbox_drains]); plugin
      restarts are bounded ([restart_budget]); destination traffic is
      conserved.
    - The state store is written atomically and what a start loads is what the
      same Control delivered ([save_atomic], [loaded_state_is_ours]).
    - Plugins, over every schedule of failures and crashes: a journaled
      operation runs once and can be replayed when interrupted
      ([operation_runs_once], [interrupted_operation_replayable]), processes
      match records ([processes_match_records]), starts and shutdowns are safe
      and complete, a failed operation removes the secrets it wrote, admission
      terminates.
    - WireGuard: user operations are atomic, traffic is billed exactly
      ([user_operation_atomic], [traffic_billed_exactly]).  ANX lines: a path
      monitor never takes the last usable path out and judges exactly by its
      window ([one_path_stays], [path_verdict_exact]).
    - Network plans: routes get distinct numbers of the Agent's range and do not
      depend on map order ([routes_allocated], [routes_order_independent]), the
      host's rules become exactly the routes ([routing_converges]), the forward
      table is exactly the forwards with their live targets and keeps its
      counters ([kernel_table_exact], [forward_counters_kept],
      [forward_targets_live]), an anx-server process that settled runs exactly
      the plan and settles in one round ([settled_servers_exact],
      [server_settles]), and a plan applied without an error has all of this
      on the host, an invalid one changes nothing ([applied_plan_runs],
      [invalid_plan_refused]).
    - Upgrades: whatever is staged and wherever the machine stops, only signed
      binaries are installed, and the report says which one is there
      ([installed_binaries_genuine], [updater_report_exact]); the updater gets a
      request only after Control heard of the success, and then does
      ([request_after_success], [upgrade_handed_off]).
    - Identity: what is kept is issued for this Agent's key and read back whole
      ([issued_identity_is_ours], [loaded_identity_whole]), a refused one is not
      used again, one enrolment runs at a time and trying goes on
      ([refused_identity_stays_out], [enrolment_exclusive],
      [identity_keeps_trying]).
    - Reports of a node: a traffic window is sent once, Control has the online
      addresses ([traffic_window_once], [control_has_online]).
    - Nodes: a reload leaves the new configuration, the previous one or neither,
      and knows which ([reload_keeps_serving]); an applied snapshot is what the
      core runs ([applied_snapshot_runs]); a start reports what was taken
      ([start_tells_truth]).
    - Cores: a selector of cores is a core ([selector_is_a_core]) and takes the
      first willing one ([first_willing_core]).  anixcore: while it answers, the
      kernel runs the record after any failures and restarts
      ([kernel_runs_record]), a restart gives everything back
      ([restart_restores]), an applied plan runs ([network_applied]); user names
      come back and traffic is billed once ([user_names_come_back],
      [kernel_traffic_billed]), no protocol that needs a certificate runs
      without ([certificate_required]).
    - Examples and some theorems state behaviour that the code's comments do not
      promise or contradict, such as [closed_session_supersedes_queued],
      [wireguard_user_rate_units], [half_applied_diff_forgotten],
      [error_stays], [deleted_table_returns], [changed_between_steps],
      [failed_plan_not_retried], [failed_removal_left_over],
      [added_before_replay], [chosen_core_sticks].

    ** Bounds and fuel

    Loops over data are structural.  Decimal numbers have fuel 20, the digits
    of a uint64; IPv6 addresses have at most 8 groups; the reconnect delay
    doubles at most attempt times; the updater polls as often as its waiting
    time allows; the admission loop of the plugin gate needs at most two turns
    once the lock is free; how often anx-server's first call is repeated is an
    argument.  Where a counter would wrap (the uint64 sequences, int64 byte
    counts, uint32 failures) the wrap is in the definition and the theorem
    states the bound under which it does not happen.  A panic of the updater is
    its end.  A node is added to a core at most four times (three delays).  A
    request to the kernel that is not answered may or may not have been done;
    the theorems on the kernel then wait for its restart, which is one step with
    what it is given.

    ** Not modelled

    Transport, TLS settings and joining (gRPC and HTTP calls); downloads of
    artifacts, plugin packages and plugin processes (archives, signatures and
    the operating system; the supervisor that decides on them is modelled);
    machine telemetry and host probes (they read /proc and interfaces); ACME (a
    library); the forwarding component (src/forward: nftables, tc and child
    processes by command lines, and measurements of the network); the process,
    configuration file and HTTP client of the anixcore kernel; decoding of the
    panel's JSON and of configuration files; the wiring of a node's clients and
    plugins (node/node.go, agent_control.go); command line, diagnostics,
    generated code and the Control of the tests. *)

From stdpp Require Export base prelude gmap strings list sorting.
From Stdlib Require Export ZArith Lia.
From Stdlib Require Import Ascii String.

#[global] Open Scope Z_scope.

(** ** Results of fallible Go functions: the value, or the error's text. *)

Inductive result (A : Type) : Type :=
| Ok (a : A)
| Err (msg : string).
Arguments Ok {A} a.
Arguments Err {A} msg.

Declare Scope go_scope.
Delimit Scope go_scope with go.
Notation "'let?' x ':=' c 'in' k" :=
  (match c with Ok x => k | Err e => Err e end)
  (at level 10, x pattern, c at level 100, k at level 200) : go_scope.
#[global] Open Scope go_scope.

Definition is_ok {A} (r : result A) : bool :=
  match r with Ok _ => true | Err _ => false end.

(** ** Go time

    A [time.Time] is the number of nanoseconds since January 1 of year 1,
    UTC, which is Go's zero Time: [IsZero] is [t =? 0].  A [time.Duration] is
    an int64 number of nanoseconds; [Time.Sub] saturates at its bounds. *)

Definition time := Z.
Definition duration := Z.

Definition min_int64 : Z := - 2 ^ 63.
Definition max_int64 : Z := 2 ^ 63 - 1.

Definition millisecond : duration := 1000000.
Definition second : duration := 1000000000.
Definition minute : duration := 60 * second.
Definition hour : duration := 60 * minute.

(** Nanoseconds from year 1 to the Unix epoch. *)
Definition unix_epoch : time := 62135596800 * second.

Definition is_zero (t : time) : bool := t =? 0.
Definition before (t u : time) : bool := t <? u.
Definition after (t u : time) : bool := u <? t.
Definition add (t : time) (d : duration) : time := t + d.
Definition sub (t u : time) : duration :=
  Z.max min_int64 (Z.min max_int64 (t - u)).

(** [time.UnixMilli], [time.Unix] and [Time.UnixMilli], [Time.Unix]. *)
Definition time_unix_milli (ms : Z) : time := unix_epoch + ms * millisecond.
Definition time_unix (s : Z) : time := unix_epoch + s * second.
Definition unix_milli (t : time) : Z := (t - unix_epoch) / millisecond.
Definition unix_sec (t : time) : Z := (t - unix_epoch) / second.

(** Wrap-around of uint64 arithmetic. *)
Definition u64 (z : Z) : Z := z mod 2 ^ 64.

(** Wrap-around of int64 arithmetic, and of a [time.Duration]. *)
Definition i64 (z : Z) : Z := (z + 2 ^ 63) mod 2 ^ 64 - 2 ^ 63.

Lemma i64_small z : - 2 ^ 63 ≤ z < 2 ^ 63 → i64 z = z.
Proof. intros. unfold i64. rewrite Z.mod_small; lia. Qed.

Lemma u64_small z : 0 ≤ z < 2 ^ 64 → u64 z = z.
Proof. intros. by apply Z.mod_small. Qed.

Lemma u64_range z : 0 ≤ u64 z < 2 ^ 64.
Proof. apply Z.mod_pos_bound. lia. Qed.

Lemma sub_small t u : - 2 ^ 63 ≤ t - u < 2 ^ 63 → sub t u = t - u.
Proof. unfold sub, min_int64, max_int64. lia. Qed.

(** A saturated difference still compares with a duration as the exact one. *)
Lemma sub_lt_iff t u d : min_int64 < d ≤ max_int64 → (sub t u < d ↔ t - u < d).
Proof. unfold sub, min_int64, max_int64. lia. Qed.

Lemma sub_ge_iff t u d : min_int64 < d ≤ max_int64 → (d ≤ sub t u ↔ d ≤ t - u).
Proof. unfold sub, min_int64, max_int64. lia. Qed.

(** ** Lists *)

Definition sum_Z {A} (f : A → Z) (l : list A) : Z := foldr (λ x acc, f x + acc) 0 l.

Lemma sum_Z_nonneg {A} (f : A → Z) l : (∀ x, 0 ≤ f x) → 0 ≤ sum_Z f l.
Proof. intros Hf. induction l as [|x l IH]; simpl; [done|]. specialize (Hf x). lia. Qed.

Lemma sum_Z_app {A} (f : A → Z) l1 l2 : sum_Z f (l1 ++ l2) = sum_Z f l1 + sum_Z f l2.
Proof. induction l1 as [|x l1 IH]; simpl; [done|]. rewrite IH. lia. Qed.

Lemma sum_Z_perm {A} (f : A → Z) l1 l2 : l1 ≡ₚ l2 → sum_Z f l1 = sum_Z f l2.
Proof. induction 1; simpl; lia. Qed.

Lemma Forall_sublist {A} (P : A → Prop) l1 l2 :
  l1 `sublist_of` l2 → Forall P l2 → Forall P l1.
Proof. rewrite !Forall_forall. intros Hs H x Hx. eauto using elem_of_sublist. Qed.

Lemma StronglySorted_sublist {A} (R : relation A) l1 l2 :
  l1 `sublist_of` l2 → StronglySorted R l2 → StronglySorted R l1.
Proof.
  induction 1 as [|x l1 l2 Hs IH|x l1 l2 Hs IH]; intros Hso; [done|..];
    apply StronglySorted_cons in Hso as [Hx Hso]; [|by apply IH].
  constructor; [by apply IH|]. by eapply Forall_sublist.
Qed.

Lemma sublist_fmap {A B} (f : A → B) l1 l2 :
  l1 `sublist_of` l2 → f <$> l1 `sublist_of` f <$> l2.
Proof. induction 1; rewrite ?fmap_cons; by constructor. Qed.

Lemma sublist_filter_mono {A} (P : A → Prop) `{!∀ x, Decision (P x)} (l1 l2 : list A) :
  l1 `sublist_of` l2 → filter P l1 `sublist_of` filter P l2.
Proof. induction 1; [done|..]; rewrite !filter_cons || rewrite filter_cons; case_decide; by try constructor. Qed.

Lemma filter_ext_in {A} (P Q : A → Prop) `{!∀ x, Decision (P x)} `{!∀ x, Decision (Q x)} (l : list A) :
  (∀ x, x ∈ l → P x ↔ Q x) → filter P l = filter Q l.
Proof.
  induction l as [|x l IH]; intros HPQ; [done|]. rewrite !filter_cons.
  rewrite IH by (intros; apply HPQ; by apply list_elem_of_further).
  pose proof (HPQ x (list_elem_of_here _ _)). destruct (decide (P x)), (decide (Q x)); tauto || done.
Qed.

Lemma filter_all {A} (P : A → Prop) `{!∀ x, Decision (P x)} (l : list A) :
  (∀ x, x ∈ l → P x) → filter P l = l.
Proof.
  induction l as [|x l IH]; intros HP; [done|]. rewrite filter_cons, decide_True by apply HP, list_elem_of_here.
  f_equal. apply IH. intros; apply HP; by apply list_elem_of_further.
Qed.

Lemma filter_none {A} (P : A → Prop) `{!∀ x, Decision (P x)} (l : list A) :
  (∀ x, x ∈ l → ¬ P x) → filter P l = [].
Proof.
  induction l as [|x l IH]; intros HP; [done|]. rewrite filter_cons, decide_False by apply HP, list_elem_of_here.
  apply IH. intros; apply HP; by apply list_elem_of_further.
Qed.

(** Two lists sorted by a strict order with the same elements are equal. *)
Lemma StronglySorted_strict_unique {A} (R : relation A) `{!Irreflexive R, !Transitive R} l1 l2 :
  StronglySorted R l1 → StronglySorted R l2 → l1 ≡ₚ l2 → l1 = l2.
Proof.
  intros H1 H2 Hp. apply (StronglySorted_unique_strong R); [|done..].
  intros x y _ _ Hxy Hyx. exfalso. apply (irreflexivity R x). by transitivity y.
Qed.

Lemma Forall2_filter {A B} (R : A → B → Prop) (P : A → Prop) (Q : B → Prop)
    `{!∀ x, Decision (P x)} `{!∀ y, Decision (Q y)} l1 l2 :
  (∀ x y, R x y → P x ↔ Q y) → Forall2 R l1 l2 → Forall2 R (filter P l1) (filter Q l2).
Proof.
  intros HPQ. induction 1 as [|x y l1 l2 Hxy Hl IH]; [done|].
  rewrite !filter_cons. pose proof (HPQ x y Hxy).
  destruct (decide (P x)), (decide (Q y)); tauto || (by constructor) || done.
Qed.

Lemma Forall2_impl_in {A B} (R S : A → B → Prop) l1 l2 :
  Forall2 R l1 l2 → (∀ x y, x ∈ l1 → R x y → S x y) → Forall2 S l1 l2.
Proof.
  induction 1 as [|x y l1 l2 Hxy Hl IH]; intros HS; constructor.
  - apply HS; [apply list_elem_of_here|done].
  - apply IH. intros; apply HS; [by apply list_elem_of_further|done].
Qed.

(** ** Automation

    [zcases] splits on the integer comparisons of a goal, [str_cases] on its
    string comparisons; the database [agent] holds the rewriting of the sums
    and widths every component uses. *)

Ltac zcases :=
  repeat match goal with
  | |- context [?a <=? ?b] => destruct (Z.leb_spec a b)
  | |- context [?a <? ?b] => destruct (Z.ltb_spec a b)
  | |- context [?a =? ?b] => destruct (Z.eqb_spec a b)
  end.

Ltac str_cases :=
  repeat match goal with
  | |- context [String.eqb ?a ?b] => destruct (String.eqb_spec a b)
  end.

Create HintDb agent.
Create Rewrite HintDb agent.
#[export] Hint Resolve sublist_fmap sublist_filter sublist_filter_mono Forall_sublist : agent.
#[export] Hint Rewrite @sum_Z_app @fold_left_app : agent.
