(* ===== verification/GoStrings.v ===== *)
(** * Go strings

    The functions of Go's [strings] and [strconv] packages that the modelled
    code calls, on byte strings: a Go string is a sequence of bytes, a Rocq
    [string] is too (one [ascii] per byte).  Positions and lengths are bytes,
    as in Go. *)

From S2P Require Import Prelude.
From Stdlib Require Import Ascii String.

(** Length of a string in bytes, Go's [len]. *)
Definition len (s : string) : Z := Z.of_nat (String.length s).

(** [strings.HasPrefix] and [strings.TrimPrefix]. *)
Definition has_prefix (s p : string) : bool := String.prefix p s.

Fixpoint drop_chars (n : nat) (s : string) : string :=
  match n, s with
  | O, _ => s
  | S n, String _ s => drop_chars n s
  | S _, EmptyString => EmptyString
  end.

Definition trim_prefix (s p : string) : string :=
  if has_prefix s p then drop_chars (String.length p) s else s.

(** [strings.HasSuffix] and [strings.TrimSuffix]. *)
Fixpoint has_suffix (s p : string) : bool :=
  String.eqb s p ||
  match s with
  | EmptyString => false
  | String _ s' => has_suffix s' p
  end.

Fixpoint trim_suffix (s p : string) : string :=
  if String.eqb s p then EmptyString
  else match s with
       | EmptyString => EmptyString
       | String c s' => String c (trim_suffix s' p)
       end.

(** [strings.Contains] for a one-byte separator, and for a substring. *)
Fixpoint contains_char (s : string) (c : ascii) : bool :=
  match s with
  | EmptyString => false
  | String d s' => Ascii.eqb c d || contains_char s' c
  end.

Fixpoint contains (s p : string) : bool :=
  has_prefix s p ||
  match s with
  | EmptyString => false
  | String _ s' => contains s' p
  end.

(** [strings.Cut] at a one-byte separator: the text before and after its
    first occurrence, [None] when it does not occur. *)
Fixpoint cut (s : string) (sep : ascii) : option (string * string) :=
  match s with
  | EmptyString => None
  | String c s' =>
      if Ascii.eqb c sep then Some (EmptyString, s')
      else match cut s' sep with
           | Some (a, b) => Some (String c a, b)
           | None => None
           end
  end.

(** Every byte satisfies [p]. *)
Fixpoint all_chars (p : ascii → bool) (s : string) : bool :=
  match s with
  | EmptyString => true
  | String c s' => p c && all_chars p s'
  end.

Definition any_char (p : ascii → bool) (s : string) : bool :=
  negb (all_chars (λ c, negb (p c)) s).

Definition code (c : ascii) : Z := Z.of_N (N_of_ascii c).

Definition in_range (lo hi : ascii) (c : ascii) : bool :=
  (code lo <=? code c) && (code c <=? code hi).

Definition is_lower_letter : ascii → bool := in_range "a" "z".
Definition is_upper_letter : ascii → bool := in_range "A" "Z".
Definition is_digit : ascii → bool := in_range "0" "9".

(** [strings.ToLower] on the ASCII letters. *)
Definition lower_char (c : ascii) : ascii :=
  if is_upper_letter c then ascii_of_N (N_of_ascii c + 32) else c.

Fixpoint to_lower (s : string) : string :=
  match s with
  | EmptyString => EmptyString
  | String c s' => String (lower_char c) (to_lower s')
  end.

(** ** Hexadecimal: [fmt.Sprintf("%016x", n)] and [strconv.ParseUint(s, 16, 64)]. *)

Definition hex_digit (d : Z) : ascii :=
  ascii_of_N (Z.to_N (if d <? 10 then 48 + d else 87 + d)).

Definition hex_value (c : ascii) : option Z :=
  if is_digit c then Some (code c - 48)
  else if in_range "a" "f" c then Some (code c - 87)
  else if in_range "A" "F" c then Some (code c - 55)
  else None.

(** The low [w] hexadecimal digits of [n], most significant first. *)
Fixpoint hex_pad (w : nat) (n : Z) : string :=
  match w with
  | O => EmptyString
  | S w => hex_pad w (n / 16) +:+ String (hex_digit (n mod 16)) EmptyString
  end.

Fixpoint parse_hex_from (acc : Z) (s : string) : option Z :=
  match s with
  | EmptyString => Some acc
  | String c s' =>
      match hex_value c with
      | Some d => parse_hex_from (acc * 16 + d) s'
      | None => None
      end
  end.

Definition parse_uint_hex (s : string) : option Z :=
  match s with
  | EmptyString => None
  | _ => match parse_hex_from 0 s with
         | Some n => if n <? 2 ^ 64 then Some n else None
         | None => None
         end
  end.

(** ** Decimal: [strconv.FormatUint(n, 10)] and [strconv.ParseUint(s, 10, 64)].
    Twenty digits hold every uint64. *)

Fixpoint dec_digits (fuel : nat) (n : Z) (acc : string) : string :=
  match fuel with
  | O => acc
  | S fuel =>
      let acc := String (ascii_of_N (Z.to_N (48 + n mod 10))) acc in
      if n <? 10 then acc else dec_digits fuel (n / 10) acc
  end.

Definition format_uint (n : Z) : string := dec_digits 20 n EmptyString.

Fixpoint parse_dec_from (acc : Z) (s : string) : option Z :=
  match s with
  | EmptyString => Some acc
  | String c s' =>
      if is_digit c then parse_dec_from (acc * 10 + (code c - 48)) s' else None
  end.

Definition parse_uint (s : string) : option Z :=
  match s with
  | EmptyString => None
  | _ => match parse_dec_from 0 s with
         | Some n => if n <? 2 ^ 64 then Some n else None
         | None => None
         end
  end.

(** ** Lemmas *)

Lemma app_nil_r_str s : s +:+ "" = s.
Proof. induction s; simpl; [done|]. unfold String.app in *. simpl. by f_equal. Qed.

Lemma app_assoc_str a b c : (a +:+ b) +:+ c = a +:+ (b +:+ c).
Proof. induction a; [done|]. unfold String.app in *. simpl. by f_equal. Qed.

Lemma app_cons_str c a b : String c a +:+ b = String c (a +:+ b).
Proof. done. Qed.

Lemma length_app_str a b :
  String.length (a +:+ b) = (String.length a + String.length b)%nat.
Proof. induction a; [done|]. rewrite app_cons_str. simpl. by rewrite IHa. Qed.

Lemma len_app a b : len (a +:+ b) = len a + len b.
Proof. unfold len. rewrite length_app_str. lia. Qed.

Lemma len_nonneg s : 0 ≤ len s.
Proof. unfold len. lia. Qed.

Lemma has_prefix_app p s : has_prefix (p +:+ s) p = true.
Proof.
  unfold has_prefix. induction p as [|c p IH]; [by destruct s|].
  rewrite app_cons_str. simpl. by destruct (ascii_dec c c).
Qed.

Lemma drop_chars_app p s : drop_chars (String.length p) (p +:+ s) = s.
Proof. induction p; done. Qed.

Lemma trim_prefix_app p s : trim_prefix (p +:+ s) p = s.
Proof. unfold trim_prefix. by rewrite has_prefix_app, drop_chars_app. Qed.

Lemma has_prefix_inv s p : has_prefix s p = true → ∃ t, s = p +:+ t.
Proof.
  revert s. induction p as [|c p IH]; intros s H; [by exists s|].
  destruct s as [|d s]; [done|]. unfold has_prefix in *. simpl in H.
  destruct (ascii_dec c d) as [->|]; [|done].
  destruct (IH s H) as [t ->]. by exists t.
Qed.

Lemma eqb_app_nonempty s t : String.eqb (s +:+ t) t = String.eqb s "".
Proof.
  destruct s as [|c s]; [apply String.eqb_refl|].
  change (String.eqb (String c s) "") with false. apply String.eqb_neq. intros H.
  apply (f_equal String.length) in H. rewrite length_app_str in H. simpl in H. lia.
Qed.

Lemma has_suffix_app s p : has_suffix (s +:+ p) p = true.
Proof.
  induction s as [|c s IH].
  - change ("" +:+ p) with p. destruct p; simpl; [done|].
    by rewrite Ascii.eqb_refl, String.eqb_refl.
  - rewrite app_cons_str. simpl. rewrite IH. apply orb_true_r.
Qed.

Lemma trim_suffix_app s p : trim_suffix (s +:+ p) p = s.
Proof.
  induction s as [|c s IH].
  - change ("" +:+ p) with p. destruct p; simpl; [done|].
    by rewrite Ascii.eqb_refl, String.eqb_refl.
  - rewrite app_cons_str. cbn [trim_suffix].
    change (String c (s +:+ p)) with (String c s +:+ p).
    rewrite eqb_app_nonempty. simpl. by rewrite IH.
Qed.

Lemma cut_app a sep b : contains_char a sep = false →
  cut (a +:+ String sep b) sep = Some (a, b).
Proof.
  induction a as [|c a IH]; intros H.
  - change ("" +:+ String sep b) with (String sep b). simpl. by rewrite Ascii.eqb_refl.
  - simpl in H. apply orb_false_iff in H as [Hc Ha]. rewrite app_cons_str. simpl.
    rewrite Ascii.eqb_sym, Hc, IH; done.
Qed.

Lemma cut_Some s sep a b : cut s sep = Some (a, b) →
  s = a +:+ String sep b ∧ contains_char a sep = false.
Proof.
  revert a b. induction s as [|c s IH]; intros a b H; [done|]. simpl in H.
  destruct (Ascii.eqb c sep) eqn:E.
  - apply Ascii.eqb_eq in E as ->. by simplify_eq.
  - destruct (cut s sep) as [[a' b']|]; [|done]. simplify_eq.
    destruct (IH a' b eq_refl) as [-> Hc]. split; [done|]. simpl.
    by rewrite Ascii.eqb_sym, E, Hc.
Qed.

Lemma all_chars_app p a b : all_chars p (a +:+ b) = all_chars p a && all_chars p b.
Proof.
  induction a as [|c a IH]; [done|]. rewrite app_cons_str. simpl.
  by rewrite IH, andb_assoc.
Qed.

Lemma contains_char_app a b c : contains_char (a +:+ b) c = contains_char a c || contains_char b c.
Proof. induction a as [|d a IH]; [done|]. rewrite app_cons_str. cbn [contains_char]. by rewrite IH, orb_assoc. Qed.

Lemma all_chars_contains p s c : all_chars p s = true → p c = false →
  contains_char s c = false.
Proof.
  intros H Hc. induction s as [|d s IH]; [done|]. simpl in *.
  apply andb_true_iff in H as [Hd Hs]. rewrite IH by done.
  destruct (Ascii.eqb c d) eqn:E; [|done]. apply Ascii.eqb_eq in E as ->. congruence.
Qed.

(** *** Hexadecimal round trip *)

Lemma hex_value_digit d : 0 ≤ d < 16 → hex_value (hex_digit d) = Some d.
Proof.
  intros H.
  assert (d = 0 ∨ d = 1 ∨ d = 2 ∨ d = 3 ∨ d = 4 ∨ d = 5 ∨ d = 6 ∨ d = 7 ∨ d = 8
          ∨ d = 9 ∨ d = 10 ∨ d = 11 ∨ d = 12 ∨ d = 13 ∨ d = 14 ∨ d = 15)
    as Hd by lia.
  repeat destruct Hd as [->|Hd]; [done..|]. by subst.
Qed.

Lemma parse_hex_from_app acc a b : parse_hex_from acc (a +:+ b) =
  match parse_hex_from acc a with
  | Some n => parse_hex_from n b
  | None => None
  end.
Proof.
  revert acc. induction a as [|c a IH]; intros acc; [done|].
  rewrite app_cons_str. simpl. destruct (hex_value c); [apply IH|done].
Qed.

Lemma parse_hex_pad w n acc : 0 ≤ n < 16 ^ Z.of_nat w →
  parse_hex_from acc (hex_pad w n) = Some (acc * 16 ^ Z.of_nat w + n).
Proof.
  revert n acc. induction w as [|w IH]; intros n acc Hn.
  - simpl. f_equal. simpl in Hn. lia.
  - cbn [hex_pad]. rewrite Nat2Z.inj_succ, Z.pow_succ_r in * by lia.
    rewrite parse_hex_from_app, IH.
    + simpl. rewrite hex_value_digit by (apply Z.mod_pos_bound; lia).
      simpl. f_equal. pose proof (Z.div_mod n 16). lia.
    + split; [apply Z.div_pos; lia|]. apply Z.div_lt_upper_bound; lia.
Qed.

Lemma length_hex_pad w n : String.length (hex_pad w n) = w.
Proof.
  revert n. induction w as [|w IH]; intros n; [done|]. cbn [hex_pad].
  rewrite length_app_str, IH. simpl. lia.
Qed.

Lemma parse_uint_hex_pad n : 0 ≤ n < 2 ^ 64 → parse_uint_hex (hex_pad 16 n) = Some n.
Proof.
  intros Hn. unfold parse_uint_hex.
  pose proof (length_hex_pad 16 n) as Hl.
  destruct (hex_pad 16 n) as [|c s] eqn:E; [done|]. rewrite <- E.
  rewrite parse_hex_pad by (change (16 ^ Z.of_nat 16) with (2 ^ 64); lia).
  rewrite Z.mul_0_l, Z.add_0_l. destruct (Z.ltb_spec n (2 ^ 64)); [done|lia].
Qed.

Lemma hex_pad_inj n m : 0 ≤ n < 2 ^ 64 → 0 ≤ m < 2 ^ 64 →
  hex_pad 16 n = hex_pad 16 m → n = m.
Proof.
  intros Hn Hm E. apply parse_uint_hex_pad in Hn, Hm. congruence.
Qed.

(** *** Decimal *)

Lemma code_dec_digit n : 0 ≤ n < 10 →
  code (ascii_of_N (Z.to_N (48 + n))) = 48 + n ∧ is_digit (ascii_of_N (Z.to_N (48 + n))) = true.
Proof.
  intros Hn. assert (n = 0 ∨ n = 1 ∨ n = 2 ∨ n = 3 ∨ n = 4 ∨ n = 5 ∨ n = 6 ∨ n = 7 ∨ n = 8 ∨ n = 9) as Hd by lia.
  repeat (destruct Hd as [->|Hd]; [by vm_compute|]). by subst.
Qed.

Lemma parse_dec_digits fuel : ∀ n acc a, 0 ≤ n < 10 ^ Z.of_nat fuel → (0 < fuel)%nat →
  ∃ k, 0 ≤ k ∧ parse_dec_from a (dec_digits fuel n acc) = parse_dec_from (a * 10 ^ k + n) acc.
Proof.
  induction fuel as [|fuel IH]; intros n acc a Hn Hf; [lia|].
  rewrite Nat2Z.inj_succ, Z.pow_succ_r in Hn by lia. cbn [dec_digits].
  assert (0 ≤ n mod 10 < 10) as Hm by (apply Z.mod_pos_bound; lia).
  destruct (code_dec_digit (n mod 10) Hm) as [Hc Hd].
  pose proof (Z.div_mod n 10 ltac:(lia)).
  destruct (Z.ltb_spec n 10) as [Hlt|Hge].
  - exists 1. split; [lia|]. cbn [parse_dec_from]. rewrite Hd, Hc. f_equal.
    rewrite (Z.mod_small n 10) by lia. lia.
  - destruct fuel as [|fuel]; [simpl in Hn; lia|].
    destruct (IH (n / 10) (String (ascii_of_N (Z.to_N (48 + n mod 10))) acc) a) as (k & Hk & ->); [|lia|].
    { split; [apply Z.div_pos; lia|]. apply Z.div_lt_upper_bound; lia. }
    exists (k + 1). split; [lia|]. cbn [parse_dec_from]. rewrite Hd, Hc. f_equal.
    rewrite Z.pow_add_r by lia. change (10 ^ 1) with 10.
    replace (48 + n mod 10 - 48) with (n mod 10) by lia.
    rewrite (Z.mul_assoc a). lia.
Qed.

Lemma dec_digits_shape fuel : ∀ n acc, (0 < fuel)%nat → 0 ≤ n → all_chars is_digit acc = true →
  all_chars is_digit (dec_digits fuel n acc) = true ∧ 0 < len (dec_digits fuel n acc) ≤ Z.of_nat fuel + len acc.
Proof.
  induction fuel as [|fuel IH]; intros n acc Hf Hn Ha; [lia|]. cbn [dec_digits].
  assert (0 ≤ n mod 10 < 10) as Hm by (apply Z.mod_pos_bound; lia).
  destruct (code_dec_digit (n mod 10) Hm) as [_ Hd].
  assert (∀ c s, len (String c s) = 1 + len s) as Hl by (intros; unfold len; simpl; lia).
  pose proof (len_nonneg acc).
  destruct (n <? 10).
  - rewrite Hl. split; [simpl; by rewrite Hd|lia].
  - destruct fuel as [|fuel]; [cbn [dec_digits]; rewrite Hl; split; [simpl; by rewrite Hd|lia]|].
    destruct (IH (n / 10) (String (ascii_of_N (Z.to_N (48 + n mod 10))) acc)) as [H1 H2];
      [lia|apply Z.div_pos; lia|simpl; by rewrite Hd|].
    split; [done|]. rewrite Hl in H2. lia.
Qed.

Lemma parse_format_uint n : 0 ≤ n < 2 ^ 64 → parse_uint (format_uint n) = Some n.
Proof.
  intros Hn. unfold parse_uint, format_uint.
  destruct (dec_digits_shape 20 n EmptyString) as [_ Hl]; [lia|lia|done|].
  destruct (dec_digits 20 n EmptyString) as [|c s] eqn:E; [unfold len in Hl; simpl in Hl; lia|]. rewrite <- E.
  destruct (parse_dec_digits 20 n EmptyString 0) as (k & _ & ->); [|lia|].
  { split; [lia|]. change (10 ^ Z.of_nat 20) with 100000000000000000000.
    change (2 ^ 64) with 18446744073709551616 in Hn. lia. }
  rewrite Z.mul_0_l, Z.add_0_l. cbn [parse_dec_from]. destruct (Z.ltb_spec n (2 ^ 64)); [done|lia].
Qed.

Lemma format_uint_inj n m : 0 ≤ n < 2 ^ 64 → 0 ≤ m < 2 ^ 64 → format_uint n = format_uint m → n = m.
Proof. intros Hn Hm E. apply parse_format_uint in Hn, Hm. congruence. Qed.

Lemma format_uint_shape n : 0 ≤ n → all_chars is_digit (format_uint n) = true ∧ 0 < len (format_uint n) ≤ 20.
Proof. intros Hn. apply (dec_digits_shape 20 n EmptyString); [lia|done|done]. Qed.

(** ** [strconv.Itoa] of an int64. *)

Definition itoa (n : Z) : string := if n <? 0 then "-" +:+ format_uint (- n) else format_uint n.

Lemma itoa_inj n m : - 2 ^ 63 ≤ n < 2 ^ 63 → - 2 ^ 63 ≤ m < 2 ^ 63 → itoa n = itoa m → n = m.
Proof.
  intros Hn Hm. unfold itoa. zcases; intros E.
  - apply (inj _) in E. apply format_uint_inj in E; lia.
  - destruct (format_uint_shape m ltac:(lia)) as [Hd _]. by rewrite <- E in Hd.
  - destruct (format_uint_shape n ltac:(lia)) as [Hd _]. by rewrite E in Hd.
  - apply format_uint_inj in E; lia.
Qed.

Lemma itoa_no_nul n : contains_char (itoa n) Ascii.zero = false.
Proof.
  assert (∀ m, 0 ≤ m → contains_char (format_uint m) Ascii.zero = false) as Hd.
  { intros m Hm. destruct (format_uint_shape m Hm) as [Hd _]. by apply (all_chars_contains is_digit). }
  unfold itoa. zcases; [|by apply Hd]. rewrite app_cons_str. simpl. apply Hd. lia.
Qed.

(** Two strings with the same separated first field have the same rest. *)
Lemma cut_inj a b c d sep : contains_char a sep = false → contains_char c sep = false →
  a +:+ String sep b = c +:+ String sep d → a = c ∧ b = d.
Proof.
  intros Ha Hc E. pose proof (cut_app a sep b Ha) as E1. rewrite E, cut_app in E1 by done. by simplify_eq.
Qed.

(** [strings.TrimSpace]: the UTF-8 encodings of the runes for which
    [unicode.IsSpace] holds, removed from both ends. *)
Definition bytes_of (l : list N) : string :=
  foldr (λ n s, String (ascii_of_N n) s) EmptyString l.

Definition space_encodings : list string :=
  bytes_of <$>
  ([[9]; [10]; [11]; [12]; [13]; [32]; [194; 133]; [194; 160]; [225; 154; 128];
    [226; 128; 128]; [226; 128; 129]; [226; 128; 130]; [226; 128; 131]; [226; 128; 132];
    [226; 128; 133]; [226; 128; 134]; [226; 128; 135]; [226; 128; 136]; [226; 128; 137];
    [226; 128; 138]; [226; 128; 168]; [226; 128; 169]; [226; 128; 175]; [226; 129; 159];
    [227; 128; 128]]%N : list (list N)).

Fixpoint first_prefix (l : list string) (s : string) : option string :=
  match l with
  | [] => None
  | p :: l => if has_prefix s p then Some p else first_prefix l s
  end.

Fixpoint first_suffix (l : list string) (s : string) : option string :=
  match l with
  | [] => None
  | p :: l => if has_suffix s p then Some p else first_suffix l s
  end.

Fixpoint trim_left (fuel : nat) (s : string) : string :=
  match fuel with
  | O => s
  | S fuel => match first_prefix space_encodings s with
              | Some p => trim_left fuel (trim_prefix s p)
              | None => s
              end
  end.

Fixpoint trim_right (fuel : nat) (s : string) : string :=
  match fuel with
  | O => s
  | S fuel => match first_suffix space_encodings s with
              | Some p => trim_right fuel (trim_suffix s p)
              | None => s
              end
  end.

Definition trim_space (s : string) : string :=
  let s := trim_left (String.length s) s in trim_right (String.length s) s.

(** [strings.ContainsAny] for a set of one-byte characters. *)
Definition contains_any (s : string) (chars : string) : bool :=
  any_char (contains_char chars) s.

(** [strings.ReplaceAll] of one byte by another. *)
Fixpoint replace_char (s : string) (old new : ascii) : string :=
  match s with
  | EmptyString => EmptyString
  | String c s => String (if Ascii.eqb c old then new else c) (replace_char s old new)
  end.

(** [strings.ReplaceAll] of one byte by nothing. *)
Fixpoint remove_char (s : string) (old : ascii) : string :=
  match s with
  | EmptyString => EmptyString
  | String c s => if Ascii.eqb c old then remove_char s old else String c (remove_char s old)
  end.

(** [strings.Split] at a one-byte separator. *)
Fixpoint split (s : string) (sep : ascii) : list string :=
  match s with
  | EmptyString => [EmptyString]
  | String c s =>
    if Ascii.eqb c sep then EmptyString :: split s sep
    else match split s sep with
         | [] => [String c EmptyString]
         | x :: l => String c x :: l
         end
  end.

(** [strings.Join]. *)
Fixpoint join (l : list string) (sep : string) : string :=
  match l with
  | [] => EmptyString
  | [x] => x
  | x :: l => x +:+ sep +:+ join l sep
  end.

Definition is_alnum (c : ascii) : bool := is_lower_letter c || is_upper_letter c || is_digit c.

(** A digit [encoding/hex] decodes. *)
Definition is_hex (c : ascii) : bool := is_digit c || in_range "a" "f" c || in_range "A" "F" c.

Lemma contains_any_false s chars c :
  contains_any s chars = false → contains_char chars c = true → contains_char s c = false.
Proof.
  unfold contains_any, any_char. rewrite negb_false_iff. intros Hs Hc.
  apply (all_chars_contains _ _ _ Hs). by rewrite Hc.
Qed.

Lemma all_chars_impl (p q : ascii → bool) s :
  (∀ c, p c = true → q c = true) → all_chars p s = true → all_chars q s = true.
Proof.
  intros Hpq. induction s as [|c s IH]; simpl; [done|]. intros [Hc Hs]%andb_true_iff.
  by rewrite (Hpq c Hc), IH.
Qed.

Lemma split_join s sep : join (split s sep) (String sep EmptyString) = s.
Proof.
  induction s as [|c s IH]; [done|]. simpl. destruct (Ascii.eqb_spec c sep) as [->|Hne].
  - simpl. destruct (split s sep) as [|x l] eqn:E; [by destruct s; simpl in E; repeat case_match|].
    by rewrite IH.
  - destruct (split s sep) as [|x l]; [by rewrite <- IH|].
    simpl in *. destruct l; simpl in *; by rewrite <- IH.
Qed.

Lemma split_no_sep s sep x : x ∈ split s sep → contains_char x sep = false.
Proof.
  revert x. induction s as [|c s IH]; intros x; simpl.
  - by intros ->%list_elem_of_singleton.
  - destruct (Ascii.eqb_spec c sep) as [->|Hne].
    + intros [->|Hx]%elem_of_cons; [done|by apply IH].
    + destruct (split s sep) as [|y l] eqn:E.
      * intros ->%list_elem_of_singleton. simpl. rewrite orb_false_r. by apply Ascii.eqb_neq.
      * intros [->|Hx]%elem_of_cons; simpl.
        -- rewrite (IH y) by (left). rewrite orb_false_r. by apply Ascii.eqb_neq.
        -- apply IH. by right.
Qed.

(** First and last byte, and a test of an optional byte. *)
Fixpoint last_char (s : string) : option ascii :=
  match s with
  | EmptyString => None
  | String c EmptyString => Some c
  | String _ s => last_char s
  end.

Definition first_char (s : string) : option ascii :=
  match s with EmptyString => None | String c _ => Some c end.

Definition holds_of (p : ascii → bool) (c : option ascii) : bool :=
  match c with Some c => p c | None => false end.

(** A printable byte of ASCII other than the space: no encoding of a space
    starts or ends with one. *)
Definition is_graphic (c : ascii) : bool := in_range "!" "~" c.

Lemma space_encodings_ends :
  forallb (λ p, negb (holds_of is_graphic (first_char p)) && negb (holds_of is_graphic (last_char p))
                && negb (String.eqb p "")) space_encodings = true.
Proof. vm_compute. reflexivity. Qed.

Lemma has_prefix_first s p : has_prefix s p = true → p ≠ "" → first_char p = first_char s.
Proof. intros [t ->]%has_prefix_inv Hp. by destruct p. Qed.

Lemma last_char_cons c s : s ≠ "" → last_char (String c s) = last_char s.
Proof. by destruct s. Qed.

Lemma has_suffix_last s p : has_suffix s p = true → p ≠ "" → last_char p = last_char s.
Proof.
  induction s as [|c s IH]; cbn [has_suffix]; intros Hs Hp.
  - by destruct p.
  - apply orb_true_iff in Hs as [Hs|Hs]; [by apply String.eqb_eq in Hs as <-|].
    rewrite (IH Hs Hp). destruct s; [|done]. by destruct p.
Qed.

Lemma no_space_prefix s : holds_of is_graphic (first_char s) = true → first_prefix space_encodings s = None.
Proof.
  intros Hg. pose proof space_encodings_ends as Hall. revert Hall.
  generalize space_encodings. intros l. induction l as [|p l IH]; simpl; [done|].
  rewrite !andb_true_iff. intros [[[Hf _] Hne] Hl].
  destruct (has_prefix s p) eqn:E; [|by apply IH].
  rewrite (has_prefix_first s p E) in Hf by (by intros ->). by rewrite Hg in Hf.
Qed.

Lemma no_space_suffix s : holds_of is_graphic (last_char s) = true → first_suffix space_encodings s = None.
Proof.
  intros Hg. pose proof space_encodings_ends as Hall. revert Hall.
  generalize space_encodings. intros l. induction l as [|p l IH]; simpl; [done|].
  rewrite !andb_true_iff. intros [[[_ Hf] Hne] Hl].
  destruct (has_suffix s p) eqn:E; [|by apply IH].
  rewrite (has_suffix_last s p E) in Hf by (by intros ->). by rewrite Hg in Hf.
Qed.

(** A string whose first and last bytes are printable is already trimmed. *)
Lemma trim_space_id s :
  holds_of is_graphic (first_char s) = true → holds_of is_graphic (last_char s) = true → trim_space s = s.
Proof.
  intros Hf Hl. unfold trim_space.
  assert (∀ n, trim_left n s = s) as -> by (intros [|n]; cbn [trim_left]; [done|by rewrite (no_space_prefix s Hf)]).
  destruct (String.length s); cbn [trim_right]; [done|by rewrite (no_space_suffix s Hl)].
Qed.

Lemma last_char_app a b : b ≠ "" → last_char (a +:+ b) = last_char b.
Proof.
  intros Hb. induction a as [|c a IH]; [done|]. rewrite app_cons_str, last_char_cons; [done|].
  by destruct a.
Qed.

Lemma all_chars_last (p : ascii → bool) s : all_chars p s = true → s ≠ "" → holds_of p (last_char s) = true.
Proof.
  induction s as [|c s IH]; simpl; [done|]. intros [Hc Hs]%andb_true_iff _.
  destruct s as [|d s]; [done|]. by apply IH.
Qed.

Lemma holds_of_impl (p q : ascii → bool) c :
  (∀ x, p x = true → q x = true) → holds_of p c = true → holds_of q c = true.
Proof. destruct c; simpl; auto. Qed.

Lemma app_nonempty a b : b ≠ "" → a +:+ b ≠ "".
Proof. by destruct a. Qed.
#[export] Hint Resolve app_nonempty : agent.

Lemma parse_uint_range s n : parse_uint s = Some n → 0 ≤ n < 2 ^ 64.
Proof.
  assert (∀ s acc n, 0 ≤ acc → parse_dec_from acc s = Some n → 0 ≤ n) as Hnn.
  { clear. intros s. induction s as [|c s IH]; intros acc n Ha; simpl; [by intros [= <-]|].
    destruct (is_digit c) eqn:Hd; [|done]. apply IH.
    unfold is_digit, in_range in Hd. rewrite andb_true_iff, !Z.leb_le in Hd.
    replace (code "0") with 48 in Hd by done. lia. }
  unfold parse_uint. destruct s as [|c s]; [done|]. destruct (parse_dec_from _ _) eqn:E; [|done].
  destruct (Z.ltb_spec z (2 ^ 64)); [|done]. intros [= <-]. split; [|done]. by eapply Hnn.
Qed.
