(* ===== verification/Wire.v ===== *)
(** * Wire messages and the SDK

    The messages of [agentv1pb] and the constants of [agentcontrol] come from
    Control's SDK, which is not part of the repository.  Messages are records
    of the fields the Agent reads or writes, with what it only carries kept
    as an opaque byte string; the SDK's constants and the protobuf codec are
    class parameters of the components that use them. *)

From S2P Require Import Prelude.
From Stdlib Require Import Ascii String.

(** ** Report envelopes

    [AgentToControl] as the report spool and the report loop use it: the
    payload is one of the three batch kinds, each with its [batch_id], or
    another payload. *)

Inductive Payload :=
| Traffic (batch_id body : string)
| Logs (batch_id body : string)
| Destinations (batch_id body : string)
| OtherPayload (body : string).

Record AgentToControl := mkAgentToControl {
  RequestId : string;
  NodeId : Z;
  SentAtUnixMs : Z;
  payload : Payload
}.

#[export] Instance Payload_eq_dec : EqDecision Payload.
Proof. solve_decision. Defined.
#[export] Instance AgentToControl_eq_dec : EqDecision AgentToControl.
Proof. solve_decision. Defined.

(** The protobuf codec: deterministic marshalling and unmarshalling. *)
Class Proto := {
  marshal : AgentToControl → option string;
  unmarshal : string → option AgentToControl
}.

(** Documented behaviour of protobuf: what was marshalled unmarshals to the
    same message. *)
Class ProtoLaws `{Proto} :=
  unmarshal_marshal : ∀ m data, marshal m = Some data → unmarshal data = Some m.

(** ** A concrete codec

    Any injective encoding satisfies the law; this one writes the bits of a
    numbering of the messages, and is what the witnesses evaluate. *)

Module BitCodec.

Fixpoint pos_bits (p : positive) : string :=
  match p with
  | xH => EmptyString
  | xO p => String "0" (pos_bits p)
  | xI p => String "1" (pos_bits p)
  end.

Fixpoint bits_pos (s : string) : option positive :=
  match s with
  | EmptyString => Some xH
  | String c s =>
      match bits_pos s with
      | Some p => if Ascii.eqb c "0" then Some (xO p)
                  else if Ascii.eqb c "1" then Some (xI p) else None
      | None => None
      end
  end.

Lemma bits_pos_bits p : bits_pos (pos_bits p) = Some p.
Proof. induction p; simpl; by rewrite ?IHp. Qed.

Definition enc_payload (p : Payload) : (string * string + string * string) + (string * string + string) :=
  match p with
  | Traffic i b => inl (inl (i, b))
  | Logs i b => inl (inr (i, b))
  | Destinations i b => inr (inl (i, b))
  | OtherPayload b => inr (inr b)
  end.

Definition dec_payload (x : (string * string + string * string) + (string * string + string)) : Payload :=
  match x with
  | inl (inl (i, b)) => Traffic i b
  | inl (inr (i, b)) => Logs i b
  | inr (inl (i, b)) => Destinations i b
  | inr (inr b) => OtherPayload b
  end.

Definition tuple : Type :=
  string * Z * Z * ((string * string + string * string) + (string * string + string)).

Definition to_tuple (m : AgentToControl) : tuple :=
  (RequestId m, NodeId m, SentAtUnixMs m, enc_payload (payload m)).

Definition of_tuple (t : tuple) : AgentToControl :=
  let '(r, n, s, p) := t in mkAgentToControl r n s (dec_payload p).

Lemma of_to_tuple m : of_tuple (to_tuple m) = m.
Proof. by destruct m as [r n s []]. Qed.

#[export] Instance codec : Proto := {|
  marshal m := Some (pos_bits (encode (to_tuple m)));
  unmarshal s := p ← bits_pos s; t ← (decode p : option tuple); Some (of_tuple t)
|}.

#[export] Instance codec_laws : ProtoLaws.
Proof.
  intros m data [= <-]. simpl. rewrite bits_pos_bits. simpl.
  rewrite decode_encode. cbn [mbind option_bind]. by rewrite of_to_tuple.
Qed.

End BitCodec.
