(* ===== verification/Spool.v ===== *)
(** * The report spool (src/api/agent/spool/spool.go)

    The Agent's durable queue of report batches waiting for Control's
    ReportAck.  The state is the [Spool] struct together with the files of
    its directory: [disk] maps a file name to its contents.  System calls may
    fail; an [OS] says which ones do, and every operation takes one, so that
    a fault can hit any single call. *)

From Stdlib Require Import Ascii.
From S2P Require Import Prelude GoStrings Wire.

Module Spool.

(** ** Data *)

Record Limits := mkLimits {
  MaxBytes : Z;
  MaxAge : duration;
  MaxEntries : Z
}.

Record Entry := mkEntry {
  Seq : Z;
  BatchID : string;
  Size : Z;
  CreatedAt : time;
  path : string
}.

#[export] Instance Entry_eq_dec : EqDecision Entry.
Proof. solve_decision. Defined.

(** The order of [sort.Slice] in [index]. *)
Definition seq_le (a b : Entry) : Prop := Seq a ≤ Seq b.
#[export] Instance seq_le_dec : RelDecision seq_le.
Proof. intros a b. unfold seq_le. apply _. Defined.
#[export] Instance seq_le_total : Total seq_le.
Proof. intros a b. unfold seq_le. lia. Qed.
#[export] Instance seq_le_trans : Transitive seq_le.
Proof. intros a b c. unfold seq_le. lia. Qed.

Record Drops := mkDrops {
  DropSize : Z;
  DropAge : Z;
  DropCount : Z
}.

(** One file of the spool directory. *)
Record file := mkFile {
  regular : bool;
  data : string
}.

Record Spool := mkSpool {
  limits : Limits;
  entries : list Entry;
  byBatch : gmap string Entry;
  bytes : Z;
  nextSeq : Z;
  drops : Drops;
  disk : gmap string file
}.

(** Which system calls succeed. *)
Record OS := mkOS {
  mkdir_ok : bool;
  chmod_ok : bool;
  readdir_ok : bool;
  read_ok : string → bool;
  remove_ok : string → bool;
  write_ok : string → bool
}.

Definition no_faults : OS := mkOS true true true (λ _, true) (λ _, true) (λ _, true).

Definition DefaultMaxEntries : Z := 100000.
Definition MaxRetention : duration := 6 * 24 * hour.
Definition suffix : string := ".pb".

Definition ErrTooLarge : string := "report batch exceeds the spool size".

(** ** Files *)

(** [fmt.Sprintf("%016x%s", seq, suffix)]. *)
Definition file_name (seq : Z) : string := hex_pad 16 seq +:+ suffix.

(** [os.Remove], its error ignored by every caller. *)
Definition os_remove (os : OS) (name : string) (d : gmap string file) : gmap string file :=
  if remove_ok os name then delete name d else d.

(** [os.ReadDir]: the directory's entries, sorted by file name. *)
Definition name_le (a b : string * file) : Prop := String.le a.1 b.1.
#[export] Instance name_le_dec : RelDecision name_le.
Proof. intros a b. unfold name_le. apply _. Defined.

Definition read_dir (d : gmap string file) : list (string * file) :=
  merge_sort name_le (map_to_list d).

(** The sequence a file name stands for: [None] for a file [index] skips. *)
Definition name_seq (name : string) : option Z :=
  match parse_uint_hex (trim_suffix name suffix) with
  | Some seq => if has_suffix name suffix then Some seq else None
  | None => None
  end.

Section Operations.
Context `{Proto}.

Inductive read_outcome :=
| ReadOk (message : AgentToControl) (size : Z)
| ReadNotExist
| ReadErr.

Definition readBatch (os : OS) (d : gmap string file) (name : string) : read_outcome :=
  match d !! name with
  | None => ReadNotExist
  | Some f =>
      if negb (read_ok os name) || negb (regular f) then ReadErr
      else match unmarshal (data f) with
           | Some message => ReadOk message (len (data f))
           | None => ReadErr
           end
  end.

Definition batchID (message : AgentToControl) : string :=
  match payload message with
  | Traffic id _ => id
  | Logs id _ => id
  | Destinations id _ => id
  | OtherPayload _ => ""
  end.

(** [writeFile]: a synced temporary file renamed over the path.  A failure
    at any step leaves the path as it was (the temporary file is removed). *)
Definition writeFile (os : OS) (d : gmap string file) (name content : string) : result (gmap string file) :=
  if write_ok os name then Ok (<[name := mkFile true content]> d)
  else Err "write".

(** ** Operations *)

Definition with_disk (s : Spool) (d : gmap string file) : Spool :=
  mkSpool (limits s) (entries s) (byBatch s) (bytes s) (nextSeq s) (drops s) d.

Definition with_entries (s : Spool) (es : list Entry) : Spool :=
  mkSpool (limits s) es (byBatch s) (bytes s) (nextSeq s) (drops s) (disk s).

Definition with_drops (s : Spool) (d : Drops) : Spool :=
  mkSpool (limits s) (entries s) (byBatch s) (bytes s) (nextSeq s) d (disk s).

(** One directory entry of [index]. *)
Definition index_step (os : OS) (s : Spool) (nf : string * file) : Spool :=
  let '(name, f) := nf in
  if has_prefix name "." then with_disk s (os_remove os name (disk s))
  else match name_seq name with
       | None => s
       | Some seq =>
           if negb (regular f) then s
           else match readBatch os (disk s) name with
                | ReadOk message size =>
                    let entry := mkEntry seq (batchID message) size
                                   (time_unix_milli (SentAtUnixMs message)) name in
                    if String.eqb (BatchID entry) ""
                       || bool_decide (is_Some (byBatch s !! BatchID entry))
                    then with_disk s (os_remove os name (disk s))
                    else mkSpool (limits s) (entries s ++ [entry])
                           (<[BatchID entry := entry]> (byBatch s)) (bytes s + size)
                           (if nextSeq s <=? seq then u64 (seq + 1) else nextSeq s)
                           (drops s) (disk s)
                | _ => with_disk s (os_remove os name (disk s))
                end
       end.

Definition index (os : OS) (s : Spool) : result Spool :=
  if negb (readdir_ok os) then Err "readdir"
  else
    let s := fold_left (index_step os) (read_dir (disk s)) s in
    Ok (with_entries s (merge_sort seq_le (entries s))).

Definition Open (os : OS) (dir : string) (l : Limits) (d : gmap string file) : result Spool :=
  if negb (has_prefix dir "/") then Err "report spool directory must be an absolute path"
  else if MaxBytes l <=? 0 then Err "report spool needs a size bound"
  else if (MaxAge l <=? 0) || (MaxRetention <? MaxAge l) then Err "report spool age bound"
  else
    let l := if MaxEntries l <=? 0 then mkLimits (MaxBytes l) (MaxAge l) DefaultMaxEntries else l in
    if negb (mkdir_ok os) then Err "mkdir"
    else if negb (chmod_ok os) then Err "chmod"
    else index os (mkSpool l [] ∅ 0 1 (mkDrops 0 0 0) d).

(** The first occurrence of [e] taken out of the list. *)
Fixpoint remove_first (e : Entry) (es : list Entry) : list Entry :=
  match es with
  | [] => []
  | c :: es => if decide (c = e) then es else c :: remove_first e es
  end.

Definition removeLocked (os : OS) (e : Entry) (s : Spool) : Spool :=
  mkSpool (limits s) (remove_first e (entries s)) (delete (BatchID e) (byBatch s))
    (bytes s - Size e) (nextSeq s) (drops s) (os_remove os (path e) (disk s)).

(** One entry of [expireLocked]: [acc] is the spool and the entries kept. *)
Definition expire_step (os : OS) (cutoff : time) (acc : Spool * list Entry) (e : Entry)
  : Spool * list Entry :=
  let '(s, kept) := acc in
  if before (CreatedAt e) cutoff then
    (mkSpool (limits s) (entries s) (delete (BatchID e) (byBatch s)) (bytes s - Size e)
       (nextSeq s) (mkDrops (DropSize (drops s)) (DropAge (drops s) + 1) (DropCount (drops s)))
       (os_remove os (path e) (disk s)), kept)
  else (s, kept ++ [e]).

Definition expireLocked (os : OS) (now : time) (s : Spool) : Spool :=
  let cutoff := add now (- MaxAge (limits s)) in
  let '(s, kept) := fold_left (expire_step os cutoff) (entries s) (s, []) in
  with_entries s kept.

(** Whether a batch of [size] does not fit beside what is spooled. *)
Definition over_bytes (size : Z) (s : Spool) : bool := MaxBytes (limits s) <? bytes s + size.
Definition over_count (s : Spool) : bool :=
  MaxEntries (limits s) <? Z.of_nat (length (entries s)) + 1.

(** The eviction loop of [Append]; [es] is [entries s]. *)
Fixpoint make_room (os : OS) (size : Z) (es : list Entry) (s : Spool) : Spool :=
  match es with
  | [] => s
  | e :: es =>
      if over_bytes size s || over_count s then
        let d := drops s in
        let d := if over_bytes size s then mkDrops (DropSize d + 1) (DropAge d) (DropCount d)
                 else mkDrops (DropSize d) (DropAge d) (DropCount d + 1) in
        make_room os size es (removeLocked os e (with_drops s d))
      else s
  end.

Definition Append (os : OS) (now : time) (message : AgentToControl) (s : Spool)
  : Spool * result unit :=
  let id := batchID message in
  if String.eqb id "" then (s, Err "report spool: the message carries no batch")
  else match marshal message with
       | None => (s, Err "marshal")
       | Some content =>
           let size := len content in
           if MaxBytes (limits s) <? size then (s, Err ErrTooLarge)
           else if bool_decide (is_Some (byBatch s !! id)) then (s, Ok tt)
           else
             let s := expireLocked os now s in
             let s := make_room os size (entries s) s in
             let seq := nextSeq s in
             match writeFile os (disk s) (file_name seq) content with
             | Err e => (s, Err e)
             | Ok d =>
                 let entry := mkEntry seq id size (time_unix_milli (SentAtUnixMs message))
                                (file_name seq) in
                 (mkSpool (limits s) (entries s ++ [entry]) (<[id := entry]> (byBatch s))
                    (bytes s + size) (u64 (nextSeq s + 1)) (drops s) d, Ok tt)
             end
       end.

Definition Pending (os : OS) (now : time) (s : Spool) : Spool * list Entry :=
  let s := expireLocked os now s in (s, entries s).

(** [Read]: the message, [Ok None] when the batch is gone. *)
Definition Read (os : OS) (id : string) (s : Spool) : result (option AgentToControl) :=
  match byBatch s !! id with
  | None => Ok None
  | Some e =>
      match readBatch os (disk s) (path e) with
      | ReadOk m _ => Ok (Some m)
      | ReadNotExist => Ok None
      | ReadErr => Err "read"
      end
  end.

Definition Remove (os : OS) (id : string) (s : Spool) : Spool * bool :=
  match byBatch s !! id with
  | None => (s, false)
  | Some e => (removeLocked os e s, true)
  end.

Definition Stats (s : Spool) : Z * Z * Drops :=
  (Z.of_nat (length (entries s)), bytes s, drops s).

End Operations.

(** ** Invariant *)

Definition sum_sizes (es : list Entry) : Z := foldr (λ e a, Size e + a) 0 es.

Definition index_of (es : list Entry) : gmap string Entry :=
  list_to_map ((λ e, (BatchID e, e)) <$> es).

Definition seq_lt (a b : Entry) : Prop := Seq a < Seq b.

(** What the mutex guards: the batch index holds exactly the entries, the
    byte count is their sum, batch ids are unique and not empty, and
    sequences increase along the queue, all below the next one. *)
Record wf (s : Spool) : Prop := mkWf {
  wf_index : byBatch s = index_of (entries s);
  wf_bytes : bytes s = sum_sizes (entries s);
  wf_ids : NoDup (BatchID <$> entries s);
  wf_named : Forall (λ e, BatchID e ≠ "") (entries s);
  wf_order : StronglySorted seq_lt (entries s);
  wf_seqs : Forall (λ e, 0 ≤ Seq e < nextSeq s) (entries s);
  wf_next : 0 ≤ nextSeq s < 2 ^ 64
}.

Lemma sum_sizes_app a b : sum_sizes (a ++ b) = sum_sizes a + sum_sizes b.
Proof. induction a as [|e a IH]; simpl; [done|]. rewrite IH. lia. Qed.

Lemma lookup_index_of_Some es id e :
  index_of es !! id = Some e → e ∈ es ∧ BatchID e = id.
Proof.
  intros H. apply elem_of_list_to_map_2, list_elem_of_fmap in H as (e' & E & Hin).
  by simplify_eq.
Qed.

Lemma lookup_index_of es e :
  NoDup (BatchID <$> es) → e ∈ es → index_of es !! BatchID e = Some e.
Proof.
  intros Hnd Hin. apply elem_of_list_to_map_1.
  - rewrite <- list_fmap_compose. done.
  - apply list_elem_of_fmap. eauto.
Qed.

Lemma lookup_index_of_None es id :
  index_of es !! id = None ↔ id ∉ BatchID <$> es.
Proof.
  unfold index_of. rewrite <- not_elem_of_list_to_map.
  rewrite <- list_fmap_compose. done.
Qed.

Lemma index_of_snoc es e : BatchID e ∉ BatchID <$> es →
  index_of (es ++ [e]) = <[BatchID e := e]> (index_of es).
Proof.
  intros Hn. unfold index_of. rewrite fmap_app. simpl.
  rewrite list_to_map_snoc; [done|]. rewrite <- list_fmap_compose. done.
Qed.

Lemma index_of_delete a e b : NoDup (BatchID <$> (a ++ e :: b)) →
  delete (BatchID e) (index_of (a ++ e :: b)) = index_of (a ++ b).
Proof.
  intros Hnd. rewrite fmap_app, fmap_cons in Hnd.
  apply NoDup_app in Hnd as (_ & Hdisj & Hnd). apply NoDup_cons in Hnd as [Hb _].
  unfold index_of. rewrite !fmap_app, fmap_cons, !list_to_map_app. simpl.
  rewrite delete_union, delete_insert_eq.
  rewrite !delete_id; [done|..].
  - apply not_elem_of_list_to_map. rewrite <- list_fmap_compose. done.
  - apply not_elem_of_list_to_map. rewrite <- list_fmap_compose.
    intros Hin. apply (Hdisj _ Hin). by apply list_elem_of_here.
Qed.

Lemma remove_first_split e a b : e ∉ a → remove_first e (a ++ e :: b) = a ++ b.
Proof.
  intros Hn. induction a as [|c a IH]; simpl.
  - by rewrite decide_True.
  - rewrite not_elem_of_cons in Hn. destruct Hn as [Hc Ha].
    rewrite decide_False by done. by rewrite IH.
Qed.

(** Taking entries out keeps the invariant, whatever else changes. *)
Lemma wf_shrink s s' :
  wf s → entries s' `sublist_of` entries s →
  byBatch s' = index_of (entries s') → bytes s' = sum_sizes (entries s') →
  nextSeq s' = nextSeq s → wf s'.
Proof.
  intros [] Hsub Hi Hb Hn. split; rewrite ?Hn; try done.
  - eapply sublist_NoDup; [done|]. by apply sublist_fmap.
  - by eapply Forall_sublist.
  - by eapply StronglySorted_sublist.
  - by eapply Forall_sublist.
Qed.

Lemma wf_entry_split s e : wf s → e ∈ entries s →
  ∃ a b, entries s = a ++ e :: b ∧ e ∉ a.
Proof.
  intros Hwf Hin. apply list_elem_of_split_l in Hin as (a & b & E & Ha). eauto.
Qed.

Lemma removeLocked_entries os e s a b :
  wf s → entries s = a ++ e :: b → e ∉ a → entries (removeLocked os e s) = a ++ b.
Proof. intros _ E Ha. simpl. rewrite E. by apply remove_first_split. Qed.

Lemma removeLocked_wf os e s : wf s → e ∈ entries s → wf (removeLocked os e s).
Proof.
  intros Hwf Hin. destruct (wf_entry_split s e Hwf Hin) as (a & b & E & Ha).
  pose proof (removeLocked_entries os e s a b Hwf E Ha) as Er.
  apply (wf_shrink s); [done|..]; rewrite ?Er.
  - rewrite E. apply sublist_app; [done|]. by apply sublist_cons.
  - simpl. rewrite (wf_index s Hwf), E. apply index_of_delete.
    rewrite <- E. apply (wf_ids s Hwf).
  - simpl. rewrite (wf_bytes s Hwf), E, !sum_sizes_app. simpl. lia.
  - done.
Qed.

(** *** Expiry *)

Definition fresh (cutoff : time) (e : Entry) : Prop := before (CreatedAt e) cutoff = false.
#[export] Instance fresh_dec cutoff e : Decision (fresh cutoff e).
Proof. unfold fresh. apply _. Defined.

Definition cutoff_of (now : time) (s : Spool) : time := add now (- MaxAge (limits s)).

(** The files [es] leaves behind when each is removed. *)
Definition remove_files (os : OS) (es : list Entry) (d : gmap string file) : gmap string file :=
  fold_left (λ d e, os_remove os (path e) d) es d.

Definition expired_part (cutoff : time) (es : list Entry) : list Entry :=
  filter (λ e, ¬ fresh cutoff e) es.

Lemma expire_fold os cutoff es s kept :
  byBatch s = index_of (kept ++ es) → bytes s = sum_sizes (kept ++ es) →
  NoDup (BatchID <$> (kept ++ es)) →
  let '(s', kept') := fold_left (expire_step os cutoff) es (s, kept) in
  kept' = kept ++ filter (fresh cutoff) es ∧
  byBatch s' = index_of kept' ∧ bytes s' = sum_sizes kept' ∧
  limits s' = limits s ∧ nextSeq s' = nextSeq s ∧
  drops s' = mkDrops (DropSize (drops s))
               (DropAge (drops s) + Z.of_nat (length (expired_part cutoff es)))
               (DropCount (drops s)) ∧
  disk s' = remove_files os (expired_part cutoff es) (disk s).
Proof.
  revert s kept. induction es as [|e es IH]; intros s kept Hi Hb Hnd; simpl.
  - rewrite app_nil_r in *. destruct (drops s). simpl.
    split_and!; try done. f_equal. lia.
  - unfold expired_part in *. destruct (before (CreatedAt e) cutoff) eqn:Eb.
    + rewrite filter_cons_False by (unfold fresh; congruence).
      rewrite filter_cons_True by (unfold fresh; congruence).
      match goal with |- context [fold_left _ es (?t, kept)] => specialize (IH t kept) end.
      simpl in IH. destruct (fold_left _ es _) as [s' kept'].
      destruct IH as (-> & ? & ? & ? & ? & Hd & ?).
      { rewrite Hi. by apply index_of_delete. }
      { rewrite Hb, !sum_sizes_app. simpl. lia. }
      { eapply sublist_NoDup; [exact Hnd|]. apply sublist_fmap.
        apply sublist_app; [done|]. by apply sublist_cons. }
      split_and!; try done. rewrite Hd. f_equal. simpl. lia.
    + rewrite filter_cons_True by done.
      rewrite filter_cons_False by (intros Hc; by apply Hc).
      specialize (IH s (kept ++ [e])). rewrite <- !app_assoc in IH.
      specialize (IH Hi Hb Hnd). destruct (fold_left _ es _) as [s' kept'].
      by destruct IH as (-> & ? & ? & ? & ? & Hd & ?).
Qed.

Lemma expireLocked_spec os now s : wf s →
  let s' := expireLocked os now s in
  entries s' = filter (fresh (cutoff_of now s)) (entries s) ∧
  byBatch s' = index_of (entries s') ∧ bytes s' = sum_sizes (entries s') ∧
  limits s' = limits s ∧ nextSeq s' = nextSeq s ∧
  drops s' = mkDrops (DropSize (drops s))
               (DropAge (drops s) + Z.of_nat (length (expired_part (cutoff_of now s) (entries s))))
               (DropCount (drops s)) ∧
  disk s' = remove_files os (expired_part (cutoff_of now s) (entries s)) (disk s).
Proof.
  intros Hwf. unfold expireLocked. fold (cutoff_of now s).
  pose proof (expire_fold os (cutoff_of now s) (entries s) s []
                (wf_index s Hwf) (wf_bytes s Hwf) (wf_ids s Hwf)) as H0.
  destruct (fold_left _ _ _) as [s' kept]. simpl in *.
  by destruct H0 as (-> & ? & ? & ? & ? & ? & ?).
Qed.

Lemma expireLocked_wf os now s : wf s → wf (expireLocked os now s).
Proof.
  intros Hwf. pose proof (expireLocked_spec os now s Hwf) as (E & Hi & Hb & _ & Hn & _).
  apply (wf_shrink s); try done. rewrite E. apply sublist_filter.
Qed.

(** *** Eviction *)

(** A batch of [size] fits: it exceeds neither bound. *)
Definition fits (size : Z) (s : Spool) : Prop :=
  bytes s + size ≤ MaxBytes (limits s) ∧
  Z.of_nat (length (entries s)) + 1 ≤ MaxEntries (limits s).

Lemma not_over_fits size s : over_bytes size s || over_count s = false ↔ fits size s.
Proof.
  unfold over_bytes, over_count, fits. rewrite orb_false_iff, !Z.ltb_ge. lia.
Qed.

Lemma removeLocked_head os e es s :
  wf s → entries s = e :: es → entries (removeLocked os e s) = es.
Proof.
  intros Hwf E. apply (removeLocked_entries os e s [] es Hwf E). apply not_elem_of_nil.
Qed.

Lemma with_drops_wf s d : wf s → wf (with_drops s d).
Proof. intros []. by split. Qed.

(** [make_room] evicts a prefix of the queue, the shortest one after which
    the batch fits, counts every eviction, and keeps the invariant. *)
Lemma make_room_spec os size es s : wf s → entries s = es →
  ∃ k, let s' := make_room os size es s in
  wf s' ∧ entries s' = drop k es ∧ (k ≤ length es)%nat ∧
  (fits size s' ∨ entries s' = []) ∧
  limits s' = limits s ∧ nextSeq s' = nextSeq s ∧
  disk s' = remove_files os (take k es) (disk s) ∧
  DropSize (drops s') + DropCount (drops s') =
    DropSize (drops s) + DropCount (drops s) + Z.of_nat k ∧
  DropAge (drops s') = DropAge (drops s).
Proof.
  revert s. induction es as [|e es IH]; intros s Hwf E; simpl.
  - exists 0%nat. simpl. rewrite E. split_and!; try done; try lia. by right.
  - destruct (over_bytes size s || over_count s) eqn:Eo.
    + set (d := if over_bytes size s then _ else _).
      assert (Hw : wf (with_drops s d)) by by apply with_drops_wf.
      assert (Hin : e ∈ entries (with_drops s d))
        by (simpl; rewrite E; apply list_elem_of_here).
      assert (Ee : entries (removeLocked os e (with_drops s d)) = es)
        by by apply removeLocked_head.
      destruct (IH _ (removeLocked_wf os e _ Hw Hin) Ee)
        as (k & ? & ? & ? & ? & ? & ? & Hdisk & Hcnt & Hage).
      exists (S k). cbn [drop take length]. split_and!; try done; try lia.
      * rewrite Hcnt. subst d. simpl. destruct (over_bytes size s); simpl; lia.
      * rewrite Hage. subst d. simpl. by destruct (over_bytes size s).
    + exists 0%nat. apply not_over_fits in Eo. cbn [drop take].
      split_and!; try done; try lia. by left.
Qed.

(** *** Append *)

Definition trimmed (os : OS) (now : time) (size : Z) (s : Spool) : Spool :=
  let s := expireLocked os now s in make_room os size (entries s) s.

Definition total_drops (d : Drops) : Z := DropSize d + DropAge d + DropCount d.

Lemma length_filter_compl cutoff es :
  (length (filter (fresh cutoff) es) + length (expired_part cutoff es))%nat = length es.
Proof.
  induction es as [|e es IH]; [done|]. unfold expired_part in *.
  destruct (decide (fresh cutoff e)).
  - rewrite filter_cons_True, filter_cons_False by tauto. simpl. lia.
  - rewrite filter_cons_False, filter_cons_True by tauto. simpl. lia.
Qed.

(** What [Append] does before it writes: the expired batches go, then the
    oldest of the others until the new one fits. *)
Lemma trimmed_spec os now size s : wf s → size ≤ MaxBytes (limits s) → 0 < MaxEntries (limits s) →
  ∃ k, let t := trimmed os now size s in
  let live := filter (fresh (cutoff_of now s)) (entries s) in
  wf t ∧ entries t = drop k live ∧ (k ≤ length live)%nat ∧ fits size t ∧
  limits t = limits s ∧ nextSeq t = nextSeq s ∧
  disk t = remove_files os (take k live)
             (remove_files os (expired_part (cutoff_of now s) (entries s)) (disk s)) ∧
  total_drops (drops t) + Z.of_nat (length (entries t)) =
    total_drops (drops s) + Z.of_nat (length (entries s)).
Proof.
  intros Hwf Hsz Hme. unfold trimmed.
  pose proof (expireLocked_spec os now s Hwf) as (E & _ & _ & El & En & Ed & Edisk).
  pose proof (expireLocked_wf os now s Hwf) as Hw.
  destruct (make_room_spec os size _ _ Hw eq_refl)
    as (k & Hw' & Ee & Hk & Hfit & Hl & Hn & Hdisk & Hc & Ha).
  exists k. cbv zeta in *. rewrite E in *. split_and!; try congruence.
  - destruct Hfit as [?|Hnil]; [done|]. unfold fits.
    rewrite (wf_bytes _ Hw'), Hnil, Hl, El. simpl. lia.
  - rewrite Ee. unfold total_drops. rewrite Ed in Hc, Ha. simpl in Hc, Ha.
    rewrite length_drop. pose proof (length_filter_compl (cutoff_of now s) (entries s)). lia.
Qed.

Section AppendFacts.
Context `{Proto}.

(** [Append] on the branch that writes. *)
Lemma Append_writes os now m s content :
  batchID m ≠ "" → marshal m = Some content → len content ≤ MaxBytes (limits s) →
  byBatch s !! batchID m = None →
  Append os now m s =
    let t := trimmed os now (len content) s in
    if write_ok os (file_name (nextSeq t)) then
      let entry := mkEntry (nextSeq t) (batchID m) (len content)
                     (time_unix_milli (SentAtUnixMs m)) (file_name (nextSeq t)) in
      (mkSpool (limits t) (entries t ++ [entry]) (<[batchID m := entry]> (byBatch t))
         (bytes t + len content) (u64 (nextSeq t + 1)) (drops t)
         (<[file_name (nextSeq t) := mkFile true content]> (disk t)), Ok tt)
    else (t, Err "write").
Proof.
  intros Hid Hm Hsz Hb. unfold Append. apply String.eqb_neq in Hid. rewrite Hid, Hm.
  destruct (Z.ltb_spec (MaxBytes (limits s)) (len content)); [lia|].
  rewrite Hb, bool_decide_eq_false_2 by (intros [? ?]; done).
  unfold writeFile. cbv zeta. unfold trimmed. by destruct (write_ok _ _).
Qed.

Lemma Append_dup os now m s content :
  batchID m ≠ "" → marshal m = Some content → len content ≤ MaxBytes (limits s) →
  is_Some (byBatch s !! batchID m) → Append os now m s = (s, Ok tt).
Proof.
  intros Hid Hm Hsz Hb. unfold Append. rewrite (proj2 (String.eqb_neq _ _) Hid), Hm.
  by rewrite (proj2 (Z.ltb_ge _ _) Hsz), bool_decide_eq_true_2.
Qed.

(** Every outcome of [Append] is one of three: refused or already queued
    (nothing changes), or it goes on to write. *)
Lemma Append_inv os now m s s' r : Append os now m s = (s', r) →
  (s' = s ∧ ∃ e, r = Err e) ∨
  (s' = s ∧ r = Ok tt ∧ is_Some (byBatch s !! batchID m)) ∨
  (∃ content, batchID m ≠ "" ∧ marshal m = Some content ∧
     len content ≤ MaxBytes (limits s) ∧ byBatch s !! batchID m = None).
Proof.
  unfold Append. destruct (String.eqb_spec (batchID m) ""); [intros; simplify_eq; eauto|].
  destruct (marshal m) as [content|]; [|intros; simplify_eq; eauto].
  destruct (Z.ltb_spec (MaxBytes (limits s)) (len content)); [intros; simplify_eq; eauto|].
  destruct (byBatch s !! batchID m) as [e|] eqn:Eb.
  - rewrite bool_decide_eq_true_2 by eauto. intros; simplify_eq. right; left. eauto.
  - intros _. right; right. eauto.
Qed.

Lemma snoc_wf t (id content : string) created d :
  wf t → id ≠ "" → byBatch t !! id = None → nextSeq t + 1 < 2 ^ 64 →
  let entry := mkEntry (nextSeq t) id (len content) created (file_name (nextSeq t)) in
  wf (mkSpool (limits t) (entries t ++ [entry]) (<[id := entry]> (byBatch t))
        (bytes t + len content) (u64 (nextSeq t + 1)) (drops t) d).
Proof.
  intros Hw Hid Hb Hn entry. rewrite (wf_index t Hw) in Hb.
  apply lookup_index_of_None in Hb. pose proof (wf_next t Hw).
  split; simpl; rewrite ?u64_small by lia.
  - rewrite (wf_index t Hw). symmetry. by apply (index_of_snoc _ entry).
  - rewrite sum_sizes_app, (wf_bytes t Hw). simpl. lia.
  - rewrite fmap_app. apply NoDup_app. split_and!; [apply (wf_ids t Hw)| |apply NoDup_singleton].
    intros x Hx ->%list_elem_of_singleton. done.
  - apply Forall_app. split; [apply (wf_named t Hw)|]. by repeat constructor.
  - apply StronglySorted_app_2; [|apply (wf_order t Hw)|repeat constructor].
    intros x y Hx ->%list_elem_of_singleton. unfold seq_lt. simpl.
    pose proof (wf_seqs t Hw) as Hs. rewrite Forall_forall in Hs. apply Hs in Hx. lia.
  - apply Forall_app. split; [|repeat constructor; simpl; lia].
    eapply Forall_impl; [apply (wf_seqs t Hw)|]. simpl. lia.
  - lia.
Qed.

Lemma trimmed_absent os now size s id :
  wf s → size ≤ MaxBytes (limits s) → 0 < MaxEntries (limits s) →
  byBatch s !! id = None → byBatch (trimmed os now size s) !! id = None.
Proof.
  intros Hwf Hsz Hme Hb.
  destruct (trimmed_spec os now size s Hwf Hsz Hme) as (k & Hw & E & _).
  rewrite (wf_index _ Hwf) in Hb. rewrite (wf_index _ Hw).
  apply lookup_index_of_None in Hb. apply lookup_index_of_None. intros Hin. apply Hb.
  rewrite list_elem_of_fmap in *. destruct Hin as (e & -> & Hin). exists e. split; [done|].
  rewrite E in Hin. eapply elem_of_sublist in Hin; [|apply sublist_drop].
  by apply list_elem_of_filter in Hin as [_ ?].
Qed.

Lemma Append_wf os now m s : wf s → 0 < MaxEntries (limits s) → nextSeq s + 1 < 2 ^ 64 →
  wf (Append os now m s).1.
Proof.
  intros Hwf Hme Hn. destruct (Append os now m s) as [s' r] eqn:E.
  destruct (Append_inv _ _ _ _ _ _ E) as [[-> _]|[[-> _]|(content & Hid & Hm & Hsz & Hb)]];
    [done..|]. simpl.
  pose proof (trimmed_spec os now (len content) s Hwf Hsz Hme)
    as (k & Hw & _ & _ & _ & _ & Hns & _).
  rewrite (Append_writes os now m s content) in E by done. cbv zeta in E.
  destruct (write_ok _ _); simplify_eq; [|done].
  apply snoc_wf; [done..| |by rewrite Hns]. by apply trimmed_absent.
Qed.

End AppendFacts.

(** ** Properties *)

Section Properties.
Context `{Proto}.

(** One call on the spool; [os] and [now] are the faults and the clock it
    meets. *)
Inductive op :=
| OpAppend (os : OS) (now : time) (message : AgentToControl)
| OpPending (os : OS) (now : time)
| OpRemove (os : OS) (id : string).

Definition exec (s : Spool) (o : op) : Spool :=
  match o with
  | OpAppend os now m => (Append os now m s).1
  | OpPending os now => (Pending os now s).1
  | OpRemove os id => (Remove os id s).1
  end.

Lemma Append_static os now m s : wf s → 0 < MaxEntries (limits s) →
  limits (Append os now m s).1 = limits s ∧
  (nextSeq s + 1 < 2 ^ 64 →
   nextSeq s ≤ nextSeq (Append os now m s).1 ≤ nextSeq s + 1).
Proof.
  intros Hwf Hme. destruct (Append os now m s) as [s' r] eqn:E. simpl.
  destruct (Append_inv _ _ _ _ _ _ E) as [[-> _]|[[-> _]|(content & Hid & Hm & Hsz & Hb)]];
    [split; [done|lia]..|].
  pose proof (trimmed_spec os now (len content) s Hwf Hsz Hme)
    as (k & Hw & _ & _ & _ & Hl & Hns & _).
  pose proof (wf_next s Hwf).
  rewrite (Append_writes os now m s content) in E by done. cbv zeta in E.
  destruct (write_ok _ _); simplify_eq; simpl; (split; [done|]); rewrite Hns; [|lia].
  intros. rewrite u64_small; lia.
Qed.

Lemma exec_wf s o : wf s → 0 < MaxEntries (limits s) → nextSeq s + 1 < 2 ^ 64 →
  wf (exec s o) ∧ limits (exec s o) = limits s ∧
  nextSeq s ≤ nextSeq (exec s o) ≤ nextSeq s + 1.
Proof.
  intros Hwf Hme Hn. destruct o as [os now m|os now|os id]; simpl.
  - destruct (Append_static os now m s Hwf Hme) as [? Hns]. specialize (Hns Hn).
    split_and!; [by apply Append_wf|done|lia..].
  - pose proof (expireLocked_spec os now s Hwf) as (_ & _ & _ & ? & Hn' & _).
    unfold Pending. cbv zeta. cbn [fst]. split_and!; [by apply expireLocked_wf|done|lia..].
  - unfold Remove. destruct (byBatch s !! id) as [e|] eqn:Eb; [|cbn [fst]; split_and!; [done..|lia|lia]].
    split_and!; try done; try (simpl; lia). apply removeLocked_wf; [done|].
    rewrite (wf_index s Hwf) in Eb. by apply lookup_index_of_Some in Eb as [? _].
Qed.

(** Whatever calls are made on a new spool, in whatever order and
    whichever system calls fail, its invariant holds: the batch index and the
    byte count describe exactly the queued batches, batch ids are unique and
    sequences increase.  The bound on the number of calls is where the uint64
    sequence would wrap. *)
Theorem spool_reachable_wf l (ops : list op) :
  0 < MaxEntries l → Z.of_nat (length ops) < 2 ^ 64 - 2 →
  wf (fold_left exec ops (mkSpool l [] ∅ 0 1 (mkDrops 0 0 0) ∅)).
Proof.
  intros Hl.
  assert (Hgen : ∀ s, wf s → 0 < MaxEntries (limits s) →
    nextSeq s + Z.of_nat (length ops) < 2 ^ 64 - 1 → wf (fold_left exec ops s)).
  { induction ops as [|o ops IH]; intros s Hwf Hme Hn; [done|]. simpl length in Hn.
    destruct (exec_wf s o Hwf Hme) as (Hw & El & Hns); [lia|].
    apply IH; [done|by rewrite El|lia]. }
  intros Hn. apply Hgen; [|done|simpl; lia].
  split; simpl; try done; try constructor; lia.
Qed.

(** An append that stores a new batch leaves the spool within both of its
    bounds whatever it held before (also after a restart with smaller limits),
    puts the batch last, and accounts for every batch it pushed out: the
    batches queued and the drops counted grow by exactly one together. *)
Theorem spool_append_bounded os now m s s' content :
  wf s → 0 < MaxEntries (limits s) →
  batchID m ≠ "" → marshal m = Some content → len content ≤ MaxBytes (limits s) →
  byBatch s !! batchID m = None → Append os now m s = (s', Ok tt) →
  bytes s' ≤ MaxBytes (limits s) ∧
  Z.of_nat (length (entries s')) ≤ MaxEntries (limits s) ∧
  BatchID <$> last (entries s') = Some (batchID m) ∧
  total_drops (drops s') + Z.of_nat (length (entries s')) =
    total_drops (drops s) + Z.of_nat (length (entries s)) + 1.
Proof.
  intros Hwf Hme Hid Hm Hsz Hb E.
  rewrite (Append_writes os now m s content) in E by done. cbv zeta in E.
  pose proof (trimmed_spec os now (len content) s Hwf Hsz Hme)
    as (k & Hw & _ & _ & [Hfb Hfc] & Hl & _ & _ & Hcount).
  destruct (write_ok _ _); simplify_eq. simpl. rewrite Hl in Hfb, Hfc.
  rewrite length_app, last_snoc. simpl. split_and!; try done; lia.
Qed.

(** A batch larger than the spool is refused with ErrTooLarge and changes
    nothing; a batch id already queued is accepted and changes nothing, so a
    batch is stored once; and a failed write adds nothing, whatever was
    evicted to make room for it. *)
Theorem spool_append_errors os now m s content :
  batchID m ≠ "" → marshal m = Some content →
  (MaxBytes (limits s) < len content → Append os now m s = (s, Err ErrTooLarge)) ∧
  (len content ≤ MaxBytes (limits s) → is_Some (byBatch s !! batchID m) →
     Append os now m s = (s, Ok tt)) ∧
  (wf s → 0 < MaxEntries (limits s) → len content ≤ MaxBytes (limits s) →
     byBatch s !! batchID m = None → write_ok os (file_name (nextSeq s)) = false →
     ∃ s', Append os now m s = (s', Err "write") ∧ wf s' ∧
       entries s' `suffix_of` filter (fresh (cutoff_of now s)) (entries s)).
Proof.
  intros Hid Hm. split_and!.
  - intros Hsz. unfold Append. rewrite (proj2 (String.eqb_neq _ _) Hid), Hm.
    by rewrite (proj2 (Z.ltb_lt _ _) Hsz).
  - by apply Append_dup.
  - intros Hwf Hme Hsz Hb Hwr.
    pose proof (trimmed_spec os now (len content) s Hwf Hsz Hme)
      as (k & Hw & E & _ & _ & _ & Hns & _).
    rewrite (Append_writes os now m s content) by done. cbv zeta. rewrite Hns, Hwr.
    eexists. split_and!; [done..|]. rewrite E. apply suffix_drop.
Qed.

End Properties.

(** ** Witnesses *)

Definition demo_limits : Limits := mkLimits 4096 hour 1.
Definition demo_msg (id : string) (at_ms : Z) : AgentToControl :=
  mkAgentToControl "request" 12 at_ms (Traffic id "up").
Definition demo_start : Spool := mkSpool demo_limits [] ∅ 0 1 (mkDrops 0 0 0) ∅.
Definition demo_state : Spool :=
  (Append (H := BitCodec.codec) no_faults (time_unix_milli 5) (demo_msg "b1" 5) demo_start).1.

Lemma demo_start_wf : wf demo_start.
Proof. split; simpl; try done; try constructor; lia. Qed.

Lemma demo_state_wf : wf demo_state.
Proof. apply Append_wf; [apply demo_start_wf|simpl; lia..]. Qed.

Lemma spool_reachable_wf_witness :
  wf (fold_left (exec (H := BitCodec.codec))
        [OpAppend no_faults 5 (demo_msg "b1" 5); OpRemove no_faults "b1"] demo_start).
Proof. apply spool_reachable_wf; simpl; lia. Defined.

Lemma spool_append_bounded_witness :
  ∃ s', Append (H := BitCodec.codec) no_faults (time_unix_milli 9) (demo_msg "b2" 9) demo_state
          = (s', Ok tt) ∧ Z.of_nat (length (entries s')) ≤ 1.
Proof.
  destruct (Append (H := BitCodec.codec) no_faults (time_unix_milli 9) (demo_msg "b2" 9) demo_state)
    as [s' r] eqn:E.
  assert (Hr : r = Ok tt) by (vm_compute in E; congruence). subst r.
  exists s'. split; [done|].
  apply (spool_append_bounded (H := BitCodec.codec) no_faults (time_unix_milli 9) (demo_msg "b2" 9)
           demo_state s' (default "" (marshal (Proto := BitCodec.codec) (demo_msg "b2" 9))));
    [exact demo_state_wf|vm_compute; done..|exact E].
Defined.

Lemma spool_append_errors_witness :
  Append (H := BitCodec.codec) no_faults (time_unix_milli 9) (demo_msg "b1" 9) demo_state
    = (demo_state, Ok tt).
Proof.
  apply (spool_append_errors (H := BitCodec.codec) no_faults (time_unix_milli 9) (demo_msg "b1" 9)
           demo_state (default "" (marshal (Proto := BitCodec.codec) (demo_msg "b1" 9))));
    vm_compute; try done. eauto.
Defined.

End Spool.
