(* ===== verification/SpoolQueue.v ===== *)
(** * The spool as a durable queue

    Functional refinement of the report spool (Spool.v) to an abstract queue
    of messages, and recovery of that queue when the spool is reopened from
    its directory (src/api/agent/spool/spool.go, [Open] and [index]). *)

From Stdlib Require Import Ascii.
From S2P Require Import Prelude GoStrings Wire Spool.

Module SpoolQueue.
Import Spool.

(** ** Refinement: the spool is a bounded durable queue of messages

    The abstract state is the list of the messages waiting, oldest first.
    [Rel s q] relates a spool to it: the entries are the messages' in order,
    each with its file holding the marshalled message, and the directory
    holds nothing else that [index] would take for a batch. *)

Section Refinement.
Context `{Proto}.

Definition msg_size (m : AgentToControl) : Z :=
  match marshal m with Some content => len content | None => 0 end.

Definition msg_created (m : AgentToControl) : time := time_unix_milli (SentAtUnixMs m).

Definition q_bytes (q : list AgentToControl) : Z := foldr (λ m a, msg_size m + a) 0 q.

Definition q_expire (cutoff : time) (q : list AgentToControl) : list AgentToControl :=
  filter (λ m, before (msg_created m) cutoff = false) q.

Fixpoint q_room (l : Limits) (size : Z) (q : list AgentToControl) : list AgentToControl :=
  match q with
  | [] => []
  | m :: q' =>
      if (MaxBytes l <? q_bytes q + size) || (MaxEntries l <? Z.of_nat (length q) + 1)
      then q_room l size q' else q
  end.

(** The queue's own append: a batch id is kept once; otherwise the batches
    older than MaxAge go, then the oldest until the new one fits. *)
Definition q_append (l : Limits) (now : time) (m : AgentToControl) (q : list AgentToControl)
  : list AgentToControl :=
  if bool_decide (batchID m ∈ batchID <$> q) then q
  else q_room l (msg_size m) (q_expire (add now (- MaxAge l)) q) ++ [m].

Definition q_ack (id : string) (q : list AgentToControl) : list AgentToControl :=
  filter (λ m, batchID m ≠ id) q.

(** A file name [index] does not take for a batch. *)
Definition ignored (name : string) : Prop :=
  has_prefix name "." = true ∨ name_seq name = None.

Definition repr (d : gmap string file) (e : Entry) (m : AgentToControl) : Prop :=
  ∃ content, marshal m = Some content ∧
    e = mkEntry (Seq e) (batchID m) (len content) (msg_created m) (file_name (Seq e)) ∧
    d !! file_name (Seq e) = Some (mkFile true content).

Record Rel (s : Spool) (q : list AgentToControl) : Prop := mkRel {
  rel_wf : wf s;
  rel_max : 0 < MaxEntries (limits s);
  rel_repr : Forall2 (repr (disk s)) (entries s) q;
  rel_clean : ∀ name f, disk s !! name = Some f →
    name ∈ path <$> entries s ∨ ignored name
}.

Lemma repr_path d e m : repr d e m → path e = file_name (Seq e).
Proof. intros (c & _ & E & _). by rewrite E. Qed.

Lemma Rel_paths s q : Rel s q → Forall (λ e, path e = file_name (Seq e)) (entries s).
Proof.
  intros []. rewrite Forall_forall. intros e He.
  apply list_elem_of_lookup in He as [i Hi].
  destruct (Forall2_lookup_l _ _ _ _ _ rel_repr0 Hi) as (m & _ & Hr).
  by eapply repr_path.
Qed.

Lemma seq_inj es e e' : StronglySorted seq_lt es → e ∈ es → e' ∈ es →
  Seq e = Seq e' → e = e'.
Proof.
  intros Hs He He' E. induction Hs as [|x es Hs IH Hx]; [by apply not_elem_of_nil in He|].
  rewrite Forall_forall in Hx. unfold seq_lt in Hx.
  apply elem_of_cons in He as [->|He], He' as [->|He']; auto; exfalso.
  - apply Hx in He'. lia.
  - apply Hx in He. lia.
Qed.

Lemma file_name_inj a b : 0 ≤ a < 2 ^ 64 → 0 ≤ b < 2 ^ 64 →
  file_name a = file_name b → a = b.
Proof.
  intros Ha Hb E. apply (f_equal (λ s, trim_suffix s suffix)) in E.
  unfold file_name in E. rewrite !trim_suffix_app in E. by apply hex_pad_inj.
Qed.

Lemma Rel_path_inj s q e e' : Rel s q → e ∈ entries s → e' ∈ entries s →
  path e = path e' → e = e'.
Proof.
  intros HR He He' E. pose proof (Rel_paths s q HR) as Hp.
  pose proof (rel_wf s q HR) as Hw.
  pose proof (wf_seqs s Hw) as Hs. pose proof (wf_next s Hw) as Hn.
  rewrite Forall_forall in Hp, Hs.
  rewrite (Hp e), (Hp e') in E by done.
  apply (seq_inj (entries s)); [apply (wf_order s Hw)|done..|].
  apply file_name_inj in E; [done|..]; apply Hs in He; apply Hs in He'; lia.
Qed.

(** *** Files removed *)

Lemma remove_files_other os es d n :
  n ∉ path <$> es → remove_files os es d !! n = d !! n.
Proof.
  unfold remove_files. revert d. induction es as [|e es IH]; intros d Hn; [done|].
  rewrite fmap_cons, not_elem_of_cons in Hn. destruct Hn as [Hne Hn]. simpl.
  rewrite IH by done. unfold os_remove. destruct (remove_ok _ _); [|done].
  by apply lookup_delete_ne.
Qed.

Lemma remove_files_sub os es d n f : remove_files os es d !! n = Some f → d !! n = Some f.
Proof.
  unfold remove_files. revert d. induction es as [|e es IH]; intros d Hf; [done|].
  apply IH in Hf. unfold os_remove in Hf. destruct (remove_ok _ _); [|done].
  by apply lookup_delete_Some in Hf as [_ ?].
Qed.

Lemma remove_files_gone es d n : n ∈ path <$> es → remove_files no_faults es d !! n = None.
Proof.
  unfold remove_files. revert d. induction es as [|e es IH]; intros d Hn;
    [by apply not_elem_of_nil in Hn|].
  rewrite fmap_cons in Hn. destruct (decide (n ∈ path <$> es)) as [Hin|Hout].
  - by apply IH.
  - apply elem_of_cons in Hn as [->|Hn]; [|done].
    change (remove_files no_faults es (os_remove no_faults (path e) d) !! path e = None).
    rewrite remove_files_other by done. simpl. apply lookup_delete_eq.
Qed.

(** Entries taken out together with their files keep the relation. *)
Lemma Rel_keep s s' q q' : Rel s q → wf s' → limits s' = limits s →
  entries s' `sublist_of` entries s →
  (∀ e, e ∈ entries s' → disk s' !! path e = disk s !! path e) →
  (∀ n f, disk s' !! n = Some f →
     disk s !! n = Some f ∧ ∀ e, e ∈ entries s → path e = n → e ∈ entries s') →
  Forall2 (repr (disk s)) (entries s') q' → Rel s' q'.
Proof.
  intros HR Hw Hl Hsub Hsame Hgone HF. split; [done|rewrite Hl; apply (rel_max s q HR)|..].
  - eapply Forall2_impl_in; [exact HF|]. intros e m He (c & Hc & E & Hd).
    exists c. split_and!; [done..|]. apply Hsame in He. rewrite E in He. simpl in He.
    by rewrite He.
  - intros n f Hf. destruct (Hgone n f Hf) as [Hf' Hin].
    destruct (rel_clean s q HR n f Hf') as [(e & -> & He)%list_elem_of_fmap|Hi]; [left|by right].
    apply list_elem_of_fmap. eauto.
Qed.

Lemma repr_fields d e m : repr d e m →
  BatchID e = batchID m ∧ Size e = msg_size m ∧ CreatedAt e = msg_created m.
Proof. intros (c & Hc & E & _). unfold msg_size. rewrite Hc. by rewrite E. Qed.

Lemma repr_ids d es q : Forall2 (repr d) es q → BatchID <$> es = batchID <$> q.
Proof.
  induction 1 as [|e m es q Hr _ IH]; [done|]. rewrite !fmap_cons, IH.
  by destruct (repr_fields _ _ _ Hr) as (-> & _).
Qed.

Lemma repr_bytes d es q : Forall2 (repr d) es q → sum_sizes es = q_bytes q.
Proof.
  induction 1 as [|e m es q Hr _ IH]; [done|]. simpl. rewrite IH.
  by destruct (repr_fields _ _ _ Hr) as (_ & -> & _).
Qed.

Lemma expire_refines d cutoff es q : Forall2 (repr d) es q →
  Forall2 (repr d) (filter (fresh cutoff) es) (q_expire cutoff q).
Proof.
  apply Forall2_filter. intros e m Hr. unfold fresh.
  by destruct (repr_fields _ _ _ Hr) as (_ & _ & ->).
Qed.

Lemma make_room_refines os d size es q s : wf s → entries s = es →
  Forall2 (repr d) es q →
  Forall2 (repr d) (entries (make_room os size es s)) (q_room (limits s) size q).
Proof.
  intros Hw E HF. revert s Hw E. induction HF as [|e m es q Hr HF IH]; intros s Hw E.
  - simpl. by rewrite E.
  - cbn [make_room q_room].
    assert (HF' : Forall2 (repr d) (e :: es) (m :: q)) by by constructor.
    assert (Hb : over_bytes size s = (MaxBytes (limits s) <? q_bytes (m :: q) + size)).
    { unfold over_bytes. by rewrite (wf_bytes s Hw), E, (repr_bytes d _ _ HF'). }
    assert (Hc : over_count s = (MaxEntries (limits s) <? Z.of_nat (length (m :: q)) + 1)).
    { unfold over_count. by rewrite E, (Forall2_length _ _ _ HF'). }
    rewrite <- Hb, <- Hc. destruct (over_bytes size s || over_count s); [|by rewrite E].
    set (dr := if over_bytes size s then _ else _).
    assert (Hw' : wf (with_drops s dr)) by by apply with_drops_wf.
    apply (IH (removeLocked os e (with_drops s dr))).
    + apply removeLocked_wf; [done|]. simpl. rewrite E. apply list_elem_of_here.
    + by apply removeLocked_head.
Qed.

Lemma wf_nodup s : wf s → NoDup (entries s).
Proof. intros Hw. eapply NoDup_fmap_1. apply (wf_ids s Hw). Qed.

(** A queue whose first entries and expired entries went, with their files. *)
Lemma Rel_trim s q cutoff k t : Rel s q → wf t → limits t = limits s →
  entries t = drop k (filter (fresh cutoff) (entries s)) →
  disk t = remove_files no_faults (take k (filter (fresh cutoff) (entries s)))
             (remove_files no_faults (expired_part cutoff (entries s)) (disk s)) →
  ∀ q', Forall2 (repr (disk s)) (entries t) q' → Rel t q'.
Proof.
  intros HR Hw Hl E Ed q' HF. set (live := filter (fresh cutoff) (entries s)) in *.
  pose proof (wf_nodup s (rel_wf s q HR)) as Hnd.
  assert (Hlive : live `sublist_of` entries s) by apply sublist_filter.
  assert (Hin : ∀ e, e ∈ live → e ∈ entries s) by eauto using elem_of_sublist.
  assert (Htk : ∀ e, e ∈ take k live → e ∈ live)
    by eauto using elem_of_sublist, sublist_take.
  assert (Hdr : ∀ e, e ∈ drop k live → e ∈ live)
    by eauto using elem_of_sublist, sublist_drop.
  assert (Hex : ∀ e, e ∈ expired_part cutoff (entries s) → e ∈ entries s ∧ ¬ fresh cutoff e)
    by (intros e [? ?]%list_elem_of_filter; done).
  assert (Hdisj : ∀ e, e ∈ take k live → e ∈ drop k live → False).
  { intros e H1 H2. assert (Hn : NoDup live) by by eapply sublist_NoDup.
    rewrite <- (take_drop k live) in Hn. apply NoDup_app in Hn as (_ & Hn & _).
    by apply (Hn e). }
  apply (Rel_keep s t q q'); try done.
  - rewrite E. by etrans; [apply sublist_drop|].
  - intros e He. rewrite E in He. rewrite Ed, !remove_files_other; [done|..];
      intros (e' & Ep & He')%list_elem_of_fmap.
    + apply Hex in He' as [Hs Hf].
      rewrite (Rel_path_inj s q e e' HR) in He by eauto.
      by apply Hdr, list_elem_of_filter in He as [? _].
    + rewrite (Rel_path_inj s q e e' HR) in He by eauto. eauto.
  - intros n f Hf. rewrite Ed in Hf.
    split; [by do 2 apply remove_files_sub in Hf|]. intros e He <-. rewrite E.
    destruct (decide (fresh cutoff e)) as [Hfr|Hfr].
    + assert (Hl' : e ∈ live) by by apply list_elem_of_filter.
      rewrite <- (take_drop k live) in Hl'. apply elem_of_app in Hl' as [Ht|]; [|done].
      rewrite remove_files_gone in Hf; [done|]. apply list_elem_of_fmap. eauto.
    + apply remove_files_sub in Hf. rewrite remove_files_gone in Hf; [done|].
      apply list_elem_of_fmap. exists e. split; [done|]. by apply list_elem_of_filter.
Qed.

Lemma expire_Rel now s q : Rel s q →
  Rel (expireLocked no_faults now s) (q_expire (cutoff_of now s) q).
Proof.
  intros HR. pose proof (rel_wf s q HR) as Hw.
  pose proof (expireLocked_spec no_faults now s Hw) as (E & _ & _ & El & _ & _ & Ed).
  apply (Rel_trim s q (cutoff_of now s) 0); try done.
  - by apply expireLocked_wf.
  - rewrite E. apply expire_refines, (rel_repr s q HR).
Qed.

Lemma trimmed_Rel now size s q : Rel s q → size ≤ MaxBytes (limits s) →
  Rel (trimmed no_faults now size s)
      (q_room (limits s) size (q_expire (cutoff_of now s) q)).
Proof.
  intros HR Hsz. pose proof (rel_wf s q HR) as Hw.
  destruct (trimmed_spec no_faults now size s Hw Hsz (rel_max s q HR))
    as (k & Hwt & E & _ & _ & Hl & _ & Hd & _).
  apply (Rel_trim s q (cutoff_of now s) k); try done.
  unfold trimmed. pose proof (expireLocked_spec no_faults now s Hw) as (Ee & _ & _ & El & _).
  rewrite <- El. apply make_room_refines; [by apply expireLocked_wf|done|].
  rewrite Ee. apply expire_refines, (rel_repr s q HR).
Qed.

Lemma name_seq_file_name n : 0 ≤ n < 2 ^ 64 → name_seq (file_name n) = Some n.
Proof.
  intros Hn. unfold name_seq, file_name.
  by rewrite trim_suffix_app, parse_uint_hex_pad, has_suffix_app by done.
Qed.

Lemma file_name_no_dot n : 0 ≤ n < 2 ^ 64 → has_prefix (file_name n) "." = false.
Proof.
  intros Hn. unfold has_prefix, file_name.
  pose proof (parse_uint_hex_pad n Hn) as Hp.
  destruct (hex_pad 16 n) as [|c r]; [done|]. rewrite app_cons_str.
  cbn [String.prefix]. case_match; [|done]. subst c. exfalso. vm_compute in Hp. done.
Qed.

Lemma snoc_Rel t q m content : Rel t q → marshal m = Some content → batchID m ≠ "" →
  byBatch t !! batchID m = None → nextSeq t + 1 < 2 ^ 64 →
  let entry := mkEntry (nextSeq t) (batchID m) (len content) (msg_created m)
                 (file_name (nextSeq t)) in
  Rel (mkSpool (limits t) (entries t ++ [entry]) (<[batchID m := entry]> (byBatch t))
         (bytes t + len content) (u64 (nextSeq t + 1)) (drops t)
         (<[file_name (nextSeq t) := mkFile true content]> (disk t))) (q ++ [m]).
Proof.
  intros HR Hm Hid Hb Hn entry. pose proof (rel_wf t q HR) as Hw.
  pose proof (wf_next t Hw) as Hr. pose proof (wf_seqs t Hw) as Hs.
  split; [by apply snoc_wf|apply (rel_max t q HR)|..]; simpl.
  - apply Forall2_app.
    + eapply Forall2_impl_in; [exact (rel_repr t q HR)|].
      intros e m' He (c & ? & Ee & Hd). exists c. split_and!; [done..|].
      rewrite lookup_insert_ne; [done|]. intros Ef. rewrite Forall_forall in Hs.
      apply Hs in He. apply file_name_inj in Ef; lia.
    + constructor; [|done]. exists content. split_and!; [done..|]. simpl. apply lookup_insert_eq.
  - intros n f [[<- _]|[_ Hf]]%lookup_insert_Some; rewrite fmap_app.
    + left. apply elem_of_app. right. by apply list_elem_of_singleton.
    + destruct (rel_clean t q HR n f Hf); [left|by right]. apply elem_of_app. by left.
Qed.

Lemma byBatch_of_queue s q id : Rel s q →
  is_Some (byBatch s !! id) ↔ id ∈ batchID <$> q.
Proof.
  intros HR. rewrite (wf_index s (rel_wf s q HR)).
  rewrite <- (repr_ids _ _ _ (rel_repr s q HR)), <- not_eq_None_Some, lookup_index_of_None.
  destruct (decide (id ∈ BatchID <$> entries s)); tauto.
Qed.

(** *** Reopening *)

Lemma Rel_entry s q e : Rel s q → e ∈ entries s →
  ∃ m content, marshal m = Some content ∧ batchID m ≠ "" ∧
    e = mkEntry (Seq e) (batchID m) (len content) (msg_created m) (file_name (Seq e)) ∧
    disk s !! path e = Some (mkFile true content) ∧
    0 ≤ Seq e ∧ Seq e + 1 < 2 ^ 64.
Proof.
  intros HR He. pose proof (rel_wf s q HR) as Hw.
  pose proof (wf_named s Hw) as Hnm. pose proof (wf_seqs s Hw) as Hs.
  rewrite Forall_forall in Hnm, Hs. pose proof (Hnm e He). pose proof (Hs e He).
  pose proof (wf_next s Hw).
  apply list_elem_of_lookup in He as [i Hi].
  destruct (Forall2_lookup_l _ _ _ _ _ (rel_repr s q HR) Hi) as (m & _ & Hr).
  destruct (repr_fields _ _ _ Hr) as (Hb & _ & _).
  pose proof (repr_path _ _ _ Hr) as Hp. destruct Hr as (c & Hc & E & Hd).
  exists m, c. rewrite Hp, <- Hb. split_and!; try done; try lia. by rewrite Hb.
Qed.

(** What holds after [index] has seen the files [names] of [s0]'s directory. *)
Record indexed (s0 t : Spool) (names : list string) : Prop := mkIndexed {
  ix_entries : ∀ e, e ∈ entries t ↔ e ∈ entries s0 ∧ path e ∈ names;
  ix_ids : NoDup (BatchID <$> entries t);
  ix_index : byBatch t = index_of (entries t);
  ix_bytes : bytes t = sum_sizes (entries t);
  ix_seqs : Forall (λ e, 0 ≤ Seq e < nextSeq t) (entries t);
  ix_next : 0 ≤ nextSeq t < 2 ^ 64;
  ix_same : ∀ n, has_prefix n "." = false → disk t !! n = disk s0 !! n;
  ix_sub : ∀ n f, disk t !! n = Some f → disk s0 !! n = Some f
}.

Lemma indexed_skip s0 q t names n d :
  Rel s0 q → ignored n → indexed s0 t names →
  (∀ n', has_prefix n' "." = false → d !! n' = disk t !! n') →
  (∀ n' f, d !! n' = Some f → disk t !! n' = Some f) →
  indexed s0 (with_disk t d) (n :: names).
Proof.
  intros HR Hi [] Hsame Hsub. split; simpl; try done.
  - intros e. rewrite ix_entries0, elem_of_cons. split; [tauto|].
    intros [He [Hp|?]]; [|done]. exfalso.
    destruct (Rel_entry s0 q e HR He) as (m & c & _ & _ & E & _ & ? & ?).
    rewrite E in Hp. simpl in Hp. subst n.
    destruct Hi as [Hd|Hd]; [rewrite file_name_no_dot in Hd|rewrite name_seq_file_name in Hd];
      done || lia.
  - intros n' Hn'. rewrite Hsame by done. by apply ix_same0.
  - intros n' f Hf. eauto.
Qed.

Lemma index_step_indexed `{!ProtoLaws} s0 q t names n f :
  Rel s0 q → disk s0 !! n = Some f → n ∉ names → indexed s0 t names →
  indexed s0 (index_step no_faults t (n, f)) (n :: names).
Proof.
  intros HR Hf Hn Hix. unfold index_step.
  destruct (has_prefix n ".") eqn:Edot.
  { eapply indexed_skip; [done|by left|done|..]; unfold os_remove; simpl.
    - intros n' Hn'. rewrite lookup_delete_ne; [done|]. intros ->. congruence.
    - by intros n' f' [_ ?]%lookup_delete_Some. }
  destruct (rel_clean s0 q HR n f Hf) as [(e & -> & He)%list_elem_of_fmap|Hi].
  2:{ destruct Hi as [?|Hns]; [congruence|]. rewrite Hns.
      assert (t = with_disk t (disk t)) as -> by by destruct t.
      eapply indexed_skip; [done|by right|done|done|done]. }
  destruct (Rel_entry s0 q e HR He) as (m & c & Hm & Hid & E & Hd & Hge & Hlt).
  assert (Hp : path e = file_name (Seq e)) by by rewrite E.
  rewrite Hp, name_seq_file_name by lia. rewrite Hd in Hf. simplify_eq. simpl.
  destruct Hix. unfold readBatch. rewrite <- Hp, ix_same0, Hd by done. simpl.
  rewrite (unmarshal_marshal m c) by done.
  replace (mkEntry (Seq e) (batchID m) (len c) (time_unix_milli (SentAtUnixMs m)) (path e))
    with e by (rewrite Hp; exact E).
  assert (Hnone : BatchID e ∉ BatchID <$> entries t).
  { intros (e' & Eb & He')%list_elem_of_fmap. apply ix_entries0 in He' as [He' Hp'].
    pose proof (wf_ids s0 (rel_wf s0 q HR)) as Hnd.
    pose proof (lookup_index_of _ _ Hnd He) as L1.
    pose proof (lookup_index_of _ _ Hnd He') as L2.
    rewrite Eb in L1. rewrite L1 in L2. by simplify_eq. }
  assert (Hb : BatchID e = batchID m) by by rewrite E.
  rewrite <- ?Hb, (proj2 (String.eqb_neq (BatchID e) "")) by congruence.
  rewrite ix_index0, (proj2 (lookup_index_of_None _ _)) by done.
  rewrite bool_decide_eq_false_2 by (by intros [? ?]). simpl.
  split; simpl.
  - intros e'. rewrite elem_of_app, list_elem_of_singleton, ix_entries0, elem_of_cons.
    split; [intros [[? ?]| ->]; tauto|]. intros [He' [Hpe|?]]; [right|by left].
    by apply (Rel_path_inj s0 q e' e HR).
  - rewrite fmap_app. apply NoDup_app. split_and!; [done| |apply NoDup_singleton].
    by intros x Hx ->%list_elem_of_singleton.
  - symmetry. by apply index_of_snoc.
  - rewrite sum_sizes_app, ix_bytes0. simpl.
    assert (Size e = len c) by by rewrite E. lia.
  - rewrite u64_small by lia. apply Forall_app. split.
    + eapply Forall_impl; [exact ix_seqs0|]. simpl. intros x Hx.
      destruct (Z.leb_spec (nextSeq t) (Seq e)); lia.
    + repeat constructor; [lia|]. destruct (Z.leb_spec (nextSeq t) (Seq e)); lia.
  - rewrite u64_small by lia. destruct (Z.leb_spec (nextSeq t) (Seq e)); lia.
  - done.
  - done.
Qed.

Lemma index_fold_indexed `{!ProtoLaws} s0 q l t names :
  Rel s0 q → (∀ n f, (n, f) ∈ l → disk s0 !! n = Some f) →
  NoDup (names ++ l.*1) → indexed s0 t names →
  ∃ seen, (∀ n, n ∈ seen ↔ n ∈ names ++ l.*1) ∧
    indexed s0 (fold_left (index_step no_faults) l t) seen.
Proof.
  intros HR. revert t names. induction l as [|[n f] l IH]; intros t names Hl Hnd Hix.
  - exists names. rewrite app_nil_r. done.
  - rewrite fmap_cons in Hnd. simpl in Hnd.
    assert (Hnd' : NoDup ((n :: names) ++ l.*1)) by by rewrite <- Permutation_middle in Hnd.
    destruct (IH (index_step no_faults t (n, f)) (n :: names)) as (seen & Hseen & Hix'); try done.
    + intros n' f' Hin. apply Hl. by apply list_elem_of_further.
    + apply (index_step_indexed s0 q); try done.
      * apply Hl, list_elem_of_here.
      * apply NoDup_cons in Hnd' as [Hn _]. intros Hin. apply Hn, elem_of_app. by left.
    + exists seen. split; [|done]. intros n'. rewrite Hseen, fmap_cons, !elem_of_app, !elem_of_cons. simpl. tauto.
Qed.

Lemma index_step_static os t nf :
  limits (index_step os t nf) = limits t ∧ drops (index_step os t nf) = drops t.
Proof. destruct nf as [n f]. unfold index_step. repeat case_match; done. Qed.

Lemma index_fold_static os l t :
  limits (fold_left (index_step os) l t) = limits t ∧
  drops (fold_left (index_step os) l t) = drops t.
Proof.
  revert t. induction l as [|nf l IH]; intros t; [done|]. simpl.
  destruct (IH (index_step os t nf)) as [-> ->]. apply index_step_static.
Qed.

(** The sorted index of a directory that holds [s0]'s files is [s0]'s queue. *)
Lemma indexed_sorted s0 q t names : Rel s0 q → indexed s0 t names →
  (∀ e, e ∈ entries s0 → path e ∈ names) →
  merge_sort seq_le (entries t) = entries s0.
Proof.
  intros HR Hix Hall. pose proof (rel_wf s0 q HR) as Hw.
  assert (Hperm : merge_sort seq_le (entries t) ≡ₚ entries s0).
  { rewrite merge_sort_Permutation. apply NoDup_Permutation.
    - eapply NoDup_fmap_1, (ix_ids _ _ _ Hix).
    - by apply wf_nodup.
    - intros e. rewrite (ix_entries _ _ _ Hix). naive_solver. }
  apply (StronglySorted_unique_strong seq_le); [| |  |done].
  - intros x y Hx Hy. unfold seq_le. rewrite Hperm in Hx. intros.
    apply (seq_inj (entries s0)); [apply (wf_order s0 Hw)|done..|lia].
  - apply StronglySorted_merge_sort; apply _.
  - pose proof (wf_order s0 Hw) as Ho. clear -Ho.
    induction Ho as [|x es Ho IH Hx]; constructor; [done|].
    eapply Forall_impl; [exact Hx|]. unfold seq_lt, seq_le. lia.
Qed.

Lemma elem_of_read_dir d n f : (n, f) ∈ read_dir d ↔ d !! n = Some f.
Proof. unfold read_dir. rewrite merge_sort_Permutation. apply elem_of_map_to_list. Qed.

Lemma NoDup_read_dir d : NoDup (read_dir d).*1.
Proof. unfold read_dir. rewrite merge_sort_Permutation. apply NoDup_fst_map_to_list. Qed.

Lemma index_Rel `{!ProtoLaws} s q l dr : Rel s q → 0 < MaxEntries l →
  ∃ s', index no_faults (mkSpool l [] ∅ 0 1 dr (disk s)) = Ok s' ∧
    Rel s' q ∧ entries s' = entries s ∧ limits s' = l.
Proof.
  intros HR Hl. pose proof (rel_wf s q HR) as Hw. unfold index. simpl.
  set (t0 := mkSpool l [] ∅ 0 1 dr (disk s)).
  destruct (index_fold_indexed s q (read_dir (disk s)) t0 []) as (seen & Hseen & Hix).
  { done. }
  { by intros n f ?%elem_of_read_dir. }
  { apply NoDup_read_dir. }
  { split; simpl; try done; try (split; lia); try apply NoDup_nil_2.
    intros e. rewrite !elem_of_nil. tauto. }
  pose proof (index_fold_static no_faults (read_dir (disk s)) t0) as [El Ed].
  set (t := fold_left _ _ _) in *.
  assert (Es : merge_sort seq_le (entries t) = entries s).
  { eapply indexed_sorted; [done..|]. intros e He. apply Hseen. simpl.
    destruct (Rel_entry s q e HR He) as (m & c & _ & _ & _ & Hd & _).
    apply list_elem_of_fmap. exists (path e, mkFile true c). split; [done|].
    by apply elem_of_read_dir. }
  assert (Hperm : entries t ≡ₚ entries s) by by rewrite <- Es, merge_sort_Permutation.
  destruct Hix. eexists. split_and!; [reflexivity| |done|done].
  split; simpl; rewrite ?Es.
  - split; simpl; rewrite ?Es; try apply Hw; try done.
    + rewrite ix_index0. apply list_to_map_proper; [|by rewrite Hperm].
      by rewrite <- list_fmap_compose.
    + rewrite ix_bytes0. clear -Hperm. induction Hperm; simpl; lia.
    + by rewrite <- Hperm.
  - by rewrite El.
  - eapply Forall2_impl_in; [exact (rel_repr s q HR)|]. intros e m He (c & ? & E & Hd).
    exists c. split_and!; [done..|]. rewrite ix_same0; [done|].
    destruct (Rel_entry s q e HR He) as (_ & _ & _ & _ & _ & _ & ? & ?).
    apply file_name_no_dot. lia.
  - intros n f Hf. apply ix_sub0 in Hf. apply (rel_clean s q HR n f Hf).
Qed.

(** *** Reading and removing *)

Lemma lookup_batch s q id e : Rel s q → byBatch s !! id = Some e →
  e ∈ entries s ∧ BatchID e = id.
Proof.
  intros HR Hb. rewrite (wf_index s (rel_wf s q HR)) in Hb. by apply lookup_index_of_Some.
Qed.

Lemma filter_id_head d es q e : Forall2 (repr d) es q → NoDup (BatchID <$> es) → e ∈ es →
  ∃ m, head (filter (λ m, batchID m = BatchID e) q) = Some m ∧ repr d e m.
Proof.
  induction 1 as [|e' m es q Hr HF IH]; intros Hnd He; [by apply not_elem_of_nil in He|].
  rewrite fmap_cons in Hnd. apply NoDup_cons in Hnd as [Hn Hnd].
  destruct (repr_fields _ _ _ Hr) as (Eb & _ & _).
  apply elem_of_cons in He as [->|He].
  - exists m. by rewrite filter_cons_True by congruence.
  - rewrite filter_cons_False; [by apply IH|]. intros Em. apply Hn.
    apply list_elem_of_fmap. exists e. split; [congruence|done].
Qed.

Lemma filter_id_none q id : id ∉ batchID <$> q → filter (λ m, batchID m = id) q = [].
Proof.
  induction q as [|m q IH]; [done|]. rewrite fmap_cons, not_elem_of_cons. intros [Hm Hq].
  rewrite filter_cons_False by congruence. auto.
Qed.

Lemma q_ack_absent q id : id ∉ batchID <$> q → q_ack id q = q.
Proof.
  unfold q_ack. induction q as [|m q IH]; [done|].
  rewrite fmap_cons, not_elem_of_cons. intros [Hm Hq].
  rewrite filter_cons_True by congruence. by rewrite IH.
Qed.

Lemma Read_Rel `{!ProtoLaws} s q id : Rel s q →
  Read no_faults id s = Ok (head (filter (λ m, batchID m = id) q)).
Proof.
  intros HR. pose proof (byBatch_of_queue s q id HR) as Hq. unfold Read.
  destruct (byBatch s !! id) as [e|] eqn:Eb.
  - destruct (lookup_batch s q id e HR Eb) as [He <-].
    destruct (filter_id_head _ _ _ e (rel_repr s q HR) (wf_ids s (rel_wf s q HR)) He)
      as (m & -> & c & Hc & E & Hd).
    unfold readBatch. rewrite E. simpl. rewrite Hd. simpl.
    by rewrite (unmarshal_marshal m c).
  - rewrite filter_id_none; [done|]. intros [? ?]%Hq. done.
Qed.

Lemma q_ack_split d a e b qa m qb :
  NoDup (BatchID <$> (a ++ e :: b)) → Forall2 (repr d) a qa → repr d e m →
  Forall2 (repr d) b qb → q_ack (BatchID e) (qa ++ m :: qb) = qa ++ qb.
Proof.
  intros Hnd Ha Hr Hb. rewrite fmap_app, fmap_cons in Hnd.
  apply NoDup_app in Hnd as (_ & Hdisj & Hnd). apply NoDup_cons in Hnd as [Hn _].
  destruct (repr_fields _ _ _ Hr) as (Eb & _ & _).
  rewrite (repr_ids _ _ _ Ha) in Hdisj. rewrite (repr_ids _ _ _ Hb) in Hn.
  unfold q_ack. rewrite filter_app, filter_cons_False by (intros Hc; congruence).
  fold (q_ack (BatchID e) qa) (q_ack (BatchID e) qb). rewrite !q_ack_absent; try done.
  intros Hin. apply (Hdisj _ Hin), list_elem_of_here.
Qed.

Lemma Remove_Rel s q id : Rel s q →
  let '(s', found) := Remove no_faults id s in
  Rel s' (q_ack id q) ∧ found = bool_decide (id ∈ batchID <$> q).
Proof.
  intros HR. pose proof (byBatch_of_queue s q id HR) as Hq. unfold Remove.
  pose proof (rel_wf s q HR) as Hw.
  destruct (byBatch s !! id) as [e|] eqn:Eb.
  2:{ rewrite bool_decide_eq_false_2 by (intros [? ?]%Hq; done). split; [|done].
      rewrite q_ack_absent; [done|]. intros [? ?]%Hq. done. }
  rewrite bool_decide_eq_true_2 by (apply Hq; eauto). split; [|done].
  destruct (lookup_batch s q id e HR Eb) as [He <-].
  destruct (wf_entry_split s e Hw He) as (a & b & E & Ha).
  pose proof (removeLocked_entries no_faults e s a b Hw E Ha) as Er.
  pose proof (rel_repr s q HR) as HF. rewrite E in HF.
  apply Forall2_app_inv_l in HF as (qa & qb' & HFa & HFb & Eq).
  apply Forall2_cons_inv_l in HFb as (m & qb & Hr & HFb & ->). subst q.
  pose proof (wf_nodup s Hw) as Hnd. rewrite E in Hnd.
  apply NoDup_app in Hnd as (_ & Hdisj & Hnd). apply NoDup_cons in Hnd as [Hnb _].
  rewrite (q_ack_split (disk s) a e b); try done; [|rewrite <- E; apply (wf_ids s Hw)].
  assert (Hdk : ∀ n, disk (removeLocked no_faults e s) !! n = delete (path e) (disk s) !! n)
    by done.
  apply (Rel_keep s _ _ _ HR); rewrite ?Er; try done.
  - by apply removeLocked_wf.
  - rewrite E. apply sublist_app; [done|]. by apply sublist_cons.
  - intros e' He'. rewrite Hdk, lookup_delete_ne; [done|]. intros Hp.
    assert (He2 : e' ∈ entries s).
    { rewrite E. rewrite elem_of_app in He' |- *. rewrite elem_of_cons. tauto. }
    assert (e' = e) as -> by (symmetry; by apply (Rel_path_inj s _ e e' HR)).
    apply elem_of_app in He' as [?|?]; done.
  - intros n f. rewrite Hdk, lookup_delete_Some. intros [Hn Hf]. split; [done|].
    intros e' He' <-. rewrite E in He'. rewrite elem_of_app in He' |- *.
    rewrite elem_of_cons in He'. destruct He' as [|[->|]]; [by left|done|by right].
  - by apply Forall2_app.
Qed.

(** ** Properties *)

(** C2: appending to the spool is appending to the abstract queue.  Without
    system faults a batch that fits the spool's size is accepted, batches
    older than MaxAge and then the oldest ones leave until it fits, a batch id
    already queued is kept once, and every queued message stays readable from
    its file. *)
Theorem append_refines_queue now m s q content :
  Rel s q → batchID m ≠ "" → marshal m = Some content →
  len content ≤ MaxBytes (limits s) → nextSeq s + 1 < 2 ^ 64 →
  ∃ s', Append no_faults now m s = (s', Ok tt) ∧ Rel s' (q_append (limits s) now m q).
Proof.
  intros HR Hid Hm Hsz Hn. pose proof (rel_wf s q HR) as Hw.
  pose proof (byBatch_of_queue s q (batchID m) HR) as Hq. unfold q_append.
  destruct (byBatch s !! batchID m) as [e|] eqn:Eb.
  - rewrite bool_decide_eq_true_2 by (apply Hq; eauto). exists s. split; [|done].
    apply (Append_dup _ _ _ _ content); eauto.
  - rewrite bool_decide_eq_false_2 by (intros [? ?]%Hq; done).
    rewrite (Append_writes no_faults now m s content) by done. cbv zeta.
    pose proof (trimmed_spec no_faults now (len content) s Hw Hsz (rel_max s q HR))
      as (k & _ & _ & _ & _ & _ & Hns & _).
    assert (Hms : msg_size m = len content) by (unfold msg_size; by rewrite Hm).
    rewrite Hms. eexists. split; [reflexivity|]. apply snoc_Rel; try done.
    + by apply trimmed_Rel.
    + apply trimmed_absent; try done. apply (rel_max s q HR).
    + by rewrite Hns.
Qed.

(** C7: a restart loses and invents nothing.  Reopening the directory of a
    spool that stands for queue [q] (leftover temporary files included)
    succeeds and stands for [q] again, with the same batches in the same
    order. *)
Theorem reopen_refines_queue `{!ProtoLaws} dir l s q :
  Rel s q → has_prefix dir "/" = true → 0 < MaxBytes l →
  0 < MaxAge l → MaxAge l ≤ MaxRetention → 0 < MaxEntries l →
  ∃ s', Open no_faults dir l (disk s) = Ok s' ∧ Rel s' q ∧ entries s' = entries s.
Proof.
  intros HR Hdir Hb Ha Ha' Hme. unfold Open. rewrite Hdir. simpl.
  rewrite (proj2 (Z.leb_gt _ _) Hb), (proj2 (Z.leb_gt _ _) Ha), (proj2 (Z.ltb_ge _ _) Ha'),
    (proj2 (Z.leb_gt _ _) Hme). simpl.
  destruct (index_Rel s q l (mkDrops 0 0 0) HR Hme) as (s' & ? & ? & ? & _). eauto.
Qed.

(** The other operations refine the queue too.  [Pending] lists the
    unexpired batches oldest first, [Read] returns exactly the queued message
    of a batch id, and [Remove] acknowledges that batch only, reporting
    whether it was queued. *)
Theorem pending_read_remove_refine_queue `{!ProtoLaws} now id s q :
  Rel s q →
  (let '(s', es) := Pending no_faults now s in
   let live := q_expire (add now (- MaxAge (limits s))) q in
   Rel s' live ∧ BatchID <$> es = batchID <$> live) ∧
  Read no_faults id s = Ok (head (filter (λ m, batchID m = id) q)) ∧
  (let '(s', found) := Remove no_faults id s in
   Rel s' (q_ack id q) ∧ found = bool_decide (id ∈ batchID <$> q)).
Proof.
  intros HR. split_and!.
  - unfold Pending. cbv zeta. pose proof (expire_Rel now s q HR) as HR'.
    split; [exact HR'|]. apply (repr_ids (disk (expireLocked no_faults now s))).
    apply (rel_repr _ _ HR').
  - by apply Read_Rel.
  - by apply Remove_Rel.
Qed.

End Refinement.

(** ** Witnesses *)

#[local] Existing Instance BitCodec.codec_laws.

Lemma Rel_empty `{Proto} l dr : 0 < MaxEntries l → Rel (mkSpool l [] ∅ 0 1 dr ∅) [].
Proof.
  intros Hl. split; simpl; try done; try constructor; simpl; try done; try constructor; lia.
Qed.

Definition demo_limits : Limits := mkLimits 4096 hour 2.
Definition demo_msg (id : string) (at_ms : Z) : AgentToControl :=
  mkAgentToControl "request" 12 at_ms (Traffic id "up").
Definition demo_empty : Spool := mkSpool demo_limits [] ∅ 0 1 (mkDrops 0 0 0) ∅.
Definition demo_content : string :=
  default "" (marshal (Proto := BitCodec.codec) (demo_msg "b1" 5)).
Definition demo_one : Spool :=
  let entry := mkEntry 1 "b1" (len demo_content) (time_unix_milli 5) (file_name 1) in
  mkSpool demo_limits [entry] {[ "b1" := entry ]} (0 + len demo_content) (u64 2)
    (mkDrops 0 0 0) {[ file_name 1 := mkFile true demo_content ]}.

Lemma demo_one_Rel : Rel (H := BitCodec.codec) demo_one [demo_msg "b1" 5].
Proof.
  apply (snoc_Rel (H := BitCodec.codec) demo_empty [] (demo_msg "b1" 5) demo_content);
    try (vm_compute; done). apply Rel_empty. simpl. lia.
Qed.

Lemma append_refines_queue_witness :
  ∃ s', Append (H := BitCodec.codec) no_faults (time_unix_milli 9) (demo_msg "b2" 9) demo_one
          = (s', Ok tt) ∧
    Rel (H := BitCodec.codec) s' [demo_msg "b1" 5; demo_msg "b2" 9].
Proof.
  destruct (append_refines_queue (H := BitCodec.codec) (time_unix_milli 9) (demo_msg "b2" 9)
    demo_one [demo_msg "b1" 5]
    (default "" (marshal (Proto := BitCodec.codec) (demo_msg "b2" 9))))
    as (s' & E & HR); [exact demo_one_Rel|vm_compute; done..|].
  exists s'. split; [exact E|]. vm_compute in HR. exact HR.
Defined.

Lemma reopen_refines_queue_witness :
  ∃ s', Open (H := BitCodec.codec) no_faults "/var/spool" demo_limits (disk demo_one) = Ok s' ∧
    Rel (H := BitCodec.codec) s' [demo_msg "b1" 5] ∧ entries s' = entries demo_one.
Proof.
  apply (reopen_refines_queue (H := BitCodec.codec) "/var/spool" demo_limits demo_one
           [demo_msg "b1" 5]); [exact demo_one_Rel|vm_compute; done..].
Defined.

Lemma pending_read_remove_witness :
  Read (H := BitCodec.codec) no_faults "b1" demo_one = Ok (Some (demo_msg "b1" 5)).
Proof.
  destruct (pending_read_remove_refine_queue (H := BitCodec.codec) (time_unix_milli 9) "b1"
    demo_one [demo_msg "b1" 5] demo_one_Rel) as (_ & E & _).
  exact E.
Defined.

End SpoolQueue.
