(* ===== verification/Operations.v ===== *)
(** * Operations of the control stream (src/api/agent/client.go)

    Control sends desired operations and cancellations on the stream.  The
    receive loop admits them ([acceptOperation], [cancelOperation]), one
    worker per session executes them ([executeOperation]), and both share the
    session's [sessionOperationState] and the client's memory of completed
    operations.  [Sys] is that shared state with the worker's position; the
    step relation interleaves the receive loop with the worker at the points
    where the code holds no lock. *)

From S2P Require Import Prelude GoStrings.

Module Operations.

(** ** Data *)

Record DesiredOperation := mkOperation {
  OperationId : string;
  Kind : string;
  Revision : Z;
  DeadlineUnixMs : Z;
  PayloadJson : string
}.

Inductive ObservedPhase := APPLYING | SUCCEEDED | FAILED | SUPERSEDED.

#[export] Instance ObservedPhase_eq_dec : EqDecision ObservedPhase.
Proof. solve_decision. Defined.

Record ObservedState := mkObserved {
  ObsOperationId : string;
  ObsRevision : Z;
  ObsPhase : ObservedPhase;
  ObsMessage : string;
  ObsStateJson : string;
  ObsAt : Z
}.

(** What the client sends on the stream. *)
Inductive message :=
| OperationAck (operationID : string) (revision : Z) (accepted : bool) (reason : string)
| Observed (observed : ObservedState).

Definition operationQueueSize : Z := 32.
Definition completedCacheSize : Z := 256.
Definition operationCancelledText : string := "operation cancelled".
Definition operationNotRunningText : string := "operation cancelled/not running".
Definition operationDeadlineText : string := "operation deadline exceeded".

(** [runningOperation]: the cancel function is the [cancelled] flag's other
    half, so the handler's context is cancelled exactly when it is set. *)
Record runningOperation := mkRunning {
  revision : Z;
  cancelled : bool
}.

Record sessionOperationState := mkSession {
  running : gmap string runningOperation;
  queued : gmap string Z;
  cancelledOps : gmap string Z;
  expired : gmap string Z;
  closed : bool
}.

Definition newSessionOperationState : sessionOperationState :=
  mkSession ∅ ∅ ∅ ∅ false.

(** ** sessionOperationState *)

(** [if revision, ok := m[id]; ok && revision == operation.Revision]. *)
Definition marked (m : gmap string Z) (op : DesiredOperation) : bool :=
  match m !! OperationId op with
  | Some r => r =? Revision op
  | None => false
  end.

Definition unmark (m : gmap string Z) (op : DesiredOperation) : gmap string Z :=
  if marked m op then delete (OperationId op) m else m.

Definition operationDeadlineExceeded (op : DesiredOperation) (now : time) : bool :=
  (0 <? DeadlineUnixMs op) && negb (before now (time_unix_milli (DeadlineUnixMs op))).

Definition queue (s : sessionOperationState) (op : DesiredOperation)
  : sessionOperationState * bool :=
  if closed s then (s, true)
  else if marked (cancelledOps s) op then (s, true)
  else if marked (expired s) op then (s, true)
  else (mkSession (running s) (<[OperationId op := Revision op]> (queued s))
          (cancelledOps s) (expired s) (closed s), false).

Definition unqueue (s : sessionOperationState) (op : DesiredOperation) : sessionOperationState :=
  mkSession (running s) (unmark (queued s) op) (cancelledOps s) (expired s) (closed s).

(** [begin]: [true] when the operation must not run. *)
Definition begin (s : sessionOperationState) (now : time) (op : DesiredOperation)
  : sessionOperationState * bool :=
  if closed s then (s, true)
  else
    let s := mkSession (running s) (unmark (queued s) op) (cancelledOps s) (expired s) (closed s) in
    if marked (cancelledOps s) op then (s, true)
    else if operationDeadlineExceeded op now then
      (mkSession (running s) (queued s) (cancelledOps s)
         (<[OperationId op := Revision op]> (expired s)) (closed s), true)
    else
      (mkSession (<[OperationId op := mkRunning (Revision op) false]> (running s)) (queued s)
         (cancelledOps s) (expired s) (closed s), false).

Definition wasExpired (s : sessionOperationState) (op : DesiredOperation) : bool :=
  marked (expired s) op.

Definition finishExpired (s : sessionOperationState) (op : DesiredOperation) : sessionOperationState :=
  mkSession (running s) (queued s) (cancelledOps s) (unmark (expired s) op) (closed s).

(** [requestCancel]: accepted, not running, and the reason of a refusal. *)
Definition requestCancel (s : sessionOperationState) (id : string) (rev : Z)
  : sessionOperationState * (bool * bool * string) :=
  if closed s then (s, (false, false, "agent control session is closing"))
  else match running s !! id with
       | Some r =>
           if negb (revision r =? rev) then (s, (false, false, "operation revision is " +:+ format_uint (revision r)))
           else (mkSession (<[id := mkRunning (revision r) true]> (running s)) (queued s)
                   (cancelledOps s) (expired s) (closed s), (true, false, ""))
       | None =>
           match queued s !! id with
           | Some q =>
               if negb (q =? rev) then (s, (false, false, "operation revision is " +:+ format_uint q))
               else (mkSession (running s) (queued s) (<[id := rev]> (cancelledOps s))
                       (expired s) (closed s), (true, false, ""))
           | None =>
               match cancelledOps s !! id with
               | Some c =>
                   if negb (c =? rev) then
                     (s, (false, false, "operation cancellation already targets revision " +:+ format_uint c))
                   else (s, (true, false, ""))
               | None => (s, (true, true, ""))
               end
           end
       end.

Definition finishCancellation (s : sessionOperationState) (op : DesiredOperation) : sessionOperationState :=
  mkSession (running s) (unmark (queued s) op) (unmark (cancelledOps s) op)
    (unmark (expired s) op) (closed s).

(** [finish]: whether the operation was cancelled while it ran. *)
Definition finish (s : sessionOperationState) (op : DesiredOperation)
  : sessionOperationState * bool :=
  match running s !! OperationId op with
  | Some r =>
      if negb (revision r =? Revision op) then (s, false)
      else (mkSession (delete (OperationId op) (running s)) (queued s) (cancelledOps s)
              (expired s) (closed s), cancelled r)
  | None => (s, false)
  end.

Definition close (s : sessionOperationState) : sessionOperationState :=
  if closed s then s else mkSession ∅ ∅ ∅ ∅ true.

(** ** The client's memory of completed operations *)

Record Client := mkClient {
  completed : gmap string ObservedState;
  completedOrder : list string;
  observedRevision : Z
}.

Definition completedOperation (c : Client) (id : string) : option ObservedState :=
  completed c !! id.

(** The eviction loop of [rememberCompleted]. *)
Fixpoint evict (order : list string) (m : gmap string ObservedState)
  : list string * gmap string ObservedState :=
  match order with
  | [] => ([], m)
  | oldest :: rest =>
      if completedCacheSize <? Z.of_nat (length order) then evict rest (delete oldest m)
      else (order, m)
  end.

Definition rememberCompleted (c : Client) (o : ObservedState) : Client :=
  let id := ObsOperationId o in
  let order := if decide (is_Some (completed c !! id)) then completedOrder c
               else completedOrder c ++ [id] in
  let '(order, m) := evict order (<[id := o]> (completed c)) in
  mkClient m order (observedRevision c).

Definition storeObservedRevision (c : Client) (rev : Z) : Client :=
  mkClient (completed c) (completedOrder c)
    (if rev <=? observedRevision c then observedRevision c else rev).

(** ** The system: the client, the session, its queue and its worker *)

Inductive worker :=
| Idle
| Started (op : DesiredOperation)   (* APPLYING was sent, the handler not called *)
| Handling (op : DesiredOperation). (* inside HandleOperation *)

Record Sys := mkSys {
  client : Client;
  session : sessionOperationState;
  chan : list DesiredOperation;
  work : worker;
  sent : list message;
  handled : list DesiredOperation
}.

Definition set_session (s : Sys) (x : sessionOperationState) : Sys :=
  mkSys (client s) x (chan s) (work s) (sent s) (handled s).
Definition set_client (s : Sys) (c : Client) : Sys :=
  mkSys c (session s) (chan s) (work s) (sent s) (handled s).
Definition set_work (s : Sys) (w : worker) : Sys :=
  mkSys (client s) (session s) (chan s) w (sent s) (handled s).

(** [stream.Send]: [ok] says whether it succeeds. *)
Definition send (ok : bool) (m : message) (s : Sys) : Sys * bool :=
  (if ok then mkSys (client s) (session s) (chan s) (work s) (sent s ++ [m]) (handled s) else s, ok).

Definition sendOperationAck (ok : bool) (op : option DesiredOperation) (accepted : bool)
    (reason : string) (s : Sys) : Sys * bool :=
  match op with
  | Some op => send ok (OperationAck (OperationId op) (Revision op) accepted reason) s
  | None => send ok (OperationAck "" 0 accepted reason) s
  end.

Definition sendObserved (ok : bool) (o : ObservedState) (s : Sys) : Sys * bool :=
  send ok (Observed o) s.

(** A terminal observation of [op]: the revision is stored and the terminal
    remembered before it is sent. *)
Definition complete (ok : bool) (now : time) (op : DesiredOperation) (phase : ObservedPhase)
    (text : string) (s : Sys) : Sys * bool :=
  let terminal := mkObserved (OperationId op) (Revision op) phase text "" (unix_milli now) in
  let s := set_client s (rememberCompleted (storeObservedRevision (client s) (Revision op)) terminal) in
  sendObserved ok terminal s.

Definition completeCancelledOperation (ok : bool) (now : time) (op : DesiredOperation)
    (text : string) (s : Sys) : Sys * bool := complete ok now op SUPERSEDED text s.

Definition completeFailedOperation (ok : bool) (now : time) (op : DesiredOperation)
    (text : string) (s : Sys) : Sys * bool := complete ok now op FAILED text s.

(** *** The receive loop

    [ok1] and [ok2] are the outcomes of the first and the second send; the
    result says whether the session goes on. *)

Definition acceptOperation (admission : DesiredOperation → option string) (now : time) (ok1 ok2 : bool)
    (operation : option DesiredOperation) (s : Sys) : Sys * bool :=
  match operation with
  | None => sendOperationAck ok1 None false "invalid desired operation" s
  | Some op =>
      if String.eqb (OperationId op) "" || String.eqb (Kind op) "" || (Revision op =? 0) then
        sendOperationAck ok1 (Some op) false "invalid desired operation" s
      else match completedOperation (client s) (OperationId op) with
      | Some done =>
          if negb (ObsRevision done =? Revision op) then
            sendOperationAck ok1 (Some op) false
              ("operation_id was already completed at revision " +:+ format_uint (ObsRevision done)) s
          else
            let '(s, ok) := sendOperationAck ok1 (Some op) true "" s in
            if negb ok then (s, false) else sendObserved ok2 done s
      | None =>
          if operationDeadlineExceeded op now then
            let '(s, ok) := sendOperationAck ok1 (Some op) true "" s in
            if negb ok then (s, false) else completeFailedOperation ok2 now op operationDeadlineText s
          else if Revision op <=? observedRevision (client s) then
            let '(s, ok) := sendOperationAck ok1 (Some op) true "" s in
            if negb ok then (s, false)
            else sendObserved ok2 (mkObserved (OperationId op) (Revision op) SUPERSEDED
                                     "operation revision is stale" "" (unix_milli now)) s
          else match admission op with
          | Some reason => sendOperationAck ok1 (Some op) false reason s
          | None =>
              let '(st, stop) := queue (session s) op in
              let s := set_session s st in
              if stop then
                let '(s, ok) := sendOperationAck ok1 (Some op) true "" s in
                if negb ok then (s, false)
                else
                  let '(s, ok) := completeCancelledOperation ok2 now op operationCancelledText s in
                  (set_session s (finishCancellation (session s) op), ok)
              else if Z.of_nat (length (chan s)) <? operationQueueSize then
                sendOperationAck ok1 (Some op) true ""
                  (mkSys (client s) (session s) (chan s ++ [op]) (work s) (sent s) (handled s))
              else
                sendOperationAck ok1 (Some op) false "operation queue is full"
                  (set_session s (unqueue (session s) op))
          end
      end
  end.

Definition cancelOperation (now : time) (ok1 ok2 : bool) (operation : option DesiredOperation)
    (s : Sys) : Sys * bool :=
  match operation with
  | None => sendOperationAck ok1 None false "invalid operation cancellation" s
  | Some op =>
      if String.eqb (OperationId op) "" || (Revision op =? 0) then
        sendOperationAck ok1 (Some op) false "invalid operation cancellation" s
      else match completedOperation (client s) (OperationId op) with
      | Some done =>
          if negb (ObsRevision done =? Revision op) then
            sendOperationAck ok1 (Some op) false
              ("operation_id was already completed at revision " +:+ format_uint (ObsRevision done)) s
          else
            let '(s, ok) := sendOperationAck ok1 (Some op) true "" s in
            if negb ok then (s, false)
            else completeCancelledOperation ok2 now op operationNotRunningText s
      | None =>
          let '(st, (accepted, notRunning, reason)) :=
            requestCancel (session s) (OperationId op) (Revision op) in
          let s := set_session s st in
          let '(s, ok) := sendOperationAck ok1 (Some op) accepted reason s in
          if negb ok || negb accepted || negb notRunning then (s, ok)
          else completeCancelledOperation ok2 now op operationNotRunningText s
      end
  end.

(** *** The worker

    [executeOperation] in three parts, cut where the receive loop may run in
    between: up to the APPLYING report, the last look at the operation's
    context, and what follows the handler's return. *)

(** Whether the operation's context is done: cancelled by [operation.cancel]
    or by the session's end, or past its deadline. *)
Definition contextDone (s : Sys) (now : time) (op : DesiredOperation) : bool :=
  closed (session s)
  || match running (session s) !! OperationId op with
     | Some r => cancelled r
     | None => false
     end
  || operationDeadlineExceeded op now.

(** [begun] is the clock [begin] reads, [now] the one read after it. *)
Definition executeStart (begun now : time) (ok : bool) (op : DesiredOperation) (s : Sys) : Sys :=
  let '(st, stop) := begin (session s) begun op in
  let s := set_session s st in
  if stop then
    if wasExpired (session s) op then
      let s := (completeFailedOperation ok now op operationDeadlineText s).1 in
      set_session s (finishExpired (session s) op)
    else
      let s := (completeCancelledOperation ok now op operationCancelledText s).1 in
      set_session s (finishCancellation (session s) op)
  else if operationDeadlineExceeded op now then
    let s := set_session s (finish (session s) op).1 in
    (completeFailedOperation ok now op operationDeadlineText s).1
  else if Revision op <=? observedRevision (client s) then
    let s := set_session s (finish (session s) op).1 in
    let terminal := mkObserved (OperationId op) (Revision op) SUPERSEDED
                      "operation revision became stale before execution" "" (unix_milli now) in
    let s := set_client s (rememberCompleted (client s) terminal) in
    (sendObserved ok terminal s).1
  else
    let '(s, sentOk) := sendObserved ok (mkObserved (OperationId op) (Revision op) APPLYING "" ""
                                           (unix_milli now)) s in
    if negb sentOk then set_session s (finish (session s) op).1
    else set_work s (Started op).

Definition executeCheck (now : time) (ok : bool) (op : DesiredOperation) (s : Sys) : Sys :=
  if contextDone s now op then
    let s := set_session s (finish (session s) op).1 in
    let text := if operationDeadlineExceeded op now then operationDeadlineText
                else "context canceled" in
    set_work (completeFailedOperation ok now op text s).1 Idle
  else
    mkSys (client s) (session s) (chan s) (Handling op) (sent s) (handled s ++ [op]).

(** The terminal state for what the handler returned: [state] and [err]. *)
Definition terminalOf (now : time) (wasCancelled : bool) (op : DesiredOperation)
    (state : string) (err : option string) : ObservedState :=
  let at_ms := unix_milli now in
  if wasCancelled then
    mkObserved (OperationId op) (Revision op) SUPERSEDED operationCancelledText "" at_ms
  else if operationDeadlineExceeded op now then
    mkObserved (OperationId op) (Revision op) FAILED operationDeadlineText "" at_ms
  else match err with
       | Some e => mkObserved (OperationId op) (Revision op) FAILED e state at_ms
       | None => mkObserved (OperationId op) (Revision op) SUCCEEDED "" state at_ms
       end.

Definition executeFinish (now : time) (ok : bool) (op : DesiredOperation) (state : string)
    (err : option string) (s : Sys) : Sys :=
  let '(st, wasCancelled) := finish (session s) op in
  let s := set_session s st in
  let terminal := terminalOf now wasCancelled op state err in
  let s := set_client s (rememberCompleted (storeObservedRevision (client s) (Revision op)) terminal) in
  set_work (sendObserved ok terminal s).1 Idle.

(** ** Steps

    One step of the receive loop, of the worker, of the session's end (its
    deferred [operations.close]; the worker may still drain its queue), or
    the start of the next session, which waits for the worker. *)

Section Steps.
Context (admission : DesiredOperation → option string).
Set Default Proof Using "Type".

Inductive step : Sys → Sys → Prop :=
| step_accept now ok1 ok2 op s :
    step s (acceptOperation admission now ok1 ok2 op s).1
| step_cancel now ok1 ok2 op s :
    step s (cancelOperation now ok1 ok2 op s).1
| step_start begun now ok op rest s :
    work s = Idle → chan s = op :: rest →
    step s (executeStart begun now ok op
              (mkSys (client s) (session s) rest Idle (sent s) (handled s)))
| step_check now ok op s :
    work s = Started op → step s (executeCheck now ok op s)
| step_finish now ok op state err s :
    work s = Handling op → step s (executeFinish now ok op state err s)
| step_close s :
    step s (set_session s (close (session s)))
| step_reconnect s :
    work s = Idle →
    step s (mkSys (client s) newSessionOperationState [] Idle (sent s) (handled s)).

Definition initial : Sys :=
  mkSys (mkClient ∅ [] 0) newSessionOperationState [] Idle [] [].

Definition reachable (s : Sys) : Prop := rtc step initial s.

(** ** Lemmas *)

Lemma sendObserved_fields ok o s : let s' := (sendObserved ok o s).1 in
  client s' = client s ∧ session s' = session s ∧ chan s' = chan s ∧ work s' = work s ∧
  handled s' = handled s.
Proof. by destruct ok. Qed.

Lemma sendOperationAck_fields ok op a r s : let s' := (sendOperationAck ok op a r s).1 in
  client s' = client s ∧ session s' = session s ∧ chan s' = chan s ∧ work s' = work s ∧
  handled s' = handled s.
Proof. by destruct op, ok. Qed.

Lemma rememberCompleted_observed c o :
  observedRevision (rememberCompleted c o) = observedRevision c.
Proof. unfold rememberCompleted. by destruct (evict _ _). Qed.

Lemma storeObservedRevision_max c rev :
  observedRevision (storeObservedRevision c rev) = Z.max (observedRevision c) rev.
Proof. simpl. destruct (Z.leb_spec rev (observedRevision c)); lia. Qed.

Lemma complete_fields ok now op phase text s : let s' := (complete ok now op phase text s).1 in
  observedRevision (client s') = Z.max (observedRevision (client s)) (Revision op) ∧
  session s' = session s ∧ chan s' = chan s ∧ work s' = work s ∧ handled s' = handled s.
Proof.
  unfold complete. cbv zeta.
  match goal with |- context [sendObserved ok ?o ?t] =>
    pose proof (sendObserved_fields ok o t) as (-> & -> & -> & -> & ->) end.
  cbn [set_client client]. rewrite rememberCompleted_observed, storeObservedRevision_max. done.
Qed.

(** The receive loop never touches the worker or the handler calls, and only
    raises the observed revision. *)
Ltac receive_loop ok1 ok2 op :=
  destruct op as [op|], ok1, ok2; cbv beta delta [acceptOperation cancelOperation];
  unfold completeFailedOperation, completeCancelledOperation, complete, sendObserved,
    sendOperationAck, send; simpl; repeat case_match; simplify_eq; simpl;
  rewrite ?rememberCompleted_observed, ?storeObservedRevision_max.

Lemma accept_frame now ok1 ok2 op s : let s' := (acceptOperation admission now ok1 ok2 op s).1 in
  work s' = work s ∧ handled s' = handled s ∧
  observedRevision (client s) ≤ observedRevision (client s').
Proof. receive_loop ok1 ok2 op; split_and!; try done; simpl; repeat case_match; lia. Qed.

Lemma cancel_frame now ok1 ok2 op s : let s' := (cancelOperation now ok1 ok2 op s).1 in
  work s' = work s ∧ handled s' = handled s ∧
  observedRevision (client s) ≤ observedRevision (client s').
Proof. receive_loop ok1 ok2 op; split_and!; try done; simpl; repeat case_match; lia. Qed.

(** What starting, checking and finishing an operation do to the worker. *)
Lemma executeStart_frame begun now ok op s : work s = Idle → let s' := executeStart begun now ok op s in
  handled s' = handled s ∧ observedRevision (client s) ≤ observedRevision (client s') ∧
  (work s' = Idle ∨ work s' = Started op ∧ observedRevision (client s) < Revision op
                    ∧ observedRevision (client s') = observedRevision (client s)).
Proof.
  intros Hw. unfold executeStart, completeFailedOperation, completeCancelledOperation, complete,
    sendObserved, send. destruct ok; repeat case_match; simplify_eq; simpl in *;
    rewrite ?rememberCompleted_observed, ?storeObservedRevision_max; simpl;
    repeat case_match; split_and!; try done; try lia; auto.
  right. split_and!; [done|lia|done].
Qed.

Lemma executeCheck_frame now ok op s : let s' := executeCheck now ok op s in
  observedRevision (client s) ≤ observedRevision (client s') ∧
  (work s' = Idle ∧ handled s' = handled s ∨
   work s' = Handling op ∧ handled s' = handled s ++ [op]).
Proof.
  unfold executeCheck, completeFailedOperation. destruct (contextDone s now op); cbv zeta.
  - match goal with |- context [complete ok now op FAILED ?t ?u] =>
      pose proof (complete_fields ok now op FAILED t u) as (Ho & _ & _ & _ & Hh) end.
    simpl in *. rewrite Ho, Hh. simpl. split; [lia|auto].
  - simpl. split; [lia|auto].
Qed.

Lemma executeFinish_frame now ok op state err s : let s' := executeFinish now ok op state err s in
  work s' = Idle ∧ handled s' = handled s ∧
  observedRevision (client s') = Z.max (observedRevision (client s)) (Revision op).
Proof.
  unfold executeFinish. destruct (finish (session s) op) as [st b]. cbv zeta.
  match goal with |- context [sendObserved ok ?o ?t] =>
    pose proof (sendObserved_fields ok o t) as (Hc & _ & _ & _ & Hh) end.
  simpl in *. rewrite Hc, Hh. simpl.
  rewrite rememberCompleted_observed, storeObservedRevision_max. done.
Qed.

(** *** Handler calls and revisions *)

Definition older (a b : DesiredOperation) : Prop := Revision a < Revision b.

(** The handler calls made after a state with observed revision [bound]
    increase in revision and all exceed [bound]; [calls] are those calls. *)
Definition calls_ok (bound : Z) (calls : list DesiredOperation) (s : Sys) : Prop :=
  StronglySorted older calls ∧ Forall (λ o, bound < Revision o) calls ∧
  bound ≤ observedRevision (client s) ∧
  match work s with
  | Idle => Forall (λ o, Revision o ≤ observedRevision (client s)) calls
  | Started op => Forall (λ o, Revision o ≤ observedRevision (client s) ∧ older o op) calls
                  ∧ bound < Revision op
  | Handling op => ∃ prev, calls = prev ++ [op] ∧
                     Forall (λ o, Revision o ≤ observedRevision (client s)) prev
  end.

Lemma StronglySorted_snoc_older calls op :
  StronglySorted older calls → Forall (λ o, older o op) calls →
  StronglySorted older (calls ++ [op]).
Proof.
  intros Hs Hf. rewrite Forall_forall in Hf. apply StronglySorted_app_2; [|done|repeat constructor].
  intros x y Hx ->%list_elem_of_singleton. auto.
Qed.

Lemma calls_ok_step bound base calls s s' :
  handled s = base ++ calls → calls_ok bound calls s → step s s' →
  ∃ calls', handled s' = base ++ calls' ∧ calls_ok bound calls' s'.
Proof.
  intros Hh (Hs & Hb & Hle & Hw) Hstep.
  assert (Hframe : ∀ t, work t = work s → handled t = handled s →
    observedRevision (client s) ≤ observedRevision (client t) →
    ∃ calls', handled t = base ++ calls' ∧ calls_ok bound calls' t).
  { intros t Ew Eh Hob. exists calls. split; [congruence|]. unfold calls_ok. rewrite Ew.
    split_and!; try done; [lia|]. destruct (work s).
    - eapply Forall_impl; [exact Hw|]. simpl. lia.
    - destruct Hw as [Hw ?]. split; [|done].
      eapply Forall_impl; [exact Hw|]. unfold older. simpl. lia.
    - destruct Hw as (prev & -> & Hw). exists prev. split; [done|].
      eapply Forall_impl; [exact Hw|]. simpl. lia. }
  destruct Hstep as [now ok1 ok2 op s|now ok1 ok2 op s|begun now ok op rest s Hi Hc|now ok op s Hi
                    |now ok op state err s Hi|s|s Hi].
  - destruct (accept_frame now ok1 ok2 op s) as (? & ? & ?). by apply Hframe.
  - destruct (cancel_frame now ok1 ok2 op s) as (? & ? & ?). by apply Hframe.
  - rewrite Hi in Hw.
    match goal with |- context [executeStart begun now ok op ?t] =>
      destruct (executeStart_frame begun now ok op t eq_refl) as (Eh & Hob & Hcase) end.
    simpl in *. exists calls. split; [congruence|]. unfold calls_ok.
    destruct Hcase as [->|(-> & Hlt & Eo)]; (split_and!; try done; try lia);
      eapply Forall_impl; try exact Hw; unfold older; simpl; lia.
  - rewrite Hi in Hw. destruct Hw as [Hold Hbop].
    destruct (executeCheck_frame now ok op s) as (Hob & [[Ew Eh]|[Ew Eh]]).
    + exists calls. split; [congruence|]. unfold calls_ok. rewrite Ew. split_and!; try done; [lia|].
      eapply Forall_impl; [exact Hold|]. unfold older. simpl. lia.
    + exists (calls ++ [op]). rewrite Eh, Hh, app_assoc. split; [done|].
      unfold calls_ok. rewrite Ew. split_and!; [| |lia|].
      * apply StronglySorted_snoc_older; [done|]. eapply Forall_impl; [exact Hold|]. by intros ? [].
      * apply Forall_app. split; [done|]. by repeat constructor.
      * exists calls. split; [done|]. eapply Forall_impl; [exact Hold|]. unfold older. simpl. lia.
  - rewrite Hi in Hw. destruct Hw as (prev & -> & Hw).
    destruct (executeFinish_frame now ok op state err s) as (Ew & Eh & Ho).
    exists (prev ++ [op]). split; [congruence|]. unfold calls_ok. rewrite Ew, Ho.
    split_and!; try done; [lia|]. apply Forall_app. split; [|apply Forall_singleton; lia].
    eapply Forall_impl; [exact Hw|]. simpl. lia.
  - by apply Hframe.
  - rewrite Hi in Hw. exists calls. split; [done|]. by split_and!.
Qed.

Lemma calls_ok_steps bound base calls s s' :
  rtc step s s' → handled s = base ++ calls → calls_ok bound calls s →
  ∃ calls', handled s' = base ++ calls' ∧ calls_ok bound calls' s'.
Proof.
  intros Hr. revert calls. induction Hr as [s|s t u Hst Htu IH]; intros calls Hh Hok; [eauto|].
  destruct (calls_ok_step bound base calls s t Hh Hok Hst) as (calls' & Hh' & Hok'). eauto.
Qed.

(** *** The cache of completed operations *)

(** [completedOrder] lists the remembered operations once each, at most
    [completedCacheSize] of them, and each remembered state is a terminal one
    of its operation. *)
Record cache_ok (c : Client) : Prop := mkCacheOk {
  cache_order : NoDup (completedOrder c);
  cache_dom : ∀ id, id ∈ completedOrder c ↔ is_Some (completed c !! id);
  cache_size : Z.of_nat (length (completedOrder c)) ≤ completedCacheSize;
  cache_terminal : ∀ id o, completed c !! id = Some o →
    ObsOperationId o = id ∧ ObsPhase o ≠ APPLYING
}.

Lemma evict_spec order m : NoDup order → (∀ id, id ∈ order ↔ is_Some (m !! id)) →
  let '(order', m') := evict order m in
  NoDup order' ∧ (∀ id, id ∈ order' ↔ is_Some (m' !! id)) ∧
  Z.of_nat (length order') ≤ completedCacheSize ∧
  (∀ id o, m' !! id = Some o → m !! id = Some o).
Proof.
  revert m. induction order as [|x order IH]; intros m Hnd Hdom; simpl.
  - by split_and!.
  - destruct (Z.ltb_spec completedCacheSize (Z.of_nat (S (length order)))).
    + apply NoDup_cons in Hnd as [Hx Hnd].
      assert (Hdom' : ∀ id, id ∈ order ↔ is_Some (delete x m !! id)).
      { intros id. rewrite lookup_delete_is_Some, <- Hdom, elem_of_cons.
        split; [intros Hin; split; [congruence|by right]|]. intros [? [?|?]]; congruence. }
      specialize (IH (delete x m) Hnd Hdom').
      destruct (evict order (delete x m)) as [order' m'].
      destruct IH as (? & ? & ? & Hsub). split_and!; try done.
      intros id o Ho. apply Hsub in Ho. by apply lookup_delete_Some in Ho as [_ ?].
    + split_and!; try done; simpl; lia.
Qed.

Lemma rememberCompleted_ok c o : cache_ok c → ObsPhase o ≠ APPLYING →
  cache_ok (rememberCompleted c o).
Proof.
  intros [Hnd Hdom Hsz Ht] Hp. unfold rememberCompleted.
  set (order := if decide _ then _ else _).
  assert (Hnd' : NoDup order).
  { subst order. case_decide as Hc; [done|].
    apply NoDup_app. split_and!; [done| |apply NoDup_singleton].
    intros x Hx ->%list_elem_of_singleton. by apply Hc, Hdom. }
  assert (Hdom' : ∀ id, id ∈ order ↔ is_Some (<[ObsOperationId o := o]> (completed c) !! id)).
  { intros id. rewrite lookup_insert_is_Some', <- Hdom. subst order.
    case_decide as Hc; [|rewrite elem_of_app, list_elem_of_singleton; naive_solver].
    apply Hdom in Hc. naive_solver. }
  pose proof (evict_spec order _ Hnd' Hdom') as He.
  destruct (evict _ _) as [order' m']. destruct He as (? & ? & ? & Hsub).
  split; try done. intros id o' Ho. apply Hsub in Ho.
  apply lookup_insert_Some in Ho as [[<- <-]|[_ Ho]]; [done|]. by apply Ht.
Qed.

Lemma evict_last order m id : id ∉ order →
  ∃ order' m', evict (order ++ [id]) m = (order' ++ [id], m') ∧ m' !! id = m !! id.
Proof.
  revert m. induction order as [|x order IH]; intros m Hn.
  - exists [], m. split; [|done]. done.
  - rewrite not_elem_of_cons in Hn. destruct Hn as [Hx Hn]. cbn [app evict].
    case_match.
    + destruct (IH (delete x m) Hn) as (o' & m' & E & El). exists o', m'.
      split; [done|]. rewrite El. by apply lookup_delete_ne.
    + by exists (x :: order), m.
Qed.

Lemma evict_fits order m : Z.of_nat (length order) ≤ completedCacheSize →
  evict order m = (order, m).
Proof.
  intros Hl. destruct order as [|x order]; [done|]. cbn [evict].
  by rewrite (proj2 (Z.ltb_ge _ _) Hl).
Qed.

(** The operation just remembered is found again, whatever was evicted. *)
Lemma remember_lookup c o : cache_ok c →
  completed (rememberCompleted c o) !! ObsOperationId o = Some o.
Proof.
  intros [Hnd Hdom Hsz _]. unfold rememberCompleted. case_decide as Hc.
  - rewrite evict_fits by done. simpl. apply lookup_insert_eq.
  - destruct (evict_last (completedOrder c) (<[ObsOperationId o := o]> (completed c))
                (ObsOperationId o)) as (o' & m' & -> & El); [by rewrite Hdom|].
    simpl. rewrite El. apply lookup_insert_eq.
Qed.

Lemma storeObserved_ok c rev : cache_ok c → cache_ok (storeObservedRevision c rev).
Proof. intros []. by split. Qed.

Lemma terminalOf_terminal now b op state err : ObsPhase (terminalOf now b op state err) ≠ APPLYING.
Proof. unfold terminalOf. by repeat case_match. Qed.

Lemma step_cache_ok s s' : cache_ok (client s) → step s s' → cache_ok (client s').
Proof.
  intros Hc Hstep. destruct Hstep.
  - revert Hc. receive_loop ok1 ok2 op; intros Hc;
      try apply rememberCompleted_ok; try apply storeObserved_ok; done.
  - revert Hc. receive_loop ok1 ok2 op; intros Hc;
      try apply rememberCompleted_ok; try apply storeObserved_ok; done.
  - unfold executeStart, completeFailedOperation, completeCancelledOperation, complete,
      sendObserved, send. destruct ok; repeat case_match; simplify_eq; simpl in *;
      try apply rememberCompleted_ok; try apply storeObserved_ok; done.
  - unfold executeCheck, completeFailedOperation, complete, sendObserved, send.
    destruct ok; repeat case_match; simplify_eq; simpl in *;
      try apply rememberCompleted_ok; try apply storeObserved_ok; done.
  - unfold executeFinish, sendObserved, send. destruct (finish _ _) as [st b].
    destruct ok; simpl; apply rememberCompleted_ok;
      auto using storeObserved_ok, terminalOf_terminal.
  - done.
  - done.
Qed.

(** Cancelling a queued operation marks it; starting a marked operation ends
    it without calling its handler. *)
Lemma cancel_queued now op s :
  OperationId op ≠ "" → Revision op ≠ 0 →
  completed (client s) !! OperationId op = None → closed (session s) = false →
  running (session s) !! OperationId op = None →
  queued (session s) !! OperationId op = Some (Revision op) →
  (cancelOperation now true true (Some op) s).1 =
    mkSys (client s)
      (mkSession (running (session s)) (queued (session s))
         (<[OperationId op := Revision op]> (cancelledOps (session s)))
         (expired (session s)) (closed (session s)))
      (chan s) (work s) (sent s ++ [OperationAck (OperationId op) (Revision op) true ""])
      (handled s).
Proof.
  intros Hid Hr Hc Hcl Hrun Hq. unfold cancelOperation, completedOperation.
  rewrite (proj2 (String.eqb_neq _ _) Hid), (proj2 (Z.eqb_neq _ _) Hr), Hc. cbn [orb].
  unfold requestCancel. by rewrite Hcl, Hrun, Hq, Z.eqb_refl.
Qed.

Lemma start_cancelled begun now op s :
  closed (session s) = false →
  cancelledOps (session s) !! OperationId op = Some (Revision op) →
  expired (session s) !! OperationId op = None →
  let terminal := mkObserved (OperationId op) (Revision op) SUPERSEDED operationCancelledText ""
                    (unix_milli now) in
  executeStart begun now true op s =
    mkSys (rememberCompleted (storeObservedRevision (client s) (Revision op)) terminal)
      (mkSession (running (session s)) (unmark (unmark (queued (session s)) op) op)
         (unmark (cancelledOps (session s)) op) (unmark (expired (session s)) op)
         (closed (session s)))
      (chan s) (work s) (sent s ++ [Observed terminal]) (handled s).
Proof.
  intros Hcl Hm Hex. unfold executeStart, begin. rewrite Hcl. cbv zeta.
  assert (marked (cancelledOps (session s)) op = true) as Hmk
    by (unfold marked; by rewrite Hm, Z.eqb_refl).
  assert (marked (expired (session s)) op = false) as Hme by (unfold marked; by rewrite Hex).
  cbn [cancelledOps]. rewrite Hmk. unfold wasExpired. cbn [session set_session expired].
  by rewrite Hme.
Qed.

(** ** Properties *)

(** C4: operation handlers run in strictly increasing revision order over the
    whole life of the client, across sessions, replays, duplicated deliveries
    and cancellations: no operation's handler ever runs twice, and none runs
    after a newer one. *)
Theorem handler_calls_increase s :
  reachable s → StronglySorted older (handled s).
Proof.
  intros Hr. destruct (calls_ok_steps 0 [] [] initial s Hr eq_refl) as (calls & -> & Hs & _).
  - split_and!; simpl; try constructor; lia.
  - done.
Qed.

(** Once a revision has been observed, because an operation at it
    finished, failed, was cancelled or expired, no operation at that revision
    or an older one is ever handed to a handler again. *)
Theorem no_handler_after_observed s s' :
  work s = Idle → rtc step s s' →
  ∃ new, handled s' = handled s ++ new ∧
    Forall (λ op, observedRevision (client s) < Revision op) new.
Proof.
  intros Hi Hr. destruct (calls_ok_steps (observedRevision (client s)) (handled s) [] s s' Hr)
    as (calls & Eh & _ & Hb & _); [by rewrite app_nil_r| |eauto].
  unfold calls_ok. rewrite Hi. split_and!; try constructor. lia.
Qed.

(** The client remembers at most 256 completed operations, each once and
    each with a terminal state of its own operation id. *)
Theorem completed_cache_bounded s : reachable s → cache_ok (client s).
Proof.
  intros Hr. unfold reachable in Hr. remember initial as i eqn:Ei.
  assert (Hc : cache_ok (client i)).
  { subst i. split; simpl; [constructor| |done|done].
    intros id. rewrite elem_of_nil, lookup_empty. split; [done|]. by intros [? ?]. }
  clear Ei. induction Hr; eauto using step_cache_ok.
Qed.


(** An operation Control sends again after it completed is acknowledged
    and answered with the remembered terminal state; nothing is queued, run or
    forgotten.  The same id at another revision is refused. *)
Theorem replay_answers_remembered now op done s :
  OperationId op ≠ "" → Kind op ≠ "" → Revision op ≠ 0 →
  completed (client s) !! OperationId op = Some done →
  acceptOperation admission now true true (Some op) s =
    (mkSys (client s) (session s) (chan s) (work s)
       (sent s ++ (if ObsRevision done =? Revision op
                   then [OperationAck (OperationId op) (Revision op) true ""; Observed done]
                   else [OperationAck (OperationId op) (Revision op) false
                           ("operation_id was already completed at revision "
                              +:+ format_uint (ObsRevision done))]))
       (handled s), true).
Proof.
  intros Hid Hk Hr Hc. unfold acceptOperation, completedOperation.
  rewrite (proj2 (String.eqb_neq _ _) Hid), (proj2 (String.eqb_neq _ _) Hk),
    (proj2 (Z.eqb_neq _ _) Hr), Hc. simpl.
  unfold sendOperationAck, sendObserved, send.
  destruct (ObsRevision done =? Revision op); cbn -[app]; [|done]. by rewrite <- app_assoc.
Qed.

(** What the handler's return becomes.  Cancellation wins over the
    deadline, the deadline over the handler's own error, and success needs
    none of them; the terminal state is remembered under the operation and its
    revision is observed. *)
Theorem finish_outcome now op state err s r :
  cache_ok (client s) →
  running (session s) !! OperationId op = Some r → revision r = Revision op →
  let s' := executeFinish now true op state err s in
  ∃ terminal, sent s' = sent s ++ [Observed terminal] ∧
    completed (client s') !! OperationId op = Some terminal ∧
    Revision op ≤ observedRevision (client s') ∧
    ObsOperationId terminal = OperationId op ∧ ObsRevision terminal = Revision op ∧
    (ObsPhase terminal = SUPERSEDED ↔ cancelled r = true) ∧
    (ObsPhase terminal = SUCCEEDED ↔
       cancelled r = false ∧ operationDeadlineExceeded op now = false ∧ err = None) ∧
    (operationDeadlineExceeded op now = true → cancelled r = false →
       ObsPhase terminal = FAILED ∧ ObsMessage terminal = operationDeadlineText).
Proof.
  clear admission. intros Hcache Hr Hrev. unfold executeFinish, finish. rewrite Hr, Hrev, Z.eqb_refl. cbn [negb].
  set (terminal := terminalOf now (cancelled r) op state err).
  assert (Ht : ObsOperationId terminal = OperationId op ∧ ObsRevision terminal = Revision op)
    by (unfold terminal, terminalOf; by repeat case_match).
  exists terminal. split_and!; try apply Ht; try done.
  - simpl. destruct Ht as [<- _]. by apply remember_lookup, storeObserved_ok.
  - simpl. rewrite rememberCompleted_observed, storeObservedRevision_max. lia.
  - unfold terminal, terminalOf. by destruct (cancelled r), (operationDeadlineExceeded op now), err.
  - unfold terminal, terminalOf.
    destruct (cancelled r), (operationDeadlineExceeded op now), err; naive_solver.
  - unfold terminal, terminalOf. by intros -> ->.
Qed.

(** Cancelling an operation that waits in the queue is accepted, and when
    the worker reaches it the handler is not called: the operation ends
    SUPERSEDED and its cancellation mark is cleared. *)
Theorem cancel_queued_never_runs now begun now' op s :
  OperationId op ≠ "" → Revision op ≠ 0 →
  completed (client s) !! OperationId op = None → closed (session s) = false →
  running (session s) !! OperationId op = None →
  queued (session s) !! OperationId op = Some (Revision op) →
  expired (session s) !! OperationId op = None →
  let s1 := (cancelOperation now true true (Some op) s).1 in
  let s2 := executeStart begun now' true op s1 in
  sent s1 = sent s ++ [OperationAck (OperationId op) (Revision op) true ""] ∧
  cancelledOps (session s1) !! OperationId op = Some (Revision op) ∧
  handled s2 = handled s ∧ work s2 = work s ∧
  sent s2 = sent s1 ++ [Observed (mkObserved (OperationId op) (Revision op) SUPERSEDED
                                    operationCancelledText "" (unix_milli now'))] ∧
  cancelledOps (session s2) !! OperationId op = None ∧
  Revision op ≤ observedRevision (client s2).
Proof.
  intros Hid Hr Hc Hcl Hrun Hq Hex s1 s2.
  pose proof (cancel_queued now op s Hid Hr Hc Hcl Hrun Hq) as E1. fold s1 in E1.
  assert (Hm : cancelledOps (session s1) !! OperationId op = Some (Revision op))
    by (rewrite E1; apply lookup_insert_eq).
  pose proof (start_cancelled begun now' op s1) as E2. fold s2 in E2.
  specialize (E2 ltac:(by rewrite E1) Hm ltac:(by rewrite E1)). rewrite E2.
  split_and!; try done; try (by rewrite E1).
  - simpl. unfold unmark, marked. rewrite Hm, Z.eqb_refl. apply lookup_delete_eq.
  - cbn [client]. rewrite rememberCompleted_observed, storeObservedRevision_max. lia.
Qed.

(** When a session ends, an operation still in its queue may be taken by the
    worker before it sees the end: it is then remembered as cancelled although
    Control never cancelled it, and a replay on the next session is answered
    SUPERSEDED without running its handler. *)
Theorem closed_session_supersedes_queued begun now now' op s :
  OperationId op ≠ "" → Kind op ≠ "" → Revision op ≠ 0 → cache_ok (client s) →
  closed (session s) = true → expired (session s) !! OperationId op = None →
  let s1 := executeStart begun now true op s in
  let terminal := mkObserved (OperationId op) (Revision op) SUPERSEDED operationCancelledText ""
                    (unix_milli now) in
  completed (client s1) !! OperationId op = Some terminal ∧
  sent (acceptOperation admission now' true true (Some op) s1).1 =
    sent s1 ++ [OperationAck (OperationId op) (Revision op) true ""; Observed terminal].
Proof.
  intros Hid Hk Hr Hcache Hcl Hex. unfold executeStart, begin. rewrite Hcl.
  assert (marked (expired (session s)) op = false) as Hme by (unfold marked; by rewrite Hex).
  unfold wasExpired. cbn [session set_session expired]. rewrite Hme.
  cbn [completeCancelledOperation complete sendObserved send fst set_client set_session client].
  set (terminal := mkObserved _ _ _ _ _ _).
  assert (Hl : completed (rememberCompleted (storeObservedRevision (client s) (Revision op)) terminal)
                 !! OperationId op = Some terminal)
    by (apply (remember_lookup _ terminal); by apply storeObserved_ok).
  split; [done|]. unfold acceptOperation, completedOperation.
  rewrite (proj2 (String.eqb_neq _ _) Hid), (proj2 (String.eqb_neq _ _) Hk),
    (proj2 (Z.eqb_neq _ _) Hr). cbn [orb client set_client set_session]. rewrite Hl.
  subst terminal. simpl. rewrite Z.eqb_refl. simpl. by rewrite <- !app_assoc.
Qed.

End Steps.

(** ** Witnesses *)

Definition demo_op (id : string) (rev : Z) : DesiredOperation := mkOperation id "plugin" rev 0 "".

Definition admission_all (_ : DesiredOperation) : option string := None.

(** One operation accepted, started and handed to its handler. *)
Definition demo_queued : Sys :=
  (acceptOperation admission_all 0 true true (Some (demo_op "a" 4)) initial).1.
Definition demo_started : Sys :=
  executeStart 0 0 true (demo_op "a" 4)
    (mkSys (client demo_queued) (session demo_queued) [] Idle (sent demo_queued) (handled demo_queued)).
Definition demo_handling : Sys := executeCheck 0 true (demo_op "a" 4) demo_started.
Definition demo_done : Sys := executeFinish 0 true (demo_op "a" 4) "{}" None demo_handling.

Lemma demo_handling_reachable : reachable admission_all demo_handling.
Proof.
  eapply rtc_l; [apply (step_accept _ 0 true true (Some (demo_op "a" 4)))|].
  eapply rtc_l; [apply (step_start _ 0 0 true (demo_op "a" 4) []); reflexivity|].
  eapply rtc_l; [apply (step_check _ 0 true (demo_op "a" 4)); reflexivity|].
  apply rtc_refl.
Qed.

Lemma handler_calls_increase_witness :
  handled demo_handling = [demo_op "a" 4] ∧ StronglySorted older (handled demo_handling).
Proof.
  split; [reflexivity|].
  apply (handler_calls_increase admission_all). exact demo_handling_reachable.
Defined.

Lemma no_handler_after_observed_witness :
  work demo_done = Idle ∧ observedRevision (client demo_done) = 4 ∧
  ∃ new, handled demo_done = handled demo_done ++ new ∧ Forall (λ op, 4 < Revision op) new.
Proof.
  split_and!; [reflexivity..|].
  apply (no_handler_after_observed admission_all demo_done demo_done); [reflexivity|apply rtc_refl].
Defined.

Lemma completed_cache_bounded_witness : cache_ok (client demo_handling).
Proof. apply (completed_cache_bounded admission_all). exact demo_handling_reachable. Defined.

Lemma replay_answers_remembered_witness :
  sent (acceptOperation admission_all 0 true true (Some (demo_op "a" 4)) demo_done).1 =
  sent demo_done ++ [OperationAck "a" 4 true "";
                     Observed (mkObserved "a" 4 SUCCEEDED "" "{}" (unix_milli 0))].
Proof.
  rewrite (replay_answers_remembered admission_all 0 (demo_op "a" 4)
             (mkObserved "a" 4 SUCCEEDED "" "{}" (unix_milli 0)) demo_done);
    vm_compute; done.
Defined.

Lemma demo_cache_ok : cache_ok (client demo_handling).
Proof.
  split; vm_compute; [constructor| |done|done].
  intros id. split; [|by intros [? ?]]. inversion 1.
Qed.

Lemma finish_outcome_witness :
  ∃ terminal, sent demo_done = sent demo_handling ++ [Observed terminal] ∧
    completed (client demo_done) !! "a" = Some terminal.
Proof.
  destruct (finish_outcome 0 (demo_op "a" 4) "{}" None demo_handling (mkRunning 4 false))
    as (t & Hs & Hc & _); [|vm_compute; reflexivity..|].
  { apply demo_cache_ok. }
  exists t. split; [exact Hs|exact Hc].
Defined.

Lemma cancel_queued_never_runs_witness :
  handled (executeStart 0 0 true (demo_op "a" 4)
             (cancelOperation 0 true true (Some (demo_op "a" 4)) demo_queued).1) = [].
Proof.
  apply (cancel_queued_never_runs 0 0 0 (demo_op "a" 4) demo_queued); vm_compute; done.
Defined.

(** The session ends while operation "a" waits in its queue. *)
Definition demo_closed : Sys :=
  set_session demo_queued (close (session demo_queued)).

Lemma closed_session_supersedes_queued_witness :
  chan demo_closed = [demo_op "a" 4] ∧
  completed (client (executeStart 0 0 true (demo_op "a" 4) demo_closed)) !! "a" =
    Some (mkObserved "a" 4 SUPERSEDED operationCancelledText "" (unix_milli 0)).
Proof.
  split; [reflexivity|].
  apply (closed_session_supersedes_queued admission_all 0 0 0 (demo_op "a" 4) demo_closed);
    try (vm_compute; done).
  split; vm_compute; [constructor| |done|done]. intros id. split; [inversion 1|by intros [? ?]].
Defined.

End Operations.
