(* ===== verification/Maintenance.v ===== *)
(** * The maintenance store (src/common/maintenance/event.go, store.go)

    The durable boundary between the plugin supervisor and Control: health
    observations become incidents and recoveries, restarts are rationed, and
    the resulting events wait in an outbox until Control has stored them.
    The state file is the [disk]; every operation is a transaction that loads
    it, changes it and writes it back.  JSON is a parameter: what the code
    uses of it is the size of an encoding and that an event encodes to one
    text. *)

From Stdlib Require Import Ascii.
From S2P Require Import Prelude GoStrings.

Module Maintenance.

(** ** Data *)

Record Event := mkEvent {
  SchemaVersion : Z;
  EventID : string;
  OccurredAt : time;
  Environment : string;
  Source : string;
  NodeID : string;
  AgentVersion : string;
  ConfigVersion : string;
  PluginID : string;
  PluginVersion : string;
  InstanceID : string;
  ErrorCode : string;
  Severity : string;
  Status : string;
  FirstFailedAt : option time;
  ConsecutiveFailures : Z;
  HealthySince : option time;
  SelfHealAction : string;
  SelfHealResult : string;
  DiagnosticRef : string;
  TicketKey : string;
  RedactedSummary : string
}.

#[export] Instance Event_eq_dec : EqDecision Event.
Proof. solve_decision. Defined.

Definition Version : string := "anixops.maintenance/v1".
Definition MaxBatchSize : Z := 50.
Definition MaxPayloadBytes : Z := 262144.
Definition MaxEventBytes : Z := 16384.
Definition maxQueueEvents : Z := 100000.
Definition maxStateBytes : Z := 268435456.

Definition FailureDuration : duration := 2 * minute.
Definition RecoveryDuration : duration := 5 * minute.
Definition RestartWindow : duration := 30 * minute.
Definition RestartLimit : Z := 2.

(** [time.Date(2020, 1, 1, 0, 0, 0, 0, time.UTC)]. *)
Definition year2020 : time := time_unix 1577836800.

(** ** Patterns *)

Definition is_alnum (c : ascii) : bool := is_lower_letter c || is_upper_letter c || is_digit c.
Definition one_of_chars (l : list ascii) (c : ascii) : bool := existsb (Ascii.eqb c) l.

(** [^first rest{0,127}$] over bytes. *)
Definition matches (first rest : ascii → bool) (s : string) : bool :=
  match s with
  | EmptyString => false
  | String c s' => first c && all_chars rest s' && (len s' <=? 127)
  end.

Definition identityPattern (s : string) : bool :=
  matches is_alnum (λ c, is_alnum c || one_of_chars ["."; "_"; ":"; "-"]%char c) s.
Definition errorPattern (s : string) : bool :=
  matches is_upper_letter
    (λ c, is_upper_letter c || is_digit c || one_of_chars ["_"; "."; "-"]%char c) s.
Definition versionPattern (s : string) : bool :=
  matches is_alnum (λ c, is_alnum c || one_of_chars ["."; "_"; "+"; "-"]%char c) s.
Definition nodePattern (s : string) : bool :=
  matches (in_range "1" "9") is_digit s.

Definition oneOf (value : string) (choices : list string) : bool :=
  existsb (String.eqb value) choices.

(** A set [*time.Time] before 2020 or after the event. *)
Definition badInstant (t : option time) (occurred : time) : bool :=
  match t with
  | Some t => before t year2020 || after t occurred
  | None => false
  end.

Section Json.
Context (event_json : Event → string).

(** [ValidateAt].  The two loops over map literals check in an unspecified
    order, which only decides which of several errors is reported. *)
Definition ValidateAt (e : Event) (now : time) : result unit :=
  if negb (SchemaVersion e =? 1) then Err "invalid schema_version"
  else if negb (nodePattern (NodeID e)) || negb (bool_decide (is_Some (parse_uint (NodeID e))))
          || bool_decide (parse_uint (NodeID e) = Some 0) then Err "invalid node_id"
  else if negb (identityPattern (EventID e)) then Err "invalid event_id"
  else if negb (identityPattern (PluginID e)) then Err "invalid plugin_id"
  else if negb (identityPattern (InstanceID e)) then Err "invalid instance_id"
  else if negb (String.eqb (AgentVersion e) "") && negb (versionPattern (AgentVersion e)) then
    Err "invalid agent_version"
  else if negb (String.eqb (ConfigVersion e) "") && negb (versionPattern (ConfigVersion e)) then
    Err "invalid config_version"
  else if negb (versionPattern (PluginVersion e)) then Err "invalid plugin_version"
  else if negb (errorPattern (ErrorCode e)) then Err "invalid error_code"
  else if before (OccurredAt e) year2020 || after (OccurredAt e) (add now (5 * minute)) then
    Err "invalid occurred_at"
  else if negb (oneOf (Environment e) ["production"; "staging"; "development"]) then
    Err "invalid environment"
  else if negb (oneOf (Source e) ["agent"; "control"; "networkcore"; "deployment"]) then
    Err "invalid source"
  else if negb (oneOf (Severity e) ["P0"; "P1"; "P2"; "P3"]) then Err "invalid severity"
  else if negb (oneOf (Status e) ["open"; "degraded"; "recovered"]) then Err "invalid status"
  else if negb (oneOf (SelfHealAction e) [""; "none"; "retry"; "restart"; "circuit_break"]) then
    Err "invalid self_heal_action"
  else if negb (oneOf (SelfHealResult e) [""; "not_attempted"; "succeeded"; "failed"; "blocked"]) then
    Err "invalid self_heal_result"
  else if (ConsecutiveFailures e <? 0) || (1000000 <? ConsecutiveFailures e) then
    Err "invalid consecutive_failures"
  else if badInstant (FirstFailedAt e) (OccurredAt e) then Err "invalid first_failed_at"
  else if badInstant (HealthySince e) (OccurredAt e) then Err "invalid healthy_since"
  else if (256 <? len (DiagnosticRef e)) || (256 <? len (TicketKey e))
          || (2000 <? len (RedactedSummary e))
          || contains_char (DiagnosticRef e +:+ TicketKey e +:+ RedactedSummary e) "000" then
    Err "invalid diagnostic fields"
  else if String.eqb (Status e) "recovered"
          && (bool_decide (HealthySince e = None) || negb (ConsecutiveFailures e =? 0)) then
    Err "invalid recovery"
  else if negb (String.eqb (Status e) "recovered")
          && (bool_decide (FirstFailedAt e = None) || (ConsecutiveFailures e =? 0)
              || negb (bool_decide (HealthySince e = None))) then
    Err "invalid failure"
  else if MaxEventBytes <? len (event_json e) then Err "event exceeds maximum encoded size"
  else Ok tt.

Definition DedupeKey (e : Event) : string :=
  Environment e +:+ "|" +:+ NodeID e +:+ "|" +:+ PluginID e +:+ "|" +:+ InstanceID e.

(** ** State *)

Record instanceState := mkInstance {
  FailureStreakAt : option time;
  instFirstFailedAt : option time;
  LastObservedAt : time;
  instFailures : Z;
  instHealthySince : option time;
  IsOpen : bool;
  instErrorCode : string;
  RestartTimes : list time
}.

(** The zero value a missing map entry reads as. *)
Definition zeroInstance : instanceState := mkInstance None None 0 0 None false "" [].

Record diskState := mkDisk {
  NextSequence : Z;
  Order : gmap string Z;
  Events : gmap string Event;
  Instances : gmap string instanceState
}.

(** What the state file may decode to: identity fields, and maps that are
    missing ([null]) or present. *)
Record stateFile := mkStateFile {
  fileVersion : string;
  fileNodeID : string;
  fileEnvironment : string;
  fileNext : Z;
  fileOrder : option (gmap string Z);
  fileEvents : option (gmap string Event);
  fileInstances : option (gmap string instanceState)
}.

Inductive disk :=
| NoFile
| Unreadable          (* not a bounded regular file, or it does not decode *)
| File (f : stateFile).

Record Store := mkStore {
  nodeID : string;
  environment : string;
  agentVersion : string
}.

Record Observation := mkObservation {
  obsPluginID : string;
  obsInstanceID : string;
  obsPluginVersion : string;
  obsConfigVersion : string;
  obsErrorCode : string;
  RestartAllowed : bool
}.

Definition instanceKey (plugin instance : string) : string :=
  plugin +:+ String "000" instance.

(** How [atomicWrite] ends: the file is replaced and durable, it is left as it
    was, or it is replaced and the directory sync after the rename fails. *)
Inductive writeResult := Written | NotWritten | Unsynced.

(** What the system answers during a transaction: whether the directory and
    the lock are obtained, how the write ends, and the size the new state
    encodes to ([None] when [json.Marshal] fails). *)
Record IO := mkIO {
  lock_ok : bool;
  write : writeResult;
  encoded_size : diskState → option Z
}.

(** ** Transactions *)

(** The state a transaction starts from. *)
Definition load (s : Store) (d : disk) : result diskState :=
  match d with
  | NoFile => Ok (mkDisk 0 ∅ ∅ ∅)
  | Unreadable => Err "read maintenance state"
  | File f =>
      if negb (String.eqb (fileVersion f) Version) || negb (String.eqb (fileNodeID f) (nodeID s))
         || negb (String.eqb (fileEnvironment f) (environment s)) then
        Err "maintenance state identity or version mismatch"
      else match fileEvents f, fileInstances f with
           | Some events, Some instances =>
               if bool_decide (map_Forall (λ key _, contains_char key "000" = true) instances) then
                 Ok (mkDisk (fileNext f) (default ∅ (fileOrder f)) events instances)
               else Err "maintenance instance state lacks plugin namespace; explicit migration is required"
           | _, _ => Err "maintenance state identity or version mismatch"
           end
  end.

Definition to_file (s : Store) (st : diskState) : stateFile :=
  mkStateFile Version (nodeID s) (environment s) (NextSequence st) (Some (Order st))
    (Some (Events st)) (Some (Instances st)).

Definition transaction {A} (io : IO) (s : Store) (d : disk)
    (change : diskState → result (diskState * A)) : disk * result A :=
  if negb (lock_ok io) then (d, Err "lock")
  else match load s d with
       | Err e => (d, Err e)
       | Ok st =>
           match change st with
           | Err e => (d, Err e)
           | Ok (st', a) =>
               match encoded_size io st' with
               | None => (d, Err "marshal")
               | Some n =>
                   if maxStateBytes <? n then (d, Err "maintenance state capacity exceeded")
                   else match write io with
                        | Written => (File (to_file s st'), Ok a)
                        | NotWritten => (d, Err "write")
                        | Unsynced => (File (to_file s st'), Err "sync")
                        end
               end
           end
       end.

(** [append]: [wall] is the wall clock of [Validate]. *)
Definition append (s : Store) (wall : time) (st : diskState) (e : Event) : result diskState :=
  match ValidateAt e wall with
  | Err m => Err m
  | Ok _ =>
      if negb (String.eqb (NodeID e) (nodeID s)) then
        Err "maintenance event node does not match store"
      else match Events st !! EventID e with
           | Some existing =>
               if negb (String.eqb (event_json existing) (event_json e)) then
                 Err "maintenance event ID collision"
               else Ok st
           | None =>
               if maxQueueEvents <=? Z.of_nat (size (Events st)) then
                 Err "maintenance outbox is full; event not accepted"
               else
                 let next := u64 (NextSequence st + 1) in
                 Ok (mkDisk next (<[EventID e := next]> (Order st))
                       (<[EventID e := e]> (Events st)) (Instances st))
           end
  end.

Definition Queue (io : IO) (s : Store) (wall : time) (e : Event) (d : disk) : disk * result unit :=
  transaction io s d (λ st, let? st := append s wall st e in Ok (st, tt)).

(** [Open]: the probe event validates the identity; every instance starts
    without a healthy streak. *)
Definition Open (io : IO) (path : string) (s : Store) (wall : time) (d : disk) : disk * result unit :=
  let probe := mkEvent 1 "validation" wall (environment s) "agent" (nodeID s) (agentVersion s) ""
                 "validation" "1" "validation" "HEALTH_CHECK_FAILED" "P2" "open" (Some wall) 1 None
                 "" "" "" "" "" in
  match ValidateAt probe wall with
  | Err e => (d, Err e)
  | Ok _ =>
      if String.eqb path "" then (d, Err "maintenance state path is required")
      else transaction io s d (λ st,
             Ok (mkDisk (NextSequence st) (Order st) (Events st)
                   ((λ i, mkInstance (FailureStreakAt i) (instFirstFailedAt i) (LastObservedAt i)
                            (instFailures i) None (IsOpen i) (instErrorCode i) (RestartTimes i))
                    <$> Instances st), tt))
  end.

(** ** Outbox *)

(** The order of [Pending]: by time, then by sequence, then by id. *)
Definition event_le (order : gmap string Z) (a b : Event) : Prop :=
  OccurredAt a < OccurredAt b ∨
  OccurredAt a = OccurredAt b ∧
  (default 0 (order !! EventID a) < default 0 (order !! EventID b) ∨
   default 0 (order !! EventID a) = default 0 (order !! EventID b) ∧
   String.le (EventID a) (EventID b)).

#[export] Instance event_le_dec order : RelDecision (event_le order).
Proof. intros a b. unfold event_le. apply _. Defined.

(** The size loop of [Pending]: the longest prefix whose batch encodes within
    [MaxPayloadBytes]; an error when not even the first event fits. *)
Fixpoint fit_batch (first : bool) (size : Z) (events : list Event) : result (list Event) :=
  match events with
  | [] => Ok []
  | e :: rest =>
      let next := size + len (event_json e) + (if first then 0 else 1) in
      if MaxPayloadBytes <? next then
        if first then Err "queued event exceeds batch payload limit" else Ok []
      else let? l := fit_batch false next rest in Ok (e :: l)
  end.

(** Size of [{"version":"anixops.maintenance/v1","events":[]}]. *)
Definition batchOverhead : Z := 48.

Definition Pending (io : IO) (s : Store) (limit : Z) (d : disk) : disk * result (list Event) :=
  let limit := if (limit <=? 0) || (MaxBatchSize <? limit) then MaxBatchSize else limit in
  let '(d, r) := transaction io s d (λ st, Ok (st, st)) in
  (d, let? st := r in
      let events := merge_sort (event_le (Order st)) (map_to_list (Events st)).*2 in
      fit_batch true batchOverhead (take (Z.to_nat limit) events)).

Record EventResult := mkEventResult {
  resEventID : string;
  Persisted : bool
}.

#[export] Instance EventResult_eq_dec : EqDecision EventResult.
Proof. solve_decision. Defined.

Definition removeEvent (st : diskState) (id : string) : diskState :=
  mkDisk (NextSequence st) (delete id (Order st)) (delete id (Events st)) (Instances st).

Definition Acknowledge (io : IO) (s : Store) (version : string) (results : list EventResult) (d : disk)
  : disk * result unit :=
  if negb (String.eqb version Version) || (MaxBatchSize <? Z.of_nat (length results)) then
    (d, Err "invalid maintenance acknowledgment")
  else transaction io s d (λ st,
    Ok (fold_left (λ st r, if Persisted r && identityPattern (resEventID r)
                           then removeEvent st (resEventID r) else st) results st, tt)).

Definition Remove (io : IO) (s : Store) (ids : list string) (d : disk) : disk * result unit :=
  match ids with
  | [] => (d, Ok tt)
  | _ => transaction io s d (λ st, Ok (fold_left removeEvent ids st, tt))
  end.

(** ** Observations *)

Definition manualError (code : string) : bool :=
  oneOf code ["PLUGIN_CREDENTIAL_INVALID"; "PLUGIN_PERMISSION_DENIED";
              "PLUGIN_SIGNATURE_INVALID"; "PLUGIN_CONFIG_INVALID"].

(** The restarts still inside the window. *)
Definition recentRestarts (now : time) (times : list time) : list time :=
  filter (λ t, after t (add now (- RestartWindow)) = true) times.

(** An event to emit: its status, self-heal action and result. *)
Record emission := mkEmission {
  emStatus : string;
  emAction : string;
  emResult : string
}.

(** The body of [Observe] on one instance: its new state, the event it emits
    and whether a restart is granted; [None] when the observation is at the
    instant of the last one and changes nothing. *)
Definition observeInstance (o : Observation) (now : time) (i : instanceState)
  : result (option (instanceState * option emission * bool)) :=
  if before now (LastObservedAt i) then Err "maintenance observation clock moved backwards"
  else if now =? LastObservedAt i then Ok None
  else
    let healthy := if minute <? sub now (LastObservedAt i) then None else instHealthySince i in
    let times := recentRestarts now (RestartTimes i) in
    if String.eqb (obsErrorCode o) "" then
      let since := default now healthy in
      let recovered := IsOpen i && (RecoveryDuration <=? sub now since) in
      let first := if IsOpen i then instFirstFailedAt i else None in
      Ok (Some (mkInstance None first now 0 (Some since) (IsOpen i) (instErrorCode i) times,
                if recovered then Some (mkEmission "recovered" "none" "not_attempted") else None,
                false))
    else if negb (errorPattern (obsErrorCode o)) then Err "invalid observation error code"
    else
      let streak := default now (FailureStreakAt i) in
      let failures := match instFirstFailedAt i with Some _ => instFailures i | None => 0 end in
      let first := default now (instFirstFailedAt i) in
      let failures := if failures <? 1000000 then failures + 1 else failures in
      let code := obsErrorCode o in
      let next opened times :=
        mkInstance (Some streak) (Some first) now failures None (IsOpen i || opened) code times in
      if ((3 <=? failures) && (FailureDuration <=? sub now streak)) || manualError code then
        if RestartAllowed o && (String.eqb code "PLUGIN_HEALTH_FAILED"
                                || String.eqb code "PLUGIN_PROCESS_EXITED") then
          if Z.of_nat (length times) <? RestartLimit then
            Ok (Some (next true (times ++ [now]),
                      Some (mkEmission "open" "restart" "not_attempted"), true))
          else Ok (Some (next true times,
                         Some (mkEmission "open" "circuit_break" "blocked"), false))
        else Ok (Some (next true times, Some (mkEmission "open" "none" "blocked"), false))
      else Ok (Some (next false times, None, false)).

(** [Store.event]. *)
Definition event (s : Store) (o : Observation) (i : instanceState) (now : time)
    (id status action result : string) : Event :=
  mkEvent 1 id now (environment s) "agent" (nodeID s) (agentVersion s) (obsConfigVersion o)
    (obsPluginID o) (obsPluginVersion o) (obsInstanceID o) (instErrorCode i)
    (if String.eqb (instErrorCode i) "PLUGIN_SIGNATURE_INVALID" then "P0" else "P2")
    status (instFirstFailedAt i) (instFailures i) (instHealthySince i) action result "" "" "".

(** A recovered incident is closed. *)
Definition closeIncident (i : instanceState) : instanceState :=
  mkInstance (FailureStreakAt i) None (LastObservedAt i) 0 (instHealthySince i) false ""
    (RestartTimes i).

Definition normalize (o : Observation) : Observation :=
  if String.eqb (obsInstanceID o) "" then
    mkObservation (obsPluginID o) (obsPluginID o) (obsPluginVersion o) (obsConfigVersion o)
      (obsErrorCode o) (RestartAllowed o)
  else o.

Definition putInstance (st : diskState) (key : string) (i : instanceState) : diskState :=
  mkDisk (NextSequence st) (Order st) (Events st) (<[key := i]> (Instances st)).

(** The change [Observe] makes; [id] is the random event id, [None] when the
    random source fails. *)
Definition observeChange (s : Store) (wall now : time) (id : option string) (o : Observation)
    (st : diskState) : result (diskState * bool) :=
  let key := instanceKey (obsPluginID o) (obsInstanceID o) in
  match observeInstance o now (default zeroInstance (Instances st !! key)) with
  | Err e => Err e
  | Ok None => Ok (st, false)
  | Ok (Some (i, None, restart)) => Ok (putInstance st key i, restart)
  | Ok (Some (i, Some em, restart)) =>
      match id with
      | None => Err "rand"
      | Some id =>
          let? st := append s wall st (event s o i now id (emStatus em) (emAction em) (emResult em)) in
          Ok (putInstance st key (if String.eqb (emStatus em) "recovered" then closeIncident i else i),
              restart)
      end
  end.

Definition Observe (io : IO) (s : Store) (wall now : time) (id : option string) (o : Observation)
    (d : disk) : disk * result bool :=
  let o := normalize o in
  if negb (identityPattern (obsPluginID o)) || negb (identityPattern (obsInstanceID o)) then
    (d, Err "invalid plugin instance")
  else transaction io s d (observeChange s wall now id o).

Definition CompleteRestart (io : IO) (s : Store) (wall now : time) (id : option string)
    (o : Observation) (failed : bool) (d : disk) : disk * result unit :=
  let o := normalize o in
  transaction io s d (λ st,
    match Instances st !! instanceKey (obsPluginID o) (obsInstanceID o) with
    | Some i =>
        if negb (IsOpen i) then Err "restart has no persisted incident"
        else match id with
             | None => Err "rand"
             | Some id =>
                 let? st := append s wall st
                              (event s o i now id "open" "restart"
                                 (if failed then "failed" else "succeeded")) in
                 Ok (st, tt)
             end
    | None => Err "restart has no persisted incident"
    end).

Definition HasFailure (io : IO) (s : Store) (plugin instance : string) (d : disk) : disk * result bool :=
  transaction io s d (λ st,
    Ok (st, bool_decide (is_Some (instFirstFailedAt
          (default zeroInstance (Instances st !! instanceKey plugin instance)))))).

(** ** Restart budget *)

(** One call on the store, with the faults and clocks it meets; [OpOpen] is a
    restart of the Agent. *)
Inductive op :=
| OpOpen (io : IO) (path : string) (wall : time)
| OpQueue (io : IO) (wall : time) (e : Event)
| OpPending (io : IO) (limit : Z)
| OpAcknowledge (io : IO) (version : string) (results : list EventResult)
| OpRemove (io : IO) (ids : list string)
| OpObserve (io : IO) (wall now : time) (id : option string) (o : Observation)
| OpComplete (io : IO) (wall now : time) (id : option string) (o : Observation) (failed : bool)
| OpHasFailure (io : IO) (plugin instance : string).

(** Running one call: the file after it, and the restart it grants to the
    instance [key], if any. *)
Definition exec (s : Store) (key : string) (d : disk) (x : op) : disk * option time :=
  match x with
  | OpOpen io path wall => ((Open io path s wall d).1, None)
  | OpQueue io wall e => ((Queue io s wall e d).1, None)
  | OpPending io limit => ((Pending io s limit d).1, None)
  | OpAcknowledge io v rs => ((Acknowledge io s v rs d).1, None)
  | OpRemove io ids => ((Remove io s ids d).1, None)
  | OpObserve io wall now id o =>
      let '(d, r) := Observe io s wall now id o d in
      let o := normalize o in
      (d, match r with
          | Ok true => if String.eqb (instanceKey (obsPluginID o) (obsInstanceID o)) key
                       then Some now else None
          | _ => None
          end)
  | OpComplete io wall now id o failed => ((CompleteRestart io s wall now id o failed d).1, None)
  | OpHasFailure io p i => ((HasFailure io s p i d).1, None)
  end.

(** The restarts granted to [key] over a sequence of calls, oldest first. *)
Fixpoint grants (s : Store) (key : string) (d : disk) (xs : list op) : list time :=
  match xs with
  | [] => []
  | x :: xs => let '(d, g) := exec s key d x in option_list g ++ grants s key d xs
  end.

(** The instance [key] in the state a transaction loads. *)
Definition instanceAt (s : Store) (key : string) (d : disk) : instanceState :=
  match load s d with
  | Ok st => default zeroInstance (Instances st !! key)
  | Err _ => zeroInstance
  end.

Lemma load_to_file s st st' : load s (File (to_file s st)) = Ok st' → st' = st.
Proof.
  unfold load, to_file. simpl. rewrite !String.eqb_refl. simpl.
  destruct (bool_decide _); [|done]. intros [= <-]. by destruct st.
Qed.

Lemma load_written s d st : load s d = Ok st → load s (File (to_file s st)) = Ok st.
Proof.
  unfold load. simpl. rewrite !String.eqb_refl. simpl.
  destruct d as [| |f]; [intros [= <-]|done|].
  - rewrite bool_decide_true; [done|]. apply map_Forall_empty.
  - intros H. destruct (_ || _); [done|]. destruct (fileEvents f), (fileInstances f); try done.
    case_bool_decide as E; simplify_eq/=. by rewrite bool_decide_true.
Qed.

(** A transaction leaves the file alone and fails, or writes what the change
    makes of the state it loaded; it succeeds only after writing. *)
Lemma transaction_inv {A} io s d (f : diskState → result (diskState * A)) :
  let '(d', r) := transaction io s d f in
  (d' = d ∧ ∃ e, r = Err e) ∨
  (∃ st st' a, load s d = Ok st ∧ f st = Ok (st', a) ∧ d' = File (to_file s st') ∧
     (r = Ok a ∨ ∃ e, r = Err e)).
Proof. unfold transaction. repeat case_match; naive_solver. Qed.

Lemma append_instances s wall st e st' : append s wall st e = Ok st' → Instances st' = Instances st.
Proof. unfold append. intros. by repeat case_match; simplify_eq. Qed.

Lemma fold_remove_instances st l (f : diskState → EventResult → diskState) :
  (∀ st r, Instances (f st r) = Instances st) → Instances (fold_left f l st) = Instances st.
Proof. intros Hf. revert st. induction l as [|x l IH]; intros st; [done|]. simpl. by rewrite IH, Hf. Qed.

Lemma fold_removeEvent_instances l st : Instances (fold_left removeEvent l st) = Instances st.
Proof. revert st. induction l as [|x l IH]; intros st; [done|]. simpl. by rewrite IH. Qed.

Lemma observeInstance_spec o now i i' em b :
  observeInstance o now i = Ok (Some (i', em, b)) →
  LastObservedAt i < now ∧ LastObservedAt i' = now ∧
  RestartTimes i' = recentRestarts now (RestartTimes i) ++ (if b then [now] else []) ∧
  (b = true → Z.of_nat (length (recentRestarts now (RestartTimes i))) < RestartLimit).
Proof.
  unfold observeInstance, before. intros H.
  destruct (Z.ltb_spec now (LastObservedAt i)); [done|].
  destruct (Z.eqb_spec now (LastObservedAt i)); [done|].
  repeat case_match; simplify_eq; simpl; rewrite ?app_nil_r; split_and!; try done; try lia.
Qed.

(** The instance [key] keeps what the budget depends on. *)
Definition same_budget (key : string) (st st' : diskState) : Prop :=
  let i := default zeroInstance (Instances st !! key) in
  let i' := default zeroInstance (Instances st' !! key) in
  LastObservedAt i' = LastObservedAt i ∧ RestartTimes i' = RestartTimes i.

Lemma same_budget_eq key st st' : Instances st' = Instances st → same_budget key st st'.
Proof. unfold same_budget. by intros ->. Qed.

(** Replaces a transaction of the goal by its two outcomes: the file is
    untouched (solved by [left]), or the change has been written. *)
Ltac transaction_cases :=
  match goal with |- context [transaction ?io ?s ?d ?f] =>
    let Ht := fresh "Ht" in
    pose proof (transaction_inv io s d f) as Ht;
    destruct (transaction io s d f) as [dnew res];
    let st := fresh "st" in let st' := fresh "st'" in let a := fresh "a" in
    destruct Ht as [[-> [? ->]]|(st & st' & a & Hload & Hchange & -> & Hres)]
  end.

(** One observation of [key], as the budget sees it. *)
Definition observed (key : string) (st st' : diskState) (g : option time) : Prop :=
  ∃ o now i' em b i'',
    observeInstance o now (default zeroInstance (Instances st !! key)) = Ok (Some (i', em, b)) ∧
    Instances st' !! key = Some i'' ∧
    LastObservedAt i'' = LastObservedAt i' ∧ RestartTimes i'' = RestartTimes i' ∧
    (g = None ∨ b = true ∧ g = Some now).

Lemma observeChange_cases s wall now id o key st st' b :
  observeChange s wall now id o st = Ok (st', b) →
  let g := if b then if String.eqb (instanceKey (obsPluginID o) (obsInstanceID o)) key
                     then Some now else None else None in
  (g = None ∧ same_budget key st st') ∨ (observed key st st' g ∧ observed key st st' None).
Proof.
  unfold observeChange. set (k := instanceKey _ _). intros H.
  destruct (String.eqb_spec k key) as [->|Hk]; simpl.
  - destruct (observeInstance o now _) as [[[[i em] r]|]|] eqn:E; simplify_eq.
    + right. assert (r = b ∧ ∃ i'', Instances st' !! key = Some i'' ∧
        LastObservedAt i'' = LastObservedAt i ∧ RestartTimes i'' = RestartTimes i) as (-> & i'' & ?).
      { repeat case_match; simplify_eq; (split; [done|]); simpl; rewrite lookup_insert_eq; eauto. }
      destruct_and!. split; exists o, now, i, em, b, i''; split_and!; try done; [|by left].
      destruct b; [by right|by left].
    + left. done.
  - left. split; [by destruct b|]. unfold same_budget.
    assert (Instances st' !! key = Instances st !! key) as ->; [|done].
    repeat case_match; simplify_eq; simpl; rewrite ?lookup_insert_ne by done;
      try done; by erewrite append_instances.
Qed.

(** One call changes the file not at all, without touching the instance, or by
    one observation of it, which is the only way to a grant. *)
Lemma exec_cases s key d x : let '(d', g) := exec s key d x in
  (d' = d ∧ g = None) ∨
  (∃ st st', load s d = Ok st ∧ d' = File (to_file s st') ∧
     (g = None ∧ same_budget key st st' ∨ observed key st st' g)).
Proof.
  destruct x as [io path wall|io wall e|io limit|io v rs|io ids|io wall now id o|io wall now id o fl|io p i];
    simpl.
  - unfold Open. case_match; [|by left]. case_match; [by left|].
    transaction_cases; [by left|]. right. exists st, st'. split_and!; [done..|]. left. simplify_eq.
    split; [done|]. unfold same_budget. simpl. rewrite lookup_fmap. by destruct (Instances st !! key).
  - unfold Queue. transaction_cases; [by left|]. right. exists st, st'. split_and!; [done..|]. left.
    destruct (append s wall st e) eqn:E; simplify_eq. split; [done|].
    apply same_budget_eq. by eapply append_instances.
  - unfold Pending. transaction_cases; [by left|]. right. exists st, st'. simplify_eq.
    split_and!; [done..|]. by left.
  - unfold Acknowledge. case_match; [by left|]. transaction_cases; [by left|].
    right. exists st, st'. split_and!; [done..|]. left. simplify_eq. split; [done|]. apply same_budget_eq.
    apply fold_remove_instances. intros. by case_match.
  - unfold Remove. case_match; [by left|]. transaction_cases; [by left|].
    right. exists st, st'. split_and!; [done..|]. left. simplify_eq. split; [done|]. apply same_budget_eq.
    apply (fold_removeEvent_instances (_ :: _)).
  - unfold Observe. destruct (_ || _); [by left|]. transaction_cases; [by left|].
    right. exists st, st'. split_and!; [done..|].
    apply (observeChange_cases _ _ _ _ _ key) in Hchange. simpl in Hchange.
    destruct Hres as [->|[? ->]]; destruct Hchange as [[Hg ?]|[? ?]]; rewrite ?Hg; auto.
  - unfold CompleteRestart. transaction_cases; [by left|]. right. exists st, st'. split_and!; [done..|].
    left. split; [done|]. apply same_budget_eq.
    repeat case_match; simplify_eq; by eapply append_instances.
  - unfold HasFailure. transaction_cases; [by left|]. right. exists st, st'. simplify_eq.
    split_and!; [done..|]. by left.
Qed.

Lemma recentRestarts_elem now t l : t ∈ recentRestarts now l ↔ now - t < RestartWindow ∧ t ∈ l.
Proof.
  unfold recentRestarts, after, add. rewrite list_elem_of_filter, Z.ltb_lt. split; intros []; split; done || lia.
Qed.

Lemma recentRestarts_mono now l1 l2 :
  l1 `sublist_of` l2 → recentRestarts now l1 `sublist_of` recentRestarts now l2.
Proof. apply sublist_filter_mono. Qed.

(** Filtering at an earlier instant first makes no difference. *)
Lemma recentRestarts_twice t now l :
  t ≤ now → recentRestarts now (recentRestarts t l) = recentRestarts now l.
Proof.
  intros. unfold recentRestarts, add, after. apply list_filter_filter_l.
  intros x. rewrite !Z.ltb_lt. lia.
Qed.

Lemma recentRestarts_app now l1 l2 :
  recentRestarts now (l1 ++ l2) = recentRestarts now l1 ++ recentRestarts now l2.
Proof. apply filter_app. Qed.

(** Any restart and the second one after it are a window apart. *)
Definition spaced (gs : list time) : Prop :=
  ∀ j a c, gs !! j = Some a → gs !! (j + 2)%nat = Some c → RestartWindow ≤ c - a.

(** What the file knows of the restarts [gs] granted so far. *)
Definition budget_inv (s : Store) (key : string) (d : disk) (gs : list time) : Prop :=
  spaced gs ∧
  ∀ st, load s d = Ok st →
    let i := default zeroInstance (Instances st !! key) in
    StronglySorted Z.lt gs ∧ Forall (λ g, g ≤ LastObservedAt i) gs ∧
    recentRestarts (LastObservedAt i) gs `sublist_of` RestartTimes i.

Lemma lookup_pair_sublist (gs : list Z) j a :
  gs !! j = Some a → length gs = (j + 2)%nat → ∃ b pre, gs = pre ++ [a; b].
Proof.
  intros Hj Hl. pose proof (take_drop_middle gs j a Hj) as Hm.
  destruct (drop (S j) gs) as [|b [|? ?]] eqn:E; apply (f_equal length) in E;
    rewrite length_drop in E; simpl in E; try lia.
  by exists b, (take j gs).
Qed.

(** A grant under the limit keeps the restarts spaced. *)
Lemma spaced_snoc gs now times :
  spaced gs → StronglySorted Z.lt gs → recentRestarts now gs `sublist_of` times →
  Z.of_nat (length times) < RestartLimit → spaced (gs ++ [now]).
Proof.
  unfold time in *. intros Hs Hso Hsub Hlen j a c Ha Hc.
  apply lookup_app_Some in Hc as [Hc|[Hle Hc]].
  { rewrite lookup_app_l in Ha by (apply lookup_lt_Some in Hc; lia). by eapply Hs. }
  apply list_lookup_singleton_Some in Hc as [Hz ->].
  apply lookup_app_Some in Ha as [Ha|[Hj Ha]];
    [|apply list_lookup_singleton_Some in Ha as [Hj' _]; lia].
  destruct (lookup_pair_sublist gs j a Ha ltac:(lia)) as (b & pre & ->).
  destruct (decide (RestartWindow ≤ c - a)) as [|Hn]; [done|exfalso].
  assert (a < b).
  { apply StronglySorted_app in Hso as (_ & _ & Hso). apply StronglySorted_cons in Hso as [Hab _].
    by rewrite Forall_singleton in Hab. }
  rewrite recentRestarts_app in Hsub. apply sublist_length in Hsub. rewrite length_app in Hsub.
  unfold recentRestarts in Hsub at 2. unfold RestartLimit in Hlen.
  rewrite !filter_cons in Hsub.
  rewrite !decide_True in Hsub by (unfold after, add; lia). simpl in Hsub. lia.
Qed.

Lemma spaced_sublist_grant s key d gs g x d' :
  budget_inv s key d gs → exec s key d x = (d', g) → budget_inv s key d' (gs ++ option_list g).
Proof.
  intros [Hsp Hinv] Hx. pose proof (exec_cases s key d x) as Hc. rewrite Hx in Hc.
  destruct Hc as [[-> ->]|(st & st' & Hl & -> & [[-> Hb]|Hob])].
  - rewrite app_nil_r. by split.
  - rewrite app_nil_r. split; [done|]. intros st'' Hl'. apply load_to_file in Hl' as ->.
    specialize (Hinv st Hl). destruct Hb as [Hb1 Hb2]. simpl in *. by rewrite Hb1, Hb2.
  - destruct (Hinv st Hl) as (Hso & Hle & Hsub). clear Hinv.
    destruct Hob as (o & now & i' & em & b & i'' & Ho & Hi & Hla & Hrt & Hg).
    apply observeInstance_spec in Ho as (Hlt & Hnow & Htimes & Hlim).
    set (i := default zeroInstance (Instances st !! key)) in *.
    apply (recentRestarts_mono now) in Hsub. rewrite recentRestarts_twice in Hsub by lia.
    assert (recentRestarts now (option_list g) `sublist_of` if b then [now] else []) as Hg'.
    { destruct Hg as [->|[-> ->]]; [apply sublist_nil_l|]. apply sublist_filter. }
    split.
    { destruct Hg as [->|[Hb ->]]; [by rewrite app_nil_r|]. by eapply spaced_snoc; eauto. }
    intros st'' Hl'. apply load_to_file in Hl' as ->. simpl. rewrite Hi. simpl.
    rewrite Hla, Hnow, Hrt, Htimes, recentRestarts_app. split_and!.
    + destruct Hg as [->|[_ ->]]; [by rewrite app_nil_r|]. apply StronglySorted_app.
      split_and!; [|done|by repeat constructor].
      intros a b' Ha ->%list_elem_of_singleton. eapply Forall_forall in Hle; [|done]. simpl in Hle. lia.
    + apply Forall_app. split; [eapply Forall_impl; [done|]; simpl; lia|].
      destruct Hg as [->|[_ ->]]; by repeat constructor.
    + by apply sublist_app.
Qed.

Lemma grants_spaced s key xs : ∀ d gs,
  budget_inv s key d gs → spaced (gs ++ grants s key d xs).
Proof.
  induction xs as [|x xs IH]; intros d gs Hi; simpl; [rewrite app_nil_r; apply Hi|].
  destruct (exec s key d x) as [d' g] eqn:E. rewrite app_assoc. apply IH.
  by eapply spaced_sublist_grant.
Qed.

(** C8: over any sequence of calls on the store -- observations, outbox calls,
    restarts of the Agent, under any lock, encoding or write failure and any
    clock -- an instance is never granted three restarts within
    [RestartWindow]: a grant and the second one after it are at least 30
    minutes apart. *)
Theorem restart_budget s key d xs j a c :
  grants s key d xs !! j = Some a → grants s key d xs !! (j + 2)%nat = Some c →
  RestartWindow ≤ c - a.
Proof.
  apply (grants_spaced s key xs d []). split; [by intros ?|].
  intros st Hl. split_and!; [constructor..|apply sublist_nil_l].
Qed.

(** ** Outbox *)

#[local] Instance event_le_total order : Total (event_le order).
Proof.
  intros a b. unfold event_le. pose proof (String.le_total (EventID a) (EventID b)).
  destruct (Z.lt_trichotomy (OccurredAt a) (OccurredAt b)) as [?|[?|?]],
    (Z.lt_trichotomy (default 0 (order !! EventID a)) (default 0 (order !! EventID b))) as [?|[?|?]];
    naive_solver.
Qed.

#[local] Instance event_le_trans order : Transitive (event_le order).
Proof.
  intros a b c. unfold event_le. intros [?|[? [?|[? Hab]]]] [?|[? [?|[? Hbc]]]]; try lia.
  right. split; [lia|]. right. split; [lia|]. by etrans.
Qed.

(** The events of the outbox in sending order. *)
Definition sortedEvents (st : diskState) : list Event :=
  merge_sort (event_le (Order st)) (map_to_list (Events st)).*2.

(** Size of the batch that carries [events]: the frame, the encodings and the
    commas between them. *)
Definition batchSize (events : list Event) : Z :=
  batchOverhead + sum_Z (λ e, len (event_json e)) events + (Z.of_nat (length events) - 1).

Lemma fit_batch_spec first size events l :
  fit_batch first size events = Ok l →
  l `prefix_of` events ∧
  size + sum_Z (λ e, len (event_json e)) l
    + (Z.of_nat (length l) - if first then 1 else 0) ≤ Z.max MaxPayloadBytes (size - if first then 1 else 0) ∧
  (first = true → events ≠ [] → l ≠ []).
Proof.
  revert first size l. induction events as [|e rest IH]; intros first size l; simpl.
  { intros [= <-]. split_and!; [done| |done]. simpl. destruct first; lia. }
  destruct (Z.ltb_spec MaxPayloadBytes (size + len (event_json e) + if first then 0 else 1)).
  { destruct first; [done|]. intros [= <-]. split_and!; [apply prefix_nil|simpl; lia|done]. }
  destruct (fit_batch _ _ rest) as [l'|] eqn:E; [|done]. intros [= <-].
  apply IH in E as (Hp & Hs & _). split_and!; [by apply prefix_cons| |done].
  assert (0 ≤ len (event_json e)) by apply len_nonneg.
  rewrite length_cons. simpl. destruct first; lia.
Qed.

(** A batch [Pending] hands out is the longest fitting head of the outbox
    in order of time, sequence and id: no event is skipped, its encoding stays
    within the 50 events and 256 KiB Control accepts, and it is not empty while
    the outbox is not; the call itself changes nothing in the file. *)
Theorem pending_batch_ordered io s limit d d' events :
  Pending io s limit d = (d', Ok events) →
  ∃ st, load s d = Ok st ∧ load s d' = Ok st ∧
    events `prefix_of` sortedEvents st ∧
    sortedEvents st ≡ₚ (map_to_list (Events st)).*2 ∧
    StronglySorted (event_le (Order st)) events ∧
    Z.of_nat (length events) ≤ MaxBatchSize ∧ (0 < limit ≤ MaxBatchSize → Z.of_nat (length events) ≤ limit) ∧
    (events ≠ [] → batchSize events ≤ MaxPayloadBytes) ∧
    (Events st ≠ ∅ → events ≠ []).
Proof.
  unfold Pending, transaction. intros H.
  assert (∃ st, load s d = Ok st ∧ d' = File (to_file s st) ∧
    fit_batch true batchOverhead (take (Z.to_nat (if (limit <=? 0) || (MaxBatchSize <? limit)
      then MaxBatchSize else limit)) (sortedEvents st)) = Ok events) as (st & Hl & -> & Hfit).
  { unfold sortedEvents. repeat case_match; simplify_eq; eauto. }
  clear H. assert (sortedEvents st ≡ₚ (map_to_list (Events st)).*2) as Hp by apply merge_sort_Permutation.
  set (l := if _ : bool then MaxBatchSize else limit) in *.
  assert (0 < l ≤ MaxBatchSize ∧ (0 < limit ≤ MaxBatchSize → l = limit)) as [Hlb Hlimit].
  { subst l. unfold MaxBatchSize. destruct (Z.leb_spec limit 0), (Z.ltb_spec 50 limit); simpl; lia. }
  apply fit_batch_spec in Hfit as (Hpre & Hsize & Hne). exists st.
  pose proof (prefix_length _ _ Hpre) as Hlen. rewrite length_take in Hlen.
  assert (events `prefix_of` sortedEvents st) as Hpre' by (etrans; [done|]; apply prefix_take).
  split_and!; [done|by eapply load_written| |done| | | | |].
  - done.
  - destruct Hpre' as [k Hk]. apply (StronglySorted_app_1_l _ _ k). rewrite <- Hk.
    by apply StronglySorted_merge_sort; apply _.
  - lia.
  - lia.
  - intros _. unfold batchSize. unfold MaxPayloadBytes, batchOverhead in *. lia.
  - intros He. apply Hne; [done|]. intros Ht. apply (f_equal length) in Ht. rewrite length_take in Ht.
    apply Permutation_length in Hp. rewrite length_fmap in Hp.
    assert (length (map_to_list (Events st)) ≠ 0%nat).
    { intros H0. apply He, map_to_list_empty_iff. by apply nil_length_inv. }
    simpl in Ht. lia.
Qed.

(** ** Durability *)

(** The calls that settle the event [id]: Control stored it, or it is removed
    by name. *)
Definition settles (x : op) (id : string) : bool :=
  match x with
  | OpAcknowledge _ _ rs => existsb (λ r, Persisted r && String.eqb (resEventID r) id) rs
  | OpRemove _ ids => existsb (String.eqb id) ids
  | _ => false
  end.

(** The file after a sequence of calls. *)
Definition run (s : Store) (d : disk) (xs : list op) : disk :=
  fold_left (λ d x, (exec s "" d x).1) xs d.

Definition keysOk (st : diskState) : Prop :=
  map_Forall (λ key _, contains_char key "000" = true) (Instances st).

Lemma load_keys s d st : load s d = Ok st → keysOk st.
Proof.
  unfold load, keysOk. destruct d; [intros [= <-]; apply map_Forall_empty|done|].
  intros H. repeat case_match; try done. case_bool_decide; by simplify_eq.
Qed.

Lemma load_to_file_ok s st : keysOk st → load s (File (to_file s st)) = Ok st.
Proof.
  intros H. unfold load, to_file. simpl. rewrite !String.eqb_refl. simpl.
  rewrite bool_decide_true by done. by destruct st.
Qed.

(** A change that keeps the event [id] and the shape of the instance keys. *)
Definition keeps (id : string) (st st' : diskState) : Prop :=
  (keysOk st → keysOk st') ∧
  (∀ e, Events st !! id = Some e → Events st' !! id = Some e ∧ Order st' !! id = Order st !! id).

Lemma keeps_trans id st1 st2 st3 : keeps id st1 st2 → keeps id st2 st3 → keeps id st1 st3.
Proof. unfold keeps. intros [? H12] [? H23]. split; [tauto|]. intros e He. destruct (H12 e He) as [? <-]. auto. Qed.

Lemma keeps_append id s wall st e st' : append s wall st e = Ok st' → keeps id st st'.
Proof.
  unfold append. intros H. destruct (ValidateAt e wall); [|done]. destruct (negb _); [done|].
  destruct (Events st !! EventID e) eqn:E; [by destruct (negb _); simplify_eq|].
  destruct (_ <=? _); simplify_eq. split; [done|]. intros e' He. simpl.
  assert (EventID e ≠ id) by congruence. by rewrite !lookup_insert_ne.
Qed.

Lemma keeps_put id st key i : contains_char key "000" = true → keeps id st (putInstance st key i).
Proof. intros Hk. split; [|done]. intros H. by apply map_Forall_insert_2. Qed.

Lemma keeps_remove id st id' : id' ≠ id → keeps id st (removeEvent st id').
Proof. intros Hk. split; [done|]. intros e He. simpl. by rewrite !lookup_delete_ne. Qed.

Lemma keeps_fold {B} id (f : diskState → B → diskState) l st :
  (∀ st b, b ∈ l → keeps id st (f st b)) → keeps id st (fold_left f l st).
Proof.
  revert st. induction l as [|b l IH]; intros st H; simpl; [by split|].
  eapply keeps_trans; [by apply H, list_elem_of_here|].
  apply IH. intros. by apply H, list_elem_of_further.
Qed.

Lemma instanceKey_ok p i : contains_char (instanceKey p i) "000" = true.
Proof. unfold instanceKey. rewrite contains_char_app. simpl. apply orb_true_r. Qed.

Lemma keeps_observe id s wall now rid o st st' b :
  observeChange s wall now rid o st = Ok (st', b) → keeps id st st'.
Proof.
  unfold observeChange. intros H.
  repeat case_match; simplify_eq; try (by split); try apply keeps_put, instanceKey_ok;
    (eapply keeps_trans; [by eapply keeps_append|]; apply keeps_put, instanceKey_ok).
Qed.

Lemma exec_keeps s id d x : settles x id = false →
  let d' := (exec s "" d x).1 in
  d' = d ∨ ∃ st st', load s d = Ok st ∧ d' = File (to_file s st') ∧ keeps id st st'.
Proof.
  destruct x as [io path wall|io wall e|io limit|io v rs|io ids|io wall now rid o|io wall now rid o fl|io p i];
    simpl; intros Hs.
  - unfold Open. repeat case_match; [by left| |by left]. transaction_cases; [by left|].
    right. exists st, st'. split_and!; [done..|]. simplify_eq. split; [|done].
    unfold keysOk. simpl. intros. by apply map_Forall_fmap.
  - unfold Queue. transaction_cases; [by left|]. right. exists st, st'. split_and!; [done..|].
    destruct (append s wall st e) eqn:E; simplify_eq. by eapply keeps_append.
  - unfold Pending. transaction_cases; [by left|]. right. exists st, st'. simplify_eq. by split_and!.
  - unfold Acknowledge. case_match; [by left|]. transaction_cases; [by left|].
    right. exists st, st'. split_and!; [done..|]. simplify_eq. apply keeps_fold. intros st' r Hr.
    destruct (Persisted r && identityPattern _) eqn:E; [|by split]. apply keeps_remove.
    intros <-. apply andb_prop in E as [E _].
    apply not_true_iff_false in Hs. apply Hs, existsb_exists. exists r.
    rewrite E, String.eqb_refl. split; [by apply list_elem_of_In|done].
  - unfold Remove. destruct ids as [|id' ids]; [by left|]. transaction_cases; [by left|].
    right. exists st, st'. split_and!; [done..|]. simplify_eq. apply (keeps_fold _ _ (_ :: _)).
    intros st' r Hr. apply keeps_remove. intros <-.
    apply not_true_iff_false in Hs. apply Hs. apply (existsb_exists _ (_ :: _)). exists r.
    rewrite String.eqb_refl. split; [by apply list_elem_of_In|done].
  - unfold Observe. destruct (_ || _); [by left|]. transaction_cases; [by left|].
    right. exists st, st'. split_and!; [done..|]. by eapply keeps_observe.
  - unfold CompleteRestart. transaction_cases; [by left|]. right. exists st, st'. split_and!; [done..|].
    repeat case_match; simplify_eq; by eapply keeps_append.
  - unfold HasFailure. transaction_cases; [by left|]. right. exists st, st'. simplify_eq. by split_and!.
Qed.

(** An event in the outbox survives every sequence of calls, Agent restarts
    and failed writes included, with its place in the sending order, until
    Control reports it stored or it is removed by its id; and the file always
    loads again. *)
Theorem event_kept_until_settled s id e d st xs :
  load s d = Ok st → Events st !! id = Some e → Forall (λ x, settles x id = false) xs →
  ∃ st', load s (run s d xs) = Ok st' ∧ Events st' !! id = Some e ∧ Order st' !! id = Order st !! id.
Proof.
  intros Hl He Hx. revert d st Hl He. induction Hx as [|x xs Hx Hxs IH]; intros d st Hl He; [by eauto|].
  simpl. unfold run. simpl. change (fold_left _ xs ?d) with (run s d xs).
  destruct (exec_keeps s id d x Hx) as [->|(st1 & st' & Hl' & -> & Hk & Hev)]; [by eapply IH|].
  rewrite Hl in Hl'. simplify_eq. destruct (Hev e He) as [He' <-].
  apply (IH _ st'); [|done]. apply load_to_file_ok, Hk. by eapply load_keys.
Qed.

Lemma fold_acknowledge_lookup rs st id :
  Events (fold_left (λ st r, if Persisted r && identityPattern (resEventID r)
                             then removeEvent st (resEventID r) else st) rs st) !! id =
  if bool_decide (mkEventResult id true ∈ rs) && identityPattern id then None else Events st !! id.
Proof.
  revert st. induction rs as [|[rid p] rs IH]; intros st; [done|]. simpl. rewrite IH.
  destruct (decide (mkEventResult id true ∈ rs)) as [Hin|Hin].
  - rewrite !bool_decide_true by (done || by apply list_elem_of_further). simpl.
    destruct (identityPattern id) eqn:Ei; [done|]. destruct (p && _) eqn:E; [|done]. simpl.
    apply lookup_delete_ne. intros ->. by rewrite Ei, andb_false_r in E.
  - rewrite (bool_decide_false (_ ∈ rs)) by done. simpl.
    destruct (decide (rid = id ∧ p = true)) as [[-> ->]|Hn].
    + rewrite bool_decide_true by apply list_elem_of_here. simpl.
      destruct (identityPattern id); [|done]. simpl. apply lookup_delete_eq.
    + rewrite bool_decide_false; [|rewrite elem_of_cons; naive_solver]. simpl.
      destruct (p && _) eqn:E; [|done]. simpl. apply lookup_delete_ne.
      apply andb_prop in E as [-> _]. naive_solver.
Qed.

Lemma load_acknowledged s d st rs : load s d = Ok st →
  let st' := fold_left (λ st r, if Persisted r && identityPattern (resEventID r)
                                then removeEvent st (resEventID r) else st) rs st in
  load s (File (to_file s st')) = Ok st'.
Proof.
  intros Hl. apply load_to_file_ok. unfold keysOk. rewrite fold_remove_instances; [by eapply load_keys|].
  intros. by case_match.
Qed.

(** An acknowledgement removes from the outbox exactly the events Control
    reports persisted, whatever else the answer names, and touches nothing
    else; a malformed one changes nothing. *)
Theorem acknowledge_exact io s v rs d :
  let '(d', r) := Acknowledge io s v rs d in
  (v ≠ Version ∨ MaxBatchSize < Z.of_nat (length rs) → d' = d ∧ is_ok r = false) ∧
  (r = Ok tt → ∃ st st', load s d = Ok st ∧ load s d' = Ok st' ∧
     Instances st' = Instances st ∧ NextSequence st' = NextSequence st ∧
     ∀ id, Events st' !! id =
       if bool_decide (mkEventResult id true ∈ rs) && identityPattern id then None else Events st !! id).
Proof.
  unfold Acknowledge. destruct (String.eqb_spec v Version) as [Hv|]; simpl; [|by split; [|done]].
  destruct (Z.ltb_spec MaxBatchSize (Z.of_nat (length rs))); [by split; [|done]|].
  transaction_cases; [split; [|done]; intros [?|?]; [done|lia]|].
  split; [intros [?|?]; [done|lia]|]. intros _. simplify_eq. exists st. eexists.
  split_and!; [done|by eapply load_acknowledged|apply fold_remove_instances; intros; by case_match| |].
  - clear. revert st. induction rs as [|r rs IH]; intros st; [done|]. simpl. rewrite IH. by case_match.
  - intros id. apply fold_acknowledge_lookup.
Qed.

(** ** Incidents

    The history of one instance: its observations, newest first, each with its
    instant and whether the check succeeded. *)

Definition history := list (time * bool).

(** What [Observe] stores of the instance it computed. *)
Definition stored (i : instanceState) (em : option emission) : instanceState :=
  match em with
  | Some e => if String.eqb (emStatus e) "recovered" then closeIncident i else i
  | None => i
  end.

(** The states an instance goes through, from the zero value: accepted
    observations, and Agent restarts, which forget the healthy streak. *)
Inductive lived : history → instanceState → Prop :=
| lived_new : lived [] zeroInstance
| lived_observe tr i o now i' em b : lived tr i →
    observeInstance o now i = Ok (Some (i', em, b)) →
    lived ((now, String.eqb (obsErrorCode o) "") :: tr) (stored i' em)
| lived_reopen tr i : lived tr i →
    lived tr (mkInstance (FailureStreakAt i) (instFirstFailedAt i) (LastObservedAt i)
                (instFailures i) None (IsOpen i) (instErrorCode i) (RestartTimes i)).

(** The newest observations back to the one at [h] all succeeded, no two
    neighbours more than a minute apart. *)
Fixpoint healthyRun (h : time) (tr : history) : Prop :=
  match tr with
  | (t, true) :: rest =>
      t = h ∨ healthyRun h rest ∧
      match rest with (t', _) :: _ => t - t' ≤ minute | [] => False end
  | _ => False
  end.

(** The newest [n] observations all failed; the oldest of them was at [f]. *)
Fixpoint failingRun (f : time) (n : nat) (tr : history) : Prop :=
  match n, tr with
  | S n', (t, false) :: rest => (n' = 0%nat ∧ t = f) ∨ failingRun f n' rest
  | _, _ => False
  end.

(** What the state remembers of the history. *)
Record remembers (tr : history) (i : instanceState) : Prop := {
  rem_last : match tr with (t, _) :: _ => LastObservedAt i = t | [] => True end;
  rem_healthy : ∀ h, instHealthySince i = Some h → healthyRun h tr ∧ h ≤ LastObservedAt i;
  rem_failing : match FailureStreakAt i with
                | Some f => is_Some (instFirstFailedAt i) ∧ f ≤ LastObservedAt i ∧
                    ∃ n, failingRun f n tr ∧ instFailures i = Z.min (Z.of_nat n) 1000000
                | None => instFailures i = 0
                end
}.

Lemma failingRun_extend f n tr t : failingRun f n tr → failingRun f (S n) ((t, false) :: tr).
Proof. destruct n; [done|]. simpl. tauto. Qed.

(** The healthy streak an observation leaves. *)
Lemma healthy_step tr i now h : remembers tr i → LastObservedAt i < now →
  default now (if minute <? sub now (LastObservedAt i) then None else instHealthySince i) = h →
  healthyRun h ((now, true) :: tr) ∧ h ≤ now.
Proof.
  intros [Hla Hh _] Hlt <-. simpl.
  destruct (Z.ltb_spec minute (sub now (LastObservedAt i))) as [|Hgap]; simpl; [split; [by left|lia]|].
  destruct (instHealthySince i) as [h|]; simpl; [|split; [by left|lia]].
  destruct (Hh h eq_refl) as [Hr Hle]. split; [right|lia]. split; [done|].
  assert (¬ minute < now - LastObservedAt i).
  { unfold sub, min_int64, max_int64, minute, second in *. lia. }
  destruct tr as [|[t b] tr]; [done|]. lia.
Qed.

(** The failing streak an observation leaves, and its count. *)
Lemma failing_step tr i now : remembers tr i → LastObservedAt i < now →
  let failures := match instFirstFailedAt i with Some _ => instFailures i | None => 0 end in
  let f := default now (FailureStreakAt i) in
  f ≤ now ∧ ∃ n, failingRun f n ((now, false) :: tr) ∧
    (if failures <? 1000000 then failures + 1 else failures) = Z.min (Z.of_nat n) 1000000.
Proof.
  intros [_ _ Hf] Hlt. simpl. destruct (FailureStreakAt i) as [f|]; simpl.
  - destruct Hf as ([ff ->] & Hle & n & Hr & ->). split; [lia|]. exists (S n).
    split; [by apply failingRun_extend|]. case_match eqn:E; [apply Z.ltb_lt in E|apply Z.ltb_ge in E]; lia.
  - split; [lia|]. exists 1%nat. split; [by left|]. rewrite Hf. by destruct (instFirstFailedAt i).
Qed.

(** What one accepted observation computes, healthy or failing. *)
Lemma observeInstance_healthy o now i i' em b :
  observeInstance o now i = Ok (Some (i', em, b)) → obsErrorCode o = "" →
  let since := default now (if minute <? sub now (LastObservedAt i) then None else instHealthySince i) in
  FailureStreakAt i' = None ∧ instFailures i' = 0 ∧ instHealthySince i' = Some since ∧ b = false ∧
  (em = None ∨ em = Some (mkEmission "recovered" "none" "not_attempted") ∧
     IsOpen i = true ∧ RecoveryDuration ≤ sub now since).
Proof.
  unfold observeInstance. intros H Hc. rewrite Hc in H. simpl in H.
  destruct (before _ _); [done|]. destruct (now =? _); [done|]. simplify_eq. simpl. split_and!; try done.
  destruct (IsOpen i && _) eqn:E; [right|by left]. apply andb_prop in E as [-> E].
  apply Z.leb_le in E. done.
Qed.

Lemma observeInstance_failing o now i i' em b :
  observeInstance o now i = Ok (Some (i', em, b)) → obsErrorCode o ≠ "" →
  let failures := match instFirstFailedAt i with Some _ => instFailures i | None => 0 end in
  let failures := if failures <? 1000000 then failures + 1 else failures in
  let streak := default now (FailureStreakAt i) in
  errorPattern (obsErrorCode o) = true ∧ instErrorCode i' = obsErrorCode o ∧
  FailureStreakAt i' = Some streak ∧ instFirstFailedAt i' = Some (default now (instFirstFailedAt i)) ∧
  instFailures i' = failures ∧ instHealthySince i' = None ∧
  (em = None ∧ b = false ∧ IsOpen i' = IsOpen i ∨
   IsOpen i' = true ∧
   (∃ action res, em = Some (mkEmission "open" action res) ∧
      (action, res) ∈ [("restart", "not_attempted"); ("circuit_break", "blocked"); ("none", "blocked")]) ∧
   (manualError (obsErrorCode o) = true ∨ 3 ≤ failures ∧ FailureDuration ≤ sub now streak)).
Proof.
  unfold observeInstance. intros H Hc.
  destruct (before _ _); [done|]. destruct (now =? _); [done|].
  destruct (String.eqb_spec (obsErrorCode o) ""); [done|].
  destruct (errorPattern (obsErrorCode o)) eqn:Ep; [|done]. simpl in H.
  set (fl := if _ <? _ then _ else _) in *.
  destruct (_ || manualError _) eqn:Em.
  - assert (manualError (obsErrorCode o) = true ∨
      3 ≤ fl ∧ FailureDuration ≤ sub now (default now (FailureStreakAt i))) as Hcause.
    { apply orb_prop in Em as [Em|Em]; [right|by left]. lia. }
    repeat case_match; simplify_eq; simpl; split_and!; try done; right;
      (split_and!; [apply orb_true_r| |done]; eexists _, _; split; [done|]; set_solver).
  - simplify_eq. simpl. rewrite orb_false_r. split_and!; try done. by left.
Qed.

Lemma stored_fields i em : LastObservedAt (stored i em) = LastObservedAt i ∧
  FailureStreakAt (stored i em) = FailureStreakAt i ∧ instHealthySince (stored i em) = instHealthySince i.
Proof. unfold stored. by repeat case_match. Qed.

Lemma lived_remembers tr i : lived tr i → remembers tr i.
Proof.
  induction 1 as [|tr i o now i' em b Hl IH Ho|tr i Hl IH]; [by split| |].
  - pose proof (stored_fields i' em) as (Hla & Hst & Hh).
    pose proof (observeInstance_spec _ _ _ _ _ _ Ho) as (Hlt & Hnow & _).
    destruct (String.eqb_spec (obsErrorCode o) "") as [Hc|Hc].
    + pose proof (observeInstance_healthy _ _ _ _ _ _ Ho Hc) as (Hs & Hf & Hsi & _).
      split; rewrite ?Hla, ?Hst, ?Hh, ?Hs, ?Hsi; [done| |].
      * intros h [= <-]. rewrite Hnow. by eapply healthy_step.
      * unfold stored. by repeat case_match.
    + pose proof (observeInstance_failing _ _ _ _ _ _ Ho Hc) as (_ & _ & Hs & Hff & Hf & Hsi & Hem).
      destruct (failing_step tr i now IH Hlt) as [Hle Hrun].
      assert (stored i' em = i') as Hst'.
      { destruct Hem as [(-> & _)|(_ & (? & ? & -> & _) & _)]; done. }
      rewrite Hst'. split; rewrite ?Hs, ?Hsi; [done..|].
      split; [by rewrite Hff|]. split; [by rewrite Hnow|].
      destruct Hrun as (n & Hr & Hn). exists n. split; [done|]. by rewrite Hf.
  - destruct IH as [H1 H2 H3]. by split.
Qed.

(** An incident is reported recovered only after at least five minutes of
    unbroken health: the newest observations, back to one at least
    [RecoveryDuration] old, all succeeded, with no more than a minute between
    neighbours. *)
Theorem recovery_needs_healthy_run tr i o now i' em b :
  lived tr i → observeInstance o now i = Ok (Some (i', Some em, b)) → emStatus em = "recovered" →
  IsOpen i = true ∧ IsOpen (stored i' (Some em)) = false ∧
  ∃ h, healthyRun h ((now, true) :: tr) ∧ RecoveryDuration ≤ now - h.
Proof.
  intros Hl%lived_remembers Ho He.
  pose proof (observeInstance_spec _ _ _ _ _ _ Ho) as (Hlt & _).
  destruct (decide (obsErrorCode o = "")) as [Hc|Hc].
  - pose proof (observeInstance_healthy _ _ _ _ _ _ Ho Hc) as (_ & _ & _ & _ & [?|(_ & Hop & Hd)]); [done|].
    split_and!; [done|unfold stored; by rewrite He|].
    eexists. split; [by eapply healthy_step|].
    apply sub_ge_iff in Hd; [done|]. by vm_compute.
  - pose proof (observeInstance_failing _ _ _ _ _ _ Ho Hc) as (_ & _ & _ & _ & _ & _ & Hem).
    destruct Hem as [(? & _)|(_ & (? & ? & ? & _) & _)]; simplify_eq/=.
Qed.

(** An incident is reported open only for an error that needs an operator,
    or after three failed checks in a row spread over two minutes; and a restart
    is granted only with such a report. *)
Theorem incident_needs_failing_run tr i o now i' em b :
  lived tr i → observeInstance o now i = Ok (Some (i', em, b)) →
  (b = true → ∃ e, em = Some e ∧ emStatus e = "open") ∧
  (∀ e, em = Some e → emStatus e = "open" →
     IsOpen i' = true ∧
     (manualError (obsErrorCode o) = true ∨
      ∃ f n, failingRun f n ((now, false) :: tr) ∧ (3 ≤ n)%nat ∧ FailureDuration ≤ now - f)).
Proof.
  intros Hl%lived_remembers Ho.
  pose proof (observeInstance_spec _ _ _ _ _ _ Ho) as (Hlt & _).
  destruct (decide (obsErrorCode o = "")) as [Hc|Hc].
  - pose proof (observeInstance_healthy _ _ _ _ _ _ Ho Hc) as (_ & _ & _ & -> & Hem).
    split; [done|]. intros e -> He. destruct Hem as [?|[[= ->] _]]; done.
  - pose proof (observeInstance_failing _ _ _ _ _ _ Ho Hc) as (_ & _ & _ & _ & _ & _ & Hem).
    destruct Hem as [(-> & -> & _)|(Hop & (a & r & -> & _) & Hcause)]; [done|].
    split; [by eauto|]. intros e _ _. split; [done|].
    destruct Hcause as [?|[H3 Hd]]; [by left|right].
    destruct (failing_step tr i now Hl Hlt) as (_ & n & Hr & Hn). rewrite Hn in H3.
    exists (default now (FailureStreakAt i)), n. split_and!; [done|lia|].
    apply sub_ge_iff in Hd; [done|]. by vm_compute.
Qed.

(** ** Events the store makes itself *)

(** The identity [Open] validated. *)
Definition validStore (s : Store) : Prop :=
  nodePattern (nodeID s) = true ∧ is_Some (parse_uint (nodeID s)) ∧ parse_uint (nodeID s) ≠ Some 0 ∧
  (agentVersion s = "" ∨ versionPattern (agentVersion s) = true) ∧
  oneOf (environment s) ["production"; "staging"; "development"] = true.

Definition validObservation (o : Observation) : Prop :=
  identityPattern (obsPluginID o) = true ∧ identityPattern (obsInstanceID o) = true ∧
  versionPattern (obsPluginVersion o) = true ∧
  (obsConfigVersion o = "" ∨ versionPattern (obsConfigVersion o) = true).

(** The instants and counters of an instance observed only after 2020. *)
Record instanceOk (i : instanceState) : Prop := {
  ok_first : ∀ f, instFirstFailedAt i = Some f → year2020 ≤ f ≤ LastObservedAt i;
  ok_healthy : ∀ h, instHealthySince i = Some h → year2020 ≤ h ≤ LastObservedAt i;
  ok_failures : 0 ≤ instFailures i ≤ 1000000;
  ok_open : IsOpen i = true → errorPattern (instErrorCode i) = true ∧ is_Some (instFirstFailedAt i)
}.

Lemma instanceOk_zero : instanceOk zeroInstance.
Proof. by split. Qed.

Lemma observeInstance_healthy_first o now i i' em b :
  observeInstance o now i = Ok (Some (i', em, b)) → obsErrorCode o = "" →
  IsOpen i' = IsOpen i ∧ instErrorCode i' = instErrorCode i ∧
  instFirstFailedAt i' = if IsOpen i then instFirstFailedAt i else None.
Proof.
  unfold observeInstance. intros H Hc. rewrite Hc in H. simpl in H.
  destruct (before _ _); [done|]. destruct (now =? _); [done|]. by simplify_eq.
Qed.

Lemma observeInstance_ok o now i i' em b : instanceOk i → year2020 ≤ now →
  observeInstance o now i = Ok (Some (i', em, b)) → instanceOk i'.
Proof.
  intros [Hf Hh Hn Ho] Hy H. pose proof (observeInstance_spec _ _ _ _ _ _ H) as (Hlt & Hla & _).
  destruct (decide (obsErrorCode o = "")) as [Hc|Hc].
  - pose proof (observeInstance_healthy _ _ _ _ _ _ H Hc) as (_ & Hfl & Hsi & _).
    pose proof (observeInstance_healthy_first _ _ _ _ _ _ H Hc) as (Hop & Hco & Hfi).
    split; rewrite ?Hla, ?Hfl, ?Hsi, ?Hop, ?Hco, ?Hfi.
    + intros f. destruct (IsOpen i); [|done]. intros. specialize (Hf f). intuition lia.
    + intros h [= <-]. destruct (minute <? _); simpl; [lia|]. destruct (instHealthySince i) as [h|]; simpl; [|lia].
      specialize (Hh h eq_refl). lia.
    + lia.
    + intros Hi. rewrite Hi. by apply Ho.
  - pose proof (observeInstance_failing _ _ _ _ _ _ H Hc) as (Hp & Hco & _ & Hfi & Hfl & Hsi & _).
    split; rewrite ?Hla, ?Hfl, ?Hsi, ?Hco, ?Hfi; [|done| |done].
    + intros f [= <-]. destruct (instFirstFailedAt i) as [f|]; simpl; [|lia]. specialize (Hf f eq_refl). lia.
    + destruct (instFirstFailedAt i); [|by vm_compute]. destruct (Z.ltb_spec (instFailures i) 1000000); lia.
Qed.

Lemma stored_ok i em : instanceOk i → instanceOk (stored i em).
Proof.
  intros H. unfold stored. repeat case_match; try done. destruct H. split; simpl; done || lia.
Qed.

(** Goes through the conditions of [ValidateAt]: each must not hold. *)
Ltac validate_with tac :=
  unfold ValidateAt, event; simpl;
  repeat match goal with
  | |- (if ?c then Err _ else _) = Ok tt =>
      let H := fresh in assert (c = false) as H; [tac|rewrite H; clear H]
  end; try done.

Lemma event_validates s o wall now id i status a r :
  validStore s → validObservation o → instanceOk i → identityPattern id = true →
  year2020 ≤ now ≤ wall + 5 * minute → LastObservedAt i = now → IsOpen i = true →
  (a, r) ∈ [("none", "not_attempted"); ("restart", "not_attempted"); ("circuit_break", "blocked"); ("none", "blocked")] →
  status = "recovered" ∧ is_Some (instHealthySince i) ∧ instFailures i = 0 ∨
  status = "open" ∧ instHealthySince i = None ∧ instFailures i ≠ 0 →
  len (event_json (event s o i now id status a r)) ≤ MaxEventBytes →
  ValidateAt (event s o i now id status a r) wall = Ok tt.
Proof.
  intros (Hn & [n Hu] & Hz & Hav & Henv) (Hp & Hin & Hpv & Hcv) [Hf Hh Hfl Hop] Hid Hnow Hla Hopen Har Hst Hlen.
  destruct (Hop Hopen) as [Hcode [f Hff]]. specialize (Hf f Hff).
  assert (String.eqb (agentVersion s) "" || versionPattern (agentVersion s) = true) as Hav'.
  { destruct Hav as [->| ->]; [done|apply orb_true_r]. }
  assert (String.eqb (obsConfigVersion o) "" || versionPattern (obsConfigVersion o) = true) as Hcv'.
  { destruct Hcv as [->| ->]; [done|apply orb_true_r]. }
  assert (badInstant (instHealthySince i) now = false) as Hh'.
  { destruct (instHealthySince i) as [h|]; [|done]. specialize (Hh h eq_refl). simpl. unfold before, after. lia. }
  validate_with ltac:(first
    [ done
    | by rewrite ?Hid, ?Hp, ?Hin, ?Hpv, ?Hcode
    | rewrite <- negb_orb; by rewrite ?Hav', ?Hcv'
    | unfold before, after, add; lia
    | idtac]).
  - rewrite Hn, bool_decide_true, bool_decide_false by done. done.
  - simpl in Henv. by rewrite Henv.
  - by destruct (String.eqb (instErrorCode i) _).
  - by destruct Hst as [(-> & _)|(-> & _)].
  - repeat (apply elem_of_cons in Har as [[= -> ->]|Har]; [done|]). by apply elem_of_nil in Har.
  - repeat (apply elem_of_cons in Har as [[= -> ->]|Har]; [done|]). by apply elem_of_nil in Har.
  - rewrite Hff. simpl. unfold before, after. lia.
  - destruct Hst as [(-> & [h ->] & ->)|(-> & _)]; done.
  - destruct Hst as [(-> & _)|(-> & -> & ?)]; [done|]. rewrite Hff. simpl.
    rewrite orb_false_r. by apply Z.eqb_neq.
  - by apply Z.ltb_ge.
Qed.

(** The store never refuses its own reports: on an instance observed after
    2020, with a valid identity, every incident or recovery an observation emits
    passes [ValidateAt], the stored instance stays well formed, and the only
    remaining bound is the encoded size. *)
Theorem emitted_event_valid s o wall now id i i' em b :
  validStore s → validObservation o → instanceOk i → identityPattern id = true →
  year2020 ≤ now ≤ wall + 5 * minute →
  observeInstance o now i = Ok (Some (i', Some em, b)) →
  let e := event s o i' now id (emStatus em) (emAction em) (emResult em) in
  instanceOk (stored i' (Some em)) ∧
  (len (event_json e) ≤ MaxEventBytes → ValidateAt e wall = Ok tt).
Proof.
  intros Hs Ho Hi Hid Hnow H e. pose proof (observeInstance_ok _ _ _ _ _ _ Hi (proj1 Hnow) H) as Hi'.
  split; [by apply stored_ok|]. intros Hlen.
  pose proof (observeInstance_spec _ _ _ _ _ _ H) as (_ & Hla & _).
  destruct (decide (obsErrorCode o = "")) as [Hc|Hc].
  - pose proof (observeInstance_healthy _ _ _ _ _ _ H Hc) as (_ & Hfl & Hsi & _ & [?|([= ->] & Hop & _)]); [done|].
    pose proof (observeInstance_healthy_first _ _ _ _ _ _ H Hc) as (Hop' & _).
    apply event_validates; try done; [by rewrite Hop'|set_solver|left; by rewrite Hsi].
  - pose proof (observeInstance_failing _ _ _ _ _ _ H Hc) as (_ & _ & _ & Hfi & Hfl & Hsi & Hem).
    destruct Hem as [(? & _)|(Hop & (a & r & [= ->] & Har) & _)]; [done|].
    apply event_validates; try done; [set_solver|]. right. split_and!; [done..|].
    destruct Hi as [_ _ Hn _]. rewrite Hfl.
    destruct (instFirstFailedAt i); [|done]. destruct (Z.ltb_spec (instFailures i) 1000000); lia.
Qed.

End Json.

(** ** Witnesses: a node's plugin, with the event id standing for the encoding. *)

Definition wJson (e : Event) : string := EventID e.
Definition wStore : Store := mkStore "42" "production" "1.2.3".
Definition wIO : IO := mkIO true Written (λ _, Some 1000).
Definition wBase : time := time_unix 1750000000.
Definition wObs (code : string) : Observation := mkObservation "edge" "" "1.0.0" "" code true.
Definition wObserve (m : Z) (id : string) : op :=
  let now := wBase + m * minute in OpObserve wIO now now (Some id) (wObs "PLUGIN_HEALTH_FAILED").
Definition wKey : string := instanceKey "edge" "edge".
Definition wOps : list op :=
  [wObserve 0 "e0"; wObserve 1 "e1"; wObserve 2 "e2"; OpOpen wIO "p" (wBase + 2 * minute);
   wObserve 3 "e3"; wObserve 4 "e4"; wObserve 33 "e5"].

(** Restarts at minutes 2, 3 and 33; none at minute 4. *)
Lemma restart_budget_witness :
  grants wJson wStore wKey NoFile wOps = [wBase + 2 * minute; wBase + 3 * minute; wBase + 33 * minute] ∧
  RestartWindow ≤ (wBase + 33 * minute) - (wBase + 2 * minute).
Proof.
  split; [by vm_compute|].
  apply (restart_budget wJson wStore wKey NoFile wOps 0); by vm_compute.
Defined.

Definition wFile : disk := run wJson wStore NoFile (take 3 wOps).
Definition wState : diskState := match load wStore wFile with Ok st => st | Err _ => mkDisk 0 ∅ ∅ ∅ end.

Lemma pending_batch_witness :
  ∃ d events, Pending wJson wIO wStore 10 wFile = (d, Ok events) ∧ length events = 1%nat ∧
    (events ≠ [] → batchSize wJson events ≤ MaxPayloadBytes).
Proof.
  eexists _, _. split; [by vm_compute|]. split; [done|].
  edestruct (pending_batch_ordered wJson wIO wStore 10 wFile) as (st & _ & _ & _ & _ & _ & _ & _ & H & _);
    [by vm_compute|exact H].
Defined.

Lemma event_kept_witness : ∃ e st', Events wState !! "e2" = Some e ∧
  load wStore (run wJson wStore wFile (drop 3 wOps)) = Ok st' ∧ Events st' !! "e2" = Some e.
Proof.
  eexists. destruct (event_kept_until_settled wJson wStore "e2"
    match Events wState !! "e2" with Some e => e | None => event wStore (wObs "") zeroInstance 0 "" "" "" "" end
    wFile wState (drop 3 wOps)) as (st' & H1 & H2 & _).
  - by vm_compute.
  - by vm_compute.
  - repeat constructor.
  - exists st'. split_and!; [by vm_compute|exact H1|exact H2].
Defined.

(** The incident of [wFile] is acknowledged; another id is only rejected. *)
Lemma acknowledge_witness :
  let '(d', r) := Acknowledge wIO wStore Version [mkEventResult "e2" true; mkEventResult "x" false] wFile in
  r = Ok tt ∧ ∃ st', load wStore d' = Ok st' ∧ Events st' !! "e2" = None.
Proof.
  pose proof (acknowledge_exact wIO wStore Version [mkEventResult "e2" true; mkEventResult "x" false] wFile) as H.
  destruct (Acknowledge wIO wStore Version _ wFile) as [d' r] eqn:E.
  assert (r = Ok tt) as Hr by (apply (f_equal snd) in E; vm_compute in E; by rewrite <- E).
  split; [exact Hr|]. destruct (proj2 H Hr) as (st & st' & _ & Hl & _ & _ & He).
  exists st'. split; [exact Hl|]. rewrite (He "e2"). by vm_compute.
Defined.

(** Five healthy minutes after an incident. *)
Definition wHealthy (m : Z) (i : instanceState) : result (option (instanceState * option emission * bool)) :=
  observeInstance (wObs "") (wBase + m * minute) i.
Definition wStep (code : string) (m : Z) (i : instanceState) : instanceState :=
  match observeInstance (wObs code) (wBase + m * minute) i with
  | Ok (Some (i', em, _)) => stored i' em
  | _ => i
  end.
Definition wFailed : instanceState := wStep "PLUGIN_CONFIG_INVALID" 0 zeroInstance.
Definition wFour : instanceState :=
  wStep "" 5 (wStep "" 4 (wStep "" 3 (wStep "" 2 (wStep "" 1 wFailed)))).
Definition wHistory : history :=
  [(wBase + 5 * minute, true); (wBase + 4 * minute, true); (wBase + 3 * minute, true);
   (wBase + 2 * minute, true); (wBase + 1 * minute, true); (wBase + 0 * minute, false)].

Definition wAccepted (code : string) (m : Z) (i : instanceState) : bool :=
  match observeInstance (wObs code) (wBase + m * minute) i with Ok (Some _) => true | _ => false end.

Lemma wStep_lived code m tr i : lived tr i → wAccepted code m i = true →
  lived ((wBase + m * minute, String.eqb code "") :: tr) (wStep code m i).
Proof.
  unfold wAccepted, wStep. intros Hl H.
  destruct (observeInstance (wObs code) _ i) as [[[[i' em] b]|]|] eqn:E; try done.
  exact (lived_observe _ _ _ _ _ _ _ Hl E).
Qed.

Lemma wLived : lived wHistory wFour.
Proof.
  unfold wFour, wFailed, wHistory.
  do 5 (apply (wStep_lived ""); [|by vm_compute]).
  apply (wStep_lived "PLUGIN_CONFIG_INVALID"); [constructor|by vm_compute].
Qed.

Lemma recovery_witness : ∃ i em, wHealthy 6 wFour = Ok (Some (i, Some em, false)) ∧
  ∃ h, healthyRun h ((wBase + 6 * minute, true) :: wHistory) ∧ RecoveryDuration ≤ wBase + 6 * minute - h.
Proof.
  eexists _, _. split; [by vm_compute|].
  edestruct (recovery_needs_healthy_run wHistory wFour (wObs "") (wBase + 6 * minute)) as (_ & _ & H);
    [exact wLived|by vm_compute|done|exact H].
Defined.

Lemma incident_witness : IsOpen wFailed = true ∧
  manualError "PLUGIN_CONFIG_INVALID" = true.
Proof.
  split; [|done].
  edestruct (incident_needs_failing_run [] zeroInstance (wObs "PLUGIN_CONFIG_INVALID") (wBase + 0 * minute))
    as (_ & H); [exact lived_new|by vm_compute|].
  edestruct H as [Hop _]; [done|done|]. exact Hop.
Defined.

Lemma emitted_event_witness : ∃ i em b,
  observeInstance (normalize (wObs "PLUGIN_CONFIG_INVALID")) wBase zeroInstance = Ok (Some (i, Some em, b)) ∧
  ValidateAt wJson (event wStore (normalize (wObs "PLUGIN_CONFIG_INVALID")) i wBase "e1" (emStatus em)
    (emAction em) (emResult em)) wBase = Ok tt.
Proof.
  eexists _, _, _. split; [by vm_compute|].
  eapply (emitted_event_valid wJson wStore (normalize (wObs "PLUGIN_CONFIG_INVALID")) wBase wBase "e1" zeroInstance).
  - split_and!; [done|by eexists|done|by right|done].
  - split_and!; try done. by left.
  - by split.
  - done.
  - by vm_compute.
  - by vm_compute.
  - by vm_compute.
Defined.

End Maintenance.
