(* ===== verification/Users.v ===== *)
(** * Users from the control stream (src/api/agent/dataplane_users.go)

    Control sends the node's user changes as pages; complete deltas are folded
    into the node's user set, which the applier serves and users.pb stores.
    [NodeUser] is the wire type: the code reads only its id.  The specification
    is Control's change log: the set the node holds is always the set Control
    had at the node's cursor, whatever sessions, retries and restarts came in
    between. *)

From S2P Require Import Prelude.

Module Users.

Section Users.
Context {NodeUser : Type} {Heq : EqDecision NodeUser} (GetUserId : NodeUser → Z).
Set Default Proof Using "Type Heq".

(** ** Data *)

(** [agentv1pb.UserDelta], the fields the data plane reads. *)
Record UserDelta := mkDelta {
  Cursor : Z;
  Full : bool;
  LastPage : bool;
  Upserts : list NodeUser;
  RemovedUserIds : list Z
}.

Record UserSet := mkUserSet {
  setCursor : Z;
  setUsers : list NodeUser
}.

Definition usersRetryInterval : duration := 30 * second.
Definition usersSaveInterval : duration := 2 * second.
Definition maxPendingUserPages : Z := 5000.

(** [usersState].  [version] and [applied] count changes of the set; [set] is
    [None] for the nil map. *)
Record usersState := mkUsers {
  has : bool;
  cursor : Z;
  set : option (gmap Z NodeUser);
  version : Z;
  applied : Z;
  persisted : option UserSet;
  pages : list UserDelta;
  pagesSession : string;
  queue : list UserDelta;
  dirty : bool;
  savedAt : time;
  retryAt : time;
  lastErr : string
}.

Definition newUsersState : usersState :=
  mkUsers false 0 None 0 0 None [] "" [] false 0 0 "".

(** Field updates. *)
Definition with_set (u : usersState) (h : bool) (c : Z) (s : gmap Z NodeUser) (v a : Z) (d : bool) : usersState :=
  mkUsers h c (Some s) v a (persisted u) (pages u) (pagesSession u) (queue u) d (savedAt u)
    (retryAt u) (lastErr u).
Definition with_pages (u : usersState) (p : list UserDelta) (s : string) : usersState :=
  mkUsers (has u) (cursor u) (set u) (version u) (applied u) (persisted u) p s (queue u)
    (dirty u) (savedAt u) (retryAt u) (lastErr u).
Definition with_queue (u : usersState) (q : list UserDelta) : usersState :=
  mkUsers (has u) (cursor u) (set u) (version u) (applied u) (persisted u) (pages u)
    (pagesSession u) q (dirty u) (savedAt u) (retryAt u) (lastErr u).
Definition with_result (u : usersState) (a : Z) (retry : time) (err : string) : usersState :=
  mkUsers (has u) (cursor u) (set u) (version u) a (persisted u) (pages u) (pagesSession u)
    (queue u) (dirty u) (savedAt u) retry err.
Definition with_saved (u : usersState) (d : bool) (at_ : time) : usersState :=
  mkUsers (has u) (cursor u) (set u) (version u) (applied u) (persisted u) (pages u)
    (pagesSession u) (queue u) d at_ (retryAt u) (lastErr u).
Definition with_persisted (u : usersState) (p : option UserSet) : usersState :=
  mkUsers (has u) (cursor u) (set u) (version u) (applied u) p (pages u) (pagesSession u)
    (queue u) (dirty u) (savedAt u) (retryAt u) (lastErr u).

(** ** The set *)

Definition id_le (a b : NodeUser) : Prop := GetUserId a ≤ GetUserId b.

#[local] Instance id_le_dec : RelDecision id_le.
Proof. intros a b. unfold id_le. apply _. Defined.

(** [userSet]: the users by ascending id. *)
Definition userSet (u : usersState) : UserSet :=
  mkUserSet (cursor u) (merge_sort id_le (map_to_list (default ∅ (set u))).*2).

(** Inserting users one after the other; the last one of an id wins. *)
Definition put_all (users : list NodeUser) (s : gmap Z NodeUser) : gmap Z NodeUser :=
  fold_left (λ s user, <[GetUserId user := user]> s) users s.

Definition upsert (s : gmap Z NodeUser) (user : NodeUser) : gmap Z NodeUser :=
  if GetUserId user =? 0 then s else <[GetUserId user := user]> s.

Definition fold (u : usersState) (delta : UserDelta) : usersState :=
  let s := if Full delta then ∅ else default ∅ (set u) in
  let s := if Full delta then s else fold_left (λ s id, delete id s) (RemovedUserIds delta) s in
  let s := fold_left upsert (Upserts delta) s in
  with_set u true (Cursor delta) s (version u + 1) (applied u) true.

(** ** Startup *)

(** [loadUsers]: [stored] is what [State.LoadUsers] returned. *)
Definition loadUsers (stored : result (option UserDelta)) (u : usersState) : usersState :=
  match stored with
  | Ok (Some d) => with_persisted u (Some (mkUserSet (Cursor d) (Upserts d)))
  | _ => u
  end.

Definition helloUsersCursor (u : usersState) : Z := if has u then cursor u else 0.

Definition RestoreUsers (u : usersState) (s : UserSet) : usersState :=
  with_set u true (setCursor s) (put_all (setUsers s) ∅) (version u + 1) (version u + 1) (dirty u).

Definition DiscardPersistedUsers (u : usersState) : usersState := with_persisted u None.

(** The queue after the first full set, and that set. *)
Fixpoint take_full (q : list UserDelta) : option (UserDelta * list UserDelta) :=
  match q with
  | [] => None
  | d :: rest => if Full d then Some (d, rest) else take_full rest
  end.

(** One pass of [TakeUsers]: [None] when it has to wait. *)
Definition TakeUsers (u : usersState) : option (usersState * UserSet) :=
  match take_full (queue u) with
  | Some (d, rest) =>
      let u := fold (with_queue u rest) d in
      Some (u, userSet u)
  | None => None
  end.

Definition UsersResult (u : usersState) (now : time) (s : UserSet) (err : option string) : usersState :=
  match err with
  | Some e => with_result u (applied u) now e
  | None =>
      if cursor u =? setCursor s then with_result u (version u) (retryAt u) (lastErr u) else u
  end.

(** ** The receive loop *)

(** [receiveUsers]; the flag says that the session is recycled. *)
Definition receiveUsers (u : usersState) (sessionID : string) (delta : UserDelta) : usersState * bool :=
  let u := if String.eqb (pagesSession u) sessionID then u else with_pages u [] sessionID in
  if maxPendingUserPages <=? Z.of_nat (length (pages u)) then (with_pages u [] (pagesSession u), true)
  else
    let ps := pages u ++ [delta] in
    if negb (LastPage delta) then (with_pages u ps (pagesSession u), false)
    else
      let full := match ps with p :: _ => Full p | [] => false end in
      let assembled := mkDelta (Cursor delta) full true (ps ≫= Upserts) (ps ≫= RemovedUserIds) in
      (with_queue (with_pages u [] (pagesSession u)) (queue u ++ [assembled]), false).

Definition dropUserPagesLocked (u : usersState) (sessionID : string) : usersState :=
  if String.eqb (pagesSession u) sessionID then with_pages u [] "" else u.

(** ** The worker *)

(** [applyPendingUsers] up to the call of the applier: the folded state, and
    the set and version to apply when they are due. *)
Definition applyPendingStart (u : usersState) (active : bool) (now : time)
  : usersState * option (UserSet * Z) :=
  if negb active then (u, None)
  else
    let u := with_queue (fold_left fold (queue u) u) [] in
    if has u && negb (applied u =? version u)
       && (is_zero (retryAt u) || negb (before now (retryAt u))) then
      (u, Some (userSet u, version u))
    else (u, None).

(** [applyPendingUsers] after the applier returned [err]; the state may have
    changed meanwhile. *)
Definition applyPendingFinish (u : usersState) (v : Z) (now : time) (err : option string) : usersState :=
  match err with
  | Some e => with_result u (applied u) (add now usersRetryInterval) e
  | None => with_result u (if version u =? v then v else applied u) 0 ""
  end.

(** [saveUsers] up to the write: the set to store, if any. *)
Definition saveUsersStart (u : usersState) (force : bool) (now : time) : usersState * option UserSet :=
  if negb (dirty u) || (negb force && (sub now (savedAt u) <? usersSaveInterval)) then (u, None)
  else (with_saved u false now, Some (userSet u)).

(** [saveUsers] after a failed write. *)
Definition saveUsersFailed (u : usersState) : usersState := with_saved u true (savedAt u).

(** [usersWakeLocked]: the zero time for no wake-up. *)
Definition usersWake (u : usersState) (active : bool) : time :=
  let next := if dirty u then add (savedAt u) usersSaveInterval else 0 in
  if active && has u && negb (applied u =? version u) && negb (is_zero (retryAt u)) then
    if is_zero next || before (retryAt u) next then retryAt u else next
  else next.

Definition saveUsers (u : usersState) (file : option UserSet) (force : bool) (now : time) (ok : bool)
  : usersState * option UserSet :=
  match saveUsersStart u force now with
  | (u, None) => (u, file)
  | (u, Some s) => if ok then (u, Some s) else (saveUsersFailed u, file)
  end.

(** ** Lemmas on the set *)

(** Upserts that agree with [T] bring any set that differs from it only in
    their ids to [T]. *)
Lemma fold_upsert_eq l : ∀ s T : gmap Z NodeUser,
  (∀ user, user ∈ l → GetUserId user ≠ 0 → T !! GetUserId user = Some user) →
  (∀ id, id ∉ GetUserId <$> l → s !! id = T !! id) → s !! 0 = T !! 0 →
  fold_left upsert l s = T.
Proof.
  induction l as [|user l IH]; intros s T Hs Hr H0; simpl.
  { apply map_eq. intros id. apply Hr. simpl. apply not_elem_of_nil. }
  apply IH.
  - intros. apply Hs; [by apply list_elem_of_further|done].
  - intros id Hid. unfold upsert. destruct (Z.eqb_spec (GetUserId user) 0) as [E|E].
    + destruct (decide (id = 0)) as [->|]; [done|]. apply Hr. rewrite fmap_cons, not_elem_of_cons. split; [lia|done].
    + destruct (decide (id = GetUserId user)) as [->|Hne].
      * rewrite lookup_insert_eq. symmetry. apply Hs; [apply list_elem_of_here|done].
      * rewrite lookup_insert_ne by done. apply Hr. by rewrite fmap_cons, not_elem_of_cons.
  - unfold upsert. destruct (Z.eqb_spec (GetUserId user) 0); [done|]. by rewrite lookup_insert_ne.
Qed.

Lemma fold_delete_lookup l (s : gmap Z NodeUser) id :
  fold_left (λ s id, delete id s) l s !! id = if decide (id ∈ l) then None else s !! id.
Proof.
  revert s. induction l as [|x l IH]; intros s; simpl; [done|]. rewrite IH.
  destruct (decide (id = x)) as [->|Hne].
  - rewrite lookup_delete_eq. rewrite (decide_True (P := x ∈ x :: l)) by apply list_elem_of_here. by case_decide.
  - rewrite lookup_delete_ne by done. apply decide_ext. rewrite elem_of_cons. tauto.
Qed.

(** ** Control's change log

    [S c] is the node's user set at cursor [c]. *)

Context (S : Z → gmap Z NodeUser).

(** Users are keyed by their id, which is never 0. *)
Definition log_ok : Prop :=
  ∀ c id user, S c !! id = Some user → GetUserId user = id ∧ id ≠ 0.

(** A full set at its cursor. *)
Record whole (d : UserDelta) : Prop := mkWhole {
  whole_full : Full d = true;
  whole_sound : ∀ user, user ∈ Upserts d → GetUserId user ≠ 0 → S (Cursor d) !! GetUserId user = Some user;
  whole_complete : ∀ id user, S (Cursor d) !! id = Some user → user ∈ Upserts d
}.

(** The changes since [from]: every user that differs from the set at any
    cursor from there on is in it, with its state at the delta's cursor. *)
Record covers (d : UserDelta) (from : Z) : Prop := mkCovers {
  cov_delta : Full d = false;
  cov_from : from ≤ Cursor d;
  cov_changed : ∀ f id, from ≤ f ≤ Cursor d → S f !! id ≠ S (Cursor d) !! id →
    id ∈ RemovedUserIds d ∨ id ∈ GetUserId <$> Upserts d;
  cov_upserts : ∀ user, user ∈ Upserts d → GetUserId user ≠ 0 → S (Cursor d) !! GetUserId user = Some user;
  cov_removed : ∀ id, id ∈ RemovedUserIds d → id ∉ GetUserId <$> Upserts d → S (Cursor d) !! id = None
}.

(** What Control may send to an Agent whose set it knows to be at [from];
    [None]: the Agent has no cursor, only a full set will do. *)
Definition follows (from : option Z) (d : UserDelta) : Prop :=
  whole d ∨ ∃ f, from = Some f ∧ covers d f.

(** The set at a cursor as the node is given it. *)
Definition setAt (c : Z) : UserSet :=
  mkUserSet c (merge_sort id_le (map_to_list (S c)).*2).

(** *** Folding *)

Lemma log_zero : log_ok → ∀ c, S c !! 0 = None.
Proof. intros Hl c. destruct (S c !! 0) as [u|] eqn:E; [|done]. by destruct (Hl _ _ _ E). Qed.

Lemma fold_whole u d : log_ok → whole d → set (fold u d) = Some (S (Cursor d)).
Proof.
  intros Hl [Hf Hs Hc]. unfold fold. rewrite Hf. simpl. f_equal. apply fold_upsert_eq; [done| |].
  - intros id Hid. rewrite lookup_empty. destruct (S (Cursor d) !! id) as [user|] eqn:E; [|done].
    destruct Hid. destruct (Hl _ _ _ E) as [<- _]. apply list_elem_of_fmap. eauto.
  - by rewrite log_zero.
Qed.

Lemma fold_covers u d f : log_ok → covers d f → f ≤ cursor u ≤ Cursor d →
  set u = Some (S (cursor u)) → set (fold u d) = Some (S (Cursor d)).
Proof.
  intros Hl [Hf _ Hch Hup Hrm] Hr Hset. unfold fold. rewrite Hf, Hset. simpl. f_equal.
  apply fold_upsert_eq; [done| |].
  - intros id Hid. rewrite fold_delete_lookup. case_decide as Hin; [by rewrite Hrm|].
    destruct (decide (S (cursor u) !! id = S (Cursor d) !! id)) as [|Hne]; [done|].
    destruct (Hch (cursor u) id) as [?|?]; done.
  - rewrite fold_delete_lookup, !log_zero by done. by case_decide.
Qed.

(** ** The system

    The data plane's users, with the node that serves them, users.pb and
    Control's side of the stream: the session and the cursor Control's next
    delta starts from. *)

Record Sys := mkSys {
  users : usersState;
  active : bool;
  file : option UserSet;                  (* users.pb *)
  serving : option UserSet;               (* what the node serves, [None]: unknown *)
  taken : option UserSet;                 (* handed out by TakeUsers, not answered *)
  inflight : option (UserSet * Z);        (* the worker is in ApplyUsers *)
  session : option (string * option Z);
  high : Z                                (* the newest cursor Control sent *)
}.

Definition set_users (s : Sys) (u : usersState) : Sys :=
  mkSys u (active s) (file s) (serving s) (taken s) (inflight s) (session s) (high s).

(** Control's first delta of a session follows the cursor of the Hello. *)
Definition helloFrom (u : usersState) : option Z :=
  if helloUsersCursor u =? 0 then None else Some (helloUsersCursor u).

(** users.pb as [State.LoadUsers] returns it. *)
Definition stored (f : option UserSet) : result (option UserDelta) :=
  Ok ((λ s, mkDelta (setCursor s) true true (setUsers s) []) <$> f).

Inductive step : Sys → Sys → Prop :=
| step_session s id :
    session s = None → id ≠ "" →
    step s (mkSys (users s) (active s) (file s) (serving s) (taken s) (inflight s)
              (Some (id, helloFrom (users s))) (high s))
| step_page s id from d :
    session s = Some (id, from) →
    let r := receiveUsers (users s) id d in
    r.2 = false → LastPage d = false →
    step s (set_users s r.1)
| step_last_page s id from d a :
    session s = Some (id, from) →
    let r := receiveUsers (users s) id d in
    r.2 = false → queue r.1 = queue (users s) ++ [a] → follows from a → high s ≤ Cursor a →
    step s (mkSys r.1 (active s) (file s) (serving s) (taken s) (inflight s)
              (Some (id, Some (Cursor a))) (Cursor a))
| step_overflow s id from d :
    session s = Some (id, from) →
    let r := receiveUsers (users s) id d in
    r.2 = true →
    step s (mkSys (dropUserPagesLocked r.1 id) (active s) (file s) (serving s) (taken s)
              (inflight s) None (high s))
| step_end s id from :
    session s = Some (id, from) →
    step s (mkSys (dropUserPagesLocked (users s) id) (active s) (file s) (serving s) (taken s)
              (inflight s) None (high s))
| step_restore s p :
    active s = false → taken s = None → (has (users s) = true → cursor (users s) = setCursor p) →
    persisted (users s) = Some p →
    step s (mkSys (RestoreUsers (users s) p) (active s) (file s) (Some p) (taken s) (inflight s)
              (session s) (high s))
| step_discard s ok :
    step s (mkSys (DiscardPersistedUsers (users s)) (active s) (if ok : bool then None else file s)
              (serving s) (taken s) (inflight s) (session s) (high s))
| step_take s u set :
    active s = false → TakeUsers (users s) = Some (u, set) →
    step s (mkSys u (active s) (file s) (serving s) (Some set) (inflight s) (session s) (high s))
| step_result s now set err :
    active s = false → taken s = Some set →
    step s (mkSys (UsersResult (users s) now set err) (active s) (file s)
              (match err with None => Some set | Some _ => None end) None (inflight s)
              (session s) (high s))
| step_activate s :
    step s (mkSys (users s) true (file s) (serving s) (taken s) (inflight s) (session s) (high s))
| step_apply s now :
    inflight s = None →
    let r := applyPendingStart (users s) (active s) now in
    step s (mkSys r.1 (active s) (file s) (serving s) (taken s) r.2 (session s) (high s))
| step_applied s set v now err :
    inflight s = Some (set, v) →
    step s (mkSys (applyPendingFinish (users s) v now err) (active s) (file s)
              (match err with None => Some set | Some _ => None end) (taken s) None (session s) (high s))
| step_save s force now ok :
    inflight s = None →
    let r := saveUsers (users s) (file s) force now ok in
    step s (mkSys r.1 (active s) r.2 (serving s) (taken s) (inflight s) (session s) (high s))
| step_restart s readable :
    step s (mkSys (loadUsers (if readable : bool then stored (file s) else Err "corrupt") newUsersState) false
              (if readable then file s else None) None None None None (high s)).

Definition initial : Sys := mkSys newUsersState false None None None None None 0.
Definition reachable (s : Sys) : Prop := rtc step initial s.

(** ** Invariant *)

(** The queue [q] is a chain of deltas from a set at [c], at ascending cursors:
    each is a full set or covers the changes since a cursor not after its
    predecessor's. *)
Fixpoint chain (c : option Z) (q : list UserDelta) : Prop :=
  match q with
  | [] => True
  | d :: q =>
      (∀ c', c = Some c' → c' ≤ Cursor d) ∧
      (whole d ∨ ∃ f c', c = Some c' ∧ covers d f ∧ f ≤ c') ∧ chain (Some (Cursor d)) q
  end.

(** The cursor the queue ends at. *)
Definition queueEnd (c : option Z) (q : list UserDelta) : option Z :=
  match last q with Some d => Some (Cursor d) | None => c end.

Definition heldCursor (u : usersState) : option Z := if has u then Some (cursor u) else None.

Record wf (s : Sys) : Prop := mkWf {
  wf_set : has (users s) = true → set (users s) = Some (S (cursor (users s)));
  wf_chain : chain (heldCursor (users s)) (queue (users s));
  wf_high : ∀ c, queueEnd (heldCursor (users s)) (queue (users s)) = Some c → c ≤ high s;
  wf_session : ∀ id f, session s = Some (id, Some f) →
    ∃ c, queueEnd (heldCursor (users s)) (queue (users s)) = Some c ∧ f ≤ c;
  wf_file : ∀ p, file s = Some p → p = setAt (setCursor p) ∧ setCursor p ≤ high s;
  wf_persisted : ∀ p, persisted (users s) = Some p → p = setAt (setCursor p) ∧ setCursor p ≤ high s;
  wf_restorable : ∀ p d, persisted (users s) = Some p → d ∈ queue (users s) → setCursor p ≤ Cursor d;
  wf_taken : ∀ p, taken s = Some p → p = setAt (setCursor p) ∧ (active s = false → applied (users s) < version (users s));
  wf_inflight : ∀ p v, inflight s = Some (p, v) → active s = true ∧ p = setAt (cursor (users s)) ∧
    has (users s) = true ∧ version (users s) = v ∧ applied (users s) < version (users s);
  wf_version : applied (users s) ≤ version (users s);
  wf_serving : has (users s) = true → applied (users s) = version (users s) →
    serving s = Some (setAt (cursor (users s)));
  wf_dirty : dirty (users s) = true → has (users s) = true
}.

Lemma queueEnd_cons c d q : queueEnd c (d :: q) = queueEnd (Some (Cursor d)) q.
Proof. unfold queueEnd. destruct q as [|x q]; [done|]. by rewrite last_cons_cons; destruct (last_is_Some (x :: q)) as [_ [? ->]]. Qed.

Lemma queueEnd_snoc c q a : queueEnd c (q ++ [a]) = Some (Cursor a).
Proof. unfold queueEnd. by rewrite last_snoc. Qed.

Lemma chain_end c q : chain (Some c) q → ∃ e, queueEnd (Some c) q = Some e ∧ c ≤ e.
Proof.
  revert c. induction q as [|d q IH]; intros c; simpl.
  { intros _. exists c. split; [done|lia]. }
  intros (Hle & _ & Hq). rewrite queueEnd_cons. destruct (IH _ Hq) as (e & -> & ?).
  exists e. specialize (Hle c eq_refl). split; [done|lia].
Qed.

Lemma chain_weaken q c : (∀ c' d, c = Some c' → d ∈ q → c' ≤ Cursor d) → chain None q → chain c q.
Proof.
  destruct q as [|d q]; simpl; [done|]. intros Hle (_ & [Hw|(? & ? & ? & _)] & Hq); [|done].
  split_and!; [intros c' Hc; apply (Hle c' d Hc), list_elem_of_here|by left|done].
Qed.

Lemma chain_snoc c q a : chain c q →
  (∀ e, queueEnd c q = Some e → e ≤ Cursor a) →
  (whole a ∨ ∃ f e, queueEnd c q = Some e ∧ covers a f ∧ f ≤ e) → chain c (q ++ [a]).
Proof.
  revert c. induction q as [|d q IH]; intros c; simpl; [done|].
  intros (H1 & H2 & Hq) Hle Ha. rewrite queueEnd_cons in *. split_and!; [done..|]. by apply IH.
Qed.

(** One fold along the chain. *)
Lemma fold_chain u d q : log_ok →
  (has u = true → set u = Some (S (cursor u))) → chain (heldCursor u) (d :: q) →
  set (fold u d) = Some (S (Cursor d)) ∧ chain (heldCursor (fold u d)) q ∧ heldCursor (fold u d) = Some (Cursor d).
Proof.
  intros Hl Hset (Hle & [Hw|(f & c' & Hc & Hcov & Hf)] & Hq); simpl.
  - split; [by apply fold_whole|done].
  - unfold heldCursor in Hc, Hle. destruct (has u); [|done]. simplify_eq.
    split; [|done]. eapply fold_covers; [done..| |by apply Hset]. split; [done|by apply Hle].
Qed.

Lemma fold_all q : ∀ u, log_ok →
  (has u = true → set u = Some (S (cursor u))) → chain (heldCursor u) q →
  let u' := fold_left fold q u in
  (has u' = true → set u' = Some (S (cursor u'))) ∧ heldCursor u' = queueEnd (heldCursor u) q ∧
  version u' = version u + Z.of_nat (length q) ∧ applied u' = applied u ∧ persisted u' = persisted u ∧
  retryAt u' = retryAt u ∧ ((dirty u = true → has u = true) → dirty u' = true → has u' = true).
Proof.
  induction q as [|d q IH]; intros u Hl Hset Hc; [simpl; split_and!; try done; lia|].
  destruct (fold_chain u d q Hl Hset Hc) as (Hset' & Hc' & Hh). rewrite queueEnd_cons, <- Hh. simpl.
  destruct (IH (fold u d) Hl (λ _, Hset') Hc') as (H1 & H2 & H3 & H4 & H5 & H6 & H7).
  split_and!; try done; [rewrite H3; simpl; lia|]. intros _. by apply H7.
Qed.

(** *** Sets as lists *)

Lemma userSet_at u : set u = Some (S (cursor u)) → userSet u = setAt (cursor u).
Proof. intros H. unfold userSet, setAt. by rewrite H. Qed.

Lemma put_all_upsert l s : Forall (λ user, GetUserId user ≠ 0) l → put_all l s = fold_left upsert l s.
Proof.
  intros H. revert s. induction H as [|user l Hu Hl IH]; intros s; simpl; [done|].
  unfold upsert at 2. rewrite (proj2 (Z.eqb_neq _ _) Hu). apply IH.
Qed.

Lemma setAt_elem c user : user ∈ setUsers (setAt c) ↔ ∃ id, S c !! id = Some user.
Proof.
  unfold setAt. simpl. rewrite merge_sort_Permutation, list_elem_of_fmap. split.
  - intros ([id u] & -> & Hin). exists id. by apply elem_of_map_to_list.
  - intros [id Hid]. exists (id, user). split; [done|]. by apply elem_of_map_to_list.
Qed.

(** What a node restores from a stored set is the set. *)
Lemma put_all_setAt c : log_ok → put_all (setUsers (setAt c)) ∅ = S c.
Proof.
  intros Hl. rewrite put_all_upsert.
  - apply fold_upsert_eq.
    + intros user [id Hid]%setAt_elem _. by destruct (Hl _ _ _ Hid) as [-> _].
    + intros id Hn. rewrite lookup_empty. destruct (S c !! id) as [user|] eqn:E; [|done].
      destruct Hn. apply list_elem_of_fmap. exists user. split; [by destruct (Hl _ _ _ E)|].
      apply setAt_elem. eauto.
    + by rewrite log_zero.
  - apply Forall_forall. intros user [id Hid]%setAt_elem. by destruct (Hl _ _ _ Hid) as [-> ?].
Qed.

(** ** Preservation *)

(** The fields the invariant reads; pages, save marks and retries do not matter. *)
Definition same_core (u u' : usersState) : Prop :=
  has u' = has u ∧ cursor u' = cursor u ∧ set u' = set u ∧ version u' = version u ∧
  applied u' = applied u ∧ persisted u' = persisted u ∧ queue u' = queue u ∧ dirty u' = dirty u.

Lemma receiveUsers_cases u id d :
  let r := receiveUsers u id d in
  (same_core u r.1) ∨
  (LastPage d = true ∧ r.2 = false ∧ ∃ a, Cursor a = Cursor d ∧ queue r.1 = queue u ++ [a] ∧
     same_core u (with_queue r.1 (queue u))).
Proof.
  unfold receiveUsers. set (u0 := if String.eqb _ _ then _ else _).
  assert (same_core u u0) as Hu0 by (unfold u0; case_match; done).
  case_match; [by left|]. destruct (LastPage d); simpl; [right|by left].
  destruct Hu0 as (E1 & E2 & E3 & E4 & E5 & E6 & E7 & E8). split_and!; [done..|].
  eexists (mkDelta _ _ _ _ _). simpl. split_and!; [|by rewrite E7|]; done.
Qed.

Lemma wf_same_core s s' : wf s → same_core (users s) (users s') →
  active s' = active s → file s' = file s → serving s' = serving s → taken s' = taken s →
  inflight s' = inflight s → (session s' = session s ∨ session s' = None) → high s' = high s → wf s'.
Proof.
  intros [] (E1 & E2 & E3 & E4 & E5 & E6 & E7 & E8) Ea Ef Es Et Ei Ese Eh.
  split; unfold heldCursor in *; rewrite ?E1, ?E2, ?E3, ?E4, ?E5, ?E6, ?E7, ?E8, ?Ea, ?Ef, ?Es, ?Et, ?Ei, ?Eh; try done.
  intros id f. destruct Ese as [->| ->]; [apply wf_session0|done].
Qed.

Lemma drop_same_core u id : same_core u (dropUserPagesLocked u id).
Proof. unfold dropUserPagesLocked. by case_match. Qed.

Lemma same_core_trans u v w : same_core u v → same_core v w → same_core u w.
Proof. unfold same_core. naive_solver congruence. Qed.

(** Folding the whole queue. *)
Lemma wf_fold_all s : log_ok → wf s → let u := users s in
  let u' := with_queue (fold_left fold (queue u) u) [] in
  (has u' = true → set u' = Some (S (cursor u'))) ∧
  heldCursor u' = queueEnd (heldCursor u) (queue u) ∧ queue u' = [] ∧
  version u' = version u + Z.of_nat (length (queue u)) ∧ applied u' = applied u ∧ persisted u' = persisted u ∧
  retryAt u' = retryAt u ∧ (dirty u' = true → has u' = true).
Proof.
  intros Hl Hwf u u'. pose proof (fold_all (queue u) u Hl (wf_set s Hwf) (wf_chain s Hwf)) as H.
  simpl in H. destruct H as (H1 & H2 & H3 & H4 & H5 & H6 & H7). split_and!; try done.
  apply H7, (wf_dirty s Hwf).
Qed.

Lemma take_full_spec q d rest : take_full q = Some (d, rest) → Full d = true ∧ ∃ pre, q = pre ++ d :: rest.
Proof.
  induction q as [|x q IH]; simpl; [done|]. case_match eqn:E.
  - intros [= -> ->]. split; [done|]. by exists [].
  - intros H. destruct (IH H) as [? [pre ->]]. split; [done|]. by exists (x :: pre).
Qed.

Lemma chain_drop c pre d rest : chain c (pre ++ d :: rest) → Full d = true →
  whole d ∧ chain (Some (Cursor d)) rest ∧ ∀ c0, queueEnd c0 (pre ++ d :: rest) = queueEnd (Some (Cursor d)) rest.
Proof.
  intros Hc Hf. split_and!.
  - revert c Hc. induction pre as [|x pre IH]; intros c; simpl; [|intros (_ & _ & H); by eapply IH].
    intros (_ & [?|(f & c' & _ & Hcov & _)] & _); [done|]. destruct Hcov. congruence.
  - revert c Hc. induction pre as [|x pre IH]; intros c; simpl; [by intros (_ & _ & ?)|].
    intros (_ & _ & H); by eapply IH.
  - clear Hc Hf. induction pre as [|x pre IH]; intros c0; simpl; rewrite queueEnd_cons; [done|apply IH].
Qed.

Lemma wf_take s u set_ : log_ok → wf s → TakeUsers (users s) = Some (u, set_) →
  set u = Some (S (cursor u)) ∧ set_ = setAt (cursor u) ∧ has u = true ∧
  chain (heldCursor u) (queue u) ∧
  queueEnd (heldCursor u) (queue u) = queueEnd (heldCursor (users s)) (queue (users s)) ∧
  version u = version (users s) + 1 ∧ applied u = applied (users s) ∧ persisted u = persisted (users s) ∧
  (∀ d, d ∈ queue u → d ∈ queue (users s)).
Proof.
  intros Hl Hwf. unfold TakeUsers. destruct (take_full _) as [[d rest]|] eqn:E; [|done]. intros [= <- <-].
  apply take_full_spec in E as [Hf [pre Hq]]. pose proof (wf_chain s Hwf) as Hc. rewrite Hq in Hc.
  destruct (chain_drop _ _ _ _ Hc Hf) as (Hw & Hr & He).
  assert (set (fold (with_queue (users s) rest) d) = Some (S (Cursor d))) as Hset by by apply fold_whole.
  split_and!; try done.
  - by apply userSet_at.
  - simpl. by rewrite Hq, He.
  - simpl. rewrite Hq. intros x Hx. apply elem_of_app. right. by apply list_elem_of_further.
Qed.

Lemma wf_session_step s id : wf s →
  wf (mkSys (users s) (active s) (file s) (serving s) (taken s) (inflight s)
        (Some (id, helloFrom (users s))) (high s)).
Proof.
  intros []. split; simpl; try done. intros id' f [= _ Hf].
  unfold helloFrom, helloUsersCursor, heldCursor in *. destruct (has (users s)) eqn:E; simpl in Hf; [|done].
  destruct (cursor (users s) =? 0); simplify_eq. by apply chain_end.
Qed.

Lemma wf_last_page_step s id from a u : wf s → session s = Some (id, from) →
  queue u = queue (users s) ++ [a] → same_core (users s) (with_queue u (queue (users s))) →
  follows from a → high s ≤ Cursor a →
  wf (mkSys u (active s) (file s) (serving s) (taken s) (inflight s) (Some (id, Some (Cursor a))) (Cursor a)).
Proof.
  intros [] Hse Hq (E1 & E2 & E3 & E4 & E5 & E6 & _ & E8) Hfo Hhi. simpl in *.
  assert (heldCursor u = heldCursor (users s)) as Hh by (unfold heldCursor; by rewrite E1, E2).
  split; simpl; rewrite ?Hh, ?Hq, ?queueEnd_snoc, ?E1, ?E2, ?E3, ?E4, ?E5, ?E6, ?E8; try done.
  - apply chain_snoc; [done|intros e He; specialize (wf_high0 e He); lia|].
    destruct Hfo as [?|(f & -> & Hcov)]; [by left|right].
    destruct (wf_session0 _ _ Hse) as (c & Hc & Hle). eauto.
  - intros c [= <-]. lia.
  - intros id' f [= _ <-]. exists (Cursor a). split; [done|lia].
  - intros p Hp. destruct (wf_file0 p Hp). split; [done|lia].
  - intros p Hp. destruct (wf_persisted0 p Hp). split; [done|lia].
  - intros p d Hp [Hd| ->%list_elem_of_singleton]%elem_of_app; [by eapply wf_restorable0|].
    destruct (wf_persisted0 p Hp). lia.
Qed.

Lemma wf_restore_step s p : log_ok → wf s → active s = false → taken s = None →
  (has (users s) = true → cursor (users s) = setCursor p) → persisted (users s) = Some p →
  wf (mkSys (RestoreUsers (users s) p) (active s) (file s) (Some p) (taken s) (inflight s) (session s) (high s)).
Proof.
  intros Hl [] Ha Ht Hh Hp. destruct (wf_persisted0 p Hp) as [Ep Hle].
  assert (∀ e, queueEnd (heldCursor (users s)) (queue (users s)) = Some e →
    queueEnd (Some (setCursor p)) (queue (users s)) = Some e) as Hend.
  { unfold queueEnd, heldCursor. intros e. destruct (last _); [done|]. case_match; [|done].
    by rewrite Hh. }
  split; simpl; try done.
  - intros _. f_equal. rewrite Ep at 1. by apply put_all_setAt.
  - unfold heldCursor in wf_chain0. unfold heldCursor. simpl.
    destruct (has (users s)) eqn:E; [by rewrite <- (Hh eq_refl)|].
    apply chain_weaken; [|done]. intros c' d [= <-] Hd. by eapply wf_restorable0.
  - unfold heldCursor. simpl. intros c Hc.
    destruct (queueEnd (heldCursor (users s)) (queue (users s))) as [e|] eqn:E.
    + rewrite (Hend e eq_refl) in Hc. simplify_eq. by apply wf_high0.
    + unfold queueEnd in *. destruct (last _); [done|]. by simplify_eq.
  - intros id f Hf. destruct (wf_session0 id f Hf) as (c & Hc & Hcl). exists c.
    unfold heldCursor. simpl. by rewrite (Hend c Hc).
  - by rewrite Ht.
  - intros q v Hi. destruct (wf_inflight0 q v Hi) as [? _]. congruence.
  - intros _ _. by rewrite <- Ep.
Qed.

Lemma wf_take_step s u p : log_ok → wf s → active s = false → TakeUsers (users s) = Some (u, p) →
  wf (mkSys u (active s) (file s) (serving s) (Some p) (inflight s) (session s) (high s)).
Proof.
  intros Hl Hwf Ha Ht. destruct (wf_take s u p Hl Hwf Ht) as (H1 & -> & H3 & H4 & H5 & H6 & H7 & H8 & H9).
  destruct Hwf. split; simpl; rewrite ?H5, ?H8; try done; try lia.
  - intros p d Hp Hd. eapply wf_restorable0; [done|by apply H9].
  - intros p [= <-]. split; [done|]. lia.
  - intros q v Hi. destruct (wf_inflight0 q v Hi) as [? _]. congruence.
Qed.

Lemma wf_result_step s now p err : wf s → active s = false → taken s = Some p →
  wf (mkSys (UsersResult (users s) now p err) (active s) (file s)
        (match err with None => Some p | Some _ => None end) None (inflight s) (session s) (high s)).
Proof.
  intros [] Ha Ht. destruct (wf_taken0 p Ht) as [Ep Hlt]. specialize (Hlt Ha).
  assert (∀ q v, inflight s = Some (q, v) → False) as Hno.
  { intros q v Hi. destruct (wf_inflight0 q v Hi) as [? _]. congruence. }
  unfold UsersResult. destruct err as [e|]; [split; simpl; try done; try lia; by intros ?? ?%Hno|].
  destruct (Z.eqb_spec (cursor (users s)) (setCursor p)) as [E|E];
    (split; simpl; try done; try lia; try by intros ?? ?%Hno).
  by rewrite E, <- Ep.
Qed.

Lemma wf_apply_step s now : log_ok → wf s → inflight s = None →
  let r := applyPendingStart (users s) (active s) now in
  wf (mkSys r.1 (active s) (file s) (serving s) (taken s) r.2 (session s) (high s)).
Proof.
  intros Hl Hwf Hi. unfold applyPendingStart. destruct (active s) eqn:Ha; cbn [negb]; [|by destruct s; simplify_eq/=].
  destruct (wf_fold_all s Hl Hwf) as (H1 & H2 & H3 & H4 & H5 & H6 & _ & H8).
  set (u := with_queue _ _) in *. clearbody u.
  assert (Hgen : ∀ job, (∀ p v, job = Some (p, v) → p = setAt (cursor u) ∧ has u = true ∧ version u = v ∧
      applied u < version u) →
    wf (mkSys u true (file s) (serving s) (taken s) job (session s) (high s))).
  { intros job Hjob. destruct Hwf. split; simpl; rewrite ?H3, ?H6; try done; try lia.
    - unfold queueEnd. simpl. by rewrite H2.
    - unfold queueEnd at 1. simpl. by rewrite H2.
    - intros p d _ Hd. by apply elem_of_nil in Hd.
    - intros p Hp. split; [by apply wf_taken0|done].
    - intros p v Hp. by destruct (Hjob p v Hp) as (? & ? & ? & ?).
    - intros Hh Hav. destruct (queue (users s)) as [|x q] eqn:Eq; [|simpl in H4; lia].
      unfold queueEnd, heldCursor in H2. simpl in H2. rewrite Hh in H2.
      destruct (has (users s)) eqn:Eh; simplify_eq. rewrite H2. apply wf_serving0; [done|]. simpl in H4. lia. }
  assert (applied u ≤ version u) as Hv by (rewrite H4, H5; pose proof (wf_version s Hwf); lia).
  match goal with |- context [if ?b then (u, Some _) else _] => destruct b eqn:E end;
    simpl; apply Hgen; [|done].
  intros p v [= <- <-]. apply andb_prop in E as [[Eh En]%andb_prop _]. apply negb_true_iff, Z.eqb_neq in En.
  split_and!; [apply userSet_at; by apply H1|done|done|lia].
Qed.

Lemma wf_applied_step s p v now err : wf s → inflight s = Some (p, v) →
  wf (mkSys (applyPendingFinish (users s) v now err) (active s) (file s)
        (match err with None => Some p | Some _ => None end) (taken s) None (session s) (high s)).
Proof.
  intros [] Hi. destruct (wf_inflight0 p v Hi) as (Ha & -> & Hh & <- & Hlt).
  unfold applyPendingFinish. destruct err as [e|]; [split; simpl; try done; lia|].
  rewrite Z.eqb_refl. split; simpl; try done; try lia.
  intros q Hq. destruct (wf_taken0 q Hq) as [? _]. split; [done|]. congruence.
Qed.

Lemma wf_save_step s force now ok : wf s → inflight s = None →
  let r := saveUsers (users s) (file s) force now ok in
  wf (mkSys r.1 (active s) r.2 (serving s) (taken s) (inflight s) (session s) (high s)).
Proof.
  intros Hwf Hi. unfold saveUsers, saveUsersStart.
  destruct (negb (dirty (users s)) || _) eqn:E; simpl; [by destruct s|].
  apply orb_false_elim in E as [Ed%negb_false_iff _]. pose proof (wf_dirty s Hwf Ed) as Hh.
  assert (cursor (users s) ≤ high s) as Hc.
  { pose proof (wf_chain s Hwf) as Hch. unfold heldCursor in Hch. rewrite Hh in Hch.
    destruct (chain_end _ _ Hch) as (e & He & ?). transitivity e; [done|].
    apply (wf_high s Hwf). unfold heldCursor. by rewrite Hh. }
  assert (userSet (users s) = setAt (cursor (users s))) as Hset by (apply userSet_at; by apply (wf_set s Hwf)).
  destruct ok; destruct Hwf; split; simpl; try done.
  intros p [= <-]. rewrite Hset. by split.
Qed.

Lemma wf_restart_step s rd : wf s →
  wf (mkSys (loadUsers (if rd : bool then stored (file s) else Err "corrupt") newUsersState) false
        (if rd then file s else None) None None None None (high s)).
Proof.
  intros []. destruct rd; simpl; [|by split].
  destruct (file s) as [p|] eqn:E; simpl; [|by split].
  destruct (wf_file0 p eq_refl). split; simpl; try done; try (intros ? [= <-]; by split).
  - intros ? [= <-]. by destruct p.
  - intros ?? _ Hd. by apply elem_of_nil in Hd.
Qed.

Lemma wf_step s s' : log_ok → wf s → step s s' → wf s'.
Proof.
  intros Hl Hwf Hs.
  destruct Hs as [s id Hn Hid|s id from d Hse r Hr2 Hlp|s id from d a Hse r Hr2 Hq Hfo Hhi
    |s id from d Hse r Hr2|s id from Hse|s p Ha Ht Hh Hp|s ok|s u p Ha Ht|s now p err Ha Ht|s
    |s now Hi r|s p v now err Hi|s force now ok Hi r|s rd].
  - by apply wf_session_step.
  - destruct (receiveUsers_cases (users s) id d) as [Hc|(? & _)]; [|congruence].
    by eapply wf_same_core; eauto.
  - destruct (receiveUsers_cases (users s) id d) as [Hc|(_ & _ & a' & _ & Hq' & Hc)].
    + destruct Hc as (_ & _ & _ & _ & _ & _ & Hc & _). fold r in Hc. rewrite Hc in Hq.
      apply (f_equal length) in Hq. rewrite length_app in Hq. simpl in Hq. lia.
    + by eapply wf_last_page_step.
  - destruct (receiveUsers_cases (users s) id d) as [Hc|(_ & Hr & _)]; [|fold r in Hr; congruence].
    eapply wf_same_core; eauto. simpl. eapply same_core_trans; [done|apply drop_same_core].
  - eapply wf_same_core; eauto. apply drop_same_core.
  - by apply wf_restore_step.
  - destruct Hwf. split; simpl; try done. by destruct ok.
  - by apply wf_take_step.
  - by apply wf_result_step.
  - destruct Hwf. split; simpl; try done.
    + intros p Hp. split; [by apply wf_taken0|done].
    + intros p v Hi. destruct (wf_inflight0 p v Hi) as (_ & ?). by split.
  - by apply wf_apply_step.
  - by eapply wf_applied_step.
  - by apply wf_save_step.
  - by apply wf_restart_step.
Qed.

Lemma wf_initial : wf initial.
Proof. by split. Qed.

Lemma wf_steps s s' : log_ok → wf s → rtc step s s' → wf s'.
Proof. intros Hl Hwf Hr. induction Hr as [s|s1 s2 s3 Hs Hr IH]; [done|]. apply IH. by eapply wf_step. Qed.


(** The worker makes progress: with an active applier, a pass folds every
    complete delta, so the set is at the newest cursor received, and hands the
    set over unless a failure is still backing off; when the applier succeeds
    the node serves Control's set at that cursor and nothing is pending. *)
Theorem users_progress s now now' : log_ok → reachable s →
  active s = true → inflight s = None → (retryAt (users s) = 0 ∨ retryAt (users s) ≤ now) →
  let r := applyPendingStart (users s) true now in
  queue r.1 = [] ∧
  (∀ c, queueEnd (heldCursor (users s)) (queue (users s)) = Some c →
     heldCursor r.1 = Some c ∧ set r.1 = Some (S c) ∧
     (applied r.1 = version r.1 ∧ r.2 = None ∨
      r.2 = Some (setAt c, version r.1) ∧
      applied (applyPendingFinish r.1 (version r.1) now' None) = version r.1)).
Proof.
  intros Hl Hr Ha Hi Hretry r. pose proof (wf_steps initial s Hl wf_initial Hr) as Hwf.
  unfold r, applyPendingStart. cbn [negb].
  destruct (wf_fold_all s Hl Hwf) as (H1 & H2 & H3 & H4 & H5 & H6 & H7 & _).
  set (u := with_queue _ _) in *. clearbody u. clear r.
  assert (is_zero (retryAt u) || negb (before now (retryAt u)) = true) as ->.
  { rewrite H7. unfold is_zero, before. lia. }
  rewrite andb_true_r. split; [by case_match|]. intros c Hc. rewrite Hc in H2.
  unfold heldCursor in H2. destruct (has u) eqn:Eh; simplify_eq. specialize (H1 eq_refl).
  destruct (Z.eqb_spec (applied u) (version u)) as [E|E]; simpl.
  - unfold heldCursor. rewrite Eh. split_and!; [done..|by left].
  - unfold heldCursor. rewrite Eh, (userSet_at u H1), Z.eqb_refl. split_and!; [done..|by right].
Qed.

Lemma fold_all_retry q u : retryAt (fold_left fold q u) = retryAt u.
Proof. revert u. induction q as [|d q IH]; intros u; [done|]. simpl. by rewrite IH. Qed.

(** A set the node could not apply is offered again: no earlier than
    [usersRetryInterval] after the failure, whatever arrives meanwhile; the
    worker is woken by then without any signal; and the first pass after it
    hands the newest set over. *)
Theorem users_failed_set_retried s p v now err t : log_ok → reachable s →
  inflight s = Some (p, v) → 0 < now →
  let u := applyPendingFinish (users s) v now (Some err) in
  usersWake u true ≠ 0 ∧ usersWake u true ≤ now + usersRetryInterval ∧
  (t < now + usersRetryInterval → (applyPendingStart u true t).2 = None) ∧
  (now + usersRetryInterval ≤ t → is_Some (applyPendingStart u true t).2).
Proof.
  intros Hl Hr Hi Hnow. pose proof (wf_steps initial s Hl wf_initial Hr) as Hwf.
  pose proof (wf_applied_step s p v now (Some err) Hwf Hi) as Hwf'.
  destruct (wf_inflight s Hwf p v Hi) as (_ & _ & Hh & _ & Hlt).
  set (u := applyPendingFinish (users s) v now (Some err)). cbv zeta.
  assert (retryAt u = now + usersRetryInterval ∧ has u = true ∧ applied u < version u) as (Er & Eh & Ev) by done.
  assert (0 < retryAt u) as Hpos by (rewrite Er; unfold usersRetryInterval, second; lia).
  assert ((applied u =? version u) = false) as En by (apply Z.eqb_neq; lia).
  rewrite <- Er. split_and!.
  - clearbody u. unfold usersWake, is_zero, before. rewrite Eh, En. simpl.
    generalize (if dirty u then add (savedAt u) usersSaveInterval else 0). intros next. repeat case_match; lia.
  - clearbody u. unfold usersWake, is_zero, before. rewrite Eh, En. simpl.
    generalize (if dirty u then add (savedAt u) usersSaveInterval else 0). intros next. repeat case_match; lia.
  - intros Ht. unfold applyPendingStart. cbn [negb retryAt with_queue]. rewrite fold_all_retry.
    replace (is_zero (retryAt u) || negb (before t (retryAt u))) with false by (unfold is_zero, before; lia).
    by rewrite andb_false_r.
  - intros Ht. unfold applyPendingStart. cbn [negb].
    destruct (wf_fold_all _ Hl Hwf') as (_ & H2 & _ & H4 & H5 & _ & H7 & _).
    set (w := with_queue _ _) in *.
    change (version w = version u + Z.of_nat (length (queue u))) in H4.
    change (applied w = applied u) in H5. change (retryAt w = retryAt u) in H7.
    assert (has w = true) as ->.
    { assert (is_Some (heldCursor w)) as [c Hc].
      { rewrite H2. unfold queueEnd, heldCursor. simpl. rewrite Hh. destruct (last _); by eexists. }
      unfold heldCursor in Hc. by destruct (has w). }
    replace (applied w =? version w) with false by (symmetry; apply Z.eqb_neq; lia).
    replace (is_zero (retryAt w) || negb (before t (retryAt w))) with true
      by (rewrite H7; unfold is_zero, before; lia).
    by eexists.
Qed.

(** An incomplete delta changes nothing: a page that is not the last one,
    and the end of the session that sent it, leave the set, the cursor and the
    queue as they were; at most [maxPendingUserPages] pages are held, and a
    delta that exceeds them is dropped with its session. *)
Theorem incomplete_delta_ignored u id d : let '(u', recycle) := receiveUsers u id d in
  (LastPage d = false ∨ recycle = true → same_core u u' ∧ same_core u (dropUserPagesLocked u' id)) ∧
  pages (dropUserPagesLocked u' id) = [] ∧
  (Z.of_nat (length (pages u)) ≤ maxPendingUserPages → Z.of_nat (length (pages u')) ≤ maxPendingUserPages).
Proof.
  pose proof (receiveUsers_cases u id d) as Hc. simpl in Hc.
  unfold receiveUsers in *. set (u0 := if String.eqb _ _ then _ else _) in *.
  assert (pagesSession u0 = id) as Hid.
  { unfold u0. destruct (String.eqb_spec (pagesSession u) id); done. }
  assert (Z.of_nat (length (pages u0)) ≤ Z.max 0 (Z.of_nat (length (pages u)))) as Hlen.
  { unfold u0. destruct (String.eqb _ _); simpl; lia. }
  destruct (Z.leb_spec maxPendingUserPages (Z.of_nat (length (pages u0)))).
  - simpl in *. destruct Hc as [Hc|(_ & ? & _)]; [|done]. unfold dropUserPagesLocked. simpl.
    rewrite Hid, String.eqb_refl. split_and!; [|done|simpl; unfold maxPendingUserPages; lia]. done.
  - destruct (LastPage d); simpl in *.
    + unfold dropUserPagesLocked. simpl. rewrite Hid, String.eqb_refl.
      split_and!; [by intros [?|?]|done|unfold maxPendingUserPages; lia].
    + destruct Hc as [Hc|(? & _)]; [|done]. unfold dropUserPagesLocked. simpl.
      rewrite Hid, String.eqb_refl. split_and!; [done|done|]. rewrite length_app. simpl. lia.
Qed.

End Users.
Unset Default Proof Using.

(** ** Witnesses: a log of two cursors, users as an id with a name. *)

Definition wUser := (Z * string)%type.
Definition wLog (c : Z) : gmap Z wUser :=
  if c <=? 0 then ∅ else if c =? 1 then {[1 := (1, "ann")]}
  else {[1 := (1, "ann2")]} ∪ {[2 := (2, "bob")]}.

Lemma wLog_ok : log_ok fst wLog.
Proof.
  intros c id user. unfold wLog. destruct (c <=? 0); [done|].
  destruct (c =? 1); [intros [<- <-]%lookup_singleton_Some; done|].
  intros [H|[_ H]]%lookup_union_Some_raw; apply lookup_singleton_Some in H as [<- <-]; done.
Qed.

(** A full set at cursor 1, then the changes up to cursor 2. *)
Definition wFull : UserDelta (NodeUser := wUser) := mkDelta 1 true true [(1, "ann")] [].
Definition wDelta : UserDelta (NodeUser := wUser) := mkDelta 2 false true [(2, "bob"); (1, "ann2")] [].

Lemma wFull_follows : follows fst wLog None wFull.
Proof.
  left. split; [done| |].
  - intros user ->%list_elem_of_singleton _. by vm_compute.
  - intros id user H. change (wLog (Cursor wFull)) with ({[1 := (1, "ann")]} : gmap Z wUser) in H.
    apply lookup_singleton_Some in H as [<- <-]. apply list_elem_of_here.
Qed.

Lemma wDelta_follows : follows fst wLog (Some 1) wDelta.
Proof.
  right. exists 1. split; [done|]. split; [done|done| | |].
  - intros f id Hf Hne. right. simpl in Hf. assert (f = 1 ∨ f = 2) as [->| ->] by lia; [|done].
    simpl. destruct (decide (id = 1)) as [->|H1]; [set_solver|].
    destruct (decide (id = 2)) as [->|H2]; [set_solver|]. destruct Hne.
    change (wLog 1) with ({[1 := (1, "ann")]} : gmap Z wUser).
    change (wLog (Cursor wDelta)) with ({[1 := (1, "ann2")]} ∪ {[2 := (2, "bob")]} : gmap Z wUser).
    by rewrite lookup_union, !lookup_singleton_ne.
  - intros user [-> | ->%list_elem_of_singleton]%elem_of_cons _; by vm_compute.
  - intros id Hid. by apply elem_of_nil in Hid.
Qed.

Definition wStep1 : Sys (NodeUser := wUser) := mkSys newUsersState true None None None None (Some ("s1", None)) 0.
Definition wStep2 : Sys (NodeUser := wUser) :=
  mkSys (receiveUsers (users wStep1) "s1" wFull).1 true None None None None (Some ("s1", Some 1)) 1.
Definition wStep3 : Sys (NodeUser := wUser) :=
  mkSys (receiveUsers (users wStep2) "s1" wDelta).1 true None None None None (Some ("s1", Some 2)) 2.
Definition wApplying : Sys (NodeUser := wUser) :=
  let r := applyPendingStart fst (users wStep3) true 100 in
  mkSys r.1 true None None None r.2 (Some ("s1", Some 2)) 2.
Definition wApplied : Sys (NodeUser := wUser) :=
  mkSys (applyPendingFinish (users wApplying) 2 200 None) true None
    (Some (userSet fst (users wApplying))) None None (Some ("s1", Some 2)) 2.

Lemma wStep3_reachable : reachable fst wLog wStep3.
Proof.
  eapply rtc_l; [apply step_activate|]. eapply rtc_l; [by apply (step_session _ _ _ "s1")|].
  eapply rtc_l.
  { apply (step_last_page _ _ wStep1 "s1" None wFull wFull); [done|done|done|apply wFull_follows|done]. }
  eapply rtc_l; [|apply rtc_refl].
  apply (step_last_page _ _ wStep2 "s1" (Some 1) wDelta wDelta); [done|done|done|apply wDelta_follows|done].
Qed.

Lemma wApplying_reachable : reachable fst wLog wApplying.
Proof. eapply rtc_r; [exact wStep3_reachable|]. apply (step_apply _ _ wStep3 100). done. Qed.

Lemma wApplied_reachable : reachable fst wLog wApplied.
Proof.
  eapply rtc_r; [exact wApplying_reachable|].
  apply (step_applied _ _ wApplying _ 2 200 None). by vm_compute.
Qed.


Lemma users_progress_witness :
  set (applyPendingStart fst (users wStep3) true 100).1 = Some (wLog 2).
Proof.
  apply (users_progress fst wLog wStep3 100 200 wLog_ok wStep3_reachable); [done|done|by left|by vm_compute].
Defined.

Lemma users_failed_set_retried_witness :
  usersWake (applyPendingFinish (users wApplying) 2 200 (Some "core")) true ≠ 0.
Proof.
  apply (users_failed_set_retried fst wLog wApplying (userSet fst (users wApplying)) 2 200 "core" 0 wLog_ok
           wApplying_reachable); by vm_compute.
Defined.

Lemma incomplete_delta_ignored_witness :
  let d := mkDelta 3 false false [(3, "cid")] [] in
  pages (dropUserPagesLocked (receiveUsers (users wApplied) "s1" d).1 "s1") = [] ∧
  same_core (users wApplied) (receiveUsers (users wApplied) "s1" d).1.
Proof.
  pose proof (incomplete_delta_ignored (users wApplied) "s1" (mkDelta 3 false false [(3, "cid")] [])) as H.
  cbv zeta. destruct (receiveUsers (users wApplied) "s1" _) as [u' rc].
  destruct H as (H1 & H2 & _). split; [exact H2|]. apply H1. left. reflexivity.
Defined.

End Users.
