(* ===== verification/Negotiation.v ===== *)
(** * Capabilities and the session (src/api/agent/negotiation.go, client.go)

    Which data-plane capabilities a client advertises, which payloads of
    Control it hands to its data plane, and how it reconnects.  The names and
    the matching of capabilities are Control's SDK ([SDK]), of which the code
    relies on little: [SDKLaws]. *)

From S2P Require Import Prelude GoStrings.

Module Negotiation.

(** ** Control's SDK *)

Record Capability := mkCapability {
  Name : string;
  CapVersion : string;
  Attributes : list (string * string)
}.

Class SDK := {
  CapabilityVersionV1 : string;
  CapabilityConfig : string;
  CapabilityUsers : string;
  CapabilityReports : string;
  CapabilityPackageReports : string;
  CapabilityDiag : string;
  CapabilityForward : string;
  CapabilityNetwork : string;
  CapabilityMaintenance : string;
  CapabilityAlive : string;
  CapabilityArtifacts : string;
  CapabilityUpgrade : string;
  CapabilityReleases : string;
  CapabilityDestinations : string;
  ReportsAttributeTransientAck : string;
  ReportsTransientAckV1 : string;
  HasCapability : list Capability → string → bool;
  HasCapabilityVersion : list Capability → string → string → bool;
  Negotiated : list Capability → list Capability → string → bool
}.

(** The versions a list has of the capability [n]. *)
Definition versions (n : string) (l : list Capability) : list string :=
  CapVersion <$> filter (λ c, Name c = n) l.

Class SDKLaws `{SDK} := {
  (* a capability is in use only when both sides list it *)
  negotiated_agent : ∀ a s n, Negotiated a s n = true → HasCapability a n = true;
  (* whether a capability is listed depends only on the versions listed of it *)
  has_capability_versions : ∀ l l' n, versions n l = versions n l' → HasCapability l n = HasCapability l' n;
  (* a capability of version v1 in the list is listed under its name, and
     stays listed in a longer list *)
  has_capability_in : ∀ l c, c ∈ l → CapVersion c = CapabilityVersionV1 → HasCapability l (Name c) = true;
  has_version_in : ∀ l n, HasCapabilityVersion l n CapabilityVersionV1 = true → HasCapability l n = true;
  has_capability_app : ∀ l l' n, HasCapability l n = true → HasCapability (l ++ l') n = true;
  (* the names differ *)
  capability_names_distinct : NoDup
    [CapabilityConfig; CapabilityUsers; CapabilityReports; CapabilityPackageReports; CapabilityDiag;
     CapabilityForward; CapabilityNetwork; CapabilityMaintenance; CapabilityAlive; CapabilityArtifacts;
     CapabilityUpgrade; CapabilityReleases; CapabilityDestinations]
}.

Section Negotiation.
Context `{SDK}.
Set Default Proof Using "Type*".

(** ** The data plane's handlers *)

(** [DataPlaneConfig], what is set of it; [Reports] says whether it also
    collects destinations. *)
Record DataPlaneConfig := mkDataPlane {
  Config : bool;
  Users : bool;
  Reports : option bool;
  PackageReports : bool;
  Maintenance : bool;
  Alive : bool;
  Artifacts : bool;
  Forward : bool;
  Network : bool;
  Diagnostics : bool;
  Upgrade : bool;
  PendingGrace : duration
}.

Definition DefaultPendingGrace : duration := 5 * minute.

(** The checks of [newDataPlane]; [state] says whether a store is given. *)
Definition newDataPlane (state : bool) (c : DataPlaneConfig) : result DataPlaneConfig :=
  if negb state then Err "agent data plane: a state store is required"
  else if negb (Config c) && negb (Users c) && negb (bool_decide (is_Some (Reports c)))
          && negb (PackageReports c) && negb (Maintenance c) && negb (Alive c) && negb (Artifacts c)
          && negb (Forward c) && negb (Network c) then
    Err "agent data plane: no data-plane handler is configured"
  else if Forward c && negb (Config c) then
    Err "agent data plane: forward.v1 needs a ConfigApplier: the forwarding state rides in config.v1"
  else if Network c && negb (Config c) then
    Err "agent data plane: network.v1 needs a ConfigApplier: the device's plan rides in config.v1"
  else Ok (mkDataPlane (Config c) (Users c) (Reports c) (PackageReports c) (Maintenance c) (Alive c)
             (Artifacts c) (Forward c) (Network c) (Diagnostics c) (Upgrade c)
             (if PendingGrace c <=? 0 then DefaultPendingGrace else PendingGrace c)).

Definition capabilities (d : DataPlaneConfig) : list string :=
  (if Config d then [CapabilityConfig] else []) ++
  (if Users d then [CapabilityUsers] else []) ++
  (match Reports d with
   | Some destinations => CapabilityReports :: if destinations : bool then [CapabilityDestinations] else []
   | None => []
   end) ++
  (if PackageReports d || Forward d || Network d then [CapabilityPackageReports] else []) ++
  (if Forward d then [CapabilityForward] else []) ++
  (if Network d then [CapabilityNetwork] else []) ++
  (if Maintenance d then [CapabilityMaintenance] else []) ++
  (if Alive d then [CapabilityAlive] else []) ++
  (if Artifacts d then [CapabilityArtifacts] else []) ++
  (if Diagnostics d then [CapabilityDiag] else []) ++
  (if Upgrade d then [CapabilityUpgrade; CapabilityReleases] else []).

(** ** Advertising *)

Definition dataPlaneCapabilities : list string :=
  [CapabilityConfig; CapabilityUsers; CapabilityReports; CapabilityPackageReports; CapabilityDiag;
   CapabilityForward; CapabilityNetwork; CapabilityMaintenance; CapabilityAlive; CapabilityArtifacts;
   CapabilityUpgrade; CapabilityReleases; CapabilityDestinations].

Definition implementedDataPlane : list string :=
  [CapabilityConfig; CapabilityUsers; CapabilityReports; CapabilityPackageReports;
   CapabilityMaintenance; CapabilityAlive; CapabilityArtifacts; CapabilityForward; CapabilityNetwork;
   CapabilityDiag; CapabilityUpgrade; CapabilityReleases; CapabilityDestinations].

(** The loop of [validateAdvertisedCapabilities] over the names left. *)
Fixpoint validateLoop (caps : list Capability) (handled names : list string) : result unit :=
  match names with
  | [] => Ok tt
  | name :: rest =>
      if negb (HasCapability caps name) then validateLoop caps handled rest
      else if negb (bool_decide (name ∈ implementedDataPlane)) then
        Err ("agent capability " +:+ name +:+ "." +:+ CapabilityVersionV1 +:+
             " is not implemented by this Agent and must not be advertised")
      else if negb (bool_decide (name ∈ handled)) then
        Err ("agent capability " +:+ name +:+ "." +:+ CapabilityVersionV1 +:+
             " needs a DataPlane handler and must not be advertised without one")
      else validateLoop caps handled rest
  end.

Definition validateAdvertisedCapabilities (caps : list Capability) (plane : option DataPlaneConfig)
  : result unit :=
  validateLoop caps (from_option capabilities [] plane) dataPlaneCapabilities.

(** The HelloCapability answers of the forward and network components. *)
Record HelloHandlers := mkHello {
  forwardHello : result Capability;
  networkHello : result Capability
}.

(** The loop of [NewClient] that adds the data plane's capabilities. *)
Fixpoint addCapabilities (h : HelloHandlers) (names : list string) (caps : list Capability)
  : result (list Capability) :=
  match names with
  | [] => Ok caps
  | name :: rest =>
      if HasCapabilityVersion caps name CapabilityVersionV1 then addCapabilities h rest caps
      else
        let plain := mkCapability name CapabilityVersionV1
          (if String.eqb name CapabilityReports
           then [(ReportsAttributeTransientAck, ReportsTransientAckV1)] else []) in
        let? c := if String.eqb name CapabilityForward then forwardHello h else Ok plain in
        let? c := if String.eqb name CapabilityNetwork then networkHello h else Ok c in
        addCapabilities h rest (caps ++ [c])
  end.

(** The capabilities [NewClient] ends with, or its error. *)
Definition clientCapabilities (h : HelloHandlers) (state : bool) (plane : option DataPlaneConfig)
    (caps : list Capability) : result (option DataPlaneConfig * list Capability) :=
  match plane with
  | None =>
      let? _ := validateAdvertisedCapabilities caps None in Ok (None, caps)
  | Some c =>
      let? c := newDataPlane state c in
      let? caps := addCapabilities h (capabilities c) caps in
      let? _ := validateAdvertisedCapabilities caps (Some c) in Ok (Some c, caps)
  end.

(** [sessionCapabilities]: the forward and network capabilities as they are
    when the session starts; a component that cannot answer keeps its last. *)
Definition refreshForward (h : HelloHandlers) (plane : option DataPlaneConfig) (c : Capability) : Capability :=
  if String.eqb (Name c) CapabilityForward && from_option Forward false plane
  then match forwardHello h with Ok c' => c' | Err _ => c end else c.

Definition refreshNetwork (h : HelloHandlers) (plane : option DataPlaneConfig) (c : Capability) : Capability :=
  if String.eqb (Name c) CapabilityNetwork && from_option Network false plane
  then match networkHello h with Ok c' => c' | Err _ => c end else c.

Definition sessionCapabilities (h : HelloHandlers) (plane : option DataPlaneConfig)
    (caps : list Capability) : list Capability :=
  (λ c, refreshNetwork h plane (refreshForward h plane c)) <$> caps.

Definition negotiatedCapabilities (agent server : list Capability) : list string :=
  filter (λ name, Negotiated agent server name = true) dataPlaneCapabilities.

Definition negotiatedNames (agent server : list Capability) : list string :=
  (λ name, name +:+ "." +:+ CapabilityVersionV1) <$> negotiatedCapabilities agent server.

(** ** Payloads of Control *)

Inductive Payload :=
| PConfig
| PUsers
| PReportAck
| PMaintenanceAck
| PAliveList.

Definition payloadCapability (p : Payload) : string * string :=
  match p with
  | PConfig => ("config", CapabilityConfig)
  | PUsers => ("users", CapabilityUsers)
  | PReportAck => ("report_ack", CapabilityReports)
  | PMaintenanceAck => ("maintenance_ack", CapabilityMaintenance)
  | PAliveList => ("alive_list", CapabilityAlive)
  end.

(** The handler of the data plane a payload goes to ([DataPlane.receive]). *)
Definition handlerOf (d : DataPlaneConfig) (p : Payload) : bool :=
  match p with
  | PConfig => Config d
  | PUsers => Users d
  | PReportAck => bool_decide (is_Some (Reports d))
  | PMaintenanceAck => Maintenance d
  | PAliveList => Alive d
  end.

(** A message from Control, as the session's loop looks at it. *)
Inductive ControlPayload :=
| HeartbeatAck (sessionID : string) (desiredRevision : Z)
| Operation (op : option (string * Z))   (* kind and revision *)
| DuplicateHelloAck
| Data (p : Payload)
| NoPayload.

Inductive action :=
| EndSession (reason : string)
| StoreRevision (r : Z)
| Cancel
| Accept (stored : option Z)
| Deliver (p : Payload)
| Drop (kind capability : string).

Definition operationCancelKind : string := "operation.cancel".

(** One received message in the loop of [runSession]. *)
Definition dispatch (nodeID : Z) (sessionID : string) (plane : option DataPlaneConfig)
    (hello server : list Capability) (msgNode : Z) (payload : ControlPayload) : action :=
  if negb (msgNode =? nodeID) then EndSession "control message node_id mismatch"
  else match payload with
  | HeartbeatAck id rev =>
      if negb (String.eqb id sessionID) then EndSession "heartbeat ACK session_id mismatch"
      else StoreRevision rev
  | Operation (Some (kind, rev)) =>
      if String.eqb kind operationCancelKind then Cancel else Accept (Some rev)
  | Operation None => Accept None
  | DuplicateHelloAck => EndSession "unexpected duplicate hello ACK"
  | Data p =>
      let '(kind, capability) := payloadCapability p in
      if bool_decide (plane = None) || negb (Negotiated hello server capability) then Drop kind capability
      else Deliver p
  | NoPayload => EndSession "control message payload is required"
  end.

(** ** Reconnecting *)

Definition defaultReconnectMin : duration := second.
Definition defaultReconnectMax : duration := 30 * second.

(** The reconnect bounds [NewClient] settles on. *)
Definition reconnectBounds (lo hi : duration) : duration * duration :=
  let lo := if lo <=? 0 then defaultReconnectMin else lo in
  let hi := if hi <=? 0 then defaultReconnectMax else hi in
  (lo, if hi <? lo then lo else hi).

(** The loop of [reconnectDelay] with [n] attempts left. *)
Fixpoint backoff (n : nat) (base hi : duration) : duration :=
  match n with
  | O => base
  | S n =>
      if base <? hi then
        if hi / 2 <? base then hi else backoff n (base * 2) hi
      else base
  end.

(** [reconnectDelay] before its jitter, which multiplies it by a factor in
    [0.5, 1). *)
Definition reconnectBase (lo hi : duration) (attempt : Z) : duration :=
  let base := backoff (Z.to_nat attempt) lo hi in
  if hi <? base then hi else base.

(** The attempt counter of [run] after a session that did or did not last. *)
Definition nextAttempt (connected : bool) (attempt : Z) : Z * Z :=
  let attempt := if connected then 0 else attempt in
  (attempt, if attempt <? 62 then attempt + 1 else attempt).

(** ** Advertised capabilities are handled *)

Lemma validateLoop_ok caps handled names :
  validateLoop caps handled names = Ok tt ↔
  ∀ name, name ∈ names → HasCapability caps name = true →
    name ∈ implementedDataPlane ∧ name ∈ handled.
Proof.
  induction names as [|name names IH]; simpl.
  { split; [|done]. intros _ name Hn. by apply elem_of_nil in Hn. }
  destruct (HasCapability caps name) eqn:E; simpl.
  - destruct (decide (name ∈ implementedDataPlane)) as [Hi|Hi].
    + rewrite bool_decide_true by done. simpl. destruct (decide (name ∈ handled)) as [Hh|Hh].
      * rewrite bool_decide_true by done. simpl. rewrite IH. split.
        -- intros HA n [->|Hn]%elem_of_cons; auto.
        -- intros HA n Hn. apply HA. by apply list_elem_of_further.
      * rewrite bool_decide_false by done. split; [done|]. intros HA. destruct Hh.
        apply HA; [apply list_elem_of_here|done].
    + rewrite bool_decide_false by done. split; [done|]. intros HA. destruct Hi.
      apply HA; [apply list_elem_of_here|done].
  - rewrite IH. split.
    + intros HA n [->|Hn]%elem_of_cons; [congruence|auto].
    + intros HA n Hn. apply HA. by apply list_elem_of_further.
Qed.

(** The hello handlers answer the capability they are asked for. *)
Definition helloOk (h : HelloHandlers) : Prop :=
  (∀ c, forwardHello h = Ok c → Name c = CapabilityForward ∧ CapVersion c = CapabilityVersionV1) ∧
  (∀ c, networkHello h = Ok c → Name c = CapabilityNetwork ∧ CapVersion c = CapabilityVersionV1).

Section Laws.
Context `{!SDKLaws}.

Lemma refreshForward_name h plane c : helloOk h → Name (refreshForward h plane c) = Name c ∧
  (Name c ≠ CapabilityForward → refreshForward h plane c = c).
Proof.
  intros [Hf _]. unfold refreshForward. destruct (String.eqb_spec (Name c) CapabilityForward); simpl; [|done].
  split; [|done]. case_match; [|done]. case_match eqn:E; [|done]. destruct (Hf _ eq_refl). congruence.
Qed.

Lemma refreshNetwork_name h plane c : helloOk h → Name (refreshNetwork h plane c) = Name c ∧
  (Name c ≠ CapabilityNetwork → refreshNetwork h plane c = c).
Proof.
  intros [_ Hn]. unfold refreshNetwork. destruct (String.eqb_spec (Name c) CapabilityNetwork); simpl; [|done].
  split; [|done]. case_match; [|done]. case_match eqn:E; [|done]. destruct (Hn _ eq_refl). congruence.
Qed.

Lemma sessionCapabilities_versions h plane caps n : helloOk h →
  n ≠ CapabilityForward → n ≠ CapabilityNetwork →
  versions n (sessionCapabilities h plane caps) = versions n caps.
Proof.
  intros Hh Hnf Hnn. unfold versions, sessionCapabilities.
  induction caps as [|c caps IH]; [done|]. rewrite fmap_cons, !filter_cons.
  destruct (refreshForward_name h plane c Hh) as [E1 F1].
  destruct (refreshNetwork_name h plane (refreshForward h plane c) Hh) as [E2 F2].
  destruct (decide (Name c = n)) as [Ec|Ec].
  - rewrite F2, F1 by congruence. rewrite decide_True by done. rewrite !fmap_cons. by rewrite IH.
  - rewrite decide_False by congruence. exact IH.
Qed.

Lemma elem_of_if (x y : string) (b : bool) : x ∈ (if b then [y] else []) → b = true ∧ x = y.
Proof. destruct b; [intros ->%list_elem_of_singleton|intros Hn%elem_of_nil]; done. Qed.

(** Splits a membership in [capabilities] into its sources. *)
Ltac split_capabilities Hin :=
  repeat match type of Hin with
  | _ ∈ _ ++ _ => apply elem_of_app in Hin as [Hin|Hin]
  end.

(** The names as pairwise disequalities. *)
Ltac distinct_names :=
  let HN := fresh "HN" in pose proof capability_names_distinct as HN;
  repeat match goal with
  | HN : NoDup (_ :: _) |- _ => apply NoDup_cons in HN as [? HN]
  end;
  repeat match goal with
  | Hx : _ ∉ _ :: _ |- _ => apply not_elem_of_cons in Hx as [? ?]
  end.

Lemma capabilities_handler d p : (payloadCapability p).2 ∈ capabilities d → handlerOf d p = true.
Proof.
  intros Hin. distinct_names. unfold capabilities in Hin. destruct p; simpl in *; split_capabilities Hin;
    try (apply elem_of_if in Hin as [? ?]; congruence);
    try (destruct (Reports d) as [b|]; [|by apply elem_of_nil in Hin];
         apply elem_of_cons in Hin as [?|Hin]; [done || congruence|apply elem_of_if in Hin as [? ?]; congruence]);
    try (destruct (Upgrade d); [|by apply elem_of_nil in Hin];
         apply elem_of_cons in Hin as [?|Hin]; [congruence|apply list_elem_of_singleton in Hin; congruence]).
Qed.

Lemma payload_dataPlane p : (payloadCapability p).2 ∈ dataPlaneCapabilities.
Proof. unfold dataPlaneCapabilities. destruct p; simpl; set_solver. Qed.

Lemma payload_not_special p :
  (payloadCapability p).2 ≠ CapabilityForward ∧ (payloadCapability p).2 ≠ CapabilityNetwork.
Proof. distinct_names. destruct p; simpl; split; congruence. Qed.

Lemma clientCapabilities_handled h state plane caps d caps' name :
  clientCapabilities h state plane caps = Ok (Some d, caps') →
  name ∈ dataPlaneCapabilities → HasCapability caps' name = true → name ∈ capabilities d.
Proof.
  unfold clientCapabilities, validateAdvertisedCapabilities. destruct plane as [c|];
    [|by destruct (validateLoop caps _ _)].
  destruct (newDataPlane state c) as [c1|]; [|done].
  destruct (addCapabilities h _ caps) as [caps1|]; [|done].
  destruct (validateLoop caps1 _ _) as [[]|] eqn:E; [|done]. intros [= <- <-] Hn Hc.
  by destruct (proj1 (validateLoop_ok _ _ _) E name Hn Hc).
Qed.

(** A payload the session's loop hands to the data plane has its handler
    there: for every configuration [NewClient] accepts, whatever Control
    answers, a delivered payload belongs to a capability the client implements,
    advertises and has an applier for; everything else is dropped or ends the
    session. *)
Theorem delivered_payload_has_handler h h' state plane caps plane' caps' nodeID sid server n payload p :
  helloOk h' →
  clientCapabilities h state plane caps = Ok (plane', caps') →
  dispatch nodeID sid plane' (sessionCapabilities h' plane' caps') server n payload = Deliver p →
  payload = Data p ∧ n = nodeID ∧
  (payloadCapability p).2 ∈ negotiatedCapabilities (sessionCapabilities h' plane' caps') server ∧
  ∃ d, plane' = Some d ∧ handlerOf d p = true.
Proof.
  intros Hh Hc Hd. unfold dispatch in Hd.
  destruct (Z.eqb_spec n nodeID) as [->|]; [|done]. simpl in Hd.
  destruct payload as [? ?|[[? ?]|]| |p'|]; simpl in Hd; try done; try by case_match.
  destruct (payloadCapability p') as [kind cap] eqn:Ep.
  destruct plane' as [d|]; simpl in Hd; [|done].
  destruct (Negotiated _ server cap) eqn:En; simpl in Hd; simplify_eq.
  assert (cap = (payloadCapability p).2) as -> by by rewrite Ep.
  split_and!; [done..| |].
  - apply list_elem_of_filter. split; [done|]. apply payload_dataPlane.
  - exists d. split; [done|]. apply capabilities_handler.
    apply negotiated_agent in En. destruct (payload_not_special p) as [Hnf Hnn].
    rewrite (has_capability_versions _ caps') in En by (by apply sessionCapabilities_versions).
    eapply clientCapabilities_handled; [exact Hc|apply payload_dataPlane|done].
Qed.

Lemma addCapabilities_has h names : helloOk h → ∀ caps caps',
  addCapabilities h names caps = Ok caps' →
  (∀ n, HasCapability caps n = true → HasCapability caps' n = true) ∧
  ∀ n, n ∈ names → HasCapability caps' n = true.
Proof.
  intros [Hf Hn]. induction names as [|name names IH]; intros caps caps'; simpl.
  { intros [= <-]. split; [done|]. intros n Hi. by apply elem_of_nil in Hi. }
  destruct (HasCapabilityVersion caps name _) eqn:Ev.
  { intros Ha. destruct (IH _ _ Ha) as [H1 H2]. split; [done|].
    intros n [->|Hi]%elem_of_cons; [|by apply H2]. apply H1. by apply has_version_in. }
  destruct (if String.eqb name CapabilityForward then _ else _) as [c1|] eqn:E1; [|done].
  destruct (if String.eqb name CapabilityNetwork then _ else _) as [c2|] eqn:E2; [|done].
  intros Ha. destruct (IH _ _ Ha) as [H1 H2].
  assert (Name c2 = name ∧ CapVersion c2 = CapabilityVersionV1) as [En Evv].
  { destruct (String.eqb_spec name CapabilityNetwork) as [->|]; [by apply Hn|].
    simplify_eq. destruct (String.eqb_spec name CapabilityForward) as [->|]; [by apply Hf|]. by simplify_eq. }
  split; [intros n Hh; apply H1; by apply has_capability_app|].
  intros n [->|Hi]%elem_of_cons; [|by apply H2]. apply H1. rewrite <- En.
  apply has_capability_in; [|done]. apply elem_of_app. right. apply list_elem_of_here.
Qed.

(** The Hello advertises exactly what the data plane handles: every
    data-plane capability a client lists has a handler and is implemented, and
    every capability the configuration has a handler for is listed. *)
Theorem advertised_iff_handled h state c caps d caps' : helloOk h →
  clientCapabilities h state (Some c) caps = Ok (Some d, caps') →
  ∀ name, name ∈ dataPlaneCapabilities →
    (HasCapability caps' name = true ↔ name ∈ capabilities d).
Proof.
  intros Hh Hc name Hn. split; [by eapply clientCapabilities_handled|].
  unfold clientCapabilities in Hc. destruct (newDataPlane state c) as [c1|]; [|done].
  destruct (addCapabilities h (capabilities c1) caps) as [caps1|] eqn:E; [|done].
  destruct (validateAdvertisedCapabilities _ _); [|done]. simplify_eq.
  by apply (addCapabilities_has h _ Hh _ _ E).
Qed.

End Laws.

(** ** Reconnecting *)

Lemma backoff_spec n : ∀ base hi, 0 < base ≤ hi →
  backoff n base hi = Z.min hi (base * 2 ^ Z.of_nat n).
Proof.
  induction n as [|n IH]; intros base hi Hb; [simpl; lia|].
  rewrite Nat2Z.inj_succ, Z.pow_succ_r by lia. cbn [backoff].
  assert (0 < 2 ^ Z.of_nat n) by (apply Z.pow_pos_nonneg; lia).
  destruct (Z.ltb_spec base hi); [|nia].
  pose proof (Z.div_mod hi 2 ltac:(lia)) as Hd. pose proof (Z.mod_pos_bound hi 2 ltac:(lia)).
  destruct (Z.ltb_spec (hi / 2) base); [nia|].
  rewrite IH by lia. f_equal. ring.
Qed.

(** The reconnect delay doubles from the minimum and is capped at the
    maximum: with the bounds [NewClient] settles on it is the smaller of the
    maximum and min * 2^attempt, always positive, it never decreases with the
    attempts, and the doubling never exceeds the maximum, so it cannot
    overflow the 64 bits of a duration. *)
Theorem reconnect_backoff lo hi attempt :
  let '(lo, hi) := reconnectBounds lo hi in
  0 ≤ attempt →
  reconnectBase lo hi attempt = Z.min hi (lo * 2 ^ attempt) ∧
  0 < lo ≤ reconnectBase lo hi attempt ∧ reconnectBase lo hi attempt ≤ hi ∧
  reconnectBase lo hi attempt ≤ reconnectBase lo hi (attempt + 1).
Proof.
  destruct (reconnectBounds lo hi) as [lo' hi'] eqn:E. intros Ha.
  assert (0 < lo' ≤ hi') as Hb.
  { unfold reconnectBounds in E. simplify_eq. unfold defaultReconnectMin, defaultReconnectMax, second in *.
    destruct (Z.leb_spec lo 0), (Z.leb_spec hi 0); case_match; lia. }
  assert (∀ a, 0 ≤ a → reconnectBase lo' hi' a = Z.min hi' (lo' * 2 ^ a)) as Heq.
  { intros a Hp. unfold reconnectBase. rewrite backoff_spec by done. rewrite Z2Nat.id by done.
    destruct (Z.ltb_spec hi' (Z.min hi' (lo' * 2 ^ a))); lia. }
  rewrite !Heq by lia. rewrite Z.pow_add_r by lia.
  assert (0 < 2 ^ attempt) by (apply Z.pow_pos_nonneg; lia).
  split_and!; nia || lia.
Qed.

End Negotiation.
Unset Default Proof Using.

(** ** Witnesses: an SDK that matches names and versions. *)

Definition lists (n v : string) (c : Capability) : bool := String.eqb (Name c) n && String.eqb (CapVersion c) v.

Definition wSDK : SDK := {|
  CapabilityVersionV1 := "v1";
  CapabilityConfig := "config";
  CapabilityUsers := "users";
  CapabilityReports := "reports";
  CapabilityPackageReports := "package-reports";
  CapabilityDiag := "diag";
  CapabilityForward := "forward";
  CapabilityNetwork := "network";
  CapabilityMaintenance := "maintenance";
  CapabilityAlive := "alive";
  CapabilityArtifacts := "artifacts";
  CapabilityUpgrade := "upgrade";
  CapabilityReleases := "releases";
  CapabilityDestinations := "destinations";
  ReportsAttributeTransientAck := "transient_ack";
  ReportsTransientAckV1 := "v1";
  HasCapability := λ l n, existsb (lists n "v1") l;
  HasCapabilityVersion := λ l n v, existsb (lists n v) l;
  Negotiated := λ a s n, existsb (lists n "v1") a && existsb (lists n "v1") s
|}.

Lemma wHas_versions l n : existsb (lists n "v1") l = existsb (String.eqb "v1") (versions n l).
Proof.
  unfold versions. induction l as [|c l IH]; [done|]. simpl. rewrite IH, filter_cons. unfold lists.
  destruct (String.eqb_spec (Name c) n) as [E|E].
  - rewrite decide_True by done. rewrite fmap_cons. simpl. by rewrite String.eqb_sym.
  - by rewrite decide_False.
Qed.

Lemma wSDKLaws : @SDKLaws wSDK.
Proof.
  split; simpl.
  - intros a s n [Ha _]%andb_prop. done.
  - intros l l' n E. by rewrite !wHas_versions, E.
  - intros l c Hin Hv. apply existsb_exists. exists c. split; [by apply list_elem_of_In|].
    unfold lists. by rewrite Hv, !String.eqb_refl.
  - done.
  - intros l l' n Hl. by rewrite existsb_app, Hl.
  - repeat (apply NoDup_cons; split; [set_solver|]). constructor.
Qed.

Definition wPlane : DataPlaneConfig :=
  mkDataPlane true true (Some false) false false true false false false false false 0.
Definition wHello : HelloHandlers := mkHello (Err "none") (Err "none").
Definition wClient : option (option DataPlaneConfig * list Capability) :=
  match clientCapabilities (H := wSDK) wHello true (Some wPlane) [] with Ok r => Some r | Err _ => None end.
Definition wCaps : list Capability := from_option snd [] wClient.
Definition wResult : option DataPlaneConfig := from_option fst None wClient.
Definition wServer : list Capability := [mkCapability "users" "v1" []].

Lemma delivered_payload_witness :
  dispatch (H := wSDK) 7 "s" wResult (sessionCapabilities (H := wSDK) wHello wResult wCaps) wServer 7 (Data PUsers)
    = Deliver PUsers ∧
  dispatch (H := wSDK) 7 "s" wResult (sessionCapabilities (H := wSDK) wHello wResult wCaps) wServer 7 (Data PConfig)
    = Drop "config" "config" ∧
  ∃ d, wResult = Some d ∧ handlerOf d PUsers = true.
Proof.
  split_and!; [by vm_compute..|].
  apply (delivered_payload_has_handler (H := wSDK) (H0 := wSDKLaws) wHello wHello true (Some wPlane) [] wResult wCaps
           7 "s" wServer 7 (Data PUsers) PUsers); [by split|by vm_compute..].
Defined.

Lemma advertised_witness : ∃ d, wResult = Some d ∧ "alive" ∈ capabilities (H := wSDK) d.
Proof.
  eexists. split; [by vm_compute|].
  eapply (advertised_iff_handled (H := wSDK) (H0 := wSDKLaws) wHello true wPlane [] _ wCaps);
    [by split|by vm_compute| |by vm_compute].
  apply (payload_dataPlane (H := wSDK) (H0 := wSDKLaws) PAliveList).
Defined.

Lemma reconnect_witness : reconnectBase (5 * second) (30 * second) 2 = 20 * second ∧
  reconnectBase (5 * second) (30 * second) 2 ≤ 30 * second.
Proof.
  split; [by vm_compute|]. apply (reconnect_backoff (5 * second) (30 * second) 2). lia.
Defined.

End Negotiation.
