(* ===== verification/DataPlane.v ===== *)
(** * The data plane: sessions, configuration, alive list
      (src/api/agent/dataplane.go, dataplane_alive.go)

    Which capabilities the stream carries now ([modeLocked]), how a
    configuration snapshot of Control is verified, applied, stored and answered,
    and how the pages of an alive list become one list.  The node that applies
    is the environment: its answers are arguments of the steps. *)

From S2P Require Import Prelude GoStrings Negotiation.
Import Negotiation.

Module DataPlane.

(** ** Sessions and modes *)

Inductive DataPlaneMode := DataPlaneOff | DataPlaneStream | DataPlanePending.

#[export] Instance DataPlaneMode_eq_dec : EqDecision DataPlaneMode.
Proof. solve_decision. Defined.

Definition modeString (m : DataPlaneMode) : string :=
  match m with
  | DataPlaneStream => "stream"
  | DataPlanePending => "pending"
  | DataPlaneOff => "off"
  end.

Record DataPlaneSession := mkSession {
  ID : string;
  SessionNegotiated : list string;
  TransientAcks : bool
}.

Definition noSession : DataPlaneSession := mkSession "" [] false.

Definition Has (s : DataPlaneSession) (capability : string) : bool :=
  existsb (λ name, String.eqb name capability) (SessionNegotiated s).

(** The session part of [DataPlane]. *)
Record Sessions := mkSessions {
  session : DataPlaneSession;
  streamUntil : gmap string time
}.

Definition sessionStarted (sessionID : string) (negotiated : list string) (transientAcks : bool)
    (d : Sessions) : Sessions :=
  mkSessions (mkSession sessionID negotiated transientAcks)
    (fold_left (λ m c, delete c m) negotiated (streamUntil d)).

Definition sessionEnded (sessionID : string) (now : time) (d : Sessions) : Sessions :=
  if negb (String.eqb (ID (session d)) sessionID) then d
  else mkSessions noSession
         (fold_left (λ m c, <[c := now]> m) (SessionNegotiated (session d)) (streamUntil d)).

(** [load]: the capabilities of the session before the restart, when it was
    with this Control. *)
Definition loadSession (control : string) (stored : result (string * list string)) (now : time) : Sessions :=
  mkSessions noSession
    match stored with
    | Ok (owner, negotiated) =>
        if String.eqb owner control then fold_left (λ m c, <[c := now]> m) negotiated ∅ else ∅
    | Err _ => ∅
    end.

Definition modeLocked (grace : duration) (now : time) (d : Sessions) (capability : string) : DataPlaneMode :=
  if negb (String.eqb (ID (session d)) "") then
    if Has (session d) capability then DataPlaneStream else DataPlaneOff
  else match streamUntil d !! capability with
       | Some until => if sub now until <? grace then DataPlanePending else DataPlaneOff
       | None => DataPlaneOff
       end.

(** [forwardNegotiated] and [networkNegotiated]. *)
Definition forwardNegotiated `{SDK} (s : DataPlaneSession) : bool :=
  Has s CapabilityForward && Has s CapabilityPackageReports.
Definition networkNegotiated `{SDK} (s : DataPlaneSession) : bool :=
  Has s CapabilityNetwork && Has s CapabilityPackageReports.

Lemma Has_spec s c : Has s c = true ↔ c ∈ SessionNegotiated s.
Proof.
  unfold Has. rewrite existsb_exists. split.
  - intros (n & Hn & ->%String.eqb_eq). by apply list_elem_of_In.
  - intros Hc. exists c. split; [by apply list_elem_of_In|apply String.eqb_refl].
Qed.

Lemma fold_delete_status_lookup (l : list string) (m : gmap string time) c :
  fold_left (λ m c, delete c m) l m !! c = if decide (c ∈ l) then None else m !! c.
Proof.
  revert m. induction l as [|x l IH]; intros m; simpl; [done|]. rewrite IH.
  destruct (decide (c = x)) as [->|Hne].
  - rewrite lookup_delete_eq, (decide_True (P := x ∈ x :: l)) by apply list_elem_of_here. by case_decide.
  - rewrite lookup_delete_ne by done. apply decide_ext. rewrite elem_of_cons. tauto.
Qed.

Lemma fold_insert_lookup (l : list string) (t : time) (m : gmap string time) c :
  fold_left (λ m c, <[c := t]> m) l m !! c = if decide (c ∈ l) then Some t else m !! c.
Proof.
  revert m. induction l as [|x l IH]; intros m; simpl; [done|]. rewrite IH.
  destruct (decide (c = x)) as [->|Hne].
  - rewrite lookup_insert_eq, (decide_True (P := x ∈ x :: l)) by apply list_elem_of_here. by case_decide.
  - rewrite lookup_insert_ne by done. apply decide_ext. rewrite elem_of_cons. tauto.
Qed.

(** What happens to the stream. *)
Inductive streamEvent :=
| Started (id : string) (negotiated : list string)
| Ended (id : string) (at_ : time).

Definition streamStep (d : Sessions) (e : streamEvent) : Sessions :=
  match e with
  | Started id negotiated => sessionStarted id negotiated false d
  | Ended id now => sessionEnded id now d
  end.

(** The specification: the newest session, whether it still runs, and when the
    newest session that carried [c] ended. *)
Fixpoint current (es : list streamEvent) : option (string * list string) :=
  match es with          (* newest first *)
  | [] => None
  | Started id negotiated :: _ => Some (id, negotiated)
  | Ended id _ :: rest =>
      match current rest with
      | Some (id', negotiated) => if String.eqb id id' then None else Some (id', negotiated)
      | None => None
      end
  end.

Fixpoint carriedUntil (c : string) (es : list streamEvent) : option time :=
  match es with
  | [] => None
  | Started _ negotiated :: rest => if bool_decide (c ∈ negotiated) then None else carriedUntil c rest
  | Ended id t :: rest =>
      match current rest with
      | Some (id', negotiated) =>
          if String.eqb id id' && bool_decide (c ∈ negotiated) then Some t else carriedUntil c rest
      | None => carriedUntil c rest
      end
  end.

Definition named (e : streamEvent) : Prop :=
  match e with Started id _ => id ≠ "" | Ended id _ => id ≠ "" end.

Lemma stream_history es c : Forall named es →
  let d := foldr (λ e d, streamStep d e) (mkSessions noSession ∅) es in
  session d = match current es with Some (id, n) => mkSession id n false | None => noSession end ∧
  (∀ id n, current es = Some (id, n) → id ≠ "") ∧
  streamUntil d !! c = carriedUntil c es.
Proof.
  induction 1 as [|e es He Hes IH]; [done|]. simpl.
  destruct IH as (Hse & Hid & Hun). set (d := foldr _ _ es) in *. clearbody d.
  destruct e as [id n|id t]; simpl in *.
  - split; [done|]. split; [naive_solver|]. rewrite fold_delete_status_lookup, Hun.
    case_decide; [by rewrite bool_decide_true|by rewrite bool_decide_false].
  - unfold sessionEnded. rewrite Hse. destruct (current es) as [[id' n]|] eqn:Ec; simpl.
    + rewrite String.eqb_sym. destruct (String.eqb_spec id id') as [->|Hne]; simpl.
      * split_and!; [done|done|]. rewrite fold_insert_lookup, Hun.
        case_decide; [by rewrite bool_decide_true|by rewrite bool_decide_false].
      * split_and!; [done|naive_solver|done].
    + destruct id; [done|]. by split_and!.
Qed.

(** What [Mode] answers after any history of sessions: stream exactly while
    the current session carries the capability, off on a session without it;
    without a session, pending exactly while the newest session that carried it
    ended less than the grace period ago.  The end of a session that is not the
    current one changes nothing. *)
Theorem mode_follows_sessions es grace now c :
  Forall named es → min_int64 < grace ≤ max_int64 →
  let d := foldr (λ e d, streamStep d e) (mkSessions noSession ∅) es in
  match current es with
  | Some (_, negotiated) =>
      modeLocked grace now d c = if bool_decide (c ∈ negotiated) then DataPlaneStream else DataPlaneOff
  | None =>
      modeLocked grace now d c =
        match carriedUntil c es with
        | Some t => if now - t <? grace then DataPlanePending else DataPlaneOff
        | None => DataPlaneOff
        end
  end.
Proof.
  intros Hes Hg. destruct (stream_history es c Hes) as (Hse & Hid & Hun).
  set (d := foldr _ _ es) in *. clearbody d. simpl. unfold modeLocked. rewrite Hse, Hun.
  destruct (current es) as [[id n]|]; simpl.
  - specialize (Hid id n eq_refl). destruct (String.eqb_spec id ""); [done|]. simpl.
    destruct (decide (c ∈ n)) as [Hc|Hc].
    + by rewrite bool_decide_true, (proj2 (Has_spec _ _)).
    + rewrite bool_decide_false by done. destruct (Has _ c) eqn:E; [|done]. by apply Has_spec in E.
  - destruct (carriedUntil c es) as [t|]; [|done].
    pose proof (sub_lt_iff now t grace Hg). destruct (Z.ltb_spec (sub now t) grace), (Z.ltb_spec (now - t) grace); lia || done.
Qed.

(** ** Configuration (config.v1) *)

Record ConfigSnapshot := mkSnapshot {
  ConfigRevision : Z;
  ConfigHash : string;
  Format : string;
  ConfigJson : string
}.

Record ConfigStatus := mkStatus {
  stRevision : Z;
  stHash : string;
  Applied : bool;
  stError : string;
  ErrorCode : string
}.

(** The SDK's codes and the second format it names. *)
Class ConfigSDK := {
  ConfigErrorCodeInvalid : string;
  ConfigErrorCodeApplyFailed : string;
  ConfigErrorCodeFormatUnsupported : string;
  ConfigErrorCodeHashMismatch : string;
  ConfigFormatNodeConfigV2 : string
}.

Definition ConfigFormatNodeConfigV1 : string := "anixops.nodeconfig/v1".

(** An error of the applier: its text, and whether it wraps
    [ErrConfigInvalid]. *)
Record applyError := mkApplyError {
  errText : string;
  errInvalid : bool
}.

Section Config.
Context `{SDK} `{ConfigSDK}.
(** [sha256_hex] is the lowercase hex SHA-256, [quoted] the %q of a string;
    [forward] says whether a forward component is set. *)
Context (sha256_hex quoted : string → string) (forward : bool).
Set Default Proof Using "Type*".

Definition configErrorCode (e : applyError) : string :=
  if errInvalid e then ConfigErrorCodeInvalid else ConfigErrorCodeApplyFailed.

Definition HashMatches (s : ConfigSnapshot) : bool :=
  String.eqb (ConfigHash s) (sha256_hex (ConfigJson s)).

Definition acceptsFormat (format : string) : bool :=
  String.eqb format ConfigFormatNodeConfigV1
  || (String.eqb format ConfigFormatNodeConfigV2 && forward).

Definition formatsText : string :=
  if forward then ConfigFormatNodeConfigV1 +:+ " and " +:+ ConfigFormatNodeConfigV2
  else ConfigFormatNodeConfigV1.

(** [verifySnapshot]: the problem and its code, [None] for a snapshot that can
    be applied. *)
Definition verifySnapshot (s : ConfigSnapshot) : option (string * string) :=
  if ConfigRevision s =? 0 then Some ("config_revision is required", ConfigErrorCodeInvalid)
  else if negb (acceptsFormat (Format s)) then
    Some ("unknown configuration format " +:+ quoted (Format s) +:+ " (this Agent applies " +:+ formatsText +:+ ")",
          ConfigErrorCodeFormatUnsupported)
  else if negb (HashMatches s) then
    Some ("config_hash does not match the SHA-256 of config_json", ConfigErrorCodeHashMismatch)
  else None.

(** The configuration part of [DataPlane].  Statuses are compared by identity
    ([d.pendingStatus == status]), so each carries the number of its object. *)
Record ConfigState := mkConfig {
  active : bool;
  persistedConfig : option ConfigSnapshot;
  appliedConfig : option ConfigSnapshot;
  pendingConfig : option ConfigSnapshot;
  pendingStatus : option (Z * ConfigStatus);
  nextStatus : Z;
  lastConfigError : string;
  configApplied : Z;
  configFailed : Z;
  configRejected : Z
}.

Definition newConfigState : ConfigState := mkConfig false None None None None 0 "" 0 0 0.

(** [queueStatus] without the flush it ends with. *)
Definition queueStatus (st : ConfigStatus) (c : ConfigState) : ConfigState :=
  mkConfig (active c) (persistedConfig c) (appliedConfig c) (pendingConfig c)
    (Some (nextStatus c, st)) (nextStatus c + 1) (lastConfigError c)
    (configApplied c) (configFailed c) (configRejected c).

Definition receiveConfig (s : ConfigSnapshot) (c : ConfigState) : ConfigState :=
  match verifySnapshot s with
  | Some (problem, code) =>
      let c := mkConfig (active c) (persistedConfig c) (appliedConfig c) (pendingConfig c)
                 (pendingStatus c) (nextStatus c) (lastConfigError c)
                 (configApplied c) (configFailed c) (configRejected c + 1) in
      let c := if ConfigRevision s =? 0 then c
               else queueStatus (mkStatus (ConfigRevision s) (ConfigHash s) false problem code) c in
      mkConfig (active c) (persistedConfig c) (appliedConfig c) (pendingConfig c)
        (pendingStatus c) (nextStatus c) problem (configApplied c) (configFailed c) (configRejected c)
  | None =>
      mkConfig (active c) (persistedConfig c) (appliedConfig c) (Some s) (pendingStatus c)
        (nextStatus c) (lastConfigError c) (configApplied c) (configFailed c) (configRejected c)
  end.

(** [load] of the configuration: [stored] is what [State.LoadConfig] returned;
    the flag says that the file is discarded. *)
Definition LoadConfig (file : option ConfigSnapshot) : result (option ConfigSnapshot) :=
  match file with
  | None => Ok None
  | Some s => if (ConfigRevision s =? 0) || negb (HashMatches s) then Err "does not verify" else Ok (Some s)
  end.

Definition loadConfig (stored : result (option ConfigSnapshot)) (c : ConfigState) : ConfigState * bool :=
  let keep p := mkConfig (active c) p (appliedConfig c) (pendingConfig c) (pendingStatus c)
                  (nextStatus c) (lastConfigError c) (configApplied c) (configFailed c) (configRejected c) in
  match stored with
  | Err _ => (c, true)
  | Ok (Some s) => if negb (acceptsFormat (Format s)) then (c, true) else (keep (Some s), false)
  | Ok None => (keep None, false)
  end.

Definition RestoreConfig (s : ConfigSnapshot) (c : ConfigState) : ConfigState :=
  mkConfig (active c) (persistedConfig c) (Some s) (pendingConfig c) (pendingStatus c)
    (nextStatus c) (lastConfigError c) (configApplied c) (configFailed c) (configRejected c).

Definition DiscardPersistedConfig (c : ConfigState) : ConfigState :=
  mkConfig (active c) None (appliedConfig c) (pendingConfig c) (pendingStatus c)
    (nextStatus c) (lastConfigError c) (configApplied c) (configFailed c) (configRejected c).

Definition Activate (c : ConfigState) : ConfigState :=
  mkConfig true (persistedConfig c) (appliedConfig c) (pendingConfig c) (pendingStatus c)
    (nextStatus c) (lastConfigError c) (configApplied c) (configFailed c) (configRejected c).

Definition clearPending (c : ConfigState) : ConfigState :=
  mkConfig (active c) (persistedConfig c) (appliedConfig c) None (pendingStatus c)
    (nextStatus c) (lastConfigError c) (configApplied c) (configFailed c) (configRejected c).

(** One pass of [TakeConfig]: [None] when it has to wait. *)
Definition TakeConfig (c : ConfigState) : option (ConfigState * ConfigSnapshot) :=
  match pendingConfig c with
  | Some s => Some (clearPending c, s)
  | None => None
  end.

(** One turn of the loop of [applyPendingConfig]: done, answered without
    applying, or a snapshot for the applier. *)
Inductive applyTurn :=
| ApplyDone
| ApplyAnswered (c : ConfigState)
| ApplyThis (c : ConfigState) (s : ConfigSnapshot).

Definition sameConfig (a s : ConfigSnapshot) : bool :=
  (ConfigRevision a =? ConfigRevision s) && String.eqb (ConfigHash a) (ConfigHash s).

Definition applyPendingConfig (c : ConfigState) : applyTurn :=
  match pendingConfig c with
  | Some s =>
      if negb (active c) then ApplyDone
      else
        let running := match appliedConfig c with Some a => sameConfig a s | None => false end in
        if running then
          ApplyAnswered (queueStatus (mkStatus (ConfigRevision s) (ConfigHash s) true "" "") (clearPending c))
        else ApplyThis (clearPending c) s
  | None => ApplyDone
  end.

(** [finishConfig] after the applier answered [err]; the second component is
    the snapshot to store. *)
Definition finishConfig (s : ConfigSnapshot) (err : option applyError) (c : ConfigState)
  : ConfigState * option ConfigSnapshot :=
  match err with
  | Some e =>
      (queueStatus (mkStatus (ConfigRevision s) (ConfigHash s) false (errText e) (configErrorCode e))
         (mkConfig (active c) (persistedConfig c) (appliedConfig c) (pendingConfig c) (pendingStatus c)
            (nextStatus c) (errText e) (configApplied c) (configFailed c + 1) (configRejected c)), None)
  | None =>
      (queueStatus (mkStatus (ConfigRevision s) (ConfigHash s) true "" "")
         (mkConfig (active c) (Some s) (Some s) (pendingConfig c) (pendingStatus c)
            (nextStatus c) "" (configApplied c + 1) (configFailed c) (configRejected c)), Some s)
  end.

Definition helloConfigRevision (c : ConfigState) : Z :=
  match appliedConfig c with Some s => ConfigRevision s | None => 0 end.

(** [flushStatus] up to the send: the status and session it reads. *)
Definition flushStart (c : ConfigState) (s : DataPlaneSession) : option (Z * ConfigStatus) :=
  match pendingStatus c with
  | Some st => if Has s CapabilityConfig then Some st else None
  | None => None
  end.

(** [flushStatus] after a successful send of [st]. *)
Definition flushSent (st : Z * ConfigStatus) (c : ConfigState) : ConfigState :=
  match pendingStatus c with
  | Some st' => if st'.1 =? st.1 then
      mkConfig (active c) (persistedConfig c) (appliedConfig c) (pendingConfig c) None
        (nextStatus c) (lastConfigError c) (configApplied c) (configFailed c) (configRejected c) else c
  | None => c
  end.

(** *** The system

    The receive loop, the worker and the node's startup share the state; the
    worker holds no lock while the node applies ([applying]) and while a status
    is sent ([flushing]).  [file] is config.pb, [offered] what the node was
    given to apply, [ran] what it applied, [sent] the statuses Control got. *)

Record ConfigSys := mkConfigSys {
  cfg : ConfigState;
  current_session : DataPlaneSession;
  file : option ConfigSnapshot;
  applying : option ConfigSnapshot;
  flushing : option (Z * ConfigStatus);
  offered : list ConfigSnapshot;
  ran : list ConfigSnapshot;
  sent : list (Z * ConfigStatus)
}.

Definition set_cfg (s : ConfigSys) (c : ConfigState) : ConfigSys :=
  mkConfigSys c (current_session s) (file s) (applying s) (flushing s) (offered s) (ran s) (sent s).

(** Running the answer of the node: [finishConfig], and the store of the
    snapshot, which may fail. *)
Definition finish (snap : ConfigSnapshot) (err : option applyError) (saved : bool) (s : ConfigSys) : ConfigSys :=
  let '(c, store) := finishConfig snap err (cfg s) in
  mkConfigSys c (current_session s) (match store with Some x => if saved then Some x else file s | None => file s end)
    None (flushing s) (offered s) (match err with None => ran s ++ [snap] | Some _ => ran s end) (sent s).

Inductive cstep : ConfigSys → ConfigSys → Prop :=
| c_session s x :
    cstep s (mkConfigSys (cfg s) x (file s) (applying s) (flushing s) (offered s) (ran s) (sent s))
| c_receive s snap : cstep s (set_cfg s (receiveConfig snap (cfg s)))
| c_take s c snap err saved :
    TakeConfig (cfg s) = Some (c, snap) → applying s = None →
    cstep s (finish snap err saved
               (mkConfigSys c (current_session s) (file s) None (flushing s) (offered s ++ [snap]) (ran s) (sent s)))
| c_restore s snap :
    persistedConfig (cfg s) = Some snap →
    cstep s (mkConfigSys (RestoreConfig snap (cfg s)) (current_session s) (file s) (applying s) (flushing s)
               (offered s ++ [snap]) (ran s ++ [snap]) (sent s))
| c_discard s ok :
    cstep s (mkConfigSys (DiscardPersistedConfig (cfg s)) (current_session s)
               (if ok : bool then None else file s) (applying s) (flushing s) (offered s) (ran s) (sent s))
| c_activate s : cstep s (set_cfg s (Activate (cfg s)))
| c_answer s c : applying s = None → applyPendingConfig (cfg s) = ApplyAnswered c → cstep s (set_cfg s c)
| c_apply s c snap : applying s = None → applyPendingConfig (cfg s) = ApplyThis c snap →
    cstep s (mkConfigSys c (current_session s) (file s) (Some snap) (flushing s) (offered s ++ [snap]) (ran s) (sent s))
| c_applied s snap err saved : applying s = Some snap → cstep s (finish snap err saved s)
| c_flush s st : flushing s = None → flushStart (cfg s) (current_session s) = Some st →
    cstep s (mkConfigSys (cfg s) (current_session s) (file s) (applying s) (Some st) (offered s) (ran s) (sent s))
| c_flushed s st (ok : bool) : flushing s = Some st →
    cstep s (mkConfigSys (if ok then flushSent st (cfg s) else cfg s) (current_session s) (file s) (applying s) None
               (offered s) (ran s) (if ok then sent s ++ [st] else sent s))
| c_restart s f :
    (* the file may have been replaced by anything meanwhile *)
    let r := loadConfig (LoadConfig f) newConfigState in
    cstep s (mkConfigSys r.1 noSession (if r.2 then None else f) None None [] [] []).

Definition config_initial : ConfigSys := mkConfigSys newConfigState noSession None None None [] [] [].
Definition config_reachable (s : ConfigSys) : Prop := rtc cstep config_initial s.

Definition verified (s : ConfigSnapshot) : Prop := verifySnapshot s = None.

(** What is applied has been verified, and is what Hello reports. *)
Record config_wf (s : ConfigSys) : Prop := mkConfigWf {
  cw_pending : ∀ x, pendingConfig (cfg s) = Some x → verified x;
  cw_persisted : ∀ x, persistedConfig (cfg s) = Some x → verified x;
  cw_applying : ∀ x, applying s = Some x → verified x;
  cw_offered : Forall verified (offered s);
  cw_ran : Forall verified (ran s);
  cw_applied : appliedConfig (cfg s) = last (ran s)
}.

(** Statuses are numbered in the order they were queued; [sent] grows in that
    order, and the newest one is pending until it is sent. *)
Record status_wf (c : ConfigState) (fl : option (Z * ConfigStatus)) (sn : list (Z * ConfigStatus)) : Prop :=
  mkStatusWf {
  sw_pending : ∀ x, pendingStatus c = Some x → x.1 + 1 = nextStatus c;
  sw_next : 0 ≤ nextStatus c;
  sw_sorted : StronglySorted Z.lt sn.*1;
  sw_sent : Forall (λ x, x.1 < match fl with
                               | Some y => y.1
                               | None => from_option fst (nextStatus c) (pendingStatus c)
                               end) sn;
  sw_flushing : ∀ y, fl = Some y →
    match pendingStatus c with Some x => y.1 < x.1 ∨ x = y | None => False end;
  sw_newest : 0 < nextStatus c → pendingStatus c = None → ∃ st, last sn = Some (nextStatus c - 1, st)
}.

Definition same_status (c c' : ConfigState) : Prop :=
  pendingStatus c' = pendingStatus c ∧ nextStatus c' = nextStatus c.

Lemma status_same c c' fl sn : same_status c c' → status_wf c fl sn → status_wf c' fl sn.
Proof. intros [E1 E2] []. split; rewrite ?E1, ?E2; done. Qed.

Lemma status_queue st c fl sn : status_wf c fl sn → status_wf (queueStatus st c) fl sn.
Proof.
  intros [Hp Hn Hso Hse Hf Hnew]. split; simpl; try done; try lia.
  - intros x [= <-]. done.
  - destruct fl; [done|]. eapply Forall_impl; [done|]. simpl. intros x.
    destruct (pendingStatus c) as [y|]; simpl; [|done]. specialize (Hp y eq_refl). lia.
  - intros y Hy. specialize (Hf y Hy). destruct (pendingStatus c) as [x|]; [|done]. left. simpl.
    specialize (Hp x eq_refl). destruct Hf as [?| ->]; lia.
Qed.

Lemma status_flush c s st sn : status_wf c None sn → flushStart c s = Some st → status_wf c (Some st) sn.
Proof.
  unfold flushStart. intros [Hp Hn Hso Hse Hf Hnew]. destruct (pendingStatus c) as [x|] eqn:E; [|done].
  case_match; [|done]. intros [= <-]. split; rewrite ?E; try done. intros y [= <-]. by right.
Qed.

Lemma status_sent c st sn : status_wf c (Some st) sn → status_wf (flushSent st c) None (sn ++ [st]).
Proof.
  intros [Hp Hn Hso Hse Hf Hnew]. specialize (Hf st eq_refl). unfold flushSent.
  destruct (pendingStatus c) as [x|] eqn:E; [|done].
  assert (StronglySorted Z.lt (sn ++ [st]).*1) as Hso'.
  { rewrite fmap_app. apply StronglySorted_app. split_and!; [|done|by repeat constructor].
    intros a b Ha ->%list_elem_of_singleton. apply list_elem_of_fmap in Ha as (z & -> & Hz).
    rewrite Forall_forall in Hse. by apply Hse. }
  assert (Forall (λ z : Z * ConfigStatus, z.1 ≤ st.1) (sn ++ [st])) as Hle.
  { apply Forall_app. split; [eapply Forall_impl; [done|]; simpl; lia|]. by repeat constructor. }
  destruct (Z.eqb_spec x.1 st.1) as [Ex|Ex].
  - specialize (Hp x eq_refl). split; simpl; try done.
    + eapply Forall_impl; [exact Hle|]. simpl. lia.
    + intros _ _. exists st.2. rewrite last_snoc. destruct st. simpl in *. f_equal. f_equal. lia.
  - destruct Hf as [Hf| ->]; [|done]. split; rewrite ?E; try done.
    eapply Forall_impl; [exact Hle|]. simpl. lia.
Qed.

Lemma status_unsent c st sn : status_wf c (Some st) sn → status_wf c None sn.
Proof.
  intros [Hp Hn Hso Hse Hf Hnew]. specialize (Hf st eq_refl). split; try done.
  destruct (pendingStatus c) as [x|]; [|done]. eapply Forall_impl; [done|]. simpl. intros z ?.
  destruct Hf as [?| ->]; lia.
Qed.

Lemma receive_status snap c fl sn : status_wf c fl sn → status_wf (receiveConfig snap c) fl sn.
Proof.
  unfold receiveConfig. destruct (verifySnapshot snap) as [[problem code]|]; [|by apply status_same].
  intros Hw. assert (Hq : ∀ c', same_status c c' → status_wf c' fl sn) by (intros; by eapply status_same).
  case_match; [by apply Hq|]. eapply (status_same (queueStatus _ _)); [by split|]. apply status_queue. by apply Hq.
Qed.

Lemma finish_status snap err saved s : status_wf (cfg s) (flushing s) (sent s) →
  let s' := finish snap err saved s in status_wf (cfg s') (flushing s') (sent s').
Proof.
  intros Hs. unfold finish, finishConfig. destruct err; simpl; apply status_queue; by eapply status_same; [|exact Hs].
Qed.

Lemma status_step s s' : cstep s s' → status_wf (cfg s) (flushing s) (sent s) →
  status_wf (cfg s') (flushing s') (sent s').
Proof.
  destruct 1 as [s x|s snap|s c snap err saved Ht Ha|s snap Hp|s ok|s|s c Ha Hc|s c snap Ha Hc
    |s snap err saved Ha|s st Hf Hs|s st ok Hf|s f]; intros Hw; simpl;
    try done; try (by apply (status_same (cfg s)); [split|]).
  - by apply receive_status.
  - apply finish_status. simpl. unfold TakeConfig in Ht. destruct (pendingConfig _); simplify_eq.
    by eapply status_same; [|exact Hw].
  - unfold applyPendingConfig in Hc. repeat case_match; simplify_eq.
    all: apply status_queue; by eapply status_same; [|exact Hw].
  - unfold applyPendingConfig in Hc. repeat case_match; simplify_eq.
    all: by eapply status_same; [|exact Hw].
  - by apply finish_status.
  - rewrite Hf in Hw. by eapply status_flush.
  - rewrite Hf in Hw. destruct ok; [by apply status_sent|by eapply status_unsent].
  - assert (∀ c, pendingStatus c = None → nextStatus c = 0 → status_wf c None []) as Hnew.
    { intros c E1 E2. split; rewrite ?E1, ?E2; simpl; done || constructor. }
    unfold r, loadConfig. repeat case_match; simplify_eq; by apply Hnew.
Qed.

Lemma receive_pending snap c x : pendingConfig (receiveConfig snap c) = Some x →
  pendingConfig c = Some x ∨ x = snap ∧ verified snap.
Proof.
  unfold receiveConfig, verified. destruct (verifySnapshot snap) as [[problem code]|] eqn:E.
  - intros Hx. left. by case_match.
  - intros [= <-]. by right.
Qed.

Lemma receive_fields snap c : persistedConfig (receiveConfig snap c) = persistedConfig c ∧
  appliedConfig (receiveConfig snap c) = appliedConfig c.
Proof. unfold receiveConfig. by repeat case_match. Qed.

Lemma verified_spec s : verified s ↔
  ConfigRevision s ≠ 0 ∧ acceptsFormat (Format s) = true ∧ HashMatches s = true.
Proof.
  unfold verified, verifySnapshot. destruct (Z.eqb_spec (ConfigRevision s) 0); simpl; [split; [done|tauto]|].
  destruct (acceptsFormat _), (HashMatches s); simpl; tauto || naive_solver.
Qed.

Lemma finish_wf snap err saved s : config_wf s → verified snap → config_wf (finish snap err saved s).
Proof.
  intros [] Hv. unfold finish, finishConfig. destruct err; split; simpl; try done.
  - by intros x [= <-].
  - apply Forall_app. split; [done|]. by repeat constructor.
  - by rewrite last_snoc.
Qed.

Lemma take_wf s c snap : config_wf s → TakeConfig (cfg s) = Some (c, snap) → applying s = None →
  verified snap ∧ config_wf (mkConfigSys c (current_session s) (file s) None (flushing s)
    (offered s ++ [snap]) (ran s) (sent s)).
Proof.
  unfold TakeConfig. intros [] Ht Ha. destruct (pendingConfig (cfg s)) as [x|] eqn:E; simplify_eq.
  specialize (cw_pending0 _ eq_refl). split; [done|]. split; simpl; try done.
  apply Forall_app. split; [done|]. by repeat constructor.
Qed.

Lemma apply_turn_wf s c snap : config_wf s → applyPendingConfig (cfg s) = ApplyThis c snap →
  verified snap ∧ config_wf (mkConfigSys c (current_session s) (file s) (Some snap) (flushing s)
    (offered s ++ [snap]) (ran s) (sent s)).
Proof.
  unfold applyPendingConfig. intros [] Hc. destruct (pendingConfig (cfg s)) as [x|] eqn:E; [|done].
  specialize (cw_pending0 _ eq_refl). destruct (negb (active (cfg s))); [done|]. case_match; simplify_eq.
  split; [done|]. split; simpl; try done; [by intros y [= <-]|].
  apply Forall_app. split; [done|]. by repeat constructor.
Qed.

Lemma config_step s s' : cstep s s' → config_wf s → config_wf s'.
Proof.
  destruct 1 as [s x|s snap|s c snap err saved Ht Ha|s snap Hp|s ok|s|s c Ha Hc|s c snap Ha Hc
    |s snap err saved Ha|s st Hf Hs|s st ok Hf|s f]; intros Hw.
  - destruct Hw. by split.
  - destruct Hw. destruct (receive_fields snap (cfg s)) as [E1 E2].
    split; simpl; rewrite ?E1, ?E2; try done.
    intros x [?|[-> ?]]%receive_pending; [by apply cw_pending0|done].
  - destruct (take_wf s c snap Hw Ht Ha). by apply finish_wf.
  - destruct Hw. split; simpl; try done; [apply Forall_app; split; [done|]; repeat constructor; by apply cw_persisted0..|].
    by rewrite last_snoc.
  - destruct Hw. by split.
  - destruct Hw. by split.
  - unfold applyPendingConfig in Hc. destruct (pendingConfig (cfg s)) as [x|]; [|done].
    destruct (negb _); [done|]. destruct Hw. case_match; simplify_eq. by split.
  - by destruct (apply_turn_wf s c snap Hw Hc).
  - apply finish_wf; [done|]. by apply (cw_applying s Hw).
  - destruct Hw. by split.
  - destruct Hw. destruct ok; [|by split]. unfold flushSent. by repeat case_match; split.
  - split; simpl; try done; try constructor; unfold r, loadConfig, LoadConfig.
    + intros x. by repeat case_match; simplify_eq.
    + intros x. destruct f as [y|]; [|done]. destruct (_ || _) eqn:E; [done|].
      destruct (acceptsFormat (Format y)) eqn:Ef; [|done]. simpl. intros [= <-].
      apply verified_spec. apply orb_false_elim in E as [E1%Z.eqb_neq E2%negb_false_iff]. done.
    + by repeat case_match; simplify_eq.
Qed.

Lemma config_invariant s : config_reachable s → config_wf s ∧ status_wf (cfg s) (flushing s) (sent s).
Proof.
  intros Hr. unfold config_reachable in Hr.
  assert (config_wf config_initial ∧ status_wf (cfg config_initial) (flushing config_initial) (sent config_initial)) as H0'.
  { split; split; simpl; done || constructor. }
  revert H0'. induction Hr as [|x y z Hs Hr IH]; [done|]. intros [H1 H2]. apply IH.
  split; [by eapply config_step|by eapply status_step].
Qed.

(** The node is only ever given a snapshot with a revision, a format this
    Agent applies and the hash of its exact bytes -- from the stream, at
    startup or from the file -- and the revision Hello reports is the one of
    the last snapshot the node applied. *)
Theorem config_verified_before_applied s : config_reachable s →
  Forall verified (offered s) ∧ Forall verified (ran s) ∧
  (∀ x, appliedConfig (cfg s) = Some x → verified x) ∧
  helloConfigRevision (cfg s) = match last (ran s) with Some x => ConfigRevision x | None => 0 end.
Proof.
  intros Hr. destruct (config_invariant s Hr) as [[] _]. split_and!; [done..| |].
  - intros x Hx. rewrite cw_applied0 in Hx. apply last_Some in Hx as [l Hl].
    rewrite Hl in cw_ran0. apply Forall_app in cw_ran0 as [_ Hv]. by rewrite Forall_singleton in Hv.
  - unfold helloConfigRevision. by rewrite cw_applied0.
Qed.

(** Statuses reach Control in the order they were queued, each at most
    once, and the newest one is never lost: until it has been sent it is the
    pending one, whatever sends failed and whichever sessions ended. *)
Theorem config_status_delivery s : config_reachable s →
  StronglySorted Z.lt (sent s).*1 ∧
  (0 < nextStatus (cfg s) →
     (∃ st, pendingStatus (cfg s) = Some (nextStatus (cfg s) - 1, st)) ∨
     (∃ st, last (sent s) = Some (nextStatus (cfg s) - 1, st))).
Proof.
  intros Hr. destruct (config_invariant s Hr) as [_ []]. split; [done|]. intros Hn.
  destruct (pendingStatus (cfg s)) as [[i st]|] eqn:E; [left|right; by auto].
  exists st. specialize (sw_pending0 _ eq_refl). simpl in *. f_equal. f_equal. lia.
Qed.

End Config.
Unset Default Proof Using.

(** ** Alive list (alive.v1) *)

Record AliveEntry := mkEntry {
  UserId : Z;
  AliveCount : Z
}.

Record AliveList := mkAliveList {
  Revision : Z;
  Entries : list AliveEntry;
  AliveLastPage : bool
}.

Definition maxAliveEntries : Z := 10000000.

(** [aliveState]; [pages] is [None] for the nil map. *)
Record aliveState := mkAlive {
  pages : option (gmap Z Z);
  pagesSession : string;
  pagesRevision : Z;
  pagesOverflow : bool;
  list_ : gmap Z Z;
  hasList : bool;
  revision : Z;
  pending : bool;
  lists : Z
}.

Definition newAliveState : aliveState := mkAlive None "" 0 false ∅ false 0 false 0.

(** The loop over a page's entries: the pages so far and the overflow mark. *)
Fixpoint addEntries (es : list AliveEntry) (m : gmap Z Z) (overflow : bool) : gmap Z Z * bool :=
  match es with
  | [] => (m, overflow)
  | e :: rest =>
      if (UserId e =? 0) || (AliveCount e =? 0) then addEntries rest m overflow
      else if maxAliveEntries <=? Z.of_nat (size m) then (m, true)
      else addEntries rest (<[UserId e := AliveCount e]> m) overflow
  end.

(** The buffer a page of [rev] on [sessionID] adds to: a new one unless it
    continues the list being received. *)
Definition buffer (sessionID : string) (rev : Z) (a : aliveState) : gmap Z Z * bool :=
  match pages a with
  | Some m =>
      if negb (String.eqb (pagesSession a) sessionID) || negb (pagesRevision a =? rev) then (∅, false)
      else (m, pagesOverflow a)
  | None => (∅, false)
  end.

Definition receiveAlive (sessionID : string) (page : AliveList) (a : aliveState) : aliveState :=
  let '(m, overflow) := buffer sessionID (Revision page) a in
  let '(m, overflow) := addEntries (Entries page) m overflow in
  if negb (AliveLastPage page) then
    mkAlive (Some m) sessionID (Revision page) overflow (list_ a) (hasList a) (revision a) (pending a) (lists a)
  else if overflow then
    mkAlive None "" 0 false (list_ a) (hasList a) (revision a) (pending a) (lists a)
  else
    mkAlive None "" 0 false m true (Revision page) true (lists a + 1).

Definition dropAlivePagesLocked (sessionID : string) (a : aliveState) : aliveState :=
  if String.eqb (pagesSession a) sessionID then
    mkAlive None "" 0 false (list_ a) (hasList a) (revision a) (pending a) (lists a)
  else a.

Definition AliveListOf (a : aliveState) : option (gmap Z Z) := if hasList a then Some (list_ a) else None.

(** [applyPendingAlive]: the list to hand to the applier, if a new one came. *)
Definition applyPendingAlive (a : aliveState) : aliveState * option (gmap Z Z) :=
  if negb (pending a) then (a, None)
  else (mkAlive (pages a) (pagesSession a) (pagesRevision a) (pagesOverflow a) (list_ a) (hasList a)
          (revision a) false (lists a), Some (list_ a)).

(** Every entry of a list that counts. *)
Definition counted (es : list AliveEntry) : list AliveEntry :=
  filter (λ e, UserId e ≠ 0 ∧ AliveCount e ≠ 0) es.

Definition aliveMap (es : list AliveEntry) : gmap Z Z :=
  fold_left (λ m e, <[UserId e := AliveCount e]> m) (counted es) ∅.

Lemma size_insert_le (m : gmap Z Z) i x : (size (<[i := x]> m) ≤ S (size m))%nat.
Proof. rewrite map_size_insert. destruct (m !! i); simpl; lia. Qed.

Lemma addEntries_spec es : ∀ m, Z.of_nat (size m) + Z.of_nat (length (counted es)) ≤ maxAliveEntries →
  addEntries es m false = (fold_left (λ m e, <[UserId e := AliveCount e]> m) (counted es) m, false).
Proof.
  unfold counted. induction es as [|e es IH]; intros m; [done|]. rewrite filter_cons. simpl. intros Hle.
  destruct (decide (UserId e ≠ 0 ∧ AliveCount e ≠ 0)) as [[H1 H2]|Hn].
  - rewrite (proj2 (Z.eqb_neq _ _) H1), (proj2 (Z.eqb_neq _ _) H2). simpl in *.
    destruct (Z.leb_spec maxAliveEntries (Z.of_nat (size m))); [lia|]. apply IH.
    pose proof (size_insert_le m (UserId e) (AliveCount e)). lia.
  - destruct (Z.eqb_spec (UserId e) 0), (Z.eqb_spec (AliveCount e) 0); simpl; try (by apply IH). tauto.
Qed.

Lemma addEntries_size es : ∀ m o, Z.of_nat (size m) ≤ maxAliveEntries →
  Z.of_nat (size (addEntries es m o).1) ≤ maxAliveEntries.
Proof.
  induction es as [|e es IH]; intros m o Hm; simpl; [done|]. destruct (_ || _); [by apply IH|].
  destruct (Z.leb_spec maxAliveEntries (Z.of_nat (size m))); [done|]. apply IH.
  pose proof (size_insert_le m (UserId e) (AliveCount e)). lia.
Qed.

(** Receiving pages in order on one session. *)
Definition receiveAll (id : string) (ps : list AliveList) (a : aliveState) : aliveState :=
  fold_left (λ a p, receiveAlive id p a) ps a.

(** The fields that describe the complete list. *)
Definition sameList (a b : aliveState) : Prop :=
  list_ b = list_ a ∧ hasList b = hasList a ∧ revision b = revision a ∧ pending b = pending a ∧ lists b = lists a.

Lemma sameList_trans a b c : sameList a b → sameList b c → sameList a c.
Proof. unfold sameList. naive_solver congruence. Qed.

Definition putAll (es : list AliveEntry) (m : gmap Z Z) : gmap Z Z :=
  fold_left (λ m e, <[UserId e := AliveCount e]> m) (counted es) m.

Lemma counted_app a b : counted (a ++ b) = counted a ++ counted b.
Proof. apply filter_app. Qed.

Lemma putAll_app a b m : putAll (a ++ b) m = putAll b (putAll a m).
Proof. unfold putAll. by rewrite counted_app, fold_left_app. Qed.

Lemma putAll_size es m : (size (putAll es m) ≤ size m + length (counted es))%nat.
Proof.
  unfold putAll. revert m. induction (counted es) as [|e l IH]; intros m; simpl; [lia|].
  etrans; [apply IH|]. pose proof (size_insert_le m (UserId e) (AliveCount e)). lia.
Qed.

(** A page that is not the last one only grows the buffer. *)
Lemma receive_page id p a m : AliveLastPage p = false → buffer id (Revision p) a = (m, false) →
  Z.of_nat (size m) + Z.of_nat (length (counted (Entries p))) ≤ maxAliveEntries →
  buffer id (Revision p) (receiveAlive id p a) = (putAll (Entries p) m, false) ∧ sameList a (receiveAlive id p a).
Proof.
  intros Hl Hb Hsz. unfold receiveAlive. rewrite Hb, addEntries_spec, Hl by done. simpl.
  unfold buffer. simpl. by rewrite String.eqb_refl, Z.eqb_refl.
Qed.

(** The inner pages of one list collect its entries. *)
Lemma receive_inner id r ps : ∀ a m,
  Forall (λ p, Revision p = r ∧ AliveLastPage p = false) ps → buffer id r a = (m, false) →
  Z.of_nat (size m) + Z.of_nat (length (counted (ps ≫= Entries))) ≤ maxAliveEntries →
  buffer id r (receiveAll id ps a) = (putAll (ps ≫= Entries) m, false) ∧ sameList a (receiveAll id ps a).
Proof.
  induction ps as [|p ps IH]; intros a m Hps Hb Hsz; [by simpl|].
  apply Forall_cons in Hps as [[<- Hl] Hps].
  rewrite bind_cons in *. rewrite counted_app, length_app in Hsz. cbn [receiveAll fold_left].
  destruct (receive_page id p a m Hl Hb ltac:(lia)) as [Hb' Hs'].
  pose proof (putAll_size (Entries p) m).
  destruct (IH _ _ Hps Hb' ltac:(lia)) as [Hb'' Hs'']. rewrite putAll_app.
  split; [done|]. by eapply sameList_trans.
Qed.

(** An alive list replaces the previous one as a whole: while its pages
    arrive the list in force stays, and so it does when the session ends in
    between; with the last page of a list within the bound, the new list is
    exactly the entries of its pages with a user and a device, the last one of
    a user counting. *)
Theorem alive_list_atomic id r ps q a :
  Forall (λ p, Revision p = r ∧ AliveLastPage p = false) ps →
  Revision q = r → AliveLastPage q = true →
  (pages a = None ∨ pagesSession a ≠ id ∨ pagesRevision a ≠ r) →
  let entries := (ps ≫= Entries) ++ Entries q in
  Z.of_nat (length (counted entries)) ≤ maxAliveEntries →
  let before := receiveAll id ps a in
  let after := receiveAlive id q before in
  sameList a before ∧ sameList a (dropAlivePagesLocked id before) ∧
  AliveListOf after = Some (aliveMap entries) ∧ revision after = r ∧ pages after = None ∧
  (applyPendingAlive after).2 = Some (aliveMap entries).
Proof.
  intros Hps Hr Hl Hfresh entries Hsz. cbv zeta.
  assert (buffer id r a = (∅, false)) as Hb.
  { unfold buffer. destruct Hfresh as [->|[Hne|Hne]]; [done|..].
    - apply String.eqb_neq in Hne. rewrite Hne. by destruct (pages a).
    - apply Z.eqb_neq in Hne. rewrite Hne, orb_true_r. by destruct (pages a). }
  assert (length (counted entries) = (length (counted (ps ≫= Entries)) + length (counted (Entries q)))%nat) as Hlen.
  { unfold entries. by rewrite counted_app, length_app. }
  destruct (receive_inner id r ps a ∅ Hps Hb) as [Hb' Hs']; [rewrite map_size_empty; lia|].
  pose proof (putAll_size (ps ≫= Entries) ∅) as Hpz. rewrite map_size_empty in Hpz.
  set (b := receiveAll id ps a) in *. clearbody b.
  assert (receiveAlive id q b = mkAlive None "" 0 false (aliveMap entries) true r true (lists b + 1)) as ->.
  { unfold receiveAlive. rewrite Hr, Hb', addEntries_spec, Hl by lia. simpl. f_equal.
    unfold aliveMap, entries. change (fold_left _ (counted ?e) ∅) with (putAll e ∅). by rewrite putAll_app. }
  split_and!; try done. unfold dropAlivePagesLocked. by case_match.
Qed.

(** The buffer of an alive list never exceeds its bound. *)
Lemma alive_buffer_bounded id p a : (∀ m, pages a = Some m → Z.of_nat (size m) ≤ maxAliveEntries) →
  ∀ m, pages (receiveAlive id p a) = Some m → Z.of_nat (size m) ≤ maxAliveEntries.
Proof.
  intros Ha m. unfold receiveAlive. destruct (buffer id (Revision p) a) as [m0 o0] eqn:Eb.
  assert (Z.of_nat (size m0) ≤ maxAliveEntries) as Hm0.
  { unfold buffer in Eb. repeat case_match; simplify_eq; rewrite ?map_size_empty; try done. by apply Ha. }
  pose proof (addEntries_size (Entries p) m0 o0 Hm0). destruct (addEntries _ _ _) as [m1 o1].
  repeat case_match; simpl; by intros [= <-].
Qed.

(** ** Witnesses *)

(** A session that carried users ended; nine seconds later it is pending. *)
Lemma mode_witness :
  let es := [Ended "s1" (100 * second); Started "s1" ["users"; "config"]] in
  modeLocked DefaultPendingGrace (109 * second) (foldr (λ e d, streamStep d e) (mkSessions noSession ∅) es) "users"
    = DataPlanePending.
Proof.
  apply (mode_follows_sessions [Ended "s1" (100 * second); Started "s1" ["users"; "config"]]
           DefaultPendingGrace (109 * second) "users").
  - repeat constructor; discriminate.
  - unfold min_int64, max_int64, DefaultPendingGrace, minute, second. lia.
Defined.

Definition wCodes : ConfigSDK := {|
  ConfigErrorCodeInvalid := "config_invalid";
  ConfigErrorCodeApplyFailed := "config_apply_failed";
  ConfigErrorCodeFormatUnsupported := "config_format_unsupported";
  ConfigErrorCodeHashMismatch := "config_hash_mismatch";
  ConfigFormatNodeConfigV2 := "anixops.nodeconfig/v2"
|}.

(** The "hash" of a document is the document; two snapshots, the first of
    which does not verify. *)
Definition wHash (s : string) : string := s.
Definition wBad : ConfigSnapshot := mkSnapshot 1 "y" ConfigFormatNodeConfigV1 "x".
Definition wGood : ConfigSnapshot := mkSnapshot 2 "x" ConfigFormatNodeConfigV1 "x".

Definition wRun : ConfigSys :=
  let s := set_cfg config_initial (Activate (cfg config_initial)) in
  let s := set_cfg s (receiveConfig (H0 := wCodes) wHash wHash false wBad (cfg s)) in
  let s := set_cfg s (receiveConfig (H0 := wCodes) wHash wHash false wGood (cfg s)) in
  match applyPendingConfig (cfg s) with
  | ApplyThis c snap =>
      finish (H0 := wCodes) snap None true
        (mkConfigSys c (current_session s) (file s) (Some snap) None (offered s ++ [snap]) (ran s) (sent s))
  | _ => s
  end.

Lemma wRun_reachable :
  config_reachable (H := wSDK) (H0 := wCodes) wHash wHash false wRun.
Proof.
  eapply rtc_l; [apply c_activate|]. eapply rtc_l; [apply (c_receive _ _ _ _ wBad)|].
  eapply rtc_l; [apply (c_receive _ _ _ _ wGood)|].
  eapply rtc_l; [eapply c_apply; [done|by vm_compute]|].
  eapply rtc_l; [eapply (c_applied _ _ _ _ wGood None true); done|]. apply rtc_refl.
Qed.

Lemma config_verified_witness :
  ran wRun = [wGood] ∧ Forall (verified (H0 := wCodes) wHash wHash false) (offered wRun).
Proof.
  split; [by vm_compute|].
  apply (config_verified_before_applied (H := wSDK) (H0 := wCodes) wHash wHash false wRun wRun_reachable).
Defined.

Lemma config_status_witness :
  nextStatus (cfg wRun) = 2 ∧ sent wRun = [] ∧ ∃ st, pendingStatus (cfg wRun) = Some (1, st).
Proof.
  split_and!; [by vm_compute..|].
  destruct (config_status_delivery (H := wSDK) (H0 := wCodes) wHash wHash false wRun wRun_reachable) as [_ Hn].
  destruct (Hn ltac:(by vm_compute)) as [Hp|[st Hst]]; [exact Hp|]. vm_compute in Hst. discriminate Hst.
Defined.

Lemma alive_witness :
  let a := receiveAlive "s" (mkAliveList 3 [mkEntry 8 1; mkEntry 9 0] true)
             (receiveAll "s" [mkAliveList 3 [mkEntry 7 2] false] newAliveState) in
  AliveListOf a = Some (aliveMap [mkEntry 7 2; mkEntry 8 1; mkEntry 9 0]).
Proof.
  apply (alive_list_atomic "s" 3 [mkAliveList 3 [mkEntry 7 2] false] (mkAliveList 3 [mkEntry 8 1; mkEntry 9 0] true)
           newAliveState); [by repeat constructor|done|done|by left|].
  by vm_compute.
Defined.

End DataPlane.
