(* ===== verification/Reports.v ===== *)
(** * Reports on the control stream (src/api/agent/dataplane_reports.go)

    Traffic, log and destination batches wait in their spools until Control
    answers them; the report loop sends them in order, keeps a bounded number
    in flight and resends.  What the loop needs of a spool is the interface
    [BatchStore]; the spool of Spool.v is an instance, whatever system calls
    fail. *)

From S2P Require Import Prelude GoStrings Wire Negotiation DataPlane Spool.
Import Negotiation DataPlane.

Module Reports.

(** ** What the report loop needs of a spool *)

Class BatchStore (Q : Type) := {
  held : Q → list string;                                  (* batch ids, oldest first *)
  store_ok : Q → Prop;
  store_pending : time → Q → Q * list string;
  store_read : string → Q → result (option AgentToControl);
  store_remove : string → Q → Q * bool;
  store_append : time → AgentToControl → Q → Q * result unit;
  store_count : Q → Z;
  store_room : Q → Z                   (* appends before the sequence would wrap *)
}.

Class BatchStoreLaws (Q : Type) `{BatchStore Q} := {
  pending_ok : ∀ now q, store_ok q → store_ok (store_pending now q).1;
  (* [Pending] lists what is left after expiry *)
  pending_lists : ∀ now q, store_ok q →
    (store_pending now q).2 = held (store_pending now q).1 ∧
    held (store_pending now q).1 `sublist_of` held q;
  remove_ok : ∀ id q, store_ok q → store_ok (store_remove id q).1;
  (* [Remove] takes out that batch and says whether it was there *)
  remove_held : ∀ id q, store_ok q →
    (store_remove id q).2 = bool_decide (id ∈ held q) ∧
    held (store_remove id q).1 = filter (λ x, x ≠ id) (held q);
  held_once : ∀ q, store_ok q → NoDup (held q);
  (* [Append] adds that batch or nothing, and has it when it succeeds *)
  append_ok : ∀ now m q, store_ok q → 0 < store_room q →
    store_ok (store_append now m q).1 ∧ store_room q - 1 ≤ store_room (store_append now m q).1;
  append_held : ∀ now m q, store_ok q →
    (∀ x, x ∈ held (store_append now m q).1 → x ∈ held q ∨ x = Spool.batchID m) ∧
    ((store_append now m q).2 = Ok tt → Spool.batchID m ∈ held (store_append now m q).1);
  pending_room : ∀ now q, store_ok q → store_room (store_pending now q).1 = store_room q;
  remove_room : ∀ id q, store_room (store_remove id q).1 = store_room q
}.

(** *** The spool is a batch store *)

Section SpoolStore.
Context `{Proto} (os : Spool.OS).

#[export] Instance spool_store : BatchStore Spool.Spool := {|
  held := λ s, Spool.BatchID <$> Spool.entries s;
  store_ok := λ s, Spool.wf s ∧ 0 < Spool.MaxEntries (Spool.limits s);
  store_pending := λ now s,
    let '(s, es) := Spool.Pending os now s in (s, Spool.BatchID <$> es);
  store_read := λ id s, Spool.Read os id s;
  store_remove := λ id s, Spool.Remove os id s;
  store_append := λ now m s, Spool.Append os now m s;
  store_count := λ s, (Spool.Stats s).1.1;
  store_room := λ s, 2 ^ 64 - 1 - Spool.nextSeq s
|}.

Lemma filter_all_ne (l : list string) x : x ∉ l → filter (λ y, y ≠ x) l = l.
Proof.
  induction l as [|y l IH]; [done|]. intros [Hne Hn]%not_elem_of_cons.
  rewrite filter_cons, decide_True by done. f_equal. by apply IH.
Qed.

Lemma spool_append_held now m q : Spool.wf q → 0 < Spool.MaxEntries (Spool.limits q) →
  (∀ x, x ∈ Spool.BatchID <$> Spool.entries (Spool.Append os now m q).1 →
     x ∈ Spool.BatchID <$> Spool.entries q ∨ x = Spool.batchID m) ∧
  ((Spool.Append os now m q).2 = Ok tt →
     Spool.batchID m ∈ Spool.BatchID <$> Spool.entries (Spool.Append os now m q).1).
Proof.
  intros Hq Hme. destruct (Spool.Append os now m q) as [s' r] eqn:E.
  destruct (Spool.Append_inv _ _ _ _ _ _ E) as [[-> Hr]|[[-> Hin]|(content & Hid & Hm & Hsz & Hb)]]; simpl.
  - split; [by left|]. destruct r; [by destruct Hr|done].
  - split; [by left|]. intros _. destruct Hin as [_ [e He]]. rewrite (Spool.wf_index q Hq) in He.
    apply Spool.lookup_index_of_Some in He as [He <-]. apply list_elem_of_fmap. by exists e.
  - pose proof (Spool.trimmed_spec os now (len content) q Hq Hsz Hme) as (k & Hw & Et & _).
    assert (∀ x, x ∈ Spool.BatchID <$> Spool.entries (Spool.trimmed os now (len content) q) →
      x ∈ Spool.BatchID <$> Spool.entries q) as Hsub.
    { intros x. rewrite Et. intros (e & -> & He)%list_elem_of_fmap.
      pose proof (elem_of_sublist _ _ e He (sublist_drop _ _)) as [_ Hin]%list_elem_of_filter.
      apply list_elem_of_fmap. by exists e. }
    rewrite (Spool.Append_writes os now m q content) in E by done. cbv zeta in E.
    destruct (Spool.write_ok _ _); simplify_eq; simpl; [|split; [by left; apply Hsub|done]].
    rewrite fmap_app. split; [|intros _; apply elem_of_app; right; by apply list_elem_of_singleton].
    intros x [Hx|Hx%list_elem_of_singleton]%elem_of_app; [left; by apply Hsub|by right].
Qed.

#[export] Instance spool_store_laws : BatchStoreLaws Spool.Spool.
Proof.
  split; simpl.
  - intros now q [Hq Hme]. pose proof (Spool.expireLocked_spec os now q Hq) as (_ & _ & _ & El & _).
    split; [by apply Spool.expireLocked_wf|]. by rewrite El.
  - intros now q [Hq _]. split; [done|]. pose proof (Spool.expireLocked_spec os now q Hq) as (E & _).
    rewrite E. auto with agent.
  - intros id q [Hq Hme]. unfold Spool.Remove. destruct (Spool.byBatch q !! id) as [e|] eqn:Eb; [|done].
    split; [|done]. apply Spool.removeLocked_wf; [done|]. rewrite (Spool.wf_index q Hq) in Eb.
    by apply Spool.lookup_index_of_Some in Eb as [? _].
  - intros id q [Hq _]. unfold Spool.Remove. destruct (Spool.byBatch q !! id) as [e|] eqn:Eb.
    + rewrite (Spool.wf_index q Hq) in Eb. apply Spool.lookup_index_of_Some in Eb as [Hin <-].
      split; [rewrite bool_decide_true; [done|]; apply list_elem_of_fmap; eauto|].
      destruct (Spool.wf_entry_split q e Hq Hin) as (a & b & E & Hna).
      simpl. rewrite E, Spool.remove_first_split by done.
      pose proof (Spool.wf_ids q Hq) as Hnd. rewrite E, fmap_app, fmap_cons in Hnd.
      apply NoDup_app in Hnd as (_ & Hd & Hnd). apply NoDup_cons in Hnd as [Hnb _].
      rewrite !fmap_app, fmap_cons, filter_app, filter_cons, decide_False by (intros HX; by apply HX).
      rewrite !filter_all_ne; [done|done|].
      intros Ha. apply (Hd _ Ha), list_elem_of_here.
    + rewrite (Spool.wf_index q Hq) in Eb. apply Spool.lookup_index_of_None in Eb.
      split; [by rewrite bool_decide_false|]. by rewrite filter_all_ne.
  - intros q [Hq _]. apply (Spool.wf_ids q Hq).
  - intros now m q [Hq Hme] Hroom. destruct (Spool.Append_static os now m q Hq Hme) as [El Hn].
    specialize (Hn ltac:(lia)). split; [|lia]. split; [by apply Spool.Append_wf; [..|lia]|by rewrite El].
  - intros now m q [Hq Hme]. by apply spool_append_held.
  - intros now q [Hq _]. pose proof (Spool.expireLocked_spec os now q Hq) as (_ & _ & _ & _ & En & _). by rewrite En.
  - intros id q. unfold Spool.Remove. by destruct (Spool.byBatch q !! id).
Qed.

End SpoolStore.

(** ** The report loop *)

Definition reportAckTimeout : duration := 30 * second.
Definition reportWindow : Z := 16.
Definition DefaultStatusInterval : duration := minute.
Definition DefaultPackageReportInterval : duration := 5 * minute.
Definition DefaultTrafficSpoolBytes : Z := 67108864.
Definition DefaultLogsSpoolBytes : Z := 16777216.
Definition DefaultDestinationsSpoolBytes : Z := 16777216.
Definition DefaultSpoolMaxAge : duration := 72 * hour.

(** [agentv1pb.ReportAck]. *)
Record ReportAck := mkAck {
  AckBatchId : string;
  AckApplied : bool;
  AckError : string;
  AckErrorCode : string;
  RetryAfterMs : Z
}.

Class ReportSDK := { ReportErrorCodeUnavailable : string }.

(** [reportsState] without its spools; the zero time stands for "never". *)
Record reportsState := mkReports {
  rSession : string;
  inflight : gmap string time;
  notBefore : gmap string time;
  statusAt : time;
  statusNow : bool;
  packageAt : time;
  packageSent : gmap string Z;
  acked : Z;
  duplicates : Z;
  refused : Z;
  deferred : Z
}.

Definition newReportsState : reportsState := mkReports "" ∅ ∅ 0 false 0 ∅ 0 0 0 0.

Definition with_maps (r : reportsState) (i n : gmap string time) : reportsState :=
  mkReports (rSession r) i n (statusAt r) (statusNow r) (packageAt r) (packageSent r)
    (acked r) (duplicates r) (refused r) (deferred r).
Definition with_counts (r : reportsState) (a d f e : Z) : reportsState :=
  mkReports (rSession r) (inflight r) (notBefore r) (statusAt r) (statusNow r) (packageAt r)
    (packageSent r) a d f e.

(** The bounds [openReports] settles on. *)
Definition spoolLimits (trafficMax logsMax destMax : Z) (maxAge : duration) : Z * Z * Z * duration :=
  (if trafficMax <=? 0 then DefaultTrafficSpoolBytes else trafficMax,
   if logsMax <=? 0 then DefaultLogsSpoolBytes else logsMax,
   if destMax <=? 0 then DefaultDestinationsSpoolBytes else destMax,
   if maxAge <=? 0 then DefaultSpoolMaxAge else maxAge).

(** [nextBatchID], with the sequence after its increment. *)
Definition nextBatchID (kind : string) (nodeID : Z) (bootID prefix : string) (seq : Z) : string :=
  "node:" +:+ kind +:+ "-" +:+ format_uint nodeID +:+ ":" +:+ bootID +:+ ":" +:+ prefix +:+ format_uint seq.

(** The batches in flight that still wait for their answer. *)
Definition waiting (now : time) (m : gmap string time) : Z :=
  Z.of_nat (size (filter (λ x, sub now x.2 < reportAckTimeout) m)).

(** The start of a pass of [runReports]: a new session forgets what was in
    flight and sends status and packages at once. *)
Definition noteSession (id : string) (r : reportsState) : reportsState :=
  if String.eqb (rSession r) id then r
  else mkReports id ∅ ∅ 0 (statusNow r) 0 ∅ (acked r) (duplicates r) (refused r) (deferred r).

Section Loop.
Context `{SDK} `{ReportSDK} {Q : Type} `{BatchStore Q}.
Set Default Proof Using "Type*".

Record Spools := mkSpools {
  traffic : option Q;
  logs : option Q;
  destinations : option Q
}.

(** [Remove] on a spool that may be absent. *)
Definition removeFrom (id : string) (q : option Q) : option Q * bool :=
  match q with
  | Some q => let '(q, found) := store_remove id q in (Some q, found)
  | None => (None, false)
  end.

Definition removeBatch (id : string) (s : Spools) : Spools * bool :=
  let '(t, found) := removeFrom id (traffic s) in
  let s := mkSpools t (logs s) (destinations s) in
  if found then (s, true)
  else
    let '(l, found) := removeFrom id (logs s) in
    let s := mkSpools (traffic s) l (destinations s) in
    if found then (s, true)
    else
      let '(d, found) := removeFrom id (destinations s) in
      (mkSpools (traffic s) (logs s) d, found).

(** [receiveReportAck] of an ack that is not nil. *)
Definition receiveReportAck (now : time) (ack : ReportAck) (x : reportsState * Spools)
  : reportsState * Spools :=
  let '(r, s) := x in
  let id := AckBatchId ack in
  if String.eqb id "" then (r, s)
  else if negb (AckApplied ack) && String.eqb (AckError ack) ""
          && String.eqb (AckErrorCode ack) ReportErrorCodeUnavailable then
    let retry := i64 (i64 (RetryAfterMs ack) * millisecond) in
    let retry := if retry <=? 0 then reportAckTimeout else retry in
    (with_counts (with_maps r (delete id (inflight r)) (<[id := add now retry]> (notBefore r)))
       (acked r) (duplicates r) (refused r) (deferred r + 1), s)
  else
    let s := (removeBatch id s).1 in
    let r := with_maps r (delete id (inflight r)) (delete id (notBefore r)) in
    (if AckApplied ack then with_counts r (acked r + 1) (duplicates r) (refused r) (deferred r)
     else if String.eqb (AckError ack) "" && String.eqb (AckErrorCode ack) "" then
       with_counts r (acked r + 1) (duplicates r + 1) (refused r) (deferred r)
     else with_counts r (acked r) (duplicates r) (refused r + 1) (deferred r), s).

(** *** Replay *)

(** What a pass of [replay] works on: the maps, the spool at hand, what was
    sent, and whether the pass has returned. *)
Record pass := mkPass {
  maps : reportsState;
  target : Q;
  out : list AgentToControl;
  stopped : bool
}.

Context (now : time) (nodeID : Z) (newID : string → string).
(** Whether [sendData] of a batch succeeds. *)
Context (sendOk : string → bool).

Definition stamped (id : string) (m : AgentToControl) : AgentToControl :=
  mkAgentToControl (newID id) nodeID (unix_milli now) (payload m).

(** One turn of the loop over [target.Pending()]. *)
Definition replayEntry (p : pass) (id : string) : pass :=
  if stopped p then p
  else
    let r := maps p in
    let due := match notBefore r !! id with Some t => negb (before now t) | None => false end in
    let nb := if due then delete id (notBefore r) else notBefore r in
    let isDeferred := bool_decide (is_Some (nb !! id)) in
    let r := with_maps r (inflight r) nb in
    let recent := match inflight r !! id with Some t => sub now t <? reportAckTimeout | None => false end in
    if isDeferred || recent then mkPass r (target p) (out p) false
    else if reportWindow <=? waiting now (inflight r) then mkPass r (target p) (out p) true
    else match store_read id (target p) with
         | Err _ => mkPass r (store_remove id (target p)).1 (out p) false
         | Ok None => mkPass r (target p) (out p) false
         | Ok (Some m) =>
             if sendOk id then
               mkPass (with_maps r (<[id := now]> (inflight r)) (notBefore r)) (target p)
                 (out p ++ [stamped id m]) false
             else mkPass r (target p) (out p) true
         end.

(** One spool of [replay]; [clock] is the time the spool's expiry sees. *)
Definition replayTarget (clock : time) (session : DataPlaneSession) (capability : string)
    (q : option Q) (r : reportsState) (o : list AgentToControl) (stop : bool)
  : option Q * reportsState * list AgentToControl * bool :=
  match q with
  | Some q =>
      if stop || negb (Has session capability) then (Some q, r, o, stop)
      else
        let '(q, ids) := store_pending clock q in
        let p := fold_left replayEntry ids (mkPass r q o false) in
        (Some (target p), maps p, p.(out), stopped p)
  | None => (None, r, o, stop)
  end.

Definition replay (clock : time) (session : DataPlaneSession) (x : reportsState * Spools)
  : reportsState * Spools * list AgentToControl :=
  let '(r, s) := x in
  let '(t, r, o, stop) := replayTarget clock session CapabilityReports (traffic s) r [] false in
  let '(l, r, o, stop) := replayTarget clock session CapabilityReports (logs s) r o stop in
  let '(d, r, o, _) := replayTarget clock session CapabilityDestinations (destinations s) r o stop in
  (r, mkSpools t l d, o).

(** *** Status, packages and wake-ups *)

(** Whether [reportStatus] sends a status now, and the state it leaves. *)
Definition statusDue (interval : duration) (r : reportsState) : reportsState * bool :=
  let due := statusNow r || is_zero (statusAt r) || (interval <=? sub now (statusAt r)) in
  (if due then mkReports (rSession r) (inflight r) (notBefore r) now false (packageAt r) (packageSent r)
                 (acked r) (duplicates r) (refused r) (deferred r) else r, due).

Definition StatusChanged (r : reportsState) : reportsState :=
  mkReports (rSession r) (inflight r) (notBefore r) (statusAt r) true (packageAt r) (packageSent r)
    (acked r) (duplicates r) (refused r) (deferred r).

Record PackageReport := mkPackageReport {
  PluginId : string;
  PkgKind : string;
  PkgVersion : string;
  ObservedAtUnixMs : Z;
  PayloadJson : string
}.

(** The loop of [reportPackages]; [valid] are the SDK's checks of kind and
    payload size. *)
Fixpoint sendPackages (valid : PackageReport → bool) (send : PackageReport → bool)
    (reports : list PackageReport) (sentAt : gmap string Z) : gmap string Z * list PackageReport :=
  match reports with
  | [] => (sentAt, [])
  | p :: rest =>
      if negb (valid p) || String.eqb (PluginId p) "" || String.eqb (PkgVersion p) "" then
        sendPackages valid send rest sentAt
      else
        let key := PluginId p +:+ String Ascii.zero (PkgKind p) in
        if (default 0 (sentAt !! key) =? ObservedAtUnixMs p) && negb (ObservedAtUnixMs p =? 0) then
          sendPackages valid send rest sentAt
        else if send p then
          let '(m, l) := sendPackages valid send rest (<[key := ObservedAtUnixMs p]> sentAt) in (m, p :: l)
        else (sentAt, [])
  end.

(** [reportPackages]: [collected] is what the collector returned. *)
Definition reportPackages (interval : duration) (valid : PackageReport → bool) (send : PackageReport → bool)
    (collected : list PackageReport) (r : reportsState) : reportsState * list PackageReport :=
  let interval := if interval <=? 0 then DefaultPackageReportInterval else interval in
  if is_zero (packageAt r) || (interval <=? sub now (packageAt r)) then
    let '(m, l) := sendPackages valid send collected (packageSent r) in
    (mkReports (rSession r) (inflight r) (notBefore r) (statusAt r) (statusNow r) now m
       (acked r) (duplicates r) (refused r) (deferred r), l)
  else (r, []).

(** The closure [earliest] of [reportsWake]. *)
Definition earliest (next at_ : time) : time :=
  if negb (is_zero at_) && (is_zero next || before at_ next) then at_ else next.

(** [reportsWake]: [status] and [packages] are the intervals when they are
    configured.  The order in which the maps are walked does not matter. *)
Definition reportsWake (session : DataPlaneSession) (status packages : option duration) (r : reportsState) : time :=
  let next := 0 in
  let next :=
    if Has session CapabilityReports then
      let next := fold_left earliest ((λ t, add t reportAckTimeout) <$> (map_to_list (inflight r)).*2) next in
      let next := fold_left earliest (map_to_list (notBefore r)).*2 next in
      match status with
      | Some interval => if is_zero (statusAt r) then next else earliest next (add (statusAt r) interval)
      | None => next
      end
    else next in
  match packages with
  | Some interval =>
      if Has session CapabilityPackageReports && negb (is_zero (packageAt r)) then
        earliest next (add (packageAt r) (if interval <=? 0 then DefaultPackageReportInterval else interval))
      else next
  | None => next
  end.

(** ** Facts about one pass *)

Lemma waiting_delete (m : gmap string time) id : waiting now (delete id m) ≤ waiting now m.
Proof.
  unfold waiting. rewrite map_filter_delete. apply Nat2Z.inj_le, map_subseteq_size, delete_subseteq.
Qed.

Lemma waiting_insert t (m : gmap string time) id : waiting now (<[id := t]> m) ≤ waiting now m + 1.
Proof.
  destruct (decide (sub now t < reportAckTimeout)) as [Ht|Ht].
  - unfold waiting. rewrite map_filter_insert_True, map_size_insert by done. destruct (_ !! id); simpl; lia.
  - pose proof (waiting_delete m id). unfold waiting in *. rewrite map_filter_insert_False by done. lia.
Qed.

(** A later instant finds no more batches waiting. *)
Lemma waiting_later now' (m : gmap string time) : now ≤ now' → waiting now' m ≤ waiting now m.
Proof.
  intros Hle. unfold waiting. apply Nat2Z.inj_le, map_subseteq_size, map_filter_strong_subseteq_ext.
  intros i t [Hlt Hm]. split; [|done]. simpl in *. unfold sub, reportAckTimeout, second in *. lia.
Qed.

Lemma replayEntry_waiting p id : waiting now (inflight (maps p)) ≤ reportWindow →
  waiting now (inflight (maps (replayEntry p id))) ≤ reportWindow.
Proof.
  intros Hw. unfold replayEntry. cbv zeta. destruct (stopped p); [done|]. destruct (_ || _); [done|].
  cbn [inflight with_maps]. destruct (Z.leb_spec reportWindow (waiting now (inflight (maps p)))); [done|].
  pose proof (waiting_insert now (inflight (maps p)) id).
  repeat case_match; try done; cbn [maps inflight with_maps]; lia.
Qed.

Lemma replayEntries_waiting ids p : waiting now (inflight (maps p)) ≤ reportWindow →
  waiting now (inflight (maps (fold_left replayEntry ids p))) ≤ reportWindow.
Proof. revert p. induction ids as [|id ids IH]; intros p Hw; [done|]. apply IH. by apply replayEntry_waiting. Qed.

Lemma replayTarget_waiting clock session cap q r o stop q' r' o' stop' :
  waiting now (inflight r) ≤ reportWindow →
  replayTarget clock session cap q r o stop = (q', r', o', stop') → waiting now (inflight r') ≤ reportWindow.
Proof.
  intros Hw. unfold replayTarget. destruct q as [q|]; [|by intros; simplify_eq].
  destruct (_ || _); [by intros; simplify_eq|]. destruct (store_pending clock q) as [q1 ids].
  intros; simplify_eq. by apply replayEntries_waiting.
Qed.

Lemma replay_waiting clock session x :
  waiting now (inflight x.1) ≤ reportWindow →
  waiting now (inflight (replay clock session x).1.1) ≤ reportWindow.
Proof.
  destruct x as [r s]. intros Hw. unfold replay.
  destruct (replayTarget _ _ _ (traffic s) _ _ _) as [[[t r1] o1] st1] eqn:E1.
  destruct (replayTarget _ _ _ (logs s) _ _ _) as [[[l r2] o2] st2] eqn:E2.
  destruct (replayTarget _ _ _ (destinations s) _ _ _) as [[[d r3] o3] st3] eqn:E3. simpl.
  eapply replayTarget_waiting; [|exact E3]. eapply replayTarget_waiting; [|exact E2].
  by eapply replayTarget_waiting; [|exact E1].
Qed.

(** An entry of another batch is left alone. *)
Lemma replayEntry_other p id id' : id ≠ id' →
  inflight (maps (replayEntry p id')) !! id = inflight (maps p) !! id ∧
  notBefore (maps (replayEntry p id')) !! id = notBefore (maps p) !! id.
Proof.
  intros Hne. unfold replayEntry. cbv zeta. destruct (stopped p); [done|].
  set (nb := if _ : bool then delete id' (notBefore (maps p)) else notBefore (maps p)).
  assert (nb !! id = notBefore (maps p) !! id) as Hnb
    by (unfold nb; case_match; [by rewrite lookup_delete_ne|done]).
  clearbody nb. destruct (_ || _); [done|]. destruct (_ <=? _); [done|].
  destruct (store_read id' (target p)) as [[m|]|]; [|done..].
  destruct (sendOk id'); [|done]. simpl. by rewrite lookup_insert_ne.
Qed.

Lemma replayEntries_other ids : ∀ p id, id ∉ ids →
  inflight (maps (fold_left replayEntry ids p)) !! id = inflight (maps p) !! id.
Proof.
  induction ids as [|x ids IH]; intros p id Hn; [done|]. apply not_elem_of_cons in Hn as [Hne Hn].
  simpl. rewrite IH by done. by apply replayEntry_other.
Qed.

Context `{!BatchStoreLaws Q}.

(** An entry takes its batch out of the spool only when it cannot be read. *)
Lemma replayEntry_held p id : store_ok (target p) →
  store_ok (target (replayEntry p id)) ∧
  ∀ x, x ∈ held (target p) → x ∈ held (target (replayEntry p id)) ∨ (∃ q e, x = id ∧ store_read x q = Err e).
Proof.
  intros Hok. unfold replayEntry. cbv zeta.
  destruct (stopped p); [split; [done|by left]|]. destruct (_ || _); [split; [done|by left]|].
  destruct (_ <=? _); [split; [done|by left]|].
  destruct (store_read id (target p)) as [[m|]|e] eqn:E; simpl.
  - destruct (sendOk id); (split; [done|by left]).
  - split; [done|by left].
  - split; [by apply remove_ok|]. intros x Hx. destruct (remove_held id (target p) Hok) as [_ ->].
    destruct (decide (x = id)) as [->|Hne]; [right; by eauto|left; by apply list_elem_of_filter].
Qed.

Lemma replayEntries_held ids : ∀ p, store_ok (target p) →
  store_ok (target (fold_left replayEntry ids p)) ∧
  ∀ x, x ∈ held (target p) →
    x ∈ held (target (fold_left replayEntry ids p)) ∨ (∃ q e, store_read x q = Err e).
Proof.
  induction ids as [|id ids IH]; intros p Hok; simpl; [split; [done|by left]|].
  destruct (replayEntry_held p id Hok) as [Hok' Hh]. destruct (IH _ Hok') as [Hok'' Hh'].
  split; [done|]. intros x Hx. destruct (Hh x Hx) as [Hx'|(q & e & _ & ?)]; [by apply Hh'|right; by eauto].
Qed.

(** Batches a spool that may be absent holds. *)
Definition heldIn (q : option Q) : list string := from_option held [] q.

Definition spools_ok (s : Spools) : Prop :=
  (∀ q, traffic s = Some q → store_ok q) ∧ (∀ q, logs s = Some q → store_ok q) ∧
  (∀ q, destinations s = Some q → store_ok q).

(** What the spools hold together, and what of it is left after expiry. *)
Definition heldBy (s : Spools) : list string :=
  heldIn (traffic s) ++ heldIn (logs s) ++ heldIn (destinations s).

Lemma replayTarget_held clock session cap q r o stop q' r' o' stop' :
  (∀ x, q = Some x → store_ok x) → replayTarget clock session cap q r o stop = (q', r', o', stop') →
  (∀ x, q' = Some x → store_ok x) ∧
  ∀ id, id ∈ heldIn q → id ∈ heldIn q' ∨ (∃ x, q = Some x ∧ id ∉ held (store_pending clock x).1) ∨
    (∃ x e, store_read id x = Err e).
Proof.
  intros Hok. unfold replayTarget. destruct q as [q|]; [|intros; simplify_eq; split; [done|by left]].
  specialize (Hok q eq_refl). destruct (_ || _).
  { intros; simplify_eq. split; [by intros x [= <-]|by left]. }
  destruct (store_pending clock q) as [q1 ids] eqn:Ep. intros; simplify_eq.
  pose proof (pending_ok clock q Hok) as Hok1. rewrite Ep in Hok1.
  destruct (replayEntries_held ids (mkPass r q1 o false) Hok1) as [Hok2 Hh].
  split; [by intros x [= <-]|]. intros id Hid. simpl in *.
  destruct (decide (id ∈ held q1)) as [Hin|Hn].
  - destruct (Hh id Hin) as [?|(x & e & ?)]; [by left|right; right; by eauto].
  - right; left. exists q. by rewrite Ep.
Qed.

Lemma removeFrom_held id q : (∀ x, q = Some x → store_ok x) →
  (∀ x, (removeFrom id q).1 = Some x → store_ok x) ∧
  (removeFrom id q).2 = bool_decide (id ∈ heldIn q) ∧
  heldIn (removeFrom id q).1 = filter (λ x, x ≠ id) (heldIn q).
Proof.
  intros Hok. unfold removeFrom. destruct q as [q|]; simpl; [|done]. specialize (Hok q eq_refl).
  pose proof (remove_ok id q Hok) as Hro. pose proof (remove_held id q Hok) as [Hf Hh].
  destruct (store_remove id q) as [q' f]. simpl in *. split; [by intros x [= <-]|done].
Qed.

Lemma removeBatch_held id s : spools_ok s → spools_ok (removeBatch id s).1 ∧
  ∀ x, x ≠ id → (x ∈ heldBy (removeBatch id s).1 ↔ x ∈ heldBy s).
Proof.
  clear newID sendOk. intros (Ht & Hl & Hd). unfold removeBatch.
  destruct (removeFrom_held id (traffic s) Ht) as (At & _ & Et).
  destruct (removeFrom_held id (logs s) Hl) as (Al & _ & El).
  destruct (removeFrom_held id (destinations s) Hd) as (Ad & _ & Ed).
  destruct (removeFrom id (traffic s)) as [t ft]. destruct (removeFrom id (logs s)) as [l fl] eqn:Efl.
  destruct (removeFrom id (destinations s)) as [d fd] eqn:Efd. simpl in *.
  unfold heldBy. destruct ft; simpl.
  - split; [done|]. intros x Hx. rewrite Et, !elem_of_app, list_elem_of_filter. tauto.
  - rewrite Efl. destruct fl; simpl.
    + split; [done|]. intros x Hx. rewrite Et, El, !elem_of_app, !list_elem_of_filter. tauto.
    + rewrite Efd. simpl. split; [done|]. intros x Hx.
      rewrite Et, El, Ed, !elem_of_app, !list_elem_of_filter. tauto.
Qed.

(** With every batch id in one spool only, the removed one is gone. *)
Lemma removeBatch_gone id s : spools_ok s → NoDup (heldBy s) → id ∉ heldBy (removeBatch id s).1.
Proof.
  clear newID sendOk. intros (Ht & Hl & Hd) Hnd. unfold removeBatch.
  destruct (removeFrom_held id (traffic s) Ht) as (_ & Ft & Et).
  destruct (removeFrom_held id (logs s) Hl) as (_ & Fl & El).
  destruct (removeFrom_held id (destinations s) Hd) as (_ & Fd & Ed).
  destruct (removeFrom id (traffic s)) as [t ft]. destruct (removeFrom id (logs s)) as [l fl] eqn:Efl.
  destruct (removeFrom id (destinations s)) as [d fd] eqn:Efd. simpl in *.
  unfold heldBy in *. apply NoDup_app in Hnd as (_ & H1' & Hnd). apply NoDup_app in Hnd as (_ & H2' & _).
  setoid_rewrite elem_of_app in H1'.
  destruct ft; simpl.
  - symmetry in Ft. apply bool_decide_eq_true in Ft. specialize (H1' id Ft).
    rewrite Et, !elem_of_app, list_elem_of_filter. tauto.
  - rewrite Efl. destruct fl; simpl.
    + symmetry in Fl. apply bool_decide_eq_true in Fl. specialize (H2' id Fl).
      rewrite Et, El, !elem_of_app, !list_elem_of_filter. tauto.
    + rewrite Efd. simpl. rewrite Et, El, Ed, !elem_of_app, !list_elem_of_filter. tauto.
Qed.

(** A pass of the report loop loses no batch: one that was in a spool is
    still there afterwards, unless the spool expired it by its age or could not
    read it back. *)
Theorem replay_keeps_batches clock session r s id :
  spools_ok s → id ∈ heldBy s →
  let s' := (replay clock session (r, s)).1.2 in
  spools_ok s' ∧
  (id ∈ heldBy s' ∨
   (∃ q, (traffic s = Some q ∨ logs s = Some q ∨ destinations s = Some q) ∧ id ∉ held (store_pending clock q).1) ∨
   (∃ q e, store_read id q = Err e)).
Proof.
  intros (Ht & Hl & Hd) Hid. unfold replay.
  destruct (replayTarget _ _ _ (traffic s) _ _ _) as [[[t r1] o1] st1] eqn:E1.
  destruct (replayTarget _ _ _ (logs s) _ _ _) as [[[l r2] o2] st2] eqn:E2.
  destruct (replayTarget _ _ _ (destinations s) _ _ _) as [[[d r3] o3] st3] eqn:E3. simpl.
  destruct (replayTarget_held _ _ _ _ _ _ _ _ _ _ _ Ht E1) as [At Bt].
  destruct (replayTarget_held _ _ _ _ _ _ _ _ _ _ _ Hl E2) as [Al Bl].
  destruct (replayTarget_held _ _ _ _ _ _ _ _ _ _ _ Hd E3) as [Ad Bd].
  split; [done|]. unfold heldBy in *. simpl. rewrite !elem_of_app in *.
  destruct Hid as [Hid|[Hid|Hid]];
    [destruct (Bt id Hid) as [?|[(q & ? & ?)|?]]|destruct (Bl id Hid) as [?|[(q & ? & ?)|?]]
    |destruct (Bd id Hid) as [?|[(q & ? & ?)|?]]]; eauto 10.
Qed.

(** An answer of Control takes at most its own batch out of the spools;
    report_unavailable takes none, frees the batch's place in the window and
    holds it back until the retry time; every other answer -- applied,
    duplicate, refused for good -- ends the batch: it is in no map and in none
    of the spools that could hold it. *)
Theorem report_ack_effect t ack r s :
  spools_ok s → AckBatchId ack ≠ "" →
  let id := AckBatchId ack in
  let unavailable := negb (AckApplied ack) && String.eqb (AckError ack) ""
                     && String.eqb (AckErrorCode ack) ReportErrorCodeUnavailable in
  let '(r', s') := receiveReportAck t ack (r, s) in
  (∀ x, x ≠ id → (x ∈ heldBy s' ↔ x ∈ heldBy s)) ∧
  inflight r' = delete id (inflight r) ∧
  (if unavailable then s' = s ∧ (∃ at_, notBefore r' = <[id := at_]> (notBefore r) ∧ t < at_)
   else notBefore r' = delete id (notBefore r) ∧
        (NoDup (heldBy s) → id ∉ heldBy s') ∧
        acked r' + refused r' = acked r + refused r + 1).
Proof.
  intros Hok Hid id unavailable. unfold receiveReportAck.
  apply String.eqb_neq in Hid. fold id in Hid |- *. rewrite Hid. fold unavailable.
  destruct unavailable.
  - split; [done|]. split; [done|]. split; [done|]. eexists. split; [done|].
    unfold add, reportAckTimeout, second. destruct (Z.leb_spec (i64 (i64 (RetryAfterMs ack) * millisecond)) 0); lia.
  - pose proof (removeBatch_held id s Hok) as [_ Hh]. pose proof (removeBatch_gone id s Hok) as Hgone.
    destruct (removeBatch id s) as [s' f]. simpl in *.
    split; [done|]. split; [by repeat case_match|]. split; [by repeat case_match|]. split; [done|].
    destruct (AckApplied ack); simpl; [lia|]. case_match; simpl; lia.
Qed.

(** Whether the loop passes over a batch: held back by Control, or sent
    recently. *)
Definition notDue (r : reportsState) (id : string) : bool :=
  match notBefore r !! id with Some t => before now t | None => false end
  || match inflight r !! id with Some t => sub now t <? reportAckTimeout | None => false end.

Lemma replayEntry_notDue p id : stopped p = false → notDue (maps p) id = true →
  let p' := replayEntry p id in
  inflight (maps p') = inflight (maps p) ∧ target p' = target p ∧ out p' = out p ∧ stopped p' = false ∧
  ∀ x, x ≠ id → notBefore (maps p') !! x = notBefore (maps p) !! x.
Proof.
  intros Hs Hn. unfold replayEntry, notDue in *. rewrite Hs. cbv zeta.
  set (nb := if _ : bool then delete id (notBefore (maps p)) else notBefore (maps p)).
  assert (∀ x, x ≠ id → nb !! x = notBefore (maps p) !! x) as Hnb.
  { intros x Hx. unfold nb. destruct (notBefore (maps p) !! id); [|done].
    destruct (negb _); [by rewrite lookup_delete_ne|done]. }
  cbn [inflight with_maps].
  assert (bool_decide (is_Some (nb !! id))
    || match inflight (maps p) !! id with Some t => sub now t <? reportAckTimeout | None => false end = true) as ->.
  { apply orb_prop in Hn as [Hn|Hn]; [|by rewrite Hn, orb_true_r].
    apply orb_true_intro. left. apply bool_decide_eq_true. unfold nb.
    destruct (notBefore (maps p) !! id) as [t|] eqn:E; [|done]. rewrite Hn. simpl. by rewrite E. }
  by split_and!.
Qed.

Lemma replayEntries_notDue pre : ∀ p, NoDup pre → stopped p = false → Forall (λ id, notDue (maps p) id = true) pre →
  let p' := fold_left replayEntry pre p in
  inflight (maps p') = inflight (maps p) ∧ target p' = target p ∧ out p' = out p ∧ stopped p' = false ∧
  ∀ x, x ∉ pre → notBefore (maps p') !! x = notBefore (maps p) !! x.
Proof.
  induction pre as [|id pre IH]; intros p Hnd Hs Hf; [done|].
  apply NoDup_cons in Hnd as [Hni Hnd]. apply Forall_cons in Hf as [Hid Hf]. simpl.
  destruct (replayEntry_notDue p id Hs Hid) as (E1 & E2 & E3 & E4 & E5).
  destruct (IH (replayEntry p id)) as (F1 & F2 & F3 & F4 & F5); [done|done| |].
  { apply Forall_forall. intros x Hx. rewrite Forall_forall in Hf. unfold notDue.
    rewrite E1, E5 by (intros ->; done). by apply Hf. }
  split_and!; [congruence..|done|]. intros x [Hne Hx]%not_elem_of_cons. rewrite F5 by done. by apply E5.
Qed.

Lemma replayEntries_out ids : ∀ p, ∃ more, out (fold_left replayEntry ids p) = out p ++ more.
Proof.
  induction ids as [|id ids IH]; intros p; simpl; [exists []; by rewrite app_nil_r|].
  destruct (IH (replayEntry p id)) as [more ->].
  assert (∃ l, out (replayEntry p id) = out p ++ l) as [l ->].
  { unfold replayEntry. cbv zeta. repeat case_match; simpl; eauto; exists []; by rewrite app_nil_r. }
  exists (l ++ more). by rewrite app_assoc.
Qed.

(** A pass over a spool sends its oldest batch that is due: with room in
    the window, the first batch that is neither held back nor waiting for its
    answer is read, stamped and sent before any later one, and is in flight
    from then on. *)
Theorem replay_sends_oldest clock session cap q r o pre id post m :
  store_ok q → Has session cap = true →
  held (store_pending clock q).1 = pre ++ id :: post →
  Forall (λ x, notDue r x = true) pre → notDue r id = false →
  waiting now (inflight r) < reportWindow →
  store_read id (store_pending clock q).1 = Ok (Some m) → sendOk id = true →
  let '(_, r', o', _) := replayTarget clock session cap (Some q) r o false in
  (∃ more, o' = o ++ stamped id m :: more) ∧ inflight r' !! id = Some now.
Proof.
  intros Hok Hs Hq Hpre Hid Hw Hread Hsend. unfold replayTarget. rewrite Hs. cbn [orb negb].
  pose proof (pending_lists clock q Hok) as [Hids _]. pose proof (held_once _ (pending_ok clock q Hok)) as Hnd.
  destruct (store_pending clock q) as [q1 ids]. simpl in *. rewrite Hids, Hq. rewrite Hq in Hnd.
  apply NoDup_app in Hnd as (Hnp & Hdis & Hnpost). apply NoDup_cons in Hnpost as [Hnpost _].
  rewrite fold_left_app. simpl.
  destruct (replayEntries_notDue pre (mkPass r q1 o false) Hnp eq_refl Hpre) as (E1 & E2 & E3 & E4 & E5).
  set (p := fold_left replayEntry pre _) in *. clearbody p. simpl in *.
  assert (id ∉ pre) as Hnin by (intros Hin; apply (Hdis _ Hin), list_elem_of_here).
  assert (∃ nb, replayEntry p id = mkPass (with_maps (maps p) (<[id := now]> (inflight (maps p))) nb) (target p)
    (out p ++ [stamped id m]) false) as [nb ->].
  { unfold replayEntry. rewrite E4. cbv zeta. cbn [inflight with_maps notBefore].
    unfold notDue in Hid. apply orb_false_elim in Hid as [Hnb Hinf]. rewrite E1, Hinf, E5 by done.
    assert (∀ (b : bool) (mm : gmap string time), b = match notBefore r !! id with Some t => negb (before now t) | None => false end →
      mm !! id = notBefore r !! id → bool_decide (is_Some ((if b then delete id mm else mm) !! id)) = false) as Hd.
    { intros b mm -> Hmm. apply bool_decide_false. destruct (notBefore r !! id) as [t|] eqn:En.
      - rewrite Hnb. simpl. rewrite lookup_delete_eq. by intros [? ?].
      - rewrite Hmm. by intros [? ?]. }
    rewrite Hd by (done || by apply E5). cbn [orb].
    destruct (Z.leb_spec reportWindow (waiting now (inflight r))); [lia|].
    rewrite E2, Hread, Hsend. by eexists. }
  rewrite (replayEntries_other post) by done. simpl. rewrite lookup_insert_eq. split; [|done].
  destruct (replayEntries_out post (mkPass (with_maps (maps p) (<[id := now]> (inflight (maps p))) nb) (target p)
    (out p ++ [stamped id m]) false)) as [more ->]. simpl. exists more. by rewrite E3, <- app_assoc.
Qed.

(** *** Wake-ups *)

Lemma earliest_le next at_ : at_ ≠ 0 → earliest next at_ ≠ 0 ∧ earliest next at_ ≤ at_.
Proof. unfold earliest, is_zero, before. intros. case_match; lia. Qed.

Lemma earliest_mono next at_ : next ≠ 0 → earliest next at_ ≠ 0 ∧ earliest next at_ ≤ next.
Proof. unfold earliest, is_zero, before. intros. case_match; lia. Qed.

Lemma fold_earliest_mono l : ∀ next, next ≠ 0 → fold_left earliest l next ≠ 0 ∧ fold_left earliest l next ≤ next.
Proof.
  induction l as [|t l IH]; intros next Hn; simpl; [split; [done|lia]|].
  destruct (earliest_mono next t Hn) as [H1' H2']. destruct (IH _ H1'). split; [done|lia].
Qed.

Lemma fold_earliest_in l t : ∀ next, t ∈ l → t ≠ 0 → fold_left earliest l next ≠ 0 ∧ fold_left earliest l next ≤ t.
Proof.
  induction l as [|u l IH]; intros next Hin Ht; [by apply elem_of_nil in Hin|].
  apply elem_of_cons in Hin as [->|Hin]; simpl; [|by apply IH].
  destruct (earliest_le next u Ht) as [H1' H2']. destruct (fold_earliest_mono l _ H1'). split; [done|lia].
Qed.

Lemma reportsWake_inflight session status packages r id t :
  Has session CapabilityReports = true → inflight r !! id = Some t → add t reportAckTimeout ≠ 0 →
  reportsWake session status packages r ≠ 0 ∧ reportsWake session status packages r ≤ add t reportAckTimeout.
Proof.
  intros Hs Hi Ht. unfold reportsWake. rewrite Hs. cbv zeta.
  destruct (fold_earliest_in ((λ t, add t reportAckTimeout) <$> (map_to_list (inflight r)).*2) (add t reportAckTimeout) 0)
    as [A1 A2]; [|done|].
  { apply list_elem_of_fmap. exists t. split; [done|]. apply list_elem_of_fmap. exists (id, t).
    split; [done|]. by apply elem_of_map_to_list. }
  destruct (fold_earliest_mono (map_to_list (notBefore r)).*2 _ A1) as [B1 B2].
  set (n := fold_left earliest (map_to_list (notBefore r)).*2 _) in *. clearbody n.
  match goal with |- match packages with Some _ => if _ then earliest ?e _ else _ | None => _ end ≠ 0 ∧ _ =>
    assert (e ≠ 0 ∧ e ≤ n) as [C1 C2]; [|set (n' := e) in *; clearbody n'] end.
  { destruct status as [i|]; [|done]. destruct (is_zero _); [done|by apply earliest_mono]. }
  destruct packages as [i|]; [|split; [done|lia]]. destruct (_ && _); [|split; [done|lia]].
  destruct (earliest_mono n' (add (packageAt r) (if i <=? 0 then DefaultPackageReportInterval else i)) C1). split; [done|lia].
Qed.

Lemma replayTarget_other clock session cap q r o stop q' r' o' stop' id :
  (∀ x, q = Some x → store_ok x) → id ∉ heldIn q →
  replayTarget clock session cap q r o stop = (q', r', o', stop') → inflight r' !! id = inflight r !! id.
Proof.
  intros Hok Hn. unfold replayTarget. destruct q as [q|]; [|by intros; simplify_eq].
  specialize (Hok q eq_refl). destruct (_ || _); [by intros; simplify_eq|].
  pose proof (pending_lists clock q Hok) as [Hids Hsub].
  destruct (store_pending clock q) as [q1 ids]. simpl in *. intros; simplify_eq.
  rewrite replayEntries_other; [done|]. intros Hin. apply Hn. by eapply elem_of_sublist.
Qed.

(** A batch the spool evicts while it is in flight keeps its place: no
    spool lists it any more, so no pass resends it or forgets it, and from its
    timeout on [reportsWake] answers an instant that has passed, on every pass
    until Control answers the batch or the session ends. *)
Theorem evicted_batch_keeps_waking clock session status packages r s id t :
  spools_ok s → id ∉ heldBy s → Has session CapabilityReports = true → rSession r = ID session →
  inflight r !! id = Some t → 0 < t → t + reportAckTimeout ≤ now →
  let r' := (replay clock session (noteSession (ID session) r, s)).1.1 in
  inflight r' !! id = Some t ∧
  reportsWake session status packages r' ≠ 0 ∧ reportsWake session status packages r' ≤ now.
Proof.
  intros (Ht & Hl & Hd) Hn Hs Hr Hi Hpos Hnow. unfold noteSession. rewrite Hr, String.eqb_refl. cbv zeta.
  unfold heldBy in Hn. rewrite !not_elem_of_app in Hn. destruct Hn as (Nt & Nl & Nd).
  assert (inflight (replay clock session (r, s)).1.1 !! id = Some t) as Hi'.
  { unfold replay.
    destruct (replayTarget _ _ _ (traffic s) _ _ _) as [[[q1 r1] o1] st1] eqn:E1.
    destruct (replayTarget _ _ _ (logs s) _ _ _) as [[[q2 r2] o2] st2] eqn:E2.
    destruct (replayTarget _ _ _ (destinations s) _ _ _) as [[[q3 r3] o3] st3] eqn:E3. simpl.
    etransitivity; [by eapply (replayTarget_other _ _ _ _ _ _ _ _ _ _ _ id Hd Nd)|].
    etransitivity; [by eapply (replayTarget_other _ _ _ _ _ _ _ _ _ _ _ id Hl Nl)|].
    etransitivity; [by eapply (replayTarget_other _ _ _ _ _ _ _ _ _ _ _ id Ht Nt)|done]. }
  split; [done|]. destruct (reportsWake_inflight session status packages _ id t Hs Hi') as [W1 W2].
  { unfold add, reportAckTimeout, second. lia. }
  split; [done|]. unfold add in W2. lia.
Qed.

(** *** What a pass leaves of the spools *)

(** Nothing was added to a spool and its room is the same. *)
Definition shrinks (q q' : Q) : Prop :=
  store_ok q' ∧ held q' `sublist_of` held q ∧ store_room q' = store_room q.

Lemma shrinks_refl q : store_ok q → shrinks q q.
Proof. by split. Qed.

Lemma shrinks_trans q1 q2 q3 : shrinks q1 q2 → shrinks q2 q3 → shrinks q1 q3.
Proof. intros (? & ? & ?) (? & ? & ?). split_and!; [done|by etrans|congruence]. Qed.

Lemma shrinks_remove id q : store_ok q → shrinks q (store_remove id q).1.
Proof.
  intros Hok. split_and!; [by apply remove_ok| |apply remove_room].
  destruct (remove_held id q Hok) as [_ ->]. apply sublist_filter.
Qed.

Lemma replayEntries_shrinks ids : ∀ p, store_ok (target p) → shrinks (target p) (target (fold_left replayEntry ids p)).
Proof.
  induction ids as [|id ids IH]; intros p Hok; [by apply shrinks_refl|]. simpl.
  assert (shrinks (target p) (target (replayEntry p id))) as Hs.
  { unfold replayEntry. cbv zeta. destruct (stopped p); [by apply shrinks_refl|].
    destruct (_ || _); [by apply shrinks_refl|]. destruct (_ <=? _); [by apply shrinks_refl|].
    destruct (store_read _ _) as [[m|]|]; [destruct (sendOk id)| |]; [by apply shrinks_refl..|].
    by apply shrinks_remove. }
  eapply shrinks_trans; [exact Hs|]. apply IH, Hs.
Qed.

Definition shrinksIn (q q' : option Q) : Prop :=
  match q, q' with Some q, Some q' => shrinks q q' | None, None => True | _, _ => False end.

Lemma replayTarget_shrinks clock session cap q r o stop q' r' o' stop' :
  (∀ x, q = Some x → store_ok x) → replayTarget clock session cap q r o stop = (q', r', o', stop') → shrinksIn q q'.
Proof.
  intros Hok. unfold replayTarget. destruct q as [q|]; [|by intros; simplify_eq].
  specialize (Hok q eq_refl). destruct (_ || _); [intros; simplify_eq; by apply shrinks_refl|].
  pose proof (pending_lists clock q Hok) as [_ Hsub]. pose proof (pending_ok clock q Hok) as Hok1.
  pose proof (pending_room clock q Hok) as Hroom.
  destruct (store_pending clock q) as [q1 ids]. intros; simplify_eq. simpl in *.
  eapply shrinks_trans; [|by apply (replayEntries_shrinks ids (mkPass r q1 o false))]. by split_and!.
Qed.

Definition spoolsShrink (s s' : Spools) : Prop :=
  shrinksIn (traffic s) (traffic s') ∧ shrinksIn (logs s) (logs s') ∧ shrinksIn (destinations s) (destinations s').

Lemma replay_shrinks clock session r s : spools_ok s → spoolsShrink s (replay clock session (r, s)).1.2.
Proof.
  intros (Ht & Hl & Hd). unfold replay.
  destruct (replayTarget _ _ _ (traffic s) _ _ _) as [[[t r1] o1] st1] eqn:E1.
  destruct (replayTarget _ _ _ (logs s) _ _ _) as [[[l r2] o2] st2] eqn:E2.
  destruct (replayTarget _ _ _ (destinations s) _ _ _) as [[[d r3] o3] st3] eqn:E3.
  split_and!; simpl; by eapply replayTarget_shrinks.
Qed.

Lemma shrinksIn_refl q : (∀ x, q = Some x → store_ok x) → shrinksIn q q.
Proof. destruct q; [|done]. intros Hok. by apply shrinks_refl, Hok. Qed.

Lemma removeFrom_shrinks id q : (∀ x, q = Some x → store_ok x) → shrinksIn q (removeFrom id q).1.
Proof.
  destruct q as [q|]; [|done]. intros Hok. pose proof (shrinks_remove id q (Hok q eq_refl)) as Hs. simpl.
  by destruct (store_remove id q).
Qed.

Lemma removeBatch_shrinks id s : spools_ok s → spoolsShrink s (removeBatch id s).1.
Proof.
  intros (Ht & Hl & Hd). unfold removeBatch.
  pose proof (removeFrom_shrinks id (traffic s) Ht). pose proof (removeFrom_shrinks id (logs s) Hl).
  pose proof (removeFrom_shrinks id (destinations s) Hd).
  pose proof (shrinksIn_refl _ Hl). pose proof (shrinksIn_refl _ Hd).
  destruct (removeFrom id (traffic s)) as [t ft]. destruct ft; [by split_and!|]. cbn [logs destinations traffic].
  destruct (removeFrom id (logs s)) as [l fl]. destruct fl; [by split_and!|]. cbn [logs destinations traffic].
  by destruct (removeFrom id (destinations s)) as [d fd].
Qed.

Lemma spoolsShrink_ok s s' : spoolsShrink s s' →
  spools_ok s' ∧ heldBy s' `sublist_of` heldBy s.
Proof.
  assert (∀ q q', shrinksIn q q' → (∀ x, q' = Some x → store_ok x) ∧ heldIn q' `sublist_of` heldIn q) as Hin.
  { intros [q|] [q'|]; [|done..]. intros (? & ? & ?). split; [by intros x [= <-]|done]. }
  intros (Ht & Hl & Hd). apply Hin in Ht as [? ?], Hl as [? ?], Hd as [? ?].
  split; [by split_and!|]. unfold heldBy. by repeat apply sublist_app.
Qed.

Lemma spoolsShrink_room k s s' : spoolsShrink s s' →
  (∀ q, traffic s = Some q ∨ logs s = Some q ∨ destinations s = Some q → k ≤ store_room q) →
  ∀ q, traffic s' = Some q ∨ logs s' = Some q ∨ destinations s' = Some q → k ≤ store_room q.
Proof.
  assert (∀ q q', shrinksIn q q' → ∀ x, q' = Some x → ∃ y, q = Some y ∧ store_room x = store_room y) as Hin.
  { intros [q|] [q'|]; [|done..]. intros (? & ? & E) x [= <-]. by exists q. }
  intros (Ht & Hl & Hd) Hk q [Hq|[Hq|Hq]].
  - destruct (Hin _ _ Ht _ Hq) as (y & Ey & ->). eauto.
  - destruct (Hin _ _ Hl _ Hq) as (y & Ey & ->). eauto.
  - destruct (Hin _ _ Hd _ Hq) as (y & Ey & ->). eauto.
Qed.

End Loop.
Unset Default Proof Using.
Arguments Spools : clear implicits.

(** ** Whole runs *)

(** Who the client speaks for, and the 16 random bytes of this start in hex. *)
Record identity := mkIdentity { NodeKind : string; NodeID : Z; bootID : string }.

Inductive reportKind := TrafficKind | LogsKind | DestinationsKind.

Definition batchPrefix (k : reportKind) : string :=
  match k with DestinationsKind => "destinations-" | _ => "" end.

Definition withBatch (k : reportKind) (id body : string) : Wire.Payload :=
  match k with
  | TrafficKind => Traffic id body
  | LogsKind => Logs id body
  | DestinationsKind => Destinations id body
  end.

Definition ErrReportsOff : string := "agent data plane: reports are not configured".
Definition ErrDestinationsOff : string := "agent data plane: destination statistics are not configured".

(** The reports part of the data plane: [seq] numbers the batches, [stuck] is
    the field [pending]. *)
Record loopState (Q : Type) := mkLoop {
  rep : reportsState;
  sp : Spools Q;
  seq : Z;
  stuck : bool
}.
Arguments mkLoop {Q}.
Arguments rep {Q}.
Arguments sp {Q}.
Arguments seq {Q}.
Arguments stuck {Q}.

Section Runs.
Context `{SDK} `{ReportSDK} {Q : Type} `{BatchStore Q} (me : identity).
Set Default Proof Using "Type*".

Definition spoolOf (k : reportKind) (s : Spools Q) : option Q :=
  match k with TrafficKind => traffic s | LogsKind => logs s | DestinationsKind => destinations s end.

Definition withSpool (k : reportKind) (s : Spools Q) (q : Q) : Spools Q :=
  match k with
  | TrafficKind => mkSpools (Some q) (logs s) (destinations s)
  | LogsKind => mkSpools (traffic s) (Some q) (destinations s)
  | DestinationsKind => mkSpools (traffic s) (logs s) (Some q)
  end.

(** [SubmitTraffic], [SubmitLogs] and [SubmitDestinations], with [submit]. *)
Definition Submit (k : reportKind) (at_ : time) (body : string) (x : loopState Q) : loopState Q * result unit :=
  match spoolOf k (sp x) with
  | None => (x, Err match k with DestinationsKind => ErrDestinationsOff | _ => ErrReportsOff end)
  | Some q =>
      let n := u64 (seq x + 1) in
      let id := nextBatchID (NodeKind me) (NodeID me) (bootID me) (batchPrefix k) n in
      let '(q, r) := store_append at_ (mkAgentToControl "" (NodeID me) (unix_milli at_) (withBatch k id body)) q in
      (mkLoop (rep x) (withSpool k (sp x) q) n (stuck x), r)
  end.

(** [noteStuckBatches]: whether it warns. *)
Definition noteStuckBatches (x : loopState Q) : loopState Q * bool :=
  let count := sum_Z (λ q : option Q, from_option store_count 0 q) [traffic (sp x); logs (sp x); destinations (sp x)] in
  (mkLoop (rep x) (sp x) (seq x) true, (0 <? count) && negb (stuck x)).

(** What a pass of [runReports] meets: the clock, the session of the data
    plane, which sends succeed and what the providers are configured to and
    return. *)
Record passIn := mkPassIn {
  at_ : time;
  clock : time;
  session : DataPlaneSession;
  newIDs : string → string;
  sendOk : string → bool;
  status : option duration;
  packages : option duration;
  validPackage : PackageReport → bool;
  sendPackage : PackageReport → bool;
  collected : list PackageReport
}.

Record passOut := mkPassOut {
  batches : list AgentToControl;
  statusDueNow : bool;
  packagesOut : list PackageReport;
  warned : bool;
  next : time
}.

Definition runPass (i : passIn) (x : loopState Q) : loopState Q * passOut :=
  let r := noteSession (ID (session i)) (rep x) in
  let x := mkLoop r (sp x) (seq x) (stuck x) in
  let '(x, o, due, w) :=
    if Has (session i) CapabilityReports then
      let '(r, s, o) := replay (at_ i) (NodeID me) (newIDs i) (sendOk i) (clock i) (session i) (rep x, sp x) in
      let '(r, due) := match status i with
                       | Some interval => statusDue (at_ i) interval r
                       | None => (r, false)
                       end in
      (mkLoop r s (seq x) (stuck x), o, due, false)
    else if String.eqb (ID (session i)) "" then (x, [], false, false)
    else let '(x, w) := noteStuckBatches x in (x, [], false, w) in
  let '(r, ps) :=
    if Has (session i) CapabilityPackageReports then
      match packages i with
      | Some interval =>
          reportPackages (at_ i) interval (validPackage i) (sendPackage i) (collected i) (rep x)
      | None => (rep x, [])
      end
    else (rep x, []) in
  (mkLoop r (sp x) (seq x) (stuck x),
   mkPassOut o due ps w (reportsWake (session i) (status i) (packages i) r)).

Inductive event :=
| EvSubmit (k : reportKind) (t : time) (body : string)
| EvAck (t : time) (ack : ReportAck)
| EvStatusChanged (t : time)
| EvPass (i : passIn).

Definition eventTime (e : event) : time :=
  match e with EvSubmit _ t _ => t | EvAck t _ => t | EvStatusChanged t => t | EvPass i => at_ i end.

Definition runEvent (x : loopState Q) (e : event) : loopState Q :=
  match e with
  | EvSubmit k t body => (Submit k t body x).1
  | EvAck t ack =>
      let '(r, s) := receiveReportAck t ack (rep x, sp x) in mkLoop r s (seq x) (stuck x)
  | EvStatusChanged _ => mkLoop (StatusChanged (rep x)) (sp x) (seq x) (stuck x)
  | EvPass i => (runPass i x).1
  end.

(** *** The window *)

Lemma reportPackages_inflight t i v s c r : inflight (reportPackages t i v s c r).1 = inflight r.
Proof. unfold reportPackages. destruct (_ || _); [|done]. by destruct (sendPackages v s c (packageSent r)). Qed.

Lemma runPass_inflight i x :
  inflight (rep (runPass i x).1) =
  if Has (session i) CapabilityReports then
    inflight (replay (at_ i) (NodeID me) (newIDs i) (sendOk i) (clock i) (session i)
                (noteSession (ID (session i)) (rep x), sp x)).1.1
  else inflight (noteSession (ID (session i)) (rep x)).
Proof.
  unfold runPass. destruct (Has (session i) CapabilityReports).
  - cbn [rep sp]. destruct (replay _ _ _ _ _ _ _) as [[r s] o]. simpl.
    assert (∃ r' due, (match status i with Some interval => statusDue (at_ i) interval r | None => (r, false) end)
      = (r', due) ∧ inflight r' = inflight r) as (r' & due & -> & <-).
    { destruct (status i); [|by eauto]. unfold statusDue. eexists _, _. split; [done|]. by case_match. }
    cbn [rep sp seq stuck]. destruct (Has (session i) CapabilityPackageReports); [|done]. destruct (packages i); [|done].
    rewrite <- (reportPackages_inflight (at_ i) d (validPackage i) (sendPackage i) (collected i) r').
    by destruct (reportPackages _ _ _ _ _ _).
  - set (r := noteSession _ _).
    destruct (String.eqb (ID (session i)) ""); cbn [rep sp seq stuck noteStuckBatches];
    (destruct (Has (session i) CapabilityPackageReports); [|done]; destruct (packages i); [|done];
    rewrite <- (reportPackages_inflight (at_ i) d (validPackage i) (sendPackage i) (collected i) r);
    by destruct (reportPackages _ _ _ _ _ _)).
Qed.

Lemma receiveReportAck_inflight t ack r (s : Spools Q) :
  inflight (receiveReportAck t ack (r, s)).1 = inflight r ∨
  inflight (receiveReportAck t ack (r, s)).1 = delete (AckBatchId ack) (inflight r).
Proof.
  unfold receiveReportAck. destruct (String.eqb _ _); [by left|]. right. destruct (_ && _ && _); [done|].
  destruct (AckApplied ack); [done|]. by destruct (_ && _).
Qed.

Lemma noteSession_waiting t id r : waiting t (inflight (noteSession id r)) ≤ waiting t (inflight r).
Proof.
  unfold noteSession. destruct (String.eqb _ _); [done|]. simpl. unfold waiting.
  rewrite map_filter_empty, map_size_empty. lia.
Qed.

Lemma runEvent_waiting x e : waiting (eventTime e) (inflight (rep x)) ≤ reportWindow →
  waiting (eventTime e) (inflight (rep (runEvent x e))) ≤ reportWindow.
Proof.
  intros Hw. destruct e as [k t body|t ack|t|i]; cbn [eventTime runEvent] in *.
  - unfold Submit. destruct (spoolOf _ _); [|done]. by destruct (store_append _ _ _).
  - pose proof (receiveReportAck_inflight t ack (rep x) (sp x)) as Hi.
    destruct (receiveReportAck t ack (rep x, sp x)) as [r s]. simpl in *.
    destruct Hi as [->| ->]; [done|]. pose proof (waiting_delete t (inflight (rep x)) (AckBatchId ack)). lia.
  - done.
  - rewrite runPass_inflight. pose proof (noteSession_waiting (at_ i) (ID (session i)) (rep x)).
    destruct (Has _ _); [|lia]. apply replay_waiting. simpl. lia.
Qed.

(** C10: at most 16 batches await their answer at any time: whatever is
    submitted, answered and passed over, in whatever order, with sessions
    coming and going, the batches sent within the last 30 seconds and not
    answered since never exceed [reportWindow]. *)
Theorem report_window_bounded es e x :
  Sorted Z.le (eventTime <$> (es ++ [e])) → inflight (rep x) = ∅ →
  waiting (eventTime e) (inflight (rep (fold_left runEvent (es ++ [e]) x))) ≤ reportWindow.
Proof.
  intros Hs Hi. apply Sorted_StronglySorted in Hs; [|intros ???; lia].
  assert (∀ t0 x, (∀ t, t0 ≤ t → waiting t (inflight (rep x)) ≤ reportWindow) →
    Forall (λ t, t0 ≤ t) (eventTime <$> (es ++ [e])) →
    waiting (eventTime e) (inflight (rep (fold_left runEvent (es ++ [e]) x))) ≤ reportWindow) as Hgen.
  { clear x Hi. induction es as [|e0 es IH]; intros t0 x Hx Hall; simpl in *.
    - apply runEvent_waiting, Hx. by apply Forall_cons in Hall as [? _].
    - apply StronglySorted_inv in Hs as [Hs Hall']. apply Forall_cons in Hall as [Hle _].
      apply (IH Hs (eventTime e0)); [|done]. intros t Ht.
      etrans; [by apply (waiting_later (eventTime e0))|]. apply runEvent_waiting. by apply Hx. }
  destruct es as [|e0 es].
  - apply runEvent_waiting. rewrite Hi. unfold waiting. by rewrite map_filter_empty, map_size_empty.
  - simpl in Hs. pose proof (StronglySorted_inv Hs) as [_ Hall].
    apply (Hgen (eventTime e0)); [|simpl; by constructor]. intros t _. rewrite Hi. unfold waiting.
    by rewrite map_filter_empty, map_size_empty.
Qed.

(** *** Batch ids *)

Lemma prefixed_digits_inj p p' n m : p = "" ∨ p = "destinations-" → p' = "" ∨ p' = "destinations-" →
  0 ≤ n < 2 ^ 64 → 0 ≤ m < 2 ^ 64 → p +:+ format_uint n = p' +:+ format_uint m → n = m.
Proof.
  intros Hp Hp' Hn Hm.
  destruct (format_uint_shape n ltac:(lia)) as [Dn _]. destruct (format_uint_shape m ltac:(lia)) as [Dm _].
  destruct Hp as [->| ->], Hp' as [->| ->]; simpl; intros E.
  - by apply format_uint_inj.
  - change ("" +:+ format_uint n) with (format_uint n) in E. by rewrite E in Dn.
  - change ("" +:+ format_uint m) with (format_uint m) in E. by rewrite <- E in Dm.
  - apply format_uint_inj; [done..|]. by simplify_eq.
Qed.

Lemma nextBatchID_inj k k' n m : 0 ≤ n < 2 ^ 64 → 0 ≤ m < 2 ^ 64 →
  nextBatchID (NodeKind me) (NodeID me) (bootID me) (batchPrefix k) n =
  nextBatchID (NodeKind me) (NodeID me) (bootID me) (batchPrefix k') m → n = m.
Proof.
  intros Hn Hm E. unfold nextBatchID in E. do 7 apply (inj _) in E.
  eapply prefixed_digits_inj; [| |done|done|exact E]; [destruct k|destruct k']; simpl; auto.
Qed.

(** A batch id is at most 128 bytes long, for a node kind of up to 35 bytes
    and the 32 hex digits of the boot id. *)
Lemma batch_id_length k n :
  len (NodeKind me) ≤ 35 → len (bootID me) = 32 → 0 ≤ NodeID me → 0 ≤ n →
  len (nextBatchID (NodeKind me) (NodeID me) (bootID me) (batchPrefix k) n) ≤ 128.
Proof.
  intros Hk Hb Hid Hn. destruct (format_uint_shape n Hn) as [_ Ln]. destruct (format_uint_shape _ Hid) as [_ Lid].
  unfold nextBatchID. rewrite !len_app, Hb.
  assert (len (batchPrefix k) ≤ 13) by (destruct k; vm_compute; discriminate).
  change (len "node:") with 5. change (len "-") with 1. change (len ":") with 1. lia.
Qed.

(** *** One batch, one spool *)

Context `{!BatchStoreLaws Q}.

(** With [n] events to come: the spools are in order and have room for them,
    no batch id is in two places, and every id this start made is behind the
    sequence. *)
Record runs_ok (n : Z) (x : loopState Q) : Prop := {
  ro_spools : spools_ok (sp x);
  ro_room : ∀ q, traffic (sp x) = Some q ∨ logs (sp x) = Some q ∨ destinations (sp x) = Some q → n ≤ store_room q;
  ro_once : NoDup (heldBy (sp x));
  ro_behind : ∀ k m, 0 ≤ m < 2 ^ 64 →
    nextBatchID (NodeKind me) (NodeID me) (bootID me) (batchPrefix k) m ∈ heldBy (sp x) → m ≤ seq x;
  ro_seq : 0 ≤ seq x ∧ seq x + n < 2 ^ 64
}.

Lemma runs_ok_shrink n x r s st : spoolsShrink (sp x) s → runs_ok (n + 1) x → runs_ok n (mkLoop r s (seq x) st).
Proof.
  intros Hs [Hok Hroom Honce Hbeh Hseq]. destruct (spoolsShrink_ok _ _ Hs) as [Hok' Hsub].
  split; simpl; [done| | | |lia].
  - eapply spoolsShrink_room; [done|]. intros q Hq. specialize (Hroom q Hq). lia.
  - by eapply sublist_NoDup.
  - intros k m Hm Hin. apply (Hbeh k m Hm). by eapply elem_of_sublist.
Qed.

Lemma spoolsShrink_refl (s : Spools Q) : spools_ok s → spoolsShrink s s.
Proof. intros (? & ? & ?). split_and!; by apply shrinksIn_refl. Qed.

Lemma runPass_shrinks i x : spools_ok (sp x) →
  spoolsShrink (sp x) (sp (runPass i x).1) ∧ seq (runPass i x).1 = seq x.
Proof.
  intros Hok. unfold runPass. cbn [rep sp seq stuck].
  destruct (Has (session i) CapabilityReports).
  - pose proof (replay_shrinks (at_ i) (NodeID me) (newIDs i) (sendOk i) (clock i) (session i)
      (noteSession (ID (session i)) (rep x)) (sp x) Hok) as Hs.
    destruct (replay _ _ _ _ _ _ _) as [[r s] o]. cbn [fst snd] in Hs.
    destruct (match status i with Some _ => _ | None => _ end) as [r' due]. cbn [rep sp seq stuck].
    destruct (if Has (session i) CapabilityPackageReports then _ else _) as [r'' ps]. done.
  - destruct (String.eqb (ID (session i)) ""); cbn [rep sp seq stuck noteStuckBatches];
    destruct (if Has (session i) CapabilityPackageReports then _ else _) as [r'' ps];
    (split; [by apply spoolsShrink_refl|done]).
Qed.

Lemma heldBy_spoolOf k s q x : spoolOf k s = Some q → x ∈ held q → x ∈ heldBy s.
Proof. unfold heldBy. rewrite !elem_of_app. destruct k; simpl; intros ->; simpl; auto. Qed.

Lemma batchID_withBatch k r n t id body : Spool.batchID (mkAgentToControl r n t (withBatch k id body)) = id.
Proof. by destruct k. Qed.

(** Replacing one spool by one that holds at most one new batch more. *)
Lemma withSpool_once k s q q' id : spoolOf k s = Some q → store_ok q' →
  (∀ x, x ∈ held q' → x ∈ held q ∨ x = id) → id ∉ heldBy s → NoDup (heldBy s) →
  NoDup (heldBy (withSpool k s q')) ∧ ∀ x, x ∈ heldBy (withSpool k s q') → x ∈ heldBy s ∨ x = id.
Proof.
  clear me. intros Hk Hq' Hsub Hid Hnd. pose proof (held_once q' Hq') as Hq. unfold heldBy in *.
  rewrite !elem_of_app in Hid. apply NoDup_app in Hnd as (N1 & D1 & N23). apply NoDup_app in N23 as (N2 & D2 & N3).
  setoid_rewrite elem_of_app in D1.
  destruct k; simpl in *; rewrite Hk in *; simpl in *; setoid_rewrite elem_of_app; setoid_rewrite elem_of_app;
    rewrite !NoDup_app; setoid_rewrite elem_of_app.
  - split; [split; [done|split; [|done]]|]; [intros x [Hx| ->]%Hsub; [by apply D1|tauto]|].
    intros x [[?| ->]%Hsub|?]; auto.
  - split; [split_and!; try done|].
    + intros x Hx [[?| ->]%Hsub|?]; [|tauto|]; apply (D1 _ Hx); auto.
    + intros x [Hx| ->]%Hsub; [by apply D2|tauto].
    + intros x [?|[[?| ->]%Hsub|?]]; auto.
  - split; [split_and!; try done|].
    + intros x Hx [?|[?| ->]%Hsub]; [| |tauto]; apply (D1 _ Hx); auto.
    + intros x Hx [?| ->]%Hsub; [by apply (D2 _ Hx)|tauto].
    + intros x [?|[?|[?| ->]%Hsub]]; auto.
Qed.

Lemma Submit_ok n k t body x : 0 ≤ n → runs_ok (n + 1) x → runs_ok n (Submit k t body x).1.
Proof.
  intros Hn Hx. unfold Submit. destruct (spoolOf k (sp x)) as [q|] eqn:Ek.
  2: { destruct x as [r s sq st]. eapply (runs_ok_shrink n (mkLoop r s sq st)); [|done].
       apply spoolsShrink_refl, Hx. }
  destruct Hx as [Hok Hroom Honce Hbeh Hseq]. cbv zeta. rewrite u64_small by lia.
  set (id := nextBatchID _ _ _ _ (seq x + 1)). set (m := mkAgentToControl _ _ _ (withBatch k id body)).
  assert (store_ok q ∧ n + 1 ≤ store_room q) as [Hq Hr].
  { destruct Hok as (? & ? & ?). split; [destruct k; simpl in Ek; auto|apply Hroom; destruct k; simpl in Ek; auto]. }
  destruct (append_ok t m q Hq ltac:(lia)) as [Hq' Hr']. destruct (append_held t m q Hq) as [Hsub _].
  destruct (store_append t m q) as [q' res]. simpl in Hq', Hr', Hsub |- *.
  unfold m in Hsub. rewrite batchID_withBatch in Hsub.
  assert (id ∉ heldBy (sp x)) as Hid by (intros Hin; specialize (Hbeh k (seq x + 1) ltac:(lia) Hin); lia).
  destruct (withSpool_once k (sp x) q q' id Ek Hq' Hsub Hid Honce) as [Hnd Hheld].
  split; simpl; [| |done| |lia].
  - destruct Hok as (? & ? & ?). destruct k; split_and!; simpl; try done; by intros ? [= <-].
  - intros y Hy. assert (y = q' ∨ traffic (sp x) = Some y ∨ logs (sp x) = Some y ∨ destinations (sp x) = Some y)
      as [->|Ho] by (destruct k; simpl in Hy; destruct Hy as [Hy|[Hy|Hy]]; first [by injection Hy as <-; left|auto]); [lia|]. specialize (Hroom y Ho). lia.
  - intros k' m' Hm' Hin. apply Hheld in Hin as [Hin|Hin]; [specialize (Hbeh k' m' Hm' Hin); lia|].
    apply nextBatchID_inj in Hin; lia.
Qed.

Lemma runEvent_ok n e x : 0 ≤ n → runs_ok (n + 1) x → runs_ok n (runEvent x e).
Proof.
  intros Hn Hx. destruct e as [k t body|t ack|t|i]; cbn [runEvent].
  - by apply Submit_ok.
  - assert (spoolsShrink (sp x) (receiveReportAck t ack (rep x, sp x)).2) as Hs.
    { unfold receiveReportAck. pose proof (spoolsShrink_refl _ (ro_spools _ _ Hx)).
      destruct (String.eqb _ _); [done|]. destruct (_ && _ && _); [done|]. apply removeBatch_shrinks, Hx. }
    destruct (receiveReportAck t ack (rep x, sp x)) as [r s]. by eapply runs_ok_shrink.
  - eapply runs_ok_shrink; [|done]. apply spoolsShrink_refl, Hx.
  - destruct (runPass_shrinks i x (ro_spools _ _ Hx)) as [Hs Hq].
    destruct (runPass i x).1 as [r s sq st]. simpl in *. subst sq. by eapply runs_ok_shrink.
Qed.

(** C11: a batch waits in one spool at most, and under an id of its own: from
    spools whose ids are distinct and not of this start, whatever is
    submitted, answered and sent, the ids in the three spools together stay
    distinct, so an answer that is not report_unavailable leaves its batch in
    none of them. *)
Theorem batch_in_one_spool es x t ack :
  runs_ok (Z.of_nat (length es)) x →
  let s := sp (fold_left runEvent es x) in
  NoDup (heldBy s) ∧
  (AckBatchId ack ≠ "" → AckApplied ack || negb (String.eqb (AckErrorCode ack) ReportErrorCodeUnavailable) = true →
   AckBatchId ack ∉ heldBy (sp (runEvent (fold_left runEvent es x) (EvAck t ack)))).
Proof.
  intros Hx. assert (runs_ok 0 (fold_left runEvent es x)) as Hr.
  { revert x Hx. induction es as [|e es IH]; intros x Hx; [done|]. simpl. apply IH.
    apply runEvent_ok; [lia|]. simpl length in Hx. by replace (Z.of_nat (length es) + 1) with (Z.of_nat (S (length es))) by lia. }
  set (y := fold_left runEvent es x) in *. clearbody y. split; [apply Hr|]. intros Hid Hfinal.
  cbn [runEvent]. unfold receiveReportAck. rewrite (proj2 (String.eqb_neq _ _) Hid).
  assert (negb (AckApplied ack) && String.eqb (AckError ack) "" &&
    String.eqb (AckErrorCode ack) ReportErrorCodeUnavailable = false) as ->.
  { destruct (AckApplied ack); [done|]. simpl in Hfinal. apply negb_true_iff in Hfinal. by rewrite Hfinal, andb_false_r. }
  cbn [sp]. apply removeBatch_gone; apply Hr.
Qed.

(** *** The warning about batches that cannot be sent *)

Lemma runEvent_stuck x e : stuck x = true → stuck (runEvent x e) = true.
Proof.
  intros Hs. destruct e as [k t body|t ack|t|i]; cbn [runEvent].
  - unfold Submit. destruct (spoolOf _ _); [|done]. by destruct (store_append _ _ _).
  - by destruct (receiveReportAck _ _ _).
  - done.
  - unfold runPass. cbn [rep sp seq stuck].
    destruct (Has (session i) CapabilityReports).
    + destruct (replay _ _ _ _ _ _ _) as [[r s] o].
      destruct (match status i with Some _ => _ | None => _ end) as [r' due]. cbn [rep sp seq stuck].
      by destruct (if Has (session i) CapabilityPackageReports then _ else _) as [r'' ps].
    + destruct (String.eqb (ID (session i)) ""); cbn [rep sp seq stuck noteStuckBatches];
      by destruct (if Has (session i) CapabilityPackageReports then _ else _) as [r'' ps].
Qed.

(** The warning that batches wait for a session with reports.v1 comes at
    most once in the life of the process, not once per session: after the
    first pass on a session without reports.v1 -- even one that found the
    spools empty and said nothing -- no later pass warns, whatever sessions
    start and whatever waits. *)
Theorem stuck_warning_at_most_once i es j x :
  Has (session i) CapabilityReports = false → ID (session i) ≠ "" →
  warned (runPass j (fold_left runEvent es (runPass i x).1)).2 = false.
Proof.
  intros Hno Hid.
  assert (stuck (runPass i x).1 = true) as Hs.
  { unfold runPass. rewrite Hno, (proj2 (String.eqb_neq _ _) Hid). cbn [rep sp seq stuck noteStuckBatches].
    by destruct (if Has (session i) CapabilityPackageReports then _ else _) as [r'' ps]. }
  assert (stuck (fold_left runEvent es (runPass i x).1) = true) as Hs'.
  { revert Hs. generalize (runPass i x).1. induction es as [|e es IH]; intros y Hy; [done|].
    simpl. by apply IH, runEvent_stuck. }
  set (y := fold_left _ _ _) in *. clearbody y. unfold runPass. cbn [rep sp seq stuck].
  destruct (Has (session j) CapabilityReports).
  - destruct (replay _ _ _ _ _ _ _) as [[r s] o].
    destruct (match status j with Some _ => _ | None => _ end) as [r' due]. cbn [rep sp seq stuck].
    by destruct (if Has (session j) CapabilityPackageReports then _ else _) as [r'' ps].
  - destruct (String.eqb (ID (session j)) ""); cbn [rep sp seq stuck noteStuckBatches];
    destruct (if Has (session j) CapabilityPackageReports then _ else _) as [r'' ps]; [done|].
    simpl. rewrite Hs'. apply andb_false_r.
Qed.

End Runs.
Unset Default Proof Using.

(** ** Witnesses: spools in memory, one traffic and one log batch. *)

Module Witness.

#[local] Instance wReportSDK : ReportSDK := {| ReportErrorCodeUnavailable := "report_unavailable" |}.
#[local] Existing Instances wSDK BitCodec.codec.
#[local] Instance wStore : BatchStore Spool.Spool := spool_store Spool.no_faults.
#[local] Instance wLaws : BatchStoreLaws Spool.Spool := spool_store_laws Spool.no_faults.

Definition wMe : identity := mkIdentity "proxy" 7 "b00t".
Definition wEmpty : Spool.Spool :=
  Spool.mkSpool (Spool.mkLimits 65536 hour 10) [] ∅ 0 1 (Spool.mkDrops 0 0 0) ∅.
Definition x0 : loopState Spool.Spool :=
  mkLoop newReportsState (mkSpools (Some wEmpty) (Some wEmpty) None) 0 false.
Definition submits : list event := [EvSubmit TrafficKind (1000 * second) "t"; EvSubmit LogsKind (1001 * second) "l"].
Definition x1 : loopState Spool.Spool := fold_left (runEvent wMe) submits x0.
Definition wSession : DataPlaneSession := mkSession "s1" ["reports"] false.
Definition passAt (t : time) (s : DataPlaneSession) : passIn :=
  mkPassIn t t s (λ _, "r") (λ _, true) None None (λ _, true) (λ _, true) [].
Definition x2 : loopState Spool.Spool := runEvent wMe x1 (EvPass (passAt (1002 * second) wSession)).

Lemma x0_ok n : 0 ≤ n < 1000 → runs_ok wMe n x0.
Proof.
  intros Hn. split; simpl; [| |constructor| |lia].
  - assert (store_ok wEmpty) by (split; [split; simpl; try done; try constructor; lia|done]).
    split_and!; simpl; by intros ? [= <-].
  - intros q [[= <-]|[[= <-]|[=]]]; simpl; lia.
  - intros k m _ Hin. by apply elem_of_nil in Hin.
Qed.

Lemma x2_ok : runs_ok wMe 1 x2.
Proof. do 3 (refine (runEvent_ok wMe _ _ _ _ _); [lia|]). by apply x0_ok. Qed.

Definition tid : string := "node:proxy-7:b00t:1".
Definition lid : string := "node:proxy-7:b00t:2".

Lemma x1_ok : runs_ok wMe 1 x1.
Proof. do 2 (refine (runEvent_ok wMe _ _ _ _ _); [lia|]). by apply x0_ok. Qed.

Lemma x1_holds : heldBy (sp x1) = [tid; lid].
Proof. by vm_compute. Qed.

Lemma replay_keeps_witness :
  let s' := (replay (1002 * second) 7 (λ _, "r") (λ _, true) (1002 * second) wSession (newReportsState, sp x1)).1.2 in
  lid ∈ heldBy (sp x1) ∧ spools_ok s'.
Proof.
  split; [rewrite x1_holds; right; left|].
  apply (replay_keeps_batches (1002 * second) 7 (λ _, "r") (λ _, true) (1002 * second) wSession newReportsState (sp x1) lid).
  - apply x1_ok.
  - rewrite x1_holds. right. left.
Defined.

Lemma report_ack_witness :
  let '(r', s') := receiveReportAck (1003 * second) (mkAck tid true "" "" 0) (rep x2, sp x2) in
  inflight (rep x2) = {[tid := 1002 * second; lid := 1002 * second]} ∧
  inflight r' = delete tid (inflight (rep x2)) ∧ heldBy s' = [lid].
Proof.
  pose proof (report_ack_effect (1003 * second) (mkAck tid true "" "" 0) (rep x2) (sp x2)
    (ro_spools _ _ _ x2_ok) ltac:(discriminate)) as Heff.
  assert (heldBy (receiveReportAck (1003 * second) (mkAck tid true "" "" 0) (rep x2, sp x2)).2 = [lid]) as Hh
    by (by vm_compute).
  destruct (receiveReportAck (1003 * second) (mkAck tid true "" "" 0) (rep x2, sp x2)) as [r' s'].
  destruct Heff as (_ & Hi & _). split_and!; [by apply map_eq_iff; vm_compute|exact Hi|exact Hh].
Defined.

(** The traffic batch is held back; the log batch behind it, in the other
    spool, is sent. *)
Lemma replay_oldest_witness :
  let m := mkAgentToControl "" 7 (unix_milli (1001 * second)) (Logs lid "l") in
  let '(_, r', o', _) := replayTarget (1002 * second) 7 (λ _, "r") (λ _, true) (1002 * second) wSession "reports"
                           (logs (sp x1)) newReportsState [] false in
  (∃ more, o' = [] ++ stamped (1002 * second) 7 (λ _, "r") lid m :: more) ∧ inflight r' !! lid = Some (1002 * second).
Proof.
  destruct (logs (sp x1)) as [q|] eqn:E; [|exfalso; by vm_compute in E].
  apply (replay_sends_oldest (1002 * second) 7 (λ _, "r") (λ _, true) (1002 * second) wSession "reports" q
           newReportsState [] [] lid []); try (vm_compute in E; injection E as <-; by vm_compute).
  destruct (ro_spools _ _ _ x1_ok) as (_ & Hl & _). exact (Hl q E).
Defined.

(** Both batches were sent at second 1002 and the traffic one is evicted. *)
Definition evicted : Spools Spool.Spool := mkSpools (Some wEmpty) (logs (sp x2)) None.

Lemma evicted_witness :
  let r' := (replay (1100 * second) 7 (λ _, "r") (λ _, true) (1100 * second) wSession
               (noteSession "s1" (rep x2), evicted)).1.1 in
  (tid ∉ heldBy evicted) ∧ reportsWake wSession None None r' ≤ 1100 * second.
Proof.
  assert (tid ∉ heldBy evicted) as Hn by (apply (bool_decide_unpack _); by vm_compute).
  split; [exact Hn|].
  apply (evicted_batch_keeps_waking (1100 * second) 7 (λ _, "r") (λ _, true) (1100 * second) wSession None None
           (rep x2) evicted tid (1002 * second)); [|exact Hn|by vm_compute..|vm_compute; discriminate].
  destruct (ro_spools _ _ _ x2_ok) as (_ & Hl & _). destruct (ro_spools _ _ _ (x0_ok 1 ltac:(lia))) as (Ht & _ & _).
  split_and!; [exact Ht|exact Hl|by intros ? [=]].
Defined.

Lemma report_window_witness :
  waiting (1040 * second)
    (inflight (rep (fold_left (runEvent wMe) (submits ++ [EvPass (passAt (1040 * second) wSession)]) x0))) ≤ reportWindow.
Proof.
  apply (report_window_bounded wMe submits (EvPass (passAt (1040 * second) wSession)) x0); [|done].
  repeat constructor; simpl; unfold second; lia.
Defined.

Lemma one_spool_witness :
  heldBy (sp x1) = [tid; lid] ∧
  tid ∉ heldBy (sp (runEvent wMe x1 (EvAck (1003 * second) (mkAck tid false "" "" 0)))).
Proof.
  split; [exact x1_holds|].
  apply (batch_in_one_spool wMe submits x0 (1003 * second) (mkAck tid false "" "" 0));
    [by apply x0_ok|discriminate|done].
Defined.

(** The first session without reports.v1 finds the spools empty; batches come
    later, and a second such session does not warn. *)
Lemma stuck_witness :
  let other id := mkSession id ["users"] false in
  let x := fold_left (runEvent wMe) submits (runPass wMe (passAt (999 * second) (other "s0")) x0).1 in
  heldBy (sp x) = [tid; lid] ∧ warned (runPass wMe (passAt (1002 * second) (other "s1")) x).2 = false.
Proof.
  split; [by vm_compute|].
  apply (stuck_warning_at_most_once wMe (passAt (999 * second) (mkSession "s0" ["users"] false)) submits
           (passAt (1002 * second) (mkSession "s1" ["users"] false)) x0); [by vm_compute|discriminate].
Defined.

End Witness.
End Reports.
