(* ===== verification/Destinations.v ===== *)
(** * Destination statistics (src/common/destinations/destinations.go)

    A [Collector] counts each user's connections and bytes by destination.  A
    connection holds a pointer to the [Stat] its bytes go to, so the Stats live
    in a heap that the Collector and the connections share: a Stat dropped from
    the map and made again under the same key is another Stat.  [Name], which
    reduces a host to its registrable domain or address network, and the
    lower-casing of the sniffed protocol are arguments: the theorems hold for
    every such function. *)

From S2P Require Import Prelude.
From Stdlib Require Import String.

Module Destinations.

Definition MaxPerUser : Z := 200.
Definition MaxEntries : Z := 50000.
Definition maxProtocolLength : Z := 32.

(** A [Stat]; the fields are int64 counters. *)
Record Stat := mkStat { Upload : Z; Download : Z; connections : Z; openCount : Z }.

Record key := mkKey { kUser : string; kDomain : string; kProtocol : string }.

#[export] Instance key_eq_dec : EqDecision key.
Proof. solve_decision. Defined.
#[export] Instance key_countable : Countable key.
Proof.
  refine (inj_countable' (λ k, (kUser k, kDomain k, kProtocol k)) (λ t, mkKey t.1.1 t.1.2 t.2) _).
  by intros [].
Defined.

Record Entry := mkEntry {
  EntryKey : key;
  EntryUpload : Z;
  EntryDownload : Z;
  EntryConnections : Z
}.

(** The Collector with the heap its Stats live in; [fresh] is the next
    address. *)
Record Collector := mkCollector {
  heap : gmap nat Stat;
  stats : gmap key nat;
  perUser : gmap string Z;
  fresh : nat
}.

(** What is counted. *)
Inductive metric := Up | Down | Conns.

#[export] Instance metric_eq_dec : EqDecision metric.
Proof. solve_decision. Defined.

Definition NewCollector : Collector := mkCollector ∅ ∅ ∅ 0%nat.

Definition count (u : string) (c : Collector) : Z := default 0 (perUser c !! u).

(** [stat.Upload.Add], [stat.Download.Add] through a pointer. *)
Definition addUpload (n : Z) (p : nat) (c : Collector) : Collector :=
  mkCollector (alter (λ s, mkStat (i64 (Upload s + n)) (Download s) (connections s) (openCount s)) p (heap c))
    (stats c) (perUser c) (fresh c).
Definition addDownload (n : Z) (p : nat) (c : Collector) : Collector :=
  mkCollector (alter (λ s, mkStat (Upload s) (i64 (Download s + n)) (connections s) (openCount s)) p (heap c))
    (stats c) (perUser c) (fresh c).

(** [Release] of a Stat that is not nil. *)
Definition Release (p : nat) (c : Collector) : Collector :=
  mkCollector (alter (λ s, mkStat (Upload s) (Download s) (connections s) (i64 (openCount s - 1))) p (heap c))
    (stats c) (perUser c) (fresh c).

(** One turn of the loop of [Snapshot]. *)
Definition snapStep (x : Collector * list Entry) (kp : key * nat) : Collector * list Entry :=
  let '(c, es) := x in
  let '(k, p) := kp in
  match heap c !! p with
  | None => (c, es)
  | Some s =>
      let c := mkCollector (<[p := mkStat 0 0 0 (openCount s)]> (heap c)) (stats c) (perUser c) (fresh c) in
      if (0 <? Upload s) || (0 <? Download s) || (0 <? connections s) then
        (c, es ++ [mkEntry k (Z.max (Upload s) 0) (Z.max (Download s) 0) (connections s)])
      else if openCount s <=? 0 then
        let n := count (kUser k) c - 1 in
        (mkCollector (heap c) (delete k (stats c))
           (if n <=? 0 then delete (kUser k) (perUser c) else <[kUser k := n]> (perUser c)) (fresh c), es)
      else (c, es)
  end.

(** [Snapshot]; the turns do not depend on the order of the map. *)
Definition Snapshot (c : Collector) : Collector * list Entry :=
  fold_left snapStep (map_to_list (stats c)) (c, []).

(** What was added under a key, and what the snapshots reported for it. *)
Definition added (m : metric) (k : key) (l : list (metric * key * Z)) : Z :=
  sum_Z (λ x, if bool_decide (x.1 = (m, k)) then x.2 else 0) l.

Definition get (m : metric) (s : Stat) : Z :=
  match m with Up => Upload s | Down => Download s | Conns => connections s end.
Definition entryGet (m : metric) (e : Entry) : Z :=
  match m with Up => EntryUpload e | Down => EntryDownload e | Conns => EntryConnections e end.

Definition reportedFor (m : metric) (k : key) (es : list Entry) : Z :=
  sum_Z (λ e, if bool_decide (EntryKey e = k) then entryGet m e else 0) es.

(** What waits in the Stat of a key. *)
Definition pendingFor (m : metric) (k : key) (c : Collector) : Z :=
  match stats c !! k with
  | Some p => from_option (get m) 0 (heap c !! p)
  | None => 0
  end.

(** Everything that was ever added fits an int64. *)
Definition within (l : list (metric * key * Z)) : Prop := sum_Z snd l < 2 ^ 63.

(** ** Facts about one collector *)

(** The pointers of the map are valid and distinct, and no counter is
    negative. *)
Record cwf (c : Collector) : Prop := {
  cwf_ptr : ∀ k p, stats c !! k = Some p → is_Some (heap c !! p) ∧ (p < fresh c)%nat;
  cwf_inj : ∀ k k' p, stats c !! k = Some p → stats c !! k' = Some p → k = k';
  cwf_nonneg : ∀ k p st m, stats c !! k = Some p → heap c !! p = Some st → 0 ≤ get m st
}.

Definition alterStat (f : Stat → Stat) (p : nat) (c : Collector) : Collector :=
  mkCollector (alter f p (heap c)) (stats c) (perUser c) (fresh c).

(** Changing the Stat of one key changes what waits under that key only. *)
Lemma pendingFor_alter f k p st c m k' : cwf c → stats c !! k = Some p → heap c !! p = Some st →
  pendingFor m k' (alterStat f p c) = if bool_decide (k = k') then get m (f st) else pendingFor m k' c.
Proof.
  intros Hc Hk Hp. unfold pendingFor. simpl. case_bool_decide as Hd.
  - subst k'. by rewrite Hk, lookup_alter_eq, Hp.
  - destruct (stats c !! k') as [p'|] eqn:Ek'; [|done]. rewrite lookup_alter_ne; [done|].
    intros <-. apply Hd. by eapply cwf_inj.
Qed.

Lemma cwf_alter f k p st c : cwf c → stats c !! k = Some p → heap c !! p = Some st →
  (∀ m, 0 ≤ get m (f st)) → cwf (alterStat f p c).
Proof.
  intros [Hptr Hinj Hnn] Hk Hp Hf. split; simpl; [|done|].
  - intros k' p' Hk'. destruct (Hptr k' p' Hk') as [Hs Hlt]. split; [|done].
    destruct (decide (p' = p)) as [->|Hne]; [rewrite lookup_alter_eq, Hp; eauto|by rewrite lookup_alter_ne].
  - intros k' p' st' m Hk'. destruct (decide (p' = p)) as [->|Hne].
    + rewrite lookup_alter_eq, Hp. intros [= <-]. apply Hf.
    + rewrite lookup_alter_ne by done. by apply Hnn with k'.
Qed.

Lemma added_snoc m k l x : added m k (l ++ [x]) = added m k l + (if bool_decide (x.1 = (m, k)) then x.2 else 0).
Proof. unfold added. autorewrite with agent. simpl. lia. Qed.

Lemma reportedFor_snoc m k es e :
  reportedFor m k (es ++ [e]) = reportedFor m k es + (if bool_decide (EntryKey e = k) then entryGet m e else 0).
Proof. unfold reportedFor. autorewrite with agent. simpl. lia. Qed.

(** What the turns of a snapshot do: nothing is lost between the Stats and the
    entries, and a Stat with an open connection stays. *)
Record snapped (x x' : Collector * list Entry) : Prop := {
  sn_cwf : cwf x'.1;
  sn_sub : ∀ k p, stats x'.1 !! k = Some p → stats x.1 !! k = Some p;
  sn_kept : ∀ k p st, stats x.1 !! k = Some p → heap x.1 !! p = Some st → 0 < openCount st → stats x'.1 !! k = Some p;
  sn_open : ∀ p st', heap x'.1 !! p = Some st' → ∃ st, heap x.1 !! p = Some st ∧ openCount st' = openCount st;
  sn_sum : ∀ m k, reportedFor m k x'.2 + pendingFor m k x'.1 = reportedFor m k x.2 + pendingFor m k x.1;
  sn_more : ∀ m k, reportedFor m k x.2 ≤ reportedFor m k x'.2
}.

Lemma snapped_refl x : cwf x.1 → snapped x x.
Proof. intros Hc. split; [done|done|done|by eauto|done|]. intros m k. lia. Qed.

Lemma snapped_trans x y z : snapped x y → snapped y z → snapped x z.
Proof.
  intros [C1 S1 K1 O1 P1 M1] [C2 S2 K2 O2 P2 M2]. split; [done|by eauto| |..].
  - intros k p st Hk Hp Hop. destruct (proj1 (cwf_ptr _ C1 k p (K1 k p st Hk Hp Hop))) as [st1 Hst1].
    destruct (O1 p st1 Hst1) as (st0 & Hst0 & Ho). simplify_eq. eapply K2; [by eapply K1|done|lia].
  - intros p st' Hst'. destruct (O2 p st' Hst') as (st1 & Hst1 & Ho2). destruct (O1 p st1 Hst1) as (st0 & ? & ?).
    exists st0. split; [done|congruence].
  - intros m k. rewrite P2. apply P1.
  - intros m k. etrans; [apply M1|apply M2].
Qed.

Lemma snapStep_snapped c es k p : cwf c → stats c !! k = Some p →
  snapped (c, es) (snapStep (c, es) (k, p)) ∧ ∀ m, pendingFor m k (snapStep (c, es) (k, p)).1 = 0.
Proof.
  intros Hc Hk. destruct (cwf_ptr c Hc k p Hk) as [[st Hst] Hlt].
  set (f := λ s : Stat, mkStat 0 0 0 (openCount s)).
  assert (<[p := mkStat 0 0 0 (openCount st)]> (heap c) = alter f p (heap c)) as Hheap.
  { apply map_eq. intros q. destruct (decide (q = p)) as [->|Hne].
    - by rewrite lookup_insert_eq, lookup_alter_eq, Hst.
    - by rewrite lookup_insert_ne, lookup_alter_ne by done. }
  pose proof (λ m, cwf_nonneg c Hc k p st m Hk Hst) as Hnn.
  assert (cwf (alterStat f p c)) as Hc' by (eapply cwf_alter; [done..|intros []; simpl; lia]).
  assert (∀ q st', heap (alterStat f p c) !! q = Some st' →
    ∃ st0, heap c !! q = Some st0 ∧ openCount st' = openCount st0) as Hopen.
  { intros q st' Hq. simpl in Hq. destruct (decide (q = p)) as [->|Hne].
    - rewrite lookup_alter_eq, Hst in Hq. injection Hq as <-. by exists st.
    - rewrite lookup_alter_ne in Hq by done. by exists st'. }
  pose proof (λ m k', pendingFor_alter f k p st c m k' Hc Hk Hst) as Hpend.
  assert (∀ m, pendingFor m k c = get m st) as Hpk by (intros m; unfold pendingFor; by rewrite Hk, Hst).
  unfold snapStep. rewrite Hst, Hheap. fold (alterStat f p c).
  destruct ((0 <? Upload st) || _ || _) eqn:Eem.
  - split; [|intros m; cbn [fst]; rewrite Hpend, bool_decide_true by done; by destruct m].
    split; simpl; [done|done|by eauto|done|..]; intros m k'; rewrite reportedFor_snoc; simpl.
    + rewrite Hpend. case_bool_decide; [subst k'; rewrite Hpk|lia].
      pose proof (Hnn Up). pose proof (Hnn Down). destruct m; simpl in *; lia.
    + case_bool_decide; [|lia]. pose proof (Hnn m). destruct m; simpl in *; lia.
  - apply orb_false_elim in Eem as [Eem E3]. apply orb_false_elim in Eem as [E1 E2].
    apply Z.ltb_ge in E1, E2, E3.
    assert (∀ m, get m st = 0) as Hz by (intros m; pose proof (Hnn m); destruct m; simpl in *; lia).
    assert (∀ m k', pendingFor m k' (alterStat f p c) = pendingFor m k' c) as Hsame.
    { intros m k'. rewrite Hpend. case_bool_decide; [subst k'; rewrite Hpk, Hz; by destruct m|done]. }
    destruct (Z.leb_spec (openCount st) 0) as [Hop|Hop].
    2: { split; [|intros m; simpl; rewrite Hsame, Hpk; apply Hz].
         split; simpl; [done|done|by eauto|done|intros m k'; by rewrite Hsame|intros; lia]. }
    assert (∀ pu m k', pendingFor m k' (mkCollector (heap (alterStat f p c)) (delete k (stats c)) pu (fresh c))
      = pendingFor m k' c) as Hdel.
    { intros pu m k'. rewrite <- Hsame. unfold pendingFor. simpl. destruct (decide (k' = k)) as [->|Hne].
      - rewrite lookup_delete_eq, Hk, lookup_alter_eq, Hst. by destruct m.
      - by rewrite lookup_delete_ne. }
    split; [|intros m; cbn [fst stats alterStat]; rewrite Hdel, Hpk; apply Hz].
    split; cbn [fst snd stats alterStat fresh heap].
    + destruct Hc' as [P I N]. split; cbn [stats heap fresh]; setoid_rewrite lookup_delete_Some; naive_solver.
    + intros k' p' [? ?]%lookup_delete_Some. done.
    + intros k' p' st' Hk' Hp' Hop'. rewrite lookup_delete_ne; [done|]. intros <-. simplify_eq. lia.
    + exact Hopen.
    + intros m k'. by rewrite Hdel.
    + intros; lia.
Qed.

#[local] Arguments snapStep : simpl never.

Lemma snapStep_other c es k p k' : k' ≠ k → stats (snapStep (c, es) (k, p)).1 !! k' = stats c !! k'.
Proof.
  intros Hne. unfold snapStep. destruct (heap c !! p); [|done]. destruct (_ || _ || _); [done|].
  destruct (_ <=? _); [|done]. simpl. by rewrite lookup_delete_ne.
Qed.

Lemma pendingFor_nonneg m k c : cwf c → 0 ≤ pendingFor m k c.
Proof.
  intros Hc. unfold pendingFor. destruct (stats c !! k) as [p|] eqn:Ek; [|done].
  destruct (heap c !! p) as [st|] eqn:Ep; [|done]. by eapply cwf_nonneg.
Qed.

Lemma snapFold_snapped l : ∀ x, cwf x.1 → NoDup l.*1 → Forall (λ kp, stats x.1 !! kp.1 = Some kp.2) l →
  snapped x (fold_left snapStep l x) ∧ ∀ m k, k ∈ l.*1 → pendingFor m k (fold_left snapStep l x).1 = 0.
Proof.
  induction l as [|[k p] l IH]; intros [c es] Hc Hnd Hall; simpl in *.
  { split; [by apply snapped_refl|]. intros m k Hk. by apply elem_of_nil in Hk. }
  apply NoDup_cons in Hnd as [Hni Hnd]. apply Forall_cons in Hall as [Hk Hall].
  destruct (snapStep_snapped c es k p Hc Hk) as [Hs Hz].
  destruct (IH (snapStep (c, es) (k, p))) as [Hs' Hz']; [apply Hs|done| |].
  { apply Forall_forall. intros [k' p'] Hin. rewrite Forall_forall in Hall. specialize (Hall _ Hin). simpl in *.
    rewrite snapStep_other; [done|]. intros ->. apply Hni, list_elem_of_fmap. by exists (k, p'). }
  split; [by eapply snapped_trans|]. intros m k' [->|Hin]%elem_of_cons; [|by apply Hz'].
  pose proof (sn_sum _ _ Hs' m k) as Hsum. pose proof (sn_more _ _ Hs' m k). rewrite Hz in Hsum.
  pose proof (pendingFor_nonneg m k _ (sn_cwf _ _ Hs')). lia.
Qed.

Lemma Snapshot_snapped c : cwf c →
  snapped (c, []) (Snapshot c) ∧ ∀ m k, pendingFor m k (Snapshot c).1 = 0.
Proof.
  intros Hc. unfold Snapshot.
  destruct (snapFold_snapped (map_to_list (stats c)) (c, []) Hc) as [Hs Hz].
  - apply NoDup_fst_map_to_list.
  - apply Forall_forall. intros [k p] Hin. by apply elem_of_map_to_list in Hin.
  - split; [done|]. intros m k. destruct (stats c !! k) as [p|] eqn:Ek.
    + apply Hz, list_elem_of_fmap. exists (k, p). split; [done|]. by apply elem_of_map_to_list.
    + unfold pendingFor. destruct (stats (fold_left _ _ _).1 !! k) as [p|] eqn:Ek'; [|done].
      apply (sn_sub _ _ Hs) in Ek'. simpl in Ek'. congruence.
Qed.

Section Collect.
Context (Name : string → string) (normal : string → string).

(** The key [Open] counts a connection under, and the [Stat] if it exists. *)
Definition openKey (user host protocol : string) (c : Collector) : key :=
  let domain := Name host in
  let protocol := normal protocol in
  let protocol := if maxProtocolLength <? Z.of_nat (String.length protocol) then "" else protocol in
  let protocol := if String.eqb domain "" then "" else protocol in
  let k := mkKey user domain protocol in
  if negb (bool_decide (is_Some (stats c !! k))) && negb (String.eqb domain "")
     && ((MaxPerUser <=? count user c) || (MaxEntries <=? Z.of_nat (size (stats c))))
  then mkKey user "" "" else k.

Definition Open (user host protocol : string) (c : Collector) : Collector * option nat :=
  if String.eqb user "" then (c, None)
  else
    let k := openKey user host protocol c in
    let '(p, c) :=
      match stats c !! k with
      | Some p => (p, c)
      | None =>
          let p := fresh c in
          (p, mkCollector (<[p := mkStat 0 0 0 0]> (heap c)) (<[k := p]> (stats c))
                (<[user := count user c + 1]> (perUser c)) (S p))
      end in
    (mkCollector (alter (λ s, mkStat (Upload s) (Download s) (i64 (connections s + 1)) (i64 (openCount s + 1))) p (heap c))
       (stats c) (perUser c) (fresh c), Some p).

(** ** Connections using a collector

    Each live connection has its pointer and, for the specification, the key
    [Open] counted it under.  [log] records what was added under which key and
    [reported] the entries of all snapshots. *)

Record system := mkSystem {
  col : Collector;
  live : gmap nat (nat * key);
  log : list (metric * key * Z);
  reported : list Entry
}.

Definition start : system := mkSystem NewCollector ∅ [] [].

Inductive event :=
| Connect (id : nat) (user host protocol : string)
| SendUp (id : nat) (bytes : N)
| SendDown (id : nat) (bytes : N)
| Disconnect (id : nat)
| Snap.

Definition step (s : system) (e : event) : system :=
  match e with
  | Connect id user host protocol =>
      match live s !! id with
      | Some _ => s
      | None =>
          let k := openKey user host protocol (col s) in
          match Open user host protocol (col s) with
          | (c, Some p) => mkSystem c (<[id := (p, k)]> (live s)) (log s ++ [(Conns, k, 1)]) (reported s)
          | (c, None) => mkSystem c (live s) (log s) (reported s)
          end
      end
  | SendUp id n =>
      match live s !! id with
      | Some (p, k) => mkSystem (addUpload (Z.of_N n) p (col s)) (live s) (log s ++ [(Up, k, Z.of_N n)]) (reported s)
      | None => s
      end
  | SendDown id n =>
      match live s !! id with
      | Some (p, k) => mkSystem (addDownload (Z.of_N n) p (col s)) (live s) (log s ++ [(Down, k, Z.of_N n)]) (reported s)
      | None => s
      end
  | Disconnect id =>
      match live s !! id with
      | Some (p, k) => mkSystem (Release p (col s)) (delete id (live s)) (log s) (reported s)
      | None => s
      end
  | Snap => let '(c, es) := Snapshot (col s) in mkSystem c (live s) (log s) (reported s ++ es)
  end.

(** ** Conservation *)

(** The live connections on a Stat. *)
Definition liveOn (p : nat) (l : gmap nat (nat * key)) : gmap nat (nat * key) := filter (λ x, x.2.1 = p) l.

Record inv (s : system) : Prop := {
  inv_cwf : cwf (col s);
  inv_live : ∀ id p k, live s !! id = Some (p, k) → stats (col s) !! k = Some p;
  inv_open : ∀ k p st, stats (col s) !! k = Some p → heap (col s) !! p = Some st →
    openCount st = Z.of_nat (size (liveOn p (live s)));
  inv_sum : ∀ m k, added m k (log s) = reportedFor m k (reported s) + pendingFor m k (col s);
  inv_reported : ∀ m k, 0 ≤ reportedFor m k (reported s);
  inv_log : Forall (λ x, 0 ≤ x.2) (log s);
  inv_count : Z.of_nat (size (live s)) ≤ sum_Z snd (log s)
}.

Lemma added_le m k l : Forall (λ x : metric * key * Z, 0 ≤ x.2) l → added m k l ≤ sum_Z snd l.
Proof.
  induction 1 as [|x l Hx Hl IH]; [done|]. unfold added in *. simpl. case_bool_decide; lia.
Qed.

(** A live connection's Stat is there, and holds no more than was added. *)
Lemma live_stat s id p k : inv s → live s !! id = Some (p, k) →
  ∃ st, stats (col s) !! k = Some p ∧ heap (col s) !! p = Some st ∧ ∀ m, 0 ≤ get m st ≤ sum_Z snd (log s).
Proof.
  intros Hi Hl. pose proof (inv_live s Hi _ _ _ Hl) as Hk.
  destruct (cwf_ptr _ (inv_cwf s Hi) k p Hk) as [[st Hst] _]. exists st. split_and!; [done..|].
  intros m. split; [by eapply cwf_nonneg; [apply Hi|..]|].
  pose proof (inv_sum s Hi m k) as Hs. unfold pendingFor in Hs. rewrite Hk, Hst in Hs. simpl in Hs.
  pose proof (inv_reported s Hi m k). pose proof (added_le m k (log s) (inv_log s Hi)). lia.
Qed.

(** Adding to one counter of a live connection's Stat. *)
Lemma inv_add s id p k m n f : inv s → live s !! id = Some (p, k) → 0 ≤ n →
  (∀ st m', get m' (f st) = if bool_decide (m' = m) then i64 (get m' st + n) else get m' st) →
  (∀ st, openCount (f st) = openCount st) → sum_Z snd (log s) + n < 2 ^ 63 →
  inv (mkSystem (alterStat f p (col s)) (live s) (log s ++ [(m, k, n)]) (reported s)).
Proof.
  intros Hi Hl Hn Hget Hop Hw. destruct (live_stat s id p k Hi Hl) as (st & Hk & Hst & Hb).
  assert (∀ m', get m' (f st) = get m' st + if bool_decide (m' = m) then n else 0) as Hg.
  { intros m'. rewrite Hget. pose proof (Hb m'). case_bool_decide; [rewrite i64_small; lia|lia]. }
  destruct Hi as [Hc Hlive Hopen Hsum Hrep Hlog Hcnt]. split; simpl; [|done| | |done| |].
  - eapply cwf_alter; [done..|]. intros m'. rewrite Hg. pose proof (Hb m'). case_bool_decide; lia.
  - intros k' p' st' Hk' Hp'. destruct (decide (p' = p)) as [->|Hne].
    + rewrite lookup_alter_eq, Hst in Hp'. injection Hp' as <-. rewrite Hop. by eapply Hopen.
    + rewrite lookup_alter_ne in Hp' by done. by eapply Hopen.
  - intros m' k'. rewrite added_snoc, (pendingFor_alter f k p st) by done. simpl. rewrite Hsum.
    assert (pendingFor m' k (col s) = get m' st) as Hp by (unfold pendingFor; by rewrite Hk, Hst).
    destruct (decide (k = k')) as [<-|Hne].
    + rewrite (bool_decide_true (k = k)) by done. rewrite Hg, Hp.
      destruct (decide (m' = m)) as [->|Hm]; [by rewrite !bool_decide_true by done; lia|].
      rewrite !bool_decide_false by congruence. lia.
    + rewrite !bool_decide_false by congruence. lia.
  - apply Forall_app. split; [done|]. by apply Forall_singleton.
  - autorewrite with agent. simpl. lia.
Qed.

Lemma size_liveOn_insert id p k l p' : l !! id = None →
  size (liveOn p' (<[id := (p, k)]> l)) = (size (liveOn p' l) + if bool_decide (p = p') then 1 else 0)%nat.
Proof.
  intros Hid. unfold liveOn. case_bool_decide as Hp.
  - rewrite map_filter_insert_True by done. rewrite map_size_insert_None; [lia|].
    apply map_lookup_filter_None. by left.
  - rewrite map_filter_insert_False by done. rewrite delete_id by done. lia.
Qed.

Lemma size_liveOn_delete id p k l p' : l !! id = Some (p, k) →
  (size (liveOn p' (delete id l)) + if bool_decide (p = p') then 1 else 0)%nat = size (liveOn p' l).
Proof.
  intros Hid. rewrite <- (insert_delete_id l id (p, k) Hid) at 2.
  rewrite size_liveOn_insert; [done|apply lookup_delete_eq].
Qed.

Lemma size_liveOn_le p l : (size (liveOn p l) ≤ size l)%nat.
Proof. apply map_subseteq_size, map_filter_subseteq. Qed.

(** A new Stat for a key that has none. *)
Lemma inv_ensure s k pu : inv s → stats (col s) !! k = None →
  inv (mkSystem (mkCollector (<[fresh (col s) := mkStat 0 0 0 0]> (heap (col s))) (<[k := fresh (col s)]> (stats (col s)))
                   pu (S (fresh (col s)))) (live s) (log s) (reported s)).
Proof.
  intros [[Hptr Hinj Hnn] Hlive Hopen Hsum Hrep Hlog Hcnt] Hk.
  assert (∀ k' p', stats (col s) !! k' = Some p' → p' ≠ fresh (col s) ∧ k' ≠ k) as Hold.
  { intros k' p' Hk'. split; [|congruence]. intros ->. destruct (Hptr _ _ Hk'). lia. }
  split; cbn [col live log reported]; [split; cbn [stats heap fresh]| | | |done|done|done].
  - intros k' p'. rewrite lookup_insert_Some. intros [[<- <-]|[Hne Hk']].
    + rewrite lookup_insert_eq. split; [by eauto|lia].
    + destruct (Hptr k' p' Hk') as [? ?]. destruct (Hold k' p' Hk'). rewrite lookup_insert_ne by done. split; [done|lia].
  - intros k1 k2 p'. rewrite !lookup_insert_Some. intros [[<- <-]|[? H1]] [[<- E]|[? H2]]; [done|..].
    + by destruct (Hold _ _ H2).
    + subst p'. by destruct (Hold _ _ H1).
    + by eapply Hinj.
  - intros k' p' st m. rewrite lookup_insert_Some. intros [[<- <-]|[Hne Hk']].
    + rewrite lookup_insert_eq. intros [= <-]. destruct m; simpl; lia.
    + destruct (Hold k' p' Hk'). rewrite lookup_insert_ne by done. by eapply Hnn.
  - intros id p' k' Hl. apply Hlive in Hl. destruct (Hold _ _ Hl). cbn [stats]. by rewrite lookup_insert_ne.
  - intros k' p' st. cbn [stats heap]. rewrite lookup_insert_Some. intros [[<- <-]|[Hne Hk']].
    + rewrite lookup_insert_eq. intros [= <-]. simpl. assert (liveOn (fresh (col s)) (live s) = ∅) as ->; [|done].
      apply map_empty_filter_2. intros id [p' k'] Hl Heq. simpl in Heq. subst p'. apply Hlive in Hl. by destruct (Hold _ _ Hl).
    + destruct (Hold k' p' Hk'). rewrite lookup_insert_ne by done. by eapply Hopen.
  - intros m k'. rewrite Hsum. f_equal. unfold pendingFor. cbn [stats heap].
    destruct (decide (k' = k)) as [->|Hne].
    + rewrite Hk, lookup_insert_eq, lookup_insert_eq. by destruct m.
    + rewrite lookup_insert_ne by done. destruct (stats (col s) !! k') as [p'|] eqn:Ek'; [|done].
      destruct (Hold k' p' Ek'). by rewrite lookup_insert_ne.
Qed.

(** Counting a connection on a Stat that is there. *)
Lemma inv_connect s id k p : inv s → live s !! id = None → stats (col s) !! k = Some p →
  sum_Z snd (log s) + 1 < 2 ^ 63 →
  inv (mkSystem (alterStat (λ s, mkStat (Upload s) (Download s) (i64 (connections s + 1)) (i64 (openCount s + 1))) p (col s))
         (<[id := (p, k)]> (live s)) (log s ++ [(Conns, k, 1)]) (reported s)).
Proof.
  intros [Hc Hlive Hopen Hsum Hrep Hlog Hcnt] Hid Hk Hw.
  destruct (cwf_ptr _ Hc k p Hk) as [[st Hst] _]. set (f := λ s : Stat, _).
  assert (∀ m, pendingFor m k (col s) = get m st) as Hp by (intros m; unfold pendingFor; by rewrite Hk, Hst).
  assert (∀ m, 0 ≤ get m st ≤ sum_Z snd (log s)) as Hb.
  { intros m. pose proof (cwf_nonneg _ Hc k p st m Hk Hst). pose proof (Hsum m k). rewrite Hp in *.
    pose proof (Hrep m k). pose proof (added_le m k (log s) Hlog). lia. }
  assert (∀ m, get m (f st) = get m st + if bool_decide (m = Conns) then 1 else 0) as Hg.
  { intros m. pose proof (Hb m). destruct m; simpl in *; [lia..|]. rewrite i64_small; lia. }
  split; cbn [col live log reported].
  - eapply cwf_alter; [done..|]. intros m. rewrite Hg. pose proof (Hb m). case_bool_decide; lia.
  - intros id' p' k'. rewrite lookup_insert_Some. intros [[<- [= <- <-]]|[_ Hl]]; [done|by eapply Hlive].
  - intros k' p' st' Hk' Hp'. rewrite size_liveOn_insert by done. cbn [heap stats alterStat] in Hk', Hp'.
    destruct (decide (p' = p)) as [->|Hne].
    + rewrite lookup_alter_eq, Hst in Hp'. injection Hp' as <-. rewrite bool_decide_true by done. simpl.
      rewrite (Hopen k p st) by done. pose proof (size_liveOn_le p (live s)). rewrite i64_small; lia.
    + rewrite lookup_alter_ne in Hp' by done. rewrite bool_decide_false by done.
      rewrite (Hopen k' p' st') by done. lia.
  - intros m k'. rewrite added_snoc, (pendingFor_alter f k p st), Hsum by done. cbn [fst snd].
    destruct (decide (k = k')) as [<-|Hne].
    + rewrite (bool_decide_true (k = k)) by done. rewrite Hg, Hp.
      destruct (decide (m = Conns)) as [->|Hm]; [by rewrite !bool_decide_true by done; lia|].
      rewrite !bool_decide_false by congruence. lia.
    + rewrite !bool_decide_false by congruence. lia.
  - done.
  - apply Forall_app. split; [done|]. apply Forall_singleton. simpl. lia.
  - rewrite sum_Z_app, map_size_insert_None by done. simpl. lia.
Qed.

Lemma inv_disconnect s id p k : inv s → live s !! id = Some (p, k) → sum_Z snd (log s) < 2 ^ 63 →
  inv (mkSystem (Release p (col s)) (delete id (live s)) (log s) (reported s)).
Proof.
  intros Hi Hid Hw. destruct (live_stat s id p k Hi Hid) as (st & Hk & Hst & Hb).
  destruct Hi as [Hc Hlive Hopen Hsum Hrep Hlog Hcnt].
  set (f := λ s : Stat, mkStat (Upload s) (Download s) (connections s) (i64 (openCount s - 1))).
  change (Release p (col s)) with (alterStat f p (col s)).
  assert (∀ m, get m (f st) = get m st) as Hg by (by intros []).
  split; cbn [col live log reported]; [| | | |done|done|].
  - eapply cwf_alter; [done..|]. intros m. rewrite Hg. apply Hb.
  - intros id' p' k' [_ Hl]%lookup_delete_Some. by eapply Hlive.
  - intros k' p' st' Hk' Hp'. pose proof (size_liveOn_delete id p k (live s) p' Hid) as Hsz.
    cbn [heap stats alterStat] in Hk', Hp'. destruct (decide (p' = p)) as [->|Hne].
    + rewrite lookup_alter_eq, Hst in Hp'. injection Hp' as <-. rewrite bool_decide_true in Hsz by done. simpl.
      rewrite (Hopen k p st) by done. pose proof (size_liveOn_le p (live s)). rewrite i64_small; lia.
    + rewrite lookup_alter_ne in Hp' by done. rewrite bool_decide_false in Hsz by done.
      rewrite (Hopen k' p' st') by done. lia.
  - intros m k'. rewrite (pendingFor_alter f k p st), Hsum by done. case_bool_decide; [subst k'|done].
    rewrite Hg. unfold pendingFor. by rewrite Hk, Hst.
  - pose proof (map_size_delete_Some id (live s) ltac:(eauto)). lia.
Qed.

Lemma inv_snap s : inv s → inv (step s Snap).
Proof.
  intros [Hc Hlive Hopen Hsum Hrep Hlog Hcnt]. cbn [step].
  destruct (Snapshot_snapped (col s) Hc) as [Hs _]. destruct (Snapshot (col s)) as [c es].
  destruct Hs as [Hc' Hsub Hkept Ho Hsm Hmore]. cbn [fst snd] in *.
  assert (∀ m k, reportedFor m k [] = 0) as Hnil by done.
  assert (∀ m k, reportedFor m k (reported s ++ es) = reportedFor m k (reported s) + reportedFor m k es) as Happ
    by (intros; unfold reportedFor; by rewrite sum_Z_app).
  split; cbn [col live log reported]; [done| | | | |done|done].
  - intros id p k Hl. pose proof (Hlive _ _ _ Hl) as Hk. destruct (cwf_ptr _ Hc k p Hk) as [[st Hst] _].
    apply (Hkept k p st Hk Hst). rewrite (Hopen k p st Hk Hst).
    destruct (decide (liveOn p (live s) = ∅)) as [E|Hne].
    + assert (liveOn p (live s) !! id = Some (p, k)) as Hx by (by apply map_lookup_filter_Some).
      rewrite E in Hx. done.
    + apply map_size_non_empty_iff in Hne. lia.
  - intros k p st' Hk Hp. destruct (Ho p st' Hp) as (st & Hst & ->). eapply Hopen; [by apply Hsub|done].
  - intros m k. rewrite Hsum, Happ. specialize (Hsm m k). rewrite Hnil in Hsm. lia.
  - intros m k. rewrite Happ. specialize (Hmore m k). rewrite Hnil in Hmore. specialize (Hrep m k). lia.
Qed.

Lemma Open_eq user host protocol c : user ≠ "" →
  let k := openKey user host protocol c in
  let f := λ s, mkStat (Upload s) (Download s) (i64 (connections s + 1)) (i64 (openCount s + 1)) in
  Open user host protocol c =
  match stats c !! k with
  | Some p => (alterStat f p c, Some p)
  | None => (alterStat f (fresh c) (mkCollector (<[fresh c := mkStat 0 0 0 0]> (heap c)) (<[k := fresh c]> (stats c))
                (<[user := count user c + 1]> (perUser c)) (S (fresh c))), Some (fresh c))
  end.
Proof.
  intros Hu. unfold Open. rewrite (proj2 (String.eqb_neq _ _) Hu). cbv zeta. by destruct (stats c !! _).
Qed.

Lemma within_app l x : Forall (λ x : metric * key * Z, 0 ≤ x.2) [x] → within (l ++ [x]) → sum_Z snd l + x.2 < 2 ^ 63.
Proof. intros _. unfold within. autorewrite with agent. simpl. lia. Qed.

Lemma step_inv s e : inv s → within (log (step s e)) → inv (step s e).
Proof.
  intros Hi. destruct e as [id user host protocol|id n|id n|id|]; [| | | |by intros; apply inv_snap]; cbn [step].
  - destruct (live s !! id) eqn:Hid; [done|]. destruct (decide (user = "")) as [->|Hu].
    { unfold Open. simpl. by destruct s. }
    rewrite Open_eq by done. cbv zeta. set (k := openKey user host protocol (col s)).
    destruct (stats (col s) !! k) as [p|] eqn:Ek; cbn [log]; intros Hw%within_app; try by constructor.
    + by apply inv_connect.
    + pose proof (inv_ensure s k (<[user := count user (col s) + 1]> (perUser (col s))) Hi Ek) as Hi'.
      apply (inv_connect _ id k (fresh (col s)) Hi'); [done| |done]. apply lookup_insert_eq.
  - destruct (live s !! id) as [[p k]|] eqn:Hid; [|done]. cbn [log]. intros Hw%within_app; [|constructor; simpl; [lia|done]].
    eapply (inv_add s id p k Up); [done..|simpl; lia|by intros st []|done|done].
  - destruct (live s !! id) as [[p k]|] eqn:Hid; [|done]. cbn [log]. intros Hw%within_app; [|constructor; simpl; [lia|done]].
    eapply (inv_add s id p k Down); [done..|simpl; lia|by intros st []|done|done].
  - destruct (live s !! id) as [[p k]|] eqn:Hid; [|done]. intros Hw. by eapply inv_disconnect.
Qed.

Lemma inv_start : inv start.
Proof. by split. Qed.

Lemma fold_log_le es : ∀ s, sum_Z snd (log s) ≤ sum_Z snd (log (fold_left step es s)).
Proof.
  induction es as [|e es IH]; intros s; simpl; [lia|]. etrans; [|apply IH].
  destruct e as [id user host protocol|id n|id n|id|]; cbn [step].
  - destruct (live s !! id); [done|]. destruct (Open _ _ _ _) as [c [p|]]; cbn [log]; [|done].
    autorewrite with agent. simpl. lia.
  - destruct (live s !! id) as [[p k]|]; [|done]. cbn [log]. autorewrite with agent. simpl. lia.
  - destruct (live s !! id) as [[p k]|]; [|done]. cbn [log]. autorewrite with agent. simpl. lia.
  - by destruct (live s !! id) as [[p k]|].
  - by destruct (Snapshot (col s)).
Qed.

Lemma run_inv es : ∀ s, inv s → within (log (fold_left step es s)) → inv (fold_left step es s).
Proof.
  induction es as [|e es IH]; intros s Hi Hw; [done|]. simpl in *. apply IH; [|done].
  apply step_inv; [done|]. unfold within in *. pose proof (fold_log_le es (step s e)). lia.
Qed.


(** ** Bounds *)

Definition ofUser (u : string) (m : gmap key nat) : gmap key nat := filter (λ x, kUser x.1 = u) m.
Definition named (m : gmap key nat) : gmap key nat := filter (λ x, kDomain x.1 ≠ "") m.
Definition other (u : string) : key := mkKey u "" "".

Record bounded (c : Collector) : Prop := {
  b_count : ∀ u, count u c = Z.of_nat (size (ofUser u (stats c)));
  b_user : ∀ u, count u c ≤ MaxPerUser + if bool_decide (is_Some (stats c !! other u)) then 1 else 0;
  b_other : ∀ k p, stats c !! k = Some p → kDomain k = "" → k = other (kUser k);
  b_named : Z.of_nat (size (named (stats c))) ≤ MaxEntries
}.

Lemma size_filter_insert (P : key * nat → Prop) `{!∀ x, Decision (P x)} k p (m : gmap key nat) :
  m !! k = None → size (filter P (<[k := p]> m)) = (size (filter P m) + if decide (P (k, p)) then 1 else 0)%nat.
Proof.
  intros Hk. destruct (decide (P (k, p))) as [HP|HP].
  - rewrite map_filter_insert_True by done. rewrite map_size_insert_None; [lia|].
    apply map_lookup_filter_None. by left.
  - rewrite map_filter_insert_False by done. rewrite delete_id by done. lia.
Qed.

Lemma size_filter_delete (P : key * nat → Prop) `{!∀ x, Decision (P x)} k p (m : gmap key nat) :
  m !! k = Some p → (size (filter P (delete k m)) + if decide (P (k, p)) then 1 else 0)%nat = size (filter P m).
Proof.
  intros Hk. rewrite <- (insert_delete_id m k p Hk) at 2.
  rewrite size_filter_insert; [done|apply lookup_delete_eq].
Qed.

Lemma openKey_user user host protocol c : kUser (openKey user host protocol c) = user.
Proof. unfold openKey. cbv zeta. by destruct (_ && _ && _). Qed.

(** The key of a new Stat is the user's catch-all, or there was room. *)
Lemma openKey_room user host protocol c : stats c !! openKey user host protocol c = None →
  (openKey user host protocol c = other user) ∨
  (kDomain (openKey user host protocol c) ≠ "" ∧ count user c < MaxPerUser ∧ Z.of_nat (size (stats c)) < MaxEntries).
Proof.
  unfold openKey. cbv zeta. intros Hn.
  destruct (negb _ && negb _ && _) eqn:E; [by left|]. case_bool_decide as Hs; [destruct Hs; congruence|].
  destruct (String.eqb_spec (Name host) "") as [E'|E'].
  - left. unfold other. by rewrite E'.
  - right. simpl in E. apply orb_false_elim in E as [E1 E2]. apply Z.leb_gt in E1, E2. done.
Qed.

Lemma bounded_Open user host protocol c : bounded c → bounded (Open user host protocol c).1.
Proof.
  intros [Hcnt Hu Ho Hn]. destruct (decide (user = "")) as [->|Hne]; [by unfold Open|].
  rewrite Open_eq by done. cbv zeta. set (k := openKey user host protocol c).
  destruct (stats c !! k) as [p|] eqn:Ek; [done|]. cbn [fst]. unfold alterStat.
  pose proof (openKey_room user host protocol c Ek) as Hroom. fold k in Hroom.
  assert (kUser k = user) as Hku by apply openKey_user.
  assert (∀ h u, count u (mkCollector h (<[k := fresh c]> (stats c)) (<[user := count user c + 1]> (perUser c)) (S (fresh c)))
    = count u c + if decide (user = u) then 1 else 0) as Hc'.
  { intros h u. unfold count at 1. cbn [perUser]. destruct (decide (user = u)) as [<-|Hd].
    - by rewrite lookup_insert_eq.
    - rewrite lookup_insert_ne by done. unfold count. lia. }
  split; cbn [stats].
  - intros u. rewrite Hc', Hcnt. unfold ofUser. rewrite size_filter_insert by done. simpl. rewrite Hku.
    destruct (decide (user = u)); lia.
  - intros u. rewrite Hc'. specialize (Hu u). destruct (decide (user = u)) as [<-|Hd].
    + destruct Hroom as [Hk|(Hk & Hlt & _)].
      * rewrite <- Hk in *. rewrite lookup_insert_eq, bool_decide_true by eauto.
        rewrite Ek, bool_decide_false in Hu by (by intros []). lia.
      * clear Hu. destruct (bool_decide _); lia.
    + rewrite lookup_insert_ne by (intros E; apply Hd; by rewrite <- Hku, E). lia.
  - intros k' p'. rewrite lookup_insert_Some. intros [[<- <-]|[_ Hk']]; [|by eapply Ho].
    intros Hd. destruct Hroom as [Hk|[Hk _]]; [by rewrite Hk|done].
  - unfold named. rewrite size_filter_insert by done. simpl. destruct (decide (kDomain k ≠ "")) as [Hd|Hd].
    + destruct Hroom as [Hk|(_ & _ & Hlt)]; [by rewrite Hk in Hd|].
      pose proof (map_subseteq_size _ _ (map_filter_subseteq (λ x : key * nat, kDomain x.1 ≠ "") (stats c))). lia.
    + unfold named in Hn. lia.
Qed.

Lemma bounded_same c c' : stats c' = stats c → perUser c' = perUser c → bounded c → bounded c'.
Proof.
  intros Es Ep [Hcnt Hu Ho Hn]. assert (∀ u, count u c' = count u c) as Hc by (intros; unfold count; by rewrite Ep).
  split; rewrite ?Es; [|..|done|done]; intros u; rewrite Hc; [apply Hcnt|apply Hu].
Qed.

Lemma bounded_snapStep c es k p : stats c !! k = Some p → bounded c → bounded (snapStep (c, es) (k, p)).1.
Proof.
  intros Hk Hb. unfold snapStep. destruct (heap c !! p) as [st|]; [|done].
  destruct (_ || _ || _); [by apply (bounded_same c)|]. destruct (_ <=? _) eqn:Eo; [|by apply (bounded_same c)].
  destruct Hb as [Hcnt Hu Ho Hn]. cbn [fst stats heap perUser fresh].
  set (n := count (kUser k) _ - 1). assert (n = count (kUser k) c - 1) as Hneq by done. clearbody n.
  assert (0 ≤ n) as Hn0.
  { rewrite Hneq, Hcnt. unfold ofUser.
    rewrite <- (size_filter_delete (λ x, kUser x.1 = kUser k) k p (stats c) Hk). simpl. rewrite decide_True by done. lia. }
  assert (∀ u, count u (mkCollector (<[p := mkStat 0 0 0 (openCount st)]> (heap c)) (delete k (stats c))
      (if n <=? 0 then delete (kUser k) (perUser c) else <[kUser k := n]> (perUser c)) (fresh c))
    = count u c - if decide (kUser k = u) then 1 else 0) as Hc'.
  { intros u. unfold count at 1. cbn [perUser]. destruct (decide (kUser k = u)) as [<-|Hd].
    - zcases; [rewrite lookup_delete_eq|rewrite lookup_insert_eq]; simpl; lia.
    - rewrite Z.sub_0_r. unfold count. zcases; [by rewrite lookup_delete_ne|by rewrite lookup_insert_ne]. }
  split; cbn [stats].
  - intros u. rewrite Hc', Hcnt. unfold ofUser.
    rewrite <- (size_filter_delete (λ x, kUser x.1 = u) k p (stats c) Hk). simpl. destruct (decide (kUser k = u)); lia.
  - intros u. rewrite Hc'. specialize (Hu u). destruct (decide (kUser k = u)) as [<-|Hd].
    + destruct (decide (k = other (kUser k))) as [E|E].
      * rewrite <- E in *. rewrite lookup_delete_eq, bool_decide_false by (by intros []).
        rewrite Hk, bool_decide_true in Hu by eauto. lia.
      * rewrite lookup_delete_ne by done. lia.
    + rewrite lookup_delete_ne by (intros ->; by apply Hd). lia.
  - intros k' p' [_ Hk']%lookup_delete_Some. by eapply Ho.
  - unfold named in *. rewrite <- (size_filter_delete _ k p (stats c) Hk) in Hn. lia.
Qed.

Lemma bounded_Snapshot c : bounded c → bounded (Snapshot c).1.
Proof.
  unfold Snapshot. assert (∀ l x, NoDup l.*1 → Forall (λ kp, stats x.1 !! kp.1 = Some kp.2) l → bounded x.1 →
    bounded (fold_left snapStep l x).1) as Hgen.
  { induction l as [|[k p] l IH]; intros [c0 es] Hnd Hall Hb; [done|]. simpl in *.
    apply NoDup_cons in Hnd as [Hni Hnd]. apply Forall_cons in Hall as [Hk Hall].
    apply IH; [done| |by apply bounded_snapStep].
    apply Forall_forall. intros [k' p'] Hin. rewrite Forall_forall in Hall. specialize (Hall _ Hin). simpl in *.
    rewrite snapStep_other; [done|]. intros ->. apply Hni, list_elem_of_fmap. by exists (k, p'). }
  intros Hb. apply Hgen; [apply NoDup_fst_map_to_list| |done].
  apply Forall_forall. intros [k p] Hin. by apply elem_of_map_to_list in Hin.
Qed.

(** A collector stays small whatever connections do: a user has at most
    [MaxPerUser] Stats and one catch-all, whose key is the user alone; the
    named Stats of all users are at most [MaxEntries]; and the per-user count
    the bound is checked against is exact. *)
Theorem destinations_bounded es u :
  let c := col (fold_left step es start) in
  count u c = Z.of_nat (size (ofUser u (stats c))) ∧
  count u c ≤ MaxPerUser + (if bool_decide (is_Some (stats c !! other u)) then 1 else 0) ∧
  (∀ k, is_Some (stats c !! k) → kDomain k = "" → k = other (kUser k)) ∧
  Z.of_nat (size (named (stats c))) ≤ MaxEntries.
Proof.
  assert (∀ s, bounded (col s) → bounded (col (fold_left step es s))) as Hgen.
  { induction es as [|e es IH]; intros s Hb; [done|]. simpl. apply IH.
    destruct e as [id user host protocol|id n|id n|id|]; cbn [step].
    - destruct (live s !! id); [done|]. pose proof (bounded_Open user host protocol (col s) Hb) as Ho.
      by destruct (Open user host protocol (col s)) as [c [p|]].
    - destruct (live s !! id) as [[p k]|]; [|done]. by apply (bounded_same (col s)).
    - destruct (live s !! id) as [[p k]|]; [|done]. by apply (bounded_same (col s)).
    - destruct (live s !! id) as [[p k]|]; [|done]. by apply (bounded_same (col s)).
    - pose proof (bounded_Snapshot (col s) Hb). by destruct (Snapshot (col s)). }
  cbv zeta. destruct (Hgen start) as [H1 H2 H3 H4].
  { by split. }
  split_and!; [done..| |done]. intros k [p Hp]. by apply H3 with p.
Qed.

End Collect.

(** ** Witness: two connections of one user, a snapshot between their bytes. *)

Definition wEvents : list event :=
  [Connect 1 "u" "example.com" "tls"; SendUp 1 10; Connect 2 "u" "example.com" "tls"; Snap;
   SendDown 1 5; SendUp 2 7; Disconnect 1; Disconnect 2].


End Destinations.
