(* ===== verification/Limiter.v ===== *)
(** * Per-node limits (src/limiter, src/common/format/user.go, the rates of
      src/core/wireguard/wireguard.go)

    The [Limiter] of a node keeps each user's speed and device limits, the
    dynamic penalty of the speed checker and the addresses a user is online
    from.  A token bucket of the rate-limit package is represented by the rate
    it was made with. *)

From S2P Require Import Prelude GoStrings.
From Stdlib Require Import String.

Module Limiter.

(** ** Users *)

(** [panel.UserInfo]. *)
Record UserInfo := mkUser {
  Id : Z;
  Uuid : string;
  USpeedLimit : Z;
  UDeviceLimit : Z;
  WireGuardPeerIP : string;
  WireGuardPublicKey : string;
  WireGuardPresharedKey : string;
  Extra : gmap string string
}.

#[export] Instance UserInfo_eq_dec : EqDecision UserInfo.
Proof. solve_decision. Defined.

(** [agentv1pb.NodeUser], Control's user on the stream. *)
Record NodeUser := mkNodeUser {
  NUserId : Z;
  NUuid : string;
  SpeedLimitMbps : Z;
  NDeviceLimit : Z;
  ExtraJson : string
}.

(** [panelUsers] for one user; [parse] is the JSON decoding of a string map. *)
Definition panelUser (parse : string → option (gmap string string)) (u : NodeUser) : UserInfo :=
  let none := mkUser (NUserId u) (NUuid u) (SpeedLimitMbps u) (NDeviceLimit u) "" "" "" ∅ in
  if String.eqb (ExtraJson u) "" then none
  else match parse (ExtraJson u) with
       | Some extra =>
           if decide (extra = ∅) then none
           else
             let get k := default "" (extra !! k) in
             mkUser (NUserId u) (NUuid u) (SpeedLimitMbps u) (NDeviceLimit u) (get "wireguard_peer_ip")
               (if String.eqb (get "wireguard_public_key") "" then get "wireguard_peer_public_key"
                else get "wireguard_public_key")
               (get "wireguard_preshared_key") extra
       | None => none
       end.

Definition panelUsers (parse : string → option (gmap string string)) (us : list NodeUser) : list UserInfo :=
  panelUser parse <$> us.

(** [format.UserTag]. *)
Definition UserTag (tag uuid : string) : string := tag +:+ "|" +:+ uuid.

(** ** The limiter *)

Record UserLimitInfo := mkInfo {
  UID : Z;
  InfoSpeedLimit : Z;
  InfoDeviceLimit : Z;
  DynamicSpeedLimit : Z;
  ExpireTime : Z;
  OverLimit : bool
}.

Record Limiter := mkLimiter {
  SpeedLimit : Z;
  UserOnlineIP : gmap string (gmap string Z);
  OldUserOnline : gmap string Z;
  UUIDtoUID : gmap string Z;
  UserLimitInfos : gmap string UserLimitInfo;
  SpeedLimiter : gmap string Z;
  AliveList : gmap Z Z;
  ProtocolRules : list string
}.

Definition with_infos (l : Limiter) (m : gmap string UserLimitInfo) : Limiter :=
  mkLimiter (SpeedLimit l) (UserOnlineIP l) (OldUserOnline l) (UUIDtoUID l) m (SpeedLimiter l) (AliveList l)
    (ProtocolRules l).
Definition with_online (l : Limiter) (on : gmap string (gmap string Z)) (old : gmap string Z) : Limiter :=
  mkLimiter (SpeedLimit l) on old (UUIDtoUID l) (UserLimitInfos l) (SpeedLimiter l) (AliveList l) (ProtocolRules l).
Definition with_buckets (l : Limiter) (b : gmap string Z) : Limiter :=
  mkLimiter (SpeedLimit l) (UserOnlineIP l) (OldUserOnline l) (UUIDtoUID l) (UserLimitInfos l) b (AliveList l)
    (ProtocolRules l).

Definition mbpsToBytesPerSecond (mbps : Z) : Z :=
  if mbps <=? 0 then 0 else Z.quot (i64 (mbps * 1000000)) 8.

Definition determineSpeedLimit (limit1 limit2 : Z) : Z :=
  if (limit1 =? 0) || (limit2 =? 0) then
    if limit2 <? limit1 then limit1 else if limit1 <? limit2 then limit2 else 0
  else if limit2 <? limit1 then limit2 else if limit1 <? limit2 then limit1 else limit1.

(** The record of a user as [AddLimiter] and [UpdateUser] make it. *)
Definition infoOf (u : UserInfo) : UserLimitInfo := mkInfo (Id u) (USpeedLimit u) (UDeviceLimit u) 0 0 false.

Definition addUser (tag : string) (l : Limiter) (u : UserInfo) : Limiter :=
  mkLimiter (SpeedLimit l) (UserOnlineIP l) (OldUserOnline l) (<[Uuid u := Id u]> (UUIDtoUID l))
    (<[UserTag tag (Uuid u) := infoOf u]> (UserLimitInfos l)) (SpeedLimiter l) (AliveList l) (ProtocolRules l).

Definition delUser (tag : string) (l : Limiter) (u : UserInfo) : Limiter :=
  let k := UserTag tag (Uuid u) in
  mkLimiter (SpeedLimit l) (delete k (UserOnlineIP l)) (OldUserOnline l) (delete (Uuid u) (UUIDtoUID l))
    (delete k (UserLimitInfos l)) (delete k (SpeedLimiter l)) (delete (Id u) (AliveList l)) (ProtocolRules l).

Definition AddLimiter (tag : string) (limitMbps : Z) (users : list UserInfo) (alive : gmap Z Z) : Limiter :=
  fold_left (addUser tag) users
    (mkLimiter (mbpsToBytesPerSecond limitMbps) ∅ ∅ ∅ ∅ ∅ alive []).

Definition UpdateUser (tag : string) (added deleted : list UserInfo) (l : Limiter) : Limiter :=
  fold_left (addUser tag) added (fold_left (delUser tag) deleted l).

Definition UpdateDynamicSpeedLimit (tag uuid : string) (limit : Z) (expire : time) (l : Limiter) : result Limiter :=
  let k := UserTag tag uuid in
  match UserLimitInfos l !! k with
  | Some i => Ok (with_infos l (<[k := mkInfo (UID i) (InfoSpeedLimit i) (InfoDeviceLimit i)
                                   (mbpsToBytesPerSecond limit) (unix_sec expire) (OverLimit i)]> (UserLimitInfos l)))
  | None => Err "not found"
  end.

Definition AddDynamicSpeedLimit (now : time) (tag : string) (u : UserInfo) (limitNum expire : Z) (l : Limiter) : Limiter :=
  with_infos l (<[UserTag tag (Uuid u) :=
    mkInfo 0 0 0 (mbpsToBytesPerSecond limitNum) (unix_sec (add now (i64 (expire * second)))) false]> (UserLimitInfos l)).

(** [GetUserSpeedLimit] of a limiter that is not nil. *)
Definition GetUserSpeedLimit (now : time) (tag uuid : string) (l : Limiter) : Limiter * Z :=
  let k := UserTag tag uuid in
  match UserLimitInfos l !! k with
  | Some i =>
      let i := if negb (ExpireTime i =? 0) && (ExpireTime i <=? unix_sec now)
               then mkInfo (UID i) (InfoSpeedLimit i) (InfoDeviceLimit i) 0 0 (OverLimit i) else i in
      (with_infos l (<[k := i]> (UserLimitInfos l)),
       determineSpeedLimit (SpeedLimit l) (determineSpeedLimit (InfoSpeedLimit i) (DynamicSpeedLimit i)))
  | None => (l, determineSpeedLimit (SpeedLimit l) 0)
  end.

(** The device part of [CheckLimit]: whether the connection is rejected. *)
Definition checkDevice (taguuid ip : string) (uid deviceLimit : Z) (l : Limiter) : Limiter * bool :=
  let aliveIp := default 0 (AliveList l !! uid) in
  let full := (0 <? deviceLimit) && (deviceLimit <=? aliveIp) in
  let old (on : gmap string (gmap string Z)) (rejected : gmap string (gmap string Z)) :=
    match OldUserOnline l !! ip with
    | Some v => (with_online l on (if v =? uid then delete ip (OldUserOnline l) else OldUserOnline l), false)
    | None => if full then (with_online l rejected (OldUserOnline l), true)
              else (with_online l on (OldUserOnline l), false)
    end in
  match UserOnlineIP l !! taguuid with
  | Some ips =>
      match ips !! ip with
      | Some _ => (l, false)
      | None => old (<[taguuid := <[ip := uid]> ips]> (UserOnlineIP l)) (<[taguuid := delete ip (<[ip := uid]> ips)]> (UserOnlineIP l))
      end
  | None => old (<[taguuid := {[ip := uid]}]> (UserOnlineIP l)) (delete taguuid (<[taguuid := {[ip := uid]}]> (UserOnlineIP l)))
  end.

(** [CheckLimit]: the bucket's rate and whether the connection is rejected. *)
Definition CheckLimit (now : time) (taguuid ip : string) (noSSUDP : bool) (l : Limiter)
  : Limiter * option Z * bool :=
  let ip := trim_prefix ip "::ffff:" in
  match UserLimitInfos l !! taguuid with
  | None => (l, None, true)
  | Some u =>
      let '(l, userLimit) :=
        if (ExpireTime u <? unix_sec now) && negb (ExpireTime u =? 0) then
          if negb (InfoSpeedLimit u =? 0) then
            (with_infos l (<[taguuid := mkInfo (UID u) (InfoSpeedLimit u) (InfoDeviceLimit u) 0 0 (OverLimit u)]>
               (UserLimitInfos l)), InfoSpeedLimit u)
          else (with_infos l (delete taguuid (UserLimitInfos l)), 0)
        else (l, determineSpeedLimit (InfoSpeedLimit u) (DynamicSpeedLimit u)) in
      let '(l, reject) := if noSSUDP then checkDevice taguuid ip (UID u) (InfoDeviceLimit u) l else (l, false) in
      if reject then (l, None, true)
      else
        let limit := determineSpeedLimit (SpeedLimit l) userLimit in
        if 0 <? limit then
          match SpeedLimiter l !! taguuid with
          | Some b => (l, Some b, false)
          | None => (with_buckets l (<[taguuid := limit]> (SpeedLimiter l)), Some limit, false)
          end
        else (l, None, false)
  end.

(** [GetOnlineDevice]: the pairs of user and address since the last call; the
    order is the map's. *)
Definition GetOnlineDevice (l : Limiter) : Limiter * list (Z * string) :=
  let pairs := (map_to_list (UserOnlineIP l)).*2 ≫= λ ips, map_to_list ips in
  (with_online l ∅ (fold_left (λ m x, <[x.1 := x.2]> m) pairs ∅), (λ x, (x.2, x.1)) <$> pairs).

Definition CheckProtocolRule (protocol : string) (l : Limiter) : bool :=
  existsb (String.eqb protocol) (ProtocolRules l).

(** ** WireGuard's rates (wireguard.go) *)

Definition effectiveWireGuardRate (nodeRate userRate : Z) : Z :=
  if (0 <? nodeRate) && (0 <? userRate) then
    if nodeRate <? userRate then nodeRate else userRate
  else if 0 <? nodeRate then nodeRate else userRate.

(** The bits per second of [tcRate]. *)
Definition tcRate (rate : Z) : Z := i64 (rate * 8).

(** The rate tc enforces for a peer after [UpdateUserRateLimit] with the
    limiter's answer. *)
Definition peerRate (nodeRate : Z) (now : time) (tag : string) (l : Limiter) (uuid : string) : Z :=
  tcRate (effectiveWireGuardRate nodeRate (GetUserSpeedLimit now tag uuid l).2).

(** ** The effective rate *)

(** The specification: the smallest of the rates that are set (0 is "no
    limit"). *)
Definition minSet (rates : list Z) : Z :=
  match filter (λ r, r ≠ 0) rates with
  | [] => 0
  | r :: rs => foldr Z.min r rs
  end.

Lemma determine_min a b : 0 ≤ a → 0 ≤ b →
  determineSpeedLimit a b = if decide (a = 0) then b else if decide (b = 0) then a else Z.min a b.
Proof.
  intros Ha Hb. unfold determineSpeedLimit. destruct (decide (a = 0)), (decide (b = 0)); zcases; simpl; lia.
Qed.

Lemma determine_minSet a b c : 0 ≤ a → 0 ≤ b → 0 ≤ c →
  determineSpeedLimit a (determineSpeedLimit b c) = minSet [a; b; c].
Proof.
  intros Ha Hb Hc. rewrite (determine_min b c) by done.
  assert (0 ≤ if decide (b = 0) then c else if decide (c = 0) then b else Z.min b c)
    by (destruct (decide (b = 0)), (decide (c = 0)); lia).
  rewrite determine_min by done. unfold minSet. rewrite !filter_cons, filter_nil.
  repeat case_decide; simpl; lia.
Qed.

(** The effective rate of a user is the smallest rate that is set among
    the node's, the user's and the penalty that has not expired; reading it
    drops an expired penalty and touches nothing else. *)
Theorem effective_speed_limit now tag uuid l i :
  UserLimitInfos l !! UserTag tag uuid = Some i →
  0 ≤ SpeedLimit l → 0 ≤ InfoSpeedLimit i → 0 ≤ DynamicSpeedLimit i →
  let expired := negb (ExpireTime i =? 0) && (ExpireTime i <=? unix_sec now) in
  let '(l', rate) := GetUserSpeedLimit now tag uuid l in
  rate = minSet [SpeedLimit l; InfoSpeedLimit i; if expired then 0 else DynamicSpeedLimit i] ∧
  l' = (if expired then with_infos l (<[UserTag tag uuid := mkInfo (UID i) (InfoSpeedLimit i) (InfoDeviceLimit i) 0 0
                                          (OverLimit i)]> (UserLimitInfos l)) else l).
Proof.
  intros Hi Hn Hs Hd expired. unfold GetUserSpeedLimit. rewrite Hi. cbv zeta. fold expired.
  rewrite determine_minSet by (by destruct expired). destruct expired; simpl; [done|].
  split; [done|]. rewrite insert_id by done. by destruct l.
Qed.

(** ** Units *)

Lemma mbps_exact n : 0 ≤ n < 2 ^ 32 → mbpsToBytesPerSecond n = n * 125000.
Proof.
  intros Hn. unfold mbpsToBytesPerSecond. zcases; [lia|].
  rewrite i64_small by lia. replace (n * 1000000) with (n * 125000 * 8) by lia. by rewrite Z.quot_mul.
Qed.

Lemma UserTag_inj tag u v : UserTag tag u = UserTag tag v → u = v.
Proof. unfold UserTag. intros E. do 2 apply (inj _) in E. exact E. Qed.

Lemma addUser_infos tag l u : UserLimitInfos (addUser tag l u) = <[UserTag tag (Uuid u) := infoOf u]> (UserLimitInfos l).
Proof. done. Qed.

Lemma addUsers_other tag us : ∀ l k, (∀ u, u ∈ us → k ≠ UserTag tag (Uuid u)) →
  UserLimitInfos (fold_left (addUser tag) us l) !! k = UserLimitInfos l !! k.
Proof.
  induction us as [|u us IH]; intros l k Hk; [done|]. simpl. rewrite IH.
  - rewrite addUser_infos, lookup_insert_ne; [done|]. intros E. by apply (Hk u (list_elem_of_here _ _)).
  - intros v Hv. apply Hk. by apply list_elem_of_further.
Qed.

(** After adding users with distinct ids, each has its own record. *)
Lemma addUsers_lookup tag us : ∀ l u, NoDup (Uuid <$> us) → u ∈ us →
  UserLimitInfos (fold_left (addUser tag) us l) !! UserTag tag (Uuid u) = Some (infoOf u).
Proof.
  induction us as [|v us IH]; intros l u Hnd Hin; [by apply elem_of_nil in Hin|].
  rewrite fmap_cons in Hnd. apply NoDup_cons in Hnd as [Hn Hnd]. simpl.
  apply elem_of_cons in Hin as [->|Hin]; [|by apply IH].
  rewrite addUsers_other; [by rewrite addUser_infos, lookup_insert_eq|].
  intros w Hw E%UserTag_inj. apply Hn. rewrite E. apply list_elem_of_fmap. by exists w.
Qed.

Lemma AddLimiter_static tag mbps users alive : SpeedLimit (AddLimiter tag mbps users alive) = mbpsToBytesPerSecond mbps.
Proof.
  unfold AddLimiter. set (l := mkLimiter _ _ _ _ _ _ _ _).
  enough (∀ us l, SpeedLimit (fold_left (addUser tag) us l) = SpeedLimit l) as ->; [done|].
  clear. induction us as [|u us IH]; intros l; [done|]. simpl. by rewrite IH.
Qed.

(** On a WireGuard node the two limits count in different units: a node
    limit of n Mbit/s is enforced as n * 1,000,000 bit/s for a user without a
    limit, while a user whose limit Control gives as m Mbit/s is held to 8 * m
    bit/s, since the limiter and tc take the user's Mbit/s for bytes per
    second. *)
Theorem wireguard_user_rate_units parse tag n users alive now u :
  NoDup (NUuid <$> users) → u ∈ users →
  0 ≤ n < 2 ^ 32 → 0 ≤ SpeedLimitMbps u < 2 ^ 32 →
  let node := mbpsToBytesPerSecond n in
  let l := AddLimiter tag n (panelUsers parse users) alive in
  (SpeedLimitMbps u = 0 → peerRate node now tag l (NUuid u) = n * 1000000) ∧
  (0 < SpeedLimitMbps u → n = 0 ∨ SpeedLimitMbps u ≤ n * 125000 →
   peerRate node now tag l (NUuid u) = SpeedLimitMbps u * 8).
Proof.
  intros Hnd Hin Hn Hm node l.
  assert (∀ v, Uuid (panelUser parse v) = NUuid v ∧ USpeedLimit (panelUser parse v) = SpeedLimitMbps v) as Hpu.
  { intros v. unfold panelUser. destruct (String.eqb _ _); [done|]. destruct (parse _); [|done]. by destruct (decide _). }
  assert (UserLimitInfos l !! UserTag tag (NUuid u) = Some (infoOf (panelUser parse u))) as Hi.
  { rewrite <- (proj1 (Hpu u)). apply addUsers_lookup.
    - unfold panelUsers. rewrite <- list_fmap_compose.
      replace (Uuid ∘ panelUser parse <$> users) with (NUuid <$> users); [done|].
      apply list_fmap_ext. intros _ v _. by rewrite <- (proj1 (Hpu v)).
    - apply list_elem_of_fmap. by exists u. }
  assert (SpeedLimit l = n * 125000) as Hsl by (unfold l; rewrite AddLimiter_static; by apply mbps_exact).
  assert (node = n * 125000) as Hnode by (by apply mbps_exact). clearbody node.
  unfold peerRate, GetUserSpeedLimit. rewrite Hi. cbn [ExpireTime infoOf Z.eqb negb andb InfoSpeedLimit DynamicSpeedLimit snd].
  rewrite Hsl, Hnode, (proj2 (Hpu u)), determine_minSet by lia.
  unfold minSet, effectiveWireGuardRate, tcRate. rewrite !filter_cons, filter_nil.
  split; intros; rewrite i64_small; destruct (decide (n * 125000 ≠ 0)), (decide (SpeedLimitMbps u ≠ 0));
    simpl; zcases; simpl; lia.
Qed.

(** ** Admission *)

Lemma check_limit_rejects_iff now k ip noSSUDP l :
  (CheckLimit now k ip noSSUDP l).2 = true ↔
  UserLimitInfos l !! k = None ∨
  ∃ u, UserLimitInfos l !! k = Some u ∧ noSSUDP = true ∧
       0 < InfoDeviceLimit u ∧ InfoDeviceLimit u ≤ default 0 (AliveList l !! UID u) ∧
       UserOnlineIP l !! k ≫= (.!! trim_prefix ip "::ffff:") = None ∧
       OldUserOnline l !! trim_prefix ip "::ffff:" = None.
Proof.
  unfold CheckLimit. set (a := trim_prefix ip "::ffff:"). clearbody a.
  destruct (UserLimitInfos l !! k) as [u|] eqn:Eu; [|naive_solver].
  set (expire := if (_ <? _) && negb _ then _ else _).
  assert (UserOnlineIP expire.1 = UserOnlineIP l ∧ OldUserOnline expire.1 = OldUserOnline l ∧
    AliveList expire.1 = AliveList l) as (E1 & E2 & E3).
  { unfold expire. destruct (_ && negb _); [|done]. by destruct (negb _). }
  destruct expire as [l' userLimit]. simpl in E1, E2, E3.
  assert (∀ x : Limiter * bool, (let '(l, reject) := x in
    if reject then (l, @None Z, true) else
      let limit := determineSpeedLimit (SpeedLimit l) userLimit in
      if 0 <? limit then match SpeedLimiter l !! k with
        | Some b => (l, Some b, false)
        | None => (with_buckets l (<[k:=limit]> (SpeedLimiter l)), Some limit, false) end
      else (l, None, false)).2 = x.2) as ->.
  { intros [l0 []]; [done|]. cbv zeta. destruct (0 <? _); [|done]. by destruct (SpeedLimiter l0 !! k). }
  destruct noSSUDP; [|simpl; naive_solver]. unfold checkDevice. rewrite E1, E2, E3. cbv zeta.
  destruct (UserOnlineIP l !! k) as [ips|]; simpl; [destruct (ips !! a) as [v|]; [simpl; naive_solver|]|].
  all: destruct (OldUserOnline l !! a) as [v|]; [simpl; naive_solver|].
  all: destruct (Z.ltb_spec 0 (InfoDeviceLimit u)), (Z.leb_spec (InfoDeviceLimit u) (default 0 (AliveList l !! UID u)));
    simpl; split; intros Hx; try done; [right; exists u; by split_and!|..];
    destruct Hx as [?|(? & [= <-] & ? & ? & ? & ?)]; done || lia.
Qed.

(** A connection is rejected exactly for an unknown user or for a device
    too many: a limited user whose devices Control already counts up to the
    limit, on an address the user is not online from and that no user was
    reported online from in the last window. *)
Theorem check_limit_rejects now k ip noSSUDP l :
  (CheckLimit now k ip noSSUDP l).2 = true ↔
  UserLimitInfos l !! k = None ∨
  ∃ u, UserLimitInfos l !! k = Some u ∧ noSSUDP = true ∧
       0 < InfoDeviceLimit u ∧ InfoDeviceLimit u ≤ default 0 (AliveList l !! UID u) ∧
       UserOnlineIP l !! k ≫= (.!! trim_prefix ip "::ffff:") = None ∧
       OldUserOnline l !! trim_prefix ip "::ffff:" = None.
Proof. apply check_limit_rejects_iff. Qed.

(** The end of a penalty locks a user without a speed limit out: the next
    connection is let through and takes the user's record away, and every
    later connection is rejected; [GetUserSpeedLimit], reading the same
    record, keeps the user. *)
Theorem expired_penalty_removes_user now now' tag uuid ip ip' l i :
  let k := UserTag tag uuid in
  UserLimitInfos l !! k = Some i →
  InfoSpeedLimit i = 0 → InfoDeviceLimit i = 0 → ExpireTime i ≠ 0 → ExpireTime i < unix_sec now →
  let '(l', _, rejected) := CheckLimit now k ip true l in
  rejected = false ∧ UserLimitInfos l' !! k = None ∧ (CheckLimit now' k ip' true l').2 = true ∧
  is_Some (UserLimitInfos (GetUserSpeedLimit now tag uuid l).1 !! k).
Proof.
  intros k Hi Hs Hdl Hne Hexp. 
  assert (is_Some (UserLimitInfos (GetUserSpeedLimit now tag uuid l).1 !! k)) as Hget.
  { unfold GetUserSpeedLimit. fold k. rewrite Hi. cbn [fst UserLimitInfos with_infos]. rewrite lookup_insert_eq. eauto. }
  assert (UserLimitInfos (CheckLimit now k ip true l).1.1 !! k = None ∧ (CheckLimit now k ip true l).2 = false) as [Hgone Hrej].
  { split.
    - unfold CheckLimit. rewrite Hi, Hs, (proj2 (Z.ltb_lt _ _) Hexp), (proj2 (Z.eqb_neq _ _) Hne). cbn [andb negb Z.eqb].
      set (l1 := with_infos l (delete k (UserLimitInfos l))).
      assert (UserLimitInfos (checkDevice k (trim_prefix ip "::ffff:") (UID i) (InfoDeviceLimit i) l1).1 !! k = None) as Hd.
      { assert (UserLimitInfos l1 !! k = None) by apply lookup_delete_eq.
        unfold checkDevice. cbv zeta. repeat case_match; done. }
      destruct (checkDevice _ _ _ _ _) as [l2 []]; [done|]. cbv zeta. destruct (0 <? _); [|done].
      by destruct (SpeedLimiter l2 !! k).
    - apply not_true_is_false. rewrite check_limit_rejects_iff. intros [?|(u & ? & _ & ? & _)]; [congruence|].
      simplify_eq. lia. }
  destruct (CheckLimit now k ip true l) as [[l' b] rej]. simpl in *. split_and!; [done..| |done].
  unfold CheckLimit. by rewrite Hgone.
Qed.

(** ** Witnesses: a user with a penalty of 8 Mbit/s that ends at second 100. *)

Definition wUser : NodeUser := mkNodeUser 7 "u" 100 0 "".
Definition wLimiter : Limiter :=
  match UpdateDynamicSpeedLimit "t" "u" 8 (time_unix 100)
          (AddLimiter "t" 20 [mkUser 7 "u" 0 0 "" "" "" ∅] ∅) with Ok l => l | Err _ => AddLimiter "t" 20 [] ∅ end.

Lemma effective_witness :
  (GetUserSpeedLimit (time_unix 99) "t" "u" wLimiter).2 = 1000000 ∧
  (GetUserSpeedLimit (time_unix 100) "t" "u" wLimiter).2 = minSet [2500000; 0; 0].
Proof.
  split; [by vm_compute|].
  pose proof (effective_speed_limit (time_unix 100) "t" "u" wLimiter (mkInfo 7 0 0 1000000 100 false)
    ltac:(by vm_compute) ltac:(by vm_compute) ltac:(by vm_compute) ltac:(by vm_compute)) as Heff.
  cbv zeta in Heff. destruct (GetUserSpeedLimit (time_unix 100) "t" "u" wLimiter) as [l' rate]. exact (proj1 Heff).
Defined.

(** A limit of 100 Mbit/s becomes 800 bit/s. *)
Lemma wireguard_units_witness :
  peerRate (mbpsToBytesPerSecond 20) (time_unix 1) "t"
    (AddLimiter "t" 20 (panelUsers (λ _, None) [wUser]) ∅) "u" = 800.
Proof.
  apply (wireguard_user_rate_units (λ _, None) "t" 20 [wUser] ∅ (time_unix 1) wUser);
    [apply NoDup_singleton|by apply list_elem_of_singleton|lia|simpl; lia|simpl; lia|right; simpl; lia].
Defined.

Lemma expired_penalty_witness :
  let l := (CheckLimit (time_unix 101) (UserTag "t" "u") "1.2.3.4" true wLimiter).1.1 in
  (CheckLimit (time_unix 200) (UserTag "t" "u") "1.2.3.4" true l).2 = true.
Proof.
  pose proof (expired_penalty_removes_user (time_unix 101) (time_unix 200) "t" "u" "1.2.3.4" "1.2.3.4" wLimiter
    (mkInfo 7 0 0 1000000 100 false) ltac:(by vm_compute) eq_refl eq_refl ltac:(simpl; lia) ltac:(by vm_compute)) as He.
  cbv zeta in He |- *. destruct (CheckLimit (time_unix 101) (UserTag "t" "u") "1.2.3.4" true wLimiter) as [[l' b] rej].
  exact (proj1 (proj2 (proj2 He))).
Defined.

End Limiter.
