(* ===== verification/NodeUsers.v ===== *)
(** * The node's users (src/node/user.go, src/node/task.go)

    How a controller brings its core and its limiter from one user list to the
    next, the traffic it counts for the dynamic speed limit, and the online
    devices it reports.  The core is the interface [CoreUsers]; WireGuard's
    user map (src/core/wireguard/wireguard.go) is one implementation. *)

From S2P Require Import Prelude GoStrings Limiter.
From Stdlib Require Import String Ascii.
Import Limiter.

Module NodeUsers.

(** ** What a controller needs of a core *)

Class CoreUsers (C : Type) := {
  running : C → gmap string UserInfo;
  DelUsers : list UserInfo → C → C * result unit;
  AddUsers : list UserInfo → C → C * result unit
}.

Definition without (us : list UserInfo) (m : gmap string UserInfo) : gmap string UserInfo :=
  fold_left (λ m u, delete (Uuid u) m) us m.
Definition withUsers (us : list UserInfo) (m : gmap string UserInfo) : gmap string UserInfo :=
  fold_left (λ m u, <[Uuid u := u]> m) us m.

(** A core that changes nothing when it refuses. *)
Class CoreUsersLaws (C : Type) `{CoreUsers C} := {
  del_users : ∀ us c, running (DelUsers us c).1 =
    if is_ok (DelUsers us c).2 then without us (running c) else running c;
  add_users : ∀ us c, running (AddUsers us c).1 =
    if is_ok (AddUsers us c).2 then withUsers us (running c) else running c
}.

(** ** The difference of two lists *)

Definition sep : ascii := Ascii.zero.

Definition userSyncKey (u : UserInfo) : string :=
  Uuid u +:+ String sep (itoa (USpeedLimit u) +:+ String sep (itoa (UDeviceLimit u) +:+ String sep
    (WireGuardPeerIP u +:+ String sep (WireGuardPublicKey u +:+ String sep (WireGuardPresharedKey u +:+ String sep
      (default "" (Extra u !! "ss2022_key"))))))).

(** The map of keys to positions. *)
Definition oldMapOf (old : list UserInfo) : gmap string nat :=
  list_to_map (reverse (imap (λ i u, (userSyncKey u, i)) old)).

Definition compareStep (x : gmap string nat * list UserInfo) (u : UserInfo) : gmap string nat * list UserInfo :=
  let '(m, added) := x in
  match m !! userSyncKey u with
  | None => (m, added ++ [u])
  | Some _ => (delete (userSyncKey u) m, added)
  end.

(** [compareUserList]: deleted and added; the deleted ones are in the order of
    the map. *)
Definition compareUserList (old new : list UserInfo) : list UserInfo * list UserInfo :=
  let '(m, added) := fold_left compareStep new (oldMapOf old, []) in
  (omap (λ i, old !! i) (map_to_list m).*2, added).

(** ** The controller *)

Record DynamicConfig := mkDynamic { dTraffic : Z; dSpeedLimit : Z; dExpireTime : Z }.

(** The parts of [Controller] its user list moves; [traffic] is [None] for the
    nil map. *)
Record Controller (C : Type) := mkController {
  server : C;
  userList : list UserInfo;
  lim : Limiter;
  traffic : option (gmap string Z)
}.
Arguments mkController {C}.
Arguments server {C}.
Arguments userList {C}.
Arguments lim {C}.
Arguments traffic {C}.

Section Controller.
Context {C : Type} `{CoreUsers C} (tag : string) (EnableDynamicSpeedLimit : bool).

Definition applyUserDiffLocked (newU : list UserInfo) (c : Controller C) : Controller C * result unit :=
  let '(deleted, added) := compareUserList (userList c) newU in
  let '(s, r) := match deleted with [] => (server c, Ok tt) | _ => DelUsers deleted (server c) end in
  match r with
  | Err e => (mkController s (userList c) (lim c) (traffic c), Err e)
  | Ok _ =>
      let '(s, r) := match added with [] => (s, Ok tt) | _ => AddUsers added s end in
      match r with
      | Err e => (mkController s (userList c) (lim c) (traffic c), Err e)
      | Ok _ =>
          let changed := negb (bool_decide (deleted = []) && bool_decide (added = [])) in
          (mkController s newU
             (if changed then UpdateUser tag added deleted (lim c) else lim c)
             (if changed && EnableDynamicSpeedLimit
              then fold_left (λ m u, delete (Uuid u) m) deleted <$> traffic c else traffic c), Ok tt)
      end
  end.

(** *** Traffic for the dynamic speed limit *)

Record UserTraffic := mkTraffic { tUID : Z; tUpload : Z; tDownload : Z }.

(** The user a traffic entry belongs to: the first of the list with its id. *)
Definition ownerOf (us : list UserInfo) (t : UserTraffic) : option UserInfo :=
  head (filter (λ u, Id u = tUID t) us).

Definition countTraffic (us : list UserInfo) (m : gmap string Z) (t : UserTraffic) : gmap string Z :=
  match ownerOf us t with
  | Some u => <[Uuid u := i64 (default 0 (m !! Uuid u) + (i64 (tUpload t + tDownload t)))]> m
  | None => m
  end.

Definition uncountTraffic (us : list UserInfo) (m : gmap string Z) (t : UserTraffic) : gmap string Z :=
  match ownerOf us t with
  | Some u =>
      let left := i64 (default 0 (m !! Uuid u) - i64 (tUpload t + tDownload t)) in
      <[Uuid u := if left <? 0 then 0 else left]> m
  | None => m
  end.

(** The window's part of [reportUserTrafficTask] for the dynamic limit, with
    [rollbackTraffic] when it could not be spooled. *)
Definition countWindow (submitted : bool) (window : list UserTraffic) (c : Controller C) : Controller C :=
  let upd f c := mkController (server c) (userList c) (lim c)
    (if EnableDynamicSpeedLimit then f <$> traffic c else traffic c) in
  let c := upd (λ m, fold_left (countTraffic (userList c)) window m) c in
  if submitted then c else upd (λ m, fold_left (uncountTraffic (userList c)) window m) c.

(** [syncCoreUserRateLimits]: the rates the core is given, when it takes any;
    reading them drops the expired penalties. *)
Definition syncCoreUserRateLimits (now : time) (updater : bool) (c : Controller C) : Controller C * list (string * Z) :=
  if updater then
    let '(l, rates) :=
      fold_left (λ x u, let '(l, rates) := x in
                        let '(l, r) := GetUserSpeedLimit now tag (Uuid u) l in (l, rates ++ [(Uuid u, r)]))
        (userList c) (lim c, []) in
    (mkController (server c) (userList c) l (traffic c), rates)
  else (c, []).

(** [SpeedChecker]: users at the threshold get the penalty and start over. *)
Definition SpeedChecker (now : time) (config : option DynamicConfig) (updater : bool) (c : Controller C)
  : Controller C * list (string * Z) :=
  match traffic c, config with
  | Some m, Some d =>
      let over := (map_to_list m).*1 in
      let step x u :=
        let '(l, m) := x in
        match m !! u with
        | Some t =>
            if dTraffic d <=? t then
              (match UpdateDynamicSpeedLimit tag u (dSpeedLimit d) (add now (i64 (dExpireTime d * minute))) l with
               | Ok l' => l' | Err _ => l end, delete u m)
            else (l, m)
        | None => (l, m)
        end in
      let '(l, m) := fold_left step over (lim c, m) in
      syncCoreUserRateLimits now updater (mkController (server c) (userList c) l (Some m))
  | _, _ => (c, [])
  end.

End Controller.

(** ** Online devices *)

(** [mergeOnlineDevices]: entries with a user and an address, each once. *)
Fixpoint mergeFrom (seen : gset string) (us : list (Z * string)) : list (Z * string) :=
  match us with
  | [] => []
  | (uid, ip) :: us =>
      if (uid =? 0) || String.eqb ip "" then mergeFrom seen us
      else
        let key := itoa uid +:+ String sep ip in
        if decide (key ∈ seen) then mergeFrom seen us
        else (uid, ip) :: mergeFrom ({[key]} ∪ seen) us
  end.

Definition mergeOnlineDevices (us : list (Z * string)) : list (Z * string) := mergeFrom ∅ us.

(** ** WireGuard's users *)

(** [AddUsers] and [DelUsers] of a node that exists: [valid] is
    [validateWireGuardUser], [apply] whether [applyLocked] succeeds. *)
Section WireGuard.
Context (valid : UserInfo → bool) (apply : gmap string UserInfo → bool).

Fixpoint wgStore (us : list UserInfo) (m : gmap string UserInfo) : gmap string UserInfo * bool :=
  match us with
  | [] => (m, true)
  | u :: us => if valid u then wgStore us (<[Uuid u := u]> m) else (m, false)
  end.

Definition wgAddUsers (us : list UserInfo) (m : gmap string UserInfo) : gmap string UserInfo * result unit :=
  match wgStore us m with
  | (m', false) => (m', Err "invalid wireguard user")
  | (m', true) => if apply m' then (m', Ok tt) else (m, Err "apply")
  end.

Definition wgDelUsers (us : list UserInfo) (m : gmap string UserInfo) : gmap string UserInfo * result unit :=
  let m' := without us m in
  if apply m' then (m', Ok tt) else (m, Err "apply").

#[export] Instance wireguard : CoreUsers (gmap string UserInfo) := {|
  running := id;
  DelUsers := wgDelUsers;
  AddUsers := wgAddUsers
|}.

End WireGuard.

(** ** Facts about the difference *)

(** What Control sends: ids that fit an int64 and strings without NUL. *)
Record clean (u : UserInfo) : Prop := {
  cl_uuid : contains_char (Uuid u) sep = false;
  cl_ip : contains_char (WireGuardPeerIP u) sep = false;
  cl_key : contains_char (WireGuardPublicKey u) sep = false;
  cl_psk : contains_char (WireGuardPresharedKey u) sep = false;
  cl_speed : - 2 ^ 63 ≤ USpeedLimit u < 2 ^ 63;
  cl_device : - 2 ^ 63 ≤ UDeviceLimit u < 2 ^ 63
}.

(** A list of distinct users. *)
Definition userSet (us : list UserInfo) : Prop := NoDup (Uuid <$> us) ∧ Forall clean us.

(** Users with one sync key are the same for the node. *)
Lemma userSyncKey_inj u v : clean u → clean v → userSyncKey u = userSyncKey v →
  Uuid u = Uuid v ∧ USpeedLimit u = USpeedLimit v ∧ UDeviceLimit u = UDeviceLimit v ∧
  WireGuardPeerIP u = WireGuardPeerIP v ∧ WireGuardPublicKey u = WireGuardPublicKey v ∧
  WireGuardPresharedKey u = WireGuardPresharedKey v ∧
  default "" (Extra u !! "ss2022_key") = default "" (Extra v !! "ss2022_key").
Proof.
  intros [] [] E. unfold userSyncKey in E.
  apply cut_inj in E as [E1 E]; [|done..]. apply cut_inj in E as [E2 E]; [|apply itoa_no_nul..].
  apply cut_inj in E as [E3 E]; [|apply itoa_no_nul..]. apply cut_inj in E as [E4 E]; [|done..].
  apply cut_inj in E as [E5 E]; [|done..]. apply cut_inj in E as [E6 E]; [|done..].
  split_and!; try done; by apply itoa_inj.
Qed.

Lemma userSet_key us u v : userSet us → u ∈ us → v ∈ us → userSyncKey u = userSyncKey v → u = v.
Proof.
  intros [Hnd Hc] Hu Hv E. rewrite Forall_forall in Hc.
  destruct (userSyncKey_inj u v (Hc u Hu) (Hc v Hv) E) as [Eu _].
  apply list_elem_of_lookup in Hu as [i Hi], Hv as [j Hj].
  assert (i = j) as ->; [|congruence].
  eapply (NoDup_lookup _ i j (Uuid u) Hnd); rewrite list_lookup_fmap; [by rewrite Hi|by rewrite Hj, Eu].
Qed.

Lemma userSet_uuid us u v : userSet us → u ∈ us → v ∈ us → Uuid u = Uuid v → u = v.
Proof.
  intros [Hnd _] Hu Hv E. apply list_elem_of_lookup in Hu as [i Hi], Hv as [j Hj].
  assert (i = j) as ->; [|congruence].
  eapply (NoDup_lookup _ i j (Uuid u) Hnd); rewrite list_lookup_fmap; [by rewrite Hi|by rewrite Hj, E].
Qed.

Lemma userSet_keys us : userSet us → NoDup (userSyncKey <$> us).
Proof.
  intros Hus. pose proof Hus as [Hnd _]. apply NoDup_alt. intros i j k Hi Hj.
  rewrite list_lookup_fmap in Hi, Hj. destruct (us !! i) as [u|] eqn:Eu, (us !! j) as [v|] eqn:Ev; simplify_eq/=.
  assert (u = v) as ->.
  { eapply userSet_key; [done|by eapply list_elem_of_lookup_2..|done]. }
  eapply (NoDup_lookup _ i j (Uuid v) Hnd); rewrite list_lookup_fmap; [by rewrite Eu|by rewrite Ev].
Qed.

Lemma oldMapOf_lookup old k i : userSet old →
  oldMapOf old !! k = Some i ↔ ∃ u, old !! i = Some u ∧ userSyncKey u = k.
Proof.
  intros Hold. unfold oldMapOf. set (l := imap (λ i u, (userSyncKey u, i)) old).
  assert (l.*1 = userSyncKey <$> old) as El.
  { unfold l. rewrite fmap_imap. clear. induction old as [|u old IH] using rev_ind; [done|].
    rewrite imap_app, fmap_app, <- IH. done. }
  rewrite <- elem_of_list_to_map by (rewrite fmap_reverse, reverse_Permutation, El; by apply userSet_keys).
  rewrite elem_of_reverse. unfold l. rewrite list_elem_of_lookup. setoid_rewrite list_lookup_imap_Some. naive_solver.
Qed.

Lemma compareFold new : ∀ m acc, NoDup (userSyncKey <$> new) →
  (fold_left compareStep new (m, acc)).2 = acc ++ filter (λ u, m !! userSyncKey u = None) new ∧
  ∀ k, (fold_left compareStep new (m, acc)).1 !! k = if decide (k ∈ userSyncKey <$> new) then None else m !! k.
Proof.
  induction new as [|u new IH]; intros m acc Hnd; cbn [fold_left]; [by rewrite app_nil_r|].
  rewrite fmap_cons in Hnd |- *. apply NoDup_cons in Hnd as [Hni Hnd]. rewrite filter_cons.
  assert (∀ x, x ∈ new → userSyncKey x ≠ userSyncKey u) as Hother.
  { intros x Hx E. apply Hni. rewrite <- E. apply list_elem_of_fmap. by exists x. }
  destruct (m !! userSyncKey u) as [i|] eqn:Em.
  - assert (compareStep (m, acc) u = (delete (userSyncKey u) m, acc)) as -> by (unfold compareStep; by rewrite Em).
    rewrite decide_False by done. destruct (IH (delete (userSyncKey u) m) acc Hnd) as [E1 E2]. split.
    + rewrite E1. f_equal. apply filter_ext_in. intros x Hx. by rewrite lookup_delete_ne by (intros ?; by apply (Hother x)).
    + intros k. rewrite E2. destruct (decide (k = userSyncKey u)) as [->|Hne].
      * rewrite lookup_delete_eq. by destruct (decide _), (decide _); try done; set_solver.
      * rewrite lookup_delete_ne by done. destruct (decide (k ∈ _)), (decide (k ∈ _)); set_solver.
  - assert (compareStep (m, acc) u = (m, acc ++ [u])) as -> by (unfold compareStep; by rewrite Em).
    rewrite decide_True by done. destruct (IH m (acc ++ [u]) Hnd) as [E1 E2]. split.
    + by rewrite E1, <- app_assoc.
    + intros k. rewrite E2. destruct (decide (k = userSyncKey u)) as [->|Hne].
      * rewrite Em. by repeat case_decide.
      * destruct (decide (k ∈ _)), (decide (k ∈ _)); set_solver.
Qed.

(** The two lists of [compareUserList]. *)
Lemma compareUserList_spec old new : userSet old → userSet new →
  (∀ u, u ∈ (compareUserList old new).1 ↔ u ∈ old ∧ userSyncKey u ∉ userSyncKey <$> new) ∧
  (compareUserList old new).2 = filter (λ u, userSyncKey u ∉ userSyncKey <$> old) new.
Proof.
  intros Hold Hnew. unfold compareUserList.
  destruct (compareFold new (oldMapOf old) [] (userSet_keys new Hnew)) as [E2 E1].
  destruct (fold_left compareStep new (oldMapOf old, [])) as [m a]. simpl in *. split.
  - intros u. rewrite list_elem_of_omap. split.
    + intros (i & Hi & Hu). apply list_elem_of_fmap in Hi as ([k i'] & -> & Hk). simpl in *.
      apply elem_of_map_to_list in Hk. rewrite E1 in Hk. case_decide as Hd; [done|].
      apply oldMapOf_lookup in Hk as (v & Hv & <-); [|done]. simplify_eq.
      split; [by eapply list_elem_of_lookup_2|done].
    + intros [Hu Hk]. apply list_elem_of_lookup in Hu as [i Hi]. exists i. split; [|done].
      apply list_elem_of_fmap. exists (userSyncKey u, i). split; [done|]. apply elem_of_map_to_list.
      rewrite E1, decide_False by done. apply oldMapOf_lookup; [done|]. by exists u.
  - rewrite E2. apply filter_ext_in. intros u _. split.
    + intros Hn Hin. apply list_elem_of_fmap in Hin as (v & Ev & Hv). apply list_elem_of_lookup in Hv as [i Hi].
      assert (oldMapOf old !! userSyncKey u = Some i) by (apply oldMapOf_lookup; [done|]; by exists v). congruence.
    + intros Hn. destruct (oldMapOf old !! userSyncKey u) as [i|] eqn:E; [|done].
      apply oldMapOf_lookup in E as (v & Hv & Ev); [|done]. destruct Hn. rewrite <- Ev. apply list_elem_of_fmap.
      exists v. split; [done|]. by eapply list_elem_of_lookup_2.
Qed.

Lemma compareUserList_same us : userSet us → compareUserList us us = ([], []).
Proof.
  intros Hus. destruct (compareUserList_spec _ _ Hus Hus) as [Hd Ha].
  destruct (compareUserList us us) as [d a]. simpl in *. f_equal.
  - destruct d as [|v d]; [done|]. destruct (proj1 (Hd v) (list_elem_of_here _ _)) as [Hv Hn].
    destruct Hn. apply list_elem_of_fmap. by exists v.
  - rewrite Ha. apply filter_none. intros v Hv Hn. apply Hn, list_elem_of_fmap. by exists v.
Qed.

(** Appending users adds exactly them. *)
Lemma compareUserList_app us more : userSet us → userSet (us ++ more) → compareUserList us (us ++ more) = ([], more).
Proof.
  intros Hus Hnew. destruct (compareUserList_spec _ _ Hus Hnew) as [Hd Ha].
  destruct (compareUserList us (us ++ more)) as [d a]. simpl in *. f_equal.
  - destruct d as [|v d]; [done|]. destruct (proj1 (Hd v) (list_elem_of_here _ _)) as [Hv Hn].
    destruct Hn. apply list_elem_of_fmap. exists v. split; [done|]. apply elem_of_app. by left.
  - rewrite Ha, filter_app.
    assert (filter (λ u, userSyncKey u ∉ userSyncKey <$> us) us = []) as ->.
    { apply filter_none. intros v Hv Hn. apply Hn, list_elem_of_fmap. by exists v. }
    simpl. apply filter_all. intros v Hv (w & E & Hw)%list_elem_of_fmap.
    pose proof (userSet_keys _ Hnew) as Hk. rewrite fmap_app in Hk. apply NoDup_app in Hk as (_ & Hdis & _).
    apply (Hdis (userSyncKey v)); [rewrite E|]; apply list_elem_of_fmap; eauto.
Qed.

Lemma without_lookup us : ∀ m x, without us m !! x = if decide (x ∈ Uuid <$> us) then None else m !! x.
Proof.
  induction us as [|u us IH]; intros m x; [done|]. unfold without in *. cbn [fold_left]. rewrite IH, fmap_cons.
  destruct (decide (x = Uuid u)) as [->|Hne].
  - rewrite lookup_delete_eq. by repeat case_decide; try done; set_solver.
  - rewrite lookup_delete_ne by done. destruct (decide (x ∈ _)), (decide (x ∈ _)); set_solver.
Qed.

Lemma withUsers_other us : ∀ m x, x ∉ Uuid <$> us → withUsers us m !! x = m !! x.
Proof.
  induction us as [|u us IH]; intros m x Hx; [done|]. rewrite fmap_cons in Hx. apply not_elem_of_cons in Hx as [Hne Hx].
  unfold withUsers in *. cbn [fold_left]. rewrite IH by done. by rewrite lookup_insert_ne.
Qed.

Lemma withUsers_in us : ∀ m u, NoDup (Uuid <$> us) → u ∈ us → withUsers us m !! Uuid u = Some u.
Proof.
  induction us as [|v us IH]; intros m u Hnd Hin; [by apply elem_of_nil in Hin|].
  rewrite fmap_cons in Hnd. apply NoDup_cons in Hnd as [Hn Hnd].
  apply elem_of_cons in Hin as [->|Hin]; [|by apply IH].
  unfold withUsers. cbn [fold_left]. fold (withUsers us (<[Uuid v := v]> m)).
  rewrite withUsers_other by done. by rewrite lookup_insert_eq.
Qed.

Lemma delUsers_infos tag us : ∀ l x, UserLimitInfos (fold_left (delUser tag) us l) !! UserTag tag x =
  if decide (x ∈ Uuid <$> us) then None else UserLimitInfos l !! UserTag tag x.
Proof.
  induction us as [|u us IH]; intros l x; [done|]. cbn [fold_left]. rewrite IH, fmap_cons.
  cbn [delUser UserLimitInfos]. destruct (decide (x = Uuid u)) as [->|Hne].
  - rewrite lookup_delete_eq. by repeat case_decide; try done; set_solver.
  - rewrite lookup_delete_ne by (intros E%UserTag_inj; done).
    destruct (decide (x ∈ _)), (decide (x ∈ _)); set_solver.
Qed.

(** ** The core and the limiter follow the list *)

Section Follow.
Context {C : Type} `{CoreUsers C} `{!CoreUsersLaws C} (tag : string) (dyn : bool).

(** The core runs the users of a list, up to what the sync key tells apart. *)
Definition runs (us : list UserInfo) (c : C) : Prop :=
  (∀ u, u ∈ us → ∃ v, running c !! Uuid u = Some v ∧ userSyncKey v = userSyncKey u) ∧
  (∀ x v, running c !! x = Some v → ∃ u, u ∈ us ∧ Uuid u = x ∧ userSyncKey v = userSyncKey u).

(** The limiter has the limits of exactly the users of a list. *)
Definition limits (us : list UserInfo) (l : Limiter) : Prop :=
  (∀ u, u ∈ us → ∃ i, UserLimitInfos l !! UserTag tag (Uuid u) = Some i ∧
     InfoSpeedLimit i = USpeedLimit u ∧ InfoDeviceLimit i = UDeviceLimit u) ∧
  (∀ x, x ∉ Uuid <$> us → UserLimitInfos l !! UserTag tag x = None).

(** Which users of the new list were there, and which of the old one leave. *)
Lemma diff_cases old new : userSet old → userSet new →
  let '(d, a) := compareUserList old new in
  NoDup (Uuid <$> a) ∧
  (∀ u, u ∈ new → u ∈ a ∨ (∃ v, v ∈ old ∧ userSyncKey v = userSyncKey u ∧ (Uuid u ∉ Uuid <$> d) ∧ (Uuid u ∉ Uuid <$> a))) ∧
  (∀ u, u ∈ a → u ∈ new) ∧
  (∀ v, v ∈ old → Uuid v ∈ Uuid <$> d ∨ ∃ u, u ∈ new ∧ userSyncKey u = userSyncKey v).
Proof.
  intros Hold Hnew. destruct (compareUserList_spec old new Hold Hnew) as [Hd Ha].
  destruct (compareUserList old new) as [d a]. simpl in Hd, Ha. subst a. split_and!.
  - eapply sublist_NoDup; [apply Hnew|]. auto with agent.
  - intros u Hu. destruct (decide (userSyncKey u ∈ userSyncKey <$> old)) as [Hin|Hn].
    2: { left. by apply list_elem_of_filter. }
    right. apply list_elem_of_fmap in Hin as (v & Ev & Hv). exists v. split_and!; [done|done|..].
    + intros (w & Ew & Hw)%list_elem_of_fmap. apply Hd in Hw as [Hw Hk].
      assert (Uuid v = Uuid u) as Euv.
      { destruct Hold as [_ Co], Hnew as [_ Cn]. rewrite Forall_forall in Co, Cn.
        by destruct (userSyncKey_inj v u (Co v Hv) (Cn u Hu) (eq_sym Ev)). }
      assert (w = v) as -> by (apply (userSet_uuid old); congruence || done).
      apply Hk. rewrite <- Ev. apply list_elem_of_fmap. by exists u.
    + intros (w & Ew & [Hk Hw]%list_elem_of_filter)%list_elem_of_fmap.
      assert (w = u) as -> by (apply (userSet_uuid new); done).
      apply Hk. rewrite Ev. apply list_elem_of_fmap. by exists v.
  - intros u [_ Hu]%list_elem_of_filter. done.
  - intros v Hv. destruct (decide (userSyncKey v ∈ userSyncKey <$> new)) as [Hin|Hn].
    + right. apply list_elem_of_fmap in Hin as (u & Eu & Hu). eauto.
    + left. apply list_elem_of_fmap. exists v. split; [done|]. by apply Hd.
Qed.

Lemma runs_diff old new c : userSet old → userSet new → runs old c →
  let '(d, a) := compareUserList old new in
  ∀ c', running c' = withUsers a (without d (running c)) → runs new c'.
Proof.
  intros Hold Hnew [R1 R2]. pose proof (diff_cases old new Hold Hnew) as Hdiff.
  destruct (compareUserList old new) as [d a]. destruct Hdiff as (Hnd & Hcase & Hsub & Hold').
  intros c' Hc'. unfold runs. rewrite Hc'. split.
  - intros u Hu. destruct (Hcase u Hu) as [Ha|(v & Hv & Ek & Hud & Hua)].
    + exists u. split; [by apply withUsers_in|done].
    + rewrite withUsers_other, without_lookup, decide_False by done.
      assert (Uuid v = Uuid u) as <-.
      { destruct Hold as [_ Co], Hnew as [_ Cn]. rewrite Forall_forall in Co, Cn.
        by destruct (userSyncKey_inj v u (Co v Hv) (Cn u Hu) Ek). }
      destruct (R1 v Hv) as (w & Hw & Ew). exists w. split; [done|congruence].
  - intros x v Hx. destruct (decide (x ∈ Uuid <$> a)) as [Hin|Hn].
    + apply list_elem_of_fmap in Hin as (u & -> & Hu). rewrite withUsers_in in Hx by done. simplify_eq.
      exists v. split_and!; [by apply Hsub|done..].
    + rewrite withUsers_other, without_lookup in Hx by done. case_decide as Hd; [done|].
      destruct (R2 x v Hx) as (w & Hw & <- & Ew). destruct (Hold' w Hw) as [?|(u & Hu & Eu)]; [done|].
      exists u. split_and!; [done| |congruence].
      destruct Hold as [_ Co], Hnew as [_ Cn]. rewrite Forall_forall in Co, Cn.
      by destruct (userSyncKey_inj u w (Cn u Hu) (Co w Hw) Eu).
Qed.

Lemma limits_diff old new l : userSet old → userSet new → limits old l →
  let '(d, a) := compareUserList old new in limits new (UpdateUser tag a d l).
Proof.
  intros Hold Hnew [L1 L2]. pose proof (diff_cases old new Hold Hnew) as Hdiff.
  destruct (compareUserList old new) as [d a]. destruct Hdiff as (Hnd & Hcase & Hsub & Hold').
  assert (∀ x, x ∉ Uuid <$> a → UserLimitInfos (UpdateUser tag a d l) !! UserTag tag x =
    if decide (x ∈ Uuid <$> d) then None else UserLimitInfos l !! UserTag tag x) as Hother.
  { intros x Hx. unfold UpdateUser. rewrite addUsers_other, delUsers_infos; [done|].
    intros u Hu E%UserTag_inj. apply Hx. rewrite E. apply list_elem_of_fmap. by exists u. }
  split.
  - intros u Hu. destruct (Hcase u Hu) as [Ha|(v & Hv & Ek & Hud & Hua)].
    + exists (infoOf u). split; [|done]. by apply addUsers_lookup.
    + rewrite Hother, decide_False by done.
      destruct Hold as [_ Co], Hnew as [_ Cn]. rewrite Forall_forall in Co, Cn.
      destruct (userSyncKey_inj v u (Co v Hv) (Cn u Hu) Ek) as (<- & <- & <- & _). by apply L1.
  - intros x Hx. rewrite Hother.
    2: { intros (u & -> & Hu)%list_elem_of_fmap. apply Hx, list_elem_of_fmap. exists u. split; [done|by apply Hsub]. }
    case_decide as Hd; [done|]. apply L2. intros (v & -> & Hv)%list_elem_of_fmap.
    destruct (Hold' v Hv) as [?|(u & Hu & Eu)]; [done|]. apply Hx. apply list_elem_of_fmap. exists u. split; [|done].
    destruct Hold as [_ Co], Hnew as [_ Cn]. rewrite Forall_forall in Co, Cn.
    by destruct (userSyncKey_inj u v (Cn u Hu) (Co v Hv) Eu).
Qed.


(** A difference that is half applied is forgotten: when the core deletes
    the users that left and then refuses the new ones, the list stays the old
    one, so when Control goes back to the old list [applyUserDiffLocked]
    succeeds without asking anything of the core, and the deleted users stay
    out of it although they are in the list. *)
Theorem half_applied_diff_forgotten newU c u :
  userSet (userList c) → userSet newU → u ∈ userList c → userSyncKey u ∉ userSyncKey <$> newU →
  let '(deleted, added) := compareUserList (userList c) newU in
  (DelUsers deleted (server c)).2 = Ok tt → added ≠ [] → (AddUsers added (DelUsers deleted (server c)).1).2 ≠ Ok tt →
  let '(c1, r1) := applyUserDiffLocked tag dyn newU c in
  let '(c2, r2) := applyUserDiffLocked tag dyn (userList c) c1 in
  r1 ≠ Ok tt ∧ r2 = Ok tt ∧ u ∈ userList c2 ∧ running (server c2) !! Uuid u = None.
Proof.
  intros Hold Hnew Hu Hk. pose proof (compareUserList_spec _ _ Hold Hnew) as [Hd _].
  pose proof (compareUserList_same _ Hold) as Hsame.
  assert (u ∈ (compareUserList (userList c) newU).1) as Hud by (by apply Hd).
  unfold applyUserDiffLocked at 1. destruct (compareUserList (userList c) newU) as [[|v d] a]; cbn [fst] in Hud.
  { by apply elem_of_nil in Hud. }
  intros Hdel Hadd Hno.
  pose proof (del_users (v :: d) (server c)) as Hr. destruct (DelUsers (v :: d) (server c)) as [s r].
  cbn [fst snd is_ok] in *. subst r. cbn [is_ok] in Hr. destruct a as [|w a]; [done|].
  pose proof (add_users (w :: a) s) as Hr'.
  destruct (AddUsers (w :: a) s) as [s' r']. cbn [fst snd] in *. destruct r' as [[]|e]; [done|]. cbn [is_ok] in Hr'.
  unfold applyUserDiffLocked. cbn [userList server lim traffic]. rewrite Hsame. simpl.
  split_and!; [done|done|done|]. rewrite Hr', Hr, without_lookup, decide_True; [done|].
  apply list_elem_of_fmap. by exists u.
Qed.

End Follow.

(** WireGuard keeps users of a batch it refused: [AddUsers] stores the
    users before the first invalid one and returns its error without taking
    them back, so when Control drops the batch again the node reports success
    and the stored users stay in WireGuard's map, which every later
    configuration is written from, although no list of Control has them. *)
Theorem wireguard_keeps_refused_users valid apply tag dyn good bad (c : Controller (gmap string UserInfo)) :
  userSet (userList c) → userSet (userList c ++ [good; bad]) → valid good = true → valid bad = false →
  let diff := applyUserDiffLocked (H := wireguard valid apply) tag dyn in
  let '(c1, r1) := diff (userList c ++ [good; bad]) c in
  let '(c2, r2) := diff (userList c) c1 in
  r1 ≠ Ok tt ∧ r2 = Ok tt ∧ userList c2 = userList c ∧ (good ∉ userList c2) ∧
  server c2 = <[Uuid good := good]> (server c).
Proof.
  intros Hus Hnew Hg Hb. cbv zeta. unfold applyUserDiffLocked at 1.
  rewrite compareUserList_app by done. cbn [AddUsers wireguard]. unfold wgAddUsers. simpl wgStore. rewrite Hg, Hb.
  unfold applyUserDiffLocked. cbn [userList server lim traffic]. rewrite compareUserList_same by done. simpl.
  split_and!; try done. destruct Hnew as [Hnd _]. rewrite fmap_app in Hnd. apply NoDup_app in Hnd as (_ & Hdis & _).
  intros Hin. apply (Hdis (Uuid good)); [apply list_elem_of_fmap; by exists good|left].
Qed.

(** ** Traffic and online devices *)

(** What a window counts for a user. *)
Definition windowFor (us : list UserInfo) (x : string) (window : list UserTraffic) : Z :=
  sum_Z (λ t, if bool_decide (Uuid <$> ownerOf us t = Some x) then tUpload t + tDownload t else 0) window.

Definition amounts (window : list UserTraffic) : Prop :=
  Forall (λ t, 0 ≤ tUpload t ∧ 0 ≤ tDownload t ∧ tUpload t + tDownload t < 2 ^ 63) window.

Lemma windowFor_nonneg us x window : amounts window → 0 ≤ windowFor us x window.
Proof. induction 1 as [|t w Ht Hw IH]; [done|]. unfold windowFor in *. simpl. case_bool_decide; lia. Qed.

(** What one entry counts for a user. *)
Definition entryFor (us : list UserInfo) (x : string) (t : UserTraffic) : Z :=
  if bool_decide (Uuid <$> ownerOf us t = Some x) then tUpload t + tDownload t else 0.

Lemma count_entry us x t m : 0 ≤ tUpload t + tDownload t < 2 ^ 63 → 0 ≤ default 0 (m !! x) →
  default 0 (m !! x) + entryFor us x t < 2 ^ 63 →
  default 0 (countTraffic us m t !! x) = default 0 (m !! x) + entryFor us x t.
Proof.
  intros Ht. unfold entryFor, countTraffic. destruct (ownerOf us t) as [u|]; simpl; [|lia].
  destruct (decide (Uuid u = x)) as [<-|Hne].
  - rewrite bool_decide_true, lookup_insert_eq by done. simpl. intros.
    rewrite (i64_small (tUpload t + tDownload t)) by lia. rewrite i64_small; lia.
  - rewrite bool_decide_false, lookup_insert_ne by congruence. lia.
Qed.

Lemma uncount_entry us x t m : 0 ≤ tUpload t + tDownload t < 2 ^ 63 →
  entryFor us x t ≤ default 0 (m !! x) < 2 ^ 63 →
  default 0 (uncountTraffic us m t !! x) = default 0 (m !! x) - entryFor us x t.
Proof.
  intros Ht. unfold entryFor, uncountTraffic. destruct (ownerOf us t) as [u|]; simpl; [|lia].
  destruct (decide (Uuid u = x)) as [<-|Hne].
  - rewrite bool_decide_true, lookup_insert_eq by done. simpl. intros.
    rewrite (i64_small (tUpload t + tDownload t)) by lia. rewrite i64_small by lia. zcases; lia.
  - rewrite bool_decide_false, lookup_insert_ne by congruence. lia.
Qed.

Lemma entryFor_nonneg us x t : 0 ≤ tUpload t + tDownload t → 0 ≤ entryFor us x t.
Proof. unfold entryFor. intros. destruct (bool_decide _); lia. Qed.

Lemma count_window us x window : amounts window → ∀ m, 0 ≤ default 0 (m !! x) →
  default 0 (m !! x) + windowFor us x window < 2 ^ 63 →
  default 0 (fold_left (countTraffic us) window m !! x) = default 0 (m !! x) + windowFor us x window.
Proof.
  induction 1 as [|t w Ht Hw IH]; intros m Hm Hb; [unfold windowFor; simpl; lia|].
  pose proof (windowFor_nonneg us x w Hw). pose proof (entryFor_nonneg us x t ltac:(lia)).
  change (windowFor us x (t :: w)) with (entryFor us x t + windowFor us x w) in *. cbn [fold_left].
  pose proof (count_entry us x t m ltac:(lia) Hm ltac:(lia)) as Ht'. rewrite IH; lia.
Qed.

Lemma uncount_window us x window : amounts window → ∀ m, windowFor us x window ≤ default 0 (m !! x) < 2 ^ 63 →
  default 0 (fold_left (uncountTraffic us) window m !! x) = default 0 (m !! x) - windowFor us x window.
Proof.
  induction 1 as [|t w Ht Hw IH]; intros m Hb; [unfold windowFor; simpl; lia|].
  pose proof (windowFor_nonneg us x w Hw). pose proof (entryFor_nonneg us x t ltac:(lia)).
  change (windowFor us x (t :: w)) with (entryFor us x t + windowFor us x w) in *. cbn [fold_left].
  pose proof (uncount_entry us x t m ltac:(lia) ltac:(lia)) as Ht'. rewrite IH; lia.
Qed.

(** A window that could not be spooled leaves every user's count as it was. *)
Lemma rollback_restores_counts {C} (c : Controller C) window m x :
  traffic c = Some m → amounts window → 0 ≤ default 0 (m !! x) →
  default 0 (m !! x) + windowFor (userList c) x window < 2 ^ 63 →
  ∃ m', traffic (countWindow true false window c) = Some m' ∧ default 0 (m' !! x) = default 0 (m !! x).
Proof.
  intros Hm Hw H0 Hb. unfold countWindow. cbn [traffic userList server lim]. rewrite Hm. simpl.
  eexists. split; [done|]. pose proof (count_window (userList c) x window Hw m H0 Hb) as Hc.
  rewrite uncount_window by (rewrite ?Hc; done || lia). lia.
Qed.

Lemma mergeFrom_spec us : ∀ seen, Forall (λ u, - 2 ^ 63 ≤ u.1 < 2 ^ 63) us →
  NoDup (mergeFrom seen us) ∧
  ∀ uid ip, (uid, ip) ∈ mergeFrom seen us ↔
    (uid, ip) ∈ us ∧ uid ≠ 0 ∧ ip ≠ "" ∧ itoa uid +:+ String sep ip ∉ seen.
Proof.
  induction us as [|[uid ip] us IH]; intros seen Hr; simpl.
  { split; [constructor|]. intros uid ip. rewrite elem_of_nil. tauto. }
  apply Forall_cons in Hr as [Hu Hr]. simpl in Hu. setoid_rewrite elem_of_cons.
  destruct (Z.eqb_spec uid 0) as [E|E], (String.eqb_spec ip "") as [E'|E']; simpl;
    try (destruct (IH seen Hr) as [H1 H2]; split; [done|]; intros uid' ip'; rewrite H2; naive_solver).
  destruct (decide (itoa uid +:+ String sep ip ∈ seen)) as [Hs|Hs].
  { destruct (IH seen Hr) as [H1 H2]. split; [done|]. intros uid' ip'. rewrite H2. naive_solver. }
  destruct (IH ({[itoa uid +:+ String sep ip]} ∪ seen) Hr) as [H1 H2]. split.
  - apply NoDup_cons. split; [|done]. rewrite H2. set_solver.
  - intros uid' ip'. rewrite elem_of_cons, H2. split; [set_solver|].
    intros (Hin & ? & ? & Hn). destruct (decide ((uid', ip') = (uid, ip))) as [|Hne]; [by left|right].
    assert ((uid', ip') ∈ us) as Hus by (destruct Hin; [congruence|done]).
    split_and!; [done..|]. intros [Heq%elem_of_singleton|?]%elem_of_union; [|done].
    apply cut_inj in Heq as [Ei ->]; [|apply itoa_no_nul..]. apply Hne. f_equal.
    rewrite Forall_forall in Hr. apply itoa_inj; [by apply (Hr (uid', ip))|done|done].
Qed.

(** ** Witnesses: a core in memory that refuses some users. *)

Module Witness.

Section Memory.
Context (refuse : UserInfo → bool).

#[local] Instance memory : CoreUsers (gmap string UserInfo) := {|
  running := id;
  DelUsers := λ us m, (without us m, Ok tt);
  AddUsers := λ us m, if existsb refuse us then (m, Err "refused") else (withUsers us m, Ok tt)
|}.

Lemma memory_laws : CoreUsersLaws (gmap string UserInfo).
Proof. split; intros us c; simpl; [done|]. by destruct (existsb refuse us). Qed.

End Memory.

Definition userA : UserInfo := mkUser 1 "a" 10 0 "10.0.0.1" "ka" "" ∅.
Definition userB : UserInfo := mkUser 2 "b" 0 0 "10.0.0.2" "kb" "" ∅.
Definition userX : UserInfo := mkUser 3 "x" 0 0 "" "" "" ∅.
Definition c0 : Controller (gmap string UserInfo) :=
  mkController {["a" := userA]} [userA] (AddLimiter "t" 0 [userA] ∅) None.

Lemma clean_user u : u ∈ [userA; userB; userX] → clean u.
Proof.
  intros Hu. repeat (apply elem_of_cons in Hu as [->|Hu]); [split; simpl; done || lia..|by apply elem_of_nil in Hu].
Qed.

Lemma userSet_of us : NoDup (Uuid <$> us) → Forall (λ u, u ∈ [userA; userB; userX]) us → userSet us.
Proof. intros Hnd Hall. split; [done|]. eapply Forall_impl; [exact Hall|]. apply clean_user. Qed.

Ltac user_set := apply userSet_of; [apply (bool_decide_unpack _); by vm_compute|repeat constructor].

Lemma c0_runs refuse : runs (H := memory refuse) [userA] (server c0).
Proof.
  split.
  - intros u ->%list_elem_of_singleton. by exists userA.
  - intros x v. cbn [running memory server c0 id]. rewrite lookup_singleton_Some. intros [<- <-].
    exists userA. split_and!; [by apply list_elem_of_singleton|done..].
Qed.

Lemma c0_limits : limits "t" [userA] (lim c0).
Proof.
  split.
  - intros u ->%list_elem_of_singleton. exists (infoOf userA). by split_and!.
  - intros x Hx. cbn [lim c0]. unfold AddLimiter. rewrite addUsers_other; [done|].
    intros u ->%list_elem_of_singleton E%UserTag_inj. apply Hx. rewrite E. by apply list_elem_of_singleton.
Qed.


(** User a leaves and b comes; b is refused, and a is back in the list. *)
Lemma half_applied_witness :
  let m := memory (λ u, String.eqb (Uuid u) "b") in
  let c1 := (applyUserDiffLocked (H := m) "t" false [userB] c0).1 in
  let c2 := (applyUserDiffLocked (H := m) "t" false [userA] c1).1 in
  userA ∈ userList c2 ∧ server c2 !! "a" = None.
Proof.
  pose proof (half_applied_diff_forgotten (H := memory (λ u, String.eqb (Uuid u) "b"))
    (CoreUsersLaws0 := memory_laws (λ u, String.eqb (Uuid u) "b")) "t" false [userB] c0 userA
    ltac:(user_set) ltac:(user_set) ltac:(by apply list_elem_of_singleton)
    ltac:(apply (bool_decide_unpack _); by vm_compute)) as Hh.
  cbv zeta.
  assert (compareUserList (userList c0) [userB] = ([userA], [userB])) as Ecmp by (by vm_compute).
  rewrite Ecmp in Hh. specialize (Hh ltac:(by vm_compute) ltac:(discriminate) ltac:(by vm_compute)).
  destruct (applyUserDiffLocked "t" false [userB] c0) as [c1 r1]. cbn [fst] in *.
  destruct (applyUserDiffLocked "t" false (userList c0) c1) as [c2 r2] eqn:E2.
  change [userA] with (userList c0). rewrite E2. exact (proj2 (proj2 Hh)).
Defined.

Lemma wireguard_keeps_witness :
  let diff := applyUserDiffLocked (H := wireguard (λ u, negb (String.eqb (WireGuardPublicKey u) "")) (λ _, true)) "t" false in
  let c2 := (diff [userA] (diff [userA; userB; userX] c0).1).1 in
  (userB ∉ userList c2) ∧ server c2 = <["b" := userB]> (server c0).
Proof.
  pose proof (wireguard_keeps_refused_users (λ u, negb (String.eqb (WireGuardPublicKey u) "")) (λ _, true) "t" false
    userB userX c0 ltac:(user_set) ltac:(user_set) eq_refl eq_refl) as Hw.
  cbv zeta in *. change (userList c0 ++ [userB; userX]) with [userA; userB; userX] in Hw.
  destruct (applyUserDiffLocked "t" false [userA; userB; userX] c0) as [c1 r1]. cbn [fst] in *.
  change (userList c0) with [userA] in Hw.
  destruct (applyUserDiffLocked "t" false [userA] c1) as [c2 r2]. exact (proj2 (proj2 (proj2 Hw))).
Defined.

End Witness.

End NodeUsers.
