(* ===== verification/Json.v ===== *)
(** * JSON values

    The value [encoding/json] decodes into an [any]: null, booleans, numbers
    (their text, as with [UseNumber]), strings, arrays and objects.  An object
    is the list of its members.  The text of a document and its decoding are
    the class [Codec], with the digests and the base64 alphabet of Go's
    library; the code under verification only walks the decoded values. *)

From S2P Require Import Prelude.
From Stdlib Require Import String.

Unset Elimination Schemes.
Inductive json : Type :=
| JNull
| JBool (b : bool)
| JNumber (text : string)
| JString (s : string)
| JArray (items : list json)
| JObject (members : list (string * json)).
Set Elimination Schemes.

(** Induction through the items of an array and the members of an object. *)
Definition json_ind (P : json → Prop)
    (Hnull : P JNull) (Hbool : ∀ b, P (JBool b)) (Hnum : ∀ n, P (JNumber n)) (Hstr : ∀ s, P (JString s))
    (Harr : ∀ items, Forall P items → P (JArray items))
    (Hobj : ∀ members, Forall (λ kv, P kv.2) members → P (JObject members)) : ∀ j, P j :=
  fix rec (j : json) : P j :=
    match j with
    | JNull => Hnull
    | JBool b => Hbool b
    | JNumber n => Hnum n
    | JString s => Hstr s
    | JArray items =>
        Harr items ((fix go (l : list json) : Forall P l :=
          match l with
          | [] => Forall_nil_2 _
          | x :: l => Forall_cons_2 _ _ _ (rec x) (go l)
          end) items)
    | JObject members =>
        Hobj members ((fix go (l : list (string * json)) : Forall (λ kv, P kv.2) l :=
          match l with
          | [] => Forall_nil_2 _
          | kv :: l => Forall_cons_2 _ kv _ (rec kv.2) (go l)
          end) members)
    end.

(** [sub j k]: [k] occurs in [j]. *)
Inductive sub : json → json → Prop :=
| sub_here j : sub j j
| sub_item items i k : i ∈ items → sub i k → sub (JArray items) k
| sub_member members key v k : (key, v) ∈ members → sub v k → sub (JObject members) k.

(** The strings of a value, in the order of the document. *)
Fixpoint json_strings (j : json) : list string :=
  match j with
  | JString s => [s]
  | JArray items => mjoin (json_strings <$> items)
  | JObject members => mjoin ((λ kv, json_strings kv.2) <$> members)
  | _ => []
  end.

(** Go's library functions on texts: decoding of the first JSON value of a
    text, with whether the text ends after it; encoding of a value; the
    hexadecimal SHA-256 digest; base64. *)
Class Codec := {
  json_decode : string → option (json * bool);
  json_encode : json → string;
  sha256_hex : string → string;
  base64_decode : string → option string;
  base64_encode : string → string;
}.

Lemma elem_of_json_strings j s : s ∈ json_strings j ↔ sub j (JString s).
Proof.
  revert s. induction j as [| | |t|items IH|members IH] using json_ind; intros s; simpl.
  1-3: split; [by intros ?%elem_of_nil|by inversion 1].
  - rewrite list_elem_of_singleton. split; [intros ->; constructor|by inversion 1].
  - rewrite list_elem_of_join. setoid_rewrite list_elem_of_fmap. split.
    + intros (l & Hs & i & -> & Hi). rewrite Forall_forall in IH.
      eapply sub_item; [done|]. by apply IH.
    + inversion 1 as [|? i ? Hi Hk|]; subst. rewrite Forall_forall in IH.
      eexists; split; [by apply (IH i Hi)|]. by eexists.
  - rewrite list_elem_of_join. setoid_rewrite list_elem_of_fmap. split.
    + intros (l & Hs & [key v] & -> & Hi). rewrite Forall_forall in IH.
      eapply sub_member; [done|]. by apply (IH (key, v) Hi).
    + inversion 1 as [| |? key v ? Hi Hk]; subst. rewrite Forall_forall in IH.
      eexists; split; [by apply (IH (key, v) Hi)|]. by exists (key, v).
Qed.
