(* ===== verification/Envelope.v ===== *)
(** * Plugin operation envelopes

    The payload of a plugin operation (api/agent/operation_envelope.go): its
    identity, revision, target and configuration, and the secret material the
    configuration refers to.  Decoding of JSON, SHA-256 and base64 are the
    class [Codec]. *)

From S2P Require Import Prelude GoStrings Json.
From Stdlib Require Import Ascii String.

Module Envelope.

Definition OperationEnvelopeVersion : string := "anixops.operation/v1".
Definition OperationEnvelopeVersionV2 : string := "anixops.operation/v2".
Definition maxSecretMaterials : Z := 16.
Definition maxSecretMaterialBytes : Z := 2 ^ 20.
Definition maxSecretMaterialTotal : Z := 4 * 2 ^ 20.
Definition maxOperationEnvelopeBytes : Z := 6 * 2 ^ 20.
Definition ErrNotPluginEnvelope : string := "desired operation is not an AnixOps plugin envelope".

Record SecretMaterial := mkMaterial {
  Reference : string;
  SHA256 : string;
  ContentBase64 : string
}.

Record OperationEnvelope := mkEnvelope {
  Version : string;
  OperationID : string;
  IdempotencyKey : string;
  SessionID : string;
  Revision : Z;
  PluginID : string;
  TargetVersion : string;
  ConfigHash : string;
  Config : string;
  SecretMaterials : list SecretMaterial
}.

Record SecretReference := mkReference {
  SecretID : string;
  RefVersion : Z;
  Name : string
}.

#[export] Instance SecretMaterial_eq_dec : EqDecision SecretMaterial.
Proof. solve_decision. Defined.
#[export] Instance OperationEnvelope_eq_dec : EqDecision OperationEnvelope.
Proof. solve_decision. Defined.
#[export] Instance SecretReference_eq_dec : EqDecision SecretReference.
Proof. solve_decision. Defined.

(** [SecretReference.String]. *)
Definition reference_string (r : SecretReference) : string :=
  "secret://" +:+ SecretID r +:+ "@" +:+ format_uint (RefVersion r) +:+ "/" +:+ Name r.

(** ** Names *)

Definition nul : string := String Ascii.zero "".
Definition crlf : string := String "013" (String "010" "").

Definition is_secret_char (c : ascii) : bool :=
  is_lower_letter c || is_digit c || Ascii.eqb c "." || Ascii.eqb c "_" || Ascii.eqb c "-".

Definition validSecretSegment (value : string) (maximum : Z) : bool :=
  if (len value =? 0) || (maximum <? len value) || negb (String.eqb value (to_lower value))
     || String.eqb value "." || String.eqb value ".." || contains value ".." then false
  else if negb (all_chars is_secret_char value) then false
  else holds_of (λ c, is_lower_letter c || is_digit c) (first_char value)
       && holds_of (λ c, is_lower_letter c || is_digit c) (last_char value).

Definition is_file_char (c : ascii) : bool :=
  is_lower_letter c || is_upper_letter c || is_digit c || Ascii.eqb c "." || Ascii.eqb c "_" || Ascii.eqb c "-".

Definition validSecretFileName (value : string) : bool :=
  if (len value =? 0) || (120 <? len value) || String.eqb value "." || String.eqb value ".."
     || contains_any value ("/\" +:+ nul +:+ crlf) then false
  else all_chars is_file_char value.

Definition validIdentity (value : string) (maxLength : Z) : bool :=
  negb (String.eqb value "") && (len value <=? maxLength) && String.eqb value (trim_space value)
  && negb (contains_any value (nul +:+ crlf)).

Definition is_segment_char (c : ascii) : bool :=
  is_lower_letter c || is_upper_letter c || is_digit c || contains_char "._+-" c.

Definition validPathSegment (value : string) : bool :=
  if negb (validIdentity value 120) || String.eqb value "." || String.eqb value ".."
     || contains_any value "\\/" then false
  else all_chars is_segment_char value.

(** ** Secret references *)

Definition errInvalid : string := "plugin secret reference is invalid".
Definition errShape : string := "plugin secret reference must be secret://id@version/file".
Definition errVersion : string := "plugin secret reference version is invalid".
Definition errCanonical : string := "plugin secret reference is not canonical".

(** [strings.Cut] with Go's result for a missing separator. *)
Definition Cut (s : string) (sep : ascii) : string * string * bool :=
  match cut s sep with
  | Some (a, b) => (a, b, true)
  | None => (s, "", false)
  end.

Definition ParseSecretReference (raw : string) : result SecretReference :=
  if negb (String.eqb raw (trim_space raw)) || negb (has_prefix raw "secret://") then Err errInvalid
  else
    let '(identity, name, found) := Cut (trim_prefix raw "secret://") "/" in
    let '(secretID, versionText, versionFound) := Cut identity "@" in
    if negb found || negb versionFound || contains_char name "/" || contains_char versionText "@"
       || negb (validSecretSegment secretID 120) || negb (validSecretFileName name) then Err errShape
    else match parse_uint versionText with
         | None => Err errVersion
         | Some version =>
             if (version =? 0) || negb (String.eqb (format_uint version) versionText) then Err errVersion
             else let reference := mkReference secretID version name in
                  if negb (String.eqb (reference_string reference) raw) then Err errCanonical
                  else Ok reference
         end.

Section with_codec.
Context `{Codec}.

(** The walk of [SecretReferences] over the decoded configuration. *)
Fixpoint walk (current : json) (unique : gmap string SecretReference)
    : result (gmap string SecretReference) :=
  match current with
  | JObject members =>
      (fix go (l : list (string * json)) (unique : gmap string SecretReference) :=
         match l with
         | [] => Ok unique
         | kv :: l => let? unique := walk kv.2 unique in go l unique
         end) members unique
  | JArray items =>
      (fix go (l : list json) (unique : gmap string SecretReference) :=
         match l with
         | [] => Ok unique
         | x :: l => let? unique := walk x unique in go l unique
         end) items unique
  | JString typed =>
      if negb (has_prefix typed "secret://") then Ok unique
      else let? reference := ParseSecretReference typed in
           Ok (<[reference_string reference := reference]> unique)
  | _ => Ok unique
  end.

Definition string_le (a b : string) : Prop := is_true (String.leb a b).
#[export] Instance string_le_dec : RelDecision string_le.
Proof. intros a b. unfold string_le, is_true. apply _. Defined.

Definition sorted_references (unique : gmap string SecretReference) : list SecretReference :=
  omap (λ key, unique !! key) (merge_sort string_le (map_to_list unique).*1).

Definition SecretReferences (config : string) : result (list SecretReference) :=
  if len (trim_space config) =? 0 then Ok []
  else match json_decode config with
       | None => Err "decode plugin config for secret references"
       | Some (_, false) => Err "plugin config must contain one JSON value"
       | Some (value, true) => let? unique := walk value ∅ in Ok (sorted_references unique)
       end.

(** [hex.DecodeString] succeeds and gives 32 bytes. *)
Definition is_sha256 (value : string) : bool := (len value =? 64) && all_chars is_hex value.

(** One iteration of the loop of [ValidateSecretMaterials] over the materials. *)
Definition validate_material (acc : gmap string SecretMaterial * Z) (material : SecretMaterial)
    : result (gmap string SecretMaterial * Z) :=
  let '(byReference, total) := acc in
  let? reference := ParseSecretReference (Reference material) in
  let canonical := reference_string reference in
  match byReference !! canonical with
  | Some _ => Err "operation envelope contains duplicate plugin secret material"
  | None =>
    if negb (len (SHA256 material) =? 64) || negb (String.eqb (SHA256 material) (to_lower (SHA256 material)))
    then Err "plugin secret material sha256 must be lowercase hexadecimal"
    else if negb (all_chars is_hex (SHA256 material))
    then Err "plugin secret material sha256 must be lowercase hexadecimal"
    else match base64_decode (ContentBase64 material) with
         | None => Err "plugin secret material content must use canonical base64"
         | Some content =>
           if negb (String.eqb (base64_encode content) (ContentBase64 material))
           then Err "plugin secret material content must use canonical base64"
           else if (len content =? 0) || (maxSecretMaterialBytes <? len content)
           then Err "plugin secret material size is invalid"
           else if maxSecretMaterialTotal <? total + len content
           then Err "plugin secret material total size is invalid"
           else if negb (String.eqb (SHA256 material) (sha256_hex content))
           then Err "plugin secret material sha256 does not match content"
           else Ok (<[canonical := material]> byReference, total + len content)
         end
  end.

Fixpoint validate_materials (acc : gmap string SecretMaterial * Z) (l : list SecretMaterial)
    : result (gmap string SecretMaterial * Z) :=
  match l with
  | [] => Ok acc
  | m :: l => let? acc := validate_material acc m in validate_materials acc l
  end.

Definition ValidateSecretMaterials (e : OperationEnvelope) : result unit :=
  let? references := SecretReferences (Config e) in
  let materials := Z.of_nat (List.length (SecretMaterials e)) in
  if String.eqb (Version e) OperationEnvelopeVersion then
    if negb (materials =? 0) || negb (Z.of_nat (List.length references) =? 0)
    then Err "operation envelope v1 cannot carry plugin secret references or material" else Ok tt
  else if (Z.of_nat (List.length references) =? 0) || negb (materials =? Z.of_nat (List.length references))
          || (maxSecretMaterials <? materials)
  then Err "operation envelope v2 secret material set does not match config references"
  else let? acc := validate_materials (∅, 0) (SecretMaterials e) in
       if forallb (λ r, bool_decide (is_Some (acc.1 !! reference_string r))) references then Ok tt
       else Err "operation envelope is missing plugin secret material".

(** [json.Valid]. *)
Definition json_valid (text : string) : bool :=
  match json_decode text with Some (_, true) => true | _ => false end.

(** [strings.EqualFold] on hexadecimal text. *)
Definition equal_fold (a b : string) : bool := String.eqb (to_lower a) (to_lower b).

(** The fields of a desired operation the envelope is bound to. *)
Record DesiredPayload := mkDesired {
  OperationId : string;
  OperationRevision : Z;
  PayloadJson : string
}.

Definition Validate (e : OperationEnvelope) (operation : option DesiredPayload) : result unit :=
  if negb (String.eqb (Version e) OperationEnvelopeVersion)
     && negb (String.eqb (Version e) OperationEnvelopeVersionV2)
  then Err ("unsupported operation envelope version " +:+ Version e)
  else match operation with
  | None => Err "operation_id does not match desired operation"
  | Some operation =>
    if negb (validIdentity (OperationID e) 160) || negb (String.eqb (OperationID e) (OperationId operation))
    then Err "operation_id does not match desired operation"
    else if negb (validIdentity (IdempotencyKey e) 160) || negb (validIdentity (SessionID e) 160)
            || negb (validPathSegment (PluginID e)) || negb (validPathSegment (TargetVersion e))
    then Err "plugin operation envelope is missing required fields"
    else if (Revision e =? 0) || negb (Revision e =? OperationRevision operation)
    then Err "plugin operation revision does not match desired operation"
    else if negb (len (ConfigHash e) =? 64) then Err "plugin operation config_hash must be a SHA-256 digest"
    else if negb (all_chars is_hex (ConfigHash e)) then Err "plugin operation config_hash must be hexadecimal"
    else if (0 <? len (Config e)) && negb (json_valid (Config e))
    then Err "plugin operation config must be valid JSON"
    else if negb (equal_fold (ConfigHash e) (sha256_hex (Config e)))
    then Err "plugin operation config_hash does not match config"
    else ValidateSecretMaterials e
  end.

(** Decoding of the payload: [probe] reads its version field and [strict] the
    whole envelope, refusing unknown fields, with whether the text ends there. *)
Definition DecodeOperationEnvelope
    (probe : string → option string) (strict : string → option (OperationEnvelope * bool))
    (operation : option DesiredPayload) : result OperationEnvelope :=
  match operation with
  | None => Err ErrNotPluginEnvelope
  | Some op =>
    if len (PayloadJson op) =? 0 then Err ErrNotPluginEnvelope
    else if maxOperationEnvelopeBytes <? len (PayloadJson op)
    then Err "plugin operation envelope exceeds size limit"
    else match probe (PayloadJson op) with
    | None => Err "decode desired operation payload"
    | Some version =>
      if String.eqb version "" then Err ErrNotPluginEnvelope
      else match strict (PayloadJson op) with
           | None => Err "decode plugin operation envelope"
           | Some (_, false) => Err "decode plugin operation envelope: multiple JSON values"
           | Some (envelope, true) => let? _ := Validate envelope operation in Ok envelope
           end
    end
  end.

(** [operationSessionFromContext]: the session id the stream put in the
    context, if it is a valid identity. *)
Definition operationSessionFromContext (session : option string) : option string :=
  match session with
  | Some id => if validIdentity id 160 then Some id else None
  | None => None
  end.

Definition DecodeOperationEnvelopeContext
    (probe : string → option string) (strict : string → option (OperationEnvelope * bool))
    (session : option string) (operation : option DesiredPayload) : result OperationEnvelope :=
  let? envelope := DecodeOperationEnvelope probe strict operation in
  match operationSessionFromContext session with
  | None => Err "active agent control session is unavailable"
  | Some activeSession =>
    if negb (String.eqb (SessionID envelope) activeSession)
    then Err "plugin operation session_id does not match active agent control session"
    else Ok envelope
  end.

End with_codec.

(** ** Theorems *)

(** A reference [ParseSecretReference] accepts. *)
Definition reference_ok (r : SecretReference) : Prop :=
  validSecretSegment (SecretID r) 120 = true ∧ validSecretFileName (Name r) = true ∧ 0 < RefVersion r < 2 ^ 64.

Lemma validSecretSegment_chars v n : validSecretSegment v n = true →
  all_chars is_secret_char v = true ∧ v ≠ "" ∧ v ≠ "." ∧ v ≠ ".." ∧ len v ≤ n.
Proof.
  unfold validSecretSegment. case_match eqn:E1; [done|]. case_match eqn:E2; [done|]. intros _.
  rewrite !orb_false_iff in E1. destruct E1 as [[[[[E11 E12] _] E13] E14] _].
  apply negb_false_iff in E2. apply String.eqb_neq in E13, E14. apply Z.eqb_neq in E11. apply Z.ltb_ge in E12.
  repeat split; [done| |done..]. by intros ->.
Qed.

Lemma validSecretFileName_chars v : validSecretFileName v = true →
  all_chars is_file_char v = true ∧ v ≠ "" ∧ v ≠ "." ∧ v ≠ ".." ∧ len v ≤ 120.
Proof.
  unfold validSecretFileName. case_match eqn:E1; [done|]. intros Hc.
  rewrite !orb_false_iff in E1. destruct E1 as [[[[E11 E12] E13] E14] _].
  apply String.eqb_neq in E13, E14. apply Z.eqb_neq in E11. apply Z.ltb_ge in E12.
  repeat split; [done| |done..]. by intros ->.
Qed.

Lemma is_file_char_graphic c : is_file_char c = true → is_graphic c = true.
Proof.
  unfold is_file_char, is_graphic, is_lower_letter, is_upper_letter, is_digit, in_range.
  destruct (Ascii.eqb_spec c "."), (Ascii.eqb_spec c "_"), (Ascii.eqb_spec c "-"); subst; try done.
  rewrite !orb_true_iff, !andb_true_iff, !Z.leb_le.
  replace (code "a") with 97 by done. replace (code "z") with 122 by done.
  replace (code "A") with 65 by done. replace (code "Z") with 90 by done.
  replace (code "0") with 48 by done. replace (code "9") with 57 by done.
  replace (code "!") with 33 by done. replace (code "~") with 126 by done. naive_solver lia.
Qed.

Lemma reference_string_trimmed r : reference_ok r → trim_space (reference_string r) = reference_string r.
Proof.
  intros (_ & (Hn & Hne & _)%validSecretFileName_chars & _). apply trim_space_id; [done|].
  unfold reference_string. rewrite !last_char_app; [|by eauto 10 with agent..].
  eapply holds_of_impl; [apply is_file_char_graphic|]. by apply all_chars_last.
Qed.

Lemma reference_segments r : reference_ok r →
  contains_char (SecretID r +:+ "@" +:+ format_uint (RefVersion r)) "/" = false ∧
  contains_char (SecretID r) "@" = false ∧ contains_char (format_uint (RefVersion r)) "@" = false ∧
  contains_char (Name r) "/" = false.
Proof.
  intros ((Hs & _)%validSecretSegment_chars & (Hn & _)%validSecretFileName_chars & Hv).
  destruct (format_uint_shape (RefVersion r)) as [Hd _]; [lia|].
  split_and!; [|by eapply all_chars_contains..].
  apply (all_chars_contains (λ c, is_secret_char c || Ascii.eqb c "@" || is_digit c)); [|done].
  rewrite !all_chars_app, !andb_true_iff. split_and!; [| |].
  - eapply all_chars_impl; [|exact Hs]. intros c ->. done.
  - done.
  - eapply all_chars_impl; [|exact Hd]. intros c ->. by rewrite orb_true_r.
Qed.

Lemma parse_reference_string r : reference_ok r → ParseSecretReference (reference_string r) = Ok r.
Proof.
  intros Hok. destruct (reference_segments r Hok) as (H1 & H2 & H3 & H4).
  pose proof Hok as (Hid & Hname & Hv). unfold ParseSecretReference.
  rewrite (reference_string_trimmed r Hok), String.eqb_refl. cbn [negb orb].
  unfold reference_string at 1. rewrite has_prefix_app. cbn [negb].
  unfold reference_string at 1. rewrite trim_prefix_app. unfold Cut.
  replace (SecretID r +:+ "@" +:+ format_uint (RefVersion r) +:+ "/" +:+ Name r)
    with ((SecretID r +:+ "@" +:+ format_uint (RefVersion r)) +:+ String "/" (Name r))
    by (by rewrite !app_assoc_str).
  rewrite (cut_app _ _ _ H1). change ("@" +:+ format_uint (RefVersion r)) with (String "@" (format_uint (RefVersion r))).
  rewrite (cut_app _ _ _ H2), H3, H4, Hid, Hname. cbn [negb orb].
  rewrite parse_format_uint by lia. rewrite String.eqb_refl.
  destruct (Z.eqb_spec (RefVersion r) 0); [lia|]. cbn [negb orb].
  destruct r; cbn. by rewrite String.eqb_refl.
Qed.

Lemma parse_reference_inv raw r :
  ParseSecretReference raw = Ok r → raw = reference_string r ∧ reference_ok r.
Proof.
  unfold ParseSecretReference. case_match; [done|]. unfold Cut.
  destruct (cut _ "/") as [[identity name]|] eqn:Ecut; [|by destruct (cut (trim_prefix raw "secret://") "@") as [[??]|]].
  destruct (cut identity "@") as [[id vt]|] eqn:Eid; [|done].
  case_match eqn:Eg; [done|]. destruct (parse_uint vt) as [v|] eqn:Ev; [|done].
  case_match eqn:Ev0; [done|]. case_match eqn:Es; [done|]. intros [= <-].
  apply negb_false_iff, String.eqb_eq in Es.
  rewrite !orb_false_iff in Eg. destruct Eg as [[_ Hid] Hname].
  apply negb_false_iff in Hid, Hname. apply orb_false_iff in Ev0 as [Hz%Z.eqb_neq _].
  apply parse_uint_range in Ev. split; [done|]. repeat split; simpl; [done|done|lia|lia].
Qed.

(** Secret references print and parse back: [ParseSecretReference] accepts
    exactly the texts [SecretReference.String] writes for references with a
    valid id, a valid file name and a positive 64-bit version, and returns the
    reference that was written; so two texts never name one secret. *)
Theorem secret_reference_roundtrip raw r :
  ParseSecretReference raw = Ok r ↔ raw = reference_string r ∧ reference_ok r.
Proof.
  split; [apply parse_reference_inv|]. intros [-> Hok]. by apply parse_reference_string.
Qed.

(** [walk] visits the strings of the value. *)
Fixpoint walk_strings (l : list string) (unique : gmap string SecretReference)
    : result (gmap string SecretReference) :=
  match l with
  | [] => Ok unique
  | s :: l => let? unique := walk (JString s) unique in walk_strings l unique
  end.

Lemma walk_strings_app l k u :
  walk_strings (l ++ k) u = let? u := walk_strings l u in walk_strings k u.
Proof.
  revert u. induction l as [|s l IH]; intros u; [done|]. cbn [walk_strings app].
  destruct (walk (JString s) u); [apply IH|done].
Qed.

Lemma walk_is_walk_strings j u : walk j u = walk_strings (json_strings j) u.
Proof.
  revert u. induction j as [| | |s|items IH|members IH] using json_ind; intros u; try done.
  - cbn [json_strings walk_strings]. by destruct (walk (JString s) u).
  - revert u. induction IH as [|x l Hx Hl IHl]; intros u; [done|].
    change (json_strings (JArray (x :: l))) with (json_strings x ++ json_strings (JArray l)).
    rewrite walk_strings_app, <- Hx. cbn [walk]. destruct (walk x u); [|done]. apply IHl.
  - revert u. induction IH as [|[k x] l Hx Hl IHl]; intros u; [done|].
    change (json_strings (JObject ((k, x) :: l))) with (json_strings x ++ json_strings (JObject l)).
    rewrite walk_strings_app, <- Hx. cbn [walk snd]. destruct (walk x u); [|done]. apply IHl.
Qed.

(** The map of the walk: a reference under its own text. *)
Definition keyed (u : gmap string SecretReference) : Prop :=
  map_Forall (λ k r, k = reference_string r ∧ reference_ok r) u.

Lemma walk_strings_ok l u u' : keyed u → walk_strings l u = Ok u' →
  keyed u' ∧ (∀ r, reference_ok r →
    is_Some (u' !! reference_string r) ↔ is_Some (u !! reference_string r) ∨ reference_string r ∈ l).
Proof.
  revert u. induction l as [|s l IH]; intros u Hu.
  { intros [= <-]. split; [done|]. intros r _. rewrite elem_of_nil. tauto. }
  cbn [walk_strings walk]. destruct (has_prefix s "secret://") eqn:Ep; cbn [negb].
  - destruct (ParseSecretReference s) as [r0|] eqn:Er; [|done]. intros Hw.
    apply parse_reference_inv in Er as [-> Hr0]. apply IH in Hw as [Hk Hin]; [|by apply map_Forall_insert_2].
    split; [done|]. intros r Hr. rewrite Hin by done. rewrite elem_of_cons.
    destruct (decide (reference_string r = reference_string r0)) as [E|E].
    + rewrite E, lookup_insert_eq. naive_solver.
    + rewrite lookup_insert_ne by done. tauto.
  - intros Hw. apply IH in Hw as [Hk Hin]; [|done]. split; [done|]. intros r Hr.
    rewrite Hin, elem_of_cons by done. split; [tauto|]. intros [H|[<-|H]]; [by left| |by right].
    unfold reference_string in Ep. by rewrite has_prefix_app in Ep.
Qed.

Lemma reference_string_inj r r' :
  reference_ok r → reference_ok r' → reference_string r = reference_string r' → r = r'.
Proof. intros H%parse_reference_string H'%parse_reference_string E. congruence. Qed.

Lemma elem_of_sorted_references u r : keyed u →
  r ∈ sorted_references u ↔ reference_ok r ∧ is_Some (u !! reference_string r).
Proof.
  intros Hu. unfold sorted_references. rewrite list_elem_of_omap. split.
  - intros (k & _ & Hk). destruct (Hu k r Hk) as [-> Hok]. eauto.
  - intros [Hok [r' Hr']]. destruct (Hu _ _ Hr') as [E Hok'].
    apply reference_string_inj in E as <-; [|done..]. exists (reference_string r). split; [|done].
    rewrite merge_sort_Permutation. apply list_elem_of_fmap. exists (reference_string r, r).
    split; [done|]. by apply elem_of_map_to_list.
Qed.

Lemma NoDup_sorted_references u : keyed u → NoDup (sorted_references u).
Proof.
  intros Hu. unfold sorted_references.
  assert (NoDup (merge_sort string_le (map_to_list u).*1)) as Hnd.
  { rewrite merge_sort_Permutation. apply NoDup_fst_map_to_list. }
  revert Hnd. generalize (merge_sort string_le (map_to_list u).*1). intros l.
  induction 1 as [|k l Hk Hl IH]; simpl; [constructor|].
  destruct (u !! k) as [r|] eqn:Er; [|done]. constructor; [|done].
  rewrite list_elem_of_omap. intros (k' & Hk' & Hr').
  destruct (Hu k r Er) as [-> _], (Hu k' r Hr') as [-> _]. done.
Qed.

Section codec_theorems.
Context `{Codec}.

Lemma SecretReferences_spec config refs : SecretReferences config = Ok refs →
  NoDup refs ∧ ∀ r, r ∈ refs ↔ reference_ok r ∧ len (trim_space config) ≠ 0 ∧
    ∃ value, json_decode config = Some (value, true) ∧ sub value (JString (reference_string r)).
Proof.
  unfold SecretReferences. destruct (Z.eqb_spec (len (trim_space config)) 0) as [E|E].
  { intros [= <-]. split; [constructor|]. intros r. rewrite elem_of_nil. tauto. }
  destruct (json_decode config) as [[value [|]]|]; [|done..].
  rewrite walk_is_walk_strings. destruct (walk_strings _ _) as [u|] eqn:Ew; [|done]. intros [= <-].
  apply walk_strings_ok in Ew as [Hk Hin]; [|apply map_Forall_empty]. split; [by apply NoDup_sorted_references|].
  intros r. rewrite elem_of_sorted_references by done. split.
  - intros [Hok Hs]. apply Hin in Hs as [Hs|Hs]; [|by rewrite elem_of_json_strings in Hs; eauto|done].
    rewrite lookup_empty in Hs. by destruct Hs.
  - intros (Hok & _ & v & [= <-] & Hsub). split; [done|]. apply Hin; [done|]. right. by apply elem_of_json_strings.
Qed.

(** Materials accepted so far: one per reference, each with its content. *)
Definition material_ok (m : SecretMaterial) : Prop :=
  ∃ r content, reference_ok r ∧ Reference m = reference_string r ∧
    base64_decode (ContentBase64 m) = Some content ∧ SHA256 m = sha256_hex content ∧
    0 < len content ≤ maxSecretMaterialBytes.

Definition material_size (m : SecretMaterial) : Z :=
  match base64_decode (ContentBase64 m) with Some c => len c | None => 0 end.

Lemma validate_material_inv acc m acc' : validate_material acc m = Ok acc' →
  material_ok m ∧ acc.1 !! Reference m = None ∧ acc' = (<[Reference m := m]> acc.1, acc.2 + material_size m) ∧
  acc'.2 ≤ maxSecretMaterialTotal.
Proof.
  unfold validate_material, material_size. destruct acc as [by_ref total].
  destruct (ParseSecretReference (Reference m)) as [r|] eqn:Er; [|done].
  apply parse_reference_inv in Er as [Er Hok]. rewrite <- Er.
  destruct (by_ref !! Reference m) eqn:Eb; [done|].
  case_match; [done|]. case_match; [done|].
  destruct (base64_decode (ContentBase64 m)) as [content|] eqn:Ec; [|done].
  case_match; [done|]. case_match eqn:Es; [done|]. case_match eqn:Et; [done|]. case_match eqn:Ed; [done|].
  intros [= <-]. apply orb_false_iff in Es as [Es1%Z.eqb_neq Es2%Z.ltb_ge].
  apply Z.ltb_ge in Et. apply negb_false_iff, String.eqb_eq in Ed. pose proof (len_nonneg content).
  split; [|done]. exists r, content. split_and!; [done..|lia|lia].
Qed.

Lemma validate_materials_inv l : ∀ acc acc', acc.2 ≤ maxSecretMaterialTotal → validate_materials acc l = Ok acc' →
  Forall material_ok l ∧ NoDup (Reference <$> l) ∧ (∀ k, k ∈ Reference <$> l → acc.1 !! k = None) ∧
  (∀ k, is_Some (acc'.1 !! k) ↔ is_Some (acc.1 !! k) ∨ k ∈ Reference <$> l) ∧
  acc'.2 = acc.2 + sum_Z material_size l ∧ acc'.2 ≤ maxSecretMaterialTotal.
Proof.
  induction l as [|m l IH]; intros acc acc' Ha.
  { intros [= <-]. split_and!; [constructor|constructor|by intros k ?%elem_of_nil| |simpl; lia|done].
    intros k. rewrite elem_of_nil. tauto. }
  cbn [validate_materials]. destruct (validate_material acc m) as [acc1|] eqn:E; [|done]. intros Hl.
  apply validate_material_inv in E as (Hm & Hnone & -> & Ht). apply IH in Hl as (H1 & H2 & H3 & H4 & H5 & H6); [|done].
  cbn [fst snd] in *. rewrite fmap_cons. split_and!.
  - by constructor.
  - constructor; [|done]. intros Hin. specialize (H3 _ Hin). by rewrite lookup_insert_eq in H3.
  - intros k [->|Hk]%elem_of_cons; [done|]. specialize (H3 k Hk). apply lookup_insert_None in H3. naive_solver.
  - intros k. rewrite H4, elem_of_cons. destruct (decide (k = Reference m)) as [->|Hne].
    + rewrite lookup_insert_eq. naive_solver.
    + rewrite lookup_insert_ne by done. tauto.
  - rewrite H5. simpl. lia.
  - done.
Qed.

(** Secret material of an accepted envelope is complete and exact: in
    version 2 the materials are, one for one, the secret references of the
    configuration, each carries non-empty content of at most 1 MiB with the
    digest it names, and all together at most 4 MiB; a version 1 envelope has
    neither references nor material. *)
Theorem validated_secret_materials e refs :
  ValidateSecretMaterials e = Ok tt → SecretReferences (Config e) = Ok refs →
  if String.eqb (Version e) OperationEnvelopeVersion then SecretMaterials e = [] ∧ refs = []
  else Reference <$> SecretMaterials e ≡ₚ reference_string <$> refs ∧
       Forall material_ok (SecretMaterials e) ∧ sum_Z material_size (SecretMaterials e) ≤ maxSecretMaterialTotal.
Proof.
  unfold ValidateSecretMaterials. intros Hv Hr. rewrite Hr in Hv.
  destruct (String.eqb (Version e) _).
  { case_match eqn:E; [done|]. apply orb_false_iff in E as [E1 E2].
    apply negb_false_iff, Z.eqb_eq in E1, E2. by destruct (SecretMaterials e), refs. }
  case_match eqn:E; [done|]. rewrite !orb_false_iff in E. destruct E as [[_ E%negb_false_iff%Z.eqb_eq] _].
  destruct (validate_materials _ _) as [acc|] eqn:Em; [|done].
  case_match eqn:Ef; [|done].
  apply validate_materials_inv in Em as (H1 & H2 & _ & H4 & H5 & H6); [|done]. cbn [fst snd] in *.
  split_and!; [|done|lia].
  apply SecretReferences_spec in Hr as [Hnd Hin]. symmetry. apply submseteq_length_Permutation; [|rewrite !length_fmap; lia].
  apply NoDup_submseteq.
  - apply NoDup_fmap_2_strong; [|done]. intros r r' Hr1 Hr2. apply reference_string_inj; [by apply Hin in Hr1 as [? _]|].
    by apply Hin in Hr2 as [? _].
  - intros k (r & -> & Hr)%list_elem_of_fmap. rewrite forallb_forall in Ef.
    specialize (Ef r). rewrite <- list_elem_of_In, bool_decide_eq_true, H4, lookup_empty in Ef.
    destruct (Ef Hr) as [[? ?]|]; done.
Qed.

Lemma validated_materials_nodup e : ValidateSecretMaterials e = Ok tt → NoDup (Reference <$> SecretMaterials e).
Proof.
  unfold ValidateSecretMaterials. destruct (SecretReferences (Config e)); [|done].
  destruct (String.eqb (Version e) _).
  - case_match eqn:E; [done|]. apply orb_false_iff in E as [E%negb_false_iff%Z.eqb_eq _].
    destruct (SecretMaterials e); [constructor|done].
  - case_match; [done|]. destruct (validate_materials _ _) as [acc|] eqn:Em; [|done].
    apply validate_materials_inv in Em as (_ & Hnd & _); [done|]. done.
Qed.

Lemma Validate_inv e op : Validate e (Some op) = Ok tt →
  OperationID e = OperationId op ∧ Revision e = OperationRevision op ∧ Revision e ≠ 0 ∧
  validIdentity (OperationID e) 160 = true ∧ validIdentity (IdempotencyKey e) 160 = true ∧
  validIdentity (SessionID e) 160 = true ∧ validPathSegment (PluginID e) = true ∧ validPathSegment (TargetVersion e) = true ∧
  equal_fold (ConfigHash e) (sha256_hex (Config e)) = true ∧ ValidateSecretMaterials e = Ok tt.
Proof.
  unfold Validate. do 8 (case_match; [done|]). intros Hm.
  repeat match goal with
  | H : _ || _ = false |- _ => apply orb_false_iff in H as [? ?]
  | H : negb _ = false |- _ => apply negb_false_iff in H
  | H : String.eqb _ _ = true |- _ => apply String.eqb_eq in H
  | H : (_ =? _) = true |- _ => apply Z.eqb_eq in H
  | H : (_ =? _) = false |- _ => apply Z.eqb_neq in H
  end. done.
Qed.

(** An operation's envelope is bound to it: when the stream decodes an
    envelope, it has the id and the revision of the desired operation and the
    session of the stream, its plugin id and version are single path segments,
    its configuration has the digest it names and its secret material is
    valid; every other envelope is refused with an error. *)
Theorem decoded_envelope_bound probe strict session operation e :
  DecodeOperationEnvelopeContext probe strict session operation = Ok e →
  ∃ op, operation = Some op ∧ len (PayloadJson op) ≤ maxOperationEnvelopeBytes ∧
    OperationID e = OperationId op ∧ Revision e = OperationRevision op ∧ Revision e ≠ 0 ∧
    session = Some (SessionID e) ∧ validPathSegment (PluginID e) = true ∧ validPathSegment (TargetVersion e) = true ∧
    equal_fold (ConfigHash e) (sha256_hex (Config e)) = true ∧ ValidateSecretMaterials e = Ok tt.
Proof.
  unfold DecodeOperationEnvelopeContext, DecodeOperationEnvelope.
  destruct operation as [op|]; [|done]. destruct (len (PayloadJson op) =? 0); [done|].
  destruct (_ <? len (PayloadJson op)) eqn:El; [done|].
  destruct (probe _) as [version|]; [|done]. destruct (String.eqb version ""); [done|]. destruct (strict _) as [[env [|]]|]; [|done..].
  destruct (Validate env (Some op)) as [[]|] eqn:Ev; [|done]. unfold operationSessionFromContext.
  destruct session as [id|]; [|done]. destruct (validIdentity id 160); [|done].
  destruct (String.eqb_spec (SessionID env) id) as [<-|]; [|done]. intros [= <-].
  apply Validate_inv in Ev as (? & ? & ? & _ & _ & _ & ? & ? & ? & ?). apply Z.ltb_ge in El. naive_solver.
Qed.

End codec_theorems.

(** ** A concrete codec, and the theorems at concrete envelopes *)

(** Texts are their own JSON string and base64; every digest is the same. *)
Definition toy_codec : Codec :=
  {| json_decode := λ t, Some (JString t, true);
     json_encode := λ _, "{}";
     sha256_hex := λ _, String.concat "" (repeat "ab" 32);
     base64_decode := Some; base64_encode := id |}.

Definition toy_envelope : OperationEnvelope :=
  mkEnvelope OperationEnvelopeVersionV2 "op-1" "key-1" "session-1" 7 "telemetry" "1.2.0"
    (String.concat "" (repeat "ab" 32)) "secret://db@3/key.pem"
    [mkMaterial "secret://db@3/key.pem" (String.concat "" (repeat "ab" 32)) "cGVt"].

Lemma secret_reference_roundtrip_witness : ParseSecretReference "secret://db@3/key.pem" = Ok (mkReference "db" 3 "key.pem").
Proof. apply secret_reference_roundtrip. vm_compute. repeat split; congruence. Defined.

Lemma validated_secret_materials_witness :
  Reference <$> SecretMaterials toy_envelope ≡ₚ ["secret://db@3/key.pem"].
Proof.
  apply (@validated_secret_materials toy_codec toy_envelope [mkReference "db" 3 "key.pem"]);
    vm_compute; reflexivity.
Defined.

Lemma decoded_envelope_bound_witness : PluginID toy_envelope = "telemetry" ∧ validPathSegment (PluginID toy_envelope) = true.
Proof.
  split; [reflexivity|].
  destruct (@decoded_envelope_bound toy_codec (λ _, Some (Version toy_envelope)) (λ _, Some (toy_envelope, true))
    (Some "session-1") (Some (mkDesired "op-1" 7 "{}")) toy_envelope) as (? & ? & ? & ? & ? & ? & ? & Hid & _);
    [vm_compute; reflexivity|exact Hid].
Defined.

End Envelope.
