(* ===== verification/PluginNames.v ===== *)
(** * Names, paths and configurations of plugins

    The predicates of plugin/supervisor.go that decide which identifiers,
    versions, paths, routes and configurations the supervisor accepts.  A Go
    string is its bytes: the loops over runes only accept ASCII runes, and
    every byte of a longer rune is refused by the same test. *)

From S2P Require Import Prelude GoStrings Json.
From Stdlib Require Import Ascii String.

Module PluginNames.

(** ** [path.Clean] and [filepath.Base] on slash-separated paths *)

Fixpoint clean_parts (rooted : bool) (parts out : list string) : list string :=
  match parts with
  | [] => reverse out
  | part :: parts =>
    if String.eqb part "" || String.eqb part "." then clean_parts rooted parts out
    else if String.eqb part ".." then
      match out with
      | top :: rest => if String.eqb top ".." then clean_parts rooted parts (".." :: out)
                       else clean_parts rooted parts rest
      | [] => clean_parts rooted parts (if rooted then [] else [".."])
      end
    else clean_parts rooted parts (part :: out)
  end.

Definition Clean (p : string) : string :=
  let rooted := has_prefix p "/" in
  let out := clean_parts rooted (split p "/") [] in
  if rooted then "/" +:+ join out "/"
  else match out with [] => "." | _ => join out "/" end.

Fixpoint drop_empty (l : list string) : list string :=
  match l with
  | x :: l' => if String.eqb x "" then drop_empty l' else l
  | [] => []
  end.

Definition Base (p : string) : string :=
  if String.eqb p "" then "."
  else match drop_empty (reverse (split p "/")) with
       | [] => "/"
       | x :: _ => x
       end.

(** ** Segments and identities *)

Definition is_segment_char (c : ascii) : bool :=
  is_lower_letter c || is_upper_letter c || is_digit c || contains_char "._+-" c.

Definition safeSegment (value : string) : bool :=
  if String.eqb value "" || (120 <? len value) || negb (String.eqb value (trim_space value))
     || String.eqb value "." || String.eqb value ".." || negb (String.eqb value (Base value))
     || contains_any value "\\/" then false
  else all_chars is_segment_char value.

Definition safeOptionalSegment (value : string) : bool := String.eqb value "" || safeSegment value.

Definition nul_cr_lf : string := String "000" (String "013" (String "010" "")).

Definition safeIdentity (value : string) (maxLength : Z) : bool :=
  negb (String.eqb value "") && (len value <=? maxLength) && String.eqb value (trim_space value)
  && negb (contains_any value nul_cr_lf).

Definition validSHA256 (value : string) : bool := (len value =? 64) && all_chars is_hex value.

Definition asciiAlphaNumeric : ascii → bool := is_alnum.

Definition is_token_char (c : ascii) : bool :=
  asciiAlphaNumeric c || Ascii.eqb c "." || Ascii.eqb c "_" || Ascii.eqb c "-".

Definition safePluginExtensionID (value : string) : bool :=
  if (len value =? 0) || (120 <? len value) || negb (String.eqb value (to_lower value))
     || negb (holds_of asciiAlphaNumeric (first_char value)) || negb (holds_of asciiAlphaNumeric (last_char value))
     || contains value ".." then false
  else all_chars is_token_char value.

Definition safeExtensionToken (value : string) : bool :=
  negb (String.eqb value "") && all_chars is_token_char value.

Definition safeNamespacedExtensionID (value pluginID : string) : bool :=
  if negb (has_prefix value (pluginID +:+ ".")) || (180 <? len value) || negb (safeExtensionToken value) then false
  else negb (contains value "..").

Definition safeExtensionMetadataText (value : string) (maxLength : Z) : bool :=
  if String.eqb value "" || negb (String.eqb value (trim_space value)) || (maxLength <? len value) then false
  else all_chars (λ c, negb (code c <? 32) && negb (code c =? 127)) value.

Definition safeJavaScriptExport (value : string) : bool :=
  match value with
  | "" => false
  | String first rest =>
    if 120 <? len value then false
    else (is_lower_letter first || is_upper_letter first || Ascii.eqb first "_" || Ascii.eqb first "$")
         && all_chars (λ c, asciiAlphaNumeric c || Ascii.eqb c "_" || Ascii.eqb c "$") rest
  end.

(** ** Manifest lists *)

Fixpoint containsString (values : list string) (needle : string) : bool :=
  match values with
  | [] => false
  | value :: values => String.eqb value needle || containsString values needle
  end.

Fixpoint check_permissions (pluginID : string) (seen : gset string) (permissions : list string) : result unit :=
  match permissions with
  | [] => Ok tt
  | permission :: permissions =>
    if negb (safeNamespacedExtensionID permission pluginID)
    then Err ("plugin permission " +:+ permission +:+ " is outside the plugin namespace")
    else if bool_decide (permission ∈ seen) then Err ("duplicate plugin permission " +:+ permission)
    else check_permissions pluginID ({[permission]} ∪ seen) permissions
  end.

Definition validateManifestPermissions (pluginID : string) (permissions : list string) : result unit :=
  check_permissions pluginID ∅ permissions.

Definition slash_or_dash (c : ascii) : bool := Ascii.eqb c "/" || Ascii.eqb c "-".

(** [strings.FieldsFunc] with that separator: the non-empty parts. *)
Definition architecture_parts (architecture : string) : list string :=
  filter (λ part, part ≠ "") (split (replace_char architecture "-" "/") "/").

Fixpoint check_architectures (goos goarch : string) (seen : gset string) (supported : bool)
    (architectures : list string) : result bool :=
  match architectures with
  | [] => Ok supported
  | architecture :: rest =>
    if String.eqb architecture "" || negb (String.eqb architecture (to_lower architecture))
       || negb (String.eqb architecture (trim_space architecture))
    then Err ("invalid plugin architecture " +:+ architecture)
    else if bool_decide (architecture ∈ seen) then Err ("duplicate plugin architecture " +:+ architecture)
    else
      let seen := {[architecture]} ∪ seen in
      if String.eqb architecture "any" || String.eqb architecture "*" || String.eqb architecture goarch
         || String.eqb architecture (goos +:+ "/" +:+ goarch) || String.eqb architecture (goos +:+ "-" +:+ goarch)
      then check_architectures goos goarch seen true rest
      else
        let parts := architecture_parts architecture in
        if 2 <? Z.of_nat (List.length parts) then Err ("invalid plugin architecture " +:+ architecture)
        else if negb (forallb safeSegment parts) then Err ("invalid plugin architecture " +:+ architecture)
        else check_architectures goos goarch seen supported rest
  end.

Definition validateArchitectures (architectures : list string) (goos goarch : string) : result unit :=
  match architectures with
  | [] => Ok tt
  | _ => let? supported := check_architectures goos goarch ∅ false architectures in
         if supported then Ok tt
         else Err ("plugin manifest does not support agent architecture " +:+ goos +:+ "/" +:+ goarch)
  end.

Fixpoint check_dependencies (pluginID : string) (dependencySet : gset string) (dependencies : list string)
    : result (gset string) :=
  match dependencies with
  | [] => Ok dependencySet
  | dependency :: rest =>
    if negb (safeSegment dependency) then Err ("invalid plugin dependency " +:+ dependency)
    else if String.eqb dependency pluginID then Err "plugin cannot depend on itself"
    else if bool_decide (dependency ∈ dependencySet) then Err ("duplicate plugin dependency " +:+ dependency)
    else check_dependencies pluginID ({[dependency]} ∪ dependencySet) rest
  end.

Fixpoint check_conflicts (pluginID : string) (dependencySet conflictSet : gset string) (conflicts : list string)
    : result unit :=
  match conflicts with
  | [] => Ok tt
  | conflict :: rest =>
    if negb (safeSegment conflict) then Err ("invalid plugin conflict " +:+ conflict)
    else if String.eqb conflict pluginID then Err "plugin cannot conflict with itself"
    else if bool_decide (conflict ∈ conflictSet) then Err ("duplicate plugin conflict " +:+ conflict)
    else if bool_decide (conflict ∈ dependencySet)
    then Err ("plugin " +:+ conflict +:+ " cannot be both a dependency and a conflict")
    else check_conflicts pluginID dependencySet ({[conflict]} ∪ conflictSet) rest
  end.

Definition validatePluginRelationships (pluginID : string) (dependencies conflicts : list string) : result unit :=
  let? dependencySet := check_dependencies pluginID ∅ dependencies in
  check_conflicts pluginID dependencySet ∅ conflicts.

(** ** Paths and routes *)

Definition safeRelativePath (value : string) : bool :=
  if String.eqb value "" || contains_any value ("\" +:+ String "000" "") || has_prefix value "/" then false
  else
    let cleaned := Clean value in
    if negb (String.eqb cleaned value) || String.eqb cleaned "." || String.eqb cleaned ".."
       || has_prefix cleaned "../" then false
    else forallb safeSegment (split cleaned "/").

(** [url.Parse] of a path with none of the bytes percent, question mark, hash
    and backslash, which starts with one slash or with a segment without
    colon: it fails on a control byte, and otherwise has only this path. *)
Definition plain_url_path (value : string) : bool :=
  all_chars (λ c, negb (code c <? 32) && negb (code c =? 127)) value.

Definition route_breakers : string := "\%?#" +:+ String "013" (String "010" (String "009" " ")).

Definition lexically_unsafe (value : string) : bool :=
  contains_any value route_breakers || negb (String.eqb (Clean value) value) || contains value "//".

(** [path.Ext]: from the last dot of the last element. *)
Fixpoint ext_of (s : string) : option string :=
  match s with
  | "" => None
  | String c rest => match ext_of rest with
                     | Some e => Some e
                     | None => if Ascii.eqb c "." then Some (String c rest) else None
                     end
  end.

Definition Ext (p : string) : string :=
  match reverse (split p "/") with
  | x :: _ => match ext_of x with Some e => e | None => "" end
  | [] => ""
  end.

Definition validatePluginBundlePath (value : string) : result unit :=
  if String.eqb value "" || negb (String.eqb value (trim_space value)) || negb (has_prefix value "webui/")
  then Err "webui bundle path must be relative to the webui directory"
  else if contains_any value route_breakers || has_prefix value "/" || negb (String.eqb (Clean value) value)
          || contains value "//" then Err "webui bundle path is unsafe"
  else if negb (plain_url_path value) then Err "webui bundle path is unsafe"
  else if negb (all_chars (λ c, is_token_char c || Ascii.eqb c "/") value)
  then Err "webui bundle path contains unsupported characters"
  else
    let extension := to_lower (Ext value) in
    if negb (String.eqb extension ".js") && negb (String.eqb extension ".mjs")
    then Err "webui bundle must be a JavaScript module" else Ok tt.

Fixpoint count_char (s : string) (c : ascii) : Z :=
  match s with
  | "" => 0
  | String d s => (if Ascii.eqb d c then 1 else 0) + count_char s c
  end.

Definition validatePluginControlRoute (value pluginID : string) : result unit :=
  if String.eqb value "" || negb (String.eqb value (trim_space value)) then Err "control route is required"
  else if (1 <? count_char value "*") || (contains_char value "*" && negb (has_suffix value "/*"))
  then Err ("control route " +:+ value +:+ " has an invalid wildcard")
  else
    let routePath := trim_suffix value "/*" in
    let namespace := "/api/v3/plugins/" +:+ pluginID in
    if String.eqb routePath "" then Err ("control route " +:+ value +:+ " is unsafe")
    else if negb (String.eqb routePath namespace) && negb (has_prefix routePath (namespace +:+ "/"))
    then Err ("control route " +:+ value +:+ " is outside " +:+ namespace)
    else if lexically_unsafe routePath then Err ("control route " +:+ value +:+ " is unsafe")
    else if negb (plain_url_path routePath) then Err ("control route " +:+ value +:+ " is unsafe")
    else Ok tt.

Definition validatePluginAdminRoute (value pluginID : string) : result unit :=
  let namespace := "/admin/extensions/" +:+ pluginID in
  if String.eqb value "" || negb (String.eqb value (trim_space value))
     || (negb (String.eqb value namespace) && negb (has_prefix value (namespace +:+ "/")))
  then Err ("webui route " +:+ value +:+ " is outside " +:+ namespace)
  else if lexically_unsafe value then Err ("webui route " +:+ value +:+ " is unsafe")
  else if negb (plain_url_path value) then Err ("webui route " +:+ value +:+ " is unsafe")
  else Ok tt.

(** ** Inline secrets *)

(** [strings.ToLower]: besides the ASCII capitals, two runes have an ASCII
    lower case, the Kelvin sign (E2 84 AA, to k) and the dotted capital I
    (C4 B0, to i).  Other bytes stand for themselves: they stay outside ASCII. *)
Fixpoint fold_key (s : string) : string :=
  match s with
  | String a (String b s2 as s1) =>
    if Ascii.eqb a "196" && Ascii.eqb b "176" then String "i" (fold_key s2)
    else match s2 with
         | String c s3 =>
           if Ascii.eqb a "226" && Ascii.eqb b "132" && Ascii.eqb c "170" then String "k" (fold_key s3)
           else String (lower_char a) (fold_key s1)
         | "" => String (lower_char a) (fold_key s1)
         end
  | String a "" => String (lower_char a) ""
  | "" => ""
  end.

Definition normalize_key (key : string) : string :=
  fold_key (replace_char (replace_char key "-" "_") "." "_").

Definition sensitive_key (key : string) : bool :=
  let normalized := normalize_key key in
  let compact := remove_char normalized "_" in
  let reference := has_suffix normalized "_id" || has_suffix normalized "_ref"
                   || has_suffix compact "id" || has_suffix compact "ref" in
  let sensitive := String.eqb normalized "secret" || String.eqb normalized "password" || String.eqb normalized "token"
    || String.eqb normalized "api_key" || String.eqb normalized "private_key" || String.eqb normalized "preshared_key"
    || String.eqb compact "apikey" || String.eqb compact "privatekey" || String.eqb compact "presharedkey" in
  sensitive && negb reference.

Definition is_null (j : json) : bool := match j with JNull => true | _ => false end.

Fixpoint containsSecretValue (value : json) : bool :=
  match value with
  | JObject members =>
      existsb (λ kv, (sensitive_key kv.1 && negb (is_null kv.2)) || containsSecretValue kv.2) members
  | JArray items => existsb containsSecretValue items
  | _ => false
  end.

Definition containsInlineSecret `{Codec} (raw : string) : bool :=
  if len raw =? 0 then false
  else match json_decode raw with
       | Some (value, true) => containsSecretValue value
       | _ => true
       end.

Definition maxRevision (current candidate : Z) : Z := if current <? candidate then candidate else current.

(** ** Theorems *)

Lemma safeSegment_inv v : safeSegment v = true →
  all_chars is_segment_char v = true ∧ v ≠ "" ∧ v ≠ "." ∧ v ≠ ".." ∧ contains_char v "/" = false ∧ len v ≤ 120.
Proof.
  unfold safeSegment. case_match eqn:E; [done|]. intros Hc. rewrite !orb_false_iff in E.
  destruct E as [[[[[[E1 E2] _] E3] E4] _] E5]. apply String.eqb_neq in E1, E3, E4. apply Z.ltb_ge in E2.
  repeat split; try done. by eapply contains_any_false.
Qed.

Lemma split_cons_ne s sep : split s sep ≠ [].
Proof. destruct s; simpl; [done|]. case_match; [done|]. by destruct (split s sep). Qed.

Lemma split_app_sep a b sep : split (a +:+ String sep b) sep = split a sep ++ split b sep.
Proof.
  induction a as [|c a IH].
  - change ("" +:+ String sep b) with (String sep b). simpl. by rewrite Ascii.eqb_refl.
  - rewrite app_cons_str. simpl. rewrite IH. destruct (Ascii.eqb c sep); [done|].
    pose proof (split_cons_ne a sep). by destruct (split a sep).
Qed.

Lemma clean_parts_app rooted l : ∀ k out,
  clean_parts rooted (l ++ k) out = clean_parts rooted k (reverse (clean_parts rooted l out)).
Proof.
  induction l as [|x l IH]; intros k out; cbn [clean_parts app]; [by rewrite reverse_involutive|].
  repeat case_match; apply IH.
Qed.

Lemma clean_parts_safe rooted k : Forall (λ x, safeSegment x = true) k →
  ∀ out, clean_parts rooted k out = reverse out ++ k.
Proof.
  induction 1 as [|x k Hx Hk IH]; intros out; cbn [clean_parts]; [by rewrite app_nil_r|].
  apply safeSegment_inv in Hx as (_ & H1 & H2 & H3 & _).
  apply String.eqb_neq in H1, H2, H3. rewrite H1, H2, H3. cbn [orb].
  rewrite IH, reverse_cons, <- app_assoc. done.
Qed.

Lemma safeRelativePath_segments v : safeRelativePath v = true →
  Forall (λ x, safeSegment x = true) (split v "/").
Proof.
  unfold safeRelativePath. case_match; [done|]. case_match eqn:E; [done|]. rewrite !orb_false_iff in E.
  destruct E as [[[E%negb_false_iff%String.eqb_eq _] _] _]. rewrite E. intros Hf.
  apply Forall_forall. intros x Hx. rewrite forallb_forall in Hf. apply Hf. by apply list_elem_of_In.
Qed.

(** A relative path the supervisor accepts stays below the directory it is
    joined to: for any absolute directory, cleaning the joined path gives the
    parts of the cleaned directory followed by the path's own segments, each a
    safe name of at most 120 bytes -- nothing climbs out with dot-dot, and no
    segment is dropped or added. *)
Theorem safe_relative_path_contained root v :
  has_prefix root "/" = true → safeRelativePath v = true →
  ∃ parts, Clean root = "/" +:+ join parts "/" ∧
    Clean (root +:+ "/" +:+ v) = "/" +:+ join (parts ++ split v "/") "/" ∧
    join (split v "/") "/" = v ∧ Forall (λ x, safeSegment x = true ∧ x ≠ ".." ∧ len x ≤ 120) (split v "/").
Proof.
  intros Hroot Hv%safeRelativePath_segments. exists (clean_parts true (split root "/") []).
  unfold Clean. rewrite Hroot. split_and!; [done| |apply split_join|].
  - apply has_prefix_inv in Hroot as [t ->].
    rewrite (app_assoc_str "/" t), has_prefix_app.
    change ("/" +:+ t +:+ "/" +:+ v) with ("/" +:+ (t +:+ String "/" v)).
    rewrite <- app_assoc_str, split_app_sep, clean_parts_app, clean_parts_safe by done.
    by rewrite reverse_involutive.
  - eapply Forall_impl; [exact Hv|]. intros x Hx. split; [done|]. apply safeSegment_inv in Hx. naive_solver.
Qed.

Lemma safe_relative_path_contained_witness :
  ∃ parts, Clean "/var/lib/../anix/" = "/" +:+ join parts "/" ∧
    Clean ("/var/lib/../anix/" +:+ "/" +:+ "bin/plugin") = "/" +:+ join (parts ++ ["bin"; "plugin"]) "/".
Proof.
  destruct (safe_relative_path_contained "/var/lib/../anix/" "bin/plugin") as (parts & Hp & Hc & _);
    [vm_compute; reflexivity..|]. exists parts. split; [exact Hp|exact Hc].
Defined.

(** An object member that holds a secret in the clear: a key that names a
    secret, with a value. *)
Inductive inline_secret (v : json) : Prop :=
| secret_member members key child :
    sub v (JObject members) → (key, child) ∈ members → sensitive_key key = true → child ≠ JNull → inline_secret v.

Lemma sub_trans a b c : sub a b → sub b c → sub a c.
Proof. induction 1; eauto using sub. Qed.

Lemma contains_secret_iff v : containsSecretValue v = true ↔ inline_secret v.
Proof.
  split.
  - induction v as [| | | |items IH|members IH] using json_ind; simpl; try done; rewrite existsb_exists; rewrite Forall_forall in IH.
    + intros (x & Hx%list_elem_of_In & Hs). destruct (IH x Hx Hs) as [m k c Hsub ? ? ?].
      eapply secret_member; [by eapply sub_item|done..].
    + intros ([k x] & Hx%list_elem_of_In & Hs). apply orb_true_iff in Hs as [Hs|Hs].
      * apply andb_true_iff in Hs as [Hk Hn]. apply (secret_member _ members k x); [constructor|done..|].
        intros ->. done.
      * destruct (IH (k, x) Hx Hs) as [m k' c Hsub ? ? ?].
        apply (secret_member _ m k' c); [by apply (sub_member members k x)|done..].
  - intros [members key child Hsub Hin Hk Hn].
    remember (JObject members) as o eqn:Eo. induction Hsub as [j|items i k Hi Hs IH|ms mk mv k Hi Hs IH]; subst; simpl.
    + apply existsb_exists. exists (key, child). split; [by apply list_elem_of_In|]. simpl. rewrite Hk.
      by destruct child.
    + apply existsb_exists. exists i. split; [by apply list_elem_of_In|]. by apply IH.
    + apply existsb_exists. exists (mk, mv). split; [by apply list_elem_of_In|]. simpl. rewrite IH by done.
      apply orb_true_r.
Qed.

(** The scan for inline secrets terminates on every document and is exact:
    it answers true precisely when some object, at any depth, has a member
    whose key names a secret and whose value is not null, or the text is not
    one JSON document. *)
Theorem inline_secret_scan_exact `{Codec} raw :
  containsInlineSecret raw = true ↔
  len raw ≠ 0 ∧ ∀ value, json_decode raw = Some (value, true) → inline_secret value.
Proof.
  unfold containsInlineSecret. destruct (Z.eqb_spec (len raw) 0); [naive_solver|].
  destruct (json_decode raw) as [[v [|]]|]; [|naive_solver..]. rewrite contains_secret_iff. naive_solver.
Qed.

Lemma check_dependencies_ok id l : ∀ S S', check_dependencies id S l = Ok S' →
  NoDup l ∧ (id ∉ l) ∧ Forall (λ x, safeSegment x = true) l ∧ (∀ x, x ∈ l → (x ∉ S)) ∧ S' = list_to_set l ∪ S.
Proof.
  induction l as [|x l IH]; intros S S'; cbn [check_dependencies].
  { intros [= <-]. split_and!; [constructor|by intros ?%elem_of_nil|constructor|by intros ? ?%elem_of_nil|set_solver]. }
  case_match eqn:Es; [done|]. destruct (String.eqb_spec x id); [done|]. case_bool_decide; [done|].
  intros (H1 & H2 & H3 & H4 & ->)%IH. apply negb_false_iff in Es.
  split_and!; [|set_solver|by constructor|set_solver|set_solver].
  constructor; [|done]. intros Hx. specialize (H4 x Hx). set_solver.
Qed.

Lemma check_conflicts_ok id D l : ∀ S, check_conflicts id D S l = Ok tt →
  NoDup l ∧ (id ∉ l) ∧ Forall (λ x, safeSegment x = true) l ∧ (∀ x, x ∈ l → (x ∉ S) ∧ (x ∉ D)).
Proof.
  induction l as [|x l IH]; intros S; cbn [check_conflicts].
  { intros _. split_and!; [constructor|by intros ?%elem_of_nil|constructor|by intros ? ?%elem_of_nil]. }
  case_match eqn:Es; [done|]. destruct (String.eqb_spec x id); [done|]. case_bool_decide; [done|]. case_bool_decide; [done|].
  intros (H1 & H2 & H3 & H4)%IH. apply negb_false_iff in Es.
  split_and!; [|set_solver|by constructor|set_solver].
  constructor; [|done]. intros Hx. destruct (H4 x Hx). set_solver.
Qed.

(** Accepted relationships: safe distinct names, none of them the plugin, and
    no plugin both required and excluded. *)
Lemma relationships_consistent id deps conflicts : validatePluginRelationships id deps conflicts = Ok tt →
  NoDup (deps ++ conflicts) ∧ (id ∉ deps ++ conflicts) ∧ Forall (λ x, safeSegment x = true) (deps ++ conflicts).
Proof.
  unfold validatePluginRelationships. destruct (check_dependencies _ _ _) as [S|] eqn:Ed; [|done].
  apply check_dependencies_ok in Ed as (H1 & H2 & H3 & _ & ->). intros (H4 & H5 & H6 & H7)%check_conflicts_ok.
  split_and!; [|set_solver|by apply Forall_app]. apply NoDup_app. split_and!; [done| |done].
  intros x Hx Hc. destruct (H7 x Hc). set_solver.
Qed.

End PluginNames.
