(* ===== verification/PluginGate.v ===== *)
(** * Admission to plugin lifecycles

    [lifecycleGate] (plugin/lifecycle_gate.go) counts the operations that are
    inside and lets shutdown wait for them; [pluginLock] (plugin/supervisor.go)
    serializes the work on one plugin.  Both are used from many goroutines: a
    step of the relations below is one critical section, so every interleaving
    of the callers is a sequence of steps.  Channels are numbers; a closed one
    is in a set. *)

From S2P Require Import Prelude.
From Stdlib Require Import String.

Module PluginGate.

Record lifecycleGate := mkGate {
  closing : bool;
  active : Z;
  idle : option nat
}.

(** The gate with the channels made and closed so far. *)
Record gateWorld := mkGateWorld {
  gate : lifecycleGate;
  made : nat;
  closedChans : gset nat
}.

Definition newLifecycleGate : lifecycleGate := mkGate false 0 None.

(** [enter]: [ctxErr] is [ctx.Err()] at the call. *)
Definition enter (w : gateWorld) (ctxErr : option string) : result unit * gateWorld :=
  match ctxErr with
  | Some e => (Err e, w)
  | None =>
    let g := gate w in
    if closing g then (Err "plugin supervisor is closing", w)
    else
      let w := if active g =? 0
               then mkGateWorld (mkGate (closing g) (active g) (Some (made w))) (S (made w)) (closedChans w) else w in
      let g := gate w in
      (Ok tt, mkGateWorld (mkGate (closing g) (active g + 1) (idle g)) (made w) (closedChans w))
  end.

Definition leave (w : gateWorld) : gateWorld :=
  let g := gate w in
  if active g =? 0 then w
  else
    let g := mkGate (closing g) (active g - 1) (idle g) in
    match idle g with
    | Some channel =>
      if active g =? 0 then mkGateWorld (mkGate (closing g) (active g) None) (made w) ({[channel]} ∪ closedChans w)
      else mkGateWorld g (made w) (closedChans w)
    | None => mkGateWorld g (made w) (closedChans w)
    end.

(** [beginClose] up to its [select]: it returns at once, or waits for the
    channel that was the idle channel then. *)
Inductive waiting := Returned | WaitFor (channel : option nat).

Definition beginClose (w : gateWorld) : waiting * gateWorld :=
  let g := mkGate true (active (gate w)) (idle (gate w)) in
  let w' := mkGateWorld g (made w) (closedChans w) in
  if active g =? 0 then (Returned, w') else (WaitFor (idle g), w').

(** The callers: [inside] holds the tokens of admitted operations that have not
    been released, [released] the tokens whose once-only release has run,
    [waiters] the closers in their [select], [closers] the ones that returned nil. *)
Record callers := mkCallers {
  world : gateWorld;
  inside : gset nat;
  released : gset nat;
  waiters : gmap nat (option nat);
  closers : gset nat
}.

Definition initial : callers := mkCallers (mkGateWorld newLifecycleGate 0 ∅) ∅ ∅ ∅ ∅.

Inductive step : callers → callers → Prop :=
| step_enter s tok ctxErr w :
    tok ∉ inside s ∪ released s → enter (world s) ctxErr = (Ok tt, w) →
    step s (mkCallers w ({[tok]} ∪ inside s) (released s) (waiters s) (closers s))
| step_refused s ctxErr e w :
    enter (world s) ctxErr = (Err e, w) → step s (mkCallers w (inside s) (released s) (waiters s) (closers s))
| step_release s tok :
    tok ∈ inside s →
    step s (mkCallers (leave (world s)) (inside s ∖ {[tok]}) ({[tok]} ∪ released s) (waiters s) (closers s))
| step_release_again s tok : tok ∈ released s → step s s
| step_close s c w :
    beginClose (world s) = (Returned, w) →
    step s (mkCallers w (inside s) (released s) (waiters s) ({[c]} ∪ closers s))
| step_close_wait s c channel w :
    beginClose (world s) = (WaitFor channel, w) →
    step s (mkCallers w (inside s) (released s) (<[c := channel]> (waiters s)) (closers s))
| step_close_done s c channel :
    waiters s !! c = Some (Some channel) → channel ∈ closedChans (world s) →
    step s (mkCallers (world s) (inside s) (released s) (delete c (waiters s)) ({[c]} ∪ closers s))
| step_close_deadline s c channel :
    waiters s !! c = Some channel →
    step s (mkCallers (world s) (inside s) (released s) (delete c (waiters s)) (closers s)).

(** ** The gate's invariant *)

Record gate_wf (s : callers) : Prop := {
  gw_count : active (gate (world s)) = Z.of_nat (size (inside s));
  gw_idle : match idle (gate (world s)) with
            | Some ch => (inside s ≠ ∅) ∧ (ch < made (world s))%nat ∧ (ch ∉ closedChans (world s))
            | None => inside s = ∅
            end;
  gw_made : ∀ ch, ch ∈ closedChans (world s) → (ch < made (world s))%nat;
  gw_waiters : ∀ c ch, waiters s !! c = Some ch → closing (gate (world s)) = true ∧
    ∃ k, ch = Some k ∧ (k ∈ closedChans (world s) ∨ idle (gate (world s)) = Some k);
  gw_closed : closing (gate (world s)) = true → ∀ k, k ∈ closedChans (world s) →
    (∃ c, waiters s !! c = Some (Some k)) → inside s = ∅;
  gw_closers : closers s ≠ ∅ → closing (gate (world s)) = true ∧ inside s = ∅
}.

Lemma size_zero_empty (X : gset nat) : Z.of_nat (size X) = 0 ↔ X = ∅.
Proof. split; [intros H; apply leibniz_equiv, size_empty_inv; lia|intros ->; by rewrite size_empty]. Qed.

Lemma gate_wf_initial : gate_wf initial.
Proof. split; simpl; try done; set_solver. Qed.

Lemma enter_wf s tok ctxErr w : gate_wf s → tok ∉ inside s ∪ released s → enter (world s) ctxErr = (Ok tt, w) →
  gate_wf (mkCallers w ({[tok]} ∪ inside s) (released s) (waiters s) (closers s)).
Proof.
  intros [Hc Hi Hm Hw Hcl Hdone] Htok. unfold enter. destruct ctxErr; [done|].
  destruct (closing (gate (world s))) eqn:Ecl; [done|]. intros [= <-].
  assert (size ({[tok]} ∪ inside s) = S (size (inside s))) as Hsz.
  { rewrite size_union by set_solver. by rewrite size_singleton. }
  assert (closers s = ∅) as Hno by (destruct (decide (closers s = ∅)) as [|Hx]; [done|by destruct (Hdone Hx)]).
  assert (waiters s = ∅) as Hnw.
  { apply map_empty. intros c. destruct (waiters s !! c) eqn:E; [|done]. by destruct (Hw c o E). }
  assert ({[tok]} ∪ inside s ≠ ∅) as Hnonempty by (clear -tok; set_solver).
  destruct (Z.eqb_spec (active (gate (world s))) 0) as [E|E]; split; cbn; rewrite ?Hno, ?Hnw, ?Ecl;
    try done; try (rewrite Hsz; lia); try (by intros ??; rewrite lookup_empty).
  - split_and!; [done|lia|]. intros ?%Hm. lia.
  - intros ch ?%Hm. lia.
  - destruct (idle (gate (world s))); [naive_solver|]. rewrite Hi, size_empty in Hc. lia.
Qed.

Lemma release_wf s tok : gate_wf s → tok ∈ inside s →
  gate_wf (mkCallers (leave (world s)) (inside s ∖ {[tok]}) ({[tok]} ∪ released s) (waiters s) (closers s)).
Proof.
  intros [Hc Hi Hm Hw Hcl Hdone] Htok.
  assert (size (inside s) ≠ 0%nat) as Hne.
  { intros E. assert (inside s = ∅) by (apply size_zero_empty; lia). clear -Htok H. set_solver. }
  assert (closers s = ∅) as Hno by (destruct (decide (closers s = ∅)) as [|Hx]; [done|destruct (Hdone Hx) as [_ Hx2]; clear -Htok Hx2; set_solver]).
  assert (size (inside s ∖ {[tok]}) = (size (inside s) - 1)%nat) as Hsz.
  { rewrite size_difference by set_solver. by rewrite size_singleton. }
  unfold leave. destruct (Z.eqb_spec (active (gate (world s))) 0) as [E|E]; [lia|].
  destruct (idle (gate (world s))) as [ch|] eqn:Eidle; cbn; [|clear -Hi Htok; set_solver].
  destruct Hi as (Hi & Hlt & Hnc).
  destruct (Z.eqb_spec (active (gate (world s)) - 1) 0) as [E1|E1]; split; cbn; rewrite ?Hno, ?Eidle; try done.
  - rewrite Hsz. lia.
  - apply size_zero_empty. lia.
  - intros k. rewrite elem_of_union, elem_of_singleton. intros [->|?%Hm]; lia.
  - intros c k Hk. destruct (Hw c k Hk) as (Hcls & k' & -> & Hk'); (split; [done|]).
    exists k'. split; [done|]. left. rewrite elem_of_union, elem_of_singleton. destruct Hk' as [?|[= <-]]; auto.
  - intros Hcls k Hk _. apply size_zero_empty. lia.
  - rewrite Hsz. lia.
  - split_and!; [|done|done]. intros E0. rewrite E0, size_empty in Hsz. lia.
  - intros Hcls k Hk Hex. specialize (Hcl Hcls k Hk Hex). clear -Hcl. set_solver.
Qed.

Lemma begin_close_wf s : gate_wf s →
  gate_wf (mkCallers (beginClose (world s)).2 (inside s) (released s) (waiters s) (closers s)).
Proof.
  intros [Hc Hi Hm Hw Hcl Hdone]. unfold beginClose.
  destruct (_ =? 0); split; cbn; try done.
  all: try (intros c ch Hch; destruct (Hw c ch Hch) as [_ ?]; done).
  all: try (by intros ?; destruct Hdone).
  all: intros _ k Hk [c Hck]; destruct (Hw c _ Hck) as [Hcls _]; apply (Hcl Hcls k Hk); by exists c.
Qed.

Lemma step_wf s s' : gate_wf s → step s s' → gate_wf s'.
Proof.
  intros Hwf Hs. destruct Hs as [s tok ctxErr w Ht He|s ctxErr e w He|s tok Ht|s tok Ht|s c w Hb|s c ch w Hb|s c ch Hc Hch|s c ch Hc].
  - by eapply enter_wf.
  - assert (w = world s) as ->.
    { unfold enter in He. destruct ctxErr; [by simplify_eq|]. destruct (closing _); by simplify_eq. }
    destruct Hwf; by split.
  - by apply release_wf.
  - done.
  - pose proof (begin_close_wf s Hwf) as Hwf'. rewrite Hb in Hwf'. destruct Hwf' as [H1 H2 H3 H4 H5 H6]. split; try done.
    intros _. unfold beginClose in Hb. cbn [active idle] in Hb. destruct (Z.eqb_spec (active (gate (world s))) 0) as [E|E]; [|done].
    injection Hb as <-. split; [done|]. apply size_zero_empty. cbn. rewrite <- (gw_count s Hwf). done.
  - pose proof (begin_close_wf s Hwf) as Hwf'. rewrite Hb in Hwf'. destruct Hwf' as [H1 H2 H3 H4 H5 H6].
    unfold beginClose in Hb. cbn [active idle] in Hb. destruct (Z.eqb_spec (active (gate (world s))) 0) as [E|E]; [done|].
    injection Hb as <- <-. cbn in *.
    destruct (idle (gate (world s))) as [k|] eqn:Eidle; cbn in *; [|by rewrite H2, size_empty in H1].
    split; cbn; rewrite ?Eidle; try done.
    + intros c' ch' [[-> <-]|[Hne Hl]]%lookup_insert_Some; [split; [done|]; eauto|by apply (H4 c')].
    + intros _ k' Hk' (c' & [[-> [= ->]]|[Hne Hl]]%lookup_insert_Some); [naive_solver|]. apply (H5 eq_refl k' Hk'). by exists c'.
  - destruct Hwf as [H1 H2 H3 H4 H5 H6]. split; cbn; try done.
    + intros c' ch' [Hne Hl]%lookup_delete_Some. by apply (H4 c').
    + intros Hcls k Hk (c' & [Hne Hl]%lookup_delete_Some). apply (H5 Hcls k Hk). by exists c'.
    + intros _. destruct (H4 c _ Hc) as [Hcls _]. split; [done|]. apply (H5 Hcls ch Hch). by exists c.
  - destruct Hwf as [H1 H2 H3 H4 H5 H6]. split; cbn; try done.
    + intros c' ch' [Hne Hl]%lookup_delete_Some. by apply (H4 c').
    + intros Hcls k Hk (c' & [Hne Hl]%lookup_delete_Some). apply (H5 Hcls k Hk). by exists c'.
Qed.

Lemma steps_wf s s' : gate_wf s → rtc step s s' → gate_wf s'.
Proof. intros Hwf Hs. induction Hs; eauto using step_wf. Qed.

Lemma closers_grow s s' : rtc step s s' → closers s ⊆ closers s'.
Proof.
  induction 1 as [|s1 s2 s3 H12 _ IH]; [done|]. etransitivity; [|exact IH].
  destruct H12; cbn; try done; apply union_subseteq_r.
Qed.

(** When a shutdown's beginClose has returned nil, no lifecycle operation is
    inside the gate and none ever gets in again, whatever the callers do
    afterwards, in every interleaving of entries, releases, repeated releases
    and several closers. *)
Theorem gate_closed_for_good s s' c :
  rtc step initial s → c ∈ closers s → rtc step s s' →
  inside s' = ∅ ∧ active (gate (world s')) = 0 ∧ closing (gate (world s')) = true.
Proof.
  intros Hs Hc Hs'. assert (gate_wf s') as Hwf.
  { eapply steps_wf; [|exact Hs']. eapply steps_wf; [apply gate_wf_initial|exact Hs]. }
  destruct (gw_closers s' Hwf) as [Hcl Hin].
  { intros E. pose proof (closers_grow s s' Hs' c Hc) as Hx. rewrite E in Hx. by apply elem_of_empty in Hx. }
  split_and!; [done| |done]. rewrite (gw_count s' Hwf), Hin, size_empty. done.
Qed.

Lemma gate_closed_for_good_witness : inside (mkCallers (mkGateWorld (mkGate true 0 None) 0 ∅) ∅ ∅ ∅ {[1%nat]}) = ∅.
Proof.
  eapply (gate_closed_for_good _ (mkCallers (mkGateWorld (mkGate true 0 None) 0 ∅) ∅ ∅ ∅ {[1%nat]}) 1%nat);
    [eapply rtc_l; [eapply (step_close initial 1%nat); reflexivity|apply rtc_refl]|cbn; set_solver|].
  cbn. rewrite union_empty_r_L. apply rtc_refl.
Defined.

(** A waiting shutdown is woken: once the last admitted operation has been
    released, the channel every waiting closer selects on is closed, so the
    closer can return. *)
Theorem gate_waiters_wake s c ch :
  rtc step initial s → waiters s !! c = Some ch → inside s = ∅ →
  ∃ s', step s s' ∧ c ∈ closers s' ∧ waiters s' !! c = None.
Proof.
  intros Hs Hc Hin. assert (gate_wf s) as Hwf by (eapply steps_wf; [apply gate_wf_initial|exact Hs]).
  destruct (gw_waiters s Hwf c ch Hc) as (_ & k & -> & Hk).
  assert (k ∈ closedChans (world s)) as Hclosed.
  { destruct Hk as [|Hk]; [done|]. pose proof (gw_idle s Hwf) as Hi. rewrite Hk in Hi. naive_solver. }
  eexists. split; [by eapply step_close_done|]. cbn. split; [|apply lookup_delete_eq].
  apply elem_of_union_l, elem_of_singleton_2. done.
Qed.

(** ** The lock of one plugin

    [token] is whether the channel of capacity one holds its token; a holder is
    an acquired lock whose release has not run. *)
Record pluginLock := mkLock {
  token : bool;
  holders : gset nat;
  doneReleases : gset nat
}.

Definition newPluginLock : pluginLock := mkLock true ∅ ∅.

(** [acquire] by the caller [tok] when it is chosen by the scheduler: [None]
    while it waits for the token. *)
Definition acquire (l : pluginLock) (tok : nat) (ctxErr : option string) : option (result unit * pluginLock) :=
  match ctxErr with
  | Some e => Some (Err e, l)
  | None => if token l then Some (Ok tt, mkLock false ({[tok]} ∪ holders l) (doneReleases l)) else None
  end.

(** The release function: [once.Do] puts the token back the first time. *)
Definition releaseLock (l : pluginLock) (tok : nat) : pluginLock :=
  if bool_decide (tok ∈ doneReleases l) then l
  else mkLock true (holders l ∖ {[tok]}) ({[tok]} ∪ doneReleases l).

Inductive lock_step : pluginLock → pluginLock → Prop :=
| lock_acquire l tok ctxErr r l' :
    tok ∉ holders l ∪ doneReleases l → acquire l tok ctxErr = Some (r, l') → lock_step l l'
| lock_release l tok : tok ∈ holders l ∪ doneReleases l → lock_step l (releaseLock l tok).

Definition lock_wf (l : pluginLock) : Prop :=
  (token l = true → holders l = ∅) ∧ (token l = false → ∃ tok, holders l = {[tok]}) ∧ holders l ## doneReleases l.

Lemma lock_step_wf l l' : lock_wf l → lock_step l l' → lock_wf l'.
Proof.
  intros Hwf Hs. destruct Hs as [l tok ctxErr r l' Ht Ha|l tok Ht]; destruct Hwf as (H1 & H2 & H3).
  - unfold acquire in Ha. destruct ctxErr as [|]; simplify_eq; [done|].
    destruct (token l) eqn:E; simplify_eq. split_and!; cbn; [done| |set_solver].
    intros _. exists tok. rewrite H1 by done. by rewrite union_empty_r_L.
  - unfold releaseLock. case_bool_decide as Hd; [done|]. split_and!; cbn; [|done|set_solver].
    intros _. destruct (token l) eqn:E; [rewrite H1 by done; set_solver|].
    destruct H2 as [t Ht2]; [done|]. rewrite Ht2 in *. set_solver.
Qed.

(** At most one goroutine holds a plugin's lifecycle lock, in every
    interleaving of acquisitions, cancellations and (repeated) releases, and
    the lock is free whenever nobody holds it. *)
Theorem plugin_lock_exclusive l :
  rtc lock_step newPluginLock l → (size (holders l) ≤ 1)%nat ∧ (holders l = ∅ ↔ token l = true).
Proof.
  intros Hs. assert (lock_wf l) as (H1 & H2 & _).
  { revert Hs. apply (rtc_ind_r lock_wf newPluginLock).
    - split_and!; cbn; [done|done|set_solver].
    - intros ? ? _ ? ?. by eapply lock_step_wf. }
  destruct (token l).
  - rewrite (H1 eq_refl), size_empty. split; [lia|done].
  - destruct (H2 eq_refl) as [t ->]. rewrite size_singleton. split; [lia|]. split; [set_solver|done].
Qed.

Lemma plugin_lock_exclusive_witness : (size (holders (mkLock false {[3%nat]} ∅)) ≤ 1)%nat.
Proof.
  apply (plugin_lock_exclusive (mkLock false {[3%nat]} ∅)).
  eapply rtc_l; [|apply rtc_refl]. eapply (lock_acquire newPluginLock 3 None (Ok tt)); cbn; [set_solver|].
  by rewrite union_empty_r_L.
Defined.

End PluginGate.
