(* ===== verification/PluginWorld.v ===== *)
(** * Plugin supervisor: state and effects

    The state of plugin/supervisor.go -- plugin records, operation journal,
    processes with their generations -- and the monad its operations are
    written in.  Everything the supervisor calls out to (the clock, state.json
    and configuration files, installed versions, plugin processes, health
    checks) answers from [Env], an arbitrary function of the number of calls
    made so far; at every call the Agent may also crash, which keeps the disk
    and loses the memory.  A theorem for all environments is one for all
    schedules of answers, failures and crashes. *)

From S2P Require Import Prelude GoStrings Json Envelope PluginNames.
From Stdlib Require Import Ascii String.

Module PluginWorld.
Import Envelope PluginNames.

(** ** Data *)

Record PluginState := mkPlugin {
  p_ID : string;
  p_DesiredVersion : string;
  p_ObservedVersion : string;
  p_PreviousVersion : string;
  p_Enabled : bool;
  p_Health : string;
  p_ConfigHash : string;
  p_DesiredRevision : Z;
  p_ObservedRevision : Z;
  p_LastError : string;
  p_CleanupPending : bool;
  p_CleanupVersion : string;
  p_UpdatedAt : time
}.

(** Field updates. *)
Definition with_DesiredVersion (x : string) (s : PluginState) : PluginState :=
  mkPlugin (p_ID s) x (p_ObservedVersion s) (p_PreviousVersion s) (p_Enabled s) (p_Health s) (p_ConfigHash s) (p_DesiredRevision s) (p_ObservedRevision s) (p_LastError s) (p_CleanupPending s) (p_CleanupVersion s) (p_UpdatedAt s).
Definition with_ObservedVersion (x : string) (s : PluginState) : PluginState :=
  mkPlugin (p_ID s) (p_DesiredVersion s) x (p_PreviousVersion s) (p_Enabled s) (p_Health s) (p_ConfigHash s) (p_DesiredRevision s) (p_ObservedRevision s) (p_LastError s) (p_CleanupPending s) (p_CleanupVersion s) (p_UpdatedAt s).
Definition with_PreviousVersion (x : string) (s : PluginState) : PluginState :=
  mkPlugin (p_ID s) (p_DesiredVersion s) (p_ObservedVersion s) x (p_Enabled s) (p_Health s) (p_ConfigHash s) (p_DesiredRevision s) (p_ObservedRevision s) (p_LastError s) (p_CleanupPending s) (p_CleanupVersion s) (p_UpdatedAt s).
Definition with_Enabled (x : bool) (s : PluginState) : PluginState :=
  mkPlugin (p_ID s) (p_DesiredVersion s) (p_ObservedVersion s) (p_PreviousVersion s) x (p_Health s) (p_ConfigHash s) (p_DesiredRevision s) (p_ObservedRevision s) (p_LastError s) (p_CleanupPending s) (p_CleanupVersion s) (p_UpdatedAt s).
Definition with_Health (x : string) (s : PluginState) : PluginState :=
  mkPlugin (p_ID s) (p_DesiredVersion s) (p_ObservedVersion s) (p_PreviousVersion s) (p_Enabled s) x (p_ConfigHash s) (p_DesiredRevision s) (p_ObservedRevision s) (p_LastError s) (p_CleanupPending s) (p_CleanupVersion s) (p_UpdatedAt s).
Definition with_ConfigHash (x : string) (s : PluginState) : PluginState :=
  mkPlugin (p_ID s) (p_DesiredVersion s) (p_ObservedVersion s) (p_PreviousVersion s) (p_Enabled s) (p_Health s) x (p_DesiredRevision s) (p_ObservedRevision s) (p_LastError s) (p_CleanupPending s) (p_CleanupVersion s) (p_UpdatedAt s).
Definition with_DesiredRevision (x : Z) (s : PluginState) : PluginState :=
  mkPlugin (p_ID s) (p_DesiredVersion s) (p_ObservedVersion s) (p_PreviousVersion s) (p_Enabled s) (p_Health s) (p_ConfigHash s) x (p_ObservedRevision s) (p_LastError s) (p_CleanupPending s) (p_CleanupVersion s) (p_UpdatedAt s).
Definition with_ObservedRevision (x : Z) (s : PluginState) : PluginState :=
  mkPlugin (p_ID s) (p_DesiredVersion s) (p_ObservedVersion s) (p_PreviousVersion s) (p_Enabled s) (p_Health s) (p_ConfigHash s) (p_DesiredRevision s) x (p_LastError s) (p_CleanupPending s) (p_CleanupVersion s) (p_UpdatedAt s).
Definition with_LastError (x : string) (s : PluginState) : PluginState :=
  mkPlugin (p_ID s) (p_DesiredVersion s) (p_ObservedVersion s) (p_PreviousVersion s) (p_Enabled s) (p_Health s) (p_ConfigHash s) (p_DesiredRevision s) (p_ObservedRevision s) x (p_CleanupPending s) (p_CleanupVersion s) (p_UpdatedAt s).
Definition with_CleanupPending (x : bool) (s : PluginState) : PluginState :=
  mkPlugin (p_ID s) (p_DesiredVersion s) (p_ObservedVersion s) (p_PreviousVersion s) (p_Enabled s) (p_Health s) (p_ConfigHash s) (p_DesiredRevision s) (p_ObservedRevision s) (p_LastError s) x (p_CleanupVersion s) (p_UpdatedAt s).
Definition with_CleanupVersion (x : string) (s : PluginState) : PluginState :=
  mkPlugin (p_ID s) (p_DesiredVersion s) (p_ObservedVersion s) (p_PreviousVersion s) (p_Enabled s) (p_Health s) (p_ConfigHash s) (p_DesiredRevision s) (p_ObservedRevision s) (p_LastError s) (p_CleanupPending s) x (p_UpdatedAt s).
Definition with_UpdatedAt (x : time) (s : PluginState) : PluginState :=
  mkPlugin (p_ID s) (p_DesiredVersion s) (p_ObservedVersion s) (p_PreviousVersion s) (p_Enabled s) (p_Health s) (p_ConfigHash s) (p_DesiredRevision s) (p_ObservedRevision s) (p_LastError s) (p_CleanupPending s) (p_CleanupVersion s) x.

Notation "x |> f" := (f x) (at level 71, left associativity, only parsing).

(** The zero value of the record, what a Go map yields for a missing key. *)
Definition zeroPlugin : PluginState := mkPlugin "" "" "" "" false "" "" 0 0 "" false "" 0.

(** A result is the JSON of a plugin record; it is kept as the record. *)
Definition RawMessage := PluginState.

Record SecretMaterialAudit := mkAudit { a_Reference : string; a_SHA256 : string }.

Record JournalEntry := mkEntry {
  j_OperationID : string;
  j_IdempotencyKey : string;
  j_SessionID : string;
  j_Kind : string;
  j_PluginID : string;
  j_TargetVersion : string;
  j_ConfigHash : string;
  j_Revision : Z;
  j_SecretMaterials : list SecretMaterialAudit;
  j_State : string;
  j_Result : option RawMessage;
  j_Error : string;
  j_UpdatedAt : time
}.

Definition entry_with (state : string) (result : option RawMessage) (error : string) (t : time) (e : JournalEntry)
    : JournalEntry :=
  mkEntry (j_OperationID e) (j_IdempotencyKey e) (j_SessionID e) (j_Kind e) (j_PluginID e) (j_TargetVersion e)
    (j_ConfigHash e) (j_Revision e) (j_SecretMaterials e) state result error t.

Record persistedState := mkState {
  Plugins : gmap string PluginState;
  Journal : gmap string JournalEntry
}.

#[export] Instance PluginState_eq_dec : EqDecision PluginState.
Proof. solve_decision. Defined.
#[export] Instance SecretMaterialAudit_eq_dec : EqDecision SecretMaterialAudit.
Proof. solve_decision. Defined.
#[export] Instance JournalEntry_eq_dec : EqDecision JournalEntry.
Proof. solve_decision. Defined.

(** What the lifecycle reads of a plugin's signed manifest. *)
Record Manifest := mkManifest { m_ID : string; m_Version : string; m_Capabilities : list string }.

(** A started process: its number, and the plugin version it runs. *)
Record Process := mkProcess { pid : nat; procPlugin : string; procVersion : string }.
#[export] Instance Process_eq_dec : EqDecision Process.
Proof. solve_decision. Defined.

(** What the supervisor does to processes, in order. *)
Inductive event :=
| EvStart (p : Process)
| EvStop (p : Process) (failed : bool)
| EvCleanup (id version : string) (failed : bool)
| EvExit (p : Process).

(** The supervisor's memory ([state] to [closed]), the disk ([disk] is
    state.json, [files] the configuration and secret files by path) and the
    operating system: [watchers] are the goroutines of [observeProcessExit], each
    with the generation it was started for, [live] are the processes running now, [trace] what was
    done to processes, [tick] the number of external calls so far. *)
Record World := mkWorld {
  state : persistedState;
  processes : gmap string Process;
  generation : gmap string Z;
  watchers : list (string * Z * Process);
  running : gset string;
  closed : bool;
  disk : option persistedState;
  files : gmap string string;
  live : list Process;
  trace : list event;
  tick : nat
}.

Definition set_state (x : persistedState) (w : World) : World :=
  mkWorld x (processes w) (generation w) (watchers w) (running w) (closed w) (disk w) (files w) (live w) (trace w) (tick w).
Definition set_processes (x : gmap string Process) (w : World) : World :=
  mkWorld (state w) x (generation w) (watchers w) (running w) (closed w) (disk w) (files w) (live w) (trace w) (tick w).
Definition set_generation (x : gmap string Z) (w : World) : World :=
  mkWorld (state w) (processes w) x (watchers w) (running w) (closed w) (disk w) (files w) (live w) (trace w) (tick w).
Definition set_watchers (x : list (string * Z * Process)) (w : World) : World :=
  mkWorld (state w) (processes w) (generation w) x (running w) (closed w) (disk w) (files w) (live w) (trace w) (tick w).
Definition set_running (x : gset string) (w : World) : World :=
  mkWorld (state w) (processes w) (generation w) (watchers w) x (closed w) (disk w) (files w) (live w) (trace w) (tick w).
Definition set_closed (x : bool) (w : World) : World :=
  mkWorld (state w) (processes w) (generation w) (watchers w) (running w) x (disk w) (files w) (live w) (trace w) (tick w).
Definition set_disk (x : option persistedState) (w : World) : World :=
  mkWorld (state w) (processes w) (generation w) (watchers w) (running w) (closed w) x (files w) (live w) (trace w) (tick w).
Definition set_files (x : gmap string string) (w : World) : World :=
  mkWorld (state w) (processes w) (generation w) (watchers w) (running w) (closed w) (disk w) x (live w) (trace w) (tick w).
Definition set_live (x : list Process) (w : World) : World :=
  mkWorld (state w) (processes w) (generation w) (watchers w) (running w) (closed w) (disk w) (files w) x (trace w) (tick w).
Definition set_trace (x : list event) (w : World) : World :=
  mkWorld (state w) (processes w) (generation w) (watchers w) (running w) (closed w) (disk w) (files w) (live w) x (tick w).
Definition set_tick (x : nat) (w : World) : World :=
  mkWorld (state w) (processes w) (generation w) (watchers w) (running w) (closed w) (disk w) (files w) (live w) (trace w) x.

(** ** Environment *)

Definition error := option string.

(** The write of a file: done; refused; or reported as failed after the rename
    that replaced the file (the sync of the directory failed). *)
Inductive write := Written | NotWritten (e : string) | WrittenLate (e : string).

(** The answers of the environment, each at the number of the call.  [env_ctx] is
    [ctx.Err()]; [env_verify], [env_artifacts], [env_install] and [env_publish]
    stand for the checks of a version directory, of an artifact to install and
    for its publication under the version's name; [env_failure], [env_observe]
    and [env_audit] are the maintenance store's [HasFailure], [Observe] (with
    its restart decision) and [CompleteRestart]; [env_telemetry] the check of
    machine-telemetry's configuration file; [env_status] the code of an error
    with a typed status. *)
Class Env := mkEnv {
  env_crash : nat → bool;
  env_now : nat → time;
  env_ctx : nat → error;
  env_write : nat → write;
  env_read : nat → error;
  env_remove : nat → error;
  env_verify : nat → result Manifest;
  env_artifacts : nat → error;
  env_start : nat → error;
  env_stop : nat → error;
  env_cleanup : nat → error;
  env_mkdir : nat → error;
  env_socket : nat → error;
  env_health : nat → error;
  env_install : nat → result Manifest;
  env_publish : nat → error;
  env_walk : nat → error;
  env_failure : nat → result bool;
  env_observe : nat → result bool;
  env_audit : nat → error;
  env_telemetry : nat → error;
  env_status : nat → option string;
  rootDir : string;
  socketDir : string;
  statefulRunner : bool;
  cleanupRunner : bool;
  hasMaintenance : bool
}.

(** ** The monad *)

Inductive outcome (A : Type) := Done (a : A) | Crashed.
Arguments Done {A} a.
Arguments Crashed {A}.

Definition M (A : Type) : Type := World → outcome A * World.

#[export] Instance M_ret : MRet M := λ A a w, (Done a, w).
#[export] Instance M_bind : MBind M := λ A B f m w,
  match m w with
  | (Done a, w') => f a w'
  | (Crashed, w') => (Crashed, w')
  end.

Definition get {A} (f : World → A) : M A := λ w, (Done (f w), w).
Definition modify (f : World → World) : M unit := λ w, (Done tt, f w).

Lemma bind_run {A B} (m : M A) (f : A → M B) w :
  (m ≫= f) w = match m w with (Done a, w') => f a w' | (Crashed, w') => (Crashed, w') end.
Proof. done. Qed.

Lemma bind_get {A B} (f : World → A) (k : A → M B) w : (get f ≫= k) w = k (f w) w.
Proof. done. Qed.
Lemma bind_modify {B} f (k : unit → M B) w : (modify f ≫= k) w = k tt (f w).
Proof. done. Qed.
Lemma bind_ret {A B} (a : A) (k : A → M B) w : (mret a ≫= k) w = k a w.
Proof. done. Qed.
Lemma bind_assoc {A B C} (m : M A) (f : A → M B) (k : B → M C) w :
  ((m ≫= f) ≫= k) w = (m ≫= λ a, f a ≫= k) w.
Proof. rewrite !bind_run. by destruct (m w) as [[a|] w']. Qed.

(** ** Errors *)

(** [errors.Join] and its text. *)
Definition newline : string := String "010" "".
Definition Join (l : list error) : error :=
  match omap id l with
  | [] => None
  | es => Some (join es newline)
  end.

(** [fmt.Errorf] with a wrapped error. *)
Definition wrap (prefix : string) (e : error) : error := (λ t, prefix +:+ ": " +:+ t) <$> e.

(** [err.Error()]; only called on errors. *)
Definition text (e : error) : string := default "" e.

Definition failed (e : error) : bool := bool_decide (is_Some e).

Section with_env.
Context `{Env}.

(** An external call: the Agent crashes before it, or it answers. *)
Definition ext {A} (f : nat → A) : M A := λ w,
  if env_crash (tick w) then (Crashed, w) else (Done (f (tick w)), set_tick (S (tick w)) w).

Definition now : M time := ext env_now.

(** ** Files *)

Definition versionDir (id version : string) : string := rootDir +:+ "/" +:+ id +:+ "/" +:+ version.
Definition configFile (id version : string) : string := versionDir id version +:+ "/config.json".
Definition socketPath (id : string) : string := socketDir +:+ "/" +:+ id +:+ ".sock".

Definition persistLocked : M error :=
  r ← ext env_write;
  match r with
  | Written => _ ← modify (λ w, set_disk (Some (state w)) w); mret None
  | WrittenLate e => _ ← modify (λ w, set_disk (Some (state w)) w); mret (Some e)
  | NotWritten e => mret (Some e)
  end.

Definition writePrivateFile (path contents : string) : M error :=
  r ← ext env_write;
  match r with
  | Written => _ ← modify (λ w, set_files (<[path := contents]> (files w)) w); mret None
  | WrittenLate e => _ ← modify (λ w, set_files (<[path := contents]> (files w)) w); mret (Some e)
  | NotWritten e => mret (Some e)
  end.

(** The contents and whether the file exists, as one option. *)
Definition readOptionalFile (path : string) : M (result (option string)) :=
  e ← ext env_read;
  match e with
  | Some e => mret (Err ("read existing plugin config: " +:+ e))
  | None => contents ← get (λ w, files w !! path); mret (Ok contents)
  end.

Definition removeFile (path : string) : M error :=
  e ← ext env_remove;
  match e with
  | Some e => mret (Some e)
  | None => _ ← modify (λ w, set_files (delete path (files w)) w); mret None
  end.

Definition restoreOptionalFile (path : string) (contents : option string) : M error :=
  match contents with
  | Some contents => writePrivateFile path contents
  | None => removeFile path
  end.

Definition removeSocket (path : string) : M error := ext env_socket.

(** ** Processes *)

Definition stop (p : Process) : M error :=
  e ← ext env_stop;
  _ ← modify (λ w, set_trace (EvStop p (failed e) :: trace w) w);
  match e with
  | None => _ ← modify (λ w, set_live (filter (λ q, q ≠ p) (live w)) w); mret None
  | Some e => mret (Some e)
  end.

Definition stopProcess (p : option Process) : M error :=
  match p with None => mret None | Some p => stop p end.

(** The runner's [Start] or [StartWithState]: a new process. *)
Definition start (id version : string) : M (result Process) :=
  e ← ext env_start;
  match e with
  | Some e => mret (Err e)
  | None =>
    n ← get tick;
    let p := mkProcess n id version in
    _ ← modify (λ w, set_live (p :: live w) w |> set_trace (EvStart p :: trace w));
    mret (Ok p)
  end.

(** A new generation of a plugin's process, with the goroutine that waits for its
    exit (when the process can report one). *)
Definition register (id : string) (p : Process) (w : World) : World :=
  let g := default 0 (generation w !! id) + 1 in
  set_generation (<[id := g]> (generation w)) w |> set_processes (<[id := p]> (processes w))
    |> set_watchers ((id, g, p) :: watchers w).

Definition unregister (id : string) (w : World) : World :=
  set_generation (<[id := default 0 (generation w !! id) + 1]> (generation w)) w |> set_processes (delete id (processes w)).

Definition setProcessLocked (id : string) (p : Process) : M unit := modify (register id p).

Definition removeProcessLocked (id : string) : M unit := modify (unregister id).

(** ** Plugin records *)

Definition lookupPlugin (id : string) : M (option PluginState) := get (λ w, Plugins (state w) !! id).

(** [s.state.Plugins[id]] in an expression. *)
Definition plugin (id : string) : M PluginState := get (λ w, default zeroPlugin (Plugins (state w) !! id)).

Definition storePlugin (id : string) (p : PluginState) : M unit :=
  modify (λ w, set_state (mkState (<[id := p]> (Plugins (state w))) (Journal (state w))) w).

Definition storeJournal (id : string) (e : JournalEntry) : M unit :=
  modify (λ w, set_state (mkState (Plugins (state w)) (<[id := e]> (Journal (state w)))) w).

Lemma bind_ext {A B} (f : nat → A) (k : A → M B) w :
  (ext f ≫= k) w = if env_crash (tick w) then (Crashed, w) else k (f (tick w)) (set_tick (S (tick w)) w).
Proof. rewrite bind_run. unfold ext. by destruct (env_crash (tick w)). Qed.

End with_env.

(** Symbolic execution of the first call of a goal. *)
Ltac run1 :=
  unfold now, storeJournal, storePlugin, lookupPlugin, plugin, removeProcessLocked, setProcessLocked;
  rewrite ?bind_assoc, ?bind_ret, ?bind_get, ?bind_modify; cbv beta.

(** The same for an external call: its crash is closed by [done]. *)
Ltac run_ext := rewrite bind_ext; case_match; [try done|].

End PluginWorld.
