(* ===== verification/PluginSecrets.v ===== *)
(** * Secret material of plugin configurations

    plugin/secret_material.go: before an operation that configures a plugin
    runs, the secret files its configuration refers to are written below the
    version's private directory and the references in the configuration are
    replaced by their paths; the operation's failure removes what was written,
    its success removes what is no longer referred to. *)

From S2P Require Import Prelude GoStrings Json Envelope PluginWorld.
From Stdlib Require Import Ascii String.

Module PluginSecrets.
Import Envelope PluginWorld.

Record preparedSecretConfiguration := mkPrepared {
  prepVersionDir : string;
  runtimeConfig : string;
  statePath : string;
  stateJSON : string;
  previousState : option string;
  createdPaths : list string;
  keepPaths : gset string
}.

Definition secretStateFileName : string := "secret-state.json".

Definition secretsRoot (versionDir : string) : string := versionDir +:+ "/private/secrets".

Definition secretMaterialPath (versionDir : string) (r : SecretReference) : string :=
  secretsRoot versionDir +:+ "/" +:+ SecretID r +:+ "/" +:+ format_uint (RefVersion r) +:+ "/" +:+ Name r.

(** The rewrite of [rewriteSecretReferences] on a decoded value. *)
Fixpoint rewrite (paths : gmap string string) (current : json) : json :=
  match current with
  | JObject members => JObject ((λ kv, (kv.1, rewrite paths kv.2)) <$> members)
  | JArray items => JArray (rewrite paths <$> items)
  | JString typed => match paths !! typed with Some path => JString path | None => current end
  | _ => current
  end.

Section with_env.
Context `{Env, Codec}.

Definition rewriteSecretReferences (config : string) (paths : gmap string string) : result string :=
  match json_decode config with
  | None => Err "decode plugin config"
  | Some (_, false) => Err "plugin config must contain one JSON value"
  | Some (value, true) => Ok (json_encode (rewrite paths value))
  end.

(** [env_walk] stands for the checks of the file's type and mode. *)
Definition writeVerifiedSecretMaterial (path : string) (material : SecretMaterial) : M (result bool) :=
  match base64_decode (ContentBase64 material) with
  | None => mret (Err "decode plugin secret material")
  | Some content =>
    if negb (String.eqb (SHA256 material) (sha256_hex content))
    then mret (Err "plugin secret material digest changed after envelope validation")
    else
      existing ← get (λ w, files w !! path);
      match existing with
      | Some existing =>
        modeErr ← ext env_walk;
        match modeErr with
        | Some e => mret (Err e)
        | None => if negb (String.eqb (SHA256 material) (sha256_hex existing))
                  then mret (Err "immutable plugin secret reference conflicts with existing material")
                  else mret (Ok false)
        end
      | None =>
        e ← writePrivateFile path content;
        mret (match e with Some e => Err e | None => Ok true end)
      end
  end.

Definition removeEmptySecretDirectories (root : string) : M error := ext env_walk.

Fixpoint removeCreated (paths : list string) (result : error) : M error :=
  match paths with
  | [] => mret result
  | path :: paths => e ← removeFile path; removeCreated paths (Join [result; e])
  end.

Definition rollbackSecrets (p : preparedSecretConfiguration) : M error :=
  restored ← restoreOptionalFile (statePath p) (previousState p);
  removed ← removeCreated (createdPaths p) restored;
  emptied ← removeEmptySecretDirectories (secretsRoot (prepVersionDir p));
  mret (Join [removed; emptied]).

(** The loop over the references: write each material, remember what was
    created, what to keep and where it is. *)
Fixpoint writeMaterials (materials : gmap string SecretMaterial) (p : preparedSecretConfiguration)
    (paths : gmap string string) (references : list SecretReference)
    : M (result unit * preparedSecretConfiguration * gmap string string) :=
  match references with
  | [] => mret (Ok tt, p, paths)
  | reference :: references =>
    let material := default (mkMaterial "" "" "") (materials !! reference_string reference) in
    let path := secretMaterialPath (prepVersionDir p) reference in
    r ← writeVerifiedSecretMaterial path material;
    match r with
    | Err e => mret (Err e, p, paths)
    | Ok created =>
      let p := mkPrepared (prepVersionDir p) (runtimeConfig p) (statePath p) (stateJSON p) (previousState p)
                 (if (created : bool) then createdPaths p ++ [path] else createdPaths p) ({[path]} ∪ keepPaths p) in
      writeMaterials materials p (<[reference_string reference := path]> paths) references
    end
  end.

Definition prepareSecretConfiguration (envelope : OperationEnvelope) : M (result preparedSecretConfiguration) :=
  let dir := versionDir (PluginID envelope) (TargetVersion envelope) in
  let statePath := dir +:+ "/private/" +:+ secretStateFileName in
  previous ← readOptionalFile statePath;
  match previous with
  | Err e => mret (Err e)
  | Ok previousState =>
    match SecretReferences (Config envelope) with
    | Err e => mret (Err e)
    | Ok references =>
      let stateJSON := json_encode (JObject [("config_hash", JString (ConfigHash envelope));
        ("references", JArray ((λ r, JString (reference_string r)) <$> references))]) in
      let prepared := mkPrepared dir (Config envelope) statePath stateJSON previousState [] ∅ in
      if String.eqb (Version envelope) OperationEnvelopeVersion then mret (Ok prepared)
      else
        let materials : gmap string SecretMaterial := list_to_map ((λ m, (Reference m, m)) <$> reverse (SecretMaterials envelope)) in
        r ← writeMaterials materials prepared ∅ references;
        let '(r, prepared, paths) := (r : result unit * preparedSecretConfiguration * gmap string string) in
        match r with
        | Err e => _ ← rollbackSecrets prepared; mret (Err e)
        | Ok _ =>
          match rewriteSecretReferences (Config envelope) paths with
          | Err e => _ ← rollbackSecrets prepared; mret (Err e)
          | Ok config =>
            mret (Ok (mkPrepared (prepVersionDir prepared) config statePath stateJSON previousState
                        (createdPaths prepared) (keepPaths prepared)))
          end
        end
    end
  end.

Definition stage (p : preparedSecretConfiguration) : M error := writePrivateFile (statePath p) (stateJSON p).

Fixpoint removeStale (paths : list string) : M error :=
  match paths with
  | [] => mret None
  | path :: paths =>
    e ← removeFile path;
    match e with Some e => mret (Some e) | None => removeStale paths end
  end.

(** [cleanupStaleSecretMaterials]: the files below the root that are not kept,
    in the order of their names. *)
Definition stale_paths (root : string) (keep : gset string) (files : gmap string string) : list string :=
  merge_sort string_le (filter (λ p, has_prefix p (root +:+ "/") = true ∧ p ∉ keep) (map_to_list files).*1).

Definition cleanupStaleSecretMaterials (root : string) (keep : gset string) : M error :=
  walkErr ← ext env_walk;
  match walkErr with
  | Some e => mret (Some e)
  | None =>
    stale ← get (λ w, stale_paths root keep (files w));
    e ← removeStale stale;
    match e with
    | Some e => mret (Some e)
    | None => removeEmptySecretDirectories root
    end
  end.

Definition commit (p : preparedSecretConfiguration) : M error :=
  cleanupStaleSecretMaterials (secretsRoot (prepVersionDir p)) (keepPaths p).

(** ** Rollback *)

(** The files differ from those at the start only by the materials created. *)
Definition created_only (p : preparedSecretConfiguration) (files0 files1 : gmap string string) : Prop :=
  (∀ path, path ∉ createdPaths p → files1 !! path = files0 !! path) ∧
  (∀ path, path ∈ createdPaths p → files0 !! path = None ∧ ∃ r, path = secretMaterialPath (prepVersionDir p) r).

Definition with_created (p : preparedSecretConfiguration) (created : bool) (path : string) : preparedSecretConfiguration :=
  mkPrepared (prepVersionDir p) (runtimeConfig p) (statePath p) (stateJSON p) (previousState p)
    (if created then createdPaths p ++ [path] else createdPaths p) ({[path]} ∪ keepPaths p).

Lemma writeVerified_created p r m files0 w created w' :
  writeVerifiedSecretMaterial (secretMaterialPath (prepVersionDir p) r) m w = (Done (Ok created), w') →
  created_only p files0 (files w) →
  created_only (with_created p created (secretMaterialPath (prepVersionDir p) r)) files0 (files w').
Proof.
  set (path := secretMaterialPath _ r). unfold writeVerifiedSecretMaterial. intros Hrun [H1 H2].
  destruct (base64_decode _) as [content|]; [|done]. destruct (negb _); [done|]. rewrite bind_get in Hrun.
  destruct (files w !! path) as [old|] eqn:Eold.
  - rewrite bind_ext in Hrun. destruct (env_crash _); [done|]. destruct (env_walk _); [done|]. destruct (negb _); [done|].
    injection Hrun as <- <-. done.
  - unfold writePrivateFile in Hrun. rewrite bind_assoc, bind_ext in Hrun. destruct (env_crash _); [done|].
    destruct (env_write _); [|done|done]. injection Hrun as <- <-.
    assert (path ∉ createdPaths p → files0 !! path = None) as Hnew by (intros Hn; by rewrite <- H1).
    split; cbn.
    + intros path' [Hn Hne]%not_elem_of_app. rewrite list_elem_of_singleton in Hne. rewrite lookup_insert_ne by done. by apply H1.
    + intros path' [Hin|Hin]%elem_of_app; [by apply H2|]. apply list_elem_of_singleton in Hin as ->. split; [|by exists r].
      destruct (decide (path ∈ createdPaths p)) as [Hi|Hn]; [by apply H2|by apply Hnew].
Qed.

Lemma writeMaterials_created ms refs : ∀ p paths files0 w r w',
  writeMaterials ms p paths refs w = (Done r, w') → created_only p files0 (files w) →
  r.1.1 = Ok tt → created_only r.1.2 files0 (files w') ∧ prepVersionDir r.1.2 = prepVersionDir p.
Proof.
  induction refs as [|ref refs IH]; intros p paths files0 w r w' Hrun Hc Hok; cbn [writeMaterials] in Hrun.
  { injection Hrun as <- <-. done. }
  rewrite bind_run in Hrun. destruct (writeVerifiedSecretMaterial _ _ w) as [[[created|e]|] w1] eqn:Ew; [| |done].
  - apply writeVerified_created with (files0 := files0) in Ew; [|done].
    by apply (IH _ _ files0) in Hrun as [H1 H2].
  - by injection Hrun as <- <-.
Qed.

(** A prepared configuration knows what it changed. *)
Lemma prepare_created e w p w' :
  prepareSecretConfiguration e w = (Done (Ok p), w') →
  created_only p (files w) (files w') ∧ previousState p = files w !! statePath p ∧
  statePath p = prepVersionDir p +:+ "/private/" +:+ secretStateFileName.
Proof.
  unfold prepareSecretConfiguration, readOptionalFile. rewrite bind_assoc, bind_ext.
  destruct (env_crash _); [done|]. destruct (env_read _) as [x|]; [done|]. rewrite bind_assoc, bind_get, bind_ret.
  set (w1 := set_tick _ w). assert (files w1 = files w) as Hf1 by done. clearbody w1. rewrite Hf1.
  destruct (SecretReferences _) as [refs|x]; [|done].
  set (p0 := mkPrepared _ _ _ _ _ [] ∅).
  assert (created_only p0 (files w) (files w1)) as Hinit.
  { rewrite Hf1. split; [done|]. by intros path ?%elem_of_nil. }
  destruct (String.eqb _ _); [by intros [= <- <-]|]. rewrite bind_run.
  destruct (writeMaterials _ p0 ∅ refs w1) as [[[[r p1] paths]|] w2] eqn:Ew; [|done].
  destruct r as [[]|x]; [|rewrite bind_run; by destruct (rollbackSecrets p1 w2) as [[?|] ?]].
  apply (writeMaterials_created _ _ _ _ (files w)) in Ew as [Hc Hd]; [|done|done]. cbn in Hc, Hd.
  destruct (rewriteSecretReferences _ _) as [config|x]; [|rewrite bind_run; by destruct (rollbackSecrets p1 w2) as [[?|] ?]].
  intros [= <- <-]. cbn. split_and!; [done|done|by rewrite Hd].
Qed.

Lemma removeCreated_none l : ∀ e w w',
  removeCreated l e w = (Done None, w') →
  e = None ∧ ∀ path, files w' !! path = if decide (path ∈ l) then None else files w !! path.
Proof.
  induction l as [|x l IH]; intros e w w' Hrun; cbn [removeCreated] in Hrun.
  { injection Hrun as -> <-. split; [done|]. intros path. by rewrite decide_False by apply not_elem_of_nil. }
  unfold removeFile in Hrun. rewrite bind_assoc, bind_ext in Hrun. destruct (env_crash _); [done|].
  destruct (env_remove _) as [y|].
  - rewrite bind_ret in Hrun. apply IH in Hrun as [He _]. by destruct e.
  - rewrite bind_assoc, bind_modify, bind_ret in Hrun. apply IH in Hrun as [He Hf].
    split; [by destruct e|]. intros path. rewrite Hf. cbn. destruct (decide (path ∈ l)) as [Hi|Hi].
    + by rewrite decide_True by (by right).
    + destruct (decide (path = x)) as [->|Hne].
      * rewrite lookup_delete_eq, decide_True by (by left). done.
      * rewrite lookup_delete_ne by done. rewrite decide_False; [done|]. by intros [?|?]%elem_of_cons.
Qed.

Lemma restore_file path contents w w' :
  restoreOptionalFile path contents w = (Done None, w') →
  ∀ path', files w' !! path' = if decide (path' = path) then contents else files w !! path'.
Proof.
  unfold restoreOptionalFile, writePrivateFile, removeFile. intros Hrun path'. destruct contents as [c|].
  all: rewrite bind_ext in Hrun; destruct (env_crash _); [done|].
  - destruct (env_write _); [|done|done]. injection Hrun as <-. cbn.
    case_decide as Hd; [by rewrite Hd, lookup_insert_eq|by rewrite lookup_insert_ne].
  - destruct (env_remove _); [done|]. injection Hrun as <-. cbn.
    case_decide as Hd; [by rewrite Hd, lookup_delete_eq|by rewrite lookup_delete_ne].
Qed.

(** Rolling back the secrets of an operation that failed leaves no trace: the
    materials it created are gone, those that were there before and the secret
    state file are as they were, whether or not the staging had succeeded. *)
Theorem secret_rollback_restores e w p w1 r w2 w3 :
  prepareSecretConfiguration e w = (Done (Ok p), w1) → stage p w1 = (Done r, w2) → rollbackSecrets p w2 = (Done None, w3) →
  files w3 = files w.
Proof.
  intros Hprep Hstage Hrb. apply prepare_created in Hprep as ([Hout Hin] & Hprev & Hpath).
  assert (∀ path, path ≠ statePath p → files w2 !! path = files w1 !! path) as Hst.
  { intros path Hne. unfold stage, writePrivateFile in Hstage. rewrite bind_ext in Hstage. destruct (env_crash _); [done|].
    destruct (env_write _); injection Hstage as <- <-; cbn; rewrite ?lookup_insert_ne by done; done. }
  unfold rollbackSecrets in Hrb. rewrite bind_run in Hrb.
  destruct (restoreOptionalFile _ _ w2) as [[x|] w4] eqn:Er; [|done].
  rewrite bind_run in Hrb. destruct (removeCreated _ x w4) as [[y|] w5] eqn:Ec; [|done].
  unfold removeEmptySecretDirectories in Hrb. rewrite bind_ext in Hrb. destruct (env_crash _); [done|].
  injection Hrb as Hj <-. assert (y = None) as -> by (by destruct y, (env_walk _)).
  apply removeCreated_none in Ec as [-> Hc]. pose proof (restore_file _ _ _ _ Er) as Hf.
  apply map_eq. intros path. cbn. rewrite Hc. case_decide as Hi; [symmetry; by apply Hin|].
  rewrite Hf. case_decide as Hd; [by subst path; rewrite Hprev|]. rewrite Hst by done. by apply Hout.
Qed.

End with_env.

End PluginSecrets.
