(* ===== verification/Supervisor.v ===== *)
(** * Plugin supervisor: operations

    The lifecycle operations of plugin/supervisor.go on the state and effects
    of PluginWorld.v: install, inspect, configure, enable, disable, update,
    rollback and health, with their failure paths, the cleanup that has to
    succeed before the next transition, and the journal that makes an
    operation run once.  Each operation runs under its plugin's lock and is
    written as one sequence of calls; the journal steps before and after it
    are separate functions, since other operations run in between. *)

From S2P Require Import Prelude GoStrings Json Envelope PluginNames PluginWorld.
From Stdlib Require Import Ascii String.

Module Supervisor.
Import Envelope PluginNames PluginWorld.

Section with_env.
Context `{Env, Codec}.

Definition maxSocketPathLen : Z := 100.

(** ** Installed versions *)

Definition manifestSupportsCapability (manifest : Manifest) (capability : string) : bool :=
  existsb (String.eqb capability) (m_Capabilities manifest).

(** [env_verify] stands for the directory check, the reading and the signature
    check of the manifest; [env_artifacts] for the checks of the binary and the
    runtime files. *)
Definition verifyInstalledVersion (id version : string) : M (result Manifest) :=
  if negb (safeSegment id) || negb (safeSegment version)
  then mret (Err "plugin id and version must be safe path segments")
  else
    r ← ext env_verify;
    match r with
    | Err e => mret (Err e)
    | Ok manifest =>
      if negb (String.eqb (m_ID manifest) id) || negb (String.eqb (m_Version manifest) version)
      then mret (Err "installed plugin manifest does not match its path")
      else
        e ← ext env_artifacts;
        match e with Some e => mret (Err e) | None => mret (Ok manifest) end
    end.

Definition cleanupInstalledVersionContext (manifest : Manifest) (id version : string) : M error :=
  if negb (manifestSupportsCapability manifest "plugin.cleanup") then mret None
  else if negb cleanupRunner
  then mret (Some "plugin runner does not support the declared plugin.cleanup capability")
  else
    e ← ext env_mkdir;
    match e with
    | Some e => mret (wrap "prepare plugin runtime state directory" (Some e))
    | None =>
      e ← ext env_cleanup;
      _ ← modify (λ w, set_trace (EvCleanup id version (failed e) :: trace w) w);
      mret e
    end.

Definition stopAndCleanupInstalledVersion (manifest : Manifest) (id version : string) (process : option Process)
    : M (bool * error) :=
  stopErr ← stopProcess process;
  cleanupErr ← cleanupInstalledVersionContext manifest id version;
  mret (manifestSupportsCapability manifest "plugin.cleanup" && failed cleanupErr, Join [stopErr; cleanupErr]).

Definition markCleanupPending (id version : string) (operationErr : error) : M unit :=
  s ← lookupPlugin id;
  match s with
  | None => mret tt
  | Some s =>
    t ← now;
    _ ← removeProcessLocked id;
    _ ← storePlugin id (s |> with_Enabled false |> with_Health "unhealthy" |> with_CleanupPending true
                         |> with_CleanupVersion version |> with_LastError (text operationErr) |> with_UpdatedAt t);
    _ ← persistLocked;
    mret tt
  end.

Definition startVersion (id version : string) : M (result Process) :=
  m ← verifyInstalledVersion id version;
  match m with
  | Err e => mret (Err e)
  | Ok manifest =>
    if maxSocketPathLen <? len (socketPath id) then mret (Err "plugin Unix socket path is too long")
    else
      let usesRuntimeState := manifestSupportsCapability manifest "plugin.runtime-state" in
      let usesCleanup := manifestSupportsCapability manifest "plugin.cleanup" in
      if usesCleanup && negb usesRuntimeState
      then mret (Err "plugin.cleanup capability requires plugin.runtime-state")
      else if usesCleanup && negb cleanupRunner
      then mret (Err "plugin runner does not support the declared plugin.cleanup capability")
      else if usesRuntimeState && negb statefulRunner
      then mret (Err "plugin runner does not support the declared plugin.runtime-state capability")
      else
        dirErr ← (if usesRuntimeState then ext env_mkdir else mret None);
        match dirErr with
        | Some e => mret (Err ("prepare plugin runtime state directory: " +:+ e))
        | None =>
          r ← start id version;
          match r with
          | Err e => mret (Err e)
          | Ok process =>
            h ← ext env_health;
            match h with
            | None => mret (Ok process)
            | Some e =>
              stopErr ← stopProcess (Some process);
              cleanupErr ← cleanupInstalledVersionContext manifest id version;
              _ ← (if usesCleanup && (failed stopErr || failed cleanupErr)
                   then markCleanupPending id version (Join [stopErr; cleanupErr]) else mret tt);
              mret (Err (text (Join [wrap "plugin health check failed" (Some e); stopErr; cleanupErr])))
            end
          end
        end
  end.

(** ** Recording failures *)

Definition recordTransitionFailure (original : PluginState) (revision : Z) (operationErr : error)
    (cleanupVersion : string) : M unit :=
  t ← now;
  let s := original |> with_Enabled false |> with_Health "unhealthy" in
  let s := if String.eqb cleanupVersion "" then s
           else s |> with_CleanupPending true |> with_CleanupVersion cleanupVersion in
  let s := s |> with_DesiredRevision (maxRevision (p_DesiredRevision s) revision)
             |> with_LastError (text operationErr) |> with_UpdatedAt t in
  _ ← removeProcessLocked (p_ID s);
  _ ← storePlugin (p_ID s) s;
  _ ← persistLocked;
  mret tt.

Definition mergePendingCleanup (target current : PluginState) : PluginState :=
  if p_CleanupPending current
  then target |> with_CleanupPending true |> with_CleanupVersion (p_CleanupVersion current) else target.

Definition recordUpdateRollbackBlocked (original : PluginState) (revision : Z) (operationErr : error) : M unit :=
  current ← plugin (p_ID original);
  t ← now;
  let s := mergePendingCleanup original current |> with_Enabled false |> with_Health "unhealthy" in
  let s := s |> with_DesiredRevision (maxRevision (p_DesiredRevision s) revision)
             |> with_LastError (text operationErr) |> with_UpdatedAt t in
  _ ← removeProcessLocked (p_ID s);
  _ ← storePlugin (p_ID s) s;
  _ ← persistLocked;
  mret tt.

Definition recordConfigureStopFailure (original : PluginState) (operationErr : error) : M unit :=
  t ← now;
  let s := original |> with_Enabled false |> with_Health "unhealthy" |> with_LastError (text operationErr)
                    |> with_UpdatedAt t in
  _ ← removeProcessLocked (p_ID s);
  _ ← storePlugin (p_ID s) s;
  _ ← persistLocked;
  mret tt.

Definition recordPluginError (id health : string) (operationErr : error) : M unit :=
  s ← lookupPlugin id;
  match s with
  | None => mret tt
  | Some s =>
    t ← now;
    _ ← storePlugin id (s |> with_Health health |> with_LastError (text operationErr) |> with_UpdatedAt t);
    _ ← persistLocked;
    mret tt
  end.

(** ** Pending cleanup *)

Definition recoverPluginCleanupContext (id : string) : M error :=
  persisted ← lookupPlugin id;
  match persisted with
  | None => mret None
  | Some persisted =>
    if negb (p_CleanupPending persisted) then mret None
    else
      let cleanupVersion := if String.eqb (p_CleanupVersion persisted) "" then p_DesiredVersion persisted
                            else p_CleanupVersion persisted in
      m ← verifyInstalledVersion id cleanupVersion;
      let verifyErr := match m with Err e => Some e | Ok _ => None end in
      cleanupErr ← match m with
                   | Ok manifest => if manifestSupportsCapability manifest "plugin.cleanup"
                                    then cleanupInstalledVersionContext manifest id cleanupVersion else mret None
                   | Err _ => mret None
                   end;
      socketErr ← removeSocket (socketPath id);
      let operationErr := Join [verifyErr; cleanupErr; socketErr] in
      previous ← plugin id;
      t ← now;
      let s := previous |> with_UpdatedAt t |> with_CleanupPending (failed operationErr) in
      let s := match operationErr with
               | None => s |> with_CleanupVersion "" |> with_Health (if p_Enabled s then "stopped" else "disabled")
                           |> with_LastError ""
               | Some e => s |> with_CleanupVersion cleanupVersion |> with_Health "unhealthy"
                             |> with_LastError ("recover pending plugin cleanup: " +:+ e)
               end in
      _ ← storePlugin id s;
      persistErr ← persistLocked;
      _ ← (if failed persistErr then storePlugin id previous else mret tt);
      mret (Join [operationErr; persistErr])
  end.

(** ** Operations *)

Definition errNotInstalled : string := "plugin is not installed".
Definition errTarget : string := "plugin operation target version is not installed".
Definition errInlineSecret : string := "plugin config must reference secrets instead of containing secret material".

Definition inspect (pluginID : string) : M (result RawMessage) :=
  s ← lookupPlugin pluginID;
  mret (match s with None => Err errNotInstalled | Some s => Ok s end).

Definition rollbackConfiguration (original : PluginState) (revision : Z) (configPath : string)
    (oldConfig : option string) (operationErr : error) : M error :=
  restoreErr ← restoreOptionalFile configPath oldConfig;
  r ← match restoreErr with
      | None => r ← startVersion (p_ID original) (p_DesiredVersion original); mret (Some r)
      | Some _ => mret None
      end;
  let rollbackErr := match r with Some (Err e) => Some e | _ => None end in
  current ← plugin (p_ID original);
  t ← now;
  let s := mergePendingCleanup original current in
  let s := s |> with_DesiredRevision (maxRevision (p_DesiredRevision s) revision) |> with_UpdatedAt t
             |> with_LastError (text operationErr) in
  s ← match r with
      | Some (Ok rollbackProcess) =>
        _ ← setProcessLocked (p_ID s) rollbackProcess;
        mret (s |> with_Enabled true |> with_Health "healthy" |> with_ObservedVersion (p_DesiredVersion original))
      | _ =>
        _ ← removeProcessLocked (p_ID s);
        mret (s |> with_Enabled false |> with_Health "unhealthy"
                |> with_LastError (text (Join [operationErr; restoreErr; rollbackErr])))
      end;
  _ ← storePlugin (p_ID s) s;
  persistErr ← persistLocked;
  mret (Join [operationErr; restoreErr; rollbackErr; persistErr]).

(** The second half of [configure], for an enabled plugin: the process is
    stopped and cleaned up, the configuration replaced, the version restarted;
    a failure after the stop restores the old configuration. *)
Definition configureEnabled (envelope : OperationEnvelope) (original : PluginState) (process : option Process)
    (configPath : string) : M (result RawMessage) :=
  old ← readOptionalFile configPath;
  match old with
  | Err e => _ ← recordPluginError (p_ID original) "unhealthy" (Some e); mret (Err e)
  | Ok oldConfig =>
    _ ← removeProcessLocked (p_ID original);
    m ← verifyInstalledVersion (p_ID original) (p_DesiredVersion original);
    match m with
    | Err verifyErr =>
      stopErr ← stopProcess process;
      let transitionErr := Join [Some verifyErr; stopErr] in
      _ ← recordTransitionFailure original (Revision envelope) transitionErr (p_DesiredVersion original);
      mret (Err (text (wrap "verify current plugin before configure" transitionErr)))
    | Ok manifest =>
      r ← stopAndCleanupInstalledVersion manifest (p_ID original) (p_DesiredVersion original) process;
      let '(cleanupPending, transitionErr) := (r : bool * error) in
      match transitionErr with
      | Some _ =>
        _ ← recordTransitionFailure original (Revision envelope) transitionErr
              (if cleanupPending then p_DesiredVersion original else "");
        mret (Err (text (wrap "stop plugin before configure" transitionErr)))
      | None =>
        let rollback (operationErr : error) : M (result RawMessage) :=
          e ← rollbackConfiguration original (Revision envelope) configPath oldConfig operationErr;
          mret (Err (text e)) in
        socketErr ← removeSocket (socketPath (p_ID original));
        match socketErr with
        | Some _ => rollback (wrap "remove old plugin socket" socketErr)
        | None =>
          writeErr ← writePrivateFile configPath (Config envelope);
          match writeErr with
          | Some _ => rollback (wrap "write updated plugin config" writeErr)
          | None =>
            r ← startVersion (p_ID original) (p_DesiredVersion original);
            match r with
            | Err e => rollback (wrap "restart plugin after configure" (Some e))
            | Ok newProcess =>
              t ← now;
              let s := original |> with_ConfigHash (ConfigHash envelope) |> with_DesiredRevision (Revision envelope)
                |> with_UpdatedAt t |> with_LastError ""
                |> with_ObservedRevision (maxRevision (p_ObservedRevision original) (Revision envelope))
                |> with_Health "healthy" |> with_Enabled true |> with_CleanupPending false |> with_CleanupVersion "" in
              _ ← setProcessLocked (p_ID s) newProcess;
              _ ← storePlugin (p_ID s) s;
              err ← persistLocked;
              match err with
              | None => mret (Ok s)
              | Some _ =>
                _ ← removeProcessLocked (p_ID s);
                _ ← storePlugin (p_ID s) original;
                stopErr ← stopProcess (Some newProcess);
                rollback (Join [wrap "persist updated plugin config state" err; stopErr])
              end
            end
          end
        end
      end
    end
  end.

Definition configure (envelope : OperationEnvelope) : M (result RawMessage) :=
  if containsInlineSecret (Config envelope) then mret (Err errInlineSecret)
  else
    found ← lookupPlugin (PluginID envelope);
    match found with
    | None => mret (Err errNotInstalled)
    | Some s =>
      if String.eqb (p_DesiredVersion s) "" then mret (Err errNotInstalled)
      else if negb (String.eqb (TargetVersion envelope) (p_DesiredVersion s)) then mret (Err errTarget)
      else
        let configPath := configFile (p_ID s) (p_DesiredVersion s) in
        process ← get (λ w, processes w !! p_ID s);
        if negb (p_Enabled s) then
          writeErr ← writePrivateFile configPath (Config envelope);
          match writeErr with
          | Some e => mret (Err e)
          | None =>
            t ← now;
            let s := s |> with_ConfigHash (ConfigHash envelope) |> with_DesiredRevision (Revision envelope)
                       |> with_UpdatedAt t |> with_LastError "" in
            _ ← storePlugin (p_ID s) s;
            err ← persistLocked;
            mret (match err with Some e => Err e | None => Ok s end)
          end
        else configureEnabled envelope s process configPath
    end.

(** The last part of [enable]: start the desired version and record it. *)
Definition enableStart (envelope : OperationEnvelope) (s : PluginState) : M (result RawMessage) :=
  r ← startVersion (p_ID s) (p_DesiredVersion s);
  match r with
  | Err e => _ ← recordPluginError (p_ID s) "unhealthy" (Some e); mret (Err e)
  | Ok process =>
    previous ← plugin (p_ID s);
    t ← now;
    let s := previous |> with_Enabled true |> with_Health "healthy" |> with_ObservedVersion (p_DesiredVersion previous)
      |> with_CleanupPending false |> with_CleanupVersion ""
      |> with_DesiredRevision (maxRevision (p_DesiredRevision previous) (Revision envelope))
      |> with_ObservedRevision (maxRevision (p_ObservedRevision previous) (Revision envelope))
      |> with_UpdatedAt t |> with_LastError "" in
    _ ← setProcessLocked (p_ID s) process;
    _ ← storePlugin (p_ID s) s;
    err ← persistLocked;
    match err with
    | None => mret (Ok s)
    | Some e =>
      _ ← removeProcessLocked (p_ID s);
      _ ← storePlugin (p_ID s) previous;
      _ ← stopProcess (Some process);
      mret (Err e)
    end
  end.

Definition enable (envelope : OperationEnvelope) : M (result RawMessage) :=
  found ← lookupPlugin (PluginID envelope);
  match found with
  | None => mret (Err errNotInstalled)
  | Some s =>
    if String.eqb (p_DesiredVersion s) "" then mret (Err errNotInstalled)
    else if negb (String.eqb (p_DesiredVersion s) (TargetVersion envelope)) then mret (Err errTarget)
    else
      process ← get (λ w, processes w !! p_ID s);
      match process with
      | Some p =>
        if p_Enabled s && String.eqb (p_ObservedVersion s) (p_DesiredVersion s) then
          healthErr ← ext env_health;
          match healthErr with
          | None =>
            current ← plugin (p_ID s);
            t ← now;
            let current := current |> with_Health "healthy" |> with_LastError ""
              |> with_DesiredRevision (maxRevision (p_DesiredRevision current) (Revision envelope))
              |> with_ObservedRevision (maxRevision (p_ObservedRevision current) (Revision envelope))
              |> with_UpdatedAt t in
            _ ← storePlugin (p_ID s) current;
            persistErr ← persistLocked;
            mret (match persistErr with Some e => Err e | None => Ok current end)
          | Some _ =>
            _ ← removeProcessLocked (p_ID s);
            m ← verifyInstalledVersion (p_ID s) (p_DesiredVersion s);
            match m with
            | Err verifyErr =>
              stopErr ← stopProcess process;
              let transitionErr := Join [Some verifyErr; stopErr] in
              _ ← recordTransitionFailure s (Revision envelope) transitionErr (p_DesiredVersion s);
              mret (Err (text (wrap "verify unhealthy plugin before restart" transitionErr)))
            | Ok manifest =>
              r ← stopAndCleanupInstalledVersion manifest (p_ID s) (p_DesiredVersion s) process;
              let '(cleanupPending, transitionErr) := (r : bool * error) in
              match transitionErr with
              | Some _ =>
                _ ← recordTransitionFailure s (Revision envelope) transitionErr
                      (if cleanupPending then p_DesiredVersion s else "");
                mret (Err (text (wrap "stop unhealthy plugin process" transitionErr)))
              | None =>
                socketErr ← removeSocket (socketPath (p_ID s));
                match socketErr with
                | Some e => _ ← recordConfigureStopFailure s socketErr; mret (Err e)
                | None => enableStart envelope s
                end
              end
            end
          end
        else enableStart envelope s
      | None => enableStart envelope s
      end
  end.

Definition disable (envelope : OperationEnvelope) : M (result RawMessage) :=
  found ← lookupPlugin (PluginID envelope);
  match found with
  | None => mret (Err errNotInstalled)
  | Some s =>
    if negb (String.eqb (p_DesiredVersion s) (TargetVersion envelope)) then mret (Err errTarget)
    else
      process ← get (λ w, processes w !! p_ID s);
      _ ← removeProcessLocked (p_ID s);
      m ← verifyInstalledVersion (p_ID s) (p_DesiredVersion s);
      let verifyErr := match m with Err e => Some e | Ok _ => None end in
      let cleanupRequired := match m with Ok manifest => manifestSupportsCapability manifest "plugin.cleanup"
                                        | Err _ => false end in
      stopErr ← stopProcess process;
      cleanupErr ← match m with
                   | Ok manifest => if cleanupRequired
                                    then cleanupInstalledVersionContext manifest (p_ID s) (p_DesiredVersion s)
                                    else mret None
                   | Err _ => mret None
                   end;
      socketErr ← removeSocket (socketPath (PluginID envelope));
      let operationErr := Join [verifyErr; stopErr; cleanupErr; socketErr] in
      let cleanupSafe := negb (failed verifyErr) && negb (failed stopErr)
                         && (negb cleanupRequired || negb (failed cleanupErr)) in
      let clean := cleanupSafe && negb (failed socketErr) in
      s ← plugin (PluginID envelope);
      t ← now;
      let s := s |> with_Enabled false |> with_Health (if clean then "disabled" else "unhealthy")
        |> with_DesiredRevision (maxRevision (p_DesiredRevision s) (Revision envelope)) |> with_UpdatedAt t in
      let s := if clean then s |> with_ObservedRevision (maxRevision (p_ObservedRevision s) (Revision envelope)) else s in
      let s := s |> with_LastError "" in
      let s := if clean then s |> with_CleanupPending false |> with_CleanupVersion ""
               else if cleanupRequired && failed cleanupErr
               then s |> with_CleanupPending true |> with_CleanupVersion (p_DesiredVersion s) else s in
      let s := match operationErr with Some e => s |> with_LastError e | None => s end in
      _ ← storePlugin (PluginID envelope) s;
      err ← persistLocked;
      mret (match err, operationErr with
            | Some e, _ => Err e
            | None, Some e => Err e
            | None, None => Ok s
            end)
  end.

(** [update] of a plugin that is not enabled: clean the current version up and
    record the target. *)
Definition updateDisabled (envelope : OperationEnvelope) (original : PluginState) (currentManifest : Manifest)
    (restoreTargetConfig : error → M error) : M (result RawMessage) :=
  cleanupErr ← cleanupInstalledVersionContext currentManifest (p_ID original) (p_DesiredVersion original);
  match cleanupErr with
  | Some _ =>
    transitionErr ← restoreTargetConfig (wrap "cleanup current plugin version before update" cleanupErr);
    _ ← recordTransitionFailure original (Revision envelope) transitionErr (p_DesiredVersion original);
    mret (Err (text transitionErr))
  | None =>
    t ← now;
    let s := original |> with_PreviousVersion (p_DesiredVersion original) |> with_DesiredVersion (TargetVersion envelope)
      |> with_Health "installed" |> with_LastError "" |> with_CleanupPending false |> with_CleanupVersion ""
      |> with_ConfigHash (ConfigHash envelope)
      |> with_DesiredRevision (maxRevision (p_DesiredRevision original) (Revision envelope))
      |> with_ObservedRevision (maxRevision (p_ObservedRevision original) (Revision envelope)) |> with_UpdatedAt t in
    _ ← storePlugin (p_ID s) s;
    err ← persistLocked;
    match err with
    | None => mret (Ok s)
    | Some _ =>
      _ ← storePlugin (p_ID s) original;
      e ← restoreTargetConfig err;
      mret (Err (text e))
    end
  end.

(** The target version did not start: restore its configuration and restart
    the current version, unless the target left cleanup pending. *)
Definition updateStartFailed (envelope : OperationEnvelope) (original : PluginState) (targetConfigPath : string)
    (oldTargetConfig : option string) (startErr : string) : M (result RawMessage) :=
  blocked ← plugin (p_ID original);
  if p_CleanupPending blocked then
    recoveryErr ← recoverPluginCleanupContext (p_ID original);
    restoreErr ← restoreOptionalFile targetConfigPath oldTargetConfig;
    let operationErr := Join [wrap "start updated plugin version" (Some startErr); recoveryErr; restoreErr] in
    _ ← recordUpdateRollbackBlocked original (Revision envelope) operationErr;
    mret (Err (text operationErr))
  else
    restoreErr ← restoreOptionalFile targetConfigPath oldTargetConfig;
    r ← startVersion (p_ID original) (p_DesiredVersion original);
    let rollbackErr := match r with Err e => Some e | Ok _ => None end in
    current ← plugin (p_ID original);
    t ← now;
    let s := mergePendingCleanup original current in
    let s := s |> with_DesiredRevision (maxRevision (p_DesiredRevision s) (Revision envelope)) |> with_UpdatedAt t
      |> with_LastError ("update to " +:+ TargetVersion envelope +:+ " failed: " +:+ text (Join [Some startErr; restoreErr])) in
    s ← match r with
        | Ok rollbackProcess =>
          _ ← setProcessLocked (p_ID s) rollbackProcess;
          mret (s |> with_Enabled true |> with_Health "healthy" |> with_ObservedVersion (p_DesiredVersion original)
                  |> with_CleanupPending false |> with_CleanupVersion ""
                  |> with_ObservedRevision (maxRevision (p_ObservedRevision s) (Revision envelope)))
        | Err e =>
          mret (s |> with_Enabled false |> with_Health "unhealthy"
                  |> with_LastError (p_LastError s +:+ "; automatic rollback failed: " +:+ e))
        end;
    _ ← storePlugin (p_ID s) s;
    persistErr ← persistLocked;
    mret (Err (text (match persistErr with
                     | Some _ => Join [Some startErr; restoreErr; rollbackErr; persistErr]
                     | None => Join [wrap "start updated plugin version" (Some startErr); restoreErr; rollbackErr]
                     end))).

(** The target version runs but its state was not persisted: stop it, restore
    its configuration and restart the current version. *)
Definition updatePersistFailed (envelope : OperationEnvelope) (original : PluginState) (targetManifest : Manifest)
    (newProcess : Process) (targetConfigPath : string) (oldTargetConfig : option string) (persistErr : error)
    : M (result RawMessage) :=
  r ← stopAndCleanupInstalledVersion targetManifest (p_ID original) (TargetVersion envelope) (Some newProcess);
  let '(cleanupPending, stopCleanupErr) := (r : bool * error) in
  recoveryErr ← (if failed stopCleanupErr && cleanupPending then
                   _ ← markCleanupPending (p_ID original) (TargetVersion envelope) stopCleanupErr;
                   recoverPluginCleanupContext (p_ID original)
                 else mret None);
  restoreConfigErr ← restoreOptionalFile targetConfigPath oldTargetConfig;
  if failed stopCleanupErr then
    let operationErr := Join [persistErr; stopCleanupErr; restoreConfigErr; recoveryErr] in
    _ ← recordUpdateRollbackBlocked original (Revision envelope) operationErr;
    mret (Err (text operationErr))
  else
    r ← startVersion (p_ID original) (p_DesiredVersion original);
    let rollbackErr := match r with Err e => Some e | Ok _ => None end in
    current ← plugin (p_ID original);
    let current := if cleanupPending then current |> with_CleanupPending true |> with_CleanupVersion (TargetVersion envelope)
                   else current in
    current ← match r with
              | Ok rollbackProcess =>
                _ ← setProcessLocked (p_ID original) rollbackProcess;
                mret (current |> with_Enabled true |> with_Health "healthy" |> with_ObservedVersion (p_DesiredVersion original)
                        |> with_CleanupPending false |> with_CleanupVersion "" |> with_LastError "")
              | Err e =>
                mret (current |> with_Enabled false |> with_Health "unhealthy"
                        |> with_LastError (text (Join [stopCleanupErr; rollbackErr])))
              end;
    _ ← storePlugin (p_ID original) current;
    statePersistErr ← persistLocked;
    mret (Err (text (Join [persistErr; stopCleanupErr; restoreConfigErr; rollbackErr; statePersistErr]))).

(** [update] of an enabled plugin after the stop of its process: clean up the
    current version, start the target, and go back to the current version when
    that fails. *)
Definition updateStopped (envelope : OperationEnvelope) (original : PluginState) (stopErr : error)
    (targetManifest currentManifest : Manifest) (targetConfigPath : string) (oldTargetConfig : option string)
    : M (result RawMessage) :=
  let restoreTargetConfig (operationErr : error) : M error :=
    e ← restoreOptionalFile targetConfigPath oldTargetConfig; mret (Join [operationErr; e]) in
  cleanupErr ← cleanupInstalledVersionContext currentManifest (p_ID original) (p_DesiredVersion original);
  match Join [stopErr; cleanupErr] with
  | Some e =>
    transitionErr ← restoreTargetConfig (Some e);
    _ ← recordTransitionFailure original (Revision envelope) transitionErr
          (if failed cleanupErr then p_DesiredVersion original else "");
    mret (Err (text (wrap "prepare current plugin version for update" transitionErr)))
  | None =>
    socketErr ← removeSocket (socketPath (p_ID original));
    match socketErr with
    | Some _ =>
      operationErr ← restoreTargetConfig socketErr;
      _ ← recordConfigureStopFailure original operationErr;
      mret (Err (text operationErr))
    | None =>
      r ← startVersion (p_ID original) (TargetVersion envelope);
      match r with
      | Err startErr => updateStartFailed envelope original targetConfigPath oldTargetConfig startErr
      | Ok newProcess =>
        t ← now;
        let s := original |> with_PreviousVersion (p_DesiredVersion original) |> with_DesiredVersion (TargetVersion envelope)
          |> with_Enabled true |> with_Health "healthy" |> with_ObservedVersion (TargetVersion envelope)
          |> with_CleanupPending false |> with_CleanupVersion "" |> with_ConfigHash (ConfigHash envelope)
          |> with_DesiredRevision (maxRevision (p_DesiredRevision original) (Revision envelope))
          |> with_ObservedRevision (maxRevision (p_ObservedRevision original) (Revision envelope))
          |> with_UpdatedAt t |> with_LastError "" in
        _ ← setProcessLocked (p_ID s) newProcess;
        _ ← storePlugin (p_ID s) s;
        persistErr ← persistLocked;
        match persistErr with
        | None => mret (Ok s)
        | Some _ =>
          _ ← removeProcessLocked (p_ID s);
          _ ← storePlugin (p_ID s) original;
          updatePersistFailed envelope original targetManifest newProcess targetConfigPath oldTargetConfig persistErr
        end
      end
    end
  end.

Definition updateEnabled (envelope : OperationEnvelope) (original : PluginState) (oldProcess : option Process)
    (targetManifest currentManifest : Manifest) (targetConfigPath : string) (oldTargetConfig : option string)
    : M (result RawMessage) :=
  stopErr ← match oldProcess with
            | Some p => _ ← removeProcessLocked (p_ID original); stop p
            | None => mret None
            end;
  updateStopped envelope original stopErr targetManifest currentManifest targetConfigPath oldTargetConfig.

(** [update] to another version than the desired one. *)
Definition updateVersion (envelope : OperationEnvelope) (original : PluginState) : M (result RawMessage) :=
  oldProcess ← get (λ w, processes w !! p_ID original);
  tm ← verifyInstalledVersion (p_ID original) (TargetVersion envelope);
  match tm with
  | Err e => mret (Err ("target plugin version is not installed or trusted: " +:+ e))
  | Ok targetManifest =>
    cm ← verifyInstalledVersion (p_ID original) (p_DesiredVersion original);
    match cm with
    | Err e => mret (Err ("current plugin version is not installed or trusted: " +:+ e))
    | Ok currentManifest =>
      let targetConfigPath := configFile (p_ID original) (TargetVersion envelope) in
      old ← readOptionalFile targetConfigPath;
      match old with
      | Err e => mret (Err e)
      | Ok oldTargetConfig =>
        writeErr ← writePrivateFile targetConfigPath (Config envelope);
        match writeErr with
        | Some e => mret (Err ("write target plugin config: " +:+ e))
        | None =>
          if negb (p_Enabled original)
          then updateDisabled envelope original currentManifest
                 (λ operationErr, e ← restoreOptionalFile targetConfigPath oldTargetConfig; mret (Join [operationErr; e]))
          else updateEnabled envelope original oldProcess targetManifest currentManifest targetConfigPath oldTargetConfig
        end
      end
    end
  end.

Definition update (envelope : OperationEnvelope) : M (result RawMessage) :=
  if containsInlineSecret (Config envelope) then mret (Err errInlineSecret)
  else
    found ← lookupPlugin (PluginID envelope);
    match found with
    | None => mret (Err errNotInstalled)
    | Some s =>
      if String.eqb (p_DesiredVersion s) (TargetVersion envelope) then
        matches ← (if String.eqb (p_ConfigHash s) (ConfigHash envelope) then
                     stored ← readOptionalFile (configFile (p_ID s) (p_DesiredVersion s));
                     mret (match stored with
                           | Err e => Err e
                           | Ok stored => Ok (bool_decide (stored = Some (Config envelope)))
                           end)
                   else mret (Ok false));
        match matches with
        | Err e => mret (Err e)
        | Ok true =>
          if negb (p_Enabled s) then
            t ← now;
            let s := s |> with_DesiredRevision (maxRevision (p_DesiredRevision s) (Revision envelope))
              |> with_ObservedRevision (maxRevision (p_ObservedRevision s) (Revision envelope))
              |> with_UpdatedAt t |> with_LastError "" in
            _ ← storePlugin (p_ID s) s;
            err ← persistLocked;
            mret (match err with Some e => Err e | None => Ok s end)
          else enable envelope
        | Ok false => configure envelope
        end
      else updateVersion envelope s
    end.

Definition rollback (envelope : OperationEnvelope) : M (result RawMessage) :=
  found ← lookupPlugin (PluginID envelope);
  match found with
  | None => mret (Err "plugin has no rollback version")
  | Some s =>
    if String.eqb (p_PreviousVersion s) "" then mret (Err "plugin has no rollback version")
    else if negb (String.eqb (TargetVersion envelope) (p_PreviousVersion s))
    then mret (Err "plugin rollback target does not match the installed previous version")
    else update envelope
  end.

Definition healthCheck (envelope : OperationEnvelope) : M (result RawMessage) :=
  found ← lookupPlugin (PluginID envelope);
  match found with
  | None => mret (Err errNotInstalled)
  | Some s =>
    if negb (p_Enabled s) then inspect (PluginID envelope)
    else
      healthErr ← ext env_health;
      s ← plugin (PluginID envelope);
      t ← now;
      match healthErr with
      | Some e =>
        _ ← storePlugin (PluginID envelope) (s |> with_Health "unhealthy" |> with_LastError e |> with_UpdatedAt t);
        _ ← persistLocked;
        mret (Err e)
      | None =>
        let s := s |> with_Health "healthy" |> with_LastError "" |> with_UpdatedAt t in
        _ ← storePlugin (PluginID envelope) s;
        err ← persistLocked;
        mret (match err with Some e => Err e | None => Ok s end)
      end
  end.

(** [installPrepared]: [env_publish] stands for the publication of the version
    directory, or the comparison with the one that is already there. *)
Definition installPrepared (manifest : Manifest) (revision : Z) : M (result PluginState) :=
  publishErr ← ext env_publish;
  match publishErr with
  | Some e => mret (Err e)
  | None =>
    existed ← lookupPlugin (m_ID manifest);
    let s := default zeroPlugin existed in
    t ← now;
    let s := if String.eqb (p_ID s) ""
             then mkPlugin (m_ID manifest) (m_Version manifest) (p_ObservedVersion s) (p_PreviousVersion s) (p_Enabled s)
                    "installed" (p_ConfigHash s) (p_DesiredRevision s) (p_ObservedRevision s) (p_LastError s)
                    (p_CleanupPending s) (p_CleanupVersion s) (p_UpdatedAt s)
             else s in
    let s := if 0 <? revision
             then s |> with_DesiredRevision (maxRevision (p_DesiredRevision s) revision)
                    |> with_ObservedRevision (maxRevision (p_ObservedRevision s) revision)
             else s in
    let s := s |> with_LastError "" |> with_UpdatedAt t in
    _ ← storePlugin (m_ID manifest) s;
    err ← persistLocked;
    match err with
    | None => mret (Ok s)
    | Some e =>
      _ ← match existed with
          | Some previous => storePlugin (m_ID manifest) previous
          | None => modify (λ w, set_state (mkState (delete (m_ID manifest) (Plugins (state w))) (Journal (state w))) w)
          end;
      mret (Err e)
    end
  end.

End with_env.

End Supervisor.
