(* ===== verification/SupervisorRuns.v ===== *)
(** * Plugin supervisor: journal, start and shutdown

    How plugin/supervisor.go runs an operation once (the journal of [handle]),
    what it does when the Agent starts ([load], pending cleanups, restore of
    enabled plugins), when a process exits, when the maintenance monitor looks
    at a plugin (plugin/maintenance.go) and on [Close]. *)

From S2P Require Import Prelude GoStrings Json Envelope PluginNames PluginWorld PluginSecrets Supervisor.
From Stdlib Require Import Ascii String.

Module SupervisorRuns.
Import Envelope PluginNames PluginWorld PluginSecrets Supervisor.

(** ** Operation kinds *)

Definition operation_kinds : list string :=
  ["plugin.install"; "plugin.inspect"; "plugin.configure"; "plugin.enable"; "plugin.disable"; "plugin.update";
   "plugin.rollback"; "plugin.health"].

Definition operationMutatesState (kind : string) : bool :=
  containsString ["plugin.install"; "plugin.configure"; "plugin.enable"; "plugin.disable"; "plugin.update";
                  "plugin.rollback"] kind.

Definition operationBlocksAutomaticRestore (kind : string) : bool :=
  containsString ["plugin.configure"; "plugin.enable"; "plugin.disable"; "plugin.update"; "plugin.rollback"] kind.

Section with_env.
Context `{Env, Codec}.

Definition validateOperation (kind : string) (e : OperationEnvelope) : result unit :=
  if negb (containsString operation_kinds kind) then Err ("unsupported plugin operation " +:+ kind)
  else if negb (String.eqb (Version e) OperationEnvelopeVersion) && negb (String.eqb (Version e) OperationEnvelopeVersionV2)
  then Err ("unsupported plugin operation envelope version " +:+ Version e)
  else if negb (safeIdentity (OperationID e) 160) || negb (safeIdentity (IdempotencyKey e) 160)
          || negb (safeIdentity (SessionID e) 160) then Err "plugin operation identity fields are required"
  else if negb (safeSegment (PluginID e)) || negb (safeSegment (TargetVersion e))
  then Err "plugin operation id and target version must be safe path segments"
  else if Revision e =? 0 then Err "plugin operation revision must be positive"
  else if negb (validSHA256 (ConfigHash e)) then Err "plugin operation config_hash must be a SHA-256 digest"
  else if (0 <? len (Config e)) && negb (json_valid (Config e)) then Err "plugin operation config must be valid JSON"
  else if negb (equal_fold (ConfigHash e) (sha256_hex (Config e)))
  then Err "plugin operation config_hash does not match config"
  else ValidateSecretMaterials e.

(** ** Execution *)

Definition rejectStaleRevision (envelope : OperationEnvelope) (allowCurrent : bool) : M error :=
  s ← lookupPlugin (PluginID envelope);
  mret (match s with
        | None => None
        | Some s =>
          if (Revision envelope <? p_DesiredRevision s) || (negb allowCurrent && (Revision envelope =? p_DesiredRevision s))
          then Some "plugin operation revision is not newer than desired revision" else None
        end).

Definition executePreparedOperation (kind : string) (envelope : OperationEnvelope) : M (result RawMessage) :=
  if String.eqb kind "plugin.inspect" then inspect (PluginID envelope)
  else if String.eqb kind "plugin.configure" then configure envelope
  else if String.eqb kind "plugin.enable" then enable envelope
  else if String.eqb kind "plugin.disable" then disable envelope
  else if String.eqb kind "plugin.update" then update envelope
  else if String.eqb kind "plugin.rollback" then rollback envelope
  else if String.eqb kind "plugin.health" then healthCheck envelope
  else mret (Err ("unsupported plugin operation " +:+ kind)).

Definition with_config (envelope : OperationEnvelope) (config : string) : OperationEnvelope :=
  mkEnvelope (Version envelope) (OperationID envelope) (IdempotencyKey envelope) (SessionID envelope) (Revision envelope)
    (PluginID envelope) (TargetVersion envelope) (ConfigHash envelope) config (SecretMaterials envelope).

(** The installation: [env_install] is the loader with [prepareInstall]. *)
Definition executeInstall (envelope : OperationEnvelope) : M (result RawMessage) :=
  r ← ext env_install;
  match r with
  | Err e => mret (Err e)
  | Ok manifest =>
    ctxErr ← ext env_ctx;
    match ctxErr with
    | Some e => mret (Err e)
    | None =>
      if negb (String.eqb (m_ID manifest) (PluginID envelope)) || negb (String.eqb (m_Version manifest) (TargetVersion envelope))
      then mret (Err "downloaded plugin manifest does not match the operation target")
      else installPrepared manifest (Revision envelope)
    end
  end.

(** An operation between the preparation of its secrets and their commit. *)
Definition executeMaterialized (kind : string) (envelope : OperationEnvelope) (materializedEnable : bool)
    : M (result RawMessage) :=
  p ← prepareSecretConfiguration envelope;
  match p with
  | Err e => mret (Err e)
  | Ok prepared =>
    stageErr ← stage prepared;
    match stageErr with
    | Some _ => rb ← rollbackSecrets prepared; mret (Err (text (Join [stageErr; rb])))
    | None =>
      let runtimeEnvelope := with_config envelope (runtimeConfig prepared) in
      let configPath := prepVersionDir prepared +:+ "/config.json" in
      let run (undo : M (list error)) : M (result RawMessage) :=
        r ← executePreparedOperation kind runtimeEnvelope;
        match r with
        | Err e =>
          undone ← undo;
          rb ← rollbackSecrets prepared;
          mret (Err (text (Join (Some e :: undone ++ [rb]))))
        | Ok result =>
          commitErr ← commit prepared;
          mret (match commitErr with Some e => Err e | None => Ok result end)
        end in
      if materializedEnable then
        old ← readOptionalFile configPath;
        match old with
        | Err e => rb ← rollbackSecrets prepared; mret (Err (text (Join [Some e; rb])))
        | Ok oldConfig =>
          writeErr ← writePrivateFile configPath (runtimeConfig prepared);
          match writeErr with
          | Some _ => rb ← rollbackSecrets prepared; mret (Err (text (Join [writeErr; rb])))
          | None => run (e ← restoreOptionalFile configPath oldConfig; mret [e])
          end
        end
      else run (mret [])
    end
  end.

Definition executeOperation (kind : string) (envelope : OperationEnvelope) (repairReplay installLoader : bool)
    : M (result RawMessage) :=
  stale ← (if operationMutatesState kind then rejectStaleRevision envelope repairReplay else mret None);
  match stale with
  | Some e => mret (Err e)
  | None =>
    let materializedEnable := String.eqb kind "plugin.enable" && String.eqb (Version envelope) OperationEnvelopeVersionV2 in
    if String.eqb kind "plugin.install" then
      if negb installLoader then mret (Err "plugin install request loader is required") else executeInstall envelope
    else if String.eqb kind "plugin.configure" || materializedEnable || String.eqb kind "plugin.update"
            || String.eqb kind "plugin.rollback"
    then executeMaterialized kind envelope materializedEnable
    else executePreparedOperation kind envelope
  end.

(** ** The journal *)

Definition audit_le (a b : SecretMaterialAudit) : Prop := string_le (a_Reference a) (a_Reference b).
#[export] Instance audit_le_dec : RelDecision audit_le.
Proof. intros a b. unfold audit_le. apply _. Defined.

Definition newJournalEntry (kind : string) (e : OperationEnvelope) (t : time) : JournalEntry :=
  mkEntry (OperationID e) (IdempotencyKey e) (SessionID e) kind (PluginID e) (TargetVersion e) (ConfigHash e) (Revision e)
    (merge_sort audit_le ((λ m, mkAudit (Reference m) (SHA256 m)) <$> SecretMaterials e)) "running" None "" t.

Definition journalSecretMaterialsMatch (audited : list SecretMaterialAudit) (materials : list SecretMaterial) : bool :=
  let actual : gmap string string := list_to_map ((λ m, (Reference m, SHA256 m)) <$> reverse materials) in
  (Z.of_nat (List.length audited) =? Z.of_nat (List.length materials))
  && forallb (λ a, String.eqb (default "" (actual !! a_Reference a)) (a_SHA256 a)) audited.

Definition journalMatches (entry : JournalEntry) (kind : string) (e : OperationEnvelope) : bool :=
  String.eqb (j_OperationID entry) (OperationID e) && String.eqb (j_IdempotencyKey entry) (IdempotencyKey e)
  && String.eqb (j_Kind entry) kind && String.eqb (j_PluginID entry) (PluginID e)
  && String.eqb (j_TargetVersion entry) (TargetVersion e) && equal_fold (j_ConfigHash entry) (ConfigHash e)
  && (j_Revision entry =? Revision e) && journalSecretMaterialsMatch (j_SecretMaterials entry) (SecretMaterials e).

(** How [handle] leaves its journal loop: with an answer, waiting for the call
    that is running the operation, or with the operation to run. *)
Inductive admission :=
| Answer (r : result (option RawMessage))
| Wait
| Proceed (repairReplay : bool)
| OutOfFuel.

Definition errRebound : string := "operation_id is already bound to a different plugin operation".
Definition errKey : string := "idempotency_key is already bound to a different plugin operation".
Definition errReplay : string := "plugin operation was interrupted before completion and is eligible for exact replay".

Definition key_bound (operationID key : string) (journal : gmap string JournalEntry) : bool :=
  existsb (λ kv, negb (String.eqb kv.1 operationID) && String.eqb (j_IdempotencyKey kv.2) key) (map_to_list journal).

(** Entering the operation as running, with the entry on disk before it runs. *)
Definition registerOperation (kind : string) (envelope : OperationEnvelope) (repairReplay : bool) : M admission :=
  bound ← get (λ w, key_bound (OperationID envelope) (IdempotencyKey envelope) (Journal (state w)));
  if (bound : bool) then mret (Answer (Err errKey))
  else
    t ← now;
    _ ← modify (λ w, set_running ({[OperationID envelope]} ∪ running w) w);
    _ ← storeJournal (OperationID envelope) (newJournalEntry kind envelope t);
    err ← persistLocked;
    match err with
    | None => mret (Proceed repairReplay)
    | Some e =>
      _ ← modify (λ w, set_state (mkState (Plugins (state w)) (delete (OperationID envelope) (Journal (state w)))) w
                       |> set_running (running w ∖ {[OperationID envelope]}));
      mret (Answer (Err e))
    end.

Fixpoint admitLoop (fuel : nat) (kind : string) (envelope : OperationEnvelope) (repairReplay : bool) : M admission :=
  match fuel with
  | O => mret OutOfFuel
  | S fuel =>
    found ← get (λ w, Journal (state w) !! OperationID envelope);
    match found with
    | None => registerOperation kind envelope repairReplay
    | Some previous =>
      if negb (journalMatches previous kind envelope) then mret (Answer (Err errRebound))
      else if String.eqb (j_State previous) "succeeded" then mret (Answer (Ok (j_Result previous)))
      else if String.eqb (j_State previous) "failed"
      then mret (Answer (Err (if String.eqb (j_Error previous) "" then "plugin operation previously failed"
                              else j_Error previous)))
      else if String.eqb (j_State previous) "running" then
        waiting ← get (λ w, bool_decide (OperationID envelope ∈ running w));
        if (waiting : bool) then mret Wait
        else
          t ← now;
          _ ← storeJournal (OperationID envelope) (entry_with "interrupted" (j_Result previous) errReplay t previous);
          _ ← persistLocked;
          admitLoop fuel kind envelope repairReplay
      else if String.eqb (j_State previous) "interrupted" then registerOperation kind envelope true
      else mret (Answer (Err ("plugin operation journal has invalid state " +:+ j_State previous)))
    end
  end.

(** The envelope [handle] works on: the digest in lower case. *)
Definition normalized (e : OperationEnvelope) : OperationEnvelope :=
  mkEnvelope (Version e) (OperationID e) (IdempotencyKey e) (SessionID e) (Revision e) (PluginID e) (TargetVersion e)
    (to_lower (ConfigHash e)) (Config e) (SecretMaterials e).

(** [handle] up to the execution of the operation. *)
Definition beginOperation (kind : string) (envelope : OperationEnvelope) : M admission :=
  isClosed ← get closed;
  if (isClosed : bool) then mret (Answer (Err "plugin supervisor is closed"))
  else match validateOperation kind envelope with
       | Err e => mret (Answer (Err e))
       | Ok _ => admitLoop 2 kind (normalized envelope) false
       end.

(** [handle] under the plugin's lock: [env_ctx] is the acquisition of the lock,
    then the context. *)
Definition runOperation (kind : string) (envelope : OperationEnvelope) (repairReplay installLoader : bool)
    : M (result RawMessage) :=
  lockErr ← ext env_ctx;
  match lockErr with
  | Some e => mret (Err e)
  | None =>
    ctxErr ← ext env_ctx;
    match ctxErr with
    | Some e => mret (Err e)
    | None =>
      if operationMutatesState kind then
        recoveryErr ← recoverPluginCleanupContext (PluginID envelope);
        match recoveryErr with
        | Some e => mret (Err ("recover pending plugin cleanup before " +:+ kind +:+ ": " +:+ e))
        | None => executeOperation kind envelope repairReplay installLoader
        end
      else executeOperation kind envelope repairReplay installLoader
    end
  end.

Definition zeroEntry : JournalEntry := mkEntry "" "" "" "" "" "" "" 0 [] "" None "" 0.

(** [handle] after the operation: the result is journaled before it is returned. *)
Definition finishOperation (envelope : OperationEnvelope) (r : result RawMessage) : M (result (option RawMessage)) :=
  entry ← get (λ w, default zeroEntry (Journal (state w) !! OperationID envelope));
  t ← now;
  _ ← storeJournal (OperationID envelope)
        (match r with
         | Err e => entry_with "failed" (j_Result entry) e t entry
         | Ok result => entry_with "succeeded" (Some result) "" t entry
         end);
  persistErr ← persistLocked;
  _ ← modify (λ w, set_running (running w ∖ {[OperationID envelope]}) w);
  mret (match r, persistErr with
        | Ok result, None => Ok (Some result)
        | Ok _, Some e => Err e
        | Err e, _ => Err (text (Join [Some e; persistErr]))
        end).

(** A call of [handle] that nothing interleaves with; [None] while it waits for
    another call. *)
Definition handle (kind : string) (installLoader : bool) (envelope : OperationEnvelope)
    : M (option (result (option RawMessage))) :=
  a ← beginOperation kind envelope;
  match a with
  | Answer r => mret (Some r)
  | Wait => mret None
  | OutOfFuel => mret None
  | Proceed repairReplay =>
    r ← runOperation kind (normalized envelope) repairReplay installLoader;
    r ← finishOperation (normalized envelope) r;
    mret (Some r)
  end.

(** ** Start of the Agent *)

Definition errRestart : string := "plugin operation was interrupted by agent restart and is eligible for exact replay".

Definition plugin_record_ok (id : string) (s : PluginState) : bool :=
  safeSegment id && String.eqb (p_ID s) id && safeOptionalSegment (p_DesiredVersion s)
  && safeOptionalSegment (p_ObservedVersion s) && safeOptionalSegment (p_PreviousVersion s)
  && (String.eqb (p_ConfigHash s) "" || validSHA256 (p_ConfigHash s)) && safeOptionalSegment (p_CleanupVersion s).

Definition audits_ok (l : list SecretMaterialAudit) : bool :=
  forallb (λ a, is_ok (ParseSecretReference (a_Reference a)) && validSHA256 (a_SHA256 a)
                && String.eqb (a_SHA256 a) (to_lower (a_SHA256 a))) l
  && bool_decide (NoDup (a_Reference <$> l)).

Definition journal_record_ok (operationID : string) (e : JournalEntry) : bool :=
  String.eqb (j_OperationID e) operationID && negb (String.eqb (trim_space operationID) "")
  && audits_ok (j_SecretMaterials e).

Definition interrupt (t : time) (e : JournalEntry) : JournalEntry :=
  if String.eqb (j_State e) "running" then entry_with "interrupted" (j_Result e) errRestart t e else e.

(** [load]: state.json as the supervisor last wrote it; operations that were
    running become interrupted. *)
Definition load : M error :=
  data ← get disk;
  match data with
  | None => mret None
  | Some data =>
    if negb (forallb (λ kv, plugin_record_ok kv.1 kv.2) (map_to_list (Plugins data)))
    then mret (Some "read plugin supervisor state: invalid plugin state")
    else if negb (forallb (λ kv, journal_record_ok kv.1 kv.2) (map_to_list (Journal data)))
    then mret (Some "read plugin supervisor state: invalid journal entry")
    else
      t ← now;
      _ ← modify (set_state (mkState (Plugins data) (interrupt t <$> Journal data)));
      if existsb (λ kv, String.eqb (j_State kv.2) "running") (map_to_list (Journal data)) then persistLocked else mret None
  end.

Fixpoint recoverAll (ids : list string) : M unit :=
  match ids with
  | [] => mret tt
  | id :: ids => _ ← recoverPluginCleanupContext id; recoverAll ids
  end.

Definition recoverPendingCleanup : M unit :=
  pending ← get (λ w, (filter (λ kv, p_CleanupPending kv.2 = true) (map_to_list (Plugins (state w)))).*1);
  recoverAll pending.

Definition blocks (s : PluginState) (entry : JournalEntry) : bool :=
  String.eqb (j_PluginID entry) (p_ID s) && String.eqb (j_State entry) "interrupted"
  && operationBlocksAutomaticRestore (j_Kind entry) && (p_DesiredRevision s <=? j_Revision entry).

Definition better_blocker (entry : JournalEntry) (blocker : option JournalEntry) : option JournalEntry :=
  match blocker with
  | None => Some entry
  | Some b => if (j_Revision b <? j_Revision entry)
                 || ((j_Revision entry =? j_Revision b) && negb (String.leb (j_OperationID b) (j_OperationID entry)))
              then Some entry else Some b
  end.

Definition interruptedRuntimeTransitionLocked (s : PluginState) (journal : gmap string JournalEntry) : option JournalEntry :=
  foldr (λ kv blocker, if blocks s kv.2 then better_blocker kv.2 blocker else blocker) None (map_to_list journal).

(** One plugin in the first loop of [restoreEnabled]: whether to start it, and
    whether its restore was deferred. *)
Definition restoreCandidate (id : string) (s : PluginState) : M (bool * bool) :=
  if negb (p_Enabled s) || p_CleanupPending s then mret (false, false)
  else
    failure ← (if hasMaintenance then ext env_failure else mret (Ok false));
    match failure with
    | Err _ =>
      _ ← storePlugin id (s |> with_Health "unhealthy"
                            |> with_LastError "maintenance state unavailable; automatic restore deferred");
      mret (false, true)
    | Ok pending =>
      if hasMaintenance && (pending || String.eqb (p_Health s) "unhealthy") then mret (false, false)
      else
        journal ← get (λ w, Journal (state w));
        match interruptedRuntimeTransitionLocked s journal with
        | Some entry =>
          t ← now;
          _ ← storePlugin id (s |> with_Health "interrupted" |> with_UpdatedAt t
                |> with_LastError ("automatic restore deferred pending exact replay of " +:+ j_Kind entry
                     +:+ " operation " +:+ j_OperationID entry +:+ " at revision " +:+ format_uint (j_Revision entry)));
          mret (false, true)
        | None => mret (true, false)
        end
    end.

(** The loop: the plugins to start, and whether a restore was deferred. *)
Fixpoint restoreCandidates (l : list (string * PluginState)) : M (list PluginState * bool) :=
  match l with
  | [] => mret ([], false)
  | (id, s) :: l =>
    c ← restoreCandidate id s;
    r ← restoreCandidates l;
    mret (if (c.1 : bool) then s :: r.1 else r.1, c.2 || r.2)
  end.

(** One plugin in the second loop. *)
Definition restoreOne (persisted : PluginState) : M unit :=
  r ← startVersion (p_ID persisted) (p_DesiredVersion persisted);
  s ← plugin (p_ID persisted);
  t ← now;
  let s := s |> with_UpdatedAt t in
  match r with
  | Err e =>
    let s := s |> with_Health "unhealthy" |> with_LastError ("restore enabled plugin: " +:+ e) in
    storePlugin (p_ID s) s
  | Ok process =>
    let s := s |> with_Health "healthy" |> with_LastError "" |> with_ObservedVersion (p_DesiredVersion s)
               |> with_CleanupPending false |> with_CleanupVersion "" in
    _ ← setProcessLocked (p_ID s) process;
    storePlugin (p_ID s) s
  end.

Fixpoint restoreStart (l : list PluginState) : M unit :=
  match l with
  | [] => mret tt
  | persisted :: l => _ ← restoreOne persisted; restoreStart l
  end.

Definition restoreEnabled : M unit :=
  l ← get (λ w, map_to_list (Plugins (state w)));
  r ← restoreCandidates l;
  let '(plugins, deferred) := (r : list PluginState * bool) in
  _ ← (if (deferred : bool) then _ ← persistLocked; mret tt else mret tt);
  _ ← restoreStart plugins;
  match plugins with [] => mret tt | _ => _ ← persistLocked; mret tt end.

(** The supervisor's memory when the Agent starts on a disk; the calls it makes
    come after the one at which it crashed. *)
Definition boot (w : World) : World :=
  mkWorld (mkState ∅ ∅) ∅ ∅ [] ∅ false (disk w) (files w) (live w) (trace w) (S (tick w)).

Definition NewSupervisor : M error :=
  loadErr ← load;
  match loadErr with
  | Some e => mret (Some e)
  | None => _ ← recoverPendingCleanup; _ ← restoreEnabled; mret None
  end.

(** ** Exit of a process *)

Definition observeProcessExit (id : string) (gen : Z) (exitErr : error) : M unit :=
  stale ← get (λ w, closed w || negb (default 0 (generation w !! id) =? gen));
  if (stale : bool) then mret tt
  else
    _ ← removeProcessLocked id;
    found ← lookupPlugin id;
    match found with
    | None => mret tt
    | Some s =>
      t ← now;
      let message := match exitErr with
                     | None => "plugin process exited unexpectedly"
                     | Some e => "plugin process exited unexpectedly: " +:+ e
                     end in
      _ ← storePlugin id (s |> with_Enabled false |> with_Health "unhealthy" |> with_CleanupPending true
                            |> with_CleanupVersion (p_DesiredVersion s) |> with_LastError message |> with_UpdatedAt t);
      _ ← persistLocked;
      _ ← (if hasMaintenance then _ ← ext env_observe; mret tt else mret tt);
      m ← verifyInstalledVersion id (p_DesiredVersion s);
      let verifyErr := match m with Err e => Some e | Ok _ => None end in
      cleanupErr ← match m with
                   | Ok manifest => if manifestSupportsCapability manifest "plugin.cleanup"
                                    then cleanupInstalledVersionContext manifest id (p_DesiredVersion s) else mret None
                   | Err _ => mret None
                   end;
      socketErr ← removeSocket (socketPath id);
      let operationErr := Join [verifyErr; cleanupErr; socketErr] in
      s ← plugin id;
      t ← now;
      let s := s |> with_CleanupPending (failed operationErr) in
      let s := match operationErr with
               | None => s |> with_CleanupVersion ""
               | Some e => s |> with_CleanupVersion (p_DesiredVersion s)
                             |> with_LastError (p_LastError s +:+ "; cleanup after crash: " +:+ e)
               end in
      _ ← storePlugin id (s |> with_UpdatedAt t);
      _ ← persistLocked;
      mret tt
    end.

(** ** The maintenance monitor *)

(** [typed] is the code of an error with a typed status, [lower] its text in
    lower case. *)
Definition maintenanceErrorCode (typed : option string) (lower : string) : string :=
  match typed with
  | Some code => code
  | None =>
    if contains lower "signature" || contains lower "checksum" then "PLUGIN_SIGNATURE_INVALID"
    else if contains lower "permission" || contains lower "access denied" then "PLUGIN_PERMISSION_DENIED"
    else if contains lower "credential" || contains lower "unauthenticated" || contains lower "unauthorized"
    then "PLUGIN_CREDENTIAL_INVALID"
    else if contains lower "config" || contains lower "invalid argument" then "PLUGIN_CONFIG_INVALID"
    else "PLUGIN_HEALTH_FAILED"
  end.

Definition restartMaintenanceInstance (s : PluginState) (process : option Process) (manifest : Manifest) : M error :=
  _ ← removeProcessLocked (p_ID s);
  r ← stopAndCleanupInstalledVersion manifest (p_ID s) (p_DesiredVersion s) process;
  let '(pending, err) := (r : bool * error) in
  match err with
  | Some _ =>
    _ ← recordTransitionFailure s (p_DesiredRevision s) err "";
    _ ← (if (pending : bool) then markCleanupPending (p_ID s) (p_DesiredVersion s) err else mret tt);
    mret err
  | None =>
    socketErr ← removeSocket (socketPath (p_ID s));
    match socketErr with
    | Some _ => mret socketErr
    | None =>
      r ← startVersion (p_ID s) (p_DesiredVersion s);
      match r with
      | Err e => _ ← recordPluginError (p_ID s) "unhealthy" (Some e); mret (Some e)
      | Ok process =>
        current ← plugin (p_ID s);
        t ← now;
        _ ← storePlugin (p_ID s) (current |> with_Enabled true |> with_Health "healthy" |> with_LastError ""
              |> with_ObservedVersion (p_DesiredVersion s) |> with_CleanupPending false |> with_CleanupVersion ""
              |> with_UpdatedAt t);
        _ ← setProcessLocked (p_ID s) process;
        err ← persistLocked;
        match err with
        | None => mret None
        | Some _ =>
          _ ← removeProcessLocked (p_ID s);
          _ ← storePlugin (p_ID s) s;
          _ ← stopProcess (Some process);
          mret err
        end
      end
    end
  end.

Definition errorCodeOf (id : string) (s : PluginState) (process : option Process) (m : result Manifest) : M string :=
  match m with
  | Err _ => mret "PLUGIN_SIGNATURE_INVALID"
  | Ok _ =>
    configErr ← (if String.eqb id "machine-telemetry" then ext env_telemetry else mret None);
    if failed configErr then mret "PLUGIN_CONFIG_INVALID"
    else if p_CleanupPending s then mret "PLUGIN_PERMISSION_DENIED"
    else match process with
         | None =>
           let code := maintenanceErrorCode None (to_lower (p_LastError s)) in
           mret (if String.eqb code "PLUGIN_HEALTH_FAILED" then "PLUGIN_PROCESS_EXITED" else code)
         | Some _ =>
           probeErr ← ext env_health;
           match probeErr with
           | None => mret ""
           | Some e => typed ← ext env_status; mret (maintenanceErrorCode typed (to_lower e))
           end
         end
  end.

Definition checkMaintenanceInstance (id : string) : M error :=
  s ← plugin id;
  process ← get (λ w, processes w !! id);
  if negb (p_Enabled s) && negb (String.eqb (p_Health s) "unhealthy") then mret None
  else if String.eqb (p_DesiredVersion s) "" then mret None
  else
    m ← verifyInstalledVersion id (p_DesiredVersion s);
    code ← errorCodeOf id s process m;
    ctxErr ← ext env_ctx;
    match ctxErr with
    | Some e => mret (Some e)
    | None =>
      decision ← ext env_observe;
      match decision with
      | Err e => mret (Some e)
      | Ok restart =>
        current ← plugin id;
        t ← now;
        _ ← storePlugin id (if String.eqb code "" then current |> with_Health "healthy" |> with_LastError "" |> with_UpdatedAt t
                            else current |> with_Health "unhealthy" |> with_LastError code |> with_UpdatedAt t);
        persistErr ← persistLocked;
        match persistErr with
        | Some _ => mret persistErr
        | None =>
          if negb restart then mret None
          else match m with
               | Err _ => mret (Some "restart requires verified plugin manifest")
               | Ok manifest =>
                 restartErr ← restartMaintenanceInstance s process manifest;
                 auditErr ← ext env_audit;
                 mret (Join [restartErr; auditErr])
               end
        end
      end
    end.

(** The loop of [CheckMaintenance]: the lock of each plugin, then its check. *)
Fixpoint checkInstances (ids : list string) (result : error) : M error :=
  match ids with
  | [] => mret result
  | id :: ids =>
    ctxErr ← ext env_ctx;
    match ctxErr with
    | Some _ => mret (Join [result; ctxErr])
    | None =>
      lockErr ← ext env_ctx;
      match lockErr with
      | Some _ => mret (Join [result; lockErr])
      | None => err ← checkMaintenanceInstance id; checkInstances ids (Join [result; err])
      end
    end
  end.

Definition check_set (w : World) : list string :=
  merge_sort string_le (elements (dom (filter (λ kv, p_Enabled kv.2 || String.eqb (p_Health kv.2) "unhealthy" = true)
    (Plugins (state w))))).

(** [CheckMaintenance] inside the lifecycle gate. *)
Definition CheckMaintenance : M error :=
  if negb hasMaintenance then mret None
  else
    isClosed ← get closed;
    if (isClosed : bool) then mret (Some "plugin supervisor is closed")
    else ids ← get check_set; checkInstances ids None.

(** ** Shutdown *)

(** One plugin of [Close]. *)
Definition closePlugin (id : string) : M error :=
  found ← lookupPlugin id;
  process ← get (λ w, processes w !! id);
  operationErr ← match found, process with
    | Some s, Some p =>
      m ← verifyInstalledVersion id (p_DesiredVersion s);
      let verifyErr := match m with Err e => Some e | Ok _ => None end in
      stopErr ← stop p;
      let cleanupCapable := match m with
                            | Ok manifest => negb (failed stopErr) && manifestSupportsCapability manifest "plugin.cleanup"
                            | Err _ => false
                            end in
      cleanupErr ← match m with
                   | Ok manifest => if cleanupCapable then cleanupInstalledVersionContext manifest id (p_DesiredVersion s)
                                    else mret None
                   | Err _ => mret None
                   end;
      socketErr ← (if failed stopErr then mret None else removeSocket (socketPath id));
      let operationErr := Join [verifyErr; stopErr; cleanupErr; socketErr] in
      s ← plugin id;
      same ← get (λ w, bool_decide (processes w !! id = Some p));
      _ ← (if negb (failed stopErr) && same then removeProcessLocked id else mret tt);
      t ← now;
      let s := s |> with_Health "stopped" |> with_LastError "" |> with_UpdatedAt t |> with_CleanupPending false
                 |> with_CleanupVersion "" in
      let s := match operationErr with
               | None => s
               | Some e =>
                 let s := s |> with_Health "unhealthy" |> with_LastError e in
                 if failed verifyErr || failed stopErr || (cleanupCapable && failed cleanupErr)
                 then s |> with_CleanupPending true |> with_CleanupVersion (p_DesiredVersion s) else s
               end in
      _ ← storePlugin id s;
      mret operationErr
    | _, _ => mret None
    end;
  recoveryErr ← recoverPluginCleanupContext id;
  mret (Join [operationErr; recoveryErr]).

Fixpoint closePlugins (ids : list string) (result : error) : M error :=
  match ids with
  | [] => mret result
  | id :: ids =>
    lockErr ← ext env_ctx;
    match lockErr with
    | Some e => closePlugins ids (Join [result; Some ("lock plugin " +:+ id +:+ " during close: " +:+ e)])
    | None => e ← closePlugin id; closePlugins ids (Join [result; e])
    end
  end.

Definition close_set (w : World) : list string :=
  merge_sort string_le (elements (dom (processes w)
    ∪ dom (filter (λ kv, p_CleanupPending kv.2 = true) (Plugins (state w))))).

(** [Close] after the gate has closed. *)
Definition Close : M error :=
  isClosed ← get closed;
  if (isClosed : bool) then mret None
  else
    ids ← get close_set;
    result ← closePlugins ids None;
    persistErr ← persistLocked;
    let result := Join [result; persistErr] in
    remaining ← get (λ w, negb (bool_decide (processes w = ∅))
      || existsb (λ kv, p_CleanupPending kv.2) (map_to_list (Plugins (state w))));
    _ ← (if negb (failed result) && negb remaining then modify (set_closed true) else mret tt);
    mret result.

End with_env.

End SupervisorRuns.
