(* ===== verification/SupervisorDemo.v ===== *)
(** * Plugin supervisor: a concrete system

    One environment in which every external call succeeds (with an optional
    crash), one installed plugin and one operation that enables it, on which the
    theorems about the supervisor are instantiated. *)

From S2P Require Import Prelude GoStrings Json Envelope PluginNames PluginWorld PluginSecrets Supervisor SupervisorRuns.
From Stdlib Require Import Ascii String.

Module SupervisorDemo.
Import Envelope PluginNames PluginWorld PluginSecrets Supervisor SupervisorRuns.

Definition demo_manifest : Manifest := mkManifest "telemetry" "1.2.0" [].

(** The Agent crashes at the calls [crashes]. *)
Definition demo_env (crashes : list nat) : Env := {|
  env_crash := λ n, bool_decide (n ∈ crashes);
  env_now := λ n, Z.of_nat n;
  env_ctx := λ _, None;
  env_write := λ _, Written;
  env_read := λ _, None;
  env_remove := λ _, None;
  env_verify := λ _, Ok demo_manifest;
  env_artifacts := λ _, None;
  env_start := λ _, None;
  env_stop := λ _, None;
  env_cleanup := λ _, None;
  env_mkdir := λ _, None;
  env_socket := λ _, None;
  env_health := λ _, None;
  env_install := λ _, Ok demo_manifest;
  env_publish := λ _, None;
  env_walk := λ _, None;
  env_failure := λ _, Ok false;
  env_observe := λ _, Ok false;
  env_audit := λ _, None;
  env_telemetry := λ _, None;
  env_status := λ _, None;
  rootDir := "/var/lib/anix/plugins";
  socketDir := "/run/anix";
  statefulRunner := false;
  cleanupRunner := true;
  hasMaintenance := true
|}.

Definition demo_hash : string := String.concat "" (repeat "ab" 32).

Definition demo_plugin : PluginState :=
  mkPlugin "telemetry" "1.2.0" "" "" false "installed" "" 6 6 "" false "" 0.

Definition demo_envelope : OperationEnvelope :=
  mkEnvelope OperationEnvelopeVersion "op-1" "key-1" "session-1" 7 "telemetry" "1.2.0" demo_hash "{}" [].

Definition demo_world : World :=
  mkWorld (mkState {["telemetry" := demo_plugin]} ∅) ∅ ∅ [] ∅ false
    (Some (mkState {["telemetry" := demo_plugin]} ∅)) ∅ [] [] 0.

(** A computation run to its end, and the world it leaves. *)
Definition answer {A} (r : outcome A * World) : option A := match r.1 with Done a => Some a | Crashed => None end.

Definition demo_begin (crashes : list nat) : outcome admission * World :=
  @beginOperation (demo_env crashes) toy_codec "plugin.enable" demo_envelope demo_world.
Definition demo_run (crashes : list nat) : outcome (result RawMessage) * World :=
  @runOperation (demo_env crashes) toy_codec "plugin.enable" (normalized demo_envelope) false false (demo_begin crashes).2.

Definition demo_result : result RawMessage := default (Err "") (answer (demo_run [])).
Definition demo_finish : outcome (result (option RawMessage)) * World :=
  @finishOperation (demo_env []) (normalized demo_envelope) demo_result (demo_run []).2.

(** The same operation when the Agent crashes inside it, and the restart. *)
Definition demo_restart : outcome error * World := @NewSupervisor (demo_env [5%nat]) (boot (demo_run [5%nat]).2).

(** The plugin ends up enabled, with the process registered. *)
Example demo_enables :
  answer (@handle (demo_env []) toy_codec "plugin.enable" false demo_envelope demo_world)
  = Some (Some (Ok (Some (mkPlugin "telemetry" "1.2.0" "1.2.0" "" true "healthy" "" 7 7 "" false "" 8)))).
Proof. vm_compute. reflexivity. Qed.

(** Crashed: what runs is on disk, what was registered is not. *)
Example demo_crashes :
  answer (demo_begin [5%nat]) = Some (Proceed false) ∧ answer (demo_run [5%nat]) = None ∧ answer demo_restart = Some None.
Proof. vm_compute. done. Qed.

(** ** Secrets of an operation that fails *)

Definition demo_prepared : outcome (result preparedSecretConfiguration) * World :=
  @prepareSecretConfiguration (demo_env []) toy_codec toy_envelope demo_world.
Definition demo_secrets : preparedSecretConfiguration :=
  match answer demo_prepared with Some (Ok p) => p | _ => mkPrepared "" "" "" "" None [] ∅ end.
Definition demo_staged : outcome error * World := @stage (demo_env []) demo_secrets demo_prepared.2.
Definition demo_undone : outcome error * World := @rollbackSecrets (demo_env []) demo_secrets demo_staged.2.

Lemma secret_rollback_restores_witness : createdPaths demo_secrets ≠ [] ∧ files demo_undone.2 = files demo_world.
Proof.
  split; [vm_compute; discriminate|].
  apply (@secret_rollback_restores (demo_env []) toy_codec toy_envelope demo_world demo_secrets demo_prepared.2 None demo_staged.2);
    vm_compute; reflexivity.
Defined.

(** ** A rollback of a configuration while a cleanup is pending

    The plugin has a cleanup hook; the restart after [configure] is unhealthy
    (call 12) and the cleanup of that failed start fails (calls 13 to 16). *)

Definition hook_env : Env := {|
  env_crash := λ _, false; env_now := λ n, Z.of_nat n; env_ctx := λ _, None; env_write := λ _, Written;
  env_read := λ _, None; env_remove := λ _, None;
  env_verify := λ _, Ok (mkManifest "telemetry" "1.2.0" ["plugin.cleanup"; "plugin.runtime-state"]);
  env_artifacts := λ _, None; env_start := λ _, None; env_stop := λ _, None;
  env_cleanup := λ n, if (12 <? Z.of_nat n) && (Z.of_nat n <? 17) then Some "cleanup hook failed" else None;
  env_mkdir := λ _, None; env_socket := λ _, None;
  env_health := λ n, if Z.of_nat n =? 12 then Some "unhealthy" else None;
  env_install := λ _, Ok demo_manifest; env_publish := λ _, None; env_walk := λ _, None; env_failure := λ _, Ok false;
  env_observe := λ _, Ok false; env_audit := λ _, None; env_telemetry := λ _, None; env_status := λ _, None;
  rootDir := "/var/lib/anix/plugins"; socketDir := "/run/anix"; statefulRunner := true; cleanupRunner := true;
  hasMaintenance := true
|}.

Definition hook_world : World :=
  let p := mkProcess 0 "telemetry" "1.2.0" in
  let s := mkPlugin "telemetry" "1.2.0" "1.2.0" "" true "healthy" "" 6 6 "" false "" 0 in
  mkWorld (mkState {["telemetry" := s]} ∅) {["telemetry" := p]} {["telemetry" := 1]} [("telemetry", 1, p)] ∅ false
    (Some (mkState {["telemetry" := s]} ∅)) ∅ [p] [] 0.

Definition hook_configured : outcome (result RawMessage) * World := @configure hook_env toy_codec demo_envelope hook_world.

(** The next operation recovers the cleanup: it runs the hook under the process. *)
Definition hook_recovered : outcome error * World := @recoverPluginCleanupContext hook_env "telemetry" hook_configured.2.

(** The old version is restarted, registered and recorded enabled although the
    cleanup of the failed start is still pending; the cleanup that the next
    operation makes up for then runs under the live process. *)
Example configure_rollback_restarts_before_cleanup :
  (λ s, (p_Enabled s, p_Health s, p_CleanupPending s)) <$> (Plugins (state hook_configured.2) !! "telemetry")
    = Some (true, "healthy", true) ∧
  live hook_recovered.2 = [mkProcess 23 "telemetry" "1.2.0"] ∧
  processes hook_recovered.2 !! "telemetry" = Some (mkProcess 23 "telemetry" "1.2.0") ∧
  take 2 (trace hook_recovered.2) = [EvCleanup "telemetry" "1.2.0" false; EvStart (mkProcess 23 "telemetry" "1.2.0")].
Proof. vm_compute. done. Qed.

(** ** A disable that fails

    The stop of the process fails; the maintenance monitor decides to restart
    (machine-telemetry is the plugin it may restart). *)

Definition stuck_env : Env := {|
  env_crash := λ _, false; env_now := λ n, Z.of_nat n; env_ctx := λ _, None; env_write := λ _, Written;
  env_read := λ _, None; env_remove := λ _, None; env_verify := λ _, Ok (mkManifest "machine-telemetry" "1.2.0" []);
  env_artifacts := λ _, None; env_start := λ _, None; env_stop := λ _, Some "stop timed out"; env_cleanup := λ _, None;
  env_mkdir := λ _, None; env_socket := λ _, None; env_health := λ _, None;
  env_install := λ _, Ok demo_manifest; env_publish := λ _, None; env_walk := λ _, None; env_failure := λ _, Ok false;
  env_observe := λ _, Ok true; env_audit := λ _, None; env_telemetry := λ _, None; env_status := λ _, None;
  rootDir := "/var/lib/anix/plugins"; socketDir := "/run/anix"; statefulRunner := true; cleanupRunner := true;
  hasMaintenance := true
|}.

Definition stuck_envelope : OperationEnvelope :=
  mkEnvelope OperationEnvelopeVersion "op-2" "key-2" "session-1" 7 "machine-telemetry" "1.2.0" demo_hash "{}" [].

Definition stuck_world : World :=
  let p := mkProcess 0 "machine-telemetry" "1.2.0" in
  let s := mkPlugin "machine-telemetry" "1.2.0" "1.2.0" "" true "healthy" "" 6 6 "" false "" 0 in
  mkWorld (mkState {["machine-telemetry" := s]} ∅) {["machine-telemetry" := p]} {["machine-telemetry" := 1]}
    [("machine-telemetry", 1, p)] ∅ false (Some (mkState {["machine-telemetry" := s]} ∅)) ∅ [p] [] 0.

Definition stuck_disabled : outcome (result RawMessage) * World := @disable stuck_env stuck_envelope stuck_world.
Definition stuck_checked : outcome error * World := @checkMaintenanceInstance stuck_env "machine-telemetry" stuck_disabled.2.

(** The failed disable leaves a record like that of a crash, so the monitor
    starts and enables the plugin again, beside the process that did not stop. *)
Example failed_disable_is_restarted :
  answer stuck_disabled = Some (Err "stop timed out") ∧
  p_Enabled <$> (Plugins (state stuck_disabled.2) !! "machine-telemetry") = Some false ∧
  p_Enabled <$> (Plugins (state stuck_checked.2) !! "machine-telemetry") = Some true ∧
  List.length (live stuck_checked.2) = 2%nat.
Proof. vm_compute. done. Qed.

End SupervisorDemo.
