(* ===== verification/SupervisorFrame.v ===== *)
(** * Plugin supervisor: what every operation leaves alone

    The operations only change plugin records, processes, files and the disk's
    copy of the state.  [Stable] lists those changes; a relation on worlds that
    allows them all is kept by every operation, whether it returns or the Agent
    crashes inside it ([keeps]).  Most of the proofs are automatic: a function
    keeps [R] when its calls do. *)

From S2P Require Import Prelude GoStrings Json Envelope PluginNames PluginWorld PluginSecrets Supervisor SupervisorRuns.
From Stdlib Require Import Ascii String.

Module SupervisorFrame.
Import Envelope PluginNames PluginWorld PluginSecrets Supervisor SupervisorRuns.

(** Changes that do not touch the plugins or their processes, and all changes
    the operations make. *)
Class Quiet (R : relation World) : Prop := {
  stable_refl w : R w w;
  stable_trans w1 w2 w3 : R w1 w2 → R w2 w3 → R w1 w3;
  stable_tick w n : R w (set_tick n w);
  stable_disk w : R w (set_disk (Some (state w)) w);
  stable_files w f : R w (set_files f w);
  stable_trace w t : R w (set_trace t w)
}.

Class Stable (R : relation World) : Prop := {
  stable_quiet :: Quiet R;
  stable_live w l : R w (set_live l w);
  stable_register w id p : R w (register id p w);
  stable_unregister w id : R w (unregister id w);
  stable_plugins w p : R w (set_state (mkState p (Journal (state w))) w)
}.

Definition keeps {A} (R : relation World) (m : M A) : Prop := ∀ w, R w (m w).2.

Create HintDb keeps.

Section with_env.
Context `{Env, Codec} (R : relation World) `{!Quiet R}.
#[local] Set Default Proof Using "Type*".

Lemma keeps_ret {A} (a : A) : keeps R (mret a).
Proof. intros w. apply stable_refl. Qed.

Lemma keeps_bind {A B} (m : M A) (f : A → M B) : keeps R m → (∀ a, keeps R (f a)) → keeps R (m ≫= f).
Proof.
  intros Hm Hf w. unfold mbind, M_bind. specialize (Hm w). destruct (m w) as [[a|] w']; [|done].
  eapply stable_trans; [done|]. apply Hf.
Qed.

Lemma keeps_get {A} (f : World → A) : keeps R (get f).
Proof. intros w. apply stable_refl. Qed.

Lemma keeps_ext {A} (f : nat → A) : keeps R (ext f).
Proof. intros w. unfold ext. destruct (env_crash _); [apply stable_refl|apply stable_tick]. Qed.

Lemma keeps_modify f : (∀ w, R w (f w)) → keeps R (modify f).
Proof. intros Hf w. apply Hf. Qed.

Hint Resolve keeps_ret keeps_get keeps_ext : keeps.

Ltac keep :=
  repeat first
    [ progress (intros)
    | solve [eauto 3 with keeps]
    | apply keeps_bind
    | apply keeps_modify; intros; first
        [ apply stable_disk | apply stable_files | apply stable_live | apply stable_trace | apply stable_plugins
        | apply stable_register | apply stable_unregister
        | eapply stable_trans; [|apply stable_trace]; apply stable_live ]
    | case_match ].

Lemma keeps_now : keeps R now.
Proof. unfold now. keep. Qed.
Hint Resolve keeps_now : keeps.
Lemma keeps_persist : keeps R persistLocked.
Proof. unfold persistLocked. keep. Qed.
Hint Resolve keeps_persist : keeps.
Lemma keeps_writePrivateFile p c : keeps R (writePrivateFile p c).
Proof. unfold writePrivateFile. keep. Qed.
Hint Resolve keeps_writePrivateFile : keeps.
Lemma keeps_readOptionalFile p : keeps R (readOptionalFile p).
Proof. unfold readOptionalFile. keep. Qed.
Hint Resolve keeps_readOptionalFile : keeps.
Lemma keeps_removeFile p : keeps R (removeFile p).
Proof. unfold removeFile. keep. Qed.
Hint Resolve keeps_removeFile : keeps.
Lemma keeps_restoreOptionalFile p c : keeps R (restoreOptionalFile p c).
Proof. unfold restoreOptionalFile. keep. Qed.
Hint Resolve keeps_restoreOptionalFile : keeps.
Lemma keeps_removeSocket p : keeps R (removeSocket p).
Proof. unfold removeSocket. keep. Qed.
Hint Resolve keeps_removeSocket : keeps.
Lemma keeps_lookupPlugin id : keeps R (lookupPlugin id).
Proof. unfold lookupPlugin. keep. Qed.
Hint Resolve keeps_lookupPlugin : keeps.
Lemma keeps_plugin id : keeps R (plugin id).
Proof. unfold plugin. keep. Qed.
Hint Resolve keeps_plugin : keeps.
Lemma keeps_verify id v : keeps R (verifyInstalledVersion id v).
Proof. unfold verifyInstalledVersion. keep. Qed.
Hint Resolve keeps_verify : keeps.
Lemma keeps_cleanup m id v : keeps R (cleanupInstalledVersionContext m id v).
Proof. unfold cleanupInstalledVersionContext. keep. Qed.
Hint Resolve keeps_cleanup : keeps.
Lemma keeps_inspect id : keeps R (inspect id).
Proof. unfold inspect. keep. Qed.
Hint Resolve keeps_inspect : keeps.
Lemma keeps_writeVerified p m : keeps R (writeVerifiedSecretMaterial p m).
Proof. unfold writeVerifiedSecretMaterial. keep. Qed.
Hint Resolve keeps_writeVerified : keeps.
Lemma keeps_removeEmpty p : keeps R (removeEmptySecretDirectories p).
Proof. unfold removeEmptySecretDirectories. keep. Qed.
Hint Resolve keeps_removeEmpty : keeps.
Lemma keeps_removeCreated l e : keeps R (removeCreated l e).
Proof. revert e. induction l as [|p l IH]; intros e; cbn [removeCreated]; keep. Qed.
Hint Resolve keeps_removeCreated : keeps.
Lemma keeps_rollbackSecrets p : keeps R (rollbackSecrets p).
Proof. unfold rollbackSecrets. keep. Qed.
Hint Resolve keeps_rollbackSecrets : keeps.
Lemma keeps_writeMaterials ms refs : ∀ p paths, keeps R (writeMaterials ms p paths refs).
Proof. induction refs as [|r refs IH]; intros p paths; cbn [writeMaterials]; keep. Qed.
Hint Resolve keeps_writeMaterials : keeps.
Lemma keeps_prepareSecrets e : keeps R (prepareSecretConfiguration e).
Proof. unfold prepareSecretConfiguration. keep. Qed.
Hint Resolve keeps_prepareSecrets : keeps.
Lemma keeps_stage p : keeps R (stage p).
Proof. unfold stage. keep. Qed.
Hint Resolve keeps_stage : keeps.
Lemma keeps_removeStale l : keeps R (removeStale l).
Proof. induction l as [|p l IH]; cbn [removeStale]; keep. Qed.
Hint Resolve keeps_removeStale : keeps.
Lemma keeps_commit p : keeps R (commit p).
Proof. unfold commit, cleanupStaleSecretMaterials. keep. Qed.
Hint Resolve keeps_commit : keeps.
Lemma keeps_rejectStale e b : keeps R (rejectStaleRevision e b).
Proof. unfold rejectStaleRevision. keep. Qed.
Hint Resolve keeps_rejectStale : keeps.
Lemma keeps_errorCode id s p m : keeps R (errorCodeOf id s p m).
Proof. unfold errorCodeOf. keep. Qed.
Hint Resolve keeps_errorCode : keeps.

End with_env.

#[export] Hint Resolve keeps_ret keeps_get keeps_ext keeps_now keeps_persist keeps_writePrivateFile keeps_readOptionalFile keeps_removeFile keeps_restoreOptionalFile keeps_removeSocket keeps_lookupPlugin keeps_plugin keeps_verify keeps_cleanup keeps_inspect keeps_writeVerified keeps_removeEmpty keeps_removeCreated keeps_rollbackSecrets keeps_writeMaterials keeps_prepareSecrets keeps_stage keeps_removeStale keeps_commit keeps_rejectStale keeps_errorCode : keeps.

#[export] Hint Resolve stable_quiet : keeps.

Section with_env_stable.
Context `{Env, Codec} (R : relation World) `{!Stable R}.
#[local] Set Default Proof Using "Type*".

Ltac keep :=
  repeat first
    [ progress (intros)
    | solve [eauto 3 with keeps]
    | refine (keeps_bind R _ _ _ _)
    | refine (keeps_modify R _ _); intros; first
        [ apply stable_disk | apply stable_files | apply stable_live | apply stable_trace | apply stable_plugins
        | apply stable_register | apply stable_unregister
        | eapply stable_trans; [|apply stable_trace]; apply stable_live ]
    | case_match ].

Lemma keeps_stop p : keeps R (stop p).
Proof. unfold stop. keep. Qed.
Hint Resolve keeps_stop : keeps.
Lemma keeps_stopProcess p : keeps R (stopProcess p).
Proof. unfold stopProcess. keep. Qed.
Hint Resolve keeps_stopProcess : keeps.
Lemma keeps_start id v : keeps R (start id v).
Proof. unfold start. keep. Qed.
Hint Resolve keeps_start : keeps.
Lemma keeps_setProcess id p : keeps R (setProcessLocked id p).
Proof. unfold setProcessLocked. keep. Qed.
Hint Resolve keeps_setProcess : keeps.
Lemma keeps_removeProcess id : keeps R (removeProcessLocked id).
Proof. unfold removeProcessLocked. keep. Qed.
Hint Resolve keeps_removeProcess : keeps.
Lemma keeps_storePlugin id p : keeps R (storePlugin id p).
Proof. unfold storePlugin. keep. Qed.
Hint Resolve keeps_storePlugin : keeps.
Lemma keeps_stopAndCleanup m id v p : keeps R (stopAndCleanupInstalledVersion m id v p).
Proof. unfold stopAndCleanupInstalledVersion. keep. Qed.
Hint Resolve keeps_stopAndCleanup : keeps.
Lemma keeps_markCleanupPending id v e : keeps R (markCleanupPending id v e).
Proof. unfold markCleanupPending. keep. Qed.
Hint Resolve keeps_markCleanupPending : keeps.
Lemma keeps_startVersion id v : keeps R (startVersion id v).
Proof. unfold startVersion. keep. Qed.
Hint Resolve keeps_startVersion : keeps.
Lemma keeps_recordTransitionFailure o r e c : keeps R (recordTransitionFailure o r e c).
Proof. unfold recordTransitionFailure. keep. Qed.
Hint Resolve keeps_recordTransitionFailure : keeps.
Lemma keeps_recordBlocked o r e : keeps R (recordUpdateRollbackBlocked o r e).
Proof. unfold recordUpdateRollbackBlocked. keep. Qed.
Hint Resolve keeps_recordBlocked : keeps.
Lemma keeps_recordStopFailure o e : keeps R (recordConfigureStopFailure o e).
Proof. unfold recordConfigureStopFailure. keep. Qed.
Hint Resolve keeps_recordStopFailure : keeps.
Lemma keeps_recordPluginError id h e : keeps R (recordPluginError id h e).
Proof. unfold recordPluginError. keep. Qed.
Hint Resolve keeps_recordPluginError : keeps.
Lemma keeps_recover id : keeps R (recoverPluginCleanupContext id).
Proof. unfold recoverPluginCleanupContext. keep. Qed.
Hint Resolve keeps_recover : keeps.
Lemma keeps_rollbackConfiguration o r p c e : keeps R (rollbackConfiguration o r p c e).
Proof. unfold rollbackConfiguration. keep. Qed.
Hint Resolve keeps_rollbackConfiguration : keeps.
Lemma keeps_configureEnabled e o p c : keeps R (configureEnabled e o p c).
Proof. unfold configureEnabled. keep. Qed.
Hint Resolve keeps_configureEnabled : keeps.
Lemma keeps_configure e : keeps R (configure e).
Proof. unfold configure. keep. Qed.
Hint Resolve keeps_configure : keeps.
Lemma keeps_enableStart e s : keeps R (enableStart e s).
Proof. unfold enableStart. keep. Qed.
Hint Resolve keeps_enableStart : keeps.
Lemma keeps_enable e : keeps R (enable e).
Proof. unfold enable. keep. Qed.
Hint Resolve keeps_enable : keeps.
Lemma keeps_disable e : keeps R (disable e).
Proof. unfold disable. keep. Qed.
Hint Resolve keeps_disable : keeps.
Lemma keeps_updateDisabled e o m f : (∀ x, keeps R (f x)) → keeps R (updateDisabled e o m f).
Proof. intros Hf. unfold updateDisabled. keep. Qed.
Hint Resolve keeps_updateDisabled : keeps.
Lemma keeps_updateStartFailed e o p c x : keeps R (updateStartFailed e o p c x).
Proof. unfold updateStartFailed. keep. Qed.
Hint Resolve keeps_updateStartFailed : keeps.
Lemma keeps_updatePersistFailed e o m n p c x : keeps R (updatePersistFailed e o m n p c x).
Proof. unfold updatePersistFailed. keep. Qed.
Hint Resolve keeps_updatePersistFailed : keeps.
Lemma keeps_updateStopped e o x tm cm c y : keeps R (updateStopped e o x tm cm c y).
Proof. unfold updateStopped. keep. Qed.
Hint Resolve keeps_updateStopped : keeps.
Lemma keeps_updateEnabled e o p tm cm c x : keeps R (updateEnabled e o p tm cm c x).
Proof. unfold updateEnabled. keep. Qed.
Hint Resolve keeps_updateEnabled : keeps.
Lemma keeps_updateVersion e o : keeps R (updateVersion e o).
Proof. unfold updateVersion. keep. Qed.
Hint Resolve keeps_updateVersion : keeps.
Lemma keeps_update e : keeps R (update e).
Proof. unfold update. keep. Qed.
Hint Resolve keeps_update : keeps.
Lemma keeps_rollback e : keeps R (rollback e).
Proof. unfold rollback. keep. Qed.
Hint Resolve keeps_rollback : keeps.
Lemma keeps_healthCheck e : keeps R (healthCheck e).
Proof. unfold healthCheck. keep. Qed.
Hint Resolve keeps_healthCheck : keeps.
Lemma keeps_installPrepared m r : keeps R (installPrepared m r).
Proof. unfold installPrepared. keep. Qed.
Hint Resolve keeps_installPrepared : keeps.
Lemma keeps_executePrepared k e : keeps R (executePreparedOperation k e).
Proof. unfold executePreparedOperation. keep. Qed.
Hint Resolve keeps_executePrepared : keeps.
Lemma keeps_executeInstall e : keeps R (executeInstall e).
Proof. unfold executeInstall. keep. Qed.
Hint Resolve keeps_executeInstall : keeps.
Lemma keeps_executeMaterialized k e b : keeps R (executeMaterialized k e b).
Proof. unfold executeMaterialized. keep. Qed.
Hint Resolve keeps_executeMaterialized : keeps.
Lemma keeps_executeOperation k e b l : keeps R (executeOperation k e b l).
Proof. unfold executeOperation. keep. Qed.
Hint Resolve keeps_executeOperation : keeps.
Lemma keeps_runOperation k e b l : keeps R (runOperation k e b l).
Proof. unfold runOperation. keep. Qed.
Hint Resolve keeps_runOperation : keeps.
Lemma keeps_recoverPending : keeps R recoverPendingCleanup.
Proof.
  unfold recoverPendingCleanup. refine (keeps_bind R _ _ _ _); [keep|]. intros l.
  induction l as [|id l IH]; cbn [recoverAll]; keep.
Qed.
Hint Resolve keeps_recoverPending : keeps.
Lemma keeps_restoreCandidate id s : keeps R (restoreCandidate id s).
Proof. unfold restoreCandidate. keep. Qed.
Hint Resolve keeps_restoreCandidate : keeps.
Lemma keeps_restoreCandidates l : keeps R (restoreCandidates l).
Proof. induction l as [|[id s] l IH]; cbn [restoreCandidates]; keep. Qed.
Hint Resolve keeps_restoreCandidates : keeps.
Lemma keeps_restoreOne s : keeps R (restoreOne s).
Proof. unfold restoreOne. keep. Qed.
Hint Resolve keeps_restoreOne : keeps.
Lemma keeps_restoreStart l : keeps R (restoreStart l).
Proof. induction l as [|s l IH]; cbn [restoreStart]; keep. Qed.
Hint Resolve keeps_restoreStart : keeps.
Lemma keeps_restoreEnabled : keeps R restoreEnabled.
Proof. unfold restoreEnabled. keep. Qed.
Hint Resolve keeps_restoreEnabled : keeps.
Lemma keeps_observeExit id g e : keeps R (observeProcessExit id g e).
Proof. unfold observeProcessExit. keep. Qed.
Hint Resolve keeps_observeExit : keeps.
Lemma keeps_restart s p m : keeps R (restartMaintenanceInstance s p m).
Proof. unfold restartMaintenanceInstance. keep. Qed.
Hint Resolve keeps_restart : keeps.
Lemma keeps_checkMaintenance id : keeps R (checkMaintenanceInstance id).
Proof. unfold checkMaintenanceInstance. keep. Qed.
Hint Resolve keeps_checkMaintenance : keeps.
Lemma keeps_checkInstances l e : keeps R (checkInstances l e).
Proof. revert e. induction l as [|id l IH]; intros e; cbn [checkInstances]; keep. Qed.
Hint Resolve keeps_checkInstances : keeps.
Lemma keeps_CheckMaintenance : keeps R CheckMaintenance.
Proof. unfold CheckMaintenance. keep. Qed.
Lemma keeps_closePlugin id : keeps R (closePlugin id).
Proof. unfold closePlugin. keep. Qed.
Hint Resolve keeps_closePlugin : keeps.
Lemma keeps_closePlugins l e : keeps R (closePlugins l e).
Proof. revert e. induction l as [|id l IH]; intros e; cbn [closePlugins]; keep. Qed.
Hint Resolve keeps_closePlugins : keeps.
Lemma keeps_Close : (∀ w b, R w (set_closed b w)) → keeps R Close.
Proof. intros Hc. unfold Close. keep. all: refine (keeps_modify R _ _); auto. Qed.

End with_env_stable.

End SupervisorFrame.
