(* ===== verification/SupervisorOnce.v ===== *)
(** * Plugin supervisor: an operation runs once

    The calls of [Handle], process exits, the maintenance monitor, shutdown,
    crashes at any external call and restarts, interleaved in any order, as a
    step relation; and the theorems on the journal: a journaled result is final
    across crashes, an interrupted operation can be replayed exactly. *)

From S2P Require Import Prelude GoStrings Json Envelope PluginNames PluginWorld PluginSecrets Supervisor SupervisorRuns SupervisorFrame SupervisorDemo.
From Stdlib Require Import Ascii String.

Module SupervisorOnce.
Import Envelope PluginNames PluginWorld PluginSecrets Supervisor SupervisorRuns SupervisorFrame SupervisorDemo.

(** ** One journal entry *)

Definition entry (id : string) (w : World) : option JournalEntry := Journal (state w) !! id.
Definition disk_entry (id : string) (w : World) : option JournalEntry := disk w ≫= λ d, Journal d !! id.

(** The entry in memory is the same, the one on disk is too or is now memory's. *)
Definition entry_kept (id : string) (w w' : World) : Prop :=
  entry id w' = entry id w ∧ (disk_entry id w' = disk_entry id w ∨ disk_entry id w' = entry id w).

#[export] Instance entry_kept_stable id : Stable (entry_kept id).
Proof.
  split; [split|..]; unfold entry_kept; try (intros; cbn; by auto).
  intros w1 w2 w3 [H1 H2] [H3 H4]. split; [congruence|]. rewrite H1 in H4. destruct H4 as [->| ->]; auto.
Qed.

Definition terminal (e : JournalEntry) : Prop := j_State e = "succeeded" ∨ j_State e = "failed".

(** The entry is final: the same terminal entry in memory and on disk. *)
Definition settled (id : string) (e : JournalEntry) (w : World) : Prop :=
  terminal e ∧ entry id w = Some e ∧ disk_entry id w = Some e.

Lemma settled_kept id e w w' : settled id e w → entry_kept id w w' → settled id e w'.
Proof. intros (Ht & Hm & Hd) [H1 H2]. split_and!; [done|congruence|]. destruct H2; congruence. Qed.

(** The answer a terminal entry gives. *)
Definition answer_of (e : JournalEntry) : result (option RawMessage) :=
  if String.eqb (j_State e) "succeeded" then Ok (j_Result e)
  else Err (if String.eqb (j_Error e) "" then "plugin operation previously failed" else j_Error e).

Section with_env.
Context `{Env, Codec}.

Lemma keeps_storeJournal_other id id' e : id ≠ id' → keeps (entry_kept id) (storeJournal id' e).
Proof.
  intros Hne. apply keeps_modify; [apply _|]. intros w. split; [|by left].
  unfold entry. cbn. by rewrite lookup_insert_ne.
Qed.

Lemma keeps_running id f : keeps (entry_kept id) (modify (λ w, set_running (f w) w)).
Proof. apply keeps_modify; [apply _|]. intros w. by repeat constructor. Qed.

Ltac keep_entry_with tac :=
  repeat first
    [ progress intros
    | solve [tac]
    | solve [apply keeps_ret; apply _ | apply keeps_get; apply _ | apply keeps_now; apply _ | apply keeps_persist; apply _
            | by apply keeps_storeJournal_other | apply keeps_running]
    | apply keeps_bind; [apply _|..]
    | case_match ].
Ltac keep_entry := keep_entry_with fail.

Lemma register_keeps_other id kind e rep : id ≠ OperationID e → keeps (entry_kept id) (registerOperation kind e rep).
Proof.
  intros Hne. unfold registerOperation. keep_entry.
  apply keeps_modify; [apply _|]. intros w. split; [|by left]. unfold entry. cbn. by rewrite lookup_delete_ne.
Qed.

Lemma admit_keeps_other id fuel : ∀ kind e rep, id ≠ OperationID e → keeps (entry_kept id) (admitLoop fuel kind e rep).
Proof.
  induction fuel as [|fuel IH]; intros kind e rep Hne; cbn [admitLoop]; [apply keeps_ret; apply _|].
  keep_entry_with ltac:(by apply register_keeps_other || by apply IH).
Qed.

Lemma finish_keeps_other id e r : id ≠ OperationID e → keeps (entry_kept id) (finishOperation e r).
Proof. intros Hne. unfold finishOperation. keep_entry. Qed.

(** A terminal entry answers: nothing changes and nothing runs. *)
Lemma admit_settled fuel kind e rep w je :
  entry (OperationID e) w = Some je → terminal je →
  admitLoop (S fuel) kind e rep w =
    (Done (Answer (if journalMatches je kind e then answer_of je else Err errRebound)), w).
Proof.
  unfold entry. intros He Ht. cbn [admitLoop]. unfold mbind, M_bind, get. rewrite He.
  destruct (journalMatches je kind e); cbn [negb]; [|done]. unfold answer_of.
  destruct Ht as [-> | ->]; reflexivity.
Qed.

Lemma begin_settled id je kind e w :
  settled id je w →
  settled id je (beginOperation kind e w).2 ∧
  (∀ rep w', beginOperation kind e w = (Done (Proceed rep), w') → OperationID e ≠ id).
Proof.
  intros Hs. unfold beginOperation. rewrite bind_get.
  destruct (closed w); [by split|]. destruct (validateOperation kind e); [|by split].
  destruct (decide (id = OperationID e)) as [->|Hne].
  - destruct Hs as (Ht & Hm & Hd). rewrite (admit_settled 1 kind (normalized e) false w je) by done. by split.
  - split; [|congruence]. eapply settled_kept; [done|]. by apply admit_keeps_other.
Qed.

(** ** The system *)

Record call := mkCall {
  c_kind : string;
  c_envelope : OperationEnvelope;
  c_repair : bool;
  c_loader : bool;
  c_result : option (result RawMessage)
}.

Definition with_result (r : result RawMessage) (c : call) : call :=
  mkCall (c_kind c) (c_envelope c) (c_repair c) (c_loader c) (Some r).

(** The Agent runs with a world and the calls that were admitted and have not
    finished, by operation id; or it is down and only the disk is left. *)
Inductive system :=
| Up (w : World) (calls : gmap string call)
| Down (w : World).

(** A process that exits by itself. *)
Definition exited (p : Process) (w : World) : World :=
  set_live (filter (λ q, q ≠ p) (live w)) w |> set_trace (EvExit p :: trace w).

(** What runs besides the calls: exits of processes and the goroutines that
    observe them, the monitor, shutdown. *)
Inductive background (w : World) : M unit → Prop :=
| bg_exit p : p ∈ live w → background w (modify (exited p))
| bg_observe id gen p err : (id, gen, p) ∈ watchers w → p ∉ live w → background w (observeProcessExit id gen err)
| bg_check : background w (_ ← CheckMaintenance; mret tt)
| bg_close : background w (_ ← Close; mret tt).

Inductive step : system → system → Prop :=
| step_admitted w calls kind loader e rep w' :
    beginOperation kind e w = (Done (Proceed rep), w') →
    step (Up w calls) (Up w' (<[OperationID e := mkCall kind (normalized e) rep loader None]> calls))
| step_answered w calls kind e a w' :
    beginOperation kind e w = (Done a, w') → (∀ rep, a ≠ Proceed rep) → step (Up w calls) (Up w' calls)
| step_run w calls id c r w' :
    calls !! id = Some c → c_result c = None →
    runOperation (c_kind c) (c_envelope c) (c_repair c) (c_loader c) w = (Done r, w') →
    step (Up w calls) (Up w' (<[id := with_result r c]> calls))
| step_finish w calls id c r res w' :
    calls !! id = Some c → c_result c = Some r → finishOperation (c_envelope c) r w = (Done res, w') →
    step (Up w calls) (Up w' (delete id calls))
| step_background w calls m w' : background w m → m w = (Done tt, w') → step (Up w calls) (Up w' calls)
| step_kill w calls : step (Up w calls) (Down w)
| step_crash_begin w calls kind e w' : beginOperation kind e w = (Crashed, w') → step (Up w calls) (Down w')
| step_crash_run w calls id c w' :
    calls !! id = Some c → c_result c = None →
    runOperation (c_kind c) (c_envelope c) (c_repair c) (c_loader c) w = (Crashed, w') → step (Up w calls) (Down w')
| step_crash_finish w calls id c r w' :
    calls !! id = Some c → c_result c = Some r → finishOperation (c_envelope c) r w = (Crashed, w') →
    step (Up w calls) (Down w')
| step_crash_background w calls m w' : background w m → m w = (Crashed, w') → step (Up w calls) (Down w')
| step_boot w w' : NewSupervisor (boot w) = (Done None, w') → step (Down w) (Up w' ∅)
| step_boot_failed w o w' : NewSupervisor (boot w) = (o, w') → o ≠ Done None → step (Down w) (Down w').

Definition final (id : string) (je : JournalEntry) (s : system) : Prop :=
  match s with
  | Up w calls => settled id je w ∧ calls !! id = None ∧
                  (∀ k c, calls !! k = Some c → OperationID (c_envelope c) = k)
  | Down w => terminal je ∧ disk_entry id w = Some je
  end.

Lemma background_keeps_any (R : relation World) `{!Stable R} w m :
  (∀ w b, R w (set_closed b w)) → background w m → keeps R m.
Proof.
  intros Hc [p _|id gen p err _ _| |].
  - apply keeps_modify; [apply _|]. intros w'. eapply stable_trans; [apply stable_live|apply stable_trace].
  - by apply keeps_observeExit.
  - apply keeps_bind; [apply _|by apply keeps_CheckMaintenance|intros; apply keeps_ret; apply _].
  - apply keeps_bind; [apply _|by apply keeps_Close|intros; apply keeps_ret; apply _].
Qed.

Lemma background_keeps id w m : background w m → keeps (entry_kept id) m.
Proof. apply background_keeps_any; [apply _|]. intros w' b. by repeat constructor. Qed.

Lemma interrupt_terminal t je : terminal je → interrupt t je = je.
Proof. unfold terminal, interrupt. by intros [-> | ->]. Qed.

Definition loaded (t : time) (d : persistedState) : persistedState := mkState (Plugins d) (interrupt t <$> Journal d).

Lemma load_eq w : load w =
  match disk w with
  | None => (Done None, w)
  | Some d =>
    if negb (forallb (λ kv, plugin_record_ok kv.1 kv.2) (map_to_list (Plugins d)))
    then (Done (Some "read plugin supervisor state: invalid plugin state"), w)
    else if negb (forallb (λ kv, journal_record_ok kv.1 kv.2) (map_to_list (Journal d)))
    then (Done (Some "read plugin supervisor state: invalid journal entry"), w)
    else if env_crash (tick w) then (Crashed, w)
    else let w1 := set_state (loaded (env_now (tick w)) d) (set_tick (S (tick w)) w) in
         if existsb (λ kv, String.eqb (j_State kv.2) "running") (map_to_list (Journal d)) then persistLocked w1
         else (Done None, w1)
  end.
Proof.
  unfold load. unfold mbind, M_bind, get. destruct (disk w) as [d|]; [|done].
  case_match; [done|]. case_match; [done|]. unfold now, ext. destruct (env_crash (tick w)); [done|].
  unfold modify. by case_match.
Qed.

(** Starting on a disk with a terminal entry: it is in memory again, and stays on disk. *)
Lemma NewSupervisor_settled id je w :
  terminal je → disk_entry id w = Some je →
  disk_entry id (NewSupervisor (boot w)).2 = Some je ∧
  (∀ w', NewSupervisor (boot w) = (Done None, w') → entry id w' = Some je).
Proof.
  intros Ht Hd. unfold NewSupervisor.
  assert (disk_entry id (load (boot w)).2 = Some je ∧
          ∀ w1, load (boot w) = (Done None, w1) → entry id w1 = Some je) as [Hl1 Hl2].
  { rewrite load_eq. change (disk (boot w)) with (disk w).
    unfold disk_entry in *. destruct (disk w) as [d|] eqn:Ed; [|done]. cbn in Hd.
    assert (disk (boot w) = Some d) as Eb by done.
    do 3 (case_match; [by split; [cbn [snd]; rewrite Eb|]|]). cbv zeta.
    set (w1 := set_state _ _).
    assert (settled id je w1) as Hs1.
    { split_and!; [done| |]; unfold entry, disk_entry, w1, loaded; cbn; [|by rewrite Ed].
      rewrite lookup_fmap, Hd. cbn. by rewrite interrupt_terminal. }
    case_match.
    - assert (settled id je (persistLocked w1).2) as (_ & Hm & Hdk).
      { eapply settled_kept; [done|]. apply keeps_persist; apply _. }
      split; [done|]. intros w2 E. by rewrite E in Hm.
    - destruct Hs1 as (_ & Hm & Hdk). split; [done|]. by intros ? [= <-]. }
  rewrite bind_run. destruct (load (boot w)) as [[[err|]|] w1] eqn:El; cbn in Hl1; [by split| |by split].
  assert (settled id je w1) as Hs1 by (by split_and!; [|apply Hl2|]).
  set (m := recoverPendingCleanup ≫= _).
  assert (settled id je (m w1).2) as (_ & Hm & Hdk).
  { eapply settled_kept; [done|]. unfold m. apply keeps_bind; [apply _|apply keeps_recoverPending; apply _|]. intros _.
    apply keeps_bind; [apply _|apply keeps_restoreEnabled; apply _|]. intros _. apply keeps_ret; apply _. }
  split; [done|]. intros w2 E. by rewrite E in Hm.
Qed.

Lemma final_step id je s s' : final id je s → step s s' → final id je s'.
Proof.
  intros Hf Hs. destruct Hs as [w calls kind loader e rep w' Hb|w calls kind e a w' Hb Ha|w calls k c r w' Hc Hr Hrun|
    w calls k c r res w' Hc Hr Hfin|w calls m w' Hbg Hm|w calls|w calls kind e w' Hb|w calls k c w' Hc Hr Hrun|
    w calls k c r w' Hc Hr Hfin|w calls m w' Hbg Hm|w w' Hboot|w o w' Hboot Ho];
    cbn [final] in *; try (destruct Hf as (Hs & Hn & Hk)).
  - destruct (begin_settled id je kind e w Hs) as [Hs' Hne]. rewrite Hb in Hs'. specialize (Hne rep w' Hb).
    split_and!; [done|by rewrite lookup_insert_ne|]. intros k c [[<- <-]|[_ Hc]]%lookup_insert_Some; [done|by apply Hk].
  - destruct (begin_settled id je kind e w Hs) as [Hs' _]. rewrite Hb in Hs'. done.
  - assert (k ≠ id) as Hne by congruence. split_and!; [|by rewrite lookup_insert_ne|].
    + pose proof (keeps_runOperation (entry_kept id) (c_kind c) (c_envelope c) (c_repair c) (c_loader c) w) as Hk'.
      rewrite Hrun in Hk'. by eapply settled_kept.
    + intros k' c' [[<- <-]|[_ Hc']]%lookup_insert_Some; [exact (Hk k c Hc)|by apply Hk].
  - assert (k ≠ id) as Hne by congruence. split_and!; [|by rewrite lookup_delete_ne|].
    + pose proof (finish_keeps_other id (c_envelope c) r) as Hk'. rewrite (Hk k c Hc) in Hk'. specialize (Hk' (not_eq_sym Hne) w).
      rewrite Hfin in Hk'. by eapply settled_kept.
    + intros k' c' [_ Hc']%lookup_delete_Some. by apply Hk.
  - split_and!; [|done..]. pose proof (background_keeps id w m Hbg w) as Hk'. rewrite Hm in Hk'. by eapply settled_kept.
  - destruct Hs as (? & ? & ?). done.
  - destruct (begin_settled id je kind e w Hs) as [(? & ? & ?) _]. by rewrite Hb in *.
  - pose proof (keeps_runOperation (entry_kept id) (c_kind c) (c_envelope c) (c_repair c) (c_loader c) w) as Hk'.
    rewrite Hrun in Hk'. by destruct (settled_kept _ _ _ _ Hs Hk') as (? & ? & ?).
  - assert (k ≠ id) as Hne by congruence.
    pose proof (finish_keeps_other id (c_envelope c) r) as Hk'. rewrite (Hk k c Hc) in Hk'. specialize (Hk' (not_eq_sym Hne) w).
    rewrite Hfin in Hk'. by destruct (settled_kept _ _ _ _ Hs Hk') as (? & ? & ?).
  - pose proof (background_keeps id w m Hbg w) as Hk'. rewrite Hm in Hk'. by destruct (settled_kept _ _ _ _ Hs Hk') as (? & ? & ?).
  - destruct Hf as [Ht Hd]. destruct (NewSupervisor_settled id je w Ht Hd) as [H1 H2]. rewrite Hboot in H1.
    split_and!; [|done|by intros ? ? ?%lookup_empty_Some]. split_and!; [done|by apply H2|done].
  - destruct Hf as [Ht Hd]. destruct (NewSupervisor_settled id je w Ht Hd) as [H1 H2]. by rewrite Hboot in H1.
Qed.

Lemma final_steps id je s s' : final id je s → rtc step s s' → final id je s'.
Proof. intros Hf Hs. induction Hs; eauto using final_step. Qed.

(** ** The journal entry of an operation *)

Lemma new_entry_matches kind e t :
  NoDup (Reference <$> SecretMaterials e) → journalMatches (newJournalEntry kind e t) kind e = true.
Proof.
  intros Hnd. unfold journalMatches, newJournalEntry, equal_fold. cbn.
  rewrite !String.eqb_refl, Z.eqb_refl. cbn [andb].
  unfold journalSecretMaterialsMatch. set (audits := (λ m, mkAudit (Reference m) (SHA256 m)) <$> SecretMaterials e).
  pose proof (merge_sort_Permutation audit_le audits) as Hp.
  rewrite andb_true_iff, Z.eqb_eq, forallb_forall. split.
  - apply Permutation_length in Hp. rewrite Hp. unfold audits. by rewrite length_fmap.
  - intros a Ha%list_elem_of_In. rewrite Hp in Ha. apply list_elem_of_fmap in Ha as (m & -> & Hm). cbn.
    assert (list_to_map ((λ m, (Reference m, SHA256 m)) <$> reverse (SecretMaterials e)) !! Reference m = Some (SHA256 m)) as ->;
      [|by rewrite String.eqb_refl].
    apply elem_of_list_to_map.
    + rewrite <- list_fmap_compose. cbn. rewrite fmap_reverse. by rewrite reverse_Permutation.
    + apply list_elem_of_fmap. exists m. split; [done|]. by rewrite elem_of_reverse.
Qed.

Lemma matches_entry_with je st res err t kind e :
  journalMatches (entry_with st res err t je) kind e = journalMatches je kind e.
Proof. done. Qed.

Lemma persist_written w o w' : persistLocked w = (Done o, w') →
  state w' = state w ∧ (o = None → disk w' = Some (state w)) ∧ closed w' = closed w ∧ running w' = running w ∧ tick w' = S (tick w).
Proof.
  unfold persistLocked, ext, mbind, M_bind, modify. destruct (env_crash (tick w)); [done|].
  destruct (env_write (tick w)); intros [= <- <-]; by split_and!.
Qed.

(** What an admission leaves behind: the operation is running, in memory and on
    disk, under an entry that matches its envelope. *)
Lemma register_admitted kind e rep rep' w w' :
  registerOperation kind e rep w = (Done (Proceed rep'), w') →
  rep' = rep ∧ disk w' = Some (state w') ∧ OperationID e ∈ running w' ∧
  key_bound (OperationID e) (IdempotencyKey e) (Journal (state w)) = false ∧
  Plugins (state w') = Plugins (state w) ∧
  ∃ t, Journal (state w') = <[OperationID e := newJournalEntry kind e t]> (Journal (state w)).
Proof.
  unfold registerOperation. rewrite bind_get. destruct (key_bound _ _ _) eqn:Ek; [done|].
  run1. run_ext. run1. rewrite bind_run. destruct (persistLocked _) as [[o|] w2] eqn:Ep; [|done].
  apply persist_written in Ep as (Hst & Hd & Hc & Hr & _).
  destruct o; [done|]. intros [= <- <-]. rewrite Hst, Hr, (Hd eq_refl).
  split_and!; [done|done| |done|done|by eexists]. cbn. apply elem_of_union_l, elem_of_singleton_2. done.
Qed.

Lemma begin_admitted kind e rep w w' :
  beginOperation kind e w = (Done (Proceed rep), w') →
  closed w = false ∧ validateOperation kind e = Ok tt ∧ disk w' = Some (state w') ∧ Plugins (state w') = Plugins (state w) ∧
  key_bound (OperationID e) (IdempotencyKey e) (Journal (state w')) = false ∧
  ∃ t, entry (OperationID e) w' = Some (newJournalEntry kind (normalized e) t).
Proof.
  unfold beginOperation. rewrite bind_get. destruct (closed w); [done|].
  destruct (validateOperation kind e) as [[]|] eqn:Ev; [|done]. intros Ha. do 2 (split; [done|]).
  assert (∀ fuel rep0 w, admitLoop fuel kind (normalized e) rep0 w = (Done (Proceed rep), w') →
    ∃ rep1 w1, Plugins (state w1) = Plugins (state w) ∧
      registerOperation kind (normalized e) rep1 w1 = (Done (Proceed rep), w')) as Hloop.
  { clear. induction fuel as [|fuel IH]; intros rep0 w; cbn [admitLoop]; [done|]. rewrite bind_get.
    destruct (Journal (state w) !! OperationID (normalized e)) as [je|]; [|by eauto].
    do 3 (case_match; [done|]). case_match; [|case_match; [by eauto|done]].
    rewrite bind_get. case_match; [done|]. run1. run_ext. run1. rewrite bind_run.
    destruct (persistLocked _) as [[o|] w2] eqn:Ep; [|done]. apply persist_written in Ep as (Hst & _).
    intros (rep1 & w3 & Hp & Hr)%IH. exists rep1, w3. split; [|done]. by rewrite Hp, Hst. }
  apply Hloop in Ha as (rep1 & w1 & Hp & (-> & Hd & _ & Hk & Hp' & t & Hj)%register_admitted).
  change (OperationID (normalized e)) with (OperationID e) in *.
  change (IdempotencyKey (normalized e)) with (IdempotencyKey e) in *.
  split_and!; [done|congruence| |exists t; unfold entry; by rewrite Hj, lookup_insert_eq].
  rewrite Hj. apply not_true_iff_false in Hk. apply not_true_iff_false. intros Hb. apply Hk.
  unfold key_bound in *. rewrite existsb_exists in *. destruct Hb as ([k je] & Hin & Hb).
  apply list_elem_of_In, elem_of_map_to_list in Hin. cbn in Hb.
  apply andb_true_iff in Hb as [Hne Hkey]. apply negb_true_iff, String.eqb_neq in Hne.
  rewrite lookup_insert_ne in Hin by done. exists (k, je). split; [by apply list_elem_of_In, elem_of_map_to_list|].
  cbn. rewrite Hkey, andb_true_r. by apply negb_true_iff, String.eqb_neq.
Qed.

Lemma validate_materials_ok kind e : validateOperation kind e = Ok tt → ValidateSecretMaterials e = Ok tt.
Proof. unfold validateOperation. do 8 (case_match; [done|]). done. Qed.

(** What [handle] returned for an operation that ran. *)
Definition outcome_of (r : result RawMessage) : result (option RawMessage) :=
  match r with
  | Ok v => Ok (Some v)
  | Err m => Err (if String.eqb m "" then "plugin operation previously failed" else m)
  end.

Lemma finish_entry e r w je res w' :
  entry (OperationID e) w = Some je → finishOperation e r w = (Done res, w') →
  closed w' = closed w ∧ (is_ok res = true → disk w' = Some (state w')) ∧
  ∃ je', entry (OperationID e) w' = Some je' ∧ terminal je' ∧ answer_of je' = outcome_of r ∧
    ∀ kind e', journalMatches je' kind e' = journalMatches je kind e'.
Proof.
  unfold entry. intros Hje. unfold finishOperation. rewrite bind_get, Hje. run1. run_ext. run1. rewrite bind_run.
  destruct (persistLocked _) as [[o|] w2] eqn:Ep; [|done]. apply persist_written in Ep as (Hst & Hd & Hc & _).
  run1. intros [= <- <-]. cbn [closed set_running disk state]. rewrite Hst. split_and!; [done| |].
  - intros Hok. rewrite Hd; [done|]. by destruct r, o.
  - cbn. rewrite lookup_insert_eq. eexists. split; [done|]. destruct r; cbn; (split_and!; [by (left + right)|done|done]).
Qed.

(** C1: a journaled operation runs once: when [Handle] has executed an operation
    and its record reached the disk, then after any interleaving of other calls,
    process exits, maintenance checks, shutdowns, crashes and restarts, every
    retry with the same operation id and contents is answered with the recorded
    result, changes nothing and starts nothing. *)
Theorem operation_runs_once kind loader e rep w w1 r w2 res w3 calls s :
  beginOperation kind e w = (Done (Proceed rep), w1) →
  runOperation kind (normalized e) rep loader w1 = (Done r, w2) →
  finishOperation (normalized e) r w2 = (Done res, w3) →
  disk w3 = Some (state w3) →
  calls !! OperationID e = None → (∀ k c, calls !! k = Some c → OperationID (c_envelope c) = k) →
  rtc step (Up w3 calls) s →
  ∀ w' calls', s = Up w' calls' →
    calls' !! OperationID e = None ∧
    (closed w' = false → beginOperation kind e w' = (Done (Answer (outcome_of r)), w')).
Proof.
  intros Hb Hrun Hfin Hdisk Hcalls Hkeyed Hsteps w' calls' ->.
  apply begin_admitted in Hb as (_ & Hval & _ & _ & _ & t & He).
  assert (entry (OperationID e) w2 = Some (newJournalEntry kind (normalized e) t)) as He2.
  { pose proof (keeps_runOperation (entry_kept (OperationID e)) kind (normalized e) rep loader w1) as [Hk _].
    rewrite Hrun in Hk. by rewrite <- He. }
  apply (finish_entry (normalized e) r w2 _ res w3 He2) in Hfin as (_ & _ & je & Hje & Ht & Hans & Hm).
  assert (final (OperationID e) je (Up w3 calls)) as Hf.
  { split_and!; [|done|done]. split_and!; [done|done|]. unfold disk_entry. rewrite Hdisk. exact Hje. }
  apply (final_steps _ _ _ _ Hf) in Hsteps as ((_ & Hje' & _) & Hnone & _). split; [done|]. intros Hclosed.
  unfold beginOperation. rewrite bind_get. rewrite Hclosed, Hval.
  rewrite (admit_settled 1 kind (normalized e) false w' je) by done.
  rewrite Hm, new_entry_matches; [by rewrite Hans|].
  change (SecretMaterials (normalized e)) with (SecretMaterials e).
  by apply validated_materials_nodup, (validate_materials_ok kind).
Qed.


(** ** Interrupted operations *)

Lemma key_bound_true id key journal :
  key_bound id key journal = true ↔ ∃ k je, journal !! k = Some je ∧ k ≠ id ∧ j_IdempotencyKey je = key.
Proof.
  unfold key_bound. rewrite existsb_exists. split.
  - intros ([k je] & Hin%list_elem_of_In%elem_of_map_to_list & Hb). apply andb_true_iff in Hb as [Hn Hk].
    apply negb_true_iff, String.eqb_neq in Hn. apply String.eqb_eq in Hk. eauto.
  - intros (k & je & Hin & Hn & Hk). exists (k, je). split; [by apply list_elem_of_In, elem_of_map_to_list|]. cbn.
    apply andb_true_iff. split; [by apply negb_true_iff, String.eqb_neq|by apply String.eqb_eq].
Qed.

(** The whole journal, as [entry_kept] is for one entry; and the closed flag. *)
Definition journal_kept (w w' : World) : Prop :=
  Journal (state w') = Journal (state w) ∧ closed w' = closed w ∧
  (Journal <$> disk w' = Journal <$> disk w ∨ Journal <$> disk w' = Some (Journal (state w))).

#[export] Instance journal_kept_stable : Stable journal_kept.
Proof.
  split; [split|..]; unfold journal_kept; try (intros; cbn; by auto).
  intros w1 w2 w3 (H1 & H2 & H3) (H4 & H5 & H6). split_and!; [congruence..|]. rewrite H1 in H6. destruct H6 as [->| ->]; auto.
Qed.

(** After a restart the journal is the one on disk, its running entries interrupted. *)
Lemma NewSupervisor_journal w d w' :
  disk w = Some d → NewSupervisor (boot w) = (Done None, w') →
  closed w' = false ∧ ∃ t, Journal (state w') = interrupt t <$> Journal d.
Proof.
  intros Hd. unfold NewSupervisor. rewrite bind_run, load_eq. change (disk (boot w)) with (disk w). rewrite Hd.
  destruct (negb (forallb (λ kv, plugin_record_ok kv.1 kv.2) _)); [done|].
  destruct (negb (forallb (λ kv, journal_record_ok kv.1 kv.2) _)); [done|]. destruct (env_crash _); [done|].
  cbv zeta. set (w1 := set_state _ _). set (m := recoverPendingCleanup ≫= _).
  assert (keeps journal_kept m) as Hm.
  { unfold m. apply keeps_bind; [apply _|apply keeps_recoverPending; apply _|]. intros _.
    apply keeps_bind; [apply _|apply keeps_restoreEnabled; apply _|]. intros _. apply keeps_ret; apply _. }
  assert (∀ w2, Journal (state w2) = Journal (state w1) → closed w2 = false → m w2 = (Done None, w') →
    closed w' = false ∧ ∃ t, Journal (state w') = interrupt t <$> Journal d) as Hgo.
  { intros w2 Hj Hc Hrun. destruct (Hm w2) as (Hj' & Hc' & _). rewrite Hrun in Hj', Hc'. cbn in Hj', Hc'.
    split; [congruence|]. rewrite Hj', Hj. by eexists. }
  destruct (existsb _ _); [|by apply Hgo]. destruct (persistLocked w1) as [[o|] w2] eqn:Ep; [|done].
  apply persist_written in Ep as (Hst & _ & Hc & _). destruct o; [done|]. apply Hgo; [by rewrite Hst|done].
Qed.

Lemma begin_interrupted kind e w je :
  closed w = false → validateOperation kind e = Ok tt →
  entry (OperationID e) w = Some je → j_State je = "interrupted" → journalMatches je kind (normalized e) = true →
  beginOperation kind e w = registerOperation kind (normalized e) true w.
Proof.
  unfold entry. intros Hc Hv He Hst Hm. unfold beginOperation. rewrite bind_get, Hc, Hv. cbn [admitLoop].
  rewrite bind_get. change (OperationID (normalized e)) with (OperationID e). by rewrite He, Hm, Hst.
Qed.

Lemma register_run kind e rep w :
  key_bound (OperationID e) (IdempotencyKey e) (Journal (state w)) = false →
  env_crash (tick w) = false → env_crash (S (tick w)) = false → env_write (S (tick w)) = Written →
  ∃ w', registerOperation kind e rep w = (Done (Proceed rep), w').
Proof.
  intros Hk Hc1 Hc2 Hw. unfold registerOperation. rewrite bind_get, Hk. run1. rewrite bind_ext, Hc1. run1.
  rewrite bind_run. unfold persistLocked. rewrite bind_ext. cbn. rewrite Hc2, Hw. by eexists.
Qed.

(** A crash inside an operation leaves it replayable: the operation was on
    disk before it ran, so after the restart it is marked interrupted, and a
    retry with the same contents is admitted as a repair (which may reuse the
    current revision), as soon as its record can be written. *)
Theorem interrupted_operation_replayable kind loader e rep w w1 w2 w3 :
  beginOperation kind e w = (Done (Proceed rep), w1) →
  runOperation kind (normalized e) rep loader w1 = (Crashed, w2) →
  NewSupervisor (boot w2) = (Done None, w3) →
  env_crash (tick w3) = false → env_crash (S (tick w3)) = false → env_write (S (tick w3)) = Written →
  (∃ je, entry (OperationID e) w3 = Some je ∧ j_State je = "interrupted" ∧ j_Error je = errRestart) ∧
  ∃ w4, beginOperation kind e w3 = (Done (Proceed true), w4).
Proof.
  intros Hb Hrun Hboot Hc1 Hc2 Hw. apply begin_admitted in Hb as (_ & Hv & Hd & _ & Hk & t & He).
  pose proof (keeps_runOperation journal_kept kind (normalized e) rep loader w1) as (_ & _ & Hdk). rewrite Hrun in Hdk. cbn in Hdk.
  rewrite Hd in Hdk. assert (Journal <$> disk w2 = Some (Journal (state w1))) as Hd2 by (by destruct Hdk). clear Hdk.
  destruct (disk w2) as [d|] eqn:Ed; [|done]. injection Hd2 as Hd2.
  apply (NewSupervisor_journal w2 d w3 Ed) in Hboot as [Hcl [t' Hj]]. rewrite Hd2 in Hj.
  set (je := newJournalEntry kind (normalized e) t) in *.
  assert (entry (OperationID e) w3 = Some (interrupt t' je)) as He3.
  { unfold entry in *. rewrite Hj, lookup_fmap, He. done. }
  split; [by eexists|].
  rewrite (begin_interrupted kind e w3 (interrupt t' je)); [|done..|].
  - apply register_run; [|done..]. apply not_true_iff_false. intros Hb. apply not_true_iff_false in Hk. apply Hk.
    rewrite Hj in Hb. apply key_bound_true in Hb as (k & x & Hx & Hne & Hkey). apply key_bound_true.
    rewrite lookup_fmap in Hx. destruct (Journal (state w1) !! k) as [y|] eqn:Ey; [|done]. injection Hx as <-.
    exists k, y. split_and!; [done|done|]. unfold interrupt in Hkey. by destruct (String.eqb (j_State y) _).
  - change (interrupt t' je) with (entry_with "interrupted" (j_Result je) errRestart t' je). rewrite matches_entry_with.
    apply new_entry_matches. change (SecretMaterials (normalized e)) with (SecretMaterials e).
    by apply validated_materials_nodup, (validate_materials_ok kind).
Qed.

(** A mutating operation at the desired revision that is not a repair is stale. *)
Lemma stale_run kind loader e w p :
  operationMutatesState kind = true → Plugins (state w) !! PluginID e = Some p → p_DesiredRevision p = Revision e →
  p_CleanupPending p = false → (∀ n, env_crash n = false) → (∀ n, env_ctx n = None) →
  ∃ w', runOperation kind e false loader w = (Done (Err "plugin operation revision is not newer than desired revision"), w').
Proof.
  intros Hmut Hp Hrev Hcp Hcr Hctx. unfold runOperation. rewrite bind_ext, Hcr, Hctx, bind_ext, Hcr, Hctx, Hmut, bind_run.
  set (w1 := set_tick _ _). assert (Plugins (state w1) !! PluginID e = Some p) as Hp1 by done. clearbody w1.
  unfold recoverPluginCleanupContext, lookupPlugin. rewrite bind_get, Hp1, Hcp. cbn [negb mret M_ret].
  unfold executeOperation. rewrite Hmut, bind_run. unfold rejectStaleRevision, lookupPlugin.
  rewrite bind_get, Hp1, Hrev, Z.eqb_refl, orb_true_r. by eexists.
Qed.

(** When the record of a replay cannot be written, its interrupted entry is
    dropped from memory: the next retry is taken for a new operation, and a
    replay at the plugin's desired revision is then refused as stale. *)
Lemma lost_replay_is_stale kind loader e w je p m :
  closed w = false → validateOperation kind e = Ok tt → operationMutatesState kind = true →
  entry (OperationID e) w = Some je → j_State je = "interrupted" → journalMatches je kind (normalized e) = true →
  key_bound (OperationID e) (IdempotencyKey e) (Journal (state w)) = false →
  Plugins (state w) !! PluginID e = Some p → p_DesiredRevision p = Revision e → p_CleanupPending p = false →
  (∀ n, env_crash n = false) → (∀ n, env_ctx n = None) →
  env_write (S (tick w)) = NotWritten m → env_write (S (S (S (tick w)))) = Written →
  ∃ w1 w2 w3, beginOperation kind e w = (Done (Answer (Err m)), w1) ∧
    beginOperation kind e w1 = (Done (Proceed false), w2) ∧
    runOperation kind (normalized e) false loader w2 =
      (Done (Err "plugin operation revision is not newer than desired revision"), w3).
Proof.
  intros Hc Hv Hmut He Hst Hm Hk Hp Hrev Hcp Hcr Hctx Hw1 Hw2.
  assert (∃ w1, registerOperation kind (normalized e) true w = (Done (Answer (Err m)), w1) ∧ closed w1 = false ∧
    Plugins (state w1) = Plugins (state w) ∧ Journal (state w1) = delete (OperationID e) (Journal (state w)) ∧
    tick w1 = S (S (tick w))) as (w1 & Hreg & Hc1 & Hp1 & Hj1 & Ht1).
  { unfold registerOperation. rewrite bind_get. change (OperationID (normalized e)) with (OperationID e).
    change (IdempotencyKey (normalized e)) with (IdempotencyKey e). rewrite Hk. run1. rewrite bind_ext, Hcr. run1.
    rewrite bind_run. unfold persistLocked. rewrite bind_ext. cbn [tick set_state set_running set_tick]. rewrite Hcr, Hw1. run1.
    eexists. split_and!; [reflexivity|done|done| |done]. cbn. by rewrite delete_insert_eq. }
  assert (∃ w2, beginOperation kind e w1 = (Done (Proceed false), w2)) as [w2 Hb2].
  { unfold beginOperation. rewrite bind_get, Hc1, Hv. cbn [admitLoop]. rewrite bind_get, Hj1. 
    change (OperationID (normalized e)) with (OperationID e). rewrite lookup_delete_eq.
    apply register_run; [|by rewrite ?Ht1..]. rewrite Hj1. apply not_true_iff_false.
    intros (k & x & Hx & Hne & Hkey)%key_bound_true. apply lookup_delete_Some in Hx as [_ Hx].
    apply not_true_iff_false in Hk. apply Hk, key_bound_true. eauto. }
  assert (Plugins (state w2) = Plugins (state w1)) as Hp2 by (by apply begin_admitted in Hb2 as (_ & _ & _ & ? & _)).
  destruct (stale_run kind loader (normalized e) w2 p) as [w3 Hrun]; [done| |done..|].
  { by rewrite Hp2, Hp1. }
  exists w1, w2, w3. split_and!; [|done|done]. by rewrite (begin_interrupted kind e w je).
Qed.

(** A success whose record did not reach the disk is answered to a retry from
    memory, while the disk still says running: a crash then makes the
    operation run again. *)
Lemma unpersisted_success_is_forgotten kind e r w w' je m d je0 :
  closed w = false → validateOperation kind e = Ok tt →
  entry (OperationID e) w = Some je → journalMatches je kind (normalized e) = true →
  disk w = Some d → Journal d !! OperationID e = Some je0 → j_State je0 = "running" →
  env_write (S (tick w)) = NotWritten m →
  finishOperation (normalized e) (Ok r) w = (Done (Err m), w') →
  beginOperation kind e w' = (Done (Answer (Ok (Some r))), w') ∧
  ∀ w2, NewSupervisor (boot w') = (Done None, w2) →
    ∃ je', entry (OperationID e) w2 = Some je' ∧ j_State je' = "interrupted".
Proof.
  intros Hc Hv He Hm Hd Hd0 Hr Hw Hfin.
  assert (disk w' = disk w) as Hdisk.
  { revert Hfin. unfold finishOperation. rewrite bind_get. run1. run_ext. run1. rewrite bind_run.
    unfold persistLocked. rewrite bind_ext. cbn [tick set_state set_tick]. rewrite Hw.
    destruct (env_crash (S (tick w))); [done|]. run1. by intros [= <-]. }
  apply (finish_entry (normalized e) (Ok r) w je (Err m) w' He) in Hfin as (Hc' & _ & je' & He' & Ht & Hans & Hmatch).
  change (OperationID (normalized e)) with (OperationID e) in *. split.
  - unfold beginOperation. rewrite bind_get, Hc', Hc, Hv.
    rewrite (admit_settled 1 kind (normalized e) false w' je') by done. by rewrite Hmatch, Hm, Hans.
  - intros w2 Hboot. rewrite Hd in Hdisk. apply (NewSupervisor_journal w' d w2 Hdisk) in Hboot as [_ [t Hj]].
    exists (interrupt t je0). unfold entry. rewrite Hj, lookup_fmap, Hd0. split; [done|].
    unfold interrupt. by rewrite Hr.
Qed.

End with_env.

(** ** Witnesses *)

Lemma operation_runs_once_witness :
  @beginOperation (demo_env []) toy_codec "plugin.enable" demo_envelope demo_finish.2
  = (Done (Answer (outcome_of demo_result)), demo_finish.2).
Proof.
  destruct (@operation_runs_once (demo_env []) toy_codec "plugin.enable" false demo_envelope false demo_world
    (demo_begin []).2 demo_result (demo_run []).2 (default (Err "") (answer demo_finish)) demo_finish.2 ∅
    (Up demo_finish.2 ∅)) with demo_finish.2 (∅ : gmap string call) as [_ Hretry];
    [vm_compute; reflexivity..|done|by intros ? ? ?%lookup_empty_Some|apply rtc_refl|done|].
  apply Hretry. vm_compute. reflexivity.
Defined.


Lemma interrupted_operation_replayable_witness :
  ∃ w4, @beginOperation (demo_env [5%nat]) toy_codec "plugin.enable" demo_envelope demo_restart.2 = (Done (Proceed true), w4).
Proof.
  apply (@interrupted_operation_replayable (demo_env [5%nat]) toy_codec "plugin.enable" false demo_envelope false demo_world
    (demo_begin [5%nat]).2 (demo_run [5%nat]).2 demo_restart.2); vm_compute; reflexivity.
Defined.

End SupervisorOnce.
