(* ===== verification/SupervisorProcs.v ===== *)
(** * Plugin supervisor: processes and records

    One plugin is seen through its view: its record, its registered process and
    its live processes.  [spec] is a Hoare logic on views: an operation on a
    plugin leaves the views of all others alone, and its postcondition is about
    the plugin's own view.  With it: a registered process always runs the
    enabled version of its plugin, no process is orphaned while stops succeed,
    revisions only grow, and what each operation leaves behind. *)

From S2P Require Import Prelude GoStrings Json Envelope PluginNames PluginWorld PluginSecrets Supervisor SupervisorRuns SupervisorFrame.
From Stdlib Require Import Ascii String.

Module SupervisorProcs.
Import Envelope PluginNames PluginWorld PluginSecrets Supervisor SupervisorRuns SupervisorFrame.

(** ** Views *)

Record view := mkView {
  v_plugin : option PluginState;
  v_process : option Process;
  v_live : list Process
}.

Definition view_of (id : string) (w : World) : view :=
  mkView (Plugins (state w) !! id) (processes w !! id) (filter (λ q, procPlugin q = id) (live w)).

Definition same_views (w w' : World) : Prop := ∀ id, view_of id w' = view_of id w.

#[export] Instance same_views_quiet : Quiet same_views.
Proof. split; unfold same_views; try done. intros w1 w2 w3 H1 H2 id. by rewrite H2. Qed.

(** [spec id m v Q]: from the view [v] of the plugin [id], [m] leaves other
    views alone and, when it returns, [Q] holds of its result and the new view. *)
Definition spec {A} (id : string) (m : M A) (v : view) (Q : A → view → Prop) : Prop :=
  ∀ w, view_of id w = v →
  match m w with
  | (Done a, w') => (∀ id', id' ≠ id → view_of id' w' = view_of id' w) ∧ Q a (view_of id w')
  | (Crashed, _) => True
  end.

Section with_env.
Context `{Env, Codec}.

Lemma spec_ret {A} id (a : A) v (Q : A → view → Prop) : Q a v → spec id (mret a) v Q.
Proof. intros HQ w <-. done. Qed.

Lemma spec_bind {A B} id (m : M A) (f : A → M B) v Q :
  spec id m v (λ a v', spec id (f a) v' Q) → spec id (m ≫= f) v Q.
Proof.
  intros Hm w Hv. rewrite bind_run. specialize (Hm w Hv). destruct (m w) as [[a|] w']; [|done].
  destruct Hm as [Ho Hf]. specialize (Hf w' eq_refl). destruct (f a w') as [[b|] w'']; [|done].
  destruct Hf as [Ho' HQ]. split; [|done]. intros id' Hne. by rewrite Ho', Ho.
Qed.

Lemma spec_mono {A} id (m : M A) v (Q Q' : A → view → Prop) :
  spec id m v Q → (∀ a v', Q a v' → Q' a v') → spec id m v Q'.
Proof. intros Hm HQ w Hv. specialize (Hm w Hv). destruct (m w) as [[a|] w']; [|done]. naive_solver. Qed.

(** A call that touches neither plugins nor processes. *)
Lemma spec_quiet {A} id (m : M A) v (Q : A → view → Prop) : keeps same_views m → (∀ a, Q a v) → spec id m v Q.
Proof.
  intros Hk HQ w Hv. specialize (Hk w). destruct (m w) as [[a|] w']; [|done]. cbn in Hk. split; [by intros; apply Hk|].
  rewrite Hk, Hv. apply HQ.
Qed.

(** An external call with what is known of its answer. *)
Lemma spec_ext {A} id (f : nat → A) v (Q : A → view → Prop) : (∀ n, Q (f n) v) → spec id (ext f) v Q.
Proof. intros HQ w Hv. unfold ext. destruct (env_crash (tick w)); [done|]. split; [done|]. rewrite <- Hv in HQ. apply HQ. Qed.

Lemma spec_lookup id v (Q : option PluginState → view → Prop) : Q (v_plugin v) v → spec id (lookupPlugin id) v Q.
Proof. intros HQ w <-. done. Qed.

Lemma spec_plugin id v (Q : PluginState → view → Prop) : Q (default zeroPlugin (v_plugin v)) v → spec id (plugin id) v Q.
Proof. intros HQ w <-. done. Qed.

Lemma spec_process id v (Q : option Process → view → Prop) :
  Q (v_process v) v → spec id (get (λ w, processes w !! id)) v Q.
Proof. intros HQ w <-. done. Qed.

Lemma spec_store id s v (Q : unit → view → Prop) :
  Q tt (mkView (Some s) (v_process v) (v_live v)) → spec id (storePlugin id s) v Q.
Proof.
  intros HQ w <-. cbn. split.
  - intros id' Hne. unfold view_of. cbn. by rewrite lookup_insert_ne.
  - unfold view_of in *. cbn in *. by rewrite lookup_insert_eq.
Qed.

Lemma spec_setProcess id p v (Q : unit → view → Prop) :
  Q tt (mkView (v_plugin v) (Some p) (v_live v)) → spec id (setProcessLocked id p) v Q.
Proof.
  intros HQ w <-. cbn. split.
  - intros id' Hne. unfold view_of. cbn. by rewrite lookup_insert_ne.
  - unfold view_of in *. cbn in *. by rewrite lookup_insert_eq.
Qed.

Lemma spec_removeProcess id v (Q : unit → view → Prop) :
  Q tt (mkView (v_plugin v) None (v_live v)) → spec id (removeProcessLocked id) v Q.
Proof.
  intros HQ w <-. cbn. split.
  - intros id' Hne. unfold view_of. cbn. by rewrite lookup_delete_ne.
  - unfold view_of in *. cbn in *. by rewrite lookup_delete_eq.
Qed.

Lemma spec_stop id p v (Q : error → view → Prop) :
  procPlugin p = id →
  Q None (mkView (v_plugin v) (v_process v) (filter (λ q, q ≠ p) (v_live v))) →
  (∀ n e, env_stop n = Some e → Q (Some e) v) → spec id (stop p) v Q.
Proof.
  intros Hp HN HS w <-. unfold stop. rewrite bind_ext. destruct (env_crash (tick w)); [done|].
  rewrite bind_modify. destruct (env_stop (tick w)) as [e|] eqn:Es; cbn.
  - split; [done|]. by apply (HS (tick w)).
  - split.
    + intros id' Hne. unfold view_of. cbn. f_equal. rewrite list_filter_filter. apply filter_ext_in. intros q _.
      split; [tauto|]. intros <-. split; [done|]. intros ->. done.
    + unfold view_of in *. cbn in *. rewrite list_filter_filter. rewrite list_filter_filter in HN.
      erewrite (filter_ext_in _ _ (live w)) in HN; [exact HN|]. intros q _. tauto.
Qed.

Lemma spec_stopProcess id p v (Q : error → view → Prop) :
  match p with
  | None => Q None v
  | Some q => procPlugin q = id ∧ Q None (mkView (v_plugin v) (v_process v) (filter (λ x, x ≠ q) (v_live v))) ∧
              ∀ n e, env_stop n = Some e → Q (Some e) v
  end → spec id (stopProcess p) v Q.
Proof. destruct p; cbn; [|by intros; apply spec_ret]. intros (? & ? & ?). by apply spec_stop. Qed.

Lemma spec_start id ver v (Q : result Process → view → Prop) :
  (∀ p, procPlugin p = id → procVersion p = ver → Q (Ok p) (mkView (v_plugin v) (v_process v) (p :: v_live v))) →
  (∀ e, Q (Err e) v) → spec id (start id ver) v Q.
Proof.
  intros HO HE w <-. unfold start. rewrite bind_ext. destruct (env_crash (tick w)); [done|].
  destruct (env_start (tick w)) as [e|]; [split; [done|apply HE]|].
  rewrite bind_get, bind_modify. split.
  - intros id' Hne. unfold view_of. cbn. by rewrite decide_False by done.
  - unfold view_of. cbn. rewrite decide_True by done. by apply HO.
Qed.

End with_env.

Create HintDb views.
#[export] Hint Resolve same_views_quiet : keeps.

(** Symbolic execution: one bind or call at a time; calls that touch neither
    plugins nor processes are skipped, matches are split. *)
Ltac spec_step :=
  cbv beta iota;
  lazymatch goal with
  | |- context [mergePendingCleanup ?a ?b] => unfold mergePendingCleanup; destruct (p_CleanupPending b) eqn:?
  | |- spec _ (mbind _ _) _ _ => apply spec_bind
  | |- spec _ (mret _) _ _ => apply spec_ret
  | |- spec _ (lookupPlugin _) _ _ => apply spec_lookup; cbn [v_plugin]
  | |- spec _ (plugin _) _ _ => apply spec_plugin; cbn [v_plugin default]
  | |- spec _ (get (λ w, processes w !! _)) _ _ => apply spec_process; cbn [v_process]
  | |- spec _ (storePlugin _ _) _ _ => apply spec_store; cbn [v_plugin v_process v_live]
  | |- spec _ (setProcessLocked _ _) _ _ => apply spec_setProcess; cbn [v_plugin v_process v_live]
  | |- spec _ (removeProcessLocked _) _ _ => apply spec_removeProcess; cbn [v_plugin v_process v_live]
  | |- spec _ (match ?x with _ => _ end) _ _ => destruct x eqn:?
  | |- spec _ _ _ _ => apply spec_quiet; [solve [eauto 3 with keeps]|intros ?]
  end.

(** ** The invariant of a plugin's view *)

(** Stops of processes succeed. *)
Definition stops_work `{Env} : Prop := ∀ n, env_stop n = None.

Definition live_of (p : option Process) : list Process := match p with Some q => [q] | None => [] end.

(** No orphan: what is live is the registered process, unless that has exited
    and its exit is still to be observed. *)
Definition within (L : list Process) (p : option Process) : Prop := L = [] ∨ L = live_of p.

Lemma within_live p : within (live_of p) p.
Proof. by right. Qed.

Lemma within_none L : within L None → L = [].
Proof. by intros [?|?]. Qed.

Record good `{Env} (id : string) (v : view) : Prop := mkGood {
  good_id s : v_plugin v = Some s → p_ID s = id;
  good_observed s : v_plugin v = Some s → p_Enabled s = true → p_ObservedVersion s = p_DesiredVersion s;
  good_process p : v_process v = Some p → procPlugin p = id ∧
    ∃ s, v_plugin v = Some s ∧ p_Enabled s = true ∧ procVersion p = p_DesiredVersion s;
  good_live : stops_work → within (v_live v) (v_process v)
}.

(** What an operation at a revision leaves: a good view, no older desired
    revision, and the record it returned. *)
Record op_post `{Env} (id : string) (revision : Z) (v : view) (r : result RawMessage) (v' : view) : Prop := mkPost {
  post_good : good id v';
  post_revision s : v_plugin v = Some s → p_DesiredRevision s ≤ revision →
    ∃ s', v_plugin v' = Some s' ∧ p_DesiredRevision s ≤ p_DesiredRevision s';
  post_result s' : r = Ok s' → v_plugin v' = Some s'
}.

Lemma maxRevision_spec a b : maxRevision a b = Z.max a b.
Proof. unfold maxRevision. destruct (Z.ltb_spec a b); lia. Qed.

Ltac max_lia := cbn; rewrite ?maxRevision_spec; lia.

Definition marked (s : PluginState) (version e : string) (t : time) : PluginState :=
  s |> with_Enabled false |> with_Health "unhealthy" |> with_CleanupPending true
    |> with_CleanupVersion version |> with_LastError e |> with_UpdatedAt t.

Section specs.
Context `{Env, Codec}.

Lemma spec_markCleanupPending id ver err v (Q : unit → view → Prop) :
  (v_plugin v = None → Q tt v) →
  (∀ s t, v_plugin v = Some s → Q tt (mkView (Some (marked s ver (text err) t)) None (v_live v))) →
  spec id (markCleanupPending id ver err) v Q.
Proof.
  intros HN HS. unfold markCleanupPending. do 2 spec_step. destruct (v_plugin v) as [s|] eqn:E.
  - repeat spec_step. by apply HS.
  - spec_step. by apply HN.
Qed.

Lemma spec_startVersion id ver v (Q : result Process → view → Prop) :
  (∀ p, procPlugin p = id → procVersion p = ver → Q (Ok p) (mkView (v_plugin v) (v_process v) (p :: v_live v))) →
  (∀ e L, (stops_work → v_live v = [] → L = []) → Q (Err e) (mkView (v_plugin v) (v_process v) L)) →
  (∀ e L s x t, (stops_work → v_live v = [] → L = []) → v_plugin v = Some s → Q (Err e) (mkView (Some (marked s ver x t)) None L)) →
  spec id (startVersion id ver) v Q.
Proof.
  intros HO HE HM. assert (∀ e, Q (Err e) v) as HE'.
  { intros e. destruct v. by apply HE. }
  unfold startVersion. do 3 spec_step; [|by spec_step].
  do 4 (spec_step; [by spec_step|]). do 2 spec_step; [spec_step; spec_step; [by spec_step|]|spec_step].
  all: spec_step; apply spec_start; [|by intros; spec_step].
  all: intros p Hp Hv; cbn [v_plugin v_process v_live].
  all: do 3 spec_step; [|spec_step; by apply HO].
  all: spec_step; apply spec_stopProcess; split; [done|]; cbn [v_plugin v_process v_live]; split;
    [|intros n x Hx]; do 4 spec_step.
  all: try (apply spec_markCleanupPending; cbn [v_plugin v_process v_live]; [intros Hnone|intros s1 t1 Hs]).
  all: repeat spec_step.
  all: try (apply HM; [|done]; intros Hst Hl).
  all: try (apply HE; intros Hst Hl).
  all: try (specialize (Hst n); congruence).
  all: try (rewrite Hl, filter_cons, decide_False by tauto; done).
Qed.

(** Stopping the process that was registered, whatever is done to the list of
    live ones when a stop fails. *)

Lemma spec_stop_live id p v (Q : error → view → Prop) :
  (∀ q, p = Some q → procPlugin q = id) →
  (∀ e L, (stops_work → within (v_live v) p → L = []) → Q e (mkView (v_plugin v) (v_process v) L)) →
  spec id (stopProcess p) v Q.
Proof.
  intros Hp HQ. apply spec_stopProcess. destruct v as [os op L]. destruct p as [q|]; cbn in *.
  - split_and!; [by apply Hp|apply HQ|intros n e He; apply HQ].
    + intros _ [-> | ->]; cbn [live_of]; [done|]. by rewrite filter_cons, decide_False by tauto.
    + intros Hst. specialize (Hst n). congruence.
  - apply HQ. intros _ [? | ?]; done.
Qed.

Lemma spec_stopAndCleanup id m ver p v (Q : bool * error → view → Prop) :
  (∀ q, p = Some q → procPlugin q = id) →
  (∀ r L, (stops_work → within (v_live v) p → L = []) → Q r (mkView (v_plugin v) (v_process v) L)) →
  spec id (stopAndCleanupInstalledVersion m id ver p) v Q.
Proof.
  intros Hp HQ. unfold stopAndCleanupInstalledVersion. spec_step. apply spec_stop_live; [done|].
  intros e L HL. repeat spec_step. by apply HQ.
Qed.

Definition transition_failed (original : PluginState) (revision : Z) (e cleanupVersion : string) (t : time) : PluginState :=
  let s := original |> with_Enabled false |> with_Health "unhealthy" in
  let s := if String.eqb cleanupVersion "" then s
           else s |> with_CleanupPending true |> with_CleanupVersion cleanupVersion in
  s |> with_DesiredRevision (maxRevision (p_DesiredRevision s) revision) |> with_LastError e |> with_UpdatedAt t.

Lemma spec_recordTransitionFailure original revision err cv v (Q : unit → view → Prop) :
  (∀ t, Q tt (mkView (Some (transition_failed original revision (text err) cv t)) None (v_live v))) →
  spec (p_ID original) (recordTransitionFailure original revision err cv) v Q.
Proof.
  intros HQ. unfold recordTransitionFailure. do 3 spec_step.
  specialize (HQ a). unfold transition_failed in HQ. destruct (String.eqb cv ""); repeat spec_step; exact HQ.
Qed.

Definition rollback_blocked (original current : PluginState) (revision : Z) (e : string) (t : time) : PluginState :=
  let s := mergePendingCleanup original current |> with_Enabled false |> with_Health "unhealthy" in
  s |> with_DesiredRevision (maxRevision (p_DesiredRevision s) revision) |> with_LastError e |> with_UpdatedAt t.

Lemma spec_recordBlocked original revision err v (Q : unit → view → Prop) :
  (∀ t, Q tt (mkView (Some (rollback_blocked original (default zeroPlugin (v_plugin v)) revision (text err) t)) None (v_live v))) →
  spec (p_ID original) (recordUpdateRollbackBlocked original revision err) v Q.
Proof.
  intros HQ. unfold recordUpdateRollbackBlocked. unfold rollback_blocked, mergePendingCleanup in HQ.
  repeat spec_step; apply HQ.
Qed.

Lemma spec_recordStopFailure original err v (Q : unit → view → Prop) :
  (∀ t, Q tt (mkView (Some (original |> with_Enabled false |> with_Health "unhealthy" |> with_LastError (text err)
                                     |> with_UpdatedAt t)) None (v_live v))) →
  spec (p_ID original) (recordConfigureStopFailure original err) v Q.
Proof. intros HQ. unfold recordConfigureStopFailure. repeat spec_step. apply HQ. Qed.

Lemma spec_recordPluginError id h err v (Q : unit → view → Prop) :
  (v_plugin v = None → Q tt v) →
  (∀ s t, v_plugin v = Some s →
     Q tt (mkView (Some (s |> with_Health h |> with_LastError (text err) |> with_UpdatedAt t)) (v_process v) (v_live v))) →
  spec id (recordPluginError id h err) v Q.
Proof.
  intros HN HS. unfold recordPluginError. do 2 spec_step. destruct (v_plugin v) as [s|] eqn:E.
  - repeat spec_step. by apply HS.
  - spec_step. by apply HN.
Qed.

(** The recovery of a pending cleanup only changes the record's cleanup,
    health, error and time. *)
Definition recovered (s : PluginState) (pending : bool) (cv h e : string) (t : time) : PluginState :=
  s |> with_UpdatedAt t |> with_CleanupPending pending |> with_CleanupVersion cv |> with_Health h |> with_LastError e.

Lemma Join_failed a b : failed b = true → ∃ e, Join [a; b] = Some e.
Proof. unfold failed. rewrite bool_decide_eq_true. intros [x ->]. destruct a; cbn; eauto. Qed.

Lemma Join_ok a b : failed b = false → Join [a; b] = a.
Proof. unfold failed. rewrite bool_decide_eq_false. destruct b; [naive_solver|]. by destruct a. Qed.

Ltac finish_recover HE HS :=
  match goal with
  | Hf : failed ?p = true |- _ (Join [?o; ?p]) _ => destruct (Join_failed o p Hf) as [x ->]; apply HE
  | Hf : failed ?p = false |- _ (Join [?o; ?p]) _ =>
    rewrite (Join_ok o p Hf); destruct o; [by eapply (HS (Some _))|by eapply (HS None)]
  end.

Lemma spec_recover id v (Q : error → view → Prop) :
  ((∀ s, v_plugin v = Some s → p_CleanupPending s = false) → Q None v) → (∀ e, Q (Some e) v) →
  (∀ r s pending cv h e t, v_plugin v = Some s → (r = None → pending = false) →
     Q r (mkView (Some (recovered s pending cv h e t)) (v_process v) (v_live v))) →
  spec id (recoverPluginCleanupContext id) v Q.
Proof.
  intros HN HE HS. unfold recoverPluginCleanupContext. do 2 spec_step. destruct v as [[s|] op L]; cbn [v_plugin]; [|spec_step; by apply HN].
  destruct (p_CleanupPending s) eqn:Ecp; cbn [negb]; [|spec_step; apply HN; by intros ? [= <-]].
  repeat spec_step; cbn [v_plugin default]. all: finish_recover HE HS.
Qed.

Lemma good_idle id s L :
  p_ID s = id → (p_Enabled s = true → p_ObservedVersion s = p_DesiredVersion s) → (stops_work → L = []) →
  good id (mkView (Some s) None L).
Proof. intros H1 H2 H3. split; cbn; [by intros ? [= <-]|by intros ? [= <-]|done|intros Hst; left; by apply H3]. Qed.

Lemma good_on id s p L :
  p_ID s = id → p_Enabled s = true → p_ObservedVersion s = p_DesiredVersion s → procPlugin p = id →
  procVersion p = p_DesiredVersion s → (stops_work → L = [p]) → good id (mkView (Some s) (Some p) L).
Proof.
  intros H1 H2 H3 H4 H5 H6. split; cbn; [by intros ? [= <-]|by intros ? [= <-]| |intros Hst; right; by apply H6].
  intros ? [= <-]. split; [done|]. by exists s.
Qed.

Lemma good_keep id s s' op L :
  good id (mkView (Some s) op L) → p_ID s' = p_ID s → p_Enabled s' = p_Enabled s →
  p_DesiredVersion s' = p_DesiredVersion s → p_ObservedVersion s' = p_ObservedVersion s →
  good id (mkView (Some s') op L).
Proof.
  intros [H1 H2 H3 H4] E1 E2 E3 E4. cbn in *. split; cbn.
  - intros ? [= <-]. rewrite E1. by apply H1.
  - intros ? [= <-]. rewrite E2, E3, E4. by apply H2.
  - intros p Hp. destruct (H3 p Hp) as (? & s0 & [= <-] & ? & ?). split; [done|]. exists s'. by rewrite E2, E3.
  - done.
Qed.

Lemma good_transition o r e c t L : (stops_work → L = []) → good (p_ID o) (mkView (Some (transition_failed o r e c t)) None L).
Proof. intros HL. unfold transition_failed. destruct (String.eqb c ""); by apply good_idle. Qed.

Lemma good_blocked o c r e t L : (stops_work → L = []) → good (p_ID o) (mkView (Some (rollback_blocked o c r e t)) None L).
Proof. intros HL. unfold rollback_blocked, mergePendingCleanup. destruct (p_CleanupPending c); by apply good_idle. Qed.

(** Closing a postcondition: the record is one whose fields are known. *)
Ltac post_tac :=
  split; cbn [v_plugin v_process v_live];
  [ | intros ? [= <-] ?; eexists; (split; [reflexivity|max_lia])
  | intros ? ?; repeat case_match; by simplify_eq ].

(** The same when the operation started from the record in an earlier view. *)
Ltac post_from Hv0 :=
  split; cbn;
  [ | let Hs := fresh in intros ? Hs ?; rewrite Hv0 in Hs; simplify_eq; eexists; (split; [reflexivity|]);
      unfold rollback_blocked, mergePendingCleanup; repeat case_match; max_lia
  | intros ? ?; repeat case_match; by simplify_eq ].

Lemma post_refl_err id revision v e : good id v → op_post id revision v (Err e) v.
Proof. intros Hg. split; [done| |done]. intros s Hs _. exists s. split; [done|lia]. Qed.

(** The rollback of a configuration, after the process was stopped. *)
Lemma spec_rollbackConfiguration original revision path old err s0 L0 (Q : error → view → Prop) :
  p_Enabled original = true → p_ObservedVersion original = p_DesiredVersion original →
  (∀ e s p L, good (p_ID original) (mkView (Some s) p L) → p_DesiredRevision s = Z.max (p_DesiredRevision original) revision →
     Q e (mkView (Some s) p L)) →
  (stops_work → L0 = []) →
  spec (p_ID original) (rollbackConfiguration original revision path old err) (mkView s0 None L0) Q.
Proof.
  intros Hen Hobs HQ HL. unfold rollbackConfiguration. do 3 spec_step.
  all: spec_step.
  all: try (apply spec_bind, spec_startVersion; cbn [v_plugin v_process v_live];
            [intros p Hp Hv|intros e L HL'|intros e L sm x t HL' Hsm]).
  all: repeat spec_step.
  all: apply HQ; [|max_lia].
  all: try (apply good_idle; [done|done|naive_solver]).
  all: apply good_on; cbn; try done; intros Hst; by rewrite HL.
Qed.

Ltac stopped_tac := solve [eauto 3 | naive_solver].

Lemma configureEnabled_post e original process path L0 :
  good (p_ID original) (mkView (Some original) process L0) → p_Enabled original = true →
  spec (p_ID original) (configureEnabled e original process path) (mkView (Some original) process L0)
    (op_post (p_ID original) (Revision e) (mkView (Some original) process L0)).
Proof.
  intros Hg Hen. pose proof (good_observed _ _ Hg original eq_refl Hen) as Hobs.
  pose proof (good_live _ _ Hg) as Hlive. cbn in Hlive.
  assert (∀ q, process = Some q → procPlugin q = p_ID original) as Hproc by (intros q Hq; apply (good_process _ _ Hg q Hq)).
  assert (∀ x e' s0 L0', (stops_work → L0' = []) → spec (p_ID original)
    (rb ← rollbackConfiguration original (Revision e) path x e'; mret (Err (text rb) : result RawMessage))
    (mkView s0 None L0') (op_post (p_ID original) (Revision e) (mkView (Some original) process L0))) as Hrb.
  { intros x e' s0 L0' HL. apply spec_bind, spec_rollbackConfiguration; [done..| |done].
    intros er s p L Hs Hr. spec_step. split; cbn; [done| |done]. intros ? [= <-] _. exists s. split; [done|lia]. }
  unfold configureEnabled. do 3 spec_step; [|spec_step; apply spec_recordPluginError; [done|]; intros s t [= <-]; spec_step; post_tac; by eapply good_keep].
  do 5 spec_step.
  2: { spec_step. apply spec_stop_live; [done|]. intros er L HL. cbn [v_plugin v_process v_live] in *.
       spec_step. apply spec_recordTransitionFailure. intros t. spec_step. post_tac.
       apply good_transition. naive_solver. }
  spec_step. apply spec_stopAndCleanup; [done|]. intros [cp er] L HL. cbn [v_plugin v_process v_live] in *.
  assert (stops_work → L = []) as HL' by naive_solver.
  destruct er as [er|].
  { spec_step. apply spec_recordTransitionFailure. intros t. spec_step. post_tac.
    by apply good_transition. }
  do 3 spec_step; [by apply Hrb|]. do 3 spec_step; [by apply Hrb|].
  spec_step. apply spec_startVersion; cbn [v_plugin v_process v_live].
  - intros p Hp Hv. repeat spec_step.
    + apply spec_stop_live; [by intros ? [= <-]|]. cbn [v_plugin v_process v_live]. intros er' L1 HL1. apply Hrb.
      intros Hst. apply HL1; [done|]. rewrite HL' by done; by right.
    + post_tac. apply good_on; cbn; try done. intros Hst. by rewrite HL'.
  - intros er' L1 HL1. apply Hrb. naive_solver.
  - intros er' L1 sm x t HL1 [= <-]. apply Hrb. naive_solver.
Qed.

(** The view of a plugin found in the map. *)
Ltac view_cases v Hg He :=
  destruct v as [[s|] op L]; cbn [v_plugin] in *;
  [pose proof (good_id _ _ Hg s eq_refl) as Hid; cbn in Hid; try rewrite He in *; clear He; subst|].

Lemma post_none id rev op L e : good id (mkView None op L) → op_post id rev (mkView None op L) (Err e) (mkView None op L).
Proof. intros. by apply post_refl_err. Qed.

Lemma configure_post e id v : PluginID e = id → good id v → spec id (configure e) v (op_post id (Revision e) v).
Proof.
  intros He Hg. unfold configure. rewrite He. spec_step; [spec_step; by apply post_refl_err|]. do 2 spec_step.
  view_cases v Hg He; [|spec_step; by apply post_refl_err].
  do 2 (spec_step; [spec_step; by apply post_refl_err|]). do 2 spec_step. destruct (p_Enabled s) eqn:Hen; cbn [negb].
  - by apply configureEnabled_post.
  - do 3 spec_step; [spec_step; by apply post_refl_err|]. repeat spec_step. post_tac. by eapply good_keep.
Qed.

Lemma enableStart_post e s L v0 :
  (p_Enabled s = true → p_ObservedVersion s = p_DesiredVersion s) → (stops_work → L = []) →
  v_plugin v0 = Some s →
  spec (p_ID s) (enableStart e s) (mkView (Some s) None L) (op_post (p_ID s) (Revision e) v0).
Proof.
  intros Hobs HL Hv0. unfold enableStart. spec_step. apply spec_startVersion; cbn [v_plugin v_process v_live].
  - intros p Hp Hv. repeat spec_step.
    + apply spec_stop_live; [by intros ? [= <-]|]. cbn [v_plugin v_process v_live]. intros er L1 HL1. spec_step.
      post_from Hv0.
      apply good_idle; [done|done|]. intros Hst. apply HL1; [done|]. right. by rewrite HL.
    + post_from Hv0.
      apply good_on; cbn; try done. intros Hst. by rewrite HL.
  - intros er L1 HL1. spec_step. apply spec_recordPluginError; [done|]. intros s1 t [= <-]. spec_step.
    post_from Hv0.
    apply good_idle; [done|done|naive_solver].
  - intros er L1 s1 x t HL1 [= <-]. spec_step. apply spec_recordPluginError; [done|]. intros s1 t1 [= <-]. spec_step.
    post_from Hv0.
    apply good_idle; [done|done|naive_solver].
Qed.

Lemma enable_post e id v : PluginID e = id → good id v → spec id (enable e) v (op_post id (Revision e) v).
Proof.
  intros He Hg. unfold enable. rewrite He. do 2 spec_step.
  view_cases v Hg He; [|spec_step; by apply post_refl_err].
  do 2 (spec_step; [spec_step; by apply post_refl_err|]). do 2 spec_step.
  pose proof (good_observed _ _ Hg s eq_refl) as Hobs. pose proof (good_live _ _ Hg) as Hlive. cbn in Hlive.
  destruct op as [p|]; [|apply enableStart_post; try done; intros Hst; by apply within_none, Hlive].
  destruct (good_process _ _ Hg p eq_refl) as (Hp & s0 & [= <-] & Hen & Hver).
  rewrite Hen, (Hobs Hen), String.eqb_refl. cbn [andb]. do 3 spec_step.
  2: { repeat spec_step. split; cbn; [by eapply good_keep|intros ? [= <-] ?; eexists; split; [done|max_lia]|].
       intros ? ?. case_match; by simplify_eq/=. }
  do 5 spec_step.
  2: { spec_step. apply spec_stop_live; [by intros ? [= <-]|]. intros er L1 HL1. cbn [v_plugin v_process v_live] in *.
       spec_step. apply spec_recordTransitionFailure. intros t. spec_step. post_tac. apply good_transition. naive_solver. }
  spec_step. apply spec_stopAndCleanup; [by intros ? [= <-]|]. intros [cp er] L1 HL1. cbn [v_plugin v_process v_live] in *.
  assert (stops_work → L1 = []) as HL' by naive_solver. destruct er as [er|].
  { spec_step. apply spec_recordTransitionFailure. intros t. spec_step. post_tac. by apply good_transition. }
  do 3 spec_step; [|by apply enableStart_post].
  spec_step. apply spec_recordStopFailure. intros t. spec_step. post_tac. by apply good_idle.
Qed.

Lemma disable_post e id v : PluginID e = id → good id v → spec id (disable e) v (op_post id (Revision e) v).
Proof.
  intros He Hg. unfold disable. rewrite He. do 2 spec_step.
  view_cases v Hg He; [|spec_step; by apply post_refl_err].
  spec_step; [spec_step; by apply post_refl_err|].
  pose proof (good_live _ _ Hg) as Hlive. cbn [v_live v_process] in Hlive.
  assert (∀ q, op = Some q → procPlugin q = p_ID s) as Hproc by (intros q Hq; apply (good_process _ _ Hg q Hq)).
  do 6 spec_step. spec_step. apply spec_stop_live; [done|]. intros er L1 HL1. cbn [v_plugin v_process v_live] in *.
  assert (stops_work → L1 = []) as HL' by naive_solver.
  spec_step. apply spec_quiet; [repeat case_match; eauto 3 with keeps|]. intros cerr.
  do 6 spec_step. cbn [v_plugin default]. spec_step.
  match goal with |- spec _ (storePlugin _ ?x) _ _ => set (s1 := x) end.
  assert (p_ID s1 = p_ID s ∧ p_Enabled s1 = false ∧ p_DesiredRevision s1 = Z.max (p_DesiredRevision s) (Revision e)) as (H1 & H2 & H3).
  { unfold s1. clear. repeat case_match; cbn; rewrite ?maxRevision_spec; done. }
  clearbody s1. repeat spec_step. split; cbn.
  - apply good_idle; [done|congruence|done].
  - intros ? [= <-] ?. exists s1. split; [done|lia].
  - intros ? ?. repeat case_match; by simplify_eq.
Qed.

Definition restores (f : error → M error) : Prop := ∀ x, keeps same_views (f x).

Lemma updateDisabled_post e o m f L :
  restores f → p_Enabled o = false → (stops_work → L = []) →
  spec (p_ID o) (updateDisabled e o m f) (mkView (Some o) None L) (op_post (p_ID o) (Revision e) (mkView (Some o) None L)).
Proof.
  intros Hf Hen HL. unfold updateDisabled. do 3 spec_step.
  - spec_step. apply spec_quiet; [apply Hf|]. intros te. spec_step. apply spec_recordTransitionFailure. intros t. spec_step.
    post_tac. by apply good_transition.
  - do 6 spec_step. spec_step.
    + spec_step. spec_step. spec_step. apply spec_quiet; [apply Hf|]. intros te. spec_step. post_tac. by apply good_idle; [|congruence|].
    + spec_step. post_tac. apply good_idle; cbn; [done|congruence|done].
Qed.

Lemma updateStartFailed_post e o path old x so L v0 :
  p_ObservedVersion o = p_DesiredVersion o → v_plugin v0 = Some o → (stops_work → L = []) →
  (∀ s, so = Some s → p_ID s = p_ID o) →
  spec (p_ID o) (updateStartFailed e o path old x) (mkView so None L) (op_post (p_ID o) (Revision e) v0).
Proof.
  intros Hobs Hv0 HL Hso. unfold updateStartFailed. do 3 spec_step.
  - spec_step. apply spec_recover; cbn [v_plugin v_process v_live].
    all: intros; repeat (spec_step; try apply spec_recordBlocked; intros).
    all: post_from Hv0; by apply good_blocked.
  - do 3 spec_step. apply spec_startVersion; cbn [v_plugin v_process v_live].
    all: intros; repeat spec_step; try done.
    all: post_from Hv0.
    all: try (apply good_idle; cbn; [done|done|naive_solver]).
    all: apply good_on; cbn; try done; intros Hst; by rewrite HL.
Qed.

Lemma updatePersistFailed_post e o m p path old x L v0 :
  p_ObservedVersion o = p_DesiredVersion o → p_Enabled o = true → v_plugin v0 = Some o → procPlugin p = p_ID o →
  (stops_work → within L (Some p)) →
  spec (p_ID o) (updatePersistFailed e o m p path old x) (mkView (Some o) None L) (op_post (p_ID o) (Revision e) v0).
Proof.
  intros Hobs Hen Hv0 Hp HL. unfold updatePersistFailed. spec_step. apply spec_stopAndCleanup; [by intros ? [= <-]|].
  intros [cp er] L1 HL1. cbn [v_plugin v_process v_live] in *. assert (stops_work → L1 = []) as HL' by naive_solver.
  assert (∀ so L', (stops_work → L' = []) → ∀ er' rec,
    spec (p_ID o) (recordUpdateRollbackBlocked o (Revision e) er') (mkView so None L')
      (λ _ v', spec (p_ID o) (mret (Err rec)) v' (op_post (p_ID o) (Revision e) v0))) as Hblocked.
  { intros so L' HL2 er' rec. apply spec_recordBlocked. intros t. spec_step. post_from Hv0. by apply good_blocked. }
  destruct (failed er) eqn:Hfail; cbn [andb].
  - spec_step. destruct cp.
    + spec_step. apply spec_markCleanupPending; [done|]. intros s t [= <-]. apply spec_recover; cbn [v_plugin v_process v_live].
      * intros _. do 3 spec_step. by apply Hblocked.
      * intros ?. do 3 spec_step. by apply Hblocked.
      * intros r s pend cv h ee t' [= <-] _. do 3 spec_step. by apply Hblocked.
    + do 4 spec_step. by apply Hblocked.
  - do 4 spec_step. spec_step. apply spec_startVersion; cbn [v_plugin v_process v_live].
    + intros p1 Hp1 Hv1. do 2 spec_step. cbn [v_plugin default]. destruct cp; repeat spec_step.
      all: post_from Hv0.
      all: apply good_on; cbn; try done; intros Hst; by rewrite HL'.
    + intros ee L2 HL2. do 2 spec_step. cbn [v_plugin default]. destruct cp; repeat spec_step.
      all: post_from Hv0.
      all: apply good_idle; cbn; [done|done|naive_solver].
    + intros ee L2 s x' t HL2 [= <-]. do 2 spec_step. cbn [v_plugin default]. destruct cp; repeat spec_step.
      all: post_from Hv0.
      all: apply good_idle; cbn; [done|done|naive_solver].
Qed.

Lemma updateStopped_post e o err tm cm path old L v0 :
  p_Enabled o = true → p_ObservedVersion o = p_DesiredVersion o → v_plugin v0 = Some o → (stops_work → L = []) →
  spec (p_ID o) (updateStopped e o err tm cm path old) (mkView (Some o) None L) (op_post (p_ID o) (Revision e) v0).
Proof.
  intros Hen Hobs Hv0 HL. unfold updateStopped. do 3 spec_step.
  - do 5 spec_step. apply spec_recordTransitionFailure. intros t. spec_step. post_from Hv0; by apply good_transition.
  - do 3 spec_step.
    + do 5 spec_step. apply spec_recordStopFailure. intros t. spec_step. post_from Hv0. by apply good_idle.
    + spec_step. apply spec_startVersion; cbn [v_plugin v_process v_live].
      * intros p Hp Hv. do 9 spec_step.
        -- repeat spec_step. apply updatePersistFailed_post; try done. intros Hst. right. by rewrite HL.
        -- spec_step. post_from Hv0. apply good_on; cbn; try done. intros Hst. by rewrite HL.
      * intros x L2 HL2. apply updateStartFailed_post; try done; [naive_solver|by intros ? [= <-]].
      * intros x L2 s y t HL2 [= <-]. apply updateStartFailed_post; try done; [naive_solver|by intros ? [= <-]].
Qed.

Lemma updateEnabled_post e o op tm cm path old L :
  good (p_ID o) (mkView (Some o) op L) → p_Enabled o = true →
  spec (p_ID o) (updateEnabled e o op tm cm path old) (mkView (Some o) op L)
    (op_post (p_ID o) (Revision e) (mkView (Some o) op L)).
Proof.
  intros Hg Hen. pose proof (good_observed _ _ Hg o eq_refl Hen) as Hobs. cbn in Hobs.
  pose proof (good_live _ _ Hg) as Hlive. cbn [v_live v_process] in Hlive.
  unfold updateEnabled. spec_step. destruct op as [p|].
  - do 2 spec_step. apply spec_stop.
    + by apply (good_process _ _ Hg p).
    + apply updateStopped_post; try done. intros Hst. cbn. destruct (Hlive Hst) as [-> | ->]; [done|]. cbn [live_of]. by rewrite filter_cons, decide_False by tauto.
    + intros n x Hx. apply updateStopped_post; try done. intros Hst. specialize (Hst n). congruence.
  - spec_step. apply updateStopped_post; try done. intros Hst. by apply within_none, Hlive.
Qed.

Lemma updateVersion_post e o op L :
  good (p_ID o) (mkView (Some o) op L) →
  spec (p_ID o) (updateVersion e o) (mkView (Some o) op L) (op_post (p_ID o) (Revision e) (mkView (Some o) op L)).
Proof.
  intros Hg. unfold updateVersion. do 2 spec_step.
  do 2 (do 3 spec_step; [|spec_step; by apply post_refl_err]).
  do 3 spec_step; [|spec_step; by apply post_refl_err]. do 3 spec_step; [spec_step; by apply post_refl_err|].
  destruct (p_Enabled o) eqn:Hen; cbn [negb]; [by apply updateEnabled_post|].
  destruct op as [p|]; [by destruct (good_process _ _ Hg p eq_refl) as (_ & s0 & [= <-] & ? & _); congruence|].
  apply updateDisabled_post; [|done|intros Hst; apply within_none, (good_live _ _ Hg Hst)].
  intros x. apply keeps_bind; [apply _|eauto with keeps|]. intros ?. eauto with keeps.
Qed.

Lemma update_post e id v : PluginID e = id → good id v → spec id (update e) v (op_post id (Revision e) v).
Proof.
  intros He Hg. unfold update. rewrite He. spec_step; [spec_step; by apply post_refl_err|]. do 2 spec_step.
  destruct v as [[s|] op L]; cbn [v_plugin]; [|spec_step; by apply post_refl_err].
  pose proof (good_id _ _ Hg s eq_refl) as Hid. cbn in Hid.
  spec_step; [|rewrite <- Hid in *; by apply updateVersion_post].
  spec_step. apply spec_quiet.
  { case_match; [|eauto with keeps]. apply keeps_bind; [apply _|eauto with keeps|]. intros ?. eauto with keeps. }
  intros [[|]|]; [|by apply configure_post|spec_step; by apply post_refl_err].
  destruct (p_Enabled s) eqn:Hen; cbn [negb]; [by apply enable_post|]. clear He. subst id.
  repeat spec_step. post_tac. by eapply good_keep.
Qed.

Lemma rollback_post e id v : PluginID e = id → good id v → spec id (rollback e) v (op_post id (Revision e) v).
Proof.
  intros He Hg. unfold rollback. rewrite He. do 2 spec_step. destruct (v_plugin v) as [s|]; [|spec_step; by apply post_refl_err].
  do 2 (spec_step; [spec_step; by apply post_refl_err|]). by apply update_post.
Qed.

Lemma inspect_post id rev v : good id v → spec id (inspect id) v (op_post id rev v).
Proof.
  intros Hg. unfold inspect. repeat spec_step. split; [done| |].
  - intros s Hs _. exists s. split; [done|lia].
  - intros s. by destruct (v_plugin v); intros [= <-].
Qed.

Lemma healthCheck_post e id rev v : PluginID e = id → good id v → spec id (healthCheck e) v (op_post id rev v).
Proof.
  intros He Hg. unfold healthCheck. rewrite He. do 2 spec_step.
  destruct v as [[s|] op L]; cbn [v_plugin]; [|spec_step; by apply post_refl_err].
  spec_step; [by apply inspect_post|]. repeat spec_step; post_tac; by eapply good_keep.
Qed.

Lemma spec_forget id v (Q : unit → view → Prop) :
  Q tt (mkView None (v_process v) (v_live v)) →
  spec id (modify (λ w, set_state (mkState (delete id (Plugins (state w))) (Journal (state w))) w)) v Q.
Proof.
  intros HQ w <-. cbn. split.
  - intros id' Hne. unfold view_of. cbn. by rewrite lookup_delete_ne.
  - unfold view_of in *. cbn in *. by rewrite lookup_delete_eq.
Qed.

Lemma installPrepared_post m rev id v :
  m_ID m = id → id ≠ "" → good id v → spec id (installPrepared m rev) v (op_post id rev v).
Proof.
  intros He Hne Hg. unfold installPrepared. rewrite He. do 3 spec_step; [spec_step; by apply post_refl_err|]. do 5 spec_step.
  match goal with |- spec _ (storePlugin _ ?x) _ _ => set (s1 := x) end.
  destruct v as [[s|] op L]; cbn [v_plugin v_process v_live default from_option] in *.
  - pose proof (good_id _ _ Hg s eq_refl) as Hid. cbn in Hid.
    assert (p_ID s1 = p_ID s ∧ p_Enabled s1 = p_Enabled s ∧ p_DesiredVersion s1 = p_DesiredVersion s ∧
      p_ObservedVersion s1 = p_ObservedVersion s ∧ p_DesiredRevision s ≤ p_DesiredRevision s1) as (H1 & H2 & H3 & H4 & H5).
    { assert (String.eqb (p_ID s) "" = false) as E by (apply String.eqb_neq; congruence). unfold s1. cbn. rewrite E.
      destruct (0 <? rev); cbn; rewrite ?maxRevision_spec; (split_and!; [done..|lia]). }
    clearbody s1. repeat spec_step; [by apply post_refl_err|]. split; cbn.
    + by apply (good_keep _ s).
    + intros ? [= <-] _. exists s1. done.
    + by intros ? [= <-].
  - assert (op = None) as ->.
    { destruct op as [p|]; [|done]. by destruct (good_process _ _ Hg p eq_refl) as (_ & ? & ? & _). }
    assert (p_ID s1 = id ∧ p_Enabled s1 = false) as [H1 H2] by (unfold s1; cbn; destruct (0 <? rev); done).
    clearbody s1. do 4 spec_step.
    + spec_step. apply spec_forget. spec_step. by apply post_refl_err.
    + spec_step. split; cbn; [|done|by intros ? [= <-]]. apply good_idle; [done|congruence|intros Hst; apply within_none, (good_live _ _ Hg Hst)].
Qed.

(** ** Whole operations *)

(** The revisions for which an operation of a kind needs to be no older than
    the plugin's: any, when it only reads. *)
Definition covers (kind : string) (e : OperationEnvelope) (rev : Z) : Prop :=
  operationMutatesState kind = true → rev = Revision e.

Lemma executePrepared_post k e id rev v :
  PluginID e = id → covers k e rev → good id v → spec id (executePreparedOperation k e) v (op_post id rev v).
Proof.
  intros He Hc Hg. unfold executePreparedOperation. rewrite He.
  do 7 (case_match; [first [by apply inspect_post|by apply healthCheck_post|
    rewrite Hc by (repeat match goal with E : String.eqb k _ = true |- _ => apply String.eqb_eq in E as -> end; done);
    first [by apply configure_post|by apply enable_post|by apply disable_post|by apply update_post|by apply rollback_post]]|]).
  spec_step. by apply post_refl_err.
Qed.

Lemma post_err id rev v0 r v e : op_post id rev v0 r v → op_post id rev v0 (Err e) v.
Proof. intros [H1 H2 _]. by split. Qed.

Lemma executeMaterialized_post k e b id rev v :
  PluginID e = id → covers k e rev → good id v → spec id (executeMaterialized k e b) v (op_post id rev v).
Proof.
  intros He Hc Hg. unfold executeMaterialized. do 3 spec_step; [|spec_step; by apply post_refl_err].
  do 3 spec_step; [do 3 spec_step; by apply post_refl_err|]. cbv zeta.
  assert (∀ undo, keeps same_views undo → spec id
    (r ← executePreparedOperation k (with_config e (runtimeConfig a0));
     match r with
     | Err x => undone ← undo; rb ← rollbackSecrets a0; mret (Err (text (Join (Some x :: undone ++ [rb]))))
     | Ok result => commitErr ← commit a0; mret (match commitErr with Some e => Err e | None => Ok result end)
     end) v (op_post id rev v)) as Hrun.
  { intros undo Hu. spec_step. eapply spec_mono; [by apply executePrepared_post|]. intros r v' Hpost. destruct r as [x|x].
    - do 3 spec_step. case_match; [by eapply post_err|done].
    - spec_step. apply spec_quiet; [done|]. intros u. do 3 spec_step. by eapply post_err. }
  destruct b; [|apply Hrun; eauto with keeps].
  do 3 spec_step; [|do 3 spec_step; by apply post_refl_err]. do 3 spec_step; [do 3 spec_step; by apply post_refl_err|].
  apply Hrun. apply keeps_bind; [apply _|eauto with keeps|]. intros ?. eauto with keeps.
Qed.

(** What an operation leaves: as [op_post], and the desired revision never goes
    back. *)
Record run_post `{Env} (id : string) (v : view) (r : result RawMessage) (v' : view) : Prop := mkRunPost {
  run_good : good id v';
  run_revision s : v_plugin v = Some s → ∃ s', v_plugin v' = Some s' ∧ p_DesiredRevision s ≤ p_DesiredRevision s';
  run_result s' : r = Ok s' → v_plugin v' = Some s'
}.

Lemma run_post_of id rev v r v' :
  (∀ s, v_plugin v = Some s → p_DesiredRevision s ≤ rev) → op_post id rev v r v' → run_post id v r v'.
Proof. intros Hrev [H1 H2 H3]. split; [done| |done]. eauto. Qed.

Lemma run_refl_err id v e : good id v → run_post id v (Err e) v.
Proof. intros Hg. split; [done| |done]. intros s Hs. exists s. split; [done|lia]. Qed.

(** The guard on the revision. *)
Lemma spec_rejectStale e b id v (Q : error → view → Prop) :
  PluginID e = id → (∀ x, Q (Some x) v) → ((∀ s, v_plugin v = Some s → p_DesiredRevision s ≤ Revision e) → Q None v) →
  spec id (rejectStaleRevision e b) v Q.
Proof.
  intros He HE HN. unfold rejectStaleRevision. rewrite He. repeat spec_step. destruct (v_plugin v) as [s|]; [|by apply HN].
  destruct (Z.ltb_spec (Revision e) (p_DesiredRevision s)) as [?|Hle]; cbn [orb]; [apply HE|].
  case_match; [apply HE|]. apply HN. by intros ? [= <-].
Qed.

Lemma executeOperation_post k e rep l id v :
  PluginID e = id → id ≠ "" → good id v → spec id (executeOperation k e rep l) v (run_post id v).
Proof.
  intros He Hne Hg. unfold executeOperation. 
  assert (∀ rev, covers k e rev → (∀ s, v_plugin v = Some s → p_DesiredRevision s ≤ rev) →
    spec id (let materializedEnable := String.eqb k "plugin.enable" && String.eqb (Version e) OperationEnvelopeVersionV2 in
      if String.eqb k "plugin.install" then
        if negb l then mret (Err "plugin install request loader is required") else executeInstall e
      else if String.eqb k "plugin.configure" || materializedEnable || String.eqb k "plugin.update"
              || String.eqb k "plugin.rollback"
      then executeMaterialized k e materializedEnable
      else executePreparedOperation k e) v (run_post id v)) as Hrun.
  { intros rev Hc Hrev. eapply spec_mono; [|intros r v'; by apply run_post_of]. cbv zeta. destruct (String.eqb k "plugin.install") eqn:Ek.
    - apply String.eqb_eq in Ek as ->. rewrite (Hc eq_refl).
      spec_step; [spec_step; by apply post_refl_err|]. unfold executeInstall. do 3 spec_step; [|spec_step; by apply post_refl_err].
      do 3 spec_step; [spec_step; by apply post_refl_err|]. case_match eqn:Em; [spec_step; by apply post_refl_err|].
      apply orb_false_iff in Em as [Em%negb_false_iff%String.eqb_eq _]. apply installPrepared_post; congruence || done.
    - spec_step; [by apply executeMaterialized_post|by apply executePrepared_post]. }
  spec_step. destruct (operationMutatesState k) eqn:Ek.
  - apply spec_rejectStale; [done|intros x; spec_step; by apply run_refl_err|]. intros Hrev. by apply (Hrun (Revision e)).
  - spec_step. apply (Hrun (default 0 (p_DesiredRevision <$> v_plugin v))); [by intros ?; congruence|].
    intros s ->. cbn. lia.
Qed.

Lemma runOperation_post k e rep l id v :
  PluginID e = id → id ≠ "" → good id v → spec id (runOperation k e rep l) v (run_post id v).
Proof.
  intros He Hne Hg. unfold runOperation. do 3 spec_step; [spec_step; by apply run_refl_err|].
  do 3 spec_step; [spec_step; by apply run_refl_err|]. spec_step; [|by apply executeOperation_post].
  rewrite He. spec_step. apply spec_recover.
  - intros _. by apply executeOperation_post.
  - intros x. spec_step. by apply run_refl_err.
  - intros r s pend cv h x t Hs Hr. destruct v as [os op L]. cbn in Hs. subst os. cbn [v_process v_live].
    assert (good id (mkView (Some (recovered s pend cv h x t)) op L)) as Hg' by (by eapply good_keep).
    destruct r as [y|].
    + spec_step. split; cbn; [done| |done]. intros ? [= <-]. eexists. split; [done|]. cbn. lia.
    + eapply spec_mono; [by apply executeOperation_post|]. intros r' v' [P1 P2 P3]. split; [done| |done].
      intros ? [= <-]. apply (P2 _ eq_refl).
Qed.

End specs.

End SupervisorProcs.
