(* ===== verification/SupervisorInvariant.v ===== *)
(** * Plugin supervisor: the invariant of the running system

    The maintenance monitor, exits of processes, shutdown and the start of the
    Agent, in the logic of views; and what holds in every state the supervisor
    reaches: a registered process runs the desired version of an enabled plugin,
    no process of a plugin is live without being registered while stops succeed,
    and desired revisions never go back. *)

From S2P Require Import Prelude GoStrings Json Envelope PluginNames PluginWorld PluginSecrets Supervisor SupervisorRuns SupervisorFrame SupervisorDemo.
From S2P Require Import SupervisorOnce SupervisorProcs.
From Stdlib Require Import Ascii String.

Module SupervisorInvariant.
Import Envelope PluginNames PluginWorld PluginSecrets Supervisor SupervisorRuns SupervisorFrame SupervisorDemo SupervisorOnce SupervisorProcs.

Section with_env.
Context `{Env, Codec}.

(** What a background action leaves: a good view and no older revision. *)
Record bg_post (id : string) (v v' : view) : Prop := mkBgPost {
  bg_good : good id v';
  bg_revision s : v_plugin v = Some s → ∃ s', v_plugin v' = Some s' ∧ p_DesiredRevision s ≤ p_DesiredRevision s'
}.

Lemma bg_refl id v : good id v → bg_post id v v.
Proof. intros Hg. split; [done|]. intros s Hs. exists s. split; [done|lia]. Qed.

Lemma bg_some id s s' op op' L L' :
  good id (mkView (Some s') op' L') → p_DesiredRevision s ≤ p_DesiredRevision s' →
  bg_post id (mkView (Some s) op L) (mkView (Some s') op' L').
Proof. intros Hg Hr. split; [done|]. intros ? [= <-]. by exists s'. Qed.

(** ** The maintenance monitor *)

Lemma restart_post s cur process m L :
  good (p_ID s) (mkView (Some cur) process L) → p_DesiredVersion cur = p_DesiredVersion s →
  p_DesiredRevision cur = p_DesiredRevision s → p_Enabled s = p_Enabled cur → p_ObservedVersion s = p_ObservedVersion cur →
  spec (p_ID s) (restartMaintenanceInstance s process m) (mkView (Some cur) process L)
    (λ _ v', bg_post (p_ID s) (mkView (Some cur) process L) v').
Proof.
  intros Hg Hdv Hdr Hen Hov. unfold restartMaintenanceInstance.
  pose proof (good_live _ _ Hg) as Hlive. cbn in Hlive. pose proof (good_observed _ _ Hg cur eq_refl) as Hobs.
  pose proof (good_id _ _ Hg cur eq_refl) as Hid.
  assert (∀ q, process = Some q → procPlugin q = p_ID s) as Hproc by (intros q Hq; apply (good_process _ _ Hg q Hq)).
  do 3 spec_step. apply spec_stopAndCleanup; [done|]. intros [cp er] L1 HL1. cbn [v_plugin v_process v_live] in *.
  assert (stops_work → L1 = []) as HL' by naive_solver. destruct er as [er|].
  { spec_step. apply spec_recordTransitionFailure. intros t. spec_step. spec_step.
    - apply spec_markCleanupPending; [done|]. intros ? t' [= <-]. spec_step. apply bg_some; [by apply good_idle|max_lia].
    - spec_step. spec_step. apply bg_some; [by apply good_transition|max_lia]. }
  do 3 spec_step; [spec_step; apply bg_some; [apply good_idle; [congruence|naive_solver|done]|lia]|].
  spec_step. apply spec_startVersion; cbn [v_plugin v_process v_live].
  - intros p Hp Hv. repeat spec_step.
    + apply spec_stop_live; [by intros ? [= <-]|]. intros e L2 HL2. cbn [v_plugin v_process v_live] in *. spec_step.
      apply bg_some; [|lia]. apply good_idle; [done|rewrite Hen, Hov, <- Hdv; done|]. intros Hst. apply HL2; [done|].
      right. by rewrite HL'.
    + apply bg_some; [|cbn; lia]. apply good_on; cbn; try done; [congruence|]. intros Hst. by rewrite HL'.
  - intros e L2 HL2. spec_step. apply spec_recordPluginError; [done|]. intros ? t [= <-]. spec_step.
    apply bg_some; [|cbn; lia]. apply good_idle; [done|done|naive_solver].
  - intros e L2 sm x t HL2 [= <-]. spec_step. apply spec_recordPluginError; [done|]. intros ? t1 [= <-]. spec_step.
    apply bg_some; [|cbn; lia]. apply good_idle; [done|done|naive_solver].
Qed.

Lemma check_post id v : good id v → spec id (checkMaintenanceInstance id) v (λ _ v', bg_post id v v').
Proof.
  intros Hg. unfold checkMaintenanceInstance. do 4 spec_step.
  spec_step; [spec_step; by apply bg_refl|]. spec_step; [spec_step; by apply bg_refl|].
  destruct v as [[s|] op L]; cbn [v_plugin v_process default from_option] in *; [|done].
  pose proof (good_id _ _ Hg s eq_refl) as Hid. cbn in Hid. subst id.
  do 2 spec_step. do 2 spec_step. do 3 spec_step; [spec_step; by apply bg_refl|].
  do 3 spec_step; [|spec_step; by apply bg_refl]. do 8 spec_step. unfold id in *.
  match goal with |- spec _ _ (mkView (Some ?x) _ _) _ => set (cur := x) end.
  assert (p_ID cur = p_ID s ∧ p_Enabled cur = p_Enabled s ∧ p_DesiredVersion cur = p_DesiredVersion s ∧
    p_ObservedVersion cur = p_ObservedVersion s ∧ p_DesiredRevision cur = p_DesiredRevision s) as (E1 & E2 & E3 & E4 & E5)
    by (unfold cur; by case_match).
  clearbody cur. assert (good (p_ID s) (mkView (Some cur) op L)) as Hg' by (by eapply good_keep).
  assert (bg_post (p_ID s) (mkView (Some s) op L) (mkView (Some cur) op L)) as Hb by (apply bg_some; [done|lia]).
  spec_step; [by spec_step|]. spec_step; [by spec_step|]. spec_step; [|by spec_step].
  spec_step. eapply spec_mono; [by apply restart_post|]. cbn beta. intros e v' [H1 H2]. do 3 spec_step. split; [done|].
  intros ? [= <-]. destruct (H2 cur eq_refl) as (s' & ? & ?). exists s'. split; [done|lia].
Qed.

(** ** Exits, cleanups and shutdown *)

(** No cleanup is pending. *)
Definition tidy (v : view) : Prop := ∀ s, v_plugin v = Some s → p_CleanupPending s = false.

Lemma recover_post id v : good id v → spec id (recoverPluginCleanupContext id) v (λ r v', bg_post id v v' ∧ v_process v' = v_process v ∧ (r = None → tidy v')).
Proof.
  intros Hg. apply spec_recover; [intros Ht; by split_and!; [apply bg_refl| |]|intros; by split_and!; [apply bg_refl| |]|].
  intros r s pend cv h e t Hs Hr. destruct v as [os op L]. cbn in *. subst. split_and!; [|done|].
  - apply bg_some; [|cbn; lia]. by eapply good_keep.
  - intros ->. rewrite (Hr eq_refl). by intros ? [= <-].
Qed.

(** The exit of the only live process, observed. *)
Lemma exit_post id gen err v :
  good id v → (stops_work → v_live v = []) → spec id (observeProcessExit id gen err) v (λ _ v', bg_post id v v').
Proof.
  intros Hg HL. unfold observeProcessExit. do 3 spec_step; [spec_step; by apply bg_refl|].
  destruct v as [[s|] op L]; cbn [v_plugin v_process v_live] in *.
  - pose proof (good_id _ _ Hg s eq_refl) as Hid. cbn in Hid. repeat spec_step.
    all: apply bg_some; [apply good_idle; [by case_match|by case_match|done]|case_match; cbn; lia].
  - repeat spec_step. split; [|done]. split; cbn; try done. intros Hst. left. by apply HL.
Qed.

Lemma spec_same id p v (Q : bool → view → Prop) :
  Q (bool_decide (v_process v = Some p)) v → spec id (get (λ w, bool_decide (processes w !! id = Some p))) v Q.
Proof. intros HQ w <-. done. Qed.

Ltac close_step :=
  lazymatch goal with |- spec _ (mbind _ (recoverPluginCleanupContext _)) _ _ => fail | _ => idtac end;
  first [apply spec_same; cbn [v_process]; rewrite bool_decide_eq_true_2 by done | progress cbn [negb andb] | spec_step].

(** What the shutdown of a plugin leaves when it reports no error. *)
Definition closed_down (v : view) : Prop := v_process v = None ∧ tidy v.

Lemma Join_none a b : Join [a; b] = None → a = None ∧ b = None.
Proof. by destruct a, b. Qed.

Lemma Join_stop_failed a e b c : Join [a; Some e; b; c] ≠ None.
Proof. by destruct a, b, c. Qed.

Lemma closePlugin_post id v :
  good id v → spec id (closePlugin id) v (λ r v', bg_post id v v' ∧ (r = None → closed_down v')).
Proof.
  intros Hg. unfold closePlugin. do 4 spec_step.
  assert (∀ operationErr v', bg_post id v v' → (operationErr = None → v_process v' = None) →
    spec id (recoveryErr ← recoverPluginCleanupContext id; mret (Join [operationErr; recoveryErr])) v'
      (λ r v', bg_post id v v' ∧ (r = None → closed_down v'))) as Hrec.
  { intros oe v' [H1 H2] Hoe. spec_step. eapply spec_mono; [by apply recover_post|]. cbn beta. intros r v'' ([H3 H4] & Hp & Ht).
    spec_step. split.
    - split; [done|]. intros s Hs. destruct (H2 s Hs) as (s1 & Hs1 & ?). destruct (H4 s1 Hs1) as (s2 & ? & ?).
      exists s2. split; [done|lia].
    - intros [E1 E2]%Join_none. split; [rewrite Hp; by apply Hoe|by apply Ht]. }
  assert (v_process v = None → spec id (mret (None : error)) v (λ oe v', spec id
    (recoveryErr ← recoverPluginCleanupContext id; mret (Join [oe; recoveryErr])) v'
      (λ r v', bg_post id v v' ∧ (r = None → closed_down v')))) as Hidle.
  { intros Hn. spec_step. apply Hrec; [by apply bg_refl|done]. }
  destruct (v_process v) as [p|] eqn:Ep; [|spec_step; case_match; by apply Hidle].
  destruct (good_process _ _ Hg p Ep) as (Hp & s & Es & Hen & Hver). destruct v as [os op L]. cbn in Ep, Es. subst os op.
  pose proof (good_live _ _ Hg) as Hlive. cbn in Hlive.
  pose proof (good_id _ _ Hg s eq_refl) as Hid. pose proof (good_observed _ _ Hg s eq_refl) as Hobs. cbn in Hid, Hobs.
  cbn [v_plugin v_process] in *. do 4 spec_step. apply spec_stop; [done|..]; cbn [v_plugin v_process v_live].
  - assert (stops_work → filter (λ q, q ≠ p) L = []) as HL.
    { intros Hst. destruct (Hlive Hst) as [-> | ->]; [done|]. cbn [live_of]. by rewrite filter_cons, decide_False by tauto. }
    revert HL. generalize (filter (λ q, q ≠ p) L). intros L' HL. change (failed None) with false.
    cbn [negb andb]. repeat close_step; (apply Hrec; [apply bg_some|done]).
    all: repeat case_match; first [cbn; lia|by apply good_idle].
  - intros n e _. change (failed (Some e)) with true. cbn [negb andb].
    repeat close_step; (apply Hrec; [apply bg_some|by intros ?%Join_stop_failed]).
    all: repeat case_match; first [cbn; lia|by eapply good_keep].
Qed.

(** ** All plugins *)

Definition good_world (w : World) : Prop := ∀ id, good id (view_of id w).

Definition revisions_kept (w w' : World) : Prop :=
  ∀ id s, Plugins (state w) !! id = Some s →
  ∃ s', Plugins (state w') !! id = Some s' ∧ p_DesiredRevision s ≤ p_DesiredRevision s'.

#[export] Instance revisions_kept_preorder : PreOrder revisions_kept.
Proof.
  split.
  - intros w id s Hs. exists s. split; [done|lia].
  - intros w1 w2 w3 H12 H23 id s Hs. destruct (H12 id s Hs) as (s' & Hs' & ?). destruct (H23 id s' Hs') as (s'' & ? & ?).
    exists s''. split; [done|lia].
Qed.

(** A computation that keeps all views good. *)
Definition safe {A} (m : M A) : Prop :=
  ∀ w a w', m w = (Done a, w') → good_world w → good_world w' ∧ revisions_kept w w'.

Lemma safe_bind {A B} (m : M A) (f : A → M B) : safe m → (∀ a, safe (f a)) → safe (m ≫= f).
Proof.
  intros Hm Hf w b w' Hrun Hg. rewrite bind_run in Hrun. destruct (m w) as [[a|] w1] eqn:Em; [|done].
  destruct (Hm w a w1 Em Hg) as [Hg1 Hr1]. destruct (Hf a w1 b w' Hrun Hg1) as [Hg2 Hr2]. split; [done|by etrans].
Qed.

Lemma safe_quiet {A} (m : M A) : keeps same_views m → safe m.
Proof.
  intros Hk w a w' Hrun Hg. specialize (Hk w). rewrite Hrun in Hk. cbn in Hk. split; [intros id; rewrite Hk; apply Hg|].
  intros id s Hs. exists s. split; [|lia]. specialize (Hk id). injection Hk. intros _ _ ->. done.
Qed.

Lemma world_of_view id w w' :
  (∀ id', id' ≠ id → view_of id' w' = view_of id' w) ∧ bg_post id (view_of id w) (view_of id w') →
  good_world w → good_world w' ∧ revisions_kept w w'.
Proof.
  intros [Ho [H1 H2]] Hg. split.
  - intros id'. destruct (decide (id' = id)) as [->|Hne]; [done|]. rewrite Ho by done. apply Hg.
  - intros id' s Hs. destruct (decide (id' = id)) as [->|Hne]; [by apply H2|]. exists s. split; [|lia].
    specialize (Ho id' Hne). injection Ho. intros _ _ ->. done.
Qed.

Lemma safe_spec {A} id (m : M A) : (∀ v, good id v → spec id m v (λ _ v', bg_post id v v')) → safe m.
Proof.
  intros Hm w a w' Hrun Hg. specialize (Hm (view_of id w) (Hg id) w eq_refl). rewrite Hrun in Hm. by apply (world_of_view id).
Qed.

Lemma safe_run k e rep l : PluginID e ≠ "" → safe (runOperation k e rep l).
Proof.
  intros Hne. apply (safe_spec (PluginID e)). intros v Hg. eapply spec_mono; [by apply runOperation_post|].
  intros r v' [H1 H2 _]. by split.
Qed.

Lemma safe_closePlugins ids : ∀ e, safe (closePlugins ids e).
Proof.
  induction ids as [|id ids IH]; intros e; cbn [closePlugins]; [apply safe_quiet; eauto with keeps|].
  apply safe_bind; [apply safe_quiet; eauto with keeps|]. intros [x|]; [apply IH|].
  apply safe_bind; [|intros; apply IH]. apply (safe_spec id). intros v Hg. eapply spec_mono; [by apply closePlugin_post|]. by intros r v' [? _].
Qed.

Lemma safe_checkInstances ids : ∀ e, safe (checkInstances ids e).
Proof.
  induction ids as [|id ids IH]; intros e; cbn [checkInstances]; [apply safe_quiet; eauto with keeps|].
  do 2 (apply safe_bind; [apply safe_quiet; eauto with keeps|]; intros [x|]; [apply safe_quiet; eauto with keeps|]).
  apply safe_bind; [|intros; apply IH]. apply (safe_spec id). intros v Hg. by apply check_post.
Qed.

Lemma safe_CheckMaintenance : safe CheckMaintenance.
Proof.
  unfold CheckMaintenance. destruct (negb hasMaintenance); [apply safe_quiet; eauto with keeps|].
  apply safe_bind; [apply safe_quiet; eauto with keeps|]. intros [|]; [apply safe_quiet; eauto with keeps|].
  apply safe_bind; [apply safe_quiet; eauto with keeps|]. intros ids. apply safe_checkInstances.
Qed.

Lemma safe_Close : safe Close.
Proof.
  unfold Close. apply safe_bind; [apply safe_quiet; eauto with keeps|]. intros [|]; [apply safe_quiet; eauto with keeps|].
  apply safe_bind; [apply safe_quiet; eauto with keeps|]. intros ids. apply safe_bind; [apply safe_closePlugins|]. intros r.
  apply safe_bind; [apply safe_quiet; eauto with keeps|]. intros pe. apply safe_bind; [apply safe_quiet; eauto with keeps|].
  intros rem. apply safe_bind; [|intros; apply safe_quiet; eauto with keeps]. apply safe_quiet.
  case_match; [|eauto with keeps]. apply keeps_modify; [apply _|]. done.
Qed.

(** ** What calls change outside the execution *)

Section calls.
Context (R : relation World) `{!Quiet R} (HRrun : ∀ w x, R w (set_running x w))
  (HRjournal : ∀ w j, R w (set_state (mkState (Plugins (state w)) j) w)).

Ltac quiet :=
  repeat first
    [ progress intros
    | solve [eauto 3 with keeps]
    | solve [apply keeps_modify; [apply _|]; intros; first [apply HRrun | apply HRjournal |
        eapply stable_trans; [apply HRjournal|]; exact (HRrun _ _)]]
    | apply keeps_bind; [apply _|..]
    | case_match ].

Lemma quiet_register kind e rep : keeps R (registerOperation kind e rep).
Proof using All. unfold registerOperation, storeJournal. quiet. Qed.
#[local] Hint Resolve quiet_register : keeps.

Lemma quiet_admit fuel : ∀ kind e rep, keeps R (admitLoop fuel kind e rep).
Proof using All.
  induction fuel as [|fuel IH]; intros kind e rep; cbn [admitLoop]; [eauto with keeps|]. unfold storeJournal. quiet.
Qed.

Lemma quiet_begin kind e : keeps R (beginOperation kind e).
Proof using All.
  unfold beginOperation. apply keeps_bind; [apply _|eauto with keeps|]. intros [|]; [eauto with keeps|].
  case_match; [apply quiet_admit|eauto with keeps].
Qed.

Lemma quiet_finish e r : keeps R (finishOperation e r).
Proof using All. unfold finishOperation, storeJournal. quiet. Qed.

End calls.

(** ** Watchers *)

(** A goroutine that waits for a process holds a generation no later than the
    current one; at the current one no other process is registered. *)
Definition watch_ok (w : World) : Prop :=
  ∀ id g p, (id, g, p) ∈ watchers w →
  g ≤ default 0 (generation w !! id) ∧
  (g = default 0 (generation w !! id) → ∀ q, processes w !! id = Some q → q = p).

Lemma watch_register w id p : watch_ok w → watch_ok (register id p w).
Proof.
  intros Hw id' g q Hin. cbn in Hin. apply elem_of_cons in Hin as [[= -> -> ->]|Hin]; cbn.
  - rewrite !lookup_insert_eq. cbn. split; [lia|]. by intros _ ? [= <-].
  - destruct (Hw id' g q Hin) as [Hle Hq]. destruct (decide (id' = id)) as [->|Hne].
    + rewrite !lookup_insert_eq. cbn. split; [lia|]. intros ->. lia.
    + by rewrite !lookup_insert_ne.
Qed.

Lemma watch_unregister w id : watch_ok w → watch_ok (unregister id w).
Proof.
  intros Hw id' g q Hin. cbn in Hin. destruct (Hw id' g q Hin) as [Hle Hq]. cbn. destruct (decide (id' = id)) as [->|Hne].
  - rewrite lookup_insert_eq, lookup_delete_eq. cbn. split; [lia|done].
  - by rewrite lookup_insert_ne, lookup_delete_ne.
Qed.

#[export] Instance watch_stable : Stable (λ w w', watch_ok w → watch_ok w').
Proof. split; [split|..]; try done; [naive_solver| |]; intros; [by apply watch_register|by apply watch_unregister]. Qed.

Lemma watch_background w m w' : background w m → m w = (Done tt, w') → watch_ok w → watch_ok w'.
Proof.
  intros Hb Hm. pose proof (background_keeps_any (λ w w', watch_ok w → watch_ok w') w m (λ _ _ Hw, Hw) Hb w) as Hk.
  by rewrite Hm in Hk.
Qed.

(** A stale observation changes nothing. *)
Lemma observe_stale w id g err : default 0 (generation w !! id) ≠ g → observeProcessExit id g err w = (Done tt, w).
Proof.
  intros Hne. unfold observeProcessExit. rewrite bind_get. apply Z.eqb_neq in Hne. rewrite Hne. by rewrite orb_true_r.
Qed.

Lemma observe_safe w id g p err w' :
  watch_ok w → (id, g, p) ∈ watchers w → p ∉ live w → observeProcessExit id g err w = (Done tt, w') →
  good_world w → good_world w' ∧ revisions_kept w w'.
Proof.
  intros Hw Hin Hdead Hrun Hg. destruct (decide (default 0 (generation w !! id) = g)) as [Eg|Eg].
  - assert (stops_work → v_live (view_of id w) = []) as HL.
    { intros Hst. destruct (good_live _ _ (Hg id) Hst) as [?|E]; [done|]. destruct (v_process (view_of id w)) as [q|] eqn:Eq; [|done].
      assert (q = p) as -> by (by apply (Hw id g p Hin)). cbn [live_of] in E. destruct Hdead.
      assert (p ∈ v_live (view_of id w)) as Hp by (rewrite E; apply list_elem_of_singleton; done).
      by apply list_elem_of_filter in Hp as [_ ?]. }
    pose proof (exit_post id g err (view_of id w) (Hg id) HL w eq_refl) as Hs. rewrite Hrun in Hs.
    by apply (world_of_view id).
  - rewrite observe_stale in Hrun by done. injection Hrun as <-. split; [done|reflexivity].
Qed.

Lemma exited_safe w p : good_world w → good_world (exited p w) ∧ revisions_kept w (exited p w).
Proof.
  intros Hg. split; [|by intros id s Hs; exists s; split; [|lia]].
  intros id. specialize (Hg id) as [H1 H2 H3 H4]. split; [done..|]. intros Hst. specialize (H4 Hst). cbn in *.
  assert (filter (λ q, procPlugin q = id) (filter (λ q, q ≠ p) (live w)) =
          filter (λ q, q ≠ p) (filter (λ q, procPlugin q = id) (live w))) as ->.
  { rewrite !list_filter_filter. apply filter_ext_in. intros q _. tauto. }
  destruct H4 as [-> | ->]; [by left|]. destruct (processes w !! id) as [q|]; [|by left]. cbn [live_of].
  rewrite filter_cons. case_decide; [by right|by left].
Qed.

Lemma background_safe w m w' :
  watch_ok w → background w m → m w = (Done tt, w') → good_world w → good_world w' ∧ revisions_kept w w'.
Proof.
  intros Hw Hbg Hm Hg. destruct Hbg as [p Hp|id gen p err Hin Hdead| |].
  - injection Hm as <-. by apply exited_safe.
  - by eapply observe_safe.
  - eapply (safe_bind CheckMaintenance (λ _, mret tt)); [apply safe_CheckMaintenance|intros; apply safe_quiet; eauto with keeps|exact Hm|done].
  - eapply (safe_bind Close (λ _, mret tt)); [apply safe_Close|intros; apply safe_quiet; eauto with keeps|exact Hm|done].
Qed.

(** ** A run of the Agent *)

Definition invariant (s : system) : Prop :=
  match s with
  | Up w calls => good_world w ∧ watch_ok w ∧ ∀ k c, calls !! k = Some c → PluginID (c_envelope c) ≠ ""
  | Down _ => False
  end.

Lemma begin_plugin kind e w rep w' : beginOperation kind e w = (Done (Proceed rep), w') → PluginID e ≠ "".
Proof.
  intros (_ & Hv & _)%begin_admitted. unfold validateOperation in Hv.
  do 3 (case_match; [done|]). case_match eqn:Es; [done|]. apply orb_false_iff in Es as [Es%negb_false_iff _].
  intros E. rewrite E in Es. done.
Qed.

Definition up (s : system) : Prop := match s with Up _ _ => True | Down _ => False end.

(** One step while the Agent stays up. *)
Definition live_step (s s' : system) : Prop := step s s' ∧ up s'.

Lemma invariant_step s s' :
  invariant s → live_step s s' →
  invariant s' ∧ match s, s' with Up w _, Up w' _ => revisions_kept w w' | _, _ => True end.
Proof.
  intros Hi [Hs Hup]. destruct Hs as [w calls kind loader e rep w' Hb|w calls kind e a w' Hb Ha|w calls k c r w' Hc Hr Hrun|
    w calls k c r res w' Hc Hr Hfin|w calls m w' Hbg Hm|w calls|w calls kind e w' Hb|w calls k c w' Hc Hr Hrun|
    w calls k c r w' Hc Hr Hfin|w calls m w' Hbg Hm|w w' Hboot|w o w' Hboot Ho]; try done; destruct Hi as (Hg & Hw & Hk).
  - destruct (safe_quiet _ (quiet_begin same_views (λ _ _ _, eq_refl) (λ _ _ _, eq_refl) kind e) w _ w' Hb Hg) as [Hg' Hr].
    pose proof (quiet_begin (λ w w', watch_ok w → watch_ok w') (λ _ _ H, H) (λ _ _ H, H) kind e w) as Hw'. rewrite Hb in Hw'.
    split; [|done]. split_and!; [done|by apply Hw'|]. intros k c [[<- <-]|[_ Hc]]%lookup_insert_Some; [exact (begin_plugin _ _ _ _ _ Hb)|eauto].
  - destruct (safe_quiet _ (quiet_begin same_views (λ _ _ _, eq_refl) (λ _ _ _, eq_refl) kind e) w _ w' Hb Hg) as [Hg' Hr].
    pose proof (quiet_begin (λ w w', watch_ok w → watch_ok w') (λ _ _ H, H) (λ _ _ H, H) kind e w) as Hw'. rewrite Hb in Hw'.
    split; [|done]. split_and!; [done|by apply Hw'|done].
  - destruct (safe_run (c_kind c) (c_envelope c) (c_repair c) (c_loader c) (Hk k c Hc) w r w' Hrun Hg) as [Hg' Hr'].
    pose proof (keeps_runOperation (λ w w', watch_ok w → watch_ok w') (c_kind c) (c_envelope c) (c_repair c) (c_loader c) w) as Hw'.
    rewrite Hrun in Hw'. split; [|done]. split_and!; [done|by apply Hw'|].
    intros k' c' [[<- <-]|[_ Hc']]%lookup_insert_Some; [exact (Hk k c Hc)|eauto].
  - destruct (safe_quiet _ (quiet_finish same_views (λ _ _ _, eq_refl) (λ _ _ _, eq_refl) (c_envelope c) r) w _ w' Hfin Hg) as [Hg' Hr'].
    pose proof (quiet_finish (λ w w', watch_ok w → watch_ok w') (λ _ _ H, H) (λ _ _ H, H) (c_envelope c) r w) as Hw'.
    rewrite Hfin in Hw'. split; [|done]. split_and!; [done|by apply Hw'|]. intros k' c' [_ Hc']%lookup_delete_Some. eauto.
  - pose proof (watch_background w m w' Hbg Hm Hw) as Hw'. destruct (background_safe w m w' Hw Hbg Hm Hg) as [Hg' Hr']. done.
Qed.

(** C3: in every state of a run of the Agent, whatever calls, exits, checks and
    shutdowns have been interleaved: a registered process belongs to a plugin
    whose record is enabled and runs exactly its desired version; a plugin has
    no other live process, unless a stop of a process has failed; and the
    desired revision of a plugin never goes back. *)
Theorem processes_match_records w calls s :
  invariant (Up w calls) → rtc live_step (Up w calls) s →
  ∃ w' calls', s = Up w' calls' ∧
  (∀ id p, processes w' !! id = Some p → procPlugin p = id ∧
     ∃ st, Plugins (state w') !! id = Some st ∧ p_Enabled st = true ∧ procVersion p = p_DesiredVersion st) ∧
  (stops_work → ∀ q, q ∈ live w' → processes w' !! procPlugin q = Some q) ∧
  (∀ id st, Plugins (state w) !! id = Some st →
     ∃ st', Plugins (state w') !! id = Some st' ∧ p_DesiredRevision st ≤ p_DesiredRevision st').
Proof.
  intros Hi Hs. assert (∃ w' calls', s = Up w' calls' ∧ invariant s ∧ revisions_kept w w') as (w' & calls' & -> & Hi' & Hr).
  { remember (Up w calls) as s0 eqn:E0. revert w calls E0 Hi. induction Hs as [s|s s1 s2 Hstep Hsteps IH]; intros w calls -> Hi.
    - exists w, calls. split_and!; [done|done|reflexivity].
    - destruct (invariant_step _ _ Hi Hstep) as [Hi1 Hr1]. destruct s1 as [w1 calls1|w1]; [|done].
      destruct (IH w1 calls1 eq_refl Hi1) as (w' & calls' & -> & Hi' & Hr'). exists w', calls'. split_and!; [done|done|by etrans]. }
  destruct Hi' as (Hg & _ & _). exists w', calls'. split_and!; [done| | |done].
  - intros id p Hp. by apply (good_process _ _ (Hg id)).
  - intros Hst q Hq. set (id := procPlugin q).
    assert (q ∈ v_live (view_of id w')) as Hin by (by apply list_elem_of_filter).
    destruct (good_live _ _ (Hg id) Hst) as [E|E]; rewrite E in Hin; [by apply elem_of_nil in Hin|].
    change (v_process (view_of id w')) with (processes w' !! id) in Hin.
    destruct (processes w' !! id) as [p|]; cbn [live_of] in Hin; [|by apply elem_of_nil in Hin].
    by apply list_elem_of_singleton in Hin as <-.
Qed.

End with_env.

(** ** Witnesses *)

Lemma good_world_idle `{Env} w :
  live w = [] → processes w = ∅ →
  (∀ id s, Plugins (state w) !! id = Some s → p_ID s = id ∧ (p_Enabled s = true → p_ObservedVersion s = p_DesiredVersion s)) →
  good_world w.
Proof.
  intros Hl Hp Hs id. split; cbn; [by apply Hs|by apply Hs|by rewrite Hp, lookup_empty|]. intros _. left. by rewrite Hl.
Qed.

Lemma demo_good crashes : @good_world (demo_env crashes) demo_world.
Proof. apply good_world_idle; [done|done|]. intros id s Hs. cbn [demo_world state Plugins] in Hs. by apply lookup_singleton_Some in Hs as [<- <-]. Qed.

Lemma demo_invariant crashes : @invariant (demo_env crashes) (Up demo_world ∅).
Proof.
  split_and!; [apply demo_good|intros id g p Hin; by apply elem_of_nil in Hin|by intros ? ? ?%lookup_empty_Some].
Qed.

Lemma demo_begin_good : @good_world (demo_env []) (demo_begin []).2.
Proof.
  destruct (@safe_quiet (demo_env []) _ _ (@quiet_begin (demo_env []) toy_codec same_views _ (λ _ _ _, eq_refl) (λ _ _ _, eq_refl) "plugin.enable" demo_envelope)
    demo_world (Proceed false) (demo_begin []).2) as [Hg _]; [vm_compute; reflexivity|apply demo_good|exact Hg].
Qed.

Lemma demo_run_good : @good_world (demo_env []) (demo_run []).2.
Proof.
  destruct (@safe_run (demo_env []) toy_codec "plugin.enable" (normalized demo_envelope) false false ltac:(done)
    (demo_begin []).2 demo_result (demo_run []).2) as [Hg _]; [vm_compute; reflexivity|apply demo_begin_good|exact Hg].
Qed.

Definition demo_call : call := mkCall "plugin.enable" (normalized demo_envelope) false false None.

Definition demo_enabled : system := Up (demo_run []).2 (<["op-1" := with_result demo_result demo_call]> (<["op-1" := demo_call]> ∅)).

Lemma processes_match_records_witness :
  ∃ w' calls', demo_enabled = Up w' calls' ∧ ∀ q, q ∈ live w' → processes w' !! procPlugin q = Some q.
Proof.
  destruct (@processes_match_records (demo_env []) toy_codec demo_world ∅ demo_enabled (demo_invariant []))
    as (w' & calls' & Hs & _ & Hlive & _).
  - eapply rtc_l; [|eapply rtc_l; [|apply rtc_refl]].
    + split; [eapply (step_admitted demo_world ∅ "plugin.enable" false demo_envelope false); vm_compute; reflexivity|done].
    + split; [|done]. eapply (step_run _ _ "op-1" demo_call); [by rewrite lookup_insert_eq|done|]. vm_compute. reflexivity.
  - exists w', calls'. split; [done|]. by apply Hlive.
Defined.

End SupervisorInvariant.
