(* ===== verification/SupervisorStart.v ===== *)
(** * Plugin supervisor: start and shutdown

    What the start of the Agent establishes (the invariant of the running
    system, and which plugins it starts), and what a shutdown that reports no
    error has done. *)

From S2P Require Import Prelude GoStrings Json Envelope PluginNames PluginWorld PluginSecrets Supervisor SupervisorRuns SupervisorFrame SupervisorDemo.
From S2P Require Import SupervisorOnce SupervisorProcs SupervisorInvariant.
From Stdlib Require Import Ascii String.

Module SupervisorStart.
Import Envelope PluginNames PluginWorld PluginSecrets Supervisor SupervisorRuns SupervisorFrame SupervisorDemo SupervisorOnce SupervisorProcs.
Import SupervisorInvariant.

Section with_env.
Context `{Env, Codec}.

(** ** Restore *)

(** A plugin that may be started: its record is enabled with no cleanup pending,
    and no interrupted operation could still change what it runs. *)
Definition startable (journal : gmap string JournalEntry) (s : PluginState) : Prop :=
  p_Enabled s = true ∧ p_CleanupPending s = false ∧ interruptedRuntimeTransitionLocked s journal = None.

Lemma candidate_startable id s w c w' :
  restoreCandidate id s w = (Done c, w') → c.1 = true → startable (Journal (state w)) s.
Proof.
  unfold restoreCandidate. case_match eqn:E; [by intros [= <- _]|]. apply orb_false_iff in E as [E1%negb_false_iff E2].
  rewrite bind_run. intros Hrun Hc.
  assert (∃ f w1, (if hasMaintenance then ext env_failure else mret (Ok false)) w = (Done f, w1) ∧ state w1 = state w)
    as (f & w1 & Hf & Hst).
  { unfold ext in *. destruct hasMaintenance; [|by eexists _, _]. destruct (env_crash (tick w)); [done|]. by eexists _, _. }
  rewrite Hf in Hrun. destruct f as [pending|e]; [|by injection Hrun as <- _].
  destruct (hasMaintenance && _); [by injection Hrun as <- _|]. rewrite bind_get, Hst in Hrun.
  destruct (interruptedRuntimeTransitionLocked s _) as [je|] eqn:Ej; [|done].
  rewrite bind_run in Hrun. destruct (now w1) as [[t|] w2]; [|done]. by injection Hrun as <- _.
Qed.

Lemma candidate_post id s v :
  v_plugin v = Some s → good id v →
  spec id (restoreCandidate id s) v (λ c v', good id v' ∧ v_process v' = v_process v ∧ (c.1 = true → v' = v)).
Proof.
  intros Hs Hg. destruct v as [os op L]. cbn in Hs. subst os. unfold restoreCandidate.
  spec_step; [by spec_step|]. spec_step. apply spec_quiet; [case_match; eauto with keeps|]. intros f.
  repeat spec_step; split_and!; try done; by eapply good_keep.
Qed.

(** What is known before the second loop about a plugin to start. *)
Definition ready (w : World) (s : PluginState) : Prop :=
  Plugins (state w) !! p_ID s = Some s ∧ processes w !! p_ID s = None ∧ startable (Journal (state w)) s.

Lemma candidates_ready l : ∀ w r w',
  restoreCandidates l w = (Done r, w') → good_world w → NoDup l.*1 →
  (∀ id s, (id, s) ∈ l → Plugins (state w) !! id = Some s ∧ processes w !! id = None) →
  good_world w' ∧ (∀ s, s ∈ r.1 → ready w' s ∧ p_ID s ∈ l.*1) ∧ NoDup (p_ID <$> r.1) ∧
  (∀ id, processes w' !! id = processes w !! id) ∧
  (∀ id, id ∉ l.*1 → view_of id w' = view_of id w).
Proof.
  induction l as [|[id s] l IH]; intros w r w' Hrun Hg Hnd Hl; cbn [restoreCandidates] in Hrun.
  { injection Hrun as <- <-. split_and!; [done| |constructor|done|done]. intros s Hs. by apply elem_of_nil in Hs. }
  rewrite bind_run in Hrun. destruct (restoreCandidate id s w) as [[c|] w1] eqn:Ec; [|done].
  rewrite bind_run in Hrun. destruct (restoreCandidates l w1) as [[r1|] w2] eqn:El; [|done]. injection Hrun as <- <-.
  destruct (Hl id s) as [Hs Hp]; [by left|]. cbn in Hnd. apply NoDup_cons in Hnd as [Hni Hnd].
  pose proof (candidate_post id s (view_of id w) Hs (Hg id) w eq_refl) as Hc. rewrite Ec in Hc. destruct Hc as (Ho & Hg1 & Hp1 & Hv1).
  assert (∀ id', processes w1 !! id' = processes w !! id') as Hpr.
  { intros id'. destruct (decide (id' = id)) as [->|Hne]; [exact Hp1|]. specialize (Ho id' Hne). by injection Ho. }
  destruct (IH w1 r1 w2 El) as (Hgw & Hr & Hndr & Hprocs & Hother); [|done| |].
  { intros id'. destruct (decide (id' = id)) as [->|Hne]; [done|]. rewrite Ho by done. apply Hg. }
  { intros id' s' Hin. destruct (Hl id' s') as [Hs' Hp']; [by right|]. rewrite Hpr. split; [|done].
    assert (id' ≠ id) as Hne by (intros ->; apply Hni; apply list_elem_of_fmap; by exists (id, s')).
    specialize (Ho id' Hne). injection Ho. congruence. }
  assert (p_ID s = id) as Hid by (by apply (good_id _ _ (Hg id))).
  pose proof (keeps_restoreCandidates journal_kept l w1) as (Hj2 & _ & _). rewrite El in Hj2. cbn in Hj2.
  pose proof (keeps_restoreCandidate journal_kept id s w) as (Hj1 & _ & _). rewrite Ec in Hj1. cbn in Hj1.
  split_and!; [done| | |by intros id'; rewrite Hprocs|].
  - assert (∀ x, x ∈ r1.1 → ready w2 x ∧ p_ID x ∈ id :: l.*1) as Hr'.
    { intros x Hx. destruct (Hr x Hx). split; [done|by right]. }
    destruct (c.1) eqn:E1; cbn; [|done]. intros x [->|Hx]%elem_of_cons; [|by apply Hr']. split; [|rewrite Hid; by left].
    specialize (Hv1 eq_refl). pose proof (Hother id Hni) as Hv2. rewrite Hv1 in Hv2. unfold ready. rewrite Hid.
    split_and!; [by injection Hv2; congruence|by rewrite Hprocs, Hpr|].
    rewrite Hj2, Hj1. by eapply candidate_startable.
  - destruct (c.1); cbn; [|done]. apply NoDup_cons. split; [|done]. rewrite Hid. intros Hin.
    apply list_elem_of_fmap in Hin as (x & Ex & Hx). destruct (Hr x Hx) as [_ Hx']. rewrite <- Ex in Hx'. done.
  - intros id' Hni'. cbn in Hni'. apply not_elem_of_cons in Hni' as [Hne Hni']. by rewrite Hother, Ho.
Qed.

(** The record of a plugin that was started. *)
Definition started (s : PluginState) (v : view) : Prop :=
  ∃ st, v_plugin v = Some st ∧ p_CleanupPending st = false ∧ p_DesiredRevision st = p_DesiredRevision s.

Lemma one_post s L :
  good (p_ID s) (mkView (Some s) None L) → p_Enabled s = true →
  spec (p_ID s) (restoreOne s) (mkView (Some s) None L)
    (λ _ v', good (p_ID s) v' ∧ ∀ p, v_process v' = Some p → started s v').
Proof.
  intros Hg Hen. pose proof (good_live _ _ Hg) as Hlive. pose proof (good_observed _ _ Hg s eq_refl) as Hobs. cbn in Hlive, Hobs.
  assert (stops_work → L = []) as HL by (intros Hst; by apply within_none, Hlive).
  unfold restoreOne. spec_step. apply spec_startVersion; cbn [v_plugin v_process v_live].
  - intros p Hp Hv. repeat spec_step. split; [|by eexists]. apply good_on; cbn; try done. intros Hst. by rewrite HL.
  - intros e L' HL'. repeat spec_step. split; [|done]. apply good_idle; [done|done|naive_solver].
  - intros e L' s0 x t HL' [= <-]. repeat spec_step. split; [|done]. apply good_idle; [done|done|naive_solver].
Qed.

(** The processes after the second loop: only of plugins that were ready. *)
Lemma start_ready l : ∀ w w',
  restoreStart l w = (Done tt, w') → good_world w → NoDup (p_ID <$> l) → (∀ s, s ∈ l → ready w s) →
  good_world w' ∧ (∀ id, id ∉ p_ID <$> l → view_of id w' = view_of id w) ∧
  ∀ id p, processes w' !! id = Some p →
    processes w !! id = Some p ∨ ∃ s, s ∈ l ∧ p_ID s = id ∧ started s (view_of id w').
Proof.
  induction l as [|s l IH]; intros w w' Hrun Hg Hnd Hl; cbn [restoreStart] in Hrun.
  { injection Hrun as <-. split_and!; [done|done|]. by left. }
  rewrite bind_run in Hrun. destruct (restoreOne s w) as [[[]|] w1] eqn:E1; [|done].
  destruct (Hl s) as (Hs & Hp & Hen & _); [by left|]. apply NoDup_cons in Hnd as [Hni Hnd].
  assert (view_of (p_ID s) w = mkView (Some s) None (v_live (view_of (p_ID s) w))) as Hv by (unfold view_of; by rewrite Hs, Hp).
  pose proof (Hg (p_ID s)) as Hgs. rewrite Hv in Hgs. pose proof (one_post s _ Hgs Hen w Hv) as H1.
  rewrite E1 in H1. destruct H1 as (Ho & Hg1 & Hst1).
  pose proof (keeps_restoreOne journal_kept s w) as (Hj & _). rewrite E1 in Hj. cbn in Hj.
  destruct (IH w1 w' Hrun) as (Hgw & Hother & Hprocs); [|done| |].
  - intros id'. destruct (decide (id' = p_ID s)) as [->|Hne]; [done|]. rewrite Ho by done. apply Hg.
  - intros x Hx. destruct (Hl x) as (Hx1 & Hx2 & Hx3); [by right|].
    assert (p_ID x ≠ p_ID s) as Hne by (intros E; apply Hni; rewrite <- E; apply list_elem_of_fmap; by exists x).
    specialize (Ho _ Hne). unfold view_of in Ho. injection Ho as Ho1 Ho2 _. unfold ready. by rewrite Ho1, Ho2, Hj.
  - split_and!; [done| |].
    + intros id Hid. cbn in Hid. apply not_elem_of_cons in Hid as [Hne Hid]. by rewrite Hother, Ho.
    + intros id p Hp'. destruct (Hprocs id p Hp') as [Hq|(x & Hx & Ex & Hst)]; [|right; exists x; split_and!; [by right|done|done]].
      destruct (decide (id = p_ID s)) as [->|Hne].
      * right. exists s. split_and!; [by left|done|]. rewrite Hother by done. by eapply Hst1.
      * left. specialize (Ho id Hne). injection Ho. congruence.
Qed.

Lemma safe_recoverAll ids : safe (recoverAll ids).
Proof.
  induction ids as [|id ids IH]; cbn [recoverAll]; [apply safe_quiet; eauto with keeps|]. apply safe_bind; [|done].
  apply (safe_spec id). intros v Hg. eapply spec_mono; [by apply recover_post|]. by intros r v' (? & _).
Qed.

Lemma recoverAll_processes ids : ∀ w w' a,
  recoverAll ids w = (Done a, w') → good_world w → processes w' = processes w.
Proof.
  induction ids as [|id ids IH]; intros w w' a Hrun Hg; cbn [recoverAll] in Hrun; [by injection Hrun as _ <-|].
  rewrite bind_run in Hrun. destruct (recoverPluginCleanupContext id w) as [[r|] w1] eqn:Er; [|done].
  pose proof (recover_post id (view_of id w) (Hg id) w eq_refl) as Hr. rewrite Er in Hr. destruct Hr as (Ho & Hb & Hp & _).
  rewrite (IH w1 w' a Hrun); [|by apply (world_of_view id w w1)].
  apply map_eq. intros id'. destruct (decide (id' = id)) as [->|Hne]; [exact Hp|]. specialize (Ho id' Hne). by injection Ho.
Qed.

(** The records on disk: an enabled plugin is observed at its desired version. *)
Definition disk_good (w : World) : Prop :=
  ∀ d id s, disk w = Some d → Plugins d !! id = Some s → p_Enabled s = true → p_ObservedVersion s = p_DesiredVersion s.

Definition same_procs (w w' : World) : Prop := processes w' = processes w ∧ watchers w' = watchers w.

#[local] Instance same_procs_quiet : Quiet same_procs.
Proof. split; unfold same_procs; try done. intros w1 w2 w3 [-> ->] [-> ->]. done. Qed.

Lemma load_good w w1 :
  disk_good w → live w = [] → load (boot w) = (Done None, w1) →
  good_world w1 ∧ processes w1 = ∅ ∧ watchers w1 = [] .
Proof.
  intros Hd Hlive. rewrite load_eq. change (disk (boot w)) with (disk w). destruct (disk w) as [d|] eqn:Ed.
  - destruct (forallb _ (map_to_list (Plugins d))) eqn:Ep; cbn [negb]; [|done].
    destruct (forallb _ (map_to_list (Journal d))); cbn [negb]; [|done]. destruct (env_crash _); [done|]. cbv zeta.
    set (w0 := set_state _ _).
    assert (good_world w0 ∧ processes w0 = ∅ ∧ watchers w0 = []) as Hw0.
    { split_and!; [|done|done]. intros id. split; unfold w0, view_of; cbn.
      - intros s Hs. rewrite forallb_forall in Ep. specialize (Ep (id, s)). cbn in Ep.
        assert (plugin_record_ok id s = true) as Hok by (by apply Ep, list_elem_of_In, elem_of_map_to_list).
        unfold plugin_record_ok in Hok. rewrite !andb_true_iff in Hok. by destruct Hok as [[[[[[_ Hid%String.eqb_eq] _] _] _] _] _].
      - intros s Hs. by apply (Hd d id).
      - intros p. by rewrite lookup_empty.
      - rewrite lookup_empty, Hlive. by left. }
    destruct (existsb _ _); [|by intros [= <-]]. intros Hp.
    destruct Hw0 as (Hg & Hpr & Hwt). destruct (safe_quiet persistLocked (keeps_persist same_views) w0 _ w1 Hp Hg) as [Hg1 _].
    destruct (keeps_persist same_procs w0) as [Hk1 Hk2]. rewrite Hp in Hk1, Hk2. cbn in Hk1, Hk2.
    split_and!; [done|congruence|congruence].
  - intros [= <-]. split_and!; [|done|done]. intros id. split; unfold view_of; cbn; rewrite ?lookup_empty; try done.
    rewrite Hlive. by left.
Qed.

Lemma safe_persist_done : safe (_ ← persistLocked; mret tt).
Proof. apply safe_quiet, keeps_bind; [apply _|eauto with keeps|]. intros. eauto with keeps. Qed.

Lemma no_blocker s journal je id :
  interruptedRuntimeTransitionLocked s journal = None → journal !! id = Some je → blocks s je = false.
Proof.
  unfold interruptedRuntimeTransitionLocked. intros Hf Hje. assert (∃ kv, kv ∈ map_to_list journal ∧ kv.2 = je) as (kv & Hin & <-)
    by (exists (id, je); by rewrite elem_of_map_to_list).
  clear Hje. revert Hf Hin. induction (map_to_list journal) as [|kv' l IH]; [by intros _ ?%elem_of_nil|]. cbn.
  destruct (blocks s kv'.2) eqn:Eb.
  - destruct (foldr _ None l) as [b|]; cbn; [case_match|]; done.
  - intros Hf [->|Hin]%elem_of_cons; [done|by apply IH].
Qed.

Lemma persist_views (b : bool) w a w' :
  (if b then _ ← persistLocked; mret tt else mret tt) w = (Done a, w') →
  (∀ id, view_of id w' = view_of id w) ∧ Journal (state w') = Journal (state w).
Proof.
  intros Hrun. assert (∀ (R : relation World) `{!Quiet R}, R w w') as HR.
  { intros R HR. change w' with ((Done a, w').2). rewrite <- Hrun. clear -HR. destruct b; [|apply stable_refl].
    apply keeps_bind; [apply _|eauto with keeps|intros; eauto with keeps]. }
  split; [exact (HR same_views _)|]. by destruct (HR journal_kept _) as [? _].
Qed.

Lemma restoreEnabled_post w w' :
  restoreEnabled w = (Done tt, w') → good_world w → processes w = ∅ →
  good_world w' ∧ ∀ id p, processes w' !! id = Some p →
    ∃ s, startable (Journal (state w')) s ∧ p_ID s = id ∧ started s (view_of id w').
Proof.
  intros Hrun Hg Hp. unfold restoreEnabled in Hrun. rewrite bind_get, bind_run in Hrun.
  destruct (restoreCandidates _ w) as [[[plugins deferred]|] w1] eqn:Ec; [|done].
  destruct (candidates_ready _ w _ w1 Ec Hg) as (Hg1 & Hr1 & Hnd1 & Hp1 & _); [apply NoDup_fst_map_to_list| |].
  { intros id s Hin. apply elem_of_map_to_list in Hin. by rewrite Hp, lookup_empty. }
  cbn [fst] in *. rewrite bind_run in Hrun.
  destruct ((if deferred then _ ← persistLocked; mret tt else mret tt) w1) as [[[]|] w2] eqn:E2; [|done]. apply persist_views in E2 as [Hv2 Hj2].
  rewrite bind_run in Hrun. destruct (restoreStart plugins w2) as [[[]|] w3] eqn:E3; [|done].
  destruct (start_ready plugins w2 w3 E3) as (Hg3 & _ & Hp3); [by intros id; rewrite Hv2|done| |].
  { intros s Hs. destruct (Hr1 s Hs) as [(H1 & H2 & H3) _]. specialize (Hv2 (p_ID s)). unfold view_of in Hv2.
    injection Hv2 as Hv2 Hv2' _. unfold ready. rewrite Hv2, Hv2', Hj2. done. }
  pose proof (keeps_restoreStart journal_kept plugins w2) as (Hj3 & _). rewrite E3 in Hj3. cbn in Hj3.
  assert ((∀ id, view_of id w' = view_of id w3) ∧ Journal (state w') = Journal (state w3)) as [Hv4 Hj4].
  { apply (persist_views (match plugins with [] => false | _ => true end) w3 tt). by destruct plugins. }
  split; [intros id; rewrite Hv4; apply Hg3|]. intros id p Hproc.
  assert (processes w3 !! id = Some p) as Hproc3 by (specialize (Hv4 id); injection Hv4; congruence).
  destruct (Hp3 id p Hproc3) as [Hq|(s & Hs & Hid & Hst)].
  - exfalso. specialize (Hv2 id). unfold view_of in Hv2. injection Hv2 as _ Hv2 _.
    rewrite Hv2, Hp1, Hp, lookup_empty in Hq. done.
  - exists s. rewrite Hv4. split_and!; [|done|done]. destruct (Hr1 s Hs) as [(_ & _ & H3) _]. by rewrite Hj4, Hj3, Hj2.
Qed.

(** C6: the start of the Agent establishes the invariant of the running system,
    and it starts only plugins whose record is enabled with no cleanup pending
    and for which no interrupted configure, enable, disable, update or rollback
    at the desired revision or later waits for its replay. *)
Theorem start_restores_safely w w' :
  disk_good w → live w = [] → NewSupervisor (boot w) = (Done None, w') →
  invariant (Up w' ∅) ∧
  ∀ id p, processes w' !! id = Some p →
    ∃ st, Plugins (state w') !! id = Some st ∧ p_Enabled st = true ∧ p_CleanupPending st = false ∧
      ∀ op je, Journal (state w') !! op = Some je → j_PluginID je = id → j_State je = "interrupted" →
        operationBlocksAutomaticRestore (j_Kind je) = true → j_Revision je < p_DesiredRevision st.
Proof.
  intros Hd Hlive Hboot. unfold NewSupervisor in Hboot. rewrite bind_run in Hboot.
  destruct (load (boot w)) as [[[e|]|] w1] eqn:El; [done| |done].
  destruct (load_good w w1 Hd Hlive El) as (Hg1 & Hp1 & Hwt1).
  rewrite bind_run in Hboot. destruct (recoverPendingCleanup w1) as [[[]|] w2] eqn:Er; [|done].
  unfold recoverPendingCleanup in Er. rewrite bind_get in Er.
  destruct (safe_recoverAll _ w1 _ w2 Er Hg1) as [Hg2 _]. pose proof (recoverAll_processes _ w1 w2 _ Er Hg1) as Hp2.
  rewrite bind_run in Hboot. destruct (restoreEnabled w2) as [[[]|] w3] eqn:Ee; [|done]. injection Hboot as <-.
  assert (watch_ok w3) as Hwt3.
  { assert (watch_ok w1) as Hw1 by (intros id g p Hin; rewrite Hwt1 in Hin; by apply elem_of_nil in Hin).
    pose proof (keeps_recoverPending (λ w w', watch_ok w → watch_ok w') w1) as Hk. unfold recoverPendingCleanup in Hk.
    rewrite bind_get, Er in Hk. pose proof (keeps_restoreEnabled (λ w w', watch_ok w → watch_ok w') w2) as Hk'.
    rewrite Ee in Hk'. by apply Hk', Hk. }
  assert (good_world w3 ∧ ∀ id p, processes w3 !! id = Some p → ∃ s, startable (Journal (state w3)) s ∧ p_ID s = id ∧
    started s (view_of id w3)) as [Hg3 Hst].
  { apply (restoreEnabled_post w2 w3 Ee Hg2). congruence. }
  split; [split_and!; [done|done|by intros ? ? ?%lookup_empty_Some]|]. intros id p Hp.
  destruct (Hst id p Hp) as (s & (_ & _ & Hnb) & Hid & st & Hst1 & Hcp & Hrev).
  destruct (good_process _ _ (Hg3 id) p Hp) as (_ & st' & Hst' & Hen & _). 
  assert (st' = st) as -> by (cbn in *; congruence). exists st. split_and!; [done..|].
  intros op je Hje Hpl Hint Hbl. pose proof (no_blocker s _ je op Hnb Hje) as Hb. unfold blocks in Hb.
  rewrite Hpl, Hid, Hint, Hbl, String.eqb_refl in Hb. cbn in Hb. apply Z.leb_gt in Hb. lia.
Qed.

(** ** Shutdown *)

Lemma closePlugins_none ids : ∀ e w w',
  closePlugins ids e w = (Done None, w') → good_world w → NoDup ids →
  e = None ∧ (∀ id, id ∈ ids → closed_down (view_of id w')) ∧ (∀ id, id ∉ ids → view_of id w' = view_of id w).
Proof.
  induction ids as [|id ids IH]; intros e w w' Hrun Hg Hnd; cbn [closePlugins] in Hrun.
  { injection Hrun as -> <-. split_and!; [done| |done]. by intros id ?%elem_of_nil. }
  apply NoDup_cons in Hnd as [Hni Hnd]. rewrite bind_ext in Hrun. destruct (env_crash _); [done|].
  set (w1 := set_tick _ w) in Hrun. assert (good_world w1) as Hg1 by done. assert (∀ id, view_of id w1 = view_of id w) as Hv1 by done.
  clearbody w1. destruct (env_ctx _) as [le|].
  { apply IH in Hrun as (He & _); [|done..]. by apply Join_none in He as [_ ?]. }
  rewrite bind_run in Hrun. destruct (closePlugin id w1) as [[r|] w2] eqn:Ec; [|done].
  pose proof (closePlugin_post id (view_of id w1) (Hg1 id) w1 eq_refl) as Hc. rewrite Ec in Hc. destruct Hc as (Ho & Hb & Hcl).
  apply IH in Hrun as (He & Hin & Hout); [|by apply (world_of_view id w1 w2)|done].
  apply Join_none in He as [-> ->]. split_and!; [done| |].
  - intros id' [->|Hin']%elem_of_cons; [|by apply Hin]. rewrite Hout by done. by apply Hcl.
  - intros id' [Hne Hni']%not_elem_of_cons. by rewrite Hout, Ho, Hv1.
Qed.

Lemma elem_of_close_set w id :
  id ∈ close_set w ↔ is_Some (processes w !! id) ∨ ∃ s, Plugins (state w) !! id = Some s ∧ p_CleanupPending s = true.
Proof.
  unfold close_set. rewrite (merge_sort_Permutation string_le), elem_of_elements, elem_of_union, !elem_of_dom. apply or_iff_compat_l.
  split.
  - intros [s [Hs Hc]%map_lookup_filter_Some]. by exists s.
  - intros (s & Hs & Hc). exists s. by apply map_lookup_filter_Some.
Qed.

(** A shutdown that reports no error has stopped everything: the supervisor
    is closed, no process is registered, no cleanup is pending, and, when stops
    that succeed really stop, no process of a plugin is live. *)
Theorem close_is_complete w w' :
  good_world w → closed w = false → Close w = (Done None, w') →
  closed w' = true ∧ processes w' = ∅ ∧
  (∀ id s, Plugins (state w') !! id = Some s → p_CleanupPending s = false) ∧ (stops_work → live w' = []).
Proof.
  intros Hg Hcl Hrun. destruct (safe_Close w None w' Hrun Hg) as [Hg' _].
  unfold Close in Hrun. rewrite bind_get, Hcl, bind_get, bind_run in Hrun.
  destruct (closePlugins (close_set w) None w) as [[r|] w1] eqn:Ec; [|done].
  rewrite bind_run in Hrun. destruct (persistLocked w1) as [[pe|] w2] eqn:Ep; [|done]. rewrite bind_get in Hrun.
  assert (∀ id, view_of id w2 = view_of id w1) as Hv2.
  { pose proof (keeps_persist same_views w1) as Hk. by rewrite Ep in Hk. }
  rewrite bind_run in Hrun.
  assert (r = None ∧ pe = None) as [-> ->] by (apply Join_none; destruct (negb _ && _) in Hrun; by injection Hrun).
  destruct (closePlugins_none (close_set w) None w w1 Ec Hg) as (_ & Hin & Hout).
  { unfold close_set. rewrite (merge_sort_Permutation string_le). apply NoDup_elements. }
  assert (∀ id, closed_down (view_of id w2)) as Hdown.
  { intros id. rewrite Hv2. destruct (decide (id ∈ close_set w)) as [Hi|Hi]; [by apply Hin|]. rewrite Hout by done.
    rewrite elem_of_close_set in Hi. split; cbn.
    - destruct (processes w !! id) eqn:E; [|done]. destruct Hi. left. by eexists.
    - intros s Hs. apply not_true_iff_false. intros Hcp. destruct Hi. right. by exists s. }
  assert (processes w2 = ∅) as Hp2 by (apply map_empty; intros id; apply (Hdown id)).
  assert (∀ id s, Plugins (state w2) !! id = Some s → p_CleanupPending s = false) as Ht2 by (intros id s Hs; by apply (Hdown id)).
  rewrite bool_decide_eq_true_2 in Hrun by done.
  assert (existsb (λ kv, p_CleanupPending kv.2) (map_to_list (Plugins (state w2))) = false) as Hex.
  { apply not_true_iff_false. rewrite existsb_exists. intros ([id s] & Hi%list_elem_of_In%elem_of_map_to_list & Hcp). cbn in Hcp.
    rewrite (Ht2 id s Hi) in Hcp. done. }
  rewrite Hex in Hrun. cbn in Hrun. injection Hrun as <-. split_and!; [done|done|done|].
  intros Hst. apply elem_of_nil_inv. intros q Hq.
  destruct (good_live _ _ (Hg' (procPlugin q)) Hst) as [E|E]; cbn in E.
  - assert (q ∈ ([] : list Process)) as Hq' by (rewrite <- E; by apply list_elem_of_filter). by apply elem_of_nil in Hq'.
  - rewrite Hp2, lookup_empty in E. cbn in E.
    assert (q ∈ ([] : list Process)) as Hq' by (rewrite <- E; by apply list_elem_of_filter). by apply elem_of_nil in Hq'.
Qed.

End with_env.

(** ** Witnesses *)

Lemma start_restores_safely_witness :
  ∃ st, Plugins (state (@NewSupervisor (demo_env []) (boot (set_live [] demo_finish.2))).2) !! "telemetry" = Some st ∧
    p_Enabled st = true ∧ p_CleanupPending st = false.
Proof.
  destruct (@start_restores_safely (demo_env []) (set_live [] demo_finish.2)
    (@NewSupervisor (demo_env []) (boot (set_live [] demo_finish.2))).2) as [_ Hstarted].
  - intros d id s Hd Hs _. vm_compute in Hd. injection Hd as <-. cbn [Plugins] in Hs.
    assert (Plugins (state demo_finish.2) = {["telemetry" := default demo_plugin (Plugins (state demo_finish.2) !! "telemetry")]})
      as Hm by (vm_compute; reflexivity).
    change (Plugins (state demo_finish.2) !! id = Some s) in Hs. rewrite Hm in Hs. apply lookup_singleton_Some in Hs as [_ <-].
    vm_compute. reflexivity.
  - reflexivity.
  - vm_compute. reflexivity.
  - destruct (Hstarted "telemetry" (mkProcess 18 "telemetry" "1.2.0")) as (st & Hst & Hen & Hcp & _); [vm_compute; reflexivity|].
    exists st. split; [exact Hst|]. split; [exact Hen|exact Hcp].
Defined.

Lemma close_is_complete_witness :
  live (demo_run []).2 ≠ [] ∧ live (@Close (demo_env []) (demo_run []).2).2 = [].
Proof.
  split; [vm_compute; discriminate|].
  apply (@close_is_complete (demo_env []) (demo_run []).2).
  - exact demo_run_good.
  - vm_compute. reflexivity.
  - vm_compute. reflexivity.
  - intros n. reflexivity.
Defined.

End SupervisorStart.
