(* ===== verification/SupervisorResults.v ===== *)
(** * Plugin supervisor: what a successful operation has done

    The record, the revision and the process an operation leaves when it
    reports success. *)

From S2P Require Import Prelude GoStrings Json Envelope PluginNames PluginWorld PluginSecrets Supervisor SupervisorRuns SupervisorFrame SupervisorDemo.
From S2P Require Import SupervisorOnce SupervisorProcs SupervisorInvariant.
From Stdlib Require Import Ascii String.

Module SupervisorResults.
Import Envelope PluginNames PluginWorld PluginSecrets Supervisor SupervisorRuns SupervisorFrame SupervisorDemo SupervisorOnce SupervisorProcs.
Import SupervisorInvariant.

Section with_env.
Context `{Env, Codec}.

(** ** Computations that only return errors *)

Definition fails {A} (m : M (result A)) : Prop := ∀ w a w', m w ≠ (Done (Ok a), w').

Lemma fails_bind {A B} (m : M A) (f : A → M (result B)) : (∀ a, fails (f a)) → fails (m ≫= f).
Proof. intros Hf w b w'. rewrite bind_run. destruct (m w) as [[a|] w1]; [apply Hf|done]. Qed.

Lemma fails_err {A} e : fails (mret (Err e : result A)).
Proof. done. Qed.

Ltac fails_tac := repeat first [apply fails_err | apply fails_bind; intros | case_match].

Lemma fails_startFailed e o p c x : fails (updateStartFailed e o p c x).
Proof. unfold updateStartFailed. fails_tac. Qed.

Lemma fails_persistFailed e o m p c old x : fails (updatePersistFailed e o m p c old x).
Proof. unfold updatePersistFailed. fails_tac. Qed.

(** ** What success means *)

(** Whether the plugin is enabled after an operation of a kind. *)
Definition target_enabled (kind : string) (s : PluginState) : bool :=
  if String.eqb kind "plugin.enable" then true
  else if String.eqb kind "plugin.disable" then false else p_Enabled s.

(** The digest of its configuration then. *)
Definition target_hash (kind : string) (e : OperationEnvelope) (s : PluginState) : string :=
  if containsString ["plugin.enable"; "plugin.disable"] kind then p_ConfigHash s else ConfigHash e.

Record done_as (enabled : bool) (hash : string) (e : OperationEnvelope) (s' : PluginState) (v' : view) : Prop := mkDone {
  done_stored : v_plugin v' = Some s';
  done_version : p_DesiredVersion s' = TargetVersion e;
  done_revision : p_DesiredRevision s' = Revision e;
  done_config : p_ConfigHash s' = hash;
  done_enabled : p_Enabled s' = enabled;
  done_process : is_Some (v_process v') ↔ p_Enabled s' = true
}.

Definition ok_post (enabled : bool) (hash : string) (e : OperationEnvelope) (r : result RawMessage) (v' : view) : Prop :=
  ∀ s', r = Ok s' → done_as enabled hash e s' v'.

Lemma spec_ok_err {b c e} id x v : spec id (mret (Err x)) v (ok_post b c e).
Proof. by apply spec_ret. Qed.

Lemma spec_fails id m v (Q : result RawMessage → view → Prop) b c e : fails m → spec id m v Q → spec id m v (ok_post b c e).
Proof.
  intros Hf Hs w Hv. specialize (Hs w Hv). destruct (m w) as [[r|] w'] eqn:Em; [|done]. destruct Hs as [Ho _]. split; [done|].
  intros s' ->. by destruct (Hf w s' w').
Qed.

(** The record of an operation that succeeded. *)
Lemma ok_ok b c e s' op L :
  p_DesiredVersion s' = TargetVersion e → p_DesiredRevision s' = Revision e →
  p_ConfigHash s' = c → p_Enabled s' = b → (is_Some op ↔ b = true) →
  ok_post b c e (Ok s') (mkView (Some s') op L).
Proof. intros H1 H2 H3 H4 H5. intros ? [= <-]. split; try done. by rewrite H4. Qed.

Ltac err := solve [apply spec_ok_err | by apply spec_ret].

(** A call whose result does not matter to what follows: only the frame. *)
Ltac stop_any := apply spec_stop_live; [by intros ? [= <-] || done|]; intros ? ? _; cbn [v_plugin v_process v_live].

Lemma rollback_fails id (m : M error) v b c e :
  spec id m v (λ _ _, True) → spec id (x ← m; mret (Err (text x) : result RawMessage)) v (ok_post b c e).
Proof. intros Hm. apply spec_bind. eapply spec_mono; [done|]. intros a v' _. err. Qed.

Lemma configureEnabled_ok e o process path L :
  (∀ q, process = Some q → procPlugin q = p_ID o) → p_Enabled o = true → p_ObservedVersion o = p_DesiredVersion o →
  p_DesiredVersion o = TargetVersion e → (stops_work → within L process) →
  spec (p_ID o) (configureEnabled e o process path) (mkView (Some o) process L) (ok_post true (ConfigHash e) e).
Proof.
  intros Hproc Hen Hobs Hver Hlive. unfold configureEnabled. do 3 spec_step.
  2: { spec_step. apply spec_recordPluginError; [done|]. intros. err. }
  do 5 spec_step. 2: { spec_step. stop_any. spec_step. apply spec_recordTransitionFailure. intros t. err. }
  spec_step. apply spec_stopAndCleanup; [done|]. intros [cp er] L1 HL1. cbn [v_plugin v_process v_live] in *.
  assert (stops_work → L1 = []) as HL' by naive_solver.
  destruct er as [er|]; [spec_step; apply spec_recordTransitionFailure; intros t; err|].
  assert (∀ x y s0 L0, (stops_work → L0 = []) → spec (p_ID o)
    (rb ← rollbackConfiguration o (Revision e) path x y; mret (Err (text rb) : result RawMessage))
    (mkView s0 None L0) (ok_post true (ConfigHash e) e)) as Hrb.
  { intros x y s0 L0 HL. apply rollback_fails, spec_rollbackConfiguration; done. }
  do 3 spec_step; [by apply Hrb|]. do 3 spec_step; [by apply Hrb|].
  spec_step. apply spec_startVersion; cbn [v_plugin v_process v_live].
  - intros p Hp Hv. repeat spec_step.
    + apply spec_stop_live; [by intros ? [= <-]|]. cbn [v_plugin v_process v_live]. intros er' L2 HL2. apply Hrb.
      intros Hst. apply HL2; [done|]. right. by rewrite HL'.
    + by apply ok_ok.
  - intros er' L2 HL2. apply Hrb. naive_solver.
  - intros er' L2 sm x t HL2 [= <-]. apply Hrb. naive_solver.
Qed.

(** What is known of a plugin before an operation on it. *)
Record before (id : string) (e : OperationEnvelope) (v : view) : Prop := mkBefore {
  bf_good : good id v;
  bf_plugin : PluginID e = id;
  bf_revision s : v_plugin v = Some s → p_DesiredRevision s ≤ Revision e
}.

Ltac revision_tac := cbn; rewrite ?maxRevision_spec; lia.

Lemma configure_ok e id v s :
  before id e v → v_plugin v = Some s → spec id (configure e) v (ok_post (p_Enabled s) (ConfigHash e) e).
Proof.
  intros [Hg He Hrev] Hs. unfold configure. spec_step; [err|]. rewrite He. do 2 spec_step. destruct v as [os op L].
  cbn [v_plugin] in *. subst os. spec_step; [err|]. spec_step; [err|].
  apply negb_false_iff, String.eqb_eq in Heqb1. pose proof (good_id _ _ Hg s eq_refl) as Hid. cbn in Hid. clear He. subst id.
  do 2 spec_step. spec_step.
  - apply negb_true_iff in Heqb2. rewrite Heqb2. repeat spec_step; try done. case_match; [done|]. apply ok_ok; try done.
    destruct op as [p|]; [|naive_solver].
    destruct (good_process _ _ Hg p eq_refl) as (_ & ? & [= <-] & ? & _). congruence.
  - apply negb_false_iff in Heqb2. rewrite Heqb2.
    apply configureEnabled_ok; try done.
    + intros q Hq. by apply (good_process _ _ Hg q).
    + by apply (good_observed _ _ Hg s).
    + apply (good_live _ _ Hg).
Qed.

Lemma enableStart_ok e s L op :
  p_DesiredVersion s = TargetVersion e → p_DesiredRevision s ≤ Revision e →
  spec (p_ID s) (enableStart e s) (mkView (Some s) op L) (ok_post true (p_ConfigHash s) e).
Proof.
  intros Hver Hrev. unfold enableStart. spec_step. apply spec_startVersion; cbn [v_plugin v_process v_live].
  - intros p Hp Hv. repeat spec_step.
    + apply spec_stop_live; [by intros ? [= <-]|]. intros. err.
    + apply ok_ok; cbn; try done; revision_tac.
  - intros er L1 _. spec_step. apply spec_recordPluginError; [done|]. intros. err.
  - intros er L1 s1 x t _ [= <-]. spec_step. apply spec_recordPluginError; [done|]. intros. err.
Qed.

Lemma enable_ok e id v s : before id e v → v_plugin v = Some s → spec id (enable e) v (ok_post true (p_ConfigHash s) e).
Proof.
  intros [Hg He Hrev] Hs. unfold enable. rewrite He. do 2 spec_step. destruct v as [os op L]. cbn [v_plugin] in *. subst os.
  do 2 (spec_step; [err|]). apply negb_false_iff, String.eqb_eq in Heqb0. specialize (Hrev s eq_refl).
  pose proof (good_id _ _ Hg s eq_refl) as Hid. cbn in Hid. clear He. subst id. do 2 spec_step. cbn [v_process].
  destruct op as [p|]; [|by apply enableStart_ok]. destruct (good_process _ _ Hg p eq_refl) as (Hp & ? & [= <-] & Hen & _).
  spec_step; [|by apply enableStart_ok]. do 3 spec_step.
  2: { repeat spec_step. case_match; [done|]. apply ok_ok; cbn; try done; revision_tac. }
  do 5 spec_step.
  2: { spec_step. apply spec_stop_live; [by intros ? [= <-]|]. intros. spec_step. apply spec_recordTransitionFailure. intros. err. }
  spec_step. apply spec_stopAndCleanup; [by intros ? [= <-]|]. intros [cp er] L1 _. cbn [v_plugin v_process v_live].
  destruct er as [er|]; [spec_step; apply spec_recordTransitionFailure; intros; err|].
  do 3 spec_step; [spec_step; apply spec_recordStopFailure; intros; err|by apply enableStart_ok].
Qed.

Lemma disable_ok e id v s : before id e v → v_plugin v = Some s → spec id (disable e) v (ok_post false (p_ConfigHash s) e).
Proof.
  intros [Hg He Hrev] Hs. unfold disable. rewrite He. do 2 spec_step. destruct v as [os op L]. cbn [v_plugin] in *. subst os.
  spec_step; [err|]. apply negb_false_iff, String.eqb_eq in Heqb. specialize (Hrev s eq_refl).
  pose proof (good_id _ _ Hg s eq_refl) as Hid. cbn in Hid. clear He. subst id.
  assert (∀ q, op = Some q → procPlugin q = p_ID s) as Hproc by (intros q Hq; apply (good_process _ _ Hg q Hq)).
  do 6 spec_step. spec_step. apply spec_stop_live; [done|]. intros er L1 _. cbn [v_plugin v_process v_live].
  clear Hproc Hg. repeat spec_step.
  all: match goal with |- ok_post _ _ _ _ (mkView (Some ?x) _ _) => set (s1 := x) end.
  all: assert (p_Enabled s1 = false ∧ p_DesiredVersion s1 = TargetVersion e ∧ p_DesiredRevision s1 = Revision e ∧
    p_ConfigHash s1 = p_ConfigHash s) as (H1 & H2 & H3 & H4)
    by (unfold s1; repeat case_match; split_and!; try done; revision_tac).
  all: clearbody s1; repeat case_match; try done; apply ok_ok; try done; naive_solver.
Qed.

Lemma updateDisabled_ok e o m f L :
  (∀ x, keeps same_views (f x)) → p_Enabled o = false → p_DesiredRevision o ≤ Revision e →
  spec (p_ID o) (updateDisabled e o m f) (mkView (Some o) None L) (ok_post false (ConfigHash e) e).
Proof.
  intros Hf Hen Hrev. unfold updateDisabled. do 3 spec_step.
  - spec_step. apply spec_quiet; [done|]. intros te. spec_step. apply spec_recordTransitionFailure. intros. err.
  - do 7 spec_step.
    + do 3 spec_step. apply spec_quiet; [done|]. intros. err.
    + spec_step. apply ok_ok; cbn; first [done|revision_tac|naive_solver].
Qed.

Lemma updateStopped_ok e o stopErr tm cm path old L :
  p_Enabled o = true → p_ObservedVersion o = p_DesiredVersion o → p_DesiredRevision o ≤ Revision e → (stops_work → L = []) →
  spec (p_ID o) (updateStopped e o stopErr tm cm path old) (mkView (Some o) None L) (ok_post true (ConfigHash e) e).
Proof.
  intros Hen Hobs Hrev HL. unfold updateStopped. pose (v0 := mkView (Some o) None L). do 3 spec_step.
  - do 5 spec_step. apply spec_recordTransitionFailure. intros. err.
  - do 3 spec_step.
    + do 5 spec_step. apply spec_recordStopFailure. intros. err.
    + spec_step. apply spec_startVersion; cbn [v_plugin v_process v_live].
      * intros p Hp Hv. do 9 spec_step.
        -- repeat spec_step. eapply spec_fails; [apply fails_persistFailed|].
           apply (updatePersistFailed_post e o tm p path old _ _ v0); try done. intros Hst. right. by rewrite HL.
        -- spec_step. apply ok_ok; cbn; try done; revision_tac.
      * intros x L2 HL2. eapply spec_fails; [apply fails_startFailed|].
        apply (updateStartFailed_post e o path old x _ _ v0); try done; [naive_solver|by intros ? [= <-]].
      * intros x L2 s1 y t HL2 [= <-]. eapply spec_fails; [apply fails_startFailed|].
        apply (updateStartFailed_post e o path old x _ _ v0); try done; [naive_solver|by intros ? [= <-]].
Qed.

Lemma updateVersion_ok e s v :
  good (p_ID s) v → v_plugin v = Some s → p_DesiredRevision s ≤ Revision e →
  spec (p_ID s) (updateVersion e s) v (ok_post (p_Enabled s) (ConfigHash e) e).
Proof.
  intros Hg Hs Hrev. destruct v as [os op L]. cbn in Hs. subst os. unfold updateVersion. do 2 spec_step.
  do 3 spec_step; [|err]. do 3 spec_step; [|err]. do 3 spec_step; [|err]. do 3 spec_step; [err|]. cbn [v_process].
  pose proof (good_live _ _ Hg) as Hlive. cbn [v_live v_process] in Hlive. destruct (p_Enabled s) eqn:Hen; cbn [negb].
  - pose proof (good_observed _ _ Hg s eq_refl Hen) as Hobs. cbn in Hobs. unfold updateEnabled. spec_step. destruct op as [p|].
    + do 2 spec_step. apply spec_stop.
      * by apply (good_process _ _ Hg p).
      * apply updateStopped_ok; try done. intros Hst. cbn. destruct (Hlive Hst) as [-> | ->]; [done|]. cbn [live_of].
        by rewrite filter_cons, decide_False by tauto.
      * intros n x Hx. apply updateStopped_ok; try done. intros Hst. specialize (Hst n). congruence.
    + spec_step. apply updateStopped_ok; try done. intros Hst. by apply within_none, Hlive.
  - destruct op as [p|]; [by destruct (good_process _ _ Hg p eq_refl) as (_ & s0 & [= <-] & ? & _); congruence|].
    apply updateDisabled_ok; try done. intros x. apply keeps_bind; [apply _|eauto with keeps|]. intros ?. eauto with keeps.
Qed.

Lemma update_ok e id v s :
  before id e v → v_plugin v = Some s → spec id (update e) v (ok_post (p_Enabled s) (ConfigHash e) e).
Proof.
  intros Hb Hs. pose proof Hb as [Hg He Hrev]. unfold update. rewrite He. spec_step; [err|]. do 2 spec_step. rewrite Hs.
  pose proof (good_id _ _ Hg s Hs) as Hid. cbn in Hid.
  spec_step; [|rewrite <- Hid in *; by apply updateVersion_ok; auto]. apply String.eqb_eq in Heqb0.
  destruct (String.eqb_spec (p_ConfigHash s) (ConfigHash e)) as [Eh|Eh]; [|do 2 spec_step; by apply configure_ok].
  spec_step. apply spec_quiet; [apply keeps_bind; [apply _|eauto with keeps|]; intros ?; eauto with keeps|].
  intros [[|]|]; [|by apply configure_ok|err].
  destruct (p_Enabled s) eqn:Hen; cbn [negb].
  - rewrite <- Eh. by apply enable_ok.
  - specialize (Hrev s Hs). destruct v as [os op L]. cbn in Hs. subst os. clear He Hb. subst id.
    repeat spec_step. case_match; [done|]. apply ok_ok; cbn; try done; [revision_tac|].
    destruct op as [p|]; [|naive_solver]. destruct (good_process _ _ Hg p eq_refl) as (_ & ? & [= <-] & ? & _). congruence.
Qed.

Lemma rollback_ok e id v s :
  before id e v → v_plugin v = Some s → spec id (rollback e) v (ok_post (p_Enabled s) (ConfigHash e) e).
Proof.
  intros Hb Hs. pose proof Hb as [Hg He Hrev]. unfold rollback. rewrite He. do 2 spec_step. rewrite Hs.
  do 2 (spec_step; [err|]). by apply update_ok.
Qed.

(** The kinds that change a plugin that is installed. *)
Definition transition_kinds : list string :=
  ["plugin.configure"; "plugin.enable"; "plugin.disable"; "plugin.update"; "plugin.rollback"].

Lemma executePrepared_ok k e id v s :
  k ∈ transition_kinds → before id e v → v_plugin v = Some s →
  spec id (executePreparedOperation k e) v (ok_post (target_enabled k s) (target_hash k e s) e).
Proof.
  intros Hk Hb Hs. unfold transition_kinds in Hk. rewrite !elem_of_cons, elem_of_nil in Hk.
  destruct Hk as [->|[->|[->|[->|[->|[]]]]]]; unfold executePreparedOperation; cbn [String.eqb Ascii.eqb Bool.eqb].
  - by apply configure_ok.
  - by apply enable_ok.
  - by apply disable_ok.
  - by apply update_ok.
  - by apply rollback_ok.
Qed.

(** An operation on a plugin that is not installed fails. *)
Lemma executePrepared_missing k e id v :
  k ∈ transition_kinds → PluginID e = id → v_plugin v = None →
  spec id (executePreparedOperation k e) v (λ r _, ∀ s', r ≠ Ok s').
Proof.
  intros Hk He Hs. unfold transition_kinds in Hk. rewrite !elem_of_cons, elem_of_nil in Hk.
  destruct Hk as [->|[->|[->|[->|[->|[]]]]]]; unfold executePreparedOperation; cbn [String.eqb Ascii.eqb Bool.eqb].
  1: unfold configure. 2: unfold enable. 3: unfold disable. 4: unfold update. 5: unfold rollback.
  all: rewrite He; repeat (spec_step; try rewrite Hs); done.
Qed.

(** What success of an operation from a view means: the plugin was installed. *)
Definition outcome_post (k : string) (e : OperationEnvelope) (v : view) (r : result RawMessage) (v' : view) : Prop :=
  ∀ s', r = Ok s' → ∃ s, v_plugin v = Some s ∧ done_as (target_enabled k s) (target_hash k e s) e s' v'.

Lemma outcome_err k e v x v' : outcome_post k e v (Err x) v'.
Proof. done. Qed.

Lemma executePrepared_outcome k e id v :
  k ∈ transition_kinds → before id e v → spec id (executePreparedOperation k e) v (outcome_post k e v).
Proof.
  intros Hk Hb. destruct (v_plugin v) as [s|] eqn:Hs.
  - eapply spec_mono; [by apply (executePrepared_ok k e id v s)|]. intros r v' Hok s' Hr. exists s. split; [done|by apply Hok].
  - eapply spec_mono; [by apply (executePrepared_missing k e id v); destruct Hb|]. intros r v' Hno s' Hr. by destruct (Hno s').
Qed.

Lemma executeMaterialized_outcome k e b id v :
  k ∈ transition_kinds → before id e v → spec id (executeMaterialized k e b) v (outcome_post k e v).
Proof.
  intros Hk Hb. unfold executeMaterialized. do 3 spec_step; [|by spec_step].
  do 3 spec_step; [by do 3 spec_step|]. cbv zeta.
  assert (∀ undo, keeps same_views undo → spec id
    (r ← executePreparedOperation k (with_config e (runtimeConfig a0));
     match r with
     | Err x => undone ← undo; rb ← rollbackSecrets a0; mret (Err (text (Join (Some x :: undone ++ [rb]))))
     | Ok result => commitErr ← commit a0; mret (match commitErr with Some e => Err e | None => Ok result end)
     end) v (outcome_post k e v)) as Hrun.
  { intros undo Hu. spec_step. eapply spec_mono; [apply executePrepared_outcome; [done|by destruct Hb]|].
    intros r v' Hok. destruct r as [x|x].
    - do 3 spec_step. case_match; [done|]. intros s' Hr. destruct (Hok s' Hr) as (s & Hs & [D1 D2 D3 D4 D5 D6]). exists s. by split.
    - spec_step. apply spec_quiet; [done|]. intros u. by do 3 spec_step. }
  destruct b; [|apply Hrun; eauto with keeps].
  do 3 spec_step; [|by do 3 spec_step]. do 3 spec_step; [by do 3 spec_step|].
  apply Hrun. apply keeps_bind; [apply _|eauto with keeps|]. intros ?. eauto with keeps.
Qed.

Lemma executeOperation_outcome k e rep l id v :
  k ∈ transition_kinds → PluginID e = id → good id v → spec id (executeOperation k e rep l) v (outcome_post k e v).
Proof.
  intros Hk He Hg. assert (operationMutatesState k = true ∧ String.eqb k "plugin.install" = false) as [Hm Hi].
  { unfold transition_kinds in Hk. rewrite !elem_of_cons, elem_of_nil in Hk. by destruct Hk as [->|[->|[->|[->|[->|[]]]]]]. }
  unfold executeOperation. rewrite Hm, Hi. spec_step. apply spec_rejectStale; [done|intros x; by spec_step|].
  intros Hrev. assert (before id e v) as Hb by done.
  spec_step; [by apply executeMaterialized_outcome|by apply executePrepared_outcome].
Qed.

Lemma runOperation_outcome k e rep l id v :
  k ∈ transition_kinds → PluginID e = id → good id v → spec id (runOperation k e rep l) v (outcome_post k e v).
Proof.
  intros Hk He Hg. unfold runOperation. do 3 spec_step; [by spec_step|]. do 3 spec_step; [by spec_step|].
  spec_step; [|by apply executeOperation_outcome]. rewrite He. spec_step. apply spec_recover.
  - intros _. by apply executeOperation_outcome.
  - intros x. by spec_step.
  - intros r s pend cv h x t Hs Hr. destruct v as [os op L]. cbn in Hs. subst os. cbn [v_process v_live].
    destruct r as [y|]; [by spec_step|].
    eapply spec_mono; [apply executeOperation_outcome; [done|done|by eapply good_keep]|].
    intros r' v' Hok s' Hs'. destruct (Hok s' Hs') as (s0 & [= <-] & Hd). exists s. split; [done|].
    unfold target_enabled, target_hash in *. repeat case_match; done.
Qed.

(** C9: an operation that reports success has done what was asked: the record it
    returns is the stored one, at the target version and the operation's
    revision, with the digest of its configuration; the plugin is enabled after
    enable, disabled after disable and as before otherwise; and it has a
    registered process exactly when it is enabled. *)
Theorem successful_operation_effect kind e rep loader w s' w' :
  good_world w → kind ∈ transition_kinds → runOperation kind e rep loader w = (Done (Ok s'), w') →
  ∃ s, Plugins (state w) !! PluginID e = Some s ∧ Plugins (state w') !! PluginID e = Some s' ∧
    p_DesiredVersion s' = TargetVersion e ∧ p_DesiredRevision s' = Revision e ∧ p_ConfigHash s' = target_hash kind e s ∧
    p_Enabled s' = target_enabled kind s ∧ (is_Some (processes w' !! PluginID e) ↔ p_Enabled s' = true).
Proof.
  intros Hg Hk Hrun.
  pose proof (runOperation_outcome kind e rep loader (PluginID e) _ Hk eq_refl (Hg (PluginID e)) w eq_refl) as Hs.
  rewrite Hrun in Hs. destruct Hs as [_ Hok]. destruct (Hok s' eq_refl) as (s & Hs & [H1 H2 H3 H4 H5 H6]). by exists s.
Qed.

End with_env.

(** ** Witness *)

Lemma successful_operation_effect_witness :
  ∃ s', demo_result = Ok s' ∧ p_DesiredRevision s' = 7 ∧ p_Enabled s' = true.
Proof.
  destruct (@successful_operation_effect (demo_env []) toy_codec "plugin.enable" (normalized demo_envelope) false false
    (demo_begin []).2 (match demo_result with Ok s => s | Err _ => demo_plugin end) (demo_run []).2) as (s & _ & _ & _ & Hr & _ & He & _).
  - exact demo_begin_good.
  - by apply (bool_decide_unpack _).
  - vm_compute. reflexivity.
  - eexists. split; [vm_compute; reflexivity|]. split; [exact Hr|exact He].
Defined.

End SupervisorResults.
