(* ===== verification/GoNet.v ===== *)
(** * Go: addresses and text

    [netip.ParseAddr], [net.SplitHostPort], [strconv.Atoi], [strings.ReplaceAll]
    and [strings.Fields], as the configuration of ANX lines uses them. *)

From S2P Require Import Prelude GoStrings.
From Stdlib Require Import Ascii String.

Module GoNet.

(** ** Addresses *)

(** An IPv4 address, or the eight groups of an IPv6 address and its zone. *)
Inductive Addr :=
| V4 (a b c d : Z)
| V6 (groups : list Z) (zone : string).

#[export] Instance Addr_eq_dec : EqDecision Addr.
Proof. solve_decision. Defined.

Definition Is4 (a : Addr) : bool := match a with V4 _ _ _ _ => true | V6 _ _ => false end.

(** One field of a dotted quad: no leading zero, at most 255. *)
Definition octet (s : string) : option Z :=
  match s with
  | EmptyString => None
  | String c r =>
    if Ascii.eqb c "0" && negb (String.eqb r "") then None
    else match parse_dec_from 0 s with
         | Some n => if n <=? 255 then Some n else None
         | None => None
         end
  end.

Definition parseIPv4Fields (s : string) : option (Z * Z * Z * Z) :=
  match split s "." with
  | [a; b; c; d] =>
    match octet a, octet b, octet c, octet d with
    | Some a, Some b, Some c, Some d => Some (a, b, c, d)
    | _, _, _, _ => None
    end
  | _ => None
  end.

(** The hexadecimal digits at the start: their number, value and what follows;
    more than four fail. *)
Fixpoint hex_run (s : string) (off acc : Z) : option (Z * Z * string) :=
  match s with
  | EmptyString => Some (off, acc, s)
  | String c r =>
    match hex_value c with
    | None => Some (off, acc, s)
    | Some d => if 3 <? off then None else hex_run r (off + 1) (acc * 16 + d)
    end
  end.

(** The end of [parseIPv6]: the whole string is used, an ellipsis stands for at
    least one group. *)
Definition finish_v6 (s : string) (groups : list Z) (ellipsis : option nat) : option (list Z) :=
  if negb (String.eqb s "") then None
  else match ellipsis with
       | None => if bool_decide (List.length groups = 8%nat) then Some groups else None
       | Some e => if bool_decide (List.length groups < 8)%nat
                   then Some (take e groups ++ replicate (8 - List.length groups) 0 ++ drop e groups) else None
       end.

(** The loop of [parseIPv6]; [fuel] is the number of groups that still fit. *)
Fixpoint v6_loop (fuel : nat) (s : string) (groups : list Z) (ellipsis : option nat) : option (list Z) :=
  match fuel with
  | O => finish_v6 s groups ellipsis
  | S fuel =>
    match hex_run s 0 0 with
    | None => None
    | Some (off, acc, rest) =>
      if off =? 0 then None
      else match rest with
           | EmptyString => finish_v6 "" (groups ++ [acc]) ellipsis
           | String c r =>
             if Ascii.eqb c "." then
               if negb (bool_decide (is_Some ellipsis)) && negb (bool_decide (List.length groups = 6%nat)) then None
               else if bool_decide (6 < List.length groups)%nat then None
               else match parseIPv4Fields s with
                    | None => None
                    | Some (x, y, z, t) => finish_v6 "" (groups ++ [x * 256 + y; z * 256 + t]) ellipsis
                    end
             else if negb (Ascii.eqb c ":") then None
             else match r with
                  | EmptyString => None
                  | String c2 r2 =>
                    let groups := groups ++ [acc] in
                    if Ascii.eqb c2 ":" then
                      match ellipsis with
                      | Some _ => None
                      | None => if String.eqb r2 "" then finish_v6 "" groups (Some (List.length groups))
                                else v6_loop fuel r2 groups (Some (List.length groups))
                      end
                    else v6_loop fuel r groups ellipsis
                  end
           end
    end
  end.

Definition parseIPv6 (s : string) : option Addr :=
  let '(s, zone) := match cut s "%" with Some (a, z) => (a, Some z) | None => (s, None) end in
  if bool_decide (zone = Some "") then None
  else
    let zone := default "" zone in
    let groups := if has_prefix s "::" then
                    let s := drop_chars 2 s in
                    if String.eqb s "" then Some (replicate 8 0) else v6_loop 8 s [] (Some O)
                  else v6_loop 8 s [] None in
    (λ g, V6 g zone) <$> groups.

(** [netip.ParseAddr]: the first dot, colon or percent sign decides. *)
Fixpoint first_of (s : string) (chars : string) : option ascii :=
  match s with
  | EmptyString => None
  | String c s => if contains_char chars c then Some c else first_of s chars
  end.

Definition ParseAddr (s : string) : option Addr :=
  match first_of s ".:%" with
  | Some c =>
    if Ascii.eqb c "." then (λ '(x, y, z, t), V4 x y z t) <$> parseIPv4Fields s
    else if Ascii.eqb c ":" then parseIPv6 s else None
  | None => None
  end.

(** [Addr.String] of an IPv4 address. *)
Definition v4_string (a b c d : Z) : string :=
  format_uint a +:+ "." +:+ format_uint b +:+ "." +:+ format_uint c +:+ "." +:+ format_uint d.

Example parse_addr_examples :
  ParseAddr "192.0.2.7" = Some (V4 192 0 2 7) ∧ ParseAddr "192.0.2.07" = None ∧ ParseAddr "1.2.3" = None ∧
  ParseAddr "2001:db8::1" = Some (V6 [8193; 3512; 0; 0; 0; 0; 0; 1] "") ∧ ParseAddr "::" = Some (V6 [0; 0; 0; 0; 0; 0; 0; 0] "") ∧
  ParseAddr "::ffff:1.2.3.4" = Some (V6 [0; 0; 0; 0; 0; 65535; 258; 772] "") ∧ ParseAddr "fe80::1%eth0" = Some (V6 [65152; 0; 0; 0; 0; 0; 0; 1] "eth0") ∧
  ParseAddr "1::2::3" = None ∧ ParseAddr "1:2:3:4:5:6:7:8" = Some (V6 [1; 2; 3; 4; 5; 6; 7; 8] "") ∧
  ParseAddr "1:2:3:4:5:6:7::8" = None ∧ ParseAddr "12345::" = None ∧ ParseAddr "" = None.
Proof. vm_compute. done. Qed.

(** ** Host and port *)

Fixpoint last_index (s : string) (c : ascii) : option nat :=
  match s with
  | EmptyString => None
  | String d s => match last_index s c with
                  | Some i => Some (S i)
                  | None => if Ascii.eqb c d then Some O else None
                  end
  end.

Fixpoint index (s : string) (c : ascii) : option nat :=
  match s with
  | EmptyString => None
  | String d s => if Ascii.eqb c d then Some O else S <$> index s c
  end.

Definition slice (s : string) (i j : nat) : string := String.substring i (j - i) s.

Definition SplitHostPort (hostport : string) : option (string * string) :=
  match last_index hostport ":" with
  | None => None
  | Some i =>
    let finish (host : string) (j k : nat) :=
      if contains_char (drop_chars j hostport) "[" || contains_char (drop_chars k hostport) "]" then None
      else Some (host, drop_chars (S i) hostport) in
    if has_prefix hostport "[" then
      match index hostport "]" with
      | None => None
      | Some e => if bool_decide (S e = i) then finish (slice hostport 1 e) 1%nat (S e) else None
      end
    else
      let host := slice hostport 0 i in
      if contains_char host ":" then None else finish host O O
  end.

(** [strconv.Atoi]: an optional sign and digits; out of range fails. *)
Definition Atoi (s : string) : option Z :=
  let digits (neg : bool) (s : string) :=
    match s with
    | EmptyString => None
    | _ => match parse_dec_from 0 s with
           | Some n => let n := if neg then - n else n in
                       if (- 2 ^ 63 <=? n) && (n <? 2 ^ 63) then Some n else None
           | None => None
           end
    end in
  match s with
  | String c r => if Ascii.eqb c "-" then digits true r else if Ascii.eqb c "+" then digits false r else digits false s
  | EmptyString => None
  end.

Example split_host_port_examples :
  SplitHostPort "192.0.2.1:80" = Some ("192.0.2.1", "80") ∧ SplitHostPort "[2001:db8::1]:443" = Some ("2001:db8::1", "443") ∧
  SplitHostPort "2001:db8::1:443" = None ∧ SplitHostPort "host" = None ∧ SplitHostPort "[::1]" = None ∧
  SplitHostPort ":80" = Some ("", "80") ∧ Atoi "+80" = Some 80 ∧ Atoi "-1" = Some (-1) ∧ Atoi "8o" = None.
Proof. vm_compute. done. Qed.

(** ** Text *)

(** [strings.ReplaceAll] of a non-empty text; [skip] bytes belong to the
    occurrence just replaced. *)
Fixpoint replace_from (skip : nat) (s old new : string) : string :=
  match s with
  | EmptyString => EmptyString
  | String c r =>
    match skip with
    | S k => replace_from k r old new
    | O => if has_prefix s old then new +:+ replace_from (Nat.pred (String.length old)) r old new
           else String c (replace_from O r old new)
    end
  end.

Definition ReplaceAll (s old new : string) : string := replace_from O s old new.

(** [strings.Fields]: the maximal pieces without white space; [skip] bytes
    belong to the space just read, [word] is the piece read so far. *)
Fixpoint fields_from (skip : nat) (word s : string) : list string :=
  match s with
  | EmptyString => match word with EmptyString => [] | _ => [word] end
  | String c r =>
    match skip with
    | S k => fields_from k word r
    | O => match first_prefix space_encodings s with
           | Some p => match word with
                       | EmptyString => fields_from (Nat.pred (String.length p)) "" r
                       | _ => word :: fields_from (Nat.pred (String.length p)) "" r
                       end
           | None => fields_from O (word +:+ String c "") r
           end
    end
  end.

Definition Fields (s : string) : list string := fields_from O "" s.

Example text_examples :
  ReplaceAll "tcp sport {port} or {port}" "{port}" "80" = "tcp sport 80 or 80" ∧
  Fields "  a  bc d " = ["a"; "bc"; "d"] ∧ Fields "" = [].
Proof. vm_compute. done. Qed.

(** ** Prefixes *)

Definition BitLen (a : Addr) : Z := if Is4 a then 32 else 128.

Definition Zone (a : Addr) : string := match a with V4 _ _ _ _ => "" | V6 _ zone => zone end.

(** The address as a number of [BitLen] bits. *)
Definition addr_value (a : Addr) : Z :=
  match a with
  | V4 a b c d => Z.lor (Z.shiftl a 24) (Z.lor (Z.shiftl b 16) (Z.lor (Z.shiftl c 8) d))
  | V6 groups _ => foldl (λ n g, Z.lor (Z.shiftl n 16) g) 0 groups
  end.

Record Prefix := mkPrefix { pAddr : Addr; Bits : Z }.

Definition ParsePrefix (s : string) : option Prefix :=
  match last_index s "/" with
  | None => None
  | Some i =>
    match ParseAddr (slice s 0 i) with
    | None => None
    | Some ip =>
      let bits := drop_chars (S i) s in
      if negb (String.eqb (Zone ip) "") then None
      else if (1 <? len bits) && negb (holds_of (in_range "1" "9") (first_char bits)) then None
      else match Atoi bits with
           | None => None
           | Some n => if (n <? 0) || (BitLen ip <? n) then None else Some (mkPrefix ip n)
           end
    end
  end.

(** The network part of an address: [Masked] zeroes the host bits, so two
    addresses are masked alike when their network parts agree. *)
Definition network (p : Prefix) (a : Addr) : Z := Z.shiftr (addr_value a) (BitLen (pAddr p) - Bits p).

Definition masked_value (p : Prefix) : Z := Z.shiftl (network p (pAddr p)) (BitLen (pAddr p) - Bits p).

Definition Contains (p : Prefix) (a : Addr) : bool :=
  String.eqb (Zone a) "" && (BitLen a =? BitLen (pAddr p)) && (network p a =? network p (pAddr p)).

Example prefix_examples :
  ParsePrefix "10.66.0.1/16" = Some (mkPrefix (V4 10 66 0 1) 16) ∧ ParsePrefix "10.0.0.0/08" = None ∧ ParsePrefix "10.0.0.0/33" = None ∧
  ParsePrefix "fd00::1/64" = Some (mkPrefix (V6 [64768; 0; 0; 0; 0; 0; 0; 1] "") 64) ∧ ParsePrefix "10.0.0.1" = None ∧
  masked_value (mkPrefix (V4 10 66 0 1) 16) = addr_value (V4 10 66 0 0) ∧
  Contains (mkPrefix (V4 10 66 0 0) 16) (V4 10 66 3 4) = true ∧ Contains (mkPrefix (V4 10 66 0 0) 16) (V4 10 67 0 1) = false.
Proof. vm_compute. done. Qed.

(** [Addr.String]. *)
Fixpoint hex_digits (fuel : nat) (n : Z) (acc : string) : string :=
  match fuel with
  | O => acc
  | S fuel => let acc := String (hex_digit (n mod 16)) acc in if n <? 16 then acc else hex_digits fuel (n / 16) acc
  end.

(** The number of zero groups at the start. *)
Fixpoint zero_run (groups : list Z) : nat :=
  match groups with g :: groups => if g =? 0 then S (zero_run groups) else O | [] => O end.

(** The start and length of the first longest run of two or more zero groups. *)
Fixpoint longest_zeros (i : nat) (groups : list Z) (best : nat * nat) : nat * nat :=
  match groups with
  | [] => best
  | _ :: rest =>
    let n := zero_run groups in
    longest_zeros (S i) rest (if (Nat.leb 2 n) && (Nat.ltb best.2 n) then (i, n) else best)
  end.

Fixpoint join_groups (groups : list Z) : string :=
  match groups with
  | [] => ""
  | [g] => hex_digits 4 g ""
  | g :: groups => hex_digits 4 g "" +:+ ":" +:+ join_groups groups
  end.

Definition v6_text (groups : list Z) : string :=
  match groups with
  | [0; 0; 0; 0; 0; 65535; x; y] => "::ffff:" +:+ v4_string (x / 256) (x mod 256) (y / 256) (y mod 256)
  | _ =>
    let '(i, n) := longest_zeros O groups (O, O) in
    match n with
    | O => join_groups groups
    | _ => join_groups (take i groups) +:+ "::" +:+ join_groups (drop (i + n) groups)
    end
  end.

Definition addr_string (a : Addr) : string :=
  match a with
  | V4 a b c d => v4_string a b c d
  | V6 groups zone => v6_text groups +:+ (if String.eqb zone "" then "" else "%" +:+ zone)
  end.

Example addr_string_examples :
  addr_string (V6 [8193; 3512; 0; 0; 0; 0; 0; 1] "") = "2001:db8::1" ∧ addr_string (V6 (replicate 8 0) "") = "::" ∧
  addr_string (V6 [1; 0; 0; 2; 0; 0; 0; 3] "") = "1:0:0:2::3" ∧ addr_string (V6 [65152; 0; 0; 0; 0; 0; 0; 1] "eth0") = "fe80::1%eth0" ∧
  addr_string (V6 [0; 0; 0; 0; 0; 65535; 258; 772] "") = "::ffff:1.2.3.4" ∧ addr_string (V6 [1; 2; 3; 4; 5; 6; 7; 0] "") = "1:2:3:4:5:6:7:0".
Proof. vm_compute. done. Qed.

(** ** Round trip of IPv4 addresses *)

Lemma octet_format n : 0 ≤ n < 256 → octet (format_uint n) = Some n ∧ contains_char (format_uint n) "." = false.
Proof.
  intros Hn. assert (∀ k, (k < 256)%nat → octet (format_uint (Z.of_nat k)) = Some (Z.of_nat k) ∧
    contains_char (format_uint (Z.of_nat k)) "." = false) as Hall.
  { assert (Forall (λ k, octet (format_uint (Z.of_nat k)) = Some (Z.of_nat k) ∧
      contains_char (format_uint (Z.of_nat k)) "." = false) (seq 0 256)) as Hf.
    { apply (bool_decide_unpack _). vm_compute. exact I. }
    intros k Hk. rewrite Forall_forall in Hf. apply Hf, elem_of_seq. lia. }
  specialize (Hall (Z.to_nat n)). rewrite Z2Nat.id in Hall by lia. apply Hall. lia.
Qed.

Lemma split_cons a s sep : contains_char a sep = false → split (a +:+ String sep s) sep = a :: split s sep.
Proof.
  induction a as [|c a IH]; cbn [contains_char].
  - intros _. change ("" +:+ String sep s) with (String sep s). cbn [split]. by rewrite Ascii.eqb_refl.
  - intros [Hc Ha]%orb_false_iff. rewrite app_cons_str. cbn [split]. by rewrite Ascii.eqb_sym, Hc, IH.
Qed.

Lemma split_single a sep : contains_char a sep = false → split a sep = [a].
Proof.
  induction a as [|c a IH]; [done|]. cbn [split contains_char]. intros [Hc Ha]%orb_false_iff. by rewrite Ascii.eqb_sym, Hc, IH.
Qed.

Lemma first_of_digits a s : contains_char a "." = false → all_chars is_digit a = true → first_of (a +:+ String "." s) ".:%" = Some "."%char.
Proof.
  induction a as [|c a IH]; [done|]. cbn [contains_char all_chars].
  intros [Hc Ha]%orb_false_iff [Hd Hr]%andb_true_iff. rewrite app_cons_str. cbn [first_of].
  assert (contains_char ".:%" c = false) as ->; [|by apply IH].
  cbn. rewrite Ascii.eqb_sym in Hc. rewrite Hc. cbn.
  destruct (Ascii.eqb_spec c ":") as [->|]; [done|]. by destruct (Ascii.eqb_spec c "%") as [->|].
Qed.

Lemma parse_v4_string a b c d :
  0 ≤ a < 256 → 0 ≤ b < 256 → 0 ≤ c < 256 → 0 ≤ d < 256 → ParseAddr (v4_string a b c d) = Some (V4 a b c d).
Proof.
  intros Ha Hb Hc Hd. destruct (octet_format a Ha) as [Oa Ca], (octet_format b Hb) as [Ob Cb], (octet_format c Hc) as [Oc Cc],
    (octet_format d Hd) as [Od Cd]. unfold ParseAddr, v4_string.
  assert (∀ x, "." +:+ x = String "." x) as Hdot by done. rewrite !Hdot.
  rewrite first_of_digits; [|done|by apply format_uint_shape; lia].
  cbn [Ascii.eqb Bool.eqb]. unfold parseIPv4Fields. rewrite (split_cons _ _ _ Ca), (split_cons _ _ _ Cb), (split_cons _ _ _ Cc), (split_single _ _ Cd). by rewrite Oa, Ob, Oc, Od.
Qed.

End GoNet.
