(* ===== verification/AnxLine.v ===== *)
(** * ANX lines: configuration and packet filter

    The AnxLine section (anxline/config.go): its defaults, its validation and
    the nftables rules of fake-TCP carriers, and the script that installs them
    (anxline/firewall.go). *)

From S2P Require Import Prelude GoStrings GoNet.
From Stdlib Require Import Ascii String.

Module AnxLine.
Import GoNet.

(** ** Data *)

Record Probe := mkProbe { Kind : string; Target : string }.

Record Path := mkPath {
  Endpoint : Z;
  PathAddr : string;
  Dev : string;
  Flags : list string;
  PathProbe : Probe
}.

Record Multipath := mkMultipath {
  IntervalMs : Z;
  TimeoutMs : Z;
  FailAfter : Z;
  RecoverAfter : Z;
  Action : string;
  Paths : list Path
}.

Record FakeTCP := mkFakeTCP {
  Role : string;
  Port : Z;
  Local : string;
  Peer : string;
  Rules : list string
}.

Record Link := mkLink { ID : string; LinkFakeTCP : option FakeTCP; LinkMultipath : option Multipath }.

Record Config := mkConfig { Enable : bool; NFT : string; IP : string; Table : string; Links : list Link }.

(** ** Defaults *)

Definition DefaultTable : string := "anixops_anx_line".
Definition DefaultNFT : string := "nft".
Definition DefaultIP : string := "ip".
Definition DefaultIntervalMs : Z := 200.
Definition DefaultTimeoutMs : Z := 200.
Definition DefaultFailAfter : Z := 2.
Definition DefaultRecoverAfter : Z := 5.
Definition RoleServer : string := "server".
Definition RoleClient : string := "client".
Definition ActionDelete : string := "delete".
Definition ActionBackup : string := "backup".
Definition ProbeTCP : string := "tcp".
Definition ProbeICMP : string := "icmp".

Definition DefaultServerRules : list string := ["ip saddr {local} tcp sport {port} tcp flags & rst == rst drop"].
Definition DefaultServerRulesNoSrc : list string := ["tcp sport {port} tcp flags & rst == rst drop"].
Definition DefaultClientRules : list string := ["ip daddr {peer} tcp dport {port} tcp flags & rst == rst drop"].

Definition valueOr (value fallback : string) : string := if String.eqb (trim_space value) "" then fallback else value.
Definition positiveOr (value fallback : Z) : Z := if value <=? 0 then fallback else value.

Definition Enabled (c : option Config) : bool := match c with Some c => Enable c | None => false end.
Definition table (c : Config) : string := valueOr (Table c) DefaultTable.
Definition nft (c : Config) : string := valueOr (NFT c) DefaultNFT.
Definition ip (c : Config) : string := valueOr (IP c) DefaultIP.

(** Durations in nanoseconds, an int64. *)
Definition millisecond : Z := 1000000.
Definition interval (m : Multipath) : Z := i64 (positiveOr (IntervalMs m) DefaultIntervalMs * millisecond).
Definition timeout (m : Multipath) : Z := i64 (positiveOr (TimeoutMs m) DefaultTimeoutMs * millisecond).
Definition failAfter (m : Multipath) : Z := positiveOr (FailAfter m) DefaultFailAfter.
Definition recoverAfter (m : Multipath) : Z := positiveOr (RecoverAfter m) DefaultRecoverAfter.
Definition action (m : Multipath) : string := valueOr (Action m) ActionDelete.

Definition flags (p : Path) : list string := match Flags p with [] => ["subflow"] | fs => fs end.

(** ** Validation

    The messages keep the fixed words of the code's; indexes and the quoting
    of the offending value are left out where no caller reads them. *)

(** The regular expressions [tableName], [devName] and [ruleText]. *)
Definition is_letter (c : ascii) : bool := is_lower_letter c || is_upper_letter c.
Definition is_word (c : ascii) : bool := is_alnum c || Ascii.eqb c "_".

Definition tableName (s : string) : bool :=
  match s with
  | EmptyString => false
  | String c r => is_letter c && all_chars is_word r && (len r <=? 63)
  end.

Definition devName (s : string) : bool :=
  all_chars (λ c, is_word c || contains_char ".:@-" c) s && (1 <=? len s) && (len s <=? 15).

Definition rule_char (c : ascii) : bool := is_alnum c || contains_char " .:/_&=!<>,-" c.
Definition ruleText (s : string) : bool := negb (String.eqb s "") && all_chars rule_char s.

Definition endpointFlags : list string := ["subflow"; "signal"; "backup"; "fullmesh"].

(** The address of a fake-TCP end: empty, or an IPv4 address in canonical form. *)
Definition address_value (key name value : string) : result (list (string * string)) :=
  if String.eqb value "" then Ok []
  else match ParseAddr value with
       | Some (V4 a b c d) => Ok [(key, v4_string a b c d)]
       | _ => Err (name +:+ " " +:+ value +:+ ": an IPv4 address is required (fake TCP is IPv4 only)")
       end.

(** One template with its placeholders replaced.  The values hold no brace, so
    the order of the replacements does not matter. *)
Definition render (values : list (string * string)) (template : string) : result string :=
  let rule := foldl (λ rule kv, ReplaceAll rule kv.1 kv.2) template values in
  if contains_any rule "{}" then Err ("FakeTCP rule " +:+ template +:+ ": unknown or unset placeholder")
  else
    let rule := join (Fields rule) " " in
    if negb (ruleText rule)
    then Err ("FakeTCP rule " +:+ template +:+ ": only nft words, addresses and operators are allowed")
    else Ok rule.

Fixpoint render_all (values : list (string * string)) (templates : list string) : result (list string) :=
  match templates with
  | [] => Ok []
  | template :: templates =>
    match render values template with
    | Err e => Err e
    | Ok rule => match render_all values templates with Err e => Err e | Ok rules => Ok (rule :: rules) end
    end
  end.

Definition templates (f : FakeTCP) : result (list string) :=
  if String.eqb (Role f) RoleServer then
    Ok (match Rules f with [] => if String.eqb (Local f) "" then DefaultServerRulesNoSrc else DefaultServerRules | rs => rs end)
  else if String.eqb (Role f) RoleClient then
    if String.eqb (Peer f) "" then Err "FakeTCP.Peer is required on the client"
    else Ok (match Rules f with [] => DefaultClientRules | rs => rs end)
  else Err ("FakeTCP.Role " +:+ Role f +:+ ": server or client").

Definition rules (f : FakeTCP) : result (list string) :=
  if (Port f <? 1) || (65535 <? Port f) then Err "FakeTCP.Port out of range"
  else match address_value "{local}" "FakeTCP.Local" (Local f) with
       | Err e => Err e
       | Ok loc =>
         match address_value "{peer}" "FakeTCP.Peer" (Peer f) with
         | Err e => Err e
         | Ok peer =>
           match templates f with
           | Err e => Err e
           | Ok ts => render_all ([("{port}", itoa (Port f))] ++ loc ++ peer) ts
           end
         end
       end.

Definition validateProbe (p : Probe) (source : Addr) : result unit :=
  let family (target : Addr) :=
    if negb (Bool.eqb (Is4 target) (Is4 source)) then Err "Probe.Target: not the address family of the path" else Ok tt in
  if String.eqb (Kind p) ProbeTCP then
    match SplitHostPort (Target p) with
    | None => Err "Probe.Target: host:port is required for a tcp probe"
    | Some (host, port) =>
      match ParseAddr host with
      | None => Err "Probe.Target: an IP address is required"
      | Some target =>
        match Atoi port with
        | None => Err "Probe.Target: port out of range"
        | Some n => if (n <? 1) || (65535 <? n) then Err "Probe.Target: port out of range" else family target
        end
      end
    end
  else if String.eqb (Kind p) ProbeICMP then
    match ParseAddr (Target p) with
    | None => Err "Probe.Target: an IP address is required for an icmp probe"
    | Some target => family target
    end
  else Err ("Probe.Kind " +:+ Kind p +:+ ": tcp or icmp").

(** One path of [Multipath.validate]; [seen] are the endpoints before it. *)
Definition validatePath (seen : list Z) (p : Path) : result unit :=
  if (Endpoint p <? 1) || (255 <? Endpoint p) then Err "Multipath.Paths.Endpoint: 1 to 255"
  else if bool_decide (Endpoint p ∈ seen) then Err "Multipath: endpoint listed twice"
  else match ParseAddr (PathAddr p) with
       | None => Err "Multipath.Paths.Addr"
       | Some addr =>
         if negb (String.eqb (Dev p) "") && negb (devName (Dev p)) then Err "Multipath.Paths.Dev: not an interface name"
         else if negb (forallb (λ f, bool_decide (f ∈ endpointFlags)) (Flags p)) then Err "Multipath.Paths: unknown endpoint flag"
         else validateProbe (PathProbe p) addr
       end.

Fixpoint validatePaths (seen : list Z) (ps : list Path) : result unit :=
  match ps with
  | [] => Ok tt
  | p :: ps => match validatePath seen p with Err e => Err e | Ok _ => validatePaths (Endpoint p :: seen) ps end
  end.

Definition validateMultipath (m : Multipath) : result unit :=
  if (IntervalMs m <? 0) || (TimeoutMs m <? 0) || (FailAfter m <? 0) || (RecoverAfter m <? 0)
  then Err "Multipath: negative interval, timeout or threshold"
  else if interval m <? timeout m then Err "Multipath.TimeoutMs must not exceed IntervalMs"
  else if interval m <? 50 * millisecond then Err "Multipath.IntervalMs must be at least 50"
  else if negb (String.eqb (action m) ActionDelete) && negb (String.eqb (action m) ActionBackup)
  then Err ("Multipath.Action " +:+ Action m +:+ ": delete or backup")
  else if Z.of_nat (List.length (Paths m)) <? 2 then Err "Multipath needs at least two paths"
  else validatePaths [] (Paths m).

(** The endpoints of a link that other links already use. *)
Fixpoint validateEndpoints (endpoints : gmap Z string) (id : string) (ps : list Path) : result (gmap Z string) :=
  match ps with
  | [] => Ok endpoints
  | p :: ps =>
    match endpoints !! Endpoint p with
    | Some other => Err ("AnxLine link " +:+ id +:+ ": MPTCP endpoint is also on link " +:+ other)
    | None => validateEndpoints (<[Endpoint p := id]> endpoints) id ps
    end
  end.

(** The carriers of one link. *)
Definition validateLink (link : Link) : result unit :=
  match LinkFakeTCP link, LinkMultipath link with
  | None, None => Err ("AnxLine link " +:+ ID link +:+ ": neither FakeTCP nor Multipath")
  | fake, multipath =>
    match (match fake with Some f => match rules f with Err e => Err e | Ok _ => Ok tt end | None => Ok tt end) with
    | Err e => Err ("AnxLine link " +:+ ID link +:+ ": " +:+ e)
    | Ok _ =>
      match (match multipath with Some m => validateMultipath m | None => Ok tt end) with
      | Err e => Err ("AnxLine link " +:+ ID link +:+ ": " +:+ e)
      | Ok _ => Ok tt
      end
    end
  end.

Definition link_paths (link : Link) : list Path :=
  match LinkMultipath link with Some m => Paths m | None => [] end.

Fixpoint validateLinks (ids : list string) (endpoints : gmap Z string) (links : list Link) : result unit :=
  match links with
  | [] => Ok tt
  | link :: links =>
    if String.eqb (trim_space (ID link)) "" then Err "AnxLine.Links: ID is required"
    else if bool_decide (ID link ∈ ids) then Err ("AnxLine link " +:+ ID link +:+ ": duplicate ID")
    else
      match validateLink link with
      | Err e => Err e
      | Ok _ =>
        match validateEndpoints endpoints (ID link) (link_paths link) with
        | Err e => Err e
        | Ok endpoints => validateLinks (ID link :: ids) endpoints links
        end
      end
  end.

Definition Validate (c : option Config) : result unit :=
  match c with
  | Some c =>
    if negb (Enable c) then Ok tt
    else if negb (tableName (table c)) then Err ("AnxLine.Table " +:+ Table c +:+ ": letters, digits and _ only")
    else validateLinks [] ∅ (Links c)
  | None => Ok tt
  end.

(** ** The nftables script *)

Definition line (s : string) : string := s +:+ String "010" "".
Definition tab : string := String "009" "".

Fixpoint link_rules (links : list Link) : result (list string) :=
  match links with
  | [] => Ok []
  | link :: links =>
    match LinkFakeTCP link with
    | None => link_rules links
    | Some f =>
      match rules f with
      | Err e => Err ("link " +:+ ID link +:+ ": " +:+ e)
      | Ok rs => match link_rules links with Err e => Err e | Ok more => Ok (rs ++ more) end
      end
    end
  end.

Definition rstScript (table : string) (links : list Link) : result string :=
  match link_rules links with
  | Err e => Err e
  | Ok rules =>
    let head := line ("table ip " +:+ table +:+ " {}") +:+ line ("delete table ip " +:+ table) in
    Ok (match rules with
        | [] => head
        | _ => head +:+ line ("table ip " +:+ table +:+ " {") +:+ line (tab +:+ "chain output {")
               +:+ line (tab +:+ tab +:+ "type filter hook output priority 0; policy accept;")
               +:+ foldr (λ rule s, line (tab +:+ tab +:+ rule) +:+ s) "" rules
               +:+ line (tab +:+ "}") +:+ line "}"
        end)
  end.

(** [applyRST] and [ApplyRST]; [run] is the outcome of nft on the script. *)
Definition applyRST (run : string → option string) (table : string) (links : list Link) : option string :=
  match rstScript table links with Err e => Some e | Ok script => run script end.

Definition ApplyRST (run : string → option string) (table : string) (links : list Link) : option string :=
  if negb (tableName table) then Some ("nftables table " +:+ table +:+ ": letters, digits and _ only")
  else applyRST run table links.

(** ** What a validated configuration satisfies *)

Record path_ok (p : Path) : Prop := {
  path_endpoint : 1 ≤ Endpoint p ≤ 255;
  path_addr : ∃ addr, ParseAddr (PathAddr p) = Some addr ∧ validateProbe (PathProbe p) addr = Ok tt;
  path_dev : Dev p = "" ∨ devName (Dev p) = true;
  path_flags : Forall (λ f, f ∈ endpointFlags) (Flags p)
}.

Record multipath_ok (m : Multipath) : Prop := {
  multipath_nonneg : 0 ≤ IntervalMs m ∧ 0 ≤ TimeoutMs m ∧ 0 ≤ FailAfter m ∧ 0 ≤ RecoverAfter m;
  multipath_interval : 50 * millisecond ≤ interval m;
  multipath_timeout : timeout m ≤ interval m;
  multipath_action : action m = ActionDelete ∨ action m = ActionBackup;
  multipath_two : (2 ≤ List.length (Paths m))%nat;
  multipath_paths : Forall path_ok (Paths m)
}.

Record link_ok (l : Link) : Prop := {
  link_id : trim_space (ID l) ≠ "";
  link_some : LinkFakeTCP l ≠ None ∨ LinkMultipath l ≠ None;
  link_rules_ok : ∀ f, LinkFakeTCP l = Some f → ∃ rs, rules f = Ok rs;
  link_multipath_ok : ∀ m, LinkMultipath l = Some m → multipath_ok m
}.

(** The MPTCP endpoints of a link; an endpoint id is one per host. *)
Definition link_endpoints (l : Link) : list Z := Endpoint <$> link_paths l.

Record links_ok (ls : list Link) : Prop := {
  links_each : Forall link_ok ls;
  links_ids : NoDup (ID <$> ls);
  links_endpoints : NoDup (ls ≫= link_endpoints)
}.

Lemma validatePath_iff seen p : validatePath seen p = Ok tt ↔ path_ok p ∧ Endpoint p ∉ seen.
Proof.
  unfold validatePath. split.
  - intros H. repeat case_match; simplify_eq; try done. rewrite orb_false_iff in *. rewrite bool_decide_eq_false in *. destruct_and!.
    split; [|done]. split; [lia|eauto| |].
    + rewrite andb_false_iff, !negb_false_iff, String.eqb_eq in *. done.
    + rewrite negb_false_iff, forallb_forall in *. apply Forall_forall. intros f Hf%list_elem_of_In.
      by eapply bool_decide_eq_true_1; eauto.
  - intros [[He (addr & Ha & Hp) Hd Hf] Hs]. rewrite (bool_decide_eq_false_2 (_ ∈ _)), Ha by done.
    rewrite (proj2 (orb_false_iff _ _)) by lia.
    assert (negb (String.eqb (Dev p) "") && negb (devName (Dev p)) = false) as ->
      by (destruct Hd as [->| ->]; [done|by rewrite andb_false_r]).
    rewrite (proj2 (forallb_forall _ _)); [done|].
    intros f Hin%list_elem_of_In. apply bool_decide_eq_true_2. by eapply Forall_forall in Hf.
Qed.

Lemma validatePaths_iff ps seen :
  validatePaths seen ps = Ok tt ↔ Forall path_ok ps ∧ NoDup (Endpoint <$> ps) ∧ (∀ e, e ∈ (Endpoint <$> ps) → e ∉ seen).
Proof.
  revert seen. induction ps as [|p ps IH]; intros seen; cbn [validatePaths fmap list_fmap].
  { split; [|done]. intros _. split_and!; [constructor|constructor|]. intros e He. by apply not_elem_of_nil in He. }
  rewrite Forall_cons, NoDup_cons. pose proof (validatePath_iff seen p) as Hp.
  destruct (validatePath seen p) as [[]|e].
  - destruct (proj1 Hp eq_refl) as [Hok Hs]. rewrite IH. split.
    + intros (Ha & Hb & Hc). split_and!; [done|done| |done|].
      * intros Hin. apply (Hc _ Hin). left.
      * intros e [->|He]%elem_of_cons; [done|]. intros Hse. apply (Hc e He). by right.
    + intros ([_ Ha] & [Hn Hb] & Hc). split_and!; [done|done|].
      intros e He [->|Hse]%elem_of_cons; [done|]. apply (Hc e); [by right|done].
  - split; [done|]. intros ([Ha _] & _ & Hc). exfalso.
    assert (Err e = Ok tt) as [=]. apply Hp. split; [done|]. apply Hc. left.
Qed.

Lemma validateMultipath_iff m : validateMultipath m = Ok tt ↔ multipath_ok m ∧ NoDup (Endpoint <$> Paths m).
Proof.
  unfold validateMultipath. split.
  - intros H. repeat case_match; try done. rewrite !orb_false_iff in *.
    rewrite andb_false_iff, !negb_false_iff, !String.eqb_eq in *. destruct_and!.
    apply validatePaths_iff in H as (Hp & Hn & _). split; [split; [lia|lia|lia|done|lia|done]|done].
  - intros [[Hn Hi Ht Ha Hl Hp] Hd].
    rewrite (proj2 (orb_false_iff _ _)) by (rewrite !orb_false_iff; lia).
    rewrite (proj2 (Z.ltb_ge _ _)) by lia. rewrite (proj2 (Z.ltb_ge _ _)) by lia.
    assert (negb (String.eqb (action m) ActionDelete) && negb (String.eqb (action m) ActionBackup) = false) as ->
      by (destruct Ha as [->| ->]; done).
    rewrite (proj2 (Z.ltb_ge _ _)) by lia.
    apply validatePaths_iff. split_and!; [done|done|]. intros e _. apply not_elem_of_nil.
Qed.

Lemma validateEndpoints_iff id ps : ∀ eps,
  (∃ eps', validateEndpoints eps id ps = Ok eps' ∧ ∀ e, is_Some (eps' !! e) ↔ e ∈ (Endpoint <$> ps) ∨ is_Some (eps !! e))
    ∧ NoDup (Endpoint <$> ps) ∧ (∀ e, e ∈ (Endpoint <$> ps) → eps !! e = None)
  ∨ (∃ err, validateEndpoints eps id ps = Err err)
    ∧ ¬ (NoDup (Endpoint <$> ps) ∧ ∀ e, e ∈ (Endpoint <$> ps) → eps !! e = None).
Proof.
  induction ps as [|p ps IH]; intros eps; cbn [validateEndpoints fmap list_fmap].
  { left. split; [|split; [constructor|by intros ? ?%not_elem_of_nil]].
    eexists. split; [done|]. intros e. split; [by right|]. by intros [?%not_elem_of_nil|]. }
  destruct (eps !! Endpoint p) as [o|] eqn:Ep.
  { right. split; [by eexists|]. intros [_ Hn]. rewrite Hn in Ep by left. done. }
  destruct (IH (<[Endpoint p := id]> eps)) as [((eps' & He & Hdom) & Hn & Hf)|[He Hn]].
  - left. split.
    + exists eps'. split; [done|]. intros e. rewrite Hdom, elem_of_cons.
      destruct (decide (e = Endpoint p)) as [->|Hne].
      * rewrite lookup_insert_eq. split; eauto.
      * rewrite lookup_insert_ne by done. naive_solver.
    + split.
      * apply NoDup_cons. split; [|done]. intros Hin. specialize (Hf _ Hin). by rewrite lookup_insert_eq in Hf.
      * intros e [->|Hin]%elem_of_cons; [done|]. specialize (Hf _ Hin).
        destruct (decide (e = Endpoint p)) as [->|Hne]; [done|by rewrite lookup_insert_ne in Hf].
  - right. split; [done|]. intros [[Hp Hd]%NoDup_cons Hf]. apply Hn. split; [done|].
    intros e Hin. rewrite lookup_insert_ne by (intros Heq; apply Hp; by rewrite Heq). apply Hf. by right.
Qed.

Lemma links_ok_cons l ls :
  links_ok (l :: ls) ↔ link_ok l ∧ links_ok ls ∧ (ID l ∉ (ID <$> ls))
    ∧ NoDup (link_endpoints l) ∧ (∀ e, e ∈ link_endpoints l → e ∉ (ls ≫= link_endpoints)).
Proof.
  split.
  - intros [[Ha Hb]%Forall_cons [Hc Hd]%NoDup_cons He]. rewrite bind_cons, NoDup_app in He. destruct He as (He & Hf & Hg).
    by split_and!; [|split|..].
  - intros (Ha & [Hb Hc Hd] & He & Hf & Hg). split; [by constructor|by constructor|].
    rewrite bind_cons. apply NoDup_app. by split_and!.
Qed.

Lemma validateLink_iff l :
  validateLink l = Ok tt ↔
    (LinkFakeTCP l ≠ None ∨ LinkMultipath l ≠ None) ∧ (∀ f, LinkFakeTCP l = Some f → ∃ rs, rules f = Ok rs)
    ∧ (∀ m, LinkMultipath l = Some m → multipath_ok m) ∧ NoDup (link_endpoints l).
Proof.
  unfold validateLink, link_endpoints, link_paths. destruct l as [id fake multi]; cbn [ID LinkFakeTCP LinkMultipath].
  assert ((∀ f, fake = Some f → ∃ rs, rules f = Ok rs) ↔
    (match fake with Some f => match rules f with Err e => Err e | Ok _ => Ok tt end | None => Ok tt end) = Ok tt) as ->.
  { destruct fake as [f|]; [|done]. destruct (rules f) as [rs|e] eqn:Er.
    - split; [done|]. intros _ f' [= <-]. by exists rs.
    - split; [|done]. intros H. destruct (H f eq_refl). congruence. }
  assert ((∀ m, multi = Some m → multipath_ok m) ∧ NoDup (Endpoint <$> match multi with Some m => Paths m | None => [] end) ↔
    (match multi with Some m => validateMultipath m | None => Ok tt end) = Ok tt) as ->.
  { destruct multi as [m|]; [rewrite validateMultipath_iff|by split; [|repeat constructor]].
    split; [intros [H ?]; split; [by apply H|done]|intros [? ?]; by split; [intros m' [= <-]|]]. }
  destruct fake as [f|], multi as [m|]; repeat case_match; split; intros Hx; destruct_and?; simplify_eq; try done;
    repeat match goal with x : () |- _ => destruct x end; try (by split_and!; [by left|..]); try (by split_and!; [by right|..]).
  by destruct H.
Qed.

Lemma validateLinks_iff ls : ∀ ids eps,
  validateLinks ids eps ls = Ok tt ↔
    links_ok ls ∧ (∀ l, l ∈ ls → ID l ∉ ids) ∧ (∀ e, e ∈ (ls ≫= link_endpoints) → eps !! e = None).
Proof.
  induction ls as [|l ls IH]; intros ids eps.
  { split; [|done]. intros _. split_and!; [split; constructor| |]; by intros ? ?%not_elem_of_nil. }
  cbn [validateLinks]. rewrite links_ok_cons, bind_cons. setoid_rewrite elem_of_cons. setoid_rewrite elem_of_app.
  destruct (String.eqb_spec (trim_space (ID l)) "") as [Ht|Ht].
  { split; [done|]. intros [[Hl _] _]. by destruct (link_id _ Hl). }
  case_bool_decide as Hid; [naive_solver|].
  pose proof (validateLink_iff l) as Hv. destruct (validateLink l) as [[]|e]; [|split; [done|]].
  2:{ intros [([Ha Hb Hc Hd] & _ & _ & Hn & _) _]. assert (Err e = Ok tt) as [=]. by apply Hv. }
  destruct (proj1 Hv eq_refl) as (Hsome & Hrules & Hmulti & Hnd).
  destruct (validateEndpoints_iff (ID l) (link_paths l) eps) as [((eps' & -> & Hdom) & _ & Hfree)|[(err & ->) Hno]].
  2:{ split; [done|]. intros ((_ & _ & _ & Hn & _) & _ & Hf). destruct Hno. split; [done|]. naive_solver. }
  rewrite IH. setoid_rewrite not_elem_of_cons. setoid_rewrite eq_None_not_Some. setoid_rewrite eq_None_not_Some in Hfree.
  setoid_rewrite Hdom. rewrite list_elem_of_fmap. split.
  - intros (Ha & Hb & Hc). split_and!; try done; naive_solver.
  - intros ((_ & Ha & Hb & _ & Hd) & He & Hf). split_and!; [done| |naive_solver].
    intros l' Hin. split; [|naive_solver]. intros Heq. apply Hb. by exists l'.
Qed.

Lemma validate_accepts c : Validate (Some c) = Ok tt → Enable c = true → tableName (table c) = true ∧ links_ok (Links c).
Proof.
  cbn [Validate]. intros H He. rewrite He in H. cbn [negb] in H.
  destruct (tableName (table c)); [|done]. by apply validateLinks_iff in H as (? & _).
Qed.

(** Validation accepts exactly the well-formed sections: a disabled or
    absent section always; an enabled one iff its table name is a plain
    identifier, the link ids are distinct and not blank, every link has a
    carrier, all fake-TCP rules render, every multipath link has at least two
    paths with intervals of 50 ms or more that are not shorter than the probe
    timeout, every path has an address, flags and a probe of its family, and no
    MPTCP endpoint id is used twice on the host. *)
Theorem validate_exact c :
  Validate c = Ok tt ↔
    match c with
    | Some c => Enable c = true → tableName (table c) = true ∧ links_ok (Links c)
    | None => True
    end.
Proof.
  destruct c as [c|]; [|done]. cbn [Validate]. destruct (Enable c); [|naive_solver].
  destruct (tableName (table c)); cbn [negb]; [|naive_solver]. rewrite validateLinks_iff.
  split; [naive_solver|]. intros H. destruct (H eq_refl) as [_ Hl]. split_and!; [done|by intros ? ? ?%not_elem_of_nil|done].
Qed.

(** ** The script keeps every rule on its line *)

Definition LF : ascii := "010".

(** The characters that end a rule, a chain or a comment of the nft language. *)
Definition breakers : string := String LF ";{}#'\*$()[]|".

Definition script_lines (table : string) (rs : list string) : list string :=
  ["table ip " +:+ table +:+ " {}"; "delete table ip " +:+ table] ++
  match rs with
  | [] => []
  | _ => ["table ip " +:+ table +:+ " {"; tab +:+ "chain output {";
          tab +:+ tab +:+ "type filter hook output priority 0; policy accept;"]
         ++ ((λ r, tab +:+ tab +:+ r) <$> rs) ++ [tab +:+ "}"; "}"]
  end.

Lemma render_text values template rule : render values template = Ok rule → ruleText rule = true.
Proof.
  unfold render. intros H. repeat case_match; simplify_eq. by rewrite negb_false_iff in *.
Qed.

Lemma render_all_text values templates rs : render_all values templates = Ok rs → Forall (λ r, ruleText r = true) rs.
Proof.
  revert rs. induction templates as [|t ts IH]; intros rs; cbn [render_all]; [intros [= <-]; constructor|].
  destruct (render values t) as [r|e] eqn:Er; [|done]. destruct (render_all values ts) as [rs'|e]; [|done].
  intros [= <-]. constructor; [by eapply render_text|by apply IH].
Qed.

Lemma rules_text f rs : rules f = Ok rs → Forall (λ r, ruleText r = true) rs.
Proof. unfold rules. intros H. repeat case_match; simplify_eq. by eapply render_all_text. Qed.

Lemma link_rules_text ls rs : link_rules ls = Ok rs → Forall (λ r, ruleText r = true) rs.
Proof.
  revert rs. induction ls as [|l ls IH]; intros rs; cbn [link_rules]; [intros [= <-]; constructor|].
  destruct (LinkFakeTCP l) as [f|]; [|apply IH]. destruct (rules f) as [r|e] eqn:Er; [|done].
  destruct (link_rules ls) as [rs'|e]; [|done]. intros [= <-]. apply Forall_app. split; [by eapply rules_text|by apply IH].
Qed.

Lemma link_rules_ok_all ls : Forall link_ok ls → ∃ rs, link_rules ls = Ok rs.
Proof.
  induction 1 as [|l ls [_ _ Hr _] _ [rs IH]]; cbn [link_rules]; [by eexists|]. rewrite IH.
  destruct (LinkFakeTCP l) as [f|]; [|by eexists]. destruct (Hr f eq_refl) as [rs' ->]. by eexists.
Qed.

Lemma ruleText_chars r : ruleText r = true → all_chars rule_char r = true.
Proof. by intros [_ ?]%andb_true_iff. Qed.

Lemma ruleText_breakers r c : ruleText r = true → contains_char breakers c = true → contains_char r c = false.
Proof.
  intros Hr Hc. eapply all_chars_contains; [by apply ruleText_chars|].
  destruct c as [[] [] [] [] [] [] [] []]; by vm_compute in Hc |- *.
Qed.

Lemma word_no_lf s : all_chars is_word s = true → contains_char s LF = false.
Proof. intros H. by eapply all_chars_contains. Qed.

Lemma tableName_no_lf t : tableName t = true → contains_char t LF = false.
Proof.
  destruct t as [|c r]; [done|]. cbn [tableName contains_char].
  intros [[Hc Hr]%andb_true_iff _]%andb_true_iff. rewrite word_no_lf, orb_false_r by done.
  destruct (Ascii.eqb_spec LF c) as [<-|]; [done|done].
Qed.

Lemma split_line a s : contains_char a LF = false → split (line a +:+ s) LF = a :: split s LF.
Proof. intros Ha. unfold line. rewrite app_assoc_str, app_cons_str. by apply split_cons. Qed.

Lemma split_rule_lines rs s : Forall (λ r, ruleText r = true) rs →
  split (foldr (λ rule s, line (tab +:+ tab +:+ rule) +:+ s) "" rs +:+ s) LF = ((λ r, tab +:+ tab +:+ r) <$> rs) ++ split s LF.
Proof.
  induction 1 as [|r rs Hr _ IH]; [done|]. cbn [foldr]. rewrite app_assoc_str, split_line, IH; [done|].
  rewrite !contains_char_app, (ruleText_breakers r LF) by done. done.
Qed.

Lemma rstScript_lines table ls rs : tableName table = true → link_rules ls = Ok rs →
  ∃ script, rstScript table ls = Ok script ∧ split script LF = script_lines table rs ++ [""].
Proof.
  intros Ht%tableName_no_lf Hrs. unfold rstScript. rewrite Hrs. eexists. split; [done|].
  apply link_rules_text in Hrs as Hx. unfold script_lines.
  assert (∀ a b, contains_char a LF = false → contains_char b LF = false → contains_char (a +:+ table +:+ b) LF = false) as Hl.
  { intros a b Ha Hb. by rewrite !contains_char_app, Ha, Hb, Ht. }
  pose proof (Hl "delete table ip " "" eq_refl eq_refl) as Hd. rewrite app_nil_r_str in Hd.
  destruct rs as [|r rs].
  - rewrite split_line by by apply Hl. rewrite <- (app_nil_r_str (line _)), split_line by done. done.
  - rewrite !app_assoc_str, !split_line by (done || by apply Hl).
    rewrite split_rule_lines, split_line by done. rewrite <- (app_nil_r_str (line "}")), split_line by done.
    by rewrite <- !(assoc_L (++)).
Qed.

(** The nft script of a validated section is exactly the lines it is meant
    to have: the table is created and deleted, then made again with one output
    chain whose lines are the rendered rules, one each, or not at all when
    there is no rule.  No rule holds a line break, a semicolon, a brace, a
    quote or a comment sign, so no configured text can end its line or its
    chain. *)
Theorem rst_script_is_contained c : Validate (Some c) = Ok tt → Enable c = true →
  ∃ rs script, link_rules (Links c) = Ok rs ∧ rstScript (table c) (Links c) = Ok script
    ∧ split script LF = script_lines (table c) rs ++ [""]
    ∧ Forall (λ r, r ≠ "" ∧ ∀ b, contains_char breakers b = true → contains_char r b = false) rs.
Proof.
  intros Hv He. apply validate_accepts in Hv as [Ht [Hl _ _]]; [|done].
  destruct (link_rules_ok_all _ Hl) as [rs Hrs]. destruct (rstScript_lines _ _ _ Ht Hrs) as (script & Hs & Hlines).
  exists rs, script. split_and!; [done..|]. eapply Forall_impl; [by eapply link_rules_text|].
  intros r Hr. split; [by intros ->|]. intros b. by apply ruleText_breakers.
Qed.

Definition demo_paths : list Path :=
  [mkPath 11 "192.0.2.1" "eth0" [] (mkProbe ProbeTCP "198.51.100.7:443");
   mkPath 12 "2001:db8::1" "" ["subflow"; "fullmesh"] (mkProbe ProbeICMP "2001:db8::7")].

Definition demo_config : Config :=
  mkConfig true "" "" "" [
    mkLink "line-a" (Some (mkFakeTCP RoleServer 8443 "192.0.2.1" "" [])) None;
    mkLink "line-b" (Some (mkFakeTCP RoleClient 443 "" "198.51.100.7" []))
      (Some (mkMultipath 0 0 0 0 "" demo_paths))].

Lemma rst_script_is_contained_witness :
  ∃ rs script, link_rules (Links demo_config) = Ok rs ∧ rstScript (table demo_config) (Links demo_config) = Ok script
    ∧ split script LF = script_lines (table demo_config) rs ++ [""]
    ∧ Forall (λ r, r ≠ "" ∧ ∀ b, contains_char breakers b = true → contains_char r b = false) rs.
Proof. apply (rst_script_is_contained demo_config); vm_compute; reflexivity. Defined.

Example demo_rules : link_rules (Links demo_config) =
  Ok ["ip saddr 192.0.2.1 tcp sport 8443 tcp flags & rst == rst drop";
      "ip daddr 198.51.100.7 tcp dport 443 tcp flags & rst == rst drop"].
Proof. vm_compute. reflexivity. Qed.

Example rule_injection_refused :
  rules (mkFakeTCP RoleServer 8443 "" "" ["tcp sport {port} drop; }"]) =
    Err "FakeTCP rule tcp sport {port} drop; }: unknown or unset placeholder".
Proof. vm_compute. reflexivity. Qed.

End AnxLine.
