(* ===== verification/AnxPaths.v ===== *)
(** * ANX lines: the MPTCP path monitors

    The monitor of one multipath link (anxline/multipath.go) and the manager
    that starts and closes the monitors (anxline/manager.go).  The commands ip
    and nft are the host's: [Run] is the outcome of a command after the
    commands before it, and nothing is assumed about it.  A log of the commands
    and their outcomes is kept, and [out] reads from it which endpoints the
    Agent has taken out.  A round of probes is one step: the code judges and
    acts under the monitor's lock.  The monitors of the links that are already
    started make no round while [start] goes on to the next link. *)

From S2P Require Import Prelude GoStrings GoNet AnxLine.
From Stdlib Require Import Ascii String.

Module AnxPaths.
Import AnxLine.

(** ** Commands *)

Inductive Command :=
  | Script (script : string)
  | Show (id : Z)
  | Add (p : Path)
  | Delete (id : Z)
  | Change (id : Z) (backup : bool).

(** Newest first, with whether the command succeeded. *)
Definition log := list (Command * bool).

Definition addArgs (p : Path) : list string :=
  ["mptcp"; "endpoint"; "add"; PathAddr p]
  ++ (if String.eqb (Dev p) "" then [] else ["dev"; Dev p]) ++ ["id"; itoa (Endpoint p)] ++ flags p.

Definition args (c : Command) : list string :=
  match c with
  | Script _ => ["-f"; "-"]
  | Show id => ["mptcp"; "endpoint"; "show"; "id"; itoa id]
  | Add p => addArgs p
  | Delete id => ["mptcp"; "endpoint"; "delete"; "id"; itoa id]
  | Change id backup => ["mptcp"; "endpoint"; "change"; "id"; itoa id; if backup then "backup" else "nobackup"]
  end.

Definition stdin (c : Command) : string := match c with Script s => s | _ => "" end.

(** ** Monitors *)

Record pathState := mkState {
  path : Path;
  healthy : bool;
  demoted : bool;
  failures : Z;
  successes : Z;
  since : time;
  lastErr : string;
  demotes : Z;
  restores : Z
}.

Record monitor := mkMonitor { link : string; mp : Multipath; mip : string; paths : list pathState }.

Record PathStatus := mkStatus {
  sLink : string; sEndpoint : Z; sAddr : string; sHealthy : bool; sDemoted : bool;
  sSince : time; sLastErr : string; sDemotes : Z; sRestores : Z
}.

Definition newMonitor (link : string) (mp : Multipath) (ip : string) (now : time) : monitor :=
  mkMonitor link mp ip ((λ p, mkState p true false 0 0 now "" 0 0) <$> Paths mp).

Definition set_paths (m : monitor) (sts : list pathState) : monitor := mkMonitor (link m) (mp m) (mip m) sts.

Section Host.

(** [Run h stdin name args]: the error of the command after the log [h]. *)
Variable Run : log → string → string → list string → option string.

Definition exec (program : string) (c : Command) (h : log) : option string * log :=
  let err := Run h (stdin c) program (args c) in (err, (c, bool_decide (err = None)) :: h).

Fixpoint ensureEndpoints (ip : string) (ps : list Path) (h : log) : option string * log :=
  match ps with
  | [] => (None, h)
  | p :: ps =>
    match exec ip (Show (Endpoint p)) h with
    | (None, h) => ensureEndpoints ip ps h
    | (Some _, h) =>
      match exec ip (Add p) h with
      | (Some e, h) => (Some e, h)
      | (None, h) => ensureEndpoints ip ps h
      end
    end
  end.

(** The result of one probe. *)
Definition judge (mp : Multipath) (now : time) (st : pathState) (result : option string) : pathState :=
  match result with
  | Some err =>
    let failures := failures st + 1 in
    let dead := healthy st && (failAfter mp <=? failures) in
    mkState (path st) (healthy st && negb dead) (demoted st) failures 0
      (if dead then now else since st) err (demotes st) (restores st)
  | None =>
    let successes := successes st + 1 in
    let alive := negb (healthy st) && (recoverAfter mp <=? successes) in
    mkState (path st) (healthy st || alive) (demoted st) 0 successes
      (if alive then now else since st) "" (demotes st) (restores st)
  end.

(** [otherUsable] compares the states by identity, that is by position. *)
Definition otherUsable (i : nat) (sts : list pathState) : bool :=
  existsb (λ '(j, st), negb (Nat.eqb j i) && healthy st && negb (demoted st)) (imap pair sts).

Definition setDemoted (st : pathState) : pathState :=
  mkState (path st) (healthy st) true (failures st) (successes st) (since st) (lastErr st) (demotes st + 1) (restores st).

Definition setRestored (st : pathState) : pathState :=
  mkState (path st) (healthy st) false (failures st) (successes st) (since st) (lastErr st) (demotes st) (restores st + 1).

Definition demoteCommand (mp : Multipath) (p : Path) : option Command :=
  if String.eqb (action mp) ActionBackup
  then if bool_decide ("backup" ∈ flags p) then None else Some (Change (Endpoint p) true)
  else Some (Delete (Endpoint p)).

Definition demote (m : monitor) (st : pathState) (h : log) : pathState * log :=
  match demoteCommand (mp m) (path st) with
  | None => (st, h)
  | Some c => match exec (mip m) c h with (Some _, h) => (st, h) | (None, h) => (setDemoted st, h) end
  end.

Definition restoreCommand (mp : Multipath) (p : Path) : Command :=
  if String.eqb (action mp) ActionBackup then Change (Endpoint p) false else Add p.

Definition restore (m : monitor) (st : pathState) (h : log) : pathState * log :=
  match exec (mip m) (restoreCommand (mp m) (path st)) h with
  | (Some _, h) => (st, h)
  | (None, h) => (setRestored st, h)
  end.

(** The second loop of [check], for the path at [i]. *)
Definition act (m : monitor) (s : list pathState * log) (i : nat) : list pathState * log :=
  match s.1 !! i with
  | None => s
  | Some st =>
    if negb (healthy st) && negb (demoted st) then
      if negb (otherUsable i s.1) then s
      else let '(st, h) := demote m st s.2 in (<[i := st]> s.1, h)
    else if healthy st && demoted st then
      let '(st, h) := restore m st s.2 in (<[i := st]> s.1, h)
    else s
  end.

Definition check (m : monitor) (Probe : Path → option string) (now : time) (h : log) : monitor * log :=
  let judged := (λ st, judge (mp m) now st (Probe (path st))) <$> paths m in
  let '(sts, h) := foldl (act m) (judged, h) (seq 0 (List.length judged)) in
  (set_paths m sts, h).

(** The loop of [close], after the monitor's goroutine has ended. *)
Fixpoint restoreDemoted (m : monitor) (sts : list pathState) (h : log) : list pathState * log :=
  match sts with
  | [] => ([], h)
  | st :: sts =>
    let '(st, h) := if demoted st then restore m st h else (st, h) in
    let '(sts, h) := restoreDemoted m sts h in
    (st :: sts, h)
  end.

Definition close (m : monitor) (h : log) : monitor * log :=
  let '(sts, h) := restoreDemoted m (paths m) h in (set_paths m sts, h).

Definition status (m : monitor) : list PathStatus :=
  (λ st, mkStatus (link m) (Endpoint (path st)) (PathAddr (path st)) (healthy st) (demoted st)
           (since st) (lastErr st) (demotes st) (restores st)) <$> paths m.

(** ** The manager *)

Fixpoint closeAll (ms : list monitor) (h : log) : log :=
  match ms with [] => h | m :: ms => closeAll ms (close m h).2 end.

(** The monitors of a manager after [Close]: none. *)
Definition Close (ms : list monitor) (h : log) : list monitor * log := ([], closeAll ms h).

Definition Status (ms : list monitor) : list PathStatus := ms ≫= status.

Fixpoint startLinks (c : Config) (now : time) (links : list Link) (ms : list monitor) (h : log) : result (list monitor) * log :=
  match links with
  | [] => (Ok ms, h)
  | l :: links =>
    match LinkMultipath l with
    | None => startLinks c now links ms h
    | Some mp =>
      match ensureEndpoints (ip c) (Paths mp) h with
      | (Some e, h) => (Err ("ANX-Line link " +:+ ID l +:+ " MPTCP endpoints: " +:+ e), (Close ms h).2)
      | (None, h) => startLinks c now links (ms ++ [newMonitor (ID l) mp (ip c) now]) h
      end
    end
  end.

Definition start (c : Config) (now : time) (h : log) : result (list monitor) * log :=
  match Validate (Some c) with
  | Err e => (Err e, h)
  | Ok _ =>
    match rstScript (table c) (Links c) with
    | Err e => (Err ("ANX-Line fake-TCP RST rules: " +:+ e), h)
    | Ok script =>
      match exec (nft c) (Script script) h with
      | (Some e, h) => (Err ("ANX-Line fake-TCP RST rules: " +:+ e), h)
      | (None, h) => startLinks c now (Links c) [] h
      end
    end
  end.

(** A round of the monitor at an index; [at_monitor] lets the others be. *)
Record round := mkRound { rMonitor : nat; rProbe : Path → option string; rNow : time }.

Definition do_round (s : list monitor * log) (r : round) : list monitor * log :=
  match s.1 !! rMonitor r with
  | None => s
  | Some m => let '(m, h) := check m (rProbe r) (rNow r) s.2 in (<[rMonitor r := m]> s.1, h)
  end.

(** ** What the log says of an endpoint *)

Definition effect (c : Command) : option (Z * bool) :=
  match c with
  | Add p => Some (Endpoint p, false)
  | Delete id => Some (id, true)
  | Change id backup => Some (id, backup)
  | Script _ | Show _ => None
  end.

(** The last successful command on the endpoint took it out. *)
Fixpoint out (id : Z) (h : log) : bool :=
  match h with
  | [] => false
  | (c, ok) :: h =>
    match effect c with
    | Some (id', b) => if ok && (id' =? id) then b else out id h
    | None => out id h
    end
  end.

(** [P] holds at every moment of the log. *)
Definition always (P : log → Prop) (h : log) : Prop := ∀ l, l `suffix_of` h → P l.

Definition ids (sts : list pathState) : list Z := (λ st, Endpoint (path st)) <$> sts.

Definition one_in (es : list Z) (h : log) : Prop := ∃ e, e ∈ es ∧ out e h = false.

Definition agrees (sts : list pathState) (h : log) : Prop := Forall (λ st, demoted st = out (Endpoint (path st)) h) sts.

Definition some_in (sts : list pathState) : Prop := ∃ j st, sts !! j = Some st ∧ demoted st = false.

Lemma always_now P h : always P h → P h.
Proof. intros H. by apply H. Qed.

Lemma always_cons P e h : always P h → P (e :: h) → always P (e :: h).
Proof.
  intros Hh He [|x l] Hl; [apply Hh, suffix_nil|].
  apply suffix_cons_inv in Hl as [->|Hl]; [done|by apply Hh].
Qed.

Lemma always_impl (P Q : log → Prop) h : always P h → (∀ l, P l → Q l) → always Q h.
Proof. intros H HPQ l Hl. apply HPQ, H, Hl. Qed.

Lemma ids_path sts sts' : path <$> sts' = path <$> sts → ids sts' = ids sts.
Proof.
  intros H. unfold ids. transitivity (Endpoint <$> (path <$> sts')); [by rewrite <- list_fmap_compose|].
  by rewrite H, <- list_fmap_compose.
Qed.

Lemma agrees_one_in sts h : agrees sts h → some_in sts → one_in (ids sts) h.
Proof.
  intros Ha (j & st & Hj & Hd). exists (Endpoint (path st)). split.
  - apply list_elem_of_fmap. exists st. split; [done|by eapply list_elem_of_lookup_2].
  - rewrite <- Hd. symmetry. by apply (proj1 (Forall_lookup _ _) Ha j).
Qed.

(** One command on the endpoint of a state, and the state that follows. *)
Record stepped (st : pathState) (h : log) (st' : pathState) (h' : log) : Prop := {
  stepped_path : path st' = path st;
  stepped_healthy : healthy st' = healthy st;
  stepped_demoted : demoted st = out (Endpoint (path st)) h → demoted st' = out (Endpoint (path st)) h';
  stepped_others : ∀ e, e ≠ Endpoint (path st) → out e h' = out e h;
  stepped_log : h' = h ∨ ∃ e, h' = e :: h
}.

Lemma demoteCommand_effect mp p c : demoteCommand mp p = Some c → effect c = Some (Endpoint p, true).
Proof. unfold demoteCommand. intros H. repeat case_match; by simplify_eq. Qed.

Lemma restoreCommand_effect mp p : effect (restoreCommand mp p) = Some (Endpoint p, false).
Proof. unfold restoreCommand. by case_match. Qed.

Lemma exec_stepped program c h st err h' b :
  effect c = Some (Endpoint (path st), b) → exec program c h = (err, h') →
  (err = None → stepped st h (if b then setDemoted st else setRestored st) h')
  ∧ (err ≠ None → stepped st h st h').
Proof.
  intros Hc [= <- <-]. split; intros He.
  - split; [by destruct b|by destruct b| | |by eauto].
    + intros _. cbn [out]. rewrite Hc, bool_decide_eq_true_2, Z.eqb_refl by done. by destruct b.
    + intros e Hne. cbn [out]. rewrite Hc, (proj2 (Z.eqb_neq _ _)), andb_false_r by done. done.
  - split; [done|done| | |by eauto]; intros; cbn [out]; by rewrite Hc, bool_decide_eq_false_2.
Qed.

Lemma demote_stepped m st h st' h' : demote m st h = (st', h') → stepped st h st' h'.
Proof.
  unfold demote. destruct (demoteCommand (mp m) (path st)) as [c|] eqn:Ec; [|intros [= <- <-]; split; eauto].
  destruct (exec (mip m) c h) as [err h1] eqn:Ex.
  destruct (exec_stepped _ _ _ _ _ _ _ (demoteCommand_effect _ _ _ Ec) Ex) as [Hok Hno].
  destruct err; intros [= <- <-]; [by apply Hno|by apply Hok].
Qed.

Lemma restore_stepped m st h st' h' : restore m st h = (st', h') →
  stepped st h st' h' ∧ (demoted st' = false ∨ st' = st).
Proof.
  unfold restore. destruct (exec (mip m) _ h) as [err h1] eqn:Ex.
  destruct (exec_stepped _ _ _ _ _ _ _ (restoreCommand_effect _ _) Ex) as [Hok Hno].
  destruct err; intros [= <- <-]; [split; [by apply Hno|by right]|split; [by apply Hok|by left]].
Qed.

(** Replacing the state at an index after a command on its endpoint. *)
Lemma update_agrees sts h i st st' h' :
  NoDup (ids sts) → agrees sts h → sts !! i = Some st → stepped st h st' h' →
  path <$> <[i := st']> sts = path <$> sts ∧ agrees (<[i := st']> sts) h'
  ∧ ∀ e, e ∉ ids sts → out e h' = out e h.
Proof.
  intros Hnd Ha Hi [Hp Hh Hd Ho Hl]. split_and!.
  - rewrite list_fmap_insert, Hp. apply list_insert_id. by rewrite list_lookup_fmap, Hi.
  - apply Forall_lookup. intros j x Hj. destruct (decide (i = j)) as [<-|Hne].
    + rewrite list_lookup_insert_eq in Hj by by eapply lookup_lt_Some. injection Hj as <-. rewrite Hp.
      apply Hd. by apply (proj1 (Forall_lookup _ _) Ha i).
    + rewrite list_lookup_insert_ne in Hj by done. rewrite Ho.
      * by apply (proj1 (Forall_lookup _ _) Ha j).
      * intros Heq. apply Hne. eapply (NoDup_lookup (ids sts) _ _ (Endpoint (path st))); [done|..];
          unfold ids; rewrite list_lookup_fmap; [by rewrite Hi|by rewrite Hj; cbn; rewrite Heq].
  - intros e He. apply Ho. intros ->. apply He. apply list_elem_of_fmap. exists st. split; [done|].
    by eapply list_elem_of_lookup_2.
Qed.

Lemma otherUsable_spec i sts : otherUsable i sts = true ↔
  ∃ j st, j ≠ i ∧ sts !! j = Some st ∧ healthy st = true ∧ demoted st = false.
Proof.
  unfold otherUsable. rewrite existsb_exists. split.
  - intros ([j st] & Hin%list_elem_of_In & Hx). apply list_elem_of_lookup in Hin as [k Hk].
    rewrite list_lookup_imap in Hk. destruct (sts !! k) as [st'|] eqn:Ek; [|done]. injection Hk as <- <-.
    rewrite !andb_true_iff, !negb_true_iff, Nat.eqb_neq in Hx. exists k, st'. naive_solver.
  - intros (j & st & Hne & Hj & Hh & Hd). exists (j, st). split.
    + apply list_elem_of_In, list_elem_of_lookup. exists j. by rewrite list_lookup_imap, Hj.
    + by rewrite Hh, Hd, (proj2 (Nat.eqb_neq _ _)).
Qed.

(** ** One path stays in *)

(** What a step of a monitor on the paths [sts] gives, at a property [P] of
    the log that such steps keep. *)
Record acted (P : log → Prop) (sts : list pathState) (h : log) (sts' : list pathState) (h' : log) : Prop := {
  acted_paths : path <$> sts' = path <$> sts;
  acted_agrees : agrees sts' h';
  acted_some : some_in sts';
  acted_others : ∀ e, e ∉ ids sts → out e h' = out e h;
  acted_always : always P h'
}.

Definition kept_by (es : list Z) (P : log → Prop) : Prop :=
  ∀ l l', P l → one_in es l' → (∀ e, e ∉ es → out e l' = out e l) → P l'.

Lemma stepped_acted P sts h i st st' h' :
  kept_by (ids sts) P → NoDup (ids sts) → agrees sts h → always P h →
  sts !! i = Some st → stepped st h st' h' → some_in (<[i := st']> sts) → acted P sts h (<[i := st']> sts) h'.
Proof.
  intros HP Hnd Ha Hal Hi Hst Hs. destruct (update_agrees _ _ _ _ _ _ Hnd Ha Hi Hst) as (Hp & Ha' & Ho).
  split; [done..|]. pose proof (agrees_one_in _ _ Ha' Hs) as Hone. rewrite (ids_path _ _ Hp) in Hone.
  destruct (stepped_log _ _ _ _ Hst) as [->|[e ->]]; [done|]. apply always_cons; [done|].
  eapply HP; [by apply always_now|done|done].
Qed.

Lemma acted_refl P sts h : agrees sts h → some_in sts → always P h → acted P sts h sts h.
Proof. by split. Qed.

Lemma act_acted P m sts h i :
  kept_by (ids sts) P → NoDup (ids sts) → agrees sts h → some_in sts → always P h →
  acted P sts h (act m (sts, h) i).1 (act m (sts, h) i).2.
Proof.
  intros HP Hnd Ha Hs Hal. unfold act. cbn [fst snd]. destruct (sts !! i) as [st|] eqn:Ei; [|by apply acted_refl].
  destruct (negb (healthy st) && negb (demoted st)) eqn:E1.
  - destruct (otherUsable i sts) eqn:Eo; [|by apply acted_refl]. cbn [negb].
    destruct (demote m st h) as [st' h'] eqn:Ed. eapply stepped_acted; [done..|by eapply demote_stepped|].
    apply otherUsable_spec in Eo as (j & x & Hne & Hj & _ & Hd). exists j, x. by rewrite list_lookup_insert_ne.
  - destruct (healthy st && demoted st) eqn:E2; [|by apply acted_refl].
    destruct (restore m st h) as [st' h'] eqn:Er. apply restore_stepped in Er as [Hst Hd].
    eapply stepped_acted; [done..|]. destruct Hs as (j & x & Hj & Hx). exists j, x. split; [|done].
    rewrite list_lookup_insert_ne; [done|]. intros <-. rewrite Ei in Hj. injection Hj as ->. by rewrite Hx, andb_false_r in E2.
Qed.

Lemma acted_trans P sts h sts1 h1 sts2 h2 :
  acted P sts h sts1 h1 → acted P sts1 h1 sts2 h2 → acted P sts h sts2 h2.
Proof.
  intros [Hp Ha Hs Ho Hal] [Hp' Ha' Hs' Ho' Hal']. split; [congruence|done|done| |done].
  intros e He. rewrite Ho', Ho; [done|done|]. by rewrite (ids_path _ _ Hp).
Qed.

Lemma acts_acted P m idx : ∀ sts h,
  kept_by (ids sts) P → NoDup (ids sts) → agrees sts h → some_in sts → always P h →
  acted P sts h (foldl (act m) (sts, h) idx).1 (foldl (act m) (sts, h) idx).2.
Proof.
  induction idx as [|i idx IH]; intros sts h HP Hnd Ha Hs Hal; [by apply acted_refl|]. cbn [foldl].
  pose proof (act_acted P m sts h i HP Hnd Ha Hs Hal) as Hact.
  destruct (act m (sts, h) i) as [sts1 h1]. cbn [fst snd] in Hact. eapply acted_trans; [exact Hact|].
  destruct Hact as [Hp Ha1 Hs1 Ho Hal1]. apply ids_path in Hp. apply IH; by rewrite ?Hp.
Qed.

Lemma judged_same mp (Probe : Path → option string) now sts h :
  let judged := (λ st, judge mp now st (Probe (path st))) <$> sts in
  path <$> judged = path <$> sts ∧ (agrees sts h → agrees judged h) ∧ (some_in sts → some_in judged).
Proof.
  assert (∀ st r, path (judge mp now st r) = path st ∧ demoted (judge mp now st r) = demoted st) as Hj
    by (intros st []; done).
  split_and!.
  - rewrite <- list_fmap_compose. apply list_fmap_ext. intros i st _. apply Hj.
  - intros Ha. apply Forall_fmap. eapply Forall_impl; [exact Ha|]. intros st Hst. cbn. by destruct (Hj st (Probe (path st))) as [-> ->].
  - intros (j & st & Hst & Hd). eexists j, _. rewrite list_lookup_fmap, Hst. split; [done|]. cbn.
    by destruct (Hj st (Probe (path st))) as [_ ->].
Qed.

Lemma check_acted P m Probe now h :
  kept_by (ids (paths m)) P → NoDup (ids (paths m)) → agrees (paths m) h → some_in (paths m) → always P h →
  acted P (paths m) h (paths (check m Probe now h).1) (check m Probe now h).2.
Proof.
  intros HP Hnd Ha Hs Hal. unfold check.
  destruct (judged_same (mp m) Probe now (paths m) h) as (Hp & Ha' & Hs').
  set (judged := _ <$> paths m) in *. pose proof (ids_path _ _ Hp) as Hids.
  pose proof (acts_acted P m (seq 0 (List.length judged)) judged h) as Hacts.
  destruct (foldl (act m) (judged, h) _) as [sts h']. cbn [fst snd paths set_paths] in *.
  rewrite Hids in Hacts. destruct (Hacts HP Hnd (Ha' Ha) (Hs' Hs) Hal) as [Hp2 Ha2 Hs2 Ho2 Hal2].
  split; [congruence|done|done| |done]. by rewrite <- Hids.
Qed.

(** ** The monitors of a manager *)

Definition all_in (Ls : list (list Z)) (h : log) : Prop := Forall (λ es, one_in es h) Ls.

Definition monitor_ids (m : monitor) : list Z := ids (paths m).

Record sound (ms : list monitor) (h : log) : Prop := {
  sound_ids : NoDup (ms ≫= monitor_ids);
  sound_each : Forall (λ m, agrees (paths m) h ∧ some_in (paths m)) ms;
  sound_always : always (all_in (monitor_ids <$> ms)) h
}.

Lemma bind_NoDup_split (ms : list monitor) i m :
  NoDup (ms ≫= monitor_ids) → ms !! i = Some m →
  NoDup (monitor_ids m) ∧ ∀ j m' e, ms !! j = Some m' → j ≠ i → e ∈ monitor_ids m' → e ∉ monitor_ids m.
Proof.
  revert i. induction ms as [|m0 ms IH]; intros i; [done|]. rewrite bind_cons, NoDup_app. intros (Hn & Hd & Hr).
  assert (∀ j m' e, ms !! j = Some m' → e ∈ monitor_ids m' → e ∈ (ms ≫= monitor_ids)) as Hin.
  { intros j m' e Hj He. apply list_elem_of_bind. exists m'. split; [done|by eapply list_elem_of_lookup_2]. }
  destruct i as [|i]; cbn [lookup list_lookup].
  - intros [= <-]. split; [done|]. intros [|j] m' e Hj Hne He; [done|]. intros Hm. by apply (Hd e Hm), (Hin j m').
  - intros Hi. destruct (IH i Hr Hi) as [Hnd Hdis]. split; [done|].
    intros [|j] m' e Hj Hne He; cbn in Hj; [injection Hj as <-; intros Hm; by apply (Hd e He), (Hin i m)|].
    apply (Hdis j m' e Hj); [congruence|done].
Qed.

Lemma all_in_lookup ms h : all_in (monitor_ids <$> ms) h ↔ ∀ j m, ms !! j = Some m → one_in (monitor_ids m) h.
Proof. unfold all_in. by rewrite Forall_fmap, Forall_lookup. Qed.

(** A step of one monitor keeps every path list of the manager served. *)
Lemma manager_kept ms i m :
  NoDup (ms ≫= monitor_ids) → ms !! i = Some m → kept_by (monitor_ids m) (all_in (monitor_ids <$> ms)).
Proof.
  intros Hnd Hi l l' Hl Hone Ho. destruct (bind_NoDup_split _ _ _ Hnd Hi) as [_ Hdis].
  rewrite all_in_lookup in *. intros j m' Hj. destruct (decide (j = i)) as [->|Hne].
  { rewrite Hi in Hj. by injection Hj as <-. }
  destruct (Hl j m' Hj) as (e & He & Hout).
  exists e. split; [done|]. rewrite Ho; [done|]. by eapply Hdis.
Qed.

Lemma agrees_others sts h h' : (∀ e, e ∈ ids sts → out e h' = out e h) → agrees sts h → agrees sts h'.
Proof.
  intros Ho Ha. apply Forall_lookup. intros j st Hj. rewrite Ho; [by apply (proj1 (Forall_lookup _ _) Ha j)|].
  apply list_elem_of_fmap. exists st. split; [done|by eapply list_elem_of_lookup_2].
Qed.

Lemma acted_sound ms h i m m' h' :
  sound ms h → ms !! i = Some m → acted (all_in (monitor_ids <$> ms)) (paths m) h (paths m') h' →
  sound (<[i := m']> ms) h' ∧ monitor_ids <$> <[i := m']> ms = monitor_ids <$> ms.
Proof.
  intros [Hnd Heach Hal] Hi [Hp Ha Hs Ho Hal']. destruct (bind_NoDup_split _ _ _ Hnd Hi) as [_ Hdis].
  assert (monitor_ids <$> <[i := m']> ms = monitor_ids <$> ms) as Hids.
  { rewrite list_fmap_insert. apply list_insert_id. rewrite list_lookup_fmap, Hi. cbn. f_equal.
    symmetry. by apply ids_path. }
  assert (∀ ms : list monitor, (ms ≫= monitor_ids) = mjoin (monitor_ids <$> ms)) as Hb.
  { induction ms0 as [|x ms0 IH]; [done|]. by rewrite bind_cons, IH. }
  split; [|done]. split; [by rewrite Hb, Hids, <- Hb| |by rewrite Hids].
  apply Forall_lookup. intros j x Hj. destruct (decide (i = j)) as [<-|Hne].
  - rewrite list_lookup_insert_eq in Hj by by eapply lookup_lt_Some. by injection Hj as <-.
  - rewrite list_lookup_insert_ne in Hj by done. destruct (proj1 (Forall_lookup _ _) Heach j x Hj) as [Hax Hsx].
    split; [|done]. eapply agrees_others; [|exact Hax]. intros e He. apply Ho. by eapply Hdis.
Qed.

Lemma round_sound ms h r ms' h' : sound ms h → do_round (ms, h) r = (ms', h') →
  sound ms' h' ∧ monitor_ids <$> ms' = monitor_ids <$> ms.
Proof.
  intros Hs. unfold do_round. cbn [fst snd]. destruct (ms !! rMonitor r) as [m|] eqn:Em; [|by intros [= <- <-]].
  pose proof Hs as [Hnd Heach Hal]. destruct (proj1 (Forall_lookup _ _) Heach _ _ Em) as [Ha Hsome].
  pose proof (check_acted _ m (rProbe r) (rNow r) h (manager_kept _ _ _ Hnd Em)
    (proj1 (bind_NoDup_split _ _ _ Hnd Em)) Ha Hsome Hal) as Hacted.
  destruct (check m (rProbe r) (rNow r) h) as [m' h1]. intros [= <- <-].
  by eapply acted_sound.
Qed.

Lemma rounds_sound rs : ∀ ms h ms' h', sound ms h → foldl do_round (ms, h) rs = (ms', h') →
  sound ms' h' ∧ monitor_ids <$> ms' = monitor_ids <$> ms.
Proof.
  induction rs as [|r rs IH]; intros ms h ms' h' Hs; [by intros [= <- <-]|]. cbn [foldl].
  destruct (do_round (ms, h) r) as [ms1 h1] eqn:Er. destruct (round_sound _ _ _ _ _ Hs Er) as [Hs1 <-]. by apply IH.
Qed.

(** ** Commands that take nothing out: starting and closing *)

Definition harmless (e : Command * bool) : Prop := ∀ id b, effect e.1 = Some (id, b) → b = false.

(** The log grew by harmless commands only. *)
Definition grew (h h' : log) : Prop := ∃ ext, h' = ext ++ h ∧ Forall harmless ext.

Lemma grew_refl h : grew h h.
Proof. by exists []. Qed.

Lemma grew_trans h1 h2 h3 : grew h1 h2 → grew h2 h3 → grew h1 h3.
Proof.
  intros (x & -> & Hx) (y & -> & Hy). exists (y ++ x). split; [by rewrite (assoc_L (++))|by apply Forall_app].
Qed.

Lemma grew_cons e h : harmless e → grew h (e :: h).
Proof. intros He. exists [e]. split; [done|by constructor]. Qed.

Lemma exec_grew program c h err h' : (∀ id b, effect c = Some (id, b) → b = false) → exec program c h = (err, h') → grew h h'.
Proof. intros Hc [= <- <-]. by apply grew_cons. Qed.

Lemma out_grew h h' e : grew h h' → out e h = false → out e h' = false.
Proof.
  intros (ext & -> & Hx) Ho. induction Hx as [|[c ok] ext He _ IH]; [done|]. cbn [out app].
  destruct (effect c) as [[id b]|] eqn:Ec; [|done]. rewrite (He id b Ec). by destruct (ok && (id =? e)).
Qed.

Lemma always_grew (P : log → Prop) h h' :
  (∀ l e, harmless e → P l → P (e :: l)) → grew h h' → always P h → always P h'.
Proof.
  intros HP (ext & -> & Hx) Hal. induction Hx as [|e ext He _ IH]; [done|].
  apply always_cons; [done|]. apply HP; [done|by apply always_now].
Qed.

Lemma all_in_harmless Ls l e : harmless e → all_in Ls l → all_in Ls (e :: l).
Proof.
  intros He Hl. eapply Forall_impl; [exact Hl|]. intros es (x & Hx & Ho). exists x. split; [done|].
  eapply out_grew; [by apply grew_cons|done].
Qed.

(** Harmless commands that, when they all succeed, give the endpoints back. *)
Definition gave_back (es : list Z) (h h' : log) : Prop :=
  ∃ ext, h' = ext ++ h ∧ Forall harmless ext ∧ (Forall (λ e, e.2 = true) ext → ∀ e, e ∈ es → out e h' = false).

Lemma gave_back_grew es h h' : gave_back es h h' → grew h h'.
Proof. intros (ext & -> & Hx & _). by exists ext. Qed.

Lemma gave_back_nil h : gave_back [] h h.
Proof. exists []. split_and!; [done|done|]. by intros _ e ?%not_elem_of_nil. Qed.

Lemma gave_back_app es1 es2 h h1 h2 : gave_back es1 h h1 → gave_back es2 h1 h2 → gave_back (es1 ++ es2) h h2.
Proof.
  intros H1 H2. pose proof (gave_back_grew _ _ _ H2) as Hg.
  destruct H1 as (x & -> & Hx & Hbx), H2 as (y & -> & Hy & Hby).
  exists (y ++ x). split_and!; [by rewrite (assoc_L (++))|by apply Forall_app|].
  intros [Hoy Hox]%Forall_app e [He|He]%elem_of_app; [eapply out_grew; [done|by apply Hbx]|by apply Hby].
Qed.

Lemma restore_gives_back m st h st' h' : restore m st h = (st', h') → gave_back [Endpoint (path st)] h h'.
Proof.
  unfold restore. destruct (exec _ _ h) as [err h1] eqn:Ex. intros Heq.
  assert (h' = h1) as -> by (destruct err; congruence). injection Ex as <- <-.
  eexists [_]. split_and!; [done| |].
  - constructor; [|done]. intros id b. cbn [fst]. rewrite restoreCommand_effect. by intros [= _ <-].
  - intros [Hok _]%Forall_cons e ->%list_elem_of_singleton. cbn [snd] in Hok. cbn [out].
    by rewrite restoreCommand_effect, Hok, Z.eqb_refl.
Qed.

Definition demoted_ids (sts : list pathState) : list Z := ids (filter (λ st, demoted st = true) sts).

Lemma restoreDemoted_gives_back m sts : ∀ h, gave_back (demoted_ids sts) h (restoreDemoted m sts h).2.
Proof.
  induction sts as [|st sts IH]; intros h; cbn [restoreDemoted]; [apply gave_back_nil|].
  unfold demoted_ids. rewrite filter_cons. destruct (demoted st) eqn:Ed.
  - destruct (restore m st h) as [st' h1] eqn:Er. specialize (IH h1). destruct (restoreDemoted m sts h1) as [sts' h2].
    rewrite decide_True by done. apply (gave_back_app [_] _ h h1 h2); [by eapply restore_gives_back|done].
  - rewrite decide_False by congruence. specialize (IH h). by destruct (restoreDemoted m sts h).
Qed.

Lemma closeAll_gives_back ms : ∀ h, gave_back (ms ≫= λ m, demoted_ids (paths m)) h (closeAll ms h).
Proof.
  induction ms as [|m ms IH]; intros h; cbn [closeAll]; [apply gave_back_nil|]. rewrite bind_cons.
  eapply gave_back_app; [|apply IH]. unfold close. pose proof (restoreDemoted_gives_back m (paths m) h) as Hb.
  by destruct (restoreDemoted m (paths m) h).
Qed.

Lemma ensureEndpoints_grew ip ps : ∀ h err h', ensureEndpoints ip ps h = (err, h') → grew h h'.
Proof.
  induction ps as [|p ps IH]; intros h err h'; cbn [ensureEndpoints]; [intros [= <- <-]; apply grew_refl|].
  destruct (exec ip (Show (Endpoint p)) h) as [e1 h1] eqn:E1. apply exec_grew in E1; [|done].
  destruct e1; [|intros Hx%IH; by eapply grew_trans].
  destruct (exec ip (Add p) h1) as [e2 h2] eqn:E2. apply exec_grew in E2; [|by intros ? ? [= _ <-]].
  pose proof (grew_trans _ _ _ E1 E2). destruct e2; [by intros [= <- <-]|intros Hx%IH; by eapply grew_trans].
Qed.

(** The monitors of the multipath links, in their order. *)
Definition monitors_of (c : Config) (now : time) (ls : list Link) : list monitor :=
  omap (λ l, (λ mp, newMonitor (ID l) mp (ip c) now) <$> LinkMultipath l) ls.

Lemma startLinks_spec c now ls : ∀ ms h r h', startLinks c now ls ms h = (r, h') →
  grew h h' ∧ (∀ ms', r = Ok ms' → ms' = ms ++ monitors_of c now ls).
Proof.
  induction ls as [|l ls IH]; intros ms h r h'; cbn [startLinks].
  { intros [= <- <-]. split; [apply grew_refl|]. intros ms' [= <-]. by rewrite app_nil_r. }
  unfold monitors_of. cbn [omap list_omap]. destruct (LinkMultipath l) as [mp|]; cbn [fmap option_fmap option_map]; [|apply IH].
  destruct (ensureEndpoints (ip c) (Paths mp) h) as [err h1] eqn:Ee. apply ensureEndpoints_grew in Ee.
  destruct err as [e|].
  - intros [= <- <-]. split; [|done]. eapply grew_trans; [done|]. eapply gave_back_grew, closeAll_gives_back.
  - intros [Hg Hms]%IH. split; [by eapply grew_trans|]. intros ms' Hr. rewrite (Hms ms' Hr), <- (assoc_L (++)). done.
Qed.

Lemma start_spec c now h r h' : start c now h = (r, h') →
  grew h h' ∧ (∀ ms, r = Ok ms → Validate (Some c) = Ok tt ∧ ms = monitors_of c now (Links c)).
Proof.
  unfold start. destruct (Validate (Some c)) as [[]|e]; [|intros [= <- <-]; split; [apply grew_refl|done]].
  destruct (rstScript _ _) as [script|e]; [|intros [= <- <-]; split; [apply grew_refl|done]].
  destruct (exec _ _ h) as [err h1] eqn:Ex. apply exec_grew in Ex; [|done].
  destruct err; [intros [= <- <-]; by split|]. intros [Hg Hms]%startLinks_spec. split; [by eapply grew_trans|].
  intros ms Hr. split; [done|by apply Hms].
Qed.

Lemma monitor_ids_new id mp0 ip0 now : monitor_ids (newMonitor id mp0 ip0 now) = Endpoint <$> Paths mp0.
Proof. unfold monitor_ids, ids, newMonitor. cbn [paths]. by rewrite <- list_fmap_compose. Qed.

Lemma monitors_of_ids c now ls : (monitors_of c now ls ≫= monitor_ids) = (ls ≫= link_endpoints).
Proof.
  induction ls as [|l ls IH]; [done|]. rewrite bind_cons. unfold monitors_of, link_endpoints, link_paths in *. cbn [omap list_omap].
  destruct (LinkMultipath l) as [mp|]; cbn [fmap option_fmap option_map]; [|done].
  rewrite bind_cons, monitor_ids_new. by f_equal.
Qed.

Lemma monitors_of_elem c now ls m : m ∈ monitors_of c now ls ↔
  ∃ l mp, l ∈ ls ∧ LinkMultipath l = Some mp ∧ m = newMonitor (ID l) mp (ip c) now.
Proof.
  unfold monitors_of. rewrite list_elem_of_omap. split.
  - intros (l & Hl & Hm). destruct (LinkMultipath l) as [mp|] eqn:El; [|done]. injection Hm as <-. by exists l, mp.
  - intros (l & mp & Hl & El & ->). exists l. by rewrite El.
Qed.

Lemma start_sound c now ms h : start c now [] = (Ok ms, h) → Enable c = true → sound ms h.
Proof.
  intros [Hg Hms]%start_spec Hen. destruct (Hms ms eq_refl) as [Hv ->].
  apply validate_accepts in Hv as [_ [Hl _ Hnd]]; [|done].
  assert (∀ m, m ∈ monitors_of c now (Links c) → some_in (paths m) ∧ Forall (λ st, demoted st = false) (paths m)) as Hm.
  { intros m (l & mp0 & Hin & El & ->)%monitors_of_elem. split.
    - pose proof (link_multipath_ok _ (proj1 (Forall_forall _ _) Hl l Hin) _ El) as [_ _ _ _ Htwo _].
      unfold newMonitor. cbn [paths]. destruct (Paths mp0) as [|p ps]; [cbn in Htwo; lia|]. by exists O; eexists.
    - apply Forall_fmap, Forall_forall. by intros. }
  split; [by rewrite monitors_of_ids| |].
  - apply Forall_forall. intros m Hin. destruct (Hm m Hin) as [Hs Hd]. split; [|done].
    eapply Forall_impl; [exact Hd|]. intros st ->. symmetry. by eapply out_grew.
  - eapply always_grew; [apply all_in_harmless|exact Hg|]. intros l ->%suffix_nil_inv. apply all_in_lookup.
    intros j m Hj. apply agrees_one_in; [|by apply Hm; eapply list_elem_of_lookup_2].
    apply Forall_forall. intros st Hst. destruct (Hm m) as [_ Hd]; [by eapply list_elem_of_lookup_2|].
    by apply (proj1 (Forall_forall _ _) Hd).
Qed.

(** From the start of an enabled configuration, whatever the probes of any
    rounds of any monitors say, whatever commands fail, and through the closing
    of the manager, at every moment of the command log every multipath link has
    a path that is not taken out. *)
Theorem one_path_stays c now rounds ms h ms' h' :
  Enable c = true → start c now [] = (Ok ms, h) → foldl do_round (ms, h) rounds = (ms', h') →
  ∀ moment l mp, moment `suffix_of` (Close ms' h').2 → l ∈ Links c → LinkMultipath l = Some mp →
    ∃ p, p ∈ Paths mp ∧ out (Endpoint p) moment = false.
Proof.
  intros Hen Hst Hr moment l mp0 Hsuf Hl El. pose proof (start_sound _ _ _ _ Hst Hen) as Hs0.
  destruct (rounds_sound _ _ _ _ _ Hs0 Hr) as [[_ _ Hal] Hids].
  assert (all_in (monitor_ids <$> ms') moment) as Hin.
  { revert moment Hsuf. eapply always_grew; [apply all_in_harmless|eapply gave_back_grew, closeAll_gives_back|done]. }
  rewrite Hids in Hin. apply start_spec in Hst as [_ Hms]. destruct (Hms ms eq_refl) as [_ ->].
  assert (newMonitor (ID l) mp0 (ip c) now ∈ monitors_of c now (Links c)) as Hm by (apply monitors_of_elem; by exists l, mp0).
  apply list_elem_of_lookup in Hm as [j Hj]. destruct (proj1 (all_in_lookup _ _) Hin j _ Hj) as (e & He & Ho).
  rewrite monitor_ids_new in He. apply list_elem_of_fmap in He as (p & -> & Hp). by exists p.
Qed.

(** A monitor knows what it did: after any rounds the reported [Demoted] of
    every path is what the commands that succeeded made of its endpoint, and
    when the commands of [Close] succeed no endpoint is left taken out. *)
Theorem close_gives_endpoints_back c now rounds ms h ms' h' :
  Enable c = true → start c now [] = (Ok ms, h) → foldl do_round (ms, h) rounds = (ms', h') →
  Forall (λ s, sDemoted s = out (sEndpoint s) h') (Status ms')
  ∧ ∃ ext, (Close ms' h').2 = ext ++ h'
    ∧ (Forall (λ e, e.2 = true) ext → Forall (λ s, out (sEndpoint s) (ext ++ h') = false) (Status ms')).
Proof.
  intros Hen Hst Hr. pose proof (start_sound _ _ _ _ Hst Hen) as Hs0.
  destruct (rounds_sound _ _ _ _ _ Hs0 Hr) as [[_ Heach _] _].
  assert (∀ s, s ∈ Status ms' → ∃ m st, m ∈ ms' ∧ st ∈ paths m ∧ sEndpoint s = Endpoint (path st)
    ∧ sDemoted s = demoted st ∧ demoted st = out (Endpoint (path st)) h') as Hstat.
  { intros s (m & Hs & Hm)%list_elem_of_bind. apply list_elem_of_fmap in Hs as (st & -> & Hst').
    exists m, st. split_and!; [done..|]. destruct (proj1 (Forall_forall _ _) Heach m Hm) as [Ha _].
    by apply (proj1 (Forall_forall _ _) Ha). }
  split.
  - apply Forall_forall. intros s (m & st & _ & _ & -> & -> & Hd)%Hstat. done.
  - destruct (closeAll_gives_back ms' h') as (ext & He & Hx & Hb). exists ext. split; [done|].
    intros Hok. apply Forall_forall. intros s (m & st & Hm & Hst' & -> & _ & Hd)%Hstat. rewrite <- He.
    destruct (demoted st) eqn:Ed.
    + apply (Hb Hok), list_elem_of_bind. exists m. split; [|done]. apply list_elem_of_fmap. exists st.
      split; [done|by apply list_elem_of_filter].
    + eapply out_grew; [|by symmetry]. rewrite He. by exists ext.
Qed.

(** ** The verdict of the probes *)

(** Probe outcomes of a path, newest first.  It is dead when some [fail]
    failures in a row happened and no [recover] successes in a row since. *)
Definition dead (fail recover : Z) (history : list bool) : Prop :=
  ∃ recent older, history = recent ++ replicate (Z.to_nat fail) false ++ older
    ∧ ¬ ∃ a b, recent = a ++ replicate (Z.to_nat recover) true ++ b.

Fixpoint leading (b : bool) (history : list bool) : Z :=
  match history with [] => 0 | x :: rest => if Bool.eqb x b then 1 + leading b rest else 0 end.

Lemma leading_nonneg b l : 0 ≤ leading b l.
Proof. induction l as [|x l IH]; cbn [leading]; [done|]. case_match; lia. Qed.

Lemma leading_replicate b n l : Z.of_nat n ≤ leading b (replicate n b ++ l).
Proof.
  induction n as [|n IH]; [apply leading_nonneg|]. cbn [replicate app leading].
  rewrite Bool.eqb_reflx. lia.
Qed.

Lemma leading_split b n l : Z.of_nat n ≤ leading b l → ∃ rest, l = replicate n b ++ rest.
Proof.
  revert l. induction n as [|n IH]; intros l Hl; [by exists l|]. destruct l as [|x l]; cbn [leading] in Hl; [lia|].
  destruct (Bool.eqb x b) eqn:E; [|lia]. apply Bool.eqb_prop in E as ->. destruct (IH l) as [rest ->]; [lia|].
  by exists rest.
Qed.

Lemma dead_nil f r : 0 < f → ¬ dead f r [].
Proof.
  intros Hf (recent & older & Heq & _). apply (f_equal List.length) in Heq.
  rewrite !length_app, length_replicate in Heq. cbn in Heq. lia.
Qed.

Lemma dead_failure f r l : 0 < r → dead f r (false :: l) ↔ f ≤ leading false (false :: l) ∨ dead f r l.
Proof.
  intros Hr. split.
  - intros (recent & older & Heq & Hn). destruct recent as [|x recent].
    + left. rewrite Heq. cbn [app]. pose proof (leading_replicate false (Z.to_nat f) older). lia.
    + right. injection Heq as <- ->. exists recent, older. split; [done|]. intros (a & b & ->). apply Hn. by exists (false :: a), b.
  - intros [Hf|(recent & older & -> & Hn)].
    + destruct (leading_split false (Z.to_nat f) (false :: l)) as [rest Heq]; [pose proof (leading_nonneg false (false :: l)); lia|].
      exists [], rest. split; [done|]. intros (a & b & Hx%(f_equal List.length)).
      rewrite !length_app, length_replicate in Hx. cbn in Hx. lia.
    + exists (false :: recent), older. split; [done|]. intros (a & b & Hx). destruct a as [|y a].
      * replace (Z.to_nat r) with (S (Z.to_nat (r - 1))) in Hx by lia. done.
      * injection Hx as <- ->. apply Hn. by exists a, b.
Qed.

Lemma dead_success f r l : 0 < f → 0 < r → dead f r (true :: l) ↔ leading true (true :: l) < r ∧ dead f r l.
Proof.
  intros Hf Hr. split.
  - intros (recent & older & Heq & Hn). destruct recent as [|x recent].
    { replace (Z.to_nat f) with (S (Z.to_nat (f - 1))) in Heq by lia. done. }
    injection Heq as <- ->. split.
    + apply Z.lt_nge. intros Hle. apply Hn.
      assert (∀ n recent', Z.of_nat n ≤ leading true (recent' ++ replicate (Z.to_nat f) false ++ older) →
        ∃ b, recent' = replicate n true ++ b) as Hx.
      { replace (Z.to_nat f) with (S (Z.to_nat (f - 1))) by lia. clear. cbn [replicate app]. generalize (replicate (Z.to_nat (f - 1)) false ++ older). intros tail.
        induction n as [|n IH]; intros rec Hn; [exists rec; reflexivity|]. destruct rec as [|y rec]; cbn [app leading replicate Bool.eqb] in Hn; [lia|].
        destruct y; cbn [Bool.eqb] in Hn; [|lia]. destruct (IH rec) as [b ->]; [lia|]. exists b. reflexivity. }
      destruct (Hx (Z.to_nat r) (true :: recent)) as [b Hb]; [rewrite Z2Nat.id by lia; exact Hle|]. exists [], b. exact Hb.
    + exists recent, older. split; [done|]. intros (a & b & ->). apply Hn. by exists (true :: a), b.
  - intros [Hl (recent & older & -> & Hn)]. exists (true :: recent), older. split; [done|].
    intros (a & b & Hx). destruct a as [|y a].
    + cbn [app] in Hx. rewrite app_comm_cons, Hx, <- (assoc_L (++)) in Hl.
      pose proof (leading_replicate true (Z.to_nat r) (b ++ replicate (Z.to_nat f) false ++ older)). lia.
    + injection Hx as <- ->. apply Hn. by exists a, b.
Qed.

(** Acting on the verdicts leaves them alone. *)
Definition verdict (st : pathState) : Path * bool * Z * Z := (path st, healthy st, failures st, successes st).

Lemma act_verdicts m sts h i : verdict <$> (act m (sts, h) i).1 = verdict <$> sts.
Proof.
  assert (∀ st st', sts !! i = Some st → verdict st' = verdict st → verdict <$> <[i := st']> sts = verdict <$> sts) as Hx.
  { intros st st' Hi Hv. rewrite list_fmap_insert, Hv. apply list_insert_id. by rewrite list_lookup_fmap, Hi. }
  unfold act. cbn [fst snd]. destruct (sts !! i) as [st|] eqn:Ei; [|done].
  unfold demote, restore. repeat case_match; simplify_eq; try done; by eapply Hx.
Qed.

Lemma acts_verdicts m idx : ∀ sts h, verdict <$> (foldl (act m) (sts, h) idx).1 = verdict <$> sts.
Proof.
  induction idx as [|i idx IH]; intros sts h; [done|]. cbn [foldl]. pose proof (act_verdicts m sts h i) as Hv.
  destruct (act m (sts, h) i) as [sts1 h1]. by rewrite IH.
Qed.

Lemma check_verdicts m Probe now h :
  mp (check m Probe now h).1 = mp m ∧
  verdict <$> paths (check m Probe now h).1 = (λ st, verdict (judge (mp m) now st (Probe (path st)))) <$> paths m.
Proof.
  unfold check. set (judged := _ <$> paths m). pose proof (acts_verdicts m (seq 0 (List.length judged)) judged h) as Hv.
  destruct (foldl (act m) (judged, h) _) as [sts h']. cbn [fst paths set_paths mp] in *. split; [done|].
  rewrite Hv. unfold judged. by rewrite <- list_fmap_compose.
Qed.

Lemma failAfter_pos m : 0 < failAfter m.
Proof. unfold failAfter, positiveOr, DefaultFailAfter. case_match; lia. Qed.

Lemma recoverAfter_pos m : 0 < recoverAfter m.
Proof. unfold recoverAfter, positiveOr, DefaultRecoverAfter. case_match; lia. Qed.

(** The state of a path after the probe outcomes [history], newest first. *)
Definition follows (m : Multipath) (history : list bool) (v : Path * bool * Z * Z) : Prop :=
  let '(_, healthy, failures, successes) := v in
  failures = leading false history ∧ successes = leading true history
  ∧ (healthy = false ↔ dead (failAfter m) (recoverAfter m) history).

Lemma follows_judge m now st history result :
  follows m history (verdict st) →
  follows m (bool_decide (result = None) :: history) (verdict (judge m now st result)).
Proof.
  pose proof (failAfter_pos m) as Hf. pose proof (recoverAfter_pos m) as Hr.
  intros (H1 & H2 & H3). destruct result as [err|].
  - rewrite bool_decide_eq_false_2 by done. cbn [judge verdict healthy failures successes path follows].
    split_and!; [cbn [leading Bool.eqb]; lia|done|]. rewrite dead_failure, <- H3 by done.
    cbn [leading Bool.eqb]. rewrite H1. destruct (healthy st); cbn [andb negb]; [|naive_solver].
    destruct (Z.leb_spec (failAfter m) (leading false history + 1)); naive_solver lia.
  - rewrite bool_decide_eq_true_2 by done. cbn [judge verdict healthy failures successes path follows].
    split_and!; [done|cbn [leading Bool.eqb]; lia|]. rewrite dead_success, <- H3 by done.
    cbn [leading Bool.eqb]. rewrite H2. destruct (healthy st); cbn [andb orb negb]; [naive_solver|].
    destruct (Z.leb_spec (recoverAfter m) (leading true history + 1)); naive_solver lia.
Qed.

Definition check_round (s : monitor * log) (r : (Path → option string) * time) : monitor * log := check s.1 r.1 r.2 s.2.

Lemma rounds_follow m0 rs : ∀ m h m' h' (hist : Path → list bool),
  mp m = m0 → Forall (λ v, follows m0 (hist v.1.1.1) v) (verdict <$> paths m) →
  foldl check_round (m, h) rs = (m', h') →
  (path <$> paths m') = (path <$> paths m) ∧
  Forall (λ v, follows m0 (reverse ((λ r, bool_decide (r.1 v.1.1.1 = None)) <$> rs) ++ hist v.1.1.1) v) (verdict <$> paths m').
Proof.
  induction rs as [|r rs IH]; intros m h m' h' hist Hm Hf; [by intros [= <- <-]|]. cbn [foldl].
  destruct (check_verdicts m r.1 r.2 h) as [Hmp Hv]. unfold check_round at 2. cbn [fst snd].
  destruct (check m r.1 r.2 h) as [m1 h1] eqn:Ec. cbn [fst] in *. intros Hrun.
  assert (path <$> paths m1 = path <$> paths m) as Hp.
  { apply (f_equal (fmap (λ v : Path * bool * Z * Z, v.1.1.1))) in Hv. rewrite <- !list_fmap_compose in Hv.
    etransitivity; [exact Hv|]. apply list_fmap_ext. intros i st _. cbn. by destruct (r.1 (path st)). }
  apply (IH m1 h1 m' h' (λ p, bool_decide (r.1 p = None) :: hist p)) in Hrun as [Hp' Hall]; [|congruence|].
  - split; [congruence|]. eapply Forall_impl; [exact Hall|]. intros v. cbn beta. cbn [fmap list_fmap]. by rewrite reverse_cons, <- (assoc_L (++)).
  - rewrite Hv. apply Forall_fmap. apply Forall_fmap in Hf. eapply Forall_impl; [exact Hf|]. intros st Hst. unfold compose in *.
    subst m0. assert ((verdict (judge (mp m) r.2 st (r.1 (path st)))).1.1.1 = path st) as -> by by destruct (r.1 (path st)).
    by apply follows_judge.
Qed.

(** C38: the thresholds mean what the configuration says.  After any rounds, a
    path is reported unhealthy exactly when its probes failed [FailAfter] times
    in a row at some point and have not succeeded [RecoverAfter] times in a row
    since, with the defaults 2 and 5 for thresholds that are not set. *)
Theorem path_verdict_exact name mp0 ip0 now h rs m' h' :
  foldl check_round (newMonitor name mp0 ip0 now, h) rs = (m', h') →
  Forall2 (λ p s, sEndpoint s = Endpoint p ∧
    (sHealthy s = false ↔
      dead (failAfter mp0) (recoverAfter mp0) (reverse ((λ r, bool_decide (r.1 p = None)) <$> rs))))
    (Paths mp0) (status m').
Proof.
  intros Hrun. apply (rounds_follow mp0 rs _ _ _ _ (λ _, [])) in Hrun as [Hp Hall]; [|done|].
  - assert (path <$> paths m' = Paths mp0) as <-.
    { rewrite Hp. unfold newMonitor. cbn [paths]. rewrite <- list_fmap_compose. apply list_fmap_id. }
    unfold status. apply Forall2_fmap. apply Forall_fmap in Hall. apply Forall_Forall2_diag.
    eapply Forall_impl; [exact Hall|]. unfold compose. intros st (_ & _ & Hd). cbn in Hd. rewrite app_nil_r in Hd. by split.
  - apply Forall_fmap, Forall_fmap, Forall_forall. intros p _. split_and!; [done|done|].
    cbn. split; [done|]. intros Hd. by destruct (dead_nil _ _ (failAfter_pos mp0) Hd).
Qed.

(** ** A round without command failures settles the paths *)

Definition ok_since (h h' : log) : Prop := ∃ ext, h' = ext ++ h ∧ Forall (λ e, e.2 = true) ext.

Lemma ok_since_split h h1 h2 : h `suffix_of` h1 → h1 `suffix_of` h2 → ok_since h h2 → ok_since h h1 ∧ ok_since h1 h2.
Proof.
  intros [x ->] [y ->] (ext & Heq & Hok). rewrite (assoc_L (++)) in Heq. apply app_inv_tail in Heq as <-.
  apply Forall_app in Hok as [Hy Hx]. split; [by exists x|by exists y].
Qed.

Lemma ok_since_exec program c h err h' : exec program c h = (err, h') → ok_since h h' → err = None.
Proof.
  intros [= <- <-] (ext & Heq & Hok). apply (app_inv_tail h [_]) in Heq as <-.
  apply Forall_cons in Hok as [Hok _]. by apply bool_decide_eq_true in Hok.
Qed.

(** A path that cannot be demoted: it is configured as a backup already. *)
Definition exempt (m : Multipath) (p : Path) : Prop := action m = ActionBackup ∧ "backup" ∈ flags p.

Definition settled (m : Multipath) (usable : Prop) (st : pathState) : Prop :=
  (healthy st = true → demoted st = false) ∧ (usable → healthy st = false → demoted st = true ∨ exempt m (path st)).

Lemma demote_settles m st h st' h' : demote m st h = (st', h') → ok_since h h' →
  healthy st' = healthy st ∧ (demoted st' = true ∨ exempt (mp m) (path st')).
Proof.
  unfold demote. destruct (demoteCommand (mp m) (path st)) as [c|] eqn:Ec.
  - destruct (exec (mip m) c h) as [err h1] eqn:Ex. intros Heq Hok.
    assert (h1 = h') as -> by (destruct err; congruence). rewrite (ok_since_exec _ _ _ _ _ Ex Hok) in Heq.
    injection Heq as <-. by split; [|left].
  - intros [= <- <-] _. split; [done|right]. unfold demoteCommand in Ec. repeat case_match; try done.
    split; [by apply String.eqb_eq|by eapply bool_decide_eq_true_1].
Qed.

Lemma restore_settles m st h st' h' : restore m st h = (st', h') → ok_since h h' →
  healthy st' = healthy st ∧ demoted st' = false.
Proof.
  unfold restore. destruct (exec (mip m) _ h) as [err h1] eqn:Ex. intros Heq Hok.
  assert (h1 = h') as -> by (destruct err; congruence). rewrite (ok_since_exec _ _ _ _ _ Ex Hok) in Heq.
  by injection Heq as <-.
Qed.

Lemma act_suffix m sts h i sts' h' : act m (sts, h) i = (sts', h') → h `suffix_of` h'.
Proof.
  assert (∀ e, h `suffix_of` (e :: h)) as Hc by (intros e; by exists [e]).
  unfold act, demote, restore, exec. cbn [fst snd]. intros H. repeat case_match; simplify_eq; done || apply Hc.
Qed.

Lemma acts_suffix m idx : ∀ sts h sts' h', foldl (act m) (sts, h) idx = (sts', h') → h `suffix_of` h'.
Proof.
  induction idx as [|i idx IH]; intros sts h sts' h'; [by intros [= <- <-]|]. cbn [foldl].
  destruct (act m (sts, h) i) as [sts1 h1] eqn:Ea. intros H%IH. apply act_suffix in Ea. by etransitivity.
Qed.

Lemma act_settles m sts h i st sts' h' : sts !! i = Some st → act m (sts, h) i = (sts', h') → ok_since h h' →
  ∃ st', sts' = <[i := st']> sts ∧ settled (mp m) (otherUsable i sts = true) st'
    ∧ (healthy st = true → demoted st = false → st' = st).
Proof.
  intros Hi. unfold act. cbn [fst snd]. rewrite Hi. intros H Hok.
  destruct (healthy st) eqn:Eh, (demoted st) eqn:Ed; cbn [negb andb] in H.
  - destruct (restore m st h) as [st' h1] eqn:Er. injection H as <- <-. apply restore_settles in Er as [Hh Hd]; [|done].
    exists st'. split_and!; [done| |done]. split; [done|congruence].
  - injection H as <- <-. exists st. rewrite list_insert_id by done. split_and!; [done| |done]. split; [done|congruence].
  - injection H as <- <-. exists st. rewrite list_insert_id by done. split_and!; [done| |done].
    split; [congruence|by left].
  - destruct (otherUsable i sts) eqn:Eo; cbn [negb] in H.
    + destruct (demote m st h) as [st' h1] eqn:Edm. injection H as <- <-. apply demote_settles in Edm as [Hh Hd]; [|done].
      exists st'. split_and!; [done| |done]. split; [congruence|done].
    + injection H as <- <-. exists st. rewrite list_insert_id by done. split_and!; [done| |done]. by split; [congruence|].
Qed.

Lemma acts_settle m u stu n : ∀ k sts h sts' h',
  foldl (act m) (sts, h) (seq k n) = (sts', h') → List.length sts = (k + n)%nat → ok_since h h' →
  (∀ usable, (usable → sts !! u = Some stu ∧ healthy stu = true ∧ demoted stu = false) →
     (∀ j st, (j < k)%nat → sts !! j = Some st → settled (mp m) usable st) → Forall (settled (mp m) usable) sts').
Proof.
  induction n as [|n IH]; intros k sts h sts' h' Hrun Hlen Hok usable Hu Hset.
  { injection Hrun as <- <-. apply Forall_lookup. intros j st Hj. apply (Hset j); [|done].
    apply lookup_lt_Some in Hj. lia. }
  cbn [seq foldl] in Hrun. destruct (act m (sts, h) k) as [sts1 h1] eqn:Ea.
  destruct (ok_since_split h h1 h' (act_suffix _ _ _ _ _ _ Ea) (acts_suffix _ _ _ _ _ _ Hrun) Hok) as [Hok1 Hok2].
  destruct (lookup_lt_is_Some_2 sts k) as [st Hst]; [lia|].
  destruct (act_settles _ _ _ _ _ _ _ Hst Ea Hok1) as (st' & -> & [Ha Hb] & Hkeep).
  assert (usable → k ≠ u → otherUsable k sts = true) as Hother.
  { intros Hus Hne. apply otherUsable_spec. exists u, stu. naive_solver. }
  eapply (IH (S k)); [exact Hrun|rewrite length_insert; lia|done| |].
  - intros Hus. destruct (Hu Hus) as (Hsu & Hh & Hd). split; [|done]. destruct (decide (k = u)) as [->|Hne].
    + rewrite list_lookup_insert_eq by by eapply lookup_lt_Some. rewrite Hst in Hsu. injection Hsu as ->.
      by rewrite Hkeep.
    + by rewrite list_lookup_insert_ne.
  - intros j x Hj Hx. destruct (decide (k = j)) as [<-|Hne].
    + rewrite list_lookup_insert_eq in Hx by by eapply lookup_lt_Some. injection Hx as <-. split; [done|].
      intros Hus Hh. destruct (decide (k = u)) as [->|Hne]; [|by apply Hb; [apply Hother|]].
      destruct (Hu Hus) as (Hsu & Hhu & Hdu). rewrite Hst in Hsu. injection Hsu as ->. rewrite Hkeep in Hh by done. congruence.
    + rewrite list_lookup_insert_ne in Hx by done. eapply Hset; [|done]. lia.
Qed.

(** A round whose commands succeed leaves no healthy path out, and when
    some path that was in is healthy by this round's probes, it leaves no dead
    path in: each is taken out, except one that is configured as a backup when
    the action is to make backups. *)
Theorem round_settles m Probe now h m' h' :
  check m Probe now h = (m', h') → ok_since h h' →
  Forall (settled (mp m)
    (∃ u st, paths m !! u = Some st ∧ demoted st = false ∧ healthy (judge (mp m) now st (Probe (path st))) = true)) (paths m').
Proof.
  unfold check. set (judged := _ <$> paths m). intros Hc Hok.
  destruct (foldl (act m) (judged, h) _) as [sts h1] eqn:Hf. injection Hc as <- <-. cbn [paths set_paths].
  apply Forall_forall. intros st' Hin. pose proof (λ u stu, acts_settle m u stu _ 0 _ _ _ _ Hf eq_refl Hok) as Hall.
  split.
  - apply (proj1 (Forall_forall _ _) (Hall O (mkState (mkPath 0 "" "" [] (mkProbe "" "")) true false 0 0 0 "" 0 0) False (λ f, match f with end)
      ltac:(intros j x Hj; lia)) st' Hin).
  - intros (u & st & Hu & Hd & Hh). refine (proj2 (proj1 (Forall_forall _ _) (Hall u (judge (mp m) now st (Probe (path st))) True _ _) st' Hin) I).
    + intros _. split_and!; [|done|by destruct (Probe (path st))]. unfold judged. by rewrite list_lookup_fmap, Hu.
    + intros j x Hj. lia.
Qed.

End Host.

(** ** A host on which every command succeeds, and a path that dies *)

Definition demo_run : log → string → string → list string → option string := λ _ _ _ _, None.

Definition demo_probe : Path → option string := λ p, if Endpoint p =? 11 then Some "timeout" else None.

Definition demo_start : list monitor * log :=
  match start demo_run demo_config 0 [] with (Ok ms, h) => (ms, h) | (Err _, h) => ([], h) end.

Definition demo_rounds : list round := [mkRound 0 demo_probe 1; mkRound 0 demo_probe 2; mkRound 0 demo_probe 3].

Definition demo_end : list monitor * log := foldl (do_round demo_run) demo_start demo_rounds.

(** The first path is out, and nothing else is. *)
Example demo_end_status :
  ((λ s, (sEndpoint s, sHealthy s, sDemoted s, sDemotes s)) <$> Status demo_end.1) = [(11, false, true, 1); (12, true, false, 0)]
  ∧ out 11 demo_end.2 = true ∧ out 12 demo_end.2 = false ∧ out 11 (Close demo_run demo_end.1 demo_end.2).2 = false.
Proof. vm_compute. done. Qed.

Lemma one_path_stays_witness :
  ∃ p, p ∈ demo_paths ∧ out (Endpoint p) demo_end.2 = false.
Proof.
  apply (one_path_stays demo_run demo_config 0 demo_rounds demo_start.1 demo_start.2 demo_end.1 demo_end.2) with
    (l := mkLink "line-b" (Some (mkFakeTCP RoleClient 443 "" "198.51.100.7" [])) (Some (mkMultipath 0 0 0 0 "" demo_paths)))
    (mp := mkMultipath 0 0 0 0 "" demo_paths).
  - reflexivity.
  - vm_compute. reflexivity.
  - vm_compute. reflexivity.
  - exists [(Add (mkPath 11 "192.0.2.1" "eth0" [] (mkProbe ProbeTCP "198.51.100.7:443")), true)]. vm_compute. reflexivity.
  - right. left.
  - reflexivity.
Defined.

Lemma close_gives_endpoints_back_witness :
  Forall (λ s, sDemoted s = out (sEndpoint s) demo_end.2) (Status demo_end.1)
  ∧ ∃ ext, (Close demo_run demo_end.1 demo_end.2).2 = ext ++ demo_end.2
    ∧ (Forall (λ e, e.2 = true) ext → Forall (λ s, out (sEndpoint s) (ext ++ demo_end.2) = false) (Status demo_end.1)).
Proof.
  apply (close_gives_endpoints_back demo_run demo_config 0 demo_rounds demo_start.1 demo_start.2 demo_end.1 demo_end.2);
    vm_compute; reflexivity.
Defined.

Definition demo_monitor : monitor := newMonitor "line-b" (mkMultipath 0 0 0 0 "" demo_paths) "ip" 0.

Lemma path_verdict_exact_witness :
  Forall2 (λ p s, sEndpoint s = Endpoint p ∧
    (sHealthy s = false ↔ dead 2 5 (reverse ((λ r, bool_decide (r.1 p = None)) <$> [(demo_probe, 1); (demo_probe, 2)]))))
    demo_paths (status (foldl (check_round demo_run) (demo_monitor, []) [(demo_probe, 1); (demo_probe, 2)]).1).
Proof.
  apply (path_verdict_exact demo_run "line-b" (mkMultipath 0 0 0 0 "" demo_paths) "ip" 0 [] [(demo_probe, 1); (demo_probe, 2)] _
    (foldl (check_round demo_run) (demo_monitor, []) [(demo_probe, 1); (demo_probe, 2)]).2).
  vm_compute. reflexivity.
Defined.

Lemma round_settles_witness :
  let m := (check demo_run demo_monitor demo_probe 1 []).1 in
  Forall (settled (mp m)
    (∃ u st, paths m !! u = Some st ∧ demoted st = false ∧ healthy (judge (mp m) 2 st (demo_probe (path st))) = true))
    (paths (check demo_run m demo_probe 2 []).1).
Proof.
  intros m. apply (round_settles demo_run m demo_probe 2 [] _ [(Delete 11, true)]).
  - vm_compute. reflexivity.
  - exists [(Delete 11, true)]. split; [reflexivity|]. constructor; [reflexivity|constructor].
Defined.

(** ** An Agent that dies with a path made backup

    With the action "backup", [ensureEndpoints] of the next Agent finds the
    endpoint and lets it be; the new monitor holds the path for in, so however
    long it is healthy no command makes it a full path again. *)
Definition backup_config : Config :=
  mkConfig true "" "" "" [mkLink "line-b" None (Some (mkMultipath 0 0 0 0 ActionBackup demo_paths))].

Definition killed_log : log :=
  match start demo_run backup_config 0 [] with
  | (Ok ms, h) => (foldl (do_round demo_run) (ms, h) demo_rounds).2
  | (Err _, h) => h
  end.

Definition restarted : list monitor * log :=
  match start demo_run backup_config 9 killed_log with (Ok ms, h) => (ms, h) | (Err _, h) => ([], h) end.

Example killed_agent_leaves_backup :
  let '(ms, h) := foldl (do_round demo_run) restarted (replicate 20 (mkRound 0 (λ _, None) 10)) in
  out 11 killed_log = true ∧ out 11 h = true ∧ out 11 (Close demo_run ms h).2 = true
  ∧ ((λ s, (sEndpoint s, sHealthy s, sDemoted s)) <$> Status ms) = [(11, true, false); (12, true, false)].
Proof. vm_compute. done. Qed.

End AnxPaths.
