(* ===== verification/MaintenanceStream.v ===== *)
(** * The maintenance outbox on the stream

    The data plane's part of maintenance.v1 (api/agent/dataplane_maintenance.go):
    the outbox is sent in batches, one in flight at a time, and Control's
    answers remove, defer or keep its events.  The outbox is the interface
    [Outbox]; the store of Maintenance.v discharges it through the adapter of
    node/maintenance.go.  runMaintenance is one goroutine, so a pass (apply the
    answers, send the next batch) is one step; answers arrive between passes.
    The wake channel and the timer only decide when a pass happens and are not
    modelled. *)

From S2P Require Import Prelude GoStrings Negotiation DataPlane Maintenance.

Module MaintenanceStream.
Import Negotiation DataPlane.

(** ** The outbox as the data plane sees it *)

Record MaintenanceEvent := mkMaintenanceEvent { evID : string; evJSON : string }.

(** [Env] is what the system answers during a call; [held] are the ids of the
    events the outbox holds, [sane] says that it keeps each event under its id. *)
Class Outbox (Env O : Type) := {
  PendingMaintenance : Env → Z → O → O * result (list MaintenanceEvent);
  RemoveMaintenance : Env → list string → O → O * result unit;
  held : O → gset string;
  sane : O → Prop
}.

Class OutboxLaws Env O `{Outbox Env O} := {
  pending_sane : ∀ env limit o, sane o → sane (PendingMaintenance env limit o).1;
  remove_sane : ∀ env ids o, sane o → sane (RemoveMaintenance env ids o).1;
  pending_keeps : ∀ env limit o, held (PendingMaintenance env limit o).1 = held o;
  pending_held : ∀ env limit o o' events, sane o → PendingMaintenance env limit o = (o', Ok events) →
    NoDup (evID <$> events) ∧ ∀ id, id ∈ evID <$> events → id ∈ held o;
  remove_keeps : ∀ env ids o id, id ∈ held o → id ∉ ids → id ∈ held (RemoveMaintenance env ids o).1;
  remove_adds_nothing : ∀ env ids o, held (RemoveMaintenance env ids o).1 ⊆ held o;
  remove_removes : ∀ env ids o o', RemoveMaintenance env ids o = (o', Ok tt) → held o' = held o ∖ list_to_set ids
}.

(** The SDK's constants of maintenance.v1. *)
Class MaintenanceSDK := {
  MaxMaintenanceBatchEvents : Z;
  MaxMaintenanceBatchBytes : Z;
  MaintenanceErrorCodeUnavailable : string;
  MaintenanceErrorCodeBatchTooLarge : string;
  max_batch_positive : 1 ≤ MaxMaintenanceBatchEvents
}.

Section Stream.
Context `{SDK, MaintenanceSDK}.
Context {Env O : Type} {OB : Outbox Env O}.

Definition defaultMaintenanceRetry : duration := 30 * second.
Definition maintenanceAckTimeout : duration := 30 * second.

(** ** State *)

Record maintenanceBatch := mkBatch {
  bRequestID : string;
  bSession : string;
  bEvents : list string;
  bSentAt : time
}.

(** MaintenanceEventResult of the protocol. *)
Record EventResult := mkResult {
  rEventID : string;
  rPersisted : bool;
  rError : string;
  rErrorCode : string;
  rRetryAfterMs : Z
}.

Record maintenanceAnswer := mkAnswer {
  aSession : string;
  aRequestID : string;
  aEvents : list (option EventResult)
}.

Record maintenanceState := mkState {
  inflight : option maintenanceBatch;
  acks : list maintenanceAnswer;
  notBefore : gmap string time;
  limit : Z;
  pending : Z;
  persisted : Z;
  refused : Z;
  deferred : Z
}.

(** The state [runMaintenance] starts with. *)
Definition initialState : maintenanceState := mkState None [] ∅ MaxMaintenanceBatchEvents 0 0 0 0.

Definition set_inflight (s : maintenanceState) (b : option maintenanceBatch) : maintenanceState :=
  mkState b (acks s) (notBefore s) (limit s) (pending s) (persisted s) (refused s) (deferred s).

(** The results of an ack; [None] is a nil message. *)
Definition receiveMaintenanceAck (sessionID requestID : string) (ack : option (list (option EventResult))) (s : maintenanceState) : maintenanceState :=
  match ack with
  | None => s
  | Some ack =>
    mkState (inflight s) (acks s ++ [mkAnswer sessionID requestID ack]) (notBefore s) (limit s) (pending s) (persisted s) (refused s) (deferred s)
  end.

(** ** Applying an answer *)

(** A result that is no refusal: the event stays and may be sent again. *)
Definition isRefusal (r : EventResult) : bool :=
  negb (String.eqb (rError r) "")
  || (negb (String.eqb (rErrorCode r) "") && negb (String.eqb (rErrorCode r) MaintenanceErrorCodeUnavailable)).

Definition retryAfter (r : EventResult) : duration :=
  let retry := i64 (rRetryAfterMs r * millisecond) in
  if retry <=? 0 then defaultMaintenanceRetry else retry.

(** The variables of the loop of [applyMaintenanceAck]. *)
Record ackLoop := mkAckLoop {
  lState : maintenanceState;
  lRemove : list string;
  lTooLarge : bool;
  lAllPersisted : bool
}.

Definition countPersisted (s : maintenanceState) : maintenanceState :=
  mkState (inflight s) (acks s) (notBefore s) (limit s) (pending s) (u64 (persisted s + 1)) (refused s) (deferred s).
Definition countRefused (s : maintenanceState) : maintenanceState :=
  mkState (inflight s) (acks s) (notBefore s) (limit s) (pending s) (persisted s) (u64 (refused s + 1)) (deferred s).
Definition defer (s : maintenanceState) (id : string) (at_ : time) : maintenanceState :=
  mkState (inflight s) (acks s) (<[id := at_]> (notBefore s)) (limit s) (pending s) (persisted s) (refused s) (u64 (deferred s + 1)).

(** One event of the batch and its result; [n] is the size of the batch. *)
Definition applyResult (now : time) (n : nat) (l : ackLoop) (id : string) (result : option EventResult) : ackLoop :=
  match result with
  | None => mkAckLoop (lState l) (lRemove l) (lTooLarge l) false
  | Some r =>
    if negb (String.eqb (rEventID r) "") && negb (String.eqb (rEventID r) id) then mkAckLoop (lState l) (lRemove l) (lTooLarge l) false
    else if rPersisted r then mkAckLoop (countPersisted (lState l)) (lRemove l ++ [id]) (lTooLarge l) (lAllPersisted l)
    else if negb (isRefusal r) then mkAckLoop (defer (lState l) id (add now (retryAfter r))) (lRemove l) (lTooLarge l) false
    else if String.eqb (rErrorCode r) MaintenanceErrorCodeBatchTooLarge && (1 <? Z.of_nat n) then mkAckLoop (lState l) (lRemove l) true false
    else mkAckLoop (countRefused (lState l)) (lRemove l ++ [id]) (lTooLarge l) false
  end.

Fixpoint applyResults (now : time) (n : nat) (l : ackLoop) (ids : list string) (results : list (option EventResult)) : ackLoop :=
  match ids with
  | [] => l
  | id :: ids => applyResults now n (applyResult now n l id (mjoin (head results))) ids (tail results)
  end.

Definition adjustLimit (n : nat) (tooLarge allPersisted : bool) (limit : Z) : Z :=
  if tooLarge then Z.max 1 (Z.of_nat n / 2)
  else if allPersisted && (limit <? MaxMaintenanceBatchEvents) then Z.min MaxMaintenanceBatchEvents (limit * 2)
  else limit.

Definition applyMaintenanceAck (now : time) (env : Env) (batch : maintenanceBatch) (results : list (option EventResult))
    (s : maintenanceState) (o : O) : maintenanceState * O :=
  let n := length (bEvents batch) in
  let l := applyResults now n (mkAckLoop s [] false (Nat.eqb (length results) n)) (bEvents batch) results in
  let s := lState l in
  let s := mkState (inflight s) (acks s) (foldr delete (notBefore s) (lRemove l))
             (adjustLimit n (lTooLarge l) (lAllPersisted l) (limit s)) (pending s) (persisted s) (refused s) (deferred s) in
  (s, match lRemove l with [] => o | ids => (RemoveMaintenance env ids o).1 end).

Fixpoint applyAnswers (now : time) (env : Env) (answers : list maintenanceAnswer) (s : maintenanceState) (o : O) : maintenanceState * O :=
  match answers with
  | [] => (s, o)
  | a :: answers =>
    match inflight s with
    | Some batch =>
      if negb (String.eqb (bRequestID batch) (aRequestID a)) || negb (String.eqb (bSession batch) (aSession a))
      then applyAnswers now env answers s o
      else let '(s, o) := applyMaintenanceAck now env batch (aEvents a) (set_inflight s None) o in
           applyAnswers now env answers s o
    | None => applyAnswers now env answers s o
    end
  end.

Definition applyMaintenanceAcks (now : time) (env : Env) (session : DataPlaneSession) (s : maintenanceState) (o : O) : maintenanceState * O :=
  let answers := acks s in
  let flight := match inflight s with
                | Some batch => if String.eqb (bSession batch) (ID session) then Some batch else None
                | None => None
                end in
  applyAnswers now env answers
    (mkState flight [] (notBefore s) (limit s) (pending s) (persisted s) (refused s) (deferred s)) o.

(** ** Sending *)

(** Whether the event may be sent now, and its retry time when not. *)
Definition notYet (now : time) (nb : gmap string time) (e : MaintenanceEvent) : option time :=
  match nb !! evID e with Some at_ => if before now at_ then Some at_ else None | None => None end.

Definition earlier (next : time) (at_ : time) : time := if is_zero next || before at_ next then at_ else next.

(** The selection loop of [sendMaintenance]: the batch (in order) and the
    earliest retry time among the events passed over. *)
Fixpoint selectBatch (now : time) (nb : gmap string time) (limit : Z) (count size : Z) (next : time)
    (events : list MaintenanceEvent) : list MaintenanceEvent * time :=
  match events with
  | [] => ([], next)
  | e :: events =>
    match notYet now nb e with
    | Some at_ => selectBatch now nb limit count size (earlier next at_) events
    | None =>
      if (limit <=? count) || (MaxMaintenanceBatchBytes <? size + len (evJSON e)) then ([], next)
      else let '(batch, next) := selectBatch now nb limit (count + 1) (size + len (evJSON e)) next events in (e :: batch, next)
    end
  end.

(** Retry times of events that left the outbox are dropped when the read
    returned fewer events than asked. *)
Definition pruneRetries (nb : gmap string time) (events : list MaintenanceEvent) : gmap string time :=
  if Z.of_nat (length events) <? MaxMaintenanceBatchEvents
  then filter (λ kv, kv.1 ∈ evID <$> events) nb
  else nb.

(** What a pass sends: the batch handed to the client, and when to look again
    ([0] for never).  [requestID] is the id [newID] makes, [sent] whether
    [sendData] takes the message. *)
Definition sendMaintenance (now : time) (interval : duration) (env : Env) (requestID : string) (sent : bool)
    (session : DataPlaneSession) (s : maintenanceState) (o : O)
  : maintenanceState * O * option (maintenanceBatch * list MaintenanceEvent) * time :=
  if negb (Has session CapabilityMaintenance) then (s, o, None, 0)
  else
    match (match inflight s with
           | Some batch => if sub now (bSentAt batch) <? maintenanceAckTimeout then Some (add (bSentAt batch) maintenanceAckTimeout) else None
           | None => None
           end) with
    | Some at_ => (s, o, None, at_)
    | None =>
      let s := set_inflight s None in
      match PendingMaintenance env MaxMaintenanceBatchEvents o with
      | (o, Err _) => (s, o, None, add now interval)
      | (o, Ok events) =>
        let '(batch, next) := selectBatch now (notBefore s) (limit s) 0 0 0 events in
        let s := mkState (inflight s) (acks s) (pruneRetries (notBefore s) events) (limit s)
                   (Z.of_nat (length events)) (persisted s) (refused s) (deferred s) in
        match batch with
        | [] => (s, o, None, if is_zero next || before (add now interval) next then add now interval else next)
        | _ =>
          if negb sent then (s, o, None, add now interval)
          else let b := mkBatch requestID (ID session) (evID <$> batch) now in
               (set_inflight s (Some b), o, Some (b, batch), add now maintenanceAckTimeout)
        end
      end
    end.

(** ** The data plane, the outbox and Control *)

(** [sentLog] and [recvLog] record every batch handed to the client and every
    answer received. *)
Record system := mkSystem {
  state : maintenanceState;
  outbox : O;
  session : DataPlaneSession;
  sentLog : list (maintenanceBatch * list MaintenanceEvent);
  recvLog : list maintenanceAnswer
}.

(** What happens outside a pass, and a pass of [runMaintenance]: its clock,
    interval, the answers of the outbox's storage, the next request id and
    whether the client takes the batch. *)
Inductive action :=
  | Receive (sessionID requestID : string) (results : list (option EventResult))
  | SetSession (new : DataPlaneSession)
  | Queue (new : O)
  | Pass (now : time) (interval : duration) (remove read : Env) (requestID : string) (sent : bool).

Definition perform (x : action) (w : system) : system :=
  match x with
  | Receive sid rid results =>
    mkSystem (receiveMaintenanceAck sid rid (Some results) (state w)) (outbox w) (session w) (sentLog w) (recvLog w ++ [mkAnswer sid rid results])
  | SetSession new => mkSystem (state w) (outbox w) new (sentLog w) (recvLog w)
  | Queue new => mkSystem (state w) new (session w) (sentLog w) (recvLog w)
  | Pass now interval remove read rid sent =>
    let '(s, o) := applyMaintenanceAcks now remove (session w) (state w) (outbox w) in
    let '(s, o, b, _) := sendMaintenance now interval read rid sent (session w) s o in
    mkSystem s o (session w) (match b with Some b => sentLog w ++ [b] | None => sentLog w end) (recvLog w)
  end.

(** The supervisor only adds to the outbox. *)
Definition allowed (x : action) (w : system) : Prop :=
  match x with Queue new => held (outbox w) ⊆ held new ∧ sane new | _ => True end.

Inductive step : system → system → Prop :=
  | step_perform x w : allowed x w → step w (perform x w).

Definition initial (w : system) : Prop := state w = initialState ∧ sentLog w = [] ∧ recvLog w = [] ∧ sane (outbox w).

(** A result that settles the event for good, in a batch of [n]. *)
Definition final (n : nat) (id : string) (r : EventResult) : Prop :=
  (rEventID r = "" ∨ rEventID r = id)
  ∧ (rPersisted r = true
     ∨ isRefusal r = true ∧ (rErrorCode r = MaintenanceErrorCodeBatchTooLarge → n = 1%nat)).

(** Control answered the event, in its place of a batch that was sent. *)
Definition answered (w : system) (id : string) : Prop :=
  ∃ b events a k r, (b, events) ∈ sentLog w ∧ a ∈ recvLog w ∧ aSession a = bSession b ∧ aRequestID a = bRequestID b
    ∧ bEvents b !! k = Some id ∧ aEvents a !! k = Some (Some r) ∧ final (length (bEvents b)) id r.

Lemma applyResult_remove now n l id r x : (0 < n)%nat →
  x ∈ lRemove (applyResult now n l id r) → x ∈ lRemove l ∨ x = id ∧ ∃ r', r = Some r' ∧ final n id r'.
Proof.
  intros Hn. destruct r as [r|]; [|by left]. cbn [applyResult].
  destruct (negb (String.eqb (rEventID r) "") && negb (String.eqb (rEventID r) id)) eqn:E1; [by left|].
  assert (rEventID r = "" ∨ rEventID r = id) as Hid.
  { apply andb_false_iff in E1 as [E1|E1]; apply negb_false_iff, String.eqb_eq in E1; auto. }
  destruct (rPersisted r) eqn:E2.
  { intros [Hx|Hx%list_elem_of_singleton]%elem_of_app; [by left|]. right. split; [done|]. exists r. split; [done|]. by split; [|left]. }
  destruct (isRefusal r) eqn:E3; cbn [negb]; [|by left]. destruct (String.eqb _ _ && _) eqn:E4; [by left|].
  intros [Hx|Hx%list_elem_of_singleton]%elem_of_app; [by left|]. right. split; [done|]. exists r. split; [done|].
  split; [done|right]. split; [done|]. intros Hc. rewrite Hc, String.eqb_refl in E4. cbn [andb] in E4. lia.
Qed.

Lemma applyResults_remove now n ids : ∀ results l x, (0 < n)%nat → x ∈ lRemove (applyResults now n l ids results) →
  x ∈ lRemove l ∨ ∃ k r, ids !! k = Some x ∧ results !! k = Some (Some r) ∧ final n x r.
Proof.
  induction ids as [|id ids IH]; intros results l x Hn; cbn [applyResults]; [by left|].
  intros [Hx|(k & r & Hk & Hr & Hf)]%IH; [| |done].
  - apply applyResult_remove in Hx as [Hx|[-> (r & Hr & Hf)]]; [by left| |done].
    right. exists 0%nat, r. split_and!; [done| |done]. destruct results as [|[r'|] results]; by simplify_eq/=.
  - right. exists (S k), r. split_and!; [done| |done]. by destruct results.
Qed.

(** Everything in flight was sent, everything queued was received. *)
Definition tracked (s : maintenanceState) (sent : list (maintenanceBatch * list MaintenanceEvent)) (recv : list maintenanceAnswer) : Prop :=
  (∀ b, inflight s = Some b → ∃ events, (b, events) ∈ sent ∧ bEvents b = evID <$> events ∧ events ≠ [])
  ∧ (∀ a, a ∈ acks s → a ∈ recv).

Lemma applyResults_inflight now n ids : ∀ results l,
  inflight (lState (applyResults now n l ids results)) = inflight (lState l)
  ∧ acks (lState (applyResults now n l ids results)) = acks (lState l)
  ∧ limit (lState (applyResults now n l ids results)) = limit (lState l).
Proof.
  induction ids as [|id ids IH]; intros results l; [done|]. cbn [applyResults].
  destruct (IH (tail results) (applyResult now n l id (mjoin (head results)))) as (-> & -> & ->).
  unfold applyResult. by repeat case_match.
Qed.

Lemma applyAnswers_none now env answers : ∀ s o, inflight s = None → applyAnswers now env answers s o = (s, o).
Proof. induction answers as [|a answers IH]; intros s o Hs; cbn [applyAnswers]; [done|]. rewrite Hs. by apply IH. Qed.

(** The answers of a pass: at most one is applied, to the batch in flight. *)
Lemma applyAnswers_cases now env answers : ∀ s o,
  applyAnswers now env answers s o = (s, o)
  ∨ ∃ b a, inflight s = Some b ∧ a ∈ answers ∧ aSession a = bSession b ∧ aRequestID a = bRequestID b
    ∧ applyAnswers now env answers s o = applyMaintenanceAck now env b (aEvents a) (set_inflight s None) o.
Proof.
  induction answers as [|a answers IH]; intros s o; cbn [applyAnswers]; [by left|].
  destruct (inflight s) as [b|] eqn:Ei; [|by left; apply applyAnswers_none].
  destruct (negb _ || negb _) eqn:Em.
  - destruct (IH s o) as [Hx|(b' & a' & Hb & Ha & H1 & H2 & Hx)]; [by left|].
    right. exists b', a'. rewrite Hb in Ei. injection Ei as ->. split_and!; [done|by right|done..].
  - apply orb_false_iff in Em as [E1 E2]. apply negb_false_iff, String.eqb_eq in E1, E2.
    right. exists b, a. split_and!; [done|left|done|done|].
    destruct (applyMaintenanceAck _ _ _ _ _ _) as [s1 o1] eqn:Eap. apply applyAnswers_none.
    unfold applyMaintenanceAck in Eap. injection Eap as <- _. cbn [inflight].
    by destruct (applyResults_inflight now (length (bEvents b)) (bEvents b) (aEvents a)
      (mkAckLoop (set_inflight s None) [] false (Nat.eqb (length (aEvents a)) (length (bEvents b))))) as (-> & _).
Qed.

(** ** What a batch is *)

(** The events that may be sent now, in the outbox's order. *)
Definition due (now : time) (nb : gmap string time) (events : list MaintenanceEvent) : list MaintenanceEvent :=
  filter (λ e, notYet now nb e = None) events.

Definition bytes (events : list MaintenanceEvent) : Z := sum_Z (λ e, len (evJSON e)) events.

Lemma selectBatch_spec now nb lim events : ∀ count size next batch next',
  selectBatch now nb lim count size next events = (batch, next') →
  batch `prefix_of` due now nb events
  ∧ (batch ≠ [] → count + Z.of_nat (length batch) ≤ lim ∧ size + bytes batch ≤ MaxMaintenanceBatchBytes)
  ∧ (∀ e rest, due now nb events = batch ++ e :: rest →
       lim ≤ count + Z.of_nat (length batch) ∨ MaxMaintenanceBatchBytes < size + bytes batch + len (evJSON e)).
Proof.
  unfold due. induction events as [|e events IH]; intros count size next batch next'; cbn [selectBatch].
  { intros [= <- <-]. split_and!; [done|done|]. intros e rest Hx. by destruct rest. }
  rewrite filter_cons. destruct (notYet now nb e) as [at_|] eqn:En.
  { rewrite decide_False by done. apply IH. }
  rewrite decide_True by done. destruct (_ || _) eqn:Eb.
  - intros [= <- <-]. split_and!; [apply prefix_nil|done|]. intros e' rest [= <- _]. cbn. lia.
  - destruct (selectBatch now nb lim (count + 1) (size + len (evJSON e)) next events) as [b n] eqn:Er.
    intros [= <- <-]. apply IH in Er as (Hp & Hb & Hm). apply orb_false_iff in Eb.
    unfold bytes. cbn [sum_Z foldr length]. change (foldr _ 0 b) with (bytes b). split_and!.
    + by apply prefix_cons.
    + intros _. destruct b as [|e' b]; [cbn; lia|]. destruct Hb as [? ?]; [done|]. lia.
    + intros e' rest Hx. injection Hx as Hx. destruct (Hm e' rest Hx); lia.
Qed.

(** A batch as it is handed to the client. *)
Record batch_ok (b : maintenanceBatch) (events : list MaintenanceEvent) : Prop := {
  batch_ids : bEvents b = evID <$> events;
  batch_nonempty : events ≠ [];
  batch_count : Z.of_nat (length events) ≤ MaxMaintenanceBatchEvents;
  batch_bytes : bytes events ≤ MaxMaintenanceBatchBytes;
  batch_distinct : NoDup (bEvents b)
}.

Context {OL : OutboxLaws Env O}.

(** A pass that sends, sends the longest prefix of the events that are due,
    oldest first, within the current batch size and the byte limit; a deferred
    event is not in it; when nothing is sent although the session carries
    maintenance.v1, either a batch waits for its answer, or the outbox could
    not be read, or the client refused the batch, or no event is due or the
    first due event does not fit. *)
Theorem sent_batch_exact now interval env rid sent sess s o s' o' b at_ :
  sendMaintenance now interval env rid sent sess s o = (s', o', b, at_) →
  1 ≤ limit s → Has sess CapabilityMaintenance = true →
  match b with
  | Some (batch, events) =>
      inflight s' = Some batch ∧ bRequestID batch = rid ∧ bSession batch = ID sess ∧ bEvents batch = evID <$> events
      ∧ ∃ all o1, PendingMaintenance env MaxMaintenanceBatchEvents o = (o1, Ok all)
        ∧ events `prefix_of` due now (notBefore s) all ∧ events ≠ []
        ∧ Z.of_nat (length events) ≤ limit s ∧ bytes events ≤ MaxMaintenanceBatchBytes
        ∧ ∀ e rest, due now (notBefore s) all = events ++ e :: rest →
            Z.of_nat (length events) = limit s ∨ MaxMaintenanceBatchBytes < bytes events + len (evJSON e)
  | None =>
      (∃ waiting, inflight s = Some waiting ∧ sub now (bSentAt waiting) < maintenanceAckTimeout)
      ∨ (∃ o1 e, PendingMaintenance env MaxMaintenanceBatchEvents o = (o1, Err e))
      ∨ sent = false
      ∨ ∃ o1 all, PendingMaintenance env MaxMaintenanceBatchEvents o = (o1, Ok all)
        ∧ (due now (notBefore s) all = []
           ∨ ∃ e rest, due now (notBefore s) all = e :: rest ∧ MaxMaintenanceBatchBytes < len (evJSON e))
  end.
Proof.
  intros Hs Hl Hh. unfold sendMaintenance in Hs. rewrite Hh in Hs. cbn [negb] in Hs.
  destruct (match inflight s with Some _ => _ | None => _ end) as [t|] eqn:Ew.
  { injection Hs as <- <- <- <-. left. destruct (inflight s) as [w|]; [|done].
    destruct (Z.ltb_spec (sub now (bSentAt w)) maintenanceAckTimeout); [by eauto|done]. }
  destruct (PendingMaintenance env MaxMaintenanceBatchEvents o) as [o1 [all|e]] eqn:Ep; [|injection Hs as <- <- <- <-; right; left; eauto].
  destruct (selectBatch now _ _ 0 0 0 all) as [events next] eqn:Eb. apply selectBatch_spec in Eb as (Hp & Hb & Hm).
  cbn [notBefore limit set_inflight] in *. destruct events as [|e events].
  - injection Hs as <- <- <- <-. right; right; right. exists o1, all. split; [done|].
    destruct (due now (notBefore s) all) as [|e rest] eqn:Ed; [by left|right]. exists e, rest. split; [done|].
    destruct (Hm e rest eq_refl) as [Hx|Hx]; cbn in Hx; [lia|done].
  - destruct sent; cbn [negb] in Hs; injection Hs as <- <- <- <-; [|by right; right; left].
    cbn [inflight set_inflight bRequestID bSession bEvents]. split_and!; [done..|]. exists all, o1.
    destruct Hb as [Hb1 Hb2]; [done|]. split_and!; [done|done|done|lia|lia|].
    intros e' rest Hx. destruct (Hm e' rest Hx); lia.
Qed.

(** ** Events leave the outbox only by an answer *)

Lemma sendMaintenance_frame now interval env rid sent sess s o s' o' b at_ :
  sendMaintenance now interval env rid sent sess s o = (s', o', b, at_) → sane o →
  acks s' = acks s ∧ limit s' = limit s ∧ held o' = held o ∧ sane o'
  ∧ match b with
    | Some (batch, events) => inflight s' = Some batch ∧ (1 ≤ limit s ≤ MaxMaintenanceBatchEvents → batch_ok batch events)
    | None => inflight s' = inflight s ∨ inflight s' = None
    end.
Proof.
  intros Hs Hsane. revert Hs. unfold sendMaintenance. destruct (Has sess _); cbn [negb]; [|intros [= <- <- <- <-]; split_and!; by auto].
  destruct (match inflight s with Some _ => _ | None => _ end); [intros [= <- <- <- <-]; split_and!; by auto|].
  pose proof (pending_keeps env MaxMaintenanceBatchEvents o) as Hk.
  pose proof (pending_sane env MaxMaintenanceBatchEvents o Hsane) as Hk2.
  destruct (PendingMaintenance env MaxMaintenanceBatchEvents o) as [o1 [all|e]] eqn:Ep; cbn [fst] in Hk, Hk2;
    [|intros [= <- <- <- <-]; split_and!; by auto].
  destruct (selectBatch now _ _ 0 0 0 all) as [events next] eqn:Eb. apply selectBatch_spec in Eb as (Hp & Hb & _).
  destruct events as [|e events]; [intros [= <- <- <- <-]; split_and!; by auto|].
  destruct sent; cbn [negb]; intros [= <- <- <- <-]; [|split_and!; by auto]. split_and!; [done..|]. intros Hl.
  destruct Hb as [Hb1 Hb2]; [done|]. cbn [limit set_inflight] in Hb1. split; [done|done|lia|lia|].
  apply pending_held in Ep as [Hnd _]; [|done]. cbn [bEvents]. destruct Hp as [rest Hp].
  eapply sublist_NoDup; [exact Hnd|]. apply (sublist_fmap evID (e :: events)).
  etransitivity; [|apply (sublist_filter (λ x, notYet now (notBefore (set_inflight s None)) x = None))].
  unfold due in Hp. rewrite Hp. apply sublist_inserts_r. reflexivity.
Qed.

Definition inv (w : system) : Prop :=
  tracked (state w) (sentLog w) (recvLog w)
  ∧ 1 ≤ limit (state w) ≤ MaxMaintenanceBatchEvents
  ∧ Forall (λ x, batch_ok x.1 x.2) (sentLog w)
  ∧ sane (outbox w).

Lemma initial_inv w : initial w → inv w.
Proof.
  intros (Hs & Hl & Hr & Hsane). unfold inv, tracked. rewrite Hs, Hl, Hr. pose proof max_batch_positive.
  split_and!; cbn; first [done|lia|by intros ? ?%not_elem_of_nil].
Qed.

Lemma adjustLimit_range n t a lim : 1 ≤ lim ≤ MaxMaintenanceBatchEvents → Z.of_nat n ≤ MaxMaintenanceBatchEvents →
  1 ≤ adjustLimit n t a lim ≤ MaxMaintenanceBatchEvents.
Proof.
  intros Hl Hn. unfold adjustLimit. destruct t; [|destruct (a && _); lia].
  assert (Z.of_nat n / 2 ≤ Z.of_nat n) by (apply Z.div_le_upper_bound; lia). lia.
Qed.

(** Applying the answers of a pass. *)
Lemma applyAcks_spec now env w s o :
  inv w → applyMaintenanceAcks now env (session w) (state w) (outbox w) = (s, o) →
  tracked s (sentLog w) (recvLog w) ∧ 1 ≤ limit s ≤ MaxMaintenanceBatchEvents ∧ acks s = [] ∧ sane o
  ∧ ∀ id, id ∈ held (outbox w) → id ∈ held o ∨ answered w id.
Proof.
  intros ((Hin & Hacks) & Hlim & Hok & Hsane). unfold applyMaintenanceAcks.
  set (fl := match inflight (state w) with Some _ => _ | None => _ end).
  assert (∀ b, fl = Some b → inflight (state w) = Some b) as Hfl
    by (intros b; subst fl; repeat case_match; naive_solver).
  set (s0 := mkState fl [] _ _ _ _ _ _). intros Ha.
  destruct (applyAnswers_cases now env (acks (state w)) s0 (outbox w)) as [Hx|(b & a & Hb & Hain & H1 & H2 & Hx)];
    rewrite Hx in Ha.
  { injection Ha as <- <-. split_and!; cbn; try lia; [|done|done|by left].
    split; [|by intros ? ?%not_elem_of_nil]. intros b Hb. by apply Hin, Hfl. }
  destruct (Hin b (Hfl b Hb)) as (events & Hsent & Hbe & Hne).
  pose proof (proj1 (Forall_forall _ _) Hok _ Hsent) as [_ _ Hcount _ _]. cbn [fst snd] in Hcount.
  assert (length (bEvents b) = length events) as Hlen by by rewrite Hbe, length_fmap.
  unfold applyMaintenanceAck in Ha. set (l0 := mkAckLoop _ _ _ _) in Ha.
  destruct (applyResults_inflight now (length (bEvents b)) (bEvents b) (aEvents a) l0) as (Hi1 & Hi2 & Hi3).
  pose proof (applyResults_remove now (length (bEvents b)) (bEvents b) (aEvents a) l0) as Hrm.
  set (l := applyResults _ _ _ _ _) in *. injection Ha as <- <-. cbn [inflight acks limit].
  rewrite Hi1, Hi2, Hi3. split_and!; try done.
  - split; cbn; [done|by intros ? ?%not_elem_of_nil].
  - apply adjustLimit_range; [done|]. lia.
  - apply adjustLimit_range; [done|]. lia.
  - destruct (lRemove l); [done|]. by apply remove_sane.
  - intros id Hid. destruct (decide (id ∈ lRemove l)) as [Hrem|Hrem].
    + right. destruct (Hrm id) as [Hz|(k & r & Hk & Hr & Hf)]; [destruct events; [done|cbn in Hlen; lia]|done|by apply not_elem_of_nil in Hz|].
      exists b, events, a, k, r. split_and!; try done. by apply Hacks.
    + left. destruct (lRemove l) as [|x ids] eqn:El; [done|]. apply remove_keeps; [done|]. done.
Qed.

Lemma answered_mono w w' id : (∀ x, x ∈ sentLog w → x ∈ sentLog w') → (∀ x, x ∈ recvLog w → x ∈ recvLog w') →
  answered w id → answered w' id.
Proof.
  intros Hs Hr (b & events & a & k & r & H1 & H2 & Hrest). exists b, events, a, k, r.
  split; [by apply Hs|]. split; [by apply Hr|done].
Qed.

Lemma perform_inv x w : allowed x w → inv w →
  inv (perform x w) ∧ (∀ id, id ∈ held (outbox w) → id ∈ held (outbox (perform x w)) ∨ answered (perform x w) id)
  ∧ (∀ id, answered w id → answered (perform x w) id).
Proof.
  intros Hal Hinv. destruct x as [sid rid results|new|new|now interval remove read rid sent]; cbn [perform].
  - destruct Hinv as ((Hin & Hacks) & Hlim & Hok & Hsane). split; [|split; [by left|]].
    + split; [|split; [exact Hlim|split; [exact Hok|exact Hsane]]]. split; [done|]. cbn. intros a [Ha| ->%list_elem_of_singleton]%elem_of_app; apply elem_of_app; [left; by apply Hacks|].
      right. by apply list_elem_of_singleton.
    + intros id. apply answered_mono; cbn; [done|]. intros x Hx. apply elem_of_app. by left.
  - split; [exact Hinv|]. split; [by left|]. intros id. by apply answered_mono.
  - destruct Hinv as (Ha & Hb & Hc & _), Hal as [Hsub Hsane]. split; [split; [exact Ha|split; [exact Hb|split; [exact Hc|exact Hsane]]]|].
    split; [|intros id; by apply answered_mono]. intros id Hid. left. by apply Hsub.
  - destruct (applyMaintenanceAcks now remove (session w) (state w) (outbox w)) as [s1 o1] eqn:Ea.
    destruct (applyAcks_spec _ _ _ _ _ Hinv Ea) as ((Hin1 & Hacks1) & Hlim1 & Hnone & Hsane1 & Hheld).
    destruct (sendMaintenance now interval read rid sent (session w) s1 o1) as [[[s2 o2] b] at_] eqn:Es.
    destruct (sendMaintenance_frame _ _ _ _ _ _ _ _ _ _ _ _ Es Hsane1) as (Ha2 & Hl2 & Hh2 & Hsane2 & Hb).
    destruct Hinv as (_ & _ & Hok & _). destruct b as [[batch events]|].
    + destruct Hb as [Hfl Hbok]. specialize (Hbok Hlim1).
      assert (∀ x, x ∈ sentLog w → x ∈ sentLog w ++ [(batch, events)]) as Hgrow by (intros x Hx; apply elem_of_app; by left).
      split; [|split].
      * split; [|split; cbn; [by rewrite Hl2|split; [apply Forall_app; split; [done|by constructor]|done]]].
        split; cbn; [|by rewrite Ha2, Hnone; intros ? ?%not_elem_of_nil].
        intros b' Hb'. rewrite Hfl in Hb'. injection Hb' as <-. exists events. destruct Hbok as [? ? _ _ _].
        split_and!; [|done|done]. apply elem_of_app. right. by apply list_elem_of_singleton.
      * intros id Hid. cbn [outbox]. rewrite Hh2. destruct (Hheld id Hid) as [?|Han]; [by left|right].
        by eapply answered_mono; [..|exact Han].
      * intros id Han. by eapply answered_mono; [..|exact Han].
    + split; [|split].
      * split; [|split; cbn; [by rewrite Hl2|by split]].
        split; cbn; [|by rewrite Ha2, Hnone; intros ? ?%not_elem_of_nil].
        intros b' Hb'. destruct Hb as [Hb|Hb]; rewrite Hb in Hb'; [by apply Hin1|done].
      * intros id Hid. cbn [outbox]. rewrite Hh2. destruct (Hheld id Hid) as [?|Han]; [by left|right].
        by eapply answered_mono; [..|exact Han].
      * intros id Han. by eapply answered_mono; [..|exact Han].
Qed.

Lemma reachable_inv w0 w : initial w0 → rtc step w0 w → inv w.
Proof.
  intros Hi Hr. apply initial_inv in Hi. induction Hr as [|w1 w2 w3 [x w' Hal] _ IH]; [done|].
  by apply IH, perform_inv.
Qed.

(** An event leaves the outbox only because Control settled it.  Whatever
    answers arrive (late, twice, out of order, of other sessions), whatever the
    storage and the client do, an event that the outbox held at some time and
    does not hold later was in its place of a batch that was sent, and an
    answer of that session and request marked it persisted or refused for good
    in that place; a refusal of a whole batch as too large does not count
    unless the event was alone in it. *)
Lemma event_leaves_only_answered w0 w1 w2 id :
  initial w0 → rtc step w0 w1 → rtc step w1 w2 →
  id ∈ held (outbox w1) → id ∉ held (outbox w2) → answered w2 id.
Proof.
  intros Hi H1 H2 Hin Hout. pose proof (reachable_inv _ _ Hi H1) as Hinv. clear H1.
  assert (id ∈ held (outbox w1) ∨ answered w1 id) as Hx by by left. clear Hin.
  assert (id ∈ held (outbox w2) ∨ answered w2 id) as [?|?]; [|done..].
  induction H2 as [|w1 w2 w3 [x w Hal] _ IH]; [done|].
  destruct (perform_inv x w Hal Hinv) as (Hinv' & Hheld & Hans). apply IH; [done|done|].
  destruct Hx as [Hx|Hx]; [by apply Hheld|right; by apply Hans].
Qed.

(** Every batch the client is given is not empty, has at most the SDK's
    number of events and bytes and no event twice, and the batch size stays
    between 1 and the SDK's limit whatever Control answers. *)
Lemma sent_batches_bounded w0 w : initial w0 → rtc step w0 w →
  1 ≤ limit (state w) ≤ MaxMaintenanceBatchEvents ∧ Forall (λ x, batch_ok x.1 x.2) (sentLog w).
Proof. intros Hi Hr. by destruct (reachable_inv _ _ Hi Hr) as (_ & Hl & Hok & _). Qed.

(** ** A reachable Control drains the outbox *)

(** Storage that works: reads return the oldest events, each within a batch,
    and removals succeed. *)
Class OutboxLive (good : Env) (fine : O → Prop) := {
  fine_sane : ∀ o, fine o → sane o;
  pending_live : ∀ o, fine o → ∃ o' events, PendingMaintenance good MaxMaintenanceBatchEvents o = (o', Ok events)
    ∧ fine o' ∧ (held o ≠ ∅ → events ≠ []) ∧ Forall (λ e, len (evJSON e) ≤ MaxMaintenanceBatchBytes) events;
  remove_live : ∀ o ids, fine o → ∃ o', RemoveMaintenance good ids o = (o', Ok tt) ∧ fine o'
}.

Section Drain.
Context (good : Env) (fine : O → Prop) {live : OutboxLive good fine}.
Context (sess : DataPlaneSession) (interval : duration).

(** Control stores every event of the batch. *)
Definition allPersisted (b : maintenanceBatch) : list (option EventResult) :=
  (λ id, Some (mkResult id true "" "" 0)) <$> bEvents b.

(** A pass sends a batch, Control answers it, and the answer is applied. *)
Definition exchange (x : maintenanceState * O) (at_ : time * string) : maintenanceState * O :=
  let '(s, o, b, _) := sendMaintenance at_.1 interval good at_.2 true sess x.1 x.2 in
  match b with
  | None => (s, o)
  | Some (b, _) => applyMaintenanceAcks at_.1 good sess (receiveMaintenanceAck (ID sess) (bRequestID b) (Some (allPersisted b)) s) o
  end.

(** Nothing in flight, nothing deferred. *)
Definition idle (x : maintenanceState * O) : Prop :=
  inflight x.1 = None ∧ acks x.1 = [] ∧ notBefore x.1 = ∅ ∧ 1 ≤ limit x.1 ≤ MaxMaintenanceBatchEvents ∧ fine x.2.

Lemma applyResults_persisted now n ids : ∀ l,
  let l' := applyResults now n l ids ((λ id, Some (mkResult id true "" "" 0)) <$> ids) in
  lRemove l' = lRemove l ++ ids ∧ lTooLarge l' = lTooLarge l ∧ notBefore (lState l') = notBefore (lState l).
Proof.
  induction ids as [|id ids IH]; intros l; cbn [applyResults fmap list_fmap]; [by rewrite app_nil_r|].
  cbn [head tail mjoin option_join]. destruct (IH (applyResult now n l id (Some (mkResult id true "" "" 0)))) as (-> & -> & ->).
  cbn [applyResult rEventID rPersisted]. rewrite String.eqb_refl, andb_false_r. cbn. by rewrite <- (assoc_L (++)).
Qed.

Lemma due_none_deferred now events : due now ∅ events = events.
Proof. apply filter_all. intros e _. unfold notYet. by rewrite lookup_empty. Qed.

Lemma foldr_delete_empty (ids : list string) : foldr delete (∅ : gmap string time) ids = ∅.
Proof. induction ids as [|id ids IH]; [done|]. cbn. by rewrite IH, delete_empty. Qed.

(** An exchange from an idle state sends when the outbox is not empty. *)
Lemma idle_sends now rid s o : idle (s, o) → Has sess CapabilityMaintenance = true →
  ∃ s' o' b at_, sendMaintenance now interval good rid true sess s o = (s', o', b, at_)
    ∧ acks s' = [] ∧ notBefore s' = ∅ ∧ limit s' = limit s ∧ fine o' ∧ held o' = held o
    ∧ match b with
      | None => inflight s' = None ∧ held o = ∅
      | Some (b, events) => inflight s' = Some b ∧ bSession b = ID sess ∧ batch_ok b events ∧ ∀ id, id ∈ bEvents b → id ∈ held o
      end.
Proof.
  intros (Hfl & Hacks & Hnb & Hlim & Hfine) Hh. cbn [fst snd] in *.
  destruct (sendMaintenance now interval good rid true sess s o) as [[[s' o'] b] at_] eqn:Es.
  destruct (sendMaintenance_frame _ _ _ _ _ _ _ _ _ _ _ _ Es (fine_sane o Hfine)) as (Ha & Hl & Hheld & _ & Hb).
  exists s', o', b, at_. rewrite Ha, Hl. split; [done|]. split; [done|].
  unfold sendMaintenance in Es. rewrite Hh, Hfl in Es. cbn [negb] in Es.
  destruct (pending_live o Hfine) as (o1 & events & Ep & Hf1 & Hne & Hsz). rewrite Ep in Es.
  destruct (selectBatch now _ _ 0 0 0 events) as [batch next] eqn:Eb. apply selectBatch_spec in Eb as (Hp & Hb1 & Hm).
  cbn [notBefore limit set_inflight] in Hp, Hb1, Hm. rewrite Hnb, due_none_deferred in Hp, Hm.
  assert (pruneRetries (notBefore (set_inflight s None)) events = ∅) as Hpr.
  { cbn [notBefore set_inflight]. rewrite Hnb. unfold pruneRetries. destruct (_ <? _); [apply map_filter_empty|done]. }
  apply pending_held in Ep as Hph; [|by apply fine_sane]. destruct Hph as [_ Hph].
  destruct batch as [|e batch]; injection Es as <- <- <- <-; cbn [notBefore inflight set_inflight bSession bEvents];
    split_and!; try done.
  - destruct (decide (held o = ∅)) as [|Hx]; [done|]. specialize (Hne Hx). destruct events as [|e events]; [done|].
    apply Forall_cons in Hsz as [Hsz _]. destruct (Hm e events eq_refl) as [Hy|Hy]; cbn in Hy; lia.
  - by apply Hb.
  - intros id Hid. apply Hph. destruct Hp as [rest ->]. rewrite fmap_app. apply elem_of_app. by left.
Qed.

Lemma exchange_progress x at_ : idle x → Has sess CapabilityMaintenance = true →
  idle (exchange x at_) ∧ (held x.2 = ∅ → held (exchange x at_).2 = ∅)
  ∧ (held x.2 ≠ ∅ → (size (held (exchange x at_).2) < size (held x.2))%nat).
Proof.
  destruct x as [s o]. intros Hidle Hh. pose proof Hidle as (_ & _ & _ & Hlim & _).
  destruct (idle_sends at_.1 at_.2 s o Hidle Hh) as (s' & o' & b & t & Es & Ha & Hn & Hl & Hf & Hheld & Hb).
  unfold exchange. cbn [fst snd]. rewrite Es. destruct b as [[b events]|].
  - destruct Hb as (Hfl & Hsess & Hok & Hin). unfold applyMaintenanceAcks, receiveMaintenanceAck.
    cbn [acks inflight notBefore limit pending persisted refused deferred]. rewrite Ha, Hfl, Hsess, String.eqb_refl.
    cbn [app applyAnswers inflight aRequestID aSession]. rewrite Hsess, !String.eqb_refl. cbn [negb orb].
    unfold applyMaintenanceAck. set (l0 := mkAckLoop _ _ _ _).
    destruct (applyResults_inflight at_.1 (length (bEvents b)) (bEvents b) (allPersisted b) l0) as (Hi1 & Hi2 & Hi3).
    destruct (applyResults_persisted at_.1 (length (bEvents b)) (bEvents b) l0) as (Hr & Ht & Hnb).
    change ((λ id, Some (mkResult id true "" "" 0)) <$> bEvents b) with (allPersisted b) in Hr, Ht, Hnb.
    cbn [aEvents]. set (l := applyResults _ _ _ _ _) in *. cbn [lRemove l0 app] in Hr.
    destruct Hok as [Hids Hne Hcnt _ _].
    assert (∃ i0 rest, bEvents b = i0 :: rest) as (i0 & rest & Hbe) by (rewrite Hids; destruct events; [done|by eexists _, _]).
    assert (match lRemove l with [] => o' | ids => (RemoveMaintenance good ids o').1 end = (RemoveMaintenance good (bEvents b) o').1) as ->
      by by rewrite Hr, Hbe.
    destruct (remove_live o' (bEvents b) Hf) as (o2 & Er & Hf2). rewrite Er. cbn [fst snd].
    apply remove_removes in Er. rewrite Hheld in Er. split; [|split].
    + split_and!; cbn; rewrite ?Hi1, ?Hi2, ?Hi3, ?Hnb; cbn; try done; [by rewrite Hn, foldr_delete_empty|..];
        (apply adjustLimit_range; [rewrite Hl; exact Hlim|]); by rewrite Hids, length_fmap.
    + intros He. rewrite Er, He. set_solver.
    + intros _. rewrite Er. apply subset_size. split; [set_solver|]. intros Hsub.
      assert (i0 ∈ held o) as Hi0 by (apply Hin; rewrite Hbe; left). specialize (Hsub i0 Hi0).
      rewrite Hbe in Hsub. set_solver.
  - destruct Hb as [Hfl He]. split; [|split].
    + split_and!; cbn; rewrite ?Hl; first [exact Hfl|exact Ha|exact Hn|exact Hf|apply Hlim].
    + cbn. by rewrite Hheld.
    + done.
Qed.

(** When Control is reachable and stores what it gets, and the storage
    works, the outbox is empty after at most as many exchanges as it held
    events, at whatever times they happen. *)
Lemma outbox_drains x ats :
  idle x → Has sess CapabilityMaintenance = true → (size (held x.2) ≤ length ats)%nat →
  held (foldl exchange x ats).2 = ∅.
Proof.
  revert x. induction ats as [|at_ ats IH]; intros x Hidle Hh Hn; cbn [foldl].
  { apply leibniz_equiv, size_empty_inv. cbn in Hn. lia. }
  destruct (exchange_progress x at_ Hidle Hh) as (Hidle' & Hemp & Hprog). apply IH; [done|done|].
  destruct (decide (held x.2 = ∅)) as [He|He]; [rewrite (Hemp He), size_empty; lia|]. specialize (Hprog He). cbn in Hn. lia.
Qed.

End Drain.

End Stream.

End MaintenanceStream.
