(* ===== verification/MaintenanceOutbox.v ===== *)
(** * The maintenance store behind the stream

    The adapter of node/maintenance.go: the supervisor's store (Maintenance.v)
    as the outbox that the data plane drains (MaintenanceStream.v).  The
    store's laws discharge the interface, so what the stream proves of any
    outbox holds of the state file, with the supervisor's own calls on the
    store in between. *)

From S2P Require Import Prelude GoStrings Negotiation DataPlane Maintenance MaintenanceStream.

Module MaintenanceOutbox.
Import Negotiation DataPlane Maintenance MaintenanceStream.

Section Adapter.
Context (event_json : Event → string) (s : Store).

Definition encode (e : Event) : MaintenanceEvent := mkMaintenanceEvent (EventID e) (event_json e).

Definition PendingMaintenance (io : IO) (limit : Z) (d : disk) : disk * result (list MaintenanceEvent) :=
  let '(d, r) := Pending event_json io s limit d in
  (d, match r with Ok events => Ok (encode <$> events) | Err e => Err e end).

Definition RemoveMaintenance (io : IO) (ids : list string) (d : disk) : disk * result unit := Remove io s ids d.

Definition held (d : disk) : gset string := match load s d with Ok st => dom (Events st) | Err _ => ∅ end.

Definition keyed (st : diskState) : Prop := map_Forall (λ id e, EventID e = id) (Events st).

#[export] Instance keyed_dec st : Decision (keyed st).
Proof. unfold keyed. apply _. Defined.

Definition sane (d : disk) : Prop := ∀ st, load s d = Ok st → keyed st.

#[export] Instance store_outbox : Outbox IO disk :=
  {| MaintenanceStream.PendingMaintenance := PendingMaintenance;
     MaintenanceStream.RemoveMaintenance := RemoveMaintenance;
     MaintenanceStream.held := held; MaintenanceStream.sane := sane |}.

Lemma pending_file io limit d : (Pending event_json io s limit d).1 = d ∨
  ∃ st, load s d = Ok st ∧ (Pending event_json io s limit d).1 = File (to_file s st).
Proof.
  unfold Pending. pose proof (transaction_inv io s d (λ st, Ok (st, st))) as Ht.
  destruct (transaction io s d (λ st, Ok (st, st))) as [d' r]. cbn [fst].
  destruct Ht as [[-> _]|(st & st' & a & Hl & Hc & -> & _)]; [by left|]. injection Hc as <- <-. eauto.
Qed.

Lemma pending_load io limit d st : load s (Pending event_json io s limit d).1 = Ok st ↔ load s d = Ok st.
Proof.
  destruct (pending_file io limit d) as [->|(st' & Hl & ->)]; [done|].
  rewrite (load_written s d st' Hl), Hl. done.
Qed.

Lemma fold_removeEvent_lookup ids st id :
  Events (fold_left removeEvent ids st) !! id = if bool_decide (id ∈ ids) then None else Events st !! id.
Proof.
  revert st. induction ids as [|x ids IH]; intros st; [done|]. cbn [fold_left]. rewrite IH.
  destruct (decide (id ∈ ids)) as [Hin|Hin].
  - by rewrite !bool_decide_true by (done || by right).
  - rewrite (bool_decide_false (id ∈ ids)) by done. cbn. destruct (decide (x = id)) as [->|Hne].
    + by rewrite bool_decide_true, lookup_delete_eq by left.
    + rewrite bool_decide_false, lookup_delete_ne by (done || by intros [->|?]%elem_of_cons). done.
Qed.

Lemma remove_file io ids d :
  (Remove io s ids d).1 = d ∧ (Remove io s ids d).2 ≠ Ok tt
  ∨ (Remove io s ids d).1 = d ∧ ids = []
  ∨ ∃ st, load s d = Ok st ∧ load s (Remove io s ids d).1 = Ok (fold_left removeEvent ids st).
Proof.
  unfold Remove. destruct ids as [|id ids]; [by right; left|].
  pose proof (transaction_inv io s d (λ st, Ok (fold_left removeEvent (id :: ids) st, tt))) as Ht.
  destruct (transaction io s d _) as [d' r]. cbn [fst snd].
  destruct Ht as [[-> [e ->]]|(st & st' & a & Hl & Hc & -> & _)]; [by left|]. injection Hc as <- <-.
  right; right. exists st. split; [done|]. apply load_to_file_ok. unfold keysOk.
  rewrite fold_removeEvent_instances. by eapply load_keys.
Qed.

Lemma remove_events io ids d st st' : load s d = Ok st → load s (Remove io s ids d).1 = Ok st' →
  Events st' = Events st ∨ ∀ id, Events st' !! id = if bool_decide (id ∈ ids) then None else Events st !! id.
Proof.
  intros Hl Hl'. destruct (remove_file io ids d) as [[Hx _]|[[Hx ->]|(st0 & Hl0 & Hx)]]; rewrite Hx in Hl'.
  - left. congruence.
  - left. congruence.
  - right. intros id. rewrite Hl in Hl0. injection Hl0 as <-. injection Hl' as <-. apply fold_removeEvent_lookup.
Qed.

#[export] Instance store_outbox_laws : OutboxLaws IO disk.
Proof.
  split; cbn [MaintenanceStream.sane MaintenanceStream.held MaintenanceStream.PendingMaintenance MaintenanceStream.RemoveMaintenance store_outbox].
  - intros io limit d Hs st. unfold PendingMaintenance.
    pose proof (pending_load io limit d st) as Hp. destruct (Pending event_json io s limit d). cbn [fst] in *. intros Hl. by apply Hs, Hp.
  - intros io ids d Hs st' Hl'. unfold RemoveMaintenance in Hl'.
    destruct (remove_file io ids d) as [[Hx _]|[[Hx _]|(st & Hl & Hx)]]; rewrite Hx in Hl'; [by apply Hs..|].
    injection Hl' as <-. intros id e. rewrite fold_removeEvent_lookup. destruct (bool_decide _); [done|]. by apply Hs.
  - intros io limit d. unfold held, PendingMaintenance. pose proof (pending_load io limit d) as Hp.
    destruct (Pending event_json io s limit d) as [d' r]. cbn [fst] in *.
    destruct (load s d) as [st|e] eqn:El; [by rewrite (proj2 (Hp st) eq_refl)|].
    destruct (load s d') as [st'|e'] eqn:El'; [|done]. by pose proof (proj1 (Hp st') eq_refl).
  - intros io limit d d' events Hs Hp. unfold PendingMaintenance in Hp.
    destruct (Pending event_json io s limit d) as [d1 [es|e]] eqn:Ep; [|done]. injection Hp as -> <-.
    apply pending_batch_ordered in Ep as (st & Hl & _ & Hpre & Hperm & _).
    assert (evID <$> (encode <$> es) = EventID <$> es) as ->. { rewrite <- list_fmap_compose. by apply list_fmap_ext. }
    assert ((EventID <$> (map_to_list (Events st)).*2) = (map_to_list (Events st)).*1) as Hkeys.
    { rewrite <- list_fmap_compose. apply list_fmap_ext. intros i [k e] Hi. cbn.
      apply (Hs st Hl). apply elem_of_map_to_list. by eapply list_elem_of_lookup_2. }
    destruct Hpre as [rest Hpre]. split.
    + apply (sublist_NoDup _ (EventID <$> sortedEvents st)).
      * rewrite Hperm, Hkeys. apply NoDup_fst_map_to_list.
      * rewrite Hpre, fmap_app. apply sublist_inserts_r. reflexivity.
    + intros id Hid. unfold held. rewrite Hl. apply elem_of_dom.
      assert (id ∈ (map_to_list (Events st)).*1) as Hin.
      { rewrite <- Hkeys, <- Hperm, Hpre, fmap_app. apply elem_of_app. by left. }
      apply list_elem_of_fmap in Hin as ([k e] & -> & Hin). apply elem_of_map_to_list in Hin. by eexists.
  - intros io ids d id Hin Hnot. unfold held, RemoveMaintenance in *.
    destruct (remove_file io ids d) as [[Hx _]|[[Hx _]|(st & Hl & Hx)]]; rewrite Hx; [done..|].
    rewrite Hl in Hin. apply elem_of_dom. rewrite fold_removeEvent_lookup, bool_decide_false by done. by apply elem_of_dom.
  - intros io ids d id. unfold held, RemoveMaintenance.
    destruct (remove_file io ids d) as [[Hx _]|[[Hx _]|(st & Hl & Hx)]]; rewrite Hx; [done..|].
    rewrite Hl, !elem_of_dom, fold_removeEvent_lookup. destruct (bool_decide _); [by intros [? ?]|done].
  - intros io ids d d' Hr. unfold held, RemoveMaintenance in *. pose proof (remove_file io ids d) as Hx. rewrite Hr in Hx. cbn in Hx.
    destruct Hx as [[_ ?]|[[-> ->]|(st & Hl & Hx)]]; [done|set_solver|]. rewrite Hl, Hx.
    apply set_eq. intros id. rewrite elem_of_difference, elem_of_list_to_set, !elem_of_dom, fold_removeEvent_lookup.
    case_bool_decide; naive_solver.
Qed.

(** ** The supervisor's calls only add *)

(** Calls of the supervisor, which never acknowledge or remove events. *)
Definition supervisorCall (x : op) : bool := match x with OpAcknowledge _ _ _ | OpRemove _ _ => false | _ => true end.

Lemma keyed_append wall st e st' : append event_json s wall st e = Ok st' → keyed st → keyed st'.
Proof.
  unfold append. intros Ha Hk. destruct (ValidateAt event_json e wall); [|done]. destruct (negb _); [done|].
  destruct (Events st !! EventID e); [by destruct (negb _); simplify_eq|]. destruct (_ <=? _); simplify_eq.
  by apply map_Forall_insert_2.
Qed.

Lemma keyed_observe wall now id o st st' b : observeChange event_json s wall now id o st = Ok (st', b) → keyed st → keyed st'.
Proof.
  unfold observeChange. intros Hx Hk. repeat case_match; simplify_eq; try done; unfold keyed; cbn; by eapply keyed_append.
Qed.

Lemma sane_file st : keyed st → sane (File (to_file s st)).
Proof. intros Hk st' Hl. by rewrite (load_to_file s st st' Hl). Qed.

(** A transaction leaves the file sane when its change keeps events under
    their ids. *)
Lemma transaction_sane {A} io d (f : diskState → result (diskState * A)) :
  sane d → (∀ st st' a, keyed st → f st = Ok (st', a) → keyed st') → sane (transaction io s d f).1.
Proof.
  intros Hs Hf. pose proof (transaction_inv io s d f) as Ht. destruct (transaction io s d f) as [d' r].
  destruct Ht as [[-> _]|(st & st' & a & Hl & Hc & -> & _)]; [done|]. apply sane_file. eapply Hf; [|done]. by apply Hs.
Qed.

Lemma exec_sane d x : supervisorCall x = true → sane d → sane (exec event_json s "" d x).1.
Proof.
  intros Hx Hs. destruct x as [io path wall|io wall e|io limit|io v rs|io ids|io wall now rid o|io wall now rid o fl|io p i]; try done; cbn [exec fst].
  - unfold Open. destruct (ValidateAt _ _ _); [|done]. destruct (String.eqb _ _); [done|].
    apply transaction_sane; [done|]. intros st st' r0 Hk Hc. by simplify_eq.
  - apply transaction_sane; [done|]. intros st st' r0 Hk Hc.
    destruct (append event_json s wall st e) eqn:E; simplify_eq. by eapply keyed_append.
  - pose proof (MaintenanceStream.pending_sane io limit d Hs) as Hp. cbn in Hp. unfold PendingMaintenance in Hp.
    by destruct (Pending event_json io s limit d).
  - unfold Observe. destruct (_ || _); [done|].
    pose proof (transaction_sane io d (observeChange event_json s wall now rid (normalize o)) Hs) as Ht.
    destruct (transaction io s d _) as [d' r]. cbn in *. apply Ht. intros st st' r0 Hk Hc. by eapply keyed_observe.
  - apply transaction_sane; [done|]. intros st st' r0 Hk Hc. cbn in Hc.
    repeat case_match; simplify_eq; by eapply keyed_append.
  - apply transaction_sane; [done|]. intros st st' r0 Hk Hc. by simplify_eq.
Qed.

Lemma exec_held d x : supervisorCall x = true → held d ⊆ held (exec event_json s "" d x).1.
Proof.
  intros Hx id Hid. assert (settles x id = false) as Hset by by destruct x.
  destruct (exec_keeps event_json s id d x Hset) as [->|(st & st' & Hl & -> & Hk)]; [done|].
  unfold held in *. rewrite Hl in Hid. rewrite (load_to_file_ok s st') by (apply Hk; by eapply load_keys).
  apply elem_of_dom in Hid as [e He]. apply elem_of_dom. exists e. by apply Hk.
Qed.

(** ** The system with the store *)

Context `{SDK, MaintenanceSDK}.

(** The stream's actions and the supervisor's calls on the store. *)
Inductive store_step : system → system → Prop :=
  | stream_acts x w : (∀ d, x ≠ MaintenanceStream.Queue d) → store_step w (perform x w)
  | supervisor_calls x w : supervisorCall x = true →
      store_step w (perform (MaintenanceStream.Queue (exec event_json s "" (outbox w) x).1) w).

Lemma store_step_allowed w w' : inv w → store_step w w' → step w w' ∧ inv w'.
Proof.
  intros Hinv Hst. assert (∃ x, allowed x w ∧ w' = perform x w) as (x & Hal & ->).
  { destruct Hst as [x w Hx|x w Hx]; eexists; (split; [|done]).
    - destruct x as [| |d|]; [done|done|by destruct (Hx d)|done].
    - destruct Hinv as (_ & _ & _ & Hs). split; [by apply exec_held|by apply exec_sane]. }
  split; [by constructor|by apply perform_inv].
Qed.

Lemma store_steps w w' : inv w → rtc store_step w w' → rtc step w w' ∧ inv w'.
Proof.
  intros Hinv Hr. induction Hr as [w|w1 w2 w3 Hst _ IH]; [by split; [constructor|]|].
  destruct (store_step_allowed _ _ Hinv Hst) as [Hstep Hinv2]. destruct (IH Hinv2) as [Hsteps ?].
  split; [by eapply rtc_l|done].
Qed.

(** C23: an event of the maintenance store leaves the state file only because
    Control settled it.  From a state file that keeps events under their ids,
    whatever answers arrive (late, twice, out of order, of other sessions),
    whatever the storage and the client do and whatever the supervisor records
    in between, an event that the file held at some time and does not hold
    later was in its place of a batch that was sent, and an answer of that
    session and request marked it persisted or refused for good in that place;
    the refusal of a batch as too large counts only for an event alone in it. *)
Theorem stored_event_leaves_only_answered w0 w1 w2 id :
  initial w0 → rtc store_step w0 w1 → rtc store_step w1 w2 →
  id ∈ held (outbox w1) → id ∉ held (outbox w2) → answered w2 id.
Proof.
  intros Hi H1 H2. destruct (store_steps _ _ (initial_inv _ Hi) H1) as [Hr1 Hs1].
  destruct (store_steps _ _ Hs1 H2) as [Hr2 _]. exact (event_leaves_only_answered w0 w1 w2 id Hi Hr1 Hr2).
Qed.

(** Every batch of maintenance events given to the client is not empty, has
    at most the protocol's number of events and bytes and no event twice, and
    the adaptive batch size stays between 1 and the protocol's limit, whatever
    Control answers. *)
Theorem stored_batches_bounded w0 w : initial w0 → rtc store_step w0 w →
  1 ≤ limit (state w) ≤ MaxMaintenanceBatchEvents ∧ Forall (λ x, batch_ok x.1 x.2) (sentLog w).
Proof.
  intros Hi Hr. destruct (store_steps _ _ (initial_inv _ Hi) Hr) as [Hr' _]. exact (sent_batches_bounded w0 w Hi Hr').
Qed.

(** ** Working storage *)

Definition goodIO (io : IO) : Prop :=
  lock_ok io = true ∧ write io = Written ∧ ∀ st, ∃ n, encoded_size io st = Some n ∧ n ≤ maxStateBytes.

(** A state file as the store leaves it: it loads, events are under their ids
    and within the size the store accepts. *)
Definition fine (d : disk) : Prop :=
  ∃ st, load s d = Ok st ∧ keyed st ∧ map_Forall (λ _ e, len (event_json e) ≤ MaxEventBytes) (Events st).

Lemma good_transaction {A} io d (f : diskState → result (diskState * A)) st st' a :
  goodIO io → load s d = Ok st → f st = Ok (st', a) → transaction io s d f = (File (to_file s st'), Ok a).
Proof.
  intros (Hl & Hw & He) Hld Hf. unfold transaction. rewrite Hl, Hld, Hf, Hw. cbn [negb].
  destruct (He st') as (n & -> & Hn). by rewrite (proj2 (Z.ltb_ge _ _)) by lia.
Qed.

Lemma fit_batch_rest size events : ∃ l, fit_batch event_json false size events = Ok l.
Proof.
  revert size. induction events as [|e events IH]; intros size; cbn [fit_batch]; [by eexists|].
  destruct (_ <? _); [by eexists|]. destruct (IH (size + len (event_json e) + 1)) as [l ->]. by eexists.
Qed.

Lemma fit_batch_small events : Forall (λ e, len (event_json e) ≤ MaxEventBytes) events →
  ∃ l, fit_batch event_json true batchOverhead events = Ok l.
Proof.
  intros He. destruct He as [|e events He _]; cbn [fit_batch]; [by eexists|].
  rewrite (proj2 (Z.ltb_ge _ _)) by (unfold MaxPayloadBytes, MaxEventBytes, batchOverhead in *; lia).
  destruct (fit_batch_rest (batchOverhead + len (event_json e) + 0) events) as [l ->]. by eexists.
Qed.

Lemma store_live io : goodIO io → MaxEventBytes ≤ MaxMaintenanceBatchBytes → OutboxLive io fine.
Proof.
  intros Hio Hmax. split.
  - intros d (st & Hl & Hk & _) st' Hl'. rewrite Hl in Hl'. by injection Hl' as <-.
  - intros d (st & Hl & Hk & Hsz). cbn. unfold PendingMaintenance.
    assert (∀ l e, l `prefix_of` sortedEvents st → e ∈ l → len (event_json e) ≤ MaxEventBytes) as Hin.
    { intros l e [rest Hpre] He. assert (e ∈ sortedEvents st) as Hse by (rewrite Hpre; apply elem_of_app; by left).
      unfold sortedEvents in Hse. rewrite merge_sort_Permutation in Hse. apply list_elem_of_fmap in Hse as ([k e'] & -> & Hse).
      apply elem_of_map_to_list in Hse. by apply (Hsz k). }
    destruct (Pending event_json io s MaxMaintenanceBatchEvents d) as [d' r] eqn:Ep.
    assert (∃ events, r = Ok events ∧ d' = File (to_file s st)) as (events & -> & ->).
    { unfold Pending in Ep. rewrite (good_transaction io d _ st st st Hio Hl eq_refl) in Ep.
      destruct (fit_batch_small (take (Z.to_nat (if (MaxMaintenanceBatchEvents <=? 0) || (MaxBatchSize <? MaxMaintenanceBatchEvents)
        then MaxBatchSize else MaxMaintenanceBatchEvents)) (sortedEvents st))) as [l Hfit].
      { apply Forall_forall. intros e He. eapply Hin; [|exact He]. apply prefix_take. }
      unfold sortedEvents in Hfit. injection Ep as <- <-. cbn. rewrite Hfit. by eexists. }
    apply pending_batch_ordered in Ep as (st1 & Hl1 & Hl2 & Hpre & _ & _ & _ & _ & _ & Hne).
    rewrite Hl in Hl1. injection Hl1 as <-. eexists _, _. split; [done|]. split_and!.
    + exists st. by rewrite Hl2.
    + unfold held. rewrite Hl. intros Hd Hx. apply Hne; [|by destruct events]. intros He. apply Hd. by rewrite He, dom_empty_L.
    + apply Forall_fmap, Forall_forall. intros e He. cbn. specialize (Hin events e Hpre He). lia.
  - intros d ids (st & Hl & Hk & Hsz). cbn. unfold RemoveMaintenance, Remove. destruct ids as [|id ids]; [by exists d; split; [|exists st]|].
    rewrite (good_transaction io d _ st _ tt Hio Hl eq_refl). eexists. split; [done|].
    exists (fold_left removeEvent (id :: ids) st). split_and!.
    + apply load_to_file_ok. unfold keysOk. rewrite fold_removeEvent_instances. by eapply load_keys.
    + intros k e. rewrite fold_removeEvent_lookup. destruct (bool_decide _); [done|]. apply Hk.
    + intros k e. rewrite fold_removeEvent_lookup. destruct (bool_decide _); [done|]. apply Hsz.
Qed.

(** The outbox drains.  When the storage works and Control stores every
    event it is sent, a state file as the store leaves it holds no event after
    at most as many exchanges as it held events, at whatever times they happen
    and under whatever request ids. *)
Theorem stored_outbox_drains io sess interval st d ats :
  goodIO io → MaxEventBytes ≤ MaxMaintenanceBatchBytes → Has sess CapabilityMaintenance = true →
  load s d = Ok st → keyed st → map_Forall (λ _ e, len (event_json e) ≤ MaxEventBytes) (Events st) →
  (size (Events st) ≤ length ats)%nat →
  ∃ st', load s (foldl (exchange io sess interval) (initialState, d) ats).2 = Ok st' ∧ Events st' = ∅.
Proof.
  intros Hio Hmax Hh Hl Hk Hsz Hn. pose proof (store_live io Hio Hmax) as Hlive.
  assert (idle fine (initialState, d)) as Hidle.
  { pose proof max_batch_positive. split_and!; cbn; try done; try lia. by exists st. }
  assert (size (held d) ≤ length ats)%nat as Hn' by (unfold held; by rewrite Hl, size_dom).
  pose proof (outbox_drains io fine sess interval (initialState, d) ats Hidle Hh Hn') as Hd.
  assert (fine (foldl (exchange io sess interval) (initialState, d) ats).2) as (st' & Hl' & _).
  { clear Hd Hn Hn'. generalize dependent (initialState, d). induction ats as [|t ats IH]; intros x Hidle; [by destruct Hidle as (_ & _ & _ & _ & ?)|].
    cbn [foldl]. apply IH. by apply (exchange_progress io fine sess interval x t Hidle Hh). }
  exists st'. split; [done|]. cbn in Hd. unfold held in Hd. rewrite Hl' in Hd. by apply dom_empty_inv_L in Hd.
Qed.

End Adapter.

(** ** Witnesses: the incident of [wFile] goes to Control *)

Module Witness.

#[local] Existing Instance wSDK.

#[local] Program Instance wMaintenanceSDK : MaintenanceSDK :=
  {| MaxMaintenanceBatchEvents := 50; MaxMaintenanceBatchBytes := 262144;
     MaintenanceErrorCodeUnavailable := "maintenance_unavailable"; MaintenanceErrorCodeBatchTooLarge := "maintenance_batch_too_large" |}.
Next Obligation. lia. Qed.

#[local] Instance wOutbox : Outbox IO disk := store_outbox wJson wStore.
#[local] Instance wOutboxLaws : OutboxLaws IO disk := store_outbox_laws wJson wStore.

Definition wSess : DataPlaneSession := mkSession "s1" [CapabilityMaintenance] false.

Definition w0 : system := mkSystem initialState wFile wSess [] [].
Definition pass (t : time) : MaintenanceStream.action (Env := IO) (O := disk) := Pass t (15 * second) wIO wIO "r1" true.
Definition w1 : system := perform (pass wBase) w0.
Definition answer : MaintenanceStream.action (Env := IO) (O := disk) := Receive "s1" "r1" [Some (mkResult "e2" true "" "" 0)].
Definition w2 : system := perform (pass (wBase + second)) (perform answer w1).

Lemma w0_initial : initial w0.
Proof. split_and!; [done..|]. intros st Hl. vm_compute in Hl. injection Hl as <-. apply (bool_decide_eq_true_1 (keyed _)). vm_compute. reflexivity. Qed.

Lemma pass_step t w : store_step wJson wStore w (perform (pass t) w).
Proof. by apply stream_acts. Qed.

Lemma answer_step w : store_step wJson wStore w (perform answer w).
Proof. by apply stream_acts. Qed.

Lemma stored_event_leaves_only_answered_witness : answered w2 "e2".
Proof.
  apply (stored_event_leaves_only_answered wJson wStore w0 w1 w2 "e2").
  - exact w0_initial.
  - apply rtc_once, pass_step.
  - eapply rtc_l; [apply answer_step|]. apply rtc_once, pass_step.
  - vm_compute. reflexivity.
  - apply (bool_decide_eq_true_1 (¬ _)). vm_compute. reflexivity.
Defined.

Lemma stored_batches_bounded_witness :
  sentLog w2 ≠ [] ∧ 1 ≤ limit (state w2) ≤ MaxMaintenanceBatchEvents ∧ Forall (λ x, batch_ok x.1 x.2) (sentLog w2).
Proof.
  split; [by vm_compute|]. apply (stored_batches_bounded wJson wStore w0 w2).
  - exact w0_initial.
  - eapply rtc_l; [apply pass_step|]. eapply rtc_l; [apply answer_step|]. apply rtc_once, pass_step.
Defined.

Lemma sent_batch_exact_witness :
  match sendMaintenance wBase (15 * second) wIO "r1" true wSess initialState wFile with
  | (s', _, Some (batch, _), _) => inflight s' = Some batch
  | _ => False
  end.
Proof.
  destruct (sendMaintenance wBase (15 * second) wIO "r1" true wSess initialState wFile) as [[[s' o'] b] t] eqn:E.
  pose proof (sent_batch_exact wBase (15 * second) wIO "r1" true wSess initialState wFile s' o' b t E) as Hx.
  destruct b as [[batch events]|].
  - apply Hx; [vm_compute; discriminate|vm_compute; reflexivity].
  - vm_compute in E. discriminate.
Defined.

Lemma stored_outbox_drains_witness :
  ∃ st', load wStore (foldl (exchange wIO wSess (15 * second)) (initialState, wFile) [(wBase, "r1")]).2 = Ok st' ∧ Events st' = ∅.
Proof.
  apply (stored_outbox_drains wJson wStore wIO wSess (15 * second) wState wFile [(wBase, "r1")]).
  - split_and!; [reflexivity|reflexivity|]. intros st. exists 1000. split; [reflexivity|vm_compute; discriminate].
  - vm_compute. discriminate.
  - vm_compute. reflexivity.
  - vm_compute. reflexivity.
  - apply (bool_decide_eq_true_1 (keyed _)). vm_compute. reflexivity.
  - apply (bool_decide_eq_true_1 (map_Forall (λ _ e, len (wJson e) ≤ MaxEventBytes) (Events wState))). vm_compute. reflexivity.
  - vm_compute. lia.
Defined.

End Witness.

End MaintenanceOutbox.
