(* ===== verification/WireGuard.v ===== *)
(** * The WireGuard core (core/wireguard/wireguard.go)

    Nodes with their users: validation, the rendered configuration, the
    commands that apply it with their roll back, the traffic cursors that bill
    the users, and the online devices.  Files and commands are the host's:
    [fails] says how each ends, given everything done before, and nothing is
    assumed about it; the log records what was done.  The loops over Go maps
    run in the order of the finite map.  The calls of one node are serialised
    by its lock, so each operation is one step ([AddNode] makes the node known
    before it takes that lock: a call in between is not modelled).  Error
    messages are abbreviated. *)

From S2P Require Import Prelude GoStrings GoNet Limiter NodeUsers.
From Stdlib Require Import Ascii String.

Module WireGuard.
Import GoNet Limiter NodeUsers.

(** ** Data *)

Record WireGuardConfig := mkWGConfig {
  RuntimeDir : string;
  WGPath : string;
  IPPath : string;
  TCPath : string;
  OnlineHandshakeTimeoutSeconds : Z
}.

(** [panel.WireGuardRelay]; of its network policy only the number of paths is
    read. *)
Record WireGuardRelay := mkRelay {
  Backend : string; Mode : string; Role : string; WSSCompat : bool; ExitNAT : bool; EntryStats : bool;
  Server : string; RServerPort : Z; TunName : string; TunPort : Z; TunAddress : string; EntryTunAddress : string;
  ExitTunAddress : string; OutboundIface : string; RoutingTable : Z; RoutingPriority : Z; WSSPath : string;
  WSSSecure : bool; WSSServerName : string; WSSCAFile : string; WSSCertFile : string; WSSKeyFile : string;
  PolicyPaths : nat
}.

(** [panel.WireGuardNode]: the fields the core reads. *)
Record WireGuardNode := mkNode {
  CIDR : string;
  ServerAddress : string;
  ServerPrivateKey : string;
  ServerPublicKey : string;
  MTU : Z;
  Relay : WireGuardRelay
}.

(** [panel.NodeInfo]: the WireGuard part and the common part's port. *)
Record NodeInfo := mkInfo { InfoWireGuard : option WireGuardNode; Common : option Z }.

Record trafficPair := mkPair { upload : Z; download : Z }.

Record nodeState := mkNodeState {
  iface : string;
  info : NodeInfo;
  users : gmap string UserInfo;
  nodeSpeedLimit : Z;
  tcConfigured : bool;
  runtimeHealthy : bool;
  runtimeError : string;
  cfgPath : string;
  reportMinTrafficBytes : Z
}.

Record WireGuard := mkWireGuard {
  cfg : WireGuardConfig;
  nodes : gmap string nodeState;
  traffic : gmap string (gmap string trafficPair)
}.

Definition set_users (s : nodeState) (us : gmap string UserInfo) : nodeState :=
  mkNodeState (iface s) (info s) us (nodeSpeedLimit s) (tcConfigured s) (runtimeHealthy s) (runtimeError s) (cfgPath s) (reportMinTrafficBytes s).
Definition set_tc (s : nodeState) (b : bool) : nodeState :=
  mkNodeState (iface s) (info s) (users s) (nodeSpeedLimit s) b (runtimeHealthy s) (runtimeError s) (cfgPath s) (reportMinTrafficBytes s).
Definition setRuntimeHealth (s : nodeState) (healthy : bool) (message : string) : nodeState :=
  mkNodeState (iface s) (info s) (users s) (nodeSpeedLimit s) (tcConfigured s) healthy (trim_space message) (cfgPath s) (reportMinTrafficBytes s).

(** ** Keys and addresses *)

(** [base64.StdEncoding.DecodeString] skips carriage returns and line feeds; 32
    bytes are 43 characters of the alphabet and one padding character. *)
Definition is_base64 (c : ascii) : bool := is_alnum c || Ascii.eqb c "+" || Ascii.eqb c "/".

Definition without_newlines (s : string) : string := remove_char (remove_char s "010") "013".

Definition is_key_text (s : string) : bool :=
  (len s =? 44) && has_suffix s "=" && all_chars is_base64 (trim_suffix s "=").

Definition validateWireGuardKey (value : string) : result unit :=
  if is_key_text (without_newlines (trim_space value)) then Ok tt
  else Err "must be a standard base64 encoded 32-byte key".

Definition parseWireGuardPeerAddress (value : string) : result Addr :=
  let value := trim_space value in
  if contains value "/" then
    match ParsePrefix value with
    | None => Err "prefix"
    | Some p => if negb (Bits p =? BitLen (pAddr p)) then Err "peer address must be a host address" else Ok (pAddr p)
    end
  else match ParseAddr value with None => Err "address" | Some a => Ok a end.

Definition validateWireGuardUser (u : UserInfo) : result unit :=
  if String.eqb (trim_space (Uuid u)) "" then Err "wireguard user uuid is required"
  else
    let peerIP := trim_space (WireGuardPeerIP u) in
    if String.eqb peerIP "" then Err ("wireguard peer_ip is required for user " +:+ Uuid u)
    else if String.eqb (trim_space (WireGuardPublicKey u)) "" then Err ("wireguard public_key is required for user " +:+ Uuid u)
    else match validateWireGuardKey (WireGuardPublicKey u) with
         | Err e => Err ("wireguard public_key for user " +:+ Uuid u +:+ " is invalid: " +:+ e)
         | Ok _ =>
           match parseWireGuardPeerAddress peerIP with
           | Err e => Err ("wireguard peer_ip for user " +:+ Uuid u +:+ " is invalid: " +:+ e)
           | Ok _ =>
             if negb (String.eqb (WireGuardPresharedKey u) "") then
               match validateWireGuardKey (WireGuardPresharedKey u) with
               | Err e => Err ("wireguard preshared_key for user " +:+ Uuid u +:+ " is invalid: " +:+ e)
               | Ok _ => Ok tt
               end
             else Ok tt
           end
         end.

Definition is_set (s : string) : bool := negb (String.eqb (trim_space s) "").

Definition hasWireGuardRelayConfig (r : WireGuardRelay) : bool :=
  is_set (Backend r) || Nat.ltb 0 (PolicyPaths r) || is_set (Mode r) || is_set (Role r) || is_set (Server r)
  || negb (RServerPort r =? 0) || is_set (TunName r) || negb (TunPort r =? 0) || is_set (TunAddress r)
  || is_set (EntryTunAddress r) || is_set (ExitTunAddress r) || is_set (OutboundIface r) || negb (RoutingTable r =? 0)
  || negb (RoutingPriority r =? 0) || WSSCompat r || is_set (WSSPath r) || WSSSecure r || is_set (WSSServerName r)
  || is_set (WSSCAFile r) || is_set (WSSCertFile r) || is_set (WSSKeyFile r) || ExitNAT r || EntryStats r.

(** [As4] panics on an IPv6 address; the callers test [Contains] first. *)
Definition isWireGuardIPv4Broadcast (p : Prefix) (a : Addr) : bool :=
  if negb (Is4 (pAddr p)) || (31 <=? Bits p) then false
  else addr_value a =? Z.lor (masked_value p) (Z.shiftr (2 ^ 32 - 1) (Bits p)).

Definition badCIDR (cidr : option Prefix) (server : Prefix) : bool :=
  match cidr with
  | None => true
  | Some c =>
    (Bits c =? 0) || (Is4 (pAddr c) && (30 <? Bits c)) || (negb (Is4 (pAddr c)) && (126 <? Bits c))
    || negb (Bits c =? Bits server) || negb (Contains c (pAddr server))
  end.

Section Keys.

(** The public key of a private key (X25519), [None] when it has none. *)
Variable derive : string → option string.

Definition validateWireGuardNode (i : option NodeInfo) : result unit :=
  match i with
  | Some (mkInfo (Some n) (Some port)) =>
    if hasWireGuardRelayConfig (Relay n) then Err "wireguard relay was removed (it ran on gost): clear the node's relay settings"
    else if negb (is_set (ServerPrivateKey n)) then Err "wireguard server_private_key is required"
    else match validateWireGuardKey (ServerPrivateKey n) with
    | Err e => Err ("wireguard server_private_key is invalid: " +:+ e)
    | Ok _ =>
      match (if String.eqb (ServerPublicKey n) "" then Ok tt
             else match validateWireGuardKey (ServerPublicKey n) with
                  | Err e => Err ("wireguard server_public_key is invalid: " +:+ e)
                  | Ok _ => if bool_decide (derive (ServerPrivateKey n) = Some (ServerPublicKey n)) then Ok tt
                            else Err "wireguard server_public_key does not match server_private_key"
                  end) with
      | Err e => Err e
      | Ok _ =>
        if negb (is_set (ServerAddress n)) then Err "wireguard server_address is required"
        else match ParsePrefix (trim_space (ServerAddress n)) with
        | None => Err "wireguard server_address is invalid"
        | Some server =>
          if addr_value (pAddr server) =? masked_value server then Err "wireguard server_address must not be the network address"
          else
            let cidr := ParsePrefix (trim_space (CIDR n)) in
            if is_set (CIDR n) && badCIDR cidr server then Err ("wireguard server_address is outside cidr " +:+ CIDR n)
            else if is_set (CIDR n) && match cidr with Some c => Is4 (pAddr c) && isWireGuardIPv4Broadcast c (pAddr server) | None => false end
            then Err "wireguard server_address must not be the IPv4 broadcast address"
            else if (port <? 1) || (65535 <? port) then Err "wireguard server_port is invalid"
            else if negb (MTU n =? 0) && ((MTU n <? 576) || (1500 <? MTU n)) then Err "wireguard mtu is invalid"
            else Ok tt
        end
      end
    end
  | _ => Err "wireguard node config is missing"
  end.

End Keys.

(** ** The configuration file *)

Definition peerAllowedIP (peerIP : string) : string :=
  let peerIP := trim_space peerIP in
  if contains peerIP "/" then peerIP
  else if contains peerIP ":" then peerIP +:+ "/128"
  else peerIP +:+ "/32".

Definition nl : string := String "010" "".

Definition by_peer_ip (a b : UserInfo) : Prop := String.le (WireGuardPeerIP a) (WireGuardPeerIP b).

#[export] Instance by_peer_ip_dec : RelDecision by_peer_ip.
Proof. intros a b. unfold by_peer_ip. apply _. Defined.

Definition sortedUsers (us : gmap string UserInfo) : list UserInfo := merge_sort by_peer_ip (map_to_list us).*2.

Definition renderPeer (u : UserInfo) : string :=
  nl +:+ "[Peer]" +:+ nl +:+ "PublicKey = " +:+ WireGuardPublicKey u +:+ nl
  +:+ (if String.eqb (WireGuardPresharedKey u) "" then "" else "PresharedKey = " +:+ WireGuardPresharedKey u +:+ nl)
  +:+ "AllowedIPs = " +:+ peerAllowedIP (WireGuardPeerIP u) +:+ nl.

(** The server of a state: [AddNode] only stores validated nodes. *)
Definition serverOf (s : nodeState) : WireGuardNode * Z :=
  match info s with
  | mkInfo (Some n) (Some port) => (n, port)
  | _ => (mkNode "" "" "" "" 0 (mkRelay "" "" "" false false false "" 0 "" 0 "" "" "" "" 0 0 "" false "" "" "" "" 0), 0)
  end.

Definition renderConfig (s : nodeState) : string :=
  let '(n, port) := serverOf s in
  "[Interface]" +:+ nl +:+ "PrivateKey = " +:+ ServerPrivateKey n +:+ nl +:+ "ListenPort = " +:+ itoa port +:+ nl
  +:+ foldr (λ u rest, renderPeer u +:+ rest) "" (sortedUsers (users s)).

Definition wireGuardMTU (n : WireGuardNode) : Z := if 0 <? MTU n then MTU n else 1280.

(** ** Applying it *)

Inductive Effect :=
  | MkdirAll (dir : string)
  | WriteFile (path content : string)
  | RemoveFile (path : string)
  | Exec (program : string) (args : list string).

Definition log := list (Effect * bool).

Section Host.

(** The error of an effect after the log [h]. *)
Variable fails : log → Effect → option string.

Definition do (e : Effect) (h : log) : option string * log :=
  let err := fails h e in (err, (e, bool_decide (err = None)) :: h).

(** The effects in order, up to the first that fails. *)
Fixpoint doAll (es : list Effect) (h : log) : option string * log :=
  match es with
  | [] => (None, h)
  | e :: es => match do e h with (None, h) => doAll es h | (Some err, h) => (Some err, h) end
  end.

Definition tcPath (c : WireGuardConfig) : string := if String.eqb (TCPath c) "" then "tc" else TCPath c.

Definition tcText (rate : Z) : string := itoa (tcRate rate) +:+ "bit".

Definition protocolOf (a : Addr) : string := if Is4 a then "ip" else "ipv6".
Definition matchOf (a : Addr) : string := if Is4 a then "ip" else "ip6".
Definition maskOf (a : Addr) : string := if Is4 a then "/32" else "/128".

Definition egressFilters (path dev : string) (a : Addr) (pref : Z) (classID : string) : list Effect :=
  imap (λ offset direction,
    Exec path ["filter"; "replace"; "dev"; dev; "parent"; "1:"; "protocol"; protocolOf a; "pref"; itoa (pref + Z.of_nat offset);
               "u32"; "match"; matchOf a; direction; addr_string a +:+ maskOf a; "flowid"; "1:" +:+ classID]) ["src"; "dst"].

Definition ingressFilter (path dev : string) (a : Addr) (pref rate : Z) : Effect :=
  Exec path ["filter"; "replace"; "dev"; dev; "parent"; "ffff:"; "protocol"; protocolOf a; "pref"; itoa pref; "u32"; "match"; matchOf a;
             "src"; addr_string a +:+ maskOf a; "police"; "rate"; tcText rate; "burst"; "64k"; "conform-exceed"; "drop"].

Definition peerRules (path dev : string) (index : nat) (limit : Addr * Z) : list Effect :=
  let '(a, rate) := limit in
  let classID := itoa (Z.of_nat index + 10) in
  let pref := 1000 + Z.of_nat index * 4 in
  [Exec path ["class"; "replace"; "dev"; dev; "parent"; "1:1"; "classid"; "1:" +:+ classID; "htb"; "rate"; tcText rate; "ceil"; tcText rate]]
  ++ egressFilters path dev a pref classID ++ [ingressFilter path dev a (pref + 2) rate].

(** The rates of the peers that have one. *)
Fixpoint peerLimits (nodeRate : Z) (us : list UserInfo) : result (list (Addr * Z)) :=
  match us with
  | [] => Ok []
  | u :: us =>
    let rate := effectiveWireGuardRate nodeRate (USpeedLimit u) in
    if rate <=? 0 then peerLimits nodeRate us
    else match parseWireGuardPeerAddress (WireGuardPeerIP u) with
         | Err e => Err e
         | Ok a => match peerLimits nodeRate us with Err e => Err e | Ok ls => Ok ((a, rate) :: ls) end
         end
  end.

Definition cleanupPeerRateLimits (c : WireGuardConfig) (s : nodeState) (h : log) : nodeState * log :=
  if negb (tcConfigured s) then (s, h)
  else
    let h := (do (Exec (tcPath c) ["qdisc"; "del"; "dev"; iface s; "root"]) h).2 in
    let h := (do (Exec (tcPath c) ["qdisc"; "del"; "dev"; iface s; "ingress"]) h).2 in
    (set_tc s false, h).

Definition applyPeerRateLimits (c : WireGuardConfig) (s : nodeState) (h : log) : nodeState * option string * log :=
  match peerLimits (nodeSpeedLimit s) (map_to_list (users s)).*2 with
  | Err e => (s, Some e, h)
  | Ok [] => let '(s, h) := if tcConfigured s then cleanupPeerRateLimits c s h else (s, h) in (s, None, h)
  | Ok limits =>
    let parentRate := if 0 <? nodeSpeedLimit s then nodeSpeedLimit s
                      else foldl (λ p l, i64 (p + l.2)) (nodeSpeedLimit s) limits in
    if parentRate <=? 0 then (s, None, h)
    else
      let s := set_tc s true in
      let root := [
        Exec (tcPath c) ["qdisc"; "replace"; "dev"; iface s; "root"; "handle"; "1:"; "htb"; "default"; "1"];
        Exec (tcPath c) ["class"; "replace"; "dev"; iface s; "parent"; "1:"; "classid"; "1:1"; "htb"; "rate"; tcText parentRate; "ceil"; tcText parentRate];
        Exec (tcPath c) ["qdisc"; "replace"; "dev"; iface s; "handle"; "ffff:"; "ingress"]] in
      let '(err, h) := doAll (root ++ mjoin (imap (peerRules (tcPath c) (iface s)) limits)) h in
      (s, err, h)
  end.

(** The interface, added when it is not there. *)
Definition ensureLink (c : WireGuardConfig) (s : nodeState) (h : log) : option string * log :=
  match do (Exec (IPPath c) ["link"; "show"; iface s]) h with
  | (None, h) => (None, h)
  | (Some _, h) => do (Exec (IPPath c) ["link"; "add"; iface s; "type"; "wireguard"]) h
  end.

Definition applyLocked (c : WireGuardConfig) (s : nodeState) (h : log) : nodeState * option string * log :=
  let n := (serverOf s).1 in
  match doAll [MkdirAll (RuntimeDir c); WriteFile (cfgPath s) (renderConfig s)] h with
  | (Some e, h) => (s, Some e, h)
  | (None, h) =>
    match ensureLink c s h with
    | (Some e, h) => (s, Some e, h)
    | (None, h) =>
      match doAll [
        Exec (IPPath c) ["address"; "flush"; "dev"; iface s];
        Exec (IPPath c) ["address"; "add"; ServerAddress n; "dev"; iface s];
        Exec (IPPath c) ["link"; "set"; "mtu"; itoa (wireGuardMTU n); "dev"; iface s];
        Exec (WGPath c) ["setconf"; iface s; cfgPath s];
        Exec (IPPath c) ["link"; "set"; "up"; "dev"; iface s]] h with
      | (Some e, h) => (s, Some e, h)
      | (None, h) =>
        match applyPeerRateLimits c s h with
        | (s, Some e, h) => (s, Some e, h)
        | (s, None, h) => (setRuntimeHealth s true "", None, h)
        end
      end
    end
  end.

(** ** Nodes and users *)

Definition set_node (w : WireGuard) (tag : string) (s : nodeState) : WireGuard :=
  mkWireGuard (cfg w) (<[tag := s]> (nodes w)) (traffic w).

Definition drop_node (w : WireGuard) (tag : string) : WireGuard :=
  mkWireGuard (cfg w) (delete tag (nodes w)) (delete tag (traffic w)).

(** Options of [AddNode]: the minimum traffic in KiB and the node's speed limit. *)
Record Options := mkOptions { ReportMinTraffic : Z; OptSpeedLimit : Z }.

(** [interface_name] is "wg" and the start of the tag's SHA-1. *)
Variable interfaceName : string → string.
Variable derive : string → option string.

(** The path is that of [filepath.Join] for a clean directory name. *)
Definition newState (c : WireGuardConfig) (tag : string) (i : NodeInfo) (o : option Options) : nodeState :=
  mkNodeState (interfaceName tag) i ∅
    (match o with Some o => mbpsToBytesPerSecond (OptSpeedLimit o) | None => 0 end) false true ""
    (RuntimeDir c +:+ "/" +:+ interfaceName tag +:+ ".conf")
    (match o with Some o => i64 (ReportMinTraffic o * 1024) | None => 0 end).

Definition AddNode (tag : string) (i : option NodeInfo) (o : option Options) (w : WireGuard) (h : log) : WireGuard * result unit * log :=
  match validateWireGuardNode derive i, i with
  | Err e, _ => (w, Err e, h)
  | Ok _, None => (w, Err "unreachable", h)
  | Ok _, Some i =>
    match nodes w !! tag with
    | Some _ => (w, Err ("wireguard node " +:+ tag +:+ " already exists"), h)
    | None =>
      match applyLocked (cfg w) (newState (cfg w) tag i o) h with
      | (s, None, h) => (set_node w tag s, Ok tt, h)
      | (s, Some e, h) =>
        let '(s, h) := cleanupPeerRateLimits (cfg w) s h in
        let h := (do (RemoveFile (cfgPath s)) h).2 in
        let h := (do (Exec (IPPath (cfg w)) ["link"; "delete"; iface s]) h).2 in
        (drop_node w tag, Err e, h)
      end
    end
  end.

Definition ErrNodeNotFound : string := "node not found".

Definition DelNode (tag : string) (w : WireGuard) (h : log) : WireGuard * result unit * log :=
  match nodes w !! tag with
  | None => (w, Err ErrNodeNotFound, h)
  | Some s =>
    let w := drop_node w tag in
    let '(s, h) := cleanupPeerRateLimits (cfg w) s h in
    let h := (do (RemoveFile (cfgPath s)) h).2 in
    match do (Exec (IPPath (cfg w)) ["link"; "delete"; iface s]) h with
    | (None, h) => (w, Ok tt, h)
    | (Some e, h) => (w, Err e, h)
    end
  end.

(** [Close]: every node is deleted; the errors are joined. *)
Definition Close (w : WireGuard) (h : log) : WireGuard * list string * log :=
  foldl (λ x tag, let '(w, errs, h) := x in
                  match DelNode tag w h with (w, Ok _, h) => (w, errs, h) | (w, Err e, h) => (w, errs ++ [e], h) end)
    (w, [], h) (map_to_list (nodes w)).*1.

(** Applies a state with changed users; when that fails the users are put back
    and applied again, whatever comes of it. *)
Definition commitUsers (tag : string) (s : nodeState) (us : gmap string UserInfo) (w : WireGuard) (h : log) : WireGuard * option string * log :=
  match applyLocked (cfg w) (set_users s us) h with
  | (s', None, h) => (set_node w tag s', None, h)
  | (s', Some e, h) =>
    let '(s', _, h) := applyLocked (cfg w) (set_users s' (users s)) h in
    (set_node w tag s', Some e, h)
  end.

(** The users stored before the first invalid one, and its error. *)
Fixpoint storeUsers (us : list UserInfo) (m : gmap string UserInfo) : gmap string UserInfo * option string :=
  match us with
  | [] => (m, None)
  | u :: us => match validateWireGuardUser u with
               | Err e => (m, Some e)
               | Ok _ => storeUsers us (<[Uuid u := u]> m)
               end
  end.

Definition nodeMissing : string := "the node is not have".

Definition wgAddUsers (tag : string) (us : list UserInfo) (w : WireGuard) (h : log) : WireGuard * result Z * log :=
  match nodes w !! tag with
  | None => (w, Err nodeMissing, h)
  | Some s =>
    match storeUsers us (users s) with
    | (m, Some e) => (set_node w tag (set_users s m), Err e, h)
    | (m, None) =>
      match commitUsers tag s m w h with
      | (w, None, h) => (w, Ok (Z.of_nat (List.length us)), h)
      | (w, Some e, h) => (w, Err e, h)
      end
    end
  end.

Definition wgDelUsers (us : list UserInfo) (tag : string) (w : WireGuard) (h : log) : WireGuard * result unit * log :=
  match nodes w !! tag with
  | None => (w, Err nodeMissing, h)
  | Some s =>
    match commitUsers tag s (without us (users s)) w h with
    | (w, None, h) => (w, Ok tt, h)
    | (w, Some e, h) => (w, Err e, h)
    end
  end.

Definition set_rate (u : UserInfo) (rate : Z) : UserInfo :=
  mkUser (Id u) (Uuid u) rate (UDeviceLimit u) (WireGuardPeerIP u) (WireGuardPublicKey u) (WireGuardPresharedKey u) (Extra u).

Definition UpdateUserRateLimit (tag uuid : string) (speedLimit : Z) (w : WireGuard) (h : log) : WireGuard * result unit * log :=
  match nodes w !! tag with
  | None => (w, Err nodeMissing, h)
  | Some s =>
    match users s !! uuid with
    | None => (w, Err ("wireguard user " +:+ uuid +:+ " is not have"), h)
    | Some u =>
      if USpeedLimit u =? speedLimit then (w, Ok tt, h)
      else match commitUsers tag s (<[uuid := set_rate u speedLimit]> (users s)) w h with
           | (w, None, h) => (w, Ok tt, h)
           | (w, Some e, h) => (w, Err e, h)
           end
    end
  end.

Definition RuntimeHealth (tag : string) (w : WireGuard) : bool * string :=
  match nodes w !! tag with
  | None => (false, "wireguard node is not running")
  | Some s => (runtimeHealthy s, runtimeError s)
  end.

End Host.

(** ** Traffic *)

(** The output of "wg show transfer": key, received and sent bytes. *)
Fixpoint parseTransferLines (lines : list string) (m : gmap string trafficPair) : gmap string trafficPair :=
  match lines with
  | [] => m
  | l :: lines =>
    parseTransferLines lines
      (match Fields l with
       | [key; rx; tx] => match Atoi rx, Atoi tx with
                          | Some rx, Some tx => <[key := mkPair rx tx]> m
                          | _, _ => m
                          end
       | _ => m
       end)
  end.

Definition parseTransferOutput (out : string) : gmap string trafficPair := parseTransferLines (split (trim_space out) "010") ∅.

Definition publicKeyToUID (us : gmap string UserInfo) : gmap string Z :=
  list_to_map ((λ u, (WireGuardPublicKey u, Id u)) <$> (map_to_list us).*2).

Definition uidToPublicKey (us : gmap string UserInfo) : gmap Z string :=
  list_to_map ((λ u, (Id u, WireGuardPublicKey u)) <$> (map_to_list us).*2).

Definition zeroPair : trafficPair := mkPair 0 0.

(** One key of the sample: the new cursors and what is reported. *)
Definition sampleKey (uids : gmap string Z) (reset : bool) (minimum : Z) (key : string) (now : trafficPair)
    (x : gmap string trafficPair * list UserTraffic) : gmap string trafficPair * list UserTraffic :=
  let '(previous, out) := x in
  let uid := default 0 (uids !! key) in
  if uid =? 0 then x
  else
    let last := default zeroPair (previous !! key) in
    let report := if reset then mkPair (i64 (upload now - upload last)) (i64 (download now - download last)) else now in
    let previous := if reset then <[key := now]> previous else previous in
    let report := if (upload report <? 0) || (download report <? 0) then now else report in
    if i64 (upload report + download report) <=? minimum then (previous, out)
    else (previous, out ++ [mkTraffic uid (upload report) (download report)]).

Definition sample (uids : gmap string Z) (reset : bool) (minimum : Z) (current : gmap string trafficPair)
    (previous : gmap string trafficPair) : gmap string trafficPair * list UserTraffic :=
  foldl (λ x kv, sampleKey uids reset minimum kv.1 kv.2 x) (previous, []) (map_to_list current).

(** [output] is what "wg show transfer" prints, or its error. *)
Definition GetUserTrafficSlice (output : result string) (tag : string) (reset : bool) (w : WireGuard) : WireGuard * result (list UserTraffic) :=
  match nodes w !! tag with
  | None => (w, Err nodeMissing)
  | Some s =>
    match output with
    | Err e => (w, Err e)
    | Ok out =>
      let '(previous, report) := sample (publicKeyToUID (users s)) reset (reportMinTrafficBytes s) (parseTransferOutput out)
                                   (default ∅ (traffic w !! tag)) in
      (mkWireGuard (cfg w) (nodes w) (<[tag := previous]> (traffic w)), Ok report)
    end
  end.

(** One report given back: the cursor moves back, not below zero. *)
Definition rollbackKey (keys : gmap Z string) (previous : gmap string trafficPair) (t : UserTraffic) : gmap string trafficPair :=
  match keys !! tUID t with
  | None => previous
  | Some key =>
    let cursor := default zeroPair (previous !! key) in
    let up := i64 (upload cursor - tUpload t) in
    let down := i64 (download cursor - tDownload t) in
    <[key := mkPair (if up <? 0 then 0 else up) (if down <? 0 then 0 else down)]> previous
  end.

(** A call either returns or panics. *)
Inductive outcome := Returns (w : WireGuard) (r : result unit) | Panics.

Definition RollbackUserTrafficSlice (tag : string) (reports : list UserTraffic) (w : WireGuard) : outcome :=
  match nodes w !! tag with
  | None => Returns w (Err nodeMissing)
  | Some s =>
    let keys := uidToPublicKey (users s) in
    match traffic w !! tag with
    | Some previous => Returns (mkWireGuard (cfg w) (nodes w) (<[tag := foldl (rollbackKey keys) previous reports]> (traffic w))) (Ok tt)
    | None => if existsb (λ t, bool_decide (is_Some (keys !! tUID t))) reports then Panics (* assignment to a nil map *)
              else Returns w (Ok tt)
    end
  end.

(** ** Online devices *)

(** [strings.Trim] with the characters of [cut]. *)
Fixpoint trim_left_chars (cut s : string) : string :=
  match s with String c r => if contains_char cut c then trim_left_chars cut r else s | EmptyString => s end.

Fixpoint trim_right_chars (cut s : string) : string :=
  match s with
  | EmptyString => EmptyString
  | String c r => match trim_right_chars cut r with
                  | EmptyString => if contains_char cut c then EmptyString else String c EmptyString
                  | r => String c r
                  end
  end.

Definition trim_chars (cut s : string) : string := trim_right_chars cut (trim_left_chars cut s).

Fixpoint count_char (s : string) (c : ascii) : nat :=
  match s with EmptyString => O | String d s => if Ascii.eqb c d then S (count_char s c) else count_char s c end.

Definition endpointIP (endpoint : string) : string :=
  let endpoint := trim_space endpoint in
  if String.eqb endpoint "" || String.eqb endpoint "(none)" then ""
  else match SplitHostPort endpoint with
       | Some (host, _) => trim_chars "[]" host
       | None =>
         let rest := if Nat.eqb (count_char endpoint ":") 1
                     then match cut endpoint ":" with Some (host, _) => host | None => endpoint end
                     else trim_chars "[]" endpoint in
         if has_prefix endpoint "[" then
           match index endpoint "]" with
           | Some e => if Nat.ltb 1 e then slice endpoint 1 e else rest
           | None => rest
           end
         else rest
       end.

Record OnlineUser := mkOnline { oUID : Z; oIP : string }.

Definition onlineLine (uids : gmap string Z) (now timeoutSeconds : Z) (l : string) : option OnlineUser :=
  match Fields l with
  | key :: _ :: endpoint :: _ :: handshake :: _ :: _ :: _ :: _ =>
    let uid := default 0 (uids !! key) in
    if uid =? 0 then None
    else
      let ip := endpointIP endpoint in
      if String.eqb ip "" then None
      else match Atoi handshake with
           | None => None
           | Some t => if t <=? 0 then None
                       else if (t <=? now) && (timeoutSeconds <? now - t) then None
                       else Some (mkOnline uid ip)
           end
  | _ => None
  end.

Definition parseDumpOnline (out : string) (uids : gmap string Z) (now timeoutSeconds : Z) : list OnlineUser :=
  if timeoutSeconds <=? 0 then [] else omap (onlineLine uids now timeoutSeconds) (split (trim_space out) "010").

Definition GetOnlineDevice (output : result string) (now : Z) (tag : string) (w : WireGuard) : result (list OnlineUser) :=
  match nodes w !! tag with
  | None => Err nodeMissing
  | Some s =>
    match output with
    | Err e => Err e
    | Ok out => Ok (parseDumpOnline out (publicKeyToUID (users s)) now (OnlineHandshakeTimeoutSeconds (cfg w)))
    end
  end.

End WireGuard.
