(* ===== verification/WireGuardTraffic.v ===== *)
(** * WireGuard traffic: what the users are billed

    The traffic cursors of WireGuard.v over the report windows of
    node/user.go: a window samples the peers' counters, and when it cannot be
    spooled it is given back.  Nothing a peer transferred is billed twice, and
    what is never billed is bounded by the reporting threshold. *)

From S2P Require Import Prelude GoStrings GoNet Limiter NodeUsers WireGuard.
From Stdlib Require Import Ascii String.

Module WireGuardTraffic.
Import GoNet Limiter NodeUsers WireGuard.

(** A window of [reportUserTrafficTask] on a WireGuard node: the sample, and
    its roll back when it was not submitted; [billed] are the reports that
    were. *)
Definition window (tag : string) (x : WireGuard * list UserTraffic) (w : string * bool) : WireGuard * list UserTraffic :=
  let '(wg, billed) := x in
  match GetUserTrafficSlice (Ok w.1) tag true wg with
  | (wg, Err _) => (wg, billed)
  | (wg, Ok report) =>
    if w.2 then (wg, billed ++ report)
    else match RollbackUserTrafficSlice tag report wg with
         | Returns wg _ => (wg, billed)
         | Panics => (wg, billed)
         end
  end.

(** ** The maps between keys and user ids *)

(** Users with their own ids and keys, as Control assigns them. *)
Record distinct (us : gmap string UserInfo) : Prop := {
  distinct_ids : NoDup (Id <$> (map_to_list us).*2);
  distinct_keys : NoDup (WireGuardPublicKey <$> (map_to_list us).*2)
}.

Lemma uid_of_key us u : distinct us → u ∈ (map_to_list us).*2 → publicKeyToUID us !! WireGuardPublicKey u = Some (Id u).
Proof.
  intros [_ Hk] Hin. unfold publicKeyToUID. apply elem_of_list_to_map_1.
  - by rewrite <- list_fmap_compose.
  - apply list_elem_of_fmap. by exists u.
Qed.

Lemma key_of_uid us u : distinct us → u ∈ (map_to_list us).*2 → uidToPublicKey us !! Id u = Some (WireGuardPublicKey u).
Proof.
  intros [Hi _] Hin. unfold uidToPublicKey. apply elem_of_list_to_map_1.
  - by rewrite <- list_fmap_compose.
  - apply list_elem_of_fmap. by exists u.
Qed.

Lemma same_uid_same_key us u key : distinct us → u ∈ (map_to_list us).*2 →
  publicKeyToUID us !! key = Some (Id u) → key = WireGuardPublicKey u.
Proof.
  intros Hd Hin Hk. unfold publicKeyToUID in Hk. apply elem_of_list_to_map_2 in Hk.
  apply list_elem_of_fmap in Hk as (u' & [= -> Hid] & Hin').
  pose proof (key_of_uid us u Hd Hin) as H1. pose proof (key_of_uid us u' Hd Hin') as H2. rewrite Hid in H1. congruence.
Qed.

Lemma same_key_same_uid us u id : distinct us → u ∈ (map_to_list us).*2 →
  uidToPublicKey us !! id = Some (WireGuardPublicKey u) → id = Id u.
Proof.
  intros Hd Hin Hk. unfold uidToPublicKey in Hk. apply elem_of_list_to_map_2 in Hk.
  apply list_elem_of_fmap in Hk as (u' & [= -> Hkey] & Hin').
  pose proof (uid_of_key us u Hd Hin) as H1. pose proof (uid_of_key us u' Hd Hin') as H2. rewrite <- Hkey in H2. congruence.
Qed.

(** ** One peer's part of a sample *)

(** What a sample reports of a peer with cursor [last] and counters [now]. *)
Definition peerReport (minimum : Z) (uid : Z) (last now : trafficPair) : list UserTraffic :=
  let report := mkPair (i64 (upload now - upload last)) (i64 (download now - download last)) in
  let report := if (upload report <? 0) || (download report <? 0) then now else report in
  if i64 (upload report + download report) <=? minimum then [] else [mkTraffic uid (upload report) (download report)].

Definition reportsOf (uid : Z) (l : list UserTraffic) : list UserTraffic := filter (λ t, tUID t = uid) l.

Section Sample.
Context (uids : gmap string Z) (minimum : Z) (key : string) (uid : Z).
Context (Huid : uids !! key = Some uid) (Hnz : uid ≠ 0).
Context (Honly : ∀ key', uids !! key' = Some uid → key' = key).

Lemma sampleKey_other key' now previous out : key' ≠ key →
  (sampleKey uids true minimum key' now (previous, out)).1 !! key = previous !! key
  ∧ reportsOf uid (sampleKey uids true minimum key' now (previous, out)).2 = reportsOf uid out.
Proof.
  intros Hne. unfold sampleKey. destruct (default 0 (uids !! key') =? 0) eqn:E0; [done|].
  assert (default 0 (uids !! key') ≠ uid) as Hu.
  { intros Heq. destruct (uids !! key') as [u'|] eqn:Ek; cbn in Heq; [|congruence]. subst. by apply Hne, Honly. }
  repeat case_match; cbn [fst snd]; rewrite ?lookup_insert_ne by done; (split; [done|]); try done.
  all: unfold reportsOf; rewrite filter_app, filter_cons_False by done; by rewrite filter_nil, app_nil_r.
Qed.

Lemma sampleKey_own now previous out :
  (sampleKey uids true minimum key now (previous, out)).1 !! key = Some now
  ∧ reportsOf uid (sampleKey uids true minimum key now (previous, out)).2
    = reportsOf uid out ++ peerReport minimum uid (default zeroPair (previous !! key)) now.
Proof.
  unfold sampleKey, peerReport. rewrite Huid. change (default 0 (Some uid)) with uid.
  rewrite (proj2 (Z.eqb_neq uid 0)) by done.
  set (report := if (_ <? 0) || (_ <? 0) then now else _). destruct (i64 _ <=? minimum); cbn [fst snd].
  - by rewrite lookup_insert_eq, app_nil_r.
  - rewrite lookup_insert_eq. split; [done|]. unfold reportsOf. rewrite filter_app, filter_cons_True by done. by rewrite filter_nil.
Qed.

Lemma sample_fold l : ∀ previous out, NoDup l.*1 →
  let x := foldl (λ x kv, sampleKey uids true minimum kv.1 kv.2 x) (previous, out) l in
  match list_to_map (M := gmap string trafficPair) l !! key with
  | Some now => x.1 !! key = Some now
      ∧ reportsOf uid x.2 = reportsOf uid out ++ peerReport minimum uid (default zeroPair (previous !! key)) now
  | None => x.1 !! key = previous !! key ∧ reportsOf uid x.2 = reportsOf uid out
  end.
Proof.
  induction l as [|[k v] l IH]; intros previous out Hnd x.
  { rewrite list_to_map_nil, lookup_empty. done. }
  apply NoDup_cons in Hnd as [Hk Hnd]. subst x. cbn [foldl fst snd]. rewrite list_to_map_cons.
  destruct (sampleKey uids true minimum k v (previous, out)) as [previous' out'] eqn:Es.
  specialize (IH previous' out' Hnd). cbn in IH. destruct (decide (k = key)) as [->|Hne].
  - rewrite lookup_insert_eq. destruct (sampleKey_own v previous out) as [H1 H2]. rewrite Es in H1, H2. cbn [fst snd] in H1, H2.
    rewrite not_elem_of_list_to_map_1 in IH by done. destruct IH as [-> ->]. done.
  - rewrite lookup_insert_ne by done. destruct (sampleKey_other k v previous out Hne) as [H1 H2]. rewrite Es in H1, H2. cbn [fst snd] in H1, H2.
    rewrite H1, H2 in IH. exact IH.
Qed.

Lemma sample_peer current previous now : current !! key = Some now →
  (sample uids true minimum current previous).1 !! key = Some now
  ∧ reportsOf uid (sample uids true minimum current previous).2 = peerReport minimum uid (default zeroPair (previous !! key)) now.
Proof.
  intros Hc. pose proof (sample_fold (map_to_list current) previous [] (NoDup_fst_map_to_list current)) as Hs.
  rewrite list_to_map_to_list, Hc in Hs. exact Hs.
Qed.

End Sample.

(** ** One peer's part of a roll back *)

Lemma rollback_peer (keys : gmap Z string) key uid reports :
  keys !! uid = Some key → (∀ uid', keys !! uid' = Some key → uid' = uid) →
  ∀ previous, foldl (rollbackKey keys) previous reports !! key = foldl (rollbackKey keys) previous (reportsOf uid reports) !! key.
Proof.
  intros Hk Honly. unfold reportsOf.
  assert (∀ l p p', p !! key = p' !! key → Forall (λ t, tUID t = uid) l →
    foldl (rollbackKey keys) p l !! key = foldl (rollbackKey keys) p' l !! key) as Hcong.
  { intros l. induction l as [|t l IH]; intros p p' Hp Hl; [done|]. apply Forall_cons in Hl as [Ht Hl]. cbn [foldl].
    apply IH; [|done]. unfold rollbackKey. rewrite Ht, Hk, Hp, !lookup_insert_eq. done. }
  induction reports as [|t l IH]; intros previous; [done|]. cbn [foldl]. rewrite IH, filter_cons.
  destruct (decide (tUID t = uid)) as [Ht|Ht]; [done|]. apply Hcong; [|apply Forall_forall; by intros x [? _]%list_elem_of_filter].
  unfold rollbackKey. destruct (keys !! tUID t) as [key'|] eqn:E; [|done]. rewrite lookup_insert_ne; [done|].
  intros ->. by apply Ht, Honly.
Qed.

(** ** A window *)

Definition cursor (w : WireGuard) (tag key : string) : trafficPair := default zeroPair (default ∅ (traffic w !! tag) !! key).

Definition total (l : list UserTraffic) : Z * Z := (sum_Z tUpload l, sum_Z tDownload l).

(** Counters of a peer that has not been replaced: they only grow. *)
Definition grown (last now : trafficPair) : Prop :=
  0 ≤ upload last ≤ upload now ∧ 0 ≤ download last ≤ download now ∧ upload now < 2 ^ 62 ∧ download now < 2 ^ 62.

Lemma peerReport_grown minimum uid last now : grown last now →
  peerReport minimum uid last now =
    let up := upload now - upload last in let down := download now - download last in
    if up + down <=? minimum then [] else [mkTraffic uid up down].
Proof.
  intros (Hu & Hd & Hun & Hdn). unfold peerReport. cbn [upload download].
  rewrite !(i64_small (_ - _)) by lia. rewrite (proj2 (Z.ltb_ge _ _)), (proj2 (Z.ltb_ge _ _)) by lia. cbn [orb upload download].
  by rewrite i64_small by lia.
Qed.

Section Windows.
Context (tag : string) (s : nodeState) (u : UserInfo).
Context (Hd : distinct (users s)) (Hu : u ∈ (map_to_list (users s)).*2) (Hid : Id u ≠ 0).

Lemma window_peer wg billed out submitted now :
  nodes wg !! tag = Some s → parseTransferOutput out !! WireGuardPublicKey u = Some now →
  grown (cursor wg tag (WireGuardPublicKey u)) now →
  let last := cursor wg tag (WireGuardPublicKey u) in
  let up := upload now - upload last in let down := download now - download last in
  let x := window tag (wg, billed) (out, submitted) in
  nodes x.1 !! tag = Some s
  ∧ (up + down ≤ reportMinTrafficBytes s →
      cursor x.1 tag (WireGuardPublicKey u) = now ∧ reportsOf (Id u) x.2 = reportsOf (Id u) billed)
  ∧ (reportMinTrafficBytes s < up + down → submitted = true →
      cursor x.1 tag (WireGuardPublicKey u) = now ∧ reportsOf (Id u) x.2 = reportsOf (Id u) billed ++ [mkTraffic (Id u) up down])
  ∧ (reportMinTrafficBytes s < up + down → submitted = false →
      cursor x.1 tag (WireGuardPublicKey u) = last ∧ x.2 = billed).
Proof.
  intros Hn Hnow Hg. cbv zeta. unfold window, GetUserTrafficSlice. cbn [fst snd]. rewrite Hn.
  destruct (sample_peer (publicKeyToUID (users s)) (reportMinTrafficBytes s) (WireGuardPublicKey u) (Id u)
    (uid_of_key _ _ Hd Hu) Hid (λ k, same_uid_same_key _ _ k Hd Hu) (parseTransferOutput out) (default ∅ (traffic wg !! tag)) now Hnow) as [Hcur Hrep].
  destruct (sample (publicKeyToUID (users s)) true _ _ _) as [previous report]. cbn [fst snd] in Hcur, Hrep.
  fold (cursor wg tag (WireGuardPublicKey u)) in Hrep. rewrite (peerReport_grown _ _ _ _ Hg) in Hrep. cbv zeta in Hrep.
  assert (∀ n, cursor (mkWireGuard (cfg wg) (nodes wg) (<[tag := n]> (traffic wg))) tag (WireGuardPublicKey u)
    = default zeroPair (n !! WireGuardPublicKey u)) as Hc by (intros n; unfold cursor; cbn; by rewrite lookup_insert_eq).
  destruct submitted; cbn [fst snd].
  - rewrite Hc, Hcur. unfold reportsOf in *. rewrite filter_app, Hrep. split; [done|].
    match goal with |- context [?a <=? _] => destruct (Z.leb_spec a (reportMinTrafficBytes s)) end; split; [|split| |split]; intros; try lia; try done.
    split; [done|]. by rewrite app_nil_r.
  - unfold RollbackUserTrafficSlice. cbn [nodes traffic cfg]. rewrite Hn, lookup_insert_eq. cbn [fst snd nodes].
    rewrite insert_insert_eq, Hc, (rollback_peer _ _ (Id u)) by (apply (key_of_uid _ _ Hd Hu) || (intros; by apply (same_key_same_uid _ _ _ Hd Hu))).
    rewrite Hrep. split; [done|].
    match goal with |- context [?a <=? _] => destruct (Z.leb_spec a (reportMinTrafficBytes s)) end; split; [|split| |split]; intros; try lia; try done.
    + cbn [foldl]. by rewrite Hcur.
    + cbn [foldl]. unfold rollbackKey. cbn [tUID tUpload tDownload]. rewrite (key_of_uid _ _ Hd Hu), lookup_insert_eq, Hcur. split; [|done].
      cbn. destruct Hg as (Hgu & Hgd & Hgu2 & Hgd2). rewrite !i64_small by lia.
      destruct (cursor wg tag (WireGuardPublicKey u)) as [lu ld]. cbn [upload download] in *.
      rewrite (proj2 (Z.ltb_ge (upload now - _) _)), (proj2 (Z.ltb_ge (download now - _) _)) by lia. f_equal; lia.
Qed.

(** The counters of the peer in the windows, each at least the one before. *)
Fixpoint growing (last : trafficPair) (cs : list trafficPair) : Prop :=
  match cs with [] => True | c :: cs => grown last c ∧ growing c cs end.

(** What was billed stays below the cursor, and the difference is the traffic
    of windows below the threshold. *)
Definition ledger (n : Z) (x : WireGuard * list UserTraffic) : Prop :=
  let c := cursor x.1 tag (WireGuardPublicKey u) in
  let '(bu, bd) := total (reportsOf (Id u) x.2) in
  0 ≤ bu ≤ upload c ∧ 0 ≤ bd ≤ download c ∧ upload c + download c - (bu + bd) ≤ reportMinTrafficBytes s * n.

Lemma total_snoc l t : total (l ++ [t]) = ((total l).1 + tUpload t, (total l).2 + tDownload t).
Proof. unfold total. rewrite !sum_Z_app. cbn. f_equal; lia. Qed.

Lemma grown_below c last now : 0 ≤ upload c ≤ upload last → 0 ≤ download c ≤ download last → grown last now → grown c now.
Proof. intros Hu1 Hd1 (? & ? & ? & ?). split_and!; lia. Qed.

Lemma window_ledger n x last w now :
  0 ≤ reportMinTrafficBytes s → nodes x.1 !! tag = Some s →
  parseTransferOutput w.1 !! WireGuardPublicKey u = Some now → grown last now →
  upload (cursor x.1 tag (WireGuardPublicKey u)) ≤ upload last → download (cursor x.1 tag (WireGuardPublicKey u)) ≤ download last →
  ledger n x →
  let x' := window tag x w in
  nodes x'.1 !! tag = Some s ∧ ledger (n + 1) x'
  ∧ upload (cursor x'.1 tag (WireGuardPublicKey u)) ≤ upload now ∧ download (cursor x'.1 tag (WireGuardPublicKey u)) ≤ download now
  ∧ (w.2 = true → cursor x'.1 tag (WireGuardPublicKey u) = now).
Proof.
  destruct x as [wg billed], w as [out submitted]. cbn [fst snd]. intros Hmin Hn Hnow Hg Hlu Hld Hl.
  unfold ledger in *. cbn [fst snd] in *. destruct (total (reportsOf (Id u) billed)) as [bu bd] eqn:Et.
  destruct Hl as (Hbu & Hbd & Hlost).
  assert (grown (cursor wg tag (WireGuardPublicKey u)) now) as Hg' by (apply (grown_below _ last); [lia|lia|done]).
  destruct (window_peer wg billed out submitted now Hn Hnow Hg') as (Hn' & Hsmall & Hok & Hback).
  pose proof Hg' as (Hgu & Hgd & _).
  destruct (window tag (wg, billed) (out, submitted)) as [wg' billed']. cbn [fst snd] in *.
  split; [done|]. match type of Hsmall with ?a ≤ _ → _ => destruct (Z.le_gt_cases a (reportMinTrafficBytes s)) as [Hle|Hgt] end.
  - destruct (Hsmall Hle) as [-> ->]. rewrite Et. split_and!; try done; lia.
  - destruct submitted.
    + destruct (Hok ltac:(lia) eq_refl) as [-> ->]. rewrite total_snoc, Et. cbn [fst snd tUpload tDownload]. split_and!; try done; lia.
    + destruct (Hback ltac:(lia) eq_refl) as [-> ->]. rewrite Et. split_and!; try done; lia.
Qed.

Lemma windows_ledger ws : ∀ cs n x last,
  0 ≤ reportMinTrafficBytes s → nodes x.1 !! tag = Some s →
  Forall2 (λ w c, parseTransferOutput w.1 !! WireGuardPublicKey u = Some c) ws cs → growing last cs →
  upload (cursor x.1 tag (WireGuardPublicKey u)) ≤ upload last → download (cursor x.1 tag (WireGuardPublicKey u)) ≤ download last →
  ledger n x →
  ledger (n + Z.of_nat (List.length ws)) (foldl (window tag) x ws)
  ∧ ∀ w c, list.last ws = Some w → list.last cs = Some c → w.2 = true →
      cursor (foldl (window tag) x ws).1 tag (WireGuardPublicKey u) = c.
Proof.
  induction ws as [|w ws IH]; intros cs n x last Hmin Hn Hf Hg Hlu Hld Hl.
  { split; [|done]. cbn. by rewrite Z.add_0_r. }
  apply Forall2_cons_inv_l in Hf as (c & cs' & Hc & Hf & ->). destruct Hg as [Hg1 Hg2].
  destruct (window_ledger n x last w c Hmin Hn Hc Hg1 Hlu Hld Hl) as (Hn' & Hl' & Hu' & Hd' & Hsub).
  destruct (IH cs' (n + 1) (window tag x w) c Hmin Hn' Hf Hg2 Hu' Hd' Hl') as [Hend Hlast]. cbn [foldl List.length].
  split; [by replace (n + Z.of_nat (S (List.length ws))) with (n + 1 + Z.of_nat (List.length ws)) by lia|].
  intros w' c' Hw' Hc' Hs. destruct ws as [|w2 ws].
  - apply Forall2_nil_inv_l in Hf as ->. cbn in Hw', Hc'. injection Hw' as <-. injection Hc' as <-. cbn [foldl]. by apply Hsub.
  - apply Forall2_cons_inv_l in Hf as (c2 & cs2 & _ & _ & ->). by eapply Hlast.
Qed.

End Windows.


(** ** Witnesses *)

Module Witness.

Definition tab : string := String "009" "".
Definition nl : string := String "010" "".
Definition alice : UserInfo := mkUser 1 "alice" 0 0 "10.66.0.3" "KA" "" ∅.
Definition bob : UserInfo := mkUser 2 "bob" 0 0 "10.66.0.2" "KB" "" ∅.
Definition state (minimum : Z) : nodeState :=
  mkNodeState "wg1" (mkInfo None None) {[ "alice" := alice; "bob" := bob ]} 0 false true "" "/run/wg1.conf" minimum.
Definition start (minimum : Z) : WireGuard := mkWireGuard (mkWGConfig "/run" "wg" "ip" "tc" 180) {[ "n1" := state minimum ]} ∅.
Definition counters (a b : string) : string := "KA" +:+ tab +:+ a +:+ tab +:+ "7" +:+ nl +:+ "KB" +:+ tab +:+ b +:+ tab +:+ "0".

(** Three windows, the second of them given back. *)
Definition windows : list (string * bool) := [(counters "100" "1", true); (counters "250" "1", false); (counters "400" "5", true)].

Lemma distinct_users minimum : distinct (users (state minimum)).
Proof. split; apply (bool_decide_unpack _); vm_compute; exact I. Qed.


(** Traffic at or below the threshold moves the cursor but is never reported:
    with a threshold of 1024 bytes a user who stays below it in every window
    is never billed. *)
Example small_windows_are_lost :
  let '(wg', billed) := foldl (window "n1") (start 1024, []) [(counters "900" "0", true); (counters "1800" "0", true); (counters "2700" "0", true)] in
  billed = [] ∧ cursor wg' "n1" "KA" = mkPair 2700 7.
Proof. vm_compute. done. Qed.

(** Giving a report back to a node that has not been sampled since it was added
    writes into a map that was never made. *)
Example rollback_without_sample_panics : RollbackUserTrafficSlice "n1" [mkTraffic 1 10 10] (start 0) = Panics.
Proof. vm_compute. done. Qed.

(** A key with surrounding space is accepted, and its peer is found under the
    key without it: its traffic is nobody's. *)
Example spaced_key_is_not_billed :
  let u := mkUser 1 "alice" 0 0 "10.66.0.3" " AAAAAAAAAAAAAAAAAAAAAAAAAAAAAAAAAAAAAAAAAAA=" "" ∅ in
  validateWireGuardUser u = Ok tt ∧
  (GetUserTrafficSlice (Ok ("AAAAAAAAAAAAAAAAAAAAAAAAAAAAAAAAAAAAAAAAAAA=" +:+ tab +:+ "500" +:+ tab +:+ "500")) "n1" true
    (mkWireGuard (cfg (start 0)) {[ "n1" := set_users (state 0) {[ "alice" := u ]} ]} ∅)).2 = Ok [].
Proof. vm_compute. done. Qed.

End Witness.

End WireGuardTraffic.
