(* ===== verification/WireGuardNodes.v ===== *)
(** * WireGuard nodes: what is applied

    Operations on the users of a WireGuard node take effect as a whole or not
    at all, and after a success the interface runs the configuration of exactly
    the users the node holds; the configuration file says what it should. *)

From S2P Require Import Prelude GoStrings GoNet Limiter NodeUsers WireGuard.
From Stdlib Require Import Ascii String Zbitwise.

Module WireGuardNodes.
Import GoNet Limiter NodeUsers WireGuard.

(** ** What the log says of a file and an interface *)

Fixpoint file_of (path : string) (h : log) : option string :=
  match h with
  | [] => None
  | (WriteFile p content, true) :: h => if String.eqb p path then Some content else file_of path h
  | (RemoveFile p, true) :: h => if String.eqb p path then None else file_of path h
  | _ :: h => file_of path h
  end.

(** The configuration the interface was last given with "wg setconf". *)
Fixpoint running (wg dev path : string) (h : log) : option string :=
  match h with
  | [] => None
  | (Exec program args, true) :: h =>
    if String.eqb program wg && bool_decide (args = ["setconf"; dev; path]) then file_of path h else running wg dev path h
  | _ :: h => running wg dev path h
  end.

Definition not_setconf (e : Effect) : Prop :=
  match e with Exec _ (a :: _) => a ≠ "setconf" | _ => True end.

Lemma running_ext wg dev path ext h : Forall (λ x, not_setconf x.1) ext → running wg dev path (ext ++ h) = running wg dev path h.
Proof.
  induction 1 as [|[e ok] ext He _ IH]; [done|]. cbn [app running]. destruct e as [| | |p args]; [by destruct ok..|].
  destruct ok; [|done]. rewrite bool_decide_false; [by rewrite andb_false_r|]. intros ->. by apply He.
Qed.

Section Host.
Variable fails : log → Effect → option string.

Lemma do_spec e h err h' : do fails e h = (err, h') → ∃ ok, h' = (e, ok) :: h ∧ (err = None → ok = true).
Proof. intros [= <- <-]. eexists. split; [done|]. intros ->. by apply bool_decide_true. Qed.

(** The effects done, newest first: all of them on success. *)
Lemma doAll_spec es : ∀ h err h', doAll fails es h = (err, h') →
  ∃ ext, h' = ext ++ h ∧ (∀ P : Effect → Prop, Forall P es → Forall (λ x, P x.1) ext)
    ∧ (err = None → ext = reverse ((λ e, (e, true)) <$> es)).
Proof.
  induction es as [|e es IH]; intros h err h'; cbn [doAll].
  { intros [= <- <-]. exists []. by split_and!. }
  destruct (do fails e h) as [err1 h1] eqn:Ed. apply do_spec in Ed as (ok & -> & Hok). destruct err1 as [e1|].
  - intros [= <- <-]. exists [(e, ok)]. split_and!; [done| |done]. intros P HP. constructor; [|done]. by inversion HP.
  - rewrite (Hok eq_refl). intros (ext & -> & HP & Hx)%IH. exists (ext ++ [(e, true)]).
    split_and!; [by rewrite <- (assoc_L (++))| |].
    + intros P [He Hes]%Forall_cons. apply Forall_app. split; [by apply HP|by repeat constructor].
    + intros ->. rewrite fmap_cons, reverse_cons. by rewrite Hx.
Qed.

(** ** Applying a state *)

(** The parts of a state that name its interface and its configuration. *)
Definition same_node (s s' : nodeState) : Prop :=
  iface s' = iface s ∧ info s' = info s ∧ users s' = users s ∧ cfgPath s' = cfgPath s ∧ reportMinTrafficBytes s' = reportMinTrafficBytes s
  ∧ nodeSpeedLimit s' = nodeSpeedLimit s.

Lemma same_node_render s s' : same_node s s' → renderConfig s' = renderConfig s.
Proof. intros (_ & Hi & Hu & _). unfold renderConfig, serverOf. by rewrite Hi, Hu. Qed.

Lemma cleanup_spec c s h s' h' : cleanupPeerRateLimits fails c s h = (s', h') →
  same_node s s' ∧ ∃ ext, h' = ext ++ h ∧ Forall (λ x, not_setconf x.1) ext.
Proof.
  unfold cleanupPeerRateLimits. destruct (tcConfigured s); cbn [negb]; [|intros [= <- <-]; split; [done|by exists []]].
  intros [= <- <-]. split; [done|]. eexists [_; _]. split; [done|]. by repeat constructor.
Qed.

Lemma peerRules_not_setconf path dev i l : Forall not_setconf (peerRules path dev i l).
Proof. destruct l as [a r]. by repeat constructor. Qed.

Lemma imap_rules_not_setconf path dev ls k :
  Forall not_setconf (mjoin (imap (λ i, peerRules path dev (k + i)) ls)).
Proof.
  revert k. induction ls as [|l ls IH]; intros k; [constructor|]. rewrite imap_cons. cbn [mjoin list_join].
  apply Forall_app. split; [apply peerRules_not_setconf|].
  erewrite (imap_ext _ (λ i, peerRules path dev (S k + i))); [apply IH|]. intros i x _. cbn. f_equal. lia.
Qed.

Lemma rates_spec c s h s' err h' : applyPeerRateLimits fails c s h = (s', err, h') →
  same_node s s' ∧ ∃ ext, h' = ext ++ h ∧ Forall (λ x, not_setconf x.1) ext.
Proof.
  unfold applyPeerRateLimits. destruct (peerLimits _ _) as [[|l ls]|e].
  - destruct (tcConfigured s).
    + destruct (cleanupPeerRateLimits fails c s h) as [s1 h1] eqn:Ec. intros [= <- _ <-]. by eapply cleanup_spec.
    + intros [= <- _ <-]. split; [done|by exists []].
  - destruct (_ <=? 0); [intros [= <- _ <-]; split; [done|by exists []]|].
    destruct (doAll fails _ h) as [err1 h1] eqn:Ed. intros [= <- _ <-]. split; [done|].
    apply doAll_spec in Ed as (ext & -> & HP & _). exists ext. split; [done|]. apply (HP not_setconf).
    apply Forall_app. split; [by repeat constructor|]. apply (imap_rules_not_setconf _ _ (l :: ls) 0).
  - intros [= <- _ <-]. split; [done|by exists []].
Qed.

Lemma setconf_running wg dev path h : running wg dev path ((Exec wg ["setconf"; dev; path], true) :: h) = file_of path h.
Proof. cbn [running]. by rewrite String.eqb_refl, bool_decide_true. Qed.

Definition is_command (e : Effect) : Prop := match e with Exec _ _ => True | _ => False end.

Lemma file_of_commands path ext h : Forall (λ x, is_command x.1) ext → file_of path (ext ++ h) = file_of path h.
Proof. induction 1 as [|[e ok] ext He _ IH]; [done|]. destruct e; [by destruct He..|]. cbn [app file_of]. by destruct ok. Qed.

Lemma ensureLink_spec c s h err h' : ensureLink fails c s h = (err, h') →
  ∃ ext, h' = ext ++ h ∧ Forall (λ x, is_command x.1) ext.
Proof.
  unfold ensureLink. destruct (do fails _ h) as [e1 h1] eqn:E1. apply do_spec in E1 as (ok & -> & _).
  destruct e1; [|intros [= <- <-]; eexists [_]; split; [done|by repeat constructor]].
  intros (ok2 & -> & _)%do_spec. eexists [_; _]. split; [done|by repeat constructor].
Qed.

Lemma applyLocked_spec c s h s' err h' : applyLocked fails c s h = (s', err, h') →
  same_node s s' ∧ (err = None → running (WGPath c) (iface s) (cfgPath s) h' = Some (renderConfig s)).
Proof.
  unfold applyLocked. destruct (doAll fails [MkdirAll _; _] h) as [e1 h1] eqn:E1.
  apply doAll_spec in E1 as (x1 & -> & _ & H1). destruct e1; [by intros [= <- <- <-]|]. rewrite (H1 eq_refl). clear H1.
  destruct (ensureLink fails c s _) as [e2 h2] eqn:E2. apply ensureLink_spec in E2 as (x & -> & HF).
  cbn [reverse fmap list_fmap rev_append app].
  assert (file_of (cfgPath s) (x ++ (WriteFile (cfgPath s) (renderConfig s), true) :: (MkdirAll (RuntimeDir c), true) :: h) = Some (renderConfig s)) as Hfile.
  { rewrite file_of_commands by done. cbn. by rewrite String.eqb_refl. }
  destruct e2; [by intros [= <- <- <-]|].
  destruct (doAll fails _ (x ++ _)) as [e3 h3] eqn:E3. apply doAll_spec in E3 as (x3 & -> & _ & H3).
  destruct e3; [by intros [= <- <- <-]|]. rewrite (H3 eq_refl). clear H3.
  destruct (applyPeerRateLimits fails c s _) as [[s4 e4] h4] eqn:E4. apply rates_spec in E4 as (Hsame & ext & -> & Hext).
  destruct e4; intros [= <- <- <-]; [by split|]. split; [done|]. intros _. rewrite running_ext by done.
  cbn [reverse fmap list_fmap rev_append app]. cbn [running]. rewrite bool_decide_false by done. rewrite andb_false_r.
  rewrite String.eqb_refl, bool_decide_true by done. cbn [andb file_of]. exact Hfile.
Qed.

(** ** Operations on users *)

Inductive userOp :=
  | AddOp (us : list UserInfo)
  | DelOp (us : list UserInfo)
  | RateOp (uuid : string) (rate : Z).

Definition runOp (x : userOp) (tag : string) (w : WireGuard) (h : log) : WireGuard * result unit * log :=
  match x with
  | AddOp us => match wgAddUsers fails tag us w h with (w, Ok _, h) => (w, Ok tt, h) | (w, Err e, h) => (w, Err e, h) end
  | DelOp us => wgDelUsers fails us tag w h
  | RateOp uuid rate => UpdateUserRateLimit fails tag uuid rate w h
  end.

(** The users an operation is meant to leave; [None] when it must be refused. *)
Definition intended (x : userOp) (m : gmap string UserInfo) : option (gmap string UserInfo) :=
  match x with
  | AddOp us => if forallb (λ u, is_ok (validateWireGuardUser u)) us then Some (withUsers us m) else None
  | DelOp us => Some (without us m)
  | RateOp uuid rate => (λ u, <[uuid := set_rate u rate]> m) <$> m !! uuid
  end.

(** What an operation on the node [tag] leaves alone. *)
Definition others_same (tag : string) (w w' : WireGuard) : Prop :=
  cfg w' = cfg w ∧ traffic w' = traffic w ∧ delete tag (nodes w') = delete tag (nodes w).

Lemma set_node_others tag w s : others_same tag w (set_node w tag s).
Proof. split_and!; [done..|]. cbn. by rewrite delete_insert_eq. Qed.

Lemma commitUsers_spec tag s us w h w' err h' :
  nodes w !! tag = Some s → commitUsers fails tag s us w h = (w', err, h') →
  others_same tag w w' ∧ ∃ s', nodes w' !! tag = Some s' ∧ iface s' = iface s ∧ cfgPath s' = cfgPath s ∧ info s' = info s
    ∧ (err = None → users s' = us ∧ running (WGPath (cfg w)) (iface s) (cfgPath s) h' = Some (renderConfig s'))
    ∧ (err ≠ None → users s' = users s).
Proof.
  intros Hs. unfold commitUsers. destruct (applyLocked fails (cfg w) (set_users s us) h) as [[s1 e1] h1] eqn:E1.
  apply applyLocked_spec in E1 as (Hsame & Hrun). pose proof (same_node_render _ _ Hsame) as Hr.
  destruct Hsame as (Hi & Hinf & Hu & Hc & _). cbn [iface info users cfgPath set_users] in *.
  pose proof (set_node_others tag w) as Ho.
  destruct e1 as [e|].
  - destruct (applyLocked fails (cfg w) (set_users s1 (users s)) h1) as [[s2 e2] h2] eqn:E2.
    apply applyLocked_spec in E2 as ((Hi2 & Hinf2 & Hu2 & Hc2 & _) & _). cbn [iface info users cfgPath set_users] in *.
    intros [= <- <- <-]. split; [apply Ho|]. exists s2. cbn. rewrite lookup_insert_eq. split_and!; [done|congruence..|done|done].
  - intros [= <- <- <-]. split; [apply Ho|]. exists s1. cbn. rewrite lookup_insert_eq. split_and!; try done.
    intros _. split; [done|]. rewrite Hr. by apply Hrun.
Qed.

Lemma storeUsers_spec us m :
  match storeUsers us m with
  | (m', None) => forallb (λ u, is_ok (validateWireGuardUser u)) us = true ∧ m' = withUsers us m
  | (_, Some _) => forallb (λ u, is_ok (validateWireGuardUser u)) us = false
  end.
Proof.
  revert m. induction us as [|u us IH]; intros m; [done|]. cbn [storeUsers forallb].
  destruct (validateWireGuardUser u) as [[]|e] eqn:Ev; [|done]. cbn [is_ok andb].
  specialize (IH (<[Uuid u := u]> m)). destruct (storeUsers us _) as [m' [e|]]; [done|]. by destruct IH as [-> ->].
Qed.

(** A rate that is already in force leaves everything as it is. *)
Lemma set_rate_same u : set_rate u (USpeedLimit u) = u.
Proof. by destruct u. Qed.


(** A refused addition is not undone: the users before the invalid one stay in
    the node, though the interface does not know them. *)
Lemma refused_addition_keeps_users tag s us u rest w h e :
  nodes w !! tag = Some s → forallb (λ u, is_ok (validateWireGuardUser u)) us = true → validateWireGuardUser u = Err e →
  wgAddUsers fails tag (us ++ u :: rest) w h = (set_node w tag (set_users s (withUsers us (users s))), Err e, h).
Proof.
  intros Hs Hall He. unfold wgAddUsers. rewrite Hs.
  assert (∀ m, storeUsers (us ++ u :: rest) m = (withUsers us m, Some e)) as ->; [|done].
  revert Hall. induction us as [|v us IH]; intros Hall m; cbn [app storeUsers].
  - by rewrite He.
  - cbn [forallb] in Hall. apply andb_true_iff in Hall as [Hv Hall]. destruct (validateWireGuardUser v) as [[]|]; [|done].
    by rewrite (IH Hall).
Qed.

(** ** Nodes *)

Variable interfaceName : string → string.
Variable derive : string → option string.

Lemma cleanup_state c s h : same_node s (cleanupPeerRateLimits fails c s h).1.
Proof. pose proof (cleanup_spec c s h) as Hc. destruct (cleanupPeerRateLimits fails c s h) as [s' h']. by destruct (Hc s' h' eq_refl). Qed.

(** A node is added as a whole or not at all: on success the interface runs
    the configuration of the node without users; on an error no node and no
    cursor of that tag is left, and the nodes there were are untouched. *)
Theorem add_node_atomic tag i o w h w' r h' :
  AddNode fails interfaceName derive tag i o w h = (w', r, h') →
  match r with
  | Ok _ => ∃ ni s, i = Some ni ∧ nodes w !! tag = None ∧ validateWireGuardNode derive i = Ok tt ∧ others_same tag w w'
      ∧ nodes w' !! tag = Some s ∧ info s = ni ∧ users s = ∅
      ∧ running (WGPath (cfg w)) (iface s) (cfgPath s) h' = Some (renderConfig s)
  | Err _ => nodes w' = nodes w ∧ (traffic w' = traffic w ∨ traffic w' = delete tag (traffic w))
  end.
Proof.
  unfold AddNode. destruct (validateWireGuardNode derive i) as [[]|e] eqn:Ev; [|intros [= <- <- <-]; auto].
  destruct i as [i|]; [|intros [= <- <- <-]; auto]. destruct (nodes w !! tag) as [old|] eqn:En; [intros [= <- <- <-]; auto|].
  destruct (applyLocked fails (cfg w) _ h) as [[s e1] h1] eqn:Ea. apply applyLocked_spec in Ea as (Hsame & Hrun).
  pose proof (same_node_render _ _ Hsame) as Hr. destruct e1 as [e|].
  - destruct (cleanupPeerRateLimits fails (cfg w) s h1) as [s2 h2]. intros [= <- <- <-]. cbn. split; [by apply delete_id|auto].
  - intros [= <- <- <-]. destruct Hsame as (Hi & Hinf & Hu & Hc & _). exists i, s. cbn. rewrite lookup_insert_eq.
    split_and!; try done; [apply set_node_others|]. rewrite Hr, Hi, Hc. by apply Hrun.
Qed.

(** Deleting a node always forgets it, whatever the host does. *)
Lemma DelNode_nodes tag w h : nodes (DelNode fails tag w h).1.1 = delete tag (nodes w).
Proof.
  unfold DelNode. destruct (nodes w !! tag) eqn:En; [|by rewrite delete_id].
  destruct (cleanupPeerRateLimits _ _ _ _). by destruct (do fails (Exec _ _) _) as [[]].
Qed.

Lemma close_nodes tags : ∀ w errs h,
  nodes (foldl (λ x tag, let '(w, errs, h) := x in
                  match DelNode fails tag w h with (w, Ok _, h) => (w, errs, h) | (w, Err e, h) => (w, errs ++ [e], h) end)
    (w, errs, h) tags).1.1 = foldl (λ m tag, delete tag m) (nodes w) tags.
Proof.
  induction tags as [|tag tags IH]; intros w errs h; [done|]. cbn [foldl]. pose proof (DelNode_nodes tag w h) as Hd.
  destruct (DelNode fails tag w h) as [[w1 [[]|e]] h1]; cbn in Hd; rewrite IH; by rewrite Hd.
Qed.

Lemma foldl_delete_empty (m0 m : gmap string nodeState) tags :
  (∀ k, is_Some (m !! k) → k ∈ tags) → foldl (λ m tag, delete tag m) m tags = ∅.
Proof.
  revert m. induction tags as [|t tags IH]; intros m Hm.
  - apply map_empty. intros k. destruct (m !! k) eqn:E; [|done]. exfalso. eapply not_elem_of_nil, Hm. by eexists.
  - cbn [foldl]. apply IH. intros k Hk. destruct (decide (t = k)) as [->|Hne].
    + rewrite lookup_delete_eq in Hk. by destruct Hk.
    + rewrite lookup_delete_ne in Hk by done. apply Hm in Hk. by apply elem_of_cons in Hk as [->|].
Qed.

Lemma close_removes_all w h : nodes (Close fails w h).1.1 = ∅.
Proof.
  unfold Close. rewrite close_nodes. apply (foldl_delete_empty ∅). intros k [s Hs].
  apply list_elem_of_fmap. exists (k, s). split; [done|by apply elem_of_map_to_list].
Qed.

End Host.

(** ** The configuration file *)

Definition LF : ascii := "010".

Definition peer_lines (u : UserInfo) : list string :=
  [""; "[Peer]"; "PublicKey = " +:+ WireGuardPublicKey u]
  ++ (if String.eqb (WireGuardPresharedKey u) "" then [] else ["PresharedKey = " +:+ WireGuardPresharedKey u])
  ++ ["AllowedIPs = " +:+ peerAllowedIP (WireGuardPeerIP u)].

Definition config_lines (n : WireGuardNode) (port : Z) (us : list UserInfo) : list string :=
  ["[Interface]"; "PrivateKey = " +:+ ServerPrivateKey n; "ListenPort = " +:+ itoa port] ++ (us ≫= peer_lines) ++ [""].

(** A user whose keys and address hold no line break. *)
Definition one_line (u : UserInfo) : Prop :=
  contains_char (WireGuardPublicKey u) LF = false ∧ contains_char (WireGuardPresharedKey u) LF = false
  ∧ contains_char (peerAllowedIP (WireGuardPeerIP u)) LF = false.

Lemma split_nl a s : contains_char a LF = false → split (a +:+ nl +:+ s) LF = a :: split s LF.
Proof. intros Ha. change (nl +:+ s) with (String LF s). by apply split_cons. Qed.

Lemma split_blank s : split (nl +:+ s) LF = "" :: split s LF.
Proof. exact (split_nl "" s eq_refl). Qed.

Lemma split_field a b s : contains_char a LF = false → contains_char b LF = false →
  split (a +:+ b +:+ nl +:+ s) LF = (a +:+ b) :: split s LF.
Proof. intros Ha Hb. rewrite <- app_assoc_str. apply split_nl. by rewrite contains_char_app, Ha, Hb. Qed.

Lemma split_peer u s : one_line u → split (renderPeer u +:+ s) LF = peer_lines u ++ split s LF.
Proof.
  intros (Hp & Hk & Ha). unfold renderPeer, peer_lines. rewrite !app_assoc_str.
  rewrite split_blank, (split_nl "[Peer]"), split_field by done.
  destruct (String.eqb (WireGuardPresharedKey u) ""); rewrite ?app_assoc_str; [change ("" +:+ ?t) with t|rewrite split_field by done];
    by rewrite split_field.
Qed.

Lemma split_peers us : Forall one_line us →
  split (foldr (λ u rest, renderPeer u +:+ rest) "" us) LF = (us ≫= peer_lines) ++ [""].
Proof.
  induction 1 as [|u us Hu _ IH]; [done|]. cbn [foldr]. rewrite split_peer, IH by done. by rewrite bind_cons, <- (assoc_L (++)).
Qed.

Lemma itoa_no_lf n : contains_char (itoa n) LF = false.
Proof.
  assert (∀ k, 0 ≤ k → contains_char (format_uint k) LF = false) as Hf.
  { intros k Hk. destruct (format_uint_shape k Hk) as [Hs _]. by eapply all_chars_contains. }
  unfold itoa. destruct (Z.ltb_spec n 0); [rewrite contains_char_app, Hf by lia; done|by apply Hf].
Qed.

(** The configuration file is what it is meant to be.  When no key or
    address holds a line break, its lines are the interface section with the
    node's private key and port, then one peer section for each user, with the
    user's public key, preshared key if any and allowed address, ordered by
    peer address; every user of the node has exactly one. *)
Theorem config_file_exact s n port :
  info s = mkInfo (Some n) (Some port) → contains_char (ServerPrivateKey n) LF = false →
  map_Forall (λ _ u, one_line u) (users s) →
  split (renderConfig s) LF = config_lines n port (sortedUsers (users s))
  ∧ sortedUsers (users s) ≡ₚ (map_to_list (users s)).*2
  ∧ Sorted by_peer_ip (sortedUsers (users s)).
Proof.
  intros Hi Hk Hu.
  assert (sortedUsers (users s) ≡ₚ (map_to_list (users s)).*2) as Hp by apply merge_sort_Permutation.
  split_and!; [|done|].
  - unfold renderConfig, serverOf, config_lines. rewrite Hi, (split_nl "[Interface]") by done.
    rewrite !split_field by (done || apply itoa_no_lf).
    rewrite split_peers; [done|]. rewrite Hp. apply Forall_fmap, Forall_forall. intros [k u] Hin.
    apply elem_of_map_to_list in Hin. by apply (Hu k u).
  - apply Sorted_merge_sort. intros x y. apply String.le_total.
Qed.

(** ** Validated nodes *)

(** The highest address of a prefix. *)
Definition last_value (p : Prefix) : Z := masked_value p + 2 ^ (BitLen (pAddr p) - Bits p) - 1.

Lemma shiftl_lor_ones k w : 0 ≤ w → Z.lor (Z.shiftl k w) (Z.ones w) = Z.shiftl k w + 2 ^ w - 1.
Proof.
  intros Hw. pose proof (Z.add_lor_land (Z.shiftl k w) (Z.ones w)) as H. rewrite Z.land_ones in H by lia.
  rewrite Z.shiftl_mul_pow2, Z_mod_mult in * by lia. rewrite Z.ones_equiv in *. lia.
Qed.

Lemma host_mask b : 0 ≤ b ≤ 32 → Z.shiftr (2 ^ 32 - 1) b = Z.ones (32 - b).
Proof. intros Hb. change (2 ^ 32 - 1) with (Z.ones 32). rewrite Z.shiftr_div_pow2 by lia. by apply Z.ones_div_pow2. Qed.

Lemma contained_range p a : 0 ≤ Bits p ≤ BitLen (pAddr p) → Contains p a = true →
  masked_value p ≤ addr_value a ≤ last_value p.
Proof.
  intros Hb. unfold Contains, last_value, masked_value, network. intros [_ Hn%Z.eqb_eq]%andb_true_iff.
  rewrite <- Hn, Z.shiftl_mul_pow2, Z.shiftr_div_pow2 by lia.
  pose proof (Z.pow_pos_nonneg 2 (BitLen (pAddr p) - Bits p) ltac:(lia) ltac:(lia)).
  pose proof (Z.div_mod (addr_value a) (2 ^ (BitLen (pAddr p) - Bits p)) ltac:(lia)).
  pose proof (Z.mod_pos_bound (addr_value a) (2 ^ (BitLen (pAddr p) - Bits p)) ltac:(lia)). lia.
Qed.

Lemma ParsePrefix_bits s p : ParsePrefix s = Some p → 0 ≤ Bits p ≤ BitLen (pAddr p).
Proof.
  unfold ParsePrefix. destruct (last_index s "/") as [k|]; [|done]. destruct (ParseAddr _); [|done]. destruct (negb _); [done|].
  destruct (_ && _); [done|]. destruct (Atoi _) as [n|]; [|done].
  destruct (_ || _) eqn:E; [done|]. intros [= <-]. apply orb_false_iff in E as [? ?]. cbn. lia.
Qed.

Lemma not_broadcast p a : Is4 (pAddr p) = true → 0 ≤ Bits p ≤ 30 → isWireGuardIPv4Broadcast p a = false → addr_value a ≠ last_value p.
Proof.
  intros H4 Hb. unfold isWireGuardIPv4Broadcast, last_value. rewrite H4. rewrite (proj2 (Z.leb_gt 31 (Bits p))) by lia. cbn [negb orb].
  unfold masked_value, BitLen. rewrite H4, host_mask, shiftl_lor_ones by lia. by intros ?%Z.eqb_neq.
Qed.

(** What the tests on the CIDR leave. *)
Lemma cidr_host c server : badCIDR c server = false →
  match c with Some c => Is4 (pAddr c) && isWireGuardIPv4Broadcast c (pAddr server) | None => false end = false →
  (∀ p, c = Some p → 0 ≤ Bits p ≤ BitLen (pAddr p)) → addr_value (pAddr server) ≠ masked_value server →
  ∃ p, c = Some p ∧ Bits p = Bits server ∧ masked_value p < addr_value (pAddr server) ≤ last_value p
    ∧ (Is4 (pAddr p) = true → addr_value (pAddr server) < last_value p).
Proof.
  destruct c as [c|]; [|done]. cbn [badCIDR]. intros Hbad Hbc Hbits Hnet. specialize (Hbits c eq_refl).
  apply orb_false_iff in Hbad as [[[[H0 H4]%orb_false_iff H6]%orb_false_iff Hb%negb_false_iff]%orb_false_iff Hc%negb_false_iff].
  apply Z.eqb_eq in Hb. pose proof (contained_range c (pAddr server) Hbits Hc) as Hr.
  assert (masked_value server = masked_value c) as Hm.
  { unfold Contains in Hc. apply andb_true_iff in Hc as [[_ Hl%Z.eqb_eq]%andb_true_iff Hn%Z.eqb_eq].
    unfold masked_value, network in *. by rewrite <- Hb, Hl, Hn. }
  exists c. split; [done|]. split; [done|]. split; [lia|]. intros Hv4. rewrite Hv4 in H4, Hbc. cbn [andb] in H4, Hbc.
  apply Z.ltb_ge in H4. assert (addr_value (pAddr server) ≠ last_value c) by (apply not_broadcast; [done|lia|done]). lia.
Qed.

(** A WireGuard node that passes validation has a port and an MTU the kernel
    takes and no relay, and when it has a CIDR its address has the CIDR's prefix
    length and is a host of that network: above the network address, and on
    IPv4 below the broadcast address. *)
Theorem validated_node_addresses derive i :
  validateWireGuardNode derive i = Ok tt →
  ∃ n port server, i = Some (mkInfo (Some n) (Some port)) ∧ 1 ≤ port ≤ 65535 ∧ 576 ≤ wireGuardMTU n ≤ 1500
    ∧ hasWireGuardRelayConfig (Relay n) = false
    ∧ ParsePrefix (trim_space (ServerAddress n)) = Some server
    ∧ (ServerPublicKey n = "" ∨ derive (ServerPrivateKey n) = Some (ServerPublicKey n))
    ∧ (is_set (CIDR n) = true → ∃ c, ParsePrefix (trim_space (CIDR n)) = Some c ∧ Bits c = Bits server
        ∧ masked_value c < addr_value (pAddr server) ≤ last_value c
        ∧ (Is4 (pAddr c) = true → addr_value (pAddr server) < last_value c)).
Proof.
  destruct i as [[[n|] [port|]]|]; try done. cbn [validateWireGuardNode].
  destruct (hasWireGuardRelayConfig (Relay n)) eqn:Er; [done|]. destruct (negb (is_set (ServerPrivateKey n))); [done|].
  destruct (validateWireGuardKey (ServerPrivateKey n)); [|done].
  destruct (if String.eqb (ServerPublicKey n) "" then _ else _) as [[]|] eqn:Ek; [|done].
  destruct (negb (is_set (ServerAddress n))); [done|].
  destruct (ParsePrefix (trim_space (ServerAddress n))) as [server|] eqn:Es; [|done].
  destruct (Z.eqb_spec (addr_value (pAddr server)) (masked_value server)); [done|].
  destruct (is_set (CIDR n) && badCIDR _ server) eqn:Eb; [done|]. destruct (is_set (CIDR n) && match _ with Some _ => _ | _ => _ end) eqn:Ec; [done|].
  destruct ((port <? 1) || _) eqn:Ep; [done|]. destruct (negb (MTU n =? 0) && _) eqn:Em; [done|]. intros _. exists n, port, server.
  split; [done|]. split; [apply orb_false_iff in Ep; lia|]. split; [unfold wireGuardMTU; destruct (Z.ltb_spec 0 (MTU n)); lia|].
  split; [done|]. split; [done|]. split.
  - destruct (String.eqb_spec (ServerPublicKey n) ""); [by left|]. destruct (validateWireGuardKey _); [|done].
    case_bool_decide; [by right|done].
  - intros Hset. rewrite Hset in Eb, Ec. apply cidr_host; try done. intros p. apply ParsePrefix_bits.
Qed.

(** ** Witnesses: a node with two users on a host where every command works *)

Module Witness.

Fixpoint replicate_char (n : nat) (c : ascii) : string := match n with O => "" | S n => String c (replicate_char n c) end.

Definition key (c : ascii) : string := replicate_char 43 c +:+ "=".

Definition no_relay : WireGuardRelay := mkRelay "" "" "" false false false "" 0 "" 0 "" "" "" "" 0 0 "" false "" "" "" "" 0.
Definition node : WireGuardNode := mkNode "10.66.0.0/24" "10.66.0.1/24" (key "P") (key "Q") 1420 no_relay.
Definition nodeInfo : NodeInfo := mkInfo (Some node) (Some 51820).
Definition alice : UserInfo := mkUser 1 "alice" 0 0 "10.66.0.3" (key "A") "" ∅.
Definition bob : UserInfo := mkUser 2 "bob" 0 0 "10.66.0.2" (key "B") (key "C") ∅.
Definition settings : WireGuardConfig := mkWGConfig "/run/wg" "wg" "ip" "tc" 180.
Definition empty : WireGuard := mkWireGuard settings ∅ ∅.
Definition works : log → Effect → option string := λ _ _, None.
Definition name : string → string := λ tag, "wg" +:+ tag.
Definition publicOf : string → option string := λ k, if String.eqb k (key "P") then Some (key "Q") else None.
Definition added : WireGuard * result unit * log := AddNode works name publicOf "n1" (Some nodeInfo) None empty [].
Definition both : gmap string UserInfo := {[ "alice" := alice; "bob" := bob ]}.
Definition withBoth : nodeState := set_users (newState name settings "n1" nodeInfo None) both.

Lemma validated_node_addresses_witness :
  ∃ n port server, Some nodeInfo = Some (mkInfo (Some n) (Some port)) ∧ 1 ≤ port ≤ 65535 ∧ 576 ≤ wireGuardMTU n ≤ 1500
    ∧ hasWireGuardRelayConfig (Relay n) = false
    ∧ ParsePrefix (trim_space (ServerAddress n)) = Some server
    ∧ (ServerPublicKey n = "" ∨ publicOf (ServerPrivateKey n) = Some (ServerPublicKey n))
    ∧ (is_set (CIDR n) = true → ∃ c, ParsePrefix (trim_space (CIDR n)) = Some c ∧ Bits c = Bits server
        ∧ masked_value c < addr_value (pAddr server) ≤ last_value c
        ∧ (Is4 (pAddr c) = true → addr_value (pAddr server) < last_value c)).
Proof. apply validated_node_addresses. vm_compute. reflexivity. Defined.


Lemma add_node_atomic_witness : ∃ s, nodes added.1.1 !! "n1" = Some s ∧ users s = ∅.
Proof.
  pose proof (add_node_atomic works name publicOf "n1" (Some nodeInfo) None empty [] added.1.1 (Ok tt) added.2) as H.
  destruct H as (ni & s & _ & _ & _ & _ & Hs & _ & Hu & _); [vm_compute; reflexivity|]. exists s. split; [exact Hs|exact Hu].
Defined.

Lemma config_file_exact_witness :
  split (renderConfig withBoth) LF =
    ["[Interface]"; "PrivateKey = " +:+ key "P"; "ListenPort = 51820";
     ""; "[Peer]"; "PublicKey = " +:+ key "B"; "PresharedKey = " +:+ key "C"; "AllowedIPs = 10.66.0.2/32";
     ""; "[Peer]"; "PublicKey = " +:+ key "A"; "AllowedIPs = 10.66.0.3/32"; ""].
Proof.
  rewrite (proj1 (config_file_exact withBoth node 51820 eq_refl eq_refl
    ltac:(apply (bool_decide_unpack _); vm_compute; exact I))). vm_compute. reflexivity.
Defined.

(** A key is accepted with line breaks inside it, which base64 ignores, and is
    written as it is: the rest of the key is a line of its own. *)
Definition broken : UserInfo := mkUser 3 "mallory" 0 0 "10.66.0.4" (replicate_char 20 "A" +:+ nl +:+ replicate_char 23 "A" +:+ "=") "" ∅.

Example broken_key_is_written :
  validateWireGuardUser broken = Ok tt ∧
  (replicate_char 23 "A" +:+ "=") ∈ split (renderConfig (set_users withBoth {[ "mallory" := broken ]})) LF.
Proof. split; [vm_compute; reflexivity|]. apply (bool_decide_unpack _). vm_compute. exact I. Qed.

(** An IPv6 zone may hold anything: the address of this user writes a second
    peer with a key of its own. *)
Definition intruder : UserInfo :=
  mkUser 4 "intruder" 0 0 ("fd00::4%x" +:+ nl +:+ "[Peer]" +:+ nl +:+ "PublicKey = " +:+ key "Z" +:+ nl +:+ "PersistentKeepalive = 25 #") (key "A") "" ∅.

Example zone_injects_lines :
  validateWireGuardUser intruder = Ok tt ∧
  "[Peer]" ∈ drop 6 (split (renderConfig (set_users withBoth {[ "intruder" := intruder ]})) LF).
Proof. split; [vm_compute; reflexivity|]. apply (bool_decide_unpack _). vm_compute. exact I. Qed.

End Witness.

End WireGuardNodes.
