(* ===== verification/Disk.v ===== *)
(** * Files on disk

    The part of the operating system the stores of the Agent use: one directory
    of files, written through temporary files that are renamed.  Every call may
    fail or be the last before a crash, as [fate] says of the call's number;
    nothing is assumed about it.  The directory keeps those it has been since it
    was last synced, and a file whether it is synced, so that a crash of the
    machine can lose what is not ([survives]).  (Operations on
    one directory reach the disk in order.)
    Module [DiskViews]: triples and views of such programs. *)

From S2P Require Import Prelude GoStrings.
From Stdlib Require Import Ascii String.

Module Disk.

(** ** Files *)

Record File := mkFile { regular : bool; perm : Z; owned : bool; data : string; synced : bool }.

Abbreviation Dir := (gmap string Z).

(** The directory, those it was before since it was last synced, the files by
    inode, the next inode and the number of calls. *)
Record World := mkWorld { dir : Dir; older : list Dir; heap : gmap Z File; next : Z; calls : nat }.

Definition dirs (w : World) : list Dir := dir w :: older w.

Definition set_dir (w : World) (d : Dir) : World := mkWorld d (dirs w) (heap w) (next w) (calls w).
Definition set_file (w : World) (id : Z) (f : File) : World := mkWorld (dir w) (older w) (<[id := f]> (heap w)) (next w) (calls w).
Definition tick (w : World) : World := mkWorld (dir w) (older w) (heap w) (next w) (S (calls w)).
Definition sync_dir (w : World) : World := mkWorld (dir w) [] (heap w) (next w) (calls w).

(** How a call ends; of a write that does not end well, what was written. *)
Inductive Fate := Done | Fails (partial : string) | Crash (partial : string).

Inductive outcome (A : Type) := Value (a : A) | Error (e : string) | Crashed.
Arguments Value {A}. Arguments Error {A}. Arguments Crashed {A}.

Definition M (A : Type) : Type := World → World * outcome A.

Definition ret {A} (a : A) : M A := λ w, (w, Value a).
Definition throw {A} (e : string) : M A := λ w, (w, Error e).
Definition bind {A B} (m : M A) (f : A → M B) : M B :=
  λ w, match m w with (w, Value a) => f a w | (w, Error e) => (w, Error e) | (w, Crashed) => (w, Crashed) end.
(** The error as a value. *)
Definition attempt {A} (m : M A) : M (result A) :=
  λ w, match m w with (w, Value a) => (w, Value (Ok a)) | (w, Error e) => (w, Value (Err e)) | (w, Crashed) => (w, Crashed) end.
Definition lift {A} (r : result A) : M A := match r with Ok a => ret a | Err e => throw e end.

Declare Scope store_scope.
Delimit Scope store_scope with store.
Notation "x <- m ;; f" := (bind m (λ x, f)) (at level 60, m at level 59, right associativity) : store_scope.
Notation "m ;;; f" := (bind m (λ _, f)) (at level 60, right associativity) : store_scope.
#[local] Open Scope store_scope.

Section Calls.

Variable fate : nat → Fate.

(** A call with the effect [f], or [g] of what was written when it fails. *)
Definition call {A} (f : World → World * outcome A) (g : string → World → World) : M A :=
  λ w, match fate (calls w) with
       | Done => f (tick w)
       | Fails p => (g p (tick w), Error "input/output error")
       | Crash p => (g p (tick w), Crashed)
       end.

Definition unchanged : string → World → World := λ _ w, w.

(** ** Writing a file *)

(** The random part of a temporary name. *)
Variable random : nat → string.

Definition dirMode : Z := 448. (* 0700 *)
Definition fileMode : Z := 384. (* 0600 *)

(** [os.CreateTemp]: a file of mode 0600 that was not there; the random part of
    its name replaces the star of the pattern. *)
Definition createTemp (before after : string) : M (string * Z) :=
  call (λ w,
    let name := before +:+ random (calls w) +:+ after in
    match dir w !! name with
    | Some _ => (w, Error "file exists")
    | None =>
      let id := next w in
      (mkWorld (<[name := id]> (dir w)) (dirs w) (<[id := mkFile true fileMode true "" false]> (heap w)) (id + 1) (calls w), Value (name, id))
    end) unchanged.

Definition on_file (id : Z) (f : File → File) (w : World) : World :=
  match heap w !! id with Some x => set_file w id (f x) | None => w end.

Definition chmod (id mode : Z) : M unit :=
  call (λ w, (on_file id (λ f, mkFile (regular f) mode (owned f) (data f) (synced f)) w, Value tt)) unchanged.

Definition put (id : Z) (s : string) (w : World) : World :=
  on_file id (λ f, mkFile (regular f) (perm f) (owned f) (data f +:+ s) false) w.

Definition write (id : Z) (s : string) : M unit := call (λ w, (put id s w, Value tt)) (put id).

Definition sync (id : Z) : M unit :=
  call (λ w, (on_file id (λ f, mkFile (regular f) (perm f) (owned f) (data f) true) w, Value tt)) unchanged.

Definition close : M unit := call (λ w, (w, Value tt)) unchanged.

Definition rename (name base : string) : M unit :=
  call (λ w, match dir w !! name with
             | Some id => (set_dir w (<[base := id]> (delete name (dir w))), Value tt)
             | None => (w, Error "no such file or directory")
             end) unchanged.

(** [os.Remove]; a missing file is the error [ErrNotExist]. *)
Definition ErrNotExist : string := "file does not exist".

Definition remove (name : string) : M unit :=
  call (λ w, match dir w !! name with
             | Some _ => (set_dir w (delete name (dir w)), Value tt)
             | None => (w, Error ErrNotExist)
             end) unchanged.

(** [syncDir]: its errors are ignored. *)
Definition syncDir : M unit := _ <- attempt (call (λ w, (sync_dir w, Value tt)) unchanged) ;; ret tt.

(** A step after which the file is closed when it fails. *)
Definition orClose (m : M unit) : M unit :=
  r <- attempt m ;; match r with Ok _ => ret tt | Err e => _ <- attempt close ;; throw e end.

End Calls.

End Disk.

(** ** Files on disk: reasoning

    Triples for the programs of Disk.v, and the view of a directory a program
    has: the files under names that do not start with a dot, which are always on
    the disk, and the temporary files it holds.  A property of views that every
    directory a crash may bring back has is kept by the programs that keep it. *)

Module DiskViews.
Import Disk.

(** ** Triples *)

(** From [P] the program ends with [Q] and its value, or with [E] on an error,
    and [C] holds where it crashes. *)
Definition triple {A} (P : World → Prop) (m : M A) (Q : A → World → Prop) (E C : World → Prop) : Prop :=
  ∀ w, P w → match m w with (w', Value a) => Q a w' | (w', Error _) => E w' | (w', Crashed) => C w' end.

Section Rules.
Context {A B : Type}.
Implicit Types P E C : World → Prop.

Lemma triple_ret (a : A) P Q E C : (∀ w, P w → Q a w) → triple P (ret a) Q E C.
Proof. intros HQ w Hw. by apply HQ. Qed.

Lemma triple_throw (e : string) P (Q : A → World → Prop) E C : (∀ w, P w → E w) → triple P (throw e) Q E C.
Proof. intros HE w Hw. by apply HE. Qed.

Lemma triple_bind (m : M A) (f : A → M B) P R Q E C :
  triple P m R E C → (∀ a, triple (R a) (f a) Q E C) → triple P (bind m f) Q E C.
Proof.
  intros Hm Hf w Hw. specialize (Hm w Hw). unfold bind. destruct (m w) as [w' [a|e|]]; [|done..]. by apply Hf.
Qed.

Lemma triple_attempt (m : M A) P Q E E' C :
  triple P m Q E C → triple P (attempt m) (λ r, match r with Ok a => Q a | Err _ => E end) E' C.
Proof. intros Hm w Hw. specialize (Hm w Hw). unfold attempt. by destruct (m w) as [w' [a|e|]]. Qed.

Lemma triple_weaken (m : M A) P P' (Q Q' : A → World → Prop) E E' C C' :
  triple P' m Q' E' C' → (∀ w, P w → P' w) → (∀ a w, Q' a w → Q a w) → (∀ w, E' w → E w) → (∀ w, C' w → C w) → triple P m Q E C.
Proof.
  intros Hm HP HQ HE HC w Hw. specialize (Hm w (HP w Hw)). destruct (m w) as [w' [a|e|]]; [by apply HQ|by apply HE|by apply HC].
Qed.

Lemma triple_call fate (f : World → World * outcome A) g P Q E C :
  (∀ w, P w → P (tick w)) →
  (∀ w, P w → match f w with (w', Value a) => Q a w' | (w', Error _) => E w' | (w', Crashed) => C w' end) →
  (∀ p w, P w → E (g p w) ∧ C (g p w)) →
  triple P (call fate f g) Q E C.
Proof.
  intros Ht Hf Hg w Hw%Ht. unfold call. destruct (fate (calls w)) as [|p|p]; [by apply Hf|by apply Hg|by apply Hg].
Qed.

Lemma triple_ret_bind (a : A) (f : A → M B) P Q E C : triple P (f a) Q E C → triple P (bind (ret a) f) Q E C.
Proof. done. Qed.

Lemma triple_throw_bind (e : string) (f : A → M B) P Q E C : (∀ w, P w → E w) → triple P (bind (throw e) f) Q E C.
Proof. intros HE w Hw. by apply HE. Qed.

Lemma triple_post (m : M A) P (Q Q' : A → World → Prop) E E' C C' :
  triple P m Q' E' C' → (∀ a w, Q' a w → Q a w) → (∀ w, E' w → E w) → (∀ w, C' w → C w) → triple P m Q E C.
Proof. intros Hm. by apply (triple_weaken m P P). Qed.

End Rules.

Lemma triple_try {A B} (m : M A) (f : result A → M B) P R E1 Q E C :
  triple P m R E1 C → (∀ a, triple (R a) (f (Ok a)) Q E C) → (∀ e, triple E1 (f (Err e)) Q E C) →
  triple P (bind (attempt m) f) Q E C.
Proof.
  intros Hm Ho He. eapply triple_bind; [by apply (triple_attempt m P R E1)|]. intros [a|e]; [apply Ho|apply He].
Qed.

(** ** Views *)

(** Temporary names start with a dot. *)
Definition plain (name : string) : bool := negb (has_prefix name ".").

Definition View := string → option File.

Definition view (h : gmap Z File) (d : Dir) : View := λ n, id ← d !! n; h !! id.

Definition same (v v' : View) : Prop := ∀ n, plain n = true → v n = v' n.

#[export] Instance same_equivalence : Equivalence same.
Proof. split; [by intros v n|intros v v' Hv n Hn; by rewrite Hv|intros v1 v2 v3 H1 H2 n Hn; by rewrite H1, H2]. Qed.

Definition upd (v : View) (base : string) (x : option File) : View := λ n, if String.eqb n base then x else v n.

#[export] Instance upd_proper : Proper (same ==> eq ==> eq ==> same) upd.
Proof. intros v v' Hv b ? <- x ? <- n Hn. unfold upd. by destruct (String.eqb n b); [|apply Hv]. Qed.

(** Files under these names are on the disk, and there is room for new ones. *)
Record wf (w : World) : Prop := {
  wf_synced : ∀ d n id, d ∈ dirs w → plain n = true → d !! n = Some id → ∃ f, heap w !! id = Some f ∧ synced f = true;
  wf_entry : ∀ d n id, d ∈ dirs w → d !! n = Some id → is_Some (heap w !! id);
  wf_next : ∀ id, is_Some (heap w !! id) → id < next w
}.

Definition all_views (V : View → Prop) (w : World) : Prop := ∀ d, d ∈ dirs w → V (view (heap w) d).

Definition current (v : View) (w : World) : Prop := same (view (heap w) (dir w)) v.

(** What is on the disk after a crash: of the process, or of the machine, when
    the directory is one it has been since it was synced and what was not
    synced of a file is anything. *)
Inductive survives (w : World) : World → Prop :=
  | process_crash : survives w w
  | machine_crash d h :
      d ∈ dirs w → (∀ id f, heap w !! id = Some f → synced f = true → h !! id = Some f) → dom h = dom (heap w) →
      survives w (mkWorld d [] h (next w) (calls w)).

Lemma dirs_head w : dir w ∈ dirs w.
Proof. apply list_elem_of_here. Qed.

Lemma survives_wf w w' : wf w → survives w w' → wf w'.
Proof.
  intros Hwf Hsurv. destruct Hsurv as [|d h Hd Hh Hdom]; [done|]. destruct Hwf as [Hs He Hn].
  assert (∀ id, is_Some (h !! id) ↔ is_Some (heap w !! id)) as Hiff by (intros id; rewrite <- !elem_of_dom, Hdom; done).
  split.
  - intros d' n id Hd' Hin Hid. apply list_elem_of_singleton in Hd' as ->. destruct (Hs d n id Hd Hin Hid) as (f & Hf & Hsy). eauto.
  - intros d' n id Hd' Hid. apply list_elem_of_singleton in Hd' as ->. apply Hiff. by eapply He.
  - intros id Hid. apply Hn. by apply Hiff.
Qed.

(** The temporary files a program holds. *)
Abbreviation Temps := (gmap string File).

Definition holds (T : Temps) (w : World) : Prop :=
  ∀ n f, T !! n = Some f → plain n = false ∧ ∃ id, dir w !! n = Some id ∧ heap w !! id = Some f ∧ synced f = true.

Section Views.
Context (V : View → Prop) `{HV : !Proper (same ==> iff) V}.

Definition inv (w : World) : Prop := wf w ∧ all_views V w.

Lemma survives_inv w w' : inv w → survives w w' → inv w'.
Proof using HV.
  intros [Hwf Ha] Hsurv. split; [by eapply survives_wf|]. destruct Hsurv as [|d h Hd Hh Hdom]; [done|].
  intros d' Hd'. apply list_elem_of_singleton in Hd' as ->. cbn [heap dir]. apply (HV (view (heap w) d)); [|by apply Ha].
  intros n Hn. unfold view. destruct (d !! n) as [id|] eqn:E; [|done]. cbn.
  destruct (wf_synced w Hwf d n id Hd Hn E) as (f & Hf & Hsy). by rewrite Hf, (Hh id f Hf Hsy).
Qed.

(** The program sees [v] and holds [T]. *)
Definition stored (v : View) (T : Temps) (w : World) : Prop := inv w ∧ current v w ∧ holds T w.

Lemma stored_inv v T w : stored v T w → inv w.
Proof. by intros [? _]. Qed.

Lemma stored_view v T w : stored v T w → V v.
Proof using HV. intros ([_ Ha] & Hc & _). apply (HV _ _ Hc), Ha, dirs_head. Qed.

Lemma stored_start w : inv w → stored (view (heap w) (dir w)) ∅ w.
Proof. intros Hi. split; [done|]. split; [done|]. by intros n f. Qed.

Lemma stored_forget v T T' w : T' ⊆ T → stored v T w → stored v T' w.
Proof. intros HT (Hi & Hc & Hh). split; [done|]. split; [done|]. intros n f Hn. apply Hh. by eapply lookup_weaken. Qed.

(** ** A temporary file being written *)

(** The file [f] under its temporary name. *)
Record Temp (v : View) (T : Temps) (name : string) (id : Z) (f : File) (w : World) : Prop := {
  temp_stored : stored v T w;
  temp_entry : dir w !! name = Some id;
  temp_file : heap w !! id = Some f;
  temp_hidden : ∀ d n, d ∈ dirs w → plain n = true → d !! n ≠ Some id;
  temp_alone : ∀ n, T !! n ≠ None → dir w !! n ≠ Some id;
  temp_plain : plain name = false
}.

(** Files outside the views are not seen. *)
Lemma view_insert_hidden h d id f : (∀ n, plain n = true → d !! n ≠ Some id) → same (view (<[id := f]> h) d) (view h d).
Proof.
  intros Hh n Hn. unfold view. destruct (d !! n) as [i|] eqn:E; [|done]. cbn.
  rewrite lookup_insert_ne; [done|]. intros ->. by apply (Hh n).
Qed.

(** A file no view and no held name has may become anything. *)
Lemma stored_set_file v T w id f' : stored v T w → is_Some (heap w !! id) →
  (∀ d n, d ∈ dirs w → plain n = true → d !! n ≠ Some id) → (∀ n, T !! n ≠ None → dir w !! n ≠ Some id) →
  stored v T (set_file w id f').
Proof using HV.
  intros ([[Hs He Hn] Ha] & Hc & Ht) Hid Hh Hal. split; [split; [split|]|split].
  - intros d n i Hd Hin Hi. cbn [heap set_file]. destruct (Hs d n i Hd Hin Hi) as (g & Hg & Hsy).
    exists g. rewrite lookup_insert_ne; [done|]. intros ->. by apply (Hh d n).
  - intros d n i Hd Hi. cbn [heap set_file]. destruct (decide (id = i)) as [->|]; [rewrite lookup_insert_eq; by eexists|].
    rewrite lookup_insert_ne by done. by apply (He d n).
  - intros i. cbn [heap set_file next]. destruct (decide (id = i)) as [->|]; [intros _; by apply Hn|].
    rewrite lookup_insert_ne by done. apply Hn.
  - intros d Hd. cbn [heap set_file]. apply (HV (view (heap w) d)); [|by apply Ha]. symmetry. apply view_insert_hidden.
    intros n Hin. by apply Hh.
  - intros n Hin. cbn [heap dir set_file]. rewrite view_insert_hidden; [by apply Hc| |done]. intros m Hm. apply Hh; [apply dirs_head|done].
  - intros n g Hg. destruct (Ht n g Hg) as (Hp & i & Hi & Hf & Hsy). split; [done|]. exists i. cbn [heap dir set_file].
    rewrite lookup_insert_ne; [done|]. intros ->. apply (Hal n); [by rewrite Hg|done].
Qed.

Lemma temp_set_file v T name id f f' w : Temp v T name id f w → Temp v T name id f' (set_file w id f').
Proof using HV.
  intros [Hst He Hf Hh Hal Hp]. split; try done; [apply stored_set_file; try done; by eexists|]. cbn. apply lookup_insert_eq.
Qed.

(** A new temporary name. *)
Lemma temp_new v T w name f : stored v T w → plain name = false → dir w !! name = None →
  Temp v T name (next w) f (mkWorld (<[name := next w]> (dir w)) (dirs w) (<[next w := f]> (heap w)) (next w + 1) (calls w)).
Proof using HV.
  intros ([[Hs He Hn] Ha] & Hc & Ht) Hname Hfree.
  assert (heap w !! next w = None) as Hnew.
  { destruct (heap w !! next w) eqn:E; [|done]. assert (next w < next w) by (apply Hn; by eexists). lia. }
  assert (∀ d n, d ∈ dirs w → plain n = true → d !! n ≠ Some (next w)) as Hh.
  { intros d n Hd Hin E. destruct (Hs d n _ Hd Hin E) as (g & Hg & _). congruence. }
  assert (∀ n, plain n = true → <[name := next w]> (dir w) !! n = dir w !! n) as Hsame by (intros n Hin; apply lookup_insert_ne; congruence).
  assert (same (view (<[next w := f]> (heap w)) (<[name := next w]> (dir w))) (view (heap w) (dir w))) as Hview.
  { intros n Hin. unfold view. rewrite Hsame by done. apply (view_insert_hidden (heap w) (dir w)); [|done]. intros. apply Hh; [apply dirs_head|done]. }
  split; cbn [dir heap older dirs]; [split; [split; [split|]|split]| | | | |done].
  - intros d n i Hd Hin Hi. cbn [heap]. apply elem_of_cons in Hd as [->|Hd]; [cbn [dir] in Hi; rewrite Hsame in Hi by done; pose proof (dirs_head w) as Hd|];
      (destruct (Hs _ n i Hd Hin Hi) as (g & Hg & Hsy); exists g; rewrite lookup_insert_ne; [done|]; congruence).
  - intros d n i Hd Hi. cbn [heap]. destruct (decide (next w = i)) as [->|]; [rewrite lookup_insert_eq; by eexists|].
    rewrite lookup_insert_ne by done. apply elem_of_cons in Hd as [->|Hd]; [|by apply (He d n)]. cbn [dir] in Hi.
    apply lookup_insert_Some in Hi as [[_ ?]|[_ Hi]]; [done|]. by apply (He (dir w) n); [apply dirs_head|].
  - intros i. cbn [heap next]. destruct (decide (next w = i)) as [<-|]; [lia|]. rewrite lookup_insert_ne by done. intros ?%Hn. lia.
  - intros d Hd. cbn [heap]. apply elem_of_cons in Hd as [->|Hd]; cbn [dir].
    + apply (HV (view (heap w) (dir w))); [by symmetry|]. apply Ha, dirs_head.
    + apply (HV (view (heap w) d)); [|by apply Ha]. symmetry. apply view_insert_hidden. intros n Hin. by apply Hh.
  - unfold current. cbn [heap dir]. by rewrite Hview.
  - intros n g Hg. destruct (Ht n g Hg) as (Hp & i & Hi & Hf & Hsy). split; [done|]. exists i. cbn [heap dir].
    assert (name ≠ n) by congruence. assert (next w ≠ i) by congruence. by rewrite !lookup_insert_ne.
  - apply lookup_insert_eq.
  - apply lookup_insert_eq.
  - intros d n Hd Hin. apply elem_of_cons in Hd as [->|Hd]; [rewrite Hsame by done; apply Hh; [apply dirs_head|done]|by apply Hh].
  - intros n HTn. destruct (T !! n) as [g|] eqn:Hg; [|done]. destruct (Ht n g Hg) as (Hp & i & Hi & Hf & Hsy).
    rewrite lookup_insert_ne by congruence. rewrite Hi. congruence.
Qed.

(** When it is synced it is a file the program holds. *)
Lemma temp_done v T name id f w : Temp v T name id f w → synced f = true → stored v (<[name := f]> T) w.
Proof.
  intros [(Hi & Hc & Ht) He Hf Hh Hal Hp] Hsy. split; [done|]. split; [done|]. intros n g.
  destruct (decide (name = n)) as [->|]; [rewrite lookup_insert_eq; intros [= <-]; eauto|]. rewrite lookup_insert_ne by done. apply Ht.
Qed.

(** A directory whose files are those of a view. *)
Lemma stored_set_dir v' T w d : inv w → V v' → same (view (heap w) d) v' → holds T (set_dir w d) →
  (∀ n id, d !! n = Some id → ∃ m, dir w !! m = Some id ∧ (plain n = true → plain m = true ∨ ∃ f, heap w !! id = Some f ∧ synced f = true)) →
  stored v' T (set_dir w d).
Proof using HV.
  intros [[Hs He Hn] Ha] Hv Hd Ht Hsync. split; [split; [split|]|split]; try done.
  - intros d' n id Hd' Hin Hid. apply elem_of_cons in Hd' as [->|Hd']; [|by eapply Hs].
    destruct (Hsync n id Hid) as (m & Hm & [Hpm|?]%(λ H, H Hin)); [|done]. by apply (Hs (dir w) m); [apply dirs_head|..].
  - intros d' n id Hd' Hid. apply elem_of_cons in Hd' as [->|Hd']; [|by apply (He d' n)].
    destruct (Hsync n id Hid) as (m & Hm & _). by apply (He (dir w) m); [apply dirs_head|].
  - intros d' Hd'. apply elem_of_cons in Hd' as [->|Hd']; [|by apply Ha]. cbn [heap set_dir dir]. by apply (HV v').
Qed.

(** ** The calls *)

Variable fate : nat → Fate.
Variable random : nat → string.

Lemma stored_tick v T w : stored v T w → stored v T (tick w).
Proof. by intros ([[] ?] & ? & ?). Qed.

Lemma temp_tick v T name id f w : Temp v T name id f w → Temp v T name id f (tick w).
Proof. intros [Hi He Hf Hh Hal Hn]. split; try done. by apply stored_tick. Qed.

Lemma plain_dot s : plain (String "." s) = false.
Proof. unfold plain. pose proof (has_prefix_app "." s) as Hp. change ("." +:+ s) with (String "." s) in Hp. by rewrite Hp. Qed.

Lemma createTemp_triple v T before after :
  triple (stored v T) (createTemp fate random (String "." before) after)
    (λ x, Temp v T x.1 x.2 (mkFile true fileMode true "" false)) (stored v T) (stored v T).
Proof using HV.
  apply triple_call; [apply stored_tick| |by intros].
  intros w Hw. cbv zeta. match goal with |- context [dir w !! ?n] => destruct (dir w !! n) as [i|] eqn:E end; [done|].
  cbn [fst snd]. apply temp_new; try done. apply plain_dot.
Qed.

(** A call that changes the temporary file. *)
Lemma on_file_triple v T name id f (g : File → File) :
  triple (Temp v T name id f) (call fate (λ w, (on_file id g w, Value tt)) unchanged) (λ _, Temp v T name id (g f)) (stored v T) (stored v T).
Proof using HV.
  apply triple_call; [apply temp_tick| |].
  - intros w Hw. unfold on_file. rewrite (temp_file _ _ _ _ _ _ Hw). by eapply temp_set_file.
  - intros p w Hw. split; by eapply temp_stored.
Qed.

Lemma write_triple v T name id f s :
  triple (Temp v T name id f) (write fate id s) (λ _, Temp v T name id (mkFile (regular f) (perm f) (owned f) (data f +:+ s) false))
    (stored v T) (stored v T).
Proof using HV.
  assert (∀ p w, Temp v T name id f w → Temp v T name id (mkFile (regular f) (perm f) (owned f) (data f +:+ p) false) (put id p w)) as Hput.
  { intros p w Hw. unfold put, on_file. rewrite (temp_file _ _ _ _ _ _ Hw). by eapply temp_set_file. }
  apply triple_call; [apply temp_tick|intros w; apply Hput|].
  intros p w Hw%(Hput p). split; by eapply temp_stored.
Qed.

(** A call without an effect on the files. *)
Lemma idle_triple {A} v T (f : World → World * outcome A) Q :
  (∀ w, stored v T w → match f w with (w', Value a) => w' = w ∧ Q a | (w', _) => w' = w end) →
  triple (stored v T) (call fate f unchanged) (λ a w, stored v T w ∧ Q a) (stored v T) (stored v T).
Proof.
  intros Hf. apply triple_call; [apply stored_tick| |done]. intros w Hw. specialize (Hf w Hw).
  destruct (f w) as [w' [a|e|]]; [by destruct Hf as [-> ?]|by subst..].
Qed.

Lemma close_triple v T : triple (stored v T) (close fate) (λ _, stored v T) (stored v T) (stored v T).
Proof. eapply triple_post; [apply (idle_triple v T _ (λ _, True)); by intros|by intros ? ? []|done..]. Qed.

(** A file under a name that is not held, of the view or temporary. *)
Lemma remove_triple v T name : V (upd v name None) → T !! name = None →
  triple (stored v T) (remove fate name) (λ _, stored (upd v name None) T) (stored v T) (stored v T).
Proof using HV.
  intros Hv HT. apply triple_call; [apply stored_tick| |by intros].
  intros w (Hi & Hc & Ht). destruct (dir w !! name) eqn:E; [|done]. apply stored_set_dir; [done..| | |].
  - intros n Hn. unfold view, upd. destruct (String.eqb_spec n name) as [->|Hne]; [by rewrite lookup_delete_eq|].
    rewrite lookup_delete_ne by done. by apply Hc.
  - intros n f Hn. destruct (Ht n f Hn) as (Hp & id & He & Hf). split; [done|]. exists id. cbn [dir set_dir heap].
    rewrite lookup_delete_ne by congruence. done.
  - intros n id Hid. exists n. destruct (decide (name = n)) as [->|]; [by rewrite lookup_delete_eq in Hid|].
    rewrite lookup_delete_ne in Hid by done. auto.
Qed.

Lemma upd_hidden v name x : plain name = false → same (upd v name x) v.
Proof. intros Hp n Hn. unfold upd. destruct (String.eqb_spec n name) as [->|]; [congruence|done]. Qed.

Lemma stored_same v v' T w : same v v' → stored v T w → stored v' T w.
Proof. intros Hv (Hi & Hc & Ht). split; [done|]. split; [|done]. unfold current. by rewrite <- Hv. Qed.

(** A temporary file that is not held any more. *)
Lemma remove_temp_triple v T name : plain name = false → T !! name = None →
  triple (stored v T) (remove fate name) (λ _, stored v T) (stored v T) (stored v T).
Proof using HV.
  intros Hp HT w Hw. pose proof (stored_view _ _ _ Hw) as Hv.
  refine (triple_post _ _ _ _ _ _ _ _ (remove_triple v T name _ HT) _ _ _ w Hw); [by apply (HV _ _ (upd_hidden v name None Hp))| |done|done].
  intros a w'. apply stored_same. by apply upd_hidden.
Qed.

(** A held file becomes a file of the view. *)
Lemma rename_triple v T name f base : T !! name = Some f → plain base = true → V (upd v base (Some f)) →
  triple (stored v T) (rename fate name base) (λ _, stored (upd v base (Some f)) (delete name T)) (stored v T) (stored v T).
Proof using HV.
  intros HT Hb Hv. apply triple_call; [apply stored_tick| |by intros].
  intros w (Hi & Hc & Ht). destruct (Ht name f HT) as (Hp & id & He & Hf & Hsy). rewrite He. apply stored_set_dir; [done..| | |].
  - intros n Hin. unfold view, upd. destruct (String.eqb_spec n base) as [->|Hne]; [rewrite lookup_insert_eq; cbn; done|].
    rewrite lookup_insert_ne, lookup_delete_ne by congruence. by apply Hc.
  - intros n g Hg. apply lookup_delete_Some in Hg as [Hne Hg]. destruct (Ht n g Hg) as (Hpn & i & Hei & Hfi). split; [done|]. exists i.
    cbn [dir set_dir heap]. rewrite lookup_insert_ne, lookup_delete_ne by congruence. done.
  - intros n i. destruct (decide (base = n)) as [->|]; [rewrite lookup_insert_eq; intros [= <-]; exists name; eauto|].
    rewrite lookup_insert_ne by done. destruct (decide (name = n)) as [->|]; [by rewrite lookup_delete_eq|].
    rewrite lookup_delete_ne by done. intros Hn. exists n. auto.
Qed.

(** A file of the view takes the place of another. *)
Lemma rename_plain_triple v T name base : plain name = true → plain base = true → name ≠ base →
  (∀ f, v name = Some f → V (upd (upd v name None) base (Some f))) →
  triple (stored v T) (rename fate name base) (λ _ w, ∃ f, v name = Some f ∧ stored (upd (upd v name None) base (Some f)) T w) (stored v T) (stored v T).
Proof using HV.
  intros Hn Hb Hne Hv. apply triple_call; [apply stored_tick| |by intros].
  intros w (Hi & Hc & Ht). destruct (dir w !! name) as [id|] eqn:E; [|done]. pose proof (Hc name Hn) as Hname. unfold view in Hname.
  rewrite E in Hname. cbn in Hname. destruct (wf_synced w (proj1 Hi) (dir w) name id (dirs_head w) Hn E) as (f & Hf & Hsy).
  rewrite Hf in Hname. exists f. split; [done|]. apply stored_set_dir; [done|by apply Hv| | |].
  - intros n Hin. unfold view, upd. destruct (String.eqb_spec n base) as [->|Hnb]; [rewrite lookup_insert_eq; cbn; done|].
    rewrite lookup_insert_ne by done. destruct (String.eqb_spec n name) as [->|]; [by rewrite lookup_delete_eq|].
    rewrite lookup_delete_ne by done. by apply Hc.
  - intros n g Hg. destruct (Ht n g Hg) as (Hpn & i & Hei & Hfi). split; [done|]. exists i.
    cbn [dir set_dir heap]. rewrite lookup_insert_ne, lookup_delete_ne by congruence. done.
  - intros n i. destruct (decide (base = n)) as [->|]; [rewrite lookup_insert_eq; intros [= <-]; exists name; eauto|].
    rewrite lookup_insert_ne by done. destruct (decide (name = n)) as [->|]; [by rewrite lookup_delete_eq|].
    rewrite lookup_delete_ne by done. intros Hm. exists n. auto.
Qed.

Lemma syncDir_triple v T E : triple (stored v T) (syncDir fate) (λ _, stored v T) E (stored v T).
Proof.
  apply (triple_try _ _ _ (λ _, stored v T) (stored v T)); [|intros []; by apply triple_ret|intros e; by apply triple_ret].
  apply triple_call; [apply stored_tick| |by intros]. intros w ([[Hs He Hn] Ha] & Hc & Ht). split; [split; [split|]|done].
  - intros d n id Hd. apply (Hs d). apply list_elem_of_singleton in Hd as ->. apply list_elem_of_here.
  - intros d n id Hd. apply (He d). apply list_elem_of_singleton in Hd as ->. apply list_elem_of_here.
  - apply Hn.
  - intros d Hd. apply Ha. apply list_elem_of_singleton in Hd as ->. apply list_elem_of_here.
Qed.

(** A step of writing a temporary file, with the file closed when it fails. *)
Lemma orClose_triple v T P Q (m : M unit) : triple P m Q (stored v T) (stored v T) → triple P (orClose fate m) Q (stored v T) (stored v T).
Proof.
  intros Hm. eapply triple_try; [done|intros []; by apply triple_ret|]. intros e.
  apply (triple_try _ _ _ (λ _, stored v T) (stored v T)); [apply close_triple|intros []; by apply triple_throw|intros ?; by apply triple_throw].
Qed.

End Views.

End DiskViews.
