(* ===== verification/StateStore.v ===== *)
(** * The data-plane state store (api/agent/state/state.go)

    What a node keeps on disk between sessions: the Control it belongs to
    (state.json), the last applied configuration (config.pb) and the user set
    (users.pb), on the files of Disk.v. *)

From S2P Require Import Prelude GoStrings Negotiation Users DataPlane Disk.
From Stdlib Require Import Ascii String.

Module StateStore.
Import Users DataPlane Disk.

#[local] Open Scope store_scope.

Section Store.

Variable fate : nat → Fate.
Variable random : nat → string.

Definition writePrivateFile (base : string) (content : string) : M unit :=
  temporary <- createTemp fate random ("." +:+ base +:+ ".tmp-") "" ;;
  let '(name, id) := temporary in
  r <- attempt (orClose fate (chmod fate id fileMode) ;;; orClose fate (write fate id content) ;;; orClose fate (sync fate id) ;;; close fate ;;; rename fate name base) ;;
  match r with
  | Err e => _ <- attempt (remove fate name) ;; throw e
  | Ok _ => syncDir fate
  end.

(** ** Reading a file *)

Inductive readError := NotExist | Unreadable (e : string).

Definition ErrInsecureFile : string := "insecure data-plane state file".
Definition ErrCorrupt : string := "corrupt data-plane state file".

Definition checkPrivate (f : File) : option string :=
  if negb (regular f) then Some ErrInsecureFile
  else if negb (Z.land (perm f) 63 =? 0) then Some ErrInsecureFile (* 0o077 *)
  else if negb (owned f) then Some ErrInsecureFile
  else None.

(** Open, stat, check and read; a failing call is an error of its own. *)
Definition readPrivateFile (name : string) (limit : option Z) : M (string + readError) :=
  opened <- attempt (call fate (λ w, (w, Value tt)) unchanged) ;;
  λ w, match opened, f ← dir w !! name; heap w !! f with
       | Err e, _ => (w, Value (inr (Unreadable e)))
       | Ok _, None => (w, Value (inr NotExist))
       | Ok _, Some f =>
         (info <- attempt (call fate (λ w, (w, Value tt)) unchanged) ;;
          match info with
          | Err e => ret (inr (Unreadable e))
          | Ok _ =>
            match checkPrivate f with
            | Some e => ret (inr (Unreadable e))
            | None =>
              if match limit with Some n => n <? len (data f) | None => false end then ret (inr (Unreadable ErrCorrupt))
              else read <- attempt (call fate (λ w, (w, Value tt)) unchanged) ;;
                   match read with
                   | Err e => ret (inr (Unreadable e))
                   | Ok _ => ret (inl (data f))
                   end
            end
          end) w
       end.

End Store.

(** ** The store *)

Record Session := mkSession { Control : string; Negotiated : list string; At : time }.

Definition noSession : Session := mkSession "" [] 0.

Definition stateFile : string := "state.json".
Definition configFile : string := "config.pb".
Definition usersFile : string := "users.pb".

Definition maxSessionFileBytes : Z := 2 ^ 20.
Definition maxConfigFileBytes : Z := 8 * 2 ^ 20.
Definition maxUsersFileBytes : Z := 128 * 2 ^ 20.

(** JSON and protobuf: [None] is an error. *)
Class StateCodec (NodeUser : Type) := {
  encodeSession : Session → option string;
  decodeSession : string → option Session;
  encodeConfig : ConfigSnapshot → option string;
  decodeConfig : string → option ConfigSnapshot;
  encodeUsers : @UserDelta NodeUser → option string;
  decodeUsers : string → option (@UserDelta NodeUser)
}.

(** What is decoded is what was encoded. *)
Class StateCodecLaws (NodeUser : Type) `{StateCodec NodeUser} := {
  session_roundtrip : ∀ s b, encodeSession s = Some b → decodeSession b = Some s;
  config_roundtrip : ∀ s b, encodeConfig s = Some b → decodeConfig b = Some s;
  users_roundtrip : ∀ d b, encodeUsers d = Some b → decodeUsers b = Some d
}.

Section Files.
Context {NodeUser : Type} `{StateCodec NodeUser}.
Variable fate : nat → Fate.
Variable random : nat → string.
Variable sha256_hex : string → string.

(** [LoadX]: a missing file is no value. *)
Definition loadFile {A} (name : string) (limit : Z) (decode : string → result A) : M (option A) :=
  r <- readPrivateFile fate name (Some limit) ;;
  match r with
  | inr NotExist => ret None
  | inr (Unreadable e) => throw e
  | inl bytes => a <- lift (decode bytes) ;; ret (Some a)
  end.

Definition orCorrupt {A} (x : option A) : result A := match x with Some a => Ok a | None => Err ErrCorrupt end.

Definition LoadSession : M Session :=
  s <- loadFile stateFile maxSessionFileBytes (λ b, orCorrupt (decodeSession b)) ;; ret (default noSession s).

Definition saveFile (name : string) (encoded : option string) : M unit :=
  match encoded with None => throw "encode" | Some b => writePrivateFile fate random name b end.

Definition SaveSession (s : Session) : M unit := saveFile stateFile (encodeSession s).

(** A missing file is removed already. *)
Definition discard (name : string) : M unit :=
  r <- attempt (remove fate name) ;;
  match r with Ok _ => ret tt | Err e => if String.eqb e ErrNotExist then ret tt else throw e end.

Definition DiscardUsers : M unit := discard usersFile.
Definition DiscardConfig : M unit := discard configFile.

(** [os.Lstat] of a name: whether it is known to be there. *)
Definition lstat (name : string) : M bool :=
  r <- attempt (call fate (λ w, (w, Value (bool_decide (is_Some (dir w !! name))))) unchanged) ;;
  ret (match r with Ok b => b | Err _ => false end).

Definition discardDelivered : M bool :=
  config <- lstat configFile ;;
  users <- lstat usersFile ;;
  r1 <- attempt DiscardConfig ;;
  r2 <- attempt DiscardUsers ;;
  match r1, r2 with
  | Ok _, Ok _ => ret (config || users)
  | Err e, _ => throw e
  | _, Err e => throw e
  end.

Definition BindControl (control : string) : M bool :=
  let control := trim_space control in
  session <- attempt LoadSession ;;
  if match session with Ok s => String.eqb (Control s) control | Err _ => false end then ret false
  else
    discarded <- discardDelivered ;;
    (if is_ok session then ret tt else discard stateFile) ;;;
    SaveSession (mkSession control [] 0) ;;;
    ret discarded.

Definition wholeSet (d : @UserDelta NodeUser) : bool := Full d && LastPage d && Nat.eqb (List.length (RemovedUserIds d)) 0.

Definition LoadUsers : M (option (@UserDelta NodeUser)) :=
  loadFile usersFile maxUsersFileBytes (λ b,
    match decodeUsers b with
    | None => Err ErrCorrupt
    | Some d => if wholeSet d then Ok d else Err ErrCorrupt
    end).

Definition SaveUsers (cursor : Z) (users : list NodeUser) : M unit :=
  saveFile usersFile (encodeUsers (mkDelta cursor true true users [])).

Definition LoadConfig : M (option ConfigSnapshot) :=
  loadFile configFile maxConfigFileBytes (λ b,
    match decodeConfig b with
    | None => Err ErrCorrupt
    | Some s => if (ConfigRevision s =? 0) || negb (HashMatches sha256_hex s) then Err ErrCorrupt else Ok s
    end).

Definition SaveConfig (s : option ConfigSnapshot) : M unit :=
  match s with
  | None => throw "data-plane state: no configuration snapshot to save"
  | Some s => if ConfigRevision s =? 0 then throw "data-plane state: no configuration snapshot to save"
              else saveFile configFile (encodeConfig s)
  end.

(** ** Start of the data plane (dataplane.go, [load]) *)

(** What the data plane starts with: the capabilities of the last session, the
    stored configuration and users. *)
Record Loaded := mkLoaded { lCapabilities : list string; lConfig : option ConfigSnapshot; lUsers : option (@UserSet NodeUser) }.

Variable acceptsFormat : string → bool.

Definition loadStoredConfig : M (option ConfigSnapshot) :=
  r <- attempt LoadConfig ;;
  match r with
  | Err _ => _ <- attempt DiscardConfig ;; ret None
  | Ok (Some s) => if negb (acceptsFormat (Format s)) then _ <- attempt DiscardConfig ;; ret None else ret (Some s)
  | Ok None => ret None
  end.

Definition loadStoredUsers : M (option (@UserSet NodeUser)) :=
  r <- attempt LoadUsers ;;
  match r with
  | Err _ => _ <- attempt DiscardUsers ;; ret None
  | Ok (Some d) => ret (Some (mkUserSet (Cursor d) (Upserts d)))
  | Ok None => ret None
  end.

(** [bound] is what [BindControl] answered; it is only logged. *)
Definition load (control : string) (config users : bool) : M Loaded :=
  bound <- attempt (BindControl control) ;;
  session <- attempt LoadSession ;;
  let capabilities := match session with
                      | Ok s => if String.eqb (Control s) control then Negotiated s else []
                      | Err _ => []
                      end in
  c <- (if config then loadStoredConfig else ret None) ;;
  u <- (if users then loadStoredUsers else ret None) ;;
  ret (mkLoaded capabilities c u).

End Files.

End StateStore.
