(* ===== verification/StateBinding.v ===== *)
(** * The data-plane state store: what survives a crash

    A file of the store is always a complete version of it, whatever calls fail
    and wherever the Agent or the machine stops, and what a start reads is what
    the same Control delivered. *)

From S2P Require Import Prelude GoStrings Negotiation Users DataPlane Disk StateStore.
From Stdlib Require Import Ascii String.

Module StateBinding.
Import Users DataPlane Disk DiskViews StateStore.

(** ** A file is written and read as a whole *)

Definition privateFile (content : string) : File := mkFile true fileMode true content true.

Section Views.
Context (V : View → Prop) `{HV : !Proper (same ==> iff) V}.
Variable fate : nat → Fate.
Variable random : nat → string.

Abbreviation Inv := (inv V).
Abbreviation Stored v := (stored V v ∅).

Lemma fill_triple v name id base content : plain base = true → V (upd v base (Some (privateFile content))) →
  triple (Temp V v ∅ name id (mkFile true fileMode true "" false))
    (bind (orClose fate (chmod fate id fileMode)) (λ _, bind (orClose fate (write fate id content)) (λ _,
     bind (orClose fate (sync fate id)) (λ _, bind (close fate) (λ _, rename fate name base)))))
    (λ _, Stored (upd v base (Some (privateFile content)))) (Stored v) (Stored v).
Proof using HV.
  intros Hb Hv. set (T := {[ name := privateFile content ]} : gmap string File).
  assert (∀ w, stored V v T w → Stored v w) as Hforget by (intros w; apply stored_forget, map_empty_subseteq).
  eapply triple_bind; [apply orClose_triple, on_file_triple; done|]. intros []; cbv beta.
  eapply triple_bind; [apply orClose_triple, write_triple; done|]. intros []; cbv beta.
  eapply triple_bind; [apply orClose_triple, on_file_triple; done|]. intros []; cbn.
  apply (triple_bind _ _ _ (λ _, stored V v T)).
  - eapply triple_weaken; [apply (close_triple V fate v T)|intros w Hw; by eapply temp_done|done|done|done].
  - intros []. eapply triple_post; [apply (rename_triple V fate v T name (privateFile content) base); [apply lookup_singleton_eq|done|done]| |done|done].
    intros [] w. apply stored_forget, map_empty_subseteq.
Qed.

(** A file is replaced or kept; the rest of the store is as it was. *)
Lemma writePrivateFile_triple v base content : plain base = true → V (upd v base (Some (privateFile content))) →
  triple (Stored v) (writePrivateFile fate random base content)
    (λ _, Stored (upd v base (Some (privateFile content)))) (Stored v) Inv.
Proof using HV.
  intros Hb Hv. pose proof (stored_inv V) as Hinv.
  eapply triple_bind; [eapply triple_post; [apply createTemp_triple; done|by intros ? ? X; apply X|done|apply Hinv]|].
  intros [name id]. cbn [fst snd].
  intros w Hw. pose proof (temp_plain _ _ _ _ _ _ _ Hw) as Hp. revert w Hw.
  eapply triple_try; [eapply triple_post; [by apply fill_triple|by intros ? ? X; apply X|by intros ? X; apply X|apply Hinv]| |].
  - intros []. eapply triple_post; [apply syncDir_triple|done..|apply Hinv].
  - intros e. eapply triple_try; [eapply triple_post; [by apply (remove_temp_triple V fate v ∅ name)|by intros ? ? X; apply X|by intros ? X; apply X|apply Hinv]| |].
    + intros []. by apply triple_throw.
    + intros e'. by apply triple_throw.
Qed.

Lemma readPrivateFile_triple v name limit : plain name = true →
  triple (Stored v) (readPrivateFile fate name limit)
    (λ r w, Stored v w ∧ match r with inl b => ∃ f, v name = Some f ∧ data f = b | inr NotExist => v name = None | _ => True end)
    (Stored v) (Stored v).
Proof.
  intros Hn. pose proof (close_triple V fate v ∅) as Hidle. unfold close in Hidle.
  eapply triple_try; [apply Hidle| |intros e w Hw; by split].
  intros [] w Hw. pose proof (proj1 (proj2 Hw) name Hn) as Hv. unfold view in Hv.
  destruct (dir w !! name ≫= _) as [f|] eqn:E; [|by split]. revert w Hw Hv E.
  match goal with |- ∀ w, _ → _ → _ → match ?m w with _ => _ end =>
    enough (v name = Some f → triple (Stored v) m
      (λ r w, Stored v w ∧ match r with inl b => ∃ f, v name = Some f ∧ data f = b | inr NotExist => v name = None | _ => True end)
      (Stored v) (Stored v)) as Ht by (intros w Hw Hv _; apply Ht; [by rewrite <- Hv|done]) end.
  intros Hv. eapply triple_try; [apply Hidle| |intros e; by apply triple_ret].
  intros []. destruct (checkPrivate f); [by apply triple_ret|]. destruct (match limit with Some n => n <? len (data f) | None => false end); [by apply triple_ret|].
  eapply triple_try; [apply Hidle| |intros e; by apply triple_ret].
  intros []. apply triple_ret. intros w Hw. split; [done|]. by exists f.
Qed.

Lemma loadFile_triple {A} v name limit (decode : string → result A) : plain name = true →
  triple (Stored v) (loadFile fate name limit decode)
    (λ r w, Stored v w ∧ match r with Some a => ∃ f, v name = Some f ∧ decode (data f) = Ok a | None => v name = None end)
    (Stored v) (Stored v).
Proof.
  intros Hn. eapply triple_bind; [by apply readPrivateFile_triple|]. intros [b|[|e]]; cbv beta iota.
  - destruct (decode b) as [a|e] eqn:E; cbn [lift].
    + intros w [Hw (f & Hf & <-)]. cbn. split; [done|]. by exists f.
    + apply triple_throw. by intros w [].
  - apply triple_ret. done.
  - apply triple_throw. by intros w [].
Qed.

Lemma discard_triple v name : V (upd v name None) → plain name = true →
  triple (Stored v) (discard fate name) (λ _, Stored (upd v name None)) (Stored v) (Stored v).
Proof using HV.
  intros Hv Hin w Hw0. pose proof (stored_tick _ _ _ _ Hw0) as Hw. pose proof (remove_triple V fate v ∅ name Hv (lookup_empty _) w Hw0) as Hr.
  unfold discard, bind, attempt, remove, call in *. destruct (fate (calls w)) eqn:Ef; cbn [unchanged]; [|done..].
  cbn [dir tick] in *. destruct (dir w !! name) eqn:E; [done|].
  cbn. destruct Hw as (Hi & Hc & Ht). split; [done|]. split; [|done]. intros n Hn. rewrite (Hc n Hn). unfold upd.
  destruct (String.eqb_spec n name) as [->|]; [|done]. rewrite <- (Hc name Hn). unfold view. cbn [dir tick]. by rewrite E.
Qed.

End Views.

(** ** Whose state it is *)

Section Binding.
Context {NodeUser : Type} `{StateCodecLaws NodeUser}.

(** What Control delivers to be kept. *)
Inductive Delivered := DConfig (s : ConfigSnapshot) | DUsers (cursor : Z) (users : list NodeUser).

Definition fileOf (x : Delivered) : string := match x with DConfig _ => configFile | DUsers _ _ => usersFile end.

Definition bytesOf (x : Delivered) : option string :=
  match x with DConfig s => encodeConfig s | DUsers cursor users => encodeUsers (mkDelta cursor true true users []) end.

Definition sessionOf (v : View) : option Session := f ← v stateFile; decodeSession (data f).

Section Deliveries.
(** Everything that was delivered, with the Control it came from. *)
Variable D : list (string * Delivered).

(** The delivered files are those of [c]. *)
Definition Mine (c : string) (v : View) : Prop :=
  ∀ n f, n = configFile ∨ n = usersFile → v n = Some f → ∃ x, (c, x) ∈ D ∧ fileOf x = n ∧ bytesOf x = Some (data f).

(** The files are those of the Control that state.json names. *)
Definition attributed (v : View) : Prop := ∀ s, sessionOf v = Some s → Mine (Control s) v.

(** The store is bound to [c]. *)
Definition Bound (c : string) (v : View) : Prop := (∀ s, sessionOf v = Some s → Control s = c) ∧ Mine c v.

Lemma in_names : plain stateFile = true ∧ plain configFile = true ∧ plain usersFile = true.
Proof. done. Qed.

#[export] Instance attributed_proper : Proper (same ==> iff) attributed.
Proof.
  assert (∀ v v', same v v' → attributed v → attributed v') as Hone.
  { intros v v' Hv Ha s Hs n f Hn Hf. destruct in_names as (H1 & H2 & H3). unfold sessionOf in *.
    apply (Ha s); [unfold sessionOf; by rewrite (Hv stateFile H1)|done|]. rewrite (Hv n); [done|]. by destruct Hn as [-> | ->]. }
  intros v v' Hv. split; [by apply Hone|]. apply Hone. by symmetry.
Qed.

Lemma bound_attributed c v : Bound c v → attributed v.
Proof. intros [Ho Hm] s ->%Ho. done. Qed.

Lemma mine_remove c v name : Mine c v → Mine c (upd v name None).
Proof. intros Hm n f Hn. unfold upd. destruct (String.eqb n name); [done|]. by apply Hm. Qed.

Lemma session_other v name x : name ≠ stateFile → sessionOf (upd v name x) = sessionOf v.
Proof. intros Hn. unfold sessionOf, upd. destruct (String.eqb_spec stateFile name); [congruence|done]. Qed.

Lemma attributed_remove v name : attributed v → attributed (upd v name None).
Proof.
  intros Ha s Hs. destruct (decide (name = stateFile)) as [->|Hn].
  - unfold sessionOf, upd in Hs. by rewrite String.eqb_refl in Hs.
  - rewrite session_other in Hs by done. by apply mine_remove, Ha.
Qed.

Lemma bound_remove c v name : Bound c v → Bound c (upd v name None).
Proof.
  intros [Ho Hm]. split; [|by apply mine_remove]. intros s. destruct (decide (name = stateFile)) as [->|Hn].
  - unfold sessionOf, upd. by rewrite String.eqb_refl.
  - rewrite session_other by done. apply Ho.
Qed.

Lemma bound_save c v x b : Bound c v → (c, x) ∈ D → bytesOf x = Some b → Bound c (upd v (fileOf x) (Some (privateFile b))).
Proof.
  intros [Ho Hm] Hx Hb. split.
  - intros s. rewrite session_other; [apply Ho|]. by destruct x.
  - intros n f Hn. unfold upd. destruct (String.eqb_spec n (fileOf x)) as [->|]; [|by apply Hm].
    intros [= <-]. by exists x.
Qed.

Lemma bound_session c v s b : Mine c v → Control s = c → encodeSession s = Some b → Bound c (upd v stateFile (Some (privateFile b))).
Proof using All.
  intros Hm Hc Hb. split.
  - intros s'. unfold sessionOf, upd. rewrite String.eqb_refl. cbn. rewrite (session_roundtrip s b Hb). by intros [= <-].
  - intros n f Hn. unfold upd. destruct (String.eqb_spec n stateFile) as [->|]; [by destruct Hn|]. by apply Hm.
Qed.

(** ** Binding to a Control *)

Variable fate : nat → Fate.
Variable random : nat → string.

Abbreviation Inv := (inv attributed).
Abbreviation Stored v := (stored attributed v ∅).

Definition bound (c : string) (w : World) : Prop := ∃ v, Stored v w ∧ Bound c v.

Lemma bound_intro c v w : Stored v w → Bound c v → bound c w.
Proof. intros Hw Hb. by exists v. Qed.

Lemma stored_attributed v w : Stored v w → attributed v.
Proof. apply (stored_view attributed). Qed.

Lemma LoadSession_triple v :
  triple (Stored v) (LoadSession fate)
    (λ s w, Stored v w ∧ (sessionOf v = Some s ∨ s = noSession)) (Stored v) (Stored v).
Proof.
  eapply triple_bind; [apply loadFile_triple, in_names|]. intros r. apply triple_ret. intros w [Hw Hr]. split; [done|].
  destruct r as [s|]; [left|by right]. destruct Hr as (f & Hf & Hd). unfold sessionOf. rewrite Hf. cbn.
  destruct (decodeSession (data f)); [|done]. cbn in Hd. by injection Hd as ->.
Qed.

Lemma lstat_triple v name : triple (Stored v) (lstat fate name) (λ _, Stored v) (Stored v) (Stored v).
Proof.
  apply (triple_try _ _ _ (λ _, Stored v) (Stored v)); [|intros a; by apply triple_ret|intros e; by apply triple_ret].
  eapply triple_post; [apply (idle_triple attributed fate v ∅ _ (λ _, True)); by intros|by intros ? ? []|done..].
Qed.

Definition cleared (v : View) : View := upd (upd v configFile None) usersFile None.

Lemma discardDelivered_triple v : triple (Stored v) (discardDelivered fate) (λ _, Stored (cleared v)) Inv Inv.
Proof.
  assert (triple (Stored v) (lstat fate configFile) (λ _, Stored v) Inv Inv ∧ triple (Stored v) (lstat fate usersFile) (λ _, Stored v) Inv Inv) as [Hl1 Hl2]
    by (split; (eapply triple_post; [apply lstat_triple|done|apply (stored_inv attributed)..])).
  destruct in_names as (_ & Hcn & Hun).
  assert (∀ v name, plain name = true → triple (Stored v) (discard fate name) (λ _, Stored (upd v name None)) (Stored v) Inv) as Hd.
  { intros v' name Hn w Hw. pose proof (stored_attributed _ _ Hw) as Ha.
    refine (triple_post _ _ _ _ _ _ _ _ (discard_triple attributed fate v' name _ Hn) _ _ (stored_inv attributed v' ∅) w Hw); [by apply attributed_remove|done..]. }
  eapply triple_bind; [apply Hl1|]. intros cfg. eapply triple_bind; [apply Hl2|]. intros us. cbv beta.
  eapply triple_try; [by apply Hd| |].
  - intros []. cbv beta. eapply triple_try; [by apply Hd| |]; [intros []; by apply triple_ret|intros e; apply triple_throw, (stored_inv attributed)].
  - intros e. eapply triple_try; [by apply Hd| |]; [intros []|intros e']; apply triple_throw, (stored_inv attributed).
Qed.

Lemma cleared_mine c v : Mine c (cleared v).
Proof. intros n f [-> | ->]; [unfold cleared, upd; by destruct (String.eqb configFile usersFile)|unfold cleared, upd; by rewrite String.eqb_refl]. Qed.

(** Writing a file that leaves the store bound. *)
Lemma saveFile_bound c v name e : plain name = true → (∀ b, e = Some b → Bound c (upd v name (Some (privateFile b)))) →
  triple (Stored v) (saveFile fate random name e) (λ _, bound c) (Stored v) Inv.
Proof.
  intros Hn Hb. destruct e as [b|]; [|by apply triple_throw]. specialize (Hb b eq_refl).
  eapply triple_post; [apply (writePrivateFile_triple attributed); [done|by eapply bound_attributed]| |done|done].
  intros a w' Hw'. exact (bound_intro _ _ _ Hw' ltac:(eassumption)).
Qed.

Definition target (c : string) : Prop := trim_space c = c ∧ c ≠ "".

Lemma BindControl_triple c : target c → triple Inv (BindControl fate random c) (λ _, bound c) Inv Inv.
Proof using All.
  intros [Ht Hne] w Hw.
  pose proof (stored_start attributed w Hw) as Hs. revert Hs. generalize (view (heap w) (dir w)) as v. intros v. revert w Hw.
  enough (triple (Stored v) (BindControl fate random c) (λ _, bound c) Inv Inv) as Hb by (intros w _; apply Hb).
  unfold BindControl. rewrite Ht. cbv zeta.
  assert (∀ s, triple (Stored v) (bind (discardDelivered fate) (λ discarded,
    bind (if is_ok (A:=Session) s then ret tt else discard fate stateFile) (λ _, bind (SaveSession fate random (mkSession c [] 0)) (λ _, ret discarded))))
    (λ _, bound c) Inv Inv) as Hfresh.
  { intros s. eapply triple_bind; [apply discardDelivered_triple|]. intros discarded. cbv beta.
    eapply (triple_bind _ _ _ (λ _ w, ∃ v', Stored v' w ∧ Mine c v')).
    - destruct (is_ok s); [apply triple_ret; intros w Hw; exists (cleared v); split; [done|apply cleared_mine]|].
      intros w Hw. pose proof (stored_attributed _ _ Hw) as Ha. destruct in_names as (Hn & _).
      refine (triple_post _ _ _ _ _ _ _ _ (discard_triple attributed fate (cleared v) stateFile _ Hn) _ (stored_inv attributed _ _) (stored_inv attributed _ _) w Hw).
      + by apply attributed_remove.
      + intros [] w' Hw'. eexists. split; [done|]. by apply mine_remove, cleared_mine.
    - intros [] w (v' & Hw & Hm). revert w Hw.
      apply (triple_bind _ _ _ (λ _, bound c)); [|intros []; by apply triple_ret].
      eapply triple_post; [apply (saveFile_bound c); [done|]|done|apply (stored_inv attributed)|done].
      intros b Hb. by apply (bound_session c v' (mkSession c [] 0)). }
  eapply triple_try; [eapply triple_post; [apply LoadSession_triple|by intros ? ? X; apply X|by intros ? X; apply X|apply (stored_inv attributed)]| |].
  - intros s. cbv beta iota. destruct (String.eqb_spec (Control s) c) as [Hc|Hc].
    + apply triple_ret. intros w [Hw [Hses| ->]]; [|done]. exists v. split; [done|]. split; [intros s' Hs'; congruence|].
      rewrite <- Hc. by apply (stored_attributed _ _ Hw).
    + intros w [Hw _]. by apply (Hfresh (Ok s) w Hw).
  - intros e. cbv beta iota. by apply (Hfresh (Err e)).
Qed.

(** ** The operations of a bound data plane *)

Inductive storeOp :=
  | OpSession (negotiated : list string) (at_ : time)
  | OpConfig (s : ConfigSnapshot)
  | OpUsers (cursor : Z) (users : list NodeUser)
  | OpDiscardConfig
  | OpDiscardUsers.

Definition runOp (c : string) (op : storeOp) : M unit :=
  match op with
  | OpSession negotiated at_ => SaveSession fate random (mkSession c negotiated at_)
  | OpConfig s => SaveConfig fate random (Some s)
  | OpUsers cursor users => SaveUsers fate random cursor users
  | OpDiscardConfig => DiscardConfig fate
  | OpDiscardUsers => DiscardUsers fate
  end.

(** Their errors are logged. *)
Fixpoint runOps (c : string) (ops : list storeOp) : M unit :=
  match ops with [] => ret tt | op :: ops => bind (attempt (runOp c op)) (λ _, runOps c ops) end.

Definition delivers (op : storeOp) : list Delivered :=
  match op with OpConfig s => [DConfig s] | OpUsers cursor users => [DUsers cursor users] | _ => [] end.

Definition deliveries (c : string) (ops : list storeOp) : list (string * Delivered) := (λ x, (c, x)) <$> (ops ≫= delivers).

Lemma runOp_bound c op : deliveries c [op] ⊆ D → triple (bound c) (runOp c op) (λ _, bound c) (bound c) Inv.
Proof using All.
  intros HD w (v & Hw & Hb). revert w Hw.
  enough (triple (Stored v) (runOp c op) (λ _, bound c) (Stored v) Inv) as Ht.
  { intros w Hw. specialize (Ht w Hw). destruct (runOp c op w) as [w' [a|e|]]; [done|by exists v|done]. }
  assert (∀ x, x ∈ delivers op → (c, x) ∈ D) as HD'.
  { intros x Hx. apply HD. unfold deliveries. cbn. rewrite app_nil_r. apply list_elem_of_fmap. eauto. }
  assert (∀ name, plain name = true → triple (Stored v) (discard fate name) (λ _, bound c) (Stored v) Inv) as Hdis.
  { intros name Hn w Hw. pose proof (bound_remove _ _ name Hb) as Hb'.
    refine (triple_post _ _ _ _ _ _ _ _ (discard_triple attributed fate v name _ Hn) _ _ (stored_inv attributed v ∅) w Hw); [by eapply bound_attributed|intros ? ? Hw'; exact (bound_intro _ _ _ Hw' ltac:(eassumption))|done]. }
  destruct op as [negotiated at_|s|cursor users| |]; cbn [runOp].
  - apply saveFile_bound; [done|]. intros b Hb'. by apply (bound_session c v (mkSession c negotiated at_)); [apply Hb|..].
  - unfold SaveConfig. destruct (ConfigRevision s =? 0); [by apply triple_throw|]. apply saveFile_bound; [done|]. intros b Hb'.
    apply (bound_save c v (DConfig s)); [done|apply HD'; set_solver|done].
  - apply saveFile_bound; [done|]. intros b Hb'. apply (bound_save c v (DUsers cursor users)); [done|apply HD'; set_solver|done].
  - apply Hdis, in_names.
  - apply Hdis, in_names.
Qed.

Lemma bound_inv c w : bound c w → Inv w.
Proof. intros (v & Hw & _). by eapply (stored_inv attributed). Qed.

Lemma runOps_bound c ops : deliveries c ops ⊆ D → triple (bound c) (runOps c ops) (λ _, bound c) (bound c) Inv.
Proof using All.
  induction ops as [|op ops IH]; intros HD; [by apply triple_ret|]. cbn [runOps].
  assert (deliveries c [op] ⊆ D ∧ deliveries c ops ⊆ D) as [H1 H2].
  { unfold deliveries in *. rewrite bind_cons, fmap_app in HD. cbn. rewrite app_nil_r. set_solver. }
  eapply triple_try; [by apply runOp_bound| |]; [intros []|intros e]; by apply IH.
Qed.

(** ** What a start reads *)

Variable sha256_hex : string → string.
Variable acceptsFormat : string → bool.

Lemma discard_bound c name : plain name = true → triple (bound c) (discard fate name) (λ _, bound c) (bound c) Inv.
Proof.
  intros Hn w (v & Hw & Hb). pose proof (bound_remove _ _ name Hb) as Hb'.
  refine (triple_post _ _ _ _ _ _ _ _ (discard_triple attributed fate v name _ Hn) _ _ (stored_inv attributed v ∅) w Hw);
    [by eapply bound_attributed|intros ? ? Hw'; exact (bound_intro _ _ _ Hw' ltac:(eassumption))|intros ? Hw'; exact (bound_intro _ _ _ Hw' ltac:(eassumption))].
Qed.

(** A file of a bound store decodes to what was delivered. *)
Lemma loadFile_bound {A} c name limit (decode : string → result A) (P : A → Prop) :
  name = configFile ∨ name = usersFile →
  (∀ x b a, (c, x) ∈ D → fileOf x = name → bytesOf x = Some b → decode b = Ok a → P a) →
  triple (bound c) (loadFile fate name limit decode) (λ r w, bound c w ∧ ∀ a, r = Some a → P a) (bound c) Inv.
Proof.
  intros Hn HP w (v & Hw & Hb). assert (plain name = true) as Hin by (destruct in_names as (? & ? & ?); by destruct Hn as [-> | ->]).
  refine (triple_post _ _ _ _ _ _ _ _ (loadFile_triple attributed fate v name limit decode Hin) _ _ (stored_inv attributed v ∅) w Hw);
    [|intros ? Hw'; exact (bound_intro _ _ _ Hw' ltac:(eassumption))].
  intros r w' [Hw' Hr]. split; [by exists v|]. intros a ->. destruct Hr as (f & Hf & Hd).
  destruct (proj2 Hb name f Hn Hf) as (x & Hx & Hfile & Hbytes). by apply (HP x (data f)).
Qed.

Lemma loadStoredConfig_bound c :
  triple (bound c) (loadStoredConfig fate sha256_hex acceptsFormat) (λ r w, bound c w ∧ ∀ s, r = Some s → (c, DConfig s) ∈ D) Inv Inv.
Proof using All.
  assert (triple (bound c) (bind (attempt (DiscardConfig fate)) (λ _, ret (None (A:=ConfigSnapshot))))
    (λ r w, bound c w ∧ ∀ s, r = Some s → (c, DConfig s) ∈ D) Inv Inv) as Hdrop.
  { eapply triple_try; [apply discard_bound, in_names|intros []|intros e]; by apply triple_ret. }
  eapply triple_try; [apply (loadFile_bound c configFile _ _ (λ s, (c, DConfig s) ∈ D)); [by left|]| |].
  - intros x b s Hx Hfile Hb Hd. destruct x as [s'|]; [|done]. cbn in Hb. rewrite (config_roundtrip s' b Hb) in Hd.
    destruct (_ || _); [done|]. by injection Hd as <-.
  - intros [s|]; [|apply triple_ret; by intros w [Hw _]]. destruct (negb (acceptsFormat (Format s))).
    + intros w [Hw _]. by apply Hdrop.
    + apply triple_ret. intros w [Hw Hs]. split; [done|]. intros s' [= <-]. by apply Hs.
  - intros e. apply Hdrop.
Qed.

Lemma loadStoredUsers_bound c :
  triple (bound c) (loadStoredUsers fate) (λ r w, bound c w ∧ ∀ u, r = Some u → (c, DUsers (setCursor u) (setUsers u)) ∈ D) Inv Inv.
Proof using All.
  eapply triple_try; [apply (loadFile_bound c usersFile _ _ (λ d, (c, DUsers (Cursor d) (Upserts d)) ∈ D)); [by right|]| |].
  - intros x b d Hx Hfile Hb Hd. destruct x as [|cursor us]; [done|]. cbn in Hb. rewrite (users_roundtrip _ b Hb) in Hd.
    cbn in Hd. by injection Hd as <-.
  - intros [d|]; apply triple_ret; intros w [Hw Hd]; (split; [done|]); [|done]. intros u [= <-]. by apply Hd.
  - intros e. eapply triple_try; [apply discard_bound, in_names|intros []|intros e']; by apply triple_ret.
Qed.

(** The part of [load] after the binding. *)
Lemma load_bound c w w' b (config users : bool) : BindControl fate random c w = (w', Value b) → bound c w' →
  match load fate random sha256_hex acceptsFormat c config users w with
  | (_, Value l) => (∀ s, lConfig l = Some s → (c, DConfig s) ∈ D) ∧ (∀ u, lUsers l = Some u → (c, DUsers (setCursor u) (setUsers u)) ∈ D)
  | (_, _) => True
  end.
Proof using All.
  intros Hb Hw. unfold load, bind at 1, attempt at 1. rewrite Hb. cbv iota beta. revert w' Hw Hb. 
  match goal with |- ∀ w', _ → _ → match ?m w' with _ => _ end =>
    enough (triple (bound c) m (λ l _, (∀ s, lConfig l = Some s → (c, DConfig s) ∈ D) ∧ (∀ u, lUsers l = Some u → (c, DUsers (setCursor u) (setUsers u)) ∈ D)) (λ _, True) (λ _, True)) as Ht;
    [intros w' Hw _; specialize (Ht w' Hw); by destruct (m w') as [? []]|] end.
  apply (triple_try _ _ _ (λ _, bound c) (bound c)).
  { intros w1 (v & Hw & Hbd). pose proof (LoadSession_triple v w1 Hw) as Ht. destruct (LoadSession fate w1) as [w2 [s|e|]]; [exists v; by split; [apply Ht|]|by exists v|done]. }
  all: intros s; cbv zeta; eapply (triple_bind _ _ _ (λ r w, bound c w ∧ ∀ s, r = Some s → (c, DConfig s) ∈ D));
    [destruct config; [eapply triple_post; [apply loadStoredConfig_bound|done..]|apply triple_ret; by intros]|];
    intros cfg w2 [Hw2 Hc]; revert w2 Hw2;
    eapply (triple_bind _ _ _ (λ r w, bound c w ∧ ∀ u, r = Some u → (c, DUsers (setCursor u) (setUsers u)) ∈ D));
    [destruct users; [eapply triple_post; [apply loadStoredUsers_bound|done..]|apply triple_ret; by intros]|];
    intros us; apply triple_ret; intros w2 [_ Hu]; by split.
Qed.

End Deliveries.

Variable fate : nat → Fate.
Variable random : nat → string.

(** The disk after any number of starts of the Agent, each bound to some
    Control and stopped somewhere, with everything that was delivered. *)
Inductive history : list (string * Delivered) → World → Prop :=
  | history_empty w : wf w → (∀ n, plain n = true → dir w !! n = None) → older w = [] → history [] w
  | history_run D w c b ops w1 w2 o w3 : history D w → target c →
      BindControl fate random c w = (w1, Value b) → runOps fate random c ops w1 = (w2, o) → survives w2 w3 →
      history (D ++ deliveries c ops) w3
  | history_unbound D w c w1 o w2 : history D w → target c →
      BindControl fate random c w = (w1, o) → (∀ b, o ≠ Value b) → survives w1 w2 → history D w2.

Lemma attributed_mono D D' v : D ⊆ D' → attributed D v → attributed D' v.
Proof. intros HD Ha s Hs n f Hn Hf. destruct (Ha s Hs n f Hn Hf) as (x & Hx & ?). exists x. by split; [apply HD|]. Qed.

Lemma inv_mono D D' w : D ⊆ D' → inv (attributed D) w → inv (attributed D') w.
Proof. intros HD [Hwf Ha]. split; [done|]. intros d Hd. by apply (attributed_mono D), Ha. Qed.

Lemma history_inv D w : history D w → inv (attributed D) w.
Proof using All.
  induction 1 as [w Hwf Hno Hold|D w c b ops w1 w2 o w3 _ IH Ht Hb Ho Hs|D w c w1 o w2 _ IH Ht Hb Ho Hs].
  - split; [done|]. intros d Hd s Hs. unfold dirs in Hd. rewrite Hold in Hd. apply list_elem_of_singleton in Hd as ->.
    unfold sessionOf, view in Hs. by rewrite (Hno stateFile (proj1 in_names)) in Hs.
  - eapply survives_inv; [apply _| |done].
    assert (inv (attributed (D ++ deliveries c ops)) w) as Hw by (apply (inv_mono D); [set_solver|done]).
    pose proof (BindControl_triple (D ++ deliveries c ops) fate random c Ht w Hw) as Hbound. rewrite Hb in Hbound.
    pose proof (runOps_bound (D ++ deliveries c ops) fate random c ops ltac:(set_solver) w1 Hbound) as Hops. rewrite Ho in Hops.
    destruct o; [by eapply bound_inv|by eapply bound_inv|done].
  - eapply survives_inv; [apply _| |done]. pose proof (BindControl_triple D fate random c Ht w IH) as Hbound. rewrite Hb in Hbound.
    destruct o; [by destruct (Ho a)|done|done].
Qed.


End Binding.

(** ** A file is old or new, and whole *)

(** The views a save of [content] may leave: those there were, and the current
    one with the new file. *)
Definition oldOrNew (w : World) (base content : string) (v : View) : Prop :=
  (∃ d, d ∈ dirs w ∧ same v (view (heap w) d)) ∨ same v (upd (view (heap w) (dir w)) base (Some (privateFile content))).

#[export] Instance oldOrNew_proper w base content : Proper (same ==> iff) (oldOrNew w base content).
Proof.
  intros v v' Hv. unfold oldOrNew. setoid_rewrite Hv. done.
Qed.

(** A save is atomic.  Wherever the Agent or the machine stops while a file
    of the store is written, and whichever calls fail, each file of the store is
    found as a complete earlier version or, for the one written, the complete
    new version with mode 0600; after a save that succeeded the directory shows
    the new version, and after one that failed what it showed before. *)
Theorem save_atomic fate random w base content w' o w'' :
  wf w → plain base = true → writePrivateFile fate random base content w = (w', o) → survives w' w'' →
  oldOrNew w base content (view (heap w'') (dir w''))
  ∧ match o with
    | Value _ => current (upd (view (heap w) (dir w)) base (Some (privateFile content))) w'
    | Error _ => current (view (heap w) (dir w)) w'
    | Crashed => True
    end.
Proof.
  intros Hwf Hb Hw Hs. set (V := oldOrNew w base content).
  assert (inv V w) as Hi by (split; [done|]; intros d Hd; left; by exists d).
  pose proof (writePrivateFile_triple V fate random (view (heap w) (dir w)) base content Hb (or_intror (reflexivity _)) w (stored_start V w Hi)) as Ht.
  rewrite Hw in Ht.
  assert (inv V w') as Hi' by (destruct o; [by destruct Ht|by destruct Ht|done]).
  split; [|destruct o; [by destruct Ht as (_ & ? & _)|by destruct Ht as (_ & ? & _)|done]].
  pose proof (survives_inv V w' w'' Hi' Hs) as [_ Ha]. apply Ha, dirs_head.
Qed.

(** ** Witnesses: an encoding of everything, and two Controls *)

Module Witness.

Fixpoint bits (p : positive) : string :=
  match p with xO p => String "0" (bits p) | xI p => String "1" (bits p) | xH => "" end.
Fixpoint unbits (s : string) : option positive :=
  match s with
  | EmptyString => Some xH
  | String c s => p ← unbits s; if Ascii.eqb c "0" then Some (xO p) else if Ascii.eqb c "1" then Some (xI p) else None
  end.

Lemma unbits_bits p : unbits (bits p) = Some p.
Proof. by induction p as [p IH|p IH|]; cbn; rewrite ?IH. Qed.

Definition bytes {A} `{Countable A} (a : A) : option string := Some (bits (encode a)).
Definition unbytes {A} `{Countable A} (s : string) : option A := unbits s ≫= decode.

Lemma unbytes_bytes {A} `{Countable A} (a : A) b : bytes a = Some b → unbytes b = Some a.
Proof. intros [= <-]. unfold unbytes. rewrite unbits_bits. cbn. apply decode_encode. Qed.

Definition session_tuple (s : Session) := (Control s, Negotiated s, At s).
Definition config_tuple (s : ConfigSnapshot) := (ConfigRevision s, ConfigHash s, Format s, ConfigJson s).
Definition users_tuple (d : @UserDelta Z) := (Cursor d, Full d, LastPage d, Upserts d, RemovedUserIds d).

#[export] Instance demo_codec : StateCodec Z := {|
  encodeSession s := bytes (session_tuple s);
  decodeSession b := (λ '(c, n, a), mkSession c n a) <$> unbytes b;
  encodeConfig s := bytes (config_tuple s);
  decodeConfig b := (λ '(r, h, f, j), mkSnapshot r h f j) <$> unbytes b;
  encodeUsers d := bytes (users_tuple d);
  decodeUsers b := (λ '(c, f, l, u, r), mkDelta c f l u r) <$> unbytes b
|}.

#[export] Instance demo_codec_laws : StateCodecLaws Z.
Proof. split; intros [] b Hb%unbytes_bytes; cbn [decodeSession decodeConfig decodeUsers demo_codec]; by rewrite Hb. Qed.

Definition always : nat → Fate := λ _, Done.
Definition random (n : nat) : string := itoa (Z.of_nat n).
Definition start : World := mkWorld ∅ [] ∅ 0 0.
Definition snapshot : ConfigSnapshot := mkSnapshot 3 "{}" "f" "{}".
Definition ops : list (@storeOp Z) := [OpSession ["config.v1"] 5; OpConfig snapshot; OpUsers 9 [1; 2]].

(** The disk after a run bound to "a:1". *)
Definition bound_a : World := (BindControl always random "a:1" start).1.
Definition after_a : World := (runOps always random "a:1" ops bound_a).1.
Definition identity (s : string) : string := s.
Definition any_format (s : string) : bool := true.

Lemma start_wf : wf start.
Proof. split; [intros d n id Hd; apply list_elem_of_singleton in Hd as ->; done..|]. by intros id [x Hx]. Qed.

Lemma history_a : history always random (deliveries "a:1" ops) after_a.
Proof.
  apply (history_run always random [] start "a:1" false ops bound_a after_a (Value tt) after_a);
    [apply history_empty; [apply start_wf|done|done]|by split|vm_compute; reflexivity|vm_compute; reflexivity|constructor].
Qed.


Lemma save_atomic_witness :
  let r := writePrivateFile always random configFile "x" after_a in
  oldOrNew after_a configFile "x" (view (heap r.1) (dir r.1)) ∧
  current (upd (view (heap after_a) (dir after_a)) configFile (Some (privateFile "x"))) r.1.
Proof.
  assert (wf after_a) as Hwf by apply (history_inv always random _ _ history_a).
  cbv zeta. destruct (writePrivateFile always random configFile "x" after_a) as [w' o] eqn:E.
  assert ((w', o).2 = Value tt) as Ho by (rewrite <- E; vm_compute; reflexivity). cbn in Ho. subst o.
  apply (save_atomic always random after_a configFile "x" w' (Value tt) w' Hwf eq_refl E). constructor.
Defined.

(** When the delivered files cannot be removed the store cannot be bound, but
    [load] goes on: a data plane of "b:1" starts with what "a:1" delivered. *)
Definition failing (k n : nat) : Fate := if Nat.eqb n k then Fails "" else Done.

Example unbound_store_is_loaded :
  (BindControl (failing (calls after_a + 5)) random "b:1" after_a).2 = Error "input/output error" ∧
  (load (failing (calls after_a + 5)) random identity any_format "b:1" true true after_a).2
    = Value (mkLoaded [] (Some snapshot) None).
Proof. vm_compute. done. Qed.

End Witness.

End StateBinding.
