(* ===== verification/ErrorCodes.v ===== *)
(** * Error codes of Control (api/agent/errorcodes.go)

    How the Agent reads the reason of a refusal, and what it does about a
    refusal of its certificate.  An error is what [errors.As] finds in it: the
    code of a ControlError and a gRPC status.  The SDK's codes are the class
    [ControlCodes]. *)

From S2P Require Import Prelude GoStrings PluginNames.
From Stdlib Require Import Ascii String.

Module ErrorCodes.

Record Status := mkStatus { Code : Z; Message : string }.

(** [controlCode]: of the first ControlError in the chain. *)
Record GoError := mkError { controlCode : option string; grpcStatus : option Status }.

Class ControlCodes := {
  ErrorCodeCertRevoked : string; ErrorCodeCertExpired : string; ErrorCodeCertInvalid : string; ErrorCodeCertWrongCluster : string;
  ErrorCodeCertWrongNode : string; ErrorCodeEnrollmentRejected : string
}.

Definition maxErrorCodeLength : Z := 64.

(** gRPC's status codes. *)
Definition PermissionDenied : Z := 7.
Definition FailedPrecondition : Z := 9.
Definition Unimplemented : Z := 12.
Definition Unauthenticated : Z := 16.

Definition code_char (c : ascii) : bool := is_lower_letter c || is_digit c.

Definition validErrorCode (code : string) : bool :=
  negb ((len code =? 0) || (maxErrorCodeLength <? len code) || negb (contains code "_")
        || has_prefix code "_" || has_suffix code "_" || contains code "__")
  && all_chars (λ c, code_char c || Ascii.eqb c "_") code.

Definition controlErrorCode (err : option GoError) (trailer : list string) : string :=
  match err with
  | None => ""
  | Some e =>
    let prefix := match grpcStatus e with
                  | Some st => let candidate := match cut (Message st) ":" with Some (a, _) => a | None => Message st end in
                               if validErrorCode candidate then Some candidate else None
                  | None => None
                  end in
    match prefix with
    | Some code => code
    | None => default "" (list_find (λ value, validErrorCode value = true) (trim_space <$> trailer) ≫= λ x, Some x.2)
    end
  end.

Definition withControlCode (err : option GoError) (trailer : list string) : option GoError :=
  match err with
  | None => None
  | Some e =>
    match controlCode e with
    | Some _ => Some e
    | None => let code := controlErrorCode (Some e) trailer in
              if String.eqb code "" then Some e else Some (mkError (Some code) (grpcStatus e))
    end
  end.

Definition errorCodeOf (err : GoError) : string :=
  match controlCode err with Some code => code | None => controlErrorCode (Some err) [] end.

Inductive certificateAction := certificateKept | certificateReenroll | certificateWrongNode.

Section Codes.
Context `{ControlCodes}.

Definition certificateRefusal (err : GoError) : string * certificateAction :=
  match grpcStatus err with
  | None => ("", certificateKept)
  | Some st =>
    let code := errorCodeOf err in
    if bool_decide (code ∈ [ErrorCodeCertRevoked; ErrorCodeCertExpired; ErrorCodeCertInvalid; ErrorCodeCertWrongCluster]) then (Message st, certificateReenroll)
    else if String.eqb code ErrorCodeCertWrongNode then (Message st, certificateWrongNode)
    else if negb (String.eqb code "") then ("", certificateKept)
    else if negb (Code st =? Unauthenticated) then ("", certificateKept)
    else
      let message := to_lower (Message st) in
      if contains message "does not match the client certificate" then (Message st, certificateWrongNode)
      else if existsb (contains message) ["revoked"; "expired"; "not a valid agent certificate"; "renewal requires the current agent client certificate"]
      then (Message st, certificateReenroll)
      else ("", certificateKept)
  end.

(** link.go *)
Definition refusalCode (err : GoError) : string :=
  let code := errorCodeOf err in
  if negb (String.eqb code "") then code
  else match grpcStatus err with
       | Some st => if contains (to_lower (Message st)) "revoked" then ErrorCodeCertRevoked else ""
       | None => ""
       end.

End Codes.

(** ** Shape of a code *)

Lemma contains_sep s (sep : ascii) : contains s (String sep "") = contains_char s sep.
Proof.
  induction s as [|c s IH]; [done|]. cbn [contains contains_char]. rewrite IH. f_equal. unfold has_prefix. cbn.
  destruct (ascii_dec sep c) as [->|Hne]; [by rewrite Ascii.eqb_refl; destruct s|]. by apply Ascii.eqb_neq in Hne as ->.
Qed.

Lemma split_some s sep : ∃ x l, split s sep = x :: l.
Proof. destruct s as [|c s]; cbn; [by eexists _, _|]. destruct (Ascii.eqb c sep); [by eexists _, _|]. destruct (split s sep); by eexists _, _. Qed.

Lemma split_length s sep : (2 ≤ List.length (split s sep))%nat ↔ contains_char s sep = true.
Proof.
  induction s as [|c s IH]; [by split; [cbn; lia|]|]. cbn. rewrite (Ascii.eqb_sym sep c). destruct (Ascii.eqb c sep).
  - destruct (split_some s sep) as (x & l & ->). cbn. split; [done|lia].
  - cbn [orb]. rewrite <- IH. destruct (split_some s sep) as (x & l & ->). done.
Qed.

Lemma prefix_sep c s sep : has_prefix (String c s) (String sep "") = Ascii.eqb c sep.
Proof.
  unfold has_prefix. cbn. rewrite Ascii.eqb_sym. destruct (ascii_dec sep c) as [->|Hne]; [by rewrite Ascii.eqb_refl; destruct s|]. symmetry. by apply Ascii.eqb_neq.
Qed.

Lemma suffix_sep c s sep : has_suffix (String c s) (String sep "") = if String.eqb s "" then Ascii.eqb c sep else has_suffix s (String sep "").
Proof.
  destruct s as [|d s]; cbn [has_suffix String.eqb]; destruct (Ascii.eqb c sep); done.
Qed.

Lemma contains_seps c s sep : contains (String c s) (String sep (String sep "")) = (Ascii.eqb c sep && has_prefix s (String sep "")) || contains s (String sep (String sep "")).
Proof.
  cbn [contains]. f_equal. unfold has_prefix. cbn. rewrite Ascii.eqb_sym. destruct (ascii_dec sep c) as [->|Hne]; [by rewrite Ascii.eqb_refl|]. by apply Ascii.eqb_neq in Hne as ->.
Qed.

Lemma split_head s sep x l : split s sep = x :: l → x ≠ "" ↔ s ≠ "" ∧ has_prefix s (String sep "") = false.
Proof.
  destruct s as [|c s]; cbn [split]; [intros [= <- <-]; naive_solver|]. rewrite prefix_sep. destruct (Ascii.eqb c sep); [intros [= <- <-]; naive_solver|].
  destruct (split s sep); intros [= <- <-]; naive_solver.
Qed.

(** Two separators next to each other, or one at the end, leave an empty word. *)
Lemma split_tail s sep : ∀ x l, split s sep = x :: l → Forall (λ w, w ≠ "") l ↔ has_suffix s (String sep "") = false ∧ contains s (String sep (String sep "")) = false.
Proof.
  induction s as [|c s IH]; intros x l; cbn [split]; [intros [= <- <-]; split; [done|by constructor]|].
  rewrite suffix_sep, contains_seps. destruct (split_some s sep) as (y & k & Hy). specialize (IH y k Hy). pose proof (split_head _ _ _ _ Hy) as Hh. rewrite Hy.
  destruct (Ascii.eqb c sep); intros [= <- <-]; cbn [andb orb].
  - rewrite Forall_cons, IH, Hh, orb_false_iff. destruct (String.eqb_spec s "") as [->|]; [cbn; naive_solver|naive_solver].
  - rewrite IH. destruct (String.eqb_spec s "") as [->|]; [by cbn|done].
Qed.

Lemma split_none x (sep : ascii) : contains_char x sep = false → split x sep = [x].
Proof. induction x as [|c x IH]; [done|]. cbn. rewrite orb_false_iff, Ascii.eqb_sym. intros [-> Hx]. by rewrite IH. Qed.

Lemma split_of_join l (sep : ascii) : l ≠ [] → Forall (λ w, contains_char w sep = false) l → split (join l (String sep "")) sep = l.
Proof.
  induction l as [|x [|y l] IH]; intros Hn Hf; [done|apply Forall_cons in Hf as [? _]; by apply split_none|]. apply Forall_cons in Hf as [Hx Hf].
  change (join (x :: y :: l) (String sep "")) with (x +:+ String sep (join (y :: l) (String sep ""))). by rewrite PluginNames.split_app_sep, (split_none x), IH.
Qed.

Lemma all_chars_join (p : ascii → bool) (sep : ascii) l : p sep = true → all_chars p (join l (String sep "")) = forallb (all_chars p) l.
Proof.
  intros Hp. induction l as [|x [|y l] IH]; [done|cbn; by rewrite andb_true_r|]. change (join (x :: y :: l) (String sep "")) with (x +:+ String sep "" +:+ join (y :: l) (String sep "")).
  rewrite !all_chars_app, IH. cbn [all_chars]. rewrite Hp. done.
Qed.

Lemma all_chars_but (p : ascii → bool) (sep : ascii) s : contains_char s sep = false → all_chars (λ c, p c || Ascii.eqb c sep) s = all_chars p s.
Proof.
  induction s as [|c s IH]; [done|]. cbn. rewrite orb_false_iff, Ascii.eqb_sym. intros [-> Hs]. by rewrite orb_false_r, IH.
Qed.

(** A code is at most 64 bytes, two or more words of lowercase letters and
    digits, joined by "_". *)
Theorem error_code_shape code : validErrorCode code = true ↔
  len code ≤ maxErrorCodeLength ∧ ∃ words, (2 ≤ List.length words)%nat ∧ Forall (λ w, w ≠ "" ∧ all_chars code_char w = true) words ∧ code = join words "_".
Proof.
  assert (validErrorCode code = true ↔ (len code ≤ maxErrorCodeLength ∧ contains_char code "_" = true ∧ Forall (λ w, w ≠ "") (split code "_"))
    ∧ all_chars (λ c, code_char c || Ascii.eqb c "_") code = true) as ->.
  { unfold validErrorCode. rewrite andb_true_iff, negb_true_iff, !orb_false_iff, negb_false_iff, Z.ltb_ge, Z.eqb_neq, contains_sep.
    destruct (split_some code "_") as (x & l & Hx). rewrite Hx, Forall_cons, (split_head _ _ _ _ Hx), (split_tail _ _ _ _ Hx).
    assert (len code ≠ 0 ↔ code ≠ "") as -> by (destruct code; [done|unfold len; cbn; split; [done|lia]]). naive_solver. }
  rewrite <- split_length. split.
  - intros [(Hl & Hn & Hf) Ha]. split; [done|]. exists (split code "_"). split; [done|]. split; [|by rewrite split_join].
    rewrite <- (split_join code "_") in Ha. rewrite all_chars_join in Ha by (by rewrite orb_comm). rewrite Forall_forall in Hf |- *. intros w Hw. split; [by apply Hf|].
    rewrite forallb_forall in Ha. specialize (Ha w). rewrite <- (all_chars_but code_char "_" w) by (by eapply split_no_sep). apply Ha. by apply list_elem_of_In.
  - intros (Hl & words & Hn & Hf & ->). assert (Forall (λ w, contains_char w "_" = false) words) as Hsep.
    { eapply Forall_impl; [exact Hf|]. intros w [_ Hw]. by apply (all_chars_contains code_char). }
    rewrite (split_of_join words "_") by (done || (intros ->; cbn in Hn; lia)). split; [split_and!; [done|done|]; eapply Forall_impl; [exact Hf|by intros w [? _]]|].
    rewrite all_chars_join by (by rewrite orb_comm). apply forallb_forall. intros w Hw%list_elem_of_In. rewrite Forall_forall in Hf, Hsep.
    rewrite all_chars_but by (by apply Hsep). by apply Hf.
Qed.

Section Demo.

#[local] Instance codes : ControlCodes := {|
  ErrorCodeCertRevoked := "agent_cert_revoked"; ErrorCodeCertExpired := "agent_cert_expired"; ErrorCodeCertInvalid := "agent_cert_invalid"; ErrorCodeCertWrongCluster := "agent_cert_wrong_cluster";
  ErrorCodeCertWrongNode := "agent_cert_wrong_node"; ErrorCodeEnrollmentRejected := "agent_enrollment_rejected"
|}.

Example refusals :
  (certificateRefusal (mkError None (Some (mkStatus Unauthenticated "agent_cert_revoked: node disabled")))).2 = certificateReenroll
  ∧ certificateRefusal (mkError None (Some (mkStatus Unauthenticated "Certificate REVOKED"))) = ("Certificate REVOKED", certificateReenroll)
  ∧ certificateRefusal (mkError None (Some (mkStatus PermissionDenied "certificate revoked"))) = ("", certificateKept)
  ∧ (withControlCode (Some (mkError None (Some (mkStatus Unauthenticated "refused: x")))) [" Bad "; "agent_cert_wrong_node"] ≫= controlCode) = Some "agent_cert_wrong_node"
  ∧ validErrorCode "a_b__c" = false ∧ validErrorCode "a_b_" = false ∧ validErrorCode "word" = false.
Proof. vm_compute. done. Qed.

End Demo.

End ErrorCodes.
