(* ===== verification/Pki.v ===== *)
(** * The Agent's identity (api/agent/pki/pki.go, store.go)

    An issued certificate is checked against the key and the node, and kept with
    its key in the identity directory, a world of Disk.v.  Keys are their
    private half as text.  X.509, PEM and JSON are the class [PKI]; the file
    functions are those of the state store (the two packages have the same
    ones), reading without a limit. *)

From S2P Require Import Prelude GoStrings Disk StateStore.
From Stdlib Require Import Ascii String.

Module Pki.
Import Disk.
#[local] Open Scope store_scope.

(** ** Certificates *)

(** [publicKey]: of an ECDSA key. *)
Record Certificate := mkCertificate {
  Raw : string; publicKey : option string; SerialNumber : string; CNotBefore : time; CNotAfter : time; ExtKeyUsage : list Z
}.

(** What the SPIFFE id of a certificate names. *)
Record AgentIdentity := mkAgentIdentity { ASPIFFE : string; ANode : string; ACluster : string }.

Record Identity := mkIdentity {
  Key : string; Leaf : Certificate; TrustBundle : list Certificate; SPIFFEID : string; Node : string; Cluster : string; Serial : string;
  NotBefore : time; NotAfter : time; RenewAfter : time; EnrolledAt : time; RenewedAt : time; Bootstrap : string
}.

Record Metadata := mkMetadata {
  MSPIFFEID : string; MNode : string; MSerial : string; MNotBefore : time; MNotAfter : time; MRenewAfter : time; MEnrolledAt : time; MRenewedAt : time; MBootstrap : string
}.

(** The certificate Control issued. *)
Record Issued := mkIssued { CertificateDer : string; TrustBundleDer : list string; IssuedSpiffeId : string; RenewAfterUnix : Z }.

Record Expectation := mkExpectation { ENode : string; ECluster : string; ENow : time }.

Class PKI := {
  publicOf : string → string;
  parseCertificate : string → option Certificate;
  AgentIdentityFromCertificate : Certificate → option AgentIdentity;
  verifyChain : Certificate → list Certificate → time → bool; (* leaf.Verify for client authentication *)
  pemDecode : string → list (string * string);
  pemEncode : list (string * string) → string;
  parseKey : string → option (option string); (* PKCS #8; the key when it is ECDSA *)
  marshalKey : string → option string;
  encodeMetadata : Metadata → option string;
  decodeMetadata : string → option Metadata
}.

Definition ExtKeyUsageClientAuth : Z := 2.
Definition clockSkew : duration := 5 * minute.

Definition Expired (i : option Identity) (now : time) : bool := match i with None => true | Some i => negb (before now (NotAfter i)) end.

Definition RenewalDue (i : option Identity) (now : time) : bool := match i with None => false | Some i => negb (before now (RenewAfter i)) end.

(** Two thirds of the lifetime, in int64 nanoseconds. *)
Definition defaultRenewAfter (leaf : Certificate) : time :=
  add (CNotBefore leaf) (Z.quot (i64 (sub (CNotAfter leaf) (CNotBefore leaf) * 2)) 3).

Definition parseAll `{PKI} (ders : list string) : option (list Certificate) := mapM parseCertificate ders.

Section Checks.
Context `{PKI}.

Definition newIdentity (key : string) (leaf : Certificate) (bundle : list Certificate) (expect : Expectation) : option Identity :=
  if negb (bool_decide (publicKey leaf = Some (publicOf key))) then None
  else match AgentIdentityFromCertificate leaf with
  | None => None
  | Some a =>
    if negb (String.eqb (ANode a) (ENode expect)) then None
    else if negb (String.eqb (ECluster expect) "") && negb (String.eqb (ACluster a) (ECluster expect)) then None
    else if negb (existsb (Z.eqb ExtKeyUsageClientAuth) (ExtKeyUsage leaf)) then None
    else if negb (after (CNotAfter leaf) (CNotBefore leaf)) then None
    else Some (mkIdentity key leaf bundle (ASPIFFE a) (ANode a) (ACluster a) (SerialNumber leaf) (CNotBefore leaf) (CNotAfter leaf) (defaultRenewAfter leaf) 0 0 "")
  end.

Definition with_renewAfter (i : Identity) (t : time) : Identity :=
  mkIdentity (Key i) (Leaf i) (TrustBundle i) (SPIFFEID i) (Node i) (Cluster i) (Serial i) (NotBefore i) (NotAfter i) t (EnrolledAt i) (RenewedAt i) (Bootstrap i).

Definition with_times (i : Identity) (enrolled renewed : time) (bootstrap : string) : Identity :=
  mkIdentity (Key i) (Leaf i) (TrustBundle i) (SPIFFEID i) (Node i) (Cluster i) (Serial i) (NotBefore i) (NotAfter i) (RenewAfter i) enrolled renewed bootstrap.

Definition FromIssued (key : string) (issued : Issued) (expect : Expectation) : option Identity :=
  if String.eqb (CertificateDer issued) "" then None
  else match parseCertificate (CertificateDer issued) with
  | None => None
  | Some leaf =>
    match parseAll (TrustBundleDer issued) with
    | None => None
    | Some bundle =>
      match newIdentity key leaf bundle expect with
      | None => None
      | Some i =>
        if negb (String.eqb (IssuedSpiffeId issued) "") && negb (String.eqb (IssuedSpiffeId issued) (SPIFFEID i)) then None
        else if bool_decide (bundle = []) then None
        else
          let verifyAt := if before (ENow expect) (CNotBefore leaf) && (sub (CNotBefore leaf) (ENow expect) <=? clockSkew) then CNotBefore leaf else ENow expect in
          if negb (verifyChain leaf bundle verifyAt) then None
          else
            let renewAfter := time_unix (RenewAfterUnix issued) in
            Some (if (0 <? RenewAfterUnix issued) && after renewAfter (CNotBefore leaf) && before renewAfter (CNotAfter leaf) then with_renewAfter i renewAfter else i)
      end
    end
  end.

(** ** The store *)

Definition identityFile : string := "identity.pem".
Definition bundleFile : string := "ca.pem".
Definition metadataFile : string := "identity.json".
Definition pemPrivateKey : string := "PRIVATE KEY".
Definition pemCertificate : string := "CERTIFICATE".

Definition ErrNotEnrolled : string := "agent identity is not enrolled".

(** The blocks one after the other: the last key and the first certificate. *)
Fixpoint decodeBlocks (blocks : list (string * string)) (key : option string) (leaf : option Certificate) : option (string * Certificate) :=
  match blocks with
  | [] => key ← key; leaf ← leaf; Some (key, leaf)
  | (kind, bytes) :: blocks =>
    if String.eqb kind pemPrivateKey then
      match parseKey bytes with Some (Some k) => decodeBlocks blocks (Some k) leaf | _ => None end
    else if String.eqb kind pemCertificate then
      match leaf with
      | Some _ => decodeBlocks blocks key leaf
      | None => c ← parseCertificate bytes; decodeBlocks blocks key (Some c)
      end
    else decodeBlocks blocks key leaf
  end.

Definition decodeIdentity (content : string) : option (string * Certificate) := decodeBlocks (pemDecode content) None None.

Definition decodeCertificates (content : string) : option (list Certificate) :=
  parseAll (snd <$> filter (λ b, b.1 = pemCertificate) (pemDecode content)).

Variable fate : nat → Fate.
Variable random : nat → string.

(** [Store]: the directory of one node. *)
Variable node : string.

Definition readPrivateFile (name : string) : M (string + StateStore.readError) := StateStore.readPrivateFile fate name None.
Definition writePrivateFile (name content : string) : M unit := StateStore.writePrivateFile fate random name content.

(** Metadata of the same certificate. *)
Definition withMetadata (i : Identity) (content : string) : Identity :=
  match decodeMetadata content with
  | None => i
  | Some m =>
    if String.eqb (MSerial m) (Serial i) then
      with_times (if after (MRenewAfter m) (NotBefore i) && before (MRenewAfter m) (NotAfter i) then with_renewAfter i (MRenewAfter m) else i)
        (MEnrolledAt m) (MRenewedAt m) (MBootstrap m)
    else i
  end.

Definition Load (expect : Expectation) : M Identity :=
  r <- readPrivateFile identityFile ;;
  match r with
  | inr StateStore.NotExist => throw ErrNotEnrolled
  | inr (StateStore.Unreadable e) => throw e
  | inl content =>
    match decodeIdentity content with
    | None => throw "invalid"
    | Some (key, leaf) =>
      r <- readPrivateFile bundleFile ;;
      let bundle := match r with inl raw => default [] (decodeCertificates raw) | inr _ => [] end in
      let expect := if String.eqb (ENode expect) "" then mkExpectation node (ECluster expect) (ENow expect) else expect in
      match newIdentity key leaf bundle expect with
      | None => throw "invalid"
      | Some i =>
        r <- readPrivateFile metadataFile ;;
        ret (match r with inl raw => withMetadata i raw | inr _ => i end)
      end
    end
  end.

Definition metadataOf (i : Identity) : Metadata :=
  mkMetadata (SPIFFEID i) (Node i) (Serial i) (NotBefore i) (NotAfter i) (RenewAfter i) (EnrolledAt i) (RenewedAt i) (Bootstrap i).

(** The key and the certificate in one file. *)
Definition pair (i : Identity) : option string :=
  key ← marshalKey (Key i); Some (pemEncode [(pemPrivateKey, key); (pemCertificate, Raw (Leaf i))]).

Definition bundleOf (i : Identity) : string := pemEncode ((λ c, (pemCertificate, Raw c)) <$> TrustBundle i).

(** [Save] of an identity with a key and a leaf; a call that makes the
    directories may fail. *)
Definition Save (i : Identity) : M unit :=
  if negb (String.eqb (Node i) node) then throw "node"
  else
    call fate (λ w, (w, Value tt)) unchanged ;;; (* createPrivateDir of the root, of the directory, and Chmod *)
    call fate (λ w, (w, Value tt)) unchanged ;;;
    call fate (λ w, (w, Value tt)) unchanged ;;;
    match pair i, encodeMetadata (metadataOf i) with
    | Some p, Some m =>
      (if bool_decide (TrustBundle i = []) then ret tt else writePrivateFile bundleFile (bundleOf i)) ;;;
      writePrivateFile identityFile p ;;;
      writePrivateFile metadataFile (m +:+ String "010" "")
    | _, _ => throw "encode"
    end.

(** [Discard]: every file is tried; a missing one is no error. *)
Fixpoint discardAll (names : list string) : M bool :=
  match names with
  | [] => ret true
  | name :: names =>
    r <- attempt (remove fate name) ;;
    rest <- discardAll names ;;
    ret (match r with Ok _ => rest | Err e => String.eqb e ErrNotExist && rest end)
  end.

Definition Discard : M unit := ok <- discardAll [identityFile; metadataFile; bundleFile] ;; if ok : bool then ret tt else throw "discard".

Definition StateValid : string := "valid".
Definition StateRenewalDue : string := "renewal-due".
Definition StateExpired : string := "expired".
Definition StateNotEnrolled : string := "not-enrolled".
Definition StateInvalid : string := "invalid".

(** [Inspect]: the state of the stored identity. *)
Definition Inspect (now : time) : M (string * option Identity) :=
  r <- attempt (Load (mkExpectation node "" now)) ;;
  ret (match r with
       | Err e => (if String.eqb e ErrNotEnrolled then StateNotEnrolled else StateInvalid, None)
       | Ok i => (if Expired (Some i) now then StateExpired else if RenewalDue (Some i) now then StateRenewalDue else StateValid, Some i)
       end).

(** [Newest]: of the identities the stores under a root load, in their order. *)
Definition newer (now : time) (newest : option Identity) (loaded : result Identity) : option Identity :=
  match loaded with
  | Err _ => newest
  | Ok i =>
    if Expired (Some i) now then newest
    else match newest with
         | None => Some i
         | Some n => if after (EnrolledAt i) (EnrolledAt n) || ((EnrolledAt i =? EnrolledAt n) && after (NotBefore i) (NotBefore n)) then Some i else newest
         end
  end.

Definition Newest (now : time) (loaded : list (result Identity)) : option Identity := foldl (newer now) None loaded.

End Checks.

End Pki.
