(* ===== verification/PkiStored.v ===== *)
(** * The Agent's identity: what is loaded

    The key and the certificate of the identity directory belong together and to
    the node wherever the Agent or the machine stopped, and the renewal time of
    an identity lies within its validity. *)

From S2P Require Import Prelude GoStrings Disk StateStore StateBinding Pki.
From Stdlib Require Import Ascii String.

Module PkiStored.
Import Disk DiskViews StateBinding Pki.

Class PKILaws `{PKI} : Prop := {
  pem_roundtrip l : pemDecode (pemEncode l) = l;
  key_roundtrip k b : marshalKey k = Some b → parseKey b = Some (Some k);
  certificate_raw b c : parseCertificate b = Some c → parseCertificate (Raw c) = Some c
}.

Section Stored.
Context `{PKILaws}.

(** ** Issued identities *)

(** The certificate of the identity is of its key and of that node, and is one
    of that cluster when one is pinned. *)
Record Belongs (node cluster : string) (i : Identity) : Prop := {
  belongs_key : publicKey (Leaf i) = Some (publicOf (Key i));
  belongs_node : ∃ a, AgentIdentityFromCertificate (Leaf i) = Some a ∧ ANode a = node ∧ (cluster = "" ∨ ACluster a = cluster) ∧ Node i = ANode a ∧ SPIFFEID i = ASPIFFE a;
  belongs_usage : existsb (Z.eqb ExtKeyUsageClientAuth) (ExtKeyUsage (Leaf i)) = true;
  belongs_validity : NotBefore i = CNotBefore (Leaf i) ∧ NotAfter i = CNotAfter (Leaf i) ∧ NotBefore i < NotAfter i;
  belongs_serial : Serial i = SerialNumber (Leaf i)
}.

Lemma newIdentity_belongs key leaf bundle expect i : newIdentity key leaf bundle expect = Some i →
  Belongs (ENode expect) (ECluster expect) i ∧ Key i = key ∧ Leaf i = leaf ∧ RenewAfter i = defaultRenewAfter leaf.
Proof.
  unfold newIdentity. destruct (bool_decide _) eqn:Ek; [|done]. apply bool_decide_eq_true in Ek. destruct (AgentIdentityFromCertificate leaf) as [a|] eqn:Ea; [|done]. cbn [negb].
  destruct (String.eqb_spec (ANode a) (ENode expect)) as [En|]; [|done]. cbn [negb].
  destruct (negb (String.eqb (ECluster expect) "") && _) eqn:Ec; [done|]. destruct (existsb _ _) eqn:Eu; [|done]. cbn [negb].
  unfold after. destruct (Z.ltb_spec (CNotBefore leaf) (CNotAfter leaf)) as [Hv|]; [|done]. intros [= <-]. cbn. split_and!; [|done..].
  split; cbn; [done| |done|done|done]. exists a. split_and!; [done|done| |done|done].
  rewrite andb_false_iff, !negb_false_iff, !String.eqb_eq in Ec. naive_solver.
Qed.

(** An identity that belongs passes the check again. *)
Lemma belongs_again node cluster i bundle now : Belongs node cluster i → is_Some (newIdentity (Key i) (Leaf i) bundle (mkExpectation node cluster now)).
Proof.
  intros [Hk (a & Ha & Hn & Hc & _) Hu (H1 & H2 & H3) _]. unfold newIdentity. rewrite bool_decide_eq_true_2, Ha by done. cbn [negb ENode ECluster]. rewrite Hn, String.eqb_refl. cbn [negb].
  assert (negb (String.eqb cluster "") && negb (String.eqb (ACluster a) cluster) = false) as -> by (destruct Hc as [->| ->]; [done|rewrite String.eqb_refl; apply andb_false_r]).
  rewrite Hu. unfold after. rewrite H1, H2 in H3. apply Z.ltb_lt in H3 as ->. by eexists.
Qed.

(** ** Renewal times *)

(** Lifetimes of up to 146 years: twice the lifetime is an int64. *)
Definition longest : duration := 2 ^ 62 - 1.

Definition Renewable (i : Identity) : Prop := NotBefore i ≤ RenewAfter i < NotAfter i.

Lemma default_in_validity leaf : CNotBefore leaf < CNotAfter leaf → CNotAfter leaf - CNotBefore leaf ≤ longest →
  CNotBefore leaf ≤ defaultRenewAfter leaf < CNotAfter leaf.
Proof.
  unfold defaultRenewAfter, add, longest. intros Hv Hl. set (d := CNotAfter leaf - CNotBefore leaf) in *. rewrite sub_small by lia. fold d. rewrite i64_small by lia.
  assert (0 ≤ Z.quot (d * 2) 3 < d); [|lia]. rewrite Z.quot_div_nonneg by lia. split; [apply Z.div_pos; lia|]. apply Z.div_lt_upper_bound; lia.
Qed.


(** ** The directory *)

Section Directory.
Variable node : string.
Variable cluster : string.
(** What was saved. *)
Variable D : list Identity.

(** The key and the certificate are those of one identity. *)
Definition Whole (v : View) : Prop := ∀ f, v identityFile = Some f → ∃ i, i ∈ D ∧ pair i = Some (data f).

#[local] Instance whole_proper : Proper (same ==> iff) Whole.
Proof. intros v v' Hv. unfold Whole. by rewrite (Hv identityFile). Qed.

Lemma whole_other v name x : name ≠ identityFile → Whole v → Whole (upd v name x).
Proof. intros Hn Hw f. unfold upd. destruct (String.eqb_spec identityFile name); [congruence|apply Hw]. Qed.

Lemma whole_none v : Whole (upd v identityFile None).
Proof. intros f. unfold upd. by rewrite String.eqb_refl. Qed.

Lemma whole_pair v i b : i ∈ D → pair i = Some b → Whole (upd v identityFile (Some (privateFile b))).
Proof. intros Hi Hb f. unfold upd. rewrite String.eqb_refl. intros [= <-]. by exists i. Qed.

Abbreviation Inv := (inv Whole).
Abbreviation Stored v := (stored Whole v ∅).

Lemma inv_stored {A} (m : M A) (Q : A → World → Prop) E C : (∀ v, Whole v → triple (Stored v) m Q E C) → triple Inv m Q E C.
Proof. intros Hm w Hw. apply (Hm (view (heap w) (dir w))); [|by apply stored_start]. destruct Hw as [_ Ha]. apply Ha, dirs_head. Qed.

Section Calls.
Variable fate : nat → Fate.
Variable random : nat → string.

Lemma idle_inv_triple : triple Inv (call fate (λ w, (w, Value tt)) unchanged) (λ _, Inv) Inv Inv.
Proof.
  apply inv_stored. intros v _. eapply triple_post; [apply (close_triple Whole fate v ∅)|..]; [intros ? w Hw|intros w Hw|intros w Hw]; eapply (stored_inv Whole); exact Hw.
Qed.

Lemma write_inv_triple name content : plain name = true → (name = identityFile → ∃ i, i ∈ D ∧ pair i = Some content) →
  triple Inv (Pki.writePrivateFile fate random name content) (λ _, Inv) Inv Inv.
Proof.
  intros Hp Hn. apply inv_stored. intros v Hv. eapply triple_post; [apply (writePrivateFile_triple Whole fate random v name content Hp)|intros ? w Hw; eapply (stored_inv Whole); exact Hw|intros w Hw; eapply (stored_inv Whole); exact Hw|done].
  destruct (decide (name = identityFile)) as [->|Hne]; [destruct (Hn eq_refl) as (i & Hi & Hb); by apply (whole_pair v i)|by apply whole_other].
Qed.

Lemma remove_inv_triple name : plain name = true → triple Inv (remove fate name) (λ _, Inv) Inv Inv.
Proof.
  intros Hp. apply inv_stored. intros v Hv. assert (Whole (upd v name None)) as Hu by (destruct (decide (name = identityFile)) as [->|]; [apply whole_none|by apply whole_other]).
  eapply triple_post; [apply (remove_triple Whole fate v ∅ name Hu (lookup_empty _))|intros ? w Hw; eapply (stored_inv Whole); exact Hw|intros w Hw; eapply (stored_inv Whole); exact Hw|intros w Hw; eapply (stored_inv Whole); exact Hw].
Qed.

Lemma Save_triple i : i ∈ D → triple Inv (Save fate random node i) (λ _, Inv) Inv Inv.
Proof.
  intros Hi. unfold Save. destruct (negb _); [by apply triple_throw|]. do 3 (eapply triple_bind; [apply idle_inv_triple|]; intros []).
  destruct (pair i) as [p|] eqn:Ep; [|by apply triple_throw]. destruct (encodeMetadata _) as [m|]; [|by apply triple_throw].
  eapply triple_bind with (R := λ _, Inv); [destruct (bool_decide _); [by apply triple_ret|by apply write_inv_triple]|]. intros [].
  eapply triple_bind with (R := λ _, Inv); [apply write_inv_triple; [done|]; intros _; by exists i|]. intros []. by apply write_inv_triple.
Qed.

Lemma Discard_triple : triple Inv (Discard fate) (λ _, Inv) Inv Inv.
Proof.
  assert (∀ names, Forall (λ n, plain n = true) names → triple Inv (discardAll fate names) (λ _, Inv) Inv Inv) as Hall.
  { induction 1 as [|n names Hn _ IH]; [by apply triple_ret|]. eapply triple_try; [by apply remove_inv_triple| |]; [intros []|intros e];
      (eapply triple_bind; [exact IH|]; intros rest; by apply triple_ret). }
  eapply triple_bind; [by apply Hall; repeat constructor|]. intros [|]; [by apply triple_ret|by apply triple_throw].
Qed.

Lemma read_kept_triple v name : plain name = true →
  triple (Stored v) (Pki.readPrivateFile fate name) (λ r w, Stored v w ∧ match r with inl b => ∃ f, v name = Some f ∧ data f = b | inr StateStore.NotExist => v name = None | _ => True end) (Stored v) (Stored v).
Proof. apply (readPrivateFile_triple Whole fate v name None). Qed.

(** Reading never ends as an error of its own, nor of that text. *)
Lemma read_value name w : match (Pki.readPrivateFile fate name w).2 with Value (inr (StateStore.Unreadable e)) => e ≠ "invalid" | Error _ => False | _ => True end.
Proof.
  unfold Pki.readPrivateFile, StateStore.readPrivateFile, bind, attempt, call, ret. destruct (fate (calls w)); cbn; [|done|done].
  destruct (dir w !! name ≫= _) as [f|]; [|done]. destruct (fate _); cbn; [|done|done].
  unfold StateStore.checkPrivate. destruct (negb (regular f)); [done|]. destruct (negb (_ =? 0)); [done|]. destruct (negb (owned f)); [done|]. by destruct (fate _).
Qed.

End Calls.

(** The directory of a node: identities that belong to the node are saved and
    discarded, with failures, crashes and restarts. *)
Inductive kept : World → Prop :=
| kept_start w : wf w → (∀ d, d ∈ dirs w → view (heap w) d identityFile = None) → kept w
| kept_save fate random i w w' : kept w → i ∈ D → survives (Save fate random node i w).1 w' → kept w'
| kept_discard fate w w' : kept w → survives (Discard fate w).1 w' → kept w'.

Lemma triple_kept {A} (m : M A) w w' : triple Inv m (λ _, Inv) Inv Inv → Inv w → survives (m w).1 w' → Inv w'.
Proof. intros Hm Hw Hs. specialize (Hm w Hw). eapply (survives_inv Whole); [|exact Hs]. by destruct (m w) as [x [a|e|]]. Qed.

Lemma kept_inv w : kept w → Inv w.
Proof.
  induction 1 as [w Hw Hn|fate random i w w' _ IH Hi Hs|fate w w' _ IH Hs].
  - split; [done|]. intros d Hd f Hf. by rewrite Hn in Hf.
  - eapply triple_kept; [by apply Save_triple|exact IH|exact Hs].
  - eapply triple_kept; [apply Discard_triple|exact IH|exact Hs].
Qed.

Lemma decode_pair i b : parseCertificate (Raw (Leaf i)) = Some (Leaf i) → pair i = Some b → decodeIdentity b = Some (Key i, Leaf i).
Proof.
  intros Hc. unfold pair. destruct (marshalKey (Key i)) as [k|] eqn:Ek; [|done]. intros [= <-]. unfold decodeIdentity. rewrite pem_roundtrip. cbn.
  rewrite (key_roundtrip _ _ Ek). cbn. by rewrite Hc.
Qed.

Lemma withMetadata_same i raw : Key (withMetadata i raw) = Key i ∧ Leaf (withMetadata i raw) = Leaf i ∧ Serial (withMetadata i raw) = Serial i
  ∧ NotBefore (withMetadata i raw) = NotBefore i ∧ NotAfter (withMetadata i raw) = NotAfter i ∧ (Renewable i → Renewable (withMetadata i raw)).
Proof.
  unfold withMetadata. destruct (decodeMetadata raw) as [m|]; [|done]. destruct (String.eqb _ _); [|done]. unfold after, before.
  destruct ((_ <? _) && (_ <? _)) eqn:E; cbn; split_and!; try done. rewrite andb_true_iff, !Z.ltb_lt in E. unfold Renewable. cbn. lia.
Qed.

(** The identity of the directory is whole.  Whatever was saved and
    discarded before and wherever the Agent or the machine stopped, what is
    loaded has the key and the certificate of one identity that was saved,
    passes the checks of an issued one, and is renewed within its validity; and
    a stored identity is never found invalid: loading it fails only when its
    file cannot be read. *)
Theorem loaded_identity_whole fate w now w' o : kept w →
  (∀ i, i ∈ D → Belongs node cluster i ∧ parseCertificate (Raw (Leaf i)) = Some (Leaf i) ∧ NotAfter i - NotBefore i ≤ longest) → node ≠ "" →
  Load fate node (mkExpectation node cluster now) w = (w', o) →
  match o with
  | Value i => ∃ j, j ∈ D ∧ Key i = Key j ∧ Leaf i = Leaf j ∧ Serial i = Serial j ∧ NotAfter i = NotAfter j ∧ Renewable i
  | Error e => e ≠ "invalid"
  | Crashed => True
  end.
Proof.
  intros Hk%kept_inv HD Hnode HL.
  assert (∀ v, Whole v → triple (Stored v) (Load fate node (mkExpectation node cluster now))
    (λ i w, ∃ j, j ∈ D ∧ Key i = Key j ∧ Leaf i = Leaf j ∧ Serial i = Serial j ∧ NotAfter i = NotAfter j ∧ Renewable i) (λ _, True) (λ _, True)) as Hv.
  { intros v Hv. unfold Load. eapply triple_bind; [eapply triple_post; [by apply read_kept_triple|by intros ? ? X; apply X|done|done]|].
    intros [b|[|e]]; [|by apply triple_throw..]. intros w0 [Hw0 (f & Hf & <-)]. revert w0 Hw0. destruct (Hv f Hf) as (j & Hj & Hp). destruct (HD j Hj) as (Hb & Hc & Hlen).
    rewrite (decode_pair j _ Hc Hp). eapply triple_bind; [eapply triple_post; [by apply read_kept_triple|by intros ? ? X; apply X|done|done]|]. intros r. cbv zeta.
    apply String.eqb_neq in Hnode. cbn [ENode ECluster ENow]. rewrite Hnode. destruct (newIdentity (Key j) (Leaf j) _ _) as [i|] eqn:Ei; [|by apply triple_throw].
    apply newIdentity_belongs in Ei as (Hbi & Hki & Hli & Hri).
    eapply triple_bind; [eapply triple_weaken; [apply (read_kept_triple fate v metadataFile eq_refl)|by intros w0 [? _]|by intros ? ? X; apply X|done|done]|]. intros r'. apply triple_ret. intros w0 _.
    destruct (belongs_validity _ _ _ Hb) as (V1 & V2 & V3). destruct (belongs_validity _ _ _ Hbi) as (W1 & W2 & W3). rewrite Hli in W1, W2.
    assert (Renewable i) as Hren by (unfold Renewable; rewrite Hri, W1, W2; apply default_in_validity; lia).
    exists j. split; [done|]. assert (Serial i = Serial j) as Hse by (rewrite (belongs_serial _ _ _ Hb), (belongs_serial _ _ _ Hbi); congruence).
    destruct r' as [raw|e]; [|split_and!; try done; congruence].
    destruct (withMetadata_same i raw) as (M1 & M2 & M3 & M4 & M5 & M6). rewrite M1, M2, M3, M5. split_and!; [done|done|done|congruence|by apply M6]. }
  destruct o as [i|e|]; [|intros ->|done].
  - pose proof (inv_stored _ _ _ _ Hv w Hk) as Ht. by rewrite HL in Ht.
  - clear Hv. unfold Load, bind in HL. pose proof (read_value fate identityFile w) as R1.
    assert (Whole (view (heap w) (dir w))) as Hw by (destruct Hk as [_ Ha]; apply Ha, dirs_head).
    pose proof (read_kept_triple fate _ identityFile eq_refl w (stored_start Whole w Hk)) as T1. cbv beta in R1, T1.
    destruct (Pki.readPrivateFile fate identityFile w) as [w1 [[b|[|e]]|e|]]; [|by injection HL|by injection HL|done|done].
    destruct T1 as [_ (f & Hf & <-)]. destruct (Hw f Hf) as (j & Hj & Hp). destruct (HD j Hj) as (Hb & Hc & _). rewrite (decode_pair j _ Hc Hp) in HL.
    pose proof (read_value fate bundleFile w1) as R2. destruct (Pki.readPrivateFile fate bundleFile w1) as [w2 [r|e|]]; [|done|done].
    apply String.eqb_neq in Hnode. cbn [ENode ECluster ENow] in HL. rewrite Hnode in HL.
    destruct (belongs_again node cluster j (match r with inl raw => default [] (decodeCertificates raw) | inr _ => [] end) now Hb) as [i Hi]. rewrite Hi in HL.
    pose proof (read_value fate metadataFile w2) as R3. by destruct (Pki.readPrivateFile fate metadataFile w2) as [w3 [r'|e|]].
Qed.

End Directory.

End Stored.

(** ** A node *)

Module Witness.
Import StateBinding.Witness.

Definition leaf : Certificate := mkCertificate "leaf" (Some "public") "01" 0 (90 * 24 * hour) [2].
Definition root : Certificate := mkCertificate "root" (Some "ca") "00" 0 (900 * 24 * hour) [].

#[export] Instance pki : PKI := {|
  publicOf k := if String.eqb k "private" then "public" else k;
  parseCertificate b := if String.eqb b "leaf" then Some leaf else if String.eqb b "root" then Some root else None;
  AgentIdentityFromCertificate _ := Some (mkAgentIdentity "spiffe://c/proxy/1" "proxy-1" "c");
  verifyChain _ bundle _ := existsb (λ c, String.eqb (Raw c) "root") bundle;
  pemDecode b := default [] (unbytes b); pemEncode l := default "" (bytes l);
  parseKey b := Some (Some (drop_chars 1 b)); marshalKey k := Some (String "k" k);
  encodeMetadata m := Some (MSerial m); decodeMetadata _ := None
|}.

#[export] Instance pki_laws : PKILaws.
Proof.
  split.
  - intros l. change (default [] (unbytes (bits (encode l))) = l). by rewrite (unbytes_bytes l _ eq_refl).
  - intros k b [= <-]. done.
  - intros b c. cbn. destruct (String.eqb b "leaf"); [intros [= <-]; done|]. destruct (String.eqb b "root"); [intros [= <-]; done|done].
Qed.

Definition issued : Issued := mkIssued "leaf" ["root"] "" 0.
Definition expect : Expectation := mkExpectation "proxy-1" "" 5.
Definition mine : Identity := mkIdentity "private" leaf [root] "spiffe://c/proxy/1" "proxy-1" "c" "01" 0 (90 * 24 * hour) (60 * 24 * hour) 0 0 "".

Example another_key_refused : FromIssued "private" issued expect = Some mine ∧ FromIssued "other" issued expect = None
  ∧ FromIssued "private" issued (mkExpectation "proxy-2" "" 5) = None.
Proof. vm_compute. done. Qed.

(** A certificate of two hundred years: twice its lifetime is not an int64, and
    it is to be renewed before it is valid. *)
Example long_lifetime_overflows : defaultRenewAfter (mkCertificate "" None "" (2000 * 365 * 24 * hour) (2200 * 365 * 24 * hour) []) < 2000 * 365 * 24 * hour.
Proof. vm_compute. reflexivity. Qed.


Definition empty : World := mkWorld ∅ [] ∅ 0 0.
Definition saved : World * outcome unit := Save always random "proxy-1" mine empty.
Definition loaded : World * outcome Identity := Load always "proxy-1" (mkExpectation "proxy-1" "" 7) saved.1.

Lemma empty_dir_wf : wf empty.
Proof. split; [intros d n id Hd _ Hid|intros d n id Hd Hid|by intros id [? ?]]; apply list_elem_of_singleton in Hd as ->; done. Qed.

Lemma loaded_identity_whole_witness : ∃ i, loaded.2 = Value i ∧ Key i = "private" ∧ Renewable i.
Proof.
  assert (loaded.2 = Value mine) as E by (vm_compute; reflexivity). exists mine. split; [exact E|].
  pose proof (loaded_identity_whole "proxy-1" "" [mine] always saved.1 7 loaded.1 loaded.2) as Hl. rewrite E in Hl.
  destruct Hl as (j & Hj & Hk & _ & _ & _ & Hr).
  - apply (kept_save "proxy-1" [mine] always random mine empty); [|by left|constructor]. apply kept_start; [apply empty_dir_wf|]. intros d Hd. apply list_elem_of_singleton in Hd as ->. reflexivity.
  - intros i Hi. apply list_elem_of_singleton in Hi as ->. split; [|split; [reflexivity|vm_compute; discriminate]].
    apply (newIdentity_belongs "private" leaf [root] expect mine). vm_compute. reflexivity.
  - discriminate.
  - unfold loaded. rewrite <- E. apply surjective_pairing.
  - apply list_elem_of_singleton in Hj as ->. split; [exact Hk|exact Hr].
Defined.

End Witness.

End PkiStored.
