(* ===== verification/IdentityManager.v ===== *)
(** * Enrolment and renewal (api/agent/identity.go)

    The manager of one node's identity: it loads the stored one, enrols with a
    one-time credential, renews before the certificate expires and drops what
    Control refuses.  The functions are cut where the code releases its lock to
    call Control.  An identity is a pointer: two of the same content differ.
    The store, the credential file and Control answer what the arguments say;
    of a failed save or discard the code only logs.  The texts of errors are
    shortened. *)

From S2P Require Import Prelude GoStrings Disk ErrorCodes Pki.
From Stdlib Require Import Ascii String.

Module IdentityManager.
Import ErrorCodes Pki.

Definition enrollRetryMin : duration := 30 * second.
Definition enrollRetryMax : duration := 30 * minute.
Definition enrollUnsupportedRetry : duration := 30 * minute.
Definition enrollWaitingRetry : duration := 5 * second.
Definition renewRetryMin : duration := minute.
Definition renewRetryMax : duration := 30 * minute.
Definition renewJitterMax : duration := 30 * minute.
Definition wrongNodeLogInterval : duration := 10 * minute.

Inductive failureClass := transient | unsupported | waiting.

(** An identity with its address. *)
Record Pointer := mkPointer { address : nat; identity : Identity }.

Record Manager := mkManager {
  loaded : bool; current : option Pointer; renewAt : time; renewFailures : nat; nextEnrollAt : time; enrollFails : nat; class : option failureClass;
  refusedCredential : string; lastError : string; wrongNodeLoggedAt : time; wrongNodeRefusals : Z; enrolling : bool
}.

Definition newManager : Manager := mkManager false None 0 0 0 0 None "" "" 0 0 false.

Definition set_current (m : Manager) (c : option Pointer) : Manager :=
  mkManager (loaded m) c (renewAt m) (renewFailures m) (nextEnrollAt m) (enrollFails m) (class m) (refusedCredential m) (lastError m) (wrongNodeLoggedAt m) (wrongNodeRefusals m) (enrolling m).
Definition set_enrolling (m : Manager) (b : bool) : Manager :=
  mkManager (loaded m) (current m) (renewAt m) (renewFailures m) (nextEnrollAt m) (enrollFails m) (class m) (refusedCredential m) (lastError m) (wrongNodeLoggedAt m) (wrongNodeRefusals m) b.
Definition set_refused (m : Manager) (digest : string) : Manager :=
  mkManager (loaded m) (current m) (renewAt m) (renewFailures m) (nextEnrollAt m) (enrollFails m) (class m) digest (lastError m) (wrongNodeLoggedAt m) (wrongNodeRefusals m) (enrolling m).

(** The certificate of the next connection. *)
Definition certificate (now : time) (m : Manager) : option Pointer :=
  match current m with Some p => if Expired (Some (identity p)) now then None else Some p | None => None end.

(** [setCurrentLocked]; [rand] is the random number. *)
Definition jitterOf (i : Identity) : duration := Z.min (Z.quot (sub (NotAfter i) (RenewAfter i)) 10) renewJitterMax.

Definition setCurrentLocked (p : Pointer) (rand : Z) (m : Manager) : Manager :=
  let jitter := jitterOf (identity p) in
  let at_ := if 0 <? jitter then add (RenewAfter (identity p)) (rand mod jitter) else RenewAfter (identity p) in
  mkManager (loaded m) (Some p) at_ 0 (nextEnrollAt m) 0 None (refusedCredential m) "" (wrongNodeLoggedAt m) (wrongNodeRefusals m) (enrolling m).

Definition discardLocked (m : Manager) : Manager :=
  mkManager (loaded m) None (renewAt m) (renewFailures m) 0 (enrollFails m) (class m) (refusedCredential m) (lastError m) (wrongNodeLoggedAt m) (wrongNodeRefusals m) (enrolling m).

Definition dropExpiredLocked (now : time) (m : Manager) : Manager :=
  match current m with Some p => if Expired (Some (identity p)) now then discardLocked m else m | None => m end.

(** [stored]: what the store loads. *)
Definition loadLocked (stored : option Pointer) (rand : Z) (m : Manager) : Manager :=
  let m := mkManager true (current m) (renewAt m) (renewFailures m) (nextEnrollAt m) (enrollFails m) (class m) (refusedCredential m) (lastError m) (wrongNodeLoggedAt m) (wrongNodeRefusals m) (enrolling m) in
  match stored with Some p => setCurrentLocked p rand m | None => m end.

(** A doubling delay: [n] times at most, and no further than [most]. *)
Fixpoint doubled (n : nat) (delay most : duration) : duration :=
  match n with O => delay | S n => if delay <? most then doubled n (delay * 2) most else delay end.

Definition backoff (failures : nat) (least most : duration) : duration := Z.min (doubled (Nat.pred failures) least most) most.

Definition enrollDelay (c : failureClass) (fails : nat) : duration :=
  match c with unsupported => enrollUnsupportedRetry | waiting => enrollWaitingRetry | transient => backoff fails enrollRetryMin enrollRetryMax end.

Definition enrollFailed (now : time) (c : failureClass) (error : string) (m : Manager) : Manager :=
  let fails := S (enrollFails m) in
  mkManager (loaded m) (current m) (renewAt m) (renewFailures m) (add now (enrollDelay c fails)) fails (Some c) (refusedCredential m) error (wrongNodeLoggedAt m) (wrongNodeRefusals m) (enrolling m).

Section Manager.
Context `{ControlCodes}.
Variable enroll : bool.
Variable credentialDigest : string → string.

(** ** Enrolment *)

(** A bootstrap credential's file. *)
Inductive CredentialFile := Missing | Unreadable | Readable (perm : Z) (content : string).

Definition maxCredentialFileBytes : Z := 4096.

(** A missing file is the error ErrNotExist. *)
Definition ReadCredentialFile (file : CredentialFile) (prefixes : list string) : result string :=
  match file with
  | Missing => Err Disk.ErrNotExist
  | Unreadable => Err "unreadable"
  | Readable perm content =>
    if negb (Z.land perm 63 =? 0) then Err "not private" (* 0o077 *)
    else
      let raw := if len content <=? maxCredentialFileBytes then content else String.substring 0 (Z.to_nat maxCredentialFileBytes) content in
      let credential := trim_space raw in
      if String.eqb credential "" then Ok ""
      else if existsb (has_prefix credential) prefixes then Ok credential else Err "no credential in it"
  end.

(** [configured]: whether there is a path; [prefix] is EnrollmentCredentialPrefix. *)
Definition readCredential (configured : bool) (prefix : string) (file : CredentialFile) : result string :=
  if negb configured then Ok ""
  else match ReadCredentialFile file [prefix] with
       | Err e => if String.eqb e Disk.ErrNotExist then Ok "" else Err e
       | Ok credential => Ok credential
       end.

(** [enrollOnce] up to the call of Control: claimed, and the credential. *)
Definition enrollClaim (now : time) (m : Manager) : option Manager :=
  if bool_decide (is_Some (current m)) || enrolling m || negb enroll || before now (nextEnrollAt m) then None
  else Some (set_enrolling m true).

(** [bootstrap]; [read] is what [readCredential] answers. *)
Definition bootstrap (read : result string) (m : Manager) : result string :=
  match read with
  | Err e => Err e
  | Ok credential =>
    if negb (String.eqb credential "") && negb (String.eqb (credentialDigest credential) (refusedCredential m)) then Ok credential
    else if negb (String.eqb credential "") then Err "rejected" else Err "no credential"
  end.

Definition enrollStart (now : time) (read : result string) (m : Manager) : Manager * option string :=
  match enrollClaim now m with
  | None => (m, None)
  | Some m =>
    match bootstrap read m with
    | Err e => (set_enrolling (enrollFailed now waiting e m) false, None)
    | Ok credential => (m, Some credential)
    end
  end.

(** [classifyEnrollFailure]. *)
Definition classifyEnrollFailure (now : time) (credential : string) (err : GoError) (m : Manager) : Manager :=
  let code := Code <$> grpcStatus err in
  let rejected := String.eqb (errorCodeOf err) ErrorCodeEnrollmentRejected in
  if bool_decide (code = Some Unimplemented) then enrollFailed now unsupported "unimplemented" m
  else if bool_decide (code = Some FailedPrecondition) then enrollFailed now unsupported "cannot enroll" m
  else if rejected || bool_decide (code = Some Unauthenticated) || bool_decide (code = Some PermissionDenied)
  then enrollFailed now waiting "rejected" (set_refused m (credentialDigest credential))
  else enrollFailed now transient "error" m.

Definition installLocked (expected : option Pointer) (p : Pointer) (rand : Z) (m : Manager) : Manager * bool :=
  if bool_decide (address <$> current m = address <$> expected) then (setCurrentLocked p rand m, true) else (m, false).

(** What Control or the checks of its answer say. *)
Inductive Issuance := Granted (p : Pointer) | Refused (err : GoError).

Definition enrollSettle (now : time) (credential : string) (answer : Issuance) (rand : Z) (m : Manager) : Manager :=
  set_enrolling (match answer with
                 | Refused err => classifyEnrollFailure now credential err m
                 | Granted p => (installLocked None p rand m).1
                 end) false.

(** ** Sessions *)

(** [prepare] up to the enrolment: whether one is due. *)
Definition prepare (now : time) (stored : option Pointer) (rand : Z) (m : Manager) : Manager * bool :=
  let m := if loaded m then m else loadLocked stored rand m in
  let m := dropExpiredLocked now m in
  (m, bool_decide (current m = None) && enroll && negb (before now (nextEnrollAt m))).

(** [rejected]: Control refused the certificate a session presented. *)
Definition rejected (p : Pointer) (m : Manager) : Manager :=
  if bool_decide (address <$> current m = Some (address p)) then discardLocked m else m.

(** [wrongNode], and whether it logs. *)
Definition wrongNode (now : time) (m : Manager) : Manager * bool :=
  let due := is_zero (wrongNodeLoggedAt m) || (wrongNodeLogInterval <=? sub now (wrongNodeLoggedAt m)) in
  (mkManager (loaded m) (current m) (renewAt m) (renewFailures m) (nextEnrollAt m) (enrollFails m) (class m) (refusedCredential m) (lastError m)
     (if due then now else wrongNodeLoggedAt m) (u64 (wrongNodeRefusals m + 1)) (enrolling m), due).

(** client.go [streamFailure]: what ended a session that presented [p]. *)
Definition streamFailure (now : time) (p : option Pointer) (err : GoError) (trailer : list string) (m : Manager) : Manager :=
  match withControlCode (Some err) trailer with
  | None => m
  | Some err =>
    match (certificateRefusal err).2 with
    | certificateReenroll => match p with Some p => rejected p m | None => m end
    | certificateWrongNode => (wrongNode now m).1
    | certificateKept => m
    end
  end.

(** ** Renewal *)

Definition renewSettle (now : time) (p : Pointer) (answer : Issuance) (rand : Z) (m : Manager) : Manager :=
  match answer with
  | Granted q => (installLocked (Some p) q rand m).1
  | Refused err =>
    let retry m :=
      let failures := S (renewFailures m) in
      let still := bool_decide (address <$> current m = Some (address p)) in
      mkManager (loaded m) (current m) (if still then add now (backoff failures renewRetryMin renewRetryMax) else renewAt m) failures (nextEnrollAt m) (enrollFails m) (class m)
        (refusedCredential m) (if still then "renewal" else lastError m) (wrongNodeLoggedAt m) (wrongNodeRefusals m) (enrolling m) in
    match (certificateRefusal err).2 with
    | certificateReenroll => rejected p m
    | certificateWrongNode => retry (wrongNode now m).1
    | certificateKept => retry m
    end
  end.

(** ** The loop *)

Inductive Task := Renewing (p : Pointer) | Enrolling | Nothing.

(** [maintain] up to its wait: what it will do, and after how long. *)
Definition maintain (now : time) (m : Manager) : Manager * Task * duration :=
  let m := dropExpiredLocked now m in
  let '(task, wait) := if negb (loaded m) then (Nothing, hour)
                       else match current m with
                            | Some p => (Renewing p, sub (renewAt m) now)
                            | None => if enroll then (Enrolling, sub (nextEnrollAt m) now) else (Nothing, hour)
                            end in
  (m, task, Z.max wait 0).

(** [status]. *)
Record IdentityStatus := mkIdentityStatus { SEnrolled : bool; SSerial : string; SNotAfter : time; SRenewAfter : time; SNextEnrollment : time; SLastError : string }.

Definition status (m : Manager) : IdentityStatus :=
  match current m with
  | Some p => mkIdentityStatus true (Serial (identity p)) (NotAfter (identity p)) (renewAt m) 0 (lastError m)
  | None => mkIdentityStatus false "" 0 0 (if enroll then nextEnrollAt m else 0) (lastError m)
  end.

End Manager.

End IdentityManager.
