(* ===== verification/IdentityRuns.v ===== *)
(** * Enrolment and renewal: runs

    Sessions, the background loop, enrolments and renewals under way and
    restarts, interleaved in any order. *)

From S2P Require Import Prelude GoStrings ErrorCodes Pki PkiStored IdentityManager.
From Stdlib Require Import Ascii String.

Module IdentityRuns.
Import ErrorCodes Pki PkiStored IdentityManager.

(** The manager, the latest time it has seen, the next address, the credential
    of the enrolment under way, the identities being renewed, those ever
    current, those discarded, and of which identity one is the renewal. *)
Record Run := mkRun {
  manager : Manager; clock : time; nextAddress : nat; enrolment : option string; renewals : list Pointer; known : list Pointer;
  dropped : gset nat; renewalOf : gmap nat nat
}.

(** Discarded by going from [m] to [m']. *)
Definition discarded (m m' : Manager) : gset nat := match current m, current m' with Some p, None => {[ address p ]} | _, _ => ∅ end.

Definition seen (m : Manager) : list Pointer := match current m with Some p => [p] | None => [] end.

Definition moved (r : Run) (now : time) (m : Manager) : Run :=
  mkRun m now (nextAddress r) (enrolment r) (renewals r) (seen m ++ known r) (dropped r ∪ discarded (manager r) m) (renewalOf r).

Definition with_enrolment (r : Run) (e : option string) : Run := mkRun (manager r) (clock r) (nextAddress r) e (renewals r) (known r) (dropped r) (renewalOf r).
Definition with_renewal (r : Run) (p : Pointer) : Run := mkRun (manager r) (clock r) (nextAddress r) (enrolment r) (p :: renewals r) (known r) (dropped r) (renewalOf r).
Definition renewed (r : Run) (p q : Pointer) : Run := mkRun (manager r) (clock r) (nextAddress r) (enrolment r) (renewals r) (known r) (dropped r) (<[address q := address p]> (renewalOf r)).
Definition allocated (r : Run) : Run := mkRun (manager r) (clock r) (S (nextAddress r)) (enrolment r) (renewals r) (known r) (dropped r) (renewalOf r).

Section Runs.
Context `{ControlCodes}.
Variable enroll : bool.
Variable credentialDigest : string → string.

(** A new identity, with a renewal time within its validity (as loading and
    issuing give it). *)
Definition New (r : Run) (p : Pointer) : Prop := address p = nextAddress r ∧ Renewable (identity p).

Inductive run : Run → Prop :=
| run_start now : 0 ≤ now → run (mkRun newManager now 0 None [] [] ∅ ∅)
| run_prepare r now stored rand : run r → clock r ≤ now → (∀ p, stored = Some p → New r p) →
    run (moved (allocated r) now (prepare enroll now stored rand (manager r)).1)
| run_enrol r now file : run r → clock r ≤ now → loaded (manager r) = true →
    run (match enrollStart enroll credentialDigest now file (manager r) with
         | (m, Some credential) => with_enrolment (moved r now m) (Some credential)
         | (m, None) => moved r now m
         end)
| run_enrolled r now credential answer rand : run r → clock r ≤ now → enrolment r = Some credential → (∀ p, answer = Granted p → New r p) →
    run (with_enrolment (moved (allocated r) now (enrollSettle credentialDigest now credential answer rand (manager r))) None)
| run_maintain r now : run r → clock r ≤ now →
    run (match maintain enroll now (manager r) with
         | (m, Renewing p, _) => with_renewal (moved r now m) p
         | (m, _, _) => moved r now m
         end)
| run_renewed r now p answer rand : run r → clock r ≤ now → p ∈ renewals r → (∀ q, answer = Granted q → New r q) →
    run (let r' := moved (allocated r) now (renewSettle now p answer rand (manager r)) in match answer with Granted q => renewed r' p q | Refused _ => r' end)
| run_failure r now p err trailer : run r → clock r ≤ now → (∀ q, p = Some q → q ∈ known r) →
    run (moved r now (streamFailure now p err trailer (manager r)))
| run_restart r : run r → run (mkRun newManager (clock r) (nextAddress r) None [] (known r) (dropped r) (renewalOf r)).

(** ** Addresses *)

Definition below (r : Run) (p : Pointer) : Prop := (address p < nextAddress r)%nat.

Record Sound (r : Run) : Prop := {
  sound_current p : current (manager r) = Some p → below r p ∧ address p ∉ dropped r;
  sound_parent p a : current (manager r) = Some p → renewalOf r !! address p = Some a → a ∉ dropped r;
  sound_dropped a : a ∈ dropped r → (a < nextAddress r)%nat;
  sound_renewals p : p ∈ renewals r → below r p;
  sound_parents a b : renewalOf r !! a = Some b → (a < nextAddress r)%nat ∧ (b < nextAddress r)%nat
}.

(** What a step does with the identity: nothing, discard it, or take a new
    one. *)
Definition keeps (m m' : Manager) : Prop := current m' = current m ∨ current m' = None.

Lemma sound_keeps r now m : Sound r → keeps (manager r) m → Sound (moved r now m).
Proof.
  intros [H1 H2 H3 H4 H5] [E|E]; split; cbn; unfold discarded; rewrite ?E; intros *; try done.
  - intros Hp. destruct (H1 _ Hp) as [? ?]. split; [done|]. rewrite Hp. by rewrite union_empty_r_L.
  - intros Hp Ha. rewrite Hp, union_empty_r_L. by eapply H2.
  - destruct (current (manager r)); rewrite union_empty_r_L; apply H3.
  - apply H4.
  - apply H5.
  - destruct (current (manager r)) as [p|] eqn:Ep; [|rewrite union_empty_r_L; apply H3]. rewrite elem_of_union, elem_of_singleton. intros [?| ->]; [by apply H3|]. by apply (H1 p).
  - apply H4.
  - apply H5.
Qed.

Lemma sound_takes r now m p : Sound r → current m = Some p → address p = nextAddress r → Sound (moved (allocated r) now m).
Proof.
  intros [H1 H2 H3 H4 H5] E Ea.
  assert (∀ m0, discarded m0 m = ∅) as Hd by (intros m0; unfold discarded; rewrite E; by destruct (current m0)).
  split; cbn; rewrite ?Hd, ?union_empty_r_L; intros *.
  - rewrite E. intros [= <-]. split; [unfold below; cbn; lia|]. intros Hin%H3. lia.
  - rewrite E. intros [= <-] Hx. apply H5 in Hx. lia.
  - intros Hin%H3. lia.
  - intros Hin%H4. unfold below in *. cbn. lia.
  - intros Hx%H5. lia.
Qed.

Lemma sound_allocated r : Sound r → Sound (allocated r).
Proof.
  intros [H1 H2 H3 H4 H5]. split; cbn; intros *.
  - intros Hp. destruct (H1 _ Hp). split; [unfold below in *; cbn; lia|done].
  - apply H2.
  - intros Hin%H3. lia.
  - intros Hin%H4. unfold below in *. cbn. lia.
  - intros Hx%H5. lia.
Qed.

Lemma sound_other r r' : manager r' = manager r → nextAddress r' = nextAddress r → dropped r' = dropped r → renewalOf r' = renewalOf r →
  (∀ p, p ∈ renewals r' → below r p) → Sound r → Sound r'.
Proof. intros E1 E2 E3 E4 Hr [H1 H2 H3 H4 H5]. split; unfold below in *; rewrite ?E1, ?E2, ?E3, ?E4; auto. Qed.

(** ** The functions and the identity *)

Lemma discard_keeps m : keeps m (discardLocked m).
Proof. by right. Qed.

Lemma dropExpired_keeps now m : keeps m (dropExpiredLocked now m).
Proof. unfold dropExpiredLocked. destruct (current m) eqn:E; [|by left]. destruct (Expired _ _); [by right|by left]. Qed.

Lemma rejected_keeps p m : keeps m (rejected p m).
Proof. unfold rejected. destruct (bool_decide _); [by right|by left]. Qed.

Lemma streamFailure_keeps now p err trailer m : keeps m (streamFailure now p err trailer m).
Proof.
  unfold streamFailure. destruct (withControlCode _ _) as [e|]; [|by left]. destruct (certificateRefusal e).2; [by left| |by left].
  destruct p; [apply rejected_keeps|by left].
Qed.

Lemma enrollStart_keeps now file m : current (enrollStart enroll credentialDigest now file m).1 = current m.
Proof.
  unfold enrollStart, enrollClaim. destruct (_ || _); [done|]. destruct (bootstrap _ _ _); done.
Qed.

Lemma classify_current now credential err m : current (classifyEnrollFailure credentialDigest now credential err m) = current m.
Proof. unfold classifyEnrollFailure. by repeat case_match. Qed.

Lemma sound_restart r : Sound r → Sound (mkRun newManager (clock r) (nextAddress r) None [] (known r) (dropped r) (renewalOf r)).
Proof. intros [H1 H2 H3 H4 H5]. split; cbn; intros *; [done|done|apply H3|by intros ?%not_elem_of_nil|apply H5]. Qed.

Lemma prepare_sound r now stored rand : Sound r → (∀ p, stored = Some p → New r p) → Sound (moved (allocated r) now (prepare enroll now stored rand (manager r)).1).
Proof.
  intros Hs Hn. unfold prepare. cbn [fst]. destruct (loaded (manager r)); [apply sound_keeps; [by apply sound_allocated|apply dropExpired_keeps]|].
  destruct stored as [p|]; [|apply sound_keeps; [by apply sound_allocated|]; apply (dropExpired_keeps now (loadLocked None rand (manager r)))].
  destruct (dropExpired_keeps now (loadLocked (Some p) rand (manager r))) as [E|E]; [|apply sound_keeps; [by apply sound_allocated|by right]].
  eapply sound_takes; [done|exact E|by apply Hn].
Qed.

Lemma maintain_sound r now : Sound r → Sound (match maintain enroll now (manager r) with (m, Renewing p, _) => with_renewal (moved r now m) p | (m, _, _) => moved r now m end).
Proof.
  intros Hs. unfold maintain. pose proof (dropExpired_keeps now (manager r)) as Hk. pose proof (sound_keeps r now _ Hs Hk) as Hm.
  destruct (negb _); [done|]. destruct (current (dropExpiredLocked now (manager r))) as [p|] eqn:E; [|by destruct enroll].
  eapply sound_other; [..|exact Hm]; try done. cbn. intros q [->|Hq]%elem_of_cons; [|by apply (sound_renewals _ Hs)]. by apply (sound_current _ Hm).
Qed.

(** A renewal noted, of an identity that is not discarded when it is taken. *)
Lemma sound_renewed r now m p q : Sound (moved (allocated r) now m) → address q = nextAddress r → (address p < nextAddress r)%nat →
  (∀ x, current m = Some x → address x = address q → address p ∉ dropped r ∪ discarded (manager r) m) → Sound (renewed (moved (allocated r) now m) p q).
Proof.
  intros [H1 H2 H3 H4 H5] Hq Hp Hd. cbn in *. split; cbn; intros *.
  - apply H1.
  - intros Hx. rewrite lookup_insert_Some. intros [[E <-]|[_ E]]; [by eapply Hd|by eapply H2].
  - apply H3.
  - apply H4.
  - rewrite lookup_insert_Some. intros [[<- <-]|[_ E]]; [lia|by apply H5].
Qed.

Lemma refused_keeps now p err rand m : keeps m (renewSettle now p (Refused err) rand m).
Proof. cbn. destruct (certificateRefusal err).2; [by left|apply rejected_keeps|by left]. Qed.

Lemma renew_sound r now p answer rand : Sound r → p ∈ renewals r → (∀ q, answer = Granted q → New r q) →
  Sound (let r' := moved (allocated r) now (renewSettle now p answer rand (manager r)) in match answer with Granted q => renewed r' p q | Refused _ => r' end).
Proof.
  intros Hs Hp Hn. cbv zeta. destruct answer as [q|err]; [|apply sound_keeps; [by apply sound_allocated|apply refused_keeps]].
  destruct (Hn q eq_refl) as [Hq _]. pose proof (sound_renewals _ Hs _ Hp) as Hb. cbn [renewSettle]. unfold installLocked. destruct (bool_decide _) eqn:Eb; cbn [fst].
  - apply sound_renewed; [eapply sound_takes; [done|reflexivity|done]|done|done|]. intros x _ _. unfold discarded.
    apply bool_decide_eq_true in Eb. destruct (current (manager r)) as [y|] eqn:Ey; [|done]. cbn in Eb |- *. injection Eb as <-. rewrite union_empty_r_L. by apply (sound_current _ Hs).
  - apply sound_renewed; [apply sound_keeps; [by apply sound_allocated|by left]|done|done|]. intros x Hx Ex. apply (sound_current _ Hs) in Hx as [Hx _]. unfold below in *. lia.
Qed.

Lemma run_sound r : run r → Sound r.
Proof.
  induction 1 as [now _|r now stored rand _ IH _ Hn|r now file _ IH _ _|r now credential answer rand _ IH _ _ Hn|r now _ IH _|r now p answer rand _ IH _ Hp Hn|r now p err trailer _ IH _ _|r _ IH].
  - split; cbn; intros *; [done|done|by intros ?%elem_of_empty|by intros ?%not_elem_of_nil|by rewrite lookup_empty].
  - by apply prepare_sound.
  - pose proof (enrollStart_keeps now file (manager r)) as Hk. destruct (enrollStart _ _ _ _ _) as [m [c|]]; cbn in Hk;
      [apply (sound_other (moved r now m)); try done; [apply IH|]|]; apply sound_keeps; try done; by left.
  - apply (sound_other (moved (allocated r) now (enrollSettle credentialDigest now credential answer rand (manager r)))); try done; [by apply sound_allocated in IH; apply IH|].
    unfold enrollSettle. destruct answer as [q|err]; [|apply sound_keeps; [by apply sound_allocated|left; cbn; apply classify_current]].
    unfold installLocked. destruct (bool_decide _); cbn [fst]; [eapply sound_takes; [done|reflexivity|by apply Hn]|apply sound_keeps; [by apply sound_allocated|by left]].
  - by apply maintain_sound.
  - by apply renew_sound.
  - apply sound_keeps; [done|apply streamFailure_keeps].
  - by apply sound_restart.
Qed.


(** ** Enrolments *)

(** At most one enrolment is under way, of a node without an identity and with a
    credential Control has not just rejected. *)
Definition Alone (r : Run) : Prop :=
  let m := manager r in
  match enrolment r with
  | None => enrolling m = false
  | Some c => enrolling m = true ∧ loaded m = true ∧ current m = None ∧ credentialDigest c ≠ refusedCredential m
  end.

(** The part of the manager that an enrolment needs. *)
Definition same_enrolment (m m' : Manager) : Prop := enrolling m' = enrolling m ∧ loaded m' = loaded m ∧ refusedCredential m' = refusedCredential m.

Lemma alone_keeps r r' : Alone r → enrolment r' = enrolment r → keeps (manager r) (manager r') → same_enrolment (manager r) (manager r') → Alone r'.
Proof.
  unfold Alone. intros Ha -> Hk (E1 & E2 & E3). rewrite E1, E2, E3. destruct (enrolment r); [|done]. destruct Ha as (? & ? & Hc & ?). split_and!; try done.
  destruct Hk as [->| ->]; done.
Qed.

Lemma alone_idle r r' : Alone r → enrolment r = None → enrolment r' = None → enrolling (manager r') = enrolling (manager r) → Alone r'.
Proof. unfold Alone. intros Ha E -> ->. by rewrite E in Ha. Qed.

Lemma dropExpired_enrolment now m : same_enrolment m (dropExpiredLocked now m).
Proof. unfold dropExpiredLocked. destruct (current m); [|done]. by destruct (Expired _ _). Qed.

Lemma streamFailure_enrolment now p err trailer m : same_enrolment m (streamFailure now p err trailer m).
Proof.
  unfold streamFailure. destruct (withControlCode _ _) as [e|]; [|done]. destruct (certificateRefusal e).2; [done| |done].
  destruct p; [|done]. unfold rejected. by destruct (bool_decide _).
Qed.

Lemma renewSettle_enrolment now p answer rand m : same_enrolment m (renewSettle now p answer rand m).
Proof.
  destruct answer as [q|err]; cbn; [unfold installLocked; by destruct (bool_decide _)|]. destruct (certificateRefusal err).2; [done| |done]. unfold rejected. by destruct (bool_decide _).
Qed.

(** A renewal changes the identity only where there is one. *)
Lemma renewSettle_none now p answer rand m : current m = None → current (renewSettle now p answer rand m) = None.
Proof.
  intros Hn. destruct answer as [q|err]; [cbn; unfold installLocked; by rewrite Hn|]. destruct (refused_keeps now p err rand m) as [-> | ->]; done.
Qed.

Lemma enrollStart_alone r now file : Alone r → loaded (manager r) = true →
  Alone (match enrollStart enroll credentialDigest now file (manager r) with
         | (m, Some credential) => with_enrolment (moved r now m) (Some credential)
         | (m, None) => moved r now m
         end).
Proof.
  intros Ha Hl. unfold enrollStart, enrollClaim. destruct (bool_decide _ || enrolling (manager r) || _ || _) eqn:E; [by apply (alone_keeps r); [| |left|]|].
  rewrite !orb_false_iff, bool_decide_eq_false in E. destruct E as [[[Ec Ee] _] _].
  assert (enrolment r = None) as En. { unfold Alone in Ha. destruct (enrolment r); [|done]. destruct Ha as [Ht _]. congruence. }
  unfold bootstrap. destruct file as [c|e]; [|unfold Alone; cbn; by rewrite En]. cbn [refusedCredential set_enrolling].
  destruct (negb (String.eqb c "") && negb (String.eqb (credentialDigest c) (refusedCredential (manager r)))) eqn:Ed.
  - unfold Alone. cbn. apply andb_true_iff in Ed as [_ Ed%negb_true_iff%String.eqb_neq]. split_and!; try done. destruct (current (manager r)); [|done]. by destruct Ec.
  - destruct (negb (String.eqb c "")); unfold Alone; cbn; by rewrite En.
Qed.

Lemma run_alone r : run r → Alone r.
Proof.
  induction 1 as [now _|r now stored rand _ IH _ Hn|r now file _ IH _ Hl|r now credential answer rand _ IH _ _ Hn|r now _ IH _|r now p answer rand _ IH _ Hp Hn|r now p err trailer _ IH _ _|r _ IH].
  - done.
  - unfold prepare. cbn [fst]. destruct (loaded (manager r)) eqn:El.
    + apply (alone_keeps r); [done|done|apply dropExpired_keeps|apply dropExpired_enrolment].
    + assert (enrolment r = None) as En. { unfold Alone in IH. destruct (enrolment r); [|done]. destruct IH as (_ & Hl & _). congruence. }
      apply (alone_idle r); [done|done|done|]. cbn. destruct (dropExpired_enrolment now (loadLocked stored rand (manager r))) as [-> _]. by destruct stored.
  - by apply enrollStart_alone.
  - done.
  - unfold maintain. pose proof (dropExpired_keeps now (manager r)) as Hk. pose proof (dropExpired_enrolment now (manager r)) as He.
    destruct (negb _); [by apply (alone_keeps r)|]. destruct (current (dropExpiredLocked now (manager r))); [by apply (alone_keeps r)|]. destruct enroll; by apply (alone_keeps r).
  - assert (Alone (moved (allocated r) now (renewSettle now p answer rand (manager r)))) as Hm; [|by destruct answer].
    unfold Alone. cbn. destruct (renewSettle_enrolment now p answer rand (manager r)) as (-> & -> & ->). unfold Alone in IH. destruct (enrolment r); [|done].
    destruct IH as (? & ? & Hc & ?). split_and!; try done. by apply renewSettle_none.
  - apply (alone_keeps r); [done|done|apply streamFailure_keeps|apply streamFailure_enrolment].
  - done.
Qed.

(** C29: a one-time credential is used for one enrolment at a time and its
    certificate is taken.  However the threads are interleaved, while an
    enrolment is under way no other one starts, its credential is not the one
    Control rejected last, and when Control grants it the new identity becomes
    the Agent's. *)
Theorem enrolment_exclusive r c : run r → enrolment r = Some c →
  credentialDigest c ≠ refusedCredential (manager r)
  ∧ (∀ now file, enrollStart enroll credentialDigest now file (manager r) = (manager r, None))
  ∧ (∀ now p rand, current (enrollSettle credentialDigest now c (Granted p) rand (manager r)) = Some p).
Proof.
  intros Hr%run_alone Hc. unfold Alone in Hr. rewrite Hc in Hr. destruct Hr as (He & _ & Hn & Hd). split; [done|]. split.
  - intros now file. unfold enrollStart, enrollClaim. by rewrite He, orb_true_r.
  - intros now p rand. unfold enrollSettle, installLocked. by rewrite Hn.
Qed.

(** ** Times *)

Lemma backoff_most failures least most : backoff failures least most ≤ most.
Proof. unfold backoff. lia. Qed.

Lemma enrollDelay_most c fails : enrollDelay c fails ≤ enrollRetryMax.
Proof. destruct c; cbn [enrollDelay]; [apply backoff_most|done|done]. Qed.

(** The next attempt is near, or within the validity of the certificate. *)
Definition Timely (m : Manager) (now : time) : Prop :=
  nextEnrollAt m ≤ now + enrollRetryMax ∧ ∀ p, current m = Some p → renewAt m < NotAfter (identity p) ∨ renewAt m ≤ now + renewRetryMax.

Lemma timely_later m now now' : now ≤ now' → Timely m now → Timely m now'.
Proof. intros Hn [H1 H2]. split; [lia|]. intros p Hp. destruct (H2 p Hp); [by left|right; lia]. Qed.

Lemma setCurrent_timely p rand m now : Renewable (identity p) → Timely m now → Timely (setCurrentLocked p rand m) now.
Proof.
  intros Hr [H1 _]. split; [done|]. cbn. intros ? [= <-]. left. destruct Hr as [R1 R2]. set (i := identity p) in *.
  destruct (Z.ltb_spec 0 (jitterOf i)) as [Hj|]; [|done]. pose proof (Z.mod_pos_bound rand (jitterOf i) Hj) as Hm. unfold add.
  assert (jitterOf i ≤ NotAfter i - RenewAfter i); [|lia]. unfold jitterOf, sub.
  assert (Z.quot (Z.max min_int64 (Z.min max_int64 (NotAfter i - RenewAfter i))) 10 ≤ NotAfter i - RenewAfter i); [|lia].
  rewrite Z.quot_div_nonneg by (unfold min_int64, max_int64; lia). assert (0 < max_int64 ∧ min_int64 < 0) by done. apply Z.div_le_upper_bound; lia.
Qed.

Lemma discard_timely m now : 0 ≤ now → Timely m now → Timely (discardLocked m) now.
Proof. intros Hn [H1 H2]. split; [cbn; unfold enrollRetryMax, minute, second; lia|done]. Qed.

Lemma dropExpired_timely m now : 0 ≤ now → Timely m now → Timely (dropExpiredLocked now m) now.
Proof. intros Hn Ht. unfold dropExpiredLocked. destruct (current m); [|done]. destruct (Expired _ _); [by apply discard_timely|done]. Qed.

Lemma rejected_timely p m now : 0 ≤ now → Timely m now → Timely (rejected p m) now.
Proof. intros Hn Ht. unfold rejected. destruct (bool_decide _); [by apply discard_timely|done]. Qed.

Lemma enrollFailed_timely now c e m : Timely m now → Timely (enrollFailed now c e m) now.
Proof. intros [H1 H2]. split; [|done]. cbn. unfold add. pose proof (enrollDelay_most c (S (enrollFails m))). lia. Qed.

Lemma classify_timely now c err m : Timely m now → Timely (classifyEnrollFailure credentialDigest now c err m) now.
Proof. intros Ht. unfold classifyEnrollFailure. repeat case_match; by apply enrollFailed_timely. Qed.

Lemma install_timely expected p rand m now : Renewable (identity p) → Timely m now → Timely (installLocked expected p rand m).1 now.
Proof. intros Hr Ht. unfold installLocked. destruct (bool_decide _); [by apply setCurrent_timely|done]. Qed.

Lemma renewSettle_timely now p answer rand m : 0 ≤ now → (∀ q, answer = Granted q → Renewable (identity q)) → Timely m now → Timely (renewSettle now p answer rand m) now.
Proof.
  intros H0 Hr Ht. destruct answer as [q|err]; cbn; [by apply install_timely; [apply Hr|]|].
  assert (∀ m', current m' = current m → nextEnrollAt m' = nextEnrollAt m → renewAt m' = renewAt m → ∀ a b c d e f g h i j,
    Timely (mkManager a (current m') (if bool_decide (address <$> current m' = Some (address p)) then add now (backoff b renewRetryMin renewRetryMax) else renewAt m') c (nextEnrollAt m') d e f g h i j) now) as Hm.
  { intros m' E1 E2 E3 *. destruct Ht as [H1 H2]. split; cbn; [by rewrite E2|]. intros x Hx. destruct (bool_decide _); [right; unfold add; pose proof (backoff_most b renewRetryMin renewRetryMax); lia|].
    rewrite E3. apply H2. by rewrite <- E1. }
  destruct (certificateRefusal err).2; [by apply Hm|by apply rejected_timely|by apply Hm].
Qed.

Lemma streamFailure_timely now p err trailer m : 0 ≤ now → Timely m now → Timely (streamFailure now p err trailer m) now.
Proof.
  intros H0 Ht. unfold streamFailure. destruct (withControlCode _ _) as [e|]; [|done]. destruct (certificateRefusal e).2; [done| |done].
  destruct p; [by apply rejected_timely|done].
Qed.

Lemma run_timely r : run r → 0 ≤ clock r ∧ Timely (manager r) (clock r).
Proof.
  induction 1 as [now H0|r now stored rand _ [H0 IH] Hc Hn|r now file _ [H0 IH] Hc Hl|r now credential answer rand _ [H0 IH] Hc _ Hn|r now _ [H0 IH] Hc|r now p answer rand _ [H0 IH] Hc Hp Hn|r now p err trailer _ [H0 IH] Hc _|r _ [H0 IH]];
    try (apply (timely_later _ _ _ Hc) in IH; assert (0 ≤ now) as Hnow by lia).
  - split; [done|]. split; [cbn; unfold enrollRetryMax, minute, second; lia|done].
  - split; [done|]. unfold prepare. cbn. apply dropExpired_timely; [done|]. destruct (loaded (manager r)); [done|].
    destruct stored as [p|]; [|done]. apply (setCurrent_timely p rand (mkManager _ _ _ _ _ _ _ _ _ _ _ _)); [by apply (Hn p)|done].
  - assert (Timely (enrollStart enroll credentialDigest now file (manager r)).1 now) as Hm.
    { unfold enrollStart, enrollClaim. destruct (_ || _); [done|]. destruct (bootstrap _ _ _) as [c|msg]; [done|]. by apply (enrollFailed_timely now waiting msg (set_enrolling (manager r) true)). }
    destruct (enrollStart _ _ _ _ _) as [m [c|]]; done.
  - split; [done|]. cbn. unfold enrollSettle. destruct answer as [p|err]; [by apply (install_timely None p rand (manager r)); [apply (Hn p)|]|by apply (classify_timely now credential err (manager r))].
  - unfold maintain. pose proof (dropExpired_timely (manager r) now Hnow IH) as Hm. destruct (negb _); [done|]. destruct (current (dropExpiredLocked now (manager r))); [done|]. by destruct enroll.
  - assert (Timely (renewSettle now p answer rand (manager r)) now) as Hm; [|by destruct answer]. apply renewSettle_timely; [done| |done]. intros q E. by apply (Hn q).
  - split; [done|]. by apply streamFailure_timely.
  - split; [done|]. split; [cbn; unfold enrollRetryMax, minute, second; lia|done].
Qed.

(** The Agent keeps trying.  However the threads are interleaved and
    whatever Control answered, what the loop does next is due within the
    validity of the certificate, or within half an hour; and an enrolment that
    is due is not put off again. *)
Theorem identity_keeps_trying r now : run r → clock r ≤ now → loaded (manager r) = true →
  match maintain enroll now (manager r) with
  | (m, Renewing p, wait) => current m = Some p ∧ now < NotAfter (identity p) ∧ (now + wait < NotAfter (identity p) ∨ wait ≤ renewRetryMax)
  | (m, Enrolling, wait) => current m = None ∧ wait ≤ enrollRetryMax ∧ (enrolling m = false → is_Some (enrollClaim enroll (now + wait) m))
  | (m, Nothing, _) => current m = None ∧ enroll = false
  end.
Proof.
  intros [H0 Ht]%run_timely Hc Hl. apply (timely_later _ _ _ Hc) in Ht. pose proof (dropExpired_timely _ now (ltac:(lia)) Ht) as [T1 T2].
  unfold maintain. destruct (dropExpired_enrolment now (manager r)) as (_ & -> & _). rewrite Hl. cbn [negb].
  set (m := dropExpiredLocked now (manager r)) in *. destruct (current m) as [p|] eqn:Ep.
  - assert (now < NotAfter (identity p)) as Hv.
    { unfold m, dropExpiredLocked in Ep. destruct (current (manager r)) as [x|] eqn:Ex; [|congruence]. destruct (Expired (Some (identity x)) now) eqn:E; [done|].
      assert (x = p) as -> by congruence. cbn in E. unfold before in E. apply negb_false_iff in E. lia. }
    split; [done|]. split; [done|]. assert (0 ≤ renewRetryMax) by done. destruct (T2 p eq_refl); [left|right]; unfold sub, min_int64, max_int64; lia.
  - destruct enroll eqn:Ee; [|done]. split; [done|]. assert (0 ≤ enrollRetryMax) by done. split; [unfold sub, min_int64, max_int64; lia|].
    intros Hen. unfold enrollClaim. rewrite Ep, Hen. cbn [orb negb]. destruct (before _ _) eqn:Eb; [|by eexists]. exfalso. unfold before, sub, min_int64, max_int64 in Eb.
    assert (enrollRetryMax < 2 ^ 62) by done. lia.
Qed.

End Runs.

(** ** An Agent *)

Module Witness.
Import PkiStored.Witness.

#[export] Instance codes : ControlCodes := {|
  ErrorCodeCertRevoked := "agent_cert_revoked"; ErrorCodeCertExpired := "agent_cert_expired"; ErrorCodeCertInvalid := "agent_cert_invalid"; ErrorCodeCertWrongCluster := "agent_cert_wrong_cluster";
  ErrorCodeCertWrongNode := "agent_cert_wrong_node"; ErrorCodeEnrollmentRejected := "agent_enrollment_rejected"
|}.

Definition digest (s : string) : string := s +:+ "#".
Definition revoked : GoError := mkError None (Some (mkStatus Unauthenticated "agent_cert_revoked: node disabled")).
Definition first : Pointer := mkPointer 1 mine.
Definition second_ : Pointer := mkPointer 2 mine.
Definition third : Pointer := mkPointer 3 mine.

(** Enrolled; the certificate is revoked while it is being renewed; enrolled
    again with a new credential. *)
Definition r0 : Run := mkRun newManager 5 0 None [] [] ∅ ∅.
Definition r1 : Run := moved (allocated r0) 5 (prepare true 5 None 0 (manager r0)).1.
Definition enrolTo (r : Run) (now : time) (file : string) : Run :=
  match enrollStart true digest now (Ok file) (manager r) with
  | (m, Some credential) => with_enrolment (moved r now m) (Some credential)
  | (m, None) => moved r now m
  end.
Definition grantTo (r : Run) (now : time) (credential : string) (p : Pointer) : Run :=
  with_enrolment (moved (allocated r) now (enrollSettle digest now credential (Granted p) 7 (manager r))) None.
Definition r2 : Run := enrolTo r1 5 "anixagt_a".
Definition r3 : Run := grantTo r2 6 "anixagt_a" first.
Definition r4 : Run := match maintain true 7 (manager r3) with (m, Renewing p, _) => with_renewal (moved r3 7 m) p | (m, _, _) => moved r3 7 m end.
Definition r5 : Run := moved r4 8 (streamFailure 8 (Some first) revoked [] (manager r4)).
Definition r6 : Run := renewed (moved (allocated r5) 9 (renewSettle 9 first (Granted second_) 7 (manager r5))) first second_.
Definition r7 : Run := enrolTo r6 9 "anixagt_b".
Definition r8 : Run := grantTo r7 10 "anixagt_b" third.

Example revoked_while_renewed :
  current (manager r3) = Some first ∧ current (manager r5) = None ∧ current (manager r6) = None ∧ current (manager r8) = Some third
  ∧ enrolment r7 = Some "anixagt_b" ∧ dropped r8 = {[ 1%nat ]} ∧ renewalOf r8 !! 2%nat = Some 1%nat.
Proof. vm_compute. done. Qed.

Lemma mine_renewable : Renewable mine.
Proof. split; [vm_compute; discriminate|vm_compute; reflexivity]. Qed.

Lemma r3_run : run true digest r2 ∧ run true digest r3.
Proof.
  assert (run true digest r1) as H1.
  { apply (run_prepare true digest r0 5 None 0); [apply run_start; done|done|done]. }
  assert (run true digest r2) as H2 by (apply (run_enrol true digest r1 5 (Ok "anixagt_a")); [done|done|vm_compute; reflexivity]).
  split; [exact H2|]. apply (run_enrolled true digest r2 6 "anixagt_a" (Granted first) 7); [done|done|vm_compute; reflexivity|].
  intros p [= <-]. split; [vm_compute; reflexivity|apply mine_renewable].
Qed.

Lemma r8_run : run true digest r8.
Proof.
  assert (run true digest r4) as H4 by (apply (run_maintain true digest r3 7); [apply r3_run|done]).
  assert (run true digest r5) as H5.
  { apply (run_failure true digest r4 8 (Some first) revoked []); [done|done|]. intros q [= <-]. vm_compute. by left. }
  assert (run true digest r6) as H6.
  { apply (run_renewed true digest r5 9 first (Granted second_) 7); [done|done|vm_compute; by left|]. intros q [= <-]. split; [vm_compute; reflexivity|apply mine_renewable]. }
  assert (run true digest r7) as H7 by (apply (run_enrol true digest r6 9 (Ok "anixagt_b")); [done|done|vm_compute; reflexivity]).
  apply (run_enrolled true digest r7 10 "anixagt_b" (Granted third) 7); [done|done|vm_compute; reflexivity|].
  intros p [= <-]. split; [vm_compute; reflexivity|apply mine_renewable].
Qed.


Lemma enrolment_exclusive_witness : enrollStart true digest 6 (Ok "anixagt_c") (manager r2) = (manager r2, None)
  ∧ current (enrollSettle digest 6 "anixagt_a" (Granted first) 7 (manager r2)) = Some first.
Proof.
  destruct (enrolment_exclusive true digest r2 "anixagt_a" (proj1 r3_run)) as (_ & Hs & Hg); [vm_compute; reflexivity|].
  split; [apply Hs|apply Hg].
Defined.

Lemma identity_keeps_trying_witness : ∃ m p wait, maintain true 7 (manager r3) = (m, Renewing p, wait) ∧ 7 < NotAfter (identity p).
Proof.
  pose proof (identity_keeps_trying true digest r3 7 (proj2 r3_run)) as Hk. destruct (maintain true 7 (manager r3)) as [[m t] wait] eqn:E.
  assert (t = Renewing first) as ->. { change t with (m, t, wait).1.2. rewrite <- E. vm_compute. reflexivity. }
  exists m, first, wait. split; [reflexivity|]. apply Hk; [vm_compute; discriminate|vm_compute; reflexivity].
Defined.

End Witness.

End IdentityRuns.
