(* ===== verification/Upgrade.v ===== *)
(** * Agent upgrades: the updater (upgrade/upgrade.go, apply.go, kernel.go)

    `anix-agent upgrade apply`, run as root: it takes a request the
    unprivileged Agent wrote, verifies the release again, keeps the installed
    binary, swaps the new one in, restarts the Agent and reinstates the previous
    binary when the new one does not stay up.

    The world of Disk.v is the directory of the installed binaries (the names
    are those of the default layout).  The staging directory belongs to the
    Agent, so whatever is read there is an arbitrary answer, a new one at every
    read; so are systemctl, the output of the binaries, and the clock.
    Signatures, hashes, archives and JSON are the class [UpgradeCodec].  Errors
    are the codes; an error without one is "". *)

From S2P Require Import Prelude GoStrings GoNet Disk.
From Stdlib Require Import Ascii String.

Module Upgrade.
Import GoNet Disk.
#[local] Open Scope store_scope.

(** ** Versions *)

Definition is_number (s : string) : bool := negb (String.eqb s "") && all_chars is_digit s.

(** [versionPattern] without the anchors and the leading "v": the submatches of
    the numbers, the pre-release, its number and the suffix. *)
Definition preRelease (s : string) : option (string * string * string * string) :=
  match split s "." with
  | [name] => Some (name, "", "", "")
  | [name; n] => if is_number n then Some (name, n, "", "") else None
  | [name; n; suffix; m] =>
    if is_number n && (String.eqb suffix "dev" || String.eqb suffix "hf") && is_number m then Some (name, n, suffix, m) else None
  | _ => None
  end.

Definition rank (name : string) : option Z :=
  if String.eqb name "alpha" then Some 0 else if String.eqb name "beta" then Some 1 else if String.eqb name "rc" then Some 2 else None.

Definition numbers (s : string) : option (list Z) :=
  match split s "." with
  | [a; b; c] => if is_number a && is_number b && is_number c
                 then a ← Atoi a; b ← Atoi b; c ← Atoi c; Some [a; b; c] else None
  | _ => None
  end.

(** Major, minor, patch, pre-release rank and number, suffix rank and number. *)
Definition parseVersion (version : string) : option (list Z) :=
  let s := trim_prefix (trim_space version) "v" in
  match cut s "-" with
  | None => main ← numbers s; Some (main ++ [3; 0; 0; 0])
  | Some (main, pre) =>
    main ← numbers main;
    '(name, n, suffix, m) ← preRelease pre;
    r ← rank name;
    n ← (if String.eqb n "" then Some 0 else Atoi n);
    if String.eqb suffix "" then Some (main ++ [r; n; 0; 0])
    else m ← Atoi m; Some (main ++ [r; n; (if String.eqb suffix "dev" then 1 else 2); m])
  end.

Fixpoint compareParts (a b : list Z) : Z :=
  match a, b with
  | x :: a, y :: b => if x <? y then -1 else if y <? x then 1 else compareParts a b
  | _, _ => 0
  end.

Definition CompareVersions (a b : string) : option Z :=
  match parseVersion a, parseVersion b with
  | Some a, Some b => Some (compareParts a b)
  | _, _ => None
  end.

Definition validVersion (version : string) : bool :=
  bool_decide (is_Some (parseVersion version)) && has_prefix version "v".

Example versions :
  CompareVersions "v5.0.0-rc.15" "v5.0.0-rc.15.dev.1" = Some (-1) ∧ CompareVersions "v5.0.0-rc.15.dev.42" "v5.0.0-rc.15.hf.1" = Some (-1) ∧
  CompareVersions "v5.0.0-rc.15.hf.1" "v5.0.0-rc.16" = Some (-1) ∧ CompareVersions "5.0.0" "v5.0.0-rc.16" = Some 1 ∧
  CompareVersions "v1.2" "v1.2.3" = None ∧ parseVersion "v1.2.3-gamma" = None ∧ parseVersion "vv1.2.3" = None.
Proof. vm_compute. done. Qed.

(** ** Requests *)

Record KernelHandOff := mkKernelHandOff {
  KName : string; KVersion : string; KArch : string; KAsset : string; KFile : string; KSize : Z; KSHA256 : string;
  KSums : string; KSumsSignature : string
}.

Record HandOff := mkHandOff {
  Schema : string; OperationID : string; CampaignID : string; Action : string; TargetVersion : string; PreviousVersion : string;
  Arch : string; HFile : string; HSize : Z; HSHA256 : string; Signature : string; HKernel : option KernelHandOff; RequestedAtMS : Z
}.

Definition emptyHandOff : HandOff := mkHandOff "" "" "" "" "" "" "" "" 0 "" "" None 0.

Record PrevRecordFile := mkPrev { PVersion : string; PSHA256 : string; KeptAtMS : Z; ReplacedFor : string }.
Record KernelRecordFile := mkKernelRecord { KRVersion : string; KRSHA256 : string; InstalledAtMS : Z; KRServer : option bool }.

(** Entries of a zip and of a tar archive; no content when reading it fails. *)
Record ZipEntry := mkEntry { zName : string; zRegular : bool; zSize : Z; zContent : option string }.

(** The parts of an SSH signature (PROTOCOL.sshsig). *)
Record SSHWire := mkWire {
  WireVersion : Z; WirePublicKey : string; WireNamespace : string; WireReserved : string; WireHash : string; WireSignature : string
}.

(** The SDK's constants and functions, cryptography, archives and JSON. *)
Class UpgradeCodec := {
  UpgradeErrorInvalidRequest : string; UpgradeErrorDigest : string; UpgradeErrorSignature : string;
  UpgradeErrorDowngrade : string; UpgradeErrorNoPrevious : string;
  UpgradeActionUpgrade : string; UpgradeActionRollback : string;
  MaxUpgradeArtifactBytes : Z; MaxUpgradeKernelBytes : Z; KernelAnxNode : string;
  KernelVersionPattern : string → bool;
  KernelSum : string → string → option string;
  SameAgentVersion : string → string → bool;
  sha256_hex : string → string;
  base64_decode : string → option string;
  ed25519_verify : string → string → string → bool;
  ssh_wire : string → option SSHWire; (* ssh.Unmarshal *)
  ssh_public_key : string → option string; (* ssh.ParsePublicKey, marshalled again *)
  ssh_authorized_key : string → option string; (* ssh.ParseAuthorizedKey, marshalled *)
  ssh_signature : string → option string;
  ssh_marshal : string → string → string → string → string;
  ssh_key_verify : string → string → string → bool;
  sha512 : string → string;
  sha256 : string → string;
  zipEntries : string → option (list ZipEntry);
  tarEntries : string → option (list ZipEntry * bool); (* of a .tar.gz; whether the archive is broken after them *)
  decodeHandOff : string → option HandOff;
  decodePrev : string → option PrevRecordFile;
  encodePrev : PrevRecordFile → string;
  decodeKernelRecord : string → option KernelRecordFile;
  encodeKernelRecord : KernelRecordFile → string
}.

Definition BinaryName : string := "anix-agent".
Definition PrevBinary : string := "anix-agent.prev".
Definition PrevRecord : string := "anix-agent.prev.json".
Definition KernelFile : string := "anx-node".
Definition KernelPrevFile : string := "anx-node.prev".
Definition ServerFile : string := "anx-server".
Definition ServerPrevFile : string := "anx-server.prev".
Definition KernelRecord : string := "anx-node.json".
Definition ReleaseBinary : string := "anix-agent".
Definition KernelBinary : string := "anx-node".
Definition ServerBinary : string := "anx-server".
Definition HandOffSchema : string := "anixops.agent-upgrade-handoff/v1".

Definition maxHandOffBytes : Z := 16 * 2 ^ 10.
Definition maxRecordBytes : Z := 64 * 2 ^ 10.
Definition maxBinaryBytes : Z := 512 * 2 ^ 20.

Definition ErrorVersionMismatch : string := "upgrade_version_mismatch".
Definition ErrorStartFailed : string := "upgrade_start_failed".
Definition ErrorInstall : string := "upgrade_install_failed".

(** [assetPattern], [kernelAssetPattern] and [sha256Pattern]: what is between a
    fixed start and a fixed end that do not overlap. *)
Definition between (s start finish : string) : option string :=
  if has_prefix s start && has_suffix s finish && (len start + len finish <=? len s)
  then Some (trim_suffix (trim_prefix s start) finish) else None.

Definition nonempty_of (p : ascii → bool) (s : string) : bool := negb (String.eqb s "") && all_chars p s.

Definition assetPattern (s : string) : bool :=
  match between s "anix-agent-linux-" ".zip" with
  | Some m => nonempty_of (λ c, is_lower_letter c || is_digit c || Ascii.eqb c "-") m
  | None => false
  end.

(** The architecture has no dash, so it starts after the last one. *)
Definition kernelAssetPattern (s : string) : bool :=
  match between s "anx-node-" "-linux-musl.tar.gz" with
  | Some m =>
    match last_index m "-" with
    | Some i => nonempty_of (λ c, is_lower_letter c || is_digit c || Ascii.eqb c "." || Ascii.eqb c "-") (slice m 0 i)
                && nonempty_of (λ c, is_lower_letter c || is_digit c || Ascii.eqb c "_") (drop_chars (S i) m)
    | None => false
    end
  | None => false
  end.

Definition is_hex_digit (c : ascii) : bool := is_digit c || in_range "a" "f" c.

Definition sha256Pattern (s : string) : bool := (len s =? 64) && all_chars is_hex_digit s.

(** [filepath.Base(s) == s] for a name these patterns match. *)
Definition is_base (s : string) : bool := negb (String.eqb s "") && negb (contains_char s "/").

Example patterns :
  assetPattern "anix-agent-linux-amd64.zip" = true ∧ assetPattern "anix-agent-linux-.zip" = false ∧ assetPattern "anix-agent-linux-../x.zip" = false ∧
  kernelAssetPattern "anx-node-1.2.0-x86_64-linux-musl.tar.gz" = true ∧ kernelAssetPattern "anx-node-x86_64-linux-musl.tar.gz" = false.
Proof. vm_compute. done. Qed.

(** ** Files *)

(** The deferred [d] runs after [m] unless the process is gone. *)
Definition finally {A} (m : M A) (d : M unit) : M A := r <- attempt m ;; _ <- attempt d ;; lift r.

(** An error with the code [code] in place of the one of [m]. *)
Definition coded {A} (code : string) (m : M A) : M A :=
  r <- attempt m ;; match r with Ok a => ret a | Err _ => throw code end.

(** A panic ends the updater.  (The temporary files its deferred calls would
    remove stay.) *)
Definition unwound {A} (r : option A) : M A := match r with Some a => ret a | None => λ w, (w, Crashed) end.

Definition ignore (m : M unit) : M unit := _ <- attempt m ;; ret tt.

(** [io.LimitReader]. *)
Definition limited (content : string) (n : Z) : string := if len content <=? n then content else slice content 0 (Z.to_nat n).

Section Applier.
Context `{UpgradeCodec}.
Variable fate : nat → Fate.
Variable random : nat → string.

(** What the host answers, by the number of the call: the size and the content
    of a staged file, the request, systemctl's and a binary's output, the time,
    whether the deadline has passed and the context is done. *)
Record Host := mkHost {
  staged : nat → option (Z * string);
  requestFile : nat → option (Z * string);
  systemctl : nat → string;
  versionOutput : nat → string → string;
  clock : nat → Z;
  late : nat → bool;
  cancelled : nat → bool
}.

Variable host : Host.

(** A call with no effect on the installed files. *)
Definition ask {A} (answer : nat → option A) : M A :=
  call fate (λ w, (w, match answer (calls w) with Some a => Value a | None => Error "" end)) unchanged.

(** [openRegular] and reading an installed file. *)
Definition readLib (name : string) : M string :=
  call fate (λ w, (w, match f ← dir w !! name; heap w !! f with
                      | Some f => if regular f then Value (data f) else Error ""
                      | None => Error ""
                      end)) unchanged.

Definition readSmall (name : string) (limit : Z) : M string :=
  b <- readLib name ;; if limit <? len b then throw "" else ret b.

Definition fileSHA256 (name : string) : M string := b <- readLib name ;; ret (sha256_hex b).

Definition copyReader (content before after : string) (mode limit : Z) : M string :=
  temp <- createTemp fate random before after ;;
  let '(name, id) := temp in
  r <- attempt (write fate id (limited content (limit + 1)) ;;;
                (if limit <? len content then throw "" else ret tt) ;;; chmod fate id mode ;;; sync fate id) ;;
  closed <- attempt (close fate) ;;
  if is_ok r && is_ok closed then ret name
  else _ <- attempt (remove fate name) ;; throw "".

Definition copyFile (source before : string) : M string :=
  content <- readLib source ;; copyReader content before "" 493 maxBinaryBytes. (* 0o755 *)

Definition copyIn (size : Z) : M string :=
  file <- coded UpgradeErrorInvalidRequest (ask (staged host)) ;;
  let '(actual, content) := file in
  if negb (actual =? size) then throw UpgradeErrorDigest
  else coded ErrorInstall (copyReader (limited content (size + 1)) ".upgrade." ".zip" 384 size).

Definition writeFileAtomic (name content : string) : M unit :=
  temp <- createTemp fate random ("." +:+ name +:+ ".") ".tmp" ;;
  let '(temporary, id) := temp in
  r <- attempt (orClose fate (write fate id content) ;;; orClose fate (chmod fate id 420) ;;; (* 0o644 *)
                orClose fate (sync fate id) ;;; close fate ;;; rename fate temporary name) ;;
  match r with Ok _ => ret tt | Err e => _ <- attempt (remove fate temporary) ;; throw e end.

(** ** Releases *)

Definition VerifyRelease (content : string) (size : Z) (digest signature key : string) : result unit :=
  if negb (len content =? size) then Err UpgradeErrorDigest
  else if negb (String.eqb (sha256_hex content) (to_lower (trim_space digest))) then Err UpgradeErrorDigest
  else if negb (len key =? 32) then Err UpgradeErrorSignature
  else match base64_decode (trim_space signature) with
       | None => Err UpgradeErrorSignature
       | Some sig => if negb (len sig =? 64) then Err UpgradeErrorSignature
                     else if ed25519_verify key content sig then Ok tt else Err UpgradeErrorSignature
       end.

(** [unpack]: the regular files named anix-agent, of which there must be one. *)
Fixpoint unpackEntries (entries : list ZipEntry) (binary : option string) : M string :=
  match entries with
  | [] => match binary with Some path => ret path | None => throw ErrorInstall end
  | e :: entries =>
    let cleanup := match binary with Some path => ignore (remove fate path) | None => ret tt end in
    if negb (String.eqb (trim_prefix (zName e) "./") ReleaseBinary) || negb (zRegular e) then unpackEntries entries binary
    else if maxBinaryBytes <? zSize e then cleanup ;;; throw ErrorInstall
    else match binary with
         | Some _ => cleanup ;;; throw ErrorInstall
         | None =>
           match zContent e with
           | None => throw ErrorInstall
           | Some content =>
             path <- coded ErrorInstall (copyReader content (String "." ReleaseBinary +:+ ".new.") "" 493 maxBinaryBytes) ;;
             unpackEntries entries (Some path)
           end
         end
  end.

Definition unpack (zipPath : string) : M string :=
  content <- coded ErrorInstall (readLib zipPath) ;;
  match zipEntries content with None => throw ErrorInstall | Some entries => unpackEntries entries None end.

Definition printsVersion (output version : string) : bool := existsb (λ field, SameAgentVersion field version) (Fields output).

Definition checkVersion (binary version : string) : M unit :=
  content <- coded ErrorVersionMismatch (readLib binary) ;;
  output <- coded ErrorVersionMismatch (ask (λ n, Some (versionOutput host n content))) ;;
  if printsVersion output version then ret tt else throw ErrorVersionMismatch.

(** ** The kernel package *)

Definition KernelReleaseKey : string := "ssh-ed25519 AAAAC3NzaC1lZDI1NTE5AAAAIH9RCOAuDwKyWAXIp0szDWKN5t98NKsCK4isHLR05yLT".
Definition KernelSignatureNamespace : string := "anx-release".

Definition armorBegin : string := "-----BEGIN SSH SIGNATURE-----".
Definition armorEnd : string := "-----END SSH SIGNATURE-----".

Definition concat_strings (l : list string) : string := foldr (λ a b, a +:+ b) "" l.

(** The signature inside the armor is one of [message] by [authorizedKey]. *)
Definition verifyBody (message body authorizedKey namespace : string) : bool :=
  match base64_decode (concat_strings (Fields body)) with
  | None => false
  | Some blob =>
    if negb (has_prefix blob "SSHSIG") then false
    else match ssh_wire (drop_chars 6 blob) with
    | None => false
    | Some wire =>
      if negb (WireVersion wire =? 1) || negb (String.eqb (WireNamespace wire) namespace) then false
      else match ssh_public_key (WirePublicKey wire), ssh_authorized_key authorizedKey with
      | Some signer, Some trusted =>
        if negb (String.eqb signer trusted) then false
        else
          let digest := if String.eqb (WireHash wire) "sha512" then Some (sha512 message)
                        else if String.eqb (WireHash wire) "sha256" then Some (sha256 message) else None in
          match digest, ssh_signature (WireSignature wire) with
          | Some digest, Some signature =>
            ssh_key_verify trusted ("SSHSIG" +:+ ssh_marshal namespace (WireReserved wire) (WireHash wire) digest) signature
          | _, _ => false
          end
      | _, _ => false
      end
    end
  end.

(** Whether [armored] is a signature of [message] by the key of the line
    [authorizedKey] in [namespace].  [None] is a panic: the two ends of the
    armor may share their dashes, and then the slice between them is out of
    range. *)
Definition VerifySSHSignature (message armored authorizedKey namespace : string) : option bool :=
  let text := trim_space armored in
  if negb (has_prefix text armorBegin) || negb (has_suffix text armorEnd) then Some false
  else match between text armorBegin armorEnd with
       | None => None
       | Some body => Some (verifyBody message body authorizedKey namespace)
       end.

Definition VerifyKernel (content : string) (k : KernelHandOff) : option (result unit) :=
  if negb (len content =? KSize k) then Some (Err UpgradeErrorDigest)
  else if negb (String.eqb (sha256_hex content) (KSHA256 k)) then Some (Err UpgradeErrorDigest)
  else if negb (bool_decide (KernelSum (KSums k) (KAsset k) = Some (sha256_hex content))) then Some (Err UpgradeErrorDigest)
  else ok ← VerifySSHSignature (KSums k) (KSumsSignature k) KernelReleaseKey KernelSignatureNamespace;
       Some (if ok : bool then Ok tt else Err UpgradeErrorSignature).

(** The loop of [untarFile]: the first regular file of that name. *)
Fixpoint findMember (entries : list ZipEntry) (broken : bool) (member : string) : result (option ZipEntry) :=
  match entries with
  | [] => if broken then Err ErrorInstall else Ok None
  | e :: entries =>
    if negb (String.eqb (trim_prefix (zName e) "./") member) || negb (zRegular e) then findMember entries broken member
    else if maxBinaryBytes <? zSize e then Err ErrorInstall
    else Ok (Some e)
  end.

(** [None] when the package has no such member; else its path and SHA-256. *)
Definition untarFile (content member base : string) : M (option (string * string)) :=
  match tarEntries content with
  | None => throw ErrorInstall
  | Some (entries, broken) =>
    found <- lift (findMember entries broken member) ;;
    match found with
    | None => ret None
    | Some e =>
      match zContent e with
      | None => throw ErrorInstall
      | Some file => path <- coded ErrorInstall (copyReader file (String "." base +:+ ".new.") "" 493 maxBinaryBytes) ;;
                     ret (Some (path, sha256_hex file))
      end
    end
  end.

Definition unpackListed (content member base sums : string) : M (option (string * string)) :=
  unpacked <- untarFile content member base ;;
  match unpacked with
  | None => ret None
  | Some (path, digest) =>
    if bool_decide (KernelSum sums member = Some digest) then ret (Some (path, digest))
    else _ <- attempt (remove fate path) ;; throw UpgradeErrorDigest
  end.

Definition checkKernelRuns (binary : string) : M unit :=
  content <- coded ErrorVersionMismatch (readLib binary) ;;
  output <- coded ErrorVersionMismatch (ask (λ n, Some (versionOutput host n content))) ;;
  match Fields output with
  | field :: _ => if String.eqb field KernelBinary then ret tt else throw ErrorVersionMismatch
  | [] => throw ErrorVersionMismatch
  end.

(** [keepPrevious]: nothing is kept of a file that is not there. *)
Definition keepPrevious (name prev : string) : M unit :=
  there <- attempt (call fate (λ w, (w, if bool_decide (is_Some (dir w !! name)) then Value tt else Error "")) unchanged) ;;
  match there with
  | Err _ => ret tt
  | Ok _ =>
    kept <- copyFile name (String "." name +:+ ".prev.") ;;
    r <- attempt (rename fate kept prev) ;;
    match r with Ok _ => ret tt | Err e => _ <- attempt (remove fate kept) ;; throw e end
  end.

Definition swapKernel (binary : string) (server : option string) (k : KernelHandOff) (digest : string) : M unit :=
  coded ErrorInstall (keepPrevious KernelFile KernelPrevFile) ;;;
  (match server with Some _ => coded ErrorInstall (keepPrevious ServerFile ServerPrevFile) | None => ret tt end) ;;;
  coded ErrorInstall (rename fate binary KernelFile) ;;;
  (match server with Some path => coded ErrorInstall (rename fate path ServerFile) | None => ret tt end) ;;;
  now <- (λ w, (w, Value (clock host (calls w)))) ;;
  coded ErrorInstall (writeFileAtomic KernelRecord
    (encodeKernelRecord (mkKernelRecord (KVersion k) digest now (Some (bool_decide (is_Some server)))))).

Definition installKernel (k : KernelHandOff) : M unit :=
  packagePath <- copyIn (KSize k) ;;
  finally (
    content <- coded ErrorInstall (readLib packagePath) ;;
    verdict <- unwound (VerifyKernel content k) ;;
    lift verdict ;;;
    let dist := trim_suffix (KAsset k) ".tar.gz" +:+ "/" in
    unpacked <- unpackListed content (dist +:+ KernelBinary) KernelBinary (KSums k) ;;
    match unpacked with
    | None => throw ErrorInstall
    | Some (binary, digest) =>
      finally (
        checkKernelRuns binary ;;;
        server <- unpackListed content (dist +:+ ServerBinary) ServerBinary (KSums k) ;;
        match server with
        | Some (path, _) => finally (swapKernel binary (Some path) k digest) (remove fate path)
        | None => swapKernel binary None k digest
        end) (remove fate binary)
    end) (remove fate packagePath).

(** [removeKernel]: every error is ignored. *)
Definition removeKernel : M unit :=
  ignore (remove fate KernelRecord) ;;;
  (r <- attempt (rename fate KernelPrevFile KernelFile) ;; if is_ok r then ret tt else ignore (remove fate KernelFile)) ;;;
  (r <- attempt (rename fate ServerPrevFile ServerFile) ;; if is_ok r then ret tt else ignore (remove fate ServerFile)).

(** ** Keeping, restoring, restarting *)

(** The installed release and its key, and how often the unit is looked at
    while it must stay up ([StayUp] over [Poll]). *)
Variable Version : string.
Variable key : string.
Variable polls : nat.

Definition keep (replacedFor : string) : M unit :=
  temp <- coded ErrorInstall (copyFile BinaryName ".anix-agent.prev.") ;;
  r <- attempt (fileSHA256 temp) ;;
  match r with
  | Err _ => _ <- attempt (remove fate temp) ;; throw ErrorInstall
  | Ok sum =>
    r <- attempt (rename fate temp PrevBinary) ;;
    match r with
    | Err _ => _ <- attempt (remove fate temp) ;; throw ErrorInstall
    | Ok _ =>
      now <- (λ w, (w, Value (clock host (calls w)))) ;;
      coded ErrorInstall (writeFileAtomic PrevRecord (encodePrev (mkPrev Version sum now replacedFor)))
    end
  end.

(** [run]: systemctl with its output. *)
Definition run : M string := ask (λ n, Some (systemctl host n)).

Definition restore : M unit :=
  temp <- copyFile PrevBinary ".anix-agent.restore." ;;
  r <- attempt (rename fate temp BinaryName) ;;
  match r with
  | Err e => _ <- attempt (remove fate temp) ;; throw e
  | Ok _ => _ <- run ;; ret tt
  end.

Definition parseShowLine (x : string * string) (line : string) : string * string :=
  match cut (trim_space line) "=" with
  | None => x
  | Some (k, v) => if String.eqb k "ActiveState" then (v, x.2) else if String.eqb k "MainPID" then (x.1, v) else x
  end.

Definition parseShow (output : string) : string * string :=
  let '(active, mainPID) := foldl parseShowLine ("", "") (split output "010") in
  (if String.eqb active "" then "unknown" else active, mainPID).

(** The unit is active with one main process at every look; the deadline has
    passed at the last one at the latest. *)
Fixpoint watch (remaining : nat) (pid : string) : M unit :=
  output <- run ;;
  let '(active, mainPID) := parseShow output in
  if negb (String.eqb active "active") then throw ""
  else if String.eqb mainPID "" || String.eqb mainPID "0" then throw ""
  else if negb (String.eqb pid "") && negb (String.eqb pid mainPID) then throw ""
  else match remaining with
       | O => ret tt
       | S remaining => λ w, if late host (calls w) then (w, Value tt)
                        else if cancelled host (calls w) then (w, Error "")
                        else watch remaining mainPID w
       end.

Definition restartAndWatch : M unit := _ <- run ;; watch polls "".

(** ** Applying a request *)

Definition OutcomeInstalled : string := "installed".
Definition OutcomeRolledBack : string := "rolled_back".
Definition OutcomeCurrent : string := "current".
Definition OutcomeRestored : string := "restored".
Definition OutcomeRefused : string := "refused".

(** The outcome, kernel and error of [Result] as [apply] leaves them;
    [reinstated] says that the error's text tells the previous one is back. *)
Record Report := mkReport { Outcome : string; Kernel : string; Failure : option string; reinstated : bool }.

Definition success (outcome kernel : string) : Report := mkReport outcome kernel None false.
Definition failure (outcome kernel code : string) : Report := mkReport outcome kernel (Some code) false.
Definition restored (kernel : string) (ok : bool) : Report := mkReport OutcomeRestored kernel (Some ErrorStartFailed) ok.

Definition InstalledKernel : M string :=
  r <- attempt (
    b <- readSmall KernelRecord maxRecordBytes ;;
    match decodeKernelRecord b with
    | None => throw ""
    | Some record =>
      if negb (KernelVersionPattern (KRVersion record)) || negb (sha256Pattern (KRSHA256 record)) then throw "" else
      _ <- readLib KernelFile ;;
      (if bool_decide (KRServer record = Some false) then ret "" else readLib ServerFile) ;;;
      ret (KRVersion record)
    end) ;;
  ret (match r with Ok v => v | Err _ => "" end).

Definition kernelOnly (k : KernelHandOff) : M Report :=
  installed <- InstalledKernel ;;
  if String.eqb installed (KVersion k) then ret (success OutcomeCurrent "")
  else
    installKernel k ;;;
    r <- attempt restartAndWatch ;;
    match r with
    | Ok _ => ret (success OutcomeInstalled (KVersion k))
    | Err _ => removeKernel ;;; r <- attempt run ;; ret (restored "" (is_ok r))
    end.

Definition ReadPrevRecord : M PrevRecordFile :=
  b <- readSmall PrevRecord maxRecordBytes ;;
  match decodePrev b with
  | None => throw ""
  | Some record => if negb (validVersion (PVersion record)) || negb (sha256Pattern (PSHA256 record)) then throw "" else ret record
  end.

(** The swap of the binary in [path] and the restart; [kernel] was installed
    before it. *)
Definition swap (path outcome : string) (kernel : option string) (target : string) : M Report :=
  r <- attempt (keep target ;;; coded ErrorInstall (rename fate path BinaryName)) ;;
  match r with
  | Err code => ret (failure "" (default "" kernel) code)
  | Ok _ =>
    r <- attempt restartAndWatch ;;
    match r with
    | Ok _ => ret (success outcome (default "" kernel))
    | Err _ =>
      (match kernel with None => ret tt | Some _ => removeKernel end) ;;;
      r <- attempt restore ;; ret (restored "" (is_ok r))
    end
  end.

Definition rollback (handOff : HandOff) : M Report :=
  record <- coded UpgradeErrorNoPrevious ReadPrevRecord ;;
  if negb (SameAgentVersion (PVersion record) (TargetVersion handOff)) then throw UpgradeErrorNoPrevious
  else
    sum <- coded UpgradeErrorNoPrevious (fileSHA256 PrevBinary) ;;
    if negb (String.eqb sum (PSHA256 record)) then throw UpgradeErrorDigest
    else
      path <- coded ErrorInstall (copyFile PrevBinary ".anix-agent.rollback.") ;;
      finally (checkVersion path (TargetVersion handOff) ;;; swap path OutcomeRolledBack None (TargetVersion handOff)) (remove fate path).

Definition upgrade (handOff : HandOff) : M Report :=
  zipPath <- copyIn (HSize handOff) ;;
  finally (
    content <- coded ErrorInstall (readLib zipPath) ;;
    lift (VerifyRelease content (HSize handOff) (HSHA256 handOff) (Signature handOff) key) ;;;
    newBinary <- unpack zipPath ;;
    finally (
      checkVersion newBinary (TargetVersion handOff) ;;;
      match HKernel handOff with
      | None => swap newBinary OutcomeInstalled None (TargetVersion handOff)
      | Some k => installKernel k ;;; swap newBinary OutcomeInstalled (Some (KVersion k)) (TargetVersion handOff)
      end) (remove fate newBinary)) (remove fate zipPath).

Definition apply (handOff : HandOff) : M Report :=
  if SameAgentVersion Version (TargetVersion handOff) then
    match HKernel handOff with
    | Some k => if String.eqb (Action handOff) UpgradeActionUpgrade then kernelOnly k else ret (success OutcomeCurrent "")
    | None => ret (success OutcomeCurrent "")
    end
  else if String.eqb (Action handOff) UpgradeActionRollback then rollback handOff
  else if String.eqb (HFile handOff) "" then throw UpgradeErrorInvalidRequest
  else match CompareVersions (TargetVersion handOff) Version with
       | None => throw UpgradeErrorDowngrade
       | Some order => if order <? 0 then throw UpgradeErrorDowngrade else upgrade handOff
       end.

(** ** The request *)

Definition validKernelHandOff (k : KernelHandOff) : bool :=
  String.eqb (KName k) KernelAnxNode && KernelVersionPattern (KVersion k)
  && kernelAssetPattern (KAsset k) && has_prefix (KAsset k) (KernelAnxNode +:+ "-" +:+ KVersion k +:+ "-")
  && String.eqb (KFile k) (KAsset k)
  && (0 <? KSize k) && (KSize k <=? MaxUpgradeKernelBytes) && sha256Pattern (KSHA256 k)
  && negb (String.eqb (KSums k) "") && (len (KSums k) <=? maxRecordBytes)
  && negb (String.eqb (KSumsSignature k) "") && (len (KSumsSignature k) <=? maxRecordBytes).

Definition validAction (h : HandOff) : bool :=
  if String.eqb (Action h) UpgradeActionRollback then String.eqb (HFile h) ""
  else if String.eqb (Action h) UpgradeActionUpgrade then
    if String.eqb (HFile h) "" && bool_decide (is_Some (HKernel h)) then true
    else is_base (HFile h) && assetPattern (HFile h)
         && (0 <? HSize h) && (HSize h <=? MaxUpgradeArtifactBytes) && sha256Pattern (HSHA256 h)
  else false.

Definition validHandOff (h : HandOff) : bool :=
  String.eqb (Schema h) HandOffSchema && validVersion (TargetVersion h)
  && (String.eqb (PreviousVersion h) "" || validVersion (PreviousVersion h))
  && match HKernel h with
     | None => true
     | Some k => String.eqb (Action h) UpgradeActionUpgrade && validKernelHandOff k
     end
  && validAction h.

Definition readHandOff : M HandOff :=
  file <- coded UpgradeErrorInvalidRequest (ask (requestFile host)) ;;
  let '(size, content) := file in
  if maxHandOffBytes <? size then throw UpgradeErrorInvalidRequest
  else match decodeHandOff (limited content (maxHandOffBytes + 1)) with
       | None => throw UpgradeErrorInvalidRequest
       | Some h => if validHandOff h then ret h else throw UpgradeErrorInvalidRequest
       end.

(** [ErrorCode]: an error without a code failed the installation. *)
Definition ErrorCode (code : string) : string := if String.eqb code "" then ErrorInstall else code.

(** The files of the staging directory: consumed, removed and written there. *)
Definition stagingStep : M unit := ignore (ask (λ _, Some tt)).

Definition Apply : M Report :=
  ask (λ _, Some tt) ;;; (* the request is renamed *)
  r <- attempt (h <- readHandOff ;; apply h) ;;
  stagingStep ;;; stagingStep ;;; (* the staged files are removed *)
  let report := match r with
                | Ok x => mkReport (if bool_decide (is_Some (Failure x)) && String.eqb (Outcome x) "" then OutcomeRefused else Outcome x)
                            (Kernel x) (ErrorCode <$> Failure x) (reinstated x)
                | Err code => failure OutcomeRefused "" (ErrorCode code)
                end in
  stagingStep ;;; (* result.json *)
  stagingStep ;;; (* the consumed request is removed *)
  ret report.

End Applier.

End Upgrade.
