(* ===== verification/UpgradeTrust.v ===== *)
(** * Agent upgrades: what gets installed

    Whatever the unprivileged Agent asks for and stages, and wherever the
    updater or the machine stops, every installed binary comes from a release
    the compiled-in key signed; an upgrade that does not stay up is undone. *)

From S2P Require Import Prelude GoStrings GoNet Disk Upgrade.
From Stdlib Require Import Ascii String.

Module UpgradeTrust.
Import GoNet Disk DiskViews Upgrade.

(** A constant that is not in the list. *)
Ltac absurd_in H := exfalso; repeat (apply elem_of_cons in H as [H|H]; [discriminate H|]); by apply not_elem_of_nil in H.

Section Trust.
Context `{UpgradeCodec}.
Variable key : string.

(** A binary of a release that [key] signed. *)
Definition Released (b : string) : Prop :=
  ∃ zip sig entries e, len key = 32 ∧ ed25519_verify key zip sig = true ∧ zipEntries zip = Some entries ∧ e ∈ entries
    ∧ trim_prefix (zName e) "./" = ReleaseBinary ∧ zRegular e = true ∧ zContent e = Some b.

(** A binary that sums signed by the kernel release key list. *)
Definition KernelReleased (b : string) : Prop :=
  ∃ sums signature member, VerifySSHSignature sums signature KernelReleaseKey KernelSignatureNamespace = Some true
    ∧ KernelSum sums member = Some (sha256_hex b).

(** The binaries the installer put there. *)
Variable installed0 : string → Prop.
Variable kernel0 : string → Prop.

Definition agentOk (b : string) : Prop := installed0 b ∨ Released b.
Definition kernelOk (b : string) : Prop := kernel0 b ∨ KernelReleased b.

Definition agentFiles : list string := [BinaryName; PrevBinary].
Definition kernelFiles : list string := [KernelFile; KernelPrevFile; ServerFile; ServerPrevFile].

Definition allowed (n b : string) : Prop := (n ∈ agentFiles → agentOk b) ∧ (n ∈ kernelFiles → kernelOk b).

(** There is an Agent, and every installed binary is genuine. *)
Definition genuine (v : View) : Prop := is_Some (v BinaryName) ∧ ∀ n f, v n = Some f → allowed n (data f).

Lemma files_plain n : n ∈ agentFiles ++ kernelFiles → plain n = true.
Proof. intros Hn. assert (Forall (λ n, plain n = true) (agentFiles ++ kernelFiles)) as Hf by by repeat constructor. by rewrite Forall_forall in Hf; apply Hf. Qed.

Lemma allowed_other n b : n ∉ agentFiles ++ kernelFiles → allowed n b.
Proof. intros Hn. split; intros Hin; destruct Hn; apply elem_of_app; auto. Qed.

#[export] Instance genuine_proper : Proper (same ==> iff) genuine.
Proof.
  assert (∀ v v', same v v' → genuine v → genuine v') as Hone.
  { intros v v' Hv [Hs Hg]. split; [by rewrite <- (Hv BinaryName)|]. intros n f Hf. destruct (decide (n ∈ agentFiles ++ kernelFiles)) as [Hin|Hout]; [|by apply allowed_other].
    apply Hg. rewrite (Hv n); [done|]. by apply files_plain. }
  intros v v' Hv. split; [by apply Hone|]. apply Hone. by symmetry.
Qed.

Lemma genuine_upd v n f : genuine v → allowed n (data f) → genuine (upd v n (Some f)).
Proof.
  intros [Hs Hg] Ha. split; [unfold upd; destruct (String.eqb BinaryName n); [by eexists|done]|].
  intros m g. unfold upd. destruct (String.eqb_spec m n) as [->|]; [by intros [= <-]|apply Hg].
Qed.

Lemma genuine_remove v n : n ≠ BinaryName → genuine v → genuine (upd v n None).
Proof.
  intros Hn [Hs Hg]. split; [unfold upd; destruct (String.eqb_spec BinaryName n); [congruence|done]|].
  intros m g. unfold upd. destruct (String.eqb m n); [done|apply Hg].
Qed.

(** ** Assertions *)

Variable fate : nat → Fate.
Variable random : nat → string.
Variable host : Host.

Abbreviation Inv := (inv genuine).

(** The directory shows [x] and [y] as the installed and the kept binary. *)
Definition At (T : Temps) (x y : option File) (w : World) : Prop :=
  ∃ v, stored genuine v T w ∧ v BinaryName = x ∧ v PrevBinary = y.

Lemma at_inv T x y w : At T x y w → Inv w.
Proof. intros (v & Hw & _). by eapply (stored_inv genuine). Qed.

Lemma at_forget T T' x y w : T' ⊆ T → At T x y w → At T' x y w.
Proof. intros HT (v & Hw & Hv). exists v. split; [by eapply (stored_forget genuine)|done]. Qed.

(** From every view with these binaries. *)
Lemma at_triple {A} T x y (m : M A) Q E :
  (∀ v, v BinaryName = x → v PrevBinary = y → genuine v → triple (stored genuine v T) m Q E Inv) → triple (At T x y) m Q E Inv.
Proof. intros Hm w (v & Hw & Hx & Hy). apply (Hm v); try done. by eapply (stored_view genuine). Qed.

Lemma coded_triple {A} code (m : M A) P Q E C : triple P m Q E C → triple P (coded code m) Q E C.
Proof. intros Hm. eapply triple_try; [done|intros a; by apply triple_ret|intros e; by apply triple_throw]. Qed.

Lemma ignore_triple (m : M unit) P R E C : triple P m (λ _, R) R C → triple P (ignore m) (λ _, R) E C.
Proof. intros Hm. eapply triple_try; [done|intros []; by apply triple_ret|intros e; by apply triple_ret]. Qed.

Lemma ask_triple {A} (answer : nat → option A) T x y :
  triple (At T x y) (ask fate answer) (λ _, At T x y) (At T x y) Inv.
Proof.
  apply triple_call; [|intros w Hw; by destruct (answer (calls w))|intros p w Hw; split; [done|by eapply at_inv]].
  intros w (v & Hw & Hv). exists v. split; [by apply (stored_tick genuine)|done].
Qed.

(** What is read of an installed file is what the directory shows. *)
Lemma readLib_plain_triple T x y name : plain name = true →
  triple (At T x y) (readLib fate name)
    (λ b w, ∃ v f, stored genuine v T w ∧ v BinaryName = x ∧ v PrevBinary = y ∧ v name = Some f ∧ data f = b) (At T x y) Inv.
Proof.
  intros Hn. apply triple_call.
  - intros w (v & Hw & Hv). exists v. split; [by apply (stored_tick genuine)|done].
  - intros w (v & Hw & Hx & Hy). pose proof (proj1 (proj2 Hw) name Hn) as Hname. unfold view in Hname.
    destruct (dir w !! name ≫= _) as [f|] eqn:E; [|by exists v]. destruct (regular f); [|by exists v]. exists v, f. by split_and!.
  - intros p w Hw. split; [done|by eapply at_inv].
Qed.

Lemma readLib_temp_triple T x y name f : T !! name = Some f →
  triple (At T x y) (readLib fate name) (λ b w, At T x y w ∧ data f = b) (At T x y) Inv.
Proof.
  intros HT. apply triple_call.
  - intros w (v & Hw & Hv). exists v. split; [by apply (stored_tick genuine)|done].
  - intros w (v & Hw & Hx & Hy). destruct (proj2 (proj2 Hw) name f HT) as (_ & id & He & Hf & _). rewrite He. cbn. rewrite Hf.
    destruct (regular f); [split; [by exists v|done]|by exists v].
  - intros p w Hw. split; [done|by eapply at_inv].
Qed.

(** ** Copies *)

Definition copied (content : string) (mode : Z) : File := mkFile true mode true content true.

Lemma limited_all content limit : (limit <? len content) = false → limited content (limit + 1) = content.
Proof. intros Hl%Z.ltb_ge. unfold limited. by rewrite (proj2 (Z.leb_le _ _)) by lia. Qed.

(** A file of that content, or nothing more than there was. *)
Lemma copyReader_triple T x y content before after mode limit :
  triple (At T x y) (copyReader fate random content (String "." before) after mode limit)
    (λ name w, At (<[name := copied content mode]> T) x y w ∧ T !! name = None ∧ plain name = false) (At T x y) Inv.
Proof.
  apply at_triple. intros v Hx Hy Hg. pose proof (stored_inv genuine v T) as Hinv.
  assert (∀ w, stored genuine v T w → At T x y w) as Hat by (intros w Hw; by exists v).
  eapply triple_bind; [eapply triple_post; [apply (createTemp_triple genuine)|by intros ? ? X; apply X|done|done]|].
  intros [name id]. cbn [fst snd]. intros w Hw. pose proof (temp_plain _ _ _ _ _ _ _ Hw) as Hp.
  assert (T !! name = None) as HT.
  { destruct (T !! name) eqn:E; [|done]. destruct (temp_alone _ _ _ _ _ _ _ Hw name); [by rewrite E|by apply (temp_entry _ _ _ _ _ _ _ Hw)]. }
  revert w Hw. set (T' := <[name := copied content mode]> T).
  assert (∀ w, stored genuine v T' w → stored genuine v T w) as Hforget
    by (intros w; apply (stored_forget genuine); by apply insert_subseteq).
  apply (triple_try _ _ _ (λ _, stored genuine v T') (stored genuine v T)).
  - eapply triple_bind; [eapply triple_post; [apply (write_triple genuine)|by intros ? ? X; apply X|done|done]|]. intros []; cbv beta.
    destruct (limit <? len content) eqn:El.
    + apply triple_throw_bind. intros w Hw. by apply (temp_stored _ _ _ _ _ _ _ Hw).
    + rewrite limited_all by done. apply triple_ret_bind.
      eapply triple_bind; [eapply triple_post; [apply (on_file_triple genuine)|by intros ? ? X; apply X|done|done]|]. intros []; cbv beta.
      eapply triple_post; [apply (on_file_triple genuine)| |done|done]. intros [] w Hw. by eapply (temp_done genuine); [apply Hw|].
  - intros []. cbn [is_ok andb].
    eapply triple_try; [eapply triple_post; [apply (close_triple genuine)|by intros ? ? X; apply X|by intros ? X; apply X|apply (stored_inv genuine)]| |].
    + intros []. apply triple_ret. intros w Hw. split; [by exists v|done].
    + intros e. eapply triple_try; [eapply triple_weaken; [by apply (remove_temp_triple genuine fate v T name)|apply Hforget|by intros ? ? X; apply X|by intros ? X; apply X|apply Hinv]| |];
        intros ?; by apply triple_throw.
  - intros e. cbn [is_ok andb].
    eapply triple_try; [eapply triple_post; [apply (close_triple genuine)|by intros ? ? X; apply X|by intros ? X; apply X|apply Hinv]| |];
      (intros ?; eapply triple_try; [eapply triple_post; [by apply (remove_temp_triple genuine fate v T name)|by intros ? ? X; apply X|by intros ? X; apply X|apply Hinv]| |];
        intros ?; by apply triple_throw).
Qed.

(** A copy of an installed file. *)
Lemma copyFile_triple T x y source before : plain source = true →
  triple (At T x y) (copyFile fate random source (String "." before))
    (λ name w, ∃ f, At (<[name := copied (data f) 493]> T) x y w ∧ T !! name = None ∧ plain name = false ∧ allowed source (data f)
       ∧ (source = BinaryName → x = Some f) ∧ (source = PrevBinary → y = Some f)) (At T x y) Inv.
Proof.
  intros Hs. eapply triple_bind; [by apply readLib_plain_triple|]. intros b w (v & f & Hw & Hx & Hy & Hf & <-).
  pose proof (proj2 (stored_view genuine _ _ _ Hw) _ _ Hf) as Hok.
  assert (At T x y w) as Hat by by exists v.
  pose proof (copyReader_triple T x y (data f) before "" 493 maxBinaryBytes w Hat) as Hc.
  destruct (copyReader fate random (data f) _ _ _ _ w) as [w' [name|e|]]; [|done..]. destruct Hc as (Ha & HT & Hp). exists f.
  split_and!; try done; intros ->; congruence.
Qed.

(** The temporary copy takes the place of an installed file. *)
Lemma install_triple T v name f base : T !! name = Some f → plain base = true → allowed base (data f) →
  triple (stored genuine v T) (rename fate name base) (λ _, stored genuine (upd v base (Some f)) (delete name T)) (stored genuine v T) Inv.
Proof.
  intros HT Hb Ha w Hw. pose proof (stored_view genuine _ _ _ Hw) as Hg.
  refine (triple_post _ _ _ _ _ _ _ _ (rename_triple genuine fate v T name f base HT Hb _) _ _ (stored_inv genuine v T) w Hw); [by apply genuine_upd|done..].
Qed.

Lemma drop_triple T x y name : T !! name = None → plain name = false →
  triple (At T x y) (remove fate name) (λ _, At T x y) (At T x y) Inv.
Proof.
  intros HT Hp. apply at_triple. intros v Hx Hy Hg.
  eapply triple_post; [by apply (remove_temp_triple genuine)|intros ? w Hw; by exists v|intros w Hw; by exists v|apply (stored_inv genuine)].
Qed.

(** The same of some binaries. *)
Definition Some_at (T : Temps) (R : option File → option File → Prop) (w : World) : Prop := ∃ x y, At T x y w ∧ R x y.

Lemma some_at T (R : option File → option File → Prop) x y w : At T x y w → R x y → Some_at T R w.
Proof. intros Hw HR. by exists x, y. Qed.

Lemma drop_some_triple T R name : T !! name = None → plain name = false →
  triple (Some_at T R) (remove fate name) (λ _, Some_at T R) (Some_at T R) Inv.
Proof.
  intros HT Hp w (x & y & Hw & HR). pose proof (drop_triple T x y name HT Hp w Hw) as Hd.
  destruct (remove fate name w) as [w' [a|e|]]; [by exists x, y|by exists x, y|done].
Qed.

(** A deferred removal of a temporary file changes nothing else. *)
Lemma finally_triple {A} T path (m : M A) P R RE : T !! path = None → plain path = false →
  triple P m (λ a, Some_at T (R a)) (Some_at T RE) Inv →
  triple P (finally m (remove fate path)) (λ a, Some_at T (R a)) (Some_at T RE) Inv.
Proof.
  intros HT Hp Hm. eapply triple_try; [apply Hm| |]; [intros a|intros e];
    (eapply triple_try; [by apply drop_some_triple| |]; intros ?); [by apply triple_ret..|by apply triple_throw|by apply triple_throw].
Qed.

Lemma finally_at_triple {A} T x y path (m : M A) P : T !! path = None → plain path = false →
  triple P m (λ _, At T x y) (At T x y) Inv → triple P (finally m (remove fate path)) (λ _, At T x y) (At T x y) Inv.
Proof.
  intros HT Hp Hm. eapply triple_try; [apply Hm| |]; [intros a|intros e];
    (eapply triple_try; [by apply drop_triple| |]; intros ?); [by apply triple_ret..|by apply triple_throw|by apply triple_throw].
Qed.

(** A temporary file becomes an installed one that is not the Agent. *)
Lemma rename_other_triple T x y name f base : T !! name = Some f → plain base = true → allowed base (data f) → base ∉ agentFiles →
  triple (At T x y) (rename fate name base) (λ _, At (delete name T) x y) (At T x y) Inv.
Proof.
  intros HT Hb Ha Hn. apply at_triple. intros v Hx Hy Hg.
  assert (BinaryName ≠ base ∧ PrevBinary ≠ base) as [H1 H2] by (split; intros <-; destruct Hn; unfold agentFiles; set_solver).
  eapply triple_post; [by apply install_triple| |intros w Hw; by exists v|done].
  intros ? w Hw. eexists. split; [apply Hw|]. unfold upd. rewrite (proj2 (String.eqb_neq _ _) H1), (proj2 (String.eqb_neq _ _) H2). done.
Qed.

Lemma writeFileAtomic_triple T x y name content : plain name = true → name ∉ agentFiles ++ kernelFiles →
  triple (At T x y) (writeFileAtomic fate random name content) (λ _, At T x y) (At T x y) Inv.
Proof.
  intros Hn Hout. apply at_triple. intros v Hx Hy Hg. pose proof (stored_inv genuine v T) as Hinv.
  assert (∀ w, stored genuine v T w → At T x y w) as Hat by (intros w Hw; by exists v).
  eapply triple_bind; [eapply triple_post; [apply (createTemp_triple genuine fate random v T (name +:+ ".") ".tmp")|by intros ? ? X; apply X|done|done]|].
  intros [temporary id]. cbn [fst snd]. intros w Hw. pose proof (temp_plain _ _ _ _ _ _ _ Hw) as Hp.
  assert (T !! temporary = None) as HT.
  { destruct (T !! temporary) eqn:E; [|done]. destruct (temp_alone _ _ _ _ _ _ _ Hw temporary); [by rewrite E|by apply (temp_entry _ _ _ _ _ _ _ Hw)]. }
  revert w Hw. set (T' := <[temporary := copied content 420]> T).
  assert (∀ w, stored genuine v T' w → stored genuine v T w) as Hforget by (intros w; apply (stored_forget genuine); by apply insert_subseteq).
  assert (delete temporary T' = T) as Hdel by (unfold T'; by rewrite delete_insert_id).
  apply (triple_try _ _ _ (λ _, At T x y) (stored genuine v T)).
  - eapply triple_bind; [eapply triple_post; [apply (orClose_triple genuine), (write_triple genuine)|by intros ? ? X; apply X|done|apply Hinv]|]. intros []; cbv beta.
    eapply triple_bind; [eapply triple_post; [apply (orClose_triple genuine), (on_file_triple genuine)|by intros ? ? X; apply X|done|apply Hinv]|]. intros []; cbv beta.
    eapply triple_bind; [eapply triple_post; [apply (orClose_triple genuine), (on_file_triple genuine)|by intros ? ? X; apply X|done|apply Hinv]|]. intros []; cbn.
    apply (triple_bind _ _ _ (λ _, stored genuine v T')).
    + eapply triple_weaken; [apply (close_triple genuine fate v T')|intros w Hw; by apply (temp_done genuine _ _ _ _ _ _ Hw)|done|done|apply (stored_inv genuine)].
    + intros []. eapply triple_post; [apply (install_triple T' v temporary (copied content 420) name); [apply lookup_insert_eq|done|by apply allowed_other]| |done|done].
      intros ? w Hw. rewrite Hdel in Hw. eexists. split; [apply Hw|].
      assert (BinaryName ≠ name ∧ PrevBinary ≠ name) as [H1 H2] by (split; intros <-; destruct Hout; unfold agentFiles; set_solver).
      unfold upd. rewrite (proj2 (String.eqb_neq _ _) H1), (proj2 (String.eqb_neq _ _) H2). done.
  - intros []. by apply triple_ret.
  - intros e. eapply triple_try; [eapply triple_post; [by apply (remove_temp_triple genuine fate v T temporary)|by intros ? ? X; apply X|by intros ? X; apply X|apply Hinv]| |];
      intros ?; by apply triple_throw.
Qed.

(** ** The kernel *)

Lemma delete_inserted (T : Temps) (name : string) (f : File) : T !! name = None → delete name (<[name := f]> T) = T.
Proof. apply delete_insert_id. Qed.

Lemma forget_inserted (T : Temps) x y name f w : T !! name = None → At (<[name := f]> T) x y w → At T x y w.
Proof. intros HT. apply at_forget. by apply insert_subseteq. Qed.

Lemma kernel_not_agent n : n ∈ kernelFiles → n ∉ agentFiles.
Proof. unfold kernelFiles, agentFiles. intros Hn Ha. assert (Forall (λ m, m ∉ [BinaryName; PrevBinary]) [KernelFile; KernelPrevFile; ServerFile; ServerPrevFile]) as Hf
  by (apply (bool_decide_unpack _); vm_compute; exact I). rewrite Forall_forall in Hf. by apply (Hf n). Qed.

Lemma kernel_allowed n b : n ∈ kernelFiles → kernelOk b → allowed n b.
Proof. intros Hn Hb. split; [|done]. intros Ha. by apply kernel_not_agent in Hn. Qed.

Lemma kernel_plain n : n ∈ kernelFiles → plain n = true.
Proof. intros Hn. apply files_plain, elem_of_app. by right. Qed.

Lemma keepPrevious_triple T x y name prev : name ∈ kernelFiles → prev ∈ kernelFiles →
  triple (At T x y) (keepPrevious fate random name prev) (λ _, At T x y) (At T x y) Inv.
Proof.
  intros Hn Hp. apply (triple_try _ _ _ (λ _, At T x y) (At T x y)).
  - apply triple_call.
    + intros w (v & Hw & Hv). exists v. split; [by apply (stored_tick genuine)|done].
    + intros w Hw. by destruct (bool_decide _).
    + intros p w Hw. split; [done|by eapply at_inv].
  - intros []. eapply triple_bind; [apply copyFile_triple; by apply kernel_plain|].
    intros kept w (f & Hw & HT & Hk & Ha & _). revert w Hw. set (T' := <[kept := _]> T).
    eapply triple_try; [apply (rename_other_triple T' x y kept (copied (data f) 493) prev); [apply lookup_insert_eq|by apply kernel_plain|
      apply kernel_allowed; [done|by apply Ha]|by apply kernel_not_agent]| |].
    + intros []. apply triple_ret. unfold T'. by rewrite delete_inserted.
    + intros e. eapply triple_try; [eapply triple_weaken; [by apply (drop_triple T x y kept)|intros w; by apply forget_inserted|by intros ? ? X; apply X|by intros ? X; apply X|done]| |];
        intros ?; by apply triple_throw.
  - intros e. by apply triple_ret.
Qed.

Lemma untarFile_triple T x y content member base :
  triple (At T x y) (untarFile fate random content member base)
    (λ r w, match r with
            | None => At T x y w
            | Some (path, digest) => ∃ file, At (<[path := copied file 493]> T) x y w ∧ T !! path = None ∧ plain path = false ∧ digest = sha256_hex file
            end) (At T x y) Inv.
Proof.
  unfold untarFile. destruct (tarEntries content) as [[entries broken]|]; [|by apply triple_throw].
  destruct (findMember entries broken member) as [[e|]|]; cbn [lift]; [|by apply triple_ret_bind, triple_ret|by apply triple_throw_bind].
  apply triple_ret_bind. destruct (zContent e) as [file|]; [|by apply triple_throw].
  eapply triple_bind; [apply coded_triple, copyReader_triple|]. intros path. apply triple_ret. intros w (Hw & HT & Hp). by exists file.
Qed.

Lemma unpackListed_triple T x y content member base sums :
  triple (At T x y) (unpackListed fate random content member base sums)
    (λ r w, match r with
            | None => At T x y w
            | Some (path, _) => ∃ file, At (<[path := copied file 493]> T) x y w ∧ T !! path = None ∧ plain path = false
                                  ∧ KernelSum sums member = Some (sha256_hex file)
            end) (At T x y) Inv.
Proof.
  eapply triple_bind; [apply untarFile_triple|]. intros [[path digest]|]; [|by apply triple_ret].
  intros w (file & Hw & HT & Hp & ->). revert w Hw. destruct (bool_decide _) eqn:Eb.
  - apply bool_decide_eq_true in Eb. apply triple_ret. intros w Hw. by exists file.
  - eapply triple_try; [eapply triple_weaken; [by apply (drop_triple T x y path)|intros w; by apply forget_inserted|by intros ? ? X; apply X|by intros ? X; apply X|done]| |];
      intros ?; by apply triple_throw.
Qed.

Lemma checkKernelRuns_triple T x y path f : T !! path = Some f →
  triple (At T x y) (checkKernelRuns fate host path) (λ _, At T x y) (At T x y) Inv.
Proof.
  intros HT. eapply triple_bind; [apply coded_triple; by apply readLib_temp_triple|]. intros content w [Hw _]. revert w Hw.
  eapply triple_bind; [apply coded_triple, ask_triple|]. intros output. cbv beta.
  destruct (Fields output) as [|field fields]; [by apply triple_throw|]. by destruct (String.eqb _ _); [apply triple_ret|apply triple_throw].
Qed.

Lemma record_not_binary : (KernelRecord ∉ agentFiles ++ kernelFiles) ∧ (PrevRecord ∉ agentFiles ++ kernelFiles).
Proof. split; apply (bool_decide_unpack _); vm_compute; exact I. Qed.

Lemma in_kernel : KernelFile ∈ kernelFiles ∧ KernelPrevFile ∈ kernelFiles ∧ ServerFile ∈ kernelFiles ∧ ServerPrevFile ∈ kernelFiles.
Proof. unfold kernelFiles. set_solver. Qed.

(** The temporary files of the kernel and of the server are used up. *)
Lemma swapKernel_triple T T0 x y binary f server k digest :
  T !! binary = Some f → kernelOk (data f) →
  (∀ path, server = Some path → ∃ g, path ≠ binary ∧ T !! path = Some g ∧ kernelOk (data g)) →
  T0 ⊆ delete binary T → (∀ path, server = Some path → T0 ⊆ delete path (delete binary T)) →
  triple (At T x y) (swapKernel fate random host binary server k digest) (λ _, At T0 x y) (At T0 x y) Inv.
Proof.
  intros HT Hf Hserver H0 H0s. destruct in_kernel as (K1 & K2 & K3 & K4).
  assert (T0 ⊆ T) as H0' by (etrans; [apply H0|apply delete_subseteq]).
  assert (∀ w, At T x y w → At T0 x y w) as Hfor by (intros w; by apply at_forget).
  assert (∀ w, At (delete binary T) x y w → At T0 x y w) as Hfor1 by (intros w; by apply at_forget).
  unfold swapKernel. eapply triple_bind; [eapply triple_post; [apply coded_triple; by apply keepPrevious_triple|by intros ? ? X; apply X|done|done]|]. intros []; cbv beta.
  apply (triple_bind _ _ _ (λ _, At T x y)).
  { destruct server; [eapply triple_post; [apply coded_triple; by apply keepPrevious_triple|done..]|by apply triple_ret]. }
  intros []. eapply triple_bind; [eapply triple_post; [apply coded_triple, (rename_other_triple T x y binary f KernelFile); try done;
    [by apply kernel_allowed|by apply kernel_not_agent]|by intros ? ? X; apply X|done|done]|]. intros []; cbv beta.
  apply (triple_bind _ _ _ (λ _, At T0 x y)).
  - destruct server as [path|]; [|by apply triple_ret]. destruct (Hserver path eq_refl) as (g & Hne & Hg & Hok).
    eapply triple_post; [apply coded_triple, (rename_other_triple (delete binary T) x y path g ServerFile); try done;
      [by rewrite lookup_delete_ne|by apply kernel_allowed|by apply kernel_not_agent]| |done|done].
    intros ? w. apply at_forget. by apply H0s.
  - intros []. intros w Hw. cbn. revert w Hw.
    enough (∀ now, triple (At T0 x y) (coded ErrorInstall (writeFileAtomic fate random KernelRecord
      (encodeKernelRecord (mkKernelRecord (KVersion k) digest now (Some (bool_decide (is_Some server))))))) (λ _, At T0 x y) (At T0 x y) Inv) as Ht
      by (intros w Hw; exact (Ht (clock host (calls w)) w Hw)).
    intros now. apply coded_triple. apply writeFileAtomic_triple; [done|apply record_not_binary].
Qed.

Lemma copyIn_triple T x y size :
  triple (At T x y) (copyIn fate random host size)
    (λ path w, ∃ content, At (<[path := copied content 384]> T) x y w ∧ T !! path = None ∧ plain path = false) (At T x y) Inv.
Proof.
  eapply triple_bind; [apply coded_triple, ask_triple|]. intros [actual content]. destruct (negb _); [by apply triple_throw|].
  eapply triple_post; [apply coded_triple, copyReader_triple| |done|done]. intros path w (Hw & HT & Hp). by eexists.
Qed.

Lemma kernel_verified content k : VerifyKernel content k = Some (Ok tt) → VerifySSHSignature (KSums k) (KSumsSignature k) KernelReleaseKey KernelSignatureNamespace = Some true.
Proof. unfold VerifyKernel. destruct (VerifySSHSignature _ _ _ _) as [[]|]; [done|by repeat case_match..]. Qed.

(** Installing a kernel leaves the Agent's binaries alone. *)
Lemma installKernel_triple T x y k :
  triple (At T x y) (installKernel fate random host k) (λ _, At T x y) (At T x y) Inv.
Proof.
  unfold installKernel. eapply triple_bind; [apply copyIn_triple|]. intros package w (content & Hw & HT & Hp). revert w Hw.
  apply finally_at_triple; [done..|]. set (T1 := <[package := _]> T).
  assert (∀ w, At T1 x y w → At T x y w) as Hf1 by (intros w; by apply forget_inserted).
  eapply triple_bind; [eapply triple_post; [apply coded_triple, (readLib_temp_triple T1 x y package _ (lookup_insert_eq _ _ _))|by intros ? ? X; apply X|done|done]|].
  intros b w [Hw _]. revert w Hw.
  destruct (VerifyKernel b k) as [[[]|e]|] eqn:Ev; cbn [unwound]; [apply triple_ret_bind, triple_ret_bind|by apply triple_ret_bind, triple_throw_bind|].
  2:{ intros w Hw. cbn. by eapply at_inv. }
  apply kernel_verified in Ev.
  eapply triple_bind; [eapply triple_post; [apply unpackListed_triple|by intros ? ? X; apply X|done|done]|].
  intros [[binary digest]|]; [|by apply triple_throw]. intros w (file & Hw & HT1 & Hpb & Hsum). revert w Hw.
  assert (T !! binary = None) as HTb by (apply lookup_insert_None in HT1; by destruct HT1).
  apply finally_at_triple; [done..|]. set (T2 := <[binary := copied file 493]> T1).
  assert (∀ w, At T2 x y w → At T x y w) as Hf2 by (intros w Hw; by apply Hf1, (forget_inserted T1 x y binary (copied file 493))).
  eapply triple_bind; [eapply triple_post; [apply (checkKernelRuns_triple T2 x y binary _ (lookup_insert_eq _ _ _))|by intros ? ? X; apply X|done|done]|].
  intros []. cbv beta. eapply triple_bind; [eapply triple_post; [apply unpackListed_triple|by intros ? ? X; apply X|done|done]|].
  assert (kernelOk file) as Hok by (right; by eexists _, _, _).
  assert (T ⊆ delete binary T2) as Hsub by (unfold T2; rewrite delete_insert_id by done; by apply insert_subseteq).
  intros [[path d]|].
  - intros w (server & Hw & HT2 & Hps & Hss). revert w Hw. apply lookup_insert_None in HT2 as [HT1s Hbs].
    assert (T !! path = None) as HTs by (apply lookup_insert_None in HT1s; by destruct HT1s).
    assert (delete binary T2 !! path = None) as Hdp by (unfold T2; rewrite lookup_delete_ne, lookup_insert_ne by done; done).
    apply finally_at_triple; [done..|].
    apply (swapKernel_triple _ T x y binary (copied file 493)); [rewrite lookup_insert_ne by done; apply lookup_insert_eq|done| | |].
    + intros q [= <-]. exists (copied server 493). split; [done|]. split; [apply lookup_insert_eq|]. right. by eexists _, _, _.
    + rewrite delete_insert_ne by done. etrans; [apply Hsub|]. by apply insert_subseteq.
    + intros q [= <-]. rewrite delete_insert_ne, delete_insert_id by done. apply Hsub.
  - apply (swapKernel_triple _ T x y binary (copied file 493)); [apply lookup_insert_eq|done|done|done|done].
Qed.

(** A plain name is not held. *)
Lemma held_not_plain v T w name : stored genuine v T w → plain name = true → T !! name = None.
Proof. intros (_ & _ & Ht) Hp. destruct (T !! name) eqn:E; [|done]. destruct (Ht _ _ E). congruence. Qed.

Lemma not_agent base : base ∉ agentFiles → BinaryName ≠ base ∧ PrevBinary ≠ base.
Proof. intros Hn. split; intros <-; destruct Hn; unfold agentFiles; set_solver. Qed.

Lemma upd_not_agent v base o x y : base ∉ agentFiles → v BinaryName = x → v PrevBinary = y →
  upd v base o BinaryName = x ∧ upd v base o PrevBinary = y.
Proof.
  intros [H1 H2]%not_agent Hx Hy. unfold upd. by rewrite (proj2 (String.eqb_neq _ _) H1), (proj2 (String.eqb_neq _ _) H2).
Qed.

Lemma remove_other_triple T x y base : plain base = true → base ∉ agentFiles →
  triple (At T x y) (remove fate base) (λ _, At T x y) (At T x y) Inv.
Proof.
  intros Hb Hn w (v & Hw & Hx & Hy). pose proof (held_not_plain _ _ _ _ Hw Hb) as HT. pose proof (stored_view genuine _ _ _ Hw) as Hg.
  refine (triple_post _ _ _ _ _ _ _ _ (remove_triple genuine fate v T base _ HT) _ _ (stored_inv genuine v T) w Hw).
  - apply genuine_remove; [|done]. by intros ->; apply (proj1 (not_agent _ Hn)).
  - intros ? w' Hw'. eexists. split; [apply Hw'|]. by apply upd_not_agent.
  - intros w' Hw'. by exists v.
Qed.

Lemma rename_kernel_triple T x y name base : name ∈ kernelFiles → base ∈ kernelFiles → name ≠ base →
  triple (At T x y) (rename fate name base) (λ _, At T x y) (At T x y) Inv.
Proof.
  intros Hn Hb Hne. apply at_triple. intros v Hx Hy Hg. pose proof (kernel_not_agent _ Hn). pose proof (kernel_not_agent _ Hb).
  eapply triple_post; [apply (rename_plain_triple genuine fate v T name base); [by apply kernel_plain|by apply kernel_plain|done|]| | |apply (stored_inv genuine)].
  - intros f Hf. apply genuine_upd; [apply genuine_remove; [by intros ->; apply (proj1 (not_agent BinaryName ltac:(done)))|done]|]. apply kernel_allowed; [done|]. by apply (proj2 Hg name f Hf).
  - intros ? w (f & Hf & Hw). destruct (upd_not_agent v name None x y) as [Hx' Hy']; [done..|].
    eexists. split; [apply Hw|]. by apply upd_not_agent.
  - intros w Hw. by exists v.
Qed.

Lemma removeKernel_triple T x y E : triple (At T x y) (removeKernel fate) (λ _, At T x y) E Inv.
Proof.
  destruct in_kernel as (K1 & K2 & K3 & K4).
  assert (∀ prev name, prev ∈ kernelFiles → name ∈ kernelFiles → prev ≠ name →
    triple (At T x y) (bind (attempt (rename fate prev name)) (λ r, if is_ok r then ret tt else ignore (remove fate name))) (λ _, At T x y) E Inv) as Hback.
  { intros prev name Hp Hn Hne. eapply triple_try; [by apply rename_kernel_triple|intros []; by apply triple_ret|].
    intros e. apply ignore_triple, remove_other_triple; [by apply kernel_plain|by apply kernel_not_agent]. }
  unfold removeKernel. eapply triple_bind; [apply ignore_triple, (remove_other_triple T x y); [done|]|].
  { apply (bool_decide_unpack _). vm_compute. exact I. }
  intros []. eapply triple_bind; [by apply Hback|]. intros []. by apply Hback.
Qed.

(** ** The Agent's binary *)

Lemma copied_allowed (f : File) mode : allowed BinaryName (data f) → agentOk (data (copied (data f) mode)).
Proof. intros [Ha _]. apply Ha. unfold agentFiles. set_solver. Qed.

Lemma agent_allowed n b : n ∈ agentFiles → agentOk b → allowed n b.
Proof. intros Hn Hb. split; [done|]. intros Hk. by apply kernel_not_agent in Hk. Qed.

Lemma in_agent : BinaryName ∈ agentFiles ∧ PrevBinary ∈ agentFiles.
Proof. unfold agentFiles. set_solver. Qed.

Lemma rename_binary_triple T x y name f : T !! name = Some f → agentOk (data f) →
  triple (At T x y) (rename fate name BinaryName) (λ _, At (delete name T) (Some f) y) (At T x y) Inv.
Proof.
  intros HT Ha. apply at_triple. intros v Hx Hy Hg.
  eapply triple_post; [apply (install_triple T v name f BinaryName); [done|done|apply agent_allowed; [apply in_agent|done]]| |intros w Hw; by exists v|done].
  intros ? w Hw. eexists. split; [apply Hw|]. done.
Qed.

Lemma rename_prev_triple T x y name f : T !! name = Some f → agentOk (data f) →
  triple (At T x y) (rename fate name PrevBinary) (λ _, At (delete name T) x (Some f)) (At T x y) Inv.
Proof.
  intros HT Ha. apply at_triple. intros v Hx Hy Hg.
  eapply triple_post; [apply (install_triple T v name f PrevBinary); [done|done|apply agent_allowed; [apply in_agent|done]]| |intros w Hw; by exists v|done].
  intros ? w Hw. eexists. split; [apply Hw|]. done.
Qed.

Lemma drop_held_triple T x y name f : T !! name = None → plain name = false →
  triple (At (<[name := f]> T) x y) (remove fate name) (λ _, At T x y) (At T x y) Inv.
Proof.
  intros HT Hp. eapply triple_weaken; [by apply (drop_triple T x y name)|intros w; by apply forget_inserted|done..].
Qed.

Variable Version : string.
Variable polls : nat.

(** [keep] makes a copy of the installed binary the kept one. *)
Lemma keep_triple T x y target :
  triple (At T x y) (keep fate random host Version target)
    (λ _ w, ∃ f, x = Some f ∧ At T x (Some (copied (data f) 493)) w) (Some_at T (λ x' _, x' = x)) Inv.
Proof.
  eapply triple_bind; [eapply triple_post; [apply coded_triple, (copyFile_triple T x y BinaryName); done|by intros ? ? X; apply X|intros w Hw; by exists x, y|done]|].
  intros temp w (f & Hw & HT & Hp & Hal & Hx & _). specialize (Hx eq_refl). revert w Hw. set (T' := <[temp := _]> T).
  assert (∀ w, At T' x y w → Some_at T (λ x' _, x' = x) w) as Hst by (intros w Hw; exists x, y; split; [by eapply forget_inserted|done]).
  assert (triple (At T' x y) (bind (attempt (remove fate temp)) (λ _, throw ErrorInstall))
    (λ (_ : unit) w, ∃ f, x = Some f ∧ At T x (Some (copied (data f) 493)) w) (Some_at T (λ x' _, x' = x)) Inv) as Hdrop.
  { eapply triple_try; [by apply drop_held_triple| |]; intros ?; apply triple_throw; intros w Hw; by exists x, y. }
  eapply triple_try.
  - eapply triple_bind; [apply (readLib_temp_triple T' x y temp _ (lookup_insert_eq _ _ _))|]. intros b. apply (triple_ret _ _ (λ _, At T' x y)). by intros w [Hw _].
  - intros sum. cbv beta. eapply triple_try; [apply (rename_prev_triple T' x y temp _ (lookup_insert_eq _ _ _)); by apply copied_allowed| |].
    + intros []. unfold T'. rewrite delete_inserted by done. intros w Hw. cbn. revert w Hw.
      enough (∀ now, triple (At T x (Some (copied (data f) 493))) (coded ErrorInstall (writeFileAtomic fate random PrevRecord (encodePrev (mkPrev Version sum now target))))
        (λ _ w, ∃ f, x = Some f ∧ At T x (Some (copied (data f) 493)) w) (Some_at T (λ x' _, x' = x)) Inv) as Ht
        by (intros w Hw; exact (Ht (clock host (calls w)) w Hw)).
      intros now. eapply triple_post; [apply coded_triple, writeFileAtomic_triple; [done|apply record_not_binary]|intros ? w Hw; by exists f|
        intros w Hw; by eapply some_at|done].
    + intros e. apply Hdrop.
  - intros e. apply Hdrop.
Qed.

(** [restore] reinstates the kept binary. *)
Lemma restore_triple T x f :
  triple (At T x (Some f)) (restore fate random host)
    (λ _, At T (Some (copied (data f) 493)) (Some f))
    (Some_at T (λ x' _, x' = x ∨ x' = Some (copied (data f) 493))) Inv.
Proof.
  eapply triple_bind; [eapply triple_post; [apply (copyFile_triple T x (Some f) PrevBinary); done|by intros ? ? X; apply X|
    intros w Hw; eapply some_at; [done|by left]|done]|].
  intros temp w (g & Hw & HT & Hp & Hal & _ & Hg). specialize (Hg eq_refl). injection Hg as <-. revert w Hw. set (T' := <[temp := _]> T).
  eapply triple_try; [apply (rename_binary_triple T' x (Some f) temp _ (lookup_insert_eq _ _ _)); by apply Hal, in_agent| |].
  - intros []. unfold T'. rewrite delete_inserted by done.
    eapply triple_bind; [eapply triple_post; [apply ask_triple|by intros ? ? X; apply X|intros w Hw; eapply some_at; [done|by right]|done]|].
    intros ?. by apply triple_ret.
  - intros e. eapply triple_try; [by apply drop_held_triple| |]; intros ?; apply triple_throw; intros w Hw; (eapply some_at; [done|by left]).
Qed.

Lemma watch_triple T x y n pid : triple (At T x y) (watch fate host n pid) (λ _, At T x y) (At T x y) Inv.
Proof.
  revert pid. induction n as [|n IH]; intros pid; cbn [watch]; (eapply triple_bind; [apply ask_triple|]; intros output; cbv beta);
    destruct (parseShow output) as [active mainPID]; repeat (destruct (_ : bool); [by apply triple_throw|]).
  - by apply triple_ret.
  - intros w Hw. destruct (late host (calls w)); [done|]. destruct (cancelled host (calls w)); [done|]. by apply IH.
Qed.

Lemma restartAndWatch_triple T x y : triple (At T x y) (restartAndWatch fate host polls) (λ _, At T x y) (At T x y) Inv.
Proof. eapply triple_bind; [apply ask_triple|]. intros ?. apply watch_triple. Qed.

(** ** The swap *)

(** What the report of a swap of [x] for [f] says of the installed binary. *)
Record Swapped (x : option File) (f : File) (outcome : string) (r : Report) (x' : option File) : Prop := {
  swapped_done : Outcome r = outcome → x' = Some f;
  swapped_refused : Outcome r = "" → x' = x;
  swapped_restored : Outcome r = OutcomeRestored → reinstated r = true → data <$> x' = data <$> x
}.

Lemma swap_triple T T0 x y path f outcome kernel target :
  T !! path = Some f → agentOk (data f) → T0 ⊆ delete path T → outcome ≠ "" → outcome ≠ OutcomeRestored →
  triple (At T x y) (swap fate random host Version polls path outcome kernel target)
    (λ r, Some_at T0 (λ x' _, Swapped x f outcome r x' ∧ Outcome r ∈ [""; OutcomeRestored; outcome])) (Some_at T0 (λ x' _, x' = x)) Inv.
Proof.
  intros HT Hf H0 Ho1 Ho2. assert (T0 ⊆ T) as H0' by (etrans; [apply H0|apply delete_subseteq]).
  assert (∀ (R : option File → option File → Prop) w, Some_at T R w → Some_at T0 R w) as Hfor
    by (intros R w (x1 & y1 & Hw & HR); exists x1, y1; split; [by apply (at_forget T)|done]).
  apply (triple_try _ _ _ (λ _ w, ∃ g, x = Some g ∧ At (delete path T) (Some f) (Some (copied (data g) 493)) w) (Some_at T (λ x' _, x' = x))).
  - eapply triple_bind; [apply keep_triple|]. intros [] w (g & Hx & Hw). revert w Hw.
    eapply triple_post; [apply coded_triple; by apply (rename_binary_triple _ _ _ path f)|intros ? w Hw; exists g; by split|intros w Hw; exact (some_at _ _ _ _ _ Hw eq_refl)|done].
  - intros [] w (g & -> & Hw). revert w Hw. eapply triple_try; [apply restartAndWatch_triple| |].
    + intros []. apply triple_ret. intros w Hw. exists (Some f), (Some (copied (data g) 493)). split; [by apply (at_forget (delete path T))|].
      split; [by split|set_solver].
    + intros e. apply (triple_bind _ _ _ (λ _, At (delete path T) (Some f) (Some (copied (data g) 493)))).
      { destruct kernel; [apply removeKernel_triple|by apply triple_ret]. }
      intros []. eapply triple_try; [apply restore_triple| |].
      * intros []. apply triple_ret. intros w Hw. exists (Some (copied (data g) 493)), (Some (copied (data g) 493)). split; [by apply (at_forget (delete path T))|].
        split; [by split|set_solver].
      * intros e'. apply triple_ret. intros w (x' & y' & Hw & Hx'). exists x', y'. split; [by apply (at_forget (delete path T))|]. split; [by split|set_solver].
  - intros code. apply triple_ret. intros w Hw%Hfor. destruct Hw as (x' & y' & Hw & ->). exists x, y'. split; [done|]. split; [by split|set_solver].
Qed.

(** The binary printed this version. *)
Definition prints (f : File) (version : string) : Prop := ∃ n, printsVersion (versionOutput host n (data f)) version = true.

Lemma checkVersion_triple T x y path f version : T !! path = Some f →
  triple (At T x y) (checkVersion fate host path version) (λ _ w, At T x y w ∧ prints f version) (At T x y) Inv.
Proof.
  intros HT. eapply triple_bind; [apply coded_triple; by apply readLib_temp_triple|]. intros content w [Hw <-]. revert w Hw.
  apply (triple_bind _ _ _ (λ output w, At T x y w ∧ ∃ n, output = versionOutput host n (data f))).
  - apply coded_triple, triple_call; [|intros w Hw; split; [done|by eexists]|intros p w Hw; split; [done|by eapply at_inv]].
    intros w (v & Hw & Hv). exists v. split; [by apply (stored_tick genuine)|done].
  - intros output. destruct (printsVersion output version) eqn:E; [|apply triple_throw; by intros w []].
    apply triple_ret. intros w [Hw [n ->]]. split; [done|by exists n].
Qed.

Lemma release_verified content size digest signature : VerifyRelease content size digest signature key = Ok tt →
  len key = 32 ∧ ∃ sig, ed25519_verify key content sig = true.
Proof.
  unfold VerifyRelease. destruct (negb (len content =? size)); [done|]. destruct (negb (String.eqb _ _)); [done|].
  destruct (Z.eqb_spec (len key) 32); [|done]. cbn [negb]. destruct (base64_decode _) as [sig|]; [|done].
  destruct (negb (len sig =? 64)); [done|]. destruct (ed25519_verify key content sig) eqn:E; [|done]. intros _. split; [done|by exists sig].
Qed.

(** A file held under [path] is a member of the archive. *)
Definition Member (entries : list ZipEntry) (b : string) : Prop :=
  ∃ e, e ∈ entries ∧ trim_prefix (zName e) "./" = ReleaseBinary ∧ zRegular e = true ∧ zContent e = Some b.

Lemma unpackEntries_triple T x y all entries : (∀ e, e ∈ entries → e ∈ all) →
  ∀ binary, triple (λ w, match binary with
                         | None => At T x y w
                         | Some path => ∃ b, At (<[path := copied b 493]> T) x y w ∧ T !! path = None ∧ plain path = false ∧ Member all b
                         end)
    (unpackEntries fate random entries binary)
    (λ path w, ∃ b, At (<[path := copied b 493]> T) x y w ∧ T !! path = None ∧ plain path = false ∧ Member all b) (At T x y) Inv.
Proof.
  induction entries as [|e entries IH]; intros Hall binary; cbn [unpackEntries].
  { destruct binary; [by apply triple_ret|by apply triple_throw]. }
  assert (∀ e, e ∈ entries → e ∈ all) as Hall' by (intros e' He'; apply Hall; by right).
  set (P := λ w, match binary with None => At T x y w | Some path => _ end).
  assert (∀ code, triple P (bind (match binary with Some path => ignore (remove fate path) | None => ret tt end) (λ _, throw code))
    (λ (path : string) w, ∃ b, At (<[path := copied b 493]> T) x y w ∧ T !! path = None ∧ plain path = false ∧ Member all b) (At T x y) Inv) as Hclean.
  { intros code. apply (triple_bind _ _ _ (λ _, At T x y)); [|intros []; by apply triple_throw].
    destruct binary as [path|]; [|by apply triple_ret]. intros w (b & Hw & HT & Hp & _). revert w Hw. apply ignore_triple. by apply drop_held_triple. }
  destruct (negb (String.eqb _ _) || negb (zRegular e)) eqn:En; [by apply IH|].
  apply orb_false_iff in En as [Hname%negb_false_iff%String.eqb_eq Hreg%negb_false_iff].
  destruct (maxBinaryBytes <? zSize e); [apply Hclean|]. destruct binary as [path|]; [apply Hclean|].
  destruct (zContent e) as [content|] eqn:Ec; [|by apply triple_throw].
  eapply triple_bind; [apply coded_triple, (copyReader_triple T x y content (ReleaseBinary +:+ ".new.") "")|].
  intros path. eapply triple_weaken; [apply (IH Hall' (Some path))| |done|done|done].
  intros w (Hw & HT & Hp). exists content. split; [done|]. split; [done|]. split; [done|]. exists e. split; [apply Hall; by left|done].
Qed.

Lemma unpack_triple T x y path f entries : T !! path = Some f → zipEntries (data f) = Some entries →
  triple (At T x y) (unpack fate random path)
    (λ path w, ∃ b, At (<[path := copied b 493]> T) x y w ∧ T !! path = None ∧ plain path = false ∧ Member entries b) (At T x y) Inv.
Proof.
  intros HT Hz. eapply triple_bind; [apply coded_triple; by apply (readLib_temp_triple T x y path f)|]. intros content w [Hw <-]. revert w Hw.
  rewrite Hz. exact (unpackEntries_triple T x y entries entries (λ _ H, H) None).
Qed.

(** ** The actions *)

(** What the report of an action says of the installed binary. *)
Definition Acted (x y : option File) (target : string) (r : Report) (x' : option File) : Prop :=
  (Outcome r ∈ [""; OutcomeRefused; OutcomeCurrent] → x' = x)
  ∧ (Outcome r = OutcomeRestored → reinstated r = true → data <$> x' = data <$> x)
  ∧ (Outcome r = OutcomeInstalled → x' = x ∨ ∃ f, x' = Some f ∧ Released (data f) ∧ prints f target
        ∧ ∃ o, CompareVersions target Version = Some o ∧ 0 ≤ o)
  ∧ (Outcome r = OutcomeRolledBack → ∃ f, x' = Some f ∧ prints f target ∧ data <$> y = Some (data f)).

Lemma upgrade_triple x y h o : CompareVersions (TargetVersion h) Version = Some o → 0 ≤ o →
  triple (At ∅ x y) (upgrade fate random host Version key polls h)
    (λ r, Some_at ∅ (λ x' _, Acted x y (TargetVersion h) r x')) (Some_at ∅ (λ x' _, x' = x)) Inv.
Proof.
  intros Hcmp Ho. assert (∀ T w, At T x y w → Some_at ∅ (λ x' _, x' = x) w) as Hst
    by (intros T w Hw; exists x, y; split; [apply (at_forget T); [apply map_empty_subseteq|done]|done]).
  eapply triple_bind; [eapply triple_post; [apply copyIn_triple|by intros ? ? X; apply X|apply Hst|done]|].
  intros zip w (content & Hw & HT & Hp). revert w Hw. apply finally_triple; [done..|]. set (T1 := <[zip := _]> ∅).
  eapply triple_bind; [eapply triple_post; [apply coded_triple, (readLib_temp_triple T1 x y zip _ (lookup_insert_eq _ _ _))|by intros ? ? X; apply X|apply Hst|done]|].
  intros b w [Hw Hb]. cbn [data copied] in Hb. subst b. revert w Hw.
  destruct (VerifyRelease content _ _ _ key) as [[]|e] eqn:Ev; cbn [lift]; [apply triple_ret_bind|apply triple_throw_bind, Hst].
  apply release_verified in Ev as (Hkey & sig & Hsig).
  destruct (zipEntries content) as [entries|] eqn:Ez.
  2:{ intros w Hw. unfold bind at 1, unpack. revert w Hw. eapply triple_bind; [eapply triple_post; [|by intros ? ? X; apply X|apply Hst|done]|].
      - eapply triple_bind; [apply coded_triple, (readLib_temp_triple T1 x y zip _ (lookup_insert_eq _ _ _))|]. intros b w [Hw Hb]. cbn [data copied] in Hb. subst b.
        revert w Hw. rewrite Ez. apply (triple_throw _ _ (λ _ _, False)). done.
      - intros path w []. }
  eapply triple_bind; [eapply triple_post; [by apply (unpack_triple T1 x y zip _ entries (lookup_insert_eq _ _ _))|by intros ? ? X; apply X|apply Hst|done]|].
  intros new w (b & Hw & HT1 & Hpn & e & He & Hname & Hreg & Hc). revert w Hw. apply finally_triple; [done..|]. set (T2 := <[new := _]> T1).
  assert (Released b) as Hrel by (exists content, sig, entries, e; done).
  eapply triple_bind; [eapply triple_post; [apply (checkVersion_triple T2 x y new _ _ (lookup_insert_eq _ _ _))|by intros ? ? X; apply X|apply Hst|done]|].
  intros [] w [Hw Hprints]. revert w Hw.
  assert (∀ kernel, triple (At T2 x y) (swap fate random host Version polls new OutcomeInstalled kernel (TargetVersion h))
    (λ r, Some_at ∅ (λ x' _, Acted x y (TargetVersion h) r x')) (Some_at ∅ (λ x' _, x' = x)) Inv) as Hswap.
  { intros kernel. eapply triple_post; [apply (swap_triple T2 ∅ x y new (copied b 493)); [apply lookup_insert_eq|by right|apply map_empty_subseteq|done|done]| |done|done].
    intros r w (x' & y' & Hw & [Hd Hr Hs] & Hout). exists x', y'. split; [done|]. split; [|split; [done|split]].
    - intros [Hin|[Hin|Hin%list_elem_of_singleton]%elem_of_cons]%elem_of_cons; [by apply Hr|rewrite Hin in Hout; absurd_in Hout..].
    - intros Hi. right. exists (copied b 493). split_and!; [by apply Hd|done|done|by exists o].
    - intros Hi. rewrite Hi in Hout. absurd_in Hout. }
  destruct (HKernel h) as [k|]; [|apply Hswap].
  eapply triple_bind; [eapply triple_post; [apply installKernel_triple|by intros ? ? X; apply X|apply Hst|done]|]. intros []. apply Hswap.
Qed.

Lemma some_at_same T x y w : At T x y w → Some_at ∅ (λ x' _, x' = x) w.
Proof. intros Hw. exists x, y. split; [apply (at_forget T); [apply map_empty_subseteq|done]|done]. Qed.

(** A file that is not a binary is read. *)
Lemma readLib_any_triple T x y name : plain name = true → triple (At T x y) (readLib fate name) (λ _, At T x y) (At T x y) Inv.
Proof. intros Hn. eapply triple_post; [by apply readLib_plain_triple| |done|done]. intros b w (v & f & Hw & Hx & Hy & _). by exists v. Qed.

Lemma readSmall_triple T x y name limit : plain name = true → triple (At T x y) (readSmall fate name limit) (λ _, At T x y) (At T x y) Inv.
Proof.
  intros Hn. eapply triple_bind; [by apply readLib_any_triple|]. intros b. by destruct (limit <? len b); [apply triple_throw|apply triple_ret].
Qed.

Lemma ReadPrevRecord_triple T x y : triple (At T x y) (ReadPrevRecord fate) (λ _, At T x y) (At T x y) Inv.
Proof.
  eapply triple_bind; [by apply readSmall_triple|]. intros b. cbv beta. destruct (decodePrev b) as [record|]; [|by apply triple_throw].
  by destruct (_ || _); [apply triple_throw|apply triple_ret].
Qed.

Lemma rollback_triple x y h :
  triple (At ∅ x y) (rollback fate random host Version polls h)
    (λ r, Some_at ∅ (λ x' _, Acted x y (TargetVersion h) r x')) (Some_at ∅ (λ x' _, x' = x)) Inv.
Proof.
  pose proof (some_at_same) as Hst.
  eapply triple_bind; [eapply triple_post; [apply coded_triple, ReadPrevRecord_triple|by intros ? ? X; apply X|apply Hst|done]|].
  intros record. cbv beta. destruct (negb (SameAgentVersion _ _)); [apply triple_throw, Hst|].
  apply (triple_bind _ _ _ (λ _, At ∅ x y)).
  { eapply triple_post; [apply coded_triple|by intros ? ? X; apply X|apply Hst|done]. eapply triple_bind; [by apply readLib_any_triple|]. intros b. by apply triple_ret. }
  intros sum. destruct (negb (String.eqb _ _)); [apply triple_throw, Hst|].
  eapply triple_bind; [eapply triple_post; [apply coded_triple, (copyFile_triple ∅ x y PrevBinary); done|by intros ? ? X; apply X|apply Hst|done]|].
  intros path w (f & Hw & HT & Hp & Hal & _ & Hy). specialize (Hy eq_refl). revert w Hw. apply finally_triple; [done..|]. set (T1 := <[path := _]> ∅).
  eapply triple_bind; [eapply triple_post; [apply (checkVersion_triple T1 x y path _ _ (lookup_insert_eq _ _ _))|by intros ? ? X; apply X|apply Hst|done]|].
  intros [] w [Hw Hprints]. revert w Hw.
  eapply triple_post; [apply (swap_triple T1 ∅ x y path (copied (data f) 493)); [apply lookup_insert_eq|by apply Hal, in_agent|apply map_empty_subseteq|done|done]| |done|done].
  intros r w (x' & y' & Hw & [Hd Hr Hs] & Hout). exists x', y'. split; [done|]. split; [|split; [done|split]].
  - intros [Hin|[Hin|Hin%list_elem_of_singleton]%elem_of_cons]%elem_of_cons; [by apply Hr|rewrite Hin in Hout; absurd_in Hout..].
  - intros Hi. rewrite Hi in Hout. absurd_in Hout.
  - intros Hi. exists (copied (data f) 493). split; [by apply Hd|]. split; [done|]. by rewrite Hy.
Qed.

Lemma InstalledKernel_triple x y E : triple (At ∅ x y) (InstalledKernel fate) (λ _, At ∅ x y) E Inv.
Proof.
  destruct in_kernel as (K1 & _ & K3 & _).
  apply (triple_try _ _ _ (λ _, At ∅ x y) (At ∅ x y)); [|intros v; by apply triple_ret|intros e; by apply triple_ret].
  eapply triple_bind; [by apply readSmall_triple|]. intros b. cbv beta. destruct (decodeKernelRecord b) as [record|]; [|by apply triple_throw].
  destruct (_ || _); [by apply triple_throw|].
  eapply triple_bind; [apply readLib_any_triple; by apply kernel_plain|]. intros ?. cbv beta.
  apply (triple_bind _ _ _ (λ _, At ∅ x y)); [|intros ?; by apply triple_ret].
  destruct (bool_decide _); [by apply triple_ret|apply readLib_any_triple; by apply kernel_plain].
Qed.

Lemma kernelOnly_triple x y k target :
  triple (At ∅ x y) (kernelOnly fate random host polls k) (λ r, Some_at ∅ (λ x' _, Acted x y target r x')) (Some_at ∅ (λ x' _, x' = x)) Inv.
Proof.
  pose proof (some_at_same) as Hst.
  assert (∀ r, Outcome r ≠ OutcomeRolledBack → ∀ w, At ∅ x y w → Some_at ∅ (λ x' _, Acted x y target r x') w) as Hret.
  { intros r Hr w Hw. exists x, y. split; [done|]. split; [done|]. split; [done|]. split; [by left|done]. }
  eapply triple_bind; [apply InstalledKernel_triple|]. intros v. cbv beta. destruct (String.eqb _ _); [apply triple_ret; by apply Hret|].
  eapply triple_bind; [eapply triple_post; [apply installKernel_triple|by intros ? ? X; apply X|apply Hst|done]|]. intros []. cbv beta.
  eapply triple_try; [apply restartAndWatch_triple|intros []; apply triple_ret; by apply Hret|]. intros e.
  eapply triple_bind; [apply removeKernel_triple|]. intros []. cbv beta.
  eapply triple_try; [apply ask_triple| |]; intros ?; apply triple_ret; by apply Hret.
Qed.

Lemma apply_triple x y h :
  triple (At ∅ x y) (apply fate random host Version key polls h)
    (λ r, Some_at ∅ (λ x' _, Acted x y (TargetVersion h) r x')) (Some_at ∅ (λ x' _, x' = x)) Inv.
Proof.
  pose proof (some_at_same) as Hst.
  assert (∀ w, At ∅ x y w → Some_at ∅ (λ x' _, Acted x y (TargetVersion h) (success OutcomeCurrent "") x') w) as Hcur
    by (intros w Hw; exists x, y; split; [done|]; by split).
  unfold apply. destruct (SameAgentVersion Version (TargetVersion h)).
  { destruct (HKernel h) as [k|]; [|by apply triple_ret]. destruct (String.eqb _ _); [apply kernelOnly_triple|by apply triple_ret]. }
  destruct (String.eqb (Action h) _); [apply rollback_triple|]. destruct (String.eqb (HFile h) ""); [apply triple_throw, Hst|].
  destruct (CompareVersions _ _) as [o|] eqn:Ec; [|apply triple_throw, Hst]. destruct (Z.ltb_spec o 0); [apply triple_throw, Hst|].
  by apply (upgrade_triple x y h o).
Qed.

(** What the updater's report says of the installed binary. *)
Definition Applied (x y : option File) (r : Report) (x' : option File) : Prop :=
  (Outcome r ∈ [OutcomeRefused; OutcomeCurrent] → x' = x)
  ∧ (Outcome r = OutcomeRestored → reinstated r = true → data <$> x' = data <$> x)
  ∧ (Outcome r = OutcomeInstalled → x' = x ∨ ∃ target f, x' = Some f ∧ Released (data f) ∧ prints f target
        ∧ ∃ o, CompareVersions target Version = Some o ∧ 0 ≤ o)
  ∧ (Outcome r = OutcomeRolledBack → ∃ target f, x' = Some f ∧ prints f target ∧ data <$> y = Some (data f)).

Lemma acted_applied x y target r x' : Acted x y target r x' →
  Applied x y (mkReport (if bool_decide (is_Some (Failure r)) && String.eqb (Outcome r) "" then OutcomeRefused else Outcome r)
    (Kernel r) (ErrorCode <$> Failure r) (reinstated r)) x'.
Proof.
  intros (H1 & H2 & H3 & H4). unfold Applied. cbn [Outcome reinstated].
  destruct (bool_decide _ && String.eqb (Outcome r) "") eqn:E.
  - apply andb_true_iff in E as [_ E%String.eqb_eq]. split; [intros _; apply H1; rewrite E; apply elem_of_cons; by left|by split_and!].
  - split; [intros Hi; apply H1, elem_of_cons; by right|split; [done|split]].
    + intros Hi. destruct (H3 Hi) as [?|(f & ?)]; [by left|]. right. by exists target, f.
    + intros Hi. destruct (H4 Hi) as (f & ?). by exists target, f.
Qed.

Lemma staging_triple R E : triple (Some_at ∅ R) (stagingStep fate) (λ _, Some_at ∅ R) E Inv.
Proof.
  apply ignore_triple. intros w (x & y & Hw & HR). pose proof (ask_triple (λ _, Some tt) ∅ x y w Hw) as Ht.
  destruct (ask fate _ w) as [w' [a|e|]]; [by exists x, y|by exists x, y|done].
Qed.

Lemma Apply_triple x y :
  triple (At ∅ x y) (Apply fate random host Version key polls)
    (λ r, Some_at ∅ (λ x' _, Applied x y r x')) (At ∅ x y) Inv.
Proof.
  eapply triple_bind; [apply ask_triple|]. intros [].
  apply (triple_try _ _ _ (λ r, Some_at ∅ (λ x' _, ∃ target, Acted x y target r x')) (Some_at ∅ (λ x' _, x' = x))).
  - apply (triple_bind _ _ _ (λ _, At ∅ x y)).
    + eapply triple_bind; [eapply triple_post; [apply coded_triple, ask_triple|by intros ? ? X; apply X|apply some_at_same|done]|].
      intros [size content]. cbv beta iota. destruct (maxHandOffBytes <? size); [apply triple_throw, some_at_same|].
      destruct (decodeHandOff _) as [h|]; [|apply triple_throw, some_at_same].
      destruct (validHandOff h); [by apply triple_ret|apply triple_throw, some_at_same].
    + intros h. eapply triple_post; [apply apply_triple| |done|done]. intros r w (x' & y' & Hw & Ha). exists x', y'. split; [done|]. by exists (TargetVersion h).
  - intros r. do 2 (eapply triple_bind; [apply staging_triple|]; intros []; cbv beta). cbv zeta.
    do 2 (eapply triple_bind; [apply staging_triple|]; intros []; cbv beta).
    apply triple_ret. intros w (x' & y' & Hw & target & Ha). exists x', y'. split; [done|]. by apply (acted_applied x y target).
  - intros code. do 2 (eapply triple_bind; [apply staging_triple|]; intros []; cbv beta). cbv zeta.
    do 2 (eapply triple_bind; [apply staging_triple|]; intros []; cbv beta).
    apply triple_ret. intros w (x' & y' & Hw & ->). exists x, y'. split; [done|]. by split.
Qed.

End Trust.

(** ** The claims *)

Section Claims.
Context `{UpgradeCodec}.
Variable fate : nat → Fate.
Variable random : nat → string.
Variable key : string.

(** The installed binaries after any number of runs of the updater, each as
    whatever release and stopped anywhere. *)
Inductive updated (w0 : World) : World → Prop :=
  | updated_start : updated w0 w0
  | updated_run w host Version polls w1 o w2 : updated w0 w →
      Apply fate random host Version key polls w = (w1, o) → survives w1 w2 → updated w0 w2.

(** The binaries the installer put there. *)
Definition putThere (w0 : World) (files : list string) (b : string) : Prop :=
  ∃ d n f, d ∈ dirs w0 ∧ n ∈ files ∧ view (heap w0) d n = Some f ∧ data f = b.

(** C27: only genuine binaries are ever installed.  Whatever requests and files
    the unprivileged Agent stages, however they change while they are read,
    whichever calls fail and wherever the updater or the machine stops, there is
    always an Agent binary, every Agent binary, installed or kept, is one the
    installer put there or comes from a release zip the release key signed, and
    every kernel binary is one listed in sums the kernel key signed. *)
Theorem installed_binaries_genuine w0 w n f :
  wf w0 → (∀ d, d ∈ dirs w0 → is_Some (view (heap w0) d BinaryName)) → updated w0 w → view (heap w) (dir w) n = Some f →
  is_Some (view (heap w) (dir w) BinaryName)
  ∧ (n ∈ agentFiles → putThere w0 agentFiles (data f) ∨ Released key (data f))
  ∧ (n ∈ kernelFiles → putThere w0 kernelFiles (data f) ∨ KernelReleased (data f)).
Proof.
  intros Hwf Hbin Hup Hf. set (V := genuine key (putThere w0 agentFiles) (putThere w0 kernelFiles)).
  assert (inv V w0) as H0.
  { split; [done|]. intros d Hd. split; [by apply Hbin|]. intros m g Hg. split; intros Hm; left; by exists d, m, g. }
  assert (inv V w) as [_ Ha].
  { clear Hf. induction Hup as [|w host Version polls w1 o w2 _ IH Hw Hs]; [done|]. eapply (survives_inv V); [|done].
    assert (At key (putThere w0 agentFiles) (putThere w0 kernelFiles) ∅ (view (heap w) (dir w) BinaryName) (view (heap w) (dir w) PrevBinary) w) as Hat
      by (eexists; split; [by apply (stored_start V)|done]).
    pose proof (Apply_triple key _ _ fate random host Version polls _ _ w Hat) as Ht. rewrite Hw in Ht.
    destruct o; [destruct Ht as (x' & y' & Ht & _); by eapply at_inv|by eapply at_inv|done]. }
  destruct (Ha (dir w) (dirs_head w)) as [Hs Hall]. split; [done|]. by apply (Hall n f).
Qed.

(** The updater's report tells what is installed.  After "refused" and
    "current" the installed binary is untouched; after "restored", when the
    error says so, its content is what it was; after "installed" it is untouched
    (a kernel alone) or a binary of a signed release that printed a version not
    older than the updater's; after "rolled_back" it is the binary that was
    kept. *)
Theorem updater_report_exact host Version polls w w' r :
  wf w → (∀ d, d ∈ dirs w → is_Some (view (heap w) d BinaryName)) →
  Apply fate random host Version key polls w = (w', Value r) →
  Applied key host Version (view (heap w) (dir w) BinaryName) (view (heap w) (dir w) PrevBinary) r (view (heap w') (dir w') BinaryName).
Proof.
  intros Hwf Hbin Hw. set (V := genuine key (λ _, True) (λ _, True)).
  assert (inv V w) as Hi by (split; [done|]; intros d Hd; split; [by apply Hbin|]; intros m g Hg; split; intros _; by left).
  assert (At key (λ _, True) (λ _, True) ∅ (view (heap w) (dir w) BinaryName) (view (heap w) (dir w) PrevBinary) w) as Hat
    by (eexists; split; [by apply (stored_start V)|done]).
  pose proof (Apply_triple key _ _ fate random host Version polls _ _ w Hat) as Ht. rewrite Hw in Ht.
  destruct Ht as (x' & y' & (v & (_ & Hc & _) & Hx & _) & Ha). by rewrite (Hc BinaryName eq_refl), Hx.
Qed.

End Claims.

(** ** Witnesses: a toy signature and archive format *)

Module Witness.

Fixpoint repeat_char (n : nat) (c : ascii) : string := match n with O => "" | S n => String c (repeat_char n c) end.

Definition digest : string := repeat_char 64 "a".
Definition kernel (version : string) : KernelHandOff :=
  let asset := "anx-node-" +:+ version +:+ "-x86_64-linux-musl.tar.gz" in
  mkKernelHandOff "anx-node" version "x86_64" asset asset (len ("kernel " +:+ version)) digest "sums" (armorBegin +:+ "SSHSIG" +:+ armorEnd).

(** A request "to <version>", with the kernel after a "+". *)
Definition request (b : string) : HandOff :=
  let '(version, k) := match cut (trim_prefix b "to ") "+" with Some (v, k) => (v, Some (kernel k)) | None => (trim_prefix b "to ", None) end in
  mkHandOff HandOffSchema "op" "campaign" "upgrade" version "" "x86_64" "anix-agent-linux-amd64.zip" (len ("signed:" +:+ version)) digest digest k 0.

#[export] Instance demo : UpgradeCodec := {|
  UpgradeErrorInvalidRequest := "invalid"; UpgradeErrorDigest := "digest"; UpgradeErrorSignature := "signature";
  UpgradeErrorDowngrade := "downgrade"; UpgradeErrorNoPrevious := "no previous";
  UpgradeActionUpgrade := "upgrade"; UpgradeActionRollback := "rollback";
  MaxUpgradeArtifactBytes := 1000; MaxUpgradeKernelBytes := 1000; KernelAnxNode := "anx-node";
  KernelVersionPattern v := negb (String.eqb v "");
  KernelSum _ _ := Some digest; SameAgentVersion := String.eqb; sha256_hex _ := digest; base64_decode := Some;
  ed25519_verify _ zip _ := has_prefix zip "signed:";
  ssh_wire _ := Some (mkWire 1 "key" KernelSignatureNamespace "" "sha256" "sig");
  ssh_public_key := Some; ssh_authorized_key _ := Some "key"; ssh_signature := Some; ssh_marshal _ _ _ d := d;
  ssh_key_verify _ _ _ := true; sha512 s := s; sha256 s := s;
  zipEntries zip := if has_prefix zip "signed:" then Some [mkEntry "anix-agent" true 10 (Some (trim_prefix zip "signed:"))] else None;
  tarEntries package := Some ([mkEntry "anx-node-7-x86_64-linux-musl/anx-node" true 10 (Some ("anx-node " +:+ package))], false);
  decodeHandOff b := Some (request b);
  decodePrev _ := None; encodePrev r := PVersion r; decodeKernelRecord _ := None; encodeKernelRecord r := KRVersion r
|}.

Definition always : nat → Fate := λ _, Done.
Definition random (n : nat) : string := itoa (Z.of_nat n).
Definition key : string := repeat_char 32 "k".

(** A host where the staged file of call [n] is [files n] and units stay up. *)
Definition host (what : string) (files : nat → string) : Host :=
  mkHost (λ n, Some (len (files n), files n)) (λ _, Some (5, what))
    (λ _, "ActiveState=active" +:+ String "010" "MainPID=7") (λ _ content, content) (λ n, Z.of_nat n) (λ _, false) (λ _, false).

Definition file (b : string) : File := mkFile true 493 true b true.
Definition start : World := mkWorld {[ BinaryName := 0 ]} [] {[ 0 := file "v1.0.0" ]} 1 0.

Definition upgraded : World * outcome Report :=
  Apply always random (host "to v2.0.0" (λ _, "signed:v2.0.0")) "v1.0.0" key 3 start.

Lemma updater_start_wf : wf start.
Proof.
  split.
  - intros d n id Hd Hp Hid. apply list_elem_of_singleton in Hd as ->. cbn [dir start] in Hid. apply lookup_singleton_Some in Hid as [<- <-].
    exists (file "v1.0.0"). cbn [heap start]. split; [apply lookup_singleton_eq|done].
  - intros d n id Hd Hid. apply list_elem_of_singleton in Hd as ->. cbn [dir start] in Hid. apply lookup_singleton_Some in Hid as [<- <-].
    cbn [heap start]. rewrite lookup_singleton_eq. by eexists.
  - intros id [f Hf]. cbn [heap start] in Hf. apply lookup_singleton_Some in Hf as [<- _]. cbn. lia.
Qed.

Lemma start_has_agent d : d ∈ dirs start → is_Some (view (heap start) d BinaryName).
Proof. intros Hd. apply list_elem_of_singleton in Hd as ->. vm_compute. by eexists. Qed.

Lemma updater_report_exact_witness :
  Outcome (match upgraded.2 with Value r => r | _ => failure "" "" "" end) = OutcomeInstalled ∧
  Applied key (host "to v2.0.0" (λ _, "signed:v2.0.0")) "v1.0.0" (Some (file "v1.0.0")) None
    (success OutcomeInstalled "") (view (heap upgraded.1) (dir upgraded.1) BinaryName).
Proof.
  split; [vm_compute; reflexivity|].
  apply (updater_report_exact always random key (host "to v2.0.0" (λ _, "signed:v2.0.0")) "v1.0.0" 3 start upgraded.1 (success OutcomeInstalled "")
    updater_start_wf start_has_agent). vm_compute. reflexivity.
Defined.

Lemma installed_binaries_genuine_witness :
  putThere start agentFiles "v2.0.0" ∨ Released key "v2.0.0".
Proof.
  pose proof (installed_binaries_genuine always random key start upgraded.1 BinaryName (file "v2.0.0") updater_start_wf start_has_agent) as H.
  destruct H as (_ & Ha & _); [|vm_compute; reflexivity|apply Ha; unfold agentFiles; by left].
  apply (updated_run always random key start start (host "to v2.0.0" (λ _, "signed:v2.0.0")) "v1.0.0" 3 upgraded.1 upgraded.2);
    [apply updated_start|apply surjective_pairing|constructor].
Defined.

(** A failure between the kernel and the Agent's binary leaves the new kernel
    behind an upgrade that was refused. *)
Definition failing (k n : nat) : Fate := if Nat.eqb n k then Fails "" else Done.

Definition withKernel (k : nat) : World * outcome Report :=
  Apply (failing k) random (host "to v2.0.0+7" (λ n, if Nat.ltb n 10 then "signed:v2.0.0" else "kernel 7")) "v1.0.0" key 3 start.

Definition shown (w : World) (name : string) : option string := data <$> view (heap w) (dir w) name.

Example refused_upgrade_leaves_kernel :
  (withKernel 41).2 = Value (failure OutcomeRefused "7" ErrorInstall) ∧
  shown (withKernel 41).1 BinaryName = Some "v1.0.0" ∧ shown (withKernel 41).1 KernelFile = Some "anx-node kernel 7".
Proof. vm_compute. done. Qed.

(** Ends of an armor that share their dashes make the updater panic. *)
Example shared_dashes_panic :
  VerifySSHSignature "sums" "-----BEGIN SSH SIGNATURE-----END SSH SIGNATURE-----" KernelReleaseKey KernelSignatureNamespace = None.
Proof. vm_compute. done. Qed.

(** A kernel package without a server is taken out again with the server that
    was kept two installations ago. *)
Definition older_server : World :=
  mkWorld {[ BinaryName := 0; KernelFile := 1; ServerFile := 2; ServerPrevFile := 3 ]} []
    {[ 0 := file "v1.0.0"; 1 := file "kernel 6"; 2 := file "server 6"; 3 := file "server 5" ]} 4 0.

Definition unstable : Host :=
  mkHost (λ n, Some (len (if Nat.ltb n 10 then "signed:v2.0.0" else "kernel 7"), if Nat.ltb n 10 then "signed:v2.0.0" else "kernel 7"))
    (λ _, Some (5, "to v2.0.0+7")) (λ _, "ActiveState=failed") (λ _ content, content) (λ n, Z.of_nat n) (λ _, false) (λ _, false).

Example stale_server_comes_back :
  let w := (Apply always random unstable "v1.0.0" key 3 older_server).1 in
  shown w BinaryName = Some "v1.0.0" ∧ shown w KernelFile = Some "kernel 6" ∧ shown w ServerFile = Some "server 5".
Proof. vm_compute. done. Qed.

End Witness.

End UpgradeTrust.
