(* ===== verification/UpgradeAgent.v ===== *)
(** * Agent upgrades: the Agent's half (upgrade/agent.go, api/agent/operation_hooks.go)

    The agent.upgrade handler: it downloads and verifies a release into the
    staging directory and hands it to the updater of Upgrade.v by request.json,
    which is put in place only after the operation's terminal state was sent.

    The world of Disk.v is the staging directory.  The updater and the other
    threads of the Agent work in it too: before each call what they did since
    the last one happens ([others]).  The installed files are another world,
    at every read the one of that moment; the age of a request, systemctl and
    the downloads are arbitrary answers by the number of the call.  The SDK's
    request and the encoding of a hand-off are the class [UpgradeSDK]. *)

From S2P Require Import Prelude GoStrings GoNet Disk Upgrade.
From Stdlib Require Import Ascii String.

Module UpgradeAgent.
Import GoNet Disk Upgrade.
#[local] Open Scope store_scope.

(** ** The SDK *)

Record UpgradeArtifact := mkArtifact { AArch : string; AAsset : string; AURL : string; ASHA256 : string; ASize : Z; ASignature : string }.
Record UpgradeKernel := mkUpgradeKernel {
  UName : string; UVersion : string; UArch : string; UAsset : string; UURL : string; USize : Z; USHA256 : string; USums : string; USumsSignature : string
}.

Class UpgradeSDK := {
  sdk_codec :: UpgradeCodec;
  UpgradeRequest : Type;
  ParseUpgradeRequest : string → option UpgradeRequest;
  RCampaignID : UpgradeRequest → string;
  RAction : UpgradeRequest → string;
  RTargetVersion : UpgradeRequest → string;
  RPreviousVersion : UpgradeRequest → string;
  RArtifact : UpgradeRequest → string → option UpgradeArtifact; (* request.Artifact *)
  RKernel : UpgradeRequest → string → option UpgradeKernel; (* request.Kernel *)
  UpgradeErrorBusy : string; UpgradeErrorUpdater : string; UpgradeErrorNoArtifact : string; UpgradeErrorDownload : string;
  UpgradePhaseCurrent : string; UpgradePhaseHandedOff : string;
  OperationKindAgentUpgrade : string;
  encodeHandOff : HandOff → option string; (* json.Marshal *)
  unmarshalHandOff : string → HandOff (* what json.Unmarshal leaves in a zero HandOff *)
}.

Definition RequestFile : string := "request.json".
Definition ResultFile : string := "result.json".
Definition DefaultStaleRequest : Z := 15 * 60 * 1000000000. (* ns *)

(** ** The staging directory *)

(** What others do there: the updater takes the request, removes it and the
    files it applied, and writes its result; another thread removes a request. *)
Inductive Other := Takes | Removes (name : string) | Writes (content : string).

Definition applying : string := RequestFile +:+ ".applying".

(** The names others remove. *)
Definition removable (name : string) : bool :=
  String.eqb name RequestFile || String.eqb name applying || assetPattern name || kernelAssetPattern name.

Definition other (w : World) (o : Other) : World :=
  match o with
  | Takes => match dir w !! RequestFile with
             | Some id => set_dir w (<[applying := id]> (delete RequestFile (dir w)))
             | None => w
             end
  | Removes name => if removable name then set_dir w (delete name (dir w)) else w
  | Writes content =>
    let id := next w in
    mkWorld (<[ResultFile := id]> (dir w)) (dirs w) (<[id := mkFile true 420 true content true]> (heap w)) (id + 1) (calls w)
  end.

(** The answer of the https URL; an error before a response is [Unreachable].
    A broken body ends with an error. *)
Inductive HTTP := Unreachable | Response (status contentLength : Z) (body : string) (broken : bool).

(** What is answered, by the number of the call. *)
Record AgentHost := mkAgentHost {
  active : nat → bool; (* systemctl is-active *)
  age : nat → Z; (* of request.json, ns *)
  fetch : nat → option (option string); (* on the control connection, when the context has a Fetch *)
  http : nat → HTTP;
  lib : nat → World;
  others : nat → list Other;
  nowMs : nat → Z
}.

Record Answer := mkAnswer { APhase : string; AVersion : string; AError : option string }.

(** What the function registered with [AfterTerminal] has. *)
Record Callback := mkCallback { CHandOff : HandOff; CTemp : string; CStaged : string; CKernelStaged : string }.

Section Agent.
Context `{UpgradeSDK}.
Variable fate : nat → Fate.
Variable libFate : nat → Fate.
Variable random : nat → string.
Variable host : AgentHost.
Variable Version : string.
Variable arch : string.
Variable key : string.
Variable StaleRequest : Z.

(** A call, after what others did. *)
Definition step {A} (m : M A) : M A := λ w, m (foldl other w (others host (calls w))).

(** An answer. *)
Definition asks {A} (f : nat → A) : M A := step (λ w, (tick w, Value (f (calls w)))).

(** A program on the installed files. *)
Definition inLib {A} (m : M A) : M A := step (λ w, (tick w, (m (lib host (calls w))).2)).

Definition updaterActive : M bool := asks (active host).

Definition Available : M bool := if negb (len key =? 32) then ret false else updaterActive.

Definition discard (staged : string) : M unit := if String.eqb staged "" then ret tt else ignore (step (remove fate staged)).

(** [os.CreateTemp] refuses a pattern with a separator. *)
Definition tempFor (base : string) : M (string * Z) :=
  if contains_char base "/" then throw "" else step (createTemp fate random ("." +:+ base +:+ ".") ".tmp").

Definition saveTemp (asset : string) (size : Z) (body : string) (broken : bool) : M string :=
  temp <- coded UpgradeErrorDownload (tempFor asset) ;;
  let '(name, id) := temp in
  let written := limited body (size + 1) in
  r <- attempt (step (write fate id written) ;;; (if broken && (len body <=? size) then throw "" else ret tt)) ;;
  closed <- attempt (step (close fate)) ;;
  if negb (is_ok r && is_ok closed) then ignore (step (remove fate name)) ;;; throw UpgradeErrorDownload
  else if size <? len written then ignore (step (remove fate name)) ;;; throw UpgradeErrorDigest
  else ret name.

Definition download (asset : string) (size : Z) : M string :=
  fetched <- asks (fetch host) ;;
  match fetched with
  | Some (Some content) => saveTemp asset size content false
  | _ =>
    response <- asks (http host) ;;
    match response with
    | Unreachable => throw UpgradeErrorDownload
    | Response status contentLength body broken =>
      if negb (status =? 200) then throw UpgradeErrorDownload
      else if size <? contentLength then throw UpgradeErrorDigest
      else saveTemp asset size body broken
    end
  end.

(** The temporary file takes its name; a name of a directory is refused. *)
Definition moveTo (temp asset : string) : M unit :=
  if bool_decide (asset ∈ [""; "."; ".."]) then throw "" else step (rename fate temp asset).

(** Downloaded into the directory, verified, and put under its name. *)
Definition stageFile (asset : string) (size : Z) (verify : string → option (result unit)) : M string :=
  coded UpgradeErrorDownload (step (call fate (λ w, (w, Value tt)) unchanged)) ;;; (* MkdirAll *)
  temp <- download asset size ;;
  r <- attempt (content <- coded UpgradeErrorDigest (step (readSmall fate temp size)) ;;
                verdict <- unwound (verify content) ;; lift verdict) ;;
  match r with
  | Err e => ignore (step (remove fate temp)) ;;; throw e
  | Ok _ =>
    r <- attempt (moveTo temp asset) ;;
    match r with
    | Err _ => ignore (step (remove fate temp)) ;;; throw UpgradeErrorDownload
    | Ok _ => ret asset
    end
  end.

Definition stage (a : UpgradeArtifact) : M string :=
  stageFile (AAsset a) (ASize a) (λ content, Some (VerifyRelease content (ASize a) (ASHA256 a) (ASignature a) key)).

Definition kernelHandOff (k : UpgradeKernel) (file : string) : KernelHandOff :=
  mkKernelHandOff (UName k) (UVersion k) (UArch k) (UAsset k) file (USize k) (USHA256 k) (USums k) (USumsSignature k).

Definition stageKernel (k : UpgradeKernel) : M string :=
  stageFile (UAsset k) (USize k) (λ content, VerifyKernel content (kernelHandOff k (UAsset k))).

(** What an earlier upgrade left. *)
Definition leftover (name : string) : bool :=
  assetPattern name || kernelAssetPattern name || (has_prefix name "." && has_suffix name ".tmp").

Fixpoint removeAll (names : list string) : M unit :=
  match names with [] => ret tt | name :: names => ignore (step (remove fate name)) ;;; removeAll names end.

Definition cleanStaging : M unit :=
  entries <- attempt (step (call fate (λ w, (w, Value (elements (dom (dir w))))) unchanged)) ;;
  match entries with Err _ => ret tt | Ok names => removeAll (filter (λ name, leftover name = true) names) end.

Definition writeTemp (content : string) : M string :=
  temp <- tempFor RequestFile ;;
  let '(name, id) := temp in
  r <- attempt (orClose fate (step (write fate id content)) ;;; orClose fate (step (sync fate id)) ;;; step (close fate)) ;;
  match r with Ok _ => ret name | Err e => ignore (step (remove fate name)) ;;; throw e end.

(** ** The request that waits *)

Definition sameHandOff (h : HandOff) (r : UpgradeRequest) : bool :=
  SameAgentVersion (TargetVersion h) (RTargetVersion r) && String.eqb (Action h) (RAction r).

Definition pendingRequest : M (option HandOff) :=
  info <- attempt (step (call fate (λ w, (w, if bool_decide (is_Some (dir w !! RequestFile)) then Value (age host (calls w)) else Error ErrNotExist)) unchanged)) ;;
  match info with
  | Err _ => ret None
  | Ok old =>
    let stale := if StaleRequest <=? 0 then DefaultStaleRequest else StaleRequest in
    if old <? stale then
      r <- attempt (step (readSmall fate RequestFile maxHandOffBytes)) ;;
      ret (Some (match r with Ok content => unmarshalHandOff content | Err _ => emptyHandOff end))
    else ignore (step (remove fate RequestFile)) ;;; ret None
  end.

(** ** The handler *)

Definition wantedKernel (r : UpgradeRequest) : M (option UpgradeKernel) :=
  if negb (String.eqb (RAction r) UpgradeActionUpgrade) then ret None
  else match RKernel r arch with
       | None => ret None
       | Some k => installed <- inLib (InstalledKernel libFate) ;; ret (if String.eqb installed (UVersion k) then None else Some k)
       end.

(** The files of an upgrade: the hand-off with them, and their names. *)
Definition stageUpgrade (r : UpgradeRequest) (current : bool) (kernel : option UpgradeKernel) (h : HandOff) : M (HandOff * string * string) :=
  ok <- updaterActive ;;
  if negb ok then throw UpgradeErrorUpdater else
  cleanStaging ;;;
  agent <- (if current then ret (h, "")
            else match RArtifact r arch with
                 | None => throw UpgradeErrorNoArtifact
                 | Some a =>
                   staged <- stage a ;;
                   ret (mkHandOff (Schema h) (OperationID h) (CampaignID h) (Action h) (TargetVersion h) (PreviousVersion h)
                          (AArch a) staged (ASize a) (ASHA256 a) (trim_space (ASignature a)) (HKernel h) (RequestedAtMS h), staged)
                 end) ;;
  let '(h, staged) := agent in
  match kernel with
  | None => ret (h, staged, "")
  | Some k =>
    result <- attempt (stageKernel k) ;;
    match result with
    | Err e => discard staged ;;; throw e
    | Ok kernelStaged =>
      ret (mkHandOff (Schema h) (OperationID h) (CampaignID h) (Action h) (TargetVersion h) (PreviousVersion h)
             (Arch h) (HFile h) (HSize h) (HSHA256 h) (Signature h) (Some (kernelHandOff k kernelStaged)) (RequestedAtMS h), staged, kernelStaged)
    end
  end.

(** A rollback goes to the kept release. *)
Definition checkRollback (r : UpgradeRequest) : M unit :=
  record <- coded UpgradeErrorNoPrevious (inLib (ReadPrevRecord libFate)) ;;
  if SameAgentVersion (PVersion record) (RTargetVersion r) then ret tt else throw UpgradeErrorNoPrevious.

(** The request is written aside, for the callback; [inOperation] says that the
    context is an operation's. *)
Definition prepare (inOperation : bool) (h : HandOff) (staged kernelStaged : string) : M Callback :=
  let abandon code := discard staged ;;; discard kernelStaged ;;; throw code in
  ok <- updaterActive ;;
  if negb ok then abandon UpgradeErrorUpdater else
  match encodeHandOff h with
  | None => abandon UpgradeErrorUpdater
  | Some content =>
    r <- attempt (writeTemp content) ;;
    match r with
    | Err _ => abandon UpgradeErrorUpdater
    | Ok temp =>
      if inOperation then ret (mkCallback h temp staged kernelStaged)
      else ignore (step (remove fate temp)) ;;; abandon UpgradeErrorUpdater
    end
  end.

(** [Handle] from the claim of the Agent to the answer: the request that is with
    the updater already ([None]), or the function registered. *)
Definition handOff (inOperation : bool) (operationID : string) (r : UpgradeRequest) (current : bool) (kernel : option UpgradeKernel) : M (option Callback) :=
  pending <- pendingRequest ;;
  match pending with
  | Some p => if sameHandOff p r then ret None else throw UpgradeErrorBusy
  | None =>
    now <- asks (nowMs host) ;;
    let h := mkHandOff HandOffSchema operationID (RCampaignID r) (RAction r) (RTargetVersion r) (RPreviousVersion r) "" "" 0 "" "" None now in
    files <- (if String.eqb (RAction r) UpgradeActionUpgrade then stageUpgrade r current kernel h
              else if String.eqb (RAction r) UpgradeActionRollback then checkRollback r ;;; ret (h, "", "")
              else ret (h, "", "")) ;;
    let '(h, staged, kernelStaged) := files in
    callback <- prepare inOperation h staged kernelStaged ;;
    ret (Some callback)
  end.

(** The function registered, with the phase that was sent. *)
Inductive ObservedPhase := SUCCEEDED | FAILED | SUPERSEDED.

Definition afterTerminal (c : Callback) (phase : ObservedPhase) : M unit :=
  let drop := ignore (step (remove fate (CTemp c))) ;;; discard (CStaged c) ;;; discard (CKernelStaged c) in
  match phase with
  | SUCCEEDED => r <- attempt (step (rename fate (CTemp c) RequestFile)) ;; match r with Ok _ => ret tt | Err _ => drop end
  | _ => drop
  end.

(** The updater's result is logged once. *)
Definition LogLastResult : M (option string) :=
  r <- attempt (step (readSmall fate ResultFile maxRecordBytes)) ;;
  match r with
  | Err _ => ret None
  | Ok content => ignore (step (rename fate ResultFile (ResultFile +:+ ".seen"))) ;;; ret (Some content)
  end.

(** ** The Agent *)

(** The upgrade that runs, the functions registered by operation context (an
    operation has an entry while it executes), and the staging directory. *)
Record Agent := mkAgent { flight : option (string * string); after : gmap nat (list Callback); disk : World }.

(** A process that starts. *)
Definition restarted (w : World) : Agent := mkAgent None ∅ w.

Definition same (f : string * string) (target action : string) : bool := SameAgentVersion f.1 target && String.eqb f.2 action.

(** [begin] claims the Agent, or answers the upgrade that runs. *)
Definition begin (target action : string) (s : Agent) : Agent * option (string * string) :=
  match flight s with
  | Some f => (s, Some f)
  | None => (mkAgent (Some (target, action)) (after s) (disk s), None)
  end.

(** [end]. *)
Definition endFlight (s : Agent) : Agent := mkAgent None (after s) (disk s).

Definition set_disk (s : Agent) (w : World) : Agent := mkAgent (flight s) (after s) w.

(** A call waits, ends the process, or answers. *)
Inductive Reply (A : Type) := Waits | Died | Replies (a : A).
Arguments Waits {A}. Arguments Died {A}. Arguments Replies {A}.

Definition Admit (kind payload : string) (s : Agent) : Agent * Reply (option string) :=
  if negb (String.eqb kind OperationKindAgentUpgrade) then (s, Replies None)
  else match ParseUpgradeRequest payload with
  | None => (s, Replies (Some UpgradeErrorInvalidRequest))
  | Some r =>
    if SameAgentVersion Version (RTargetVersion r) then (s, Replies None)
    else if match flight s with Some f => negb (same f (RTargetVersion r) (RAction r)) | None => false end
    then (s, Replies (Some UpgradeErrorBusy))
    else match pendingRequest (disk s) with
         | (w, Value pending) =>
           (set_disk s w,
            Replies (match pending with Some p => if sameHandOff p r then None else Some UpgradeErrorBusy | None => None end))
         | (w, Error e) => (set_disk s w, Replies (Some e))
         | (w, Crashed) => (restarted w, Died)
         end
  end.

(** [AfterTerminal]. *)
Definition AfterTerminal (ctx : nat) (c : Callback) (a : gmap nat (list Callback)) : gmap nat (list Callback) :=
  match a !! ctx with Some l => <[ctx := l ++ [c]]> a | None => a end.

Definition failed (code : string) : Answer := mkAnswer "" Version (Some code).

(** [Handle]; [cancelled] says whether the context ends while it waits for the
    same upgrade. *)
Definition Handle (ctx : nat) (operationID payload : string) (cancelled : bool) (s : Agent) : Agent * Reply Answer :=
  match ParseUpgradeRequest payload with
  | None => (s, Replies (mkAnswer "" "" (Some UpgradeErrorInvalidRequest)))
  | Some r =>
    match wantedKernel r (disk s) with
    | (w, Crashed) => (restarted w, Died)
    | (w, Error e) => (set_disk s w, Replies (failed e))
    | (w, Value kernel) =>
      let s := set_disk s w in
      let current := SameAgentVersion Version (RTargetVersion r) in
      if current && bool_decide (kernel = None) then (s, Replies (mkAnswer UpgradePhaseCurrent Version None))
      else match begin (RTargetVersion r) (RAction r) s with
      | (s, Some f) => if negb (same f (RTargetVersion r) (RAction r)) || cancelled then (s, Replies (failed UpgradeErrorBusy)) else (s, Waits)
      | (s, None) =>
        match handOff (bool_decide (is_Some (after s !! ctx))) operationID r current kernel (disk s) with
        | (w, Crashed) => (restarted w, Died)
        | (w, Error e) => (endFlight (set_disk s w), Replies (failed e))
        | (w, Value None) => (endFlight (set_disk s w), Replies (mkAnswer UpgradePhaseHandedOff (RTargetVersion r) None))
        | (w, Value (Some c)) =>
          (mkAgent (flight s) (AfterTerminal ctx c (after s)) w, Replies (mkAnswer UpgradePhaseHandedOff (RTargetVersion r) None))
        end
      end
    end
  end.

(** The functions registered run one after the other; each ends the upgrade. *)
Fixpoint runAll (l : list Callback) (phase : ObservedPhase) (s : Agent) : Agent * Reply unit :=
  match l with
  | [] => (s, Replies tt)
  | c :: l =>
    match afterTerminal c phase (disk s) with
    | (w, Crashed) => (restarted w, Died)
    | (w, _) => runAll l phase (endFlight (set_disk s w))
    end
  end.

Definition runAfter (ctx : nat) (phase : ObservedPhase) (s : Agent) : Agent * Reply unit :=
  match after s !! ctx with
  | None => (s, Replies tt)
  | Some l => runAll l phase (mkAgent (flight s) (<[ctx := []]> (after s)) (disk s))
  end.

End Agent.

Arguments Waits {A}.
Arguments Died {A}.
Arguments Replies {A}.

End UpgradeAgent.
