(* ===== verification/UpgradeHandOff.v ===== *)
(** * Agent upgrades: what is handed to the updater

    Whatever fails, whoever else works in the staging directory and wherever the
    process ends, a request reaches the updater only after its operation was
    reported SUCCEEDED, and what is staged under a release's name is a release
    the key signed. *)

From S2P Require Import Prelude GoStrings GoNet Disk Upgrade UpgradeTrust UpgradeAgent.
From Stdlib Require Import Ascii String.

Module UpgradeHandOff.
Import GoNet Disk DiskViews Upgrade UpgradeTrust UpgradeAgent.

(** ** Contents *)

Definition content (w : World) (n : string) : option string := data <$> view (heap w) (dir w) n.

(** The names are of different files. *)
Record files_wf (w : World) : Prop := {
  fw_entry : ∀ n id, dir w !! n = Some id → is_Some (heap w !! id);
  fw_next : ∀ n id, dir w !! n = Some id → id < next w;
  fw_alone : ∀ n m id, dir w !! n = Some id → dir w !! m = Some id → n = m
}.

(** [v'] is [v] with [x] for [n]. *)
Definition edit (v : string → option string) (n : string) (x : option string) (v' : string → option string) : Prop :=
  ∀ m, v' m = if String.eqb m n then x else v m.

Lemma content_delete w n : edit (content w) n None (content (set_dir w (delete n (dir w)))).
Proof. intros m. unfold content, view. cbn. destruct (String.eqb_spec m n) as [->|]; [by rewrite lookup_delete_eq|by rewrite lookup_delete_ne]. Qed.

Lemma wf_delete w n : files_wf w → files_wf (set_dir w (delete n (dir w))).
Proof. intros [He Hn Ha]. split; cbn; intros *; rewrite !lookup_delete_Some; naive_solver. Qed.

Lemma wf_tick w : files_wf w → files_wf (tick w).
Proof. by intros [? ? ?]. Qed.

Definition moved (w : World) (n m : string) (id : Z) : World := set_dir w (<[m := id]> (delete n (dir w))).

Lemma content_moved w n m id : dir w !! n = Some id →
  ∃ v, edit (content w) n None v ∧ edit v m (content w n) (content (moved w n m id)).
Proof.
  intros Hn. exists (content (set_dir w (delete n (dir w)))). split; [apply content_delete|]. intros k. unfold content, view. cbn.
  destruct (String.eqb_spec k m) as [->|]; [by rewrite lookup_insert_eq, Hn|by rewrite lookup_insert_ne].
Qed.

Lemma wf_moved w n m id : dir w !! n = Some id → files_wf w → files_wf (moved w n m id).
Proof.
  intros Hid [He Hn Ha]. split; cbn; intros *; rewrite !lookup_insert_Some, !lookup_delete_Some; naive_solver.
Qed.

Definition created (w : World) (n : string) (f : File) : World :=
  mkWorld (<[n := next w]> (dir w)) (dirs w) (<[next w := f]> (heap w)) (next w + 1) (calls w).

Lemma content_created w n f : files_wf w → edit (content w) n (Some (data f)) (content (created w n f)).
Proof.
  intros [_ Hn _] m. unfold content, view. cbn. destruct (String.eqb_spec m n) as [->|]; [by rewrite lookup_insert_eq; cbn; rewrite lookup_insert_eq|].
  rewrite lookup_insert_ne by done. destruct (dir w !! m) as [id|] eqn:E; [|done]. cbn. rewrite lookup_insert_ne; [done|]. apply Hn in E. lia.
Qed.

Lemma wf_created w n f : files_wf w → files_wf (created w n f).
Proof.
  intros [He Hn Ha]. split; cbn; intros *.
  - rewrite lookup_insert_Some. intros [[_ <-]|[_ E]]; [by rewrite lookup_insert_eq|]. apply lookup_insert_is_Some'. right. by eapply He.
  - rewrite lookup_insert_Some. intros [[_ <-]|[_ E]]; [lia|]. apply Hn in E. lia.
  - rewrite !lookup_insert_Some. intros [[<- <-]|[? E]] [[<- E']|[? E']]; try done; [apply Hn in E'; lia|apply Hn in E; lia|by eapply Ha].
Qed.

Lemma content_on_file w n id g : files_wf w → dir w !! n = Some id →
  edit (content w) n ((λ f, data (g f)) <$> view (heap w) (dir w) n) (content (on_file id g w)) ∧ files_wf (on_file id g w) ∧ dir (on_file id g w) = dir w.
Proof.
  intros [He Hn Ha] Hid. destruct (He _ _ Hid) as [f Hf]. unfold on_file. rewrite Hf. split; [|split; [|done]].
  - intros m. unfold content, view. cbn. destruct (String.eqb_spec m n) as [->|Hne].
    + rewrite Hid. cbn. by rewrite lookup_insert_eq, Hf.
    + destruct (dir w !! m) as [id'|] eqn:E; [|done]. cbn. rewrite lookup_insert_ne; [done|]. intros <-. destruct Hne. by eapply Ha.
  - split; cbn; intros *; [|apply Hn|apply Ha]. intros E. apply lookup_insert_is_Some'. right. by eapply He.
Qed.

(** ** What holds of the staging directory *)

Definition isAsset (n : string) : Prop := assetPattern n = true ∨ kernelAssetPattern n = true.

Lemma between_prefix s a b m : between s a b = Some m → has_prefix s a = true.
Proof. unfold between. destruct (has_prefix s a); [done|]. by cbn. Qed.

Lemma asset_prefix n : assetPattern n = true → has_prefix n "anix-agent-linux-" = true.
Proof. unfold assetPattern. destruct (between n _ _) eqn:E; [|done]. intros _. by eapply between_prefix. Qed.

Lemma kernel_asset_prefix n : kernelAssetPattern n = true → has_prefix n "anx-node-" = true.
Proof. unfold kernelAssetPattern. destruct (between n _ _) eqn:E; [|done]. intros _. by eapply between_prefix. Qed.

Lemma asset_name n : isAsset n → plain n = true ∧ n ≠ RequestFile ∧ n ≠ applying ∧ n ≠ ResultFile ∧ n ∉ [""; "."; ".."].
Proof.
  intros [H%asset_prefix|H%kernel_asset_prefix]; apply has_prefix_inv in H as [t ->]; (split_and!; [done|done..|]);
    intros Hin; repeat (apply elem_of_cons in Hin as [Hin|Hin]; [done|]); by apply not_elem_of_nil in Hin.
Qed.

Lemma asset_kinds n m : assetPattern n = true → kernelAssetPattern m = true → n ≠ m.
Proof. intros H1%asset_prefix H2%kernel_asset_prefix <-. apply has_prefix_inv in H1 as [t ->]. cbn in H2. done. Qed.

Class UpgradeSDKLaws `{UpgradeSDK} : Prop := {
  artifact_named p r arch a : ParseUpgradeRequest p = Some r → RArtifact r arch = Some a → assetPattern (AAsset a) = true;
  kernel_named p r arch k : ParseUpgradeRequest p = Some r → RKernel r arch = Some k → kernelAssetPattern (UAsset k) = true
}.

Section HandOff.
Context `{UpgradeSDKLaws}.
Variable key : string.

Definition Genuine (b : string) : Prop := ∃ size digest sig, VerifyRelease b size digest sig key = Ok tt.
Definition GenuineKernel (b : string) : Prop := ∃ k, VerifyKernel b k = Some (Ok tt).

Definition allowedAt (Q : string → Prop) (n : string) (x : option string) : Prop :=
  ∀ b, x = Some b → (n = RequestFile → Q b) ∧ (assetPattern n = true → Genuine b) ∧ (kernelAssetPattern n = true → GenuineKernel b).

Abbreviation Held := (gmap string string).

(** The temporary files [T] are there; the staged files [F], when they are
    there; the request is one that [Q] says; releases are genuine. *)
Record OK (Q : string → Prop) (T F : Held) (v : string → option string) : Prop := {
  ok_temps n c : T !! n = Some c → plain n = false ∧ v n = Some c;
  ok_files n c : F !! n = Some c → isAsset n ∧ ∀ b, v n = Some b → b = c;
  ok_allowed n : allowedAt Q n (v n)
}.

Lemma ok_edit Q T F T' F' v v' n x : OK Q T F v → edit v n x v' →
  (∀ m c, T' !! m = Some c → m ≠ n → T !! m = Some c) → (∀ c, T' !! n = Some c → plain n = false ∧ x = Some c) →
  (∀ m c, F' !! m = Some c → m ≠ n → F !! m = Some c) → (∀ c, F' !! n = Some c → isAsset n ∧ ∀ b, x = Some b → b = c) →
  allowedAt Q n x → OK Q T' F' v'.
Proof.
  intros [Ht Hf Ha] He HT HTn HF HFn Hx. split; intros m; [| |]; rewrite (He m).
  - intros c Hm. destruct (String.eqb_spec m n) as [->|]; [by apply HTn|]. by apply Ht, HT.
  - intros c Hm. destruct (String.eqb_spec m n) as [->|]; [by apply HFn|]. by apply Hf, HF.
  - destruct (String.eqb_spec m n) as [->|]; [done|apply Ha].
Qed.

Lemma allowed_none Q n : allowedAt Q n None.
Proof. done. Qed.

Lemma allowed_hidden Q n b : plain n = false → allowedAt Q n (Some b).
Proof.
  intros Hp c [= <-]. split; [by intros ->|].
  split; intros Hn; [assert (isAsset n) as Ha by by left|assert (isAsset n) as Ha by by right]; apply asset_name in Ha as [Hpl _]; congruence.
Qed.

(** A name goes away. *)
Lemma ok_remove Q T F v n v' : OK Q T F v → edit v n None v' → OK Q (delete n T) F v'.
Proof.
  intros Hok He. eapply ok_edit; [done|done| | | | |apply allowed_none].
  - intros m c Hm _. by apply lookup_delete_Some in Hm as [_ ?].
  - intros c Hc. by rewrite lookup_delete_eq in Hc.
  - done.
  - intros c Hc. split; [|done]. by apply (ok_files _ _ _ _ Hok) in Hc as [? _].
Qed.

(** A temporary file. *)
Lemma ok_temp Q T F v n c v' : OK Q T F v → edit v n (Some c) v' → plain n = false → OK Q (<[n := c]> T) F v'.
Proof.
  intros Hok He Hp. eapply ok_edit; [done|done| | | | |by apply allowed_hidden].
  - intros m d Hm Hne. by rewrite lookup_insert_ne in Hm.
  - intros d Hd. rewrite lookup_insert_eq in Hd. injection Hd as <-. done.
  - done.
  - intros d Hd. apply (ok_files _ _ _ _ Hok) in Hd as [Ha _]. apply asset_name in Ha as [? _]. congruence.
Qed.

(** Another name that is neither held nor the request nor a release. *)
Lemma ok_free Q T F v n x v' : OK Q T F v → edit v n x v' → plain n = true → ¬ isAsset n → n ≠ RequestFile → OK Q T F v'.
Proof.
  intros Hok He Hp Hn Hr. eapply ok_edit; [done|done|done| |done| |].
  - intros d Hd. apply (ok_temps _ _ _ _ Hok) in Hd as [? _]. congruence.
  - intros d Hd. apply (ok_files _ _ _ _ Hok) in Hd as [? _]. done.
  - intros b _. split; [done|]. split; intros Ha; destruct Hn; [by left|by right].
Qed.

(** The request. *)
Lemma ok_request (Q : string → Prop) T F v c v' : OK Q T F v → edit v RequestFile (Some c) v' → Q c → OK Q T F v'.
Proof.
  intros Hok He Hq. eapply ok_edit; [done|done|done| |done| |].
  - intros d Hd. apply (ok_temps _ _ _ _ Hok) in Hd as [? _]. done.
  - intros d Hd. apply (ok_files _ _ _ _ Hok) in Hd as [Ha _]. by apply asset_name in Ha as (_ & ? & _).
  - intros b [= <-]. split; [done|]. by split.
Qed.

Definition genuineAs (n c : string) : Prop := (assetPattern n = true → Genuine c) ∧ (kernelAssetPattern n = true → GenuineKernel c).

(** A release is staged. *)
Lemma ok_stage Q T F v n c v' : OK Q T F v → edit v n (Some c) v' → isAsset n → genuineAs n c → OK Q T (<[n := c]> F) v'.
Proof.
  intros Hok He Hn Hg. pose proof (asset_name _ Hn) as (Hp & Hr & _). eapply ok_edit; [done|done|done| | | |].
  - intros d Hd. apply (ok_temps _ _ _ _ Hok) in Hd as [? _]. congruence.
  - intros m d Hm Hne. by rewrite lookup_insert_ne in Hm.
  - intros d Hd. rewrite lookup_insert_eq in Hd. injection Hd as <-. split; [done|]. by intros b [= <-].
  - intros b [= <-]. split; [done|apply Hg].
Qed.

Lemma ok_weaken (Q Q' : string → Prop) T T' F F' v : OK Q T F v → (∀ b, Q b → Q' b) → T' ⊆ T → F' ⊆ F → OK Q' T' F' v.
Proof.
  intros [Ht Hf Ha] HQ HT HF. split; [|intros n c E; by apply Hf; eapply lookup_weaken|].
  - intros n c E. apply Ht. by eapply lookup_weaken.
  - intros n b Hb. destruct (Ha n b Hb) as (H1 & H2 & H3). split_and!; auto.
Qed.

(** ** Assertions *)

Definition At (Q : string → Prop) (T F : Held) (w : World) : Prop := files_wf w ∧ OK Q T F (content w).

Lemma at_weaken (Q Q' : string → Prop) T T' F F' w : At Q T F w → (∀ b, Q b → Q' b) → T' ⊆ T → F' ⊆ F → At Q' T' F' w.
Proof. intros [Hw Hok] HQ HT HF. split; [done|by eapply ok_weaken]. Qed.

Lemma at_tick Q T F w : At Q T F w → At Q T F (tick w).
Proof. intros [Hw Hok]. split; [by apply wf_tick|done]. Qed.

Lemma at_remove Q T F w n : At Q T F w → At Q (delete n T) F (set_dir w (delete n (dir w))).
Proof. intros [Hw Hok]. split; [by apply wf_delete|]. eapply ok_remove; [done|apply content_delete]. Qed.

(** What others do keeps it, and the temporary files where they are. *)
Lemma at_other Q T F w o : At Q T F w → At Q T F (other w o) ∧ ∀ n id, plain n = false → dir w !! n = Some id → dir (other w o) !! n = Some id.
Proof.
  intros [Hw Hok].
  assert (plain RequestFile = true ∧ plain applying = true ∧ plain ResultFile = true ∧ ¬ isAsset applying ∧ ¬ isAsset ResultFile) as (P1 & P2 & P3 & A1 & A2)
    by (split_and!; [done..| |]; intros Ha; apply asset_name in Ha as (_ & _ & ? & ? & _); done).
  assert (∀ n, plain n = true → delete n T = T) as Hdel.
  { intros n Hp. apply delete_id. destruct (T !! n) eqn:E; [|done]. apply (ok_temps _ _ _ _ Hok) in E as [? _]. congruence. }
  destruct o as [|n|b]; cbn [other].
  - destruct (dir w !! RequestFile) as [id|] eqn:E; [|by split]. destruct (content_moved _ _ applying _ E) as (v & E1 & E2).
    split; [split; [by apply wf_moved|]|].
    + eapply ok_free; [|exact E2|done..]. rewrite <- (Hdel RequestFile) by done. by eapply ok_remove.
    + intros n id' Hp Hn. cbn. rewrite lookup_insert_ne by (intros <-; congruence). rewrite lookup_delete_ne; [done|]. intros <-; congruence.
  - destruct (removable n) eqn:Er; [|by split].
    assert (plain n = true) as Hp.
    { unfold removable in Er. rewrite !orb_true_iff, !String.eqb_eq in Er. destruct Er as [[[->| ->]|Ha]|Ha]; [done|done|by apply (asset_name n); left|by apply (asset_name n); right]. }
    split; [rewrite <- (Hdel n) by done; by apply at_remove|]. intros m id Hm Hid. cbn. rewrite lookup_delete_ne; [done|]. intros <-; congruence.
  - split; [split; [by apply (wf_created w ResultFile (mkFile true 420 true b true))|]|].
    + eapply ok_free; [done|by apply (content_created w ResultFile (mkFile true 420 true b true))|done..].
    + intros n id Hp Hn. cbn. rewrite lookup_insert_ne; [done|]. intros <-; congruence.
Qed.

Lemma at_others Q T F l : ∀ w, At Q T F w →
  At Q T F (foldl other w l) ∧ ∀ n id, plain n = false → dir w !! n = Some id → dir (foldl other w l) !! n = Some id.
Proof.
  induction l as [|o l IH]; intros w Hw; cbn [foldl]; [by split|]. destruct (at_other Q T F w o Hw) as [H1 H2]. destruct (IH _ H1) as [H3 H4].
  split; [done|]. intros n id Hp Hn. by apply H4, H2.
Qed.

Section Programs.
Variable fate : nat → Fate.
Variable libFate : nat → Fate.
Variable random : nat → string.
Variable host : AgentHost.
Variable Version : string.
Variable arch : string.
Variable StaleRequest : Z.
Variable Q : string → Prop.

Abbreviation Safe := (At Q ∅ ∅).
Abbreviation tri P m R E := (triple P m R E Safe).

Lemma at_safe T F w : At Q T F w → Safe w.
Proof. intros Hw. eapply at_weaken; [done|done|apply map_empty_subseteq..]. Qed.

Lemma step_triple {A} (m : M A) T F R E C : triple (At Q T F) m R E C → triple (At Q T F) (step host m) R E C.
Proof. intros Hm w Hw. apply Hm. by apply at_others. Qed.

Lemma asks_triple {A} (f : nat → A) T F E : tri (At Q T F) (asks host f) (λ _, At Q T F) E.
Proof. apply step_triple. intros w Hw. cbn. by apply at_tick. Qed.

Lemma inLib_triple {A} (m : M A) T F : tri (At Q T F) (inLib host m) (λ _, At Q T F) (At Q T F).
Proof. apply step_triple. intros w Hw. cbn. destruct (m (lib host (calls w))).2; [by apply at_tick|by apply at_tick|]. eapply at_safe. by apply at_tick. Qed.

(** A call that only looks. *)
Lemma look_triple {A} (f : World → outcome A) T F R : (∀ w a, At Q T F w → f w = Value a → R a) →
  tri (At Q T F) (step host (call fate (λ w, (w, f w)) unchanged)) (λ a w, At Q T F w ∧ R a) (At Q T F).
Proof.
  intros Hf. apply step_triple. apply triple_call; [intros w; apply at_tick| |intros p w Hw; split; [done|by eapply at_safe]].
  intros w Hw. destruct (f w) as [a|e|] eqn:E; [split; [done|by eapply Hf]|done|by eapply at_safe].
Qed.

Lemma read_triple n limit T F : tri (At Q T F) (step host (readSmall fate n limit)) (λ b w, At Q T F w ∧ ∀ c, T !! n = Some c → b = c) (At Q T F).
Proof.
  apply step_triple. eapply triple_bind.
  - apply triple_call with (Q := λ b w, At Q T F w ∧ ∀ c, T !! n = Some c → b = c); [intros w; apply at_tick| |intros p w Hw; split; [done|by eapply at_safe]].
    intros w Hw. destruct (dir w !! n ≫= _) as [f|] eqn:E; [|done]. destruct (regular f); [|done]. split; [done|]. intros c Hc.
    apply (ok_temps _ _ _ _ (proj2 Hw)) in Hc as [_ Hc]. unfold content, view in Hc. rewrite E in Hc. by injection Hc.
  - intros b. destruct (limit <? len b); [by apply triple_throw; intros w [? _]|by apply triple_ret].
Qed.

Lemma unlink_triple n T F R : tri (At Q T F) (ignore (step host (remove fate n))) (λ _, At Q (delete n T) F) R.
Proof.
  assert (∀ w, At Q T F w → At Q (delete n T) F w) as Hd by (intros w Hw; eapply at_weaken; [done|done|apply delete_subseteq|done]).
  apply ignore_triple, step_triple. apply triple_call; [intros w; apply at_tick| |].
  - intros w Hw. destruct (dir w !! n); [by apply at_remove|by apply Hd].
  - intros p w Hw. split; [by apply Hd|by eapply at_safe].
Qed.

Lemma unlink_other_triple n T F R : T !! n = None → tri (At Q T F) (ignore (step host (remove fate n))) (λ _, At Q T F) R.
Proof. intros Hn. pose proof (unlink_triple n T F R) as Hr. by rewrite delete_id in Hr. Qed.

(** What the continuation needs of a removal. *)
Lemma dropped_triple {A} n (m : M A) T F R E : T !! n = None → tri (At Q T F) m R E → ∀ c, tri (At Q (<[n := c]> T) F) (bind (ignore (step host (remove fate n))) (λ _, m)) R E.
Proof.
  intros Hn Hm c. eapply triple_bind; [apply unlink_triple|]. intros []. cbv beta. rewrite delete_insert_id by done. exact Hm.
Qed.

Lemma discard_held_triple n T F R : T !! n = None → tri (At Q T F) (discard fate host n) (λ _, At Q T F) R.
Proof. intros Hn. unfold discard. destruct (String.eqb n ""); [by apply triple_ret|by apply unlink_other_triple]. Qed.

(** ** Temporary files *)

Definition Opened (T F : Held) (name : string) (id : Z) (c : string) (w : World) : Prop := At Q (<[name := c]> T) F w ∧ dir w !! name = Some id.

Lemma opened_at T F name id c w : T !! name = None → Opened T F name id c w → At Q T F w.
Proof. intros Hn [Hw _]. eapply at_weaken; [exact Hw|done|by apply insert_subseteq|done]. Qed.

Lemma tempFor_triple base T F : tri (At Q T F) (tempFor fate random host base)
  (λ x w, Opened T F x.1 x.2 "" w ∧ T !! x.1 = None ∧ plain x.1 = false) (At Q T F).
Proof.
  unfold tempFor. destruct (contains_char base "/"); [by apply triple_throw|]. apply step_triple. apply triple_call; [intros w; apply at_tick| |intros p w Hw; split; [done|by eapply at_safe]].
  intros w Hw. cbv zeta. set (name := _ +:+ random (calls w) +:+ _). assert (plain name = false) as Hp by apply plain_dot. clearbody name.
  destruct (dir w !! name) as [i|] eqn:E; [done|]. assert (T !! name = None) as HT.
  { destruct (T !! name) eqn:ET; [|done]. apply (ok_temps _ _ _ _ (proj2 Hw)) in ET as [_ Hc]. unfold content, view in Hc. by rewrite E in Hc. }
  cbn [fst snd]. split; [|done]. destruct Hw as [Hw Hok]. set (f := mkFile true fileMode true "" false). split; [|cbn; by rewrite lookup_insert_eq].
  split; [by apply (wf_created w name f)|]. eapply ok_temp; [done|by apply (content_created w name f)|done].
Qed.

Lemma opened_on_file T F name id c g d w : T !! name = None → plain name = false → (∀ f, data f = c → data (g f) = d) →
  Opened T F name id c w → Opened T F name id d (on_file id g w).
Proof.
  intros HT Hp Hg [[Hw Hok] Hid]. destruct (content_on_file w name id g Hw Hid) as (He & Hw' & Hd). split; [|by rewrite Hd]. split; [done|].
  assert (content w name = Some c) as Hc by (apply (ok_temps _ _ _ _ Hok); apply lookup_insert_eq).
  unfold content in Hc. destruct (view (heap w) (dir w) name) as [f|] eqn:Ef; [|done]. injection Hc as Hc. cbn in He. rewrite (Hg f Hc) in He.
  rewrite <- (insert_insert_eq T name d c). eapply ok_temp; [done|exact He|done].
Qed.

Lemma opened_put T F name id c b w : T !! name = None → plain name = false → Opened T F name id c w → Opened T F name id (c +:+ b) (put id b w).
Proof. intros HT Hp Hw. apply (opened_on_file T F name id c); [done|done| |done]. intros f Hf. cbn. by rewrite Hf. Qed.

Lemma opened_step {A} (m : M A) T F name id c R E C : plain name = false → triple (Opened T F name id c) m R E C → triple (Opened T F name id c) (step host m) R E C.
Proof. intros Hp Hm w [Hw Hid]. apply Hm. destruct (at_others _ _ _ (others host (calls w)) _ Hw) as [H1 H2]. split; [done|by apply H2]. Qed.

(** Calls on the open file; an error leaves some content. *)
Definition Some_content (T F : Held) (name : string) (w : World) : Prop := ∃ c, At Q (<[name := c]> T) F w.

Lemma write_open_triple T F name id c b : T !! name = None → plain name = false →
  tri (Opened T F name id c) (step host (write fate id b)) (λ _, Opened T F name id (c +:+ b)) (Some_content T F name).
Proof.
  intros HT Hp. apply opened_step; [done|]. apply triple_call.
  - intros w [Hw Hid]. split; [by apply at_tick|done].
  - intros w Hw. by apply opened_put.
  - intros p w Hw. pose proof (opened_put T F name id c p w HT Hp Hw) as Ho.
    split; [eexists; apply Ho|eapply at_safe; apply Ho].
Qed.

Lemma sync_open_triple T F name id c : T !! name = None → plain name = false →
  tri (Opened T F name id c) (step host (sync fate id)) (λ _, Opened T F name id c) (Some_content T F name).
Proof.
  intros HT Hp. apply opened_step; [done|]. apply triple_call.
  - intros w [Hw Hid]. split; [by apply at_tick|done].
  - intros w Hw. by apply (opened_on_file T F name id c).
  - intros p w Hw. split; [eexists; apply Hw|eapply at_safe; apply Hw].
Qed.

Lemma close_at_triple T F : tri (At Q T F) (close fate) (λ _, At Q T F) (At Q T F).
Proof. apply triple_call; [intros w; apply at_tick|done|intros p w Hw; split; [done|by eapply at_safe]]. Qed.

Lemma orClose_open_triple T F name id c d (m : M unit) : tri (Opened T F name id c) m (λ _, Opened T F name id d) (Some_content T F name) →
  tri (Opened T F name id c) (orClose fate m) (λ _, Opened T F name id d) (Some_content T F name).
Proof.
  intros Hm. eapply triple_try; [exact Hm|intros []; by apply triple_ret|]. intros e w (x & Hw). revert w Hw.
  eapply triple_try; [apply close_at_triple| |]; intros ?; apply triple_throw; intros w Hw; by exists x.
Qed.

Definition Temped (T F : Held) (name : string) (w : World) : Prop := (∃ c, At Q (<[name := c]> T) F w) ∧ T !! name = None ∧ plain name = false.

Lemma temped_drop {A} n (m : M A) T F R E : T !! n = None → tri (At Q T F) m R E →
  tri (Some_content T F n) (bind (ignore (step host (remove fate n))) (λ _, m)) R E.
Proof. intros Hn Hm w (c & Hw). by apply (dropped_triple n m T F R E Hn Hm c). Qed.

Lemma saveTemp_triple asset size body broken T F : tri (At Q T F) (saveTemp fate random host asset size body broken) (λ name, Temped T F name) (At Q T F).
Proof.
  unfold saveTemp. eapply triple_bind; [apply coded_triple, tempFor_triple|]. intros [name id] w (Hw & HT & Hp). cbn [fst snd] in *. revert w Hw.
  assert (∀ e : string, tri (Some_content T F name) (bind (ignore (step host (remove fate name))) (λ _, throw e)) (λ n : string, Temped T F n) (At Q T F)) as Hdrop
    by (intros e; apply temped_drop; [done|by apply triple_throw]).
  apply triple_try with (R := λ _, Some_content T F name) (E1 := Some_content T F name).
  - eapply triple_bind; [by apply write_open_triple|]. intros []. cbv beta. destruct (broken && _); [apply triple_throw|apply triple_ret]; intros w [Hw _]; by eexists.
  - intros [] w (c & Hw). revert w Hw. eapply triple_try; [apply step_triple, close_at_triple| |]; intros ?; cbn [is_ok andb negb].
    + destruct (size <? _); [eapply triple_weaken; [apply Hdrop|intros w Hw; by exists c|done..]|]. apply triple_ret. intros w Hw. split; [by exists c|done].
    + eapply triple_weaken; [apply Hdrop|intros w Hw; by exists c|done..].
  - intros e w (c & Hw). revert w Hw. eapply triple_try; [apply step_triple, close_at_triple| |]; intros ?; cbn [is_ok andb negb];
      (eapply triple_weaken; [apply Hdrop|intros w Hw; by exists c|done..]).
Qed.

Lemma download_triple asset size T F : tri (At Q T F) (download fate random host asset size) (λ name, Temped T F name) (At Q T F).
Proof.
  unfold download. eapply triple_bind; [apply asks_triple|]. intros fetched. cbv beta.
  assert (tri (At Q T F) (bind (asks host (http host)) (λ response, match response with
    | Unreachable => throw UpgradeErrorDownload
    | Response status contentLength body broken =>
      if negb (status =? 200) then throw UpgradeErrorDownload else if size <? contentLength then throw UpgradeErrorDigest else saveTemp fate random host asset size body broken
    end)) (λ name, Temped T F name) (At Q T F)) as Hhttp.
  { eapply triple_bind; [apply asks_triple|]. intros [|status length body broken]; [by apply triple_throw|].
    destruct (negb _); [by apply triple_throw|]. destruct (size <? length); [by apply triple_throw|apply saveTemp_triple]. }
  destruct fetched as [[b|]|]; [apply saveTemp_triple|exact Hhttp|exact Hhttp].
Qed.

Lemma moveTo_triple temp asset c T F : T !! temp = None → isAsset asset → genuineAs asset c →
  tri (At Q (<[temp := c]> T) F) (moveTo fate host temp asset) (λ _, At Q T (<[asset := c]> F)) (At Q (<[temp := c]> T) F).
Proof.
  intros HT Ha Hg. unfold moveTo. rewrite bool_decide_eq_false_2 by (by apply asset_name). apply step_triple.
  apply triple_call; [intros w; apply at_tick| |intros p w Hw; split; [done|by eapply at_safe]].
  intros w [Hw Hok]. destruct (dir w !! temp) as [id|] eqn:E; [|done]. destruct (content_moved w temp asset id E) as (v & E1 & E2).
  split; [by apply wf_moved|]. assert (content w temp = Some c) as Hc by (apply (ok_temps _ _ _ _ Hok), lookup_insert_eq). rewrite Hc in E2.
  eapply ok_stage; [|exact E2|done|done]. rewrite <- (delete_insert_id T temp c) by done. by eapply ok_remove.
Qed.

Lemma stageFile_triple asset size verify T F : isAsset asset → (∀ c, verify c = Some (Ok tt) → genuineAs asset c) →
  tri (At Q T F) (stageFile fate random host asset size verify) (λ a w, a = asset ∧ ∃ c, verify c = Some (Ok tt) ∧ At Q T (<[asset := c]> F) w) (At Q T F).
Proof.
  intros Ha Hv. unfold stageFile. eapply triple_bind; [apply coded_triple; by apply (look_triple (λ _, Value tt) T F (λ _, True))|]. intros [].
  eapply triple_bind; [eapply triple_weaken; [apply download_triple|by intros w [? _]|by intros ? ? X; apply X|done|done]|]. intros temp w ((c & Hw) & HT & Hp). revert w Hw.
  apply triple_try with (R := λ _ w, At Q (<[temp := c]> T) F w ∧ verify c = Some (Ok tt)) (E1 := At Q (<[temp := c]> T) F).
  - eapply triple_bind; [apply coded_triple, read_triple|]. intros b w [Hw Hb]. specialize (Hb c (lookup_insert_eq T temp c)) as ->. revert w Hw.
    destruct (verify c) as [[[]|e]|] eqn:E; cbn [unwound]; [|apply triple_ret_bind; by apply triple_throw|].
    + apply triple_ret_bind. apply triple_ret. done.
    + intros w Hw. cbn. by eapply at_safe.
  - intros [] w [Hw Hc]. revert w Hw. eapply triple_try; [by apply moveTo_triple; [| |apply Hv]| |].
    + intros []. apply triple_ret. intros w Hw. split; [done|]. by exists c.
    + intros e. apply dropped_triple; [done|by apply triple_throw].
  - intros e. apply dropped_triple; [done|by apply triple_throw].
Qed.

Lemma writeTemp_triple b T F : tri (At Q T F) (writeTemp fate random host b) (λ name w, At Q (<[name := b]> T) F w ∧ T !! name = None ∧ plain name = false) (At Q T F).
Proof.
  unfold writeTemp. eapply triple_bind; [apply tempFor_triple|]. intros [name id] w (Hw & HT & Hp). cbn [fst snd] in *. revert w Hw.
  apply triple_try with (R := λ _, At Q (<[name := b]> T) F) (E1 := Some_content T F name).
  - eapply triple_bind; [apply orClose_open_triple; by apply write_open_triple|]. intros []. cbn [append].
    eapply triple_bind; [apply orClose_open_triple; by apply sync_open_triple|]. intros [].
    eapply triple_weaken; [apply (step_triple (close fate) (<[name := b]> T) F), close_at_triple|by intros w [? _]|done|intros w Hw; by exists b|done].
  - intros []. apply triple_ret. done.
  - intros e. apply temped_drop; [done|by apply triple_throw].
Qed.

Lemma removeAll_triple names F R : tri (At Q ∅ F) (removeAll fate host names) (λ _, At Q ∅ F) R.
Proof. induction names as [|n names IH]; [by apply triple_ret|]. eapply triple_bind; [by apply unlink_other_triple|]. intros []. exact IH. Qed.

Lemma cleanStaging_triple F R : tri (At Q ∅ F) (cleanStaging fate host) (λ _, At Q ∅ F) R.
Proof.
  unfold cleanStaging. eapply triple_try; [by apply (look_triple (λ w, Value (elements (dom (dir w)))) ∅ F (λ _, True))| |].
  - intros names. eapply triple_weaken; [apply removeAll_triple|by intros w [? _]|done|done|done].
  - intros e. by apply triple_ret.
Qed.

Lemma request_hidden (T F : Held) w : At Q T F w → T !! RequestFile = None.
Proof. intros [_ Hok]. destruct (T !! RequestFile) eqn:E; [|done]. by apply (ok_temps _ _ _ _ Hok) in E as [? _]. Qed.

Lemma pendingRequest_triple T F R : tri (At Q T F) (pendingRequest fate host StaleRequest) (λ _, At Q T F) R.
Proof.
  intros w0 Hw0. pose proof (request_hidden _ _ _ Hw0) as HT. revert w0 Hw0. unfold pendingRequest.
  eapply triple_try; [by apply (look_triple (λ w, if bool_decide (is_Some (dir w !! RequestFile)) then Value (age host (calls w)) else Error ErrNotExist) T F (λ _, True))| |].
  - intros old. cbv zeta. destruct (old <? _).
    + eapply triple_try; [eapply triple_weaken; [apply read_triple|by intros w [? _]|by intros ? ? X; apply X|by intros ? X; apply X|done]| |].
      * intros b. apply triple_ret. by intros w [? _].
      * intros e. by apply triple_ret.
    + eapply triple_bind; [eapply triple_weaken; [by apply (unlink_other_triple RequestFile T F R)|by intros w [? _]|by intros ? ? X; apply X|done|done]|]. intros []. by apply triple_ret.
  - intros e. by apply triple_ret.
Qed.

(** ** The handler *)

(** The files a hand-off names are verified. *)
Definition Files (h : HandOff) (F : Held) : Prop :=
  (HFile h ≠ "" → ∃ c sig, F !! HFile h = Some c ∧ VerifyRelease c (HSize h) (HSHA256 h) sig key = Ok tt ∧ Signature h = trim_space sig)
  ∧ (∀ k, HKernel h = Some k → ∃ c, F !! KFile k = Some c ∧ VerifyKernel c k = Some (Ok tt)).

Definition staged_name (n : string) : Prop := n = "" ∨ isAsset n.

Definition Based (h h' : HandOff) : Prop := OperationID h' = OperationID h ∧ Action h' = Action h ∧ TargetVersion h' = TargetVersion h.

Lemma staged_hidden T F n w : staged_name n → At Q T F w → T !! n = None.
Proof.
  intros Hn [_ Hok]. destruct (T !! n) eqn:E; [|done]. apply (ok_temps _ _ _ _ Hok) in E as [Hp _].
  destruct Hn as [->|Ha]; [done|]. apply asset_name in Ha as [? _]. congruence.
Qed.

Lemma discard_staged_triple n T F R : staged_name n → tri (At Q T F) (discard fate host n) (λ _, At Q T F) R.
Proof. intros Hn w Hw. pose proof (staged_hidden _ _ _ _ Hn Hw) as HT. by apply (discard_held_triple n T F R HT w Hw). Qed.

Definition Staged (h : HandOff) (x : HandOff * string * string) (w : World) : Prop :=
  ∃ F, At Q ∅ F w ∧ Files x.1.1 F ∧ Based h x.1.1 ∧ staged_name x.1.2 ∧ staged_name x.2.

Lemma stage_triple a F : assetPattern (AAsset a) = true → tri (At Q ∅ F) (stage fate random host key a)
  (λ n w, n = AAsset a ∧ ∃ c, VerifyRelease c (ASize a) (ASHA256 a) (ASignature a) key = Ok tt ∧ At Q ∅ (<[AAsset a := c]> F) w) (At Q ∅ F).
Proof.
  intros Ha. eapply triple_post; [apply stageFile_triple; [by left|]| |done|done].
  - intros c [= Hc]. split; [intros _; by do 3 eexists|]. intros Hk. by destruct (asset_kinds _ _ Ha Hk).
  - intros n w (-> & c & [= Hc] & Hw). split; [done|]. by exists c.
Qed.

Lemma stageKernel_triple k F : kernelAssetPattern (UAsset k) = true → tri (At Q ∅ F) (stageKernel fate random host k)
  (λ n w, n = UAsset k ∧ ∃ c, VerifyKernel c (kernelHandOff k (UAsset k)) = Some (Ok tt) ∧ At Q ∅ (<[UAsset k := c]> F) w) (At Q ∅ F).
Proof.
  intros Ha. eapply triple_post; [apply stageFile_triple; [by right|]|by intros ? ? X; apply X|done|done].
  intros c Hc. split; [|intros _; by eexists]. intros Hk. by destruct (asset_kinds _ _ Hk Ha).
Qed.

Lemma updaterActive_triple T F E : tri (At Q T F) (updaterActive host) (λ _, At Q T F) E.
Proof. apply asks_triple. Qed.

(** The kernel is staged beside a release that is. *)
Lemma kernel_part_triple kernel h h0 staged F : (∀ k, kernel = Some k → kernelAssetPattern (UAsset k) = true) →
  Files h F → HKernel h = None → Based h0 h → staged_name staged → (∀ c, F !! HFile h = Some c → assetPattern (HFile h) = true) →
  tri (At Q ∅ F) (match kernel with
    | None => ret (h, staged, "")
    | Some k => bind (attempt (stageKernel fate random host k)) (λ result, match result with
        | Err e => bind (discard fate host staged) (λ _, throw e)
        | Ok kernelStaged =>
          ret (mkHandOff (Schema h) (OperationID h) (CampaignID h) (Action h) (TargetVersion h) (PreviousVersion h)
                 (Arch h) (HFile h) (HSize h) (HSHA256 h) (Signature h) (Some (kernelHandOff k kernelStaged)) (RequestedAtMS h), staged, kernelStaged)
        end)
    end) (Staged h0) Safe.
Proof.
  intros Hk HF Hnone Hb Hs Hasset. destruct kernel as [k|]; [|apply triple_ret; intros w Hw; exists F; split_and!; try done; by left].
  specialize (Hk k eq_refl). eapply triple_try; [by apply stageKernel_triple| |].
  - intros n. apply triple_ret. intros w (-> & c & Hc & Hw). exists (<[UAsset k := c]> F). split; [done|]. split; [|split_and!; try done; by right; right].
    split; cbn [fst HFile HKernel HSize HSHA256 Signature].
    + intros Hf. destruct (proj1 HF Hf) as (d & sig & Hd & Hv). exists d, sig. split; [|done]. rewrite lookup_insert_ne; [done|].
      intros E. apply (asset_kinds (HFile h) (UAsset k)); [by eapply Hasset|done|done].
    + intros ? [= <-]. exists c. split; [cbn; apply lookup_insert_eq|done].
  - intros e. eapply triple_bind; [by apply discard_staged_triple|]. intros []. apply triple_throw. intros w Hw. by eapply at_safe.
Qed.

Lemma stageUpgrade_triple p r current kernel h : ParseUpgradeRequest p = Some r → (∀ k, kernel = Some k → RKernel r arch = Some k) → HFile h = "" → HKernel h = None →
  tri Safe (stageUpgrade fate random host arch key r current kernel h) (Staged h) Safe.
Proof.
  intros Hp Hk Hf Hn. assert (∀ k, kernel = Some k → kernelAssetPattern (UAsset k) = true) as Hkn by (intros k E; eapply kernel_named; [done|by apply Hk]).
  unfold stageUpgrade. eapply triple_bind; [apply updaterActive_triple|]. intros [|]; cbn [negb]; [|by apply triple_throw].
  eapply triple_bind; [apply cleanStaging_triple|]. intros []. cbv beta.
  assert (Files h ∅) as HF0 by (split; [by rewrite Hf|]; intros k; by rewrite Hn).
  assert (Based h h) as HB0 by by split_and!.
  destruct current.
  - apply triple_ret_bind. apply kernel_part_triple; [done|done|done|done|by left|]. intros c. by rewrite lookup_empty.
  - destruct (RArtifact r arch) as [a|] eqn:Ea; [|by apply triple_throw_bind]. pose proof (artifact_named _ _ _ _ Hp Ea) as Han.
    eapply triple_bind with (R := λ x w, ∃ F, At Q ∅ F w ∧ Files x.1 F ∧ HKernel x.1 = None ∧ Based h x.1 ∧ staged_name x.2 ∧ (∀ c, F !! HFile x.1 = Some c → assetPattern (HFile x.1) = true)).
    + eapply triple_bind; [by apply stage_triple|]. intros n. apply triple_ret. intros w (-> & c & Hc & Hw). exists (<[AAsset a := c]> ∅). split; [done|]. cbn [fst snd HFile HKernel].
      split; [|split_and!; try done; by right; left]. split; [|cbn; by rewrite Hn]. cbn. intros _. exists c, (ASignature a). by rewrite lookup_insert_eq.
    + intros [h' staged] w (F & Hw & HF & Hn' & HB & Hs & Ha). cbn [fst snd] in *. revert w Hw. by apply kernel_part_triple.
Qed.

Lemma checkRollback_triple r : tri Safe (checkRollback libFate host r) (λ _, Safe) Safe.
Proof. unfold checkRollback. eapply triple_bind; [apply coded_triple, inLib_triple|]. intros record. cbv beta. destruct (SameAgentVersion _ _); [by apply triple_ret|by apply triple_throw]. Qed.

(** A request is written aside, and the files it names are staged. *)
Definition Armed (h : HandOff) (c : Callback) (w : World) : Prop :=
  ∃ b F, encodeHandOff (CHandOff c) = Some b ∧ plain (CTemp c) = false ∧ At Q {[ CTemp c := b ]} F w ∧ Files (CHandOff c) F ∧ Based h (CHandOff c)
    ∧ staged_name (CStaged c) ∧ staged_name (CKernelStaged c).

Lemma abandon_triple {A} staged kernelStaged code F (R : A → World → Prop) : staged_name staged → staged_name kernelStaged →
  tri (At Q ∅ F) (bind (discard fate host staged) (λ _, bind (discard fate host kernelStaged) (λ _, throw code))) R Safe.
Proof.
  intros H1 H2. eapply triple_bind; [by apply discard_staged_triple|]. intros []. eapply triple_bind; [by apply discard_staged_triple|]. intros [].
  apply triple_throw. intros w Hw. by eapply at_safe.
Qed.

Lemma prepare_triple h0 h staged kernelStaged inOperation : tri (Staged h0 (h, staged, kernelStaged)) (prepare fate random host inOperation h staged kernelStaged) (λ c w, Armed h0 c w ∧ inOperation = true) Safe.
Proof.
  intros w0 (F & Hw0 & HF & HB & H1 & H2). cbn [fst snd] in *. revert w0 Hw0. unfold prepare. cbv zeta.
  eapply triple_bind; [apply updaterActive_triple|]. intros [|]; cbn [negb]; [|by apply abandon_triple].
  destruct (encodeHandOff h) as [b|] eqn:Eb; [|by apply abandon_triple].
  eapply triple_try; [apply writeTemp_triple| |]; [|intros e; by apply abandon_triple].
  intros temp w (Hw & HT & Hp). revert w Hw. destruct inOperation; [|apply dropped_triple; [done|by apply abandon_triple]].
  apply triple_ret. intros w Hw. split; [by exists b, F|done].
Qed.

Lemma handOff_triple p r current kernel inOperation operationID : ParseUpgradeRequest p = Some r → (∀ k, kernel = Some k → RKernel r arch = Some k) →
  tri Safe (handOff fate libFate random host arch key StaleRequest inOperation operationID r current kernel)
    (λ c w, match c with
            | None => Safe w
            | Some c => ∃ h, OperationID h = operationID ∧ Action h = RAction r ∧ TargetVersion h = RTargetVersion r ∧ Armed h c w ∧ inOperation = true
            end) Safe.
Proof.
  intros Hp Hk. unfold handOff. eapply triple_bind; [apply pendingRequest_triple|]. intros [pending|]; cbv beta.
  { destruct (sameHandOff pending r); [by apply triple_ret|by apply triple_throw]. }
  eapply triple_bind; [apply asks_triple|]. intros now. cbv beta zeta. set (h := mkHandOff _ _ _ _ _ _ _ _ _ _ _ _ _).
  assert (∀ w, Safe w → Staged h (h, "", "") w) as Hplain.
  { intros w Hw. exists ∅. cbn. split_and!; try done; by left. }
  eapply triple_bind with (R := Staged h).
  - destruct (String.eqb (RAction r) UpgradeActionUpgrade); [by eapply stageUpgrade_triple|].
    destruct (String.eqb (RAction r) UpgradeActionRollback); [|by apply triple_ret].
    eapply triple_bind; [apply checkRollback_triple|]. intros []. by apply triple_ret.
  - intros [[h' staged] kernelStaged]. eapply triple_bind; [apply prepare_triple|]. intros c. apply triple_ret. intros w Hw. by exists h.
Qed.

Lemma afterTerminal_triple h c phase : (phase = SUCCEEDED → ∀ b, encodeHandOff (CHandOff c) = Some b → Q b) →
  tri (Armed h c) (afterTerminal fate host c phase) (λ _, Safe) Safe.
Proof.
  intros Hq w0 (b & F & Eb & Hp & Hw0 & _ & _ & H1 & H2). revert w0 Hw0. unfold afterTerminal. cbv zeta.
  assert (tri (At Q {[CTemp c := b]} F) (bind (ignore (step host (remove fate (CTemp c)))) (λ _, bind (discard fate host (CStaged c)) (λ _, discard fate host (CKernelStaged c)))) (λ _, Safe) Safe) as Hdrop.
  { apply dropped_triple; [done|]. eapply triple_bind; [by apply discard_staged_triple|]. intros [].
    eapply triple_post; [by apply (discard_staged_triple _ ∅ F Safe)|intros ? w Hw; exact (at_safe ∅ F w Hw)|done|done]. }
  destruct phase; [|exact Hdrop|exact Hdrop]. eapply triple_try with (R := λ _, Safe); [apply step_triple|intros []; by apply triple_ret|intros e; exact Hdrop].
  apply triple_call; [intros w; apply at_tick| |intros x w Hw; split; [done|by eapply at_safe]].
  intros w [Hw Hok]. destruct (dir w !! CTemp c) as [id|] eqn:E; [|done]. destruct (content_moved w (CTemp c) RequestFile id E) as (v & E1 & E2).
  apply (at_safe ∅ F). split; [by apply wf_moved|]. assert (content w (CTemp c) = Some b) as Hc by (apply (ok_temps _ _ _ _ Hok), lookup_insert_eq). rewrite Hc in E2.
  eapply ok_request; [|exact E2|by apply Hq]. rewrite <- (delete_insert_id ∅ (CTemp c) b) by done. by eapply ok_remove.
Qed.

Lemma wantedKernel_triple r T F : tri (At Q T F) (wantedKernel libFate host arch r) (λ k w, At Q T F w ∧ ∀ x, k = Some x → RKernel r arch = Some x) (At Q T F).
Proof.
  unfold wantedKernel. destruct (negb _); [apply triple_ret; by intros w Hw|]. destruct (RKernel r arch) as [k|]; [|apply triple_ret; by intros w Hw].
  eapply triple_bind; [apply inLib_triple|]. intros installed. apply triple_ret. intros w Hw. split; [done|]. intros x. destruct (String.eqb _ _); congruence.
Qed.

Lemma LogLastResult_triple T F R : tri (At Q T F) (LogLastResult fate host) (λ _, At Q T F) R.
Proof.
  unfold LogLastResult. eapply triple_try; [apply read_triple| |intros e; by apply triple_ret]. intros b.
  eapply triple_bind with (R := λ _, At Q T F); [|intros []; by apply triple_ret]. apply (triple_weaken _ _ (At Q T F) _ (λ _, At Q T F) R R Safe Safe); [|by intros w [? _]|done|done|done].
  apply ignore_triple, step_triple. apply triple_call; [intros w; apply at_tick| |intros x w Hw; split; [done|by eapply at_safe]].
  intros w [Hw Hok]. destruct (dir w !! ResultFile) as [id|] eqn:E; [|done]. destruct (content_moved w ResultFile (ResultFile +:+ ".seen") id E) as (v & E1 & E2).
  assert (¬ isAsset ResultFile ∧ ¬ isAsset (ResultFile +:+ ".seen")) as [A1 A2].
  { split; [intros Ha; by apply asset_name in Ha as (_ & _ & _ & ? & _)|]. by intros [Ha%asset_prefix|Ha%kernel_asset_prefix]. }
  split; [by apply wf_moved|]. eapply ok_free; [|exact E2|done..]. by eapply ok_free.
Qed.

End Programs.

End HandOff.

End UpgradeHandOff.
