(* ===== verification/UpgradeHanded.v ===== *)
(** * Agent upgrades: runs of the Agent's half

    The Agent of UpgradeAgent.v with the operations of any number of node
    identities, the updater and restarts of the process interleaved in any
    order. *)

From S2P Require Import Prelude GoStrings GoNet Disk Upgrade UpgradeTrust UpgradeAgent UpgradeHandOff.
From Stdlib Require Import Ascii String.

Module UpgradeHanded.
Import GoNet Disk DiskViews Upgrade UpgradeTrust UpgradeAgent UpgradeHandOff.

(** What has happened, the latest first: calls of the handler in an operation's
    context, and terminal states sent. *)
Inductive Event := EHandle (ctx : nat) (operationID payload : string) | ETerminal (ctx : nat) (phase : ObservedPhase).

Lemma other_calls w o : calls (other w o) = calls w.
Proof. destruct o as [|n|b]; cbn; [by destruct (dir w !! _)|by destruct (removable n)|done]. Qed.

Lemma others_calls l : ∀ w, calls (foldl other w l) = calls w.
Proof. induction l as [|o l IH]; intros w; cbn [foldl]; [done|]. by rewrite IH, other_calls. Qed.

Section Runs.
Context `{UpgradeSDKLaws}.
Variable fate : nat → Fate.
Variable libFate : nat → Fate.
Variable random : nat → string.
Variable host : AgentHost.
Variable Version : string.
Variable arch : string.
Variable key : string.
Variable StaleRequest : Z.

Abbreviation handle := (Handle fate libFate random host Version arch key StaleRequest).

(** Operations start, are looked at before they are acknowledged, are handled
    and end; the result is logged, others work in the directory, and the process
    is restarted. *)
Inductive reach : Agent → list Event → Prop :=
| reach_start w : files_wf w → content w RequestFile = None → (∀ n, isAsset n → content w n = None) → reach (restarted w) []
| reach_operation ctx s tr : reach s tr → after s !! ctx = None → reach (mkAgent (flight s) (<[ctx := []]> (after s)) (disk s)) tr
| reach_admission kind payload s tr : reach s tr → reach (Admit fate host Version StaleRequest kind payload s).1 tr
| reach_handle ctx operationID payload cancelled s tr : reach s tr → reach (handle ctx operationID payload cancelled s).1 (EHandle ctx operationID payload :: tr)
| reach_terminal ctx phase s tr : reach s tr → reach (runAfter fate host ctx phase s).1 (ETerminal ctx phase :: tr)
| reach_result s tr : reach s tr → reach (match LogLastResult fate host (disk s) with (w, Crashed) => restarted w | (w, _) => mkAgent (flight s) (after s) w end) tr
| reach_other o s tr : reach s tr → reach (mkAgent (flight s) (after s) (other (disk s) o)) tr
| reach_restart s tr : reach s tr → reach (restarted (disk s)) tr.

(** The hand-off is what the payload asks for. *)
Definition Asked (h : HandOff) (payload : string) : Prop :=
  ∃ r, ParseUpgradeRequest payload = Some r ∧ Action h = RAction r ∧ TargetVersion h = RTargetVersion r.

(** Its files passed their verification. *)
Definition Verified (h : HandOff) : Prop :=
  (HFile h ≠ "" → ∃ zip sig, VerifyRelease zip (HSize h) (HSHA256 h) sig key = Ok tt ∧ Signature h = trim_space sig)
  ∧ (∀ k, HKernel h = Some k → ∃ package, VerifyKernel package k = Some (Ok tt)).

(** [b] is the request of an operation that was reported SUCCEEDED. *)
Definition Handed (tr : list Event) (b : string) : Prop :=
  ∃ ctx h payload since before, encodeHandOff h = Some b ∧ tr = since ++ ETerminal ctx SUCCEEDED :: before
    ∧ EHandle ctx (OperationID h) payload ∈ before ∧ Asked h payload ∧ Verified h.

Lemma handed_cons e tr b : Handed tr b → Handed (e :: tr) b.
Proof. intros (ctx & h & p & since & before & ? & -> & ?). by exists ctx, h, p, (e :: since), before. Qed.

(** Nothing registered, or one function of the upgrade that runs. *)
Definition idle (a : gmap nat (list Callback)) : Prop := ∀ ctx l, a !! ctx = Some l → l = [].

Definition Waiting (tr : list Event) (ctx : nat) (c : Callback) : Prop :=
  ∃ h payload, EHandle ctx (OperationID h) payload ∈ tr ∧ Asked h payload ∧ Based h (CHandOff c).

Definition Inv (Q : string → Prop) (s : Agent) (tr : list Event) : Prop :=
  match flight s with
  | None => idle (after s) ∧ At key Q ∅ ∅ (disk s)
  | Some _ => ∃ ctx c h, after s !! ctx = Some [c] ∧ idle (delete ctx (after s)) ∧ Waiting tr ctx c ∧ Armed key Q h c (disk s)
  end.

Lemma files_verified h F : Files key h F → Verified h.
Proof. intros [X1 X2]. split; [intros Hf; destruct (X1 Hf) as (c & sig & _ & ?); by exists c, sig|]. intros k Hk. destruct (X2 k Hk) as (c & _ & ?). by exists c. Qed.

Lemma armed_weaken (Q Q' : string → Prop) h c w : Armed key Q h c w → (∀ b, Q b → Q' b) → Armed key Q' h c w.
Proof. intros (b & F & ? & ? & Hw & ?) HQ. exists b, F. split; [done|]. split; [done|]. split; [by eapply at_weaken|done]. Qed.

Lemma inv_weaken (Q Q' : string → Prop) s e tr : Inv Q s tr → (∀ b, Q b → Q' b) → Inv Q' s (e :: tr).
Proof.
  unfold Inv. destruct (flight s) as [f|].
  - intros (ctx & c & h & X1 & X2 & (g & p & ? & ?) & X3) HQ. exists ctx, c, h. split; [done|]. split; [done|]. split; [|by eapply armed_weaken].
    exists g, p. split; [by apply elem_of_cons; right|done].
  - intros [Hi Hw] HQ. split; [done|by eapply at_weaken].
Qed.

(** A program that keeps the directory keeps the Agent. *)
Lemma inv_program {A} Q s tr (m : M A) : Inv Q s tr → (∀ T F, triple (At key Q T F) m (λ _, At key Q T F) (At key Q T F) (At key Q ∅ ∅)) →
  match m (disk s) with (w, Crashed) => Inv Q (restarted w) tr | (w, _) => Inv Q (mkAgent (flight s) (after s) w) tr end.
Proof.
  intros Hinv Hm. unfold Inv in *. cbn [flight after disk restarted]. destruct (flight s) as [f|].
  - destruct Hinv as (ctx & c & h & X1 & X2 & X3 & b & F & X4 & X5 & Hw & X6). pose proof (Hm _ _ _ Hw) as Hr.
    destruct (m (disk s)) as [w [a|e|]]; [exists ctx, c, h; do 3 (split; [done|]); by exists b, F..|]. by split.
  - destruct Hinv as [Hi Hw]. pose proof (Hm _ _ _ Hw) as Hr. by destruct (m (disk s)) as [w [a|e|]].
Qed.

Abbreviation Reached tr s := (Inv (Handed tr) s tr).

Lemma inv_restarted Q s tr : Inv Q s tr → Inv Q (restarted (disk s)) tr.
Proof.
  unfold Inv. cbn. intros Hi. split; [done|]. destruct (flight s); [|by destruct Hi].
  destruct Hi as (? & c & h & _ & _ & _ & b & F & _ & _ & Hw & _). eapply at_weaken; [exact Hw|done|apply map_empty_subseteq..].
Qed.

Lemma inv_other Q s tr o : Inv Q s tr → Inv Q (mkAgent (flight s) (after s) (other (disk s) o)) tr.
Proof.
  intros Hi. apply (inv_program Q s tr (λ w, (other w o, Value tt)) Hi). intros T F w Hw. by apply at_other.
Qed.

Lemma inv_operation Q s tr ctx : Inv Q s tr → after s !! ctx = None → Inv Q (mkAgent (flight s) (<[ctx := []]> (after s)) (disk s)) tr.
Proof.
  unfold Inv. cbn [flight after disk]. intros Hi Hn. destruct (flight s) as [f|].
  - destruct Hi as (x & c & h & Hx & Hd & Hr). exists x, c, h. assert (ctx ≠ x) as Hne by (intros ->; congruence). split; [by rewrite lookup_insert_ne|]. split; [|done].
    intros y l. rewrite delete_insert_ne by done. rewrite lookup_insert_Some. intros [[_ <-]|[_ Hy]]; [done|by eapply Hd].
  - destruct Hi as [Hi Hw]. split; [|done]. intros y l. rewrite lookup_insert_Some. intros [[_ <-]|[_ Hy]]; [done|by eapply Hi].
Qed.

Lemma inv_admission Q s tr kind payload : Inv Q s tr → Inv Q (Admit fate host Version StaleRequest kind payload s).1 tr.
Proof.
  intros Hi. unfold Admit. destruct (negb _); [done|]. destruct (ParseUpgradeRequest payload) as [r|]; [|done]. destruct (SameAgentVersion _ _); [done|].
  destruct (match flight s with Some f => _ | None => false end); [done|].
  pose proof (inv_program Q s tr (pendingRequest fate host StaleRequest) Hi) as Hp. specialize (Hp (λ T F, pendingRequest_triple key fate host StaleRequest Q T F _)).
  by destruct (pendingRequest fate host StaleRequest (disk s)) as [w [a|e|]].
Qed.

Lemma inv_handle s tr ctx operationID payload cancelled : Reached tr s →
  Inv (Handed tr) (handle ctx operationID payload cancelled s).1 (EHandle ctx operationID payload :: tr).
Proof.
  intros Hi%(inv_weaken _ (Handed tr) _ (EHandle ctx operationID payload)); [|done]. set (tr' := EHandle ctx operationID payload :: tr) in *.
  unfold Handle. destruct (ParseUpgradeRequest payload) as [r|] eqn:Er; [|done].
  assert (∀ T F, triple (At key (Handed tr) T F) (wantedKernel libFate host arch r) (λ _, At key (Handed tr) T F) (At key (Handed tr) T F) (At key (Handed tr) ∅ ∅)) as Hk.
  { intros T F. eapply triple_post; [apply wantedKernel_triple|by intros ? w [? _]|done|done]. }
  pose proof (inv_program _ s tr' _ Hi Hk) as Hp.
  assert (∀ w k, wantedKernel libFate host arch r (disk s) = (w, Value k) → ∀ x, k = Some x → RKernel r arch = Some x) as Hkernel.
  { intros w k E. unfold Inv in Hi. assert (At key (Handed tr) ∅ ∅ (disk s)) as Hw.
    { destruct (flight s); [|by destruct Hi]. destruct Hi as (? & c & h & _ & _ & _ & b & F & _ & _ & Hw & _). eapply at_weaken; [exact Hw|done|apply map_empty_subseteq..]. }
    pose proof (wantedKernel_triple key libFate host arch (Handed tr) r ∅ ∅ _ Hw) as Ht. rewrite E in Ht. by destruct Ht. }
  destruct (wantedKernel libFate host arch r (disk s)) as [w [kernel|e|]]; [|done|done]. specialize (Hkernel w kernel eq_refl).
  cbv zeta. destruct (SameAgentVersion _ _ && _); [done|]. unfold begin. cbn [flight after disk set_disk]. destruct (flight s) as [f|] eqn:Ef; [by destruct (negb _ || cancelled); rewrite <- Ef in Hp|].
  cbn [flight after disk].
  unfold Inv in Hp. cbn [flight after disk] in Hp. destruct Hp as [Hidle Hw].
  pose proof (handOff_triple key fate libFate random host arch StaleRequest (Handed tr) payload r (SameAgentVersion Version (RTargetVersion r)) kernel (bool_decide (is_Some (after s !! ctx))) operationID Er Hkernel w Hw) as Hh.
  destruct (handOff _ _ _ _ _ _ _ _ _ _ _ _ w) as [w' [[c|]|e|]]; [|by split..]. destruct Hh as (h & Ho & Ha & Ht & Harmed & Hctx%bool_decide_eq_true).
  destruct Hctx as [l Hl]. unfold AfterTerminal. rewrite Hl, (Hidle _ _ Hl). unfold Inv. cbn [flight after disk fst app]. exists ctx, c, h.
  split; [by rewrite lookup_insert_eq|]. split; [|split; [|done]].
  - intros y l'. rewrite delete_insert_eq. rewrite lookup_delete_Some. intros [_ Hy]. by eapply Hidle.
  - exists h, payload. split; [rewrite Ho; apply elem_of_cons; by left|]. destruct Harmed as (b & F & _ & _ & _ & _ & Hb & _). split; [by exists r|done].
Qed.

Lemma inv_terminal s tr ctx phase : Reached tr s → Reached (ETerminal ctx phase :: tr) (runAfter fate host ctx phase s).1.
Proof.
  intros Hi. pose proof (inv_weaken _ (Handed (ETerminal ctx phase :: tr)) _ (ETerminal ctx phase) _ Hi (handed_cons _ _)) as Hi'.
  unfold runAfter. destruct (after s !! ctx) as [l|] eqn:El; [|done]. unfold Inv in Hi, Hi'. destruct (flight s) as [f|] eqn:Ef.
  - destruct Hi' as (x & c & h & Hx & Hd & _ & Harmed). destruct Hi as (x' & c' & h' & Hx' & Hd' & (g & p & Hin & Hask & Hbase) & _).
    destruct (decide (ctx = x)) as [->|Hne].
    + assert (x' = x) as ->. { destruct (decide (x' = x)); [done|]. by specialize (Hd' x [c]); rewrite lookup_delete_ne in Hd' by done; specialize (Hd' Hx). }
      rewrite Hx in Hx', El. injection Hx' as <-. injection El as <-. cbn [runAll disk].
      assert (idle (<[x := []]> (after s))) as Hidle.
      { intros y l. rewrite lookup_insert_Some. intros [[_ <-]|[Hy1 Hy]]; [done|]. apply (Hd y). by rewrite lookup_delete_ne. }
      pose proof (afterTerminal_triple key fate host (Handed (ETerminal x phase :: tr)) h c phase) as Ht. cbv beta in Ht.
      assert (phase = SUCCEEDED → ∀ b, encodeHandOff (CHandOff c) = Some b → Handed (ETerminal x phase :: tr) b) as Hq.
      { intros -> b Hb. exists x, (CHandOff c), p, [], tr. split; [done|]. split; [done|]. destruct Hbase as (B1 & B2 & B3), Hask as (r & R1 & R2 & R3).
        split; [by rewrite B1|]. split; [exists r; by rewrite B2, B3|]. destruct Harmed as (b' & F & _ & _ & _ & HF & _). by eapply files_verified. }
      specialize (Ht Hq _ Harmed). destruct (afterTerminal fate host c phase (disk s)) as [w [a|e|]]; by split.
    + destruct l as [|c0 l]; [|specialize (Hd ctx (c0 :: l)); rewrite lookup_delete_ne in Hd by done; by specialize (Hd El)]. cbn [runAll fst]. unfold Inv. cbn [flight after disk].
      exists x, c, h. rewrite lookup_insert_ne by done. split; [done|]. split; [|split; [|done]].
      * intros y l. rewrite delete_insert_ne by done. rewrite lookup_insert_Some. intros [[_ <-]|[_ Hy]]; [done|by eapply Hd].
      * assert (x' = x) as ->. { destruct (decide (x' = x)); [done|]. by specialize (Hd' x [c]); rewrite lookup_delete_ne in Hd' by done; specialize (Hd' Hx). }
        rewrite Hx in Hx'. injection Hx' as <-. exists g, p. split; [by apply elem_of_cons; right|done].
  - destruct Hi' as [Hidle Hw]. rewrite (Hidle _ _ El). cbn [runAll fst]. unfold Inv. cbn [flight after disk]. split; [|done].
    intros y l'. rewrite lookup_insert_Some. intros [[_ <-]|[_ Hy]]; [done|by eapply Hidle].
Qed.

Lemma reach_inv s tr : reach s tr → Reached tr s.
Proof.
  induction 1 as [w Hw Hr Ha|ctx s tr _ IH Hn|kind payload s tr _ IH|ctx operationID payload cancelled s tr _ IH|ctx phase s tr _ IH|s tr _ IH|o s tr _ IH|s tr _ IH].
  - split; [done|]. split; [done|]. split; [by intros n c|by intros n c|]. intros n b Hb. cbn [disk restarted] in Hb. split; [intros ->; congruence|].
    split; intros Hn; (rewrite Ha in Hb; [done|]); [by left|by right].
  - by apply inv_operation.
  - by apply inv_admission.
  - apply inv_handle with (ctx := ctx) (operationID := operationID) (payload := payload) (cancelled := cancelled) in IH. revert IH. unfold Inv.
    destruct (flight _); [intros (x & c & h & ? & ? & ? & Harmed); exists x, c, h; do 3 (split; [done|]); by eapply armed_weaken; [|intros b; apply handed_cons]|].
    intros [? Hw]. split; [done|]. by eapply at_weaken; [|intros b; apply handed_cons|..].
  - by apply inv_terminal.
  - pose proof (inv_program _ _ _ _ IH (λ T F, LogLastResult_triple key fate host (Handed tr) T F _)) as Hp. by destruct (LogLastResult fate host (disk s)) as [w [a|e|]].
  - by apply inv_other.
  - by apply inv_restarted.
Qed.

(** C31: a request reaches the updater only after its operation was reported
    SUCCEEDED.  Whatever calls fail, however operations of several node
    identities, the updater and restarts of the process are interleaved, what is
    in request.json is the hand-off of an operation the handler was called for
    and whose terminal state SUCCEEDED was sent before, as its payload asks and
    with a release and a kernel that passed their verification; and a file staged
    under a release's name is one the release key signed. *)
Theorem request_after_success s tr : reach s tr →
  (∀ b, content (disk s) RequestFile = Some b → Handed tr b)
  ∧ (∀ n b, content (disk s) n = Some b → (assetPattern n = true → Genuine key b) ∧ (kernelAssetPattern n = true → GenuineKernel b)).
Proof.
  intros Hr%reach_inv. assert (At key (Handed tr) ∅ ∅ (disk s)) as [_ Hok].
  { apply inv_restarted in Hr. unfold Inv in Hr. cbn in Hr. by destruct Hr. }
  split; [intros b Hb|intros n b Hb]; apply (ok_allowed _ _ _ _ _ Hok) in Hb as (X1 & X2); auto.
Qed.

(** The functions of one context run; the upgrade is over. *)
Lemma runAfter_one ctx c phase s : after s !! ctx = Some [c] → flight (runAfter fate host ctx phase s).1 = None.
Proof. intros Hc. unfold runAfter. rewrite Hc. cbn [runAll disk]. by destruct (afterTerminal fate host c phase (disk s)) as [w [a|e|]]. Qed.


End Runs.

(** ** An Agent *)

Module Witness.
Import UpgradeTrust.Witness.

(** A payload is the version to upgrade to. *)
#[export] Instance sdk : UpgradeSDK := {|
  sdk_codec := demo; UpgradeRequest := string; ParseUpgradeRequest p := if String.eqb p "" then None else Some p;
  RCampaignID _ := "campaign"; RAction _ := "upgrade"; RTargetVersion r := r; RPreviousVersion _ := "";
  RArtifact r arch := Some (mkArtifact arch "anix-agent-linux-amd64.zip" "https://release" digest (len ("signed:" +:+ r)) digest);
  RKernel _ _ := None;
  UpgradeErrorBusy := "busy"; UpgradeErrorUpdater := "updater"; UpgradeErrorNoArtifact := "no artifact"; UpgradeErrorDownload := "download";
  UpgradePhaseCurrent := "current"; UpgradePhaseHandedOff := "handed_off"; OperationKindAgentUpgrade := "agent.upgrade";
  encodeHandOff h := Some (OperationID h +:+ " " +:+ TargetVersion h); unmarshalHandOff b := emptyHandOff
|}.

#[export] Instance sdk_laws : UpgradeSDKLaws.
Proof. split; [|done]. intros p r arch a _ [= <-]. vm_compute. reflexivity. Qed.

Definition empty : World := mkWorld ∅ [] ∅ 0 0.

(** Downloads on the control connection; [body n] at call [n]. *)
Definition agentHost (body : nat → string) : AgentHost :=
  mkAgentHost (λ _, true) (λ _, 0) (λ n, Some (Some (body n))) (λ _, Unreachable) (λ _, empty) (λ _, []) (λ _, 0).

Definition good : AgentHost := agentHost (λ _, "signed:v2.0.0").

Abbreviation handled h ctx op payload s := (Handle always always random h "v1.0.0" "amd64" key 0 ctx op payload false s).
Abbreviation ended h ctx phase s := (runAfter always h ctx phase s).

Definition begun : Agent := mkAgent None {[ 1%nat := [] ]} empty.
Definition staged1 : Agent * Reply Answer := handled good 1 "op-1" "v2.0.0" begun.
Definition handed1 : Agent * Reply unit := ended good 1 SUCCEEDED staged1.1.

Example handed_off_only_after_success :
  staged1.2 = Replies (mkAnswer "handed_off" "v2.0.0" None) ∧ content (disk staged1.1) RequestFile = None
  ∧ content (disk handed1.1) RequestFile = Some "op-1 v2.0.0" ∧ content (disk handed1.1) "anix-agent-linux-amd64.zip" = Some "signed:v2.0.0"
  ∧ content (disk (ended good 1 SUPERSEDED staged1.1).1) "anix-agent-linux-amd64.zip" = None.
Proof. vm_compute. done. Qed.

Example tampered_release_refused :
  (handled (agentHost (λ _, "forged!v2.0.0")) 1 "op-1" "v2.0.0" begun).2 = Replies (mkAnswer "" "v1.0.0" (Some "signature")).
Proof. vm_compute. done. Qed.

(** The updater, done with the request it took, removes the file it applied by
    its name, which is that of every release: a release staged for the next
    request goes with it. *)
Example updater_removes_next_release :
  let taken := mkAgent None {[ 1%nat := []; 2%nat := [] ]} (other (disk handed1.1) Takes) in
  let next := handled (agentHost (λ _, "signed:v3.0.0")) 2 "op-2" "v3.0.0" taken in
  let applied := foldl other (disk next.1) [Removes "anix-agent-linux-amd64.zip"; Writes "installed"; Removes applying] in
  let done := ended good 2 SUCCEEDED (mkAgent (flight next.1) (after next.1) applied) in
  next.2 = Replies (mkAnswer "handed_off" "v3.0.0" None) ∧ content (disk done.1) RequestFile = Some "op-2 v3.0.0"
  ∧ content (disk done.1) "anix-agent-linux-amd64.zip" = None.
Proof. vm_compute. done. Qed.

Lemma empty_wf : files_wf empty.
Proof. by split. Qed.

Abbreviation reached := (reach always always random good "v1.0.0" "amd64" key 0).

Lemma staged1_reached : reached staged1.1 [EHandle 1 "op-1" "v2.0.0"].
Proof.
  apply (reach_handle always always random good "v1.0.0" "amd64" key 0 1 "op-1" "v2.0.0" false begun []).
  apply (reach_operation always always random good "v1.0.0" "amd64" key 0 1 (restarted empty) []); [|reflexivity].
  apply reach_start; [apply empty_wf|reflexivity|reflexivity].
Qed.

Lemma request_after_success_witness : Handed key [ETerminal 1 SUCCEEDED; EHandle 1 "op-1" "v2.0.0"] "op-1 v2.0.0".
Proof.
  destruct (request_after_success always always random good "v1.0.0" "amd64" key 0 handed1.1 [ETerminal 1 SUCCEEDED; EHandle 1 "op-1" "v2.0.0"]) as [Hr _].
  - apply (reach_terminal always always random good "v1.0.0" "amd64" key 0 1 SUCCEEDED staged1.1). apply staged1_reached.
  - apply Hr. vm_compute. reflexivity.
Defined.


End Witness.

End UpgradeHanded.
