(* ===== verification/NetworkPlan.v ===== *)
(** * The device network plan

    The messages of network.v1 (Control's SDK) the Agent reads, as records with
    the members it uses; a message that is absent reads as its zero value.
    The orders Go's [sort.Slice] and the iteration of its maps are used with. *)

From S2P Require Import Prelude GoStrings GoNet.
From Stdlib Require Import Ascii String.

Module NetworkPlan.
Import GoNet.

Record Line := mkLine { LineId : string; Interface : string; GatewayV4 : string; GatewayV6 : string }.

Definition noLine : Line := mkLine "" "" "" "".

Record Egress := mkEgress {
  EgressId : string; EgressLine : string; Source : string; EgressGateway : string; RoutingTable : Z; RulePriority : Z
}.

Record AnxLineSettings := mkSettings {
  LinkKey : string; LinkId : string; TcpAddr : string; QuicAddr : string; FaketcpAddr : string;
  SettingsEgress : string; ServerNames : string; Reverse : bool; ReverseDialAddr : string; ReverseListenAddr : string;
  ServerPublic : string; CarrierOrder : list string; Multipath : bool; Fec : bool
}.

Definition noSettings : AnxLineSettings := mkSettings "" "" "" "" "" "" "" false "" "" "" [] false false.

Inductive Role := Dial | AcceptRole | OtherRole.

Record Transport := mkTransport {
  TransportId : string; TransportKind : string; TransportRole : Role; FromEgressId : string; ToIngressId : string;
  AnxLine : option AnxLineSettings
}.

Record Forwarding := mkForwarding { FromTransportId : string; NextTransportId : string; NextEgressId : string }.

Record Ingress := mkIngress { IngressId : string; ForHops : bool }.

Record ForwardTarget := mkTarget { TargetHost : string; TargetPort : Z; TargetWeight : Z; TargetPriority : Z }.

Record KernelForward := mkKernelForward {
  ForwardId : string; ListenAddress : string; ListenPort : Z; Protocols : list string; Balance : string;
  HealthDisabled : bool; IntervalMs : Z; TimeoutMs : Z; Targets : list ForwardTarget
}.

(** [Paths], [PortForwards] and [ReverseProxies] are the transports they leave
    by; [PathCount] is the number of paths. *)
Record Plan := mkPlan {
  Generation : Z; Hash : string; DeviceRef : string;
  Lines : list Line; Egresses : list Egress; Transports : list Transport; Forwards : list Forwarding; Ingresses : list Ingress;
  PathTransports : list string; PortForwardTransports : list string; ReverseProxyTransports : list string;
  KernelForwards : list KernelForward
}.

#[export] Instance Role_eq_dec : EqDecision Role.
Proof. solve_decision. Defined.
#[export] Instance Settings_eq_dec : EqDecision AnxLineSettings.
Proof. solve_decision. Defined.
#[export] Instance Transport_eq_dec : EqDecision Transport.
Proof. solve_decision. Defined.
#[export] Instance ForwardTarget_eq_dec : EqDecision ForwardTarget.
Proof. solve_decision. Defined.
#[export] Instance KernelForward_eq_dec : EqDecision KernelForward.
Proof. solve_decision. Defined.
#[export] Instance Prefix_eq_dec : EqDecision Prefix.
Proof. solve_decision. Defined.

(** A map from the values of a list by a key; the last one with a key wins. *)
Definition keyed {A} (key : A → string) (l : list A) : gmap string A := foldl (λ m x, <[key x := x]> m) ∅ l.

(** ** Orders *)

(** The order of Go's strings, byte by byte. *)
Definition str_le : string → string → bool := String.leb.

(** Insertion into a list sorted by [le], behind what is not greater: the
    result of [sort.Slice] where the keys differ, of [sort.SliceStable] in any
    case. *)
Fixpoint insert_by {A} (le : A → A → bool) (x : A) (l : list A) : list A :=
  match l with
  | [] => [x]
  | y :: l => if le y x then y :: insert_by le x l else x :: y :: l
  end.

Definition sort_by {A} (le : A → A → bool) (l : list A) : list A := foldl (λ s x, insert_by le x s) [] l.

(** ** Addresses *)

(** [Addr.Unmap] and [Addr.Less]. *)
Definition Unmap (a : Addr) : Addr :=
  match a with
  | V6 [0; 0; 0; 0; 0; 65535; x; y] _ => V4 (x / 256) (x mod 256) (y / 256) (y mod 256)
  | _ => a
  end.

(** The numbers of an address, the most significant first. *)
Definition fields (a : Addr) : list Z := match a with V4 a b c d => [a; b; c; d] | V6 groups _ => groups end.

Fixpoint lex_le (a b : list Z) : bool :=
  match a, b with
  | [], _ => true
  | _, [] => false
  | x :: a, y :: b => if x <? y then true else if y <? x then false else lex_le a b
  end.

Definition addr_le (a b : Addr) : bool :=
  if BitLen a =? BitLen b then
    if bool_decide (fields a = fields b) then str_le (Zone a) (Zone b) else lex_le (fields a) (fields b)
  else BitLen a <? BitLen b.

(** [netip.PrefixFrom] the address with all its bits, which drops the zone. *)
Definition host_prefix (a : Addr) : Prefix :=
  mkPrefix (match a with V4 _ _ _ _ => a | V6 g _ => V6 g "" end) (BitLen a).

Definition prefix_string (p : Prefix) : string := addr_string (pAddr p) +:+ "/" +:+ itoa (Bits p).

Definition IsUnspecified (a : Addr) : bool := bool_decide (a = V4 0 0 0 0 ∨ a = V6 (replicate 8 0) "").

Example address_examples :
  Unmap (V6 [0; 0; 0; 0; 0; 65535; 258; 772] "") = V4 1 2 3 4 ∧ addr_le (V4 1 2 3 4) (V4 1 2 4 0) = true ∧ addr_le (V6 (replicate 8 0) "") (V4 9 9 9 9) = false ∧
  prefix_string (host_prefix (V4 10 0 0 2)) = "10.0.0.2/32" ∧ prefix_string (host_prefix (V6 [65152; 0; 0; 0; 0; 0; 0; 1] "eth0")) = "fe80::1/128" ∧
  sort_by str_le ["b"; "a"; "c"; "a"] = ["a"; "a"; "b"; "c"].
Proof. vm_compute. done. Qed.

(** ** Folds over results *)

Lemma fold_err {A B} (f : result A → B → result A) l e : (∀ e x, f (Err e) x = Err e) → foldl f (Err e) l = Err e.
Proof. intros Hf. induction l as [|x l IH]; [done|]. cbn. by rewrite Hf. Qed.

(** An invariant of the values a fold goes through, by what was folded. *)
Lemma fold_result_ind {A B} (f : result A → B → result A) (P : list B → A → Prop) l : ∀ done a a',
  (∀ e x, f (Err e) x = Err e) →
  (∀ seen x a a', x ∈ l → P seen a → f (Ok a) x = Ok a' → P (seen ++ [x]) a') →
  P done a → foldl f (Ok a) l = Ok a' → P (done ++ l) a'.
Proof.
  induction l as [|x l IH]; intros seen a a' Hf Hstep Ha; cbn; [intros [= <-]; by rewrite app_nil_r|].
  destruct (f (Ok a) x) as [a1|e] eqn:E; [|by rewrite fold_err].
  intros Hl. replace (seen ++ x :: l) with ((seen ++ [x]) ++ l) by (by rewrite <- app_assoc).
  apply (IH (seen ++ [x]) a1); [done| |apply (Hstep seen x a); [left|done..]|done].
  intros s y b b' Hy. apply Hstep. by right.
Qed.

(** ** Lemmas on orders *)

Lemma insert_by_perm {A} (le : A → A → bool) x l : insert_by le x l ≡ₚ x :: l.
Proof.
  induction l as [|y l IH]; [done|]. cbn. destruct (le y x); [|done]. rewrite IH. apply Permutation_swap.
Qed.

Lemma sort_fold_perm {A} (le : A → A → bool) l : ∀ s, foldl (λ s x, insert_by le x s) s l ≡ₚ s ++ l.
Proof.
  induction l as [|x l IH]; intros s; cbn; [by rewrite app_nil_r|]. rewrite IH, insert_by_perm. by rewrite (Permutation_middle s l x).
Qed.

Lemma sort_by_perm {A} (le : A → A → bool) l : sort_by le l ≡ₚ l.
Proof. apply (sort_fold_perm le l []). Qed.

Section Sorted.
Context {A : Type} (le : A → A → bool).
Hypothesis total : ∀ x y, le x y = true ∨ le y x = true.
Hypothesis trans : ∀ x y z, le x y = true → le y z = true → le x z = true.

Lemma insert_by_sorted x l : StronglySorted (λ a b, le a b = true) l → StronglySorted (λ a b, le a b = true) (insert_by le x l).
Proof.
  induction 1 as [|y l Hs IH Hy]; cbn; [by repeat constructor|]. destruct (le y x) eqn:E.
  - constructor; [done|]. rewrite insert_by_perm. by constructor.
  - assert (le x y = true) as Hx by (destruct (total x y); congruence).
    constructor; [by constructor|]. constructor; [done|]. eapply Forall_impl; [exact Hy|]. intros z Hz. by eapply trans.
Qed.

Lemma sort_by_sorted l : StronglySorted (λ a b, le a b = true) (sort_by le l).
Proof.
  assert (∀ s, StronglySorted (λ a b, le a b = true) s → StronglySorted (λ a b, le a b = true) (foldl (λ s x, insert_by le x s) s l)) as Hall;
    [|apply Hall; constructor].
  induction l as [|x l IH]; intros s Hs; [done|]. apply IH, insert_by_sorted, Hs.
Qed.

(** Lists with the same elements are sorted alike. *)
Lemma sort_by_unique l1 l2 : (∀ x y, x ∈ l1 → y ∈ l2 → le x y = true → le y x = true → x = y) → l1 ≡ₚ l2 → sort_by le l1 = sort_by le l2.
Proof.
  intros Hanti Hp. apply (StronglySorted_unique_strong (λ a b, le a b = true));
    [|apply sort_by_sorted..|by rewrite !sort_by_perm].
  intros x y Hx Hy. rewrite sort_by_perm in Hx. rewrite sort_by_perm in Hy. by apply Hanti.
Qed.

End Sorted.

Lemma str_le_trans a : ∀ b c, str_le a b = true → str_le b c = true → str_le a c = true.
Proof.
  unfold str_le, String.leb. induction a as [|x a IH]; intros [|y b] [|z c]; try done. cbn.
  unfold Ascii.compare. specialize (IH b c).
  destruct (N.compare_spec (N_of_ascii x) (N_of_ascii y)) as [E1|E1|E1], (N.compare_spec (N_of_ascii y) (N_of_ascii z)) as [E2|E2|E2]; try done;
    destruct (N.compare_spec (N_of_ascii x) (N_of_ascii z)) as [E3|E3|E3]; try done; try lia.
Qed.

Lemma lex_le_total a : ∀ b, lex_le a b = true ∨ lex_le b a = true.
Proof.
  induction a as [|x a IH]; intros [|y b]; [by left..|by right|]. cbn.
  destruct (Z.ltb_spec x y), (Z.ltb_spec y x); [lia|by left|by right|apply IH].
Qed.

Lemma lex_le_trans a : ∀ b c, lex_le a b = true → lex_le b c = true → lex_le a c = true.
Proof.
  induction a as [|x a IH]; intros [|y b] [|z c]; [done..|]. cbn. specialize (IH b c).
  destruct (Z.ltb_spec x y), (Z.ltb_spec y x), (Z.ltb_spec y z), (Z.ltb_spec z y), (Z.ltb_spec x z), (Z.ltb_spec z x); try done; lia.
Qed.

Lemma lex_le_anti a : ∀ b, lex_le a b = true → lex_le b a = true → a = b.
Proof.
  induction a as [|x a IH]; intros [|y b]; [done..|]. cbn.
  destruct (Z.ltb_spec x y), (Z.ltb_spec y x); [lia|done..|]. intros H1 H2. f_equal; [lia|by apply IH].
Qed.

(** [addr_le] in steps. *)
Lemma addr_le_spec a b : addr_le a b = true ↔
  BitLen a < BitLen b ∨ (BitLen a = BitLen b ∧ ((fields a = fields b ∧ str_le (Zone a) (Zone b) = true) ∨ (fields a ≠ fields b ∧ lex_le (fields a) (fields b) = true))).
Proof.
  unfold addr_le. destruct (Z.eqb_spec (BitLen a) (BitLen b)); [case_bool_decide|rewrite Z.ltb_lt]; intuition (try lia; try congruence).
Qed.

Lemma addr_le_total a b : addr_le a b = true ∨ addr_le b a = true.
Proof.
  rewrite !addr_le_spec. destruct (Z.lt_trichotomy (BitLen a) (BitLen b)) as [?|[?|?]]; [by left; left| |by right; left].
  destruct (decide (fields a = fields b)) as [E|E].
  - destruct (String.leb_total (Zone a) (Zone b)); [left|right]; right; (split; [done|left; by split]).
  - destruct (lex_le_total (fields a) (fields b)); [left|right]; right; (split; [done|right; by split]).
Qed.

Lemma addr_le_trans a b c : addr_le a b = true → addr_le b c = true → addr_le a c = true.
Proof.
  rewrite !addr_le_spec. intros [?|(E1 & H1)] [?|(E2 & H2)]; [left; lia..|]. right. split; [lia|].
  destruct H1 as [[F1 Z1]|[F1 L1]], H2 as [[F2 Z2]|[F2 L2]].
  - left. split; [congruence|by eapply str_le_trans].
  - right. by rewrite F1.
  - right. by rewrite <- F2.
  - destruct (decide (fields a = fields c)) as [E|E].
    + exfalso. apply F1. apply lex_le_anti; [done|]. by rewrite E.
    + right. split; [done|by eapply lex_le_trans].
Qed.

Lemma addr_le_anti a b : addr_le a b = true → addr_le b a = true → a = b.
Proof.
  rewrite !addr_le_spec. intros [?|(E1 & H1)] [?|(E2 & H2)]; [lia..|].
  destruct H1 as [[F1 Z1]|[F1 L1]], H2 as [[F2 Z2]|[F2 L2]]; [|congruence..|exfalso; by apply F1, lex_le_anti].
  pose proof (String.leb_antisym _ _ Z1 Z2) as Hz. destruct a, b; cbn in *; naive_solver.
Qed.

End NetworkPlan.
