(* ===== verification/NodeReports.v ===== *)
(** * Reports of a node (node/dataplane_reports.go)

    What a node's controllers hand to the data plane's spool: traffic windows
    with the online addresses of all controllers, destination statistics, logs
    and the node's status.  The spool is the class [ReportPlane]: it takes a
    report or refuses it. *)

From S2P Require Import Prelude GoStrings NetworkPlan.
From Stdlib Require Import Ascii String.

Module NodeReports.
Import NetworkPlan.

Definition trafficUsersPerBatch : nat := Z.to_nat 5000.
Definition logBatchEntries : nat := Z.to_nat 200.
Definition destinationEntriesPerBatch : nat := Z.to_nat 10000.

(** ** Messages *)

Record UserTraffic := mkTraffic { UID : Z; Upload : Z; Download : Z }.
Record OnlineUser := mkOnline { OUser : Z; Ips : list string }.
Record TrafficReport := mkReport { RUsers : list UserTraffic; ROnline : list OnlineUser; WindowEnd : Z }.

Record Destination := mkDestination { DUID : Z; Domain : string; Protocol : string; DUp : Z; DDown : Z; Connections : Z }.
Record DestinationReport := mkDestinationReport { DEntries : list Destination; DWindowEnd : Z }.

Record NodeLogEntry := mkNodeLog { NLevel : string; NSource : string; NMessage : string; NTrace : string; NTimestamp : Z; NFields : string }.
Record LogEntry := mkLog { Level : string; LSource : string; LMessage : string; LTrace : string; LAtMs : Z; LFields : option string }.

(** The data plane's spool. *)
Class ReportPlane (S : Type) := {
  SubmitTraffic : TrafficReport → S → S * bool;
  SubmitDestinations : DestinationReport → S → S * bool;
  SubmitLogs : list LogEntry → S → S * bool
}.

(** ** Online addresses *)

Abbreviation Online := (gmap Z (list string)).

Definition addAddresses (m : gmap Z (gset string)) (x : Z * list string) : gmap Z (gset string) :=
  if x.1 <=? 0 then m
  else <[x.1 := default ∅ (m !! x.1) ∪ list_to_set (filter (λ a, a ≠ "") (trim_space <$> x.2))]> m.

Definition onlineUser (x : Z * gset string) : option OnlineUser :=
  match elements x.2 with [] => None | l => Some (mkOnline x.1 (sort_by str_le l)) end.

(** [mergeOnline]; the controllers are named by numbers. *)
Definition mergeOnline (online : gmap nat Online) : list OnlineUser :=
  let ips := foldl (λ m users, foldl addAddresses m (map_to_list users)) ∅ (map_to_list online).*2 in
  sort_by (λ a b, OUser a <=? OUser b) (omap onlineUser (map_to_list ips)).

(** ** The node's reports *)

Record health := mkHealth { healthy : bool; message : string }.
Record SystemInfo := mkSystem { CPUUsage : Z; MemoryUsage : Z; DiskUsage : Z; Uptime : Z }.

Record NodePlane := mkPlane {
  online : gmap nat Online; onlineSent : bool; logBuffer : list LogEntry; lastSystem : option SystemInfo; nodeHealth : option health; stopped : bool
}.

Definition set_online (n : NodePlane) (o : gmap nat Online) : NodePlane := mkPlane o (onlineSent n) (logBuffer n) (lastSystem n) (nodeHealth n) (stopped n).
Definition set_sent (n : NodePlane) (sent : bool) : NodePlane := mkPlane (online n) sent (logBuffer n) (lastSystem n) (nodeHealth n) (stopped n).
Definition set_logs (n : NodePlane) (l : list LogEntry) : NodePlane := mkPlane (online n) (onlineSent n) l (lastSystem n) (nodeHealth n) (stopped n).

Definition forgetController (controller : nat) (n : NodePlane) : NodePlane := set_online n (delete controller (online n)).

(** A list in pieces of at most [k + 1]. *)
Fixpoint chunks_from {A} (fuel : nat) (k : nat) (l : list A) : list (list A) :=
  match fuel, l with
  | S fuel, _ :: _ => take (S k) l :: chunks_from fuel k (drop (S k) l)
  | _, _ => []
  end.
Definition chunks {A} (k : nat) (l : list A) : list (list A) := chunks_from (List.length l) (Nat.pred k) l.

Section Plane.
Context {S : Type} `{!ReportPlane S}.

(** The users of a window that have traffic. *)
Definition reported (traffic : list UserTraffic) : list UserTraffic :=
  (λ e, mkTraffic (UID e) (Z.max (Upload e) 0) (Z.max (Download e) 0))
    <$> filter (λ e, 0 < UID e ∧ (0 < Upload e ∨ 0 < Download e)) traffic.

(** Later batches of a window: what is refused ends it. *)
Fixpoint submitRest (reports : list TrafficReport) (s : S) : S :=
  match reports with
  | [] => s
  | r :: reports => match SubmitTraffic r s with (s, true) => submitRest reports s | (s, false) => s end
  end.

(** The loop over the batches; [false] when the first is refused. *)
Definition submitBatches (reports : list TrafficReport) (s : S) : S * bool :=
  match reports with
  | [] => (s, true)
  | r :: reports => match SubmitTraffic r s with (s, true) => (submitRest reports s, true) | (s, false) => (s, false) end
  end.

(** [submitTraffic] in its parts: under the lock, the spool, and under the lock. *)
Definition prepareTraffic (controller : nat) (users : Online) (n : NodePlane) : NodePlane * (list OnlineUser * bool) :=
  let n := set_online n (<[controller := users]> (online n)) in
  let merged := mergeOnline (online n) in
  (n, (merged, bool_decide (merged = []) && onlineSent n)).

Definition windowReports (traffic : list UserTraffic) (merged : list OnlineUser) (now : Z) : list TrafficReport :=
  (λ users, mkReport users merged now) <$> match chunks trafficUsersPerBatch (reported traffic) with [] => [[]] | l => l end.

Definition submitTraffic (controller : nat) (traffic : list UserTraffic) (users : Online) (now : Z) (n : NodePlane) (s : S) : NodePlane * S * bool :=
  let '(n, (merged, clear)) := prepareTraffic controller users n in
  if bool_decide (reported traffic = []) && bool_decide (merged = []) && negb clear then (n, s, true)
  else match submitBatches (windowReports traffic merged now) s with
       | (s, false) => (n, s, false)
       | (s, true) => (set_sent n (negb (bool_decide (merged = []))), s, true)
       end.

(** ** Destinations *)

Definition destinationEntry (e : Destination) : Destination :=
  mkDestination (DUID e) (Domain e) (Protocol e) (Z.max (DUp e) 0) (Z.max (DDown e) 0) (Z.min (Z.max (Connections e) 0) (2 ^ 32 - 1)).

Definition destinationEntries (traffic : list Destination) : list Destination :=
  destinationEntry <$> filter (λ e, 0 < DUID e ∧ (0 < DUp e ∨ 0 < DDown e ∨ 0 < Connections e)) traffic.

Fixpoint submitAll (reports : list DestinationReport) (s : S) : S :=
  match reports with
  | [] => s
  | r :: reports => match SubmitDestinations r s with (s, true) => submitAll reports s | (s, false) => s end
  end.

Definition submitDestinations (traffic : list Destination) (now : Z) (s : S) : S :=
  submitAll ((λ l, mkDestinationReport l now) <$> chunks destinationEntriesPerBatch (destinationEntries traffic)) s.

(** [reportDestinations]: what the core counted ([None] when it cannot be read)
    is spooled unless the stream does not carry it. *)
Definition reportDestinations (traffic : option (list Destination)) (off : bool) (now : Z) (s : S) : S :=
  match traffic with
  | None | Some [] => s
  | Some l => if off then s else submitDestinations l now s
  end.

(** ** Logs *)

Definition logLevel (level : string) : string :=
  let level := to_lower level in
  if String.eqb level "trace" then "debug" else if String.eqb level "warn" then "warning"
  else if String.eqb level "fatal" || String.eqb level "panic" then "error" else level.

Definition logEntry (e : NodeLogEntry) : LogEntry :=
  mkLog (logLevel (NLevel e)) (NSource e) (NMessage e) (NTrace e) (unix_milli (NTimestamp e)) (if String.eqb (NFields e) "" then None else Some (NFields e)).

(** [flushLogs]; [has_plane] says whether the node has a data plane. *)
Definition flushLogs (has_plane : bool) (n : NodePlane) (s : S) : NodePlane * S * bool :=
  let entries := logBuffer n in
  let n := set_logs n [] in
  match entries with
  | [] => (n, s, true)
  | _ => if has_plane then let '(s, ok) := SubmitLogs entries s in (n, s, ok) else (n, s, true)
  end.

Definition submitLogs (has_plane : bool) (entries : list NodeLogEntry) (n : NodePlane) (s : S) : NodePlane * S * bool :=
  let n := set_logs n (logBuffer n ++ (logEntry <$> entries)) in
  if Nat.leb logBatchEntries (List.length (logBuffer n)) || stopped n then flushLogs has_plane n s else (n, s, true).

(** [close]: the flusher's last round; once. *)
Definition close (has_plane : bool) (n : NodePlane) (s : S) : NodePlane * S :=
  if stopped n then (n, s)
  else (flushLogs has_plane (mkPlane (online n) (onlineSent n) (logBuffer n) (lastSystem n) (nodeHealth n) true) s).1.

End Plane.

(** ** Status *)

(** A controller: whether it is started and the health its core gives, when it
    gives one. *)
Record ControllerHealth := mkController { isStarted : bool; RuntimeHealth : option (bool * string) }.

Definition problem (c : ControllerHealth) : option string :=
  if isStarted c then
    match RuntimeHealth c with
    | Some (false, text) => Some (if String.eqb text "" then "runtime unhealthy" else text)
    | _ => None
    end
  else None.

Definition runtimeHealth (controllers : list ControllerHealth) : health :=
  let problems := omap problem controllers in
  let text := join problems "; " in
  mkHealth (bool_decide (problems = [])) (if 1024 <? len text then String.substring 0 1024 text else text).

Record NodeStatus := mkStatus { System : SystemInfo; Runtime : health; ObservedAt : Z }.

Definition nodeStatus (info : option SystemInfo) (controllers : list ControllerHealth) (now : Z) (n : NodePlane) : NodePlane * option NodeStatus :=
  match (match info with Some i => Some i | None => lastSystem n end) with
  | None => (n, None)
  | Some i =>
    let h := runtimeHealth controllers in
    (mkPlane (online n) (onlineSent n) (logBuffer n) (Some i) (Some h) (stopped n), Some (mkStatus i h now))
  end.

(** Whether a status is asked for. *)
Definition runtimeHealthChanged (controllers : list ControllerHealth) (n : NodePlane) : bool :=
  match nodeHealth n with
  | None => false
  | Some last => let h := runtimeHealth controllers in negb (Bool.eqb (healthy last) (healthy h) && String.eqb (message last) (message h))
  end.

End NodeReports.
