(* ===== verification/NodeReporting.v ===== *)
(** * Reports of a node: what reaches the spool

    A traffic window is spooled once, in batches, and the online addresses
    Control has of the node are those of its controllers. *)

From S2P Require Import Prelude GoStrings NetworkPlan NodeReports.
From Stdlib Require Import Ascii String.

Module NodeReporting.
Import NetworkPlan NodeReports.

(** ** Batches *)

Lemma chunks_from_spec {A} k fuel : ∀ l : list A, (List.length l ≤ fuel)%nat →
  List.concat (chunks_from fuel k l) = l ∧ Forall (λ c, c ≠ [] ∧ (List.length c ≤ S k)%nat) (chunks_from fuel k l).
Proof.
  induction fuel as [|fuel IH]; intros [|x l] Hl; try by split; [|constructor].
  - cbn in Hl. lia.
  - cbn [chunks_from List.concat]. destruct (IH (drop (S k) (x :: l))) as [Hc Hf]; [rewrite length_drop; cbn in *; lia|]. split.
    + rewrite Hc. apply take_drop.
    + constructor; [|done]. split; [done|]. rewrite length_take. lia.
Qed.

Lemma chunks_spec {A} k (l : list A) : (0 < k)%nat → List.concat (chunks k l) = l ∧ Forall (λ c, c ≠ [] ∧ (List.length c ≤ k)%nat) (chunks k l).
Proof. intros Hk. destruct (chunks_from_spec (Nat.pred k) (List.length l) l) as [Hc Hf]; [done|]. split; [done|]. eapply Forall_impl; [exact Hf|]. intros c [? ?]. split; [done|lia]. Qed.

(** ** Online addresses *)

Definition onlineAt (o : gmap nat Online) (uid : Z) (a : string) : Prop :=
  0 < uid ∧ a ≠ "" ∧ ∃ c users l x, o !! c = Some users ∧ users !! uid = Some l ∧ x ∈ l ∧ a = trim_space x.

Lemma addAddresses_elem m x uid a : a ∈ (default ∅ (addAddresses m x !! uid) : gset string) ↔
  a ∈ (default ∅ (m !! uid) : gset string) ∨ (0 < uid ∧ x.1 = uid ∧ a ≠ "" ∧ ∃ y, y ∈ x.2 ∧ a = trim_space y).
Proof.
  unfold addAddresses. destruct (Z.leb_spec x.1 0) as [Hx|Hx]; [split; [by left|]; intros [?|(? & <- & _)]; [done|lia]|].
  destruct (decide (x.1 = uid)) as [<-|Hne].
  - rewrite lookup_insert_eq. cbn. rewrite elem_of_union, elem_of_list_to_set, list_elem_of_filter, list_elem_of_fmap. naive_solver.
  - rewrite lookup_insert_ne by done. naive_solver.
Qed.

Lemma addAll_elem (l : list (Z * list string)) : ∀ m uid a, a ∈ (default ∅ (foldl addAddresses m l !! uid) : gset string) ↔
  a ∈ (default ∅ (m !! uid) : gset string) ∨ (0 < uid ∧ a ≠ "" ∧ ∃ x y, x ∈ l ∧ x.1 = uid ∧ y ∈ x.2 ∧ a = trim_space y).
Proof.
  induction l as [|x l IH]; intros m uid a; cbn [foldl]; [split; [by left|]; intros [?|(_ & _ & x & y & ?%not_elem_of_nil & _)]; done|].
  rewrite IH, addAddresses_elem. setoid_rewrite elem_of_cons. split.
  - intros [[?|(? & ? & ? & y & ? & ?)]|(? & ? & z & y & ? & ? & ? & ?)]; [by left|right; split; [done|]; split; [done|]; exists x, y; auto|right; split; [done|]; split; [done|]; exists z, y; auto].
  - intros [?|(? & ? & z & y & [->|?] & ? & ? & ?)]; [by left; left|left; right; eauto 10|right; eauto 10].
Qed.

Definition mergedIps (o : gmap nat Online) : gmap Z (gset string) := foldl (λ m users, foldl addAddresses m (map_to_list users)) ∅ (map_to_list o).*2.

Lemma mergedIps_elem o uid a : a ∈ (default ∅ (mergedIps o !! uid) : gset string) ↔ onlineAt o uid a.
Proof.
  assert (∀ (l : list Online) m, a ∈ (default ∅ (foldl (λ m users, foldl addAddresses m (map_to_list users)) m l !! uid) : gset string) ↔
    a ∈ (default ∅ (m !! uid) : gset string) ∨ (0 < uid ∧ a ≠ "" ∧ ∃ (users : Online) x y, users ∈ l ∧ users !! uid = Some x ∧ y ∈ x ∧ a = trim_space y)) as Hall.
  { induction l as [|users l IH]; intros m; cbn [foldl]; [split; [by left|]; intros [?|(_ & _ & u & x & y & ?%not_elem_of_nil & _)]; done|].
    rewrite IH, addAll_elem. setoid_rewrite elem_of_cons. split.
    - intros [[?|(? & ? & [i x] & y & Hin & <- & ? & ?)]|(? & ? & u & x & y & ? & ?)]; [by left| |]; right; (split; [done|]); (split; [done|]).
      + apply elem_of_map_to_list in Hin. exists users, x, y. auto.
      + exists u, x, y. auto.
    - intros [?|(? & ? & u & x & y & [->|?] & Hu & ? & ?)]; [by left; left| |].
      + left. right. split; [done|]. split; [done|]. exists (uid, x), y. split; [by apply elem_of_map_to_list|done].
      + right. split; [done|]. split; [done|]. exists u, x, y. auto. }
  unfold mergedIps. rewrite Hall. rewrite lookup_empty. cbn. unfold onlineAt. split.
  - intros [?%elem_of_empty|(? & ? & users & x & y & Hu & ? & ? & ?)]; [done|]. split; [done|]. split; [done|].
    apply list_elem_of_fmap in Hu as ([c u] & -> & Hin%elem_of_map_to_list). exists c, u, x, y. done.
  - intros (? & ? & c & users & x & y & Hc & ? & ? & ?). right. split; [done|]. split; [done|]. exists users, x, y. split; [|done].
    apply list_elem_of_fmap. exists (c, users). split; [done|by apply elem_of_map_to_list].
Qed.

(** What a report says is online is what the controllers have, each user once. *)
Lemma mergeOnline_exact o uid a : (∃ u, u ∈ mergeOnline o ∧ OUser u = uid ∧ a ∈ Ips u) ↔ onlineAt o uid a.
Proof.
  rewrite <- mergedIps_elem. unfold mergeOnline. fold (mergedIps o). split.
  - intros (u & Hu & <- & Ha). rewrite sort_by_perm in Hu. apply list_elem_of_omap in Hu as ([i set] & Hin%elem_of_map_to_list & E).
    assert (u = mkOnline i (sort_by str_le (elements set))) as -> by (unfold onlineUser in E; cbn [fst snd] in E; destruct (elements set); [done|congruence]).
    cbn [Ips OUser] in *. rewrite sort_by_perm in Ha. rewrite Hin. cbn. by apply elem_of_elements.
  - intros Ha. destruct (mergedIps o !! uid) as [set|] eqn:E; [|by apply elem_of_empty in Ha]. cbn in Ha.
    exists (mkOnline uid (sort_by str_le (elements set))). cbn. split; [|split; [done|rewrite sort_by_perm; by apply elem_of_elements]].
    rewrite (sort_by_perm (λ a b, OUser a <=? OUser b)). apply list_elem_of_omap. exists (uid, set). split; [by apply elem_of_map_to_list|]. unfold onlineUser. cbn.
    destruct (elements set) eqn:El; [|done]. apply elem_of_elements in Ha. rewrite El in Ha. by apply not_elem_of_nil in Ha.
Qed.

Lemma mergeOnline_users o : NoDup (OUser <$> mergeOnline o).
Proof.
  unfold mergeOnline. fold (mergedIps o). rewrite sort_by_perm. pose proof (NoDup_fst_map_to_list (mergedIps o)) as Hn. revert Hn.
  induction (map_to_list (mergedIps o)) as [|[i set] l IH]; cbn; [constructor|]. intros [Hi Hn]%NoDup_cons.
  assert (∀ j, j ∈ OUser <$> omap onlineUser l → j ∈ l.*1) as Hsub.
  { intros j (u & -> & (x & Hx & E)%list_elem_of_omap)%list_elem_of_fmap. apply list_elem_of_fmap. exists x. split; [|done].
    unfold onlineUser in E. destruct (elements x.2); [done|]. by injection E as <-. }
  unfold onlineUser at 1. cbn. destruct (elements set); [by apply IH|]. cbn. apply NoDup_cons. split; [|by apply IH]. intros Hj. by apply Hi, Hsub.
Qed.

(** ** The spool *)

(** The traffic reports the spool took, the oldest first. *)
Class ReportPlaneLaws (S : Type) `{ReportPlane S} := {
  taken : S → list TrafficReport;
  traffic_taken r s s' : SubmitTraffic r s = (s', true) → taken s' = taken s ++ [r];
  traffic_refused r s s' : SubmitTraffic r s = (s', false) → taken s' = taken s
}.

Section Plane.
Context {S : Type} `{!ReportPlane S, !ReportPlaneLaws S}.

(** The spool took the first [j] reports. *)
Lemma submitRest_spec reports : ∀ s, ∃ j, (j ≤ List.length reports)%nat ∧ taken (submitRest reports s) = taken s ++ take j reports
  ∧ ((∀ r t, (SubmitTraffic r t).2 = true) → j = List.length reports).
Proof.
  induction reports as [|r reports IH]; intros s; cbn [submitRest]; [exists O; by rewrite app_nil_r|].
  destruct (SubmitTraffic r s) as [s1 [|]] eqn:E.
  - destruct (IH s1) as (j & Hj & Ht & Hall). exists (Datatypes.S j). apply traffic_taken in E. split; [cbn; lia|]. split.
    + rewrite Ht, E. cbn. by rewrite <- app_assoc.
    + intros Ha. cbn. by rewrite (Hall Ha).
  - exists O. pose proof (traffic_refused _ _ _ E) as Er. split; [lia|]. split; [by rewrite Er, app_nil_r|]. intros Ha. specialize (Ha r s). by rewrite E in Ha.
Qed.

Lemma submitBatches_spec reports s s' ok : submitBatches reports s = (s', ok) → ∃ j, (j ≤ List.length reports)%nat ∧ taken s' = taken s ++ take j reports
  ∧ (ok = false → j = O) ∧ (ok = true → reports ≠ [] → j ≠ O) ∧ ((∀ r t, (SubmitTraffic r t).2 = true) → j = List.length reports).
Proof.
  destruct reports as [|r reports]; cbn [submitBatches]; [intros [= <- <-]; exists O; by rewrite app_nil_r|].
  destruct (SubmitTraffic r s) as [s1 [|]] eqn:E; intros [= <- <-].
  - destruct (submitRest_spec reports s1) as (j & Hj & Ht & Hall). exists (Datatypes.S j). apply traffic_taken in E. split; [cbn; lia|]. split; [rewrite Ht, E; cbn; by rewrite <- app_assoc|].
    split; [done|]. split; [done|]. intros Ha. cbn. by rewrite (Hall Ha).
  - exists O. pose proof (traffic_refused _ _ _ E) as Er. split; [lia|]. split; [by rewrite Er, app_nil_r|]. split; [done|]. split; [done|]. intros Ha. specialize (Ha r s). by rewrite E in Ha.
Qed.

(** The reports of a window hold its users once, in order. *)
Lemma windowReports_spec traffic merged now : List.concat (RUsers <$> windowReports traffic merged now) = reported traffic
  ∧ Forall (λ r, (List.length (RUsers r) ≤ trafficUsersPerBatch)%nat ∧ ROnline r = merged) (windowReports traffic merged now) ∧ windowReports traffic merged now ≠ [].
Proof.
  unfold windowReports. destruct (chunks_spec trafficUsersPerBatch (reported traffic)) as [Hc Hf]; [unfold trafficUsersPerBatch; lia|].
  destruct (chunks trafficUsersPerBatch (reported traffic)) as [|c cs] eqn:E.
  - cbn in Hc. rewrite <- Hc. cbn. split; [done|]. split; [|done]. constructor; [split; [apply Nat.le_0_l|done]|constructor].
  - split; [|split; [|done]].
    + rewrite <- list_fmap_compose. rewrite <- Hc. f_equal. apply list_fmap_id.
    + apply Forall_fmap. eapply Forall_impl; [exact Hf|]. intros x [_ Hx]. by split.
Qed.

Lemma prepareTraffic_spec c users n n' merged clear : prepareTraffic c users n = (n', (merged, clear)) →
  merged = mergeOnline (online n') ∧ onlineSent n' = onlineSent n ∧ clear = bool_decide (merged = []) && onlineSent n.
Proof. unfold prepareTraffic. cbn. by intros [= <- <- <-]. Qed.

(** C33: a window of traffic is spooled once.  The reports the spool takes of a
    window hold users of the window in order and without repetition, all of them
    when nothing is refused, at most trafficUsersPerBatch in one; each carries
    the online addresses of all controllers; and when an error is answered, so
    that the caller counts the window again, nothing of it was spooled. *)
Theorem traffic_window_once controller traffic users now n s n' s' ok : submitTraffic controller traffic users now n s = (n', s', ok) →
  ∃ new, taken s' = taken s ++ new
    ∧ (∃ rest, reported traffic = List.concat (RUsers <$> new) ++ rest ∧ ((∀ r t, (SubmitTraffic r t).2 = true) → rest = []))
    ∧ Forall (λ r, (List.length (RUsers r) ≤ trafficUsersPerBatch)%nat ∧ ROnline r = mergeOnline (online n')) new
    ∧ (ok = false → new = []) ∧ (ok = true → reported traffic ≠ [] → new ≠ []).
Proof.
  unfold submitTraffic. destruct (prepareTraffic controller users n) as [n1 [merged clear]] eqn:Ep. apply prepareTraffic_spec in Ep as (Hm & _ & _).
  destruct (bool_decide (reported traffic = []) && bool_decide (merged = []) && negb clear) eqn:Eq.
  { intros [= <- <- <-]. rewrite !andb_true_iff, !bool_decide_eq_true in Eq. destruct Eq as [[Er _] _]. exists []. rewrite app_nil_r, Er. split; [done|]. split; [by exists []|]. done. }
  destruct (submitBatches (windowReports traffic merged now) s) as [s1 b] eqn:Es.
  assert (∃ new, taken s1 = taken s ++ new ∧ (∃ rest, reported traffic = List.concat (RUsers <$> new) ++ rest ∧ ((∀ r t, (SubmitTraffic r t).2 = true) → rest = []))
    ∧ Forall (λ r, (List.length (RUsers r) ≤ trafficUsersPerBatch)%nat ∧ ROnline r = merged) new ∧ (b = false → new = []) ∧ (b = true → new ≠ [])) as (new & Ht & Hr & Hf & Hfa & Htr).
  { destruct (submitBatches_spec _ _ _ _ Es) as (j & Hj & Ht & H0 & H1 & Hall). destruct (windowReports_spec traffic merged now) as (Hc & Hf & Hne).
    set (rs := windowReports traffic merged now) in *. exists (take j rs). split; [done|]. split.
    { exists (List.concat (RUsers <$> drop j rs)). rewrite <- concat_app, <- fmap_app, take_drop. split; [done|]. intros Ha. rewrite drop_ge; [done|]. by rewrite (Hall Ha). }
    split; [by apply Forall_take|]. split; [intros E; by rewrite (H0 E)|]. intros E. specialize (H1 E Hne). destruct rs; [done|]. by destruct j. }
  destruct b; intros [= <- <- <-]; (exists new; split; [done|]; split; [done|]; split; [|split; [done|]; intros E _; by apply Htr]); rewrite Hm in Hf; exact Hf.
Qed.

(** ** The addresses Control has *)

(** Control replaces a node's online users with each report. *)
Definition controlOnline (s : S) : list OnlineUser := default [] (ROnline <$> last (taken s)).

Lemma controlOnline_app s s' new m : taken s' = taken s ++ new → new ≠ [] → Forall (λ r, ROnline r = m) new → controlOnline s' = m.
Proof.
  intros Ht Hn Hf. unfold controlOnline. rewrite Ht. destruct (exists_last Hn) as (l & r & ->). rewrite app_assoc, last_snoc. cbn.
  apply Forall_app in Hf as [_ Hf]. by apply Forall_cons in Hf as [? _].
Qed.

(** What happens to a node's reports: its controllers report and are closed. *)
Inductive reporting : NodePlane * S → Prop :=
| reporting_start s : taken s = [] → reporting (mkPlane ∅ false [] None None false, s)
| reporting_traffic c traffic users now n s : reporting (n, s) → reporting (submitTraffic c traffic users now n s).1
| reporting_forget c n s : reporting (n, s) → reporting (forgetController c n, s).

Lemma submitted_online c traffic users now n s n' s' ok : onlineSent n = negb (bool_decide (controlOnline s = [])) →
  submitTraffic c traffic users now n s = (n', s', ok) →
  onlineSent n' = negb (bool_decide (controlOnline s' = [])) ∧ (ok = true → controlOnline s' = mergeOnline (online n')).
Proof.
  intros Hs. unfold submitTraffic. destruct (prepareTraffic c users n) as [n1 [merged clear]] eqn:Ep. apply prepareTraffic_spec in Ep as (Hm & Ho & Hc).
  destruct (bool_decide (reported traffic = []) && bool_decide (merged = []) && negb clear) eqn:Eq.
  { intros [= <- <- <-]. rewrite !andb_true_iff, !bool_decide_eq_true, negb_true_iff in Eq. destruct Eq as [[_ Em] Ec]. rewrite Ec in Hc. symmetry in Hc.
    rewrite bool_decide_eq_true_2 in Hc by done. cbn in Hc. split; [congruence|]. intros _. rewrite <- Hm, Em. rewrite Hc in Hs. symmetry in Hs. apply negb_false_iff, bool_decide_eq_true in Hs. done. }
  destruct (submitBatches (windowReports traffic merged now) s) as [s1 b] eqn:Es.
  destruct (submitBatches_spec _ _ _ _ Es) as (j & Hj & Ht & H0 & H1 & _). destruct (windowReports_spec traffic merged now) as (_ & Hf & Hne).
  destruct b; intros [= <- <- <-]; cbn.
  - assert (controlOnline s1 = merged) as ->.
    { apply (controlOnline_app s s1 _ merged Ht); [specialize (H1 eq_refl Hne); destruct (windowReports traffic merged now); [done|]; by destruct j|].
      apply Forall_take. eapply Forall_impl; [exact Hf|]. by intros r [_ ?]. }
    by rewrite <- Hm.
  - assert (controlOnline s1 = controlOnline s) as -> by (unfold controlOnline; rewrite Ht, (H0 eq_refl); cbn; by rewrite app_nil_r). split; [congruence|done].
Qed.

Lemma reporting_sent x : reporting x → onlineSent x.1 = negb (bool_decide (controlOnline x.2 = [])).
Proof.
  induction 1 as [s Hs|c traffic users now n s _ IH|c n s _ IH]; [cbn; unfold controlOnline; by rewrite Hs| |done].
  destruct (submitTraffic c traffic users now n s) as [[n' s'] ok] eqn:E. by apply (submitted_online _ _ _ _ _ _ _ _ _ IH E).
Qed.

(** Control's online users of a node are those of its controllers.  After a
    window that was spooled, whatever windows, failures and closed controllers
    came before, the last report the spool took names exactly the addresses the
    controllers have, each user once, also when there are none any more. *)
Theorem control_has_online c traffic users now n s n' s' uid a : reporting (n, s) → submitTraffic c traffic users now n s = (n', s', true) →
  NoDup (OUser <$> controlOnline s') ∧ ((∃ u, u ∈ controlOnline s' ∧ OUser u = uid ∧ a ∈ Ips u) ↔ onlineAt (online n') uid a).
Proof.
  intros Hr%reporting_sent Hs. destruct (submitted_online _ _ _ _ _ _ _ _ _ Hr Hs) as [_ Ho]. rewrite (Ho eq_refl).
  split; [apply mergeOnline_users|apply mergeOnline_exact].
Qed.

End Plane.

(** ** A spool *)

Module Witness.

(** Reports taken, and the answers to the next submissions (then all are
    taken). *)
Abbreviation Spooled := (list TrafficReport * list bool)%type.

#[export] Instance spooled : ReportPlane Spooled := {
  SubmitTraffic r s := match s.2 with false :: a => ((s.1, a), false) | true :: a => ((s.1 ++ [r], a), true) | [] => ((s.1 ++ [r], []), true) end;
  SubmitDestinations _ s := (s, true);
  SubmitLogs _ s := (s, true)
}.

#[export] Instance spooled_laws : ReportPlaneLaws Spooled.
Proof.
  apply (Build_ReportPlaneLaws Spooled _ fst).
  - intros r [l [|[] a]] s'; cbn; by intros [= <-].
  - intros r [l [|[] a]] s'; cbn; by intros [= <-].
Defined.

Definition plane : NodePlane := mkPlane ∅ false [] None None false.
Definition at_ip (uid : Z) (a : string) : Online := {[ uid := [a] ]}.
Definition window : list UserTraffic := [mkTraffic 7 100 20; mkTraffic 0 5 5; mkTraffic 8 0 0; mkTraffic 9 (-1) 3].

Abbreviation online1 := (submitTraffic 1 window (at_ip 7 " 192.0.2.1 ") 5 plane (([], []) : Spooled)).
Abbreviation cleared := (submitTraffic 1 [] ∅ 6 online1.1.1 online1.1.2).

Example window_reported : taken online1.1.2 = [mkReport [mkTraffic 7 100 20; mkTraffic 9 0 3] [mkOnline 7 ["192.0.2.1"]] 5]
  ∧ controlOnline cleared.1.2 = [] ∧ List.length (taken cleared.1.2) = 2%nat.
Proof. split; [|split]; vm_compute; reflexivity. Qed.

(** Two controllers report at once: the report computed first is spooled last,
    and that there is nothing online is recorded last, so that what Control has
    is not cleared by the windows that follow. *)
Example overlapping_reports :
  let start := (submitTraffic 2 [] (at_ip 7 "192.0.2.1") 5 plane (([], []) : Spooled)).1 in
  let '(n, (merged1, _)) := prepareTraffic 1 ∅ start.1 in
  let '(n, (merged2, clear2)) := prepareTraffic 2 ∅ n in
  let '(s, _) := submitBatches (windowReports [] merged2 6) start.2 in
  let '(s, _) := submitBatches (windowReports [mkTraffic 7 1 1] merged1 6) s in
  let n := set_sent (set_sent n (negb (bool_decide (merged1 = [])))) (negb (bool_decide (merged2 = []))) in
  let later := submitTraffic 2 [] ∅ 9 n s in
  clear2 = true ∧ mergeOnline (online later.1.1) = [] ∧ controlOnline later.1.2 = [mkOnline 7 ["192.0.2.1"]].
Proof. vm_compute. done. Qed.

Lemma traffic_window_once_witness : ∃ new, taken online1.1.2 = [] ++ new ∧ new ≠ [] ∧ Forall (λ r, ROnline r = mergeOnline (online online1.1.1)) new.
Proof.
  destruct (traffic_window_once 1 window (at_ip 7 " 192.0.2.1 ") 5 plane (([], []) : Spooled) online1.1.1 online1.1.2 true) as (new & Ht & _ & Hf & _ & Hn); [vm_compute; reflexivity|].
  exists new. split; [exact Ht|]. split; [apply Hn; [reflexivity|vm_compute; discriminate]|]. eapply Forall_impl; [exact Hf|]. intros r [_ Hr]. exact Hr.
Defined.

Lemma control_has_online_witness : NoDup (OUser <$> controlOnline cleared.1.2) ∧ ¬ onlineAt (online cleared.1.1) 7 "192.0.2.1".
Proof.
  assert (reporting (online1.1.1, online1.1.2)) as Hr.
  { assert (reporting (plane, (([], []) : Spooled))) as H0 by (apply reporting_start; reflexivity).
    pose proof (reporting_traffic 1 window (at_ip 7 " 192.0.2.1 ") 5 _ _ H0) as H1. rewrite (surjective_pairing online1.1) in H1. exact H1. }
  destruct (control_has_online 1 [] ∅ 6 online1.1.1 online1.1.2 cleared.1.1 cleared.1.2 7 "192.0.2.1" Hr) as [H1 H2]; [vm_compute; reflexivity|].
  split; [exact H1|]. intros Ho. apply H2 in Ho as (u & Hu & _).
  assert (controlOnline cleared.1.2 = []) as E by (vm_compute; reflexivity). rewrite E in Hu. by apply not_elem_of_nil in Hu.
Defined.

End Witness.

End NodeReporting.
