(* ===== verification/NetworkRoute.v ===== *)
(** * Policy routing (networkroute/networkroute.go)

    The routing an egress with an address of its own needs: a table with the
    default route of its line, a rule that sends its source there, and rules
    for the peers of the transports that leave by it.  [Routes] derives them
    from the plan, [Apply] makes the rules of the Agent's range on the host
    exactly these with the ip command. *)

From S2P Require Import Prelude GoStrings GoNet NetworkPlan.
From Stdlib Require Import Ascii String.

Module NetworkRoute.
Import GoNet NetworkPlan.

(** ** Routes *)

Record Route := mkRoute {
  REgress : string; RSource : Addr; RInterface : string; RGateway : option Addr; Table : Z; Priority : Z;
  To : list Prefix; ToPriority : Z
}.

#[export] Instance Route_eq_dec : EqDecision Route.
Proof. solve_decision. Defined.

Definition SourceAuto : string := "auto".

Definition family (r : Route) : string := if Is4 (RSource r) then "-4" else "-6".

Definition from (r : Route) : string := prefix_string (host_prefix (RSource r)).

Definition set_numbers (r : Route) (table priority : Z) : Route :=
  mkRoute (REgress r) (RSource r) (RInterface r) (RGateway r) table priority (To r) (ToPriority r).
Definition set_to (r : Route) (to : list Prefix) (priority : Z) : Route :=
  mkRoute (REgress r) (RSource r) (RInterface r) (RGateway r) (Table r) (Priority r) to priority.

(** The variables of the first loop of [Routes]. *)
Record Draft := mkDraft {
  routes : list Route; tables : gset Z; priorities : gset Z; shared : gmap string nat; routeOf : gmap string nat
}.

(** A source that leaves through the default route. *)
Definition unrouted (e : Egress) : bool := String.eqb (Source e) "" || String.eqb (Source e) SourceAuto.

(** The gateway's text: the egress's own, or the line's of the family. *)
Definition gatewayOf (e : Egress) (line : Line) (source : Addr) : string :=
  if negb (String.eqb (EgressGateway e) "") then EgressGateway e
  else if Is4 source then GatewayV4 line else GatewayV6 line.

Definition outside (first last number : Z) : bool := negb (number =? 0) && ((number <? first) || (last <? number)).

(** The route of one egress. *)
Definition routeFor (lines : gmap string Line) (first last : Z) (e : Egress) : result Route :=
  match ParseAddr (Source e) with
  | None => Err "source"
  | Some address =>
    let line := default noLine (lines !! EgressLine e) in
    if String.eqb (Interface line) "" then Err "no interface"
    else
      let source := Unmap address in
      let text := gatewayOf e line source in
      let finish (gateway : option Addr) :=
        if outside first last (RoutingTable e) || outside first last (RulePriority e) then Err "outside the range"
        else Ok (mkRoute (EgressId e) source (Interface line) gateway (RoutingTable e) (RulePriority e) [] 0) in
      if String.eqb text "" then finish None
      else match ParseAddr text with None => Err "gateway" | Some g => finish (Some g) end
  end.

Definition gateway_text (g : option Addr) : string := match g with Some a => addr_string a | None => "invalid IP" end.

Definition routeKey (r : Route) : string :=
  addr_string (RSource r) +:+ "|" +:+ RInterface r +:+ "|" +:+ gateway_text (RGateway r).

(** A number an egress names is taken. *)
Definition name (n : Z) (used : gset Z) : gset Z := if n =? 0 then used else {[n]} ∪ used.

Definition addRoute (e : Egress) (r : Route) (d : Draft) : Draft :=
  let i := List.length (routes d) in
  let unnamed := (Table r =? 0) && (Priority r =? 0) in
  let tables := name (Table r) (tables d) in
  let priorities := name (Priority r) (priorities d) in
  match (if unnamed then shared d !! routeKey r else None) with
  | Some j => mkDraft (routes d) tables priorities (shared d) (<[EgressId e := j]> (routeOf d))
  | None => mkDraft (routes d ++ [r]) tables priorities (if unnamed then <[routeKey r := i]> (shared d) else shared d)
              (<[EgressId e := i]> (routeOf d))
  end.

Definition draftStep (lines : gmap string Line) (first last : Z) (d : result Draft) (e : Egress) : result Draft :=
  let? d := d in
  if unrouted e then Ok d
  else let? r := routeFor lines first last e in Ok (addRoute e r d).

(** ** The peers of transports *)

Section Peers.

(** [LookupHost] by host; the order in which a map is ranged over. *)
Variable LookupHost : string → option (list Addr).
Variable ranged : gmap string (list Prefix) → list (string * list Prefix).

(** One carrier address of a transport. *)
Definition peerStep (t : Transport) (peers : result (gmap string (list Prefix))) (address : string) : result (gmap string (list Prefix)) :=
  let? peers := peers in
  if String.eqb address "" then Ok peers
  else match SplitHostPort address with
       | None => Err "address"
       | Some (host, _) =>
         match (match ParseAddr host with Some ip => Some [ip] | None => LookupHost host end) with
         | None => Ok peers
         | Some [] => Ok peers
         | Some addrs => Ok (<[FromEgressId t := default [] (peers !! FromEgressId t) ++ ((host_prefix ∘ Unmap) <$> addrs)]> peers)
         end
       end.

Definition dialsFrom (t : Transport) : option AnxLineSettings :=
  if negb (bool_decide (TransportRole t = Dial)) || String.eqb (FromEgressId t) "" then None
  else match AnxLine t with Some a => if Reverse a then None else Some a | None => None end.

Definition transportPeers (plan : Plan) : result (gmap string (list Prefix)) :=
  foldl (λ peers t, match dialsFrom t with
                    | None => peers
                    | Some a => foldl (peerStep t) peers [TcpAddr a; QuicAddr a; FaketcpAddr a]
                    end) (Ok ∅) (Transports plan).

(** One prefix goes to a route of its family, once. *)
Definition addPeer (last : Z) (i : nat) (rs : list Route) (p : Prefix) : list Route :=
  match rs !! i with
  | Some r => if Bool.eqb (Is4 (pAddr p)) (Is4 (RSource r)) && negb (bool_decide (p ∈ To r)) then <[i := set_to r (To r ++ [p]) last]> rs else rs
  | None => rs
  end.

Definition addPeers (last : Z) (routeOf : gmap string nat) (rs : list Route) (entry : string * list Prefix) : list Route :=
  match routeOf !! entry.1 with
  | None => rs
  | Some i => foldl (addPeer last i) rs entry.2
  end.

Definition sortTo (r : Route) : Route := set_to r (sort_by (λ a b, addr_le (pAddr a) (pAddr b)) (To r)) (ToPriority r).

(** ** Numbers *)

(** [next]: the lowest number of the range that is not used.  (The loop of the
    source ends for every range below the last uint32.) *)
Definition next (first last : Z) (used : gset Z) : result (Z * gset Z) :=
  match list_find (λ n, n ∉ used) (seqZ first (last - first + 1)) with
  | Some (_, n) => Ok (n, {[n]} ∪ used)
  | None => Err "the routing range is full"
  end.

(** A number that is not named is the next one. *)
Definition number (first last n : Z) (used : gset Z) : result (Z * gset Z) :=
  if n =? 0 then next first last used else Ok (n, used).

Fixpoint allocate (first last : Z) (rs : list Route) (tables priorities : gset Z) : result (list Route) :=
  match rs with
  | [] => Ok []
  | r :: rs =>
    let? t := number first last (Table r) tables in
    let? p := number first last (Priority r) priorities in
    let? rest := allocate first last rs t.2 p.2 in
    Ok (set_numbers r t.1 p.1 :: rest)
  end.

Definition Routes (plan : Plan) (first last : Z) : result (list Route) :=
  let lines := keyed LineId (Lines plan) in
  let? d := foldl (draftStep lines first last) (Ok (mkDraft [] ∅ {[last]} ∅ ∅)) (Egresses plan) in
  let? peers := transportPeers plan in
  let rs := foldl (addPeers last (routeOf d)) (routes d) (ranged peers) in
  let rs := sort_by (λ a b, str_le (REgress a) (REgress b)) (sortTo <$> rs) in
  allocate first last rs (tables d) (priorities d).

End Peers.

(** ** Rules on the host *)

(** A rule of `ip -j rule show`. *)
Record rule := mkRule { rPriority : Z; Src : string; SrcLen : Z; Dst : string; DstLen : Z; rTable : string }.

#[export] Instance rule_eq_dec : EqDecision rule.
Proof. solve_decision. Defined.

Definition ruleKey (priority : Z) (from to table : string) : string :=
  format_uint priority +:+ " " +:+ from +:+ " " +:+ to +:+ " " +:+ table.

(** The selectors of a listed rule. *)
Definition with_len (s : string) (n : Z) : string := if negb (String.eqb s "") && (0 <? n) then s +:+ "/" +:+ itoa n else s.
Definition toOf (x : rule) : string := with_len (Dst x) (DstLen x).
Definition fromOf (x : rule) : string :=
  let from := with_len (Src x) (SrcLen x) in
  if negb (String.eqb (toOf x) "") && String.eqb from "all" then "" else from.
Definition keyOf (x : rule) : string := ruleKey (rPriority x) (fromOf x) (toOf x) (rTable x).

Definition option_arg (flag value : string) : list string := if String.eqb value "" then [] else [flag; value].

Definition deleteArgs (family : string) (x : rule) : list string :=
  [family; "rule"; "delete"; "priority"; format_uint (rPriority x)]
  ++ option_arg "from" (fromOf x) ++ option_arg "to" (toOf x) ++ option_arg "table" (rTable x).

Definition showArgs (family : string) : list string := ["-j"; family; "rule"; "show"].
Definition flushArgs (family table : string) : list string := [family; "route"; "flush"; "table"; table].
Definition addArgs (family kind prefix table : string) (priority : Z) : list string :=
  [family; "rule"; "add"; kind; prefix; "table"; table; "priority"; format_uint priority].
Definition tableOf (r : Route) : string := format_uint (Table r).
Definition replaceArgs (family : string) (r : Route) : list string :=
  [family; "route"; "replace"; "default"]
  ++ match RGateway r with Some g => ["via"; addr_string g] | None => [] end
  ++ ["dev"; RInterface r; "src"; addr_string (RSource r); "table"; tableOf r].

(** A rule the plan wants: its priority, selectors and table. *)
Definition wantedOf (r : Route) : list (Z * string * string * string) :=
  (Priority r, from r, "", tableOf r) :: ((λ p, (ToPriority r, "", prefix_string p, tableOf r)) <$> To r).
Definition wantedKey (w : Z * string * string * string) : string := let '(p, f, t, table) := w in ruleKey p f t table.
Definition ofFamily (f : string) (rs : list Route) : list Route := filter (λ r, family r = f) rs.
Definition wanted (f : string) (rs : list Route) : list (Z * string * string * string) := ofFamily f rs ≫= wantedOf.

Section Manager.

(** The host behind the ip command: it answers the output, or nothing when the
    command fails. *)
Variable K : Type.
Variable ip : list string → K → K * option string.
Variable decodeRules : string → option (list rule).
Variables First Last : Z.

Definition owns (n : Z) : bool := (First <=? n) && (n <=? Last).

Definition rules (f : string) (k : K) : K * option (list rule) :=
  match ip (showArgs f) k with
  | (k, None) => (k, None)
  | (k, Some out) =>
    (k, (λ all, filter (λ x, owns (rPriority x) = true) all) <$> (if String.eqb (trim_space out) "" then Some [] else decodeRules out))
  end.

(** A command whose failure is remembered. *)
Definition try (args : list string) (s : K * bool) : K * bool :=
  match ip args s.1 with (k, Some _) => (k, s.2) | (k, None) => (k, false) end.

(** A table of the range that no route wants. *)
Definition staleTable (wantedTables : gset string) (x : rule) : bool :=
  match parse_uint (rTable x) with
  | Some n => (n <? 2 ^ 32) && owns n && negb (bool_decide (rTable x ∈ wantedTables))
  | None => false
  end.

(** One listed rule: wanted ones stay, others go with their table. *)
Definition sweep (f : string) (wantedKeys wantedTables : gset string) (s : (K * bool) * gset string) (x : rule) : (K * bool) * gset string :=
  if bool_decide (keyOf x ∈ wantedKeys) then (s.1, {[keyOf x]} ∪ s.2)
  else
    let k := try (deleteArgs f x) s.1 in
    ((if staleTable wantedTables x then try (flushArgs f (rTable x)) k else k), s.2).

Definition addMissing (f kind prefix : string) (w : Z * string * string * string) (present : gset string) (s : K * bool) : K * bool :=
  if bool_decide (wantedKey w ∈ present) then s else try (addArgs f kind prefix w.2 w.1.1.1) s.

(** One route: its table's default route, then its rules. *)
Definition install (f : string) (present : gset string) (s : K * bool) (r : Route) : K * bool :=
  match ip (replaceArgs f r) s.1 with
  | (k, None) => (k, false)
  | (k, Some _) =>
    let s := addMissing f "from" (from r) (Priority r, from r, "", tableOf r) present (k, s.2) in
    foldl (λ s p, addMissing f "to" (prefix_string p) (ToPriority r, "", prefix_string p, tableOf r) present s) s (To r)
  end.

Definition applyFamily (rs : list Route) (s : K * bool) (f : string) : (K * bool) * bool :=
  match rules f s.1 with
  | (k, None) => ((k, s.2), false)
  | (k, Some current) =>
    let s := foldl (sweep f (list_to_set (wantedKey <$> wanted f rs)) (list_to_set (tableOf <$> ofFamily f rs))) ((k, s.2), ∅) current in
    (foldl (install f s.2) s.1 (ofFamily f rs), true)
  end.

(** [Apply]: whether it ends without an error. *)
Definition Apply (rs : list Route) (k : K) : K * bool :=
  match applyFamily rs (k, true) "-4" with
  | (s, false) => (s.1, false)
  | (s, true) => match applyFamily rs s "-6" with
                 | (s, false) => (s.1, false)
                 | (s, true) => s
                 end
  end.

End Manager.

End NetworkRoute.
