(* ===== verification/NetworkRouting.v ===== *)
(** * Policy routing: the routes of a plan

    Numbers of the range are given out without a clash, every egress with an
    address of its own is served, and the routes do not depend on the order in
    which Go ranges over the peers. *)

From S2P Require Import Prelude GoStrings GoNet NetworkPlan NetworkRoute.
From Stdlib Require Import Ascii String.

Module NetworkRouting.
Import GoNet NetworkPlan NetworkRoute.

(** ** Numbers *)

Section Numbers.
Variables first last : Z.

Lemma next_spec used n used' : next first last used = Ok (n, used') → (first ≤ n ≤ last) ∧ (n ∉ used) ∧ used' = {[n]} ∪ used.
Proof.
  unfold next. destruct (list_find _ _) as [[i m]|] eqn:E; [|done]. intros [= <- <-].
  apply list_find_Some in E as (Hm & Hn & _). apply lookup_seqZ in Hm. split; [lia|done].
Qed.

(** The lowest number that is free is found when there is one. *)
Lemma next_total used n : first ≤ n ≤ last → n ∉ used → ∃ m, next first last used = Ok (m, {[m]} ∪ used) ∧ m ≤ n.
Proof.
  intros Hn Hu. unfold next. destruct (list_find _ _) as [[i m]|] eqn:E.
  - exists m. split; [done|]. apply list_find_Some in E as (Hm & _ & Hmin). apply lookup_seqZ in Hm as [-> Hm].
    apply Z.nlt_ge. intros Hlt. apply (Hmin (Z.to_nat (n - first)) n); [apply lookup_seqZ; lia|lia|done].
  - exfalso. apply list_find_None in E. rewrite Forall_forall in E. apply (E n); [apply elem_of_seqZ; lia|done].
Qed.

(** Numbers [ns], of which 0 stands for any, become [ns'] beside the used ones. *)
Inductive filled : list Z → gset Z → list Z → Prop :=
| filled_nil used : filled [] used []
| filled_named n ns used ns' : n ≠ 0 → filled ns used ns' → filled (n :: ns) used (n :: ns')
| filled_fresh n ns used ns' : first ≤ n ≤ last → n ∉ used → filled ns ({[n]} ∪ used) ns' → filled (0 :: ns) used (n :: ns').

Lemma filled_fresh_new ns used ns' : filled ns used ns' → ∀ i n, ns !! i = Some 0 → ns' !! i = Some n → first ≤ n ≤ last ∧ n ∉ used.
Proof.
  induction 1 as [|n ns used ns' Hn _ IH|m ns used ns' Hm Hu _ IH]; intros [|i] k; cbn; try done; [congruence|apply IH|by intros _ [= <-]|].
  intros Hi Hk. destruct (IH i k Hi Hk). set_solver.
Qed.

Lemma filled_keeps ns used ns' : filled ns used ns' → ∀ i n, ns !! i = Some n → n ≠ 0 → ns' !! i = Some n.
Proof. induction 1; intros [|i] k; cbn; naive_solver. Qed.

Lemma filled_length ns used ns' : filled ns used ns' → List.length ns' = List.length ns.
Proof. induction 1; cbn; congruence. Qed.

(** Two places have the same number only when both name it. *)
Lemma filled_unique ns used ns' : filled ns used ns' → Forall (λ n, n = 0 ∨ n ∈ used) ns →
  ∀ i j n, i ≠ j → ns' !! i = Some n → ns' !! j = Some n → ns !! i = Some n ∧ ns !! j = Some n ∧ n ≠ 0.
Proof.
  intros Hf. induction Hf as [|n ns used ns' Hn Hf IH|m ns used ns' Hm Hu Hf IH]; intros Hns; [done|..]; apply Forall_cons in Hns as [Hhd Hns].
  - assert (∀ j, ns' !! j = Some n → ns !! j = Some n) as Hj.
    { intros j Hj. destruct (ns !! j) as [k|] eqn:E.
      - destruct (decide (k = 0)) as [->|Hk]; [|pose proof (filled_keeps _ _ _ Hf j k E Hk); congruence].
        destruct (filled_fresh_new _ _ _ Hf j n E Hj). naive_solver.
      - apply lookup_lt_Some in Hj. rewrite (filled_length _ _ _ Hf) in Hj. apply lookup_lt_is_Some in Hj as [? ?]. congruence. }
    intros [|i] [|j] k Hij; cbn; [done| | |].
    + intros [= <-] Hk. split; [done|]. split; [by apply Hj|done].
    + intros Hk [= <-]. split; [by apply Hj|done].
    + apply IH; [done|congruence].
  - assert (Forall (λ n, n = 0 ∨ n ∈ ({[m]} ∪ used)) ns) as Hns' by (eapply Forall_impl; [exact Hns|set_solver]).
    assert (∀ j, ns' !! j = Some m → False) as Hj.
    { intros j Hj. destruct (ns !! j) as [k|] eqn:E.
      - destruct (decide (k = 0)) as [->|Hk].
        + destruct (filled_fresh_new _ _ _ Hf j m E Hj). set_solver.
        + pose proof (filled_keeps _ _ _ Hf j k E Hk) as Hk'. rewrite Forall_lookup in Hns. destruct (Hns j k E); naive_solver.
      - apply lookup_lt_Some in Hj. rewrite (filled_length _ _ _ Hf) in Hj. apply lookup_lt_is_Some in Hj as [? ?]. congruence. }
    intros [|i] [|j] k Hij; cbn; [done| | |].
    + intros [= <-] Hk. by destruct (Hj j).
    + intros Hk [= <-]. by destruct (Hj i).
    + apply IH; [done|congruence].
Qed.

Lemma number_filled n used m used' ns ns' : number first last n used = Ok (m, used') → filled ns used' ns' → filled (n :: ns) used (m :: ns').
Proof.
  unfold number. destruct (Z.eqb_spec n 0) as [->|Hn].
  - intros (Hm & Hu & ->)%next_spec Hf. by constructor.
  - intros [= <- <-] Hf. by constructor.
Qed.

(** What [allocate] does to the routes. *)
Lemma allocate_filled rs : ∀ T P rs', allocate first last rs T P = Ok rs' →
  filled (Table <$> rs) T (Table <$> rs') ∧ filled (Priority <$> rs) P (Priority <$> rs')
  ∧ Forall2 (λ r r', r' = set_numbers r (Table r') (Priority r')) rs rs'.
Proof.
  induction rs as [|r rs IH]; intros T P rs'; cbn; [intros [= <-]; cbn; split; [|split]; constructor|].
  destruct (number _ _ (Table r) T) as [[t T']|] eqn:Et; [|done]. cbn.
  destruct (number _ _ (Priority r) P) as [[p P']|] eqn:Ep; [|done]. cbn.
  destruct (allocate _ _ rs T' P') as [rest|] eqn:Er; [|done]. intros [= <-]. destruct (IH _ _ _ Er) as (Ht & Hp & Hr).
  split; [by apply (number_filled _ _ _ _ _ _ Et)|]. split; [by apply (number_filled _ _ _ _ _ _ Ep)|]. by constructor.
Qed.

End Numbers.

(** ** Drafts *)

Section Drafts.
Variable lines : gmap string Line.
Variables first last : Z.

Abbreviation routeFor := (routeFor lines first last).

Lemma outside_false n : outside first last n = false → n ≠ 0 → first ≤ n ≤ last.
Proof. unfold outside. destruct (Z.eqb_spec n 0), (Z.ltb_spec n first), (Z.ltb_spec last n); try done; lia. Qed.

Lemma routeFor_spec e r : routeFor e = Ok r →
  REgress r = EgressId e ∧ Table r = RoutingTable e ∧ Priority r = RulePriority e ∧ To r = [] ∧ ToPriority r = 0
  ∧ (RoutingTable e ≠ 0 → first ≤ RoutingTable e ≤ last) ∧ (RulePriority e ≠ 0 → first ≤ RulePriority e ≤ last).
Proof.
  unfold NetworkRoute.routeFor. destruct (ParseAddr (Source e)) as [a|]; [|done]. destruct (String.eqb (Interface _) ""); [done|].
  intros Hr. assert (∀ g, (if outside first last (RoutingTable e) || outside first last (RulePriority e) then Err "outside the range"
     else Ok (mkRoute (EgressId e) (Unmap a) (Interface (default noLine (lines !! EgressLine e))) g (RoutingTable e) (RulePriority e) [] 0)) = Ok r →
    REgress r = EgressId e ∧ Table r = RoutingTable e ∧ Priority r = RulePriority e ∧ To r = [] ∧ ToPriority r = 0
    ∧ (RoutingTable e ≠ 0 → first ≤ RoutingTable e ≤ last) ∧ (RulePriority e ≠ 0 → first ≤ RulePriority e ≤ last)) as Hfin.
  { intros g. destruct (outside _ _ _ || _) eqn:E; [done|]. intros [= <-]. cbn. apply orb_false_iff in E as [E1 E2].
    repeat split; by apply outside_false. }
  destruct (String.eqb _ ""); [by eapply Hfin|]. destruct (ParseAddr _); [by eapply Hfin|done].
Qed.

(** The draft after the egresses [seen]. *)
Record drafted (seen : list Egress) (d : Draft) : Prop := {
  d_from : ∀ r, r ∈ routes d → ∃ e, e ∈ seen ∧ unrouted e = false ∧ routeFor e = Ok r;
  d_tables : ∀ e, e ∈ seen → unrouted e = false → RoutingTable e = 0 ∨ RoutingTable e ∈ tables d;
  d_priorities : ∀ e, e ∈ seen → unrouted e = false → RulePriority e = 0 ∨ RulePriority e ∈ priorities d;
  d_last : last ∈ priorities d;
  d_shared : ∀ key i, shared d !! key = Some i → ∃ r, routes d !! i = Some r ∧ routeKey r = key;
  d_served : ∀ e, e ∈ seen → unrouted e = false → ∃ r0 r, routeFor e = Ok r0 ∧ r ∈ routes d ∧ routeKey r = routeKey r0
    ∧ (RoutingTable e ≠ 0 ∨ RulePriority e ≠ 0 → r = r0)
}.

Lemma drafted_start : drafted [] (mkDraft [] ∅ {[last]} ∅ ∅).
Proof. split; cbn; set_solver. Qed.

Lemma drafted_skip seen d e : drafted seen d → unrouted e = true → drafted (seen ++ [e]) d.
Proof.
  intros Hd He.
  assert (∀ x, x ∈ seen ++ [e] → unrouted x = false → x ∈ seen) as Hin.
  { intros x Hx Hu. apply elem_of_app in Hx as [Hx|Hx%list_elem_of_singleton]; [done|congruence]. }
  split; [|intros; eapply Hd; eauto..|apply Hd|apply Hd|intros; eapply Hd; eauto].
  intros r Hr. destruct (d_from _ _ Hd r Hr) as (x & Hx & ?). exists x. split; [|done]. apply elem_of_app. by left.
Qed.

Lemma elem_of_name n m used : n ∈ name m used ↔ (n = m ∧ m ≠ 0) ∨ n ∈ used.
Proof. unfold name. destruct (Z.eqb_spec m 0); set_solver. Qed.

Lemma drafted_add seen d e r : drafted seen d → unrouted e = false → routeFor e = Ok r → drafted (seen ++ [e]) (addRoute e r d).
Proof.
  intros Hd He Hr. destruct (routeFor_spec e r Hr) as (_ & Ht & Hp & _).
  assert (∀ d', tables d' = name (Table r) (tables d) → priorities d' = name (Priority r) (priorities d) →
    (∀ x, x ∈ routes d' → x ∈ routes d ∨ x = r) → (∀ x, x ∈ routes d → x ∈ routes d') →
    (∀ key i, shared d' !! key = Some i → ∃ r, routes d' !! i = Some r ∧ routeKey r = key) →
    (∃ x, x ∈ routes d' ∧ routeKey x = routeKey r ∧ (RoutingTable e ≠ 0 ∨ RulePriority e ≠ 0 → x = r)) → drafted (seen ++ [e]) d') as Hgo.
  { intros d' ETs EPs Hrs Hold Hsh Hme. split; [| | | |done|].
    - intros x Hx. destruct (Hrs x Hx) as [Hx'| ->].
      + destruct (d_from _ _ Hd x Hx') as (y & Hy & ?). exists y. split; [apply elem_of_app; by left|done].
      + exists e. split; [apply elem_of_app; right; by apply list_elem_of_singleton|done].
    - intros x Hx Hu. rewrite ETs, elem_of_name. apply elem_of_app in Hx as [Hx|Hx%list_elem_of_singleton].
      + destruct (d_tables _ _ Hd x Hx Hu); auto.
      + subst x. destruct (decide (RoutingTable e = 0)); [by left|]. right. left. by rewrite Ht.
    - intros x Hx Hu. rewrite EPs, elem_of_name. apply elem_of_app in Hx as [Hx|Hx%list_elem_of_singleton].
      + destruct (d_priorities _ _ Hd x Hx Hu); auto.
      + subst x. destruct (decide (RulePriority e = 0)); [by left|]. right. left. by rewrite Hp.
    - rewrite EPs, elem_of_name. right. apply (d_last _ _ Hd).
    - intros x Hx Hu. apply elem_of_app in Hx as [Hx|Hx%list_elem_of_singleton].
      + destruct (d_served _ _ Hd x Hx Hu) as (r0 & r1 & H0 & H1 & ?). exists r0, r1. auto.
      + subst x. destruct Hme as (x & Hx & Hk & Hx'). by exists r, x. }
  unfold addRoute. destruct (if _ && _ then shared d !! routeKey r else None) as [j|] eqn:Es.
  - destruct ((Table r =? 0) && (Priority r =? 0)) eqn:Eu; [|done]. apply andb_true_iff in Eu as [E1%Z.eqb_eq E2%Z.eqb_eq].
    destruct (d_shared _ _ Hd _ _ Es) as (x & Hx & Hk).
    apply Hgo; [done|done|by left|done|apply (d_shared _ _ Hd)|].
    exists x. split; [by eapply list_elem_of_lookup_2|]. split; [done|]. rewrite <- Ht, <- Hp. naive_solver.
  - apply Hgo; [done|done|cbn..].
    + intros x Hx. apply elem_of_app in Hx as [Hx|Hx%list_elem_of_singleton]; auto.
    + intros x Hx. apply elem_of_app. by left.
    + assert (∀ key i, shared d !! key = Some i → ∃ r0, (routes d ++ [r]) !! i = Some r0 ∧ routeKey r0 = key) as Hold.
      { intros key i Hi. destruct (d_shared _ _ Hd _ _ Hi) as (x & Hx & Hk). exists x. split; [|done]. by apply lookup_app_l_Some. }
      destruct (_ && _); [|done]. intros key i [[<- <-]|[_ Hi]]%lookup_insert_Some; [|by apply Hold].
      exists r. split; [|done]. by apply list_lookup_middle.
    + exists r. split; [apply elem_of_app; right; by apply list_elem_of_singleton|done].
Qed.

Lemma draft_drafted es d : foldl (draftStep lines first last) (Ok (mkDraft [] ∅ {[last]} ∅ ∅)) es = Ok d → drafted es d.
Proof.
  intros Hd. apply (fold_result_ind _ drafted es [] _ d) in Hd; [done|done| |apply drafted_start].
  intros seen e a a' _ Ha. unfold draftStep. cbn. destruct (unrouted e) eqn:Eu; [intros [= <-]; by apply drafted_skip|].
  destruct (routeFor e) as [r|] eqn:Er; [|done]. intros [= <-]. by apply drafted_add.
Qed.

End Drafts.

(** ** Peers *)

(** A route without its peers. *)
Definition core (r : Route) : Route := set_to r [] 0.

(** [addPeer] on the route itself. *)
Definition peerRoute (last : Z) (r : Route) (p : Prefix) : Route :=
  if Bool.eqb (Is4 (pAddr p)) (Is4 (RSource r)) && negb (bool_decide (p ∈ To r)) then set_to r (To r ++ [p]) last else r.

Definition peersAt (routeOf : gmap string nat) (entries : list (string * list Prefix)) (i : nat) : list Prefix :=
  entries ≫= λ x, if bool_decide (routeOf !! x.1 = Some i) then x.2 else [].

Section Peers.
Variable last : Z.

Lemma addPeer_lookup i rs p j : addPeer last i rs p !! j = (λ r, if decide (i = j) then peerRoute last r p else r) <$> rs !! j.
Proof.
  unfold addPeer, peerRoute. destruct (rs !! i) as [r|] eqn:E, (decide (i = j)) as [<-|Hne]; try (rewrite E; cbn).
  - destruct (_ && _); [|done]. apply list_lookup_insert_eq. by eapply lookup_lt_Some.
  - destruct (_ && _); [rewrite list_lookup_insert_ne by done|]; by destruct (rs !! j).
  - done.
  - by destruct (rs !! j).
Qed.

Lemma addPeer_fold i ps : ∀ rs j, foldl (addPeer last i) rs ps !! j = (λ r, if decide (i = j) then foldl (peerRoute last) r ps else r) <$> rs !! j.
Proof.
  induction ps as [|p ps IH]; intros rs j; cbn; [destruct (decide _), (rs !! j); done|]. rewrite IH, addPeer_lookup.
  destruct (rs !! j); [cbn; by destruct (decide _)|done].
Qed.

Lemma addPeers_lookup routeOf entries : ∀ rs j,
  foldl (addPeers last routeOf) rs entries !! j = (λ r, foldl (peerRoute last) r (peersAt routeOf entries j)) <$> rs !! j.
Proof.
  induction entries as [|[e ps] entries IH]; intros rs j; cbn; [by destruct (rs !! j)|].
  rewrite IH. unfold addPeers at 1. cbn. case_bool_decide as E.
  - rewrite E, addPeer_fold. destruct (rs !! j); [|done]. cbn. rewrite decide_True by done. by rewrite foldl_app.
  - destruct (routeOf !! e) as [i|]; [|done]. rewrite addPeer_fold. destruct (rs !! j); [|done]. cbn. by rewrite decide_False by congruence.
Qed.

Lemma peerRoute_core ps : ∀ r, core (foldl (peerRoute last) r ps) = core r.
Proof. induction ps as [|p ps IH]; intros r; [done|]. cbn. rewrite IH. unfold peerRoute. by destruct (_ && _). Qed.

(** The peers of a route: those of its family, each once. *)
Lemma peerRoute_spec ps : ∀ r, NoDup (To r) →
  let r' := foldl (peerRoute last) r ps in
  NoDup (To r') ∧ (∀ p, p ∈ To r' ↔ p ∈ To r ∨ (p ∈ ps ∧ Is4 (pAddr p) = Is4 (RSource r)))
  ∧ ToPriority r' = (if decide (To r' = To r) then ToPriority r else last).
Proof.
  induction ps as [|p ps IH]; intros r Hr; cbn; [split; [done|]; split; [set_solver|by rewrite decide_True]|].
  assert (RSource (peerRoute last r p) = RSource r) as Hs by (unfold peerRoute; by destruct (_ && _)).
  assert (NoDup (To (peerRoute last r p)) ∧ (∀ q, q ∈ To (peerRoute last r p) ↔ q ∈ To r ∨ (q = p ∧ Is4 (pAddr q) = Is4 (RSource r)))
    ∧ ((To (peerRoute last r p) = To r ∧ peerRoute last r p = r) ∨ (List.length (To r) < List.length (To (peerRoute last r p)) ∧ ToPriority (peerRoute last r p) = last)%nat))
    as (Hn & Hin & Hpr).
  { unfold peerRoute. case_bool_decide as Hp; [rewrite andb_false_r; split; [done|]; split; [set_solver|by left]|].
    rewrite andb_true_r. destruct (Bool.eqb_spec (Is4 (pAddr p)) (Is4 (RSource r))) as [E|E]; cbn.
    - split; [|split; [set_solver|right; rewrite length_app; cbn; split; [lia|done]]].
      apply NoDup_app. split; [done|]. split; [set_solver|apply NoDup_singleton].
    - split; [done|]. split; [|by left]. intros q. split; [by left|]. intros [?|[-> ?]]; done. }
  destruct (IH _ Hn) as (H1 & H2 & H3). split; [done|]. split.
  - intros q. rewrite H2, Hs, Hin, elem_of_cons. naive_solver.
  - rewrite H3. destruct Hpr as [[_ ->]|[Hlen ->]]; [done|].
    rewrite (decide_False (P := To _ = To r)); [by destruct (decide _)|]. intros E.
    assert (List.length (To (peerRoute last r p)) ≤ List.length (To r))%nat; [|lia].
    rewrite <- E. apply submseteq_length, NoDup_submseteq; [done|]. intros q Hq. apply H2. by left.
Qed.

(** Prefixes of one host. *)
Definition hostly (p : Prefix) : Prop := p = host_prefix (pAddr p).

Lemma hostly_prefix a : hostly (host_prefix a).
Proof. by destruct a. Qed.

(** The same peers in another order give the same route. *)
Lemma sortTo_same r ps qs : To r = [] → Forall hostly ps → (∀ p, p ∈ ps ↔ p ∈ qs) →
  sortTo (foldl (peerRoute last) r ps) = sortTo (foldl (peerRoute last) r qs).
Proof.
  intros Hr Hps Hpq. assert (NoDup (To r)) as Hn by (rewrite Hr; constructor).
  destruct (peerRoute_spec ps r Hn) as (N1 & I1 & P1), (peerRoute_spec qs r Hn) as (N2 & I2 & P2).
  pose proof (peerRoute_core ps r) as C1. pose proof (peerRoute_core qs r) as C2.
  set (r1 := foldl _ r ps) in *. set (r2 := foldl _ r qs) in *.
  assert (To r1 ≡ₚ To r2) as Hperm by (apply NoDup_Permutation; [done..|]; intros p; rewrite I1, I2, Hpq; done).
  assert (ToPriority r1 = ToPriority r2) as Hpri.
  { rewrite P1, P2, Hr. destruct (decide (To r1 = [])) as [E|E], (decide (To r2 = [])) as [E'|E']; try done; exfalso.
    - apply E', Permutation_nil. by rewrite <- E.
    - apply E, Permutation_nil. by rewrite Hperm, E'. }
  assert (∀ l t, set_to r1 l t = set_to r2 l t) as Hset.
  { intros l t. unfold core, set_to in C1, C2. unfold set_to. congruence. }
  unfold sortTo. rewrite Hpri, Hset. f_equal. apply sort_by_unique; [intros; apply addr_le_total|intros x y z; apply addr_le_trans| |done].
  assert (∀ x, x ∈ To r1 → hostly x) as Hh.
  { intros x Hx. rewrite I1, Hr, elem_of_nil in Hx. destruct Hx as [[]|[Hx _]]. rewrite Forall_forall in Hps. by apply Hps. }
  intros x y Hx Hy H1 H2. rewrite <- Hperm in Hy. pose proof (Hh x Hx) as Bx. pose proof (Hh y Hy) as By.
  pose proof (addr_le_anti _ _ H1 H2) as E. unfold hostly in *. congruence.
Qed.

End Peers.

(** ** The routes of a plan *)

Section Routes.
Variable LookupHost : string → option (list Addr).

(** [ranged] goes over the entries of a map, in any order. *)
Definition ranges (ranged : gmap string (list Prefix) → list (string * list Prefix)) : Prop := ∀ m, ranged m ≡ₚ map_to_list m.

Definition all_hostly (m : gmap string (list Prefix)) : Prop := map_Forall (λ _ ps, Forall hostly ps) m.

Lemma peerStep_hostly t m address m' : all_hostly m → peerStep LookupHost t (Ok m) address = Ok m' → all_hostly m'.
Proof.
  intros Hm. unfold peerStep. cbn. destruct (String.eqb address ""); [by intros [= <-]|].
  destruct (SplitHostPort address) as [[host port]|]; [|done].
  destruct (match ParseAddr host with Some ip => Some [ip] | None => LookupHost host end) as [[|a addrs]|]; [by intros [= <-]| |by intros [= <-]].
  intros [= <-]. apply map_Forall_insert_2; [|done]. apply Forall_app. split.
  - destruct (m !! FromEgressId t) as [ps|] eqn:E; [by apply (Hm _ _ E)|constructor].
  - apply Forall_cons. split; [apply hostly_prefix|]. apply (Forall_fmap _ hostly addrs), Forall_forall. intros x _. apply hostly_prefix.
Qed.

Lemma transportPeers_hostly plan m : transportPeers LookupHost plan = Ok m → all_hostly m.
Proof.
  unfold transportPeers. intros Hm.
  apply (fold_result_ind _ (λ _, all_hostly) (Transports plan) [] ∅ m) in Hm; [done| | |apply map_Forall_empty].
  - intros e t. by destruct (dialsFrom t).
  - intros _ t a a' _ Ha. destruct (dialsFrom t) as [x|]; [|by intros [= <-]]. intros Hf.
    apply (fold_result_ind (peerStep LookupHost t) (λ _, all_hostly) _ [] a a') in Hf; [done|done| |done].
    intros _ address b b' _. apply peerStep_hostly.
Qed.

Lemma peersAt_in routeOf entries i p : p ∈ peersAt routeOf entries i ↔ ∃ e ps, (e, ps) ∈ entries ∧ routeOf !! e = Some i ∧ p ∈ ps.
Proof.
  unfold peersAt. rewrite list_elem_of_bind. split.
  - intros ([e ps] & Hp & He). cbn in Hp. case_bool_decide; [by exists e, ps|by apply not_elem_of_nil in Hp].
  - intros (e & ps & He & Hi & Hp). exists (e, ps). split; [cbn; by rewrite bool_decide_true|done].
Qed.

(** The routes with their peers, before they are sorted and numbered. *)
Lemma peered_core (entries : list (string * list Prefix)) last routeOf (rs : list Route) : (∀ r, r ∈ rs → core r = r) →
  core <$> (sortTo <$> foldl (addPeers last routeOf) rs entries) = rs.
Proof.
  intros Hrs. apply list_eq. intros i. rewrite !list_lookup_fmap, addPeers_lookup. destruct (rs !! i) as [r|] eqn:E; [|done]. cbn.
  change (Some (core (foldl (peerRoute last) r (peersAt routeOf entries i))) = Some r).
  rewrite peerRoute_core, Hrs; [done|by eapply list_elem_of_lookup_2].
Qed.

(** The routes of a plan do not depend on the order in which the map of
    peers is ranged over (Go's order is random): two runs on one plan install
    the same rules and change none of each other's. *)
Theorem routes_order_independent ranged ranged' plan first last : ranges ranged → ranges ranged' →
  Routes LookupHost ranged plan first last = Routes LookupHost ranged' plan first last.
Proof.
  intros Hr Hr'. unfold Routes. cbn zeta. destruct (foldl (draftStep _ first last) _ (Egresses plan)) as [d|] eqn:Ed; [|done]. cbn.
  destruct (transportPeers LookupHost plan) as [peers|] eqn:Ep; [|done]. cbn. do 2 f_equal.
  apply draft_drafted in Ed. apply transportPeers_hostly in Ep.
  apply list_eq. intros i. rewrite !list_lookup_fmap, !addPeers_lookup. destruct (routes d !! i) as [r|] eqn:E; [|done]. cbn. f_equal.
  apply sortTo_same.
  - destruct (d_from _ _ _ _ _ Ed r) as (e & _ & _ & He); [by eapply list_elem_of_lookup_2|]. by apply routeFor_spec in He as (_ & _ & _ & ? & _).
  - apply Forall_forall. intros p (e & ps & He & _ & Hp)%peersAt_in. rewrite (Hr peers) in He. apply elem_of_map_to_list in He.
    specialize (Ep _ _ He). rewrite Forall_forall in Ep. by apply Ep.
  - intros p. rewrite !peersAt_in. split; intros (e & ps & He & ?); exists e, ps; (split; [|done]).
    + by rewrite (Hr' peers), <- (Hr peers).
    + by rewrite (Hr peers), <- (Hr' peers).
Qed.

(** The route of [r] comes from an egress of the plan. *)
Definition sourced (plan : Plan) (first last : Z) (r : Route) (e : Egress) : Prop :=
  e ∈ Egresses plan ∧ unrouted e = false ∧
  ∃ r0, routeFor (keyed LineId (Lines plan)) first last e = Ok r0 ∧ core (set_numbers r (Table r0) (Priority r0)) = r0.

(** What [Routes] answers, in terms of its stages. *)
Lemma routes_stages ranged plan first last rs : Routes LookupHost ranged plan first last = Ok rs →
  ∃ d sorted, drafted (keyed LineId (Lines plan)) first last (Egresses plan) d ∧ core <$> sorted ≡ₚ routes d
  ∧ allocate first last sorted (tables d) (priorities d) = Ok rs
  ∧ (ranges ranged → Forall (λ r, Forall hostly (To r) ∧ (To r = [] ∨ ToPriority r = last)) sorted).
Proof.
  unfold Routes. cbn zeta. destruct (foldl (draftStep _ first last) _ (Egresses plan)) as [d|] eqn:Ed; [|done]. cbn.
  destruct (transportPeers LookupHost plan) as [peers|] eqn:Ep; [|done]. cbn. intros Ha. apply draft_drafted in Ed. eexists d, _.
  assert (∀ r, r ∈ routes d → To r = [] ∧ core r = r) as Hto.
  { intros r Hr. destruct (d_from _ _ _ _ _ Ed r Hr) as (e & _ & _ & He). apply routeFor_spec in He as (_ & _ & _ & Ht & Htp & _).
    split; [done|]. unfold core, set_to. destruct r. cbn in *. by subst. }
  split; [done|]. split; [|split; [exact Ha|]]; [rewrite sort_by_perm, peered_core; [done|]; by apply Hto|].
  intros Hr. rewrite sort_by_perm. apply Forall_fmap, Forall_lookup. intros i r Hi. rewrite addPeers_lookup in Hi.
  destruct (routes d !! i) as [r0|] eqn:E; [|done]. injection Hi as <-. destruct (Hto r0) as [Ht _]; [by eapply list_elem_of_lookup_2|].
  destruct (peerRoute_spec last (peersAt (routeOf d) (ranged peers) i) r0) as (_ & Hin & Hp); [rewrite Ht; constructor|].
  cbn. split.
  - rewrite sort_by_perm. apply Forall_forall. intros p Hp'. apply Hin in Hp'. rewrite Ht, elem_of_nil in Hp'. destruct Hp' as [[]|[(e & ps & He & _ & Hps)%peersAt_in _]].
    rewrite (Hr peers) in He. apply elem_of_map_to_list in He. pose proof (transportPeers_hostly _ _ Ep _ _ He) as Hh. rewrite Forall_forall in Hh. by apply Hh.
  - rewrite Hp, Ht. destruct (decide (To _ = [])) as [E'|]; [left; by rewrite E'|by right].
Qed.

(** The numbers of one kind that [allocate] gave a route. *)
Lemma filled_at {A} (num : A → Z) first last (old new : list A) used i x y :
  filled first last (num <$> old) used (num <$> new) → Forall (λ n, n = 0 ∨ n ∈ used) (num <$> old) → old !! i = Some x → new !! i = Some y →
  (num x ≠ 0 → num y = num x) ∧ (num x = 0 → (first ≤ num y ≤ last) ∧ (num y ∉ used) ∧ ∀ j z, new !! j = Some z → j ≠ i → num z ≠ num y).
Proof.
  intros Hf Hu Hx Hy. assert ((num <$> old) !! i = Some (num x)) as Hx' by (by rewrite list_lookup_fmap, Hx).
  assert ((num <$> new) !! i = Some (num y)) as Hy' by (by rewrite list_lookup_fmap, Hy). split.
  - intros Hne. pose proof (filled_keeps _ _ _ _ _ Hf _ _ Hx' Hne) as Hk. congruence.
  - intros E. rewrite E in Hx'. destruct (filled_fresh_new _ _ _ _ _ Hf _ _ Hx' Hy') as [Hr Hn]. split; [done|]. split; [done|].
    intros j z Hz Hji Heq. assert ((num <$> new) !! j = Some (num y)) as Hz' by (by rewrite list_lookup_fmap, Hz, <- Heq).
    destruct (filled_unique _ _ _ _ _ Hf Hu j i _ Hji Hz' Hy') as (_ & Hi & Hne). congruence.
Qed.

Lemma used_of {A} (num : A → Z) (named : Egress → Z) (used : gset Z) (l : list A) :
  (∀ x, x ∈ l → ∃ e, num x = named e ∧ (named e = 0 ∨ named e ∈ used)) → Forall (λ n, n = 0 ∨ n ∈ used) (num <$> l).
Proof. intros Hl. apply Forall_fmap, Forall_forall. intros x Hx. destruct (Hl x Hx) as (e & E & ?). cbn. by rewrite E. Qed.

(** What [Apply] relies on. *)
Definition routable (first last : Z) (r : Route) : Prop :=
  first ≤ Table r ≤ last ∧ first ≤ Priority r ≤ last ∧ Forall hostly (To r) ∧ (To r = [] ∨ ToPriority r = last).

(** The numbers of the routing range are given out without a clash.  Every
    route belongs to an egress of the plan and has its source, interface and
    gateway; its table and priority are the ones the egress names, or numbers
    of the range that no other route has, and no unnamed priority is the one of
    the peers' rules.  Every egress with an address of its own has a route with
    its source, interface and gateway and the numbers it names. *)
Theorem routes_allocated ranged plan first last rs : Routes LookupHost ranged plan first last = Ok rs →
  (∀ i r, rs !! i = Some r → ∃ e, sourced plan first last r e
    ∧ first ≤ Table r ≤ last ∧ first ≤ Priority r ≤ last
    ∧ (RoutingTable e ≠ 0 → Table r = RoutingTable e) ∧ (RulePriority e ≠ 0 → Priority r = RulePriority e)
    ∧ (RulePriority e = 0 → Priority r ≠ last)
    ∧ ∀ j r', rs !! j = Some r' → j ≠ i → (RoutingTable e = 0 → Table r' ≠ Table r) ∧ (RulePriority e = 0 → Priority r' ≠ Priority r))
  ∧ (∀ e, e ∈ Egresses plan → unrouted e = false → ∃ r0 r, routeFor (keyed LineId (Lines plan)) first last e = Ok r0 ∧ r ∈ rs
      ∧ routeKey r = routeKey r0 ∧ (RoutingTable e ≠ 0 → Table r = RoutingTable e) ∧ (RulePriority e ≠ 0 → Priority r = RulePriority e)).
Proof.
  intros (d & sorted & Hd & Hp & Ha & _)%routes_stages. destruct (allocate_filled _ _ _ _ _ _ Ha) as (Ft & Fp & Hsame).
  assert (∀ x, x ∈ sorted → ∃ e, e ∈ Egresses plan ∧ unrouted e = false ∧ routeFor (keyed LineId (Lines plan)) first last e = Ok (core x)) as Hfrom.
  { intros x Hx. apply (d_from _ _ _ _ _ Hd). rewrite <- Hp. by apply list_elem_of_fmap_2. }
  assert (Forall (λ n, n = 0 ∨ n ∈ tables d) (Table <$> sorted)) as Ut.
  { apply (used_of _ RoutingTable). intros x Hx. destruct (Hfrom x Hx) as (e & He & Hu & Hr). exists e.
    apply routeFor_spec in Hr as (_ & Ht & _). split; [exact Ht|by apply (d_tables _ _ _ _ _ Hd)]. }
  assert (Forall (λ n, n = 0 ∨ n ∈ priorities d) (Priority <$> sorted)) as Up.
  { apply (used_of _ RulePriority). intros x Hx. destruct (Hfrom x Hx) as (e & He & Hu & Hr). exists e.
    apply routeFor_spec in Hr as (_ & _ & Ht & _). split; [exact Ht|by apply (d_priorities _ _ _ _ _ Hd)]. }
  split.
  - intros i r Hi. destruct (Forall2_lookup_r _ _ _ _ _ Hsame Hi) as (x & Hx & E).
    destruct (Hfrom x) as (e & He & Hu & Hr); [by eapply list_elem_of_lookup_2|]. exists e.
    destruct (routeFor_spec _ _ _ _ _ Hr) as (_ & Et & Ep & _ & _ & Rt & Rp). cbn [core set_to Table Priority] in Et, Ep.
    destruct (filled_at _ _ _ _ _ _ _ _ _ Ft Ut Hx Hi) as [T1 T2], (filled_at _ _ _ _ _ _ _ _ _ Fp Up Hx Hi) as [P1 P2].
    rewrite <- Et, <- Ep in *. split.
    + split; [done|]. split; [done|]. exists (core x). split; [done|]. rewrite E. done.
    + split; [destruct (decide (Table x = 0)) as [Z|Z]; [apply (T2 Z)|rewrite (T1 Z); by apply Rt]|].
      split; [destruct (decide (Priority x = 0)) as [Z|Z]; [apply (P2 Z)|rewrite (P1 Z); by apply Rp]|].
      split; [done|]. split; [done|]. split.
      * intros Z Hl. destruct (P2 Z) as (_ & Hn & _). apply Hn. rewrite Hl. apply (d_last _ _ _ _ _ Hd).
      * intros j r' Hj Hne. split; [intros Z; by apply (T2 Z) with j|intros Z; by apply (P2 Z) with j].
  - intros e He Hu. destruct (d_served _ _ _ _ _ Hd e He Hu) as (r0 & r1 & H0 & H1 & Hk & Hn). exists r0.
    rewrite <- Hp in H1. apply list_elem_of_fmap in H1 as (x & -> & Hx). apply list_elem_of_lookup_1 in Hx as [i Hi].
    destruct (Forall2_lookup_l _ _ _ _ _ Hsame Hi) as (r & Hri & E). exists r.
    destruct (filled_at _ _ _ _ _ _ _ _ _ Ft Ut Hi Hri) as [T1 _], (filled_at _ _ _ _ _ _ _ _ _ Fp Up Hi Hri) as [P1 _].
    destruct (routeFor_spec _ _ _ _ _ H0) as (_ & Et & Ep & _).
    split; [done|]. split; [by eapply list_elem_of_lookup_2|]. split; [by rewrite E|].
    assert (RoutingTable e ≠ 0 ∨ RulePriority e ≠ 0 → Table x = RoutingTable e ∧ Priority x = RulePriority e) as Hxe.
    { intros Hor. specialize (Hn Hor). by rewrite <- Et, <- Ep, <- Hn. }
    split; intros Hne; [destruct Hxe as [E1 _]; [by left|]; rewrite T1; congruence|destruct Hxe as [_ E1]; [by right|]; rewrite P1; congruence].
Qed.

Lemma routes_routable ranged plan first last rs : ranges ranged → Routes LookupHost ranged plan first last = Ok rs → Forall (routable first last) rs.
Proof.
  intros Hr (d & sorted & Hd & Hp & Ha & Hto)%routes_stages. destruct (allocate_filled _ _ _ _ _ _ Ha) as (Ft & Fp & Hsame).
  apply Forall_lookup. intros i r Hi. destruct (Forall2_lookup_r _ _ _ _ _ Hsame Hi) as (x & Hx & E).
  destruct (d_from _ _ _ _ _ Hd (core x)) as (e & He & Hu & He'); [rewrite <- Hp; apply list_elem_of_fmap_2; by eapply list_elem_of_lookup_2|].
  destruct (routeFor_spec _ _ _ _ _ He') as (_ & Et & Ep & _ & _ & Rt & Rp). cbn [core set_to Table Priority] in Et, Ep.
  assert (∀ num : Route → Z, ∀ used, filled first last (num <$> sorted) used (num <$> rs) → (num x ≠ 0 → first ≤ num x ≤ last) → first ≤ num r ≤ last) as Hnum.
  { intros num used Hf Hn. assert ((num <$> sorted) !! i = Some (num x)) as Hx' by (by rewrite list_lookup_fmap, Hx).
    assert ((num <$> rs) !! i = Some (num r)) as Hi' by (by rewrite list_lookup_fmap, Hi). destruct (decide (num x = 0)) as [Z|Z].
    - rewrite Z in Hx'. by apply (filled_fresh_new _ _ _ _ _ Hf _ _ Hx' Hi').
    - pose proof (filled_keeps _ _ _ _ _ Hf _ _ Hx' Z) as Hk. rewrite Hi' in Hk. injection Hk as ->. by apply Hn. }
  specialize (Hto Hr). rewrite Forall_forall in Hto. destruct (Hto x) as [H1 H2]; [by eapply list_elem_of_lookup_2|].
  split; [apply (Hnum Table _ Ft); by rewrite Et|]. split; [apply (Hnum Priority _ Fp); by rewrite Ep|]. by rewrite E.
Qed.

End Routes.

End NetworkRouting.
