(* ===== verification/NetworkRules.v ===== *)
(** * Policy routing: the rules of the host

    [Apply] against what the ip command is documented to do: the rules of the
    Agent's range become exactly those the routes want, rules outside it are
    never touched.
    Module [NetworkHost]: a host. *)

From S2P Require Import Prelude GoStrings GoNet NetworkPlan NetworkRoute NetworkRouting.
From Stdlib Require Import Ascii String.

Module NetworkRules.
Import GoNet NetworkPlan NetworkRoute NetworkRouting.

#[local] Arguments format_uint : simpl never.

Definition spaceless (s : string) : Prop := contains_char s " " = false.

(** What the ip command prints of a selector: the prefix, or a full prefix
    without its length. *)
Definition prints (f printed selector : string) : Prop :=
  printed = selector ∨ printed +:+ (if String.eqb f "-4" then "/32" else "/128") = selector.

(** A rule as the commands name it: its priority, selectors and table. *)
Abbreviation named := (Z * string * string * string)%type.

Definition selectors (x : rule) : named := (rPriority x, fromOf x, toOf x, rTable x).

(** What is listed is the wanted rule. *)
Definition shows (f : string) (x w : named) : Prop :=
  x.1.1.1 = w.1.1.1 ∧ prints f x.1.1.2 w.1.1.2 ∧ prints f x.1.2 w.1.2 ∧ x.2 = w.2.

(** What the ip command (iproute2) does, with the rules it lists for a family
    and the default route of a table as what can be observed of the host. *)
Class IPRoute2 {K : Type} (ip : list string → K → K * option string) (decodeRules : string → option (list rule)) := {
  listed : string → K → list rule;
  defaultRoute : string → string → K → option (list string);
  (* a command that fails changes nothing *)
  ip_failed args k k' : ip args k = (k', None) → k' = k;
  (* the listing is complete, its priorities are uint32, its selectors are words *)
  ip_show f k k' out : ip (showArgs f) k = (k', Some out) →
    k' = k ∧ (if String.eqb (trim_space out) "" then Some [] else decodeRules out) = Some (listed f k);
  ip_words f k x : x ∈ listed f k → 0 ≤ rPriority x < 2 ^ 32 ∧ spaceless (fromOf x) ∧ spaceless (toOf x) ∧ spaceless (rTable x);
  (* deleting by the selectors of a listed rule deletes one rule that has them *)
  ip_delete f x k k' out : selectors x ∈ selectors <$> listed f k → ip (deleteArgs f x) k = (k', Some out) →
    (∃ l1 y l2, listed f k = l1 ++ y :: l2 ∧ listed f k' = l1 ++ l2 ∧ selectors y = selectors x)
    ∧ (∀ g, g ≠ f → listed g k' = listed g k) ∧ (∀ g t, defaultRoute g t k' = defaultRoute g t k);
  (* a rule is added *)
  ip_add_from f s table p k k' out : 0 ≤ p < 2 ^ 32 → ip (addArgs f "from" s table p) k = (k', Some out) →
    (∃ y, listed f k' ≡ₚ y :: listed f k ∧ shows f (selectors y) (p, s, "", table))
    ∧ (∀ g, g ≠ f → listed g k' = listed g k) ∧ (∀ g t, defaultRoute g t k' = defaultRoute g t k);
  ip_add_to f s table p k k' out : 0 ≤ p < 2 ^ 32 → ip (addArgs f "to" s table p) k = (k', Some out) →
    (∃ y, listed f k' ≡ₚ y :: listed f k ∧ shows f (selectors y) (p, "", s, table))
    ∧ (∀ g, g ≠ f → listed g k' = listed g k) ∧ (∀ g t, defaultRoute g t k' = defaultRoute g t k);
  (* flushing and replacing concern one table of one family *)
  ip_flush f table k k' out : ip (flushArgs f table) k = (k', Some out) →
    (∀ g, listed g k' = listed g k) ∧ defaultRoute f table k' = None
    ∧ (∀ g t, (g, t) ≠ (f, table) → defaultRoute g t k' = defaultRoute g t k);
  ip_replace f r k k' out : ip (replaceArgs f r) k = (k', Some out) →
    (∀ g, listed g k' = listed g k) ∧ defaultRoute f (tableOf r) k' = Some (replaceArgs f r)
    ∧ (∀ g t, (g, t) ≠ (f, tableOf r) → defaultRoute g t k' = defaultRoute g t k)
}.

(** ** Words *)

Lemma spaceless_app a b : spaceless a → spaceless b → spaceless (a +:+ b).
Proof. unfold spaceless. rewrite contains_char_app. by intros -> ->. Qed.

Lemma spaceless_cons c s : Ascii.eqb c " " = false → spaceless s → spaceless (String c s).
Proof. unfold spaceless. cbn [contains_char]. rewrite Ascii.eqb_sym. by intros -> ->. Qed.

Lemma dec_digits_spaceless fuel : ∀ n acc, spaceless acc → spaceless (dec_digits fuel n acc).
Proof.
  induction fuel as [|fuel IH]; intros n acc Ha; [done|]. cbn [dec_digits].
  assert (spaceless (String (ascii_of_N (Z.to_N (48 + n mod 10))) acc)) as Hs.
  { apply spaceless_cons; [|done]. destruct (code_dec_digit (n mod 10)) as [_ Hd]; [by apply Z.mod_pos_bound|].
    by destruct (Ascii.eqb_spec (ascii_of_N (Z.to_N (48 + n mod 10))) " ") as [E|]; [rewrite E in Hd|]. }
  destruct (n <? 10); [done|by apply IH].
Qed.

Lemma format_spaceless n : spaceless (format_uint n).
Proof. by apply dec_digits_spaceless. Qed.

Lemma itoa_spaceless n : spaceless (itoa n).
Proof. unfold itoa. destruct (n <? 0); [apply spaceless_app; [done|]|]; apply format_spaceless. Qed.

Lemma v4_spaceless a b c d : spaceless (v4_string a b c d).
Proof. unfold v4_string. repeat apply spaceless_app; try done; apply format_spaceless. Qed.

Lemma hex_digits_spaceless fuel : ∀ n acc, spaceless acc → spaceless (hex_digits fuel n acc).
Proof.
  induction fuel as [|fuel IH]; intros n acc Ha; [done|]. cbn [hex_digits].
  assert (spaceless (String (hex_digit (n mod 16)) acc)) as Hs.
  { apply spaceless_cons; [|done]. pose proof (hex_value_digit (n mod 16)) as Hd. specialize (Hd (Z.mod_pos_bound n 16 eq_refl)).
    by destruct (Ascii.eqb_spec (hex_digit (n mod 16)) " ") as [E|]; [rewrite E in Hd|]. }
  destruct (n <? 16); [done|by apply IH].
Qed.

Lemma join_groups_spaceless l : spaceless (join_groups l).
Proof.
  induction l as [|g l IH]; [done|]. cbn [join_groups]. destruct l; [by apply hex_digits_spaceless|].
  repeat apply spaceless_app; [by apply hex_digits_spaceless|done|done].
Qed.

Lemma v6_spaceless g : spaceless (v6_text g).
Proof.
  assert (∀ i n, spaceless (match n with O => join_groups g | _ => join_groups (take i g) +:+ "::" +:+ join_groups (drop (i + n) g) end)) as Hgen.
  { intros i [|n]; [apply join_groups_spaceless|]. repeat apply spaceless_app; [apply join_groups_spaceless|done|apply join_groups_spaceless]. }
  assert ((∃ i n, v6_text g = match n with O => join_groups g | _ => join_groups (take i g) +:+ "::" +:+ join_groups (drop (i + n) g) end)
    ∨ ∃ a b c d, v6_text g = "::ffff:" +:+ v4_string a b c d) as [(i & n & ->)|(a & b & c & d & ->)];
    [|apply Hgen|apply spaceless_app; [done|apply v4_spaceless]].
  clear Hgen. unfold v6_text. destruct (longest_zeros O g (O, O)) as [i n].
  repeat match goal with |- context [match ?x with _ => _ end] => is_var x; destruct x end;
    first [left; exists i, O; reflexivity | left; exists i, (S n); reflexivity | right; do 4 eexists; reflexivity].
Qed.

Lemma prefix_spaceless a : spaceless (prefix_string (host_prefix a)).
Proof.
  unfold prefix_string. repeat apply spaceless_app; [|done|apply itoa_spaceless].
  destruct a as [a b c d|g z]; cbn; [apply v4_spaceless|]. rewrite app_nil_r_str. apply v6_spaceless.
Qed.

(** A named rule whose words have no spaces, with a priority that is printed. *)
Definition plainly (w : named) : Prop := 0 ≤ w.1.1.1 < 2 ^ 32 ∧ spaceless w.1.1.2 ∧ spaceless w.1.2 ∧ spaceless w.2.

Lemma wantedKey_inj v w : plainly v → plainly w → wantedKey v = wantedKey w → v = w.
Proof.
  destruct v as [[[p f] t] table], w as [[[p' f'] t'] table']. unfold plainly, wantedKey, ruleKey. cbn.
  intros (Hp & Hf & Ht & Hn) (Hp' & Hf' & Ht' & Hn') E. assert (∀ x, " " +:+ x = String " " x) as Hsp by done. rewrite !Hsp in E.
  apply cut_inj in E as [Ep E]; [|apply format_spaceless..]. apply cut_inj in E as [-> E]; [|done..]. apply cut_inj in E as [-> ->]; [|done..].
  apply format_uint_inj in Ep; [by subst|lia..].
Qed.

Lemma filter_bool_split {A} (p : A → bool) (l : list A) : filter (λ x, p x = false) l ++ filter (λ x, p x = true) l ≡ₚ l.
Proof.
  induction l as [|x l IH]; [done|]. rewrite !filter_cons. destruct (p x).
  - rewrite decide_False, decide_True by done. etrans; [symmetry; apply Permutation_middle|]. by rewrite IH.
  - rewrite decide_True, decide_False by done. cbn. by rewrite IH.
Qed.

(** ** One family *)

Section Host.
Context {K : Type} (ip : list string → K → K * option string) (decodeRules : string → option (list rule)) `{!IPRoute2 ip decodeRules}.
Variables First Last : Z.

Abbreviation owns := (owns First Last).
Abbreviation try := (try K ip).

(** What happens to one family leaves the others alone. *)
Definition framed (f : string) (k k' : K) : Prop :=
  ∀ g, g ≠ f → listed g k' = listed g k ∧ ∀ t, defaultRoute g t k' = defaultRoute g t k.

#[local] Instance framed_preorder f : PreOrder (framed f).
Proof.
  split; [by intros k g|]. intros k1 k2 k3 H12 H23 g Hg. destruct (H12 g Hg) as [L1 D1], (H23 g Hg) as [L2 D2].
  split; [by rewrite L2|]. intros t. by rewrite D2.
Qed.

(** The rules of [f]: [U] outside the range, and others with the names [N]. *)
Definition has (f : string) (U : list rule) (N : list named) (k : K) : Prop :=
  ∃ R, listed f k ≡ₚ U ++ R ∧ selectors <$> R ≡ₚ N.

#[local] Instance has_proper f U : Proper ((≡ₚ) ==> eq ==> iff) (has f U).
Proof. intros N N' HN k k' <-. unfold has. by setoid_rewrite HN. Qed.

Definition ownedName (w : named) : Prop := owns w.1.1.1 = true.
Definition outside (U : list rule) : Prop := ∀ x, x ∈ U → owns (rPriority x) = false.

Lemma try_ok args s s' : try args s = s' → s'.2 = true → s.2 = true ∧ ∃ out, ip args s.1 = (s'.1, Some out).
Proof. unfold NetworkRoute.try. destruct (ip args s.1) as [k [out|]] eqn:E; intros <-; [|done]. cbn. intros ->. split; [done|]. by exists out. Qed.

Lemma try_cases args s : ((try args s).1 = s.1 ∧ (try args s).2 = false) ∨ (∃ out, ip args s.1 = ((try args s).1, Some out) ∧ (try args s).2 = s.2).
Proof.
  unfold NetworkRoute.try. destruct (ip args s.1) as [k [out|]] eqn:E; cbn; [right; by exists out|]. left. by rewrite (ip_failed _ _ _ E).
Qed.

(** Deleting a rule by its names. *)
Lemma delete_has f U N x s : outside U → owns (rPriority x) = true → has f U (selectors x :: N) s.1 →
  let s' := try (deleteArgs f x) s in
  framed f s.1 s'.1 ∧ (∀ g t, defaultRoute g t s'.1 = defaultRoute g t s.1)
  ∧ ((s'.2 = false ∧ has f U (selectors x :: N) s'.1) ∨ (s'.2 = s.2 ∧ has f U N s'.1)).
Proof.
  intros HU Hx (R & HR & HN). cbn zeta. destruct (try_cases (deleteArgs f x) s) as [[Ek Eo]|(out & E & Eo)].
  { rewrite Ek. split; [done|]. split; [done|]. left. split; [done|by exists R]. }
  assert (selectors x ∈ selectors <$> listed f s.1) as Hin.
  { rewrite HR, fmap_app. apply elem_of_app. right. rewrite HN. by left. }
  destruct (ip_delete f x _ _ _ Hin E) as ((l1 & y & l2 & Hl & Hl' & Hy) & Hg & Hd).
  split; [intros g Hgf; split; [by apply Hg|intros t; apply Hd]|]. split; [done|]. right. split; [done|].
  assert (y ∈ R) as HyR.
  { assert (y ∈ U ++ R) as Hi by (rewrite <- HR, Hl; apply elem_of_app; right; by left).
    apply elem_of_app in Hi as [Hi|Hi]; [|done]. pose proof (HU y Hi) as Ho. unfold selectors in Hy. congruence. }
  apply elem_of_Permutation in HyR as [R' HR'].
  exists R'. rewrite Hl'. split.
  - apply (Permutation_cons_inv (a := y)). rewrite (Permutation_middle l1 l2 y), <- Hl, HR, HR'. by rewrite Permutation_middle.
  - apply (Permutation_cons_inv (a := selectors x)). rewrite <- HN, HR'. cbn. by rewrite Hy.
Qed.

Lemma flush_has f U N t s : has f U N s.1 →
  let s' := try (flushArgs f t) s in
  framed f s.1 s'.1 ∧ has f U N s'.1 ∧ (∀ u, u ≠ t → defaultRoute f u s'.1 = defaultRoute f u s.1)
  ∧ (s'.2 = true → s.2 = true ∧ defaultRoute f t s'.1 = None) ∧ (defaultRoute f t s.1 = None → defaultRoute f t s'.1 = None).
Proof.
  intros HN. cbn zeta. destruct (try_cases (flushArgs f t) s) as [[Ek Eo]|(out & E & Eo)].
  { rewrite Ek, Eo. by split_and!. }
  destruct (ip_flush f t _ _ _ E) as (Hl & Hn & Hd). split_and!; [|unfold has; by rewrite Hl| |rewrite Eo; by split|done].
  - intros g Hg. split; [apply Hl|]. intros u. apply Hd. congruence.
  - intros u Hu. apply Hd. congruence.
Qed.

(** ** Sweeping *)

(** The names of a rule that stays. *)
Definition stays (W : gset string) (w : named) : Prop := wantedKey w ∈ W.

Lemma keyOf_selectors x : keyOf x = wantedKey (selectors x).
Proof. done. Qed.

(** After the rules seen so far: [kept] of them are still there. *)
Record swept (f : string) (U : list rule) (W T : gset string) (k0 : K) (s : (K * bool) * gset string) (kept : list named) (seen rest : list rule) : Prop := {
  sw_frame : framed f k0 s.1.1;
  sw_has : has f U (kept ++ (selectors <$> rest)) s.1.1;
  sw_owned : Forall ownedName kept;
  sw_plain : Forall plainly kept;
  sw_present : ∀ key, key ∈ s.2 → ∃ w, w ∈ kept ∧ wantedKey w = key;
  sw_ok : s.1.2 = true → Forall (λ w, stays W w ∧ wantedKey w ∈ s.2) kept;
  sw_flushed : s.1.2 = true → ∀ x, x ∈ seen → keyOf x ∉ W → staleTable First Last T x = true → defaultRoute f (rTable x) s.1.1 = None
}.

Lemma sweep_swept f U W T k0 s kept seen x rest : outside U → owns (rPriority x) = true → plainly (selectors x) →
  swept f U W T k0 s kept seen (x :: rest) → ∃ kept', swept f U W T k0 (sweep K ip First Last f W T s x) kept' (seen ++ [x]) rest.
Proof.
  intros HU Hx Hpx [Hf Hh Ho Hp Hpr Hok Hfl]. unfold sweep. case_bool_decide as Hw.
  - exists (kept ++ [selectors x]). split; cbn; [done|by rewrite <- app_assoc|apply Forall_app_2; [done|by constructor]..| | |].
    + intros key [->%elem_of_singleton|Hk]%elem_of_union; [exists (selectors x); split; [apply elem_of_app; right; by left|done]|].
      destruct (Hpr key Hk) as (w & Hwk & ?). exists w. split; [apply elem_of_app; by left|done].
    + intros E. apply Forall_app_2; [eapply Forall_impl; [by apply Hok|]; intros w [? ?]; split; [done|set_solver]|]. constructor; [|done].
      split; [done|]. rewrite keyOf_selectors. set_solver.
    + intros E y Hy Hyw Hys. apply elem_of_app in Hy as [Hy|Hy%list_elem_of_singleton]; [by apply Hfl|by subst].
  - assert (has f U (selectors x :: kept ++ (selectors <$> rest)) s.1.1) as Hh'.
    { rewrite fmap_cons in Hh. by rewrite (Permutation_middle kept (selectors <$> rest) (selectors x)). }
    destruct (delete_has f U _ x s.1 HU Hx Hh') as (F1 & D1 & H1).
    set (s1 := try (deleteArgs f x) s.1) in *.
    assert (∀ t, framed f s1.1 (if t : bool then try (flushArgs f (rTable x)) s1 else s1).1) as F2.
    { intros [|]; [|done]. unfold framed. destruct H1 as [[_ H1]|[_ H1]]; by apply (flush_has f U _ (rTable x) s1 H1). }
    assert (∀ t N, has f U N s1.1 → has f U N (if t : bool then try (flushArgs f (rTable x)) s1 else s1).1) as H2.
    { intros [|] N HN; [|done]. by apply (flush_has f U N (rTable x) s1 HN). }
    assert (∀ t, (if t : bool then try (flushArgs f (rTable x)) s1 else s1).2 = true → s1.2 = true) as O2.
    { intros [|]; [|done]. intros E. by apply (try_ok _ _ _ eq_refl) in E as [? _]. }
    set (fl := staleTable First Last T x).
    assert (∀ y, defaultRoute f (rTable y) s1.1 = None → defaultRoute f (rTable y) (if fl then try (flushArgs f (rTable x)) s1 else s1).1 = None) as D2.
    { intros y Hy. destruct fl; [|done]. destruct H1 as [[_ H1]|[_ H1]];
        destruct (flush_has f U _ (rTable x) s1 H1) as (_ & _ & Hne & _ & Hkeep);
        (destruct (decide (rTable y = rTable x)) as [E|Hn]; [rewrite E in *; by apply Hkeep|by rewrite Hne]). }
    assert (framed f k0 (if fl then try (flushArgs f (rTable x)) s1 else s1).1) as F3 by (etrans; [exact Hf|]; etrans; [exact F1|apply F2]).
    destruct H1 as [[E1 H1]|[E1 H1]].
    + exists (kept ++ [selectors x]). split; cbn; [done| |apply Forall_app_2; [done|by constructor]..| | |].
      * apply H2. rewrite <- app_assoc. cbn. by rewrite <- (Permutation_middle kept (selectors <$> rest) (selectors x)).
      * intros key Hk. destruct (Hpr key Hk) as (w & Hwk & ?). exists w. split; [apply elem_of_app; by left|done].
      * intros E%O2. congruence.
      * intros E%O2. congruence.
    + exists kept. split; cbn; [done|by apply H2|done|done|done| |]; [intros E%O2; apply Hok; congruence|].
      intros E y Hy Hyw Hys. apply elem_of_app in Hy as [Hy|Hy%list_elem_of_singleton].
      * apply D2. rewrite D1. apply Hfl; [|done..]. apply O2 in E. congruence.
      * subst y. destruct (flush_has f U _ (rTable x) s1 H1) as (_ & _ & _ & Hnone & _). fold fl in Hys. rewrite Hys in E |- *. by apply Hnone.
Qed.

(** All listed rules of the range. *)
Lemma sweep_all f U W T k0 current : ∀ s kept seen, outside U → Forall (λ x, owns (rPriority x) = true ∧ plainly (selectors x)) current →
  swept f U W T k0 s kept seen current → ∃ kept', swept f U W T k0 (foldl (sweep K ip First Last f W T) s current) kept' (seen ++ current) [].
Proof.
  induction current as [|x rest IH]; intros s kept seen HU Hc Hs; [exists kept; by rewrite app_nil_r|].
  apply Forall_cons in Hc as [[Hx Hpx] Hc]. destruct (sweep_swept f U W T k0 s kept seen x rest HU Hx Hpx Hs) as [kept' Hs'].
  destruct (IH _ _ _ HU Hc Hs') as [kept2 H2]. exists kept2. by rewrite <- app_assoc in H2.
Qed.

(** The sweep reports no error only when there was none before it. *)
Lemma sweep_bool f W T s x : (sweep K ip First Last f W T s x).1.2 = true → s.1.2 = true.
Proof.
  unfold sweep. case_bool_decide; [done|]. cbn. destruct (staleTable _ _ T x); [intros E; apply (try_ok _ _ _ eq_refl) in E as [E _]; revert E|];
    intros E; by apply (try_ok _ _ _ eq_refl) in E as [? _].
Qed.

Lemma sweep_all_bool f W T current : ∀ s, (foldl (sweep K ip First Last f W T) s current).1.2 = true → s.1.2 = true.
Proof. induction current as [|x current IH]; intros s; [done|]. cbn. intros E%IH. by eapply sweep_bool. Qed.

(** ** Installing *)

(** Names that show one of the wanted. *)
Definition shown (f : string) (W : list named) (s : named) : Prop := ∃ w, w ∈ W ∧ shows f s w.

(** After the wanted rules [W]: those beside the kept are [added]. *)
Record installed (f : string) (U : list rule) (present : gset string) (kept : list named) (k0 : K) (s : K * bool) (added W : list named) : Prop := {
  in_frame : framed f k0 s.1;
  in_has : has f U (kept ++ added) s.1;
  in_added : Forall (shown f W) added;
  in_ok : s.2 = true → Forall (λ w, wantedKey w ∈ present ∨ ∃ a, a ∈ added ∧ shows f a w) W
}.

Lemma installed_more f U present kept k0 s added W w : s.2 = false ∨ wantedKey w ∈ present →
  installed f U present kept k0 s added W → installed f U present kept k0 s added (W ++ [w]).
Proof.
  intros Hw [Hf Hh Ha Ho]. split; [done|done| |].
  - eapply Forall_impl; [exact Ha|]. intros a (v & Hv & ?). exists v. split; [apply elem_of_app; by left|done].
  - intros E. apply Forall_app_2; [by apply Ho|]. constructor; [|done]. destruct Hw; [congruence|by left].
Qed.

Lemma add_installed f U present kept k0 s added W kind prefix w :
  (kind = "from" ∧ w.1.2 = "" ∧ prefix = w.1.1.2) ∨ (kind = "to" ∧ w.1.1.2 = "" ∧ prefix = w.1.2) →
  plainly w → installed f U present kept k0 s added W →
  (∀ g t, defaultRoute g t (addMissing K ip f kind prefix w present s).1 = defaultRoute g t s.1)
  ∧ ((addMissing K ip f kind prefix w present s).2 = true → s.2 = true)
  ∧ ∃ added', installed f U present kept k0 (addMissing K ip f kind prefix w present s) added' (W ++ [w]).
Proof.
  intros Hk [Hw _] Hi. unfold addMissing. case_bool_decide as Hp; [split; [done|]; split; [done|]; exists added; apply installed_more; auto|].
  destruct (try_cases (addArgs f kind prefix w.2 w.1.1.1) s) as [[Ek Eo]|(out & E & Eo)].
  { split; [by rewrite Ek|]. split; [congruence|]. exists added. apply installed_more; [by left|]. destruct Hi as [Hf Hh Ha Ho]. split; rewrite ?Ek; try done. congruence. }
  assert (∃ y, listed f (try (addArgs f kind prefix w.2 w.1.1.1) s).1 ≡ₚ y :: listed f s.1 ∧ shows f (selectors y) w
    ∧ (∀ g, g ≠ f → listed g (try (addArgs f kind prefix w.2 w.1.1.1) s).1 = listed g s.1)
    ∧ (∀ g t, defaultRoute g t (try (addArgs f kind prefix w.2 w.1.1.1) s).1 = defaultRoute g t s.1)) as (y & Hl & Hy & Hg & Hd).
  { destruct w as [[[p fr] t] table]. cbn in *. destruct Hk as [(-> & -> & ->)|(-> & -> & ->)].
    - destruct (ip_add_from _ _ _ _ _ _ _ Hw E) as ((y & ? & ?) & ? & ?). by exists y.
    - destruct (ip_add_to _ _ _ _ _ _ _ Hw E) as ((y & ? & ?) & ? & ?). by exists y. }
  destruct Hi as [Hf Hh Ha Ho]. split; [done|]. split; [congruence|]. exists (added ++ [selectors y]). split.
  - etrans; [exact Hf|]. intros g Hgf. split; [by apply Hg|intros t; apply Hd].
  - destruct Hh as (R & HR & HN). exists (y :: R). split; [by rewrite Hl, HR, Permutation_middle|].
    cbn. rewrite HN, app_assoc. apply Permutation_cons_append.
  - apply Forall_app_2.
    + eapply Forall_impl; [exact Ha|]. intros a (v & Hv & ?). exists v. split; [apply elem_of_app; by left|done].
    + constructor; [|done]. exists w. split; [apply elem_of_app; right; by left|done].
  - rewrite Eo. intros E2. apply Forall_app_2.
    + eapply Forall_impl; [by apply Ho|]. intros v [?|(a & Hav & ?)]; [by left|]. right. exists a. split; [apply elem_of_app; by left|done].
    + constructor; [|done]. right. exists (selectors y). split; [apply elem_of_app; right; by left|done].
Qed.

Lemma add_peers_installed f U present kept k0 (r : Route) ps : ∀ s added W,
  Forall (λ p, plainly (ToPriority r, "", prefix_string p, tableOf r)) ps → installed f U present kept k0 s added W →
  let s' := foldl (λ s p, addMissing K ip f "to" (prefix_string p) (ToPriority r, "", prefix_string p, tableOf r) present s) s ps in
  (∀ g t, defaultRoute g t s'.1 = defaultRoute g t s.1) ∧ (s'.2 = true → s.2 = true)
  ∧ ∃ added', installed f U present kept k0 s' added' (W ++ ((λ p, (ToPriority r, "", prefix_string p, tableOf r)) <$> ps)).
Proof.
  induction ps as [|p ps IH]; intros s added W Hps Hi; cbn; [split; [done|]; split; [done|]; exists added; by rewrite app_nil_r|].
  destruct (add_installed f U present kept k0 s added W "to" (prefix_string p) (ToPriority r, "", prefix_string p, tableOf r)) as (D1 & O1 & added1 & H1);
    [by right|by apply Forall_cons in Hps as [? _]|done|]. apply Forall_cons in Hps as [_ Hps]. destruct (IH _ _ _ Hps H1) as (D2 & O2 & added2 & H2).
  split; [intros g t; rewrite D2; apply D1|]. split; [auto|]. exists added2. by rewrite <- app_assoc in H2.
Qed.

(** One route: its wanted rules are there and its table has its default route. *)
Lemma install_installed f U present kept k0 s added W r : Forall plainly (wantedOf r) → installed f U present kept k0 s added W →
  let s' := install K ip f present s r in
  (∃ added', installed f U present kept k0 s' added' (W ++ wantedOf r))
  ∧ (∀ t, t ≠ tableOf r → defaultRoute f t s'.1 = defaultRoute f t s.1)
  ∧ (s'.2 = true → s.2 = true ∧ defaultRoute f (tableOf r) s'.1 = Some (replaceArgs f r)).
Proof.
  intros Hpl Hi. apply Forall_cons in Hpl as [Hpr Hpl]. unfold install. destruct (ip (replaceArgs f r) s.1) as [k [out|]] eqn:E.
  - destruct (ip_replace _ _ _ _ _ E) as (Hl & Hd & Hne).
    assert (installed f U present kept k0 (k, s.2) added W) as H1.
    { destruct Hi as [Hf Hh Ha Ho]. split; cbn; [|unfold has; by rewrite Hl|done|done].
      etrans; [exact Hf|]. intros g Hg. split; [apply Hl|]. intros t. apply Hne. congruence. }
    destruct (add_installed f U present kept k0 (k, s.2) added W "from" (from r) (Priority r, from r, "", tableOf r)) as (D2 & O2 & added2 & H2);
      [by left|done|done|]. apply (Forall_fmap _ plainly (To r)) in Hpl.
    destruct (add_peers_installed f U present kept k0 r (To r) _ _ _ Hpl H2) as (D3 & O3 & added3 & H3).
    split; [exists added3; by rewrite <- app_assoc in H3|]. split.
    + intros t Ht. rewrite D3, D2. apply Hne. congruence.
    + intros Hok. split; [by apply O2, O3|]. by rewrite D3, D2.
  - apply ip_failed in E as ->. cbn. split; [|by split]. exists added. destruct Hi as [Hf Hh Ha Ho]. split; cbn; [done|done| |done].
    eapply Forall_impl; [exact Ha|]. intros a (v & Hv & ?). exists v. split; [apply elem_of_app; by left|done].
Qed.

Lemma install_all f U present kept k0 rs : ∀ s added W, Forall (λ r, Forall plainly (wantedOf r)) rs → installed f U present kept k0 s added W →
  let s' := foldl (install K ip f present) s rs in
  (∃ added', installed f U present kept k0 s' added' (W ++ (rs ≫= wantedOf)))
  ∧ (∀ t, t ∉ tableOf <$> rs → defaultRoute f t s'.1 = defaultRoute f t s.1)
  ∧ (s'.2 = true → s.2 = true ∧ ∀ r, r ∈ rs → (∀ r', r' ∈ rs → tableOf r' = tableOf r → r' = r) → defaultRoute f (tableOf r) s'.1 = Some (replaceArgs f r)).
Proof.
  induction rs as [|r rs IH]; intros s added W Hpl Hi; cbn.
  { split; [exists added; by rewrite app_nil_r|]. split; [done|]. intros E. split; [done|]. intros r Hr. by apply not_elem_of_nil in Hr. }
  apply Forall_cons in Hpl as [Hr0 Hpl]. destruct (install_installed f U present kept k0 s added W r Hr0 Hi) as ((added1 & H1) & D1 & O1).
  destruct (IH _ _ _ Hpl H1) as ((added2 & H2) & D2 & O2). split; [exists added2; by rewrite <- app_assoc in H2|]. split.
  - intros t Ht. apply not_elem_of_cons in Ht as [Ht Hrest]. by rewrite D2, D1.
  - intros Hok. destruct (O2 Hok) as [Hok1 Hrs]. destruct (O1 Hok1) as [Hok0 Hr]. split; [done|].
    intros x Hx Hu. apply elem_of_cons in Hx as [->|Hx]; [|apply Hrs; [done|]; intros r' Hr'; apply Hu; by right].
    destruct (decide (r ∈ rs)) as [Hin|Hnin]; [apply Hrs; [done|]; intros r' Hr'; apply Hu; by right|].
    rewrite D2; [done|]. intros (y & Hy & Hyr)%list_elem_of_fmap. apply Hnin. rewrite <- (Hu y); [done|by right|done].
Qed.

(** ** Both families *)

Section Apply.
Variable rs : list Route.
Hypothesis first_nonneg : 0 ≤ First.
Hypothesis last_uint32 : Last < 2 ^ 32.
Hypothesis routes_ok : Forall (routable First Last) rs.

Lemma wanted_owned f w : w ∈ wanted f rs → ownedName w ∧ plainly w.
Proof.
  unfold wanted. rewrite list_elem_of_bind. intros (r & Hw & Hr). apply list_elem_of_filter in Hr as [_ Hr].
  rewrite Forall_forall in routes_ok. destruct (routes_ok r Hr) as (Ht & Hp & Hh & Hto).
  assert (∀ n, First ≤ n ≤ Last → owns n = true ∧ 0 ≤ n < 2 ^ 32) as Hn.
  { intros n Hn. unfold NetworkRoute.owns. rewrite andb_true_iff, !Z.leb_le. lia. }
  apply elem_of_cons in Hw as [->|(p & -> & Hps)%list_elem_of_fmap].
  - destruct (Hn _ Hp). split; [done|]. split; [done|]. cbn. split; [apply prefix_spaceless|]. split; [done|apply format_spaceless].
  - destruct Hto as [Hto|Hto]; [rewrite Hto in Hps; by apply not_elem_of_nil in Hps|].
    destruct (Hn (ToPriority r)) as [H1 H2]; [rewrite Hto; lia|]. split; [done|]. split; [done|]. cbn. split; [done|].
    split; [|apply format_spaceless]. rewrite Forall_forall in Hh. rewrite (Hh p Hps). apply prefix_spaceless.
Qed.

(** What the routes of a family make of the host. *)
Record converged (f : string) (k k' : K) : Prop := {
  cv_only x : x ∈ listed f k' → owns (rPriority x) = true → ∃ w, w ∈ wanted f rs ∧ shows f (selectors x) w;
  cv_all w : w ∈ wanted f rs → ∃ x, x ∈ listed f k' ∧ shows f (selectors x) w;
  cv_default r : r ∈ rs → family r = f → (∀ r', r' ∈ rs → family r' = f → tableOf r' = tableOf r → r' = r) →
    defaultRoute f (tableOf r) k' = Some (replaceArgs f r);
  cv_flushed x : x ∈ listed f k → owns (rPriority x) = true → keyOf x ∉ wantedKey <$> wanted f rs →
    staleTable First Last (list_to_set (tableOf <$> ofFamily f rs)) x = true → defaultRoute f (rTable x) k' = None
}.

Definition unowned (f : string) (k : K) : list rule := filter (λ x, owns (rPriority x) = false) (listed f k).

Lemma has_unowned f U N k : outside U → Forall ownedName N → has f U N k → unowned f k ≡ₚ U.
Proof.
  intros HU HN (R & HR & HRN). unfold unowned. rewrite HR, filter_app, (filter_all _ U), (filter_none _ R); [by rewrite app_nil_r| |].
  - intros x Hx. assert (ownedName (selectors x)) as Ho by (rewrite Forall_forall in HN; apply HN; rewrite <- HRN; by apply list_elem_of_fmap_2).
    unfold ownedName in Ho. cbn in Ho. congruence.
  - exact HU.
Qed.

Lemma applyFamily_spec f s : let '(s', b) := applyFamily K ip decodeRules First Last rs s f in
  framed f s.1 s'.1 ∧ unowned f s'.1 ≡ₚ unowned f s.1 ∧ (b = true → s'.2 = true → s.2 = true ∧ converged f s.1 s'.1).
Proof.
  unfold applyFamily, rules. destruct (ip (showArgs f) s.1) as [k [out|]] eqn:E; [|apply ip_failed in E as ->; cbn; by split_and!].
  apply ip_show in E as [-> E]. rewrite E. cbn. set (current := filter _ (listed f s.1)). set (U := unowned f s.1).
  set (W := list_to_set (wantedKey <$> wanted f rs) : gset string). set (T := list_to_set (tableOf <$> ofFamily f rs) : gset string).
  assert (outside U) as HU by (intros x Hx; by apply list_elem_of_filter in Hx as [? _]).
  assert (Forall (λ x, owns (rPriority x) = true ∧ plainly (selectors x)) current) as Hc.
  { apply Forall_forall. intros x [Hx Hi]%list_elem_of_filter. split; [done|]. by apply (ip_words f s.1 x). }
  assert (swept f U W T s.1 ((s.1, s.2), ∅) [] [] current) as H0.
  { split; cbn; try done; [|by intros _ x Hx%not_elem_of_nil]. exists current. split; [|done].
    symmetry. apply (filter_bool_split (λ x, owns (rPriority x))). }
  destruct (sweep_all f U W T s.1 current _ _ _ HU Hc H0) as [kept [F1 H1 O1 P1 R1 K1 D1]].
  set (s1 := foldl (sweep K ip First Last f W T) (s.1, s.2, ∅) current) in *. cbn [app] in D1.
  assert (installed f U s1.2 kept s.1 s1.1 [] []) as H2 by (split; [done| |constructor|constructor]; cbn in H1; done).
  assert (Forall (λ r, Forall plainly (wantedOf r)) (ofFamily f rs)) as Hpl.
  { apply Forall_forall. intros r Hr. apply Forall_forall. intros w Hw. apply (wanted_owned f). apply list_elem_of_bind. by exists r. }
  destruct (install_all f U s1.2 kept s.1 (ofFamily f rs) s1.1 [] [] Hpl H2) as ((added & [F3 H3 A3 K3]) & D3 & O3).
  set (s3 := foldl (install K ip f s1.2) s1.1 (ofFamily f rs)) in *. cbn [app] in A3, K3. change (ofFamily f rs ≫= wantedOf) with (wanted f rs) in *.
  assert (Forall ownedName added) as Oa.
  { eapply Forall_impl; [exact A3|]. intros a (w & Hw & Hs & _). unfold ownedName. rewrite Hs. by apply (wanted_owned f w Hw). }
  split; [done|]. split; [by apply (has_unowned f U (kept ++ added)); [|apply Forall_app_2|]|]. intros _ Hok.
  destruct (O3 Hok) as [Hok1 Hdef]. specialize (K1 Hok1). specialize (K3 Hok).
  split; [by apply sweep_all_bool in Hok1|]. clear Hok.
  destruct H3 as (R & HR & HRN).
  assert (∀ a, a ∈ kept → a ∈ wanted f rs) as Hkept.
  { intros a Ha. rewrite Forall_forall in K1, P1. destruct (K1 a Ha) as [Hs _]. unfold stays, W in Hs.
    apply elem_of_list_to_set, list_elem_of_fmap in Hs as (w & Ew & Hw). apply wantedKey_inj in Ew; [by subst|by apply P1|by apply (wanted_owned f)]. }
  assert (∀ a, a ∈ kept ++ added → ∃ x, x ∈ listed f s3.1 ∧ selectors x = a) as Hin.
  { intros a Ha. rewrite <- HRN in Ha. apply list_elem_of_fmap in Ha as (x & -> & Hx). exists x. split; [|done]. rewrite HR. apply elem_of_app. by right. }
  split.
  - intros x Hx Hox. rewrite HR in Hx. apply elem_of_app in Hx as [Hx|Hx]; [rewrite (HU x Hx) in Hox; done|].
    assert (selectors x ∈ kept ++ added) as Hs by (rewrite <- HRN; by apply list_elem_of_fmap_2). apply elem_of_app in Hs as [Hs|Hs].
    + exists (selectors x). split; [by apply Hkept|]. split; [done|]. split; [by left|]. split; [by left|done].
    + rewrite Forall_forall in A3. by apply A3.
  - intros w Hw. rewrite Forall_forall in K3. destruct (K3 w Hw) as [Hp|(a & Ha & Hs)].
    + destruct (R1 _ Hp) as (v & Hv & Ev). destruct (Hin v) as (x & Hx & Ex); [apply elem_of_app; by left|]. exists x. split; [done|].
      apply wantedKey_inj in Ev; [|rewrite Forall_forall in P1; by apply P1|by apply (wanted_owned f)]. subst. split; [done|]. split; [by left|]. split; [by left|done].
    + destruct (Hin a) as (x & Hx & Ex); [apply elem_of_app; by right|]. exists x. split; [done|]. by rewrite Ex.
  - intros r Hr Hf Hu. apply Hdef; [by apply list_elem_of_filter|]. intros r' [Hf' Hr']%list_elem_of_filter. by apply Hu.
  - intros x Hx Hox Hkey Hst. rewrite D3.
    + apply D1; [done|by apply list_elem_of_filter|unfold W; by rewrite elem_of_list_to_set|done].
    + unfold staleTable in Hst. destruct (parse_uint (rTable x)); [|done]. rewrite !andb_true_iff, negb_true_iff, bool_decide_eq_false, elem_of_list_to_set in Hst.
      by destruct Hst as [_ ?].
Qed.

End Apply.

(** Both families after one another. *)
Lemma apply_converges rs k k' ok f : 0 ≤ First → Last < 2 ^ 32 → Forall (routable First Last) rs → Apply K ip decodeRules First Last rs k = (k', ok) → f ∈ ["-4"; "-6"] →
  unowned f k' ≡ₚ unowned f k ∧ (ok = true → converged rs f k k').
Proof.
  intros H0 H32 Hrs Ha Hf. unfold Apply in Ha.
  pose proof (applyFamily_spec rs H0 H32 Hrs "-4" (k, true)) as S4. destruct (applyFamily _ _ _ _ _ rs (k, true) "-4") as [s4 [|]]; cycle 1.
  { injection Ha as <- <-. destruct S4 as (F4 & U4 & _). split; [|done].
    apply elem_of_cons in Hf as [->|Hf%list_elem_of_singleton]; [done|subst]. unfold unowned. by destruct (F4 "-6") as [-> _]. }
  pose proof (applyFamily_spec rs H0 H32 Hrs "-6" s4) as S6. destruct (applyFamily _ _ _ _ _ rs s4 "-6") as [s6 b].
  destruct S4 as (F4 & U4 & C4), S6 as (F6 & U6 & C6). destruct (F4 "-6") as [L4 D4]; [done|]. destruct (F6 "-4") as [L6 D6]; [done|].
  assert (k' = s6.1 ∧ (ok = true → b = true ∧ s6.2 = true)) as [-> Hok] by (destruct b; [destruct s6|]; by injection Ha as <- <-).
  apply elem_of_cons in Hf as [->|Hf%list_elem_of_singleton]; [|subst f].
  - split; [unfold unowned in *; by rewrite L6|]. intros [Hb H6]%Hok. destruct (C6 Hb H6) as [H4 _]. destruct (C4 eq_refl H4) as [_ [C1 C2 C3 C5]].
    split; [by setoid_rewrite L6|by setoid_rewrite L6|by setoid_rewrite D6|by setoid_rewrite D6].
  - split; [unfold unowned in *; by rewrite U6, L4|]. intros [Hb H6]%Hok. destruct (C6 Hb H6) as [_ [C1 C2 C3 C5]].
    split; [done|done|done|]. cbn in L4. by rewrite L4 in C5.
Qed.

(** C36: the host's policy routing becomes exactly the plan's.  Whatever rules
    an earlier Agent or anyone else left, and whichever commands fail, rules
    outside the Agent's range are untouched; when [Apply] reports no error, each
    rule in the range is one the routes want, each rule they want is there,
    each table of one route has that route's default route, and the tables of
    the rules that went are empty. *)
Theorem routing_converges LookupHost ranged plan rs k k' ok f : 0 ≤ First → Last < 2 ^ 32 → ranges ranged →
  Routes LookupHost ranged plan First Last = Ok rs → Apply K ip decodeRules First Last rs k = (k', ok) → f ∈ ["-4"; "-6"] →
  unowned f k' ≡ₚ unowned f k ∧ (ok = true → converged rs f k k').
Proof. intros H0 H32 Hr Hrs%routes_routable; [|done]. by apply (apply_converges rs). Qed.

End Host.

End NetworkRules.

(** ** Policy routing: a host

    A host whose ip command does what [IPRoute2] says, the plan of the unit
    tests on it, and the witnesses of the theorems on routing. *)

Module NetworkHost.
Import GoNet NetworkPlan NetworkRoute NetworkRouting NetworkRules.

#[local] Arguments format_uint : simpl never.
#[local] Arguments parse_uint : simpl never.

(** ** Rules as text *)

#[local] Instance rule_countable : Countable rule.
Proof.
  apply (inj_countable' (λ x, (rPriority x, Src x, SrcLen x, Dst x, DstLen x, rTable x))
    (λ '(p, s, n, d, m, t), mkRule p s n d m t)). by intros [].
Defined.

Fixpoint pos_text (p : positive) : string :=
  match p with xH => "!" | xO p => String "0" (pos_text p) | xI p => String "1" (pos_text p) end.

Fixpoint text_pos (s : string) : positive :=
  match s with
  | EmptyString => xH
  | String c s => if Ascii.eqb c "!" then xH else if Ascii.eqb c "0" then xO (text_pos s) else xI (text_pos s)
  end.

Lemma text_pos_text p : text_pos (pos_text p) = p.
Proof. induction p; cbn; congruence. Qed.

Definition decodeRules (s : string) : option (list rule) := decode (text_pos s).

Lemma pos_text_ends p : holds_of is_graphic (first_char (pos_text p)) = true ∧ holds_of is_graphic (last_char (pos_text p)) = true.
Proof.
  split; [by destruct p|]. induction p as [p IH|p IH|]; cbn [pos_text]; [|rewrite last_char_cons; [done|by destruct p]..|done].
  rewrite last_char_cons; [done|by destruct p].
Qed.

(** ** The host *)

(** The rules by family, and the default routes by family and table. *)
Record Kernel := mkKernel { kRules : list (string * rule); kDefaults : gmap (string * string) (list string) }.

#[local] Instance plainly_dec w : Decision (plainly w).
Proof. unfold plainly, spaceless. apply _. Defined.

Definition kernelRules (f : string) (k : Kernel) : list rule := filter (λ x, plainly (selectors x)) (snd <$> filter (λ x, x.1 = f) (kRules k)).

(** The first entry that [p] holds of is removed. *)
Fixpoint remove_first {A} (p : A → bool) (l : list A) : option (list A) :=
  match l with
  | [] => None
  | x :: l => if p x then Some l else cons x <$> remove_first p l
  end.

Definition removes (args : list string) (e : string * rule) : bool :=
  bool_decide (plainly (selectors e.2)) && bool_decide (deleteArgs e.1 e.2 = args).

Definition addTo (k : Kernel) (f : string) (x : rule) : Kernel * option string :=
  if bool_decide (plainly (selectors x)) then (mkKernel ((f, x) :: kRules k) (kDefaults k), Some "") else (k, None).

Definition ipAdd (f : string) (rest : list string) (k : Kernel) : Kernel * option string :=
  match rest with
  | [kind; s; _; t; _; p] =>
    match parse_uint p with
    | Some n => if String.eqb kind "from" then addTo k f (mkRule n s 0 "" 0 t)
                else if String.eqb s "" then (k, None) else addTo k f (mkRule n "all" 0 s 0 t)
    | None => (k, None)
    end
  | _ => (k, None)
  end.

Definition hostIP (args : list string) (k : Kernel) : Kernel * option string :=
  match args with
  | a :: b :: c :: rest =>
    if String.eqb a "-j" && String.eqb c "rule" then (k, Some (pos_text (encode (kernelRules b k))))
    else if String.eqb c "delete" then
      match remove_first (removes args) (kRules k) with Some l => (mkKernel l (kDefaults k), Some "") | None => (k, None) end
    else if String.eqb c "add" then ipAdd a rest k
    else if String.eqb c "flush" then (mkKernel (kRules k) (delete (a, List.last args "") (kDefaults k)), Some "")
    else if String.eqb c "replace" then (mkKernel (kRules k) (<[(a, List.last args "") := args]> (kDefaults k)), Some "")
    else (k, None)
  | _ => (k, None)
  end.

(** ** It does what the ip command is documented to do *)

Lemma remove_first_spec {A} (p : A → bool) l l' : remove_first p l = Some l' → ∃ l1 x l2, l = l1 ++ x :: l2 ∧ l' = l1 ++ l2 ∧ p x = true.
Proof.
  revert l'. induction l as [|y l IH]; intros l'; cbn; [done|]. destruct (p y) eqn:E; [intros [= <-]; by exists [], y, l|].
  destruct (remove_first p l) as [l0|]; [|done]. intros [= <-]. destruct (IH l0 eq_refl) as (l1 & x & l2 & -> & -> & Hx). by exists (y :: l1), x, l2.
Qed.

Lemma option_args_inj a b c a' b' c' :
  option_arg "from" a ++ option_arg "to" b ++ option_arg "table" c = option_arg "from" a' ++ option_arg "to" b' ++ option_arg "table" c' →
  a = a' ∧ b = b' ∧ c = c'.
Proof.
  unfold option_arg. destruct (String.eqb_spec a ""), (String.eqb_spec b ""), (String.eqb_spec c ""), (String.eqb_spec a' ""), (String.eqb_spec b' ""), (String.eqb_spec c' "");
    subst; cbn; intros E; simplify_eq; done.
Qed.

Lemma deleteArgs_inj f g x y : plainly (selectors x) → plainly (selectors y) → deleteArgs f x = deleteArgs g y → f = g ∧ selectors x = selectors y.
Proof.
  intros (Px & _) (Py & _) [= -> Ep E]. apply option_args_inj in E as (Ef & Et & Eb). split; [done|].
  apply format_uint_inj in Ep; [|cbn in *; lia..]. unfold selectors. congruence.
Qed.

Lemma kernelRules_app f l1 e l2 d : kernelRules f (mkKernel (l1 ++ e :: l2) d) =
  kernelRules f (mkKernel l1 d) ++ (if bool_decide (e.1 = f ∧ plainly (selectors e.2)) then [e.2] else []) ++ kernelRules f (mkKernel l2 d).
Proof.
  unfold kernelRules. cbn [kRules]. rewrite filter_app, fmap_app, filter_app. f_equal. rewrite filter_cons.
  destruct (decide (e.1 = f)) as [E|E]; [|by rewrite bool_decide_false by naive_solver]. rewrite fmap_cons, filter_cons.
  destruct (decide (plainly _)); [by rewrite bool_decide_true by done|by rewrite bool_decide_false by naive_solver].
Qed.

Lemma kernelRules_join f l1 l2 d : kernelRules f (mkKernel (l1 ++ l2) d) = kernelRules f (mkKernel l1 d) ++ kernelRules f (mkKernel l2 d).
Proof. unfold kernelRules. cbn [kRules]. by rewrite filter_app, fmap_app, filter_app. Qed.

Lemma kernelRules_defaults f l d d' : kernelRules f (mkKernel l d) = kernelRules f (mkKernel l d').
Proof. done. Qed.

Lemma host_delete f x k k' out : hostIP (deleteArgs f x) k = (k', Some out) → plainly (selectors x) →
  (∃ l1 y l2, kernelRules f k = l1 ++ y :: l2 ∧ kernelRules f k' = l1 ++ l2 ∧ selectors y = selectors x)
  ∧ (∀ g, g ≠ f → kernelRules g k' = kernelRules g k) ∧ kDefaults k' = kDefaults k.
Proof.
  intros E Hx. assert (hostIP (deleteArgs f x) k =
    match remove_first (removes (deleteArgs f x)) (kRules k) with Some l => (mkKernel l (kDefaults k), Some "") | None => (k, None) end) as E'.
  { unfold hostIP, deleteArgs. cbn [app]. change (String.eqb "delete" "rule") with false. by rewrite andb_false_r. }
  rewrite E' in E. destruct (remove_first _ _) as [l|] eqn:Er; [|done]. injection E as <- <-. cbn [kDefaults].
  apply remove_first_spec in Er as (l1 & [g y] & l2 & Ek & -> & Hr). unfold removes in Hr. cbn in Hr.
  apply andb_true_iff in Hr as [Hy%bool_decide_eq_true Hd%bool_decide_eq_true]. apply deleteArgs_inj in Hd as [-> Hd]; [|done..].
  destruct k as [rs d]. cbn [kRules kDefaults] in Ek |- *. subst rs. split; [|split; [|done]].
  - exists (kernelRules f (mkKernel l1 d)), y, (kernelRules f (mkKernel l2 d)). split; [|split; [apply kernelRules_join|done]].
    rewrite kernelRules_app. by rewrite bool_decide_true.
  - intros g Hg. rewrite kernelRules_app, kernelRules_join, bool_decide_false by naive_solver. done.
Qed.

Lemma host_add f x k k' out : addTo k f x = (k', Some out) →
  kernelRules f k' ≡ₚ x :: kernelRules f k ∧ (∀ g, g ≠ f → kernelRules g k' = kernelRules g k) ∧ kDefaults k' = kDefaults k.
Proof.
  unfold addTo. case_bool_decide as Hp; [|done]. intros [= <- <-]. destruct k as [rs d]. cbn [kRules kDefaults]. split; [|split; [|done]].
  - pose proof (kernelRules_app f [] (f, x) rs d) as E. rewrite bool_decide_true in E by done. cbn [app] in E. by rewrite E.
  - intros g Hg. pose proof (kernelRules_app g [] (f, x) rs d) as E. by rewrite bool_decide_false in E by naive_solver.
Qed.

Lemma hostIP_failed args k k' : hostIP args k = (k', None) → k' = k.
Proof. unfold hostIP, ipAdd, addTo. repeat case_match; by intros [= <-]. Qed.

Lemma kernelRules_plain f k x : x ∈ kernelRules f k → plainly (selectors x).
Proof. by intros [? _]%list_elem_of_filter. Qed.

Lemma replaceArgs_last f r : List.last (replaceArgs f r) "" = tableOf r.
Proof. unfold replaceArgs. by destruct (RGateway r). Qed.

#[export] Instance host_iproute2 : IPRoute2 hostIP decodeRules.
Proof.
  refine {| listed := kernelRules; defaultRoute := λ f t k, kDefaults k !! (f, t) |}.
  - exact hostIP_failed.
  - intros f k k' out [= <- <-]. split; [done|]. destruct (pos_text_ends (encode (kernelRules f k))) as [H1 H2].
    rewrite trim_space_id by done. unfold decodeRules. rewrite text_pos_text, decode_encode. by destruct (encode _).
  - intros f k x Hx. by apply kernelRules_plain in Hx.
  - intros f x k k' out Hx E. assert (plainly (selectors x)) as Hp.
    { apply list_elem_of_fmap in Hx as (y & -> & Hy). by apply kernelRules_plain in Hy. }
    destruct (host_delete f x k k' out E Hp) as (H1 & H2 & H3). split; [done|]. split; [done|]. intros g t. by rewrite H3.
  - intros f s table p k k' out Hp E. unfold hostIP, addArgs in E. change (String.eqb "add" "rule") with false in E.
    rewrite andb_false_r in E. cbn [String.eqb Ascii.eqb Bool.eqb] in E. unfold ipAdd in E. rewrite parse_format_uint in E by lia. cbn [String.eqb Ascii.eqb Bool.eqb] in E.
    destruct (host_add _ _ _ _ _ E) as (H1 & H2 & H3). split; [|split; [done|intros g t; by rewrite H3]].
    eexists. split; [exact H1|]. assert (fromOf (mkRule p s 0 "" 0 table) = s) as Hf by (unfold fromOf, with_len; cbn; by rewrite andb_false_r).
    unfold shows, selectors. cbn [fst snd]. rewrite Hf. split; [done|]. split; [by left|]. split; [by left|done].
  - intros f s table p k k' out Hp E. unfold hostIP, addArgs in E. change (String.eqb "add" "rule") with false in E.
    rewrite andb_false_r in E. cbn [String.eqb Ascii.eqb Bool.eqb] in E. unfold ipAdd in E. rewrite parse_format_uint in E by lia. cbn [String.eqb Ascii.eqb Bool.eqb] in E.
    destruct (String.eqb_spec s "") as [|Hs]; [done|]. destruct (host_add _ _ _ _ _ E) as (H1 & H2 & H3). split; [|split; [done|intros g t; by rewrite H3]].
    eexists. split; [exact H1|]. assert (toOf (mkRule p "all" 0 s 0 table) = s) as Ht by (unfold toOf, with_len; cbn; by rewrite andb_false_r).
    assert (fromOf (mkRule p "all" 0 s 0 table) = "") as Hf by (unfold fromOf; rewrite Ht; by destruct (String.eqb_spec s "")).
    unfold shows, selectors. cbn [fst snd]. rewrite Hf, Ht. split; [done|]. split; [by left|]. split; [by left|done].
  - intros f t k k' out E. assert (k' = mkKernel (kRules k) (delete (f, t) (kDefaults k))) as ->.
    { unfold hostIP, flushArgs in E. change (String.eqb "flush" "rule") with false in E. rewrite andb_false_r in E. by injection E. }
    cbn [kDefaults]. split; [done|]. split; [apply lookup_delete_eq|]. intros g u Hne. apply lookup_delete_ne. congruence.
  - intros f r k k' out E. assert (k' = mkKernel (kRules k) (<[(f, tableOf r) := replaceArgs f r]> (kDefaults k))) as ->.
    { rewrite <- (replaceArgs_last f r). revert E. unfold hostIP. destruct (replaceArgs f r) as [|a [|b [|c rest]]] eqn:Er; [done..|].
      injection Er as <- <- <- Er. change (String.eqb "replace" "rule") with false. rewrite andb_false_r. by intros [= <- _]. }
    cbn [kDefaults]. split; [done|]. split; [apply lookup_insert_eq|]. intros g u Hne. apply lookup_insert_ne. congruence.
Qed.

(** ** The plans of the unit tests *)

Definition cn2 : Line := mkLine "ln-cn2" "eth1" "198.51.100.1" "2001:db8::1".

Definition routedPlan : Plan :=
  mkPlan 1 "h" "proxy:62" [cn2; mkLine "ln-def" "eth0" "192.0.2.1" ""]
    [mkEgress "eg-b" "ln-cn2" "198.51.100.10" "" 0 0; mkEgress "eg-a" "ln-cn2" "2001:db8::10" "" 20000 0;
     mkEgress "eg-auto" "ln-def" "auto" "" 0 0; mkEgress "eg-c" "ln-cn2" "198.51.100.11" "198.51.100.254" 0 20005]
    [mkTransport "t" "anx_line" Dial "eg-b" "" (Some (mkSettings "" "" "203.0.113.50:24443" "jp.example.com:24443" "" "" "" false "" "" "" [] false false))]
    [] [] [] [] [] [].

Definition lookup (host : string) : option (list Addr) :=
  if String.eqb host "jp.example.com" then Some [V4 203 0 113 51; V6 [8193; 3512; 0; 0; 0; 0; 0; 80] ""] else None.

Definition routedRoutes : list Route :=
  [mkRoute "eg-a" (V6 [8193; 3512; 0; 0; 0; 0; 0; 16] "") "eth1" (Some (V6 [8193; 3512; 0; 0; 0; 0; 0; 1] "")) 20000 20000 [] 0;
   mkRoute "eg-b" (V4 198 51 100 10) "eth1" (Some (V4 198 51 100 1)) 20001 20001
     [mkPrefix (V4 203 0 113 50) 32; mkPrefix (V4 203 0 113 51) 32] 20999;
   mkRoute "eg-c" (V4 198 51 100 11) "eth1" (Some (V4 198 51 100 254)) 20002 20005 [] 0].

Definition inOrder : gmap string (list Prefix) → list (string * list Prefix) := map_to_list.
Definition backwards (m : gmap string (list Prefix)) : list (string * list Prefix) := reverse (map_to_list m).

Lemma inOrder_ranges : ranges inOrder.
Proof. by intros m. Qed.

Lemma backwards_ranges : ranges backwards.
Proof. intros m. apply reverse_Permutation. Qed.

Example routed_plan : Routes lookup inOrder routedPlan 20000 20999 = Ok routedRoutes
  ∧ Routes lookup inOrder routedPlan 20001 20001 = Err "outside the range".
Proof. split; vm_compute; reflexivity. Qed.

Definition plain (p : Z) (src : string) (n : Z) (t : string) : rule := mkRule p src n "" 0 t.

(** Rules of an earlier Agent and of the system. *)
Definition before : Kernel := mkKernel
  [("-4", plain 0 "all" 0 "local"); ("-4", plain 20001 "198.51.100.10" 32 "20001"); ("-4", plain 20009 "198.51.100.99" 32 "20009");
   ("-4", plain 32766 "all" 0 "main"); ("-6", plain 32766 "all" 0 "main")] {[ ("-4", "20009") := ["stale"] ]}.

Abbreviation afterwards := (Apply Kernel hostIP decodeRules 20000 20999 routedRoutes before).

Example rules_after : afterwards.2 = true ∧ (selectors <$> kernelRules "-4" afterwards.1) =
  [(20005, "198.51.100.11/32", "", "20002"); (20999, "", "203.0.113.51/32", "20001"); (20999, "", "203.0.113.50/32", "20001");
   (0, "all", "", "local"); (20001, "198.51.100.10/32", "", "20001"); (32766, "all", "", "main")]
  ∧ kDefaults afterwards.1 !! ("-4", "20009") = None.
Proof. split; [|split]; vm_compute; reflexivity. Qed.

(** ** Witnesses *)

Lemma routes_order_independent_witness :
  Routes lookup inOrder routedPlan 20000 20999 = Routes lookup backwards routedPlan 20000 20999.
Proof. apply (routes_order_independent lookup inOrder backwards routedPlan 20000 20999 inOrder_ranges backwards_ranges). Defined.

Lemma routes_allocated_witness : ∃ e r, sourced routedPlan 20000 20999 r e ∧ Table r = 20001 ∧ Priority r ≠ 20999.
Proof.
  assert (Routes lookup inOrder routedPlan 20000 20999 = Ok routedRoutes) as Hr by (vm_compute; reflexivity).
  destruct (routes_allocated lookup inOrder routedPlan 20000 20999 routedRoutes Hr) as [H _].
  destruct (H 1%nat _ eq_refl) as (e & Hs & _ & _ & _ & _ & _ & _). eexists e, _. split; [exact Hs|]. split; [reflexivity|discriminate].
Defined.

Lemma routing_converges_witness :
  unowned hostIP decodeRules 20000 20999 "-4" afterwards.1 ≡ₚ unowned hostIP decodeRules 20000 20999 "-4" before ∧ converged hostIP decodeRules 20000 20999 routedRoutes "-4" before afterwards.1.
Proof.
  assert (Routes lookup inOrder routedPlan 20000 20999 = Ok routedRoutes) as Hr by (vm_compute; reflexivity).
  assert (afterwards.2 = true) as Hok by (vm_compute; reflexivity).
  destruct (routing_converges hostIP decodeRules 20000 20999 lookup inOrder routedPlan routedRoutes before afterwards.1 afterwards.2 "-4") as [H1 H2];
    [vm_compute; discriminate|vm_compute; reflexivity|exact inOrder_ranges|exact Hr|exact (surjective_pairing _)|apply list_elem_of_here|].
  split; [exact H1|exact (H2 Hok)].
Defined.

End NetworkHost.
