(* ===== verification/AnxServer.v ===== *)
(** * Accepting ends of ANX lines (anxserver/plan.go, manager.go)

    The anx-server processes that accept the plan's anx_line transports: which
    transports are accepted and how ([Accepts]), which of them share a process
    ([group]), and what a process is told over its management API ([admit],
    [relay], [dial]).  The process is an argument: its calls answer or fail. *)

From S2P Require Import Prelude GoStrings GoNet NetworkPlan.
From Stdlib Require Import Ascii String.

Module AnxServer.
Import GoNet NetworkPlan.

(** [hex.DecodeString] and [hex.EncodeToString]. *)
Fixpoint hexDecode (s : string) : option string :=
  match s with
  | EmptyString => Some ""
  | String a (String b s) =>
    match hex_value a, hex_value b with
    | Some x, Some y => String (ascii_of_N (Z.to_N (16 * x + y))) <$> hexDecode s
    | _, _ => None
    end
  | _ => None
  end.

Fixpoint hexEncode (s : string) : string :=
  match s with
  | EmptyString => ""
  | String c s => hex_pad 2 (code c) +:+ hexEncode s
  end.

Example hex_examples : hexDecode "00ff41" = Some (String "000" (String "255" "A")) ∧ hexDecode "0" = None ∧ hexDecode "0g" = None
  ∧ hexEncode (String "000" (String "255" "A")) = "00ff41".
Proof. vm_compute. done. Qed.

(** ** Messages of the management API *)

Record LinePolicy := mkPolicy { Order : list string; PolicyMultipath : bool; PolicyFec : bool }.

Record Link := mkLink {
  LkId : string; LkKey : string; LkServerPublic : string; LkQuic : string; LkFaketcp : string; LkTcp : string;
  LkEgress : string; LkServerName : string; LkReverse : bool; UdpLanes : Z; Policy : option LinePolicy
}.

Record ReverseDial := mkDial {
  DialId : string; DialAddr : string; DialKey : string; DialQuic : bool; DialFaketcp : bool; A2ServerName : string; DialHubPublic : string
}.

(** ** What the plan has this device accept *)

Record Accept := mkAccept {
  ATransport : string; ALinkID : string; ALinkKey : string; TCP : string; QUIC : string; FakeTCP : string;
  L2 : bool; ServerName : string; Sources : list Addr; Next : option Link; ADial : string; ReverseListen : string;
  HubPublic : string; ReverseA2SNI : string; ReverseQUIC : bool; ReverseFakeTCP : bool
}.

#[export] Instance LinePolicy_eq_dec : EqDecision LinePolicy.
Proof. solve_decision. Defined.
#[export] Instance Link_eq_dec : EqDecision Link.
Proof. solve_decision. Defined.
#[export] Instance ReverseDial_eq_dec : EqDecision ReverseDial.
Proof. solve_decision. Defined.
#[export] Instance Accept_eq_dec : EqDecision Accept.
Proof. solve_decision. Defined.

Definition TransportAnxLine : string := "anx_line".
Definition SourceAuto : string := "auto".

Definition ReverseCarriers (order : list string) : bool * bool :=
  foldl (λ r carrier, if String.eqb carrier "c2" || String.eqb carrier "quic" then (true, r.2)
                      else if String.eqb carrier "c3" || String.eqb carrier "faketcp" then (r.1, true) else r) (false, false) order.

Definition linkKey (s : AnxLineSettings) : option string :=
  match hexDecode (LinkKey s) with Some key => if len key =? 32 then Some key else None | None => None end.

Definition settingsOf (t : Transport) : AnxLineSettings := default noSettings (AnxLine t).

Definition DialLink (t : Transport) : result Link :=
  let s := settingsOf t in
  match linkKey s with
  | None => Err "the link key is not 32 bytes of hex"
  | Some key =>
    Ok (mkLink (TransportId t) key (ServerPublic s) (QuicAddr s) (FaketcpAddr s) (TcpAddr s) (SettingsEgress s) (ServerNames s) (Reverse s) 1
          (if negb (bool_decide (CarrierOrder s = [])) || Multipath s || Fec s then Some (mkPolicy (CarrierOrder s) (Multipath s) (Fec s)) else None))
  end.

(** The accept of a transport before its forwarding. *)
Definition baseAccept (t : Transport) (key : string) : Accept :=
  let s := settingsOf t in
  let l2 := String.eqb (SettingsEgress s) "l2" in
  let carriers := if Reverse s && negb l2 then ReverseCarriers (CarrierOrder s) else (false, false) in
  mkAccept (TransportId t) (if String.eqb (LinkId s) "" then TransportId t else LinkId s) key (TcpAddr s) (QuicAddr s) (FaketcpAddr s)
    l2 (ServerNames s) [] None (if Reverse s then ReverseDialAddr s else "") ""
    (if Reverse s && l2 then ServerPublic s else "") "" carriers.1 carriers.2.

(** Accepted traffic goes into a dialing transport. *)
Definition relayAccept (a : Accept) (into : Transport) (link : Link) : result Accept :=
  let s := settingsOf into in
  let finish (listen sni : string) (c : bool * bool) :=
    mkAccept (ATransport a) (ALinkID a) (ALinkKey a) (TCP a) (QUIC a) (FakeTCP a) (L2 a) (ServerName a) (Sources a) (Some link) (ADial a)
      listen (HubPublic a) sni c.1 c.2 in
  if negb (LkReverse link) then Ok (finish (ReverseListen a) (ReverseA2SNI a) (ReverseQUIC a, ReverseFakeTCP a))
  else if String.eqb (LkEgress link) "l2" then
    if String.eqb (LkServerName link) "" then Err "the reverse l2 link needs a server name"
    else Ok (finish (ReverseListenAddr s) (LkServerName link) (ReverseQUIC a, ReverseFakeTCP a))
  else Ok (finish (ReverseListenAddr s) (ReverseA2SNI a) (ReverseCarriers (CarrierOrder s))).

Definition with_source (a : Accept) (source : Addr) : Accept :=
  mkAccept (ATransport a) (ALinkID a) (ALinkKey a) (TCP a) (QUIC a) (FakeTCP a) (L2 a) (ServerName a) (Sources a ++ [source]) (Next a) (ADial a)
    (ReverseListen a) (HubPublic a) (ReverseA2SNI a) (ReverseQUIC a) (ReverseFakeTCP a).

(** Where the plan forwards an accepted transport. *)
Definition forwardAccept (transports : gmap string Transport) (egresses : gmap string Egress) (a : Accept) (f : Forwarding) : result Accept :=
  if negb (String.eqb (NextTransportId f) "") then
    match transports !! NextTransportId f with
    | None => Err "not a dialing anx_line transport of the plan"
    | Some into =>
      if negb (String.eqb (TransportKind into) TransportAnxLine) || negb (bool_decide (TransportRole into = Dial)) then Err "not a dialing anx_line transport of the plan"
      else let? link := DialLink into in relayAccept a into link
    end
  else match egresses !! NextEgressId f with
       | None => Err "forwarded to an egress that is not in the plan"
       | Some e =>
         if String.eqb (Source e) "" || String.eqb (Source e) SourceAuto then Ok a
         else match ParseAddr (Source e) with
              | None => Err "source"
              | Some address => Ok (with_source a (Unmap address))
              end
       end.

Definition acceptOf (transports : gmap string Transport) (egresses : gmap string Egress) (forwarded : gmap string Forwarding) (t : Transport) : result Accept :=
  match linkKey (settingsOf t) with
  | None => Err "the link key is not 32 bytes of hex"
  | Some key =>
    match forwarded !! TransportId t with
    | None => Ok (baseAccept t key)
    | Some f => forwardAccept transports egresses (baseAccept t key) f
    end
  end.

Definition accepted (t : Transport) : bool := String.eqb (TransportKind t) TransportAnxLine && bool_decide (TransportRole t = AcceptRole).

Definition Accepts (plan : Plan) : result (list Accept) :=
  let transports := keyed TransportId (Transports plan) in
  let egresses := keyed EgressId (Egresses plan) in
  let forwarded := keyed FromTransportId (Forwards plan) in
  let? accepts := foldl (λ acc t, let? acc := acc in
                                 if accepted t then let? a := acceptOf transports egresses forwarded t in Ok (acc ++ [a]) else Ok acc)
                    (Ok []) (Transports plan) in
  Ok (sort_by (λ a b, str_le (ATransport a) (ATransport b)) accepts).

(** The dialing transports only relay hops use. *)
Definition Relayed (plan : Plan) : gset string :=
  let next := filter (λ id, id ≠ "") (NextTransportId <$> Forwards plan) in
  list_to_set next ∖ list_to_set (PathTransports plan ++ PortForwardTransports plan ++ ReverseProxyTransports plan).

(** ** Listeners *)

Record listener := mkListener {
  LTCP : string; LQUIC : string; LFakeTCP : string; LL2 : bool; LServerName : string; LSources : string; LReverseListen : string;
  LReverseA2SNI : string; LReverseQUIC : bool; LReverseFakeTCP : bool
}.

#[export] Instance listener_eq_dec : EqDecision listener.
Proof. solve_decision. Defined.
#[export] Instance listener_countable : Countable listener.
Proof.
  apply (inj_countable' (λ l, (LTCP l, LQUIC l, LFakeTCP l, LL2 l, LServerName l, LSources l, LReverseListen l, LReverseA2SNI l, LReverseQUIC l, LReverseFakeTCP l))
    (λ '(a, b, c, d, e, f, g, h, i, j), mkListener a b c d e f g h i j)). by intros [].
Defined.

Definition listenerOf (a : Accept) : listener :=
  mkListener (TCP a) (QUIC a) (FakeTCP a) (L2 a) (ServerName a) (join (sort_by str_le (addr_string <$> Sources a)) ",")
    (ReverseListen a) (ReverseA2SNI a) (ReverseQUIC a) (ReverseFakeTCP a).

Definition defaultServerName : string := "anx-line".
Definition QUICSocketBuffer : Z := 8 * 2 ^ 20.
Definition QUICDatagramBuffer : Z := 2 ^ 20.

(** [net.JoinHostPort]. *)
Definition JoinHostPort (host port : string) : string :=
  if contains_char host ":" || contains_char host "%" then "[" +:+ host +:+ "]:" +:+ port else host +:+ ":" +:+ port.

(** The text before the first comma. *)
Definition first_name (names : string) : string := match cut names "," with Some (a, _) => a | None => names end.

Definition args (l : listener) : list string :=
  let name := if String.eqb (LServerName l) "" then defaultServerName else LServerName l in
  ["--sni"; name]
  ++ (if String.eqb (LTCP l) "" then []
      else if LL2 l then ["--listen"; LTCP l; "--dest"; JoinHostPort (first_name name) "443"] else ["--bare-listen"; LTCP l])
  ++ (if String.eqb (LQUIC l) "" then [] else ["--quic-listen"; LQUIC l])
  ++ (if negb (String.eqb (LQUIC l) "") || LReverseQUIC l
      then ["--quic-sockbuf"; format_uint QUICSocketBuffer; "--quic-dgram-buf"; format_uint QUICDatagramBuffer] else [])
  ++ (if String.eqb (LFakeTCP l) "" then [] else ["--faketcp-listen"; LFakeTCP l])
  ++ (if String.eqb (LReverseListen l) "" then []
      else if negb (String.eqb (LReverseA2SNI l) "")
      then ["--reverse-a2-listen"; LReverseListen l; "--reverse-a2-sni"; LReverseA2SNI l;
            "--reverse-a2-dest"; JoinHostPort (first_name (LReverseA2SNI l)) "443"]
      else ["--reverse-listen"; LReverseListen l] ++ (if LReverseQUIC l then ["--reverse-quic"] else [])
           ++ (if LReverseFakeTCP l then ["--reverse-faketcp"] else []))
  ++ (if String.eqb (LSources l) "" then [] else split (LSources l) "," ≫= λ s, ["--egress-source"; s]).

(** ** Grouping *)

Definition checkAccept (a : Accept) : result unit :=
  let listens := negb (String.eqb (TCP a) "") || negb (String.eqb (QUIC a) "") || negb (String.eqb (FakeTCP a) "") in
  let reverse := negb (String.eqb (ADial a) "") in
  let? _ := (if reverse && listens then Err "a reverse transport has no listen address"
             else if reverse && L2 a && (String.eqb (HubPublic a) "" || String.eqb (ServerName a) "") then Err "a reverse l2 transport needs a server key and name"
             else if reverse then match SplitHostPort (ADial a) with Some _ => Ok tt | None => Err "reverse dial is not host:port" end
             else if negb listens then Err "no listen address" else Ok tt) in
  if L2 a && String.eqb (ServerName a) "" then Err "l2 needs a server name"
  else
    let v4 := List.length (filter (λ s, Is4 s = true) (Sources a)) in
    let v6 := List.length (filter (λ s, Is4 s = false) (Sources a)) in
    if Nat.ltb 1 v4 || Nat.ltb 1 v6 then Err "more than one egress source per family" else Ok tt.

(** The addresses a listener takes. *)
Definition addressesOf (l : listener) : list string :=
  filter (λ a, has_suffix a " " = false)
    (["tcp " +:+ LTCP l; "udp " +:+ LQUIC l; "fake-tcp " +:+ LFakeTCP l; "tcp " +:+ LReverseListen l]
     ++ (if negb (String.eqb (LReverseListen l) "") && LReverseQUIC l then ["udp " +:+ LReverseListen l] else [])).

Abbreviation Groups := (gmap listener (list Accept)).

Definition addGroup (g : Groups) (a : Accept) : Groups := <[listenerOf a := default [] (g !! listenerOf a) ++ [a]]> g.

Definition groupStep (s : result (Groups * gset string)) (a : Accept) : result (Groups * gset string) :=
  let? s := s in
  let? _ := checkAccept a in
  if bool_decide (ALinkID a ∈ s.2) then Err "the same link id" else Ok (addGroup s.1 a, {[ALinkID a]} ∪ s.2).

(** One address of a listener: [owners] are those seen. *)
Definition ownAddress (l : listener) (owners : result (gmap string listener)) (address : string) : result (gmap string listener) :=
  let? owners := owners in
  match owners !! address with
  | Some other => if bool_decide (other = l) then Ok (<[address := l]> owners) else Err "listen address is wanted by two configurations"
  | None => Ok (<[address := l]> owners)
  end.

Section Group.

(** The order in which the groups are ranged over. *)
Variable ranged : Groups → list listener.

Definition group (accepts : list Accept) : result Groups :=
  let? s := foldl groupStep (Ok (∅, ∅)) accepts in
  let? _ := foldl (λ owners l, foldl (ownAddress l) owners (addressesOf l)) (Ok ∅) (ranged s.1) in
  Ok s.1.

End Group.

End AnxServer.
