(* ===== verification/AnxServing.v ===== *)
(** * Accepting ends of ANX lines: the processes (anxserver/manager.go)

    What a process is told over its management API, the loop that keeps it at
    the wanted links while they change and the process comes and goes, and the
    manager of the processes.  The process is an argument ([AnxProcess]). *)

From S2P Require Import Prelude GoStrings GoNet NetworkPlan AnxLine AnxServer.
From Stdlib Require Import Ascii String.

Module AnxServing.
Import GoNet NetworkPlan AnxServer.

(** The management API of a process; [None] and [false] are errors.  A user is
    its key and external id, a route a user and a link. *)
Class AnxProcess (P : Type) := {
  AddUsers : list (string * string) → P → P * option (list string);
  RemoveUsers : list string → P → P * bool;
  AddLinks : list Link → P → P * bool;
  RemoveLinks : list string → P → P * bool;
  SetLinkRoutes : list (string * string) → P → P * bool;
  SetReverseDials : list ReverseDial → P → P * bool
}.

Record admitted := mkAdmitted { adKey : string; adUser : string }.

Record relaying := mkRelaying { rLinks : gmap string Link; rRoutes : gmap string string; rSet : bool }.

Section Process.
Context {P : Type} `{!AnxProcess P}.

(** ** Links *)

Definition keeps (current : gmap string admitted) (a : Accept) : bool :=
  match current !! ALinkID a with Some have => String.eqb (adKey have) (ALinkKey a) | None => false end.

(** [AddUsers] until it answers, at most [attempts] times more. *)
Fixpoint addUntil (attempts : nat) (users : list (string * string)) (p : P) : P * option (list string) :=
  match AddUsers users p with
  | (p, Some ids) => (p, Some ids)
  | (p, None) => match attempts with O => (p, None) | S n => addUntil n users p end
  end.

Definition record_link (current : gmap string admitted) (x : Accept * string) : gmap string admitted :=
  <[ALinkID x.1 := mkAdmitted (ALinkKey x.1) x.2]> current.

(** [admit]: [attempts] is how often a process that was just started is asked
    again (until the deadline, its exit or the close). *)
Definition admitLinks (attempts : nat) (first : bool) (wanted : list Accept) (current : gmap string admitted) (p : P) : P * result (gmap string admitted) :=
  let adding := filter (λ a, keeps current a = false) wanted in
  let keep : gset string := list_to_set (ALinkID <$> filter (λ a, keeps current a = true) wanted) in
  let removing := filter (λ x, x.1 ∉ keep) (map_to_list current) in
  let '(p, removed) := if bool_decide (removing = []) then (p, true) else RemoveUsers (adUser <$> removing.*2) p in
  if negb removed then (p, Err "remove links")
  else
    let current := foldl (λ m link, delete link m) current removing.*1 in
    if bool_decide (adding = []) && negb first then (p, Ok current)
    else match addUntil (if first then attempts else O) ((λ a, (ALinkKey a, ALinkID a)) <$> adding) p with
         | (p, None) => (p, Err "add links")
         | (p, Some ids) =>
           if negb (bool_decide (List.length ids = List.length adding)) then (p, Err "add links: user ids")
           else (p, Ok (foldl record_link current (zip adding ids)))
         end.

(** ** Relays *)

(** The links the wanted accepts relay into, and the routes into them. *)
Definition relayLinks (wanted : list Accept) : gmap string Link :=
  foldl (λ m a, match Next a with
                | Some l => if bool_decide (is_Some (m !! LkId l)) then m else <[LkId l := l]> m
                | None => m
                end) ∅ wanted.

Definition relayTable (current : gmap string admitted) (wanted : list Accept) : result (list (string * string)) :=
  foldl (λ table a, let? table := table in
                    match Next a with
                    | None => Ok table
                    | Some l => match current !! ALinkID a with
                                | None => Err "relay: the link is not admitted"
                                | Some have => Ok (table ++ [(adUser have, LkId l)])
                                end
                    end) (Ok []) wanted.

Definition routesOf (table : list (string * string)) : gmap string string := foldl (λ m r, <[hexEncode r.1 := r.2]> m) ∅ table.

(** The ids of the links of [m] that [m'] does not have the same. *)
Definition differing (m m' : gmap string Link) : list string := filter (λ id, m' !! id ≠ m !! id) (map_to_list m).*1.

Definition relay (wanted : list Accept) (current : gmap string admitted) (state : relaying) (p : P) : P * result relaying :=
  match relayTable current wanted with
  | Err e => (p, Err e)
  | Ok table =>
    let links := relayLinks wanted in
    let routes := routesOf table in
    let remove := sort_by str_le (differing (rLinks state) links) in
    let add := omap (λ id, links !! id) (sort_by str_le (differing links (rLinks state))) in
    if bool_decide (remove = []) && bool_decide (add = []) && bool_decide (routes = rRoutes state) && (rSet state || bool_decide (routes = ∅))
    then (p, Ok state)
    else
      let sorted := sort_by (λ a b, str_le a.1 b.1) table in
      let '(p, cleared) := if bool_decide (remove = []) then (p, true) else SetLinkRoutes [] p in
      if negb cleared then (p, Err "clear link routes")
      else let '(p, removed) := if bool_decide (remove = []) then (p, true) else RemoveLinks remove p in
      if negb removed then (p, Err "remove relay links")
      else let '(p, added) := if bool_decide (add = []) then (p, true) else AddLinks add p in
      if negb added then (p, Err "add relay links")
      else let '(p, set) := SetLinkRoutes sorted p in
      if negb set then (p, Err "set link routes")
      else (p, Ok (mkRelaying (foldl (λ m l, <[LkId l := l]> m) (foldl (λ m id, delete id m) (rLinks state) remove) add) routes true))
  end.

(** ** Reverse dials *)

Definition dialOf (a : Accept) : ReverseDial :=
  mkDial (ATransport a) (ADial a) (ALinkKey a) (ReverseQUIC a) (ReverseFakeTCP a)
    (if L2 a then first_name (ServerName a) else "") (if L2 a then HubPublic a else "").

Definition dialsOf (wanted : list Accept) : list ReverseDial :=
  sort_by (λ a b, str_le (DialId a) (DialId b)) (dialOf <$> filter (λ a, ADial a ≠ "") wanted).

Definition dial (wanted : list Accept) (current : list ReverseDial) (p : P) : P * result (list ReverseDial) :=
  let dials := dialsOf wanted in
  if bool_decide (dials = current) then (p, Ok current)
  else let '(p, set) := SetReverseDials dials p in
       if set then (p, Ok dials) else (p, Err "set reverse dials").

(** ** One server *)

Inductive phase := ToAdmit | ToRelay | ToDial | Waiting.

(** A running process with what the loop of [serve] remembers of it. *)
Record Run := mkRun {
  proc : P; current : gmap string admitted; relays : relaying; dials : list ReverseDial; first : bool; at_phase : phase
}.

Record Server := mkServer {
  wanted : list Accept; wake : bool; ready : bool; detail : string; failures : Z; running : option Run
}.

Definition newServer (accepts : list Accept) : Server := mkServer accepts true false "" 0 None.

Definition want (accepts : list Accept) (s : Server) : Server :=
  mkServer accepts true (ready s) (detail s) (failures s) (running s).

(** The process that was just started has been connected to. *)
Definition launch (p : P) (s : Server) : Server :=
  mkServer (wanted s) (wake s) (ready s) (detail s) (failures s) (Some (mkRun p ∅ (mkRelaying ∅ ∅ false) [] true ToAdmit)).

(** [serve] returns an error: the process is stopped, [run] records why and
    waits before it starts the next one. *)
Definition down (reason : string) (s : Server) : Server :=
  mkServer (wanted s) (wake s) false reason (failures s + 1) None.

Definition restartDelays : list duration := [second; 2 * second; 5 * second; 15 * second; 30 * second].

(** The delay after a failure, when [n] failed before it. *)
Definition restartDelay (n : Z) : duration := default 0 (restartDelays !! Z.to_nat (Z.min n (Z.of_nat (List.length restartDelays) - 1))).

Definition set_run (s : Server) (r : Run) : Server :=
  mkServer (wanted s) (wake s) (ready s) (detail s) (failures s) (Some r).

(** The next step of the loop of [serve]; each reads the wanted accepts. *)
Definition serveStep (attempts : nat) (s : Server) : Server :=
  match running s with
  | None => s
  | Some r =>
    match at_phase r with
    | ToAdmit => match admitLinks attempts (first r) (wanted s) (current r) (proc r) with
                 | (p, Ok c) => set_run s (mkRun p c (relays r) (dials r) (first r) ToRelay)
                 | (_, Err e) => down e s
                 end
    | ToRelay => match relay (wanted s) (current r) (relays r) (proc r) with
                 | (p, Ok x) => set_run s (mkRun p (current r) x (dials r) (first r) ToDial)
                 | (_, Err e) => down e s
                 end
    | ToDial => match dial (wanted s) (dials r) (proc r) with
                | (p, Ok d) => mkServer (wanted s) (wake s) true "" (failures s) (Some (mkRun p (current r) (relays r) d false Waiting))
                | (_, Err e) => down e s
                end
    | Waiting => if wake s then mkServer (wanted s) false (ready s) (detail s) (failures s)
                                  (Some (mkRun (proc r) (current r) (relays r) (dials r) (first r) ToAdmit))
                 else s
    end
  end.

(** ** The manager *)

Record Manager := mkManager { public : string; servers : gmap listener Server; rst : bool }.

(** [publicKey] with what the host answers: the files, whether the directory
    can be made, keygen's output and whether the public key can be written. *)
Record KeyHost := mkKeyHost { pubFile : option string; keyThere : bool; dirOk : bool; keygen : option string; pubWritten : bool }.

Definition printedKey (out : string) : string :=
  foldl (λ public line, let line := trim_space line in
                        if has_prefix line "public:" then trim_space (trim_prefix line "public:") else public) "" (split out "010").

Definition publicKey (h : KeyHost) (m : Manager) : Manager * result string :=
  if negb (String.eqb (public m) "") then (m, Ok (public m))
  else
    let keep (key : string) := (mkManager key (servers m) (rst m), Ok key) in
    let found := match pubFile h with Some text => if keyThere h then trim_space text else "" | None => "" end in
    if negb (String.eqb found "") then keep found
    else if negb (dirOk h) then (m, Err "anx-server directory")
    else match keygen h with
         | None => (m, Err "anx-server keygen")
         | Some out =>
           let key := printedKey out in
           if String.eqb key "" then (m, Err "anx-server keygen printed no public key")
           else if negb (pubWritten h) then (m, Err "anx-server public key") else keep key
         end.

(** [netip.ParseAddrPort]. *)
Definition ParseAddrPort (s : string) : option (Addr * Z) :=
  match last_index s ":" with
  | None => None
  | Some i =>
    let host := slice s 0 i in
    let port := drop_chars (S i) s in
    if String.eqb host "" then None
    else
      let v6 := has_prefix host "[" in
      if v6 && ((len host <? 2) || negb (has_suffix host "]")) then None
      else
        let host := if v6 then slice host 1 (String.length host - 1) else host in
        match parse_uint port, ParseAddr host with
        | Some n, Some a => if (n <? 2 ^ 16) && Bool.eqb v6 (negb (Is4 a)) then Some (a, n) else None
        | _, _ => None
        end
  end.

(** The fake-TCP links of the accepts; [None] for an address that is not IPv4. *)
Definition rstLink (a : Accept) : option AnxLine.Link :=
  match ParseAddrPort (FakeTCP a) with
  | Some (address, port) =>
    let local := Unmap address in
    if Is4 local
    then Some (AnxLine.mkLink (ATransport a) (Some (AnxLine.mkFakeTCP AnxLine.RoleServer port (if IsUnspecified local then "" else addr_string local) "" [])) None)
    else None
  | None => None
  end.

Definition rstLinks (accepts : list Accept) : option (list AnxLine.Link) := mapM rstLink (filter (λ a, FakeTCP a ≠ "") accepts).

(** [applyRST] with a firewall that takes links or fails; whether it is fine. *)
Definition applyRST (RST : option (list AnxLine.Link → bool)) (accepts : list Accept) (m : Manager) : Manager * bool :=
  match RST with
  | None => (m, true)
  | Some install =>
    match rstLinks accepts with
    | None => (m, false)
    | Some links =>
      if bool_decide (links = []) && negb (rst m) then (m, true)
      else if install links then (mkManager (public m) (servers m) (negb (bool_decide (links = []))), true) else (m, false)
    end
  end.

(** Each group has its server, which wants the group; the others are closed. *)
Definition applyServers (groups : Groups) (ss : gmap listener Server) : gmap listener Server :=
  map_imap (λ l accepts, Some (match ss !! l with Some s => want accepts s | None => newServer accepts end)) groups.

Definition Apply (ranged : Groups → list listener) (h : KeyHost) (RST : option (list AnxLine.Link → bool)) (accepts : list Accept) (m : Manager) : Manager * result unit :=
  match group ranged accepts with
  | Err e => (m, Err e)
  | Ok groups =>
    let '(m, key) := if bool_decide (groups = ∅) then (m, Ok "") else publicKey h m in
    match key with
    | Err e => (m, Err e)
    | Ok _ =>
      let '(m, fine) := applyRST RST accepts m in
      (mkManager (public m) (applyServers groups (servers m)) (rst m), if fine then Ok tt else Err "fake-TCP RST rules")
    end
  end.

Definition Close (m : Manager) : Manager := mkManager (public m) ∅ (rst m).

(** [Apply] raises the host's socket buffers when a listener offers QUIC. *)
Definition raisesBuffers (groups : Groups) : bool := bool_decide (Exists (λ x, LQUIC x.1 ≠ "") (map_to_list groups)).

(** ** Status *)

Record LinkStat := mkLinkStat {
  StatLink : string; Connected : bool; Carrier : string; StatRttMs : Z; Probes : list (string * bool * Z); SentPackets : Z; LostPackets : Z
}.

Record ComponentStatus := mkComponent { CId : string; CApplied : bool; CDetail : string; CCarrier : string; RttMs : Z; LossPpm : Z }.

(** The handshake the carrier's last probe took. *)
Definition probeRtt (carrier : string) (probes : list (string * bool * Z)) : Z :=
  foldl (λ rtt '(c, ok, ms), if String.eqb c carrier && ok && (0 <? ms) then ms else rtt) 0 probes.

Definition withStat (c : ComponentStatus) (stat : option LinkStat) : ComponentStatus :=
  match stat with
  | None => c
  | Some s =>
    if negb (Connected s) then c
    else mkComponent (CId c) (CApplied c) (CDetail c) (Carrier s)
           (if StatRttMs s =? 0 then probeRtt (Carrier s) (Probes s) else StatRttMs s)
           (if 0 <? SentPackets s then Z.min (u64 (LostPackets s * 1000000) / SentPackets s) 1000000 else 0)
  end.

(** [status] with the link stats the process answers. *)
Definition status (stats : gmap string LinkStat) (s : Server) : list ComponentStatus :=
  let stats := if ready s then stats else ∅ in
  let component (id : string) (link : string) := withStat (mkComponent id (ready s) (detail s) "" 0 0) (stats !! link) in
  (foldl (λ x a,
     let out := x.1 ++ [component (ATransport a) (ALinkID a)] in
     let next := match Next a with Some l => LkId l | None => "" end in
     if String.eqb next "" || bool_decide (next ∈ x.2) then (out, x.2) else (out ++ [component next next], {[next]} ∪ x.2))
    ([], ∅ : gset string) (wanted s)).1.

(** [Status]: the components of every server, by id. *)
Definition Status (ranged : gmap listener Server → list Server) (stats : Server → gmap string LinkStat) (m : Manager) : list ComponentStatus :=
  sort_by (λ a b, str_le (CId a) (CId b)) (ranged (servers m) ≫= λ s, status (stats s) s).

End Process.

(** ** The host's buffers (buffers.go) *)

Definition SocketBufferLimits : list string := ["net/core/rmem_max"; "net/core/wmem_max"].

(** One limit: what is written, and whether it is fine. *)
Definition raiseLimit (data : option string) (writes : bool) : option string * bool :=
  match data with
  | None => (None, false)
  | Some text =>
    match Atoi (trim_space text) with
    | None => (None, false)
    | Some current => if QUICSocketBuffer <=? current then (None, true) else (Some (format_uint QUICSocketBuffer +:+ String "010" ""), writes)
    end
  end.

(** [read] and [writes] answer by the limit's name. *)
Definition RaiseSocketBuffers (read : string → option string) (writes : string → bool) : list (string * string) * bool :=
  foldl (λ s limit, let '(text, fine) := raiseLimit (read limit) (writes limit) in
                    (s.1 ++ match text with Some t => [(limit, t)] | None => [] end, s.2 && fine)) ([], true) SocketBufferLimits.

Example buffers_raised :
  RaiseSocketBuffers (λ l, if String.eqb l "net/core/rmem_max" then Some ("212992" +:+ String "010" "") else Some "16777216") (λ _, true)
  = ([("net/core/rmem_max", "8388608" +:+ String "010" "")], true).
Proof. vm_compute. reflexivity. Qed.

End AnxServing.
