(* ===== verification/AnxServed.v ===== *)
(** * Accepting ends of ANX lines: what the processes run

    Against the documented management API (contracts/anx), a server that waits
    for changes has its process at exactly the wanted links, relays, routes and
    reverse dials, however the wanted accepts changed and whichever processes
    came and went; and a process that takes the calls gets there in one round.
    Module [AnxHost]: a process. *)

From S2P Require Import Prelude GoStrings GoNet NetworkPlan AnxLine AnxServer AnxServing.
From Stdlib Require Import Ascii String.

Module AnxServed.
Import GoNet NetworkPlan AnxServer AnxServing.

(** ** What a process runs *)

Record View := mkView {
  vUsers : gmap string (string * string); vLinks : gmap string Link; vRoutes : list (string * string); vDials : list ReverseDial
}.

Definition noView : View := mkView ∅ ∅ [] [].

(** The management API as documented: the id of a user is derived from its key,
    the route and dial tables are replaced as a whole, a call that fails to add
    users added none. *)
Class AnxProcessLaws (P : Type) `{AnxProcess P} := {
  view : P → View;
  userID : string → string;
  userID_inj :: Inj (=) (=) userID;
  users_added us p p' ids : AddUsers us p = (p', Some ids) →
    ids = userID <$> us.*1 ∧ view p' = mkView (foldl (λ m u, <[userID u.1 := u]> m) (vUsers (view p)) us) (vLinks (view p)) (vRoutes (view p)) (vDials (view p));
  users_not_added us p p' : AddUsers us p = (p', None) → view p' = view p;
  users_removed ids p p' : RemoveUsers ids p = (p', true) →
    view p' = mkView (foldl (λ m id, delete id m) (vUsers (view p)) ids) (vLinks (view p)) (vRoutes (view p)) (vDials (view p));
  links_added ls p p' : AddLinks ls p = (p', true) →
    view p' = mkView (vUsers (view p)) (foldl (λ m l, <[LkId l := l]> m) (vLinks (view p)) ls) (vRoutes (view p)) (vDials (view p));
  links_removed ids p p' : RemoveLinks ids p = (p', true) →
    view p' = mkView (vUsers (view p)) (foldl (λ m id, delete id m) (vLinks (view p)) ids) (vRoutes (view p)) (vDials (view p));
  routes_set table p p' : SetLinkRoutes table p = (p', true) → view p' = mkView (vUsers (view p)) (vLinks (view p)) table (vDials (view p));
  dials_set ds p p' : SetReverseDials ds p = (p', true) → view p' = mkView (vUsers (view p)) (vLinks (view p)) (vRoutes (view p)) ds
}.

(** ** Maps from lists *)

Lemma foldl_insert_lookup {A B} (key : A → string) (val : A → B) (l : list A) : ∀ (m : gmap string B) i y, NoDup (key <$> l) →
  foldl (λ m x, <[key x := val x]> m) m l !! i = Some y ↔ (∃ x, x ∈ l ∧ key x = i ∧ val x = y) ∨ ((i ∉ key <$> l) ∧ m !! i = Some y).
Proof.
  induction l as [|x l IH]; intros m i y Hn; cbn; [set_solver|]. apply NoDup_cons in Hn as [Hx Hn]. rewrite IH by done. rewrite lookup_insert_Some.
  setoid_rewrite elem_of_cons. split.
  - intros [(z & Hz & ?)|[Hi [[<- <-]|[Hne Hm]]]]; [left; exists z; auto|left; by exists x; auto|right; naive_solver].
  - intros [(z & [->|Hz] & Hk & Hv)|[Hi Hm]].
    + right. rewrite <- Hk. auto.
    + left. by exists z.
    + right. split; [naive_solver|]. right. naive_solver.
Qed.

Lemma foldl_delete_lookup {B} (l : list string) : ∀ (m : gmap string B) i y, foldl (λ m x, delete x m) m l !! i = Some y ↔ (i ∉ l) ∧ m !! i = Some y.
Proof.
  induction l as [|x l IH]; intros m i y; cbn; [set_solver|]. rewrite IH, lookup_delete_Some, not_elem_of_cons. naive_solver.
Qed.

Lemma map_eq_Some {B} (m m' : gmap string B) : (∀ i y, m !! i = Some y ↔ m' !! i = Some y) → m = m'.
Proof. intros Hm. apply map_eq. intros i. apply option_eq. apply Hm. Qed.

(** ** Hexadecimal user ids *)

Lemma hexDecode_pad c s : hexDecode (hex_pad 2 (code c) +:+ s) = String c <$> hexDecode s.
Proof. destruct c as [[] [] [] [] [] [] [] []]; reflexivity. Qed.

Lemma hexDecode_encode s : hexDecode (hexEncode s) = Some s.
Proof. induction s as [|c s IH]; [done|]. cbn [hexEncode]. by rewrite hexDecode_pad, IH. Qed.

#[export] Instance hexEncode_inj : Inj (=) (=) hexEncode.
Proof. intros a b E. pose proof (hexDecode_encode a) as Ha. rewrite E, hexDecode_encode in Ha. congruence. Qed.

(** The routes that a table with one entry per user gives. *)
Lemma routesOf_lookup table i y : NoDup table.*1 → routesOf table !! i = Some y ↔ ∃ u, (u, y) ∈ table ∧ hexEncode u = i.
Proof.
  intros Hn. unfold routesOf. rewrite (foldl_insert_lookup (λ r, hexEncode r.1) snd).
  - rewrite lookup_empty. split; [intros [([u l] & Hx & Hk & Hv)|[_ ?]]; [cbn in *; subst; by exists u|done]|].
    intros (u & Hu & <-). left. by exists (u, y).
  - change (NoDup ((hexEncode ∘ fst) <$> table)). rewrite list_fmap_compose. by apply NoDup_fmap_2; [apply _|].
Qed.

Lemma routesOf_same t t' : NoDup t.*1 → NoDup t'.*1 → routesOf t = routesOf t' → ∀ r, r ∈ t ↔ r ∈ t'.
Proof.
  assert (∀ t t', NoDup t.*1 → NoDup t'.*1 → routesOf t = routesOf t' → ∀ r, r ∈ t → r ∈ t') as Hone.
  { intros s s' Hs Hs' E [u l] Hr. assert (routesOf s !! hexEncode u = Some l) as Hu by (apply routesOf_lookup; [done|by exists u]).
    rewrite E in Hu. apply routesOf_lookup in Hu as (v & Hv & Ev); [|done]. apply hexEncode_inj in Ev. by subst. }
  intros Ht Ht' E r. split; apply Hone; auto.
Qed.

Lemma routesOf_perm t t' : NoDup t.*1 → t ≡ₚ t' → routesOf t = routesOf t'.
Proof.
  intros Hn Hp. assert (NoDup t'.*1) as Hn' by (by rewrite <- Hp). apply map_eq_Some. intros i y. rewrite !routesOf_lookup by done. by setoid_rewrite Hp.
Qed.

(** ** The steps of the loop *)

Section Served.
Context {P : Type} `{!AnxProcess P, !AnxProcessLaws P}.
Implicit Types (p : P) (W : list Accept).

(** Links with their keys, as the loop and the process know them. *)
Definition adm (x : string * string) : admitted := mkAdmitted x.2 (userID x.2).

Record knows (L : list (string * string)) (current : gmap string admitted) (users : gmap string (string * string)) : Prop := {
  kn_links : NoDup L.*1;
  kn_keys : NoDup L.*2;
  kn_current link h : current !! link = Some h ↔ ∃ key, (link, key) ∈ L ∧ h = adm (link, key);
  kn_users id u : users !! id = Some u ↔ ∃ link key, (link, key) ∈ L ∧ id = userID key ∧ u = (key, link)
}.

Definition pairsOf (W : list Accept) : list (string * string) := (λ a, (ALinkID a, ALinkKey a)) <$> W.

(** Accepts of distinct links with distinct keys. *)
Definition distinct (W : list Accept) : Prop := NoDup (ALinkID <$> W) ∧ NoDup (ALinkKey <$> W).

Lemma pairs_unique {A B} (L : list (A * B)) x y y' : NoDup L.*1 → (x, y) ∈ L → (x, y') ∈ L → y = y'.
Proof.
  intros Hn H1 H2. apply list_elem_of_lookup_1 in H1 as [i Hi], H2 as [j Hj].
  assert (i = j) as -> by (apply (NoDup_lookup L.*1 i j x); [done|by rewrite list_lookup_fmap, Hi|by rewrite list_lookup_fmap, Hj]). congruence.
Qed.

Lemma pairs_unique_snd {A B} (L : list (A * B)) x x' y : NoDup L.*2 → (x, y) ∈ L → (x', y) ∈ L → x = x'.
Proof.
  intros Hn H1 H2. apply list_elem_of_lookup_1 in H1 as [i Hi], H2 as [j Hj].
  assert (i = j) as -> by (apply (NoDup_lookup L.*2 i j y); [done|by rewrite list_lookup_fmap, Hi|by rewrite list_lookup_fmap, Hj]). congruence.
Qed.

Lemma keeps_spec L current users a : knows L current users → keeps current a = true ↔ (ALinkID a, ALinkKey a) ∈ L.
Proof.
  intros Hk. unfold keeps. destruct (current !! ALinkID a) as [h|] eqn:E.
  - apply (kn_current _ _ _ Hk) in E as (key & Hin & ->). cbn. rewrite String.eqb_eq. split; [by intros <-|].
    intros H2. by apply (pairs_unique _ _ _ _ (kn_links _ _ _ Hk) Hin H2).
  - split; [done|]. intros Hin. assert (current !! ALinkID a = Some (adm (ALinkID a, ALinkKey a))); [|congruence].
    apply (kn_current _ _ _ Hk). by exists (ALinkKey a).
Qed.

(** What is removed, and what is left. *)
Lemma removed_known L current users W : knows L current users → distinct W →
  let keep : gset string := list_to_set (ALinkID <$> filter (λ a, keeps current a = true) W) in
  let removing := filter (λ x, x.1 ∉ keep) (map_to_list current) in
  knows (filter (λ x, x.1 ∈ keep) L) (foldl (λ m link, delete link m) current removing.*1) (foldl (λ m id, delete id m) users (adUser <$> removing.*2)).
Proof.
  intros Hk HW keep removing.
  assert (∀ link, link ∈ removing.*1 ↔ ∃ h, current !! link = Some h ∧ link ∉ keep) as Hrem.
  { intros link. unfold removing. rewrite list_elem_of_fmap. setoid_rewrite list_elem_of_filter. split.
    - intros ([l h] & -> & Hl & Hin). exists h. split; [by apply elem_of_map_to_list|done].
    - intros (h & Hh & Hl). exists (link, h). split; [done|]. split; [done|by apply elem_of_map_to_list]. }
  assert (∀ link key, (link, key) ∈ L → userID key ∈ adUser <$> removing.*2 ↔ link ∉ keep) as Hids.
  { intros link key Hin. assert (current !! link = Some (adm (link, key))) as Hc by (apply (kn_current _ _ _ Hk); by exists key).
    rewrite !list_elem_of_fmap. split.
    - intros (h & Hid & (x & -> & [Hx Hm]%list_elem_of_filter)%list_elem_of_fmap). destruct x as [l h]. apply elem_of_map_to_list in Hm.
      apply (kn_current _ _ _ Hk) in Hm as (key' & Hin' & ->). cbn in *. apply userID_inj in Hid as <-.
      by rewrite (pairs_unique_snd _ _ _ _ (kn_keys _ _ _ Hk) Hin Hin').
    - intros Hl. exists (adm (link, key)). split; [done|]. apply list_elem_of_fmap. exists (link, adm (link, key)). split; [done|].
      apply list_elem_of_filter. split; [done|by apply elem_of_map_to_list]. }
  split.
  - eapply sublist_NoDup; [apply (kn_links _ _ _ Hk)|]. apply sublist_fmap, sublist_filter.
  - eapply sublist_NoDup; [apply (kn_keys _ _ _ Hk)|]. apply sublist_fmap, sublist_filter.
  - intros link h. rewrite foldl_delete_lookup, Hrem, (kn_current _ _ _ Hk). setoid_rewrite list_elem_of_filter. split.
    + intros [Hn (key & Hin & ->)]. exists key. split; [|done]. split; [|done]. cbn. destruct (decide (link ∈ keep)); [done|].
      exfalso. apply Hn. exists (adm (link, key)). split; [|done]. apply (kn_current _ _ _ Hk). by exists key.
    + intros (key & [Hl Hin] & ->). split; [|by exists key]. intros (h & _ & Hnl). by apply Hnl.
  - intros id u. rewrite foldl_delete_lookup, (kn_users _ _ _ Hk). setoid_rewrite list_elem_of_filter. split.
    + intros [Hn (link & key & Hin & -> & ->)]. exists link, key. split; [|done]. split; [|done]. cbn.
      destruct (decide (link ∈ keep)) as [|Hl]; [done|]. exfalso. by apply Hn, (Hids link key Hin).
    + intros (link & key & [Hl Hin] & -> & ->). split; [|by exists link, key]. intros Hr. by apply (Hids link key Hin) in Hr.
Qed.

Lemma knows_ext L L' current users : NoDup L'.*1 → NoDup L'.*2 → (∀ x, x ∈ L ↔ x ∈ L') → knows L current users → knows L' current users.
Proof. intros H1 H2 HL [_ _ Hc Hu]. split; [done|done|..]; setoid_rewrite <- HL; done. Qed.

Lemma pairsOf_fst W : (pairsOf W).*1 = ALinkID <$> W.
Proof. unfold pairsOf. by rewrite <- list_fmap_compose. Qed.

Lemma pairsOf_snd W : (pairsOf W).*2 = ALinkKey <$> W.
Proof. unfold pairsOf. by rewrite <- list_fmap_compose. Qed.

Lemma distinct_sublist W W' : sublist W' W → distinct W → distinct W'.
Proof. intros Hs [H1 H2]. split; [eapply sublist_NoDup; [exact H1|]|eapply sublist_NoDup; [exact H2|]]; by apply sublist_fmap. Qed.

Lemma addUntil_spec n us : ∀ p p' ids, addUntil n us p = (p', Some ids) →
  ids = userID <$> us.*1 ∧ view p' = mkView (foldl (λ m u, <[userID u.1 := u]> m) (vUsers (view p)) us) (vLinks (view p)) (vRoutes (view p)) (vDials (view p)).
Proof.
  induction n as [|n IH]; intros p p' ids; cbn; destruct (AddUsers us p) as [p1 [ids1|]] eqn:E; try done.
  - intros [= <- <-]. by apply users_added.
  - intros [= <- <-]. by apply users_added.
  - intros E'. apply users_not_added in E. rewrite <- E. by apply IH.
Qed.

(** The accepts that are added join those that stay. *)
Lemma added_known L current users W : knows L current users → distinct W → (∀ link key, (link, key) ∈ L → (link ∉ ALinkID <$> W) ∧ key ∉ ALinkKey <$> W) →
  knows (L ++ pairsOf W) (foldl record_link current (zip W (userID <$> (ALinkKey <$> W))))
    (foldl (λ m u, <[userID u.1 := u]> m) users ((λ a, (ALinkKey a, ALinkID a)) <$> W)).
Proof.
  intros Hk [Hids Hkeys] Hnew.
  assert (foldl record_link current (zip W (userID <$> (ALinkKey <$> W))) = foldl (λ m a, <[ALinkID a := adm (ALinkID a, ALinkKey a)]> m) current W) as ->.
  { clear. revert current. induction W as [|a W IH]; intros current; [done|]. cbn. apply IH. }
  assert (foldl (λ m u, <[userID u.1 := u]> m) users ((λ a, (ALinkKey a, ALinkID a)) <$> W) = foldl (λ m a, <[userID (ALinkKey a) := (ALinkKey a, ALinkID a)]> m) users W) as ->.
  { clear. revert users. induction W as [|a W IH]; intros users; [done|]. cbn. apply IH. }
  assert (∀ link key, (link, key) ∈ pairsOf W ↔ ∃ a, a ∈ W ∧ ALinkID a = link ∧ ALinkKey a = key) as Hp.
  { intros link key. unfold pairsOf. rewrite list_elem_of_fmap. split; [intros (a & [= -> ->] & ?); by exists a|intros (a & ? & <- & <-); by exists a]. }
  split.
  - rewrite fmap_app, pairsOf_fst. apply NoDup_app. split; [apply (kn_links _ _ _ Hk)|]. split; [|done].
    intros link ([l key] & -> & Hin)%list_elem_of_fmap. by apply (Hnew l key Hin).
  - rewrite fmap_app, pairsOf_snd. apply NoDup_app. split; [apply (kn_keys _ _ _ Hk)|]. split; [|done].
    intros key ([l k] & -> & Hin)%list_elem_of_fmap. by apply (Hnew l k Hin).
  - intros link h. rewrite (foldl_insert_lookup ALinkID) by done. rewrite (kn_current _ _ _ Hk). setoid_rewrite elem_of_app. setoid_rewrite Hp. split.
    + intros [(a & Ha & <- & <-)|[_ (key & ? & ->)]]; [exists (ALinkKey a); split; [right; by exists a|done]|exists key; auto].
    + intros (key & [Hin|(a & Ha & <- & <-)] & ->); [right; split; [by apply (Hnew link key)|by exists key]|left; by exists a].
  - intros id u. rewrite (foldl_insert_lookup (λ a, userID (ALinkKey a))).
    + rewrite (kn_users _ _ _ Hk). setoid_rewrite elem_of_app. setoid_rewrite Hp. split.
      * intros [(a & Ha & <- & <-)|[_ (link & key & ? & -> & ->)]]; [exists (ALinkID a), (ALinkKey a); split; [right; by exists a|done]|exists link, key; auto].
      * intros (link & key & [Hin|(a & Ha & <- & <-)] & -> & ->); [|left; by exists a].
        right. split; [|by exists link, key]. intros (a & E%userID_inj & Ha)%list_elem_of_fmap. destruct (Hnew link key Hin) as [_ Hkey]. apply Hkey.
        rewrite E. by apply list_elem_of_fmap_2.
    + change (NoDup ((userID ∘ ALinkKey) <$> W)). rewrite list_fmap_compose. by apply NoDup_fmap_2; [apply _|].
Qed.

Lemma distinct_link W a b : distinct W → a ∈ W → b ∈ W → ALinkID a = ALinkID b → a = b.
Proof.
  intros [Hn _] Ha Hb E. apply list_elem_of_lookup_1 in Ha as [i Hi], Hb as [j Hj].
  assert (i = j) as ->; [|congruence]. apply (NoDup_lookup _ _ _ (ALinkID a) Hn); rewrite list_lookup_fmap; [by rewrite Hi|rewrite Hj; cbn; congruence].
Qed.

Lemma distinct_key W a b : distinct W → a ∈ W → b ∈ W → ALinkKey a = ALinkKey b → a = b.
Proof.
  intros [_ Hn] Ha Hb E. apply list_elem_of_lookup_1 in Ha as [i Hi], Hb as [j Hj].
  assert (i = j) as ->; [|congruence]. apply (NoDup_lookup _ _ _ (ALinkKey a) Hn); rewrite list_lookup_fmap; [by rewrite Hi|rewrite Hj; cbn; congruence].
Qed.

(** [admitLinks] leaves the process with exactly the wanted links. *)
Lemma admit_knows attempts first W L current p p' c : distinct W → knows L current (vUsers (view p)) →
  admitLinks attempts first W current p = (p', Ok c) →
  knows (pairsOf W) c (vUsers (view p')) ∧ vLinks (view p') = vLinks (view p) ∧ vRoutes (view p') = vRoutes (view p) ∧ vDials (view p') = vDials (view p).
Proof.
  intros HW Hk. unfold admitLinks. pose proof (removed_known L current _ W Hk HW) as Hr. cbn zeta in Hr.
  set (keep := list_to_set (ALinkID <$> filter (λ a, keeps current a = true) W) : gset string) in *.
  set (removing := filter (λ x, x.1 ∉ keep) (map_to_list current)) in *. set (adding := filter (λ a, keeps current a = false) W).
  destruct (if bool_decide (removing = []) then (p, true) else RemoveUsers (adUser <$> removing.*2) p) as [p1 removed] eqn:E1.
  destruct removed; [|done]. cbn [negb].
  assert (vUsers (view p1) = foldl (λ m id, delete id m) (vUsers (view p)) (adUser <$> removing.*2) ∧ vLinks (view p1) = vLinks (view p)
    ∧ vRoutes (view p1) = vRoutes (view p) ∧ vDials (view p1) = vDials (view p)) as (Hu1 & Hl1 & Hr1 & Hd1).
  { case_bool_decide as En; [injection E1 as <-; by rewrite En|]. apply users_removed in E1. by rewrite E1. }
  rewrite <- Hu1 in Hr.
  assert (∀ a, a ∈ W → ALinkID a ∈ keep ↔ keeps current a = true) as Hkeep.
  { intros a Ha. unfold keep. rewrite elem_of_list_to_set, list_elem_of_fmap. setoid_rewrite list_elem_of_filter. split; [|intros; by exists a].
    intros (b & E & Hb & HbW). by rewrite (distinct_link W a b). }
  assert (∀ x, x ∈ filter (λ x, x.1 ∈ keep) L ++ pairsOf adding ↔ x ∈ pairsOf W) as Hall.
  { intros [link key]. rewrite elem_of_app, list_elem_of_filter. unfold pairsOf. rewrite !list_elem_of_fmap. cbn. split.
    - intros [[Hl Hin]|(a & [= -> ->] & [_ Ha]%list_elem_of_filter)]; [|by exists a].
      unfold keep in Hl. apply elem_of_list_to_set, list_elem_of_fmap in Hl as (a & -> & [Hka Ha]%list_elem_of_filter). exists a. split; [|done]. f_equal.
      apply (keeps_spec L current _ a Hk) in Hka. by apply (pairs_unique _ _ _ _ (kn_links _ _ _ Hk) Hin Hka).
    - intros (a & [= -> ->] & Ha). destruct (keeps current a) eqn:E; [left|right; exists a; split; [done|by apply list_elem_of_filter]].
      split; [by apply Hkeep|by apply (keeps_spec L current _ a Hk)]. }
  assert (distinct adding) as Ha by (apply (distinct_sublist W); [apply sublist_filter|done]).
  destruct HW as [Hw1 Hw2]. pose proof (conj Hw1 Hw2 : distinct W) as HW.
  assert (NoDup (pairsOf W).*1 ∧ NoDup (pairsOf W).*2) as [Hn1 Hn2] by (by rewrite pairsOf_fst, pairsOf_snd).
  assert (∀ c users, knows (filter (λ x, x.1 ∈ keep) L ++ pairsOf adding) c users → knows (pairsOf W) c users) as Hdone by (intros; by eapply knows_ext).
  destruct (bool_decide (adding = []) && negb first) eqn:E2.
  - intros [= <- <-]. apply andb_true_iff in E2 as [E2%bool_decide_eq_true _]. split; [|done]. apply Hdone. rewrite E2. by rewrite app_nil_r.
  - destruct (addUntil _ _ p1) as [p2 [ids|]] eqn:E3; [|done]. destruct (negb (bool_decide (List.length ids = _))); [by intros [=]|]. intros [= <- <-].
    apply addUntil_spec in E3 as [-> E3]. rewrite E3. cbn [vUsers vLinks vRoutes vDials]. split; [|done]. apply Hdone.
    replace (((λ a, (ALinkKey a, ALinkID a)) <$> adding).*1) with (ALinkKey <$> adding) by (by rewrite <- list_fmap_compose).
    apply added_known; [done|done|]. intros link key Hin.
    assert (∃ a, a ∈ W ∧ keeps current a = true ∧ (link, key) = (ALinkID a, ALinkKey a)) as (a & HaW & Hka & [= -> ->]).
    { assert ((link, key) ∈ pairsOf W) as Hp by (apply Hall, elem_of_app; by left). unfold pairsOf in Hp. apply list_elem_of_fmap in Hp as (a & E & Ha'). exists a. split; [done|].
      split; [|done]. apply list_elem_of_filter in Hin as [Hl _]. apply Hkeep; [done|]. injection E as -> _. done. }
    split; intros (b & E & [Hb HbW]%list_elem_of_filter)%list_elem_of_fmap.
    + rewrite (distinct_link W a b) in Hka by done. congruence.
    + rewrite (distinct_key W a b) in Hka by done. congruence.
Qed.

(** ** Relays *)

Lemma elem_of_differing (m m' : gmap string Link) id : id ∈ differing m m' ↔ is_Some (m !! id) ∧ m' !! id ≠ m !! id.
Proof.
  unfold differing. rewrite list_elem_of_filter, list_elem_of_fmap. split.
  - intros [Hne ([i l] & -> & Hl)]. apply elem_of_map_to_list in Hl. split; [by exists l|done].
  - intros [[l Hl] Hne]. split; [done|]. exists (id, l). split; [done|by apply elem_of_map_to_list].
Qed.

Lemma NoDup_differing (m m' : gmap string Link) : NoDup (differing m m').
Proof. apply NoDup_filter, NoDup_fst_map_to_list. Qed.

Lemma omap_ids (m : gmap string Link) (ids : list string) : (∀ id l, m !! id = Some l → LkId l = id) → (∀ id, id ∈ ids → is_Some (m !! id)) →
  LkId <$> omap (λ id, m !! id) ids = ids.
Proof.
  intros Hm Hids. induction ids as [|id ids IH]; [done|]. cbn. destruct (Hids id) as [l Hl]; [by left|]. rewrite Hl. cbn.
  rewrite (Hm id l Hl), IH; [done|]. intros i Hi. apply Hids. by right.
Qed.

(** Removing and adding what differs makes the links of [m] those of [m']. *)
Lemma links_replaced (m m' : gmap string Link) : (∀ id l, m' !! id = Some l → LkId l = id) →
  foldl (λ m l, <[LkId l := l]> m) (foldl (λ m id, delete id m) m (sort_by str_le (differing m m'))) (omap (λ id, m' !! id) (sort_by str_le (differing m' m))) = m'.
Proof.
  intros Hm. set (ids := sort_by str_le (differing m' m)).
  assert (∀ id, id ∈ ids ↔ is_Some (m' !! id) ∧ m !! id ≠ m' !! id) as Hids by (intros id; unfold ids; by rewrite sort_by_perm, elem_of_differing).
  assert (LkId <$> omap (λ id, m' !! id) ids = ids) as Hk by (apply omap_ids; [done|]; intros id Hi; by apply Hids in Hi as [? _]).
  apply map_eq_Some. intros id l. rewrite (foldl_insert_lookup LkId (λ l, l)) by (rewrite Hk; unfold ids; rewrite sort_by_perm; apply NoDup_differing).
  rewrite Hk, foldl_delete_lookup, sort_by_perm, elem_of_differing, Hids. setoid_rewrite list_elem_of_omap. split.
  - intros [(x & (i & Hi & Hx) & <- & <-)|(Hn & Hd & Hl)]; [by rewrite (Hm _ _ Hx)|].
    destruct (decide (m' !! id = m !! id)) as [E|E]; [congruence|]. exfalso. apply Hd. split; [by exists l|done].
  - intros Hl. destruct (decide (m !! id = m' !! id)) as [E|E].
    + right. split; [by intros [_ ?]|]. split; [intros [_ ?]; congruence|congruence].
    + left. exists l. split; [|split; [by apply Hm|done]]. exists id. split; [|done]. apply Hids. split; [by exists l|done].
Qed.

Lemma relayLinks_spec W : ∀ m : gmap string Link, (∀ id l, m !! id = Some l → LkId l = id) →
  let m' := foldl (λ (m : gmap string Link) a, match Next a with Some l => if bool_decide (is_Some (m !! LkId l)) then m else <[LkId l := l]> m | None => m end) m W in
  (∀ id l, m' !! id = Some l → LkId l = id) ∧ (∀ id, is_Some (m !! id) → is_Some (m' !! id)) ∧ (∀ a l, a ∈ W → Next a = Some l → is_Some (m' !! LkId l)).
Proof.
  induction W as [|a W IH]; intros m Hm; cbn; [split; [done|]; split; [done|]; by intros ? ? ?%not_elem_of_nil|].
  set (m1 := match Next a with Some l => _ | None => m end).
  assert ((∀ id l, m1 !! id = Some l → LkId l = id) ∧ (∀ id, is_Some (m !! id) → is_Some (m1 !! id)) ∧ (∀ l, Next a = Some l → is_Some (m1 !! LkId l))) as (H1 & H2 & H3).
  { unfold m1. destruct (Next a) as [l|]; [|by split_and!]. case_bool_decide as E; [split; [done|]; split; [done|]; by intros l' [= <-]|].
    split; [|split].
    - intros id l' [[<- <-]|[_ ?]]%lookup_insert_Some; [done|by apply Hm].
    - intros id Hi. destruct (decide (LkId l = id)) as [<-|]; [by rewrite lookup_insert_eq|by rewrite lookup_insert_ne].
    - intros l' [= <-]. by rewrite lookup_insert_eq. }
  destruct (IH m1 H1) as (I1 & I2 & I3). split; [done|]. split; [auto|]. intros b l [->|Hb]%elem_of_cons Hl; [by apply I2, H3|by apply (I3 b)].
Qed.

Lemma relayLinks_ids W id l : relayLinks W !! id = Some l → LkId l = id.
Proof. apply (relayLinks_spec W ∅); by intros ? ? ?%lookup_empty_Some. Qed.

Lemma relayLinks_has W a l : a ∈ W → Next a = Some l → is_Some (relayLinks W !! LkId l).
Proof. apply (relayLinks_spec W ∅); by intros ? ? ?%lookup_empty_Some. Qed.

Definition tableEntry (current : gmap string admitted) (a : Accept) : option (string * string) :=
  l ← Next a; h ← current !! ALinkID a; Some (adUser h, LkId l).

Lemma relayTable_spec current W table : relayTable current W = Ok table → table = omap (tableEntry current) W ∧ ∀ a l, a ∈ W → Next a = Some l → is_Some (current !! ALinkID a).
Proof.
  unfold relayTable. set (f := λ (table : result (list (string * string))) (a : Accept), _).
  assert (∀ e l, foldl f (Err e) l = Err e) as Herr by (intros e l; by induction l).
  assert (∀ W t table, foldl f (Ok t) W = Ok table → table = t ++ omap (tableEntry current) W ∧ ∀ a l, a ∈ W → Next a = Some l → is_Some (current !! ALinkID a)) as Hall; [|by apply Hall].
  clear W table. intros W. induction W as [|a W IH]; intros t table; cbn; [intros [= <-]; split; [by rewrite app_nil_r|by intros ? ? ?%not_elem_of_nil]|].
  unfold tableEntry. destruct (Next a) as [l|] eqn:En; cbn.
  - destruct (current !! ALinkID a) as [h|] eqn:E; [|by rewrite Herr]. cbn. intros [-> Ht]%IH. split; [by rewrite <- app_assoc|].
    intros b l' [->|Hb]%elem_of_cons Hl; [by rewrite E|by apply (Ht b l')].
  - intros [-> Ht]%IH. split; [done|]. intros b l' [->|Hb]%elem_of_cons Hl; [congruence|by apply (Ht b l')].
Qed.

Lemma table_users L current users W : knows L current users → NoDup (ALinkID <$> W) → NoDup (omap (tableEntry current) W).*1.
Proof.
  intros Hk. induction W as [|a W IH]; cbn; [constructor|]. intros [Ha Hn]%NoDup_cons. destruct (tableEntry current a) as [[u l]|] eqn:E; [|by apply IH].
  cbn. apply NoDup_cons. split; [|by apply IH]. intros ([u' l'] & -> & (b & Hb & Eb)%list_elem_of_omap)%list_elem_of_fmap. cbn in *.
  unfold tableEntry in E, Eb. destruct (Next a); [|done]. destruct (Next b); [|done]. cbn in *.
  destruct (current !! ALinkID a) as [h|] eqn:Ea; [|done]. destruct (current !! ALinkID b) as [h'|] eqn:Eb'; [|done]. cbn in *. simplify_eq.
  apply (kn_current _ _ _ Hk) in Ea as (key & Hin & ->), Eb' as (key' & Hin' & ->). cbn in *.
  assert (key' = key) as -> by (apply userID_inj; congruence). apply Ha. rewrite (pairs_unique_snd _ _ _ _ (kn_keys _ _ _ Hk) Hin Hin').
  by apply list_elem_of_fmap_2.
Qed.

(** What the loop remembers of the relays is what the process has. *)
Record relayed (x : relaying) (v : View) : Prop := {
  rl_links : vLinks v = rLinks x;
  rl_users : NoDup (vRoutes v).*1;
  rl_routes : routesOf (vRoutes v) = rRoutes x;
  rl_unset : rSet x = false → vRoutes v = [];
  rl_held r : r ∈ vRoutes v → is_Some (vLinks v !! r.2)
}.

Lemma differing_nil (m m' : gmap string Link) : differing m m' = [] → differing m' m = [] → m = m'.
Proof.
  intros H1 H2. apply map_eq. intros id. destruct (decide (m !! id = m' !! id)) as [|Hne]; [done|]. exfalso.
  destruct (m !! id) as [l|] eqn:E.
  - apply (not_elem_of_nil id). rewrite <- H1. apply elem_of_differing. split; [by rewrite E|congruence].
  - destruct (m' !! id) as [l'|] eqn:E'; [|congruence]. apply (not_elem_of_nil id). rewrite <- H2. apply elem_of_differing. split; [by rewrite E'|congruence].
Qed.

Lemma sort_by_nil {A} (le : A → A → bool) l : sort_by le l = [] → l = [].
Proof. intros E. apply Permutation_nil. by rewrite <- E, sort_by_perm. Qed.

Lemma table_nil table : NoDup table.*1 → routesOf table = ∅ → table = [].
Proof.
  intros Hn E. destruct table as [|[u l] t]; [done|]. assert (routesOf ((u, l) :: t) !! hexEncode u = Some l) as Hu by (apply routesOf_lookup; [done|]; exists u; split; [by left|done]).
  by rewrite E in Hu.
Qed.

(** [relay] leaves the process with exactly the wanted relays and routes. *)
Lemma relay_exact L W current x p p' x' : NoDup (ALinkID <$> W) → knows L current (vUsers (view p)) → relayed x (view p) →
  relay W current x p = (p', Ok x') →
  relayed x' (view p') ∧ vUsers (view p') = vUsers (view p) ∧ vDials (view p') = vDials (view p)
  ∧ rLinks x' = relayLinks W ∧ ∀ r, r ∈ vRoutes (view p') ↔ r ∈ omap (tableEntry current) W.
Proof.
  intros HW Hk Hx. unfold relay. destruct (relayTable current W) as [table|] eqn:Et; [|done]. apply relayTable_spec in Et as [-> Hfound].
  set (table := omap (tableEntry current) W). pose proof (table_users L current _ W Hk HW : NoDup table.*1) as Hn.
  assert (∀ r, r ∈ table → is_Some (relayLinks W !! r.2)) as Hheld.
  { intros [u l] (a & Ha & E)%list_elem_of_omap. unfold tableEntry in E. destruct (Next a) as [k|] eqn:En; [|done]. cbn in E.
    destruct (current !! ALinkID a); [|done]. cbn in E. injection E as <- <-. by apply (relayLinks_has W a). }
  set (remove := sort_by str_le (differing (rLinks x) (relayLinks W))). set (ids := sort_by str_le (differing (relayLinks W) (rLinks x))).
  set (add := omap (λ id, relayLinks W !! id) ids). destruct (bool_decide (remove = []) && _ && _ && _) eqn:Eu.
  - intros [= <- <-]. rewrite !andb_true_iff, !bool_decide_eq_true, orb_true_iff, bool_decide_eq_true in Eu. destruct Eu as [[[E1 E2] E3] E4].
    assert (rLinks x = relayLinks W) as El.
    { apply differing_nil; [by apply sort_by_nil in E1|]. apply (sort_by_nil str_le). destruct ids as [|id ids0] eqn:Ei; [done|]. exfalso.
      assert (id ∈ differing (relayLinks W) (rLinks x)) as Hin by (rewrite <- (sort_by_perm str_le); fold ids; rewrite Ei; by left).
      apply elem_of_differing in Hin as [[l Hl] _]. unfold add in E2. cbn in E2. by rewrite Hl in E2. }
    split; [done|]. split; [done|]. split; [done|]. split; [done|]. destruct Hx as [Hl Hu Hr Hs Hh]. destruct E4 as [E4|E4].
    + apply routesOf_same; [done|done|congruence].
    + intros r. rewrite E4 in E3. rewrite (table_nil table) by done. rewrite (table_nil (vRoutes (view p))); [done|done|congruence].
  - destruct (if bool_decide (remove = []) then (p, true) else SetLinkRoutes [] p) as [p1 cleared] eqn:E1. destruct cleared; [|done]. cbn [negb].
    destruct (if bool_decide (remove = []) then (p1, true) else RemoveLinks remove p1) as [p2 removed] eqn:E2. destruct removed; [|done]. cbn [negb].
    destruct (if bool_decide (add = []) then (p2, true) else AddLinks add p2) as [p3 added] eqn:E3. destruct added; [|done]. cbn [negb].
    destruct (SetLinkRoutes (sort_by (λ a b, str_le a.1 b.1) table) p3) as [p4 set] eqn:E4. destruct set; [|done]. cbn [negb]. intros [= <- <-].
    assert (vUsers (view p3) = vUsers (view p) ∧ vDials (view p3) = vDials (view p)
      ∧ vLinks (view p3) = foldl (λ m l, <[LkId l := l]> m) (foldl (λ m id, delete id m) (rLinks x) remove) add) as (Hu3 & Hd3 & Hl3).
    { assert (vUsers (view p1) = vUsers (view p) ∧ vDials (view p1) = vDials (view p) ∧ vLinks (view p1) = vLinks (view p)) as (Hu1 & Hd1 & Hl1).
      { destruct (bool_decide (remove = [])); [by injection E1 as <-|]. apply routes_set in E1. by rewrite E1. }
      assert (vUsers (view p2) = vUsers (view p1) ∧ vDials (view p2) = vDials (view p1) ∧ vLinks (view p2) = foldl (λ m id, delete id m) (vLinks (view p1)) remove) as (Hu2 & Hd2 & Hl2).
      { destruct (bool_decide_reflect (remove = [])) as [En|]; [injection E2 as <-; by rewrite En|]. apply links_removed in E2. by rewrite E2. }
      assert (vUsers (view p3) = vUsers (view p2) ∧ vDials (view p3) = vDials (view p2) ∧ vLinks (view p3) = foldl (λ m l, <[LkId l := l]> m) (vLinks (view p2)) add) as (Hu & Hd & Hl).
      { destruct (bool_decide_reflect (add = [])) as [En|]; [injection E3 as <-; by rewrite En|]. apply links_added in E3. by rewrite E3. }
      rewrite Hu, Hd, Hl, Hu2, Hd2, Hl2, Hu1, Hd1, Hl1, (rl_links _ _ Hx). done. }
    pose proof (links_replaced (rLinks x) (relayLinks W) (relayLinks_ids W)) as Hrep. fold remove ids add in Hrep. rewrite Hrep in Hl3 |- *.
    apply routes_set in E4. rewrite E4. cbn [vUsers vLinks vRoutes vDials rLinks]. assert (NoDup (sort_by (λ a b, str_le a.1 b.1) table).*1) as Hns by (by rewrite sort_by_perm).
    split; [|split; [done|split; [done|split; [done|]]]].
    + split; cbn; [done|done| |done|]; [apply routesOf_perm; [done|apply sort_by_perm]|]. intros r Hr. rewrite sort_by_perm in Hr. rewrite Hl3. by apply Hheld.
    + intros r. by rewrite sort_by_perm.
Qed.

(** ** One server *)

(** What a run knows of its process. *)
Definition synced (r : Run (P := P)) : Prop :=
  (∃ L, knows L (current r) (vUsers (view (proc r)))) ∧ relayed (relays r) (view (proc r)) ∧ vDials (view (proc r)) = dials r.

Definition admits (W : list Accept) (r : Run (P := P)) : Prop := knows (pairsOf W) (current r) (vUsers (view (proc r))).
Definition relaysFor (W : list Accept) (r : Run (P := P)) : Prop :=
  rLinks (relays r) = relayLinks W ∧ ∀ x, x ∈ vRoutes (view (proc r)) ↔ x ∈ omap (tableEntry (current r)) W.
Definition dialsFor (W : list Accept) (r : Run (P := P)) : Prop := dials r = dialsOf W.

(** The loop of [serve]: without a change to come, each step it has done is
    done for the wanted accepts. *)
Definition served (s : Server (P := P)) : Prop :=
  distinct (wanted s) ∧ ∀ r, running s = Some r → synced r ∧
    (wake s = false → match at_phase r with
                      | ToAdmit => True
                      | ToRelay => admits (wanted s) r
                      | ToDial => admits (wanted s) r ∧ relaysFor (wanted s) r
                      | Waiting => admits (wanted s) r ∧ relaysFor (wanted s) r ∧ dialsFor (wanted s) r
                      end).

Lemma served_new W : distinct W → served (newServer W).
Proof. by split. Qed.

Lemma served_want W s : distinct W → served s → served (want W s).
Proof. intros HW [_ Hs]. split; [done|]. intros r Hr. destruct (Hs r Hr). by split. Qed.

Lemma served_down e s : served s → served (down e s).
Proof. intros [HW _]. by split. Qed.

Lemma served_launch p s : view p = noView → served s → served (launch p s).
Proof.
  intros Hp [HW _]. split; [done|]. intros r [= <-]. split; [|done]. unfold synced. cbn [proc current relays dials]. rewrite Hp. split; [|split; [|done]].
  - exists []. split; cbn; [constructor|constructor|..]; intros; rewrite lookup_empty; set_solver.
  - split; cbn; [done|constructor|done|done|]. intros r Hr. by apply not_elem_of_nil in Hr.
Qed.

Lemma served_step attempts s : served s → served (serveStep attempts s).
Proof.
  intros Hserved. pose proof Hserved as [HW Hs]. unfold serveStep. destruct (running s) as [r|] eqn:Er; [|done].
  destruct (Hs r eq_refl) as [((L & Hk) & Hr & Hd) Hph]. destruct (at_phase r) eqn:Ep.
  - destruct (admitLinks attempts (first r) (wanted s) (current r) (proc r)) as [p [c|e]] eqn:E; [|by apply served_down].
    destruct (admit_knows _ _ _ _ _ _ _ _ HW Hk E) as (Hk' & El & Err & Ed). split; [done|]. intros r' [= <-]. cbn. split; [|done].
    split; [by exists (pairsOf (wanted s))|]. cbn. split; [|congruence]. destruct Hr as [H1 H2 H3 H4 H5]. split; rewrite ?El, ?Err; done.
  - destruct (relay (wanted s) (current r) (relays r) (proc r)) as [p [x|e]] eqn:E; [|by apply served_down].
    destruct (relay_exact L _ _ _ _ _ _ (proj1 HW) Hk Hr E) as (Hr' & Eu & Ed & El & Et). split; [done|]. intros r' [= <-]. cbn. split.
    + split; [exists L; cbn; by rewrite Eu|]. cbn. split; [done|congruence].
    + intros Hw. specialize (Hph Hw). split; [unfold admits in *; cbn; by rewrite Eu|by split].
  - unfold dial. case_bool_decide as En.
    + split; [done|]. intros r' [= <-]. cbn. split; [split; [by exists L|by split]|]. intros Hw. specialize (Hph Hw) as [? ?]. split; [done|]. by split.
    + destruct (SetReverseDials (dialsOf (wanted s)) (proc r)) as [p set] eqn:E. destruct set; [|by apply served_down].
      apply dials_set in E. split; [done|]. intros r' [= <-]. cbn. unfold synced, admits, relaysFor, dialsFor. cbn. rewrite E. cbn [vUsers vLinks vRoutes vDials]. split.
      * split; [by exists L|]. split; [|done]. destruct Hr as [H1 H2 H3 H4 H5]. by split.
      * intros Hw. specialize (Hph Hw) as [H1 H2]. split; [done|]. by split.
  - destruct (wake s) eqn:Ew; [|done]. split; [done|]. intros r' [= <-]. split; [split; [by exists L|by split]|done].
Qed.

(** ** The manager *)

#[local] Arguments listenerOf : simpl never.

Definition onListener (l : listener) (A : list Accept) : list Accept := filter (λ a, listenerOf a = l) A.

(** What [group] has after the accepts seen. *)
Record grouped (seen : list Accept) (s : Groups * gset string) : Prop := {
  gr_group l G : s.1 !! l = Some G → G = onListener l seen;
  gr_some l : is_Some (s.1 !! l) ↔ ∃ a, a ∈ seen ∧ listenerOf a = l;
  gr_links id : id ∈ s.2 ↔ id ∈ ALinkID <$> seen;
  gr_distinct : NoDup (ALinkID <$> seen)
}.

Lemma onListener_none l seen : (¬ ∃ a, a ∈ seen ∧ listenerOf a = l) → onListener l seen = [].
Proof. intros Hn. apply filter_none. intros a Ha E. apply Hn. by exists a. Qed.

Lemma groupStep_grouped seen a s s' : grouped seen s → groupStep (Ok s) a = Ok s' → grouped (seen ++ [a]) s'.
Proof.
  intros [Hg Hs Hi Hd]. unfold groupStep. cbn. destruct (checkAccept a) as [u|]; [|done]. cbn. case_bool_decide as E; [done|]. intros [= <-]. split; cbn.
  - intros l G. unfold addGroup. rewrite lookup_insert_Some. unfold onListener. rewrite filter_app. fold (onListener l seen). intros [[<- <-]|[Hne HG]].
    + rewrite filter_cons, decide_True by done. f_equal. destruct (s.1 !! listenerOf a) as [G|] eqn:EG; [by apply Hg|]. cbn. symmetry. apply onListener_none.
      intros He. apply (proj2 (Hs _)) in He. rewrite EG in He. by destruct He.
    + rewrite filter_cons, decide_False by done. rewrite filter_nil, app_nil_r. by apply Hg.
  - intros l. unfold addGroup. destruct (decide (listenerOf a = l)) as [<-|Hne].
    + rewrite lookup_insert_eq. split; [|done]. intros _. exists a. split; [apply elem_of_app; right; by left|done].
    + rewrite lookup_insert_ne by done. rewrite Hs. setoid_rewrite elem_of_app. setoid_rewrite list_elem_of_singleton. naive_solver.
  - intros id. rewrite fmap_app, elem_of_app, elem_of_union, elem_of_singleton, Hi. cbn. rewrite list_elem_of_singleton. tauto.
  - rewrite fmap_app. apply NoDup_app. split; [done|]. split; [|apply NoDup_singleton]. intros id Hid Hin%list_elem_of_singleton. subst. by apply E, Hi.
Qed.

Lemma group_grouped ranged accepts groups : group ranged accepts = Ok groups → ∃ ids, grouped accepts (groups, ids).
Proof.
  unfold group. destruct (foldl groupStep (Ok (∅, ∅)) accepts) as [s|] eqn:E; [|done]. cbn. destruct (foldl _ _ (ranged s.1)); [|done]. cbn. intros [= <-].
  exists s.2. rewrite <- surjective_pairing. apply (fold_result_ind groupStep grouped accepts [] (∅, ∅) s) in E; [done|done| |].
  - intros seen a0 s1 s2 _. apply groupStep_grouped.
  - split; cbn; [by intros l G ?%lookup_empty_Some| | |constructor].
    + intros l. rewrite lookup_empty. split; [by intros []|by intros (? & ?%not_elem_of_nil & _)].
    + intros id. set_solver.
Qed.

(** Whether [Apply] gets to the servers. *)
Definition applied (ranged : Groups → list listener) (h : KeyHost) (accepts : list Accept) (m : Manager (P := P)) : bool :=
  match group ranged accepts with Err _ => false | Ok g => bool_decide (g = ∅) || is_ok (publicKey h m).2 end.

Definition set_server (m : Manager (P := P)) (l : listener) (s : Server) : Manager := mkManager (public m) (<[l := s]> (servers m)) (rst m).

(** The managers a run of the program goes through, with the accepts of the
    last [Apply] that got to the servers: plans are applied, servers take their
    steps, processes start with nothing and end. *)
Inductive managed : Manager (P := P) → list Accept → Prop :=
| managed_start : managed (mkManager "" ∅ false) []
| managed_apply m A ranged h RST accepts : managed m A → NoDup (ALinkKey <$> accepts) →
    managed (Apply ranged h RST accepts m).1 (if applied ranged h accepts m then accepts else A)
| managed_step m A l s attempts : managed m A → servers m !! l = Some s → managed (set_server m l (serveStep attempts s)) A
| managed_launch m A l s p : managed m A → servers m !! l = Some s → running s = None → view p = noView → managed (set_server m l (launch p s)) A
| managed_exit m A l s e : managed m A → servers m !! l = Some s → managed (set_server m l (down e s)) A
| managed_close m A : managed m A → managed (Close m) [].

Definition allServed (m : Manager) (A : list Accept) : Prop :=
  (∀ l, is_Some (servers m !! l) ↔ ∃ a, a ∈ A ∧ listenerOf a = l)
  ∧ ∀ l s, servers m !! l = Some s → served s ∧ wanted s = onListener l A.

Lemma allServed_set m A l s s' : allServed m A → servers m !! l = Some s → served s' → wanted s' = wanted s → allServed (set_server m l s') A.
Proof.
  intros [Hd Hs] Hl Hs' Hw. split; cbn.
  - intros k. rewrite <- Hd. destruct (decide (l = k)) as [<-|]; [by rewrite lookup_insert_eq, Hl|by rewrite lookup_insert_ne].
  - intros k t [[<- <-]|[_ Ht]]%lookup_insert_Some; [|by apply Hs]. split; [done|]. rewrite Hw. by apply Hs.
Qed.

Lemma serveStep_wanted attempts (s : Server (P := P)) : wanted (serveStep attempts s) = wanted s.
Proof. unfold serveStep. by repeat case_match. Qed.

Lemma apply_servers ranged h RST accepts (m : Manager (P := P)) : servers (Apply ranged h RST accepts m).1 =
  match group ranged accepts with Ok g => if applied ranged h accepts m then applyServers g (servers m) else servers m | Err _ => servers m end.
Proof.
  assert (∀ m : Manager (P := P), servers (publicKey h m).1 = servers m) as Hpk by (intros m0; unfold publicKey; by repeat case_match).
  assert (∀ m : Manager (P := P), servers (applyRST RST accepts m).1 = servers m) as Hrst by (intros m0; unfold applyRST; by repeat case_match).
  unfold Apply, applied. destruct (group ranged accepts) as [g|]; [|done]. case_bool_decide as E; cbn.
  - specialize (Hrst m). destruct (applyRST RST accepts m) as [m1 fine]. cbn in *. by rewrite Hrst.
  - specialize (Hpk m). destruct (publicKey h m) as [m1 [key|e]]; cbn in *; [|done]. specialize (Hrst m1). destruct (applyRST RST accepts m1) as [m2 fine]. cbn in *. by rewrite Hrst, Hpk.
Qed.

Lemma managed_served m A : managed m A → allServed m A.
Proof.
  induction 1 as [|m A ranged h RST accepts _ IH Hkeys|m A l s n _ IH Hl|m A l s p _ IH Hl _ Hp|m A l s e _ IH Hl|m A _ IH].
  - split; cbn; [|by intros l s ?%lookup_empty_Some]. intros l. rewrite lookup_empty. split; [by intros []|by intros (a & ?%not_elem_of_nil & _)].
  - pose proof (apply_servers ranged h RST accepts m) as Es. unfold allServed. rewrite Es. clear Es. unfold applied.
    destruct (group ranged accepts) as [g|] eqn:Eg; [|done]. destruct (bool_decide _ || _); [|done].
    apply group_grouped in Eg as (ids & [Hg Hs _ Hd]). cbn in Hg, Hs. unfold applyServers. split.
    + intros l. rewrite <- Hs, map_lookup_imap. destruct (g !! l); cbn; [|done]. split; by eexists.
    + intros l s. rewrite map_lookup_imap. destruct (g !! l) as [G|] eqn:EG; [|done]. cbn. intros [= <-]. apply Hg in EG as ->.
      assert (distinct (onListener l accepts)) as HD by (apply (distinct_sublist accepts); [apply sublist_filter|by split]).
      destruct (servers m !! l) as [s|] eqn:El; [|split; [by apply served_new|done]]. split; [|done]. apply served_want; [done|]. by apply (proj2 IH l).
  - eapply allServed_set; [done|done| |apply serveStep_wanted]. apply served_step. by apply (proj2 IH l).
  - eapply allServed_set; [done|done| |done]. apply served_launch; [done|]. by apply (proj2 IH l).
  - eapply allServed_set; [done|done| |done]. apply served_down. by apply (proj2 IH l).
  - split; cbn; [|by intros l s ?%lookup_empty_Some]. intros l. rewrite lookup_empty. split; [by intros []|by intros (a & ?%not_elem_of_nil & _)].
Qed.

(** What a process should run for the accepts [W]. *)
Definition runs (W : list Accept) (v : View) : Prop :=
  (∀ id u, vUsers v !! id = Some u ↔ ∃ a, a ∈ W ∧ id = userID (ALinkKey a) ∧ u = (ALinkKey a, ALinkID a))
  ∧ vLinks v = relayLinks W
  ∧ (∀ u l, (u, l) ∈ vRoutes v ↔ ∃ a k, a ∈ W ∧ Next a = Some k ∧ LkId k = l ∧ u = userID (ALinkKey a))
  ∧ vDials v = dialsOf W.

Lemma admits_entry W r a : admits W r → a ∈ W → current r !! ALinkID a = Some (mkAdmitted (ALinkKey a) (userID (ALinkKey a))).
Proof. intros Ha Hin. apply (kn_current _ _ _ Ha). exists (ALinkKey a). split; [|done]. unfold pairsOf. by apply (list_elem_of_fmap_2 (λ a, (ALinkID a, ALinkKey a))). Qed.

Lemma waiting_runs W r : synced r → admits W r → relaysFor W r → dialsFor W r → runs W (view (proc r)).
Proof.
  intros (_ & Hr & Hd) Ha [Hl Ht] Hf. split; [|split; [|split]].
  - intros id u. rewrite (kn_users _ _ _ Ha). unfold pairsOf. setoid_rewrite list_elem_of_fmap. split.
    + intros (link & key & (a & [= -> ->] & Hin) & -> & ->). by exists a.
    + intros (a & Hin & -> & ->). exists (ALinkID a), (ALinkKey a). split; [by exists a|done].
  - by rewrite (rl_links _ _ Hr).
  - intros u l. rewrite Ht, list_elem_of_omap. unfold tableEntry. split.
    + intros (a & Hin & E). destruct (Next a) as [k|] eqn:En; [|done]. cbn in E. rewrite (admits_entry W r a Ha Hin) in E. cbn in E. injection E as <- <-. by exists a, k.
    + intros (a & k & Hin & En & <- & ->). exists a. split; [done|]. rewrite En. cbn. by rewrite (admits_entry W r a Ha Hin).
  - by rewrite Hd.
Qed.


(** ** A process that takes the calls *)

(** The calls a process does not refuse: routes into links it has, links it has
    not, the removal of links nothing is routed into. *)
Class AnxProcessTakes := {
  users_taken us p : ∃ p' ids, AddUsers us p = (p', Some ids);
  users_leave ids p : ∃ p', RemoveUsers ids p = (p', true);
  links_taken ls p : NoDup (LkId <$> ls) → (∀ l, l ∈ ls → vLinks (view p) !! LkId l = None) → ∃ p', AddLinks ls p = (p', true);
  links_leave ids p : (∀ r, r ∈ vRoutes (view p) → r.2 ∉ ids) → ∃ p', RemoveLinks ids p = (p', true);
  routes_taken table p : (∀ r, r ∈ table → is_Some (vLinks (view p) !! r.2)) → ∃ p', SetLinkRoutes table p = (p', true);
  dials_taken ds p : ∃ p', SetReverseDials ds p = (p', true)
}.

Lemma addUntil_taken `{!AnxProcessTakes} n us p : ∃ p' ids, addUntil n us p = (p', Some ids) ∧ List.length ids = List.length us.
Proof.
  destruct (users_taken us p) as (p' & ids & E). exists p', ids. split; [destruct n; cbn; by rewrite E|].
  apply users_added in E as [-> _]. by rewrite !length_fmap.
Qed.

Lemma admit_succeeds `{!AnxProcessTakes} attempts first W current p : ∃ p' c, admitLinks attempts first W current p = (p', Ok c).
Proof.
  unfold admitLinks. set (removing := filter _ (map_to_list current)). set (adding := filter (λ a, keeps current a = false) W).
  assert (∃ p1, (if bool_decide (removing = []) then (p, true) else RemoveUsers (adUser <$> removing.*2) p) = (p1, true)) as (p1 & ->)
    by (case_bool_decide; [by exists p|apply users_leave]). cbn [negb].
  destruct (bool_decide (adding = []) && negb first); [by eexists _, _|].
  destruct (addUntil_taken (if first then attempts else O) ((λ a, (ALinkKey a, ALinkID a)) <$> adding) p1) as (p2 & ids & -> & Hl).
  rewrite length_fmap in Hl. rewrite bool_decide_eq_true_2 by done. by eexists _, _.
Qed.

Lemma relayTable_admitted current W : (∀ a, a ∈ W → is_Some (current !! ALinkID a)) → ∃ table, relayTable current W = Ok table.
Proof.
  unfold relayTable. set (f := λ (table : result (list (string * string))) (a : Accept), _). intros HW.
  assert (∀ t, ∃ table, foldl f (Ok t) W = Ok table) as Hall; [|apply Hall]. induction W as [|a W IH]; intros t; cbn; [by exists t|].
  assert (∃ t', match Next a with None => Ok t | Some l => match current !! ALinkID a with None => Err "relay: the link is not admitted" | Some have => Ok (t ++ [(adUser have, LkId l)]) end end = Ok t') as (t' & ->).
  { destruct (HW a) as [h ->]; [by left|]. destruct (Next a); by eexists. }
  apply IH. intros b Hb. apply HW. by right.
Qed.

(** [relay] asks in an order the process takes: no link is removed under a
    route, none is routed into before it is there. *)
Lemma relay_succeeds `{!AnxProcessTakes} L W current x p : NoDup (ALinkID <$> W) → knows L current (vUsers (view p)) → relayed x (view p) →
  (∀ a, a ∈ W → is_Some (current !! ALinkID a)) → ∃ p' x', relay W current x p = (p', Ok x').
Proof.
  intros HW Hk Hx Hin. unfold relay. destruct (relayTable_admitted current W Hin) as (table & Et). rewrite Et. apply relayTable_spec in Et as [-> _].
  set (table := omap (tableEntry current) W).
  set (remove := sort_by str_le (differing (rLinks x) (relayLinks W))). set (ids := sort_by str_le (differing (relayLinks W) (rLinks x))).
  set (add := omap (λ id, relayLinks W !! id) ids). destruct (bool_decide (remove = []) && _ && _ && _); [by eexists _, _|].
  assert (∃ p1, (if bool_decide (remove = []) then (p, true) else SetLinkRoutes [] p) = (p1, true) ∧ vLinks (view p1) = rLinks x ∧ (remove ≠ [] → vRoutes (view p1) = [])) as (p1 & -> & Hl1 & Hr1).
  { case_bool_decide as E; [exists p; split; [done|]; split; [apply (rl_links _ _ Hx)|done]|].
    destruct (routes_taken [] p) as (p1 & E1); [by intros r ?%not_elem_of_nil|]. exists p1. split; [done|]. apply routes_set in E1. rewrite E1. cbn. by rewrite (rl_links _ _ Hx). }
  cbn [negb].
  assert (∃ p2, (if bool_decide (remove = []) then (p1, true) else RemoveLinks remove p1) = (p2, true) ∧ vLinks (view p2) = foldl (λ m id, delete id m) (rLinks x) remove) as (p2 & -> & Hl2).
  { case_bool_decide as E; [exists p1; split; [done|]; by rewrite E|].
    destruct (links_leave remove p1) as (p2 & E2); [rewrite Hr1 by done; by intros r ?%not_elem_of_nil|]. exists p2. split; [done|]. apply links_removed in E2. rewrite E2. cbn. by rewrite Hl1. }
  cbn [negb].
  assert (∃ p3, (if bool_decide (add = []) then (p2, true) else AddLinks add p2) = (p3, true) ∧ vLinks (view p3) = relayLinks W) as (p3 & -> & Hl3).
  { pose proof (links_replaced (rLinks x) (relayLinks W) (relayLinks_ids W)) as Hrep. fold remove ids add in Hrep. rewrite <- Hl2 in Hrep.
    case_bool_decide as E; [exists p2; split; [done|]; by rewrite E in Hrep|].
    assert (∀ id, id ∈ ids ↔ is_Some (relayLinks W !! id) ∧ rLinks x !! id ≠ relayLinks W !! id) as Hids by (intros id; unfold ids; by rewrite sort_by_perm, elem_of_differing).
    destruct (links_taken add p2) as (p3 & E3).
    - unfold add. rewrite omap_ids; [|intros; by eapply relayLinks_ids|intros id Hi; by apply Hids in Hi as [? _]]. unfold ids. rewrite sort_by_perm. apply NoDup_differing.
    - intros l (id & Hi & Hl)%list_elem_of_omap. rewrite (relayLinks_ids _ _ _ Hl), Hl2. apply Hids in Hi as [_ Hne].
      apply eq_None_not_Some. intros [y [Hn Hy]%foldl_delete_lookup]. apply Hn. unfold remove. rewrite sort_by_perm, elem_of_differing, Hy. split; [done|]. by rewrite Hy in Hne.
    - exists p3. split; [done|]. apply links_added in E3. rewrite E3. cbn. done. }
  cbn [negb]. destruct (routes_taken (sort_by (λ a b, str_le a.1 b.1) table) p3) as (p4 & ->); [|by eexists _, _].
  intros [u l] Hr. rewrite sort_by_perm in Hr. apply list_elem_of_omap in Hr as (a & Ha & E). unfold tableEntry in E. destruct (Next a) as [k|] eqn:En; [|done]. cbn in E.
  destruct (current !! ALinkID a); [|done]. cbn in E. injection E as <- <-. rewrite Hl3. by apply (relayLinks_has W a).
Qed.

Lemma dial_succeeds `{!AnxProcessTakes} W ds p : ∃ p', dial W ds p = (p', Ok (dialsOf W)).
Proof. unfold dial. case_bool_decide as E; [exists p; by rewrite E|]. destruct (dials_taken (dialsOf W) p) as (p' & ->). by exists p'. Qed.

(** A process that takes the calls is brought to the plan in one round: a
    server whose process was just started, or that takes up a change, is ready
    after admitting, relaying and dialling, and its process then runs exactly
    the wanted accepts. *)
Theorem server_settles `{!AnxProcessTakes} attempts s r : served s → running s = Some r → at_phase r = ToAdmit →
  ∃ r', running (Nat.iter 3 (serveStep attempts) s) = Some r' ∧ at_phase r' = Waiting
    ∧ ready (Nat.iter 3 (serveStep attempts) s) = true ∧ runs (wanted s) (view (proc r')).
Proof.
  intros [HW Hs] Er Ep. destruct (Hs r Er) as [((L & Hk) & Hr & Hd) _].
  destruct (admit_succeeds attempts (first r) (wanted s) (current r) (proc r)) as (p1 & c & E1).
  destruct (admit_knows _ _ _ _ _ _ _ _ HW Hk E1) as (Hk1 & El1 & Er1 & Ed1).
  assert (relayed (relays r) (view p1)) as Hr1 by (destruct Hr as [H1 H2 H3 H4 H5]; split; rewrite ?El1, ?Er1; done).
  assert (∀ a, a ∈ wanted s → is_Some (c !! ALinkID a)) as Hin.
  { intros a Ha. exists (adm (ALinkID a, ALinkKey a)). apply (kn_current _ _ _ Hk1). exists (ALinkKey a). split; [|done].
    by apply (list_elem_of_fmap_2 (λ a, (ALinkID a, ALinkKey a))). }
  destruct (relay_succeeds _ (wanted s) c (relays r) p1 (proj1 HW) Hk1 Hr1 Hin) as (p2 & x & E2).
  destruct (relay_exact _ _ _ _ _ _ _ (proj1 HW) Hk1 Hr1 E2) as (Hr2 & Eu2 & Ed2 & El2 & Et2).
  destruct (dial_succeeds (wanted s) (dials r) p2) as (p3 & E3).
  assert (serveStep attempts s = set_run s (mkRun p1 c (relays r) (dials r) (first r) ToRelay)) as S1 by (unfold serveStep; by rewrite Er, Ep, E1).
  cbn [Nat.iter nat_rect]. rewrite S1.
  assert (serveStep attempts (set_run s (mkRun p1 c (relays r) (dials r) (first r) ToRelay)) = set_run s (mkRun p2 c x (dials r) (first r) ToDial)) as -> by (unfold serveStep; cbn; by rewrite E2).
  unfold serveStep. cbn. rewrite E3. cbn. eexists. split; [done|]. split; [done|]. split; [done|]. cbn [proc].
  assert (view p3 = mkView (vUsers (view p2)) (vLinks (view p2)) (vRoutes (view p2)) (dialsOf (wanted s))) as Ev.
  { revert E3. unfold dial. case_bool_decide as E; [intros [= <- _]; rewrite E, <- Hd, <- Ed1, <- Ed2; by destruct (view p2)|].
    destruct (SetReverseDials _ p2) as [p [|]] eqn:E3; [|done]. intros [= <-]. by apply dials_set. }
  apply (waiting_runs (wanted s) (mkRun p3 c x (dialsOf (wanted s)) false Waiting)).
  - unfold synced. cbn. rewrite Ev. cbn. rewrite Eu2. split; [by eexists|]. split; [|done]. destruct Hr2 as [H1 H2 H3 H4 H5]. by split.
  - unfold admits. cbn. rewrite Ev. cbn. by rewrite Eu2.
  - unfold relaysFor. cbn. rewrite Ev. by split.
  - done.
Qed.

End Served.

End AnxServed.

(** ** An anx-server process on a concrete input

    A process that keeps its tables and refuses what the management API
    documents it refuses, and a relay node that serves an entry link into a
    further line: the instance of the laws and the witnesses. *)

Module AnxHost.
Import GoNet NetworkPlan AnxServer AnxServing AnxServed.

Definition idOf (key : string) : string := "u" +:+ key.

#[export] Instance tables : AnxProcess View := {
  AddUsers us v := (mkView (foldl (λ m u, <[idOf u.1 := u]> m) (vUsers v) us) (vLinks v) (vRoutes v) (vDials v), Some (idOf <$> us.*1));
  RemoveUsers ids v := (mkView (foldl (λ m id, delete id m) (vUsers v) ids) (vLinks v) (vRoutes v) (vDials v), true);
  AddLinks ls v := if bool_decide (Forall (λ l, vLinks v !! LkId l = None) ls)
                   then (mkView (vUsers v) (foldl (λ m l, <[LkId l := l]> m) (vLinks v) ls) (vRoutes v) (vDials v), true) else (v, false);
  RemoveLinks ids v := if bool_decide (Forall (λ r, r.2 ∉ ids) (vRoutes v))
                       then (mkView (vUsers v) (foldl (λ m id, delete id m) (vLinks v) ids) (vRoutes v) (vDials v), true) else (v, false);
  SetLinkRoutes table v := if bool_decide (Forall (λ r, is_Some (vLinks v !! r.2)) table)
                           then (mkView (vUsers v) (vLinks v) table (vDials v), true) else (v, false);
  SetReverseDials ds v := (mkView (vUsers v) (vLinks v) (vRoutes v) ds, true)
}.

#[export] Instance idOf_inj : Inj (=) (=) idOf.
Proof. intros a b E. by injection E. Qed.

#[export] Instance tables_laws : AnxProcessLaws View.
Proof.
  apply (Build_AnxProcessLaws View _ (λ v, v) idOf idOf_inj).
  - intros us p p' ids. cbn. intros [= <- <-]. done.
  - intros us p p'. cbn. by intros [=].
  - intros ids p p'. cbn. by intros [= <-].
  - intros ls p p'. cbn. case_bool_decide; by intros [= <-].
  - intros ids p p'. cbn. case_bool_decide; by intros [= <-].
  - intros table p p'. cbn. case_bool_decide; by intros [= <-].
  - intros ds p p'. cbn. by intros [= <-].
Defined.

#[export] Instance tables_takes : AnxProcessTakes (P := View).
Proof.
  split; cbn.
  - intros. by eexists _, _.
  - intros. by eexists.
  - intros ls p _ Hl. rewrite bool_decide_eq_true_2 by (by apply Forall_forall). by eexists.
  - intros ids p Hr. rewrite bool_decide_eq_true_2 by (by apply Forall_forall). by eexists.
  - intros table p Hr. rewrite bool_decide_eq_true_2 by (by apply Forall_forall). by eexists.
  - intros. by eexists.
Qed.

(** ** A relay node *)

Definition onward (id tcp : string) : Link := mkLink id "key-of-next" "public" "" "" tcp "" "" false 1 None.

Definition entry (id key : string) (next : option Link) : Accept :=
  mkAccept id id key "198.51.100.7:443" "" "" false "" [] next "" "" "" "" false false.

Definition first_plan : list Accept := [entry "t1" "k1" (Some (onward "n1" "203.0.113.9:443")); entry "t2" "k2" None].
Definition next_plan : list Accept := [entry "t2" "k2" (Some (onward "n2" "203.0.113.10:443")); entry "t3" "k3" (Some (onward "n2" "203.0.113.10:443"))].

Definition keyHost : KeyHost := mkKeyHost None false true (Some ("public: abc" +:+ String "010" "")) true.
Definition ranged (g : Groups) : list listener := (map_to_list g).*1.
Definition door : listener := listenerOf (entry "t2" "k2" None).
Definition noServer : Server (P := View) := newServer [].

Definition serverAt (m : Manager (P := View)) : Server := default noServer (servers m !! door).
Definition stepAt (m : Manager (P := View)) : Manager := set_server m door (serveStep 0 (serverAt m)).

Abbreviation started := (Apply ranged keyHost None first_plan (mkManager (P := View) "" ∅ false)).1.
Abbreviation launched := (set_server started door (launch noView (serverAt started))).
Abbreviation settled := (Nat.iter 5 stepAt (Nat.iter 4 stepAt launched)).
Abbreviation replanned := (Apply ranged keyHost None next_plan (Nat.iter 7 stepAt launched)).1.
Abbreviation resettled := (Nat.iter 4 stepAt replanned).

Example settles_once : at_phase <$> running (serverAt settled) = Some Waiting ∧ vRoutes <$> (proc <$> running (serverAt settled)) = Some [("uk1", "n1")].
Proof. split; vm_compute; reflexivity. Qed.

(** A server of a manager takes a step. *)
Lemma stepAt_managed m A : managed m A → is_Some (servers m !! door) → managed (stepAt m) A ∧ is_Some (servers (stepAt m) !! door).
Proof.
  intros Hm [s Hs]. unfold stepAt, serverAt. rewrite Hs. cbn [default]. split; [by apply managed_step|]. cbn. by rewrite lookup_insert_eq.
Qed.

Lemma steps_managed n : ∀ m A, managed m A → is_Some (servers m !! door) → managed (Nat.iter n stepAt m) A ∧ is_Some (servers (Nat.iter n stepAt m) !! door).
Proof. induction n as [|n IH]; intros m A Hm Hs; [done|]. destruct (IH m A Hm Hs). by apply stepAt_managed. Qed.

Lemma launch_managed m A : managed m A → is_Some (servers m !! door) → running (serverAt m) = None →
  managed (set_server m door (launch noView (serverAt m))) A ∧ is_Some (servers (set_server m door (launch noView (serverAt m))) !! door).
Proof.
  intros Hm [s Hs] Hr. split; [|cbn; by rewrite lookup_insert_eq]. apply managed_launch; [done| |done|done]. unfold serverAt. by rewrite Hs.
Qed.

Lemma launched_managed : managed launched first_plan ∧ is_Some (servers launched !! door).
Proof.
  apply launch_managed; [|apply (bool_decide_unpack _); vm_compute; exact I|vm_compute; reflexivity].
  pose proof (managed_apply _ _ ranged keyHost None first_plan (managed_start (P := View))) as H. specialize (H ltac:(vm_compute; apply (bool_decide_unpack _); vm_compute; exact I)).
  assert (applied ranged keyHost first_plan (mkManager (P := View) "" ∅ false) = true) as E by (vm_compute; reflexivity). by rewrite E in H.
Qed.

Lemma resettled_managed : managed resettled next_plan.
Proof.
  destruct launched_managed as [Hl Hs]. destruct (steps_managed 7 _ _ Hl Hs) as [Hm _].
  assert (managed replanned next_plan) as Hr.
  { pose proof (managed_apply _ _ ranged keyHost None next_plan Hm) as H. specialize (H ltac:(vm_compute; apply (bool_decide_unpack _); vm_compute; exact I)).
    assert (applied ranged keyHost next_plan (Nat.iter 7 stepAt launched) = true) as E by (vm_compute; reflexivity). by rewrite E in H. }
  apply steps_managed; [done|]. apply (bool_decide_unpack _). vm_compute. exact I.
Qed.

(** The plan changes between the steps of a round: the relays are computed from
    the new accepts, whose links are not admitted, and the process is stopped. *)
Example changed_between_steps :
  let s := serveStep 0 (want next_plan (serveStep 0 (launch noView (newServer first_plan)))) in
  detail s = "relay: the link is not admitted" ∧ running s = None ∧ failures s = 1.
Proof. split; [|split]; vm_compute; reflexivity. Qed.

(** A process that ran for long and ends is waited for as after as many
    failures in a row. *)
Example delay_after_health :
  let s := Nat.iter 4 (serveStep 0) (launch noView (down "exited" (down "exited" (down "exited" (down "exited" (newServer first_plan)))))) in
  ready s = true ∧ restartDelay (failures s) = 30 * second.
Proof. split; vm_compute; reflexivity. Qed.

(** A C2 dial-back has the larger buffers among its arguments, and the host's
    limits are not raised for it. *)
Definition backDial : Accept := mkAccept "t4" "t4" "k4" "" "" "" false "" [] None "203.0.113.20:9000" "" "" "" true false.

Example dial_back_buffers :
  "--quic-sockbuf" ∈ args (listenerOf backDial) ∧ raisesBuffers {[ listenerOf backDial := [backDial] ]} = false.
Proof. split; [apply (bool_decide_unpack _); vm_compute; exact I|vm_compute; reflexivity]. Qed.

(** ** Witnesses *)


Lemma server_settles_witness : ∃ r', running (Nat.iter 3 (serveStep 0) (launch noView (newServer first_plan))) = Some r' ∧ runs first_plan (view (proc r')).
Proof.
  assert (distinct first_plan) as HW by (split; apply (bool_decide_unpack _); vm_compute; exact I).
  assert (served (launch noView (newServer first_plan))) as Hs by (apply served_launch; [reflexivity|exact (served_new first_plan HW)]).
  destruct (server_settles 0 (launch noView (newServer first_plan)) (mkRun noView ∅ (mkRelaying ∅ ∅ false) [] true ToAdmit) Hs eq_refl eq_refl) as (r' & H1 & _ & _ & H2).
  exists r'. split; [exact H1|exact H2].
Defined.

End AnxHost.
