(* ===== verification/KernelForward.v ===== *)
(** * Kernel forwards (kernelfwd/kernelfwd.go)

    The plan's forwards that the kernel runs: the targets with their last check,
    the nftables table derived from them, and the manager that keeps the host's
    table at it.  nft and the sysctl files are a host that answers or fails. *)

From S2P Require Import Prelude GoStrings GoNet NetworkPlan.
From Stdlib Require Import Ascii String.

Module KernelForward.
Import GoNet NetworkPlan.

Definition Table : string := "edge_nat".
Definition defaultInterval : duration := 5 * second.
Definition defaultTimeout : duration := 2 * second.
Definition maxEntries : Z := 256.

(** ** Targets *)

Inductive HealthState := Unchecked | Healthy | Unhealthy.

Record health := mkHealth { hState : HealthState; hFailures : Z; rttUs : Z; checkedAt : Z }.

Record target := mkTarget { tHost : string; tPort : Z; tWeight : Z; tPriority : Z; addrs : list Addr; tHealth : health }.

#[export] Instance HealthState_eq_dec : EqDecision HealthState.
Proof. solve_decision. Defined.

Definition unchecked : health := mkHealth Unchecked 0 0 0.

(** The target of a new plan: what was known of the same host and port is
    kept. *)
Definition freshTarget (old : list target) (t : ForwardTarget) : target :=
  foldl (λ next prev, if String.eqb (tHost prev) (tHost next) && (tPort prev =? tPort next)
                      then mkTarget (tHost next) (tPort next) (tWeight next) (tPriority next) (addrs prev) (tHealth prev) else next)
    (mkTarget (TargetHost t) (TargetPort t) (Z.max (TargetWeight t) 1) (NetworkPlan.TargetPriority t) [] unchecked) old.

Definition freshTargets (old : gmap string (list target)) (forwards : list KernelForward) : gmap string (list target) :=
  foldl (λ m f, match freshTarget (default [] (old !! ForwardId f)) <$> Targets f with
                | [] => m
                | ts => <[ForwardId f := default [] (m !! ForwardId f) ++ ts]> m
                end) ∅ forwards.

Definition hasTCP (f : KernelForward) : bool := existsb (String.eqb "tcp") (Protocols f).

Definition interval (forwards : list KernelForward) : duration :=
  foldl (λ every f, if 0 <? IntervalMs f then Z.min every (Z.max (IntervalMs f * millisecond) second) else every) defaultInterval forwards.

(** ** Checks *)

Record job := mkJob { jForward : string; jTarget : nat; jProbe : bool; jTimeout : duration }.

(** What a job finds: the addresses the host resolves to, the microseconds a
    connection took (none when it fails) and when it was started. *)
Record answer := mkAnswer { found : list Addr; connected : option Z; started : Z }.

Definition jobsOf (targets : gmap string (list target)) (f : KernelForward) : list job :=
  let timeout := if 0 <? TimeoutMs f then TimeoutMs f * millisecond else defaultTimeout in
  let probe := negb (HealthDisabled f) && hasTCP f in
  (λ i, mkJob (ForwardId f) i probe timeout) <$> seq 0 (List.length (default [] (targets !! ForwardId f))).

Definition resolve (host : string) (found : list Addr) : list Addr :=
  match ParseAddr host with Some a => [Unmap a] | None => Unmap <$> found end.

Definition checkedHealth (a : answer) (before : health) : health :=
  match connected a with
  | Some us => mkHealth Healthy 0 (Z.min us (2 ^ 31)) (started a)
  | None => mkHealth Unhealthy ((hFailures before + 1) mod 2 ^ 32) 0 (started a)
  end.

Definition checkTarget (probe : bool) (a : answer) (t : target) : target :=
  let addrs := match resolve (tHost t) (found a) with [] => addrs t | l => l end in
  mkTarget (tHost t) (tPort t) (tWeight t) (tPriority t) addrs (if probe then checkedHealth a (tHealth t) else tHealth t).

(** [check] with the answer of each job. *)
Definition check (answers : nat → job → answer) (forwards : list KernelForward) (targets : gmap string (list target)) : gmap string (list target) :=
  foldl (λ m x, alter (alter (checkTarget (jProbe x.2) (answers x.1 x.2)) (jTarget x.2)) (jForward x.2) m) targets
    (imap pair (forwards ≫= jobsOf targets)).

(** ** The table *)

Record backend := mkBackend { bAddr : Addr; bPort : Z; bWeight : Z }.

#[export] Instance backend_eq_dec : EqDecision backend.
Proof. solve_decision. Defined.

Definition isUp (t : target) : bool := negb (bool_decide (hState (tHealth t) = Unhealthy)).

(** The targets to send to, in order. *)
Definition upTargets (f : KernelForward) (ts : list target) : list target :=
  let up := filter (λ t, isUp t = true) ts in
  let up := match up with [] => ts | _ => up end in
  if String.eqb (Balance f) "failover" then sort_by (λ a b, tPriority a <=? tPriority b) up else up.

Definition backendOf (v6 : bool) (t : target) : option backend :=
  (λ a, mkBackend a (tPort t) (tWeight t)) <$> head (filter (λ a, Is4 a = negb v6) (addrs t)).

Definition backends (f : KernelForward) (ts : list target) (v6 : bool) : list backend :=
  let out := omap (backendOf v6) (upTargets f ts) in
  if String.eqb (Balance f) "failover" then take 1 out else out.

Definition endpoint (family : string) (b : backend) : string :=
  if String.eqb family "ip6" then "[" +:+ addr_string (bAddr b) +:+ "]:" +:+ itoa (bPort b) else addr_string (bAddr b) +:+ ":" +:+ itoa (bPort b).

(** The balancing map: a backend is there as often as it weighs. *)
Definition entriesOf (bs : list backend) : list backend :=
  take (Z.to_nat maxEntries) (bs ≫= λ b, replicate (Z.to_nat (Z.min (bWeight b) maxEntries)) b).

Definition entryText (b : backend) : string := addr_string (bAddr b) +:+ " . " +:+ itoa (bPort b).

Definition dnatTo (family balance : string) (bs : list backend) : string :=
  match bs with
  | [b] => "to " +:+ endpoint family b
  | _ =>
    let entries := entryText <$> entriesOf bs in
    let n := itoa (Z.of_nat (List.length entries)) in
    let selector := if String.eqb balance "random" then "numgen random mod " +:+ n
                    else if String.eqb balance "ip_hash" then "jhash " +:+ family +:+ " saddr mod " +:+ n
                    else "numgen inc mod " +:+ n in
    "addr . port to " +:+ selector +:+ " map { " +:+ join (imap (λ i e, itoa (Z.of_nat i) +:+ " : " +:+ e) entries) ", " +:+ " }"
  end.

Definition counterName (direction id : string) : string := direction +:+ "_" +:+ ReplaceAll id "-" "_".

Definition tab : string := String "009" "".
Definition line (s : string) : string := s +:+ String "010" "".

Definition l4Of (f : KernelForward) : string :=
  match Protocols f with _ :: _ :: _ => "meta l4proto { tcp, udp }" | ps => "meta l4proto " +:+ join ps "" end.

(** The listen address, none when it does not parse. *)
Definition listenOf (f : KernelForward) : option Addr := Unmap <$> ParseAddr (ListenAddress f).
Definition anyAddress (a : option Addr) : bool := match a with Some a => IsUnspecified a | None => false end.
Definition is4 (a : option Addr) : bool := match a with Some a => Is4 a | None => false end.
Definition addressText (a : option Addr) : string := match a with Some a => addr_string a | None => "invalid IP" end.

(** The prerouting rule of a family, none without a backend. *)
Definition preRule (f : KernelForward) (ts : list target) (family : string) : option string :=
  let listen := listenOf f in
  let v6 := String.eqb family "ip6" in
  if negb (anyAddress listen) && negb (Bool.eqb (is4 listen) (String.eqb family "ip")) then None
  else match backends f ts v6 with
       | [] => None
       | bs =>
         let rule := l4Of f +:+ " th dport " +:+ itoa (ListenPort f) +:+ " fib daddr type local" in
         let rule := if anyAddress listen then rule else family +:+ " daddr " +:+ addressText listen +:+ " " +:+ rule in
         Some (line (tab +:+ tab +:+ rule +:+ " dnat " +:+ family +:+ " " +:+ dnatTo family (Balance f) bs))
       end.

Definition original (f : KernelForward) : string := l4Of f +:+ " ct status dnat ct original proto-dst " +:+ itoa (ListenPort f).
Definition postRule (f : KernelForward) : string := line (tab +:+ tab +:+ original f +:+ " masquerade").
Definition fwdRules (f : KernelForward) : string :=
  line (tab +:+ tab +:+ original f +:+ " ct direction original counter name " +:+ counterName "u" (ForwardId f))
  +:+ line (tab +:+ tab +:+ original f +:+ " ct direction reply counter name " +:+ counterName "d" (ForwardId f)).

Definition concat_text (l : list string) : string := foldr String.append "" l.

Definition render (forwards : list KernelForward) (targets : gmap string (list target)) : string * bool :=
  let rulesOf (family : string) (f : KernelForward) := preRule f (default [] (targets !! ForwardId f)) family in
  let pre := forwards ≫= λ f, omap (λ family, rulesOf family f) ["ip"; "ip6"] in
  let v6 := existsb (λ f, bool_decide (is_Some (rulesOf "ip6" f))) forwards in
  (line (tab +:+ "chain prerouting {") +:+ line (tab +:+ tab +:+ "type nat hook prerouting priority dstnat; policy accept;") +:+ concat_text pre +:+ line (tab +:+ "}")
   +:+ line (tab +:+ "chain postrouting {") +:+ line (tab +:+ tab +:+ "type nat hook postrouting priority srcnat; policy accept;") +:+ concat_text (postRule <$> forwards) +:+ line (tab +:+ "}")
   +:+ line (tab +:+ "chain forward {") +:+ line (tab +:+ tab +:+ "type filter hook forward priority filter; policy accept;") +:+ concat_text (fwdRules <$> forwards) +:+ line (tab +:+ "}"), v6).

Record counter := mkCounter { Packets : Z; Bytes : Z }.

Definition noCounter : counter := mkCounter 0 0.

Definition names (ids : list string) : list string := ids ≫= λ id, [counterName "u" id; counterName "d" id].

Definition counterLine (name : string) (c : counter) : string :=
  tab +:+ "counter " +:+ name +:+ " { packets " +:+ format_uint (Packets c) +:+ " bytes " +:+ format_uint (Bytes c) +:+ " }".

Definition script (rules : string) (ids : list string) (counters : gmap string counter) : string :=
  line ("table inet " +:+ Table) +:+ line ("delete table inet " +:+ Table) +:+ line ("table inet " +:+ Table +:+ " {")
  +:+ concat_text ((λ name, line (counterLine name (default noCounter (counters !! name)))) <$> names ids)
  +:+ rules +:+ line "}".

(** ** The manager *)

Record Manager := mkManager {
  forwards : list KernelForward; targets : gmap string (list target); applied : string; err : option string; looping : option duration
}.

Definition set_targets (m : Manager) (ts : gmap string (list target)) : Manager := mkManager (forwards m) ts (applied m) (err m) (looping m).

(** The host: nft with its input and arguments, and the sysctl files. *)
Class KernelHost (H : Type) := {
  nft : string → list string → H → H * option string;
  writeForwarding : H → H * bool;
  readForwarding6 : H → option string;
  decodeCounters : string → option (list (option (string * counter)))
}.

Section Host.
Context {H : Type} `{!KernelHost H}.

Definition deleteTable : list string := ["delete"; "table"; "inet"; Table].
Definition listCounters : list string := ["-j"; "list"; "counters"; "table"; "inet"; Table].

Definition enableForwarding (v6 : bool) (h : H) : H * option string :=
  match writeForwarding h with
  | (h, false) => (h, Some "enable IPv4 forwarding")
  | (h, true) =>
    if v6 && negb (String.eqb (trim_space (default "" (readForwarding6 h))) "1")
    then (h, Some "an IPv6 target needs net.ipv6.conf.all.forwarding=1 on this host") else (h, None)
  end.

Definition counters (h : H) : H * gmap string counter :=
  match nft "" listCounters h with
  | (h, None) => (h, ∅)
  | (h, Some out) =>
    (h, match decodeCounters out with
        | None => ∅
        | Some items => foldl (λ m item, match item with Some (name, c) => <[name := c]> m | None => m end) ∅ items
        end)
  end.

(** [sync] in its parts: under the lock, the commands, and under the lock. *)
Definition syncNeeded (m : Manager) : option (string * bool * list string) :=
  let '(rules, v6) := render (forwards m) (targets m) in
  if String.eqb rules (applied m) then None else Some (rules, v6, ForwardId <$> forwards m).

Definition syncHost (x : string * bool * list string) (h : H) : H * option string :=
  let '(rules, v6, ids) := x in
  match enableForwarding v6 h with
  | (h, Some e) => (h, Some e)
  | (h, None) =>
    let '(h, cs) := counters h in
    match nft (script rules ids cs) ["-f"; "-"] h with
    | (h, Some _) => (h, None)
    | (h, None) => (h, Some "nft -f -")
    end
  end.

Definition syncDone (x : string * bool * list string) (e : option string) (m : Manager) : Manager :=
  mkManager (forwards m) (targets m) (match e with None => x.1.1 | Some _ => applied m end) e (looping m).

Definition sync (m : Manager) (h : H) : Manager * H * option string :=
  match syncNeeded m with
  | None => (m, h, None)
  | Some x => let '(h, e) := syncHost x h in (syncDone x e m, h, e)
  end.

(** The forwards of a plan before the commands. *)
Definition replaceForwards (fs : list KernelForward) (m : Manager) : Manager :=
  mkManager fs (freshTargets (targets m) fs) "" (err m) None.

Definition Apply (answers : nat → job → answer) (fs : list KernelForward) (m : Manager) (h : H) : Manager * H * option string :=
  let m := replaceForwards fs m in
  match fs with
  | [] => let '(h, _) := nft "" deleteTable h in (mkManager (forwards m) (targets m) (applied m) None (looping m), h, None)
  | _ =>
    let m := set_targets m (check answers (forwards m) (targets m)) in
    let '(m, h, e) := sync m h in
    (mkManager (forwards m) (targets m) (applied m) (err m) (Some (interval fs)), h, e)
  end.

(** A tick of the loop. *)
Definition tick (answers : nat → job → answer) (m : Manager) (h : H) : Manager * H :=
  match looping m with
  | None => (m, h)
  | Some _ => (sync (set_targets m (check answers (forwards m) (targets m))) h).1
  end.

Definition Close (m : Manager) : Manager := mkManager (forwards m) (targets m) (applied m) (err m) None.

Definition truncate (text : string) : string := if 512 <? len text then slice text 0 512 else text.

Record TargetStatus := mkTargetStatus { tsHost : string; tsPort : Z; tsHealth : health }.
Record ForwardStatus := mkForwardStatus {
  fsId : string; fsUp : Z; fsDown : Z; fsError : option string; fsTargets : list TargetStatus
}.

Definition Status (m : Manager) (h : H) : H * list ForwardStatus :=
  let '(h, cs) := match forwards m with [] => (h, ∅) | _ => counters h end in
  let bytes name := Bytes (default noCounter (cs !! name)) in
  (h, (λ f, mkForwardStatus (ForwardId f) (bytes (counterName "u" (ForwardId f))) (bytes (counterName "d" (ForwardId f))) (truncate <$> err m)
              ((λ t, mkTargetStatus (tHost t) (tPort t) (tHealth t)) <$> default [] (targets m !! ForwardId f))) <$> forwards m).

End Host.

End KernelForward.
