(* ===== verification/KernelForwarding.v ===== *)
(** * Kernel forwards: what the table is

    Against nft as documented (a batch is loaded whole or not at all, declared
    counters start at what they are declared with), the host's table is the one
    of the forwards and targets whenever no error is reported, its counters never
    go back, and connections go to live targets.
    Module [ForwardHost]: a host. *)

From S2P Require Import Prelude GoStrings GoNet NetworkPlan KernelForward.
From Stdlib Require Import Ascii String.

Module KernelForwarding.
Import GoNet NetworkPlan KernelForward.

(** ** The script *)

Definition LF : ascii := "010".

(** A counter declaration of a script, in nft's syntax. *)
Definition declares (l : string) : option (string * counter) :=
  match split l " " with
  | [w; name; open; packets; p; bytes; b; close] =>
    if String.eqb w (tab +:+ "counter") && String.eqb open "{" && String.eqb packets "packets" && String.eqb bytes "bytes" && String.eqb close "}"
    then p ← parse_uint p; b ← parse_uint b; Some (name, mkCounter p b) else None
  | _ => None
  end.

Definition declared (text : string) : gmap string counter :=
  foldr (λ l m, match declares l with Some (name, c) => <[name := c]> m | None => m end) ∅ (split text LF).

Definition idChar (c : ascii) : bool := is_alnum c || Ascii.eqb c "-" || Ascii.eqb c "_".
Definition goodId (id : string) : Prop := all_chars idChar id = true.

Definition counts64 (c : counter) : Prop := 0 ≤ Packets c < 2 ^ 64 ∧ 0 ≤ Bytes c < 2 ^ 64.

Lemma replaced_chars p s : all_chars p s = true → p "_"%char = true → all_chars p (ReplaceAll s "-" "_") = true.
Proof.
  intros Hs Hp. unfold ReplaceAll. induction s as [|c s IH]; [done|]. cbn in Hs. apply andb_true_iff in Hs as [Hc Hs].
  cbn [replace_from]. destruct (has_prefix (String c s) "-").
  - cbn [String.length Nat.pred]. rewrite all_chars_app. cbn. by rewrite Hp, IH.
  - cbn [all_chars]. by rewrite Hc, IH.
Qed.

Lemma counterName_chars d id : d ∈ ["u"; "d"] → goodId id → all_chars idChar (counterName d id) = true.
Proof.
  intros Hd Hi. unfold counterName. rewrite !all_chars_app, replaced_chars by done. 
  apply elem_of_cons in Hd as [->|Hd]; [done|]. apply list_elem_of_singleton in Hd as ->. done.
Qed.

Lemma names_chars ids : Forall goodId ids → Forall (λ n, all_chars idChar n = true) (names ids).
Proof.
  induction 1 as [|id ids Hi _ IH]; [constructor|]. cbn. constructor; [by apply counterName_chars; [left|]|].
  constructor; [apply counterName_chars; [right; left|done]|done].
Qed.

Lemma idChar_free s c : all_chars idChar s = true → idChar c = false → contains_char s c = false.
Proof. intros Hs Hc. by apply (all_chars_contains idChar). Qed.

Lemma digits_free n c : 0 ≤ n → is_digit c = false → contains_char (format_uint n) c = false.
Proof. intros Hn Hc. apply (all_chars_contains is_digit); [by apply format_uint_shape|done]. Qed.

#[local] Arguments format_uint : simpl never.
#[local] Arguments contains_char : simpl never.

Lemma counterLine_no_lf name c : all_chars idChar name = true → counts64 c → contains_char (counterLine name c) LF = false.
Proof.
  intros Hn [Hp Hb]. unfold counterLine. rewrite !contains_char_app, (idChar_free _ LF Hn), !digits_free by (done || lia). done.
Qed.

Lemma split_word a s : contains_char a " " = false → split (a +:+ " " +:+ s) " " = a :: split s " ".
Proof. apply split_cons. Qed.

Lemma declares_counterLine name c : all_chars idChar name = true → counts64 c → declares (counterLine name c) = Some (name, c).
Proof.
  intros Hn [Hp Hb]. unfold declares, counterLine.
  assert (tab +:+ "counter " +:+ name +:+ " { packets " +:+ format_uint (Packets c) +:+ " bytes " +:+ format_uint (Bytes c) +:+ " }"
    = (tab +:+ "counter") +:+ " " +:+ name +:+ " " +:+ "{" +:+ " " +:+ "packets" +:+ " " +:+ format_uint (Packets c) +:+ " " +:+ "bytes" +:+ " " +:+ format_uint (Bytes c) +:+ " " +:+ "}") as ->
    by reflexivity.
  rewrite !split_word by (first [done|by apply idChar_free|apply digits_free; [lia|done]]). rewrite split_single by done. cbn.
  rewrite !parse_format_uint by lia. cbn. by destruct c.
Qed.

Lemma split_text_line a s : contains_char a LF = false → split (line a +:+ s) LF = a :: split s LF.
Proof. intros Ha. unfold line. rewrite app_assoc_str. by apply split_cons. Qed.

(** The counters a script declares are those it was given. *)
Lemma declared_script rules ids (cs : gmap string counter) name : Forall goodId ids → (∀ n c, cs !! n = Some c → counts64 c) → name ∈ names ids →
  declared (script rules ids cs) !! name = Some (default noCounter (cs !! name)).
Proof.
  intros Hids Hcs. unfold declared, script. rewrite !split_text_line by done. cbn [foldr].
  assert (∀ l, declares l = None → ∀ m : gmap string counter, match declares l with Some (n, c) => <[n := c]> m | None => m end = m) as Hskip by (by intros l ->).
  rewrite !Hskip by done. clear Hskip. pose proof (names_chars _ Hids) as Hn. revert Hn. generalize (names ids). clear Hids ids.
  induction 1 as [|n ns Hn Hns IH]; [by intros ?%not_elem_of_nil|]. cbn [fmap list_fmap concat_text foldr].
  assert (counts64 (default noCounter (cs !! n))) as Hc by (destruct (cs !! n) eqn:E; cbn; [by eapply Hcs|split; cbn; lia]).
  rewrite app_assoc_str, split_text_line by (by apply counterLine_no_lf). cbn [foldr]. rewrite declares_counterLine by done.
  intros [->|Hin]%elem_of_cons; [by rewrite lookup_insert_eq|]. destruct (decide (n = name)) as [->|]; [by rewrite lookup_insert_eq|].
  rewrite lookup_insert_ne by done. by apply IH.
Qed.

(** ** The host *)

(** nft and the sysctl files as documented: [loaded] is the script the table
    comes from, [counts] its counters.  Only the Agent touches the table. *)
Class KernelHostLaws (H : Type) `{KernelHost H} := {
  loaded : H → option string;
  counts : H → gmap string counter;
  counts_none h : loaded h = None → counts h = ∅;
  counts_range h n c : counts h !! n = Some c → counts64 c;
  batch_loaded text h h' out : nft text ["-f"; "-"] h = (h', Some out) → loaded h' = Some text ∧ counts h' = declared text;
  batch_refused text h h' : nft text ["-f"; "-"] h = (h', None) → loaded h' = loaded h ∧ counts h' = counts h;
  table_deleted h h' out : nft "" deleteTable h = (h', Some out) → loaded h' = None ∧ counts h' = ∅;
  table_not_deleted h h' : nft "" deleteTable h = (h', None) → loaded h' = loaded h ∧ counts h' = counts h;
  counters_listed h h' out : nft "" listCounters h = (h', Some out) → loaded h' = loaded h ∧ counts h' = counts h
    ∧ ∃ items, decodeCounters out = Some items ∧ foldl (λ m item, match item with Some (name, c) => <[name := c]> m | None => m end) ∅ items = counts h;
  counters_not_listed h h' : nft "" listCounters h = (h', None) → loaded h' = loaded h ∧ counts h' = counts h;
  forwarding_written h h' ok : writeForwarding h = (h', ok) → loaded h' = loaded h ∧ counts h' = counts h
}.

Section Host.
Context {H : Type} `{!KernelHost H, !KernelHostLaws H}.
Implicit Types (m : Manager) (h : H).

(** The table stays as it is. *)
Definition same h h' : Prop := loaded h' = loaded h ∧ counts h' = counts h.

Lemma same_refl h : same h h.
Proof. done. Qed.

Lemma same_trans h1 h2 h3 : same h1 h2 → same h2 h3 → same h1 h3.
Proof. intros [H1 H2] [H3 H4]. split; congruence. Qed.

Lemma enableForwarding_same v6 h : same h (enableForwarding v6 h).1.
Proof. unfold enableForwarding. destruct (writeForwarding h) as [h' ok] eqn:E. apply forwarding_written in E. destruct ok; [destruct (_ && _)|]; done. Qed.

Lemma counters_same h : same h (KernelForward.counters h).1.
Proof.
  unfold KernelForward.counters. destruct (nft "" listCounters h) as [h' [out|]] eqn:E; [apply counters_listed in E as (? & ? & _)|apply counters_not_listed in E as [? ?]]; done.
Qed.

(** What is read of the counters is what they are, or nothing. *)
Lemma counters_read h : (KernelForward.counters h).2 = counts h ∨ ((KernelForward.counters h).2 = ∅ ∧ (nft "" listCounters h).2 = None).
Proof.
  unfold KernelForward.counters. destruct (nft "" listCounters h) as [h' [out|]] eqn:E; [left|by right].
  apply counters_listed in E as (_ & _ & items & -> & Hc). done.
Qed.

(** [syncHost] loads the script with the counters it reads, or nothing. *)
Lemma syncHost_spec rules v6 ids h h' e : syncHost (rules, v6, ids) h = (h', e) →
  match e with
  | Some _ => same h h'
  | None => ∃ h1, same h h1 ∧ loaded h' = Some (script rules ids (KernelForward.counters h1).2) ∧ counts h' = declared (script rules ids (KernelForward.counters h1).2)
  end.
Proof.
  unfold syncHost. pose proof (enableForwarding_same v6 h) as H1. destruct (enableForwarding v6 h) as [h1 [e1|]]; cbn in H1; [by intros [= <- <-]|].
  pose proof (counters_same h1) as H2. destruct (KernelForward.counters h1) as [h2 cs] eqn:E2. cbn in H2.
  destruct (nft (script rules ids cs) ["-f"; "-"] h2) as [h3 [out|]] eqn:E3; intros [= <- <-].
  - exists h1. rewrite E2. cbn. split; [done|]. by apply (batch_loaded _ _ _ _ E3).
  - apply batch_refused in E3. eapply same_trans; [exact H1|]. by eapply same_trans.
Qed.

(** ** The manager *)

Definition rulesOf (m : Manager) : string := (render (forwards m) (targets m)).1.

(** The table holds the rules [rules] of the forwards [ids]. *)
Definition holds (rules : string) (ids : list string) h : Prop := ∃ cs, loaded h = Some (script rules ids cs).

Record current (m : Manager) h : Prop := {
  cu_applied : applied m ≠ "" → holds (applied m) (ForwardId <$> forwards m) h;
  cu_fine : forwards m ≠ [] → err m = None → applied m = rulesOf m
}.

Lemma render_rules fs ts : (render fs ts).1 ≠ "".
Proof. done. Qed.

Lemma sync_spec m h m' h' e : sync m h = (m', h', e) →
  forwards m' = forwards m ∧ targets m' = targets m ∧
  ((m' = m ∧ h' = h ∧ e = None ∧ applied m = rulesOf m) ∨
   (∃ e', e = Some e' ∧ err m' = e ∧ applied m' = applied m ∧ same h h') ∨
   (e = None ∧ err m' = None ∧ applied m' = rulesOf m ∧
    ∃ h1, same h h1 ∧ loaded h' = Some (script (rulesOf m) (ForwardId <$> forwards m) (KernelForward.counters h1).2)
      ∧ counts h' = declared (script (rulesOf m) (ForwardId <$> forwards m) (KernelForward.counters h1).2))).
Proof.
  unfold sync, syncNeeded, rulesOf. destruct (render (forwards m) (targets m)) as [rules v6]. cbn [fst]. destruct (String.eqb_spec rules (applied m)) as [E|E].
  - intros [= <- <- <-]. split; [done|]. split; [done|]. left. by rewrite E.
  - destruct (syncHost (rules, v6, ForwardId <$> forwards m) h) as [h1 e1] eqn:Es. intros [= <- <- <-]. apply syncHost_spec in Es.
    split; [done|]. split; [done|]. right. destruct e1 as [e1|]; [left; by exists e1|right]. done.
Qed.

Lemma sync_current m h m' h' e : (applied m ≠ "" → holds (applied m) (ForwardId <$> forwards m) h) → sync m h = (m', h', e) → current m' h'.
Proof.
  intros Ha (Ef & Et & Hs)%sync_spec. destruct Hs as [(-> & -> & _ & E)|[(e' & -> & E & Ea & [Hl _])|(_ & E & Ea & h1 & _ & Hl & _)]]; split; rewrite ?Ef.
  - done.
  - done.
  - rewrite Ea. unfold holds. rewrite Hl. exact Ha.
  - intros _. by rewrite E.
  - intros _. rewrite Ea. by eexists.
  - intros _ _. rewrite Ea. unfold rulesOf. by rewrite Ef, Et.
Qed.

Definition counted h (name : string) : Z := Bytes (default noCounter (counts h !! name)).

(** What happens to a manager and its host: plans with forwards named by
    letters, digits, dashes and underscores, checks, status reports, and
    traffic, which only adds to the counters. *)
Inductive kstep : Manager * H → Manager * H → Prop :=
| k_apply answers fs m h : Forall goodId (ForwardId <$> fs) → kstep (m, h) (Apply answers fs m h).1
| k_tick answers m h : kstep (m, h) (tick answers m h)
| k_close m h : kstep (m, h) (Close m, h)
| k_status m h : kstep (m, h) (m, (Status m h).1)
| k_traffic m h h' : loaded h' = loaded h → (∀ n, counted h n ≤ counted h' n) → kstep (m, h) (m, h').

Definition start : Manager := mkManager [] ∅ "" None None.

Definition good (s : Manager * H) : Prop := current s.1 s.2 ∧ Forall goodId (ForwardId <$> forwards s.1).

(** A plan: without forwards the table goes, with some it is synced. *)
Lemma Apply_spec answers fs m h : let '(m', h', e) := Apply answers fs m h in
  forwards m' = fs ∧
  match fs with
  | [] => applied m' = "" ∧ e = None
  | _ => ∃ m1 m2, forwards m1 = fs ∧ applied m1 = "" ∧ sync m1 h = (m2, h', e) ∧ forwards m' = forwards m2 ∧ targets m' = targets m2 ∧ applied m' = applied m2 ∧ err m' = err m2
  end.
Proof.
  unfold Apply. destruct fs as [|f fs]; [by destruct (nft "" deleteTable h)|].
  set (m1 := set_targets _ _). destruct (sync m1 h) as [[m2 h2] e] eqn:E. pose proof E as (Ef & _ & _)%sync_spec. split; [done|]. exists m1, m2. done.
Qed.

Lemma current_ext m m' h : forwards m' = forwards m → targets m' = targets m → applied m' = applied m → err m' = err m → current m h → current m' h.
Proof. intros Ef Et Ea Ee [H1 H2]. split; unfold rulesOf; rewrite ?Ef, ?Et, ?Ea, ?Ee; done. Qed.

Lemma kstep_good s s' : kstep s s' → good s → good s'.
Proof.
  intros Hk [Hc Hi]. destruct Hk as [answers fs m h Hfs|answers m h|m h|m h|m h h' Hl Hn]; cbn in *.
  - pose proof (Apply_spec answers fs m h) as Ha. destruct (Apply answers fs m h) as [[m' h'] e]. cbn. destruct Ha as [Ef Ha]. split; cbn; [|by rewrite Ef].
    destruct fs as [|f fs]; [destruct Ha as [Ea _]; split; [by rewrite Ea|by rewrite Ef]|].
    destruct Ha as (m1 & m2 & E1 & E2 & Hs & H1 & H2 & H3 & H4). eapply current_ext; [done..|]. eapply sync_current; [|exact Hs]. by rewrite E2.
  - unfold tick. destruct (looping m); [|done]. set (m1 := set_targets _ _). destruct (sync m1 h) as [[m2 h2] e] eqn:E. cbn.
    split; [eapply sync_current; [|exact E]; apply (cu_applied _ _ Hc)|]. cbn. apply sync_spec in E as (-> & _). done.
  - split; [by apply (current_ext m)|done].
  - split; [|done]. cbn. assert (loaded (Status m h).1 = loaded h) as Hl.
    { unfold Status. destruct (forwards m); [done|]. pose proof (counters_same h) as [Hl _]. by destruct (KernelForward.counters h). }
    destruct Hc as [H1 H2]. split; [|done]. unfold holds. by rewrite Hl.
  - split; [|done]. destruct Hc as [H1 H2]. split; [|done]. cbn. unfold holds. by rewrite Hl.
Qed.

Lemma reachable_good h0 s : rtc kstep (start, h0) s → good s.
Proof.
  assert (good (start, h0)) as H0 by (split; [split; by cbn|constructor]). revert H0. generalize (start, h0). intros s0 H0. induction 1; [done|]. eauto using kstep_good.
Qed.


(** ** Counters *)

(** Counters that are there can be listed. *)
Definition listable : Prop := ∀ h, is_Some (loaded h) → is_Some (nft "" listCounters h).2.

Lemma counters_exact h : listable → (KernelForward.counters h).2 = counts h.
Proof.
  intros Hl. destruct (counters_read h) as [?|[E En]]; [done|]. rewrite E. symmetry. apply counts_none.
  destruct (loaded h) eqn:El; [|done]. destruct (Hl h) as [out Ho]; [by rewrite El|]. congruence.
Qed.

(** A sync keeps the counters of its forwards. *)
Lemma sync_counted m h m' h' e id d : listable → Forall goodId (ForwardId <$> forwards m) → sync m h = (m', h', e) → id ∈ ForwardId <$> forwards m → d ∈ ["u"; "d"] →
  counted h' (counterName d id) = counted h (counterName d id).
Proof.
  intros Hl Hg (_ & _ & Hs)%sync_spec Hid Hd. destruct Hs as [(_ & -> & _)|[(e' & _ & _ & _ & [_ Hc])|(_ & _ & _ & h1 & [_ Hc] & _ & Hn)]]; [done|unfold counted; by rewrite Hc|].
  unfold counted. rewrite Hn, declared_script, counters_exact, Hc; [done..| |].
  - intros n c. rewrite counters_exact by done. apply counts_range.
  - unfold names. apply list_elem_of_bind. exists id. split; [|done]. apply elem_of_cons in Hd as [->|Hd]; [by left|]. apply list_elem_of_singleton in Hd as ->. by right; left.
Qed.

Lemma kstep_counted id d s s' : listable → good s → kstep s s' → id ∈ ForwardId <$> forwards s'.1 → d ∈ ["u"; "d"] →
  counted s.2 (counterName d id) ≤ counted s'.2 (counterName d id).
Proof.
  intros Hl [_ Hg] Hk Hid Hd. destruct Hk as [answers fs m h Hfs|answers m h|m h|m h|m h h' _ Hn]; cbn in *.
  - pose proof (Apply_spec answers fs m h) as Ha. destruct (Apply answers fs m h) as [[m' h'] e]. cbn in *. destruct Ha as [Ef Ha].
    rewrite Ef in Hid. destruct fs as [|f fs]; [by apply not_elem_of_nil in Hid|]. destruct Ha as (m1 & m2 & E1 & _ & Hs & _).
    rewrite <- E1 in Hfs, Hid. by rewrite (sync_counted _ _ _ _ _ _ _ Hl Hfs Hs Hid Hd).
  - unfold tick in *. destruct (looping m); [|done]. set (m1 := set_targets _ _) in *. destruct (sync m1 h) as [[m2 h2] e] eqn:E. cbn in *.
    pose proof E as (Ef & _ & _)%sync_spec. rewrite Ef in Hid. by rewrite (sync_counted m1 _ _ _ _ _ _ Hl Hg E Hid Hd).
  - done.
  - assert (counts (Status m h).1 = counts h) as Hc.
    { unfold Status. destruct (forwards m); [done|]. pose proof (counters_same h) as [_ Hc]. by destruct (KernelForward.counters h). }
    unfold counted. by rewrite Hc.
  - apply Hn.
Qed.

(** The bytes counted for a forward never go back while plans keep it: the
    table is replaced, however often, with the counters it had (when nft lists
    the counters of a table that is there). *)
Theorem forward_counters_kept h0 s s' id d : listable → rtc kstep (start, h0) s →
  rtc (λ a b, kstep a b ∧ id ∈ ForwardId <$> forwards b.1) s s' → d ∈ ["u"; "d"] →
  counted s.2 (counterName d id) ≤ counted s'.2 (counterName d id).
Proof.
  intros Hl Hg%reachable_good Hr Hd. revert Hg. induction Hr as [s|s1 s2 s3 [Hk Hid] _ IH]; intros Hg; [lia|].
  etrans; [by eapply kstep_counted|]. apply IH. by eapply kstep_good.
Qed.

End Host.

(** ** Targets *)

Lemma upTargets_elem f ts t : t ∈ upTargets f ts ↔ t ∈ ts ∧ (isUp t = true ∨ ∀ t', t' ∈ ts → isUp t' = false).
Proof.
  set (up := filter (λ t, isUp t = true) ts).
  assert (t ∈ upTargets f ts ↔ t ∈ match up with [] => ts | _ => up end) as ->.
  { unfold upTargets. fold up. destruct (String.eqb _ _); [by rewrite sort_by_perm|done]. }
  assert (∀ t', t' ∈ up ↔ isUp t' = true ∧ t' ∈ ts) as Hup by (intros t'; unfold up; by rewrite list_elem_of_filter).
  destruct up as [|u us].
  - split; [|tauto]. intros Ht. split; [done|]. right. intros t' Ht'. destruct (isUp t') eqn:E; [|done]. assert (t' ∈ @nil target) as Hn by (by apply Hup). by apply not_elem_of_nil in Hn.
  - rewrite Hup. split; [tauto|]. intros [Ht [Hu|Hn]]; [done|]. destruct (proj1 (Hup u)) as [Hu Hin]; [by left|]. rewrite (Hn u Hin) in Hu. done.
Qed.

Lemma backendOf_spec v6 t b : backendOf v6 t = Some b → bAddr b ∈ addrs t ∧ Is4 (bAddr b) = negb v6 ∧ bPort b = tPort t ∧ bWeight b = tWeight t.
Proof.
  unfold backendOf. destruct (filter (λ a, Is4 a = negb v6) (addrs t)) as [|a l] eqn:E; [done|]. cbn. intros [= <-]. cbn.
  assert (a ∈ filter (λ a, Is4 a = negb v6) (addrs t)) as [Ha Hin]%list_elem_of_filter by (rewrite E; left). done.
Qed.

(** The first of a sorted list that has a value is least among those that do. *)
Lemma omap_head_least {A B} (g : A → option B) (le : A → A → bool) (l : list A) b bs : StronglySorted (λ x y, le x y = true) l → (∀ x, le x x = true) → omap g l = b :: bs →
  ∃ x, x ∈ l ∧ g x = Some b ∧ ∀ y, y ∈ l → is_Some (g y) → le x y = true.
Proof.
  intros Hs Hr. induction Hs as [|x l Hs IH Hx]; cbn; [done|]. destruct (g x) as [c|] eqn:E.
  - intros [= Ec _]. subst c. exists x. split; [by left|]. split; [done|]. intros y [->|Hy]%elem_of_cons _; [done|]. rewrite Forall_forall in Hx. by apply Hx.
  - intros E2. destruct (IH E2) as (z & Hz & Hg & Hall). exists z. split; [by right|]. split; [done|]. intros y [->|Hy]%elem_of_cons Hy'; [rewrite E in Hy'; by destruct Hy'|by apply Hall].
Qed.

Definition weights (bs : list backend) : Z := foldr Z.add 0 (bWeight <$> bs).

Lemma entries_all bs : Forall (λ b, 1 ≤ bWeight b) bs → weights bs ≤ maxEntries → entriesOf bs = bs ≫= λ b, replicate (Z.to_nat (bWeight b)) b.
Proof.
  intros Hw Hs. unfold entriesOf.
  assert (∀ bs, Forall (λ b, 1 ≤ bWeight b) bs → 0 ≤ weights bs) as Hpos.
  { clear. induction 1 as [|b bs Hb _ IH]; unfold weights in *; cbn; lia. }
  assert ((bs ≫= λ b, replicate (Z.to_nat (Z.min (bWeight b) maxEntries)) b) = (bs ≫= λ b, replicate (Z.to_nat (bWeight b)) b)
    ∧ Z.of_nat (List.length (bs ≫= λ b, replicate (Z.to_nat (bWeight b)) b)) = weights bs) as [-> Hlen].
  { induction Hw as [|b bs Hb Hw IH]; [done|]. unfold weights in Hs. cbn in Hs. fold (weights bs) in Hs. specialize (Hpos bs Hw). destruct IH as [IH1 IH2]; [lia|].
    cbn. rewrite Z.min_l by lia. rewrite IH1. split; [done|]. rewrite length_app, length_replicate. unfold weights. cbn. fold (weights bs). lia. }
  apply take_ge. unfold maxEntries in *. lia.
Qed.

(** Connections to a forward go to its live targets: every backend is an
    address of the family of a target that is not known to be down (or of any
    while all are), failover takes the one of least priority that has such an
    address, there is a backend whenever a target to send to has one, and the
    balancing map holds each backend as often as it weighs while the weights fit
    in it. *)
Theorem forward_targets_live f ts v6 :
  (∀ b, b ∈ backends f ts v6 → ∃ t, t ∈ ts ∧ bAddr b ∈ addrs t ∧ Is4 (bAddr b) = negb v6 ∧ bPort b = tPort t
     ∧ (isUp t = true ∨ ∀ t', t' ∈ ts → isUp t' = false)
     ∧ (Balance f = "failover" → ∀ t', t' ∈ upTargets f ts → is_Some (backendOf v6 t') → tPriority t ≤ tPriority t'))
  ∧ (backends f ts v6 = [] → ∀ t a, t ∈ ts → isUp t = true → a ∈ addrs t → Is4 a = negb v6 → False)
  ∧ (Forall (λ b, 1 ≤ bWeight b) (backends f ts v6) → weights (backends f ts v6) ≤ maxEntries →
     ∀ b, b ∈ backends f ts v6 ↔ b ∈ entriesOf (backends f ts v6)).
Proof.
  split; [|split].
  - intros b Hb. assert (∃ t, t ∈ upTargets f ts ∧ backendOf v6 t = Some b ∧ (Balance f = "failover" → ∀ t', t' ∈ upTargets f ts → is_Some (backendOf v6 t') → tPriority t ≤ tPriority t')) as (t & Ht & Eb & Hp).
    { revert Hb. unfold backends. destruct (String.eqb_spec (Balance f) "failover") as [E|E].
      - destruct (omap (backendOf v6) (upTargets f ts)) as [|c cs] eqn:Eo; [by intros ?%not_elem_of_nil|]. cbn. intros ->%list_elem_of_singleton.
        apply (omap_head_least _ (λ a b, tPriority a <=? tPriority b)) in Eo as (t & Ht & Et & Hall).
        + exists t. split; [done|]. split; [done|]. intros _ t' Ht' Hs. specialize (Hall t' Ht' Hs). lia.
        + unfold upTargets. rewrite E. cbn [String.eqb Ascii.eqb Bool.eqb]. apply sort_by_sorted; intros; rewrite ?Z.leb_le in *; lia.
        + intros x. lia.
      - intros (t & Ht & Et)%list_elem_of_omap. exists t. done. }
    apply upTargets_elem in Ht as [Hin Hu]. apply backendOf_spec in Eb as (H1 & H2 & H3 & _). exists t. done.
  - intros He t a Ht Hu Ha Hf. assert (is_Some (backendOf v6 t)) as [b Eb].
    { unfold backendOf. destruct (filter (λ a, Is4 a = negb v6) (addrs t)) as [|c l] eqn:E; [|by eexists].
      assert (a ∈ @nil Addr) as Hn by (rewrite <- E; by apply list_elem_of_filter). by apply not_elem_of_nil in Hn. }
    assert (b ∈ omap (backendOf v6) (upTargets f ts)) as Hb by (apply list_elem_of_omap; exists t; split; [apply upTargets_elem; auto|done]).
    unfold backends in He. destruct (omap (backendOf v6) (upTargets f ts)); [by apply not_elem_of_nil in Hb|]. by destruct (String.eqb _ _).
  - intros Hw Hs b. rewrite entries_all by done. rewrite list_elem_of_bind. split.
    + intros Hb. exists b. split; [|done]. rewrite Forall_forall in Hw. specialize (Hw b Hb). destruct (Z.to_nat (bWeight b)) eqn:E; [lia|]. left.
    + intros (c & Hc & Hin). apply elem_of_replicate in Hc as [-> _]. done.
Qed.

End KernelForwarding.

(** ** Kernel forwards on a concrete host

    A host that loads the scripts it is given, the instance of its laws, the
    witnesses, and what happens when commands fail or overlap. *)

Module ForwardHost.
Import GoNet NetworkPlan KernelForward KernelForwarding.

(** The table, and whether the next batch is refused. *)
Record Host := mkHost { kTable : option (string * gmap string counter); kRefuse : bool }.

Definition clamp (c : counter) : counter := mkCounter (Packets c mod 2 ^ 64) (Bytes c mod 2 ^ 64).
Definition countsOf (h : Host) : gmap string counter := match kTable h with Some (_, cs) => clamp <$> cs | None => ∅ end.

(** Counters as text. *)
Fixpoint bits (p : positive) : string :=
  match p with xH => "" | xO p => String "0" (bits p) | xI p => String "1" (bits p) end.
Fixpoint unbits (s : string) : positive :=
  match s with EmptyString => xH | String c s => if Ascii.eqb c "1" then xI (unbits s) else xO (unbits s) end.

#[export] Instance counter_eq_dec : EqDecision counter.
Proof. solve_decision. Defined.
#[export] Instance counter_countable : Countable counter.
Proof. apply (inj_countable' (λ c, (Packets c, Bytes c)) (λ '(p, b), mkCounter p b)). by intros []. Defined.

Lemma counter_bits_back p : unbits (bits p) = p.
Proof. induction p as [p IH|p IH|]; cbn; by rewrite ?IH. Qed.

#[export] Instance tableHost : KernelHost Host := {
  nft text args h :=
    if bool_decide (args = ["-f"; "-"]) then if kRefuse h then (mkHost (kTable h) false, None) else (mkHost (Some (text, declared text)) false, Some "")
    else if bool_decide (args = deleteTable) then match kTable h with Some _ => (mkHost None (kRefuse h), Some "") | None => (h, None) end
    else match kTable h with Some _ => (h, Some (bits (encode (map_to_list (countsOf h))))) | None => (h, None) end;
  writeForwarding h := (h, true);
  readForwarding6 _ := Some "1";
  decodeCounters out := (λ l : list (string * counter), Some <$> l) <$> decode (unbits out)
}.

Lemma declared_range text n c : declared text !! n = Some c → counts64 c.
Proof.
  unfold declared. induction (split text LF) as [|l ls IH]; cbn; [by intros ?%lookup_empty_Some|]. destruct (declares l) as [[n' c']|] eqn:E; [|done].
  intros [[_ <-]|[_ ?]]%lookup_insert_Some; [|by apply IH]. revert E. unfold declares.
  destruct (split l " ") as [|w [|name [|o [|pk [|p [|by_ [|b [|cl [|]]]]]]]]]; try done. destruct (_ && _); [|done].
  destruct (parse_uint p) as [x|] eqn:Ep; [|done]. cbn. destruct (parse_uint b) as [y|] eqn:Eb; [|done]. cbn. intros [= <- <-].
  split; cbn; by eapply parse_uint_range.
Qed.

Lemma clamp_id c : counts64 c → clamp c = c.
Proof. intros [Hp Hb]. unfold clamp. rewrite !Z.mod_small by lia. by destruct c. Qed.

Lemma countsOf_declared text r : countsOf (mkHost (Some (text, declared text)) r) = declared text.
Proof.
  unfold countsOf. cbn. apply map_eq. intros n. rewrite lookup_fmap. destruct (declared text !! n) as [c|] eqn:E; [|done]. cbn. f_equal. apply clamp_id. by eapply declared_range.
Qed.

Lemma items_counts (l : list (string * counter)) : ∀ m, NoDup l.*1 → (∀ n, n ∈ l.*1 → m !! n = None) →
  foldl (λ (m : gmap string counter) item, match item with Some (name, c) => <[name := c]> m | None => m end) m (Some <$> l) = list_to_map l ∪ m.
Proof.
  induction l as [|[n c] l IH]; intros m Hn Hm; cbn in *; [by rewrite map_empty_union|]. apply NoDup_cons in Hn as [Hx Hn].
  rewrite IH; [|done|].
  - rewrite <- insert_union_r; [by rewrite insert_union_l|]. by apply not_elem_of_list_to_map_1.
  - intros k Hk. rewrite lookup_insert_ne by (intros ->; done). apply Hm. by right.
Qed.

#[export] Instance tableHost_laws : KernelHostLaws Host.
Proof.
  apply (Build_KernelHostLaws Host _ (λ h, fst <$> kTable h) countsOf).
  - intros h. unfold countsOf. by destruct (kTable h) as [[]|].
  - intros h n c. unfold countsOf. destruct (kTable h) as [[t cs]|]; [|by rewrite lookup_empty]. rewrite lookup_fmap.
    destruct (cs !! n) as [x|]; [|done]. cbn. intros [= <-]. split; cbn; apply Z.mod_pos_bound; lia.
  - intros text h h' out. cbn. destruct (kRefuse h); [done|]. intros [= <- _]. split; [done|apply countsOf_declared].
  - intros text h h'. cbn. destruct (kRefuse h); [|done]. by intros [= <-].
  - intros h h' out. cbn. destruct (kTable h); [|done]. by intros [= <- _].
  - intros h h'. cbn. destruct (kTable h) eqn:E; [done|]. intros [= <-]. by rewrite E.
  - intros h h' out. cbn. destruct (kTable h) eqn:E; [|done]. intros [= <- <-]. split; [by rewrite E|]. split; [done|].
    exists (Some <$> map_to_list (countsOf h)). rewrite counter_bits_back, decode_encode. cbn. split; [done|].
    rewrite items_counts; [|apply NoDup_fst_map_to_list|done]. by rewrite list_to_map_to_list, map_union_empty.
  - intros h h'. cbn. destruct (kTable h) eqn:E; [done|]. intros [= <-]. by rewrite E.
  - intros h h' ok. cbn. by intros [= <- _].
Defined.

Lemma tableHost_listable : listable (H := Host).
Proof. intros h [t Ht]. cbn in *. destruct (kTable h); [by eexists|done]. Qed.

(** ** A forward with two targets *)

Definition web : KernelForward :=
  mkKernelForward "web-1" "0.0.0.0" 8080 ["tcp"] "" false 0 0 [NetworkPlan.mkTarget "198.51.100.1" 80 1 0; NetworkPlan.mkTarget "198.51.100.2" 80 3 0].

Definition allUp (_ : nat) (_ : job) : answer := mkAnswer [] (Some 1000) 7.
Definition firstDown (i : nat) (_ : job) : answer := mkAnswer [] (if Nat.eqb i 0 then None else Some 1000) 8.

Definition before : Host := mkHost None false.
Definition busy (h : Host) : Host :=
  mkHost (match kTable h with Some (t, cs) => Some (t, <["u_web_1" := mkCounter 4 500]> cs) | None => None end) (kRefuse h).
Definition refusing (h : Host) : Host := mkHost (kTable h) true.

Abbreviation applied1 := (Apply allUp [web] start before).1.
Abbreviation used1 := (applied1.1, busy applied1.2).
Abbreviation down1 := (tick firstDown used1.1 used1.2).

Example balanced_table : loaded applied1.2 = Some (script (rulesOf applied1.1) ["web-1"] ∅)
  ∧ contains (rulesOf applied1.1) "dnat ip addr . port to numgen inc mod 4 map { 0 : 198.51.100.1 . 80, 1 : 198.51.100.2 . 80, 2 : 198.51.100.2 . 80, 3 : 198.51.100.2 . 80 }" = true
  ∧ contains (rulesOf down1.1) "dnat ip to 198.51.100.2:80" = true ∧ counted down1.2 "u_web_1" = 500.
Proof. split; [|split; [|split]]; vm_compute; reflexivity. Qed.

(** A batch is refused while a target is down; when the target is back the rules
    are those applied before, and the error stays although the table is right. *)
Example error_stays :
  let s := tick firstDown used1.1 (refusing used1.2) in
  let s := Nat.iter 3 (λ s, tick allUp s.1 s.2) s in
  err s.1 = Some "nft -f -" ∧ loaded s.2 = loaded used1.2 ∧ rulesOf s.1 = rulesOf used1.1.
Proof. split; [|split]; vm_compute; reflexivity. Qed.

(** A check that was under way when the forwards were taken away brings the
    table back, and nothing deletes it. *)
Example deleted_table_returns :
  let checked := set_targets used1.1 (check firstDown (forwards used1.1) (targets used1.1)) in
  let gone := (Apply allUp [] checked used1.2).1 in
  match syncNeeded checked with
  | None => False
  | Some x => let (h, e) := syncHost x gone.2 in
              let m := syncDone x e gone.1 in
              loaded gone.2 = None ∧ forwards m = [] ∧ looping m = None ∧ is_Some (loaded h)
  end.
Proof. vm_compute. split; [reflexivity|]. split; [reflexivity|]. split; [reflexivity|]. eexists. reflexivity. Qed.

(** A weight that fills the map leaves no entry for the other targets. *)
Example weight_fills_map :
  let heavy := mkBackend (V4 198 51 100 1) 80 256 in
  let other := mkBackend (V4 198 51 100 2) 80 100 in
  bool_decide (other ∈ entriesOf [heavy; other]) = false.
Proof. vm_compute. reflexivity. Qed.

(** ** Witnesses *)

Lemma web_good : Forall goodId (ForwardId <$> [web]).
Proof. constructor; [reflexivity|constructor]. Qed.

Lemma busy_step : kstep applied1 used1.
Proof.
  rewrite (surjective_pairing applied1) at 1. apply k_traffic; [vm_compute; reflexivity|]. intros n.
  assert (counts applied1.2 = {[ "u_web_1" := noCounter; "d_web_1" := noCounter ]} ∧ counts (busy applied1.2) = {[ "u_web_1" := mkCounter 4 500; "d_web_1" := noCounter ]}) as [E1 E2]
    by (split; vm_compute; reflexivity).
  unfold counted. cbn [snd]. rewrite E1, E2. destruct (decide (n = "u_web_1")) as [->|Hn]; [vm_compute; discriminate|].
  rewrite !lookup_insert_ne by done. reflexivity.
Qed.

Lemma run_to_used : rtc kstep (start, before) used1.
Proof. eapply rtc_l; [apply (k_apply allUp [web] start before), web_good|]. eapply rtc_once, busy_step. Qed.

Lemma run_to_down : rtc kstep (start, before) down1.
Proof. eapply rtc_r; [exact run_to_used|]. apply k_tick. Qed.


Lemma forward_counters_kept_witness : counted used1.2 (counterName "u" "web-1") = 500 ∧ 500 ≤ counted down1.2 (counterName "u" "web-1").
Proof.
  assert (counted used1.2 (counterName "u" "web-1") = 500) as E by (vm_compute; reflexivity). split; [exact E|]. rewrite <- E.
  apply (forward_counters_kept before used1 down1 "web-1" "u" tableHost_listable run_to_used); [|left].
  eapply rtc_once. split; [apply k_tick|]. assert (ForwardId <$> forwards down1.1 = ["web-1"]) as Ef by (vm_compute; reflexivity). rewrite Ef. left.
Defined.

End ForwardHost.
