(* ===== verification/Network.v ===== *)
(** * The device network model on a node (node/network.go)

    The component that runs a device's plan: which kinds the device lists, how a
    delivered plan is checked and handed to the policy routing, the kernel
    forwards, the core and the anx-servers, and what is reported of it.
    The SDK's functions, the core and the host's commands are arguments. *)

From S2P Require Import Prelude GoStrings GoNet NetworkPlan NetworkRoute AnxLine AnxServer AnxServing KernelForward.
From Stdlib Require Import Ascii String.

Module Network.
Import GoNet AnxServer NetworkPlan.

(** ** Kinds *)

Inductive CompKind := IngressComp | EgressComp | TransportComp | OtherComp.

#[export] Instance CompKind_eq_dec : EqDecision CompKind.
Proof. solve_decision. Defined.

Record KindSupport := mkKind { ksComponent : CompKind; ksKind : string; ksVersions : list Z; ksExecutor : string }.

Definition isKind (component : CompKind) (kind : string) (k : KindSupport) : bool :=
  bool_decide (ksComponent k = component) && String.eqb (ksKind k) kind.

(** [listKind]: the first entry of the kind names both executors, or one is
    added. *)
Fixpoint listKind (component : CompKind) (kind : string) (kinds : list KindSupport) : list KindSupport :=
  match kinds with
  | [] => [mkKind component kind [1] "agent"]
  | k :: ks => if isKind component kind k
               then mkKind (ksComponent k) (ksKind k) (ksVersions k) (trim_prefix (ksExecutor k +:+ ",agent") ",") :: ks
               else k :: listKind component kind ks
  end.

(** ** Status *)

Inductive CompState := Applied | Down | OtherState.

#[export] Instance CompState_eq_dec : EqDecision CompState.
Proof. solve_decision. Defined.

Record Comp := mkComp { cKind : CompKind; cId : string; cState : CompState; cDetail : string; cCarrier : string; cRtt : Z; cLoss : Z }.

Record NetStatus := mkStatus {
  nsForwards : list KernelForward.ForwardStatus; nsComponents : list Comp; nsKeys : list string; nsInterfaces : list string;
  nsDevice : string; nsGeneration : Z; nsHash : string
}.

Definition noStatus : NetStatus := mkStatus [] [] [] [] "" 0 "".

(** A component of an anx-server's status. *)
Definition ofServer (c : AnxServing.ComponentStatus) : Comp :=
  mkComp TransportComp (AnxServing.CId c) (if AnxServing.CApplied c then Applied else Down) (AnxServing.CDetail c)
    (AnxServing.CCarrier c) (AnxServing.RttMs c) (AnxServing.LossPpm c).

(** The state of a hop ingress: one of its accepting transports that is applied,
    or the first of them. *)
Definition hopState (plan : Plan) (transports : gmap string Comp) (ingress : string) : option Comp :=
  foldl (λ state t,
    match transports !! TransportId t with
    | Some accepted =>
      if negb (bool_decide (TransportRole t = AcceptRole)) || negb (String.eqb (ToIngressId t) ingress) then state
      else match state with
           | None => Some accepted
           | Some s => if bool_decide (cState accepted = Applied) && negb (bool_decide (cState s = Applied)) then Some accepted else state
           end
    | None => state
    end) None (Transports plan).

Definition ingressComp (id : string) (state : Comp) : Comp := mkComp IngressComp id (cState state) (cDetail state) "" 0 0.

Definition hopStates (plan : Plan) (transports : gmap string Comp) (ingresses : list Ingress) : gmap string Comp :=
  foldl (λ m i, if ForHops i
                then match hopState plan transports (IngressId i) with Some s => <[IngressId i := ingressComp (IngressId i) s]> m | None => m end
                else m) ∅ ingresses.

Definition hopIngressStates (plan : Plan) (components : list Comp) : list Comp :=
  let transports := keyed cId (filter (λ c, cKind c = TransportComp) components) in
  let states := hopStates plan transports (Ingresses plan) in
  filter (λ c, ¬ (cKind c = IngressComp ∧ is_Some (states !! cId c))) components ++ omap (λ i, states !! IngressId i) (Ingresses plan).

(** ** The component *)

Inductive outcome := Done | Invalid (e : string) | Failed (e : string).

(** The core that runs plans. *)
Class NetworkApplier (C : Type) := {
  NetworkKinds : list KindSupport;
  ApplyNetwork : Plan → C → C * (option NetStatus * bool);
  NetworkStatus : C → C * option NetStatus
}.

(** The SDK: the plan of a configuration, its checks, the kinds a device lacks,
    the range of its routing and the names of kinds. *)
Class NetworkSDK := {
  PlanFromNodeConfig : string → result (option Plan);
  CheckPlan : Plan → bool;
  Unsupported : Plan → list KindSupport → list string;
  RoutingRange : list KindSupport → Z * Z;
  EgressDedicatedIP : string;
  EgressHop : string
}.

(** What the host and other processes answer while a plan is applied. *)
Record Answers (P : Type) := mkAnswers {
  LookupHost : string → option (list Addr);
  rangedPeers : gmap string (list Prefix) → list (string * list Prefix);
  rangedGroups : AnxServer.Groups → list AnxServer.listener;
  rangedServers : gmap AnxServer.listener (AnxServing.Server (P := P)) → list (AnxServing.Server (P := P));
  linkStats : AnxServing.Server (P := P) → gmap string AnxServing.LinkStat;
  keyHost : AnxServing.KeyHost;
  RST : option (list AnxLine.Link → bool);
  checks : nat → KernelForward.job → KernelForward.answer;
  interfaceFacts : list string
}.

Section Component.
Context {K H P C : Type} `{!KernelForward.KernelHost H, !NetworkApplier C, !NetworkSDK}.
Variable ip : list string → K → K * option string.
Variable decodeRules : string → option (list NetworkRoute.rule).

Definition routedEgressKinds : list string := [EgressDedicatedIP].

(** What the device lists, with routing and with an anx-server. *)
Definition capabilities (kinds : list KindSupport) (routing servers : bool) : list KindSupport :=
  let caps := if routing then kinds ++ ((λ kind, mkKind EgressComp kind [1] "agent") <$> routedEgressKinds) else kinds in
  if servers then listKind EgressComp EgressHop (listKind TransportComp AnxServer.TransportAnxLine caps) else caps.

Record Component := mkComponent {
  device : string; hasRouting : bool; servers : option (AnxServing.Manager (P := P)); kernel : KernelForward.Manager;
  attached : bool; negotiated : bool; plan : option Plan
}.

(** [newNetworkComponent] with what the host has, none for a core that runs no
    component of the model. *)
Definition newNetworkComponent (device : string) (routing anxServer : bool) : option Component :=
  match NetworkKinds with
  | [] => None
  | _ => Some (mkComponent device routing (if anxServer then Some (AnxServing.mkManager "" ∅ false) else None)
                 (KernelForward.mkManager [] ∅ "" None None) false false None)
  end.

Record World := mkWorld { wIp : K; wNft : H; wCore : C }.

Definition caps (c : Component) : list KindSupport := capabilities NetworkKinds (hasRouting c) (bool_decide (is_Some (servers c))).

Definition with_servers (c : Component) (s : option AnxServing.Manager) : Component :=
  mkComponent (device c) (hasRouting c) s (kernel c) (attached c) (negotiated c) (plan c).
Definition with_kernel (c : Component) (k : KernelForward.Manager) : Component :=
  mkComponent (device c) (hasRouting c) (servers c) k (attached c) (negotiated c) (plan c).
Definition with_plan (c : Component) (p : Plan) : Component :=
  mkComponent (device c) (hasRouting c) (servers c) (kernel c) (attached c) (negotiated c) (Some p).

(** [NetworkSession] and [attach]; whether a status is asked for. *)
Definition NetworkSession (n : bool) (c : Component) : Component * bool :=
  (mkComponent (device c) (hasRouting c) (servers c) (kernel c) (attached c) n (plan c), n).
Definition attach (c : Component) : Component :=
  mkComponent (device c) (hasRouting c) (servers c) (kernel c) true (negotiated c) (plan c).

Definition close (c : Component) : Component :=
  mkComponent (device c) (hasRouting c) (AnxServing.Close <$> servers c) (KernelForward.Close (kernel c)) (attached c) (negotiated c) (plan c).

Definition lineRoles (c : Component) (p : Plan) : result unit :=
  let coreDials := existsb (isKind TransportComp AnxServer.TransportAnxLine) NetworkKinds in
  let relayed := AnxServer.Relayed p in
  foldl (λ r t, let? _ := r in
                if negb (String.eqb (TransportKind t) AnxServer.TransportAnxLine) then Ok tt
                else match TransportRole t with
                     | Dial => if bool_decide (TransportId t ∈ relayed) then Ok tt
                               else if coreDials then Ok tt else Err "dialing anx_line needs anx-node as the core"
                     | AcceptRole => match servers c with Some _ => Ok tt | None => Err "accepting anx_line needs anx-server on this host" end
                     | OtherRole => Ok tt
                     end) (Ok tt) (Transports p).

Definition route (a : Answers P) (c : Component) (p : Plan) (w : World) : World * outcome :=
  let '(first, last) := RoutingRange (caps c) in
  match NetworkRoute.Routes (LookupHost P a) (rangedPeers P a) p first last with
  | Err e => (w, Invalid e)
  | Ok routes =>
    if hasRouting c then
      let '(k, ok) := NetworkRoute.Apply K ip decodeRules first last routes (wIp w) in
      (mkWorld k (wNft w) (wCore w), if ok then Done else Failed "policy routing")
    else match routes with [] => (w, Done) | _ => (w, Failed "egress needs policy routing") end
  end.

(** [report]: the status handed to the stream, none when nothing is sent. *)
Definition report (a : Answers P) (status : option NetStatus) (c : Component) (w : World) : Component * World * option NetStatus :=
  if negb (attached c) || negb (negotiated c) then (c, w, None)
  else
    let '(c, keys) := match servers c with
                      | None => (c, [])
                      | Some m => let '(m, key) := AnxServing.publicKey (keyHost P a) m in
                                  (with_servers c (Some m), match key with Ok k => [k] | Err _ => [] end)
                      end in
    let '(w, status) :=
      match plan c with
      | None => (w, if bool_decide (keys = []) && bool_decide (interfaceFacts P a = []) then None else Some noStatus)
      | Some _ => match status with
                  | Some s => (w, Some s)
                  | None => let '(core, s) := NetworkStatus (wCore w) in (mkWorld (wIp w) (wNft w) core, s)
                  end
      end in
    match status with
    | None => (c, w, None)
    | Some s =>
      let '(nft, forwards) := KernelForward.Status (kernel c) (wNft w) in
      let components := match servers c, plan c with
                        | Some m, Some p => hopIngressStates p (nsComponents s ++ (ofServer <$> AnxServing.Status (rangedServers P a) (linkStats P a) m))
                        | _, _ => nsComponents s
                        end in
      (c, mkWorld (wIp w) nft (wCore w),
       Some (mkStatus (nsForwards s ++ forwards) components (nsKeys s ++ keys)
               (match nsInterfaces s with [] => interfaceFacts P a | l => l end)
               (device c) (from_option Generation 0 (plan c)) (from_option Hash "" (plan c))))
    end.

(** The plan the core gets. *)
Definition corePlan (p : Plan) : Plan :=
  mkPlan (Generation p) (Hash p) (DeviceRef p) (Lines p) (Egresses p) (Transports p) (Forwards p) (Ingresses p)
    (PathTransports p) (PortForwardTransports p) (ReverseProxyTransports p) [].

(** The plan that is not refused replaces what runs. *)
Definition runPlan (a : Answers P) (p : Plan) (accepts : list AnxServer.Accept) (c : Component) (w : World) : Component * World * option NetStatus * outcome :=
  match route a c p w with
  | (w, Invalid e) => (c, w, None, Invalid e)
  | (w, Failed e) => (c, w, None, Failed e)
  | (w, Done) =>
    let '(kernel, nft, kernelErr) := KernelForward.Apply (checks P a) (KernelForwards p) (kernel c) (wNft w) in
    let c := with_kernel c kernel in
    let '(core, (status, fine)) := ApplyNetwork (corePlan p) (wCore w) in
    let w := mkWorld (wIp w) nft core in
    if bool_decide (status = None) && negb fine then (c, w, None, Failed "core")
    else
      let '(c, served) := match servers c with
                          | None => (c, true)
                          | Some m => let '(m, r) := AnxServing.Apply (rangedGroups P a) (keyHost P a) (RST P a) accepts m in
                                      (with_servers c (Some m), is_ok r)
                          end in
      let '(c, w, sent) := report a status (with_plan c p) w in
      (c, w, sent, if fine && bool_decide (kernelErr = None) && served then Done else Failed "network plan")
  end.

Definition samePlan (p q : Plan) : bool := String.eqb (Hash p) (Hash q) && (Generation p =? Generation q).

Definition apply (a : Answers P) (snapshot : option string) (c : Component) (w : World) : Component * World * option NetStatus * outcome :=
  match snapshot with
  | None => (c, w, None, Done)
  | Some json =>
    match PlanFromNodeConfig json with
    | Err e => (c, w, None, Invalid e)
    | Ok None => (c, w, None, Done)
    | Ok (Some p) =>
      if Generation p =? 0 then (c, w, None, Done)
      else if negb (String.eqb (DeviceRef p) (device c)) then (c, w, None, Invalid "it is for another device")
      else if negb (CheckPlan p) then (c, w, None, Invalid "check")
      else if negb (bool_decide (Unsupported p (caps c) = [])) then (c, w, None, Failed "this Agent does not run it")
      else match lineRoles c p with
           | Err e => (c, w, None, Invalid e)
           | Ok _ =>
             match (match servers c with Some _ => AnxServer.Accepts p | None => Ok [] end) with
             | Err e => (c, w, None, Invalid e)
             | Ok accepts =>
               if from_option (λ q, samePlan q p) false (plan c) then (c, w, None, Done)
               else runPlan a p accepts c w
             end
           end
    end
  end.

End Component.

End Network.
