(* ===== verification/NetworkApplied.v ===== *)
(** * What an applied network plan runs

    The component of node/network.go over the laws of the host's commands: a
    plan that is applied without an error has its routing, forwards and servers
    on the host exactly, a plan that is invalid changes nothing, and the report
    tells the state of hop ingresses.
    Module [NetworkDemo]: a device. *)

From S2P Require Import Prelude GoStrings GoNet NetworkPlan NetworkRoute NetworkRouting NetworkRules AnxLine AnxServer AnxServing AnxServed KernelForward KernelForwarding Network.
From Stdlib Require Import Ascii String.

Module NetworkApplied.
Import GoNet AnxServer NetworkPlan Network.

Section Applied.
Context {K H P C : Type} `{!KernelForward.KernelHost H, !KernelForwarding.KernelHostLaws H, !NetworkApplier C, !NetworkSDK}.
Context (ip : list string → K → K * option string) (decodeRules : string → option (list NetworkRoute.rule)) `{!NetworkRules.IPRoute2 ip decodeRules}.
Implicit Types (c : Component (P := P)) (w : World (K := K) (H := H) (C := C)) (a : Answers P).

(** ** The parts *)

(** A forward table of the plan's forwards. *)
Lemma kernel_applied answers fs m h m' h' : KernelForward.Apply answers fs m h = (m', h', None) →
  KernelForward.forwards m' = fs ∧
  (fs ≠ [] → KernelForward.err m' = None ∧ ∃ cs, KernelForwarding.loaded h' = Some (KernelForward.script (KernelForwarding.rulesOf m') (ForwardId <$> fs) cs)).
Proof.
  intros E. pose proof (KernelForwarding.Apply_spec answers fs m h) as Ha. rewrite E in Ha. destruct Ha as [Hf Ha]. split; [done|]. intros Hne.
  destruct fs as [|f fs]; [done|]. destruct Ha as (m1 & m2 & E1 & Ea & Hs & G1 & G2 & G3 & G4).
  apply KernelForwarding.sync_spec in Hs as (Ef & Et & [(_ & _ & _ & Er)|[(e' & ? & _)|(_ & Ee & Er & h1 & _ & Hl & _)]]); [|done|].
  - rewrite Ea in Er. symmetry in Er. by apply KernelForwarding.render_rules in Er.
  - split; [congruence|]. eexists. rewrite Hl. unfold KernelForwarding.rulesOf. by rewrite G1, G2, Ef, Et, E1.
Qed.

(** The servers of the plan's accepts. *)
Lemma servers_applied ranged h rst accepts (m m' : AnxServing.Manager (P := P)) : AnxServing.Apply ranged h rst accepts m = (m', Ok tt) →
  (∀ l, is_Some (AnxServing.servers m' !! l) ↔ ∃ x, x ∈ accepts ∧ listenerOf x = l)
  ∧ ∀ l s, AnxServing.servers m' !! l = Some s → AnxServing.wanted s = AnxServed.onListener l accepts ∧ AnxServing.wake s = true.
Proof.
  intros E. pose proof (AnxServed.apply_servers ranged h rst accepts m) as Hs. rewrite E in Hs. cbn [fst] in Hs. rewrite Hs. clear Hs.
  revert E. unfold AnxServing.Apply, AnxServed.applied. destruct (group ranged accepts) as [g|] eqn:Eg; [|done].
  destruct (AnxServed.group_grouped _ _ _ Eg) as (ids & [Hg Hsome _ _]). cbn in Hg, Hsome. intros E.
  assert (bool_decide (g = ∅) || is_ok (AnxServing.publicKey h m).2 = true) as ->.
  { case_bool_decide; [done|]. destruct (AnxServing.publicKey h m) as [m1 [key|]]; [done|by injection E]. }
  unfold AnxServing.applyServers. split.
  - intros l. rewrite <- Hsome, map_lookup_imap. destruct (g !! l); cbn; [|done]. split; by eexists.
  - intros l s. rewrite map_lookup_imap. destruct (g !! l) as [G|] eqn:EG; [|done]. cbn. intros [= <-]. apply Hg in EG as ->. by destruct (AnxServing.servers m !! l).
Qed.

(** [report] leaves what runs alone. *)
Lemma publicKey_servers h (m : AnxServing.Manager (P := P)) : AnxServing.servers (AnxServing.publicKey h m).1 = AnxServing.servers m.
Proof. unfold AnxServing.publicKey. by repeat case_match. Qed.

Lemma report_keeps a s c w : let '(c', w', _) := report a s c w in
  plan c' = plan c ∧ kernel c' = kernel c ∧ (AnxServing.servers <$> servers c') = (AnxServing.servers <$> servers c)
  ∧ wIp w' = wIp w ∧ KernelForwarding.loaded (wNft w') = KernelForwarding.loaded (wNft w).
Proof.
  unfold report. destruct (_ || _); [done|].
  assert (∀ h m, KernelForwarding.loaded (KernelForward.Status m h).1 = KernelForwarding.loaded h) as Hst.
  { intros h m. unfold KernelForward.Status. destruct (KernelForward.forwards m); [done|]. pose proof (KernelForwarding.counters_same h) as [Hl _]. by destruct (KernelForward.counters h). }
  set (k := match servers c with None => (c, []) | Some m => _ end).
  assert (plan k.1 = plan c ∧ kernel k.1 = kernel c ∧ (AnxServing.servers <$> servers k.1) = (AnxServing.servers <$> servers c)) as (G1 & G2 & G3).
  { unfold k. destruct (servers c) as [m|] eqn:Em; [|cbn; by rewrite Em]. pose proof (publicKey_servers (keyHost P a) m) as Hp.
    destruct (AnxServing.publicKey (keyHost P a) m) as [m1 key]. cbn in *. by rewrite Hp. }
  destruct k as [c1 keys]. cbn in G1, G2, G3. set (x := match plan c1 with None => _ | Some _ => _ end).
  assert (wIp x.1 = wIp w ∧ wNft x.1 = wNft w) as [G4 G5].
  { unfold x. destruct (plan c1); [|done]. destruct s; [done|]. by destruct (NetworkStatus (wCore w)). }
  destruct x as [w1 [st|]]; cbn in G4, G5; [|by rewrite G4, G5].
  specialize (Hst (wNft w1) (kernel c1)). destruct (KernelForward.Status (kernel c1) (wNft w1)) as [nft fw]. cbn in Hst. cbn [wNft wIp]. by rewrite Hst, G5.
Qed.

(** ** The routing *)

Lemma route_invalid a c p w w' e : route ip decodeRules a c p w = (w', Invalid e) → w' = w.
Proof.
  unfold route. destruct (RoutingRange (caps c)) as [first last]. destruct (NetworkRoute.Routes _ _ p first last) as [rs|]; [|by intros [= <- _]].
  destruct (hasRouting c); [|by destruct rs]. by destruct (NetworkRoute.Apply K ip decodeRules first last rs (wIp w)) as [k [|]].
Qed.

Lemma route_done a c p w w' first last : RoutingRange (caps c) = (first, last) → route ip decodeRules a c p w = (w', Done) →
  wNft w' = wNft w ∧ wCore w' = wCore w ∧ ∃ rs, NetworkRoute.Routes (LookupHost P a) (rangedPeers P a) p first last = Ok rs
    ∧ if hasRouting c then NetworkRoute.Apply K ip decodeRules first last rs (wIp w) = (wIp w', true) else rs = [] ∧ w' = w.
Proof.
  intros Er. unfold route. rewrite Er. destruct (NetworkRoute.Routes _ _ p first last) as [rs|]; [|done].
  destruct (hasRouting c); [|destruct rs; [intros [= <-]; split; [done|]; split; [done|]; by exists []|done]].
  destruct (NetworkRoute.Apply K ip decodeRules first last rs (wIp w)) as [k [|]] eqn:E; [|done]. intros [= <-]. split; [done|]. split; [done|]. by exists rs.
Qed.

(** ** A plan *)

(** The host's rules are the plan's. *)
Definition routed a c p w w' first last : Prop :=
  ∃ rs, NetworkRoute.Routes (LookupHost P a) (rangedPeers P a) p first last = Ok rs
    ∧ if hasRouting c then ∀ f, f ∈ ["-4"; "-6"] → NetworkRules.unowned ip decodeRules first last f (wIp w') ≡ₚ NetworkRules.unowned ip decodeRules first last f (wIp w)
                             ∧ NetworkRules.converged ip decodeRules first last rs f (wIp w) (wIp w')
      else rs = [] ∧ wIp w' = wIp w.

(** The host's forward table is the plan's. *)
Definition forwarded c' p w' : Prop :=
  KernelForward.forwards (kernel c') = KernelForwards p
  ∧ (KernelForwards p ≠ [] → KernelForward.err (kernel c') = None
     ∧ ∃ cs, KernelForwarding.loaded (wNft w') = Some (KernelForward.script (KernelForwarding.rulesOf (kernel c')) (ForwardId <$> KernelForwards p) cs)).

(** Each listener of the plan has its server, which is to run the plan's
    accepts. *)
Definition accepting c c' p : Prop :=
  ∀ m, servers c = Some m → ∃ m' accepts, servers c' = Some m' ∧ Accepts p = Ok accepts
    ∧ (∀ l, is_Some (AnxServing.servers m' !! l) ↔ ∃ x, x ∈ accepts ∧ listenerOf x = l)
    ∧ ∀ l s, AnxServing.servers m' !! l = Some s → AnxServing.wanted s = AnxServed.onListener l accepts ∧ AnxServing.wake s = true.

Lemma runPlan_done a p accepts c w c' w' sent first last : RoutingRange (caps c) = (first, last) →
  0 ≤ first → last < 2 ^ 32 → NetworkRouting.ranges (rangedPeers P a) → (∀ m, servers c = Some m → Accepts p = Ok accepts) →
  runPlan ip decodeRules a p accepts c w = (c', w', sent, Done) →
  plan c' = Some p ∧ routed a c p w w' first last ∧ forwarded c' p w' ∧ (ApplyNetwork (corePlan p) (wCore w)).2.2 = true ∧ accepting c c' p.
Proof.
  intros Er G1 G2 Hr Hacc. unfold runPlan. destruct (route ip decodeRules a c p w) as [w1 [|e|e]] eqn:Eroute; [|done..].
  destruct (route_done _ _ _ _ _ _ _ Er Eroute) as (En & Ec & rs & Hrs & Hroute). rewrite En, Ec.
  destruct (KernelForward.Apply (checks P a) (KernelForwards p) (kernel c) (wNft w)) as [[k nft] ke] eqn:Ek.
  destruct (ApplyNetwork (corePlan p) (wCore w)) as [core [status fine]]. destruct (_ && negb fine); [done|]. cbn [servers with_kernel].
  set (x := match servers c with None => _ | Some m => _ end). destruct x as [c1 served] eqn:Ex.
  pose proof (report_keeps a status (with_plan c1 p) (mkWorld (wIp w1) nft core)) as Hk.
  destruct (report a status (with_plan c1 p) (mkWorld (wIp w1) nft core)) as [[c2 w2] sent2]. destruct Hk as (K1 & K2 & K3 & K4 & K5). cbn in K1, K2, K3, K4, K5.
  destruct (fine && bool_decide (ke = None) && served) eqn:Ef; [|done]. intros [= <- <- _].
  apply andb_true_iff in Ef as [[-> Eke]%andb_true_iff ->]. apply bool_decide_eq_true in Eke as ->.
  apply kernel_applied in Ek as [Kf Kl].
  assert (kernel c1 = k) as Ekk.
  { unfold x in Ex. destruct (servers c); [destruct (AnxServing.Apply _ _ _ _ _)|]; by injection Ex as <-. }
  split; [done|]. split; [|split; [|split; [done|]]].
  - exists rs. split; [done|]. destruct (hasRouting c); [|destruct Hroute as [-> ->]; by rewrite K4]. intros f Hf. rewrite K4.
    destruct (NetworkRules.apply_converges ip decodeRules first last rs (wIp w) (wIp w1) true f) as [U Cv]; [done|done|by eapply NetworkRouting.routes_routable|done|done|].
    split; [done|by apply Cv].
  - unfold forwarded. rewrite K2, Ekk, K5. done.
  - intros m Em. unfold x in Ex. rewrite Em in Ex. destruct (AnxServing.Apply _ _ _ accepts m) as [m1 [[]|e]] eqn:Es; [|done]. injection Ex as <-.
    cbn in K3. destruct (servers c2) as [m2|]; [|done]. cbn in K3. injection K3 as K3. exists m2, accepts. split; [done|]. split; [by eapply Hacc|].
    rewrite K3. by eapply servers_applied.
Qed.


(** C40: a configuration whose plan is invalid (it cannot be read, is another
    device's, fails the checks, needs ends this device cannot run, or cannot be
    routed) changes neither the component nor the host, and reports nothing. *)
Theorem invalid_plan_refused a snapshot c w c' w' sent e : apply ip decodeRules a snapshot c w = (c', w', sent, Invalid e) → c' = c ∧ w' = w ∧ sent = None.
Proof.
  unfold apply. destruct snapshot as [json|]; [|done]. destruct (PlanFromNodeConfig json) as [[p|]|]; [|done|by intros [= <- <- <- _]].
  destruct (Generation p =? 0); [done|]. destruct (negb (String.eqb _ _)); [by intros [= <- <- <- _]|]. destruct (negb (CheckPlan p)); [by intros [= <- <- <- _]|].
  destruct (negb (bool_decide _)); [done|]. destruct (lineRoles c p); [|by intros [= <- <- <- _]].
  destruct (match servers c with Some _ => Accepts p | None => Ok [] end) as [accepts|]; [|by intros [= <- <- <- _]].
  destruct (from_option _ _ _); [done|]. unfold runPlan. destruct (route ip decodeRules a c p w) as [w1 [|e1|e1]] eqn:Er.
  - destruct (KernelForward.Apply _ _ _ _) as [[k nft] ke]. destruct (ApplyNetwork _ _) as [core [status fine]]. destruct (_ && negb fine); [done|].
    destruct (match servers (with_kernel c k) with None => _ | Some m => _ end) as [c1 served]. destruct (report _ _ _ _) as [[c2 w2] sent2]. by destruct (fine && _ && served).
  - apply route_invalid in Er as ->. by intros [= <- <- <- _].
  - done.
Qed.

End Applied.

(** ** The report of hop ingresses *)

(** The status of a transport that is accepted on an ingress. *)
Definition acceptedOn (transports : gmap string Comp) (ingress : string) (ts : list Transport) (x : Comp) : Prop :=
  ∃ t, t ∈ ts ∧ TransportRole t = AcceptRole ∧ ToIngressId t = ingress ∧ transports !! TransportId t = Some x.

(** The state chosen among them. *)
Definition chosen (transports : gmap string Comp) (ingress : string) (ts : list Transport) (s : option Comp) : Prop :=
  match s with
  | None => ∀ x, ¬ acceptedOn transports ingress ts x
  | Some s => acceptedOn transports ingress ts s ∧ (cState s = Applied ↔ ∃ x, acceptedOn transports ingress ts x ∧ cState x = Applied)
  end.

Lemma acceptedOn_snoc transports ingress ts t x : acceptedOn transports ingress (ts ++ [t]) x ↔
  acceptedOn transports ingress ts x ∨ (TransportRole t = AcceptRole ∧ ToIngressId t = ingress ∧ transports !! TransportId t = Some x).
Proof.
  unfold acceptedOn. split.
  - intros (u & [Hu| ->%list_elem_of_singleton]%elem_of_app & Hx); [left; by exists u|by right].
  - intros [(u & Hu & Hx)|Hx]; [exists u|exists t]; (split; [apply elem_of_app|done]); [by left|right; by left].
Qed.

Lemma hopState_chosen p transports ingress : chosen transports ingress (Transports p) (hopState p transports ingress).
Proof.
  unfold hopState. set (f := λ (state : option Comp) t, _).
  assert (∀ ts seen s, chosen transports ingress seen s → chosen transports ingress (seen ++ ts) (foldl f s ts)) as Hall; [|by apply (Hall (Transports p) [] None); intros x (t & ?%not_elem_of_nil & _)].
  induction ts as [|t ts IH]; intros seen s Hs; [by rewrite app_nil_r|]. cbn [foldl].
  replace (seen ++ t :: ts) with ((seen ++ [t]) ++ ts) by (by rewrite <- app_assoc). apply IH. clear IH.
  assert (chosen transports ingress (seen ++ [t]) s ∨ ∃ x, TransportRole t = AcceptRole ∧ ToIngressId t = ingress ∧ transports !! TransportId t = Some x) as Hcase.
  { destruct (decide (TransportRole t = AcceptRole)) as [Hr|Hr]; [destruct (decide (ToIngressId t = ingress)) as [Hi|Hi]; [destruct (transports !! TransportId t) as [x|] eqn:E; [right; by exists x|]|]|];
      left; destruct s as [s|]; cbn [chosen] in *; setoid_rewrite acceptedOn_snoc; naive_solver. }
  unfold f. destruct (transports !! TransportId t) as [x|] eqn:E; [|destruct Hcase as [|(? & _ & _ & ?)]; done].
  destruct (decide (TransportRole t = AcceptRole)) as [Hr|Hr]; cycle 1.
  { rewrite bool_decide_eq_false_2 by done. cbn. destruct Hcase as [|(? & ? & _)]; done. }
  rewrite bool_decide_eq_true_2 by done. cbn. destruct (String.eqb_spec (ToIngressId t) ingress) as [Hi|Hi]; cbn; cycle 1.
  { destruct Hcase as [|(? & _ & ? & _)]; done. }
  destruct s as [s|]; cbn in *.
  - destruct (bool_decide_reflect (cState x = Applied)) as [Hx|Hx], (bool_decide_reflect (cState s = Applied)) as [Ha|Ha]; cbn; setoid_rewrite acceptedOn_snoc; naive_solver.
  - setoid_rewrite acceptedOn_snoc. split; [by right|]. naive_solver.
Qed.

Lemma hopStates_lookup p transports l id y : hopStates p transports l !! id = Some y ↔
  (∃ i, i ∈ l ∧ ForHops i = true ∧ IngressId i = id) ∧ ∃ s, hopState p transports id = Some s ∧ y = ingressComp id s.
Proof.
  induction l as [|i k IH] using rev_ind; [cbn; rewrite lookup_empty; split; [done|]; by intros [(i & ?%not_elem_of_nil & _) _]|].
  unfold hopStates in *. rewrite foldl_app. cbn. setoid_rewrite elem_of_app. setoid_rewrite list_elem_of_singleton. destruct (ForHops i) eqn:Ef.
  - destruct (hopState p transports (IngressId i)) as [s|] eqn:Eh.
    + rewrite lookup_insert_Some, IH. split.
      * intros [[<- <-]|[_ [(j & ? & ?) ?]]]; [split; [exists i; auto|by exists s]|split; [exists j; auto|done]].
      * intros [(j & [Hj| ->] & Hf & <-) (s' & E & ->)]; [|left; split; congruence]. destruct (decide (IngressId i = IngressId j)) as [Ei|]; [left; rewrite Ei; split; congruence|].
        right. split; [done|]. split; [by exists j|by exists s'].
    + rewrite IH. split; intros [(j & Hj & Hf & <-) (s' & E & ->)]; (split; [|by exists s']); exists j; [auto|]. destruct Hj as [| ->]; [done|congruence].
  - rewrite IH. split; intros [(j & Hj & Hf & <-) E]; (split; [|done]); exists j; [auto|]. destruct Hj as [| ->]; [done|congruence].
Qed.

(** The report gives a hop ingress the state of its accepting transports:
    with one of them reported it has exactly one state, which is applied exactly
    when one of them is; without any the core's own report stays; and what is
    reported of other components is unchanged. *)
Theorem hop_ingress_reported p comps i : i ∈ Ingresses p → ForHops i = true →
  let out := hopIngressStates p comps in
  let on := acceptedOn (keyed cId (filter (λ c, cKind c = TransportComp) comps)) (IngressId i) (Transports p) in
  ((∃ x, on x) → ∃ s, on s ∧ ingressComp (IngressId i) s ∈ out ∧ (cState s = Applied ↔ ∃ x, on x ∧ cState x = Applied)
     ∧ ∀ y, y ∈ out → cKind y = IngressComp → cId y = IngressId i → y = ingressComp (IngressId i) s)
  ∧ ((∀ x, ¬ on x) → ∀ y, cKind y = IngressComp → cId y = IngressId i → y ∈ out ↔ y ∈ comps)
  ∧ ∀ y, cKind y ≠ IngressComp → y ∈ out ↔ y ∈ comps.
Proof.
  intros Hi Hh. cbn zeta. unfold hopIngressStates. set (ts := keyed cId _).
  pose proof (hopState_chosen p ts (IngressId i)) as Hc. pose proof (hopStates_lookup p ts (Ingresses p)) as Hl.
  set (states := hopStates p ts (Ingresses p)) in *.
  assert (∀ y, y ∈ omap (λ i, states !! IngressId i) (Ingresses p) → cKind y = IngressComp ∧ states !! cId y = Some y) as Hout.
  { intros y (j & Hj & E)%list_elem_of_omap. pose proof E as (_ & s & _ & ->)%Hl. done. }
  setoid_rewrite elem_of_app. setoid_rewrite list_elem_of_filter. split; [|split].
  - intros [x Hx]. destruct (hopState p ts (IngressId i)) as [s|] eqn:Es; [|by apply Hc in Hx]. destruct Hc as [Hon Hap].
    assert (states !! IngressId i = Some (ingressComp (IngressId i) s)) as Hs by (apply Hl; split; [by exists i|by exists s]).
    exists s. split; [done|]. split; [right; apply list_elem_of_omap; by exists i|]. split; [done|]. intros y [[Hn _]|[_ Ey]%Hout] Hk Hy.
    + exfalso. apply Hn. split; [done|]. by rewrite Hy, Hs.
    + rewrite Hy, Hs in Ey. by injection Ey.
  - intros Hno y Hk Hy. assert (hopState p ts (IngressId i) = None) as Es by (destruct (hopState p ts (IngressId i)) as [s|]; [destruct Hc as [Hon _]; by apply Hno in Hon|done]).
    assert (states !! IngressId i = None) as Hs by (apply eq_None_not_Some; intros [z (_ & s & E & _)%Hl]; congruence). split.
    + intros [[_ ?]|[_ Ey]%Hout]; [done|]. rewrite Hy in Ey. congruence.
    + intros Hin. left. split; [|done]. intros [_ [z Hz]]. rewrite Hy in Hz. congruence.
  - intros y Hk. split; [intros [[_ ?]|[? _]%Hout]; done|]. intros Hin. left. split; [|done]. by intros [? _].
Qed.

End NetworkApplied.

(** ** A network plan on a device

    A device with routing, kernel forwards and an anx-server: the witnesses of
    the theorems on the network component, and a plan that fails in part. *)

Module NetworkDemo.
Import GoNet AnxServer NetworkPlan NetworkHost AnxHost ForwardHost Network NetworkApplied.

(** The core takes every plan and reports its hop ingress down. *)
#[export] Instance plainCore : NetworkApplier unit := {
  NetworkKinds := [mkKind TransportComp TransportAnxLine [1] "anx-node"];
  ApplyNetwork p u := (u, (Some (mkStatus [] [mkComp IngressComp "in-hop" Down "no path" "" 0 0] [] [] "" 0 ""), true));
  NetworkStatus u := (u, Some noStatus)
}.

Definition zeros32 : string := "0000000000000000000000000000000000000000000000000000000000000000".

Definition thePlan : Plan :=
  mkPlan 3 "hash-3" "proxy:62" [cn2] [mkEgress "eg-b" "ln-cn2" "198.51.100.10" "" 0 0]
    [mkTransport "t-in" "anx_line" AcceptRole "" "in-hop" (Some (mkSettings zeros32 "" "0.0.0.0:443" "" "" "" "" false "" "" "" [] false false))]
    [mkForwarding "t-in" "" "eg-b"] [mkIngress "in-hop" true] [] [] [] [web].

#[export] Instance demoSDK : NetworkSDK := {
  PlanFromNodeConfig json := if String.eqb json "plan" then Ok (Some thePlan) else Err "not a plan";
  CheckPlan _ := true;
  Unsupported _ _ := [];
  RoutingRange _ := (20000, 20999);
  EgressDedicatedIP := "dedicated_ip";
  EgressHop := "hop"
}.

Definition answers : Answers AnxServed.View :=
  mkAnswers AnxServed.View lookup inOrder ranged (λ m, (map_to_list m).*2) (λ _, ∅) AnxHost.keyHost None allUp [].

Definition node : Component (P := AnxServed.View) :=
  mkComponent "proxy:62" true (Some (AnxServing.mkManager "" ∅ false)) KernelForwarding.start true true None.

Definition host : World (K := Kernel) (H := Host) (C := unit) := mkWorld NetworkHost.before ForwardHost.before tt.
Definition refusingHost : World (K := Kernel) (H := Host) (C := unit) := mkWorld NetworkHost.before (refusing ForwardHost.before) tt.

Abbreviation run := (apply hostIP decodeRules answers (Some "plan") node host).

Example plan_applied : run.2 = Done ∧ NetworkPlan.Generation <$> plan run.1.1.1 = Some 3
  ∧ nsComponents <$> run.1.2 = Some [mkComp TransportComp "t-in" Down "" "" 0 0; mkComp IngressComp "in-hop" Down "" "" 0 0]
  ∧ nsKeys <$> run.1.2 = Some ["abc"].
Proof. split; [|split; [|split]]; vm_compute; reflexivity. Qed.

(** The batch of the forwards is refused: the plan fails and is recorded all the
    same, and its next delivery answers that it is applied. *)
Example failed_plan_not_retried :
  let first := apply hostIP decodeRules answers (Some "plan") node refusingHost in
  let again := apply hostIP decodeRules answers (Some "plan") first.1.1.1 first.1.1.2 in
  first.2 = Failed "network plan" ∧ again.2 = Done ∧ kTable (wNft again.1.1.2) = None.
Proof. split; [|split]; vm_compute; reflexivity. Qed.

(** ** Witnesses *)


Lemma invalid_plan_refused_witness : (apply hostIP decodeRules answers (Some "{}") node host).1.1 = (node, host).
Proof.
  assert (apply hostIP decodeRules answers (Some "{}") node host = (node, host, None, Invalid "not a plan")) as E by reflexivity.
  set (r := apply hostIP decodeRules answers (Some "{}") node host) in *.
  destruct (invalid_plan_refused hostIP decodeRules answers (Some "{}") node host r.1.1.1 r.1.1.2 r.1.2 "not a plan") as (H1 & H2 & _); [exact E|].
  rewrite <- H1 at 1. rewrite <- H2 at 1. destruct r as [[[? ?] ?] ?]. reflexivity.
Defined.

Definition reported : list Comp := [mkComp IngressComp "in-hop" Down "no path" "" 0 0; mkComp TransportComp "t-in" Applied "" "" 0 0].

Lemma hop_ingress_reported_witness : ∃ s, ingressComp "in-hop" s ∈ hopIngressStates thePlan reported ∧ cState s = Applied.
Proof.
  destruct (hop_ingress_reported thePlan reported (mkIngress "in-hop" true)) as [H _]; [left|reflexivity|].
  assert (acceptedOn (keyed cId (filter (λ c, cKind c = TransportComp) reported)) "in-hop" (Transports thePlan) (mkComp TransportComp "t-in" Applied "" "" 0 0)) as Hx
    by (eexists; split; [left|]; split; [reflexivity|]; split; [reflexivity|vm_compute; reflexivity]).
  destruct H as (s & _ & Hs & Ha & _); [eexists; exact Hx|]. exists s. split; [exact Hs|]. apply Ha. eexists. split; [exact Hx|reflexivity].
Defined.

End NetworkDemo.
