(* ===== verification/NodeController.v ===== *)
(** * The node's controller (src/node/controller.go, reload.go, task.go, cert.go)

    A controller runs one entry of a node's configuration in a core: it starts
    the node from a snapshot, reloads it, follows its users and alive list, and
    closes it.  Cores are the interface [Core] (src/core/interface.go) with the
    laws [CoreNodes] on the nodes they run.  Limiters are objects shared by the
    controller and the table the cores look them up in (src/limiter), so they
    have addresses.  Files, ACME and waiting are the class [Host].  A
    [regexp.MustCompile] that fails is the outcome [Panic].  Error messages are
    abbreviated and logging is left out, but for the hooks that forward it. *)

From S2P Require Import Prelude GoStrings Limiter NodeUsers.
From Stdlib Require Import String.

Module NodeController.
Import Limiter.

(** ** Data *)

(** [conf.CertConfig] and [conf.Options]: what the controller and the cores
    read. [DynamicPeriodic] is the period of a [DynamicSpeedLimitConfig] that
    is not nil. *)
Record CertConfig := mkCert { CertMode : string; CertDomain : string; CertFile : string; KeyFile : string }.
Record Options := mkOptions {
  Name : string; ReportMinTraffic : Z; OptSpeedLimit : Z;
  EnableDynamicSpeedLimit : bool; DynamicPeriodic : option Z; Cert : CertConfig
}.

Record Rules := mkRules { Regexp : list string; RProtocol : list string }.

(** [panel.NodeInfo]: what a controller reads, and the protocol's own part. *)
Record NodeInfo (B : Type) := mkNode {
  NId : Z; NType : string; Security : Z; PushInterval : duration; NRules : Rules; Body : B
}.
Arguments mkNode {B}.
Arguments NId {B}.
Arguments NType {B}.
Arguments Security {B}.
Arguments PushInterval {B}.
Arguments NRules {B}.
Arguments Body {B}.

Definition Tls : Z := 1.

#[export] Instance Rules_eq_dec : EqDecision Rules.
Proof. solve_decision. Defined.
#[export] Instance NodeInfo_eq_dec {B} `{EqDecision B} : EqDecision (NodeInfo B).
Proof. solve_decision. Defined.

(** An error of a core: whether it is [ErrNodeNotFound], whether it wraps
    EADDRINUSE, its text. *)
Record coreError := mkCoreError { nodeNotFound : bool; eaddrinuse : bool; text : string }.

Definition isAddressInUse (e : coreError) : bool := eaddrinuse e || contains (text e) "address already in use".

(** ** What the controller calls *)

(** [vCore.Core]; [nodes] is what it runs: by tag, the node and its users. *)
Class Core (S B : Type) := {
  nodes : S → gmap string (NodeInfo B * gmap string UserInfo);
  AddNode : string → NodeInfo B → Options → S → S * option coreError;
  DelNode : string → S → S * option coreError;
  AddUsers : string → list UserInfo → NodeInfo B → S → S * option coreError;
  DelUsers : list UserInfo → string → NodeInfo B → S → S * option coreError
}.

Class Host (S : Type) := {
  compiles : string → bool;
  fileExists : string → S → bool;
  createLegoCert : CertConfig → S → S * result unit;
  generateSelfSslCertificate : CertConfig → S → S * result unit;
  sleep : duration → S → S
}.

(** What cores do to the nodes they run.  A tag runs once; a node that could
    not be added is not there; one that could not be deleted may be gone (both
    cores forget it before the call that fails). *)
Class CoreNodes (S B : Type) `{!Core S B} := {
  add_exists : ∀ tag info o s, is_Some (nodes s !! tag) → is_Some (AddNode tag info o s).2;
  add_ok : ∀ tag info o s, (AddNode tag info o s).2 = None → nodes (AddNode tag info o s).1 = <[tag := (info, ∅)]> (nodes s);
  add_failed : ∀ tag info o s, is_Some (AddNode tag info o s).2 → nodes (AddNode tag info o s).1 = nodes s;
  del_ok : ∀ tag s, (DelNode tag s).2 = None → nodes (DelNode tag s).1 = delete tag (nodes s);
  del_unknown : ∀ tag s e, (DelNode tag s).2 = Some e → nodeNotFound e = true →
    nodes s !! tag = None ∧ nodes (DelNode tag s).1 = nodes s;
  del_failed : ∀ tag s e, (DelNode tag s).2 = Some e →
    nodes (DelNode tag s).1 = nodes s ∨ nodes (DelNode tag s).1 = delete tag (nodes s);
  users_ok : ∀ tag us info s, (AddUsers tag us info s).2 = None →
    ∃ n old, nodes s !! tag = Some (n, old) ∧
      nodes (AddUsers tag us info s).1 = <[tag := (n, NodeUsers.withUsers us old)]> (nodes s);
  users_failed : ∀ tag us info s, is_Some (AddUsers tag us info s).2 →
    delete tag (nodes (AddUsers tag us info s).1) = delete tag (nodes s) ∧
    fst <$> nodes (AddUsers tag us info s).1 !! tag = fst <$> nodes s !! tag;
  del_users_ok : ∀ us tag info s n old, (DelUsers us tag info s).2 = None → nodes s !! tag = Some (n, old) →
    nodes (DelUsers us tag info s).1 = <[tag := (n, NodeUsers.without us old)]> (nodes s);
  del_users_absent : ∀ us tag info s, nodes s !! tag = None → nodes (DelUsers us tag info s).1 = nodes s;
  del_users_failed : ∀ us tag info s, is_Some (DelUsers us tag info s).2 →
    delete tag (nodes (DelUsers us tag info s).1) = delete tag (nodes s) ∧
    fst <$> nodes (DelUsers us tag info s).1 !! tag = fst <$> nodes s !! tag
}.

(** And what its host does not. *)
Class CoreLaws (S B : Type) `{!Core S B} `{!Host S} := {
  core_nodes :: CoreNodes S B;
  host_nodes : ∀ c s, nodes (createLegoCert c s).1 = nodes s;
  self_nodes : ∀ c s, nodes (generateSelfSslCertificate c s).1 = nodes s;
  sleep_nodes : ∀ d s, nodes (sleep d s) = nodes s
}.

(** ** State *)

(** A limiter with its domain rules. *)
Record LimiterObject := mkObject { lim : Limiter; DomainRules : list string }.

(** [task.Task]: its interval and whether it runs. *)
Record Task := mkTask { Interval : duration; running : bool }.
Definition Start (t : Task) : Task := mkTask (Interval t) true.
Definition Stop (t : Task) : Task := mkTask (Interval t) false.

(** [RemoteLogHook]: its tag and whether it is active. *)
Record Hook := mkHook { htag : string; active : bool }.

Section Controller.
Context {S B : Type} `{!EqDecision B} `{!Core S B} `{!Host S}.

(** The core with its host, the limiters and the table of them by tag, the
    log hooks, and the times the runtime health was reported. *)
Record World := mkWorld {
  core : S;
  limiters : gmap nat LimiterObject;
  nextLimiter : nat;
  table : gmap string nat;
  hooks : list Hook;
  healthReports : nat
}.

(** [Controller].  [aliveShared]: [aliveMap] and the limiter's list are the same
    Go map. *)
Record Controller := mkController {
  nodeID : Z; apiHost : string; nodeType : string; protocolID : Z; options : Options;
  tag : string;
  limiter : option nat;
  traffic : option (gmap string Z);
  userList : list UserInfo;
  aliveMap : option (gmap Z Z);
  aliveShared : bool;
  info : option (NodeInfo B);
  userReportPeriodic : option Task;
  renewCertPeriodic : option Task;
  dynamicSpeedLimitPeriodic : option Task;
  logHook : option nat;
  limiterAdded : bool;
  nodeAdded : bool;
  started : bool;
  aliveFromStream : bool
}.

Definition NewController (nodeID : Z) (apiHost nodeType : string) (protocolID : Z) (o : Options) : Controller :=
  mkController nodeID apiHost nodeType protocolID o "" None None [] None false None None None None None
    false false false false.

Definition set_tag (t : string) (c : Controller) : Controller :=
  mkController (nodeID c) (apiHost c) (nodeType c) (protocolID c) (options c) t (limiter c) (traffic c) (userList c)
    (aliveMap c) (aliveShared c) (info c) (userReportPeriodic c) (renewCertPeriodic c) (dynamicSpeedLimitPeriodic c)
    (logHook c) (limiterAdded c) (nodeAdded c) (started c) (aliveFromStream c).
Definition set_limiter (a : nat) (c : Controller) : Controller :=
  mkController (nodeID c) (apiHost c) (nodeType c) (protocolID c) (options c) (tag c) (Some a) (traffic c) (userList c)
    (aliveMap c) (aliveShared c) (info c) (userReportPeriodic c) (renewCertPeriodic c) (dynamicSpeedLimitPeriodic c)
    (logHook c) true (nodeAdded c) (started c) (aliveFromStream c).
Definition set_traffic (m : option (gmap string Z)) (c : Controller) : Controller :=
  mkController (nodeID c) (apiHost c) (nodeType c) (protocolID c) (options c) (tag c) (limiter c) m (userList c)
    (aliveMap c) (aliveShared c) (info c) (userReportPeriodic c) (renewCertPeriodic c) (dynamicSpeedLimitPeriodic c)
    (logHook c) (limiterAdded c) (nodeAdded c) (started c) (aliveFromStream c).
Definition set_userList (us : list UserInfo) (c : Controller) : Controller :=
  mkController (nodeID c) (apiHost c) (nodeType c) (protocolID c) (options c) (tag c) (limiter c) (traffic c) us
    (aliveMap c) (aliveShared c) (info c) (userReportPeriodic c) (renewCertPeriodic c) (dynamicSpeedLimitPeriodic c)
    (logHook c) (limiterAdded c) (nodeAdded c) (started c) (aliveFromStream c).
Definition set_alive (a : option (gmap Z Z)) (shared : bool) (c : Controller) : Controller :=
  mkController (nodeID c) (apiHost c) (nodeType c) (protocolID c) (options c) (tag c) (limiter c) (traffic c) (userList c)
    a shared (info c) (userReportPeriodic c) (renewCertPeriodic c) (dynamicSpeedLimitPeriodic c)
    (logHook c) (limiterAdded c) (nodeAdded c) (started c) (aliveFromStream c).
Definition set_fromStream (c : Controller) : Controller :=
  mkController (nodeID c) (apiHost c) (nodeType c) (protocolID c) (options c) (tag c) (limiter c) (traffic c) (userList c)
    (aliveMap c) (aliveShared c) (info c) (userReportPeriodic c) (renewCertPeriodic c) (dynamicSpeedLimitPeriodic c)
    (logHook c) (limiterAdded c) (nodeAdded c) (started c) true.
Definition set_info (i : option (NodeInfo B)) (c : Controller) : Controller :=
  mkController (nodeID c) (apiHost c) (nodeType c) (protocolID c) (options c) (tag c) (limiter c) (traffic c) (userList c)
    (aliveMap c) (aliveShared c) i (userReportPeriodic c) (renewCertPeriodic c) (dynamicSpeedLimitPeriodic c)
    (logHook c) (limiterAdded c) (nodeAdded c) (started c) (aliveFromStream c).
Definition set_tasks (report renew dynamic : option Task) (c : Controller) : Controller :=
  mkController (nodeID c) (apiHost c) (nodeType c) (protocolID c) (options c) (tag c) (limiter c) (traffic c) (userList c)
    (aliveMap c) (aliveShared c) (info c) report renew dynamic
    (logHook c) (limiterAdded c) (nodeAdded c) (started c) (aliveFromStream c).
Definition set_hook (h : option nat) (c : Controller) : Controller :=
  mkController (nodeID c) (apiHost c) (nodeType c) (protocolID c) (options c) (tag c) (limiter c) (traffic c) (userList c)
    (aliveMap c) (aliveShared c) (info c) (userReportPeriodic c) (renewCertPeriodic c) (dynamicSpeedLimitPeriodic c)
    h (limiterAdded c) (nodeAdded c) (started c) (aliveFromStream c).
Definition set_added (limAdded added start : bool) (c : Controller) : Controller :=
  mkController (nodeID c) (apiHost c) (nodeType c) (protocolID c) (options c) (tag c) (limiter c) (traffic c) (userList c)
    (aliveMap c) (aliveShared c) (info c) (userReportPeriodic c) (renewCertPeriodic c) (dynamicSpeedLimitPeriodic c)
    (logHook c) limAdded added start (aliveFromStream c).
Definition set_nodeAdded (b : bool) (c : Controller) : Controller := set_added (limiterAdded c) b (started c) c.

Definition set_core (w : World) (s : S) : World :=
  mkWorld s (limiters w) (nextLimiter w) (table w) (hooks w) (healthReports w).
Definition set_hooks (w : World) (hs : list Hook) : World :=
  mkWorld (core w) (limiters w) (nextLimiter w) (table w) hs (healthReports w).
Definition set_object (w : World) (a : nat) (o : LimiterObject) : World :=
  mkWorld (core w) (<[a := o]> (limiters w)) (nextLimiter w) (table w) (hooks w) (healthReports w).

(** ** Code that may fail or panic *)

Inductive outcome (A : Type) := Ret (a : A) | Fail (e : string) | Panic.
#[global] Arguments Ret {A}.
#[global] Arguments Fail {A}.
#[global] Arguments Panic {A}.

Definition M (A : Type) : Type := Controller → World → outcome A * Controller * World.

#[global] Instance M_ret : MRet M := λ A a c w, (Ret a, c, w).
#[global] Instance M_bind : MBind M := λ A A' f m c w,
  match m c w with
  | (Ret a, c, w) => f a c w
  | (Fail e, c, w) => (Fail e, c, w)
  | (Panic, c, w) => (Panic, c, w)
  end.

Definition fail {A} (e : string) : M A := λ c w, (Fail e, c, w).
Definition get : M Controller := λ c w, (Ret c, c, w).
Definition modify (f : Controller → Controller) : M unit := λ c w, (Ret tt, f c, w).
Definition modifyWorld (f : World → World) : M unit := λ c w, (Ret tt, c, f w).
Definition catch {A} (m : M A) : M (result A) := λ c w,
  match m c w with
  | (Ret a, c, w) => (Ret (Ok a), c, w)
  | (Fail e, c, w) => (Ret (Err e), c, w)
  | (Panic, c, w) => (Panic, c, w)
  end.
(** Calls to the core and its host. *)
Definition call {E} (f : S → S * E) : M E := λ c w, let '(s, e) := f (core w) in (Ret e, c, set_core w s).

(** ** The limiter table *)

(** [limiter.AddLimiter]. *)
Definition AddLimiter (t : string) (o : Options) (users : list UserInfo) (alive : gmap Z Z) : M nat := λ c w,
  let a := nextLimiter w in
  (Ret a, c,
   mkWorld (core w) (<[a := mkObject (Limiter.AddLimiter t (OptSpeedLimit o) users alive) []]> (limiters w))
     (Datatypes.S a) (<[t := a]> (table w)) (hooks w) (healthReports w)).

Definition DeleteLimiter (t : string) (w : World) : World :=
  mkWorld (core w) (limiters w) (nextLimiter w) (delete t (table w)) (hooks w) (healthReports w).

(** The limiter the cores find under a tag. *)
Definition GetLimiter (t : string) (w : World) : option LimiterObject := a ← table w !! t; limiters w !! a.

Definition with_alive (l : Limiter) (alive : gmap Z Z) : Limiter :=
  mkLimiter (SpeedLimit l) (UserOnlineIP l) (OldUserOnline l) (UUIDtoUID l) (UserLimitInfos l) (SpeedLimiter l) alive
    (ProtocolRules l).
Definition with_rules (l : Limiter) (rules : list string) : Limiter :=
  mkLimiter (SpeedLimit l) (UserOnlineIP l) (OldUserOnline l) (UUIDtoUID l) (UserLimitInfos l) (SpeedLimiter l)
    (AliveList l) rules.

(** A method of [c.limiter]: a nil one panics. *)
Definition onLimiter (f : LimiterObject → option LimiterObject) : M unit := λ c w,
  match limiter c ≫= λ a, pair a <$> limiters w !! a with
  | None => (Panic, c, w)
  | Some (a, o) => match f o with None => (Panic, c, w) | Some o => (Ret tt, c, set_object w a o) end
  end.

(** [Limiter.UpdateRule]: every expression is compiled, one that does not
    compile panics; no error is returned. *)
Definition UpdateRule (r : Rules) : M unit :=
  onLimiter (λ o, if forallb compiles (Regexp r) then Some (mkObject (with_rules (lim o) (RProtocol r)) (Regexp r)) else None).

Definition setAliveList (alive : gmap Z Z) : M unit :=
  onLimiter (λ o, Some (mkObject (with_alive (lim o) alive) (DomainRules o))).

(** ** Tags *)

Definition protocolTagSuffix (c : Controller) : string :=
  if protocolID c =? 0 then "" else "#" +:+ format_uint (protocolID c).

Definition buildNodeTag (c : Controller) (n : NodeInfo B) : string :=
  "[" +:+ apiHost c +:+ "]-" +:+ NType n +:+ ":" +:+ itoa (NId n) +:+ protocolTagSuffix c.

(** ** Certificates *)

Definition bothFiles (c : CertConfig) (s : S) : bool := fileExists (CertFile c) s && fileExists (KeyFile c) s.

Definition noPaths (c : CertConfig) : bool := String.eqb (CertFile c) "" || String.eqb (KeyFile c) "".

Definition requestCert : M unit := λ c w,
  let cc := Cert (options c) in
  let make (f : CertConfig → S → S * result unit) (e : string) : outcome unit * Controller * World :=
    if noPaths cc then (Fail "cert file path or key file path not exist", c, w)
    else if bothFiles cc (core w) then (Ret tt, c, w)
    else let '(s, r) := f cc (core w) in
         match r with Ok _ => (Ret tt, c, set_core w s) | Err x => (Fail (e +:+ x), c, set_core w s) end in
  if String.eqb (CertMode cc) "none" || String.eqb (CertMode cc) "" then (Ret tt, c, w)
  else if String.eqb (CertMode cc) "file" then
    if noPaths cc then (Fail "cert file path or key file path not exist", c, w) else (Ret tt, c, w)
  else if String.eqb (CertMode cc) "dns" || String.eqb (CertMode cc) "http" then make createLegoCert "create lego cert error: "
  else if String.eqb (CertMode cc) "self" then make generateSelfSslCertificate "generate self cert error: "
  else (Fail ("unsupported certmode: " +:+ CertMode cc), c, w).

(** ** Starting *)

(** [addLimiter], under the lock: an alive list of the stream stays. *)
Definition addLimiter (users : list UserInfo) (alive : option (gmap Z Z)) : M unit :=
  c ← get;
  let m := if negb (aliveFromStream c) || negb (bool_decide (is_Some (aliveMap c))) then alive else aliveMap c in
  let m := default ∅ m in
  modify (λ c, set_alive (Some m) true (set_userList users c));;
  a ← AddLimiter (tag c) (options c) users m;
  modify (set_limiter a).

(** [newRemoteLogHook] and [AddHook]. *)
Definition addHook : M unit := λ c w,
  (Ret tt, set_hook (Some (List.length (hooks w))) c, set_hooks w (hooks w ++ [mkHook (tag c) true])).

Definition reportRuntimeHealth : M unit :=
  modifyWorld (λ w, mkWorld (core w) (limiters w) (nextLimiter w) (table w) (hooks w) (Datatypes.S (healthReports w))).

Definition startTasks (node : NodeInfo B) : M unit :=
  modify (λ c, set_tasks (Some (Start (mkTask (PushInterval node) false))) (renewCertPeriodic c) (dynamicSpeedLimitPeriodic c) c);;
  reportRuntimeHealth;;
  modify (λ c,
    if (Security node =? Tls) && negb (existsb (String.eqb (CertMode (Cert (options c)))) ["none"; ""; "file"; "self"])
    then set_tasks (userReportPeriodic c) (Some (Start (mkTask (24 * hour) false))) (dynamicSpeedLimitPeriodic c) c else c);;
  modify (λ c,
    match EnableDynamicSpeedLimit (options c), DynamicPeriodic (options c) with
    | true, Some p =>
        set_traffic (Some ∅)
          (set_tasks (userReportPeriodic c) (renewCertPeriodic c)
             (Some (Start (mkTask (i64 ((if p <=? 0 then 60 else p) * second)) false))) c)
    | _, _ => c
    end).

Definition whenTls (n : NodeInfo B) (m : M unit) : M unit := if Security n =? Tls then m else mret tt.

Definition chooseTag (node : NodeInfo B) (c : Controller) : Controller :=
  set_tag (if String.eqb (Name (options c)) "" then buildNodeTag c node else Name (options c) +:+ protocolTagSuffix c) c.

(** The tag, the log hook and the limiter. *)
Definition startSetup (node : NodeInfo B) (users : list UserInfo) (alive : option (gmap Z Z)) : M unit :=
  modify (chooseTag node);;
  addHook;;
  addLimiter users alive.

(** The node and its users in the core, and the tasks. *)
Definition startInCore (node : NodeInfo B) : M unit :=
  c ← get;
  e ← call (AddNode (tag c) node (options c));
  match e with
  | Some e => fail ("add new node error: " +:+ text e)
  | None =>
      modify (set_nodeAdded true);;
      e ← call (AddUsers (tag c) (userList c) node);
      match e with
      | Some e => fail ("add users error: " +:+ text e)
      | None =>
          modify (set_info (Some node));;
          startTasks node;;
          modify (λ c, set_added (limiterAdded c) (nodeAdded c) true c)
      end
  end.

Definition startWith (node : NodeInfo B) (users : list UserInfo) (alive : option (gmap Z Z)) : M unit :=
  startSetup node users alive;;
  UpdateRule (NRules node);;
  whenTls node requestCert;;
  startInCore node.

(** ** Reloading *)

Definition nodeConfigEqual (a b : option (NodeInfo B)) : bool :=
  match a, b with Some a, Some b => bool_decide (a = b) | _, _ => false end.

Definition nodeAddRetryDelays : list duration := [500 * millisecond; second; 2 * second].

(** The attempts after the first. *)
Fixpoint retryAdd (delays : list duration) (t : string) (n : NodeInfo B) (o : Options) (e : option coreError) : M (option coreError) :=
  match delays, e with
  | [], _ | _, None => mret e
  | d :: delays, Some x =>
      if isAddressInUse x then
        modifyWorld (λ w, set_core w (sleep d (core w)));;
        e ← call (AddNode t n o);
        retryAdd delays t n o e
      else mret e
  end.

Definition addCoreNodeLocked (t : string) (n : NodeInfo B) : M (option coreError) :=
  c ← get;
  e ← call (AddNode t n (options c));
  retryAdd nodeAddRetryDelays t n (options c) e.

Definition startLimiter (n : NodeInfo B) : M unit :=
  c ← get;
  if String.eqb (Name (options c)) "" then
    modify (set_tag (buildNodeTag c n));;
    modifyWorld (DeleteLimiter (tag c));;
    a ← AddLimiter (buildNodeTag c n) (options c) (userList c) (default ∅ (aliveMap c));
    modify (λ c, set_limiter a (set_alive (aliveMap c) (bool_decide (is_Some (aliveMap c))) c))
  else match aliveMap c with
       | Some alive => setAliveList alive;; modify (set_alive (Some alive) true)
       | None => mret tt
       end.

(** The users of the node just added; a node whose users fail is removed again. *)
Definition addNodeUsers (n : NodeInfo B) : M unit :=
  c ← get;
  e ← call (AddUsers (tag c) (userList c) n);
  match e with
  | Some e =>
      d ← call (DelNode (tag c));
      match d with
      | Some d => if nodeNotFound d then mret tt else modify (set_nodeAdded true)
      | None => mret tt
      end;;
      fail ("add users to node " +:+ tag c +:+ ": " +:+ text e)
  | None => modify (set_nodeAdded true)
  end.

Definition startNodeLocked (n : NodeInfo B) : M unit :=
  startLimiter n;;
  UpdateRule (NRules n);;
  whenTls n requestCert;;
  c ← get;
  e ← addCoreNodeLocked (tag c) n;
  match e with
  | Some e => fail ("add node " +:+ tag c +:+ ": " +:+ text e)
  | None => addNodeUsers n
  end.

(** The delete at the start of [replaceNodeLocked]. *)
Definition deleteOld : M unit :=
  c ← get;
  if nodeAdded c then
    e ← call (DelNode (tag c));
    match e with
    | Some e => if nodeNotFound e then modify (set_nodeAdded false) else fail ("delete node " +:+ tag c +:+ ": " +:+ text e)
    | None => modify (set_nodeAdded false)
    end
  else mret tt.

(** The rest of it: the new node, or the previous one again. *)
Definition startOrRestore (newN : NodeInfo B) (oldInfo : option (NodeInfo B)) (oldTag : string) : M unit :=
  r ← catch (startNodeLocked newN);
  match r, oldInfo with
  | Ok _, _ => modify (set_info (Some newN))
  | Err applyErr, None => fail applyErr
  | Err applyErr, Some old =>
      r ← catch (startNodeLocked old);
      match r with
      | Err restoreErr => fail (applyErr +:+ "; restore the previous configuration of node " +:+ oldTag +:+ ": " +:+ restoreErr)
      | Ok _ =>
          modify (set_info (Some old));;
          fail (applyErr +:+ " (the previous configuration was restored)")
      end
  end.

Definition replaceNodeLocked (newN : NodeInfo B) : M unit :=
  c ← get;
  deleteOld;;
  startOrRestore newN (info c) (tag c).

(** ** Users and alive lists *)

(** The core's users of one node, as [applyUserDiffLocked] sees them. *)
Definition coreUsers (t : string) (n : NodeInfo B) : NodeUsers.CoreUsers S := {|
  NodeUsers.running := λ s, default ∅ (snd <$> nodes s !! t);
  NodeUsers.DelUsers := λ us s, let '(s, e) := DelUsers us t n s in (s, match e with None => Ok tt | Some e => Err (text e) end);
  NodeUsers.AddUsers := λ us s, let '(s, e) := AddUsers t us n s in (s, match e with None => Ok tt | Some e => Err (text e) end)
|}.

(** [applyUserDiffLocked] of a started node: its alive list is the limiter's. *)
Definition applyUserDiffLocked (newU : list UserInfo) : M unit := λ c w,
  match limiter c ≫= λ a, pair a <$> limiters w !! a, info c with
  | Some (a, o), Some n =>
      let '(u, r) := @NodeUsers.applyUserDiffLocked S (coreUsers (tag c) n) (tag c) (EnableDynamicSpeedLimit (options c))
        newU (NodeUsers.mkController (core w) (userList c) (lim o) (traffic c)) in
      let c' := set_traffic (NodeUsers.traffic u) (set_userList (NodeUsers.userList u) c) in
      let c' := if aliveShared c then set_alive (Some (AliveList (NodeUsers.lim u))) true c' else c' in
      let w := set_object (set_core w (NodeUsers.server u)) a (mkObject (NodeUsers.lim u) (DomainRules o)) in
      match r with Ok _ => (Ret tt, c', w) | Err e => (Fail e, c', w) end
  | _, _ => (Panic, c, w)
  end.

Definition reconcileLocked (newN : option (NodeInfo B)) (newU : option (list UserInfo)) (newA : option (gmap Z Z)) : M unit :=
  c ← get;
  match (if nodeAdded c && nodeConfigEqual (info c) newN then None else newN) with
  | Some n =>
      modify (λ c, match newU with Some us => set_userList us c | None => c end);;
      modify (λ c, match newA with Some a => set_alive (Some a) false c | None => c end);;
      replaceNodeLocked n;;
      modify (set_traffic (Some ∅));;
      modify (λ c,
        match userReportPeriodic c with
        | Some t =>
            if negb (Interval t =? PushInterval n) && negb (PushInterval n =? 0)
            then set_tasks (Some (Start (Stop (mkTask (PushInterval n) (running t))))) (renewCertPeriodic c)
                   (dynamicSpeedLimitPeriodic c) c
            else c
        | None => c
        end)
  | None =>
      match newA with Some a => setAliveList a;; modify (λ c, set_alive (aliveMap c) false c) | None => mret tt end;;
      reportRuntimeHealth;;
      match newU with Some us => applyUserDiffLocked us | None => mret tt end
  end.

(** [startUsers], given the plane's current list and alive list. *)
Definition startUsers (current : option (list UserInfo)) (alive : gmap Z Z) : M (list UserInfo * gmap Z Z) :=
  match current with
  | Some us => mret (us, alive)
  | None => fail "the Agent control stream has delivered no user set yet"
  end.

(** [applySnapshot] with the node of the controller's entry. *)
Definition applyNode (n : NodeInfo B) (current : option (list UserInfo)) (alive : gmap Z Z) : M unit :=
  c ← get;
  if started c then reconcileLocked (Some n) None None
  else x ← startUsers current alive; startWith n x.1 (Some x.2).

Definition applyStreamAlive (alive : gmap Z Z) : M unit :=
  modify (λ c, set_fromStream (set_alive (Some alive) (bool_decide (is_Some (limiter c))) c));;
  c ← get;
  match limiter c with Some _ => setAliveList alive | None => mret tt end.

Definition applyStreamUsers (users : list UserInfo) : M unit :=
  c ← get;
  if started c then applyUserDiffLocked users else mret tt.

(** ** Closing *)

Definition Close : M unit :=
  c ← get;
  (if limiterAdded c then
     modifyWorld (DeleteLimiter (tag c));; modify (λ c, set_added false (nodeAdded c) (started c) c)
   else mret tt);;
  modify (λ c, set_tasks (Stop <$> userReportPeriodic c) (Stop <$> renewCertPeriodic c) (Stop <$> dynamicSpeedLimitPeriodic c) c);;
  match logHook c with
  | Some h =>
      modifyWorld (λ w, set_hooks w (alter (λ h, mkHook (htag h) false) h (hooks w)));; modify (set_hook None)
  | None => mret tt
  end;;
  if nodeAdded c then
    e ← call (DelNode (tag c));
    modify (set_nodeAdded false);;
    match e with Some e => fail ("del node error: " +:+ text e) | None => mret tt end
  else mret tt.

(** The hooks that forward a log entry of a tag ([Fire]). *)
Definition forwarding (t : string) (w : World) : list Hook :=
  filter (λ h, active h = true ∧ (htag h = "" ∨ htag h = trim_space t)) (hooks w).

End Controller.

End NodeController.
