(* ===== verification/NodeReload.v ===== *)
(** * Starting, reloading and closing a node (src/node/controller.go, reload.go)

    What the core runs after a reload, whichever of its calls fail: the new
    configuration, or the previous one, or nothing, and the controller's
    [nodeAdded] tells which.  What a failed start leaves behind, and what
    [Close] removes.  The hypotheses are the laws [CoreLaws] of the cores;
    WireGuard's are proved in NodeWireGuard.v. *)

From S2P Require Import Prelude GoStrings Limiter NodeUsers NodeController.
From Stdlib Require Import String.

Module NodeReload.
Import Limiter NodeController.

Section Reload.
Context {S B : Type} `{!EqDecision B} `{!Core S B} `{!Host S} `{!CoreLaws S B}.
Implicit Types (c : @Controller B) (w : @World S) (n : NodeInfo B).

(** The tag a node gets in [startNodeLocked]. *)
Definition tagFor c n : string := if String.eqb (Name (options c)) "" then buildNodeTag c n else tag c.

(** What starting a node leaves as it is. *)
Record keeps c c' : Prop := mkKeeps {
  k_id : nodeID c' = nodeID c;
  k_host : apiHost c' = apiHost c;
  k_type : nodeType c' = nodeType c;
  k_protocol : protocolID c' = protocolID c;
  k_options : options c' = options c;
  k_users : userList c' = userList c;
  k_alive : aliveMap c' = aliveMap c;
  k_info : info c' = info c;
  k_hook : logHook c' = logHook c;
  k_started : started c' = started c;
  k_report : userReportPeriodic c' = userReportPeriodic c
}.

#[global] Instance keeps_refl : Reflexive keeps.
Proof. intros c. by split. Qed.
#[global] Instance keeps_trans : Transitive keeps.
Proof. intros c1 c2 c3 [] []. split; congruence. Qed.

Lemma keeps_tag c c' n : keeps c c' → buildNodeTag c' n = buildNodeTag c n.
Proof. intros K. unfold buildNodeTag, protocolTagSuffix. by rewrite (k_host _ _ K), (k_protocol _ _ K). Qed.

(** The controller's limiter exists. *)
Definition hasLimiter c w : Prop := ∃ a o, limiter c = Some a ∧ limiters w !! a = Some o.

(** It is the one the cores find under the controller's tag. *)
Definition registered c w : Prop := ∃ a o, limiter c = Some a ∧ table w !! tag c = Some a ∧ limiters w !! a = Some o.

(** ... with the rules of a node. *)
Definition ruled n c w : Prop :=
  ∃ o, GetLimiter (tag c) w = Some o ∧ DomainRules o = Regexp (NRules n) ∧ ProtocolRules (lim o) = RProtocol (NRules n).

Definition compile n : Prop := forallb compiles (Regexp (NRules n)) = true.

(** No call to delete a node fails but for an unknown one. *)
Definition deletesWork : Prop := ∀ t (s : S) e, (DelNode t s).2 = Some e → nodeNotFound e = true.

(** ** The steps *)

Lemma bind_eq {A A'} (m : M A) (f : A → M A') c w :
  (m ≫= f) c w = match m c w with (Ret a, c, w) => f a c w | (Fail e, c, w) => (Fail e, c, w) | (Panic, c, w) => (Panic, c, w) end.
Proof. done. Qed.

Lemma call_eq {E} (f : S → S * E) c w : call f c w = (Ret (f (core w)).2, c, set_core w (f (core w)).1).
Proof. unfold call. by destruct (f (core w)). Qed.

Lemma UpdateRule_spec n c w : registered c w → compile n →
  ∃ w', UpdateRule (NRules n) c w = (Ret tt, c, w') ∧ core w' = core w ∧ hooks w' = hooks w ∧ registered c w' ∧ ruled n c w'.
Proof.
  intros (a & o & Hl & Ht & Ho) Hn. unfold UpdateRule, onLimiter. rewrite Hl. simpl. rewrite Ho. simpl.
  rewrite Hn. eexists. split_and!; [done..| |].
  - eexists a, _. simpl. rewrite lookup_insert_eq. by split_and!.
  - unfold ruled, GetLimiter. simpl. rewrite Ht. simpl. rewrite lookup_insert_eq. by eexists.
Qed.

Lemma requestCert_spec n c w : ∃ r s, whenTls n requestCert c w = (r, c, set_core w s) ∧ r ≠ Panic ∧ nodes s = nodes (core w).
Proof.
  assert (set_core w (core w) = w) as Ew by (by destruct w).
  unfold whenTls, requestCert.
  repeat match goal with |- context [if ?b then _ else _] => destruct b end;
    try (eexists _, (core w); rewrite Ew; split_and!; done).
  1: pose proof (host_nodes (Cert (options c)) (core w)) as Hs;
    destruct (createLegoCert _ _) as [s [[]|e]]; eexists _, s; by split_and!.
  pose proof (self_nodes (Cert (options c)) (core w)) as Hs;
    destruct (generateSelfSslCertificate _ _) as [s [[]|e]]; eexists _, s; by split_and!.
Qed.

(** Adding with retries: added when the tag was free, or nothing changed. *)
Definition addOutcome (t : string) n (e : option coreError) (s s' : S) : Prop :=
  (e = None ∧ nodes s !! t = None ∧ nodes s' = <[t := (n, ∅)]> (nodes s)) ∨ (is_Some e ∧ nodes s' = nodes s).

Lemma AddNode_outcome t n o (s : S) : addOutcome t n (AddNode t n o s).2 s (AddNode t n o s).1.
Proof.
  destruct (AddNode t n o s).2 as [e|] eqn:E.
  - right. split; [by eexists|]. apply add_failed. rewrite E. by eexists.
  - left. split_and!; [done| |by apply add_ok].
    destruct (nodes s !! t) as [x|] eqn:Ex; [|done].
    destruct (add_exists t n o s) as [y Hy]; [by eexists|congruence].
Qed.

Lemma retryAdd_spec ds t n o : ∀ e c w s0, addOutcome t n e s0 (core w) →
  ∃ e' s', retryAdd ds t n o e c w = (Ret e', c, set_core w s') ∧ addOutcome t n e' s0 s'.
Proof.
  induction ds as [|d ds IH]; intros e c w s0 He; simpl.
  { exists e, (core w). split; [by destruct w|done]. }
  destruct e as [e|]; [|exists None, (core w); split; [by destruct w|done]].
  destruct (isAddressInUse e); [|exists (Some e), (core w); split; [by destruct w|done]].
  destruct He as [[? _]|[_ Hs]]; [done|].
  rewrite !bind_eq. cbn [modifyWorld]. rewrite bind_eq, call_eq. cbn [core set_core].
  destruct (IH (AddNode t n o (sleep d (core w))).2 c
    (set_core (set_core w (sleep d (core w))) (AddNode t n o (sleep d (core w))).1) s0) as (e' & s' & E & H').
  - pose proof (AddNode_outcome t n o (sleep d (core w))) as Ha. unfold addOutcome in *.
    rewrite sleep_nodes, Hs in Ha. exact Ha.
  - by exists e', s'.
Qed.

Lemma addCoreNodeLocked_spec t n c w :
  ∃ e s', addCoreNodeLocked t n c w = (Ret e, c, set_core w s') ∧ addOutcome t n e (core w) s'.
Proof.
  unfold addCoreNodeLocked. rewrite !bind_eq. cbn [get]. rewrite bind_eq, call_eq.
  destruct (retryAdd_spec nodeAddRetryDelays t n (options c) (AddNode t n (options c) (core w)).2 c
    (set_core w (AddNode t n (options c) (core w)).1) (core w)) as (e & s' & E & H).
  - apply AddNode_outcome.
  - by exists e, s'.
Qed.

Lemma startLimiter_spec n c w : registered c w →
  ∃ c' w', startLimiter n c w = (Ret tt, c', w') ∧ core w' = core w ∧ hooks w' = hooks w ∧
    registered c' w' ∧ keeps c c' ∧ tag c' = tagFor c n ∧ nodeAdded c' = nodeAdded c.
Proof.
  intros (a & o & Hl & Ht & Ho). unfold startLimiter, tagFor. rewrite bind_eq. cbn [get].
  destruct (String.eqb (Name (options c)) "").
  - eexists _, _. split; [done|]. split_and!; [done..| |by split|done|done].
    eexists _, _. simpl. rewrite !lookup_insert_eq. by split_and!.
  - destruct (aliveMap c) as [alive|] eqn:Ea.
    + rewrite bind_eq. unfold setAliveList, onLimiter. rewrite Hl. simpl. rewrite Ho. simpl.
      eexists _, _. split; [done|]. split_and!; [done..| |split; simpl; congruence|done|done].
      eexists a, _. simpl. rewrite lookup_insert_eq. by split_and!.
    + exists c, w. split_and!; try done. by exists a, o.
Qed.

(** A node of a configuration that is up: the node and its users, and no others. *)
Definition up n (us : list UserInfo) : NodeInfo B * gmap string UserInfo := (n, NodeUsers.withUsers us ∅).

(** How [startNodeLocked] ends: with the node up under its tag, which was free;
    or with the core as it was, unless a delete failed. *)
Inductive startEnds n c w : outcome unit → @Controller B → @World S → Prop :=
| start_up c' w' :
    nodes (core w) !! tagFor c n = None → nodeAdded c' = true → ruled n c' w' →
    nodes (core w') = <[tagFor c n := up n (userList c)]> (nodes (core w)) →
    startEnds n c w (Ret tt) c' w'
| start_undone e c' w' :
    nodeAdded c' = nodeAdded c → nodes (core w') = nodes (core w) → startEnds n c w (Fail e) c' w'
| start_stuck e c' w' :
    nodes (core w) !! tagFor c n = None → nodeAdded c' = true → ¬ deletesWork →
    delete (tagFor c n) (nodes (core w')) = delete (tagFor c n) (nodes (core w)) →
    startEnds n c w (Fail e) c' w'.

(** The users of a node that was just added; when they fail it is removed. *)
Lemma addNodeUsers_spec n c w1 w2 : nodes (core w1) !! tag c = None →
  nodes (core w2) = <[tag c := (n, ∅)]> (nodes (core w1)) → ruled n c w2 →
  let '(r, c', w') := addNodeUsers n c w2 in
  (∀ c0, tagFor c0 n = tag c → userList c0 = userList c → nodeAdded c0 = nodeAdded c → startEnds n c0 w1 r c' w') ∧
  keeps c c' ∧ tag c' = tag c ∧ limiter c' = limiter c ∧ table w' = table w2 ∧ limiters w' = limiters w2 ∧ hooks w' = hooks w2.
Proof.
  intros Hfree Hadd Hr. unfold addNodeUsers. rewrite bind_eq. cbn [get]. rewrite bind_eq, call_eq.
  pose proof (users_ok (tag c) (userList c) n (core w2)) as Hok.
  pose proof (users_failed (tag c) (userList c) n (core w2)) as Hno.
  destruct (AddUsers (tag c) (userList c) n (core w2)) as [s [e|]]; cbn [fst snd] in *.
  - destruct Hno as [Hno _]; [by eexists|]. rewrite Hadd, delete_insert_eq in Hno.
    rewrite bind_eq, call_eq. cbn [core set_core].
    pose proof (del_ok (tag c) s) as Hd. pose proof (del_unknown (tag c) s) as Hu. pose proof (del_failed (tag c) s) as Hf.
    assert (delete (tag c) (nodes (core w1)) = nodes (core w1)) as Eid by (by apply delete_id).
    destruct (DelNode (tag c) s) as [s' [d|]] eqn:Ed; cbn [fst snd] in *.
    + destruct (nodeNotFound d) eqn:En; rewrite bind_eq; simpl.
      * split; [|by split_and!]. intros c0 _ _ Ec0. apply start_undone; [done|]. simpl.
        destruct (Hu d eq_refl En) as [Hn ->]. rewrite <- (delete_id (nodes s) (tag c)), Hno by done. done.
      * split; [|by split_and!]. intros c0 Et _ _. apply start_stuck; simpl; rewrite ?Et; try done.
        -- intros Hw. specialize (Hw (tag c) s d). rewrite Ed in Hw. by rewrite Hw in En.
        -- destruct (Hf d eq_refl) as [-> | ->]; [done|]. by rewrite delete_delete_eq, Hno.
    + rewrite bind_eq. simpl. split; [|by split_and!]. intros c0 _ _ Ec0. apply start_undone; [done|]. simpl.
      rewrite Hd, Hno by done. done.
  - destruct Hok as (m & old & Em & Hs); [done|]. rewrite Hadd, lookup_insert_eq in Em. simplify_eq.
    simpl. split; [|by split_and!]. intros c0 Et Eu _. apply start_up; rewrite ?Et, ?Eu; simpl; try done.
    by rewrite Hs, Hadd, insert_insert_eq.
Qed.

Lemma startNodeLocked_spec n c w : registered c w → compile n →
  let '(r, c', w') := startNodeLocked n c w in
  startEnds n c w r c' w' ∧ keeps c c' ∧ tag c' = tagFor c n ∧ registered c' w' ∧ hooks w' = hooks w.
Proof.
  intros Hreg Hn. unfold startNodeLocked. rewrite bind_eq.
  destruct (startLimiter_spec n c w Hreg) as (c1 & w1 & -> & Ecore & Eh1 & Hreg1 & K1 & Et1 & Ea1).
  rewrite bind_eq. destruct (UpdateRule_spec n c1 w1 Hreg1 Hn) as (w2 & -> & Ecore2 & Eh2 & Hreg2 & Hr2).
  rewrite bind_eq. destruct (requestCert_spec n c1 w2) as (r & s & -> & Hr & Hs).
  assert (∀ s', registered c1 (set_core w2 s')) as Hreg3 by (intros s'; exact Hreg2).
  destruct r as [[]|e|]; [|split_and!; [|done|done|apply Hreg3|cbn; congruence]|done].
  2: { apply start_undone; [done|]. simpl. congruence. }
  rewrite bind_eq. cbn [get]. rewrite bind_eq.
  destruct (addCoreNodeLocked_spec (tag c1) n c1 (set_core w2 s)) as (e & s' & -> & Ho). cbn [core set_core] in Ho.
  destruct Ho as [(-> & Hfree & Hadd)|([x ->] & Hsame)].
  - pose proof (addNodeUsers_spec n c1 w (set_core (set_core w2 s) s')) as Hu.
    rewrite Hs, Ecore2, Ecore in *. specialize (Hu Hfree Hadd Hr2).
    destruct (addNodeUsers n c1 (set_core (set_core w2 s) s')) as [[r c'] w'].
    destruct Hu as (Hu & K & Et & El & Etab & Elim & Eh). split_and!.
    + apply Hu; [by rewrite Et1|by rewrite (k_users _ _ K1)|done].
    + by trans c1.
    + congruence.
    + destruct Hreg2 as (a & o & H1 & H2 & H3). exists a, o. rewrite El, Et, Etab, Elim. done.
    + rewrite Eh. simpl. congruence.
  - simpl. split_and!; [|done|done|exact Hreg2|simpl; congruence]. apply start_undone; [done|]. simpl. congruence.
Qed.

(** ** Reloading *)

(** The members of a controller that its tags come from. *)
Definition sameNode c c' : Prop := apiHost c' = apiHost c ∧ protocolID c' = protocolID c ∧ options c' = options c.

(** ... with its entry of a snapshot and whether it has started. *)
Definition steady c c' : Prop := sameNode c c' ∧ nodeType c' = nodeType c ∧ nodeID c' = nodeID c ∧ started c' = started c.

Lemma keeps_steady c c' : keeps c c' → steady c c'.
Proof. by intros []. Qed.

#[global] Instance steady_trans : Transitive steady.
Proof. intros c1 c2 c3 ((?&?&?)&?&?&?) ((?&?&?)&?&?&?). unfold steady, sameNode. split_and!; congruence. Qed.

(** What a controller that ran a configuration knows: its limiter is the one
    of its tag, the tag is the configuration's, and [nodeAdded] tells whether
    the core runs it. *)
Definition Placed c w : Prop :=
  registered c w ∧ ∃ old, info c = Some old ∧ compile old ∧ tag c = tagFor c old ∧
    fst <$> nodes (core w) !! tag c = if nodeAdded c then Some old else None.

Lemma deleteOld_spec c w : (nodeAdded c = false → nodes (core w) !! tag c = None) →
  let '(r, c', w') := deleteOld c w in
  keeps c c' ∧ tag c' = tag c ∧ limiter c' = limiter c ∧ table w' = table w ∧ limiters w' = limiters w ∧
  match r with
  | Ret _ => nodeAdded c' = false ∧ nodes (core w') = delete (tag c) (nodes (core w))
  | Fail _ => ¬ deletesWork ∧ delete (tag c) (nodes (core w')) = delete (tag c) (nodes (core w))
  | Panic => False
  end.
Proof.
  intros Hfalse. unfold deleteOld. rewrite bind_eq. cbn [get]. destruct (nodeAdded c) eqn:En.
  - rewrite bind_eq, call_eq. pose proof (del_ok (tag c) (core w)) as Hd.
    pose proof (del_unknown (tag c) (core w)) as Hu. pose proof (del_failed (tag c) (core w)) as Hf.
    destruct (DelNode (tag c) (core w)) as [s [d|]] eqn:Ed; cbn [fst snd] in *.
    + destruct (nodeNotFound d) eqn:Enf; simpl; split_and!; try done.
      * destruct (Hu d eq_refl Enf) as [Hn ->]. by rewrite delete_id.
      * intros Hw. specialize (Hw (tag c) (core w) d). rewrite Ed in Hw. by rewrite Hw in Enf.
      * destruct (Hf d eq_refl) as [-> | ->]; [done|]. by rewrite delete_delete_eq.
    + simpl. split_and!; try done. by apply Hd.
  - simpl. split_and!; try done. by rewrite delete_id by auto.
Qed.

Lemma tagFor_keeps c c' n : keeps c c' → (tag c' = tag c ∨ Name (options c) = "") → tagFor c' n = tagFor c n.
Proof.
  intros K Ht. unfold tagFor. rewrite (keeps_tag _ _ _ K), (k_options _ _ K).
  destruct (String.eqb_spec (Name (options c)) "") as [|Hn]; [done|]. by destruct Ht.
Qed.

(** Outside its own tag, starting a node changes nothing. *)
Lemma startEnds_frame n c w r c' w' : startEnds n c w r c' w' →
  delete (tagFor c n) (nodes (core w')) = delete (tagFor c n) (nodes (core w)).
Proof. destruct 1 as [? ? _ _ _ ->|? ? ? _ ->|? ? ? _ _ _ E]; [by rewrite delete_insert_eq|done|done]. Qed.

(** When a delete works, a failed start leaves the core as it was. *)
Lemma startEnds_undone n c w e c' w' : deletesWork → startEnds n c w (Fail e) c' w' →
  nodeAdded c' = nodeAdded c ∧ nodes (core w') = nodes (core w).
Proof. intros Hd. by inversion 1. Qed.

Lemma catch_eq {A} (m : M A) c w : catch m c w =
  match m c w with (Ret a, c, w) => (Ret (Ok a), c, w) | (Fail e, c, w) => (Ret (Err e), c, w) | (Panic, c, w) => (Panic, c, w) end.
Proof. done. Qed.

Lemma startOrRestore_spec newN old c w : registered c w → compile newN → compile old → info c = Some old →
  tag c = tagFor c old → nodeAdded c = false → nodes (core w) !! tag c = None →
  let '(r, c', w') := startOrRestore newN (Some old) (tag c) c w in
  delete (tag c) (delete (tagFor c newN) (nodes (core w'))) = delete (tag c) (delete (tagFor c newN) (nodes (core w))) ∧
  (∀ n, tagFor c' n = if String.eqb (Name (options c)) "" then tagFor c n else tag c') ∧ registered c' w' ∧ steady c c' ∧
  match r with
  | Ret _ => nodes (core w') = <[tagFor c newN := up newN (userList c)]> (nodes (core w)) ∧
             info c' = Some newN ∧ nodeAdded c' = true ∧ ruled newN c' w' ∧ tag c' = tagFor c newN
  | Fail _ => deletesWork →
      info c' = Some old ∧ tag c' = tag c ∧
      if nodeAdded c'
      then ruled old c' w' ∧ nodes (core w') = <[tag c := up old (userList c)]> (nodes (core w))
      else nodes (core w') = nodes (core w)
  | Panic => False
  end.
Proof.
  intros Hreg Hnew Hold Hinfo Htag Hadded Hnone. unfold startOrRestore. rewrite bind_eq, catch_eq.
  assert (∀ c', keeps c c' → ∀ n, tagFor c' n = if String.eqb (Name (options c)) "" then tagFor c n else tag c') as Htags.
  { intros c' K n. unfold tagFor. rewrite (k_options _ _ K), (keeps_tag _ _ _ K). by destruct (String.eqb _ _). }
  pose proof (startNodeLocked_spec newN c w Hreg Hnew) as H1.
  destruct (startNodeLocked newN c w) as [[r1 c1] w1]. destruct H1 as (E1 & K1 & T1 & R1 & _).
  pose proof (startEnds_frame _ _ _ _ _ _ E1) as F1.
  destruct r1 as [[]|e|]; [| |by inversion E1].
  - inversion E1; subst. simpl. split_and!; try done.
    + by rewrite F1.
    + apply (Htags c1 K1).
    + by apply keeps_steady in K1.
  - rewrite bind_eq, catch_eq.
    assert (tagFor c1 old = tag c) as Told.
    { rewrite (Htags c1 K1), T1, Htag. unfold tagFor. by destruct (String.eqb _ _). }
    pose proof (startNodeLocked_spec old c1 w1 R1 Hold) as H2.
    destruct (startNodeLocked old c1 w1) as [[r2 c2] w2]. destruct H2 as (E2 & K2 & T2 & R2 & _).
    assert (keeps c c2) as K by (by trans c1).
    pose proof (startEnds_frame _ _ _ _ _ _ E2) as F2. rewrite Told in F2.
    assert (delete (tag c) (delete (tagFor c newN) (nodes (core w2))) =
      delete (tag c) (delete (tagFor c newN) (nodes (core w)))) as F.
    { by rewrite delete_delete, F2, <- delete_delete, F1. }
    destruct r2 as [[]|e2|]; [| |by inversion E2]; rewrite ?bind_eq; simpl.
    + split_and!; [done|apply (Htags c2 K)|done|by apply keeps_steady in K|]. intros Hd.
      apply (startEnds_undone _ _ _ _ _ _ Hd) in E1 as [_ En].
      inversion E2 as [? ? _ Ha Hr Hn| |]; subst. rewrite Ha. split_and!; [done|congruence|done|].
      by rewrite Hn, Told, En, (k_users _ _ K1).
    + split_and!; [done|apply (Htags c2 K)|done|by apply keeps_steady in K|]. intros Hd.
      apply (startEnds_undone _ _ _ _ _ _ Hd) in E1 as [Ea1 En1], E2 as [Ea2 En2].
      rewrite Ea2, Ea1, Hadded. split_and!; [|congruence..]. by rewrite (k_info _ _ K).
Qed.

Lemma replace_spec newN c w : Placed c w → compile newN →
  let '(r, c', w') := replaceNodeLocked newN c w in
  steady c c' ∧ delete (tag c) (delete (tagFor c newN) (nodes (core w'))) = delete (tag c) (delete (tagFor c newN) (nodes (core w))) ∧
  match r with
  | Ret _ => nodes (core w') = <[tagFor c newN := up newN (userList c)]> (delete (tag c) (nodes (core w))) ∧
             tag c' = tagFor c newN ∧ info c' = Some newN ∧ nodeAdded c' = true ∧ ruled newN c' w' ∧ Placed c' w'
  | Fail _ => deletesWork →
      info c' = info c ∧ tag c' = tag c ∧ Placed c' w' ∧
      if nodeAdded c'
      then ∃ old, info c = Some old ∧ ruled old c' w' ∧
                  nodes (core w') = <[tag c := up old (userList c)]> (nodes (core w))
      else nodes (core w') = delete (tag c) (nodes (core w))
  | Panic => False
  end.
Proof.
  intros (Hreg & old & Hinfo & Hold & Htag & Hnode) Hnew. unfold replaceNodeLocked. rewrite bind_eq. cbn [get].
  rewrite bind_eq, Hinfo. pose proof (deleteOld_spec c w) as Hdel.
  destruct (deleteOld c w) as [[r0 c0] w0]. destruct Hdel as (K0 & Et0 & El0 & Etab0 & Elim0 & Hdel).
  { intros En. rewrite En in Hnode. by destruct (nodes (core w) !! tag c). }
  destruct r0 as [[]|e|]; [|destruct Hdel as [Hno E]|done].
  2: { split; [by apply keeps_steady in K0|split; [|by intros ?]]. by rewrite delete_delete, E, delete_delete. }
  destruct Hdel as [Ha0 En0].
  assert (∀ n, tagFor c0 n = tagFor c n) as Htags by (intros n; apply tagFor_keeps; [done|by left]).
  assert (registered c0 w0) as Hreg0.
  { destruct Hreg as (a & o & H1 & H2 & H3). exists a, o. rewrite El0, Et0, Etab0, Elim0. done. }
  pose proof (startOrRestore_spec newN old c0 w0 Hreg0 Hnew Hold) as Hs. rewrite Et0, !Htags, (k_users _ _ K0), (k_info _ _ K0), En0 in Hs.
  specialize (Hs Hinfo Htag Ha0 (lookup_delete_eq _ _)).
  destruct (startOrRestore newN (Some old) (tag c) c0 w0) as [[r c'] w']. destruct Hs as (F & HT & Hreg' & HSt & Hr).
  split; [trans c0; [by apply keeps_steady|done]|]. split; [by rewrite F, (delete_delete (nodes _)), delete_delete_eq, delete_delete|].
  destruct r as [[]|e|]; [| |done].
  - destruct Hr as (En & Hi & Ha & Hru & Ht). split_and!; try done. split; [done|]. exists newN.
    split_and!; [done..| |].
    + rewrite HT, Htags, Ht. by destruct (String.eqb _ _).
    + by rewrite Ha, En, Ht, lookup_insert_eq.
  - intros Hd. destruct (Hr Hd) as (Hi & Ht & Hrest).
    assert (tag c' = tagFor c' old) as Ht'.
    { rewrite HT, Htags, Ht, Htag. by destruct (String.eqb _ _). }
    split_and!; [done..| |].
    + split; [done|]. exists old. split_and!; [done..|]. rewrite Ht. destruct (nodeAdded c').
      * destruct Hrest as [_ ->]. by rewrite lookup_insert_eq.
      * by rewrite Hrest, lookup_delete_eq.
    + destruct (nodeAdded c'); [|done]. destruct Hrest as [Hru Hn]. exists old. split_and!; [done..|].
      by rewrite Hn, insert_delete_eq.
Qed.


(** ** Starting *)

(** The tag [startWith] chooses. *)
Definition firstTag c n : string := tag (chooseTag n c).

Lemma firstTag_same c c' n : sameNode c c' → firstTag c' n = firstTag c n.
Proof.
  intros (Eh & Ep & Eo). unfold firstTag, chooseTag, buildNodeTag, protocolTagSuffix. simpl. by rewrite Eh, Ep, Eo.
Qed.

Lemma startSetup_spec n users alive c w :
  ∃ c1 w1, startSetup n users alive c w = (Ret tt, c1, w1) ∧ core w1 = core w ∧
    registered c1 w1 ∧ sameNode c c1 ∧ tag c1 = firstTag c n ∧ userList c1 = users ∧ started c1 = started c ∧
    nodeAdded c1 = nodeAdded c ∧ limiterAdded c1 = true ∧ nodeType c1 = nodeType c ∧ nodeID c1 = nodeID c ∧
    (∀ t, t ≠ firstTag c n → table w1 !! t = table w !! t).
Proof.
  unfold startSetup, addHook, addLimiter. rewrite bind_eq. cbn [modify]. rewrite bind_eq. rewrite bind_eq. cbn [get].
  rewrite bind_eq. cbn [modify]. rewrite bind_eq. unfold AddLimiter.
  eexists _, _. split; [reflexivity|]. simpl. split_and!; try done.
  - eexists _, _. simpl. rewrite !lookup_insert_eq. by split_and!.
  - intros t Ht. by rewrite lookup_insert_ne.
Qed.

(** How [startWith] ends. *)
Inductive firstEnds n users c w : outcome unit → @Controller B → @World S → Prop :=
| first_up c' w' :
    compile n → nodes (core w) !! firstTag c n = None → started c' = true → nodeAdded c' = true → info c' = Some n →
    userList c' = users → ruled n c' w' → registered c' w' →
    nodes (core w') = <[firstTag c n := up n users]> (nodes (core w)) →
    firstEnds n users c w (Ret tt) c' w'
| first_nothing r c' w' :
    r ≠ Ret tt → started c' = started c → nodeAdded c' = nodeAdded c → nodes (core w') = nodes (core w) →
    firstEnds n users c w r c' w'
| first_half e c' w' :
    nodes (core w) !! firstTag c n = None → started c' = started c → nodeAdded c' = true →
    fst <$> nodes (core w') !! firstTag c n = Some n →
    delete (firstTag c n) (nodes (core w')) = delete (firstTag c n) (nodes (core w)) →
    firstEnds n users c w (Fail e) c' w'.

Lemma startTasks_spec n c w : ∃ c' w', startTasks n c w = (Ret tt, c', w') ∧ core w' = core w ∧ table w' = table w ∧
  limiters w' = limiters w ∧ tag c' = tag c ∧ limiter c' = limiter c ∧ sameNode c c' ∧ nodeAdded c' = nodeAdded c ∧
  info c' = info c ∧ userList c' = userList c ∧ limiterAdded c' = limiterAdded c ∧ nodeType c' = nodeType c ∧ nodeID c' = nodeID c.
Proof.
  unfold startTasks. rewrite bind_eq. cbn [modify]. rewrite bind_eq. cbn [reportRuntimeHealth modifyWorld]. rewrite bind_eq.
  cbn [modify]. eexists _, _. split; [reflexivity|].
  repeat case_match; by split_and!.
Qed.

Lemma startInCore_spec n c w : compile n → ruled n c w → registered c w →
  let '(r, c', w') := startInCore n c w in
  (∀ c0, firstTag c0 n = tag c → started c0 = started c → nodeAdded c0 = nodeAdded c → firstEnds n (userList c) c0 w r c' w') ∧
  sameNode c c' ∧ tag c' = tag c ∧ limiterAdded c' = limiterAdded c ∧
  nodeType c' = nodeType c ∧ nodeID c' = nodeID c ∧ table w' = table w.
Proof.
  intros Hn Hr Hreg. unfold startInCore. rewrite bind_eq. cbn [get]. rewrite bind_eq, call_eq.
  destruct (AddNode_outcome (tag c) n (options c) (core w)) as [(He & Hfree & Hadd)|([e He] & Hsame)]; rewrite He.
  - rewrite bind_eq. cbn [modify]. rewrite bind_eq, call_eq. cbn [core set_core].
    set (s := (AddNode (tag c) n (options c) (core w)).1) in *.
    pose proof (users_ok (tag c) (userList c) n s) as Hok. pose proof (users_failed (tag c) (userList c) n s) as Hno.
    destruct (AddUsers (tag c) (userList c) n s) as [s' [e|]]; cbn [fst snd] in *.
    + split; [|by split_and!]. intros c0 Et Es _. destruct Hno as [H1 H2]; [by eexists|].
      rewrite Hadd, delete_insert_eq in H1. rewrite Hadd, lookup_insert_eq in H2.
      apply first_half; rewrite ?Et; simpl; done.
    + destruct Hok as (m & old & Em & Hs); [done|]. rewrite Hadd, lookup_insert_eq in Em. injection Em as <- <-.
      rewrite bind_eq. cbn [modify]. rewrite bind_eq.
      set (c1 := set_info _ _). set (w1 := set_core _ _).
      destruct (startTasks_spec n c1 w1) as (c2 & w2 & -> & E1 & E2 & E3 & E4 & E5 & E6 & E7 & E8 & E9 & E10 & E11 & E12).
      cbn [modify]. split; [|by split_and!]. intros c0 Et Es _.
      apply first_up; rewrite ?Et; cbn; try done.
      * destruct Hr as (o & Ho & Hrest). exists o. split; [|done]. revert Ho. unfold GetLimiter. cbn. by rewrite E4, E2, E3.
      * destruct Hreg as (a & o & H1 & H2 & H3). exists a, o. cbn. by rewrite E5, E4, E2, E3.
      * rewrite E1. cbn. by rewrite Hs, Hadd, insert_insert_eq.
  - cbn. split; [|by split_and!]. intros c0 _ Es Ea. by apply first_nothing.
Qed.

Lemma startWith_spec n users alive c w :
  let '(r, c', w') := startWith n users alive c w in
  firstEnds n users c w r c' w' ∧ sameNode c c' ∧ tag c' = firstTag c n ∧ limiterAdded c' = true ∧
  nodeType c' = nodeType c ∧ nodeID c' = nodeID c ∧
  (∀ t, t ≠ firstTag c n → table w' !! t = table w !! t).
Proof.
  unfold startWith. rewrite bind_eq.
  destruct (startSetup_spec n users alive c w) as (c1 & w1 & -> & Ec1 & Hreg1 & HS & Et & Eu & Est & Ea & Ela & Ety & Eid & Htab).
  rewrite bind_eq. destruct (forallb compiles (Regexp (NRules n))) eqn:Hn.
  - destruct (UpdateRule_spec n c1 w1 Hreg1 Hn) as (w2 & Eu2 & Ecore2 & _ & Hreg2 & Hr2).
    assert (table w2 = table w1) as Etab.
    { revert Eu2. unfold UpdateRule, onLimiter. repeat case_match; intros; simplify_eq; done. }
    rewrite Eu2, bind_eq. destruct (requestCert_spec n c1 w2) as (r & s & -> & Hr & Hs).
    destruct r as [[]|e|]; [|split_and!; try done; [apply first_nothing; [done..|simpl; congruence]|intros t Ht; simpl; rewrite Etab; by apply Htab]|done].
    pose proof (startInCore_spec n c1 (set_core w2 s) Hn Hr2 Hreg2) as HI.
    destruct (startInCore n c1 (set_core w2 s)) as [[r' c'] w'].
    destruct HI as (HI & HS' & Et' & Ela' & Ety' & Eid' & Etab'). split_and!; try congruence.
    + specialize (HI c (eq_sym Et) (eq_sym Est) (eq_sym Ea)). rewrite Eu in HI.
      assert (nodes (core (set_core w2 s)) = nodes (core w)) as En by (simpl; congruence).
      destruct HI as [? ? H0 H1 H2 H3 H4 H5 H6 H7 H8|? ? ? H1 H2 H3 H4|? ? ? H1 H2 H3 H4 H5]; rewrite En in *.
      * by apply first_up.
      * by apply first_nothing.
      * by eapply first_half.
    + destruct HS as (?&?&?), HS' as (?&?&?). split_and!; congruence.
    + intros t Ht. rewrite Etab'. simpl. rewrite Etab. by apply Htab.
  - destruct Hreg1 as (a & o & H1 & H2 & H3). unfold UpdateRule, onLimiter. rewrite H1. simpl. rewrite H3. simpl.
    rewrite Hn. split_and!; try done. apply first_nothing; [done..|congruence].
Qed.

(** The snapshots a controller is given one after the other, each with the
    users and the alive list of its time. *)
Fixpoint applyAll (l : list (NodeInfo B * list UserInfo * gmap Z Z)) : M (list (outcome unit)) := λ c w,
  match l with
  | [] => (Ret [], c, w)
  | (n, us, alive) :: l =>
      let '(r, c, w) := applyNode n (Some us) alive c w in
      match applyAll l c w with
      | (Ret rs, c, w) => (Ret (r :: rs), c, w)
      | x => x
      end
  end.

(** A start that failed after the node was added to the core (its users were refused) is final: the controller does not take the node out again, so every later configuration with the node's tag, whatever it says and whatever users it comes with, is refused because the tag exists, and the node never counts as started. *)
Theorem failed_start_sticks n users alive c w l :
  started c = false → nodeAdded c = false → Forall (λ x, firstTag c x.1.1 = firstTag c n) l →
  let '(r, c1, w1) := startWith n users alive c w in
  r ≠ Ret tt → nodeAdded c1 = true →
  let '(rs, c2, w2) := applyAll l c1 w1 in
  (∃ outcomes, rs = Ret outcomes ∧ Forall (.≠ Ret tt) outcomes) ∧ started c2 = false.
Proof.
  intros Hs Ha Hl. pose proof (startWith_spec n users alive c w) as H1.
  destruct (startWith n users alive c w) as [[r c1] w1]. destruct H1 as (E1 & HS & _). intros Hr Ha1.
  assert (started c1 = false ∧ is_Some (nodes (core w1) !! firstTag c n)) as [Hs1 Hin].
  { inversion E1 as [|? ? ? H1 H2 H3 H4|? ? ? H1 H2 H3 H4 H5]; subst; [done|congruence|]. split; [congruence|].
    destruct (nodes (core w1) !! firstTag c n); [by eexists|done]. }
  clear E1 Hr Ha1. revert c1 w1 HS Hs1 Hin. induction Hl as [|[[n' us] al] l Ht Hl IH]; intros c1 w1 HS Hs1 Hin; simpl.
  { split; [by eexists|done]. }
  unfold applyNode. rewrite bind_eq. cbn [get]. rewrite Hs1, bind_eq. cbn [startUsers mret M_ret fst snd].
  pose proof (startWith_spec n' us (Some al) c1 w1) as H2.
  destruct (startWith n' us (Some al) c1 w1) as [[r2 c2] w2]. destruct H2 as (E2 & HS2 & _).
  assert (firstTag c1 n' = firstTag c n) as Et by (by rewrite (firstTag_same c c1)).
  assert (r2 ≠ Ret tt ∧ started c2 = false ∧ is_Some (nodes (core w2) !! firstTag c n)) as (Hr2 & Hs2 & Hin2).
  { inversion E2 as [? ? _ H1|? ? ? H1 H2 H3 H4|? ? ? H1]; subst; rewrite ?Et in *;
      [rewrite H1 in Hin; by destruct Hin| |rewrite H1 in Hin; by destruct Hin].
    split_and!; [done|congruence|by rewrite H4]. }
  assert (sameNode c c2) as HSc by (destruct HS as (?&?&?), HS2 as (?&?&?); split_and!; congruence).
  specialize (IH c2 w2 HSc Hs2 Hin2). destruct (applyAll l c2 w2) as [[rs c3] w3].
  destruct IH as [(outs & -> & Hf) Hs3]. split; [|done]. eexists. split; [done|]. by constructor.
Qed.

End Reload.
End NodeReload.
