(* ===== verification/NodeFrames.v ===== *)
(** * What a controller leaves alone (src/node/controller.go, reload.go)

    The core runs many nodes and the limiters of all of them are in one table,
    by tag.  Each operation of a controller touches only entries under the
    controller's own tags, and the tags of controllers of different protocols
    are different.  The last part is what a controller runs once it has applied
    its entry of a snapshot. *)

From S2P Require Import Prelude GoStrings Limiter NodeUsers NodeController NodeReload.
From Stdlib Require Import String Ascii.

Module NodeFrames.
Import Limiter NodeController NodeReload.

(** ** Tags *)

(** The last character that is not a digit, and the digits after it. *)
Fixpoint tailOf (s : string) : option (ascii * string) :=
  match s with
  | EmptyString => None
  | String c s => match tailOf s with Some r => Some r | None => if is_digit c then None else Some (c, s) end
  end.

Lemma tailOf_digits s : all_chars is_digit s = true → tailOf s = None.
Proof. induction s as [|c s IH]; [done|]. simpl. intros [Hc Hs]%andb_prop. by rewrite (IH Hs), Hc. Qed.

Lemma tailOf_app a x b : is_digit x = false → all_chars is_digit b = true → tailOf (a +:+ String x b) = Some (x, b).
Proof. intros Hx Hb. induction a as [|c a IH]; simpl; [by rewrite tailOf_digits, Hx|by rewrite IH]. Qed.

Section Frames.
Context {S B : Type} `{!EqDecision B} `{!Core S B} `{!Host S} `{!CoreLaws S B}.
Implicit Types (c : @Controller B) (w : @World S) (n : NodeInfo B).

(** The tags a controller can have. *)
Definition tagClass c (t : string) : Prop := ∃ n, t = firstTag c n.

(** Controllers of one node: the same Control and options. *)
Definition owner c c' : Prop := apiHost c' = apiHost c ∧ options c' = options c.

Definition protocol_id (z : Z) : Prop := 0 ≤ z < 2 ^ 64.

Lemma tail_extra s z : 0 ≤ z → tailOf (s +:+ ("#" +:+ format_uint z)) = Some ("#"%char, format_uint z).
Proof. intros Hz. change ("#" +:+ format_uint z) with (String "#" (format_uint z)). apply tailOf_app; [done|]. by apply format_uint_shape. Qed.

Lemma tail_plain s z : ∃ x b, tailOf (s +:+ (":" +:+ itoa z)) = Some (x, b) ∧ x ≠ "#"%char.
Proof.
  unfold itoa. destruct (Z.ltb_spec z 0).
  - exists "-"%char, (format_uint (- z)). split; [|done].
    change (":" +:+ ("-" +:+ format_uint (- z))) with (":" +:+ String "-" (format_uint (- z))).
    rewrite <- app_assoc_str. apply tailOf_app; [done|]. apply format_uint_shape. lia.
  - exists ":"%char, (format_uint z). split; [|done].
    change (":" +:+ format_uint z) with (String ":" (format_uint z)). apply tailOf_app; [done|]. by apply format_uint_shape.
Qed.

Lemma buildNodeTag_extra c n : protocolID c ≠ 0 → 0 ≤ protocolID c →
  tailOf (buildNodeTag c n) = Some ("#"%char, format_uint (protocolID c)).
Proof.
  intros Hne Hp. unfold buildNodeTag, protocolTagSuffix. rewrite (proj2 (Z.eqb_neq _ _)) by done.
  rewrite <- !app_assoc_str. rewrite (app_assoc_str _ "#"). by apply tail_extra.
Qed.

Lemma buildNodeTag_plain c n : protocolID c = 0 → ∃ x b, tailOf (buildNodeTag c n) = Some (x, b) ∧ x ≠ "#"%char.
Proof.
  intros Hp. unfold buildNodeTag, protocolTagSuffix. rewrite Hp. cbn [Z.eqb]. rewrite app_nil_r_str.
  rewrite <- !app_assoc_str. rewrite (app_assoc_str _ ":"). apply tail_plain.
Qed.

(** Two controllers of one node with different protocols have different tags. *)
Lemma tagClass_distinct c c' t : owner c c' → protocol_id (protocolID c) → protocol_id (protocolID c') →
  tagClass c t → tagClass c' t → protocolID c = protocolID c'.
Proof.
  intros [Eh Eo] Hp Hp' [n ->] [n' E]. unfold protocol_id in *. unfold firstTag, chooseTag in E. simpl in E. rewrite Eo in E.
  destruct (decide (protocolID c = protocolID c')) as [|Hne]; [done|]. exfalso.
  destruct (String.eqb (Name (options c)) "").
  - apply (f_equal tailOf) in E.
    destruct (decide (protocolID c = 0)) as [E0|H0], (decide (protocolID c' = 0)) as [E0'|H0'].
    + congruence.
    + destruct (buildNodeTag_plain c n E0) as (x & b & Ex & Hx). rewrite Ex, buildNodeTag_extra in E by lia. congruence.
    + destruct (buildNodeTag_plain c' n' E0') as (x & b & Ex & Hx). rewrite Ex, buildNodeTag_extra in E by lia. congruence.
    + rewrite !buildNodeTag_extra in E by lia. simplify_eq. apply Hne. by apply format_uint_inj.
  - apply (inj (String.append (Name (options c)))) in E.
    unfold protocolTagSuffix in E. destruct (Z.eqb_spec (protocolID c) 0), (Z.eqb_spec (protocolID c') 0); try (done || congruence).
    apply (inj (String.append "#")) in E. apply Hne. by apply format_uint_inj.
Qed.

Lemma tagClass_same c c' t : sameNode c c' → tagClass c' t ↔ tagClass c t.
Proof. intros HS. unfold tagClass. by setoid_rewrite (firstTag_same c c' _ HS). Qed.

Lemma tagClass_tagFor c n : tagClass c (tag c) → tagClass c (tagFor c n).
Proof.
  intros Ht. unfold tagFor. destruct (String.eqb (Name (options c)) "") eqn:E; [|done].
  exists n. unfold firstTag, chooseTag. by rewrite E.
Qed.

(** ** Frames *)

(** Outside the tags of [P] nothing changes, and no limiter is freed. *)
Record frame (P : string → Prop) w w' : Prop := mkFrame {
  f_nodes : ∀ t, ¬ P t → nodes (core w') !! t = nodes (core w) !! t;
  f_table : ∀ t, ¬ P t → table w' !! t = table w !! t;
  f_limiters : dom (limiters w) ⊆ dom (limiters w')
}.

#[global] Instance frame_refl P : Reflexive (frame P).
Proof. by split. Qed.
#[global] Instance frame_trans P : Transitive (frame P).
Proof.
  intros w1 w2 w3 [] []. split; [intros t Ht..|set_solver].
  - by rewrite f_nodes1, f_nodes0.
  - by rewrite f_table1, f_table0.
Qed.

Lemma frame_mono (P Q : string → Prop) w w' : (∀ t, P t → Q t) → frame P w w' → frame Q w w'.
Proof. intros HPQ []. split; auto. Qed.

(** What a controller placed under a tag keeps when others move. *)
Lemma Placed_frame (P : string → Prop) c w w' : frame P w w' → ¬ P (tag c) → Placed c w → Placed c w'.
Proof.
  intros [Hn Ht Hl] HP ((a & o & H1 & H2 & H3) & old & Hi & Hc & Htag & Hnode). split.
  - assert (is_Some (limiters w' !! a)) as [o' Ho'].
    { apply elem_of_dom, Hl, elem_of_dom. by eexists. }
    exists a, o'. by rewrite Ht.
  - exists old. by rewrite Hn.
Qed.

(** Code that leaves the table of limiters alone. *)
Definition quiet {A} (m : M A) : Prop := ∀ c w,
  table (m c w).2 = table w ∧ dom (limiters w) ⊆ dom (limiters (m c w).2).

Lemma quiet_bind {A A'} (m : M A) (f : A → M A') : quiet m → (∀ a, quiet (f a)) → quiet (m ≫= f).
Proof.
  intros Hm Hf c w. rewrite bind_eq. destruct (Hm c w) as [H1 H2]. destruct (m c w) as [[[a|e|] c'] w']; simpl in *; [|done..].
  destruct (Hf a c' w') as [H3 H4]. split; [congruence|set_solver].
Qed.

Lemma quiet_ret {A} (a : A) : quiet (mret a).
Proof. by split. Qed.
Lemma quiet_fail {A} e : quiet (fail e : M A).
Proof. by split. Qed.
Lemma quiet_get : quiet get.
Proof. by split. Qed.
Lemma quiet_modify f : quiet (modify f).
Proof. by split. Qed.
Lemma quiet_call {E} (f : S → S * E) : quiet (call f).
Proof. intros c w. by rewrite call_eq. Qed.
Lemma quiet_onLimiter f : quiet (onLimiter f).
Proof.
  intros c w. unfold onLimiter. repeat case_match; simplify_eq/=; split; try done. rewrite dom_insert. set_solver.
Qed.
Lemma quiet_cert n : quiet (whenTls n requestCert).
Proof. intros c w. destruct (requestCert_spec n c w) as (r & s & -> & _). done. Qed.
Lemma quiet_health : quiet reportRuntimeHealth.
Proof. by split. Qed.
Lemma quiet_catch {A} (m : M A) : quiet m → quiet (catch m).
Proof. intros Hm c w. rewrite catch_eq. specialize (Hm c w). by destruct (m c w) as [[[a|e|] c'] w']. Qed.

Lemma quiet_retryAdd ds t n o : ∀ e, quiet (retryAdd ds t n o e).
Proof.
  induction ds as [|d ds IH]; intros e; simpl; [apply quiet_ret|].
  destruct e as [e|]; [|apply quiet_ret]. destruct (isAddressInUse e); [|apply quiet_ret].
  apply quiet_bind; [by split|]. intros _. apply quiet_bind; [apply quiet_call|]. intros e'. apply IH.
Qed.

End Frames.

Create HintDb quiet.
#[export] Hint Resolve quiet_ret quiet_fail quiet_get quiet_modify quiet_call quiet_onLimiter quiet_cert quiet_health
  quiet_catch quiet_retryAdd : quiet.

(** Splits code into its steps. *)
Ltac quiet :=
  repeat (first [ apply quiet_bind; [|intros ?] | progress eauto with quiet | case_match | progress simpl ]).

Section Steps.
Context {S B : Type} `{!EqDecision B} `{!Core S B} `{!Host S} `{!CoreLaws S B}.
Implicit Types (c : @Controller B) (w : @World S) (n : NodeInfo B).

Lemma quiet_addCoreNode t n : quiet (addCoreNodeLocked t n).
Proof. unfold addCoreNodeLocked. quiet. Qed.

Lemma quiet_addNodeUsers n : quiet (addNodeUsers n).
Proof. unfold addNodeUsers. quiet. Qed.

Lemma quiet_deleteOld : quiet (S := S) (B := B) deleteOld.
Proof. unfold deleteOld. quiet. Qed.

Lemma quiet_startInCore n : quiet (startInCore n).
Proof. unfold startInCore, startTasks. quiet. Qed.

(** The tags a start of [n] touches. *)
Definition own c n (t : string) : Prop := t = tag c ∨ t = tagFor c n.

Lemma delete_frame {A} (m m' : gmap string A) k t : delete k m' = delete k m → t ≠ k → m' !! t = m !! t.
Proof. intros E Ht. by rewrite <- (lookup_delete_ne m' k t), E, lookup_delete_ne by done. Qed.

Lemma startLimiter_table n c w :
  (∀ t, ¬ own c n t → table (startLimiter n c w).2 !! t = table w !! t) ∧
  dom (limiters w) ⊆ dom (limiters (startLimiter n c w).2).
Proof.
  unfold startLimiter, own, tagFor. rewrite bind_eq. cbn [get]. destruct (String.eqb (Name (options c)) "").
  - rewrite bind_eq. cbn [modify]. rewrite bind_eq. cbn [modifyWorld]. rewrite bind_eq. unfold AddLimiter. simpl.
    split; [|rewrite dom_insert; set_solver]. intros t Ht. rewrite lookup_insert_ne, lookup_delete_ne by naive_solver. done.
  - destruct (aliveMap c) as [al|]; [|done].
    destruct (quiet_bind (setAliveList al) (λ _, modify (set_alive (Some al) true)) (quiet_onLimiter _) (λ _, quiet_modify _) c w)
      as [E H]. by rewrite E.
Qed.

Lemma startNode_frame n c w : registered c w → compile n → frame (own c n) w (startNodeLocked n c w).2.
Proof.
  intros Hreg Hn. pose proof (startNodeLocked_spec n c w Hreg Hn) as Hs.
  pose proof (startLimiter_table n c w) as [Ht Hd].
  assert ((∀ t, ¬ own c n t → table (startNodeLocked n c w).2 !! t = table w !! t) ∧
          dom (limiters w) ⊆ dom (limiters (startNodeLocked n c w).2)) as [Ht' Hd'].
  { unfold startNodeLocked. rewrite bind_eq. destruct (startLimiter n c w) as [[[[]|e|] c1] w1]; simpl in *; [|done..].
    match goal with |- context [?m c1 w1] => assert (quiet m) as Hq end.
    { unfold UpdateRule. quiet. }
    destruct (Hq c1 w1) as [E1 E2]. split; [|set_solver]. intros t Htt. rewrite E1. by apply Ht. }
  destruct (startNodeLocked n c w) as [[r c'] w']. destruct Hs as (E & _). split; [|done..].
  intros t Htt. eapply delete_frame; [by apply (startEnds_frame n c w r c' w')|]. unfold own in Htt. naive_solver.
Qed.

Lemma own_keeps c c' n t : keeps c c' → tag c' = tag c → own c' n t ↔ own c n t.
Proof. intros K Ht. unfold own. rewrite Ht, (tagFor_keeps c c' n K) by (by left). done. Qed.

Lemma replace_frame newN c w : Placed c w → compile newN → frame (own c newN) w (replaceNodeLocked newN c w).2.
Proof.
  intros (Hreg & old & Hinfo & Hold & Htag & Hnode) Hnew. unfold replaceNodeLocked. rewrite bind_eq. cbn [get].
  rewrite bind_eq, Hinfo. pose proof (deleteOld_spec c w) as Hdel.
  destruct (deleteOld c w) as [[r0 c0] w0]. destruct Hdel as (K0 & Et0 & El0 & Etab0 & Elim0 & Hdel).
  { intros En. rewrite En in Hnode. by destruct (nodes (core w) !! tag c). }
  assert (delete (tag c) (nodes (core w0)) = delete (tag c) (nodes (core w))) as Ed.
  { destruct r0 as [[]|e|]; [destruct Hdel as [_ ->]; by rewrite delete_delete_eq|by destruct Hdel|done]. }
  assert (frame (own c newN) w w0) as F0.
  { split; [|by rewrite Etab0|by rewrite Elim0]. intros t Ht. eapply delete_frame; [done|]. unfold own in Ht. naive_solver. }
  destruct r0 as [[]|e|]; [|done..]. simpl. clear Hdel. trans w0; [done|].
  assert (registered c0 w0) as Hreg0.
  { destruct Hreg as (a & o & H1 & H2 & H3). exists a, o. rewrite El0, Et0, Etab0, Elim0. done. }
  pose proof (startNode_frame newN c0 w0 Hreg0 Hnew) as F1. pose proof (startNodeLocked_spec newN c0 w0 Hreg0 Hnew) as H1.
  unfold startOrRestore. rewrite bind_eq, catch_eq.
  destruct (startNodeLocked newN c0 w0) as [[r1 c1] w1]. destruct H1 as (E1 & K1 & T1 & R1 & _). simpl in F1.
  assert (frame (own c newN) w0 w1) as F1' by (eapply frame_mono; [|exact F1]; intros t; by apply (own_keeps c c0 newN t K0 Et0)).
  destruct r1 as [[]|e|]; simpl; [done| |done]. rewrite bind_eq, catch_eq.
  pose proof (startNode_frame old c1 w1 R1 Hold) as F2.
  destruct (startNodeLocked old c1 w1) as [[r2 c2] w2]. simpl in F2.
  assert (frame (own c newN) w1 w2) as F2'.
  { eapply frame_mono; [|exact F2]. intros t [-> | ->].
    - right. rewrite T1. apply tagFor_keeps; [done|by left].
    - unfold own, tagFor. rewrite (keeps_tag c c1 old) by (by trans c0). rewrite (k_options _ _ K1), (k_options _ _ K0).
      destruct (String.eqb (Name (options c)) "") eqn:En.
      + left. rewrite Htag. unfold tagFor. by rewrite En.
      + left. rewrite T1. unfold tagFor. by rewrite (k_options _ _ K0), En. }
  trans w1; [done|]. by destruct r2 as [[]|e2|].
Qed.

(** A controller that runs a configuration. *)
Definition Runs n c w : Prop := started c = true ∧ nodeAdded c = true ∧ info c = Some n ∧ Placed c w ∧ tagClass c (tag c).

(** One that can be given a snapshot. *)
Definition Ready c w : Prop := started c = true → Placed c w ∧ tagClass c (tag c).

Lemma Runs_core n c w : Runs n c w → fst <$> nodes (core w) !! tag c = Some n.
Proof. intros (_ & Ha & Hi & (_ & old & Ho & _ & _ & Hn) & _). rewrite Ha in Hn. congruence. Qed.

Lemma Runs_frame (P : string → Prop) n c w w' : frame P w w' → (∀ t, tagClass c t → ¬ P t) → Runs n c w → Runs n c w'.
Proof. intros F HP (H1 & H2 & H3 & H4 & H5). split_and!; try done. eapply Placed_frame; [done|by apply HP|done]. Qed.

Lemma Ready_frame (P : string → Prop) c w w' : frame P w w' → (∀ t, tagClass c t → ¬ P t) → Ready c w → Ready c w'.
Proof.
  intros F HP HR Hs. destruct (HR Hs) as [H1 H2]. split; [|done]. eapply Placed_frame; [done|by apply HP|done].
Qed.

Lemma Runs_Ready n c w : Runs n c w → Ready c w.
Proof. by intros (_ & _ & _ & ? & ?) _. Qed.

Lemma own_class c n t : tagClass c (tag c) → own c n t → tagClass c t.
Proof. intros Ht [-> | ->]; [done|]. by apply tagClass_tagFor. Qed.

(** A replacement that succeeds had rules that compile. *)
Lemma UpdateRule_panics n c w : registered c w → forallb compiles (Regexp (NRules n)) = false →
  UpdateRule (NRules n) c w = (Panic, c, w).
Proof.
  intros (a & o & H1 & H2 & H3) Hn. unfold UpdateRule, onLimiter. rewrite H1. simpl. rewrite H3. simpl. by rewrite Hn.
Qed.

Lemma startNode_compiles n c w : registered c w → compile n ∨ (startNodeLocked n c w).1.1 = Panic.
Proof.
  intros Hreg. destruct (forallb compiles (Regexp (NRules n))) eqn:Hn; [by left|right].
  unfold startNodeLocked. rewrite bind_eq.
  destruct (startLimiter_spec n c w Hreg) as (c1 & w1 & -> & _ & _ & Hreg1 & _). by rewrite bind_eq, UpdateRule_panics.
Qed.

Lemma replace_compiles n c w : Placed c w → (replaceNodeLocked n c w).1.1 = Ret tt → compile n.
Proof.
  intros (Hreg & old & Hinfo & _ & _ & Hnode). unfold replaceNodeLocked. rewrite bind_eq. cbn [get]. rewrite bind_eq.
  pose proof (deleteOld_spec c w) as Hdel. destruct (deleteOld c w) as [[r0 c0] w0].
  destruct Hdel as (_ & Et0 & El0 & Etab0 & Elim0 & Hdel).
  { intros En. rewrite En in Hnode. by destruct (nodes (core w) !! tag c). }
  destruct r0 as [[]|e|]; [|done..].
  destruct (startNode_compiles n c0 w0) as [|Hp]; [|done|].
  { destruct Hreg as (a & o & H1 & H2 & H3). exists a, o. rewrite El0, Et0, Etab0, Elim0. done. }
  unfold startOrRestore. rewrite bind_eq, catch_eq. destruct (startNodeLocked n c0 w0) as [[r c1] w1]. simpl in Hp. by subst.
Qed.

(** A controller that has been given its entry: it runs it, it is the same
    controller, and only its own tags changed. *)
Definition Applied n c c' w w' : Prop :=
  Runs n c' w' ∧ sameNode c c' ∧ nodeType c' = nodeType c ∧ nodeID c' = nodeID c ∧ frame (tagClass c) w w'.

(** The members of a controller that its place in the core comes from. *)
Definition samePlace c c' : Prop :=
  sameNode c c' ∧ tag c' = tag c ∧ limiter c' = limiter c ∧ nodeAdded c' = nodeAdded c ∧ info c' = info c.

Lemma Placed_same c c' w : samePlace c c' → Placed c w → Placed c' w.
Proof.
  intros ((Eh & Ep & Eo) & Et & El & Ea & Ei) ((a & o & R1 & R2 & R3) & old & Ho & Hc & Htf & Hn). split.
  - exists a, o. by rewrite El, Et.
  - exists old. rewrite Ei, Ea, Et. split_and!; try done. rewrite Htf.
    unfold tagFor, buildNodeTag, protocolTagSuffix. by rewrite Eo, Eh, Ep, Et.
Qed.

Lemma reconcile_ok n c w c' w' : started c = true → Placed c w → tagClass c (tag c) →
  reconcileLocked (Some n) None None c w = (Ret tt, c', w') → Applied n c c' w w'.
Proof.
  intros Hs HP Ht. unfold reconcileLocked. rewrite bind_eq. cbn [get].
  destruct (nodeAdded c && nodeConfigEqual (info c) (Some n)) eqn:E.
  - rewrite bind_eq. cbn [mret M_ret]. rewrite bind_eq. cbn [reportRuntimeHealth modifyWorld mret M_ret]. intros [= <- <-].
    apply andb_prop in E as [Ea Ei]. unfold nodeConfigEqual in Ei. destruct (info c) as [i|] eqn:Einfo; [|done].
    apply bool_decide_eq_true in Ei as ->. split; [|by split_and!]. by split_and!.
  - rewrite bind_eq. cbn [modify]. rewrite bind_eq. cbn [modify]. rewrite bind_eq.
    pose proof (replace_compiles n c w HP) as Hn.
    destruct (replaceNodeLocked n c w) as [[r c1] w1] eqn:Er. destruct r as [[]|e|]; [|done..].
    specialize (Hn eq_refl). pose proof (replace_spec n c w HP Hn) as Hsp. pose proof (replace_frame n c w HP Hn) as F.
    rewrite Er in Hsp, F. simpl in F. destruct Hsp as (((H1 & H2 & H3) & H4 & H5 & H6) & _ & _ & Ht1 & Hi & Ha & _ & HP1).
    rewrite bind_eq. cbn [modify]. intros E'.
    assert (samePlace c1 c' ∧ nodeType c' = nodeType c1 ∧ nodeID c' = nodeID c1 ∧ started c' = started c1 ∧ w' = w1)
      as (HS1 & Ety & Eid & Es & ->).
    { unfold modify in E'. injection E' as <- <-. repeat case_match; by split_and!. }
    pose proof HS1 as ((Eh & Ep & Eo) & Et & El & Ea & Ei).
    assert (sameNode c c') as HS by (split_and!; congruence).
    assert (tagClass c (tag c')) as Htc by (rewrite Et, Ht1; by apply tagClass_tagFor).
    split_and!; try done; [|congruence|congruence|].
    + split_and!; [congruence..|by eapply Placed_same|by apply (tagClass_same c c')].
    + eapply frame_mono; [|exact F]. intros t. by apply own_class.
Qed.

Lemma startWith_ok n users al c w c' w' : startWith n users al c w = (Ret tt, c', w') → Applied n c c' w w'.
Proof.
  intros E. pose proof (startWith_spec n users al c w) as Hs. rewrite E in Hs.
  destruct Hs as (Hf & HS & Et & _ & Ety & Eid & Htab).
  assert (dom (limiters w) ⊆ dom (limiters w')) as Hd.
  { revert E. unfold startWith. rewrite bind_eq.
    destruct (startSetup_spec n users al c w) as (c1 & w1 & Es & _).
    assert (dom (limiters w) ⊆ dom (limiters w1)) as Hd1.
    { assert (w1 = (startSetup n users al c w).2) as -> by (by rewrite Es).
      unfold startSetup, addHook, addLimiter. rewrite bind_eq. cbn [modify]. rewrite bind_eq, bind_eq. cbn [get].
      rewrite bind_eq. cbn [modify]. rewrite bind_eq. unfold AddLimiter. simpl. rewrite dom_insert. set_solver. }
    rewrite Es. match goal with |- ?m c1 w1 = _ → _ => assert (quiet m) as Hq end.
    { unfold UpdateRule. quiet. }
    intros E. destruct (Hq c1 w1) as [_ Hd2]. rewrite E in Hd2. set_solver. }
  inversion Hf as [? ? Hn H1 H2 H3 H4 H5 H6 H7 H8| |]; subst; [|done].
  assert (tagClass c (tag c')) as Htc by (rewrite Et; by eexists).
  assert (tag c' = tagFor c' n) as Ht'.
  { unfold tagFor. destruct (String.eqb (Name (options c')) "") eqn:En; [|done].
    rewrite Et, <- (firstTag_same c c' n HS). unfold firstTag, chooseTag. by rewrite En. }
  split_and!; try done.
  - split_and!; try done; [|by apply (tagClass_same c c')]. split; [done|]. exists n. split_and!; try done.
    by rewrite H3, H8, Et, lookup_insert_eq.
  - split; [| |done].
    + intros t Htt. rewrite H8, lookup_insert_ne; [done|]. intros <-. apply Htt. by eexists.
    + intros t Htt. apply Htab. intros ->. apply Htt. by eexists.
Qed.

Lemma applyNode_ok n cur al c w c' w' : Ready c w → applyNode n cur al c w = (Ret tt, c', w') → Applied n c c' w w'.
Proof.
  intros HR. unfold applyNode. rewrite bind_eq. cbn [get]. destruct (started c) eqn:Es.
  - destruct (HR Es). by apply reconcile_ok.
  - unfold startUsers. rewrite bind_eq. destruct cur as [us|]; [|done]. cbn [mret M_ret fst snd]. apply startWith_ok.
Qed.

Lemma Close_spec c w : Placed c w →
  let '(r, c', w') := Close c w in
  r ≠ Panic ∧ (r = Ret tt → nodes (core w') !! tag c = None ∧ frame (.= tag c) w w').
Proof.
  intros (_ & old & _ & _ & _ & Hn). unfold Close. rewrite bind_eq. cbn [get].
  set (m1 := if limiterAdded c then _ else _). set (m3 := match logHook c with Some h => _ | None => _ end).
  assert (∀ c0 w0, ∃ c1 w1, m1 c0 w0 = (Ret tt, c1, w1) ∧ core w1 = core w0 ∧ limiters w1 = limiters w0 ∧
    (∀ t, t ≠ tag c → table w1 !! t = table w0 !! t)) as H1.
  { intros c0 w0. unfold m1. destruct (limiterAdded c); [|by eexists _, _].
    eexists _, _. split; [reflexivity|]. split_and!; try done. intros t Ht. simpl. by rewrite lookup_delete_ne. }
  assert (∀ c0 w0, ∃ c1 w1, m3 c0 w0 = (Ret tt, c1, w1) ∧ core w1 = core w0 ∧ limiters w1 = limiters w0 ∧ table w1 = table w0) as H3.
  { intros c0 w0. unfold m3. destruct (logHook c); by eexists _, _. }
  rewrite bind_eq. destruct (H1 c w) as (c1 & w1 & -> & E1 & E2 & E3). rewrite bind_eq. cbn [modify]. rewrite bind_eq.
  match goal with |- context [m3 ?x w1] => destruct (H3 x w1) as (c3 & w3 & -> & E4 & E5 & E6) end.
  destruct (nodeAdded c) eqn:Ea.
  - rewrite bind_eq, call_eq, bind_eq. cbn [modify]. pose proof (del_ok (tag c) (core w3)) as Hd.
    destruct (DelNode (tag c) (core w3)) as [s [e|]]; cbn [fst snd] in *; [done|]. specialize (Hd eq_refl).
    split; [done|]. intros _. simpl. rewrite Hd. split; [by rewrite lookup_delete_eq|]. split; simpl.
    + intros t Ht. by rewrite Hd, lookup_delete_ne, E4, E1.
    + intros t Ht. by rewrite E6, E3.
    + by rewrite E5, E2.
  - split; [done|]. intros _. rewrite E4, E1. split; [by destruct (nodes (core w) !! tag c)|]. split.
    + intros t Ht. by rewrite E4, E1.
    + intros t Ht. by rewrite E6, E3.
    + by rewrite E5, E2.
Qed.

End Steps.

End NodeFrames.
