(* ===== verification/NodeSnapshots.v ===== *)
(** * A node's data plane (src/node/dataplane.go, extra.go)

    What the control stream delivers, applied to the node's controllers: a
    configuration snapshot (each controller's entry, the extra controllers of
    its further protocols, the network plan, egress routes, priorities and exit
    policy), the users and the alive list; and how the node starts from the
    stored state or from the stream.  Controllers are those of NodeController.v,
    the state of the stream those of DataPlane.v and Users.v.  The forwarding
    and network components and the core's optional parts are the class
    [Members]; the decoding of the document is the class [Documents]. *)

From S2P Require Import Prelude GoStrings Limiter NodeUsers DataPlane Users NodeReports NodeController.
From Stdlib Require Import String.

Module NodeSnapshots.
Import Limiter DataPlane NodeController.

(** ** The configuration document *)

(** [snapshotRuntime] and [snapshotDocument]; an answer is its text, empty when
    the member is missing. *)
Record snapshotRuntime := mkRuntime { Default : string; Types : gmap string string; RProtocols : gmap string string }.
Record snapshotDocument := mkDocument { Kind : string; Protocols : list Z; Runtime : option snapshotRuntime }.

(** [json.Unmarshal] of the document, [panel.ParseNodeInfo], the decoding of a
    user's extra members, the SDK's kind of proxy nodes. *)
Class Documents (B : Type) := {
  decodeDocument : string → option snapshotDocument;
  ParseNodeInfo : string → Z → result (NodeInfo B);
  parseExtra : string → option (gmap string string);
  NodeKindProxy : string
}.

(** The parts of a snapshot that other components run, and whether the core
    implements their interfaces. *)
Class Members (S : Type) := {
  ForwardApply : ConfigSnapshot → S → S * option applyError;
  NetworkApply : ConfigSnapshot → S → S * option applyError;
  Egress : Type;
  ParseEgress : string → result Egress;
  EgressEmpty : Egress → bool;
  ApplyEgress : option (Egress → S → S * option string);
  QoS : Type;
  ParseQoS : string → result QoS;
  ApplyQoS : option (QoS → S → S * option string);
  ExitPolicy : Type;
  ParseExitPolicy : string → result ExitPolicy;
  ApplyExitPolicy : option (ExitPolicy → S → S * option string)
}.

Definition normalizeNodeType (nodeType : string) : string :=
  let normalized := to_lower (trim_space nodeType) in
  if existsb (String.eqb normalized) ["v2ray"; "vmess-aead"; "vmessaead"] then "vmess" else normalized.

(** An answer that is there: not empty and not null. *)
Definition answer (body : string) : bool := negb (String.eqb body "" || String.eqb body "null").

Section Plane.
Context {S B : Type} `{!EqDecision B} `{!Core S B} `{!Host S} `{!Documents B} `{!Members S}.
Abbreviation Controller := (@Controller B).
Abbreviation World := (@World S).
Abbreviation NodeInfo := (NodeInfo B).

Definition answerOf (runtime : snapshotRuntime) (nodeType : string) (protocolID : Z) : result string :=
  if negb (protocolID =? 0) then
    let body := default "" (RProtocols runtime !! format_uint protocolID) in
    if answer body then Ok body else Err "the node serves no such protocol (runtime.protocols)"
  else if negb (String.eqb (normalizeNodeType nodeType) "") then
    let body := default "" (Types runtime !! normalizeNodeType nodeType) in
    if answer body then Ok body else Err "the node serves no such configuration (runtime.types)"
  else if answer (Default runtime) then Ok (Default runtime)
  else Err "the configuration has no default answer (runtime.default)".

Definition nodeInfoFromSnapshot (snapshot : option ConfigSnapshot) (nodeType : string) (protocolID nodeID : Z) : result NodeInfo :=
  match snapshot with
  | None => Err "no configuration snapshot"
  | Some s =>
      match decodeDocument (ConfigJson s) with
      | None => Err "decode the configuration document"
      | Some d =>
          if negb (String.eqb (Kind d) "") && negb (String.eqb (Kind d) NodeKindProxy) then
            Err "this Agent runs proxy nodes"
          else match Runtime d with
               | None => Err "the configuration document has no runtime answers"
               | Some r => let? body := answerOf r nodeType protocolID in ParseNodeInfo body nodeID
               end
      end
  end.

(** The protocols past the first that the document answers. *)
Definition snapshotExtraProtocols (snapshot : option ConfigSnapshot) : result (list Z) :=
  match snapshot with
  | None => Ok []
  | Some s =>
      match decodeDocument (ConfigJson s) with
      | None => Err "decode the configuration document"
      | Some d =>
          match Runtime d, Protocols d with
          | Some r, first :: rest =>
              match RProtocols r !! format_uint first with
              | Some _ => Ok (filter (λ id, answer (default "" (RProtocols r !! format_uint id)) = true) rest)
              | None => Ok []
              end
          | _, _ => Ok []
          end
      end
  end.

(** ** State *)

(** [nodeDataPlane].  Extra controllers carry the number their online IPs are
    kept under; [alive] is the stream's alive list. *)
Record Plane := mkPlane {
  pNodeID : Z;
  controllers : list Controller;
  extras : gmap Z (nat * Controller);
  nextExtra : nat;
  hasCore : bool;
  hasForward : bool;
  hasNetwork : bool;
  startupUsers : option (list UserInfo);
  lastUsers : option (list UserInfo);
  alive : option (gmap Z Z);
  reports : NodeReports.NodePlane;
  awaiting : bool
}.

Definition set_controllers (p : Plane) (cs : list Controller) : Plane :=
  mkPlane (pNodeID p) cs (extras p) (nextExtra p) (hasCore p) (hasForward p) (hasNetwork p) (startupUsers p) (lastUsers p)
    (alive p) (reports p) (awaiting p).
Definition set_extras (p : Plane) (es : gmap Z (nat * Controller)) (next : nat) (r : NodeReports.NodePlane) : Plane :=
  mkPlane (pNodeID p) (controllers p) es next (hasCore p) (hasForward p) (hasNetwork p) (startupUsers p) (lastUsers p)
    (alive p) r (awaiting p).
Definition set_userLists (p : Plane) (startup last : option (list UserInfo)) : Plane :=
  mkPlane (pNodeID p) (controllers p) (extras p) (nextExtra p) (hasCore p) (hasForward p) (hasNetwork p) startup last
    (alive p) (reports p) (awaiting p).
Definition set_awaiting (p : Plane) (b : bool) : Plane :=
  mkPlane (pNodeID p) (controllers p) (extras p) (nextExtra p) (hasCore p) (hasForward p) (hasNetwork p) (startupUsers p)
    (lastUsers p) (alive p) (reports p) b.
Definition set_extra (p : Plane) (id : Z) (x : nat * Controller) : Plane :=
  set_extras p (<[id := x]> (extras p)) (nextExtra p) (reports p).

(** How a call of the applier ends: with the errors it joins, cancelled, or in
    a panic. *)
Inductive ends := Errs (errs : list applyError) | Cancelled | Crashed.

Definition plainError (e : string) : applyError := mkApplyError e false.
Definition InvalidConfig (e : string) : applyError := mkApplyError e true.

(** The error of one controller, joined to those of the others. *)
Definition join_error (r : outcome unit) (label : string) (invalid : bool) (x : ends) : ends :=
  match r, x with
  | Fail e, Errs es => Errs (mkApplyError (label +:+ ": " +:+ e) invalid :: es)
  | _, _ => x
  end.

Definition join_errors (es : list applyError) (x : ends) : ends :=
  match x with Errs es' => Errs (es ++ es') | _ => x end.

Definition label (c : Controller) : string :=
  if negb (String.eqb (tag c) "") then tag c
  else "node " +:+ itoa (nodeID c) +:+ " (" +:+
    (if negb (protocolID c =? 0) then "protocol " +:+ format_uint (protocolID c)
     else if String.eqb (nodeType c) "" then "default" else nodeType c) +:+ ")".

(** ** Users and alive lists of a start *)

(** [aliveMap]: the limiter's map. *)
Definition toAliveMap (m : gmap Z Z) : gmap Z Z := list_to_map ((λ x, (i64 x.1, x.2)) <$> map_to_list m).

Definition startupAliveList (p : Plane) : gmap Z Z := match alive p with Some a => toAliveMap a | None => ∅ end.

Definition startupUserList (p : Plane) : option (list UserInfo) := startupUsers p.

Definition currentUserList (p : Plane) : option (list UserInfo) :=
  match startupUserList p with Some us => Some us | None => lastUsers p end.

Definition setStartupUsers (users : list NodeUser) (p : Plane) : Plane :=
  let us := panelUsers parseExtra users in set_userLists p (Some us) (Some us).

Definition clearStartupUsers (p : Plane) : Plane := set_userLists p None (lastUsers p).

(** ** Applying a snapshot to the controllers *)

(** [applySnapshot]: what the controller's entry is, then what it does with
    it.  The flag says that the document is wrong. *)
Definition applySnapshot (snapshot : option ConfigSnapshot) (p : Plane) (c : Controller) (w : World)
  : outcome unit * bool * Controller * World :=
  match nodeInfoFromSnapshot snapshot (nodeType c) (protocolID c) (nodeID c) with
  | Err e => (Fail e, true, c, w)
  | Ok n => let '(r, c, w) := applyNode n (currentUserList p) (startupAliveList p) c w in (r, false, c, w)
  end.

(** The loop over the controllers of the configuration file; [ctx k] says
    whether the context has ended at the k-th look at it. *)
Fixpoint applyControllers (ctx : nat → bool) (k : nat) (snapshot : option ConfigSnapshot) (p : Plane) (cs : list Controller) (w : World)
  : ends * list Controller * World :=
  match cs with
  | [] => (Errs [], [], w)
  | c :: cs =>
      if ctx k then (Cancelled, c :: cs, w)
      else
        let '(r, invalid, c, w) := applySnapshot snapshot p c w in
        match r with
        | Panic => (Crashed, c :: cs, w)
        | _ =>
            let '(x, cs, w) := applyControllers ctx (Datatypes.S k) snapshot p cs w in
            (join_error r (label c) invalid x, c :: cs, w)
        end
  end.

(** ** Extra controllers *)

Definition expandingController (p : Plane) : option Controller :=
  match controllers p with
  | [c] => if String.eqb (normalizeNodeType (nodeType c)) "" then Some c else None
  | _ => None
  end.

Definition currentUsers (c : Controller) : list UserInfo := userList c.

Definition newExtraController (base : Controller) (protocolID : Z) : Controller :=
  NewController (nodeID base) (apiHost base) "" protocolID (options base).

(** The loop that closes the protocols that are gone. *)
Fixpoint closeGone (keep : list Z) (l : list (Z * (nat * Controller))) (p : Plane) (w : World) : list applyError * Plane * World :=
  match l with
  | [] => ([], p, w)
  | (id, (i, c)) :: l =>
      if bool_decide (id ∈ keep) then closeGone keep l p w
      else
        let p := set_extras p (delete id (extras p)) (nextExtra p) (NodeReports.forgetController i (reports p)) in
        let '(r, c, w) := Close c w in
        let '(es, p, w) := closeGone keep l p w in
        (match r with Fail e => plainError (label c +:+ ": " +:+ e) :: es | _ => es end, p, w)
  end.

Definition startExtra (snapshot : option ConfigSnapshot) (p : Plane) (base extra : Controller) (w : World)
  : outcome unit * bool * Controller * World :=
  match nodeInfoFromSnapshot snapshot "" (protocolID extra) (nodeID base) with
  | Err e => (Fail e, true, extra, w)
  | Ok n =>
      let users := default (currentUsers base) (startupUserList p) in
      let '(r, c, w) := startWith n users (Some (startupAliveList p)) extra w in (r, false, c, w)
  end.

(** The loop over the wanted protocols. *)
Fixpoint runWanted (ctx : nat → bool) (k : nat) (snapshot : option ConfigSnapshot) (base : Controller) (ids : list Z) (p : Plane) (w : World)
  : ends * Plane * World :=
  match ids with
  | [] => (Errs [], p, w)
  | id :: ids =>
      if ctx k then (Cancelled, p, w)
      else match extras p !! id with
      | Some (i, c) =>
          let '(r, invalid, c, w) := applySnapshot snapshot p c w in
          let p := set_extra p id (i, c) in
          match r with
          | Panic => (Crashed, p, w)
          | _ => let '(x, p, w) := runWanted ctx (Datatypes.S k) snapshot base ids p w in (join_error r (label c) invalid x, p, w)
          end
      | None =>
          let '(r, invalid, c, w) := startExtra snapshot p base (newExtraController base id) w in
          match r with
          | Panic => (Crashed, p, w)
          | Fail _ =>
              let '(_, c, w) := Close c w in
              let '(x, p, w) := runWanted ctx (Datatypes.S k) snapshot base ids p w in
              (join_error r (label c) invalid x, p, w)
          | Ret _ =>
              let p := set_extras p (<[id := (nextExtra p, c)]> (extras p)) (Datatypes.S (nextExtra p)) (reports p) in
              runWanted ctx (Datatypes.S k) snapshot base ids p w
          end
      end
  end.

(** [wanted]: none without an expanding controller. *)
Definition wantedProtocols (snapshot : option ConfigSnapshot) (p : Plane) : result (list Z) :=
  match expandingController p with Some _ => snapshotExtraProtocols snapshot | None => Ok [] end.

Definition reconcileExtras (ctx : nat → bool) (k : nat) (snapshot : option ConfigSnapshot) (p : Plane) (w : World) : ends * Plane * World :=
  match wantedProtocols snapshot p with
  | Err e => (Errs [InvalidConfig e], p, w)
  | Ok wanted =>
      let '(es, p, w) := closeGone wanted (map_to_list (extras p)) p w in
      match expandingController p with
      | Some base =>
          let '(x, p, w) := runWanted ctx k snapshot base wanted p w in
          (join_errors es x, p, w)
      | None => (Errs es, p, w)
      end
  end.

Fixpoint closeAll (l : list (nat * Controller)) (p : Plane) (w : World) : list string * Plane * World :=
  match l with
  | [] => ([], p, w)
  | (i, c) :: l =>
      let p := set_extras p (extras p) (nextExtra p) (NodeReports.forgetController i (reports p)) in
      let '(r, _, w) := Close c w in
      let '(es, p, w) := closeAll l p w in
      (match r with Fail e => e :: es | _ => es end, p, w)
  end.

Definition closeExtras (p : Plane) (w : World) : list string * Plane * World :=
  closeAll (map_to_list (extras p)).*2 (set_extras p ∅ (nextExtra p) (reports p)) w.

(** ** The other members of a snapshot *)

(** The core the members go to: that of the first controller that has one. *)
Definition coreOf (p : Plane) : bool := hasCore p && negb (bool_decide (controllers p = [])).

Definition applyEgress (s : ConfigSnapshot) (p : Plane) (w : World) : option applyError * World :=
  match ParseEgress (ConfigJson s) with
  | Err e => (Some (plainError e), w)
  | Ok egress =>
      if negb (coreOf p) then
        (if EgressEmpty egress then None else Some (plainError "egress routes: the node has no core"), w)
      else match ApplyEgress with
      | None => (if EgressEmpty egress then None else Some (plainError "egress routes are not supported"), w)
      | Some apply =>
          let '(s, e) := apply egress (core w) in
          ((λ e, plainError ("egress routes: " +:+ e)) <$> e, set_core w s)
      end
  end.

Definition applyQoS (s : ConfigSnapshot) (p : Plane) (w : World) : option applyError * World :=
  match ParseQoS (ConfigJson s) with
  | Err e => (Some (plainError e), w)
  | Ok qos =>
      match coreOf p, ApplyQoS with
      | true, Some apply => let '(s, e) := apply qos (core w) in ((λ e, plainError ("traffic priorities: " +:+ e)) <$> e, set_core w s)
      | _, _ => (None, w)
      end
  end.

Definition applyExitPolicy (s : ConfigSnapshot) (p : Plane) (w : World) : option applyError * World :=
  match ParseExitPolicy (ConfigJson s) with
  | Err e => (Some (plainError e), w)
  | Ok policy =>
      match coreOf p, ApplyExitPolicy with
      | true, Some apply => let '(s, e) := apply policy (core w) in ((λ e, plainError ("exit policy: " +:+ e)) <$> e, set_core w s)
      | _, _ => (None, w)
      end
  end.

Definition applyNetwork (s : ConfigSnapshot) (p : Plane) (w : World) : option applyError * World :=
  if hasNetwork p then let '(s, e) := NetworkApply s (core w) in (e, set_core w s) else (None, w).

(** The members after the controllers, in the order of the code. *)
Definition members : list (ConfigSnapshot → Plane → World → option applyError * World) :=
  [applyNetwork; applyEgress; applyQoS; applyExitPolicy].

Definition applyMembers (s : ConfigSnapshot) (p : Plane) (w : World) : list applyError * World :=
  foldl (λ x f, let '(es, w) := x in let '(e, w) := f s p w in (es ++ option_list e, w)) ([], w) members.

Definition ApplyConfig (ctx : nat → bool) (s : ConfigSnapshot) (p : Plane) (w : World) : ends * Plane * World :=
  let '(e, w) := if hasForward p then let '(s', e) := ForwardApply s (core w) in (e, set_core w s') else (None, w) in
  match e with
  | Some e => (Errs [e], p, w)
  | None =>
      match applyControllers ctx 0 (Some s) p (controllers p) w with
      | (Errs es, cs, w) =>
          match reconcileExtras ctx (List.length cs) (Some s) (set_controllers p cs) w with
          | (Errs es', p, w) => let '(es'', w) := applyMembers s p w in (Errs (es ++ es' ++ es''), p, w)
          | (Cancelled, p, w) =>
              let '(es'', w) := applyMembers s p w in (Errs (es ++ plainError "context canceled" :: es''), p, w)
          | (Crashed, p, w) => (Crashed, p, w)
          end
      | (x, cs, w) => (x, set_controllers p cs, w)
      end
  end.

(** ** Users and alive lists *)

(** [allControllers]: those of the configuration file and the extras, in the
    order of their protocols. *)
Definition extraIds (p : Plane) : list Z := merge_sort Z.le (map_to_list (extras p)).*1.
Definition allControllers (p : Plane) : list Controller :=
  controllers p ++ omap (λ id, snd <$> extras p !! id) (extraIds p).

(** A loop over [allControllers] that runs [f] on each. *)
Fixpoint eachController (ctx : nat → bool) (k : nat) (f : M unit) (cs : list Controller) (w : World) : ends * list Controller * World :=
  match cs with
  | [] => (Errs [], [], w)
  | c :: cs =>
      if ctx k then (Cancelled, c :: cs, w)
      else
        let '(r, c, w) := f c w in
        match r with
        | Panic => (Crashed, c :: cs, w)
        | _ => let '(x, cs, w) := eachController ctx (Datatypes.S k) f cs w in (join_error r (label c) false x, c :: cs, w)
        end
  end.

(** The controllers in the order of [allControllers], put back. *)
Definition putBack (p : Plane) (cs : list Controller) : Plane :=
  let n := List.length (controllers p) in
  let es := zip (extraIds p) (drop n cs) in
  set_extras (set_controllers p (take n cs))
    (foldr (λ x m, alter (λ y, (y.1, x.2)) x.1 m) (extras p) es) (nextExtra p) (reports p).

Definition ApplyUsers (ctx : nat → bool) (users : list NodeUser) (p : Plane) (w : World) : ends * Plane * World :=
  let us := panelUsers parseExtra users in
  let p := set_userLists p (startupUsers p) (Some us) in
  let '(x, cs, w) := eachController ctx 0 (applyStreamUsers us) (allControllers p) w in
  (x, putBack p cs, w).

(** A cancelled context ends the loop without an error. *)
Definition ApplyAlive (ctx : nat → bool) (list_ : gmap Z Z) (p : Plane) (w : World) : ends * Plane * World :=
  let '(x, cs, w) := eachController ctx 0 (applyStreamAlive (toAliveMap list_)) (allControllers p) w in
  (match x with Cancelled => Errs [] | _ => x end, putBack p cs, w).

Definition allStarted (p : Plane) : bool := forallb (λ c, started c) (controllers p).

(** What the extras never change: the controllers of the configuration file,
    and whether the node waits for its stream. *)
Definition fixedPart (p : Plane) : list Controller * bool := (controllers p, awaiting p).

Lemma closeGone_fixed keep l : ∀ p w, fixedPart (closeGone keep l p w).1.2 = fixedPart p.
Proof.
  induction l as [|[id [i c]] l IH]; intros p w; simpl; [done|]. case_bool_decide; [apply IH|].
  destruct (Close c w) as [[r c1] w2]. match goal with |- context [closeGone keep l ?p1 w2] => pose proof (IH p1 w2) as E end.
  by destruct (closeGone keep l _ w2) as [[es p2] w3].
Qed.

Lemma runWanted_fixed ctx snapshot base ids : ∀ k p w,
  fixedPart (runWanted ctx k snapshot base ids p w).1.2 = fixedPart p.
Proof.
  induction ids as [|id ids IH]; intros k p w; simpl; [done|]. destruct (ctx k); [done|].
  destruct (extras p !! id) as [[i c]|].
  - destruct (applySnapshot snapshot p c w) as [[[r v] c1] w1].
    pose proof (IH (Datatypes.S k) (set_extra p id (i, c1)) w1) as E.
    destruct (runWanted _ _ _ _ _ _ _) as [[x p2] w2]. by destruct r.
  - destruct (startExtra snapshot p base _ w) as [[[r v] c1] w1]. destruct r as [[]|e|]; [by rewrite IH| |done].
    destruct (Close c1 w1) as [[r2 c2] w2]. pose proof (IH (Datatypes.S k) p w2) as E.
    by destruct (runWanted _ _ _ _ _ _ _) as [[x p2] w3].
Qed.

Lemma reconcileExtras_fixed ctx k snapshot p w : fixedPart (reconcileExtras ctx k snapshot p w).1.2 = fixedPart p.
Proof.
  unfold reconcileExtras. destruct (wantedProtocols snapshot p) as [ids|]; [|done].
  pose proof (closeGone_fixed ids (map_to_list (extras p)) p w) as E1.
  destruct (closeGone ids _ p w) as [[es p1] w1]. simpl in E1. destruct (expandingController p1) as [base|]; [|done].
  pose proof (runWanted_fixed ctx snapshot base ids k p1 w1) as E2.
  destruct (runWanted _ _ _ _ _ _ _) as [[x p2] w2]. simpl in *. congruence.
Qed.

Lemma ApplyConfig_awaiting ctx s p w : awaiting (ApplyConfig ctx s p w).1.2 = awaiting p.
Proof.
  unfold ApplyConfig. destruct (if hasForward p then _ else _) as [[e|] w0]; [done|].
  destruct (applyControllers _ _ _ _ _ _) as [[[es| |] cs] w1]; [|done..].
  pose proof (reconcileExtras_fixed ctx (List.length cs) (Some s) (set_controllers p cs) w1) as E.
  destruct (reconcileExtras _ _ _ _ _) as [[[es'| |] p2] w2]; simpl in E; [..|by injection E];
    destruct (applyMembers _ _ _); by injection E.
Qed.

End Plane.

End NodeSnapshots.
