(* ===== verification/NodeServing.v ===== *)
(** * What a node serves after a snapshot (src/node/dataplane.go)

    A node of the installer's configuration has one controller, which runs the
    first protocol of a snapshot, and an extra controller for each further
    one.  A snapshot applied without an error leaves the core running exactly
    the document's answers: the controller's own, one inbound per further
    protocol, and none of a protocol that is gone.  The end is a node in
    memory. *)

From S2P Require Import Prelude GoStrings Limiter NodeUsers DataPlane Users NodeReports NodeController NodeReload NodeFrames.
From S2P Require Import NodeSnapshots.
From Stdlib Require Import String.

Module NodeServing.
Import Limiter DataPlane NodeController NodeReload NodeFrames NodeSnapshots.

(** What the other members of a snapshot leave alone: the nodes of the core. *)
Class MembersLaws (S B : Type) `{!Core S B} `{!Members S} := {
  forward_nodes : ∀ s (c : S), nodes (B := B) (ForwardApply s c).1 = nodes c;
  network_nodes : ∀ s (c : S), nodes (B := B) (NetworkApply s c).1 = nodes c;
  egress_nodes : ∀ f e (c : S), ApplyEgress = Some f → nodes (B := B) (f e c).1 = nodes c;
  qos_nodes : ∀ f e (c : S), ApplyQoS = Some f → nodes (B := B) (f e c).1 = nodes c;
  exit_nodes : ∀ f e (c : S), ApplyExitPolicy = Some f → nodes (B := B) (f e c).1 = nodes c
}.

Section Serving.
Context {S B : Type} `{!EqDecision B} `{!Core S B} `{!Host S} `{!CoreLaws S B} `{!Documents B} `{!Members S} `{!MembersLaws S B}.
Implicit Types (c base : @Controller B) (w : @World S) (n : NodeInfo B) (p : @Plane B).

(** ** Extra controllers *)

Definition extra_id (id : Z) : Prop := 0 < id < 2 ^ 64.

(** An extra controller of a node: it runs in a place of its own. *)
Definition ExtraOk base w (id : Z) (x : nat * @Controller B) : Prop :=
  sameNode (newExtraController base id) x.2 ∧ nodeType x.2 = "" ∧ nodeID x.2 = nodeID base ∧ extra_id id ∧
  started x.2 = true ∧ Placed x.2 w ∧ tagClass x.2 (tag x.2).

Definition ExtrasOk base p w : Prop := map_Forall (ExtraOk base w) (extras p).

(** The tags of some protocols. *)
Definition extraTags base (ids : Z → Prop) (t : string) : Prop := ∃ id, ids id ∧ tagClass (newExtraController base id) t.

Lemma extra_distinct base id id' t : extra_id id → extra_id id' → tagClass (newExtraController base id) t →
  tagClass (newExtraController base id') t → id = id'.
Proof.
  intros H1 H2. apply (tagClass_distinct (newExtraController base id) (newExtraController base id')); [done|..];
    unfold protocol_id, extra_id in *; simpl; lia.
Qed.

Lemma ExtraOk_class base w id x : ExtraOk base w id x → ∀ t, tagClass x.2 t ↔ tagClass (newExtraController base id) t.
Proof. intros (HS & _) t. by apply tagClass_same. Qed.

Lemma ExtraOk_frame base (ids : Z → Prop) w w' id x : frame (extraTags base ids) w w' → (∀ i, ids i → extra_id i) → ¬ ids id →
  ExtraOk base w id x → ExtraOk base w' id x.
Proof.
  intros F Hids Hid Hx. pose proof (ExtraOk_class _ _ _ _ Hx) as Hc. destruct Hx as (H1 & H2 & H3 & H4 & H5 & H6 & H7).
  split_and!; try done. eapply Placed_frame; [exact F| |done].
  intros (i & Hi & Ht). apply Hid. apply Hc in H7. by rewrite <- (extra_distinct base i id _ (Hids i Hi) H4 Ht H7).
Qed.

(** A controller of a protocol that was given its entry. *)
Lemma Applied_extra base id i n c c' w w' : extra_id id → sameNode (newExtraController base id) c → nodeType c = "" →
  nodeID c = nodeID base → Applied n c c' w w' →
  ExtraOk base w' id (i, c') ∧ Runs n c' w' ∧ frame (extraTags base (.= id)) w w'.
Proof.
  intros Hid HS Hty Hn (HR & HS' & Ety & Eid & F). pose proof HR as (H1 & H2 & H3 & H4 & H5). split_and!; try done.
  - destruct HS as (?&?&?), HS' as (?&?&?). unfold ExtraOk, sameNode. simpl in *. split_and!; try done; congruence.
  - eapply frame_mono; [|exact F]. intros t Ht. exists id. split; [done|]. by apply (tagClass_same _ c).
Qed.

Lemma ExtrasOk_insert base p w w' id x p' : frame (extraTags base (.= id)) w w' → extra_id id → ExtrasOk base p w →
  ExtraOk base w' id x → extras p' = <[id := x]> (extras p) → ExtrasOk base p' w'.
Proof.
  intros F Hid HX Hx E i y. rewrite E, lookup_insert_Some. intros [[<- <-]|[Hne Hy]]; [done|].
  eapply ExtraOk_frame; [exact F|by intros ? ->|congruence|by apply HX].
Qed.

Lemma join_error_nil r l b x : join_error r l b x = Errs [] → r ≠ Panic → r = Ret tt ∧ x = Errs [].
Proof. by destruct r as [[]|e|], x. Qed.

Lemma runWanted_ok ctx snap base ids : ∀ k p w p' w', ExtrasOk base p w → Forall extra_id ids →
  runWanted ctx k snap base ids p w = (Errs [], p', w') →
  ExtrasOk base p' w' ∧ controllers p' = controllers p ∧
  (∀ id, id ∈ ids → ∃ x n, extras p' !! id = Some x ∧ nodeInfoFromSnapshot snap "" id (nodeID base) = Ok n ∧ Runs n x.2 w') ∧
  (∀ id, id ∉ ids → extras p' !! id = extras p !! id) ∧
  frame (extraTags base (.∈ ids)) w w'.
Proof.
  induction ids as [|id ids IH]; intros k p w p' w' HX Hids.
  { intros [= <- <-]. split_and!; try done. by intros id ?%elem_of_nil. }
  apply Forall_cons in Hids as [Hid Hids]. cbn [runWanted]. destruct (ctx k); [done|].
  assert (∀ c c1 w1 p1 n i, sameNode (newExtraController base id) c → nodeType c = "" → nodeID c = nodeID base →
    nodeInfoFromSnapshot snap "" id (nodeID base) = Ok n → Applied n c c1 w w1 →
    extras p1 = <[id := (i, c1)]> (extras p) → controllers p1 = controllers p →
    runWanted ctx (Datatypes.S k) snap base ids p1 w1 = (Errs [], p', w') →
    ExtrasOk base p' w' ∧ controllers p' = controllers p ∧
    (∀ j, j ∈ id :: ids → ∃ x n, extras p' !! j = Some x ∧ nodeInfoFromSnapshot snap "" j (nodeID base) = Ok n ∧ Runs n x.2 w') ∧
    (∀ j, j ∉ id :: ids → extras p' !! j = extras p !! j) ∧ frame (extraTags base (.∈ id :: ids)) w w') as Hstep.
  { intros c c1 w1 p1 n i HS Hty Hnid Hn HA Hext Hcs E.
    destruct (Applied_extra base id i n c c1 w w1 Hid HS Hty Hnid HA) as (Hx & HR & F1).
    assert (ExtrasOk base p1 w1) as HX1 by (by eapply ExtrasOk_insert).
    destruct (IH _ _ _ _ _ HX1 Hids E) as (H1 & H2 & H3 & H4 & H5). split_and!; [done|congruence|..].
    - intros j Hj. destruct (decide (j ∈ ids)) as [|Hni]; [by apply H3|].
      apply elem_of_cons in Hj as [->|]; [|done]. exists (i, c1), n. split_and!; [|done|].
      + by rewrite H4, Hext, lookup_insert_eq.
      + eapply Runs_frame; [exact H5| |done]. intros t Ht (j & Hj & Ht'). apply Hni.
        apply (ExtraOk_class _ _ _ _ Hx) in Ht. rewrite Forall_forall in Hids.
        by rewrite (extra_distinct base id j t Hid (Hids j Hj) Ht Ht').
    - intros j Hj. apply not_elem_of_cons in Hj as [Hne Hj]. by rewrite H4, Hext, lookup_insert_ne.
    - trans w1; [eapply frame_mono; [|exact F1]|eapply frame_mono; [|exact H5]];
        intros t (j & Hj & Ht); exists j; split; [set_solver|done|set_solver|done]. }
  destruct (extras p !! id) as [[i c]|] eqn:Ex.
  - destruct (HX id (i, c) Ex) as (HS & Hty & Hnid & _ & Hst & HP & Htc). simpl in *.
    unfold applySnapshot. rewrite Hty, Hnid. destruct HS as (Eh & Ep & Eo). rewrite Ep. simpl.
    destruct (nodeInfoFromSnapshot snap "" id (nodeID base)) as [n|e] eqn:En.
    + destruct (applyNode n (currentUserList p) (startupAliveList p) c w) as [[r c1] w1] eqn:Ea.
      destruct r as [[]|e|]; [| |done].
      * set (p1 := set_extra p id (i, c1)).
        destruct (runWanted ctx (Datatypes.S k) snap base ids p1 w1) as [[x p2] w2] eqn:Er.
        intros [= Ex' <- <-]. destruct x as [[|]| |]; try done.
        eapply (Hstep c c1 w1 p1 n i); try done. eapply applyNode_ok; [|done]. by intros _.
      * destruct (runWanted _ _ _ _ _ _ _) as [[x p2] w2]. intros [= Ex' _ _]. by destruct x.
    + destruct (runWanted _ _ _ _ _ _ _) as [[x p2] w2]. intros [= Ex' _ _]. by destruct x.
  - unfold startExtra. simpl.
    destruct (nodeInfoFromSnapshot snap "" id (nodeID base)) as [n|e] eqn:En.
    + destruct (startWith n _ _ (newExtraController base id) w) as [[r c1] w1] eqn:Ea.
      destruct r as [[]|e|]; [| |done].
      * intros Er. eapply (Hstep (newExtraController base id) c1 w1 _ n (nextExtra p)); [..|exact Er]; try done.
        by eapply startWith_ok.
      * destruct (Close c1 w1) as [[r2 c2] w2].
        destruct (runWanted _ _ _ _ _ _ _) as [[x p2] w3]. intros [= Ex' _ _]. by destruct x.
    + destruct (Close (newExtraController base id) w) as [[r2 c2] w2].
      destruct (runWanted _ _ _ _ _ _ _) as [[x p2] w3]. intros [= Ex' _ _]. by destruct x.
Qed.

(** Closing the protocols that are gone. *)
Lemma closeGone_ok keep base l : ∀ p w p' w', NoDup l.*1 → (∀ id x, (id, x) ∈ l → extras p !! id = Some x) →
  ExtrasOk base p w → closeGone keep l p w = ([], p', w') →
  ExtrasOk base p' w' ∧ controllers p' = controllers p ∧
  (∀ id, extras p' !! id = if decide (id ∈ l.*1 ∧ id ∉ keep) then None else extras p !! id) ∧
  (∀ id x, (id, x) ∈ l → id ∉ keep → nodes (core w') !! tag x.2 = None) ∧
  frame (extraTags base (λ id, id ∈ l.*1 ∧ id ∉ keep)) w w'.
Proof.
  induction l as [|[id [i c]] l IH]; intros p w p' w' Hnd Hl HX.
  { intros [= <- <-]. by split_and!; try by intros ? ? ?%elem_of_nil. }
  rewrite fmap_cons in Hnd. apply NoDup_cons in Hnd as [Hni Hnd]. simpl in Hni.
  assert (extras p !! id = Some (i, c)) as Hx by (apply Hl; left).
  assert (∀ j x, (j, x) ∈ l → j ≠ id) as Hother.
  { intros j x Hj ->. apply Hni. apply list_elem_of_fmap. by exists (id, x). }
  cbn [closeGone]. case_bool_decide as Hk.
  - intros E. destruct (IH _ _ _ _ Hnd (λ j x H, Hl j x (list_elem_of_further _ _ _ H)) HX E) as (H1 & H2 & H3 & H4 & H5).
    split_and!; try done.
    + intros j. rewrite H3. destruct (decide (j = id)) as [->|Hne]; [by rewrite !decide_False by tauto|].
      by repeat case_decide; set_solver.
    + intros j x [Hj|Hj]%elem_of_cons Hjk; [by simplify_eq|by eapply H4].
    + eapply frame_mono; [|exact H5]. intros t (j & [Hj Hjk] & Ht). exists j. set_solver.
  - pose proof (HX id (i, c) Hx) as HXc. pose proof HXc as (_ & _ & _ & Hid & _ & HP & Htc). simpl in HP, Htc.
    pose proof (Close_spec c w HP) as HC. destruct (Close c w) as [[r c1] w1]. destruct HC as [Hnp HC].
    set (p1 := set_extras p _ _ _). destruct (closeGone keep l p1 w1) as [[es p2] w2] eqn:E.
    destruct r as [[]|e|]; [|done..]. destruct (HC eq_refl) as [Hnone F]. intros [= -> <- <-].
    assert (frame (extraTags base (.= id)) w w1) as F1.
    { eapply frame_mono; [|exact F]. intros t ->. exists id. split; [done|]. by apply (ExtraOk_class _ _ _ _ HXc). }
    assert (ExtrasOk base p1 w1) as HX1.
    { intros j x. simpl. rewrite lookup_delete_Some. intros [Hne Hj].
      eapply ExtraOk_frame; [exact F1|by intros ? ->|congruence|by apply HX]. }
    assert (∀ j x, (j, x) ∈ l → extras p1 !! j = Some x) as Hl1.
    { intros j x Hj. simpl. rewrite lookup_delete_ne by (intros ?; by eapply Hother). apply Hl. by right. }
    destruct (IH _ _ _ _ Hnd Hl1 HX1 E) as (H1 & H2 & H3 & H4 & H5).
    assert (∀ j, j ∈ l.*1 → extra_id j) as Hids.
    { intros j ([j' x] & -> & Hj)%list_elem_of_fmap. apply (HX j' x). apply Hl. by right. }
    split_and!; try done.
    + intros j. rewrite H3. simpl. destruct (decide (j = id)) as [->|Hne].
      * rewrite lookup_delete_eq. by repeat case_decide; set_solver.
      * rewrite lookup_delete_ne by done. by repeat case_decide; set_solver.
    + intros j x [Hj|Hj]%elem_of_cons Hjk; [|by eapply H4]. simplify_eq. simpl.
      rewrite (f_nodes _ _ _ H5); [done|]. intros (k & [Hkl _] & Ht). apply Hni.
      apply (ExtraOk_class _ _ _ _ HXc) in Htc. by rewrite (extra_distinct base id k _ Hid (Hids k Hkl) Htc Ht).
    + trans w1; [eapply frame_mono; [|exact F1]|eapply frame_mono; [|exact H5]]; intros t (j & Hj & Ht); exists j; set_solver.
Qed.

(** ** The whole snapshot *)

(** A node of the installer's configuration: one controller of the node's own
    answer, and its extras. *)
Definition NodeOk p w : Prop :=
  ∃ base, controllers p = [base] ∧ protocolID base = 0 ∧ Ready base w ∧ ExtrasOk base p w.

(** The protocols a snapshot asks for have ids. *)
Definition idsOk p (s : ConfigSnapshot) : Prop := ∀ ids, wantedProtocols (Some s) p = Ok ids → Forall extra_id ids.

Lemma base_extra base id t : protocolID base = 0 → extra_id id → tagClass base t → ¬ tagClass (newExtraController base id) t.
Proof.
  intros Hb Hid Ht Ht'. unfold extra_id in Hid.
  assert (protocolID base = id); [|lia].
  apply (tagClass_distinct base (newExtraController base id) t); try done; unfold protocol_id; simpl; lia.
Qed.

Lemma member_frame f s p w : f ∈ members → frame (λ _, False) w (f s p w).2.
Proof.
  unfold members. intros Hf. repeat (apply elem_of_cons in Hf as [->|Hf]); [..|by apply elem_of_nil in Hf].
  - unfold applyNetwork. destruct (hasNetwork p); [|done]. pose proof (network_nodes s (core w)) as H.
    destruct (NetworkApply s (core w)) as [c e]. simpl in *. split; [|done..]. intros t _. simpl. by rewrite H.
  - unfold applyEgress. destruct (ParseEgress _) as [e|]; [|done]. destruct (negb _); [done|].
    destruct ApplyEgress as [g|] eqn:E; [|done]. pose proof (egress_nodes g e (core w) E) as H.
    destruct (g e (core w)) as [c r]. simpl in *. split; [|done..]. intros t _. simpl. by rewrite H.
  - unfold applyQoS. destruct (ParseQoS _) as [e|]; [|done]. destruct (coreOf p); [|done].
    destruct ApplyQoS as [g|] eqn:E; [|done]. pose proof (qos_nodes g e (core w) E) as H.
    destruct (g e (core w)) as [c r]. simpl in *. split; [|done..]. intros t _. simpl. by rewrite H.
  - unfold applyExitPolicy. destruct (ParseExitPolicy _) as [e|]; [|done]. destruct (coreOf p); [|done].
    destruct ApplyExitPolicy as [g|] eqn:E; [|done]. pose proof (exit_nodes g e (core w) E) as H.
    destruct (g e (core w)) as [c r]. simpl in *. split; [|done..]. intros t _. simpl. by rewrite H.
Qed.

Lemma applyMembers_frame s p w : frame (λ _, False) w (applyMembers s p w).2.
Proof.
  unfold applyMembers. generalize ([] : list applyError) as es.
  assert (∀ f w, f ∈ members → frame (λ _, False) w (f s p w).2) as Hm by (intros f w'; apply member_frame).
  revert w Hm. generalize (members (S := S) (B := B)) as l.
  induction l as [|f l IH]; intros w Hm es; simpl; [done|].
  pose proof (Hm f w) as Hf. destruct (f s p w) as [e w1]. simpl in Hf. trans w1; [apply Hf; left|].
  apply IH. intros g w' Hg. apply Hm. by right.
Qed.

Lemma reconcileExtras_ok ctx k s base p w p' w' : controllers p = [base] → ExtrasOk base p w → idsOk p s →
  reconcileExtras ctx k (Some s) p w = (Errs [], p', w') →
  ∃ ids, wantedProtocols (Some s) p = Ok ids ∧ controllers p' = controllers p ∧ ExtrasOk base p' w' ∧
    (∀ id, is_Some (extras p' !! id) ↔ id ∈ ids) ∧
    (∀ id x, extras p' !! id = Some x → ∃ m, nodeInfoFromSnapshot (Some s) "" id (nodeID base) = Ok m ∧ Runs m x.2 w') ∧
    (∀ id x, extras p !! id = Some x → id ∉ ids → nodes (core w') !! tag x.2 = None) ∧
    frame (extraTags base extra_id) w w'.
Proof.
  intros Ecs HX Hids. unfold reconcileExtras. destruct (wantedProtocols (Some s) p) as [ids|e] eqn:Ew; [|done].
  specialize (Hids ids Ew). destruct (closeGone ids (map_to_list (extras p)) p w) as [[es p1] w1] eqn:Ec. intros E.
  assert (es = [] ∧ ∃ ids', (ids' = ids ∨ ids' = [] ∧ ids = []) ∧ runWanted ctx k (Some s) base ids' p1 w1 = (Errs [], p', w'))
    as [-> (ids' & Hi' & Er)].
  { assert (controllers p1 = controllers p) as Ecs1.
    { pose proof (closeGone_fixed ids (map_to_list (extras p)) p w) as H. rewrite Ec in H. by injection H. }
    revert E. unfold wantedProtocols, expandingController in *. rewrite Ecs1, Ecs in *.
    destruct (String.eqb _ _).
    - destruct (runWanted ctx k (Some s) base ids p1 w1) as [[x p2] w2] eqn:Er. intros [= Ex <- <-].
      destruct x as [es'| |]; try done. simpl in Ex. injection Ex as [-> ->]%app_eq_nil.
      split; [done|]. exists ids. split; [by left|done].
    - intros [= -> <- <-]. injection Ew as <-. split; [done|]. exists []. split; [by left|done]. }
  destruct (closeGone_ok ids base (map_to_list (extras p)) p w p1 w1) as (HX1 & Ecs1 & Hext & Hgone & F1);
    [apply NoDup_fst_map_to_list|by intros id x ?%elem_of_map_to_list|done|done|].
  assert (ids' = ids) as -> by (by destruct Hi' as [|[-> ->]]).
  destruct (runWanted_ok ctx (Some s) base ids k p1 w1 p' w' HX1 Hids Er) as (HX2 & Ecs2 & Hrun & Hsame & F2).
  assert (∀ id, is_Some (extras p' !! id) ↔ id ∈ ids) as Hdom.
  { intros id. split; [|by intros (x & n & -> & _)%Hrun]. intros Hs. destruct (decide (id ∈ ids)) as [|Hni]; [done|].
    rewrite Hsame, Hext in Hs by done. destruct (extras p !! id) as [y|] eqn:Ey.
    - rewrite decide_True in Hs; [by destruct Hs|]. split; [|done]. apply list_elem_of_fmap. exists (id, y).
      split; [done|]. by apply elem_of_map_to_list.
    - destruct (decide _); by destruct Hs. }
  exists ids. split_and!; try done; [congruence|..].
  - intros id x Hx. destruct (Hrun id) as (y & n & Hy & En & HR); [apply Hdom; by eexists|].
    replace x with y by congruence. by exists n.
  - intros id x Hx Hni. rewrite (f_nodes _ _ _ F2); [by eapply Hgone; [by apply elem_of_map_to_list|]|].
    intros (j & Hj & Ht). pose proof (HX id x Hx) as Hok. pose proof Hok as (_ & _ & _ & Hid & _ & _ & Htc).
    rewrite Forall_forall in Hids. apply (ExtraOk_class _ _ _ _ Hok) in Htc.
    apply Hni. by rewrite (extra_distinct base id j _ Hid (Hids j Hj) Htc Ht).
  - trans w1; [eapply frame_mono; [|exact F1]|eapply frame_mono; [|exact F2]]; intros t (j & Hj & Ht); exists j; split; try done.
    + destruct Hj as [([j' x] & -> & Hj)%list_elem_of_fmap _]. apply elem_of_map_to_list in Hj. apply (HX j' x Hj).
    + rewrite Forall_forall in Hids. by apply Hids.
Qed.

(** What a snapshot applied without an error leaves: the controller runs the
    node's own answer, the extras run exactly the wanted protocols. *)
Definition Served s p p' w' : Prop :=
  ∃ base base' n ids, controllers p = [base] ∧ controllers p' = [base'] ∧
    nodeInfoFromSnapshot (Some s) (nodeType base) 0 (nodeID base) = Ok n ∧
    fst <$> nodes (core w') !! tag base' = Some n ∧
    wantedProtocols (Some s) p = Ok ids ∧ (∀ id, is_Some (extras p' !! id) ↔ id ∈ ids) ∧
    (∀ id x, extras p' !! id = Some x → ∃ m,
       nodeInfoFromSnapshot (Some s) "" id (nodeID base) = Ok m ∧ fst <$> nodes (core w') !! tag x.2 = Some m) ∧
    (∀ id x, extras p !! id = Some x → id ∉ ids → nodes (core w') !! tag x.2 = None).

Lemma newExtra_same base base' id : sameNode base base' → nodeID base' = nodeID base →
  newExtraController base' id = newExtraController base id.
Proof. intros (Eh & _ & Eo) Eid. unfold newExtraController. by rewrite Eh, Eo, Eid. Qed.

Lemma ExtrasOk_base base base' p p' w : sameNode base base' → nodeID base' = nodeID base → extras p' = extras p →
  ExtrasOk base p w → ExtrasOk base' p' w.
Proof.
  intros HS Eid Ee HX id x. rewrite Ee. intros Hx. destruct (HX id x Hx) as (H1 & H2 & H3 & H4 & H5 & H6 & H7).
  split_and!; try done; [by rewrite (newExtra_same base base')|congruence].
Qed.

(** The controller's own entry leaves the extras where they are. *)
Lemma base_applied base base' n p w0 w1 : protocolID base = 0 → ExtrasOk base p w0 → Applied n base base' w0 w1 →
  ExtrasOk base' (set_controllers p [base']) w1 ∧ protocolID base' = 0.
Proof.
  intros Hb0 HX (HRn & HS & Ety & Eid & F). split; [|destruct HS as (_ & Ep & _); congruence].
  apply (ExtrasOk_base base base' p); try done.
  intros id x Hx. pose proof (HX id x Hx) as Hok. pose proof Hok as (H1 & H2 & H3 & H4 & H5 & H6 & H7).
  split_and!; try done. eapply Placed_frame; [exact F| |done]. intros Ht.
  apply (base_extra base id (tag x.2)); try done. by apply (ExtraOk_class _ _ _ _ Hok).
Qed.

Lemma frame_false (P : string → Prop) w w' : frame (λ _, False) w w' → frame P w w'.
Proof. by apply frame_mono. Qed.

(** An error of a controller or of its extras is an error of the whole. *)
Lemma ApplyConfig_ok ctx s p w p' w' base : controllers p = [base] → protocolID base = 0 → Ready base w →
  ApplyConfig ctx s p w = (Errs [], p', w') →
  ∃ n w0 base' w1 w2, frame (λ _, False) w w0 ∧
    nodeInfoFromSnapshot (Some s) (nodeType base) 0 (nodeID base) = Ok n ∧ Applied n base base' w0 w1 ∧
    reconcileExtras ctx 1 (Some s) (set_controllers p [base']) w1 = (Errs [], p', w2) ∧ frame (λ _, False) w2 w'.
Proof.
  intros Ecs Hb0 HR. unfold ApplyConfig.
  assert (∃ e w0, (if hasForward p then let '(s', e) := ForwardApply s (core w) in (e, set_core w s') else (None, w)) = (e, w0) ∧
    frame (λ _, False) w w0) as (e & w0 & -> & F0).
  { destruct (hasForward p); [|by eexists _, _]. pose proof (forward_nodes s (core w)) as H.
    destruct (ForwardApply s (core w)) as [c e]. eexists _, _. split; [done|]. split; [|done..]. intros t _. simpl in *. by rewrite H. }
  destruct e as [e|]; [done|]. rewrite Ecs. cbn [applyControllers]. destruct (ctx 0%nat); [done|].
  unfold applySnapshot. rewrite Hb0.
  destruct (nodeInfoFromSnapshot (Some s) (nodeType base) 0 (nodeID base)) as [n|e] eqn:En; cycle 1.
  { simpl. destruct (reconcileExtras _ _ _ _ _) as [[[] p2] w2]; try done; by destruct (applyMembers _ _ _). }
  destruct (applyNode n (currentUserList p) (startupAliveList p) base w0) as [[r base'] w1] eqn:Ea.
  destruct r as [[]|e|]; [| |done]; cycle 1.
  { simpl. destruct (reconcileExtras _ _ _ _ _) as [[[] p2] w2]; try done; by destruct (applyMembers _ _ _). }
  simpl. destruct (reconcileExtras ctx 1 (Some s) (set_controllers p [base']) w1) as [[[es| |] p2] w2] eqn:Er; [|by destruct (applyMembers _ _ _)|done].
  pose proof (applyMembers_frame s p2 w2) as Fm. destruct (applyMembers s p2 w2) as [es' w3]. simpl in Fm.
  intros [= [-> ->]%app_eq_nil <- <-]. exists n, w0, base', w1, w2. split_and!; try done.
  eapply applyNode_ok; [|exact Ea]. eapply Ready_frame; [exact F0|tauto|done].
Qed.


End Serving.
End NodeServing.
