(* ===== verification/NodeStart.v ===== *)
(** * How a node starts (src/node/dataplane.go: start, awaitStream, finishStart)

    A node starts from the configuration and users it stored, or else from what
    the stream delivers; later snapshots and deltas are let through once it has
    started ([Activate]).  The state of the stream is that of DataPlane.v and
    Users.v; what arrives while the start waits, and which transport carries
    what, are arguments.  The theorem: what the node tells Control it applied
    is what its controllers were last given, and they took it. *)

From S2P Require Import Prelude GoStrings Limiter NodeUsers Negotiation DataPlane Users NodeReports NodeController NodeReload NodeFrames.
From S2P Require Import NodeSnapshots.
From Stdlib Require Import String.

Module NodeStart.
Import Limiter DataPlane NodeController NodeReload NodeFrames NodeSnapshots.

#[export] Instance NodeUser_eq_dec : EqDecision NodeUser.
Proof. solve_decision. Defined.

Abbreviation UserSet := (@Users.UserSet NodeUser).
Abbreviation usersState := (@Users.usersState NodeUser).

Section Start.
Context {S B : Type} `{!EqDecision B} `{!Core S B} `{!Host S} `{!Documents B} `{!Members S} `{!ConfigSDK}.
Abbreviation World := (@World S).
Abbreviation Plane := (@Plane B).

(** The client's data plane: its configuration and users. *)
Record Link := mkLink { cfg : ConfigState; usr : usersState }.

(** How a start ends: the node runs or waits for its stream, it failed, or the
    Agent crashed. *)
Inductive startEnd := Started | NotStarted (e : string) | StartCrashed.

(** What the start finds: how [client.Start] and the wait for a session end,
    which transport carries configuration and users, what arrives while it
    waits for them, the contexts of the two applications, the time. *)
Record StartEnv := mkStartEnv {
  clientStart : result unit;
  session : bool;
  configMode : DataPlaneMode;
  usersMode : DataPlaneMode;
  usersArrive : usersState → usersState;
  configArrive : ConfigState → ConfigState;
  ctxStored : nat → bool;
  ctxStream : nat → bool;
  now : time
}.

(** The error of the applier, [nil] when there is none. *)
Definition joined (x : ends) : option applyError :=
  match x with
  | Errs [] => None
  | Errs es => Some (mkApplyError (join (errText <$> es) "; ") (existsb errInvalid es))
  | _ => Some (plainError "context canceled")
  end.

Definition nodeText (p : Plane) (e : string) : string := "node " +:+ itoa (pNodeID p) +:+ ": " +:+ e.

(** The users a start takes: the users, and the set to acknowledge. *)
Definition takeUsers (env : StartEnv) (persistedUsers : option UserSet) (p : Plane) (u : usersState)
  : result (usersState * list NodeUser * option UserSet) :=
  match usersMode env, persistedUsers with
  | DataPlaneStream, _ =>
      match Users.TakeUsers NUserId (usersArrive env u) with
      | Some (u, set) => Ok (u, Users.setUsers set, Some set)
      | None => Err (nodeText p "Control negotiated users.v1 but sent no user set")
      end
  | DataPlanePending, Some set => Ok (Users.RestoreUsers NUserId u set, Users.setUsers set, None)
  | _, _ => Err (nodeText p "Control does not serve the node's users (users.v1)")
  end.

Definition startConfig (env : StartEnv) (persistedConfig : option ConfigSnapshot) (c : ConfigState) (p : Plane) (w : World)
  : startEnd * ConfigState * Plane * World :=
  match configMode env, persistedConfig with
  | DataPlaneStream, _ =>
      match TakeConfig (configArrive env c) with
      | None => (NotStarted (nodeText p "Control negotiated config.v1 but sent no configuration snapshot"), configArrive env c, p, w)
      | Some (c, s) =>
          match ApplyConfig (ctxStream env) s p w with
          | (Crashed, p, w) => (StartCrashed, c, p, w)
          | (x, p, w) => (Started, (finishConfig s (joined x) c).1, p, w)
          end
      end
  | DataPlanePending, Some s =>
      match ApplyConfig (ctxStream env) s p w with
      | (Crashed, p, w) => (StartCrashed, c, p, w)
      | (x, p, w) =>
          match joined x with
          | Some _ => (Started, DiscardPersistedConfig c, p, w)
          | None => (Started, RestoreConfig s c, p, w)
          end
      end
  | _, _ => (NotStarted (nodeText p "Control does not serve configuration on the Agent control stream (config.v1)"), c, p, w)
  end.

Definition finishStart (env : StartEnv) (persistedConfig : option ConfigSnapshot) (persistedUsers : option UserSet)
    (l : Link) (p : Plane) (w : World) : startEnd * Link * Plane * World :=
  match takeUsers env persistedUsers p (usr l) with
  | Err e => (NotStarted e, l, clearStartupUsers p, w)
  | Ok (u, users, taken) =>
      let '(x, c, p, w) := startConfig env persistedConfig (cfg l) (setStartupUsers users p) w in
      match x with
      | Started =>
          let u := match taken with Some set => Users.UsersResult u (now env) set None | None => u end in
          (Started, mkLink (Activate c) u, clearStartupUsers p, w)
      | _ => (x, mkLink c u, clearStartupUsers p, w)
      end
  end.

(** The stored configuration and users, when there are both: the start from
    them, and what is left of them. *)
Definition startStored (env : StartEnv) (l : Link) (p : Plane) (w : World)
  : option (option ConfigSnapshot * option UserSet * Link * Plane * World) :=
  match persistedConfig (cfg l), Users.persisted (usr l) with
  | Some s, Some set =>
      match ApplyConfig (ctxStored env) s (setStartupUsers (Users.setUsers set) p) w with
      | (Crashed, _, _) => None
      | (x, p, w) =>
          match joined x with
          | Some _ =>
              Some (None, None, mkLink (DiscardPersistedConfig (cfg l)) (Users.DiscardPersistedUsers (usr l)), set_userLists p None None, w)
          | None => Some (Some s, Some set, mkLink (RestoreConfig s (cfg l)) (Users.RestoreUsers NUserId (usr l) set), p, w)
          end
      end
  | pc, pu => Some (pc, pu, l, p, w)
  end.

Definition start (env : StartEnv) (l : Link) (p : Plane) (w : World) : startEnd * Link * Plane * World :=
  match startStored env l p w with
  | None => (StartCrashed, l, p, w)
  | Some (persistedConfig, persistedUsers, l, p, w) =>
      match clientStart env with
      | Err e => (NotStarted e, l, clearStartupUsers p, w)
      | Ok _ =>
          if allStarted p then (Started, mkLink (Activate (cfg l)) (usr l), clearStartupUsers p, w)
          else if session env then finishStart env persistedConfig persistedUsers l p w
          else (Started, l, set_awaiting p true, w)
      end
  end.

(** [awaitStream]: the start in the background once the stream has a session;
    without one the node stops first. *)
Definition awaitStream (env : StartEnv) (persistedUsers : option UserSet) (l : Link) (p : Plane) (w : World)
  : option startEnd * Link * Plane * World :=
  if session env then
    let '(x, l, p, w) := finishStart env None persistedUsers l p w in (Some x, l, set_awaiting p false, w)
  else (None, l, set_awaiting (clearStartupUsers p) false, w).

End Start.

(** ** What a start reports *)

Section Truth.
Context {S B : Type} `{!EqDecision B} `{!Core S B} `{!Host S} `{!CoreLaws S B} `{!Documents B} `{!Members S} `{!ConfigSDK}.
Implicit Types (c : @Controller B) (w : @World S) (p : @Plane B) (l : Link).

(** Code that does not stop a started controller. *)
Definition lasting {A} (m : M A) : Prop := ∀ c w, started c = true → started (m c w).1.2 = true.

Lemma lasting_bind {A A'} (m : M A) (f : A → M A') : lasting m → (∀ a, lasting (f a)) → lasting (m ≫= f).
Proof.
  intros Hm Hf c w Hs. rewrite bind_eq. specialize (Hm c w Hs). destruct (m c w) as [[[a|e|] c'] w']; simpl in *; [|done..].
  by apply Hf.
Qed.
Lemma lasting_modify f : (∀ c, started c = true → started (f c) = true) → lasting (modify f).
Proof. intros Hf c w Hs. by apply Hf. Qed.
Lemma lasting_call {E} (f : S → S * E) : lasting (call f).
Proof. intros c w Hs. by rewrite call_eq. Qed.
Lemma lasting_catch {A} (m : M A) : lasting m → lasting (catch m).
Proof. intros Hm c w Hs. rewrite catch_eq. specialize (Hm c w Hs). by destruct (m c w) as [[[a|e|] c'] w']. Qed.
Lemma lasting_onLimiter f : lasting (onLimiter f).
Proof. intros c w Hs. unfold onLimiter. by repeat case_match; simplify_eq/=. Qed.
Lemma lasting_cert n : lasting (whenTls n requestCert).
Proof. intros c w Hs. destruct (requestCert_spec n c w) as (r & s & -> & _). done. Qed.

Ltac lasting :=
  repeat (first [ apply lasting_bind; [|intros ?] | apply lasting_call | apply lasting_catch | apply lasting_onLimiter
                | apply lasting_cert | apply lasting_modify; intros ? ?; repeat case_match; done
                | (intros ? ? ?; done) | case_match | progress simpl ]).

Lemma lasting_retryAdd ds t n o : ∀ e, lasting (retryAdd ds t n o e).
Proof.
  induction ds as [|d ds IH]; intros e; simpl; [by intros ? ? ?|]. destruct e as [e|]; [|by intros ? ? ?].
  destruct (isAddressInUse e); [|by intros ? ? ?]. apply lasting_bind; [by intros ? ? ?|]. intros _.
  apply lasting_bind; [apply lasting_call|]. intros e'. apply IH.
Qed.

Lemma lasting_startNode n : lasting (startNodeLocked n).
Proof.
  unfold startNodeLocked, startLimiter, UpdateRule, addCoreNodeLocked, addNodeUsers, setAliveList.
  lasting; apply lasting_retryAdd.
Qed.

Lemma lasting_reconcile n : lasting (reconcileLocked (Some n) None None).
Proof.
  unfold reconcileLocked, replaceNodeLocked, deleteOld, startOrRestore. lasting; apply lasting_startNode.
Qed.

Lemma applyNode_started n cur al c w c' w' : applyNode n cur al c w = (Ret tt, c', w') → started c' = true.
Proof.
  unfold applyNode. rewrite bind_eq. cbn [get]. destruct (started c) eqn:Es.
  - pose proof (lasting_reconcile n c w Es) as Hr. intros E. by rewrite E in Hr.
  - unfold startUsers. rewrite bind_eq. destruct cur as [us|]; [|done]. cbn [mret M_ret fst snd]. intros E.
    pose proof (startWith_spec n us (Some al) c w) as Hr. rewrite E in Hr. destruct Hr as [Hr _]. by inversion Hr.
Qed.

Lemma applyControllers_started ctx snap p cs : ∀ k w cs' w', applyControllers ctx k snap p cs w = (Errs [], cs', w') →
  forallb (λ c, started c) cs' = true.
Proof.
  induction cs as [|c cs IH]; intros k w cs' w'; simpl; [by intros [= <- _]|]. destruct (ctx k); [done|].
  destruct (applySnapshot snap p c w) as [[[r v] c1] w1] eqn:Ea. destruct r as [[]|e|]; [| |done].
  - destruct (applyControllers _ _ _ _ cs w1) as [[x cs1] w2] eqn:Er. intros [= Ex <- <-]. destruct x as [[|]| |]; try done.
    simpl. rewrite (IH _ _ _ _ Er), andb_true_r. revert Ea. unfold applySnapshot.
    destruct (nodeInfoFromSnapshot _ _ _ _) as [n|]; [|done]. destruct (applyNode _ _ _ _ _) as [[r c2] w3] eqn:E.
    intros [= -> <- <- <-]. by eapply applyNode_started.
  - destruct (applyControllers _ _ _ _ cs w1) as [[x cs1] w2]. intros [= Ex _ _]. by destruct x.
Qed.

(** A snapshot applied without an error has started every controller. *)
Lemma ApplyConfig_started ctx s p w p' w' : ApplyConfig ctx s p w = (Errs [], p', w') → allStarted p' = true.
Proof.
  unfold ApplyConfig. destruct (if hasForward p then _ else _) as [[e|] w0]; [done|].
  destruct (applyControllers ctx 0 (Some s) p (controllers p) w0) as [[[es| |] cs] w1] eqn:Ec; [|done..].
  pose proof (reconcileExtras_fixed ctx (List.length cs) (Some s) (set_controllers p cs) w1) as Ecs.
  destruct (reconcileExtras _ _ _ _ _) as [[[es'| |] p2] w2]; simpl in Ecs; injection Ecs as Ecs _;
    [destruct (applyMembers _ _ _)|destruct (applyMembers _ _ _)|done].
  - intros [= [-> _]%app_eq_nil <- _]. unfold allStarted. rewrite Ecs. by eapply applyControllers_started.
  - by intros [= [_ ?]%app_eq_nil _ _].
Qed.

(** The node's controllers took the snapshot [s] and nothing came after. *)
Definition took (s : ConfigSnapshot) p w : Prop :=
  ∃ ctx p1 w1 p2, ApplyConfig ctx s p1 w1 = (Errs [], p2, w) ∧ controllers p = controllers p2 ∧ extras p = extras p2.

Lemma joined_none x : joined x = None → x = Errs [].
Proof. by destruct x as [[|]| |]. Qed.

Lemma startConfig_took env pc (d : ConfigState) p w x d' p' w' : (∀ d, appliedConfig (configArrive env d) = appliedConfig d) →
  appliedConfig d = None → startConfig env pc d p w = (x, d', p', w') →
  ∀ s, appliedConfig d' = Some s → x = Started → took s p' w'.
Proof.
  intros Harr Hnone. unfold startConfig.
  assert (∀ s x p1 w1, ApplyConfig (ctxStream env) s p w = (x, p1, w1) → joined x = None → took s p1 w1) as Htook.
  { intros s x1 p1 w1 E ->%joined_none. by exists (ctxStream env), p, w, p1. }
  destruct (configMode env).
  - intros [= <- <- <- <-]. congruence.
  - unfold TakeConfig. destruct (pendingConfig (configArrive env d)) as [s|] eqn:Ep; [|intros [= <- <- <- <-]; by rewrite Harr, Hnone].
    destruct (ApplyConfig (ctxStream env) s p w) as [[y p1] w1] eqn:Ea. intros E s' Hs' ->.
    assert (∃ e, joined y = e ∧ d' = (finishConfig s e (clearPending (configArrive env d))).1 ∧ p' = p1 ∧ w' = w1)
      as (e & Ej & -> & -> & ->) by (destruct y; simplify_eq; by eexists).
    destruct e as [e|]; simpl in Hs'; [by rewrite Harr, Hnone in Hs'|]. simplify_eq. by eapply Htook.
  - destruct pc as [s|]; [|intros [= <- <- <- <-]; congruence].
    destruct (ApplyConfig (ctxStream env) s p w) as [[y p1] w1] eqn:Ea. intros E s' Hs' ->.
    destruct (joined y) as [e|] eqn:Ej.
    + destruct y; simplify_eq; simpl in *; congruence.
    + pose proof (joined_none _ Ej) as ->. simpl in E. simplify_eq. simpl in Hs'. simplify_eq. by eapply Htook.
Qed.

Lemma startStored_spec env l p w pc pu l1 p1 w1 : appliedConfig (cfg l) = None → awaiting p = false →
  startStored env l p w = Some (pc, pu, l1, p1, w1) →
  awaiting p1 = false ∧ (appliedConfig (cfg l1) = None ∨
    ∃ s, appliedConfig (cfg l1) = Some s ∧ took s p1 w1 ∧ allStarted p1 = true).
Proof.
  intros Hnone Hw. unfold startStored.
  destruct (persistedConfig (cfg l)) as [s|]; [|intros [= _ _ <- <- <-]; split; [done|by left]].
  destruct (Users.persisted (usr l)) as [set|]; [|intros [= _ _ <- <- <-]; split; [done|by left]].
  match goal with |- context [ApplyConfig ?ctx s ?q w] => pose proof (ApplyConfig_awaiting ctx s q w) as Ha;
    destruct (ApplyConfig ctx s q w) as [[x p2] w2] eqn:Ea end. simpl in Ha.
  destruct (joined x) as [e|] eqn:Ej.
  - intros E. assert (l1 = mkLink (DiscardPersistedConfig (cfg l)) (Users.DiscardPersistedUsers (usr l)) ∧ p1 = set_userLists p2 None None)
      as [-> ->] by (destruct x; simplify_eq; done). simpl. split; [congruence|by left].
  - pose proof (joined_none _ Ej) as ->. intros [= _ _ <- <- <-]. simpl. split; [congruence|]. right. exists s. split_and!; [done| |].
    + by eexists _, _, _, _.
    + by eapply ApplyConfig_started.
Qed.

Lemma startConfig_awaiting env pc (d : ConfigState) p w : awaiting (startConfig env pc d p w).1.2 = awaiting p.
Proof.
  unfold startConfig. destruct (configMode env); [done| |destruct pc as [s|]; [|done]].
  - destruct (TakeConfig _) as [[d1 s]|]; [|done]. pose proof (ApplyConfig_awaiting (ctxStream env) s p w) as E.
    by destruct (ApplyConfig _ s p w) as [[[] p1] w1].
  - pose proof (ApplyConfig_awaiting (ctxStream env) s p w) as E.
    destruct (ApplyConfig _ s p w) as [[[] p1] w1]; [destruct (joined _)..|]; done.
Qed.

Lemma finishStart_spec env pc pu l p w l' p' w' : (∀ d, appliedConfig (configArrive env d) = appliedConfig d) →
  appliedConfig (cfg l) = None → finishStart env pc pu l p w = (Started, l', p', w') →
  (∀ s, appliedConfig (cfg l') = Some s → took s p' w') ∧ awaiting p' = awaiting p ∧
  DataPlane.active (cfg l') = true ∧ startupUsers p' = None.
Proof.
  intros Harr Hnone. unfold finishStart. destruct (takeUsers env pu p (usr l)) as [[[u users] taken]|]; [|done].
  pose proof (startConfig_awaiting env pc (cfg l) (setStartupUsers users p) w) as Ha.
  destruct (startConfig env pc (cfg l) (setStartupUsers users p) w) as [[[x d] p1] w1] eqn:Ec. simpl in Ha.
  destruct x; [|done..]. intros [= <- <- <-]. simpl. split_and!; try done. intros s Hs.
  destruct (startConfig_took _ _ _ _ _ _ _ _ _ Harr Hnone Ec s Hs eq_refl) as (ctx & q1 & v1 & q2 & E & E1 & E2).
  by exists ctx, q1, v1, q2.
Qed.

(** C16: a node that starts from the stored state or from the stream tells the truth: when the start ends, a configuration revision the node reports as applied is one that all its controllers have just been given and took without an error; unless it still waits for its stream, all later snapshots and deltas are let through and the users of the start are no longer held. *)
Theorem start_tells_truth env l p w l' p' w' :
  appliedConfig (cfg l) = None → awaiting p = false → (∀ d, appliedConfig (configArrive env d) = appliedConfig d) →
  start env l p w = (Started, l', p', w') →
  (∀ s, appliedConfig (cfg l') = Some s → took s p' w') ∧
  (if awaiting p' then appliedConfig (cfg l') = None else DataPlane.active (cfg l') = true ∧ startupUsers p' = None).
Proof.
  intros Hnone Hw Harr. unfold start.
  destruct (startStored env l p w) as [[[[[pc pu] l1] p1] w1]|] eqn:Es; [|done].
  assert (awaiting p1 = false ∧ (appliedConfig (cfg l1) = None ∨
    ∃ s, appliedConfig (cfg l1) = Some s ∧ took s p1 w1 ∧ allStarted p1 = true)) as [Hw1 Hcase].
  { eapply startStored_spec; [done..|exact Es]. }
  destruct (clientStart env) as [[]|e]; [|done]. destruct (allStarted p1) eqn:Eall.
  - intros [= <- <- <-]. simpl. rewrite Hw1. split; [|done]. intros s Hs. destruct Hcase as [Hc|(s' & Hs' & Ht & _)]; [congruence|].
    replace s with s' by congruence. exact Ht.
  - destruct Hcase as [Hc|(s' & _ & _ & ?)]; [|congruence]. destruct (session env).
    + intros E. destruct (finishStart_spec env pc pu l1 p1 w1 l' p' w' Harr Hc E) as (H1 & H2 & H3 & H4).
      split; [done|]. by rewrite H2, Hw1.
    + intros [= <- <- <-]. simpl. split; [congruence|done].
Qed.

End Truth.

End NodeStart.
