(* ===== verification/NodeWireGuard.v ===== *)
(** * The WireGuard core behind the interface of the controllers

    WireGuard's operations (WireGuard.v, src/core/wireguard/wireguard.go) as the
    interface [NodeController.Core], and the proof of its laws: what the
    theorems about controllers assume of a core holds for this one, whatever
    commands fail.  WireGuard's model keeps the WireGuard part of a node's
    configuration; the record it belongs to is kept beside it. *)

From S2P Require Import Prelude GoStrings Limiter NodeUsers WireGuard WireGuardNodes NodeController.
From Stdlib Require Import String.

Module NodeWireGuard.
Import Limiter NodeController.

Section WireGuardCore.
Context (fails : WireGuard.log → WireGuard.Effect → option string) (interfaceName : string → string)
  (derive : string → option string).
Context (compile : string → bool) (exists_ : string → bool) (certs : CertConfig → result unit).

Abbreviation Info := (NodeInfo WireGuard.NodeInfo).

(** The core, the commands done, and the whole records of the nodes. *)
Record WGCore := mkWGCore { wg : WireGuard.WireGuard; done_ : WireGuard.log; records : gmap string Info }.

Definition recordOf (s : WGCore) (t : string) (n : WireGuard.nodeState) : Info :=
  default (mkNode 0 "wireguard" 0 0 (mkRules [] []) (WireGuard.info n)) (records s !! t).

Definition wgNodes (s : WGCore) : gmap string (Info * gmap string UserInfo) :=
  map_imap (λ t n, Some (recordOf s t n, WireGuard.users n)) (WireGuard.nodes (wg s)).

Definition wgAddNode (t : string) (n : Info) (o : Options) (s : WGCore) : WGCore * option coreError :=
  match WireGuard.AddNode fails interfaceName derive t (Some (Body n)) (Some (WireGuard.mkOptions (ReportMinTraffic o) (OptSpeedLimit o)))
          (wg s) (done_ s) with
  | (w, Ok _, h) => (mkWGCore w h (<[t := n]> (records s)), None)
  | (w, Err e, h) => (mkWGCore w h (records s), Some (mkCoreError false false e))
  end.

(** [ErrNodeNotFound] is the error of a tag without a node. *)
Definition wgDelNode (t : string) (s : WGCore) : WGCore * option coreError :=
  match WireGuard.DelNode fails t (wg s) (done_ s) with
  | (w, Ok _, h) => (mkWGCore w h (records s), None)
  | (w, Err e, h) => (mkWGCore w h (records s), Some (mkCoreError (bool_decide (WireGuard.nodes (wg s) !! t = None)) false e))
  end.

Definition wgAdd (t : string) (us : list UserInfo) (n : Info) (s : WGCore) : WGCore * option coreError :=
  match WireGuard.wgAddUsers fails t us (wg s) (done_ s) with
  | (w, Ok _, h) => (mkWGCore w h (records s), None)
  | (w, Err e, h) => (mkWGCore w h (records s), Some (mkCoreError false false e))
  end.

Definition wgDel (us : list UserInfo) (t : string) (n : Info) (s : WGCore) : WGCore * option coreError :=
  match WireGuard.wgDelUsers fails us t (wg s) (done_ s) with
  | (w, Ok _, h) => (mkWGCore w h (records s), None)
  | (w, Err e, h) => (mkWGCore w h (records s), Some (mkCoreError false false e))
  end.

#[local] Instance wireguardCore : Core WGCore WireGuard.NodeInfo := {|
  nodes := wgNodes;
  AddNode := wgAddNode;
  DelNode := wgDelNode;
  AddUsers := wgAdd;
  DelUsers := wgDel
|}.

#[local] Instance wireguardHost : Host WGCore := {|
  compiles := compile;
  fileExists := λ f _, exists_ f;
  createLegoCert := λ c s, (s, certs c);
  generateSelfSslCertificate := λ c s, (s, certs c);
  sleep := λ _ s, s
|}.

Lemma wgNodes_lookup s t : wgNodes s !! t = (λ n, (recordOf s t n, WireGuard.users n)) <$> WireGuard.nodes (wg s) !! t.
Proof. unfold wgNodes. rewrite map_lookup_imap. by destruct (WireGuard.nodes (wg s) !! t). Qed.

Lemma wgNodes_same s w h : WireGuard.nodes w = WireGuard.nodes (wg s) → wgNodes (mkWGCore w h (records s)) = wgNodes s.
Proof. intros E. apply map_eq. intros t. rewrite !wgNodes_lookup. simpl. by rewrite E. Qed.

Lemma wgNodes_other t s w h r : (∀ t', t' ≠ t → r !! t' = records s !! t') →
  delete t (WireGuard.nodes w) = delete t (WireGuard.nodes (wg s)) →
  delete t (wgNodes (mkWGCore w h r)) = delete t (wgNodes s).
Proof.
  intros Hr E. apply map_eq. intros t'. destruct (decide (t = t')) as [->|Hne]; [by rewrite !lookup_delete_eq|].
  rewrite !lookup_delete_ne, !wgNodes_lookup by done. apply (f_equal (.!! t')) in E. rewrite !lookup_delete_ne in E by done.
  simpl. rewrite E. unfold recordOf. simpl. by rewrite (Hr t') by done.
Qed.

Lemma wgDelNode_nodes t s : wgNodes (wgDelNode t s).1 = delete t (wgNodes s).
Proof.
  unfold wgDelNode. pose proof (WireGuardNodes.DelNode_nodes fails t (wg s) (done_ s)) as Hn.
  apply map_eq. intros t'. destruct (WireGuard.DelNode _ _ _ _) as [[w r] h]. simpl in Hn.
  destruct r; simpl; rewrite wgNodes_lookup; simpl; rewrite Hn;
    (destruct (decide (t = t')) as [<-|Hne]; [by rewrite !lookup_delete_eq|by rewrite !lookup_delete_ne, wgNodes_lookup by done]).
Qed.

(** Adding users: to the node, or not; no other node is touched. *)
Lemma wgAddUsers_spec t us w h :
  let '(w', r, h') := WireGuard.wgAddUsers fails t us w h in
  delete t (WireGuard.nodes w') = delete t (WireGuard.nodes w) ∧
  WireGuard.info <$> WireGuard.nodes w' !! t = WireGuard.info <$> WireGuard.nodes w !! t ∧
  (is_ok r = true → ∃ st st', WireGuard.nodes w !! t = Some st ∧ WireGuard.nodes w' !! t = Some st' ∧
     WireGuard.info st' = WireGuard.info st ∧ WireGuard.users st' = NodeUsers.withUsers us (WireGuard.users st)).
Proof.
  unfold WireGuard.wgAddUsers. destruct (WireGuard.nodes w !! t) as [st|] eqn:Est; [|by rewrite Est].
  pose proof (WireGuardNodes.storeUsers_spec us (WireGuard.users st)) as Hs.
  destruct (WireGuard.storeUsers us (WireGuard.users st)) as [m [e|]].
  - simpl. rewrite delete_insert_eq, lookup_insert_eq. by split_and!.
  - destruct Hs as [_ ->]. destruct (WireGuard.commitUsers _ _ _ _ _ _) as [[w' err] h'] eqn:Ec.
    apply (WireGuardNodes.commitUsers_spec fails) in Ec as ((_ & _ & Ho) & st' & Hst' & _ & _ & Hi & Hok & _); [|done].
    destruct err as [e|]; (split_and!; [done|by rewrite Hst'; simpl; rewrite Hi|]); [done|]. intros _. exists st, st'.
    destruct (Hok eq_refl) as [Hu _]. by split_and!.
Qed.

(** Deleting users: from the node, or not. *)
Lemma wgDelUsers_spec us t w h :
  let '(w', r, h') := WireGuard.wgDelUsers fails us t w h in
  delete t (WireGuard.nodes w') = delete t (WireGuard.nodes w) ∧
  WireGuard.info <$> WireGuard.nodes w' !! t = WireGuard.info <$> WireGuard.nodes w !! t ∧
  (is_ok r = true → ∃ st st', WireGuard.nodes w !! t = Some st ∧ WireGuard.nodes w' !! t = Some st' ∧
     WireGuard.info st' = WireGuard.info st ∧ WireGuard.users st' = NodeUsers.without us (WireGuard.users st)).
Proof.
  unfold WireGuard.wgDelUsers. destruct (WireGuard.nodes w !! t) as [st|] eqn:Est; [|by rewrite Est].
  destruct (WireGuard.commitUsers _ _ _ _ _ _) as [[w' err] h'] eqn:Ec.
  apply (WireGuardNodes.commitUsers_spec fails) in Ec as ((_ & _ & Ho) & st' & Hst' & _ & _ & Hi & Hok & _); [|done].
  destruct err as [e|]; (split_and!; [done|by rewrite Hst'; simpl; rewrite Hi|]); [done|]. intros _. exists st, st'.
  destruct (Hok eq_refl) as [Hu _]. by split_and!.
Qed.

(** What the laws say of a node whose users changed, and of one that kept them. *)
Lemma wgNodes_users t s w h st st' :
  delete t (WireGuard.nodes w) = delete t (WireGuard.nodes (wg s)) →
  WireGuard.nodes (wg s) !! t = Some st → WireGuard.nodes w !! t = Some st' → WireGuard.info st' = WireGuard.info st →
  wgNodes (mkWGCore w h (records s)) = <[t := (recordOf s t st, WireGuard.users st')]> (wgNodes s).
Proof.
  intros Ho Hst Hst' Hi. apply map_eq. intros t'. destruct (decide (t = t')) as [<-|Hne].
  - rewrite wgNodes_lookup, lookup_insert_eq. simpl. rewrite Hst'. simpl. unfold recordOf. simpl. by rewrite Hi.
  - rewrite lookup_insert_ne, <- (lookup_delete_ne (wgNodes s) t t') by done.
    rewrite <- (wgNodes_other t s w h (records s)) by done. by rewrite lookup_delete_ne.
Qed.

Lemma wgNodes_refused t s w h :
  delete t (WireGuard.nodes w) = delete t (WireGuard.nodes (wg s)) →
  WireGuard.info <$> WireGuard.nodes w !! t = WireGuard.info <$> WireGuard.nodes (wg s) !! t →
  delete t (wgNodes (mkWGCore w h (records s))) = delete t (wgNodes s) ∧
  fst <$> wgNodes (mkWGCore w h (records s)) !! t = fst <$> wgNodes s !! t.
Proof.
  intros Ho Hi. split; [by apply wgNodes_other|]. rewrite !wgNodes_lookup. simpl. revert Hi.
  destruct (WireGuard.nodes w !! t), (WireGuard.nodes (wg s) !! t); intros [= E] || intros _; try done.
  simpl. unfold recordOf. simpl. by rewrite E.
Qed.

(** The laws of a core hold for WireGuard. *)
Lemma wireguard_core_nodes : CoreNodes WGCore WireGuard.NodeInfo.
Proof.
  split; cbn [nodes AddNode DelNode AddUsers DelUsers wireguardCore].
  - intros t n o s [x Hx]. rewrite wgNodes_lookup in Hx. unfold wgAddNode, WireGuard.AddNode.
    destruct (WireGuard.validateWireGuardNode _ _); [|by eexists].
    destruct (WireGuard.nodes (wg s) !! t); [by eexists|done].
  - intros t n o s. unfold wgAddNode.
    destruct (WireGuard.AddNode _ _ _ _ _ _ _ _) as [[w r] h] eqn:E. apply WireGuardNodes.add_node_atomic in E.
    destruct r; [|done]. intros _. destruct E as (ni & st & [= <-] & Hfree & _ & (_ & _ & Ho) & Hst & _ & Hu & _). simpl.
    apply map_eq. intros t'. destruct (decide (t = t')) as [<-|Hne].
    + rewrite wgNodes_lookup, lookup_insert_eq. simpl. rewrite Hst. simpl. unfold recordOf. simpl.
      by rewrite lookup_insert_eq, Hu.
    + rewrite lookup_insert_ne by done.
      rewrite <- (lookup_delete_ne (wgNodes s) t t'), <- (wgNodes_other t s w h (<[t:=n]> (records s))) by
        (done || by intros; rewrite lookup_insert_ne). by rewrite lookup_delete_ne.
  - intros t n o s. unfold wgAddNode.
    destruct (WireGuard.AddNode _ _ _ _ _ _ _ _) as [[w r] h] eqn:E. apply WireGuardNodes.add_node_atomic in E.
    destruct r; [by intros []|]. intros _. destruct E as [En _]. by apply wgNodes_same.
  - intros t s _. apply wgDelNode_nodes.
  - intros t s e. pose proof (wgDelNode_nodes t s) as Hn. revert Hn. unfold wgDelNode.
    destruct (WireGuard.DelNode _ _ _ _) as [[w r] h]. destruct r; [done|]. intros Hn [= <-] Hnf%bool_decide_eq_true. simpl in *.
    assert (wgNodes s !! t = None) by (by rewrite wgNodes_lookup, Hnf). split; [done|]. by rewrite Hn, delete_id.
  - intros t s e _. right. apply wgDelNode_nodes.
  - intros t us n s. unfold wgAdd. pose proof (wgAddUsers_spec t us (wg s) (done_ s)) as Hs.
    destruct (WireGuard.wgAddUsers _ _ _ _ _) as [[w r] h]. destruct Hs as (Ho & _ & Hok). destruct r; [|done]. intros _.
    destruct (Hok eq_refl) as (st & st' & Hst & Hst' & Hi & Hu).
    exists (recordOf s t st), (WireGuard.users st). split; [by rewrite wgNodes_lookup, Hst|].
    simpl. rewrite <- Hu. by eapply wgNodes_users.
  - intros t us n s. unfold wgAdd. pose proof (wgAddUsers_spec t us (wg s) (done_ s)) as Hs.
    destruct (WireGuard.wgAddUsers _ _ _ _ _) as [[w r] h]. destruct Hs as (Ho & Hi & _).
    destruct r; [by intros []|]. intros _. by apply wgNodes_refused.
  - intros us t n s m old. unfold wgDel. pose proof (wgDelUsers_spec us t (wg s) (done_ s)) as Hs.
    destruct (WireGuard.wgDelUsers _ _ _ _ _) as [[w r] h]. destruct Hs as (Ho & _ & Hok). destruct r; [|done]. intros _.
    destruct (Hok eq_refl) as (st & st' & Hst & Hst' & Hi & Hu). rewrite wgNodes_lookup, Hst. intros [= <- <-].
    simpl. rewrite <- Hu. by eapply wgNodes_users.
  - intros us t n s. rewrite wgNodes_lookup. unfold wgDel, WireGuard.wgDelUsers.
    destruct (WireGuard.nodes (wg s) !! t); [done|]. intros _. by apply wgNodes_same.
  - intros us t n s. unfold wgDel. pose proof (wgDelUsers_spec us t (wg s) (done_ s)) as Hs.
    destruct (WireGuard.wgDelUsers _ _ _ _ _) as [[w r] h]. destruct Hs as (Ho & Hi & _).
    destruct r; [by intros []|]. intros _. by apply wgNodes_refused.
Qed.

Lemma wireguard_core_laws : CoreLaws WGCore WireGuard.NodeInfo.
Proof. split; [apply wireguard_core_nodes|done..]. Qed.

End WireGuardCore.
End NodeWireGuard.
