(* ===== verification/NodeDemo.v ===== *)
(** * A node in memory

    A core that keeps its nodes in a map and refuses some configurations and
    users: it has the laws the theorems about controllers assume, and shows
    their hypotheses can hold.  The examples are runs of the code: reloads that
    are refused, addresses still in use, a delete that fails, rules that do not
    compile, log hooks after a change of type and after a second start. *)

From S2P Require Import Prelude GoStrings Limiter NodeUsers Negotiation DataPlane Users NodeReports NodeController NodeReload NodeFrames.
From S2P Require Import NodeSnapshots NodeServing NodeStart.
From Stdlib Require Import String.

Module NodeDemo.
Import Limiter DataPlane NodeController NodeReload NodeFrames NodeSnapshots NodeServing NodeStart.

Record Mem := mkMem { mnodes : gmap string (NodeInfo nat * gmap string UserInfo); busy : nat }.

(** Whether a delete fails after it forgot the node, as WireGuard's does when
    the link cannot be deleted. *)
Class Deletes := deletesFail : bool.

Definition memError (e : string) : option coreError := Some (mkCoreError false false e).

Definition memAddNode (t : string) (n : NodeInfo nat) (_ : Options) (s : Mem) : Mem * option coreError :=
  match mnodes s !! t, busy s, Body n with
  | Some _, _, _ => (s, memError "already exists")
  | None, Datatypes.S k, _ => (mkMem (mnodes s) k, Some (mkCoreError false true "listen: address already in use"))
  | None, O, O => (s, memError "unsupported")
  | None, O, Datatypes.S _ => (mkMem (<[t := (n, ∅)]> (mnodes s)) 0, None)
  end.

Definition memDelNode `{Deletes} (t : string) (s : Mem) : Mem * option coreError :=
  match mnodes s !! t with
  | None => (s, Some (mkCoreError true false "not found"))
  | Some _ => (mkMem (delete t (mnodes s)) (busy s), if deletesFail then memError "device busy" else None)
  end.

Definition memAddUsers (t : string) (us : list UserInfo) (_ : NodeInfo nat) (s : Mem) : Mem * option coreError :=
  match mnodes s !! t with
  | None => (s, memError "no node")
  | Some (n, old) =>
      if existsb (λ u, String.eqb (Uuid u) "bad") us then (s, memError "invalid user")
      else (mkMem (<[t := (n, NodeUsers.withUsers us old)]> (mnodes s)) (busy s), None)
  end.

Definition memDelUsers (us : list UserInfo) (t : string) (_ : NodeInfo nat) (s : Mem) : Mem * option coreError :=
  match mnodes s !! t with
  | None => (s, memError "no node")
  | Some (n, old) => (mkMem (<[t := (n, NodeUsers.without us old)]> (mnodes s)) (busy s), None)
  end.

#[local] Instance memCore `{Deletes} : Core Mem nat := {|
  nodes := mnodes; AddNode := memAddNode; DelNode := memDelNode; AddUsers := memAddUsers; DelUsers := memDelUsers
|}.

(** Expressions compile unless they open a group. *)
#[local] Instance memHost : Host Mem := {|
  compiles := λ r, negb (contains r "(");
  fileExists := λ _ _, false;
  createLegoCert := λ _ s, (s, Err "no ACME");
  generateSelfSslCertificate := λ _ s, (s, Ok tt);
  sleep := λ _ s, s
|}.

Lemma memory_core_nodes `{Deletes} : CoreNodes Mem nat.
Proof.
  split; cbn [nodes AddNode DelNode AddUsers DelUsers memCore]; unfold memAddNode, memDelNode, memAddUsers, memDelUsers.
  - intros t n o s [x ->]. by eexists.
  - intros t n o s. by destruct (mnodes s !! t), (busy s), (Body n).
  - intros t n o s. destruct (mnodes s !! t), (busy s), (Body n); try done; by intros [].
  - intros t s. by destruct (mnodes s !! t).
  - intros t s e. destruct (mnodes s !! t); [|done]. simpl. destruct deletesFail; [|done]. by intros [= <-].
  - intros t s e. destruct (mnodes s !! t); simpl; [by right|by left].
  - intros t us n s. destruct (mnodes s !! t) as [[m old]|]; [|done]. destruct (existsb _ us); [done|]. intros _. by exists m, old.
  - intros t us n s. destruct (mnodes s !! t) as [[m old]|] eqn:E; simpl; [|by rewrite E].
    destruct (existsb _ us); simpl; [by rewrite E|by intros []].
  - intros us t n s m old. by destruct (mnodes s !! t); [intros _ [= ->]|].
  - by intros us t n s ->.
  - intros us t n s. destruct (mnodes s !! t) as [[m old]|] eqn:E; simpl; [by intros []|by rewrite E].
Qed.

Lemma memory_core_laws `{Deletes} : CoreLaws Mem nat.
Proof. split; [apply memory_core_nodes|done..]. Qed.

#[local] Existing Instance memory_core_laws.

Definition working : Deletes := false.
Definition failing : Deletes := true.

Lemma working_deletes : deletesWork (Core0 := memCore (H := working)).
Proof.
  intros t s e. cbn [DelNode memCore]. unfold memDelNode. destruct (mnodes s !! t); [done|]. by intros [= <-].
Qed.

(** ** A controller *)

Definition opts : Options := mkOptions "" 0 0 false None (mkCert "none" "" "" "").
Definition fresh : @Controller nat := NewController 7 "https://c" "" 0 opts.
Definition empty : @World Mem := mkWorld (mkMem ∅ 0) ∅ 0 ∅ [] 0.
Definition user (id : Z) (uuid : string) : UserInfo := mkUser id uuid 0 0 "" "" "" ∅.
Definition noRules : Rules := mkRules [] [].
Definition node (type : string) (body : nat) : NodeInfo nat := mkNode 7 type 0 (60 * second) noRules body.

Section Runs.
Context `{Deletes}.

(** The controller runs its first configuration. *)
Definition ran : outcome unit * @Controller nat * @World Mem := startWith (node "vless" 1) [user 1 "a"] None fresh empty.
Definition c1 : @Controller nat := ran.1.2.
Definition w1 : @World Mem := ran.2.

Definition reload (n : NodeInfo nat) (x : outcome unit * @Controller nat * @World Mem) : outcome unit * @Controller nat * @World Mem :=
  reconcileLocked (Some n) None None x.1.2 x.2.

Lemma ran_placed : Placed c1 w1.
Proof.
  split.
  - exists 0%nat, (default (mkObject (Limiter.AddLimiter "" 0 [] ∅) []) (limiters w1 !! 0%nat)). by split_and!.
  - exists (node "vless" 1). by split_and!.
Qed.

End Runs.

(** ** Witnesses *)


(** A user the core refuses at the start: no later configuration starts the
    node, although its users are fine. *)
Lemma failed_start_witness :
  let x := startWith (Core0 := memCore (H := working)) (node "vless" 1) [user 1 "bad"] None fresh empty in
  let y := applyAll (Core0 := memCore (H := working)) [(node "vless" 1, [user 1 "a"], ∅); (node "vless" 2, [], ∅)] x.1.2 x.2 in
  started y.1.2 = false.
Proof.
  pose proof (failed_start_sticks (Core0 := memCore (H := working)) (CoreLaws0 := memory_core_laws (H := working))
    (node "vless" 1) [user 1 "bad"] None fresh empty [(node "vless" 1, [user 1 "a"], ∅); (node "vless" 2, [], ∅)]
    eq_refl eq_refl ltac:(repeat constructor)) as Hf.
  cbv zeta.
  assert ((startWith (Core0 := memCore (H := working)) (node "vless" 1) [user 1 "bad"] None fresh empty).1.1 ≠ Ret tt) as Hr
    by (vm_compute; discriminate).
  assert (nodeAdded (startWith (Core0 := memCore (H := working)) (node "vless" 1) [user 1 "bad"] None fresh empty).1.2 = true) as Ha
    by (vm_compute; reflexivity).
  destruct (startWith (node "vless" 1) [user 1 "bad"] None fresh empty) as [[r c] w]. cbn [fst snd] in *.
  specialize (Hf Hr Ha). destruct (applyAll _ c w) as [[rs c2] w2]. exact (proj2 Hf).
Defined.

(** *** Snapshots *)

Definition oneProtocol : snapshotDocument := mkDocument "" [1] (Some (mkRuntime "vless" ∅ {["1" := "vless"]})).
Definition twoProtocols : snapshotDocument :=
  mkDocument "" [1; 2] (Some (mkRuntime "vless" ∅ (<["1" := "vless"]> {["2" := "trojan"]}))).

#[local] Instance memDocuments : Documents nat := {|
  decodeDocument := λ s, if String.eqb s "one" then Some oneProtocol else if String.eqb s "two" then Some twoProtocols else None;
  ParseNodeInfo := λ body id, Ok (mkNode id body 0 (60 * second) noRules 1%nat);
  parseExtra := λ _, None;
  NodeKindProxy := "proxy"
|}.

#[local] Instance memMembers : Members Mem := {|
  ForwardApply := λ _ s, (s, None);
  NetworkApply := λ _ s, (s, None);
  Egress := unit; ParseEgress := λ _, Ok tt; EgressEmpty := λ _, true; ApplyEgress := None;
  QoS := unit; ParseQoS := λ _, Ok tt; ApplyQoS := None;
  ExitPolicy := unit; ParseExitPolicy := λ _, Ok tt; ApplyExitPolicy := None
|}.

Lemma memory_members_laws `{Deletes} : MembersLaws Mem nat.
Proof. by split. Qed.

Definition snapshot (revision : Z) (text : string) : ConfigSnapshot := mkSnapshot revision text ConfigFormatNodeConfigV1 text.

Definition plane0 : @Plane nat :=
  mkPlane 7 [fresh] ∅ 1 true false false None (Some [user 1 "a"]) None (NodeReports.mkPlane ∅ false [] None None false) false.

Definition never (_ : nat) : bool := false.

Definition applied (s : ConfigSnapshot) (p : @Plane nat) (w : @World Mem) : ends * @Plane nat * @World Mem :=
  ApplyConfig (Core0 := memCore (H := working)) never s p w.

Definition after_two : ends * @Plane nat * @World Mem := applied (snapshot 1 "two") plane0 empty.

Lemma plane0_ok : NodeOk (Core0 := memCore (H := working)) plane0 empty.
Proof. exists fresh. split_and!; done. Qed.


(** The protocol leaves the document: so does its inbound. *)
Example protocol_removed :
  let x := applied (snapshot 2 "one") after_two.1.2 after_two.2 in
  x.1.1 = Errs [] ∧ extras x.1.2 = ∅ ∧ mnodes (core x.2) !! "[https://c]-trojan:7#2" = None ∧
  table x.2 !! "[https://c]-trojan:7#2" = None.
Proof. by vm_compute. Qed.

(** *** A start from the stored state *)

#[local] Instance memCodes : ConfigSDK := {|
  ConfigErrorCodeInvalid := "config_invalid"; ConfigErrorCodeApplyFailed := "config_apply_failed";
  ConfigErrorCodeFormatUnsupported := "format"; ConfigErrorCodeHashMismatch := "hash"; ConfigFormatNodeConfigV2 := "v2"
|}.

Definition link (s : ConfigSnapshot) (us : list NodeUser) : Link :=
  mkLink (mkConfig false (Some s) None None None 0 "" 0 0 0)
    (Users.mkUsers false 0 None 0 0 (Some (Users.mkUserSet 5 us)) [] "" [] false 0 0 "").

Definition quietEnv : StartEnv := mkStartEnv (Ok tt) false DataPlaneOff DataPlaneOff (λ u, u) (λ d, d) never never 0.

Definition startedUp : startEnd * Link * @Plane nat * @World Mem :=
  start (Core0 := memCore (H := working)) quietEnv (link (snapshot 3 "two") [mkNodeUser 1 "a" 0 0 ""]) plane0 empty.

Lemma start_witness :
  startedUp.1.1.1 = Started ∧ helloConfigRevision (cfg startedUp.1.1.2) = 3 ∧
  took (Core0 := memCore (H := working)) (snapshot 3 "two") startedUp.1.2 startedUp.2.
Proof.
  pose proof (start_tells_truth (Core0 := memCore (H := working)) (CoreLaws0 := memory_core_laws (H := working))
    quietEnv (link (snapshot 3 "two") [mkNodeUser 1 "a" 0 0 ""]) plane0 empty startedUp.1.1.2 startedUp.1.2 startedUp.2
    eq_refl eq_refl (λ d, eq_refl)) as Ht.
  assert (startedUp.1.1.1 = Started) as Hs by (vm_compute; reflexivity).
  assert (appliedConfig (cfg startedUp.1.1.2) = Some (snapshot 3 "two")) as Ha by (vm_compute; reflexivity).
  destruct Ht as [Ht _].
  - change (start quietEnv (link (snapshot 3 "two") [mkNodeUser 1 "a" 0 0 ""]) plane0 empty) with startedUp.
    rewrite <- Hs. by destruct startedUp as [[[x l] p] w].
  - split_and!; [done|by vm_compute|by apply Ht].
Defined.

(** ** Runs *)

(** A node whose address is still in use is added on a later attempt, up to
    three; after that the previous configuration is put back, which has its own
    three. *)
Definition busyFor (k : nat) : @World Mem := set_core (w1 (H := working)) (mkMem (mnodes (core (w1 (H := working)))) k).

Example address_released :
  (replaceNodeLocked (Core0 := memCore (H := working)) (node "vless" 2) (c1 (H := working)) (busyFor 3)).1.1 = Ret tt.
Proof. by vm_compute. Qed.

Example address_held :
  let x := replaceNodeLocked (Core0 := memCore (H := working)) (node "vless" 2) (c1 (H := working)) (busyFor 4) in
  x.1.1 ≠ Ret tt ∧ info x.1.2 = Some (node "vless" 1) ∧ nodeAdded x.1.2 = true ∧
  let y := replaceNodeLocked (Core0 := memCore (H := working)) (node "vless" 2) (c1 (H := working)) (busyFor 8) in
  y.1.1 ≠ Ret tt ∧ nodeAdded y.1.2 = false ∧ mnodes (core y.2) = ∅.
Proof. by vm_compute. Qed.

(** A delete that fails after the core forgot the node, as WireGuard's and
    anixcore's do: [nodeAdded] stays set, so when Control goes back to the
    previous configuration it counts as unchanged, and the node stays down
    although the reload reports success. *)
Example failed_delete_hides_node :
  let x := reload (H := failing) (node "vless" 2) (ran (H := failing)) in
  let y := reload (H := failing) (node "vless" 1) x in
  x.1.1 ≠ Ret tt ∧ y.1.1 = Ret tt ∧ nodeAdded y.1.2 = true ∧ mnodes (core y.2) = ∅.
Proof. by vm_compute. Qed.

(** A rule that does not compile ends the Agent: [UpdateRule] never returns an
    error. *)
Example bad_rule_panics :
  (reload (H := working) (mkNode 7 "vless" 0 (60 * second) (mkRules ["("] []) 2%nat) (ran (H := working))).1.1 = Panic.
Proof. by vm_compute. Qed.

(** After a change of type the node has a new tag, but its log hook still
    forwards only entries of the old one. *)
Example type_change_stops_logs :
  let x := reload (H := working) (node "trojan" 1) (ran (H := working)) in
  x.1.1 = Ret tt ∧ forwarding (tag x.1.2) x.2 = [] ∧ forwarding (tag (c1 (H := working))) x.2 ≠ [].
Proof. by vm_compute. Qed.

(** A start that failed leaves its log hook; the next attempt adds another, and
    each entry is reported twice. *)
Example second_start_second_hook :
  let x := startWith (Core0 := memCore (H := working)) (node "vless" 0) [] None fresh empty in
  let y := startWith (Core0 := memCore (H := working)) (node "vless" 1) [] None x.1.2 x.2 in
  y.1.1 = Ret tt ∧ List.length (forwarding (tag y.1.2) y.2) = 2%nat.
Proof. by vm_compute. Qed.

(** An alive list that came before the start is the one the limiter counts. *)
Example alive_list_of_the_stream_stays :
  let x := applyStreamAlive (S := Mem) {[1 := 2]} fresh empty in
  let y := startWith (Core0 := memCore (H := working)) (node "vless" 1) [] (Some ∅) x.1.2 x.2 in
  (Limiter.AliveList ∘ lim) <$> GetLimiter (tag y.1.2) y.2 = Some {[1 := 2]}.
Proof. by vm_compute. Qed.

End NodeDemo.
