(* ===== verification/Selector.v ===== *)
(** * Choosing a core (src/core/selector.go, core.go, conf/node.go)

    An Agent with several cores runs them behind a selector: a node goes to the
    core its options name, or to the first one that serves its protocol and
    takes it, and later calls for its tag go there.  Cores are a type [C] with
    the interface [NodeController.Core] and, where the code asserts an optional
    interface, a function that answers the methods of the cores that have it.
    A node's options are an object the selector writes to (the core it chose,
    the raw options it has used), so they are returned.  JSON decoding of the
    options is the class [OptionsCodec]. *)

From S2P Require Import Prelude GoStrings Limiter NodeUsers Destinations NetworkPlan NodeController.
From Stdlib Require Import Ascii String.

Module Selector.
Import Limiter NodeController.

(** ** Options *)

(** [conf.Options]: what selects a core, beside what cores read.  [RawOptions]
    is the document the options were decoded from, empty for none. *)
Record NodeOptions := mkNodeOptions { opts : Options; Core_ : string; CoreName : string; RawOptions : string }.

(** [json.Unmarshal] into the options: what is decoded before an error stays. *)
Class OptionsCodec := { decodeOptions : string → NodeOptions → NodeOptions * option string }.

Definition with_core (o : NodeOptions) (core name : string) : NodeOptions := mkNodeOptions (opts o) core name (RawOptions o).
Definition with_raw (o : NodeOptions) (raw : string) : NodeOptions := mkNodeOptions (opts o) (Core_ o) (CoreName o) raw.

Definition retiredCores : list string := ["xray"; "sing"; "hysteria2"; "anixcore"].

Definition UnmarshalJSON `{OptionsCodec} (data : string) (o : NodeOptions) : NodeOptions * option string :=
  match decodeOptions data o with
  | (o, Some e) => (o, Some e)
  | (o, None) =>
      (with_raw
         (with_core o (if existsb (String.eqb (Core_ o)) retiredCores then "anixcore"
                       else if String.eqb (Core_ o) "wireguard" then "wireguard" else "") (CoreName o)) data, None)
  end.

(** ** Cores *)

(** The methods of [vCore.Core] the selector reads beside those of the
    controllers, and the optional interfaces of src/core/interface.go: [None]
    for a core without the interface. *)
Class Member (C B : Type) := {
  member_core :: Core C B;
  Type_ : C → string;
  Protocols : C → list string;
  StartCore : C → C * option string;
  CloseCore : C → C * option string;
  TrafficSlice : string → bool → C → C * result (list NodeUsers.UserTraffic);
  OnlineDeviceProvider : C → option (string → C → C * result (list (Z * string)));
  RateLimitUpdater : C → option (string → string → Z → C → C * option coreError);
  TrafficRollbacker : C → option (string → list NodeUsers.UserTraffic → C → C * option coreError);
  DestinationProvider : C → option (string → C → C * result (list (Z * Destinations.Entry)))
}.

(** [EgressApplier], [QoSApplier], [ExitPolicyApplier], [MainlandCounter] and
    [NetworkApplier], over what they apply. *)
Class Appliers (C E Q X K P St : Type) := {
  EgressApplier : C → option (E → C → C * option string);
  EgressEmpty : E → bool;
  QoSApplier : C → option (Q → C → C * option string);
  ExitPolicyApplier : C → option (X → C → C * option string);
  MainlandCounter : C → option (C → C * result Z);
  Kinds : C → option (list K);
  CoreNetwork : P → C → C * (option St * option string);
  CoreNetworkStatus : C → C * result St
}.

(** [conf.CoreConfig]: its type and name; the rest is read by the core's
    constructor. *)
Record CoreConfig := mkCoreConfig { CType : string; CName : string; BinaryPath : string; AnxLine : bool }.

Definition ErrNodeNotFound : coreError := mkCoreError true false "the node is not have".

Definition newline : string := String "010"%char "".

(** [errors.Join], and the text before an error that is wrapped. *)
Definition joinErrors (a : option coreError) (b : coreError) : coreError :=
  match a with
  | None => b
  | Some a => mkCoreError (nodeNotFound a || nodeNotFound b) (eaddrinuse a || eaddrinuse b) (text a +:+ newline +:+ text b)
  end.
Definition wrapError (prefix : string) (e : coreError) : coreError :=
  mkCoreError (nodeNotFound e) (eaddrinuse e) (prefix +:+ ": " +:+ text e).

Definition plain (e : string) : coreError := mkCoreError false false e.

Definition isSupported (protocol : string) (protocols : list string) : bool := existsb (String.eqb protocol) protocols.

Definition coreKey (t : CoreConfig) : string := if negb (String.eqb (CName t) "") then CName t else CType t.

Section Selecting.
Context {C B : Type} `{!Member C B} `{!OptionsCodec}.
Abbreviation Info := (NodeInfo B).

(** [Selector].  A core is found by its key; [placed] names the key of the core
    a tag is stored for. *)
Record Selector := mkSelector { cores : gmap string C; order : list string; placed : gmap string string }.

Definition set_member (s : Selector) (key : string) (c : C) : Selector := mkSelector (<[key := c]> (cores s)) (order s) (placed s).
Definition store (tag key : string) (s : Selector) : Selector := mkSelector (cores s) (order s) (<[tag := key]> (placed s)).
Definition forget (tag : string) (s : Selector) : Selector := mkSelector (cores s) (order s) (delete tag (placed s)).

(** [NewSelector], with the registered constructors by type. *)
Definition addCore (registry : gmap string (CoreConfig → result C)) (s : result Selector) (t : CoreConfig) : result Selector :=
  let? s := s in
  if decide (is_Some (cores s !! coreKey t)) then Ok s
  else match registry !! to_lower (CType t) with
       | None => Err ("unknown core type: " +:+ CType t)
       | Some f => let? c := f t in Ok (mkSelector (<[coreKey t := c]> (cores s)) (order s ++ [coreKey t]) (placed s))
       end.

Definition NewSelector (registry : gmap string (CoreConfig → result C)) (c : list CoreConfig) : result Selector :=
  foldl (addCore registry) (Ok (mkSelector ∅ [] ∅)) c.

(** A core's answer, with the core put back. *)
Definition onCore {A} (key : string) (f : C → C * A) (absent : A) (s : Selector) : Selector * A :=
  match cores s !! key with
  | None => (s, absent)
  | Some c => let '(c, a) := f c in (set_member s key c, a)
  end.

(** [Start] stops at the first error, [Close] joins them; both range over the
    map in an order of Go's. *)
Fixpoint StartAll (keys : list string) (s : Selector) : Selector * option string :=
  match keys with
  | [] => (s, None)
  | key :: keys =>
      match onCore key StartCore None s with
      | (s, Some e) => (s, Some e)
      | (s, None) => StartAll keys s
      end
  end.

Fixpoint CloseAll (keys : list string) (s : Selector) : Selector * list string :=
  match keys with
  | [] => (s, [])
  | key :: keys =>
      let '(s, e) := onCore key CloseCore None s in
      let '(s, errs) := CloseAll keys s in
      (s, option_list e ++ errs)
  end.

(** *** Adding a node *)

(** The loop of [addByProtocol] over the cores that are left. *)
Fixpoint addFirst (keys : list string) (raw tag : string) (info : Info) (refused : option coreError) (o : NodeOptions) (s : Selector)
    : Selector * NodeOptions * option coreError :=
  match keys with
  | [] => (s, o, Some (default (plain "the node type is not support") refused))
  | key :: keys =>
      match cores s !! key with
      | None => addFirst keys raw tag info refused o s
      | Some c =>
          if negb (isSupported (NType info) (Protocols c)) then addFirst keys raw tag info refused o s
          else
            match UnmarshalJSON raw (with_core o (Type_ c) (CoreName o)) with
            | (o, Some e) => (s, o, Some (plain ("unmarshal option error: " +:+ e)))
            | (o, None) =>
                let o := with_raw o "" in
                match AddNode tag info (opts o) c with
                | (c', None) => (store tag key (set_member s key c'), o, None)
                | (c', Some e) => addFirst keys raw tag info (Some (joinErrors refused (wrapError (Type_ c) e))) o (set_member s key c')
                end
            end
      end
  end.

Definition addByProtocol (tag : string) (info : Info) (o : NodeOptions) (s : Selector) : Selector * NodeOptions * option coreError :=
  addFirst (order s) (RawOptions o) tag info None o s.

(** The core the options name. *)
Definition named (o : NodeOptions) (s : Selector) : option string :=
  if negb (String.eqb (CoreName o) "") then if decide (is_Some (cores s !! CoreName o)) then Some (CoreName o) else None
  else List.find (λ key, match cores s !! key with Some c => String.eqb (Core_ o) (Type_ c) | None => false end) (order s).

Definition AddNode (tag : string) (info : Info) (o : NodeOptions) (s : Selector) : Selector * NodeOptions * option coreError :=
  if String.eqb (CoreName o) "" && String.eqb (Core_ o) "" then addByProtocol tag info o s
  else match named o s with
       | None => addByProtocol tag info (with_core o "" "") s
       | Some key =>
           match onCore key (NodeController.AddNode tag info (opts o)) None s with
           | (s, None) => (store tag key s, o, None)
           | (s, Some e) => (s, o, Some e)
           end
       end.

(** *** Calls for a tag *)

Definition onNode {A} (tag : string) (f : C → C * A) (missing : A) (s : Selector) : Selector * A :=
  match placed s !! tag with
  | None => (s, missing)
  | Some key => onCore key f missing s
  end.

(** A method of an optional interface: a core without it answers [none]. *)
Definition optional {A} (provider : option (C → C * A)) (none : A) (c : C) : C * A :=
  match provider with Some f => f c | None => (c, none) end.

Definition DelNode (tag : string) (s : Selector) : Selector * option coreError :=
  match placed s !! tag with
  | None => (s, Some ErrNodeNotFound)
  | Some key =>
      match onCore key (NodeController.DelNode tag) None s with
      | (s, Some e) => (s, Some e)
      | (s, None) => (forget tag s, None)
      end
  end.

Definition AddUsers (tag : string) (users : list UserInfo) (info : Info) : Selector → Selector * option coreError :=
  onNode tag (NodeController.AddUsers tag users info) (Some ErrNodeNotFound).

Definition DelUsers (users : list UserInfo) (tag : string) (info : Info) : Selector → Selector * option coreError :=
  onNode tag (NodeController.DelUsers users tag info) (Some ErrNodeNotFound).

Definition GetUserTrafficSlice (tag : string) (reset : bool) : Selector → Selector * result (list NodeUsers.UserTraffic) :=
  onNode tag (TrafficSlice tag reset) (Err (text ErrNodeNotFound)).

Definition GetOnlineDevice (tag : string) : Selector → Selector * result (list (Z * string)) :=
  onNode tag (λ c, optional ((λ f, f tag) <$> OnlineDeviceProvider c) (Ok []) c) (Err (text ErrNodeNotFound)).

Definition GetDestinationTraffic (tag : string) : Selector → Selector * result (list (Z * Destinations.Entry)) :=
  onNode tag (λ c, optional ((λ f, f tag) <$> DestinationProvider c) (Ok []) c) (Err (text ErrNodeNotFound)).

Definition UpdateUserRateLimit (tag uuid : string) (speedLimit : Z) : Selector → Selector * option coreError :=
  onNode tag (λ c, optional ((λ f, f tag uuid speedLimit) <$> RateLimitUpdater c) None c) (Some ErrNodeNotFound).

Definition RollbackUserTrafficSlice (tag : string) (traffic : list NodeUsers.UserTraffic) : Selector → Selector * option coreError :=
  onNode tag (λ c, optional ((λ f, f tag traffic) <$> TrafficRollbacker c) None c) (Some ErrNodeNotFound).

Definition AllProtocols (s : Selector) : list string :=
  mjoin ((λ key, default [] (Protocols <$> cores s !! key)) <$> order s).

Definition SelectorType (s : Selector) : string :=
  "Selector(" +:+ join ((λ n, if String.eqb n "" then default "" (Type_ <$> cores s !! n) else n) <$> order s) " " +:+ ")".

(** *** The optional parts of a configuration *)

Section Parts.
Context {E Q X K P St : Type} `{!Appliers C E Q X K P St}.

(** The first core in configuration order that has an interface. *)
Definition firstWith {A} (provider : C → option A) (s : Selector) : option (string * A) :=
  head (omap (λ key, pair key <$> (cores s !! key ≫= provider)) (order s)).

Definition ErrEgressUnsupported : string := "no core of this Agent runs egress routes (they need the xray or anixcore core)".
Definition ErrNetworkUnsupported : string := "no core of this Agent runs the network model (it needs the anixcore core)".

Definition ApplyEgress (config : E) (s : Selector) : Selector * option string :=
  match firstWith (EgressApplier (C := C)) s with
  | Some (key, apply) => onCore key (apply config) None s
  | None => (s, if EgressEmpty (C := C) config then None else Some ErrEgressUnsupported)
  end.

Definition ApplyQoS (config : Q) (s : Selector) : Selector * option string :=
  match firstWith (QoSApplier (C := C)) s with
  | Some (key, apply) => onCore key (apply config) None s
  | None => (s, None)
  end.

Definition ApplyExitPolicy (policy : X) (s : Selector) : Selector * option string :=
  match firstWith (ExitPolicyApplier (C := C)) s with
  | Some (key, apply) => onCore key (apply policy) None s
  | None => (s, None)
  end.

Definition MainlandBlocked (s : Selector) : Selector * result Z :=
  match firstWith (MainlandCounter (C := C)) s with
  | Some (key, count) => onCore key count (Ok 0) s
  | None => (s, Ok 0)
  end.

(** The first core with kinds of the network model, which runs it all. *)
Definition networkApplier (s : Selector) : option (string * list K) :=
  firstWith (λ c, match Kinds (C := C) c with Some (k :: kinds) => Some (k :: kinds) | _ => None end) s.

Definition NetworkKinds (s : Selector) : list K := default [] (snd <$> networkApplier s).

Definition ApplyNetwork (plan : P) (s : Selector) : Selector * (option St * option string) :=
  match networkApplier s with
  | Some (key, _) => onCore key (CoreNetwork plan) (None, None) s
  | None => (s, (None, Some ErrNetworkUnsupported))
  end.

Definition NetworkStatus (s : Selector) : Selector * result St :=
  match networkApplier s with
  | Some (key, _) => onCore key CoreNetworkStatus (Err ErrNetworkUnsupported) s
  | None => (s, Err ErrNetworkUnsupported)
  end.

End Parts.

(** ** The cores of a configuration (src/core/core.go) *)

(** One core, or several behind a selector. *)
Inductive AnyCore := OneCore (c : C) | Several (s : Selector).

Definition NewCore (registry : gmap string (CoreConfig → result C)) (c : list CoreConfig) : result AnyCore :=
  match c with
  | [] => Err "no have vail core"
  | [t] => match registry !! CType t with
           | Some f => let? core := f t in Ok (OneCore core)
           | None => Err "unknown core type"
           end
  | _ => let? s := NewSelector registry c in Ok (Several s)
  end.

Definition defaultCorePreference : list string := ["anixcore"; "wireguard"].

(** [rank]: the position in the preference, or its length. *)
Fixpoint rank (preference : list string) (name : string) : nat :=
  match preference with
  | [] => 0
  | p :: preference => if String.eqb p name then 0 else Datatypes.S (rank preference name)
  end.

Definition coreBefore (preference : list string) (a b : string) : bool :=
  if decide (rank preference a = rank preference b) then NetworkPlan.str_le a b
  else bool_decide (rank preference a < rank preference b)%nat.

(** The default configuration of the registered cores; [binary] is what
    [anixcoreBinary] found, with whether it is anx-node. *)
Definition DefaultCoreConfigs (names : list string) (binary : option (string * bool)) : list CoreConfig :=
  let preference := match binary with Some _ => defaultCorePreference | None => drop 1 defaultCorePreference end in
  let names := match binary with Some _ => names | None => filter (λ n, n ≠ "anixcore") names end in
  (λ name, if String.eqb name "anixcore" then mkCoreConfig name "" (default "" (fst <$> binary)) (default false (snd <$> binary))
           else mkCoreConfig name "" "" false) <$> NetworkPlan.sort_by (coreBefore preference) names.

Definition NewForConfig (registry : gmap string (CoreConfig → result C)) (names : list string) (binary : option (string * bool))
    (cores : list CoreConfig) (nodes : Z) : result AnyCore :=
  if bool_decide (cores ≠ []) || (nodes =? 0) then NewCore registry cores
  else match DefaultCoreConfigs names binary with
       | [] => Err "no have vail core"
       | defaults => let? s := NewSelector registry defaults in Ok (Several s)
       end.

End Selecting.
End Selector.
