(* ===== verification/SelectorRuns.v ===== *)
(** * What a selector of cores runs

    Behind the selector the cores look like one: the nodes it runs are those of
    its cores, each on one core, and every call changes them as the laws of a
    core say ([CoreNodes]).  A node is on the first core, in configuration
    order, that serves its protocol and took it.  The last part is a selector
    of two cores in memory, with what its writes to a node's options lead to. *)

From S2P Require Import Prelude GoStrings Limiter NodeUsers Destinations NetworkPlan NodeController Selector.
From Stdlib Require Import Ascii String.

Module SelectorRuns.
Import Limiter NodeController Selector.

Section Runs.
Context {C B : Type} `{!Member C B} `{!OptionsCodec} `{!CoreNodes C B}.
Abbreviation Sel := (@Selector C).
Abbreviation Nodes := (gmap string (NodeInfo B * gmap string UserInfo)).

(** ** The nodes of a selector *)

Definition view (s : Sel) : Nodes := map_imap (λ tag key, cores s !! key ≫= λ c, nodes c !! tag) (placed s).

(** Calls for a tag reach a core, and no other core runs it. *)
Record Routed (s : Sel) : Prop := {
  routed_order : NoDup (order s);
  routed_core : ∀ tag key, placed s !! tag = Some key → is_Some (cores s !! key);
  routed_only : ∀ key c tag, cores s !! key = Some c → is_Some (nodes c !! tag) → placed s !! tag = Some key
}.

Lemma view_lookup s tag : view s !! tag = key ← placed s !! tag; c ← cores s !! key; nodes c !! tag.
Proof. unfold view. by rewrite map_lookup_imap. Qed.

Lemma view_core s key c tag : Routed s → cores s !! key = Some c → placed s !! tag = Some key → view s !! tag = nodes c !! tag.
Proof. intros _ Hc Hp. by rewrite view_lookup, Hp; simpl; rewrite Hc. Qed.

Lemma view_nowhere s key c tag : Routed s → view s !! tag = None → cores s !! key = Some c → nodes c !! tag = None.
Proof.
  intros Hr Hv Hc. destruct (nodes c !! tag) as [x|] eqn:E; [|done].
  pose proof (routed_only s Hr key c tag Hc ltac:(by eexists)) as Hp. by rewrite (view_core s key c tag), E in Hv.
Qed.

(** A core that changed nothing but the node of a tag routed to it. *)
Lemma routed_update s key c c' tag :
  Routed s → cores s !! key = Some c → placed s !! tag = Some key → delete tag (nodes c') = delete tag (nodes c) →
  Routed (set_member s key c') ∧ view (set_member s key c') = partial_alter (λ _, nodes c' !! tag) tag (view s).
Proof.
  intros Hr Hc Hp Hd.
  assert (∀ t, t ≠ tag → nodes c' !! t = nodes c !! t) as Ho.
  { intros t Hne. apply (f_equal (.!! t)) in Hd. by rewrite !lookup_delete_ne in Hd. }
  split; [split; [apply Hr|..]|].
  - intros t k Ht. simpl. destruct (decide (k = key)) as [->|]; [by rewrite lookup_insert_eq|].
    rewrite lookup_insert_ne by done. by eapply routed_core.
  - intros k d t. simpl. destruct (decide (k = key)) as [->|]; [|rewrite lookup_insert_ne by done; by apply routed_only].
    rewrite lookup_insert_eq. intros [= <-] Hs. destruct (decide (t = tag)) as [->|]; [done|].
    rewrite Ho in Hs by done. by eapply routed_only.
  - apply map_eq. intros t. destruct (decide (t = tag)) as [->|Hne].
    + rewrite lookup_partial_alter_eq, view_lookup. simpl. rewrite Hp. simpl. by rewrite lookup_insert_eq.
    + rewrite lookup_partial_alter_ne, !view_lookup by done. simpl. destruct (placed s !! t) as [k|]; [|done]. simpl.
      destruct (decide (k = key)) as [->|]; [by rewrite lookup_insert_eq, Hc; simpl; rewrite Ho|by rewrite lookup_insert_ne].
Qed.

(** A core that runs what it ran. *)
Lemma routed_same s key c c' : Routed s → cores s !! key = Some c → nodes c' = nodes c →
  Routed (set_member s key c') ∧ view (set_member s key c') = view s.
Proof.
  intros Hr Hc E. assert (∀ t, (set_member s key c').(cores) !! t ≫= (λ d, Some (nodes d)) = cores s !! t ≫= (λ d, Some (nodes d))) as Hn.
  { intros t. simpl. destruct (decide (t = key)) as [->|]; [by rewrite lookup_insert_eq, Hc; simpl; rewrite E|by rewrite lookup_insert_ne]. }
  split; [split; [apply Hr|..]|].
  - intros t k Ht. apply (routed_core s Hr) in Ht as [d Hd]. specialize (Hn k). rewrite Hd in Hn.
    destruct (cores (set_member s key c') !! k); [by eexists|done].
  - intros k d t Hd Hs. specialize (Hn k). rewrite Hd in Hn. destruct (cores s !! k) as [d'|] eqn:Hd'; [|done].
    injection Hn as Hn. rewrite Hn in Hs. by eapply (routed_only s Hr).
  - apply map_eq. intros t. rewrite !view_lookup. simpl. destruct (placed s !! t) as [k|]; [|done]. simpl.
    specialize (Hn k). simpl in Hn. destruct (<[key:=c']> (cores s) !! k), (cores s !! k); try done. injection Hn as Hn. simpl. by rewrite Hn.
Qed.

(** A core that runs one more node. *)
Lemma routed_store s key c c' tag x :
  Routed s → view s !! tag = None → cores s !! key = Some c → nodes c' = <[tag := x]> (nodes c) →
  Routed (store tag key (set_member s key c')) ∧ view (store tag key (set_member s key c')) = <[tag := x]> (view s).
Proof.
  intros Hr Hv Hc E. split; [split; [apply Hr|..]|].
  - intros t k. simpl. destruct (decide (t = tag)) as [->|].
    + rewrite lookup_insert_eq. intros [= <-]. by rewrite lookup_insert_eq.
    + rewrite lookup_insert_ne by done. intros Ht. destruct (decide (k = key)) as [->|]; [by rewrite lookup_insert_eq|].
      rewrite lookup_insert_ne by done. by eapply routed_core.
  - intros k d t. simpl. destruct (decide (k = key)) as [->|].
    + rewrite lookup_insert_eq. intros [= <-]. rewrite E. destruct (decide (t = tag)) as [->|]; [by rewrite !lookup_insert_eq|].
      rewrite !lookup_insert_ne by done. by eapply routed_only.
    + rewrite lookup_insert_ne by done. intros Hd Hs. destruct (decide (t = tag)) as [->|].
      * rewrite (view_nowhere s k d tag) in Hs by done. by destruct Hs.
      * rewrite lookup_insert_ne by done. by eapply routed_only.
  - apply map_eq. intros t. rewrite view_lookup. simpl. destruct (decide (t = tag)) as [->|].
    + rewrite !lookup_insert_eq. simpl. rewrite lookup_insert_eq. simpl. by rewrite E, lookup_insert_eq.
    + rewrite !lookup_insert_ne, view_lookup by done. destruct (placed s !! t) as [k|]; [|done]. simpl.
      destruct (decide (k = key)) as [->|]; [|by rewrite lookup_insert_ne].
      rewrite lookup_insert_eq, Hc. simpl. by rewrite E, lookup_insert_ne.
Qed.

(** ** Calls *)

Inductive call :=
| CAddNode (tag : string) (info : NodeInfo B) (o : NodeOptions)
| CDelNode (tag : string)
| CAddUsers (tag : string) (us : list UserInfo) (info : NodeInfo B)
| CDelUsers (us : list UserInfo) (tag : string) (info : NodeInfo B).

Definition run (c : call) (s : Sel) : Sel * option coreError :=
  match c with
  | CAddNode tag info o => let '(s, _, e) := Selector.AddNode tag info o s in (s, e)
  | CDelNode tag => Selector.DelNode tag s
  | CAddUsers tag us info => Selector.AddUsers tag us info s
  | CDelUsers us tag info => Selector.DelUsers us tag info s
  end.

(** What a call that answered [e] may make of the nodes. *)
Definition allowed (c : call) (v : Nodes) (e : option coreError) (v' : Nodes) : Prop :=
  match c, e with
  | CAddNode tag info _, None => v' = <[tag := (info, ∅)]> v
  | CAddNode _ _ _, Some _ => v' = v
  | CDelNode tag, None => v' = delete tag v
  | CDelNode tag, Some e => (v' = v ∨ v' = delete tag v) ∧ (nodeNotFound e = true → v' = v ∧ v !! tag = None)
  | CAddUsers tag us _, None => ∃ n old, v !! tag = Some (n, old) ∧ v' = <[tag := (n, NodeUsers.withUsers us old)]> v
  | CDelUsers us tag _, None =>
      v' = match v !! tag with Some (n, old) => <[tag := (n, NodeUsers.without us old)]> v | None => v end
  | (CAddUsers tag _ _ | CDelUsers _ tag _), Some _ => delete tag v' = delete tag v ∧ fst <$> v' !! tag = fst <$> v !! tag
  end.

(** A node is added where none runs: controllers delete it first. *)
Definition admissible (c : call) (v : Nodes) : Prop := match c with CAddNode tag _ _ => v !! tag = None | _ => True end.

Lemma addFirst_nodes keys raw tag info : ∀ refused o s, Routed s → view s !! tag = None →
  let '(s', _, e) := addFirst keys raw tag info refused o s in
  Routed s' ∧ view s' = match e with None => <[tag := (info, ∅)]> (view s) | Some _ => view s end.
Proof.
  induction keys as [|key keys IH]; intros refused o s Hr Hv; simpl; [done|].
  destruct (cores s !! key) as [c|] eqn:Hc; [|by apply IH].
  destruct (negb _); [by apply IH|]. destruct (UnmarshalJSON _ _) as [o' [e|]]; [done|].
  pose proof (add_ok tag info (opts (with_raw o' "")) c) as Hok. pose proof (add_failed tag info (opts (with_raw o' "")) c) as Hf.
  destruct (NodeController.AddNode _ _ _ _) as [c' [e|]]; simpl in *.
  - destruct (routed_same s key c c') as [Hr' Hv']; [done..|by apply Hf|]. rewrite <- Hv' in Hv |- *. by apply IH.
  - by apply (routed_store s key c); [..|apply Hok].
Qed.

Lemma named_core o s key : named o s = Some key → is_Some (cores s !! key).
Proof.
  unfold named. destruct (negb _).
  - by destruct (decide (is_Some (cores s !! CoreName o))); [intros [= <-]|].
  - intros Hf. apply List.find_some in Hf as [_ Hk]. by destruct (cores s !! key).
Qed.

Lemma AddNode_nodes tag info o s : Routed s → view s !! tag = None →
  let '(s', _, e) := Selector.AddNode tag info o s in Routed s' ∧ allowed (CAddNode tag info o) (view s) e (view s').
Proof.
  intros Hr Hv. unfold Selector.AddNode, addByProtocol.
  assert (∀ o', let '(s', _, e) := addFirst (order s) (RawOptions o') tag info None o' s in
    Routed s' ∧ allowed (CAddNode tag info o) (view s) e (view s')) as Hfirst.
  { intros o'. pose proof (addFirst_nodes (order s) (RawOptions o') tag info None o' s Hr Hv) as Hn.
    destruct (addFirst _ _ _ _ _ _ _) as [[s' o''] [e|]]; exact Hn. }
  destruct (_ && _); [apply Hfirst|]. destruct (named o s) as [key|] eqn:Hk; [|apply Hfirst].
  apply named_core in Hk as [c Hc]. unfold onCore. rewrite Hc.
  pose proof (add_ok tag info (opts o) c) as Hok. pose proof (add_failed tag info (opts o) c) as Hf.
  destruct (NodeController.AddNode _ _ _ _) as [c' [e|]]; simpl in *.
  - apply (routed_same s key c); [done..|by apply Hf].
  - by apply (routed_store s key c); [..|apply Hok].
Qed.

(** A tag that is routed is forgotten once its core does not run it. *)
Lemma routed_forget s tag : Routed s → view s !! tag = None → Routed (forget tag s) ∧ view (forget tag s) = view s.
Proof.
  intros Hr Hv. split; [split; [apply Hr|..]|].
  - intros t k. simpl. intros [_ Ht]%lookup_delete_Some. by eapply routed_core.
  - intros k c t Hc Hs. simpl in *. destruct (decide (t = tag)) as [->|].
    + rewrite (view_nowhere s k c tag) in Hs by done. by destruct Hs.
    + rewrite lookup_delete_ne by done. by eapply routed_only.
  - apply map_eq. intros t. destruct (decide (t = tag)) as [->|]; rewrite view_lookup; simpl.
    + by rewrite lookup_delete_eq, Hv.
    + by rewrite lookup_delete_ne, view_lookup.
Qed.

Lemma partial_alter_delete {A} (v : gmap string A) tag : partial_alter (λ _, None) tag v = delete tag v.
Proof. done. Qed.

Lemma selector_DelNode_nodes tag s : Routed s →
  let '(s', e) := Selector.DelNode tag s in Routed s' ∧ allowed (CDelNode tag) (view s) e (view s').
Proof.
  intros Hr. unfold Selector.DelNode. destruct (placed s !! tag) as [key|] eqn:Hp.
  - destruct (routed_core s Hr tag key Hp) as [c Hc]. unfold onCore. rewrite Hc.
    pose proof (del_ok tag c) as Hok. pose proof (del_failed tag c) as Hf. pose proof (del_unknown tag c) as Hu.
    pose proof (view_core s key c tag Hr Hc Hp) as Hvc.
    destruct (NodeController.DelNode tag c) as [c' [e|]]; simpl in *.
    + assert (delete tag (nodes c') = delete tag (nodes c)) as Hd.
      { destruct (Hf e eq_refl) as [-> | ->]; [done|]. apply delete_delete_eq. }
      destruct (routed_update s key c c' tag) as [Hr' ->]; [done..|]. split; [done|]. split.
      * destruct (Hf e eq_refl) as [-> | ->]; [left|right; by rewrite lookup_delete_eq].
        apply map_eq. intros t. destruct (decide (t = tag)) as [->|]; [by rewrite lookup_partial_alter_eq|by rewrite lookup_partial_alter_ne].
      * intros Hn. destruct (Hu e eq_refl Hn) as [Hno ->]. rewrite Hno in *. rewrite partial_alter_delete. split; [|done]. by apply delete_id.
    + specialize (Hok eq_refl). destruct (routed_update s key c c' tag) as [Hr' Hv]; [done..| |].
      { rewrite Hok. apply delete_delete_eq. }
      rewrite Hok, lookup_delete_eq, partial_alter_delete in Hv.
      destruct (routed_forget (set_member s key c') tag) as [Hr'' Hv'']; [done|by rewrite Hv, lookup_delete_eq|].
      split; [done|]. by rewrite Hv''.
  - split; [done|]. split; [by left|]. intros _. split; [done|]. by rewrite view_lookup, Hp.
Qed.
(** A call that touches only the users of a node. *)
Lemma onNode_nodes tag (f : C → C * option coreError) s : Routed s →
  (∀ c, delete tag (nodes (f c).1) = delete tag (nodes c)) →
  let '(s', e) := onNode tag f (Some ErrNodeNotFound) s in
  Routed s' ∧
  ((∃ key c, cores s !! key = Some c ∧ placed s !! tag = Some key ∧ e = (f c).2 ∧ nodes c !! tag = view s !! tag ∧
      view s' = partial_alter (λ _, nodes (f c).1 !! tag) tag (view s)) ∨
   (is_Some e ∧ view s !! tag = None ∧ view s' = view s)).
Proof.
  intros Hr Hd. unfold onNode. destruct (placed s !! tag) as [key|] eqn:Hp.
  - destruct (routed_core s Hr tag key Hp) as [c Hc]. unfold onCore. rewrite Hc. specialize (Hd c).
    destruct (f c) as [c' e] eqn:Ef. destruct (routed_update s key c c' tag) as [Hr' Hv]; [done..|]. split; [done|].
    left. exists key, c. rewrite Ef. split_and!; try done. symmetry. by apply (view_core s key).
  - split; [done|]. right. split_and!; [by eexists| |done]. by rewrite view_lookup, Hp.
Qed.

(** The nodes of other tags, and the configuration of this one, where only
    users may change. *)
Lemma users_kept (v : Nodes) tag (m m' : Nodes) : m !! tag = v !! tag → fst <$> m' !! tag = fst <$> m !! tag →
  delete tag (partial_alter (λ _, m' !! tag) tag v) = delete tag v ∧ fst <$> partial_alter (λ _, m' !! tag) tag v !! tag = fst <$> v !! tag.
Proof.
  intros Hm Hf. split; [|by rewrite lookup_partial_alter_eq, Hf, Hm].
  apply map_eq. intros t. destruct (decide (t = tag)) as [->|]; [by rewrite !lookup_delete_eq|].
  by rewrite !lookup_delete_ne, lookup_partial_alter_ne.
Qed.

Lemma insert_local {A} (m : gmap string A) tag x : delete tag (<[tag := x]> m) = delete tag m.
Proof. apply delete_insert_eq. Qed.

Lemma AddUsers_nodes tag us info s : Routed s →
  let '(s', e) := Selector.AddUsers tag us info s in Routed s' ∧ allowed (CAddUsers tag us info) (view s) e (view s').
Proof.
  intros Hr. unfold Selector.AddUsers.
  assert (∀ c, delete tag (nodes (NodeController.AddUsers tag us info c).1) = delete tag (nodes c)) as Hd.
  { intros c. destruct (NodeController.AddUsers tag us info c).2 eqn:E.
    - by apply users_failed; rewrite E.
    - destruct (users_ok tag us info c E) as (n & old & _ & ->). apply insert_local. }
  pose proof (onNode_nodes tag _ s Hr Hd) as Hn. destruct (onNode _ _ _ _) as [s' e]. destruct Hn as [Hr' Hn]. split; [done|].
  destruct Hn as [(key & c & Hc & Hp & -> & Hv & ->)|([x ->] & Hv & ->)]; [|done].
  destruct (NodeController.AddUsers tag us info c).2 eqn:E; simpl.
  - by apply (users_kept _ _ (nodes c)); [|apply users_failed; rewrite E].
  - destruct (users_ok tag us info c E) as (n & old & Hold & ->). exists n, old. rewrite <- Hv, lookup_insert_eq. by split.
Qed.

Lemma DelUsers_nodes us tag info s : Routed s →
  let '(s', e) := Selector.DelUsers us tag info s in Routed s' ∧ allowed (CDelUsers us tag info) (view s) e (view s').
Proof.
  intros Hr. unfold Selector.DelUsers.
  assert (∀ c, delete tag (nodes (NodeController.DelUsers us tag info c).1) = delete tag (nodes c)) as Hd.
  { intros c. destruct (NodeController.DelUsers us tag info c).2 eqn:E; [by apply del_users_failed; rewrite E|].
    destruct (nodes c !! tag) as [[n old]|] eqn:Hold; [|by rewrite del_users_absent].
    rewrite (del_users_ok us tag info c n old) by done. apply insert_local. }
  pose proof (onNode_nodes tag _ s Hr Hd) as Hn. destruct (onNode _ _ _ _) as [s' e]. destruct Hn as [Hr' Hn]. split; [done|].
  destruct Hn as [(key & c & Hc & Hp & -> & Hv & ->)|([x ->] & Hv & ->)]; [|done].
  destruct (NodeController.DelUsers us tag info c).2 eqn:E; simpl.
  - by apply (users_kept _ _ (nodes c)); [|apply del_users_failed; rewrite E].
  - rewrite <- Hv. destruct (nodes c !! tag) as [[n old]|] eqn:Hold.
    + by rewrite (del_users_ok us tag info c n old), lookup_insert_eq.
    + rewrite del_users_absent, Hold, partial_alter_delete by done. by apply delete_id.
Qed.

Lemma run_nodes c s : Routed s → admissible c (view s) →
  let '(s', e) := run c s in Routed s' ∧ allowed c (view s) e (view s').
Proof.
  intros Hr Ha. destruct c as [tag info o|tag|tag us info|us tag info]; simpl in *.
  - pose proof (AddNode_nodes tag info o s Hr Ha) as Hn. by destruct (Selector.AddNode _ _ _ _) as [[s' o'] e].
  - by apply selector_DelNode_nodes.
  - by apply AddUsers_nodes.
  - by apply DelUsers_nodes.
Qed.

(** ** Sequences of calls *)

Fixpoint exec (cs : list call) (s : Sel) : Sel * list (option coreError) :=
  match cs with
  | [] => (s, [])
  | c :: cs => let '(s, e) := run c s in let '(s, es) := exec cs s in (s, e :: es)
  end.

Fixpoint all_admissible (cs : list call) (s : Sel) : Prop :=
  match cs with
  | [] => True
  | c :: cs => admissible c (view s) ∧ all_admissible cs (run c s).1
  end.

(** The nodes of one core that got the calls and gave the answers. *)
Fixpoint core_trace (v : Nodes) (cs : list call) (es : list (option coreError)) (v' : Nodes) : Prop :=
  match cs, es with
  | [], [] => v' = v
  | c :: cs, e :: es => ∃ v1, allowed c v e v1 ∧ core_trace v1 cs es v'
  | _, _ => False
  end.

Lemma exec_nodes cs : ∀ s, Routed s → all_admissible cs s →
  let '(s', es) := exec cs s in Routed s' ∧ core_trace (view s) cs es (view s').
Proof.
  induction cs as [|c cs IH]; intros s Hr Ha; simpl; [done|]. destruct Ha as [Ha Has].
  pose proof (run_nodes c s Hr Ha) as Hn. destruct (run c s) as [s1 e] eqn:E1. destruct Hn as [Hr1 Hal]. simpl in *.
  specialize (IH s1 Hr1 Has). destruct (exec cs s1) as [s' es]. destruct IH as [Hr' Ht]. split; [done|]. by exists (view s1).
Qed.

(** ** The selector of a configuration *)

Definition starts_empty (registry : gmap string (CoreConfig → result C)) : Prop :=
  ∀ type f t c, registry !! type = Some f → f t = Ok c → nodes c = ∅.

(** A selector without nodes: its cores run nothing, and [order] lists their
    keys. *)
Definition unused (s : Sel) : Prop :=
  placed s = ∅ ∧ (∀ key c, cores s !! key = Some c → nodes c = ∅) ∧ NoDup (order s) ∧ ∀ key, key ∈ order s → is_Some (cores s !! key).

Lemma addCore_unused registry s t s' : starts_empty registry → unused s → addCore registry (Ok s) t = Ok s' → unused s'.
Proof.
  intros Hempty (Hp & Hc & Hnd & Hk). unfold addCore. simpl.
  destruct (decide (is_Some (cores s !! coreKey t))) as [|Hno]; [by intros [= <-]|].
  destruct (registry !! to_lower (CType t)) as [f|] eqn:Ef; [|done].
  destruct (f t) as [c|] eqn:Et; [|done]. simpl. intros [= <-]. split_and!; simpl; [done|..].
  - intros key d [[_ <-]|[_ Hd]]%lookup_insert_Some; [by eapply Hempty|by eapply Hc].
  - apply NoDup_app. split_and!; [done| |apply NoDup_singleton]. intros key Hin ->%list_elem_of_singleton. by apply Hno, Hk.
  - intros key Hin. destruct (decide (key = coreKey t)) as [->|]; [by rewrite lookup_insert_eq|].
    rewrite lookup_insert_ne by done. apply Hk. apply elem_of_app in Hin as [|?%list_elem_of_singleton]; done.
Qed.

Lemma NewSelector_unused registry cfgs s : starts_empty registry → NewSelector registry cfgs = Ok s → unused s.
Proof.
  intros Hempty. unfold NewSelector.
  enough (∀ r, (∀ s, r = Ok s → unused s) → ∀ s, foldl (addCore registry) r cfgs = Ok s → unused s) as Hall.
  { apply Hall. intros s0 [= <-]. split_and!; simpl; [done|by intros ??; rewrite lookup_empty|constructor|by intros ? ?%elem_of_nil]. }
  clear s. induction cfgs as [|t cfgs IH]; intros r Hr s; simpl; [apply Hr|]. apply IH. clear IH s. intros s Hs.
  destruct r as [s0|]; [|done]. by eapply (addCore_unused registry s0); [|apply Hr|].
Qed.

Lemma unused_routed s : unused s → Routed s ∧ view s = ∅.
Proof.
  intros (Hp & Hc & Hnd & _). split; [split; [done|..]|].
  - intros tag key. by rewrite Hp, lookup_empty.
  - intros key c tag Hk. rewrite (Hc key c Hk), lookup_empty. by intros [].
  - unfold view. rewrite Hp. apply map_eq. intros t. by rewrite map_lookup_imap, lookup_empty.
Qed.

(** ** Which core *)

(** A core that serves the node's protocol did not take it. *)
Definition refuses (tag : string) (info : NodeInfo B) (s : Sel) (key : string) : Prop :=
  ∀ c, cores s !! key = Some c → isSupported (NType info) (Protocols c) = true →
  ∃ o, is_Some (NodeController.AddNode tag info o c).2.

(** The node is on the first core of [keys] that serves it and took it, and the
    cores after that were not asked; or all refused. *)
Definition chosen (keys : list string) (tag : string) (info : NodeInfo B) (s s' : Sel) (e : option coreError) : Prop :=
  match e with
  | Some _ => ∀ key, key ∈ keys → refuses tag info s key
  | None => ∃ before key after c, keys = before ++ key :: after ∧ cores s !! key = Some c ∧
      isSupported (NType info) (Protocols c) = true ∧ placed s' !! tag = Some key ∧
      (∀ k, k ∈ before → refuses tag info s k) ∧ (∀ k, k ∉ before → k ≠ key → cores s' !! k = cores s !! k)
  end.

(** A core that was passed over, unchanged or not. *)
Lemma chosen_skip key keys tag info s s1 s' e :
  key ∉ keys → (∀ k, k ≠ key → cores s1 !! k = cores s !! k) → refuses tag info s key →
  chosen keys tag info s1 s' e → chosen (key :: keys) tag info s s' e.
Proof.
  intros Hnin Ho Hk. assert (∀ k, k ∈ keys → refuses tag info s1 k → refuses tag info s k) as Hr.
  { intros k Hin Hf c Hc. apply Hf. rewrite Ho; [done|]. by intros ->. }
  destruct e as [e|]; simpl.
  - intros Hall k [->|Hin]%elem_of_cons; [done|]. by apply Hr, Hall.
  - intros (before & key' & after & c & -> & Hc & Hs & Hp & Hb & Hcs).
    exists (key :: before), key', after, c. assert (key' ≠ key) by (intros ->; apply Hnin; set_solver).
    split_and!; [done|by rewrite <- Ho|done..| |].
    + intros k [->|Hin]%elem_of_cons; [done|]. apply Hr; [set_solver|]. by apply Hb.
    + intros k [Hne Hin]%not_elem_of_cons Hk'. rewrite Hcs by done. by apply Ho.
Qed.

Lemma addFirst_chosen keys raw tag info : (∀ o, (decodeOptions raw o).2 = None) → ∀ refused o s, NoDup keys →
  let '(s', _, e) := addFirst keys raw tag info refused o s in chosen keys tag info s s' e.
Proof.
  intros Hdec. induction keys as [|key keys IH]; intros refused o s Hnd; simpl; [by intros k Hk%elem_of_nil|].
  apply NoDup_cons in Hnd as [Hnin Hnd].
  destruct (cores s !! key) as [c|] eqn:Hc.
  2: { specialize (IH refused o s Hnd). destruct (addFirst _ _ _ _ _ _ _) as [[s' o'] e].
       eapply chosen_skip; [done|done| |done]. intros c. by rewrite Hc. }
  destruct (isSupported _ _) eqn:Hs; simpl.
  2: { specialize (IH refused o s Hnd). destruct (addFirst _ _ _ _ _ _ _) as [[s' o'] e].
       eapply chosen_skip; [done|done| |done]. intros d. rewrite Hc. intros [= <-]. by rewrite Hs. }
  unfold UnmarshalJSON. specialize (Hdec (with_core o (Type_ c) (CoreName o))). destruct (decodeOptions _ _) as [o1 e1]. simpl in Hdec.
  subst e1. destruct (NodeController.AddNode _ _ _ c) as [c' [e|]] eqn:Ea.
  - specialize (IH (Some (joinErrors refused (wrapError (Type_ c) e))) (with_raw (with_raw (with_core o1
      (if existsb (String.eqb (Core_ o1)) retiredCores then "anixcore" else if String.eqb (Core_ o1) "wireguard" then "wireguard" else "") (CoreName o1)) raw) "")
      (set_member s key c') Hnd).
    destruct (addFirst _ _ _ _ _ _ _) as [[s' o'] e']. eapply chosen_skip; [done| | |done].
    + intros k Hk. simpl. by rewrite lookup_insert_ne.
    + intros d. rewrite Hc. intros [= <-] _. eexists. by rewrite Ea.
  - exists [], key, keys, c. split_and!; simpl; [done..| | |].
    + by rewrite lookup_insert_eq.
    + by intros k ?%elem_of_nil.
    + intros k _ Hk. by rewrite lookup_insert_ne.
Qed.


(** A node that names no core is on the first core in configuration order
    that serves its protocol and took it; the cores after that were not asked,
    and an error means that every core that serves it refused it. *)
Theorem first_willing_core s tag info o s' o' e :
  Routed s → CoreName o = "" → Core_ o = "" → (∀ before, (decodeOptions (RawOptions o) before).2 = None) →
  Selector.AddNode tag info o s = (s', o', e) → chosen (order s) tag info s s' e.
Proof.
  intros Hr Hn Hc Hdec. unfold Selector.AddNode, addByProtocol. rewrite Hn, Hc. simpl. intros He.
  pose proof (addFirst_chosen (order s) (RawOptions o) tag info) as Hch.
  pose proof (Hch Hdec None o s (routed_order s Hr)) as Hx. by rewrite He in Hx.
Qed.

End Runs.

(** ** Two cores in memory *)

Module Demo.

Record Mem := mkMem { mtype : string; serves : list string; mnodes : gmap string (NodeInfo nat * gmap string UserInfo) }.

Definition set_nodes (c : Mem) m : Mem := mkMem (mtype c) (serves c) m.

(** A core refuses nodes of other protocols, and settings it does not have: the
    body 0. *)
Definition memAddNode (t : string) (n : NodeInfo nat) (_ : Options) (c : Mem) : Mem * option coreError :=
  if decide (is_Some (mnodes c !! t)) then (c, Some (plain "the node exists"))
  else if negb (isSupported (NType n) (serves c)) then (c, Some (plain (mtype c +:+ " does not serve " +:+ NType n +:+ " nodes")))
  else if decide (Body n = 0%nat) then (c, Some (plain "setting not supported"))
  else (set_nodes c (<[t := (n, ∅)]> (mnodes c)), None).

Definition memDelNode (t : string) (c : Mem) : Mem * option coreError :=
  match mnodes c !! t with
  | None => (c, Some ErrNodeNotFound)
  | Some _ => (set_nodes c (delete t (mnodes c)), None)
  end.

Definition memUsers (f : gmap string UserInfo → gmap string UserInfo) (t : string) (c : Mem) : Mem * option coreError :=
  match mnodes c !! t with
  | None => (c, Some (plain "no node"))
  | Some (n, old) => (set_nodes c (<[t := (n, f old)]> (mnodes c)), None)
  end.

#[local] Instance memMember : Member Mem nat := {|
  member_core := {|
    nodes := mnodes;
    NodeController.AddNode := memAddNode;
    NodeController.DelNode := memDelNode;
    NodeController.AddUsers := λ t us _, memUsers (NodeUsers.withUsers us) t;
    NodeController.DelUsers := λ us t _, memUsers (NodeUsers.without us) t
  |};
  Type_ := mtype;
  Protocols := serves;
  StartCore := λ c, (c, None);
  CloseCore := λ c, (c, None);
  TrafficSlice := λ _ _ c, (c, Ok []);
  OnlineDeviceProvider := λ _, None;
  RateLimitUpdater := λ _, None;
  TrafficRollbacker := λ _, None;
  DestinationProvider := λ _, None
|}.

(** Options without a core, and options that name the retired core sing. *)
#[local] Instance memCodec : OptionsCodec := {|
  decodeOptions := λ data o,
    if String.eqb data "" then (o, Some "unexpected end of JSON input")
    else if String.eqb data "{CoreName: sing}" then (with_core o (Core_ o) "sing", None)
    else (o, None)
|}.

Lemma mem_core_nodes : CoreNodes Mem nat.
Proof.
  split; cbn [nodes NodeController.AddNode NodeController.DelNode NodeController.AddUsers NodeController.DelUsers member_core memMember];
    unfold memAddNode, memDelNode, memUsers.
  - intros t n o s Hs. by rewrite decide_True.
  - intros t n o s. by repeat case_match.
  - intros t n o s. repeat case_match; try done; by intros [].
  - intros t s. by destruct (mnodes s !! t).
  - intros t s e. by destruct (mnodes s !! t).
  - intros t s e. destruct (mnodes s !! t); [done|by left].
  - intros t us n s. destruct (mnodes s !! t) as [[m old]|]; [|done]. intros _. by exists m, old.
  - intros t us n s. destruct (mnodes s !! t) as [[m old]|] eqn:E; simpl; [by intros []|by rewrite E].
  - intros us t n s m old. by destruct (mnodes s !! t); [intros _ [= ->]|].
  - by intros us t n s ->.
  - intros us t n s. destruct (mnodes s !! t) as [[m old]|] eqn:E; simpl; [by intros []|by rewrite E].
Qed.

#[local] Existing Instance mem_core_nodes.

Definition make (serves : list string) (t : CoreConfig) : result Mem := Ok (mkMem (CType t) serves ∅).

Definition registry : gmap string (CoreConfig → result Mem) :=
  <["anixcore" := make ["vless"; "trojan"]]> (<["wireguard" := make ["wireguard"; "trojan"]]> ∅).

(** Both cores are there and no core is configured. *)
Definition selector : result (@Selector Mem) :=
  match NewForConfig registry ["wireguard"; "anixcore"] (Some ("anx-node", true)) [] 1 with
  | Ok (Several s) => Ok s
  | _ => Err ""
  end.

Definition two : @Selector Mem := match selector with Ok s => s | Err _ => mkSelector ∅ [] ∅ end.

Definition node (type : string) (body : nat) : NodeInfo nat := mkNode 7 type 0 (60 * second) (mkRules [] []) body.
Definition options (raw : string) : NodeOptions := mkNodeOptions (mkOptions "" 0 0 false None (mkCert "none" "" "" "")) "" "" raw.
Definition user (id : Z) (uuid : string) : UserInfo := mkUser id uuid 0 0 "" "" "" ∅.

Definition add (tag type : string) (x : @Selector Mem * NodeOptions) : @Selector Mem * NodeOptions * option coreError :=
  Selector.AddNode tag (node type 1) x.2 x.1.

Lemma registry_empty : starts_empty registry.
Proof.
  intros type f t c. unfold registry. intros [[_ <-]|[_ [[_ <-]|[_ Hf]]%lookup_insert_Some]]%lookup_insert_Some Hc;
    [by injection Hc as <-..|by rewrite lookup_empty in Hf].
Qed.

Lemma two_new : NewSelector registry (DefaultCoreConfigs ["wireguard"; "anixcore"] (Some ("anx-node", true))) = Ok two.
Proof. by vm_compute. Qed.

(** A node on each core, users on one; the other is refused a setting first. *)
Definition calls : list call := [
  CAddNode "a" (node "vless" 1) (options "{}"); CAddUsers "a" [user 1 "x"; user 2 "y"] (node "vless" 1);
  CAddNode "b" (node "wireguard" 1) (options "{}"); CDelUsers [user 1 "x"] "a" (node "vless" 1);
  CAddNode "c" (node "trojan" 0) (options "{}"); CDelNode "b"].


(** Both cores serve trojan: the first one takes it. *)
Lemma first_willing_witness : order two = ["anixcore"; "wireguard"] ∧
  chosen (order two) "t" (node "trojan" 1) two (add "t" "trojan" (two, options "{}")).1.1 None.
Proof.
  destruct (unused_routed two (NewSelector_unused registry _ two registry_empty two_new)) as [Hr _].
  split; [by vm_compute|].
  pose proof (first_willing_core two "t" (node "trojan" 1) (options "{}") (add "t" "trojan" (two, options "{}")).1.1
    (add "t" "trojan" (two, options "{}")).1.2 None Hr eq_refl eq_refl) as Hf.
  apply Hf; [by intros before|by vm_compute].
Defined.

(** *** What the selector writes to a node's options *)

(** A node that named no core was added, and its options now name the core: when
    its protocol becomes one of the other core, or a further protocol of the
    node with the same options is, the node is refused. *)
Example chosen_core_sticks :
  (add "wg" "wireguard" (two, options "{}")).2 = None ∧
  (add "wg" "wireguard" (add "vless" "vless" (two, options "{}")).1).2 =
    Some (plain "anixcore does not serve wireguard nodes").
Proof. by vm_compute. Qed.

(** A node whose options name a core that is not there is added once: its
    options are then decoded again, from nothing. *)
Example unknown_core_once :
  let first := add "n" "vless" (two, mkNodeOptions (opts (options "")) "" "sing" "{CoreName: sing}") in
  first.2 = None ∧
  (add "n" "vless" ((Selector.DelNode "n" first.1.1).1, first.1.2)).2 = Some (plain "unmarshal option error: unexpected end of JSON input").
Proof. by vm_compute. Qed.

End Demo.
End SelectorRuns.
