(* ===== verification/AnixInbound.v ===== *)
(** * The kernel's inbounds and users (src/core/anixcore/inbound.go, client.go)

    How a node becomes an inbound of the anixcore kernel, and a user of the
    panel one or two users of that inbound: the members of the inbound by
    protocol with their checks, the credentials, the names, and the tags the
    kernel accepts.  An inbound is the JSON object sent, by key.  JSON decoding
    of network settings, URLs, durations, SHA-256, HMAC and base64 are the class
    [InboundCodec]; files are asked for through [keyFile]. *)

From S2P Require Import Prelude GoStrings GoNet Json Limiter NodeController.
From Stdlib Require Import Ascii String.

Module AnixInbound.
Import Limiter GoNet.

(** ** Equality of JSON values *)

Fixpoint json_eqb (a b : json) : bool :=
  match a, b with
  | JNull, JNull => true
  | JBool x, JBool y => Bool.eqb x y
  | JNumber x, JNumber y | JString x, JString y => String.eqb x y
  | JArray l, JArray m =>
      (fix items (l m : list json) : bool :=
         match l, m with [], [] => true | x :: l, y :: m => json_eqb x y && items l m | _, _ => false end) l m
  | JObject l, JObject m =>
      (fix members (l m : list (string * json)) : bool :=
         match l, m with
         | [], [] => true
         | (k, x) :: l, (k', y) :: m => String.eqb k k' && json_eqb x y && members l m
         | _, _ => false
         end) l m
  | _, _ => false
  end.

Lemma json_eqb_eq a : ∀ b, json_eqb a b = true ↔ a = b.
Proof.
  induction a as [|x|x|x|l IH|l IH] using json_ind; intros b; destruct b as [|y|y|y|m|m]; try done; simpl.
  - rewrite Bool.eqb_true_iff. split; [by intros ->|by intros [= ->]].
  - rewrite String.eqb_eq. split; [by intros ->|by intros [= ->]].
  - rewrite String.eqb_eq. split; [by intros ->|by intros [= ->]].
  - revert m. induction IH as [|x l Hx _ IHl]; intros [|y m]; simpl; try done.
    rewrite andb_true_iff, Hx, IHl. split; [intros [-> [= ->]]; done|by intros [= -> ->]].
  - revert m. induction IH as [|[k x] l Hx _ IHl]; intros [|[k' y] m]; simpl in *; try done.
    rewrite !andb_true_iff, String.eqb_eq, Hx, IHl. split; [intros [[-> ->] [= ->]]; done|by intros [= -> -> ->]].
Qed.

#[export] Instance json_eq_dec : EqDecision json.
Proof. refine (λ a b, cast_if (decide (json_eqb a b = true))); by rewrite <- json_eqb_eq. Defined.

(** ** Nodes *)

Record TlsSettings := mkTls {
  TServerName : string; Dest : string; TServerPort : string; ShortId : string; PrivateKey : string
}.

Record VAllssNode := mkVAllss {
  VTlsSettings : TlsSettings; TlsSettingsBack : option TlsSettings; VNetwork : string; VNetworkSettings : string;
  NetworkSettingsBack : string; Flow : string; MaxTimeDiff : string
}.

Record IwanNode := mkIwan {
  Pool : string; MTU : Z; DNSUpstream : string; AllowEncrypt : option bool; AllowClientToClient : bool;
  FixedAddresses : gmap string string
}.

Record AnxNode := mkAnx {
  ServerNames : list string; ADest : string; ALPN : list string; AllowNoSNI : bool; ShapePlain : bool; MaxStreams : Z;
  WGListenPort : Z
}.

(** [panel.NodeInfo]'s protocols: the settings of a protocol, [None] for nil.
    [Common] is the port it listens on. *)
Record Protocol := mkProtocol {
  Common : option Z;
  Shadowsocks : option (string * string);
  Trojan : option (string * string);
  VAllss : option VAllssNode;
  Hysteria2 : option (string * string);
  Tuic : option string;
  AnyTls : option (list string);
  Iwan : option IwanNode;
  Anx : option AnxNode
}.

Abbreviation NodeInfo := (NodeController.NodeInfo Protocol).

#[export] Instance TlsSettings_eq_dec : EqDecision TlsSettings.
Proof. solve_decision. Defined.
#[export] Instance VAllssNode_eq_dec : EqDecision VAllssNode.
Proof. solve_decision. Defined.
#[export] Instance IwanNode_eq_dec : EqDecision IwanNode.
Proof. solve_decision. Defined.
#[export] Instance AnxNode_eq_dec : EqDecision AnxNode.
Proof. solve_decision. Defined.
#[export] Instance Protocol_eq_dec : EqDecision Protocol.
Proof. solve_decision. Defined.

Definition Reality : Z := 2.

(** [conf.Options] as the core reads it: the listen address and the certificate,
    [None] for nil. *)
Record InboundOptions := mkInboundOptions { ListenIP : string; CertConfig : option NodeController.CertConfig }.

(** [wsNetwork], [httpupgradeNetwork], [xhttpNetwork] *)
Record wsNetwork := mkWs { WsPath : string; Headers : list (string * string) }.
Record httpupgradeNetwork := mkUpgrade { UpPath : string; UpHost : string }.
Record xhttpNetwork := mkXhttp { XPath : string; XHost : string; XMode : string }.

(** Go's libraries: the network settings decoded from a document that is not
    empty, the path of a URL with its query member ed, [time.ParseDuration],
    SHA-256 and HMAC-SHA-256 as bytes, base64. *)
Class InboundCodec := {
  decodeTcp : string → option string;
  decodeWs : string → option wsNetwork;
  decodeUpgrade : string → option httpupgradeNetwork;
  decodeXhttp : string → option xhttpNetwork;
  decodeGrpc : string → option string;
  parseURL : string → option (string * string);
  ParseDuration : string → option duration;
  sha256 : string → string;
  hmac : string → string → string;
  base64Decode : string → option string;
  base64Encode : string → string
}.

Abbreviation Inbound := (gmap string json).

Definition num (n : Z) : json := JNumber (itoa n).
Definition strs (l : list string) : json := JArray (JString <$> l).

(** ** Tags (client.go) *)

Definition tagChar (c : ascii) : bool := is_alnum c || Ascii.eqb c "." || Ascii.eqb c "_" || Ascii.eqb c "-".

(** [wireTagPattern] *)
Definition wireTagPattern (tag : string) : bool := (0 <? len tag) && (len tag <=? 64) && all_chars tagChar tag.

(** [hex.EncodeToString] *)
Fixpoint hexEncode (s : string) : string :=
  match s with EmptyString => "" | String c s => hex_pad 2 (code c) +:+ hexEncode s end.

Section Codec.
Context `{!InboundCodec}.

Definition wireTag (tag : string) : string :=
  if wireTagPattern tag then tag else "node-" +:+ hexEncode (String.substring 0 12 (sha256 tag)).

(** ** Shadowsocks methods *)

Definition shadowsocksLegacy (cipher : string) : bool :=
  existsb (String.eqb cipher) ["aes-128-gcm"; "aes-256-gcm"; "chacha20-ietf-poly1305"; "chacha20-poly1305"].

Definition shadowsocksKeyLen (cipher : string) : result Z :=
  if String.eqb cipher "2022-blake3-aes-128-gcm" then Ok 16
  else if String.eqb cipher "2022-blake3-aes-256-gcm" then Ok 32
  else if String.eqb cipher "2022-blake3-chacha20-poly1305" then
    Err "2022-blake3-chacha20-poly1305 has no multi-user mode; use an aes method"
  else Err ("anixcore does not serve shadowsocks method " +:+ cipher).

(** ** Parts of an inbound *)

Definition addTLS (inbound : Inbound) (info : NodeInfo) (o : InboundOptions) (required : bool) : result Inbound :=
  if negb required && negb (NodeController.Security info =? NodeController.Tls) then Ok inbound
  else
    let none := if required then Err (NodeController.NType info +:+ " needs a certificate (CertConfig)") else Ok inbound in
    match CertConfig o with
    | None => none
    | Some cert =>
        let mode := NodeController.CertMode cert in
        if String.eqb mode "" || String.eqb mode "none" then none
        else if String.eqb (NodeController.CertFile cert) "" || String.eqb (NodeController.KeyFile cert) "" then
          Err "CertConfig needs CertFile and KeyFile"
        else Ok (<["tls" := JObject [("certificate_path", JString (NodeController.CertFile cert));
                                     ("key_path", JString (NodeController.KeyFile cert))]]> inbound)
    end.

(** Settings decoded when there are any. *)
Definition settingsOr {A} (decode : string → option A) (zero : A) (settings : string) : result A :=
  if String.eqb settings "" then Ok zero
  else match decode settings with Some a => Ok a | None => Err "decode network settings" end.

Definition early (ed : string) : list (string * json) :=
  match Atoi ed with Some n => if 0 <? n then [("max_early_data", num n)] else [] | None => [] end.

(** [strings.EqualFold] with a word of ASCII letters: the long s and the Kelvin
    sign fold to ASCII. *)
Definition equalFold (a b : string) : bool :=
  String.eqb (to_lower (ReplaceAll (ReplaceAll a "ſ" "s") "K" "k")) (to_lower b).

(** The headers named host, of which the last one ranged over stays; the order
    of the list stands for that of the range. *)
Definition hostHeader (headers : list (string * string)) : list (string * json) :=
  match last (filter (λ h, equalFold h.1 "host" = true) headers) with
  | Some (_, value) => [("host", JString value)]
  | None => []
  end.

Definition member (key value : string) : list (string * json) := if String.eqb value "" then [] else [(key, JString value)].

Definition transport (members : list (string * json)) (inbound : Inbound) : Inbound := <["transport" := JObject members]> inbound.

Definition addTransport (inbound : Inbound) (network settings : string) : result Inbound :=
  if String.eqb network "" || String.eqb network "tcp" then
    let? header := settingsOr decodeTcp "" settings in
    if negb (String.eqb header "") && negb (String.eqb header "none") then Err ("tcp header " +:+ header +:+ " is not supported")
    else Ok inbound
  else if String.eqb network "ws" then
    let? ws := settingsOr decodeWs (mkWs "" []) settings in
    match parseURL (WsPath ws) with
    | None => Err "parse ws path"
    | Some (path, ed) =>
        Ok (transport ([("type", JString "ws"); ("path", JString path)] ++ early ed ++ hostHeader (Headers ws)) inbound)
    end
  else if String.eqb network "httpupgrade" then
    let? upgrade := settingsOr decodeUpgrade (mkUpgrade "" "") settings in
    match parseURL (UpPath upgrade) with
    | None => Err "parse httpupgrade path"
    | Some (path, ed) =>
        Ok (transport ([("type", JString "httpupgrade"); ("path", JString path)] ++ early ed ++ member "host" (UpHost upgrade)) inbound)
    end
  else if String.eqb network "xhttp" || String.eqb network "splithttp" then
    let? xhttp := settingsOr decodeXhttp (mkXhttp "" "" "") settings in
    Ok (transport ([("type", JString "xhttp"); ("path", JString (XPath xhttp))] ++ member "host" (XHost xhttp) ++
                   member "mode" (XMode xhttp)) inbound)
  else if String.eqb network "grpc" then
    let? name := settingsOr decodeGrpc "" settings in
    if String.eqb name "" then Err "grpc network needs a serviceName"
    else Ok (transport [("type", JString "grpc"); ("service_name", JString name)] inbound)
  else Err ("network " +:+ network +:+ " is not supported by anixcore").

(** The host and port of the site a reality handshake goes to. *)
Definition realityDest (settings : TlsSettings) : result (string * Z) :=
  let dest := if String.eqb (Dest settings) "" then TServerName settings else Dest settings in
  match SplitHostPort dest with
  | Some (host, value) =>
      match Atoi value with Some port => Ok (host, port) | None => Err ("reality dest port " +:+ value +:+ " is invalid") end
  | None =>
      if negb (String.eqb (TServerPort settings) "") then
        match Atoi (TServerPort settings) with Some port => Ok (dest, port) | None => Err "reality server_port is invalid" end
      else Ok (dest, 443)
  end.

Definition realityConfig (node : VAllssNode) : result json :=
  let settings := match TlsSettingsBack node with
                  | Some back => if String.eqb (PrivateKey (VTlsSettings node)) "" then back else VTlsSettings node
                  | None => VTlsSettings node
                  end in
  if String.eqb (PrivateKey settings) "" || String.eqb (TServerName settings) "" then Err "reality needs private_key and server_name"
  else
    let? site := realityDest settings in
    Ok (JObject ([("private_key", JString (PrivateKey settings)); ("short_ids", strs [ShortId settings]);
                  ("server_names", strs [TServerName settings]);
                  ("handshake", JObject [("server", JString site.1); ("server_port", num site.2)])] ++
                 (if String.eqb (MaxTimeDiff node) "" then []
                  else match ParseDuration (MaxTimeDiff node) with
                       | Some diff => if 0 <? diff then [("max_time_difference_secs", num (Z.quot diff second))] else []
                       | None => []
                       end))).

(** ** The inbound of a node *)

Definition isIP (s : string) : bool := match ParseAddr s with Some a => String.eqb (Zone a) "" | None => false end.

Definition when (b : bool) (key : string) (value : json) (inbound : Inbound) : Inbound := if b then <[key := value]> inbound else inbound.

Definition shadowsocksInbound (inbound : Inbound) (node : string * string) : result Inbound :=
  let inbound := <["method" := JString node.1]> (<["type" := JString "shadowsocks"]> inbound) in
  if shadowsocksLegacy node.1 then Ok inbound
  else let? _ := shadowsocksKeyLen node.1 in Ok (<["password" := JString node.2]> inbound).

Definition vallssInbound (inbound : Inbound) (info : NodeInfo) (o : InboundOptions) (node : VAllssNode) : result Inbound :=
  let type := NodeController.NType info in
  let settings := if String.eqb (VNetworkSettings node) "" then NetworkSettingsBack node else VNetworkSettings node in
  let? inbound := addTransport (<["type" := JString type]> inbound) (VNetwork node) settings in
  if NodeController.Security info =? Reality then
    if negb (String.eqb type "vless") then Err "reality needs a vless node"
    else match inbound !! "transport" with
         | Some (JObject ((_, t) :: _)) =>
             if decide (t = JString "xhttp") then let? reality := realityConfig node in Ok (<["reality" := reality]> inbound)
             else Err "anixcore runs reality only on tcp and xhttp"
         | _ => let? reality := realityConfig node in Ok (<["reality" := reality]> inbound)
         end
  else addTLS inbound info o false.

Definition iwanInbound (inbound : Inbound) (node : IwanNode) : result Inbound :=
  if String.eqb (Pool node) "" then Err "iwan node needs a pool"
  else
    let inbound := <["pool" := JString (Pool node)]> (<["type" := JString "iwan"]> inbound) in
    let inbound := when (negb (MTU node =? 0)) "mtu" (num (MTU node)) inbound in
    let inbound := when (negb (String.eqb (DNSUpstream node) "")) "dns_upstream" (JString (DNSUpstream node)) inbound in
    let inbound := match AllowEncrypt node with Some b => <["allow_encrypt" := JBool b]> inbound | None => inbound end in
    Ok (<["allow_client_to_client" := JBool (AllowClientToClient node)]> inbound).

Definition anxInbound (keyFile : result string) (inbound : Inbound) (node : AnxNode) : result Inbound :=
  if bool_decide (ServerNames node = []) && negb (AllowNoSNI node) then Err "anx node needs server names"
  else
    let? key := keyFile in
    let inbound := <["server_names" := strs (ServerNames node)]> (<["key_file" := JString key]> (<["type" := JString "anx"]> inbound)) in
    let inbound := when (negb (String.eqb (ADest node) "")) "dest" (JString (ADest node)) inbound in
    let inbound := when (bool_decide (ALPN node ≠ [])) "alpn" (strs (ALPN node)) inbound in
    let inbound := when (AllowNoSNI node) "allow_no_sni" (JBool true) inbound in
    let inbound := when (ShapePlain node) "shape_plain" (JBool true) inbound in
    let inbound := when (0 <? MaxStreams node) "max_streams" (num (MaxStreams node)) inbound in
    Ok (when (0 <? WGListenPort node) "wg_listen_port" (num (WGListenPort node)) inbound).

Definition missing {A} (type : string) : result A := Err (type +:+ " node info is missing").

(** [inboundConfig]; [keyFile] is the answer of [anxKeyFile]. *)
Definition inboundConfig (keyFile : result string) (tag : string) (info : option NodeInfo) (o : InboundOptions) : result Inbound :=
  match info with
  | None => Err "node info is missing"
  | Some info =>
    let p := NodeController.Body info in
    match Common p with
    | None => Err "node info is missing"
    | Some port =>
      let listen := if String.eqb (ListenIP o) "" then "0.0.0.0" else ListenIP o in
      if negb (isIP listen) then Err ("listen ip " +:+ listen +:+ " is invalid")
      else
        let inbound : Inbound := <["tag" := JString (wireTag tag)]> (<["listen" := JString listen]> (<["listen_port" := num port]> ∅)) in
        let type := NodeController.NType info in
        let typed := <["type" := JString type]> inbound in
        if String.eqb type "shadowsocks" then
          match Shadowsocks p with None => missing type | Some node => shadowsocksInbound inbound node end
        else if String.eqb type "trojan" then
          match Trojan p with
          | None => missing type
          | Some node => let? inbound := addTLS typed info o true in addTransport inbound node.1 node.2
          end
        else if String.eqb type "vless" || String.eqb type "vmess" then
          match VAllss p with None => missing type | Some node => vallssInbound inbound info o node end
        else if String.eqb type "hysteria2" then
          match Hysteria2 p with
          | None => missing type
          | Some node =>
              let? inbound := addTLS typed info o true in
              if String.eqb node.1 "" then Ok inbound
              else if String.eqb node.1 "salamander" then
                Ok (<["obfs" := JObject [("type", JString "salamander"); ("password", JString node.2)]]> inbound)
              else Err ("hysteria2 obfs " +:+ node.1 +:+ " is not supported")
          end
        else if String.eqb type "tuic" then
          match Tuic p with
          | None => missing type
          | Some control => let? inbound := addTLS typed info o true in
                            Ok (when (negb (String.eqb control "")) "congestion_control" (JString control) inbound)
          end
        else if String.eqb type "anytls" then
          match AnyTls p with
          | None => missing type
          | Some scheme => let? inbound := addTLS typed info o true in
                           Ok (when (bool_decide (scheme ≠ [])) "padding_scheme" (strs scheme) inbound)
          end
        else if String.eqb type "iwan" then match Iwan p with None => missing type | Some node => iwanInbound inbound node end
        else if String.eqb type "anx" then match Anx p with None => missing type | Some node => anxInbound keyFile inbound node end
        else Err ("anixcore does not serve " +:+ type +:+ " nodes")
    end
  end.

(** ** Users *)

(** [apiUser] *)
Record apiUser := mkApiUser {
  Name : string; Password : string; UUID : string; UFlow : string; Address : string; SpeedLimit : Z; DeviceLimit : Z
}.

Definition visionFlow : string := "xtls-rprx-vision".
Definition userKeySuffix : string := ".k".

Definition userName (u : UserInfo) : string := itoa (Id u).

Definition iwanPassword (uuid : string) : result string :=
  let digits := ReplaceAll uuid "-" "" in
  if len digits <? 16 then Err "uuid is too short for an iwan password" else Ok (to_lower (String.substring 0 16 digits)).

Definition anxUserKey (uuid : string) : string :=
  let uuid := to_lower (trim_space uuid) in
  if String.eqb uuid "" then "" else hexEncode (hmac uuid "anx/panel-user-key/v1").

Definition cipherOf (info : NodeInfo) : string := default "" (fst <$> Shadowsocks (NodeController.Body info)).

Definition apiUserFor (info : NodeInfo) (u : UserInfo) : result apiUser :=
  let type := NodeController.NType info in
  let p := NodeController.Body info in
  let user password uuid flow address :=
    mkApiUser (userName u) password uuid flow address (Z.max (USpeedLimit u) 0) (Z.max (UDeviceLimit u) 0) in
  if String.eqb type "shadowsocks" then
    if shadowsocksLegacy (cipherOf info) then Ok (user (Uuid u) "" "" "")
    else
      let? keyLen := shadowsocksKeyLen (cipherOf info) in
      if len (Uuid u) <? keyLen then Err ("user " +:+ itoa (Id u) +:+ " uuid is too short for a shadowsocks key")
      else Ok (user (base64Encode (String.substring 0 (Z.to_nat keyLen) (Uuid u))) "" "" "")
  else if existsb (String.eqb type) ["trojan"; "hysteria2"; "anytls"] then Ok (user (Uuid u) "" "" "")
  else if String.eqb type "tuic" then Ok (user (Uuid u) (Uuid u) "" "")
  else if String.eqb type "vless" then
    let vision := (NodeController.Security info =? Reality) && bool_decide (Flow <$> VAllss p = Some visionFlow) in
    Ok (user "" (Uuid u) (if vision then visionFlow else "") "")
  else if String.eqb type "vmess" then Ok (user "" (Uuid u) "" "")
  else if String.eqb type "iwan" then
    let? password := iwanPassword (Uuid u) in
    Ok (user password "" "" (default "" (node ← Iwan p; FixedAddresses node !! userName u)))
  else if String.eqb type "anx" then
    let password := anxUserKey (Uuid u) in
    if String.eqb password "" then Err ("user " +:+ itoa (Id u) +:+ " has no uuid for an anx key") else Ok (user password "" "" "")
  else Err ("anixcore does not serve " +:+ type +:+ " nodes").

Definition apiUsersFor (info : NodeInfo) (u : UserInfo) : result (list apiUser) :=
  let? legacy := apiUserFor info u in
  if negb (String.eqb (NodeController.NType info) "shadowsocks") || shadowsocksLegacy (cipherOf info) then Ok [legacy]
  else match base64Decode (default "" (Extra u !! "ss2022_key")) with
       | None => Ok [legacy]
       | Some raw =>
           if negb (len raw =? 32) then Ok [legacy]
           else
             let keyLen := match shadowsocksKeyLen (cipherOf info) with Ok n => n | Err _ => 0 end in
             Ok [legacy; mkApiUser (Name legacy +:+ userKeySuffix) (base64Encode (String.substring 0 (Z.to_nat keyLen) raw))
                           (UUID legacy) (UFlow legacy) (Address legacy) (SpeedLimit legacy) (DeviceLimit legacy)]
       end.

(** [forKernel] *)
Definition forKernel (userLimits : bool) (users : list apiUser) : list apiUser :=
  if userLimits then users
  else (λ u, mkApiUser (Name u) (Password u) (UUID u) (UFlow u) (Address u) 0 0) <$> users.
End Codec.

#[export] Instance apiUser_eq_dec : EqDecision apiUser.
Proof. solve_decision. Defined.

(** ** What the kernel counts (user.go, destinations.go) *)

(** [strconv.ParseInt] to 32 bits. *)
Definition ParseInt32 (s : string) : option Z := n ← Atoi s; if (- 2 ^ 31 <=? n) && (n <? 2 ^ 31) then Some n else None.

Definition panelUID (name : string) : option Z :=
  uid ← ParseInt32 (trim_suffix name userKeySuffix); if uid <=? 0 then None else Some uid.

Record apiTraffic := mkApiTraffic { TName : string; Up : Z; Down : Z }.
Record apiOnline := mkApiOnline { OName : string; IP : string }.
Record UserTraffic := mkUserTraffic { UID : Z; Upload : Z; Download : Z }.

(** The loop of [GetUserTrafficSlice]: a user's further entries are added to its
    first one. *)
Fixpoint addTraffic (uid up down : Z) (slice : list UserTraffic) : list UserTraffic :=
  match slice with
  | [] => [mkUserTraffic uid up down]
  | t :: slice =>
      if UID t =? uid then mkUserTraffic uid (i64 (Upload t + up)) (i64 (Download t + down)) :: slice
      else t :: addTraffic uid up down slice
  end.

Definition trafficEntry (slice : list UserTraffic) (e : apiTraffic) : list UserTraffic :=
  match panelUID (TName e) with
  | Some uid => if i64 (Up e + Down e) =? 0 then slice else addTraffic uid (Up e) (Down e) slice
  | None => slice
  end.

Definition trafficSlice (traffic : list apiTraffic) : list UserTraffic := foldl trafficEntry [] traffic.

Definition onlineUsers (online : list apiOnline) : list (Z * string) :=
  omap (λ e, (λ uid, (uid, IP e)) <$> panelUID (OName e)) online.

(** [apiDestination] and [destinations.Traffic]. *)
Record apiDestination := mkDestination { DName : string; Host : string; DProtocol : string; DUp : Z; DDown : Z; Connections : Z }.
Record Traffic := mkTraffic { DUid : Z; Domain : string; TProtocol : string; DUpload : Z; DDownload : Z; DConnections : Z }.

Fixpoint addDestination (uid : Z) (domain : string) (e : apiDestination) (traffic : list Traffic) : list Traffic :=
  match traffic with
  | [] => [mkTraffic uid domain (DProtocol e) (Z.max (DUp e) 0) (Z.max (DDown e) 0) (Z.max (Connections e) 0)]
  | t :: traffic =>
      if (DUid t =? uid) && String.eqb (Domain t) domain && String.eqb (TProtocol t) (DProtocol e) then
        mkTraffic uid domain (DProtocol e) (i64 (DUpload t + Z.max (DUp e) 0)) (i64 (DDownload t + Z.max (DDown e) 0))
          (i64 (DConnections t + Z.max (Connections e) 0)) :: traffic
      else t :: addDestination uid domain e traffic
  end.

(** [foldDestinations]; [name] is [destinations.Name]. *)
Definition foldDestinations (name : string → string) (entries : list apiDestination) : list Traffic :=
  foldl (λ traffic e,
    match panelUID (DName e) with
    | Some uid =>
        if (DUp e =? 0) && (DDown e =? 0) && (Connections e =? 0) then traffic else addDestination uid (name (Host e)) e traffic
    | None => traffic
    end) [] entries.

End AnixInbound.
