(* ===== verification/AnixUsers.v ===== *)
(** * Users and certificates of the kernel's inbounds

    The names a user has in the kernel come back as the user, whatever the
    protocol, and what the kernel counted under them is billed to it; protocols
    that need a certificate do not get an inbound without one. *)

From S2P Require Import Prelude GoStrings GoNet Json Limiter NodeController AnixInbound.
From Stdlib Require Import Ascii String.

Module AnixUsers.
Import Limiter GoNet AnixInbound.

(** ** Names *)

Lemma trim_digits s : all_chars is_digit s = true → trim_suffix s userKeySuffix = s.
Proof.
  induction s as [|c s IH]; [done|]. cbn [all_chars]. intros [Hc Hs]%andb_true_iff. cbn [trim_suffix].
  destruct (String.eqb_spec (String c s) userKeySuffix) as [E|_]; [by injection E as -> ->|]. by rewrite IH.
Qed.

Lemma trim_key s : all_chars is_digit s = true → trim_suffix (s +:+ userKeySuffix) userKeySuffix = s.
Proof.
  induction s as [|c s IH]; [done|]. cbn [all_chars]. intros [Hc Hs]%andb_true_iff. rewrite app_cons_str. cbn [trim_suffix].
  destruct (String.eqb_spec (String c (s +:+ userKeySuffix)) userKeySuffix) as [E|_]; [by injection E as ->|]. by rewrite IH.
Qed.

Lemma Atoi_digits c s : is_digit c = true → all_chars is_digit s = true →
  Atoi (String c s) = match parse_dec_from 0 (String c s) with
                      | Some n => if (- 2 ^ 63 <=? n) && (n <? 2 ^ 63) then Some n else None
                      | None => None
                      end.
Proof.
  intros Hc _. unfold Atoi. destruct (Ascii.eqb_spec c "-") as [->|_]; [done|]. by destruct (Ascii.eqb_spec c "+") as [->|_].
Qed.

Lemma Atoi_format n : 0 ≤ n < 2 ^ 63 → Atoi (format_uint n) = Some n.
Proof.
  intros Hn. destruct (format_uint_shape n ltac:(lia)) as [Hd Hl].
  pose proof (parse_format_uint n ltac:(change (2 ^ 64) with 18446744073709551616; change (2 ^ 63) with 9223372036854775808 in Hn; lia)) as Hp.
  destruct (format_uint n) as [|c s]; [unfold len in Hl; simpl in Hl; lia|].
  cbn [all_chars] in Hd. apply andb_true_iff in Hd as [Hc Hs]. rewrite Atoi_digits by done. unfold parse_uint in Hp.
  destruct (parse_dec_from 0 (String c s)) as [m|]; [|done]. destruct (m <? 2 ^ 64); [|done]. injection Hp as ->.
  destruct (Z.leb_spec (- 2 ^ 63) n), (Z.ltb_spec n (2 ^ 63)); try done; lia.
Qed.

(** The digits of an id, with or without the suffix, are the id. *)
Lemma panelUID_digits name s n : 0 < n < 2 ^ 31 → s = format_uint n → name = s ∨ name = s +:+ userKeySuffix → panelUID name = Some n.
Proof.
  intros Hn -> Hname. destruct (format_uint_shape n ltac:(lia)) as [Hd _].
  assert (trim_suffix name userKeySuffix = format_uint n) as Ht.
  { destruct Hname as [-> | ->]; [by apply trim_digits|by apply trim_key]. }
  unfold panelUID, ParseInt32. rewrite Ht, Atoi_format by lia. simpl.
  destruct (Z.leb_spec (- 2 ^ 31) n), (Z.ltb_spec n (2 ^ 31)); try lia. simpl. by destruct (Z.leb_spec n 0); [lia|].
Qed.

(** The names a user of the panel has in the kernel. *)
Definition namesOf (u : UserInfo) : list string := [userName u; userName u +:+ userKeySuffix].

Lemma panelUID_names u name : 0 < Id u < 2 ^ 31 → name ∈ namesOf u → panelUID name = Some (Id u).
Proof.
  intros Hid Hn. apply (panelUID_digits name (format_uint (Id u))); [done..|].
  assert (userName u = format_uint (Id u)) as Hu by (unfold userName, itoa; destruct (Z.ltb_spec (Id u) 0); [lia|done]).
  unfold namesOf in Hn. rewrite Hu in Hn. set_solver.
Qed.

Section Names.
Context `{!InboundCodec}.

Lemma apiUserFor_name info u a : apiUserFor info u = Ok a → Name a = userName u.
Proof.
  unfold apiUserFor. intros Hx.
  repeat match type of Hx with
  | (if ?b then _ else _) = _ => destruct b
  | match ?r with Ok _ => _ | Err _ => _ end = _ => destruct r; simpl in Hx
  | (let? _ := ?r in _) = _ => destruct r; simpl in Hx
  | Ok _ = Ok _ => injection Hx as <-
  end; done.
Qed.

Lemma apiUsersFor_names info u us : apiUsersFor info u = Ok us → (Name <$> us) `prefix_of` namesOf u ∧ us ≠ [].
Proof.
  unfold apiUsersFor. destruct (apiUserFor info u) as [a|] eqn:Ea; [|done]. simpl. apply apiUserFor_name in Ea.
  unfold namesOf. destruct (_ || _); [intros [= <-]; simpl; rewrite Ea; by split; [eexists|]|].
  destruct (base64Decode _) as [raw|]; [|intros [= <-]; simpl; rewrite Ea; by split; [eexists|]].
  destruct (negb _); intros [= <-]; simpl; rewrite Ea; by split; [eexists|].
Qed.

(** C21: the names of a user of the panel in the kernel are distinct, are no
    other user's, and are read back as that user, for every protocol and with a
    second Shadowsocks key or without. *)
Theorem user_names_come_back info u us a :
  0 < Id u < 2 ^ 31 → apiUsersFor info u = Ok us → a ∈ us →
  panelUID (Name a) = Some (Id u) ∧ NoDup (Name <$> us) ∧
  ∀ info' u' us' a', 0 < Id u' < 2 ^ 31 → apiUsersFor info' u' = Ok us' → a' ∈ us' → Name a' = Name a → Id u' = Id u.
Proof.
  intros Hid Hus Ha.
  assert (∀ info u us a, 0 < Id u < 2 ^ 31 → apiUsersFor info u = Ok us → a ∈ us → panelUID (Name a) = Some (Id u)) as Hback.
  { clear. intros info u us a Hid Hus Ha. apply apiUsersFor_names in Hus as [[k Hk] _]. apply panelUID_names; [done|].
    rewrite Hk. apply elem_of_app. left. by apply list_elem_of_fmap_2. }
  split_and!; [by eapply Hback| |].
  - apply apiUsersFor_names in Hus as [[k Hk] _]. assert (NoDup (namesOf u)) as Hnd.
    { unfold namesOf. repeat constructor; [|set_solver]. intros E%list_elem_of_singleton.
      apply (f_equal String.length) in E. rewrite length_app_str in E. simpl in E. lia. }
    rewrite Hk in Hnd. by apply NoDup_app in Hnd as [? _].
  - intros info' u' us' a' Hid' Hus' Ha' E. apply (Hback info' u') in Ha'; [|done..]. apply (Hback info u) in Ha; [|done..]. congruence.
Qed.

(** ** Certificates *)

(** The certificate of the options, when there is one to serve with. *)
Definition certificate (o : InboundOptions) : option json :=
  cert ← CertConfig o;
  if existsb (String.eqb (NodeController.CertMode cert)) [""; "none"] ||
     String.eqb (NodeController.CertFile cert) "" || String.eqb (NodeController.KeyFile cert) "" then None
  else Some (JObject [("certificate_path", JString (NodeController.CertFile cert)); ("key_path", JString (NodeController.KeyFile cert))]).

Lemma addTLS_tls inbound info o required i : addTLS inbound info o required = Ok i →
  (required = true ∨ i ≠ inbound) → ∃ cert, certificate o = Some cert ∧ i = <["tls" := cert]> inbound.
Proof.
  unfold addTLS, certificate. intros Hx Hr.
  destruct (negb required && negb _) eqn:E1; [injection Hx as <-; destruct Hr as [-> |]; done|].
  destruct (CertConfig o) as [cert|]; simpl; [|destruct required; [done|injection Hx as <-; by destruct Hr]].
  rewrite orb_false_r.
  destruct (_ || String.eqb _ "none"); [destruct required; [done|injection Hx as <-; by destruct Hr]|]. simpl.
  destruct (_ || _); [done|]. injection Hx as <-. by eexists.
Qed.

Lemma addTransport_other i network settings i' key : key ≠ "transport" → addTransport i network settings = Ok i' → i' !! key = i !! key.
Proof.
  intros Hk. unfold addTransport, transport, settingsOr. intros Hx.
  repeat match type of Hx with
  | (if ?b then _ else _) = _ => destruct b
  | (let? _ := (if ?b then _ else _) in _) = _ => destruct b; simpl in Hx
  | (let? _ := match ?r with Some _ => _ | None => _ end in _) = _ => destruct r; simpl in Hx
  | match ?r with Some _ => _ | None => _ end = _ => destruct r as [[? ?]|]
  | Ok _ = Ok _ => injection Hx as <-
  end; try done; by rewrite lookup_insert_ne.
Qed.

Lemma when_other b key value i key' : key' ≠ key → when b key value i !! key' = i !! key'.
Proof. intros Hne. unfold when. destruct b; [by rewrite lookup_insert_ne|done]. Qed.

(** An inbound of a protocol that needs a certificate carries the one of the
    node's options; without one to serve with the node is refused. *)
Theorem certificate_required keyFile tag info o i :
  NodeController.NType info ∈ ["trojan"; "hysteria2"; "tuic"; "anytls"] → inboundConfig keyFile tag (Some info) o = Ok i →
  is_Some (certificate o) ∧ i !! "tls" = certificate o.
Proof.
  intros Ht. unfold inboundConfig. destruct (Common _) as [port|]; [|done]. destruct (negb (isIP _)); [done|].
  set (base := <["tag":=_]> _). intros Hx.
  assert (∀ (f : Inbound → result Inbound), (∀ j j', f j = Ok j' → j' !! "tls" = j !! "tls") →
    (let? j := addTLS (<["type" := JString (NodeController.NType info)]> base) info o true in f j) = Ok i →
    is_Some (certificate o) ∧ i !! "tls" = certificate o) as Hf.
  { intros f Hf. destruct (addTLS _ _ _ _) as [j|] eqn:Ej; [|done]. simpl. intros Hi. apply Hf in Hi.
    apply addTLS_tls in Ej as (cert & -> & ->); [|by left]. rewrite Hi, lookup_insert_eq. by split; [eexists|]. }
  rewrite !elem_of_cons, elem_of_nil in Ht. destruct Ht as [Ht|[Ht|[Ht|[Ht|[]]]]]; rewrite Ht in Hx, Hf; simpl in Hx.
  - destruct (Trojan _) as [node|]; [|done]. revert Hx. apply Hf. intros j j' Hj. by eapply addTransport_other in Hj.
  - destruct (Hysteria2 _) as [node|]; [|done]. revert Hx. apply Hf. intros j j' Hj. cbv beta in Hj.
    destruct (String.eqb (fst node) ""); [by injection Hj as <-|].
    destruct (String.eqb (fst node) "salamander"); [|done]. injection Hj as <-. by rewrite lookup_insert_ne.
  - destruct (Tuic _) as [control|]; [|done]. revert Hx. apply Hf. intros j j' Hj. injection Hj as <-. by apply when_other.
  - destruct (AnyTls _) as [scheme|]; [|done]. revert Hx. apply Hf. intros j j' Hj. injection Hj as <-. by apply when_other.
Qed.
End Names.

(** ** Traffic *)

(** What the slice bills a user, by direction. *)
Definition billed (f : UserTraffic → Z) (uid : Z) (slice : list UserTraffic) : Z := sum_Z f (filter (λ t, UID t = uid) slice).

(** What the kernel counted under the names that satisfy a test. *)
Definition counted (f : apiTraffic → Z) (P : string → bool) (traffic : list apiTraffic) : Z :=
  sum_Z f (filter (λ e, P (TName e) = true) traffic).

Definition names_user (uid : Z) (name : string) : bool := bool_decide (panelUID name = Some uid).

Lemma billed_cons f uid t slice : billed f uid (t :: slice) = (if decide (UID t = uid) then f t else 0) + billed f uid slice.
Proof. unfold billed. rewrite filter_cons. by case_decide. Qed.

Lemma counted_snoc f P traffic e : counted f P (traffic ++ [e]) = counted f P traffic + (if P (TName e) then f e else 0).
Proof.
  unfold counted. rewrite filter_app, sum_Z_app, filter_cons, filter_nil. destruct (P (TName e)); simpl; lia.
Qed.

Lemma counted_ext f P Q traffic : Forall (λ e, P (TName e) = Q (TName e)) traffic → counted f P traffic = counted f Q traffic.
Proof.
  unfold counted. induction 1 as [|e l He _ IH]; [done|]. rewrite !filter_cons, <- He. by destruct (P (TName e)); simpl; rewrite IH.
Qed.

Lemma addTraffic_billed uid up down slice : 0 ≤ up → 0 ≤ down →
  Forall (λ t, 0 ≤ Upload t ∧ Upload t + up < 2 ^ 63 ∧ 0 ≤ Download t ∧ Download t + down < 2 ^ 63) slice → NoDup (UID <$> slice) →
  NoDup (UID <$> addTraffic uid up down slice) ∧ (∀ x, x ∈ UID <$> addTraffic uid up down slice → x = uid ∨ x ∈ UID <$> slice) ∧
  (∀ u, billed Upload u (addTraffic uid up down slice) = billed Upload u slice + (if decide (uid = u) then up else 0)) ∧
  (∀ u, billed Download u (addTraffic uid up down slice) = billed Download u slice + (if decide (uid = u) then down else 0)) ∧
  (∀ t, t ∈ addTraffic uid up down slice → ∃ t', (t' ∈ slice ∨ t' = mkUserTraffic uid 0 0) ∧
     Upload t' ≤ Upload t ≤ Upload t' + up ∧ Download t' ≤ Download t ≤ Download t' + down).
Proof.
  intros Hup Hdown Hall. induction Hall as [|t slice Ht Hall IH]; intros Hnd.
  - simpl. split_and!; [repeat constructor; set_solver|set_solver| | |].
    1-2: intros u; rewrite billed_cons; simpl; by rewrite Z.add_comm.
    intros t ->%list_elem_of_singleton. eexists. split; [by right|]. simpl. lia.
  - cbn [addTraffic]. rewrite fmap_cons in Hnd. apply NoDup_cons in Hnd as [Hnin Hnd].
    destruct (IH Hnd) as (Hnd' & Hin' & Hu' & Hd' & Hb'). destruct (Z.eqb_spec (UID t) uid) as [<-|Hne].
    + rewrite !i64_small by lia. split_and!.
      * rewrite fmap_cons. by apply NoDup_cons.
      * intros x [-> | Hx]%elem_of_cons; [by left|]. right. by apply elem_of_cons; right.
      * intros u. rewrite !billed_cons. simpl. case_decide; lia.
      * intros u. rewrite !billed_cons. simpl. case_decide; lia.
      * intros x [-> | Hx]%elem_of_cons; [exists t; simpl; split; [left; apply elem_of_cons; by left|lia]|].
        exists x. split; [left; apply elem_of_cons; by right|lia].
    + split_and!.
      * rewrite fmap_cons. apply NoDup_cons. split; [|done]. intros Hx. by apply Hin' in Hx as [Hx|].
      * intros x [-> | Hx]%elem_of_cons; [right; rewrite fmap_cons; apply elem_of_cons; by left|].
        apply Hin' in Hx as [->|]; [by left|]. right. rewrite fmap_cons. apply elem_of_cons. by right.
      * intros u. rewrite !billed_cons, Hu'. lia.
      * intros u. rewrite !billed_cons, Hd'. lia.
      * intros x [-> | Hx]%elem_of_cons; [exists t; split; [left; apply elem_of_cons; by left|lia]|].
        apply Hb' in Hx as (t' & [Ht'| ->] & Hb); eexists; (split; [|exact Hb]); [left; apply elem_of_cons; by right|by right].
Qed.

Lemma trafficSlice_billed traffic :
  Forall (λ e, 0 ≤ Up e ∧ 0 ≤ Down e) traffic → sum_Z Up traffic + sum_Z Down traffic < 2 ^ 63 →
  NoDup (UID <$> trafficSlice traffic) ∧
  (∀ uid, billed Upload uid (trafficSlice traffic) = counted Up (names_user uid) traffic ∧
          billed Download uid (trafficSlice traffic) = counted Down (names_user uid) traffic) ∧
  Forall (λ t, 0 ≤ Upload t ≤ sum_Z Up traffic ∧ 0 ≤ Download t ≤ sum_Z Down traffic) (trafficSlice traffic).
Proof.
  induction traffic as [|e traffic IH] using rev_ind; intros Hall Hsum; [split_and!; [constructor|done|constructor]|].
  apply Forall_app in Hall as [Hall He]. apply Forall_cons in He as [He _]. rewrite !sum_Z_app in *. simpl in *.
  destruct IH as (Hnd & Hb & Hle); [done|lia|]. unfold trafficSlice in *. rewrite foldl_snoc.
  set (slice := foldl trafficEntry [] traffic) in *. unfold trafficEntry. rewrite !Z.add_0_r in *.
  assert (Forall (λ t, 0 ≤ Upload t ≤ sum_Z Up traffic + Up e ∧ 0 ≤ Download t ≤ sum_Z Down traffic + Down e) slice) as Hle'.
  { eapply Forall_impl; [exact Hle|]. simpl. lia. }
  destruct (panelUID (TName e)) as [uid|] eqn:Eu.
  2: { split_and!; [done| |done]. intros u. rewrite !counted_snoc. unfold names_user. rewrite Eu, bool_decide_false by done.
       rewrite !Z.add_0_r. apply Hb. }
  assert (0 ≤ sum_Z Up traffic ∧ 0 ≤ sum_Z Down traffic) as Hpos.
  { clear -Hall. induction Hall as [|x l Hx _ IHl]; simpl; lia. }
  rewrite i64_small by lia. destruct (Z.eqb_spec (Up e + Down e) 0) as [E0|E0].
  - split_and!; [done| |done]. intros u. rewrite !counted_snoc. destruct (Hb u) as [-> ->]. destruct (names_user u (TName e)); lia.
  - destruct (addTraffic_billed uid (Up e) (Down e) slice) as (Hnd' & _ & Hu & Hd & Hbd); [lia..| |done|].
    { eapply Forall_impl; [exact Hle|]. simpl. lia. }
    split_and!; [done| |].
    + intros u. rewrite Hu, Hd, !counted_snoc. destruct (Hb u) as [-> ->]. unfold names_user. rewrite Eu.
      case_decide; [subst; by rewrite bool_decide_true|]. rewrite bool_decide_false by congruence. lia.
    + apply Forall_forall. intros t (t' & [Ht'| ->] & Hb')%Hbd; simpl in *; [|lia].
      rewrite Forall_forall in Hle. specialize (Hle t' Ht'). simpl in Hle. lia.
Qed.

(** C22: what the kernel counted under the names of a user is billed to that user
    and to no other, once: the user's traffic is the sum over its one or two
    names, each user is reported once, and nothing counted is lost as long as
    the totals fit an int64. *)
Theorem kernel_traffic_billed traffic :
  Forall (λ e, 0 ≤ Up e ∧ 0 ≤ Down e ∧ ∃ v, 0 < Id v < 2 ^ 31 ∧ TName e ∈ namesOf v) traffic →
  sum_Z Up traffic + sum_Z Down traffic < 2 ^ 63 →
  NoDup (UID <$> trafficSlice traffic) ∧
  ∀ u, 0 < Id u < 2 ^ 31 →
    billed Upload (Id u) (trafficSlice traffic) = counted Up (λ name, bool_decide (name ∈ namesOf u)) traffic ∧
    billed Download (Id u) (trafficSlice traffic) = counted Down (λ name, bool_decide (name ∈ namesOf u)) traffic.
Proof.
  intros Hall Hsum. destruct (trafficSlice_billed traffic) as (Hnd & Hb & _); [|done|].
  { eapply Forall_impl; [exact Hall|]. simpl. tauto. }
  split; [done|]. intros u Hid. destruct (Hb (Id u)) as [-> ->].
  assert (∀ f, counted f (names_user (Id u)) traffic = counted f (λ name, bool_decide (name ∈ namesOf u)) traffic) as Hc.
  { intros f. apply counted_ext. eapply Forall_impl; [exact Hall|]. intros e (_ & _ & v & Hv & Hn). unfold names_user.
    rewrite (panelUID_names v) by done. apply bool_decide_ext. split; [|intros Hu; rewrite <- (panelUID_names v (TName e)), (panelUID_names u (TName e)) by done; done].
    intros [= E]. assert (namesOf v = namesOf u) as <- by (unfold namesOf, userName; by rewrite E). done. }
  by rewrite !Hc.
Qed.
End AnixUsers.
