(* ===== verification/AnixPlan.v ===== *)
(** * What the kernel runs of a network plan (src/core/anixcore/network.go,
    forward.go, reverse_proxy.go, anxline.go)

    The pure part: the links a plan has anx-node dial with the rendezvous
    listener of its reverse links, the inbounds of its port forwards and reverse
    proxies, the ingress of each port, the body the kernel is sent, and the
    statuses made of the kernel's answers.  Bounds of Control's SDK and the JSON
    of the plan are the class [PlanSDK]. *)

From S2P Require Import Prelude GoStrings GoNet Json NetworkPlan AnxServer AnixInbound.
From Stdlib Require Import Ascii String.

Module AnixPlan.
Import NetworkPlan AnxServer AnixInbound.

(** ** The plan *)

Record ForwardHealth := mkHealth { HIntervalMs : Z; HTimeoutMs : Z; HDisabled : bool }.
Record ForwardPolicy := mkForwardPolicy {
  PBalance : string; PHealth : option ForwardHealth; PBreaker : option (Z * Z); ProxyProtocol : string; BandwidthBps : Z; MaxConns : Z
}.

Record PortForward := mkPortForward {
  PfId : string; PfAddress : string; PfPort : Z; PfProtocols : list string; PfEgress : string; PfTransport : string;
  PfTargets : list ForwardTarget; PfPolicy : option ForwardPolicy
}.

Record ProxyRoute := mkRoute {
  RPath : string; StripPrefix : bool; RHost : string; HostHeader : string; RHeaders : list (string * string);
  Upstreams : list ForwardTarget; RPolicy : option ForwardPolicy
}.
Record ProxySite := mkSite { Hosts : list string; RedirectHttps : bool; Routes : list ProxyRoute }.
Record ReverseProxy := mkProxy {
  RpId : string; RpAddress : string; RpPort : Z; RpEgress : string; RpTransport : string; CertificatePem : string;
  PrivateKeyPem : string; Sites : list ProxySite
}.

(** An ingress: whether users use it, and the port it listens on. *)
Record PlanIngress := mkPlanIngress { InId : string; ForUsers : bool; InPort : Z }.

(** [networkv1.NetworkPlan] as the core reads it; [PlanPaths] are the transports
    of the paths. *)
Record CorePlan := mkCorePlan {
  PlanEgresses : list Egress; PlanTransports : list Transport; PlanForwards : list Forwarding; PlanIngresses : list PlanIngress;
  PlanPaths : list string; PortForwards : list PortForward; ReverseProxies : list ReverseProxy
}.

(** The plan without anything; the members of a nil message. *)
Definition noPlan : CorePlan := mkCorePlan [] [] [] [] [] [] [].

(** The SDK's bounds, and the plan as JSON. *)
Class PlanSDK := {
  MaxTextBytes : nat;
  MaxForwardTargets : nat;
  MaxPort : Z;
  marshalPlan : CorePlan → option string
}.

Definition withoutForwards (p : CorePlan) : CorePlan :=
  mkCorePlan (PlanEgresses p) (PlanTransports p) (PlanForwards p) (PlanIngresses p) (PlanPaths p) [] [].

(** What [anxserver.Relayed] reads. *)
Definition relayPlan (p : CorePlan) : Plan :=
  mkPlan 0 "" "" [] (PlanEgresses p) (PlanTransports p) (PlanForwards p) [] (PlanPaths p) (PfTransport <$> PortForwards p)
    (RpTransport <$> ReverseProxies p) [].

Definition networkBody `{PlanSDK} (plan : option CorePlan) : result string :=
  match plan with
  | None => Ok "{}"
  | Some p =>
      let p := if decide (PortForwards p = [] ∧ ReverseProxies p = []) then p else withoutForwards p in
      match marshalPlan p with Some body => Ok body | None => Err "anixcore network" end
  end.

(** The first user ingress on each port. *)
Definition addIngress (m : gmap Z string) (i : PlanIngress) : gmap Z string :=
  if ForUsers i && (0 <? InPort i) && bool_decide (m !! InPort i = None) then <[InPort i := InId i]> m else m.

Definition userIngresses (plan : CorePlan) : gmap Z string := foldl addIngress ∅ (PlanIngresses plan).

(** ** Links *)

(** [reverseListener] *)
Record reverseListener := mkReverse { Listen : string; RQUIC : bool; RFakeTCP : bool; A2Listen : string; A2SNI : string }.
Definition noReverse : reverseListener := mkReverse "" false false "" "".

#[export] Instance reverseListener_eq_dec : EqDecision reverseListener.
Proof. solve_decision. Defined.

Definition dials (t : Transport) : bool := String.eqb (TransportKind t) TransportAnxLine && bool_decide (TransportRole t = Dial).

(** The rendezvous listener with that of one more link. *)
Definition addReverse (t : Transport) (link : Link) (r : reverseListener) : result reverseListener :=
  let listen := ReverseListenAddr (settingsOf t) in
  if LkReverse link && String.eqb (LkEgress link) "l2" then
    let names := LkServerName link in
    if String.eqb listen "" || String.eqb names "" ||
       (negb (String.eqb (A2Listen r) "") && (negb (String.eqb listen (A2Listen r)) || negb (String.eqb names (A2SNI r)))) then
      Err ("transport " +:+ TransportId t +:+ ": reverse l2 links need one A2 reverse listener and server name")
    else if String.eqb listen (Listen r) then Err ("transport " +:+ TransportId t +:+ ": the A2 reverse listener is the bare one")
    else Ok (mkReverse (Listen r) (RQUIC r) (RFakeTCP r) listen names)
  else if LkReverse link then
    if negb (String.eqb listen "") && String.eqb listen (A2Listen r) then
      Err ("transport " +:+ TransportId t +:+ ": the reverse listener is the A2 one")
    else if String.eqb listen "" || (negb (String.eqb (Listen r) "") && negb (String.eqb listen (Listen r))) then
      Err ("transport " +:+ TransportId t +:+ ": reverse links need one reverse listener")
    else
      let carriers := ReverseCarriers (CarrierOrder (settingsOf t)) in
      Ok (mkReverse listen (RQUIC r || carriers.1) (RFakeTCP r || carriers.2) (A2Listen r) (A2SNI r))
  else Ok r.

Definition dialStep (relayed : gset string) (acc : result (gmap string Link * reverseListener)) (t : Transport)
    : result (gmap string Link * reverseListener) :=
  let? a := acc in
  if negb (dials t) || bool_decide (TransportId t ∈ relayed) then Ok a
  else
    let? link := DialLink t in
    let? r := addReverse t link a.2 in
    Ok (<[LkId link := link]> a.1, r).

Definition dialLinks (plan : CorePlan) : result (gmap string Link * reverseListener) :=
  foldl (dialStep (Relayed (relayPlan plan))) (Ok (∅, noReverse)) (PlanTransports plan).

Definition linkEgresses (plan : CorePlan) : gmap string string :=
  foldl (λ m t, if dials t then <[TransportId t := FromEgressId t]> m else m) ∅ (PlanTransports plan).

(** ** Forward inbounds *)

Definition forwardTagPrefix : string := "forward-".
Definition reverseProxyTagPrefix : string := "rproxy-".

(** The outbound of a next hop. *)
Definition outbound (what id egress transport : string) (transports : gmap string Transport) : result string :=
  if negb (String.eqb egress "") then Ok ("egress:" +:+ egress)
  else if negb (String.eqb transport "") then
    match transports !! transport with
    | Some t => if dials t then Ok ("anx-line:" +:+ TransportId t) else Err (what +:+ id +:+ ": transport is not a dialing anx_line transport")
    | None => Err (what +:+ id +:+ ": transport is not a dialing anx_line transport")
    end
  else Err (what +:+ id +:+ ": no next hop").

Definition target (t : ForwardTarget) : json :=
  JObject ([("server", JString (TargetHost t)); ("server_port", num (TargetPort t))] ++
           (if 0 <? TargetWeight t then [("weight", num (TargetWeight t))] else []) ++
           (if 0 <? TargetPriority t then [("priority", num (TargetPriority t))] else [])).

Definition forwardPolicy (policy : option ForwardPolicy) (inbound : Inbound) : Inbound :=
  match policy with
  | None => inbound
  | Some p =>
      let inbound := when (negb (String.eqb (PBalance p) "")) "balance" (JString (PBalance p)) inbound in
      let inbound := match PHealth p with
                     | Some h => <["health" := JObject [("interval_ms", num (HIntervalMs h)); ("timeout_ms", num (HTimeoutMs h));
                                                        ("disabled", JBool (HDisabled h))]]> inbound
                     | None => inbound
                     end in
      let inbound := match PBreaker p with
                     | Some (threshold, open) => <["circuit_breaker" := JObject [("failure_threshold", num threshold); ("open_ms", num open)]]> inbound
                     | None => inbound
                     end in
      let inbound := when (negb (String.eqb (ProxyProtocol p) "") && negb (String.eqb (ProxyProtocol p) "off"))
                       "proxy_protocol" (JString (ProxyProtocol p)) inbound in
      let inbound := when (0 <? BandwidthBps p) "bandwidth_bps" (num (BandwidthBps p)) inbound in
      when (0 <? MaxConns p) "max_conns" (num (MaxConns p)) inbound
  end.

Definition withTargets (targets : list ForwardTarget) (inbound : Inbound) : Inbound :=
  match targets with
  | [t] =>
      if (TargetWeight t =? 0) && (TargetPriority t =? 0)
      then <["server_port" := num (TargetPort t)]> (<["server" := JString (TargetHost t)]> inbound)
      else <["targets" := JArray [target t]]> inbound
  | _ => <["targets" := JArray (target <$> targets)]> inbound
  end.

Definition forwardInbound (transports : gmap string Transport) (f : PortForward) : result Inbound :=
  let base : Inbound :=
    <["tag" := JString (forwardTagPrefix +:+ PfId f)]> (<["type" := JString "forward"]> (<["listen" := JString (PfAddress f)]>
      (<["listen_port" := num (PfPort f)]> (<["network" := JString (join (PfProtocols f) ",")]> ∅)))) in
  let? out := outbound "port forward " (PfId f) (PfEgress f) (PfTransport f) transports in
  Ok (forwardPolicy (PfPolicy f) (withTargets (PfTargets f) (<["outbound" := JString out]> base))).

(** Inbounds by tag, up to the first error. *)
Definition collect {A} (tag : A → string) (make : A → result Inbound) (l : list A) : result (gmap string Inbound) :=
  foldl (λ acc x, let? m := acc in let? i := make x in Ok (<[tag x := i]> m)) (Ok ∅) l.

Definition transportsOf (plan : CorePlan) : gmap string Transport := keyed TransportId (PlanTransports plan).

Definition forwardInbounds (plan : CorePlan) : result (gmap string Inbound) :=
  collect (λ f, forwardTagPrefix +:+ PfId f) (forwardInbound (transportsOf plan)) (PortForwards plan).

(** ** Reverse proxy inbounds *)

Definition object (inbound : Inbound) : json := JObject (map_to_list inbound).

Definition proxyRoute (r : ProxyRoute) : json :=
  let entry : Inbound := when (negb (String.eqb (RPath r) "") && negb (String.eqb (RPath r) "/")) "path" (JString (RPath r)) ∅ in
  let entry := when (StripPrefix r) "strip_prefix" (JBool true) entry in
  let entry := if negb (String.eqb (RHost r) "") then <["host" := JString (RHost r)]> entry
               else when (negb (String.eqb (HostHeader r) "")) "host_header" (JString (HostHeader r)) entry in
  let entry := when (bool_decide (RHeaders r ≠ [])) "headers" (JObject ((λ h, (h.1, JString h.2)) <$> RHeaders r)) entry in
  object (forwardPolicy (RPolicy r) (<["upstreams" := JArray (target <$> Upstreams r)]> entry)).

Definition proxySite (s : ProxySite) : json :=
  JObject [("hosts", strs (Hosts s));
           if RedirectHttps s then ("redirect_https", JBool true) else ("routes", JArray (proxyRoute <$> Routes s))].

Definition reverseProxyInbound (transports : gmap string Transport) (p : ReverseProxy) : result Inbound :=
  let base : Inbound :=
    <["tag" := JString (reverseProxyTagPrefix +:+ RpId p)]> (<["type" := JString "reverse_proxy"]>
      (<["listen" := JString (RpAddress p)]> (<["listen_port" := num (RpPort p)]> ∅))) in
  let? out := outbound "reverse proxy " (RpId p) (RpEgress p) (RpTransport p) transports in
  let inbound := <["outbound" := JString out]> base in
  let inbound := if String.eqb (CertificatePem p) "" then inbound
                 else <["forwarded_proto" := JString "https"]>
                        (<["tls" := JObject [("certificate", JString (CertificatePem p)); ("key", JString (PrivateKeyPem p));
                                             ("alpn", strs ["http/1.1"])]]> inbound) in
  Ok (<["sites" := JArray (proxySite <$> Sites p)]> inbound).

Definition reverseProxyInbounds (plan : CorePlan) : result (gmap string Inbound) :=
  collect (λ p, reverseProxyTagPrefix +:+ RpId p) (reverseProxyInbound (transportsOf plan)) (ReverseProxies plan).

(** Port forwards, then reverse proxies. *)
Definition splitForwardTags (tags : list string) : list string * list string :=
  (filter (λ t, has_prefix t reverseProxyTagPrefix = false) tags, filter (λ t, has_prefix t reverseProxyTagPrefix = true) tags).

(** ** Statuses *)

(** [utf8.RuneStart] *)
Definition RuneStart (c : ascii) : bool := negb ((128 <=? code c) && (code c <? 192)).

(** The last position at or before [limit] where a rune starts. *)
Fixpoint cutAt (text : string) (limit : nat) : nat :=
  match limit with
  | O => O
  | S n => match String.get limit text with Some c => if RuneStart c then limit else cutAt text n | None => limit end
  end.

Definition truncate (text : string) (limit : nat) : string :=
  if (String.length text <=? limit)%nat then text else String.substring 0 (cutAt text limit) text.

Inductive ComponentState := Applied | Degraded | Down | Unspecified.

Definition componentState (state : string) : ComponentState :=
  if String.eqb state "applied" then Applied else if String.eqb state "degraded" then Degraded
  else if String.eqb state "down" then Down else Unspecified.

Inductive Component := EgressComponent | IngressComponent | TransportComponent.

Record ComponentStatus := mkComponent {
  CKind : Component; CId : string; CState : ComponentState; CDetail : string; CRtt : Z; CChangedAt : Z; CActiveEgress : string; CCarrier : string
}.

(** [kernelNetworkStatus]: its egresses and ingresses. *)
Record kernelEgress := mkKernelEgress { KeId : string; KeState : string; KeRtt : option Z; KeDetail : option string; KeChangedAt : Z }.
Record kernelIngress := mkKernelIngress { KiId : string; KiState : string; KiActive : option string }.
Record kernelNetworkStatus := mkKernelStatus { KGeneration : Z; KEgresses : list kernelEgress; KIngresses : list kernelIngress }.

Section Status.
Context `{!PlanSDK}.

Definition status (s : kernelNetworkStatus) : list ComponentStatus :=
  ((λ e, mkComponent EgressComponent (KeId e) (componentState (KeState e)) (default "" ((λ d, truncate d MaxTextBytes) <$> KeDetail e))
           (default 0 (Z.min (2 ^ 32 - 1) <$> KeRtt e)) (KeChangedAt e) "" "") <$> KEgresses s) ++
  ((λ i, mkComponent IngressComponent (KiId i) (componentState (KiState i)) "" 0 0 (default "" (KiActive i)) "") <$> KIngresses s).

(** anx-node's statistics of a link, with its last probes: carrier, success and
    handshake time. *)
Record LinkStat := mkLinkStat { Connected : bool; Carrier : string; StatRtt : Z; Probes : list (string * bool * Z) }.

(** The handshake of the carrier's last successful probe, where the carrier
    measures no round trip. *)
Definition linkRtt (s : LinkStat) : Z :=
  if negb (StatRtt s =? 0) then StatRtt s
  else foldl (λ rtt p, let '(carrier, ok, ms) := p in if String.eqb carrier (Carrier s) && ok && (0 <? ms) then ms else rtt) 0 (Probes s).

(** [linkStatus]; [stats] is anx-node's answer. *)
Definition linkStatus (stats : result (gmap string LinkStat)) (links : list string) : list ComponentStatus :=
  (λ id, match stats with
         | Err e => mkComponent TransportComponent id Down (truncate ("anx-node link stats: " +:+ e) MaxTextBytes) 0 0 "" ""
         | Ok stats =>
             match stats !! id with
             | None => mkComponent TransportComponent id Down "anx-node does not hold the link" 0 0 "" ""
             | Some s =>
                 if Connected s then mkComponent TransportComponent id Applied "" (linkRtt s) 0 "" (truncate (Carrier s) MaxTextBytes)
                 else mkComponent TransportComponent id Applied "" 0 0 "" ""
             end
         end) <$> links.

Record targetBody := mkTargetBody {
  TbAddress : string; TbPort : Z; TbState : string; TbFailures : Z; OpenUntil : Z; TbRtt : Z; CheckedAt : Z
}.
Inductive TargetState := Healthy | Unhealthy | CircuitOpen | UnknownTarget.
Record TargetHealth := mkTargetHealth {
  ThHost : string; ThPort : Z; ThState : TargetState; ThFailures : Z; ThOpenUntil : Z; ThRtt : Z; ThCheckedAt : Z
}.

Definition targetState (s : string) : TargetState :=
  if String.eqb s "healthy" then Healthy else if String.eqb s "unhealthy" then Unhealthy
  else if String.eqb s "circuit_open" then CircuitOpen else UnknownTarget.

Definition refusedTarget (t : targetBody) : bool :=
  String.eqb (TbAddress t) "" || (TbPort t =? 0) || (MaxPort <? TbPort t) || (Z.of_nat MaxTextBytes <? len (TbAddress t)) ||
  (OpenUntil t <? 0) || (CheckedAt t <? 0).

Fixpoint healthFrom (out : list TargetHealth) (targets : list targetBody) : list TargetHealth :=
  match targets with
  | [] => out
  | t :: targets =>
      if decide (List.length out = MaxForwardTargets) then out
      else if refusedTarget t then healthFrom out targets
      else healthFrom (out ++ [mkTargetHealth (TbAddress t) (TbPort t) (targetState (TbState t)) (TbFailures t) (OpenUntil t) (TbRtt t) (CheckedAt t)])
             targets
  end.

Definition targetHealth (targets : list targetBody) : list TargetHealth := healthFrom [] targets.

Record PortForwardStatus := mkPfStatus {
  PsId : string; PsState : ComponentState; PsDetail : string; PsUp : Z; PsDown : Z; PsTargets : list TargetHealth
}.

(** [forwardStatus]; [traffic] and [targets] are the kernel's answers by tag. *)
Definition forwardStatus (traffic : string → result (Z * Z)) (targets : string → option (list targetBody)) (tags : list string)
    : list PortForwardStatus :=
  (λ tag,
     let health := default [] (targetHealth <$> targets tag) in
     let id := trim_prefix tag forwardTagPrefix in
     match traffic tag with
     | Err e => mkPfStatus id Down (truncate ("anixcore forward traffic: " +:+ e) MaxTextBytes) 0 0 health
     | Ok (up, down) => mkPfStatus id Applied "" up down health
     end) <$> tags.

(** [reverseProxyStatus] *)
Definition reverseProxyStatus (traffic : string → result (Z * Z)) (targets : string → option (list targetBody)) (tags unsupported : list string)
    : list PortForwardStatus :=
  sort_by (λ a b, str_le (PsId a) (PsId b))
    (((λ s, mkPfStatus (trim_prefix (PsId s) reverseProxyTagPrefix) (PsState s) (PsDetail s) (PsUp s) (PsDown s) (PsTargets s)) <$>
        forwardStatus traffic targets tags) ++
     ((λ id, mkPfStatus id Down "this anx-node has no reverse_proxy feature; upgrade the kernel" 0 0 []) <$> unsupported)).

End Status.
End AnixPlan.
