(* ===== verification/AnixCore.v ===== *)
(** * The anixcore core (src/core/anixcore/anixcore.go, user.go, rules.go, qos.go,
    egress.go, network.go, anxline.go, forward.go, client.go)

    The core keeps what the kernel has been given -- an inbound per node with its
    users, the links and forwards of the network plan, egress routes, block
    rules and priorities -- and gives it again to a kernel that was restarted.
    The kernel is the class [Kernel]: it takes requests of its management API
    and answers, refuses with a status, or does not answer ([Lost]); [held] is
    what it runs.  The lock of the core is held over each operation, so an
    operation is a function.  Panel types are those of AnixInbound.v and
    AnixPlan.v; where the code ranges over a map the order of [map_to_list]
    stands for Go's order.  The texts of errors leave out the values the code
    quotes in them. *)

From S2P Require Import Prelude GoStrings GoNet Json Limiter NetworkPlan AnxServer NodeController AnixInbound AnixPlan.
From Stdlib Require Import Ascii String.

Module AnixCore.
Import Limiter NetworkPlan AnxServer AnixInbound AnixPlan.

(** ** Egress routes (src/api/panel/egress.go) *)

Record EgressServer := mkServer { SProtocol : string; SHost : string; SPort : Z; SMethod : string; SPassword : string }.
Record EgressRoute := mkEgressRoute { RouteID : Z; Domains : list string; Server : EgressServer }.
Record EgressRelay := mkRelay { RelayID : Z; RelayProtocol : string; RelayPort : Z; RelayMethod : string; RelayPassword : string }.
Record EgressConfig := mkEgressConfig { ERoutes : list EgressRoute; ERelays : list EgressRelay }.

Definition EgressProtocolShadowsocks : string := "shadowsocks".
Definition EgressProtocol (protocol : string) : string := if String.eqb protocol "" then EgressProtocolShadowsocks else protocol.

Definition Empty (c : EgressConfig) : bool := bool_decide (ERoutes c = []) && bool_decide (ERelays c = []).

Definition checkEgressEndpoint (port : Z) (method password : string) : result unit :=
  if (port <? 1) || (65535 <? port) then Err "invalid port"
  else if String.eqb (trim_space method) "" then Err "no method"
  else if String.eqb password "" then Err "no password" else Ok tt.

(** The ids seen so far, with one more. *)
Definition newID (what : string) (id : Z) (seen : gset Z) : result (gset Z) :=
  if (id =? 0) || bool_decide (id ∈ seen) then Err ("egress " +:+ what +:+ " " +:+ itoa id +:+ ": the id is missing or repeated")
  else Ok ({[id]} ∪ seen).

Fixpoint validateRoutes (seen : gset Z) (routes : list EgressRoute) : result unit :=
  match routes with
  | [] => Ok tt
  | r :: routes =>
      let? seen := newID "route" (RouteID r) seen in
      let what := "egress route " +:+ itoa (RouteID r) in
      if bool_decide (Domains r = []) then Err (what +:+ ": no domains")
      else if existsb (λ d, String.eqb (trim_space d) "") (Domains r) then Err (what +:+ ": an empty domain")
      else if String.eqb (trim_space (SHost (Server r))) "" then Err (what +:+ ": the server has no host")
      else let? _ := checkEgressEndpoint (SPort (Server r)) (SMethod (Server r)) (SPassword (Server r)) in validateRoutes seen routes
  end.

Fixpoint validateRelays (seen : gset Z) (relays : list EgressRelay) : result unit :=
  match relays with
  | [] => Ok tt
  | r :: relays =>
      let? seen := newID "relay" (RelayID r) seen in
      let? _ := checkEgressEndpoint (RelayPort r) (RelayMethod r) (RelayPassword r) in validateRelays seen relays
  end.

Definition Validate (c : option EgressConfig) : result unit :=
  match c with
  | None => Ok tt
  | Some c => let? _ := validateRoutes ∅ (ERoutes c) in validateRelays ∅ (ERelays c)
  end.

(** ** The kernel *)

(** [rulesConfig] *)
Record rulesConfig := mkRulesConfig { BlockDomains : list string; BlockProtocols : list string; BlockCIDRs : list string }.
Definition noRules : rulesConfig := mkRulesConfig [] [] [].

#[export] Instance rulesConfig_eq_dec : EqDecision rulesConfig.
Proof. solve_decision. Defined.

Definition emptyRules (r : rulesConfig) : bool := bool_decide (r = noRules).

Definition offQoS : string := "{}".

(** What the kernel runs: inbounds by tag with their users by name, links,
    rules, priorities, egress routes and the plan. *)
Record Held := mkHeld {
  hInbounds : gmap string (Inbound * gmap string apiUser); hLinks : gmap string Link; hRules : rulesConfig; hQoS : string;
  hEgress : EgressConfig; hNetwork : string
}.

Definition fresh : Held := mkHeld ∅ ∅ noRules offQoS (mkEgressConfig [] []) offQoS.

(** The requests of client.go and of anx-node's link management. *)
Inductive request :=
| AddInbound (inbound : Inbound) (users : list apiUser)
| RemoveInbound (wire : string)
| AddUsersOf (wire : string) (users : list apiUser)
| RemoveUsersOf (wire : string) (names : list string)
| PutRules (rules : rulesConfig)
| PutQoS (body : string)
| PutEgress (config : EgressConfig)
| PutNetwork (body : string)
| AddLinks (links : list Link)
| RemoveLinks (ids : list string).

(** What is sent under the key tag. *)
Definition tagOf (inbound : Inbound) : string := match inbound !! "tag" with Some (JString t) => t | _ => "" end.

Definition usersMap (users : list apiUser) (m : gmap string apiUser) : gmap string apiUser := foldl (λ m u, <[Name u := u]> m) m users.
Definition withoutNames (names : list string) (m : gmap string apiUser) : gmap string apiUser := foldl (λ m n, delete n m) m names.

Definition with_inbounds (h : Held) (m : gmap string (Inbound * gmap string apiUser)) : Held :=
  mkHeld m (hLinks h) (hRules h) (hQoS h) (hEgress h) (hNetwork h).
Definition with_links (h : Held) (m : gmap string Link) : Held :=
  mkHeld (hInbounds h) m (hRules h) (hQoS h) (hEgress h) (hNetwork h).

(** What a request that was done makes of it. *)
Definition doneBy (r : request) (h : Held) : Held :=
  match r with
  | AddInbound i us => with_inbounds h (<[tagOf i := (i, usersMap us ∅)]> (hInbounds h))
  | RemoveInbound w => with_inbounds h (delete w (hInbounds h))
  | AddUsersOf w us => with_inbounds h (alter (λ x, (x.1, usersMap us x.2)) w (hInbounds h))
  | RemoveUsersOf w ns => with_inbounds h (alter (λ x, (x.1, withoutNames ns x.2)) w (hInbounds h))
  | PutRules rules => mkHeld (hInbounds h) (hLinks h) rules (hQoS h) (hEgress h) (hNetwork h)
  | PutQoS body => mkHeld (hInbounds h) (hLinks h) (hRules h) body (hEgress h) (hNetwork h)
  | PutEgress config => mkHeld (hInbounds h) (hLinks h) (hRules h) (hQoS h) config (hNetwork h)
  | PutNetwork body => mkHeld (hInbounds h) (hLinks h) (hRules h) (hQoS h) (hEgress h) body
  | AddLinks ls => with_links h (foldl (λ m l, <[LkId l := l]> m) (hLinks h) ls)
  | RemoveLinks ids => with_links h (foldl (λ m id, delete id m) (hLinks h) ids)
  end.

Inductive answer := Done | Refused (status : Z) (message : string) | Lost (message : string).

(** [client]: the features of the kernel's last status answer. *)
Record Features := mkFeatures { userLimits : bool; blockRules : bool; reverseProxy : bool; qosFeature : bool; destinationStats : bool; blockCIDRs : bool }.

Definition noFeatures : Features := mkFeatures false false false false false false.

(** How the start of a process ends: it runs and is connected to, it was not
    started, or it was and is killed again, with the features known by then. *)
Inductive launchEnd := Up (f : Features) | NotStarted (message : string) | NotReady (f : Features) (message : string).

(** The kernel's process: [send] is one request, [launch] starts a new one with
    the listener it opens, [lost] is whether a request was not answered since, or
    no process runs; the rest reads what it reports. *)
Class Kernel (K : Type) := {
  held : K → Held;
  lost : K → bool;
  send : request → K → K * answer;
  launch : reverseListener → K → K * launchEnd;
  readTraffic : string → bool → K → K * result (list apiTraffic);
  readOnline : string → K → K * result (list apiOnline);
  readDestinations : string → K → K * result (list apiDestination);
  readBlocked : K → K * result Z;
  networkAnswer : K → kernelNetworkStatus;
  linkStats : K → result (gmap string LinkStat);
  forwardTraffic : string → K → result (Z * Z);
  forwardTargets : string → K → option (list targetBody)
}.

(** A request that was answered with success took effect, one that was refused
    did not, an inbound that is not there is 404, and the tags of inbounds are
    those of [wireTagPattern].  A process
    that is started runs nothing. *)
Class KernelLaws (K : Type) `{!Kernel K} := {
  send_done : ∀ r k, (send r k).2 = Done → held (send r k).1 = doneBy r (held k);
  send_refused : ∀ r k status m, (send r k).2 = Refused status m → held (send r k).1 = held k;
  send_absent : ∀ w k m, (send (RemoveInbound w) k).2 = Refused 404 m → hInbounds (held k) !! w = None;
  send_tag : ∀ i us k, (send (AddInbound i us) k).2 = Done → wireTagPattern (tagOf i) = true;
  send_users : ∀ w us k, (send (AddUsersOf w us) k).2 = Done → is_Some (hInbounds (held k) !! w);
  lost_kept : ∀ r k, lost (send r k).1 = false → lost k = false;
  lost_seen : ∀ r k m, (send r k).2 = Lost m → lost (send r k).1 = true;
  launched : ∀ l k f, (launch l k).2 = Up f → held (launch l k).1 = fresh ∧ lost (launch l k).1 = false;
  not_launched : ∀ l k, (∀ f, (launch l k).2 ≠ Up f) → lost (launch l k).1 = true
}.

(** ** State *)

(** [node] *)
Record node := mkNode { ninfo : NodeInfo; inbound : Inbound; users : gmap string apiUser; created : bool; ingress : string }.

(** [Core].  [client] is [None] before the core is started; [line]: it has a link
    management client; [process]: it started the kernel itself. *)
Record Core := mkCore {
  anxLine : bool;
  client : option Features;
  nodes : gmap string node;
  egress : option EgressConfig;
  qos : option string;
  rules : option rulesConfig;
  blockMainland : bool;
  network : option string;
  ingresses : gmap Z string;
  line : bool;
  links : gmap string Link;
  wantedLinks : gmap string Link;
  linkEgress : gmap string string;
  reverse : reverseListener;
  forwards : gmap string Inbound;
  wantedForwards : gmap string Inbound;
  unsupportedProxies : list string;
  process : bool
}.

(** [New] *)
Definition New (line : bool) : Core :=
  mkCore line None ∅ None None None false None ∅ false ∅ ∅ ∅ noReverse ∅ ∅ [] false.

Definition Type_ : string := "anixcore".
Definition Protocols : list string := ["shadowsocks"; "trojan"; "vless"; "vmess"; "hysteria2"; "tuic"; "iwan"; "anytls"; "anx"].

Definition set_nodes (c : Core) (m : gmap string node) : Core :=
  mkCore (anxLine c) (client c) m (egress c) (qos c) (rules c) (blockMainland c) (network c) (ingresses c) (line c) (links c)
    (wantedLinks c) (linkEgress c) (reverse c) (forwards c) (wantedForwards c) (unsupportedProxies c) (process c).
Definition set_egress (c : Core) (e : option EgressConfig) : Core :=
  mkCore (anxLine c) (client c) (nodes c) e (qos c) (rules c) (blockMainland c) (network c) (ingresses c) (line c) (links c)
    (wantedLinks c) (linkEgress c) (reverse c) (forwards c) (wantedForwards c) (unsupportedProxies c) (process c).
Definition set_qos (c : Core) (q : option string) : Core :=
  mkCore (anxLine c) (client c) (nodes c) (egress c) q (rules c) (blockMainland c) (network c) (ingresses c) (line c) (links c)
    (wantedLinks c) (linkEgress c) (reverse c) (forwards c) (wantedForwards c) (unsupportedProxies c) (process c).
Definition set_rules (c : Core) (r : option rulesConfig) : Core :=
  mkCore (anxLine c) (client c) (nodes c) (egress c) (qos c) r (blockMainland c) (network c) (ingresses c) (line c) (links c)
    (wantedLinks c) (linkEgress c) (reverse c) (forwards c) (wantedForwards c) (unsupportedProxies c) (process c).
Definition set_mainland (c : Core) (b : bool) : Core :=
  mkCore (anxLine c) (client c) (nodes c) (egress c) (qos c) (rules c) b (network c) (ingresses c) (line c) (links c)
    (wantedLinks c) (linkEgress c) (reverse c) (forwards c) (wantedForwards c) (unsupportedProxies c) (process c).
Definition set_network (c : Core) (n : option string) (i : gmap Z string) : Core :=
  mkCore (anxLine c) (client c) (nodes c) (egress c) (qos c) (rules c) (blockMainland c) n i (line c) (links c)
    (wantedLinks c) (linkEgress c) (reverse c) (forwards c) (wantedForwards c) (unsupportedProxies c) (process c).
Definition set_links (c : Core) (l : gmap string Link) : Core :=
  mkCore (anxLine c) (client c) (nodes c) (egress c) (qos c) (rules c) (blockMainland c) (network c) (ingresses c) (line c) l
    (wantedLinks c) (linkEgress c) (reverse c) (forwards c) (wantedForwards c) (unsupportedProxies c) (process c).
Definition set_wantedLinks (c : Core) (l : gmap string Link) (e : gmap string string) : Core :=
  mkCore (anxLine c) (client c) (nodes c) (egress c) (qos c) (rules c) (blockMainland c) (network c) (ingresses c) (line c) (links c)
    l e (reverse c) (forwards c) (wantedForwards c) (unsupportedProxies c) (process c).
Definition set_forwards (c : Core) (f : gmap string Inbound) : Core :=
  mkCore (anxLine c) (client c) (nodes c) (egress c) (qos c) (rules c) (blockMainland c) (network c) (ingresses c) (line c) (links c)
    (wantedLinks c) (linkEgress c) (reverse c) f (wantedForwards c) (unsupportedProxies c) (process c).
Definition set_wantedForwards (c : Core) (f : gmap string Inbound) : Core :=
  mkCore (anxLine c) (client c) (nodes c) (egress c) (qos c) (rules c) (blockMainland c) (network c) (ingresses c) (line c) (links c)
    (wantedLinks c) (linkEgress c) (reverse c) (forwards c) f (unsupportedProxies c) (process c).
Definition set_unsupported (c : Core) (l : list string) : Core :=
  mkCore (anxLine c) (client c) (nodes c) (egress c) (qos c) (rules c) (blockMainland c) (network c) (ingresses c) (line c) (links c)
    (wantedLinks c) (linkEgress c) (reverse c) (forwards c) (wantedForwards c) l (process c).
Definition set_client (c : Core) (f : Features) (own : bool) : Core :=
  mkCore (anxLine c) (Some f) (nodes c) (egress c) (qos c) (rules c) (blockMainland c) (network c) (ingresses c) (line c) (links c)
    (wantedLinks c) (linkEgress c) (reverse c) (forwards c) (wantedForwards c) (unsupportedProxies c) own.
(** A kernel that was started: its client, its link client, no links. *)
Definition set_started (c : Core) (f : Features) (own : bool) : Core :=
  mkCore (anxLine c) (Some f) (nodes c) (egress c) (qos c) (rules c) (blockMainland c) (network c) (ingresses c) (anxLine c)
    (if anxLine c then ∅ else links c) (wantedLinks c) (linkEgress c) (reverse c) (forwards c) (wantedForwards c) (unsupportedProxies c) own.
Definition set_reverse (c : Core) (r : reverseListener) : Core :=
  mkCore (anxLine c) (client c) (nodes c) (egress c) (qos c) (rules c) (blockMainland c) (network c) (ingresses c) (line c) (links c)
    (wantedLinks c) (linkEgress c) r (forwards c) (wantedForwards c) (unsupportedProxies c) false.

Definition set_node (c : Core) (tag : string) (n : node) : Core := set_nodes c (<[tag := n]> (nodes c)).
Definition with_users (n : node) (m : gmap string apiUser) : node := mkNode (ninfo n) (inbound n) m (created n) (ingress n).
Definition with_created (n : node) (b : bool) : node := mkNode (ninfo n) (inbound n) (users n) b (ingress n).
Definition with_ingress (n : node) (i : string) : node := mkNode (ninfo n) (inbound n) (users n) (created n) i.

Definition isShadowsocks (n : node) : bool := String.eqb (NodeController.NType (ninfo n)) "shadowsocks".

Definition errorOf (a : answer) : option string := match a with Done => None | Refused _ m | Lost m => Some m end.
Definition inNode (tag e : string) : string := "anixcore node " +:+ tag +:+ ": " +:+ e.

Definition isStatus (a : answer) (status : Z) : bool := match a with Refused s _ => s =? status | _ => false end.

Section Operations.
Context {K : Type} `{!Kernel K, !InboundCodec, !PlanSDK}.
(** [regexp.Compile], and the embedded list of address blocks. *)
Context (compiles : string → bool) (mainlandCIDRs : list string).

(** ** Inbounds *)

Definition ingressOf (c : Core) (n : node) : string :=
  match Common (NodeController.Body (ninfo n)) with Some port => default "" (ingresses c !! port) | None => "" end.

(** The inbound that is sent for a node. *)
Definition sentInbound (n : node) : Inbound :=
  if String.eqb (ingress n) "" then inbound n else <["ingress" := JString (ingress n)]> (inbound n).

Definition sentUsers (f : Features) (n : node) : list apiUser := forKernel (userLimits f) (map_to_list (users n)).*2.

(** [create]: the node as it is afterwards.  A core that is not started has no
    client to call. *)
Definition create (c : Core) (n : node) (k : K) : node * K * option string :=
  if isShadowsocks n && bool_decide (users n = ∅) then (n, k, None)
  else match client c with
       | None => (n, k, Some "anixcore: the core is not started")
       | Some f =>
           let '(k, a) := send (AddInbound (sentInbound n) (sentUsers f n)) k in
           match errorOf a with
           | Some e => (n, k, Some e)
           | None => (with_created n true, k, None)
           end
       end.

(** ** Block rules *)

Definition sniffed (name : string) : option string :=
  let name := to_lower (trim_space name) in
  if existsb (String.eqb name) ["bittorrent"; "bt"] then Some "bittorrent"
  else if existsb (String.eqb name) ["http"; "tls"] then Some name else None.

(** A list with an entry at its end unless it has it. *)
Definition addOnce (entry : string) (l : list string) : list string := if decide (entry ∈ l) then l else l ++ [entry].

Definition ruleDomains (domains : list string) (n : node) : list string :=
  foldl (λ l e, if String.eqb e "" || negb (compiles e) then l else addOnce ("regexp:" +:+ e) l) domains
    (NodeController.Regexp (NodeController.NRules (ninfo n))).
Definition ruleProtocols (protocols : list string) (n : node) : list string :=
  foldl (λ l name, match sniffed name with Some p => addOnce p l | None => l end) protocols
    (NodeController.RProtocol (NodeController.NRules (ninfo n))).

(** The nodes in the order of their tags. *)
Definition byTag (c : Core) : list node := snd <$> sort_by (λ a b, str_le a.1 b.1) (map_to_list (nodes c)).

Definition wantedRules (c : Core) : rulesConfig :=
  mkRulesConfig (foldl ruleDomains [] (byTag c)) (foldl ruleProtocols [] (byTag c))
    (if blockMainland c && from_option blockCIDRs false (client c) then mainlandCIDRs else []).

Definition syncRules (c : Core) (k : K) : Core * K * option string :=
  match client c with
  | None => (c, k, None)
  | Some f =>
      let want := wantedRules c in
      if decide (rules c = Some want) then (c, k, None)
      else if bool_decide (rules c = None) && emptyRules want then (set_rules c (Some want), k, None)
      else if negb (blockRules f) then (set_rules c (Some want), k, None)
      else
        let '(k, a) := send (PutRules want) k in
        match errorOf a with
        | Some e => (c, k, Some ("anixcore rules: " +:+ e))
        | None => (set_rules c (Some want), k, None)
        end
  end.

(** An error of [syncRules] is logged. *)
Definition tryRules (c : Core) (k : K) : Core * K := let '(c, k, _) := syncRules c k in (c, k).

(** ** Nodes *)

Definition AddNode (keyFile : result string) (tag : string) (info : NodeInfo) (o : InboundOptions) (c : Core) (k : K)
    : Core * K * option string :=
  match inboundConfig keyFile tag (Some info) o with
  | Err e => (c, k, Some (inNode tag e))
  | Ok i =>
      if decide (is_Some (nodes c !! tag)) then (c, k, Some ("anixcore node " +:+ tag +:+ " already exists"))
      else
        let n := mkNode info i ∅ false "" in
        let n := with_ingress n (ingressOf c n) in
        if isShadowsocks n then let '(c, k) := tryRules (set_node c tag n) k in (c, k, None)
        else match create c n k with
             | (_, k, Some e) => (c, k, Some (inNode tag e))
             | (n, k, None) => let '(c, k) := tryRules (set_node c tag n) k in (c, k, None)
             end
  end.

Definition DelNode (tag : string) (c : Core) (k : K) : Core * K * option string :=
  match nodes c !! tag with
  | None => (c, k, None)
  | Some n =>
      let '(c, k) := tryRules (set_nodes c (delete tag (nodes c))) k in
      if negb (created n) then (c, k, None)
      else let '(k, a) := send (RemoveInbound (wireTag tag)) k in
           (c, k, if isStatus a 404 then None else inNode tag <$> errorOf a)
  end.

(** ** Users *)

Fixpoint convertUsers (info : NodeInfo) (us : list UserInfo) : result (list apiUser) :=
  match us with
  | [] => Ok []
  | u :: us => let? l := apiUsersFor info u in let? m := convertUsers info us in Ok (l ++ m)
  end.

Definition AddUsers (tag : string) (us : list UserInfo) (c : Core) (k : K) : Core * K * result Z :=
  match nodes c !! tag with
  | None => (c, k, Err ("anixcore node " +:+ tag +:+ " does not exist"))
  | Some n =>
      match convertUsers (ninfo n) us with
      | Err e => (c, k, Err e)
      | Ok [] => (c, k, Ok 0)
      | Ok added =>
          let stored := with_users n (usersMap added (users n)) in
          if negb (created n) then
            match create c stored k with
            | (n', k, None) => (set_node c tag n', k, Ok (Z.of_nat (List.length added)))
            | (_, k, Some e) => (set_node c tag (with_users n (withoutNames (Name <$> added) (users stored))), k, Err (inNode tag e))
            end
          else
            let '(k, a) := send (AddUsersOf (wireTag tag) (forKernel (from_option userLimits false (client c)) added)) k in
            match errorOf a with
            | Some e => (c, k, Err (inNode tag e))
            | None => (set_node c tag stored, k, Ok (Z.of_nat (List.length added)))
            end
      end
  end.

(** The names of a user that are removed: the issued key's when there is one. *)
Definition removedNames (n : node) (u : UserInfo) : list string :=
  let name := userName u in
  name :: (if decide (is_Some (users n !! (name +:+ userKeySuffix))) then [name +:+ userKeySuffix] else []).

Definition DelUsers (us : list UserInfo) (tag : string) (c : Core) (k : K) : Core * K * option string :=
  match nodes c !! tag with
  | None => (c, k, None)
  | Some n =>
      let names := mjoin (removedNames n <$> us) in
      let n' := with_users n (withoutNames names (users n)) in
      if created n && bool_decide (names ≠ []) then
        let '(k, a) := send (RemoveUsersOf (wireTag tag) names) k in
        match errorOf a with
        | Some e => (c, k, Some (inNode tag e))
        | None => (set_node c tag n', k, None)
        end
      else (set_node c tag n', k, None)
  end.

(** ** Egress routes, priorities, exit policy *)

Definition putEgress (body : EgressConfig) (k : K) : K * option string :=
  let '(k, a) := send (PutEgress body) k in
  (k, if isStatus a 404 then Some "anixcore: this anixcore has no egress routes; update it" else (λ e, "anixcore egress: " +:+ e) <$> errorOf a).

(** The first route or relay of another protocol. *)
Definition otherProtocol (config : EgressConfig) : option string :=
  match List.find (λ r, negb (String.eqb (EgressProtocol (SProtocol (Server r))) EgressProtocolShadowsocks)) (ERoutes config) with
  | Some r => Some ("egress route " +:+ itoa (RouteID r) +:+ ": the anixcore core has no such relay protocol")
  | None =>
      match List.find (λ r, negb (String.eqb (EgressProtocol (RelayProtocol r)) EgressProtocolShadowsocks)) (ERelays config) with
      | Some r => Some ("egress relay " +:+ itoa (RelayID r) +:+ ": the anixcore core has no such relay protocol")
      | None => None
      end
  end.

Definition ApplyEgress (config : option EgressConfig) (c : Core) (k : K) : Core * K * option string :=
  match Validate config with
  | Err e => (c, k, Some e)
  | Ok _ =>
      match config ≫= otherProtocol with
      | Some e => (c, k, Some e)
      | None =>
          let body := default (mkEgressConfig [] []) config in
          match client c with
          | None => (c, k, Some "anixcore: the core is not started")
          | Some _ =>
              let c := set_egress c (if Empty body then None else Some body) in
              let '(k, e) := putEgress body k in (c, k, e)
          end
      end
  end.

Definition putQoS (f : Features) (body : string) (c : Core) (k : K) : Core * K * option string :=
  if negb (qosFeature f) then (set_qos c (Some body), k, None)
  else
    let '(k, a) := send (PutQoS body) k in
    match errorOf a with
    | Some e => (c, k, Some ("anixcore qos: " +:+ e))
    | None => (set_qos c (Some body), k, None)
    end.

Definition ApplyQoS (config : string) (c : Core) (k : K) : Core * K * option string :=
  match client c with
  | None => (c, k, Some "anixcore: the core is not started")
  | Some f =>
      let body := if String.eqb config "" then offQoS else config in
      if decide (qos c = Some body) then (c, k, None)
      else if bool_decide (qos c = None) && String.eqb body offQoS then (set_qos c (Some body), k, None)
      else putQoS f body c k
  end.

Definition ApplyExitPolicy (block : bool) (c : Core) (k : K) : Core * K * option string := syncRules (set_mainland c block) k.

(** ** Links *)

(** The entries of [have] that [want] does not have as they are. *)
Definition changed {A} `{!EqDecision A} (have want : gmap string A) : list string :=
  sort_by str_le (filter (λ key, want !! key ≠ have !! key) (map_to_list have).*1).

Definition syncLinks (wanted : gmap string Link) (c : Core) (k : K) : Core * K * option string :=
  if negb (line c) then
    (c, k, if decide (wanted = ∅) then None else Some "anixcore: dialing anx_line needs anx-node (AnixcoreConfig.AnxLine)")
  else
    let remove := changed (links c) wanted in
    let add := omap (λ id, wanted !! id) (changed wanted (links c)) in
    let '(c, k, e) :=
      if bool_decide (remove = []) then (c, k, None)
      else let '(k, a) := send (RemoveLinks remove) k in
           match errorOf a with
           | Some e => (c, k, Some ("anx-node remove links: " +:+ e))
           | None => (set_links c (foldl (λ m id, delete id m) (links c) remove), k, None)
           end in
    match e with
    | Some e => (c, k, Some e)
    | None =>
        if bool_decide (add = []) then (c, k, None)
        else let '(k, a) := send (AddLinks add) k in
             match errorOf a with
             | Some e => (c, k, Some ("anx-node add links: " +:+ e))
             | None => (set_links c (foldl (λ m l, <[LkId l := l]> m) (links c) add), k, None)
             end
    end.

(** The links whose egress is another one now. *)
Definition movedLinks (egresses : gmap string string) (c : Core) : list string :=
  let old id := default "" (linkEgress c !! id) in
  let new id := default "" (egresses !! id) in
  sort_by str_le (filter (λ id, old id ≠ "" ∧ new id ≠ "" ∧ old id ≠ new id) (map_to_list (links c)).*1).

Definition dropMovedLinks (egresses : gmap string string) (c : Core) (k : K) : Core * K * option string :=
  if negb (line c) then (c, k, None)
  else match movedLinks egresses c with
       | [] => (c, k, None)
       | moved =>
           let '(k, a) := send (RemoveLinks moved) k in
           match errorOf a with
           | Some e => (c, k, Some ("anx-node relink: " +:+ e))
           | None => (set_links c (foldl (λ m id, delete id m) (links c) moved), k, None)
           end
       end.

(** ** Forwards *)

Fixpoint removeForwards (tags : list string) (c : Core) (k : K) : Core * K * option string :=
  match tags with
  | [] => (c, k, None)
  | tag :: tags =>
      let '(k, a) := send (RemoveInbound (wireTag tag)) k in
      match errorOf a with
      | Some e => if isStatus a 404 then removeForwards tags (set_forwards c (delete tag (forwards c))) k
                  else (c, k, Some ("anixcore remove forward " +:+ tag +:+ ": " +:+ e))
      | None => removeForwards tags (set_forwards c (delete tag (forwards c))) k
      end
  end.

Fixpoint addForwards (wanted : gmap string Inbound) (tags : list string) (c : Core) (k : K) : Core * K * option string :=
  match tags with
  | [] => (c, k, None)
  | tag :: tags =>
      let i := default ∅ (wanted !! tag) in
      let '(k, a) := send (AddInbound i []) k in
      match errorOf a with
      | Some e => (c, k, Some ("anixcore add forward " +:+ tag +:+ ": " +:+ e))
      | None => addForwards wanted tags (set_forwards c (<[tag := i]> (forwards c))) k
      end
  end.

Definition syncForwards (wanted : gmap string Inbound) (c : Core) (k : K) : Core * K * option string :=
  let remove := changed (forwards c) wanted in
  let add := changed wanted (forwards c) in
  match removeForwards remove c k with
  | (c, k, Some e) => (c, k, Some e)
  | (c, k, None) => addForwards wanted add c k
  end.

(** ** Network plans *)

Definition putNetwork (body : string) (k : K) : K * result kernelNetworkStatus :=
  let '(k, a) := send (PutNetwork body) k in
  match errorOf a with
  | None => (k, Ok (networkAnswer k))
  | Some e => (k, Err (if isStatus a 404 then "anixcore: this anixcore has no network model; update it" else "anixcore network: " +:+ e))
  end.

Definition recreate (c : Core) (tag : string) (n : node) (k : K) : node * K * option string :=
  let '(k, a) := send (RemoveInbound (wireTag tag)) k in
  match errorOf a with
  | Some e => if isStatus a 404 then create c (with_created n false) k else (n, k, Some e)
  | None => create c (with_created n false) k
  end.

Definition joinError (a b : option string) : option string :=
  match a, b with Some a, Some b => Some (a +:+ String "010" b) | Some a, None => Some a | None, b => b end.

(** The loop over the nodes whose ingress changed. *)
Fixpoint joinIngresses (tags : list (string * node)) (failed : option string) (c : Core) (k : K) : Core * K * option string :=
  match tags with
  | [] => (c, k, failed)
  | (tag, n) :: tags =>
      let ingress' := ingressOf c n in
      if decide (ingress' = ingress n) then joinIngresses tags failed c k
      else
        let n := with_ingress n ingress' in
        if negb (created n) then joinIngresses tags failed (set_node c tag n) k
        else let '(n, k, e) := recreate c tag n k in
             joinIngresses tags (joinError failed (inNode tag <$> e)) (set_node c tag n) k
  end.

(** What [ApplyNetwork] answers: the components, forwards and proxies. *)
Record PlanStatus := mkPlanStatus { SComponents : list ComponentStatus; SForwards : list PortForwardStatus; SProxies : list PortForwardStatus }.

Definition sorted_keys {A} (m : gmap string A) : list string := sort_by str_le (map_to_list m).*1.

Definition planComponents (answer : kernelNetworkStatus) (c : Core) (k : K) : list ComponentStatus :=
  status answer ++ (if negb (line c) || bool_decide (links c = ∅) then [] else linkStatus (linkStats k) (sorted_keys (links c))).

(** [forwardStatus] and [reverseProxyStatus] of what is held. *)
Definition planForwards (c : Core) (k : K) : list PortForwardStatus * list PortForwardStatus :=
  let '(forwards, proxies) := splitForwardTags (sorted_keys (forwards c)) in
  (forwardStatus (λ t, forwardTraffic t k) (λ t, forwardTargets t k) forwards,
   reverseProxyStatus (λ t, forwardTraffic t k) (λ t, forwardTargets t k) proxies (unsupportedProxies c)).

Definition NetworkStatus (read : K → K * result kernelNetworkStatus) (c : Core) (k : K) : K * result PlanStatus :=
  match client c with
  | None => (k, Err "anixcore: the core is not started")
  | Some _ =>
      match read k with
      | (k, Err e) => (k, Err e)
      | (k, Ok answer) => let '(fs, ps) := planForwards c k in (k, Ok (mkPlanStatus (planComponents answer c k) fs ps))
      end
  end.

(** What a plan asks of the kernel. *)
Record Wanted := mkWanted { WBody : string; WLinks : gmap string Link; WForwards : gmap string Inbound; WProxies : gmap string Inbound }.

(** The locked part of [ApplyNetwork]. *)
Definition runNetwork (p : CorePlan) (w : Wanted) (c : Core) (k : K) : Core * K * result PlanStatus * option string :=
  match client c with
  | None => (c, k, Err "anixcore: the core is not started", Some "anixcore: the core is not started")
  | Some f =>
      let forwards := if reverseProxy f then WProxies w ∪ WForwards w else WForwards w in
      let c := set_unsupported c (if reverseProxy f then [] else (λ t, trim_prefix t reverseProxyTagPrefix) <$> (map_to_list (WProxies w)).*1) in
      let egresses := linkEgresses p in
      match dropMovedLinks egresses c k with
      | (c, k, Some e) => (c, k, Err e, Some e)
      | (c, k, None) =>
          match syncLinks (WLinks w) c k with
          | (c, k, Some e) => (c, k, Err e, Some e)
          | (c, k, None) =>
              let c := set_wantedLinks c (WLinks w) egresses in
              match putNetwork (WBody w) k with
              | (k, Err e) => (c, k, Err e, Some e)
              | (k, Ok answer) =>
                  let used := bool_decide (PlanIngresses p ≠ [] ∨ PlanEgresses p ≠ [] ∨ PlanPaths p ≠ []) in
                  let c := set_network c (if used then Some (WBody w) else None) (ingresses c) in
                  let components := planComponents answer c k in
                  let '(c, k, failed) := syncForwards forwards (set_wantedForwards c forwards) k in
                  let '(fs, ps) := planForwards c k in
                  let c := set_network c (network c) (userIngresses p) in
                  let '(c, k, failed) := joinIngresses (map_to_list (nodes c)) failed c k in
                  (c, k, Ok (mkPlanStatus components fs ps), failed)
              end
          end
      end
  end.

(** ** Restarts *)

(** The loop of [replay] over the nodes. *)
Fixpoint replayNodes (tags : list (string * node)) (failed : option string) (c : Core) (k : K) : Core * K * option string :=
  match tags with
  | [] => (c, k, failed)
  | (tag, n) :: tags =>
      let '(n, k, e) := create c (with_created n false) k in
      replayNodes tags (joinError failed ((λ e, tag +:+ ": " +:+ e) <$> e)) (set_node c tag n) k
  end.

Definition replay (c : Core) (k : K) : Core * K * option string :=
  let '(c, k, failed) := syncLinks (wantedLinks c) (set_links c ∅) k in
  let '(k, failed) := match network c with
                      | Some body => let '(k, r) := putNetwork body k in (k, joinError failed (match r with Ok _ => None | Err e => Some e end))
                      | None => (k, failed)
                      end in
  let '(c, k, e) := syncForwards (wantedForwards c) (set_forwards c ∅) k in
  let '(c, k, failed) := replayNodes (map_to_list (nodes c)) (joinError failed e) c k in
  let '(k, failed) := match egress c with
                      | Some body => let '(k, e) := putEgress body k in (k, joinError failed e)
                      | None => (k, failed)
                      end in
  let '(c, k, e) := syncRules (set_rules c None) k in
  let failed := joinError failed e in
  match qos c, client c with
  | Some body, Some f =>
      if String.eqb body offQoS then (c, k, failed)
      else let '(c, k, e) := putQoS f body c k in (c, k, joinError failed e)
  | _, _ => (c, k, failed)
  end.

(** [launch]: the core with the process it started, and the error. *)
Definition launchCore (c : Core) (k : K) : Core * K * option string :=
  match launch (reverse c) k with
  | (k, Up f) => (set_started c f true, k, None)
  | (k, NotReady f e) => (set_client c f true, k, Some e)
  | (k, NotStarted e) => (c, k, Some e)
  end.

(** One turn of the loop of [supervise]: the kernel is started again and given
    everything; [false] when it did not start and is tried again. *)
Definition restart (c : Core) (k : K) : Core * K * bool * option string :=
  match launchCore c k with
  | (c, k, Some e) => (c, k, false, Some e)
  | (c, k, None) => let '(c, k, e) := replay c k in (c, k, true, e)
  end.

(** [reopen]: an anx-node this core started gets another listener; what is
    restored with an error is logged. *)
Definition reopen (listen : reverseListener) (c : Core) (k : K) : Core * K * option string :=
  if negb (process c) || negb (anxLine c) || bool_decide (reverse c = listen) then (c, k, None)
  else match launchCore (set_reverse c listen) k with
       | (c, k, Some e) => (c, k, Some ("relaunch anx-node: " +:+ e))
       | (c, k, None) => let '(c, k, _) := replay c k in (c, k, None)
       end.

(** [ApplyNetwork]; the links are known before the forwards are checked. *)
Definition ApplyNetwork (plan : option CorePlan) (c : Core) (k : K) : Core * K * result PlanStatus * option string :=
  let p := default noPlan plan in
  match networkBody plan with
  | Err e => (c, k, Err e, Some e)
  | Ok body =>
      match dialLinks p with
      | Err e => (c, k, Err e, Some e)
      | Ok (links, listen) =>
          match reopen listen c k with
          | (c, k, Some e) => (c, k, Err e, Some e)
          | (c, k, None) =>
              match forwardInbounds p with
              | Err e => (c, k, Err e, Some e)
              | Ok forwards =>
                  match reverseProxyInbounds p with
                  | Err e => (c, k, Err e, Some e)
                  | Ok proxies => runNetwork p (mkWanted body links forwards proxies) c k
                  end
              end
          end
      end
  end.

(** [Start]: the core connects to a kernel that runs on its own, whose features
    or error are [status], or starts one.  The certificate of the link
    management client is not modelled. *)
Definition Start (apiAddress apiToken lineAddress : string) (status : result Features) (c : Core) (k : K) : Core * K * option string :=
  let empty s := String.eqb s "" in
  if negb (empty apiAddress) && negb (empty apiToken) then
    if anxLine c && empty lineAddress then (c, k, Some "anixcore: AnxLine with ApiAddress needs AnxLineApiAddress")
    else match status with
         | Ok f => (set_started c f false, k, None)
         | Err e => (set_started c noFeatures false, k, Some e)
         end
  else if negb (empty apiAddress) || negb (empty apiToken) then (c, k, Some "anixcore: ApiAddress and ApiToken go together")
  else launchCore c k.

(** ** Reading *)

(** [clientFor]: the features when the node's inbound is there. *)
Definition clientFor (tag : string) (c : Core) : option Features :=
  n ← nodes c !! tag; if created n then client c else None.

Definition GetUserTrafficSlice (tag : string) (reset : bool) (c : Core) (k : K) : K * result (list UserTraffic) :=
  match clientFor tag c with
  | None => (k, Ok [])
  | Some _ => match readTraffic (wireTag tag) reset k with
              | (k, Err e) => (k, Err (inNode tag e))
              | (k, Ok traffic) => (k, Ok (trafficSlice traffic))
              end
  end.

Definition GetOnlineDevice (tag : string) (c : Core) (k : K) : K * result (list (Z * string)) :=
  match clientFor tag c with
  | None => (k, Ok [])
  | Some _ => match readOnline (wireTag tag) k with
              | (k, Err e) => (k, Err (inNode tag e))
              | (k, Ok online) => (k, Ok (onlineUsers online))
              end
  end.

Definition GetDestinationTraffic (name : string → string) (tag : string) (c : Core) (k : K) : K * result (list Traffic) :=
  match clientFor tag c with
  | None => (k, Ok [])
  | Some f =>
      if negb (destinationStats f) then (k, Ok [])
      else match readDestinations (wireTag tag) k with
           | (k, Err e) => (k, Err (inNode tag e))
           | (k, Ok entries) => (k, Ok (foldDestinations name entries))
           end
  end.

Definition MainlandBlocked (c : Core) (k : K) : K * result Z :=
  match client c with
  | Some f => if blockMainland c && blockCIDRs f then readBlocked k else (k, Ok 0)
  | None => (k, Ok 0)
  end.

End Operations.
End AnixCore.
