(* ===== verification/AnixKernel.v ===== *)
(** * What the kernel runs of the core's record

    As long as the kernel answered every request since it was started, it runs
    what the core's record says: each node that was created with its users, the
    links and forwards of the plan, the rules and priorities; and after a call
    that succeeded nothing else.  A kernel that is started again is given
    exactly the record.  The tags of nodes are assumed to have different tags in
    the kernel ([Tags]), which the hash of [wireTag] makes true in practice. *)

From S2P Require Import Prelude GoStrings GoNet Json Limiter NetworkPlan AnxServer NodeController AnixInbound AnixUsers AnixPlan AnixCore.
From Stdlib Require Import Ascii String.

Module AnixKernel.
Import Limiter NetworkPlan AnxServer AnixInbound AnixPlan AnixCore.

(** Tags of port forwards and reverse proxies. *)
Definition forwardTag (w : string) : bool := has_prefix w forwardTagPrefix || has_prefix w reverseProxyTagPrefix.

(** The tags of nodes that are in use. *)
Class Tags `{!InboundCodec} (known : string → Prop) := {
  tags_differ : ∀ t t', known t → known t' → wireTag t = wireTag t' → t = t';
  tags_not_forwards : ∀ t, known t → forwardTag (wireTag t) = false
}.

Section Follows.
Context {K : Type} `{!Kernel K, !KernelLaws K, !InboundCodec, !PlanSDK}.
Context (compiles : string → bool) (mainlandCIDRs : list string).
Context (known : string → Prop) `{!Tags known}.
(** Whether the ingresses of inbounds and the priorities are compared too: a
    plan or a restart with an error may leave them behind the record. *)
Context (strict : bool).

(** ** Inbounds *)

(** A user as a kernel without user limits takes it. *)
Definition limited (f : Features) (u : apiUser) : apiUser :=
  if userLimits f then u else mkApiUser (Name u) (Password u) (UUID u) (UFlow u) (Address u) 0 0.

(** What the kernel is given of a node. *)
Definition given (f : Features) (n : node) : Inbound * gmap string apiUser := (sentInbound n, limited f <$> users n).

(** What the kernel has under the tag of a node is that. *)
Definition inPlace (f : Features) (n : node) (x : option (Inbound * gmap string apiUser)) : Prop :=
  match x with
  | Some (i, us) => us = limited f <$> users n ∧ if strict then i = sentInbound n else delete "ingress" i = delete "ingress" (inbound n)
  | None => False
  end.

Definition keyedByName (m : gmap string apiUser) : Prop := map_Forall (λ name u, Name u = name) m.

(** A node under its tag. *)
Record named (tag : string) (n : node) : Prop := {
  named_known : known tag;
  named_tag : inbound n !! "tag" = Some (JString (wireTag tag));
  named_users : keyedByName (users n)
}.

Lemma limited_name f u : Name (limited f u) = Name u.
Proof. unfold limited. by destruct (userLimits f). Qed.

Lemma forKernel_limited f us : forKernel (userLimits f) us = limited f <$> us.
Proof. unfold forKernel, limited. destruct (userLimits f); [|done]. symmetry. apply list_fmap_id. Qed.

Lemma usersMap_limited f us : ∀ m, usersMap (limited f <$> us) (limited f <$> m) = limited f <$> usersMap us m.
Proof.
  unfold usersMap. induction us as [|u us IH]; intros m; simpl; [done|]. rewrite limited_name, <- fmap_insert. apply IH.
Qed.

Lemma withoutNames_limited f ns : ∀ m, withoutNames ns (limited f <$> m) = limited f <$> withoutNames ns m.
Proof. unfold withoutNames. induction ns as [|x ns IH]; intros m; simpl; [done|]. rewrite <- fmap_delete. apply IH. Qed.

Lemma usersMap_lookup us : ∀ m name, (∀ u v, u ∈ us → v ∈ us → Name u = Name v → u = v) →
  usersMap us m !! name = match List.find (λ u, String.eqb (Name u) name) us with Some u => Some u | None => m !! name end.
Proof.
  clear compiles.
  unfold usersMap. induction us as [|u us IH]; intros m name Hu; simpl; [done|]. rewrite IH by set_solver.
  destruct (String.eqb_spec (Name u) name) as [<-|Hne].
  - destruct (List.find _ us) as [v|] eqn:Ef; [|by rewrite lookup_insert_eq].
    apply List.find_some in Ef as [Hv Hn%String.eqb_eq]. f_equal. symmetry. apply Hu; [set_solver| |done].
    apply elem_of_cons. right. by apply list_elem_of_In.
  - destruct (List.find _ us); [done|]. by rewrite lookup_insert_ne.
Qed.

Lemma usersMap_values m : keyedByName m → usersMap (map_to_list m).*2 ∅ = m.
Proof.
  intros Hk. assert (∀ u, u ∈ (map_to_list m).*2 ↔ m !! Name u = Some u) as Hin.
  { intros u. rewrite list_elem_of_fmap. split.
    - intros ([name v] & -> & Hv%elem_of_map_to_list). simpl. by rewrite (Hk name v Hv).
    - intros Hu. exists (Name u, u). split; [done|]. by apply elem_of_map_to_list. }
  apply map_eq. intros name. rewrite usersMap_lookup.
  - destruct (List.find _ _) as [u|] eqn:Ef.
    + apply List.find_some in Ef as [Hu Hn%String.eqb_eq]. apply list_elem_of_In, Hin in Hu. by rewrite <- Hn.
    + rewrite lookup_empty. destruct (m !! name) as [u|] eqn:Em; [|done]. exfalso.
      pose proof (Hk name u Em) as Hn. simpl in Hn. assert (u ∈ (map_to_list m).*2) as Hu by (apply Hin; by rewrite Hn).
      apply list_elem_of_In in Hu. pose proof (List.find_none _ _ Ef u Hu) as Hf. simpl in Hf. by rewrite Hn, String.eqb_refl in Hf.
  - intros u v Hu%Hin Hv%Hin E. rewrite E in Hu. congruence.
Qed.

Lemma usersMap_keyed us : ∀ m, keyedByName m → keyedByName (usersMap us m).
Proof.
  unfold usersMap. induction us as [|u us IH]; intros m Hm; simpl; [done|]. apply IH. by apply map_Forall_insert_2.
Qed.

Lemma withoutNames_keyed ns : ∀ m, keyedByName m → keyedByName (withoutNames ns m).
Proof.
  unfold withoutNames. induction ns as [|x ns IH]; intros m Hm; simpl; [done|]. apply IH. by apply map_Forall_delete.
Qed.

Lemma sentUsers_given f n : keyedByName (users n) → usersMap (sentUsers f n) ∅ = limited f <$> users n.
Proof.
  intros Hk. unfold sentUsers. rewrite forKernel_limited, <- (fmap_empty (limited f)), usersMap_limited. by rewrite usersMap_values.
Qed.

Lemma sentInbound_tag tag n : inbound n !! "tag" = Some (JString (wireTag tag)) → tagOf (sentInbound n) = wireTag tag.
Proof.
  intros Ht. unfold tagOf, sentInbound. destruct (String.eqb (ingress n) ""); [by rewrite Ht|]. by rewrite lookup_insert_ne, Ht.
Qed.

Lemma inPlace_given f n : inPlace f n (Some (given f n)).
Proof.
  split; [done|]. destruct strict; [done|]. unfold sentInbound. destruct (String.eqb (ingress n) ""); [done|]. apply delete_insert_eq.
Qed.

(** ** The record and the inbounds of the kernel *)

Abbreviation Inbounds := (gmap string (Inbound * gmap string apiUser)).

Definition forwardOf (tag : string) (i : Inbound) : Prop := forwardTag tag = true ∧ tagOf i = tag.

Record Runs (f : Features) (ns : gmap string node) (fs : gmap string Inbound) (m : Inbounds) : Prop := {
  runs_nodes : ∀ tag n, ns !! tag = Some n → named tag n ∧ (created n = true → inPlace f n (m !! wireTag tag));
  runs_forwards : ∀ tag i, fs !! tag = Some i → forwardOf tag i ∧ wireTagPattern tag = true ∧ m !! tag = Some (i, ∅)
}.

(** Nothing else runs. *)
Definition Only (ns : gmap string node) (fs : gmap string Inbound) (m : Inbounds) : Prop :=
  ∀ w, is_Some (m !! w) → (∃ tag n, ns !! tag = Some n ∧ created n = true ∧ wireTag tag = w) ∨ is_Some (fs !! w).

(** One node of the record and its inbound changed. *)
Lemma runs_node f ns fs m m' tag n : Runs f ns fs m → named tag n → (∀ w, w ≠ wireTag tag → m' !! w = m !! w) →
  (created n = true → inPlace f n (m' !! wireTag tag)) → Runs f (<[tag := n]> ns) fs m'.
Proof.
  intros [Hn Hf] Hnamed Ho Hc. split.
  - intros t x. destruct (decide (t = tag)) as [->|Hne]; [rewrite lookup_insert_eq; by intros [= <-]|].
    rewrite lookup_insert_ne by done. intros Hx. destruct (Hn t x Hx) as [Hnx Hcx]. split; [done|]. intros Hcr.
    rewrite Ho; [by apply Hcx|]. intros E. apply Hne. apply tags_differ; [apply Hnx|apply Hnamed|done].
  - intros t i Ht. destruct (Hf t i Ht) as ([Hfo Hto] & Hp & Hm). split_and!; [done..|]. rewrite Ho; [done|]. intros ->.
    rewrite tags_not_forwards in Hfo; [done|]. apply Hnamed.
Qed.

Lemma runs_delete f ns fs m m' tag n : Runs f ns fs m → ns !! tag = Some n → (∀ w, w ≠ wireTag tag → m' !! w = m !! w) →
  Runs f (delete tag ns) fs m'.
Proof.
  intros [Hn Hf] Hnamed%Hn Ho. destruct Hnamed as [Hnamed _]. split.
  - intros t x [Hne Hx]%lookup_delete_Some. destruct (Hn t x Hx) as [Hnx Hcx]. split; [done|]. intros Hcr.
    rewrite Ho; [by apply Hcx|]. intros E. apply Hne. symmetry. apply tags_differ; [apply Hnx|apply Hnamed|done].
  - intros t i Ht. destruct (Hf t i Ht) as ([Hfo Hto] & Hp & Hm). split_and!; [done..|]. rewrite Ho; [done|]. intros ->.
    rewrite tags_not_forwards in Hfo; [done|]. apply Hnamed.
Qed.

Lemma only_node ns fs m m' tag n : Only ns fs m → (∀ w, w ≠ wireTag tag → m' !! w = m !! w) →
  (is_Some (m' !! wireTag tag) → created n = true) → Only (<[tag := n]> ns) fs m'.
Proof.
  intros Hon Ho Hc w Hw. destruct (decide (w = wireTag tag)) as [->|Hne].
  - left. exists tag, n. rewrite lookup_insert_eq. auto.
  - rewrite Ho in Hw by done. destruct (Hon w Hw) as [(t & x & Hx & Hcx & <-)|Hf]; [left|by right].
    exists t, x. rewrite lookup_insert_ne by congruence. done.
Qed.

Lemma only_delete ns fs m m' tag : Only ns fs m → (∀ w, w ≠ wireTag tag → m' !! w = m !! w) → m' !! wireTag tag = None →
  Only (delete tag ns) fs m'.
Proof.
  intros Hon Ho Hc w Hw. destruct (decide (w = wireTag tag)) as [->|Hne]; [rewrite Hc in Hw; by destruct Hw|].
  rewrite Ho in Hw by done. destruct (Hon w Hw) as [(t & x & Hx & Hcx & <-)|Hf]; [left|by right].
  exists t, x. rewrite lookup_delete_ne by congruence. done.
Qed.

(** One forward. *)
Lemma runs_add_forward f ns fs m tag i : Runs f ns fs m → forwardOf tag i → wireTagPattern tag = true →
  Runs f ns (<[tag := i]> fs) (<[tag := (i, ∅)]> m).
Proof.
  intros [Hn Hf] Hfo Hp. split.
  - intros t n Ht. destruct (Hn t n Ht) as [Hnx Hcx]. split; [done|]. intros Hcr. rewrite lookup_insert_ne; [by apply Hcx|].
    intros ->. destruct Hfo as [Hfo _]. rewrite tags_not_forwards in Hfo; [done|]. apply Hnx.
  - intros t j [[<- <-]|[Hne Hj]]%lookup_insert_Some; [by rewrite lookup_insert_eq|]. rewrite lookup_insert_ne by done. by apply Hf.
Qed.

Lemma runs_remove_forward f ns fs m m' tag : Runs f ns fs m → forwardTag tag = true → (∀ w, w ≠ tag → m' !! w = m !! w) →
  Runs f ns (delete tag fs) m'.
Proof.
  intros [Hn Hf] Hfo Ho. split.
  - intros t n Ht. destruct (Hn t n Ht) as [Hnx Hcx]. split; [done|]. intros Hcr. rewrite Ho; [by apply Hcx|].
    intros <-. rewrite tags_not_forwards in Hfo; [done|]. apply Hnx.
  - intros t j [Hne Hj]%lookup_delete_Some. rewrite Ho by done. by apply Hf.
Qed.

Lemma only_add_forward ns fs m tag i : Only ns fs m → Only ns (<[tag := i]> fs) (<[tag := (i, ∅)]> m).
Proof.
  intros Hon w Hw. destruct (decide (w = tag)) as [->|Hne]; [right; by rewrite lookup_insert_eq|].
  rewrite lookup_insert_ne in Hw by done. rewrite lookup_insert_ne by done. by apply Hon.
Qed.

Lemma only_remove_forward ns fs m m' tag : Only ns fs m → (∀ w, w ≠ tag → m' !! w = m !! w) → m' !! tag = None →
  Only ns (delete tag fs) m'.
Proof.
  intros Hon Ho Hno w Hw. destruct (decide (w = tag)) as [->|Hne]; [rewrite Hno in Hw; by destruct Hw|].
  rewrite Ho in Hw by done. rewrite lookup_delete_ne by done. by apply Hon.
Qed.

(** ** Requests *)

Lemma send_spec r k k' a : send r k = (k', a) → lost k' = false →
  lost k = false ∧ (errorOf a = None → held k' = doneBy r (held k)) ∧ (∀ e, errorOf a = Some e → held k' = held k) ∧
  (a = Done ∨ ∃ status m, a = Refused status m).
Proof.
  intros E Hl. pose proof (lost_kept r k) as Hk. pose proof (send_done r k) as Hd. pose proof (send_refused r k) as Hr.
  pose proof (lost_seen r k) as Hs. rewrite E in *. simpl in *. split_and!; [by apply Hk| | |].
  - destruct a; [by intros _; apply Hd|done..].
  - intros e. destruct a as [|st m|m]; [done| |]; intros [= ->]; [by eapply Hr|]. by rewrite (Hs e eq_refl) in Hl.
  - destruct a as [|st m|m]; [by left|right; by eexists _, _|]. by rewrite (Hs m eq_refl) in Hl.
Qed.

(** ** The invariant *)

(** What holds of the record by itself. *)
Record Wf (c : Core) : Prop := {
  wf_nodes : map_Forall named (nodes c);
  wf_forwards : map_Forall forwardOf (forwards c);
  wf_wanted : map_Forall forwardOf (wantedForwards c);
  wf_links : map_Forall (λ id l, LkId l = id) (links c);
  wf_wantedLinks : map_Forall (λ id l, LkId l = id) (wantedLinks c)
}.

(** The kernel runs the record. *)
Record Follows (f : Features) (c : Core) (h : Held) : Prop := {
  follows_runs : Runs f (nodes c) (forwards c) (hInbounds h);
  follows_links : line c = true → hLinks h = links c;
  follows_rules : blockRules f = true → hRules h = default noRules (rules c);
  follows_qos : strict = true → qosFeature f = true → hQoS h = default offQoS (qos c)
}.

(** And no other inbound. *)
Definition Exact (c : Core) (h : Held) : Prop := Only (nodes c) (forwards c) (hInbounds h).

Definition Inv (c : Core) (k : K) : Prop := Wf c ∧ (lost k = false → ∃ f, client c = Some f ∧ Follows f c (held k)).

(** An operation that keeps the client and the invariant; [exact] is when no
    inbound is left over. *)
Record Keeps (c : Core) (k : K) (c' : Core) (k' : K) (exact : Prop) : Prop := {
  keeps_client : client c' = client c;
  keeps_lost : lost k' = false → lost k = false;
  keeps_wf : Wf c → Wf c';
  keeps_follows : ∀ f, client c = Some f → lost k' = false → Wf c → Follows f c (held k) → Follows f c' (held k');
  keeps_exact : ∀ f, client c = Some f → lost k' = false → Wf c → Follows f c (held k) → exact → Exact c (held k) → Exact c' (held k')
}.

Lemma keeps_inv c k c' k' P : Keeps c k c' k' P → Inv c k → Inv c' k'.
Proof.
  intros Hk [Hw Hf]. split; [by apply Hk|]. intros Hl. destruct (Hf (keeps_lost _ _ _ _ _ Hk Hl)) as (f & Hc & Hfo).
  exists f. split; [by rewrite (keeps_client _ _ _ _ _ Hk)|]. by eapply keeps_follows.
Qed.

Lemma keeps_refl c k P : Keeps c k c k P.
Proof. by split. Qed.

Lemma held_trans c1 k1 c2 k2 c3 k3 (P Q R : Prop) : Keeps c1 k1 c2 k2 P → Keeps c2 k2 c3 k3 Q → (R → P ∧ Q) → Keeps c1 k1 c3 k3 R.
Proof.
  intros [Hc Hl Hw Hf He] [Hc' Hl' Hw' Hf' He'] HR. split; [congruence|auto..|].
  - intros f Hcl Hlo Hwf Hfo. apply Hf'; [congruence|done|auto..].
  - intros f Hcl Hlo Hwf Hfo [HP HQ]%HR Hex. apply (He' f); [congruence|done|auto..|done|]. by apply (He f); auto.
Qed.

(** What the record is compared with. *)
Definition same (h h' : Held) : Prop :=
  hInbounds h' = hInbounds h ∧ hLinks h' = hLinks h ∧ hRules h' = hRules h ∧ hQoS h' = hQoS h.

(** A request that was refused, or a part of the record the kernel is not
    compared with. *)
Lemma keeps_record c k c' k' P : client c' = client c → (lost k' = false → lost k = false ∧ same (held k) (held k')) →
  nodes c' = nodes c → forwards c' = forwards c → links c' = links c → line c' = line c → rules c' = rules c → qos c' = qos c →
  map_Forall forwardOf (wantedForwards c') ∨ wantedForwards c' = wantedForwards c →
  map_Forall (λ id l, LkId l = id) (wantedLinks c') ∨ wantedLinks c' = wantedLinks c → Keeps c k c' k' P.
Proof.
  intros Hc Hh Hn Hf Hl Hln Hr Hq Hwf Hwl. split; [done|by intros []%Hh|..].
  - intros [H1 H2 H3 H4 H5]. split; [by rewrite Hn|by rewrite Hf|by destruct Hwf as [| ->]|by rewrite Hl|by destruct Hwl as [| ->]].
  - intros f _ (_ & E1 & E2 & E3 & E4)%Hh _ [H1 H2 H3 H4].
    split; [by rewrite Hn, Hf, E1|by rewrite Hln, Hl, E2|by rewrite Hr, E3|by rewrite Hq, E4].
  - intros f _ (_ & E & _)%Hh _ _ _. unfold Exact. by rewrite E, Hn, Hf.
Qed.

(** A change of the inbounds. *)
Lemma follows_inbounds f c c' h m' : Follows f c h → Runs f (nodes c') (forwards c') m' →
  line c' = line c → links c' = links c → rules c' = rules c → qos c' = qos c → Follows f c' (with_inbounds h m').
Proof.
  intros [H1 H2 H3 H4] Hr E1 E2 E3 E4. split; simpl; [done|by rewrite E1, E2|by rewrite E3|by rewrite E4].
Qed.

Lemma with_inbounds_same h : with_inbounds h (hInbounds h) = h.
Proof. by destruct h. Qed.

(** *** Rules *)

Lemma send_refused_same r k k' a x : send r k = (k', a) → errorOf a = Some x → lost k' = false → lost k = false ∧ same (held k) (held k').
Proof. intros Es Ea Hl. destruct (send_spec _ _ _ _ Es Hl) as (H1 & _ & H3 & _). by rewrite (H3 x Ea). Qed.

(** A record whose rules changed as the kernel's did. *)
Lemma keeps_rules c k k' r P : (lost k' = false → lost k = false) →
  (∀ f, client c = Some f → lost k' = false → Follows f c (held k) → hInbounds (held k') = hInbounds (held k) ∧ hLinks (held k') = hLinks (held k) ∧
     hQoS (held k') = hQoS (held k) ∧ (blockRules f = true → hRules (held k') = r)) →
  Keeps c k (set_rules c (Some r)) k' P.
Proof.
  intros Hl Hh. split; [done|done|by intros []|..].
  - intros f Hc Hlo _ Hf. destruct (Hh f Hc Hlo Hf) as (E1 & E2 & E3 & E4). destruct Hf as [H1 H2 H3 H4].
    split; simpl; [by rewrite E1|by rewrite E2|done|by rewrite E3].
  - intros f Hc Hlo _ Hf _. unfold Exact. simpl. by destruct (Hh f Hc Hlo Hf) as (-> & _).
Qed.

(** The rules of the record alone change. *)
Definition rulesOnly (c : Core) (k : K) (c' : Core) (k' : K) : Prop :=
  nodes c' = nodes c ∧ forwards c' = forwards c ∧ client c' = client c ∧ (lost k' = false → hInbounds (held k') = hInbounds (held k)).

Lemma syncRules_keeps c k c' k' e P : syncRules compiles mainlandCIDRs c k = (c', k', e) → Keeps c k c' k' P ∧ rulesOnly c k c' k'.
Proof.
  unfold syncRules, rulesOnly. destruct (client c) as [f|] eqn:Hc; [|intros [= <- <- <-]; split; [apply keeps_refl|done]].
  case_decide as Hsame; [intros [= <- <- <-]; split; [apply keeps_refl|done]|].
  set (want := wantedRules compiles mainlandCIDRs c).
  destruct (bool_decide (rules c = None) && emptyRules want) eqn:Hfirst.
  { intros [= <- <- <-]. split; [|done]. apply keeps_rules; [done|]. intros f' _ _ [_ _ Hr _]. split_and!; [done..|]. intros Hb.
    apply andb_true_iff in Hfirst as [Hn%bool_decide_eq_true He%bool_decide_eq_true]. by rewrite Hr, Hn, He. }
  destruct (blockRules f) eqn:Hb; simpl.
  2: { intros [= <- <- <-]. split; [|done]. apply keeps_rules; [done|]. intros f' Hf'. rewrite Hc in Hf'. injection Hf' as <-.
       intros _ _. split_and!; [done..|]. by rewrite Hb. }
  destruct (send (PutRules want) k) as [k1 a] eqn:Es. destruct (errorOf a) as [x|] eqn:Ea; intros [= <- <- <-].
  - split; [|split_and!; [done..|intros Hl; by apply (send_refused_same _ _ _ _ _ Es Ea)]].
    apply keeps_record; try done; [|by right..]. by apply (send_refused_same _ _ _ _ _ Es Ea).
  - assert (lost k1 = false → held k1 = doneBy (PutRules want) (held k)) as Hd by (intros Hl; by apply (send_spec _ _ _ _ Es)).
    split; [|split_and!; [done..|intros Hl; by rewrite (Hd Hl)]].
    apply keeps_rules; [intros Hl; by apply (send_spec _ _ _ _ Es)|]. intros f' _ Hl _. by rewrite (Hd Hl).
Qed.

Lemma tryRules_keeps c k c' k' P : tryRules compiles mainlandCIDRs c k = (c', k') → Keeps c k c' k' P ∧ rulesOnly c k c' k'.
Proof.
  unfold tryRules. destruct (syncRules _ _ c k) as [[c1 k1] e] eqn:E. intros [= <- <-]. by eapply syncRules_keeps.
Qed.

(** *** Creating an inbound *)

(** A Shadowsocks node that has no users yet. *)
Definition waits (n : node) : Prop := isShadowsocks n = true ∧ users n = ∅.

Lemma create_spec c tag n k n' k' e f : client c = Some f → named tag n → created n = false → create c n k = (n', k', e) → lost k' = false →
  lost k = false ∧ ∃ m', held k' = with_inbounds (held k) m' ∧ (∀ w, w ≠ wireTag tag → m' !! w = hInbounds (held k) !! w) ∧
  match e with
  | None => (waits n ∧ n' = n ∧ held k' = held k) ∨ (¬ waits n ∧ n' = with_created n true ∧ m' !! wireTag tag = Some (given f n))
  | Some _ => n' = n ∧ held k' = held k
  end.
Proof.
  intros Hc [Hkn Htag Hus] Hcr. unfold create. rewrite Hc. destruct (isShadowsocks n && _) eqn:Hw.
  - apply andb_true_iff in Hw as [Hss Hno%bool_decide_eq_true]. intros [= <- <- <-] Hl. split; [done|].
    exists (hInbounds (held k)). rewrite with_inbounds_same. split_and!; [done..|]. by left.
  - assert (¬ waits n) as Hnw by (intros [H1 H2]; rewrite H1, bool_decide_true in Hw by exact H2; discriminate Hw).
    destruct (send _ k) as [k1 a] eqn:Es. destruct (errorOf a) as [x|] eqn:Ea; intros [= <- <- <-] Hl;
      destruct (send_spec _ _ _ _ Es Hl) as (Hl' & Hd & Hr & _); (split; [done|]).
    + exists (hInbounds (held k)). rewrite (Hr x Ea), with_inbounds_same. by split_and!.
    + rewrite (Hd Ea). simpl. rewrite (sentInbound_tag tag) by done. eexists. split_and!; [done|by intros w Hne; rewrite lookup_insert_ne|].
      right. split_and!; [done..|]. by rewrite lookup_insert_eq, sentUsers_given.
Qed.

(** *** Nodes *)

(** Nothing runs under the tag of a node that was not created. *)
Lemma exact_absent f c h tag : Follows f c h → Exact c h → known tag → (∀ n, nodes c !! tag = Some n → created n = false) →
  hInbounds h !! wireTag tag = None.
Proof.
  intros [[Hn Hf] _ _ _] Hex Hkn Hno. destruct (hInbounds h !! wireTag tag) as [x|] eqn:E; [exfalso|done].
  destruct (Hex (wireTag tag)) as [(t & n & Hx & Hc & Hw)|[i Hi]]; [by eexists|..].
  - destruct (Hn t n Hx) as [Hnx _]. assert (t = tag) as -> by (apply tags_differ; [apply Hnx|done|done]). by rewrite (Hno n Hx) in Hc.
  - destruct (Hf _ _ Hi) as ([Hfo _] & _). by rewrite tags_not_forwards in Hfo.
Qed.

(** A node of the record and its inbound changed. *)
Lemma keeps_node c k k' tag n (P : Prop) : (lost k' = false → lost k = false) → (Wf c → named tag n) →
  (∀ f, client c = Some f → lost k' = false → Wf c → Follows f c (held k) →
     ∃ m', held k' = with_inbounds (held k) m' ∧ (∀ w, w ≠ wireTag tag → m' !! w = hInbounds (held k) !! w) ∧
     (created n = true → inPlace f n (m' !! wireTag tag)) ∧
     (P → Exact c (held k) → is_Some (m' !! wireTag tag) → created n = true)) →
  Keeps c k (set_node c tag n) k' P.
Proof.
  intros Hl Hn Hh. split; [done|done|..].
  - intros Hw. destruct Hw as [H1 H2 H3 H4 H5] eqn:E. split; simpl; try done. apply map_Forall_insert_2; [by apply Hn|done].
  - intros f Hc Hlo Hw Hf. destruct (Hh f Hc Hlo Hw Hf) as (m' & -> & Ho & Hcr & _).
    apply (follows_inbounds f c); try done. apply (runs_node f _ _ (hInbounds (held k))); auto. apply Hf.
  - intros f Hc Hlo Hw Hf HP Hex. destruct (Hh f Hc Hlo Hw Hf) as (m' & -> & Ho & _ & Hon).
    unfold Exact. simpl. apply (only_node _ _ (hInbounds (held k))); [apply Hex|done|auto].
Qed.

(** What [create] answers, whatever the kernel does. *)
Lemma create_shape c n k n' k' e : create c n k = (n', k', e) →
  (lost k' = false → lost k = false) ∧ match e with None => n' = n ∨ n' = with_created n true | Some _ => n' = n end.
Proof.
  unfold create. destruct (_ && _); [intros [= <- <- <-]; by split; [|left]|]. destruct (client c); [|by intros [= <- <- <-]].
  destruct (send _ k) as [k1 a] eqn:Es. pose proof (λ Hl, proj1 (send_spec _ _ _ _ Es Hl)) as Hl.
  destruct (errorOf a); intros [= <- <- <-]; by split; [|try right].
Qed.

Lemma named_created tag n b : named tag n → named tag (with_created n b).
Proof. by intros [H1 H2 H3]; split. Qed.

(** A node that was not there is created, or stays as [nf] in the record. *)
Lemma create_keeps c k tag n n' k' e nf : (Wf c → named tag n) → created n = false → (∀ x, nodes c !! tag = Some x → created x = false) →
  create c n k = (n', k', e) → (Wf c → named tag nf) → match e with None => nf = n' | Some _ => created nf = false end →
  Keeps c k (set_node c tag nf) k' True.
Proof.
  intros Hn Hcr Hold Ec Hnf Hres. destruct (create_shape _ _ _ _ _ _ Ec) as [Hl Hsh]. apply keeps_node; [done..|].
  intros f Hc Hlo Hw Hf. destruct (create_spec c tag n k n' k' e f Hc (Hn Hw) Hcr Ec Hlo) as (_ & m' & Hh & Ho & Hcase).
  assert (created nf = false → held k' = held k → ∃ m', held k' = with_inbounds (held k) m' ∧
    (∀ w, w ≠ wireTag tag → m' !! w = hInbounds (held k) !! w) ∧ (created nf = true → inPlace f nf (m' !! wireTag tag)) ∧
    (True → Exact c (held k) → is_Some (m' !! wireTag tag) → created nf = true)) as Hsame.
  { intros Hno E. exists (hInbounds (held k)). rewrite E, with_inbounds_same, Hno. split_and!; [done..|]. intros _ Hex Hs.
    rewrite (exact_absent f c (held k) tag) in Hs; [by destruct Hs|done|done|apply (Hnf Hw)|done]. }
  destruct e as [x|]; [destruct Hcase as [_ E]; by apply Hsame|]. subst nf.
  destruct Hcase as [(_ & -> & E)|(_ & -> & Hm)]; [by apply Hsame|]. exists m'. split_and!; [done..| |done].
  intros _. rewrite Hm. apply (inPlace_given f n).
Qed.

Lemma addTLS_other i info o required i' key : key ≠ "tls" → addTLS i info o required = Ok i' → i' !! key = i !! key.
Proof.
  intros Hk. unfold addTLS. intros Hx.
  repeat match type of Hx with
  | (if ?b then _ else _) = _ => destruct b
  | match ?r with Some _ => _ | None => _ end = _ => destruct r
  | Ok _ = Ok _ => injection Hx as <-
  end; try done; by rewrite lookup_insert_ne.
Qed.

(** The key tag is what the inbound starts with. *)
Ltac keep_tag :=
  repeat match goal with
  | H : (let? _ := ?r in _) = Ok _ |- _ => destruct r eqn:?; [simpl in H|done]
  | H : Ok _ = Ok _ |- _ => injection H as <-
  | H : addTLS _ _ _ _ = Ok ?i |- context [?i !! "tag"] => rewrite (addTLS_other _ _ _ _ _ "tag" ltac:(done) H); clear H
  | H : addTransport _ _ _ = Ok ?i |- context [?i !! "tag"] => rewrite (AnixUsers.addTransport_other _ _ _ _ "tag" ltac:(done) H); clear H
  | H : (if ?b then _ else _) = Ok _ |- _ => destruct b
  | H : match ?r with Some _ => _ | None => _ end = Ok _ |- _ => destruct r
  | H : match ?r with JObject _ => _ | _ => _ end = Ok _ |- _ => destruct r
  | H : match ?r with [] => _ | _ :: _ => _ end = Ok _ |- _ => destruct r
  | H : (let (_, _) := ?r in _) = Ok _ |- _ => destruct r
  | H : Err _ = Ok _ |- _ => discriminate H
  | |- context [when _ _ _ _ !! "tag"] => rewrite AnixUsers.when_other by done
  | |- context [<[_ := _]> _ !! "tag"] => rewrite lookup_insert_ne by done
  | |- context [match ?r with Some _ => _ | None => _ end !! "tag"] => destruct r
  end.

Lemma inboundConfig_tag keyFile tag info o i : inboundConfig keyFile tag (Some info) o = Ok i → i !! "tag" = Some (JString (wireTag tag)).
Proof.
  unfold inboundConfig. destruct (Common _) as [port|]; [|done]. destruct (negb (isIP _)); [done|].
  set (base := <["tag":=_]> _). assert (base !! "tag" = Some (JString (wireTag tag))) as <- by (unfold base; by rewrite lookup_insert_eq).
  clearbody base. intros Hx. unfold missing, shadowsocksInbound, vallssInbound, iwanInbound, anxInbound in Hx.
  keep_tag; done.
Qed.

Lemma AddNode_keeps keyFile tag info o c k c' k' e : known tag →
  AddNode compiles mainlandCIDRs keyFile tag info o c k = (c', k', e) → Keeps c k c' k' True.
Proof.
  intros Hkn. unfold AddNode. destruct (inboundConfig _ _ _ _) as [i|] eqn:Ei; [|intros [= <- <- <-]; apply keeps_refl].
  apply inboundConfig_tag in Ei. case_decide as Hex; [intros [= <- <- <-]; apply keeps_refl|].
  apply eq_None_not_Some in Hex. set (n := with_ingress _ _). assert (named tag n) as Hnamed by (split; [done|done|apply map_Forall_empty]).
  destruct (isShadowsocks n) eqn:Hss.
  - destruct (tryRules _ _ _ _) as [c1 k1] eqn:Et. intros [= <- <- <-]. apply (tryRules_keeps _ _ _ _ True) in Et as [Ht _].
    eapply (held_trans _ _ _ _ _ _ True True); [|exact Ht|done]. apply keeps_node; [done..|].
    intros f _ _ _ Hf. exists (hInbounds (held k)). rewrite with_inbounds_same. split_and!; [done..|].
    intros _ Hexa Hs. rewrite (exact_absent f c (held k) tag) in Hs; [by destruct Hs|done..|]. intros x. by rewrite Hex.
  - destruct (create c n k) as [[n' k1] [x|]] eqn:Ec.
    + intros [= <- <- <-]. destruct (client c) as [f|] eqn:Hc.
      * apply keeps_record; try done; [|by right..]. intros Hl.
        destruct (create_spec c tag n k n' k1 (Some x) f Hc Hnamed eq_refl Ec Hl) as (Hl' & m' & _ & _ & _ & ->). done.
      * unfold create in Ec. rewrite Hc, Hss in Ec. simpl in Ec. injection Ec as _ <- _. apply keeps_refl.
    + destruct (tryRules _ _ _ _) as [c1 k2] eqn:Et. intros [= <- <- <-]. apply (tryRules_keeps _ _ _ _ True) in Et as [Ht _].
      eapply (held_trans _ _ _ _ _ _ True True); [|exact Ht|done].
      eapply (create_keeps c k tag n n' k1 None); try done; [intros x; by rewrite Hex|]. intros _.
      destruct (create_shape _ _ _ _ _ _ Ec) as [_ [-> | ->]]; [done|by apply named_created].
Qed.

Lemma DelNode_keeps tag c k c' k' e : DelNode compiles mainlandCIDRs tag c k = (c', k', e) → Keeps c k c' k' (e = None).
Proof.
  unfold DelNode. destruct (nodes c !! tag) as [n|] eqn:En; [|intros [= <- <- <-]; apply keeps_refl].
  destruct (tryRules _ _ _ _) as [c1 k1] eqn:Et. apply (tryRules_keeps _ _ _ _ False) in Et as [Ht (En1 & Ef1 & _ & Eh1)]. simpl in *.
  assert (Keeps c k c1 k1 (created n = false)) as Hdel.
  { split.
    - apply Ht.
    - apply Ht.
    - intros [H1 H2 H3 H4 H5]. apply Ht. split; simpl; try done. by apply map_Forall_delete.
    - intros f Hc Hl Hw Hf. apply (keeps_follows _ _ _ _ _ Ht); [done..| |].
      + destruct Hw as [H1 H2 H3 H4 H5]. split; simpl; try done. by apply map_Forall_delete.
      + rewrite <- (with_inbounds_same (held k)). apply (follows_inbounds f c); try done. simpl. by eapply runs_delete; [apply Hf|..].
    - intros f Hc Hl Hw Hf Hcr Hex. unfold Exact. rewrite En1, Ef1, (Eh1 Hl).
      apply (only_delete _ _ (hInbounds (held k))); [done..|]. apply (exact_absent f c (held k)); [done..|by apply (wf_nodes c Hw tag n En)|].
      intros x. rewrite En. by intros [= <-]. }
  destruct (created n) eqn:Hcr; simpl.
  2: { intros [= <- <- <-]. destruct Hdel as [H1 H2 H3 H4 H5]. split; try done. intros f Hc Hl Hw Hf _. by apply (H5 f). }
  destruct (send (RemoveInbound (wireTag tag)) k1) as [k2 a] eqn:Es. intros [= <- <- <-].
  assert (lost k2 = false → lost k1 = false ∧ ∃ m', held k2 = with_inbounds (held k1) m' ∧ (∀ w, w ≠ wireTag tag → m' !! w = hInbounds (held k1) !! w) ∧
    ((if isStatus a 404 then None else inNode tag <$> errorOf a) = None → m' !! wireTag tag = None)) as Hs.
  { intros Hl. destruct (send_spec _ _ _ _ Es Hl) as (Hl1 & Hd & Hr & Ha). split; [done|]. destruct (errorOf a) as [x|] eqn:Ea.
    - exists (hInbounds (held k1)). rewrite with_inbounds_same. split_and!; [by eapply Hr|done|]. destruct Ha as [-> |(st & m & ->)]; [done|].
      simpl in *. destruct (Z.eqb_spec st 404) as [->|]; [|done]. intros _. apply (send_absent _ _ m). by rewrite Es.
    - eexists. rewrite (Hd eq_refl). simpl. split_and!; [done|by intros w Hne; rewrite lookup_delete_ne|intros _; by rewrite lookup_delete_eq]. }
  split.
  - apply Hdel.
  - intros Hl. apply Hdel. by apply Hs.
  - apply Hdel.
  - intros f Hc Hl Hw Hf. destruct (Hs Hl) as (Hl1 & m' & -> & Ho & _). pose proof (keeps_follows _ _ _ _ _ Hdel f Hc Hl1 Hw Hf) as Hf1.
    apply (follows_inbounds f c1); try done. destruct Hf1 as [[Hn1 Hfw1] _ _ _]. split.
    + intros t x Hx. destruct (Hn1 t x Hx) as [Hnx Hcx]. split; [done|]. intros Hcc. rewrite Ho; [by apply Hcx|]. intros E.
      rewrite En1 in Hx. apply lookup_delete_Some in Hx as [Hne _]. apply Hne. symmetry.
      apply tags_differ; [apply Hnx|by apply (wf_nodes c Hw tag n En)|done].
    + intros t i Hi. destruct (Hfw1 t i Hi) as (Hfo & Hp & Hm). split_and!; [done..|]. rewrite Ho; [done|]. intros ->.
      destruct Hfo as [Hfo _]. rewrite tags_not_forwards in Hfo; [done|]. by apply (wf_nodes c Hw tag n En).
  - intros f Hc Hl Hw Hf He Hex. destruct (Hs Hl) as (Hl1 & m' & -> & Ho & Hno). unfold Exact. simpl. rewrite En1, Ef1.
    apply (only_delete _ _ (hInbounds (held k1))); [by rewrite (Eh1 Hl1)|done|by apply Hno].
Qed.

(** *** Users *)

Lemma named_with_users tag n m : named tag n → keyedByName m → named tag (with_users n m).
Proof. intros [H1 H2 H3] Hm. by split. Qed.

(** A request that changes the users of an inbound, and the record with it. *)
Lemma keeps_users c k k' tag n m r (g : gmap string apiUser → gmap string apiUser) a P :
  nodes c !! tag = Some n → created n = true → (Wf c → keyedByName m) → send r k = (k', a) → errorOf a = None →
  (∀ h, doneBy r h = with_inbounds h (alter (λ x, (x.1, g x.2)) (wireTag tag) (hInbounds h))) →
  (∀ f, client c = Some f → g (limited f <$> users n) = limited f <$> m) →
  Keeps c k (set_node c tag (with_users n m)) k' P.
Proof.
  intros Hn Hcr Hm Es Ea Hd Hg. apply keeps_node.
  - intros Hl. by apply (send_spec _ _ _ _ Es).
  - intros Hw. apply named_with_users; [by apply (wf_nodes c Hw)|by apply Hm].
  - intros f Hc Hl Hw Hf. destruct (send_spec _ _ _ _ Es Hl) as (_ & Hdone & _). eexists. rewrite (Hdone Ea), Hd.
    split_and!; [done|by intros w Hne; rewrite lookup_alter_ne| |done].
    intros _. destruct (runs_nodes _ _ _ _ (follows_runs _ _ _ Hf) tag n Hn) as [_ Hrun].
    rewrite lookup_alter_eq. specialize (Hrun Hcr). destruct (hInbounds (held k) !! wireTag tag) as [[i us]|]; [|done].
    destruct Hrun as [-> Hi]. split; [by apply Hg|done].
Qed.

Lemma AddUsers_keeps tag us c k c' k' r : AddUsers tag us c k = (c', k', r) → Keeps c k c' k' True.
Proof.
  unfold AddUsers. destruct (nodes c !! tag) as [n|] eqn:En; [|intros [= <- <- <-]; apply keeps_refl].
  destruct (convertUsers _ us) as [[|u0 rest]|]; try (intros [= <- <- <-]; apply keeps_refl).
  set (added := u0 :: rest). set (stored := with_users n (usersMap added (users n))).
  destruct (created n) eqn:Hcr; cbn [negb].
  - destruct (send _ k) as [k1 a] eqn:Es. destruct (errorOf a) as [x|] eqn:Ea; intros [= <- <- <-].
    + apply keeps_record; try done; [|by right..]. by apply (send_refused_same _ _ _ _ _ Es Ea).
    + eapply (keeps_users c k k1 tag n _ _ (usersMap (forKernel (from_option userLimits false (client c)) added)) a); try done.
      * intros Hw. apply usersMap_keyed. by apply (wf_nodes c Hw tag n En).
      * intros f Hc. rewrite Hc. simpl. by rewrite forKernel_limited, usersMap_limited.
  - assert (Wf c → keyedByName (usersMap added (users n))) as Hk by (intros Hw; apply usersMap_keyed; by apply (wf_nodes c Hw tag n En)).
    assert (Wf c → named tag stored) as Hns by (intros Hw; apply named_with_users; [by apply (wf_nodes c Hw)|by apply Hk]).
    assert (Wf c → named tag (with_users n (withoutNames (Name <$> added) (users stored)))) as Hdrop.
    { intros Hw. apply named_with_users; [by apply (wf_nodes c Hw)|]. by apply withoutNames_keyed, Hk. }
    assert (∀ x, nodes c !! tag = Some x → created x = false) as Hold by (intros x; rewrite En; by intros [= <-]).
    destruct (create c stored k) as [[n' k1] e] eqn:Ec. destruct (create_shape _ _ _ _ _ _ Ec) as [_ Hsh].
    destruct e as [x|]; intros [= <- <- <-]; eapply (create_keeps c k tag stored n' k1); try done.
    intros Hw. destruct Hsh as [-> | ->]; [by apply Hns|by apply named_created, Hns].
Qed.

Lemma DelUsers_keeps us tag c k c' k' e : DelUsers us tag c k = (c', k', e) → Keeps c k c' k' True.
Proof.
  unfold DelUsers. destruct (nodes c !! tag) as [n|] eqn:En; [|intros [= <- <- <-]; apply keeps_refl].
  set (names := mjoin _). assert (Wf c → keyedByName (withoutNames names (users n))) as Hk.
  { intros Hw. apply withoutNames_keyed. by apply (wf_nodes c Hw tag n En). }
  destruct (created n && _) eqn:Hs.
  - apply andb_true_iff in Hs as [Hcr _]. destruct (send _ k) as [k1 a] eqn:Es. destruct (errorOf a) as [x|] eqn:Ea; intros [= <- <- <-].
    + apply keeps_record; try done; [|by right..]. by apply (send_refused_same _ _ _ _ _ Es Ea).
    + eapply (keeps_users c k k1 tag n _ _ (withoutNames names) a); try done. intros f _. apply withoutNames_limited.
  - intros [= <- <- <-]. apply keeps_node; [done|intros Hw; apply named_with_users; [by apply (wf_nodes c Hw)|by apply Hk]|].
    intros f Hc Hl Hw Hf. exists (hInbounds (held k)). rewrite with_inbounds_same. split_and!; [done..| |].
    + simpl. intros Hcr. rewrite Hcr in Hs. simpl in Hs. apply bool_decide_eq_false, dec_stable in Hs. rewrite Hs.
      by apply (runs_nodes _ _ _ _ (follows_runs _ _ _ Hf) tag n En).
    + simpl. intros _ Hex Hsome. destruct (created n) eqn:Hcr; [done|].
      rewrite (exact_absent f c (held k) tag) in Hsome; [by destruct Hsome|done|done|by apply (wf_nodes c Hw tag n En)|].
      intros y. rewrite En. by intros [= <-].
Qed.

(** *** Egress routes, priorities, exit policy *)

Lemma ApplyEgress_keeps config c k c' k' e : ApplyEgress config c k = (c', k', e) → Keeps c k c' k' True.
Proof.
  unfold ApplyEgress. destruct (Validate config) as [[]|]; [|intros [= <- <- <-]; apply keeps_refl].
  destruct (config ≫= otherProtocol); [intros [= <- <- <-]; apply keeps_refl|].
  destruct (client c) eqn:Hc; [|intros [= <- <- <-]; apply keeps_refl]. unfold putEgress.
  destruct (send _ k) as [k1 a] eqn:Es. intros [= <- <- <-]. apply keeps_record; try done; [|by right..]. intros Hl.
  destruct (errorOf a) as [x|] eqn:Ea; [by apply (send_refused_same _ _ _ _ _ Es Ea)|].
  destruct (send_spec _ _ _ _ Es Hl) as (Hl' & Hd & _). by rewrite (Hd Ea).
Qed.

(** A record whose priorities changed as the kernel's did. *)
Lemma keeps_qos c k k' body P : (lost k' = false → lost k = false) →
  (∀ f, client c = Some f → lost k' = false → Follows f c (held k) → hInbounds (held k') = hInbounds (held k) ∧ hLinks (held k') = hLinks (held k) ∧
     hRules (held k') = hRules (held k) ∧ (strict = true → qosFeature f = true → hQoS (held k') = body)) →
  Keeps c k (set_qos c (Some body)) k' P.
Proof.
  intros Hl Hh. split; [done|done|by intros []|..].
  - intros f Hc Hlo _ Hf. destruct (Hh f Hc Hlo Hf) as (E1 & E2 & E3 & E4). destruct Hf as [H1 H2 H3 H4].
    split; simpl; [by rewrite E1|by rewrite E2|by rewrite E3|done].
  - intros f Hc Hlo _ Hf _. unfold Exact. simpl. by destruct (Hh f Hc Hlo Hf) as (-> & _).
Qed.

Lemma putQoS_keeps f body c k c' k' e P : client c = Some f → putQoS f body c k = (c', k', e) → Keeps c k c' k' P.
Proof.
  intros Hc. unfold putQoS. destruct (qosFeature f) eqn:Hq; simpl.
  - destruct (send _ k) as [k1 a] eqn:Es. destruct (errorOf a) as [x|] eqn:Ea; intros [= <- <- <-].
    + apply keeps_record; try done; [|by right..]. by apply (send_refused_same _ _ _ _ _ Es Ea).
    + apply keeps_qos; [intros Hl; by apply (send_spec _ _ _ _ Es)|]. intros f' _ Hl _.
      destruct (send_spec _ _ _ _ Es Hl) as (_ & Hd & _). by rewrite (Hd Ea).
  - intros [= <- <- <-]. apply keeps_qos; [done|]. intros f' Hf'. rewrite Hc in Hf'. injection Hf' as <-. rewrite Hq. by intros _ _.
Qed.

Lemma ApplyQoS_keeps config c k c' k' e : ApplyQoS config c k = (c', k', e) → Keeps c k c' k' True.
Proof.
  unfold ApplyQoS. destruct (client c) as [f|] eqn:Hc; [|intros [= <- <- <-]; apply keeps_refl].
  set (body := if String.eqb config "" then offQoS else config). case_decide; [intros [= <- <- <-]; apply keeps_refl|].
  destruct (bool_decide (qos c = None) && String.eqb body offQoS) eqn:Hfirst; [|by apply putQoS_keeps].
  intros [= <- <- <-]. apply andb_true_iff in Hfirst as [Hn%bool_decide_eq_true Hb%String.eqb_eq].
  apply keeps_qos; [done|]. intros f' _ _ [_ _ _ Hq]. split_and!; [done..|]. intros Hs Hf. by rewrite Hq, Hn, Hb.
Qed.

Lemma ApplyExitPolicy_keeps block c k c' k' e : ApplyExitPolicy compiles mainlandCIDRs block c k = (c', k', e) → Keeps c k c' k' True.
Proof.
  unfold ApplyExitPolicy. intros [Hk _]%(syncRules_keeps _ _ _ _ _ True). eapply (held_trans _ _ _ _ _ _ True True); [|exact Hk|done].
  apply keeps_record; try done; by right.
Qed.

End Follows.
End AnixKernel.
