(* ===== verification/AnixNetwork.v ===== *)
(** * Network plans and restarts of the kernel

    Links and forwards become exactly those of a plan, a plan that was applied
    without an error runs in the kernel, the invariant of AnixKernel.v holds
    over every sequence of calls and restarts, and a kernel that was started
    again and given everything runs exactly what the record says.
    Module [AnixRestart]: restarts. *)

From S2P Require Import Prelude GoStrings GoNet Json Limiter NetworkPlan AnxServer NodeController AnixInbound AnixUsers AnixPlan AnixCore AnixKernel.
From Stdlib Require Import Ascii String.

Module AnixNetwork.
Import Limiter NetworkPlan AnxServer AnixInbound AnixPlan AnixCore AnixKernel.

(** ** What is changed of a map *)

Section Maps.
Context {A : Type} `{!EqDecision A}.
Implicit Types have want m : gmap string A.

Lemma elem_of_changed have want key : key ∈ changed have want ↔ is_Some (have !! key) ∧ want !! key ≠ have !! key.
Proof.
  unfold changed. rewrite sort_by_perm, list_elem_of_filter, list_elem_of_fmap. split.
  - intros [Hne ([k x] & -> & Hx%elem_of_map_to_list)]. by split; [eexists|].
  - intros [[x Hx] Hne]. split; [done|]. exists (key, x). split; [done|]. by apply elem_of_map_to_list.
Qed.

Lemma changed_nodup have want : NoDup (changed have want).
Proof. unfold changed. rewrite sort_by_perm. apply NoDup_filter, NoDup_fst_map_to_list. Qed.

Lemma decide_cons {B} (key x : string) l (a b : B) :
  (if decide (key ∈ x :: l) then a else b) = if decide (key ∈ l) then a else if decide (key = x) then a else b.
Proof.
  destruct (decide (key ∈ l)) as [Hl|Hl]; [by rewrite decide_True by (apply elem_of_cons; by right)|].
  destruct (decide (key = x)) as [->|Hx]; [by rewrite decide_True by (apply elem_of_cons; by left)|].
  by rewrite decide_False by (intros [?|?]%elem_of_cons; done).
Qed.

Lemma drops_lookup ids : ∀ m key, foldl (λ m id, delete id m) m ids !! key = if decide (key ∈ ids) then None else m !! key.
Proof.
  induction ids as [|id ids IH]; intros m key; cbn [foldl]; [by rewrite decide_False by apply not_elem_of_nil|]. rewrite IH.
  rewrite decide_cons. destruct (decide (key ∈ ids)); [done|].
  destruct (decide (key = id)) as [->|]; [by rewrite lookup_delete_eq|by rewrite lookup_delete_ne].
Qed.

(** What is removed and added makes [have] into [want]. *)
Lemma changed_synced have want m :
  (∀ key, m !! key = if decide (key ∈ changed want have) then want !! key
                     else if decide (key ∈ changed have want) then None else have !! key) → m = want.
Proof.
  intros Hm. apply map_eq. intros key. rewrite Hm. clear Hm.
  destruct (decide (key ∈ changed want have)) as [Hc|Hc]; [done|].
  destruct (decide (key ∈ changed have want)) as [Hd|Hd]; rewrite elem_of_changed in Hc, Hd.
  - destruct (want !! key) as [x|]; [|done]. exfalso. apply Hc. split; [by eexists|]. intros E. apply Hd. by rewrite E.
  - destruct (want !! key) as [x|], (have !! key) as [y|]; try done.
    + destruct (decide (x = y)) as [->|Hne]; [done|]. exfalso. apply Hc. split; [by eexists|congruence].
    + exfalso. apply Hc. by split; [eexists|].
    + exfalso. apply Hd. by split; [eexists|].
Qed.
End Maps.

Lemma links_lookup (want : gmap string Link) ids : map_Forall (λ id l, LkId l = id) want → ∀ (m : gmap string Link) key, (∀ id, id ∈ ids → is_Some (want !! id)) →
  foldl (λ m l, <[LkId l := l]> m) m (omap (λ id, want !! id) ids) !! key = if decide (key ∈ ids) then want !! key else m !! key.
Proof.
  intros Hk. induction ids as [|id ids IH]; intros m key Hin; cbn [foldl omap list_omap]; [by rewrite decide_False by apply not_elem_of_nil|].
  destruct (Hin id) as [l Hl]; [apply list_elem_of_here|]. rewrite Hl. cbn [foldl]. fold (omap (λ id, want !! id) ids).
  rewrite IH by (intros x Hx; apply Hin; by apply list_elem_of_further).
  pose proof (Hk id l Hl) as Hid. simpl in Hid. rewrite Hid, decide_cons. destruct (decide (key ∈ ids)); [done|].
  destruct (decide (key = id)) as [->|]; [by rewrite lookup_insert_eq|by rewrite lookup_insert_ne].
Qed.

Section Network.
Context {K : Type} `{!Kernel K, !KernelLaws K, !InboundCodec, !PlanSDK}.
Context (compiles : string → bool) (mainlandCIDRs : list string).
Context (known : string → Prop) `{!Tags known} (strict : bool).
Abbreviation Wf := (AnixKernel.Wf known).
Abbreviation Follows := (AnixKernel.Follows known strict).
Abbreviation Keeps := (AnixKernel.Keeps known strict).
Abbreviation keyedLinks := (map_Forall (λ id l, LkId l = id)).

(** ** Links *)

(** A request that changes the links of both. *)
Lemma keeps_links c k k' r a g P : send r k = (k', a) → errorOf a = None → (∀ h, doneBy r h = with_links h (g (hLinks h))) →
  (Wf c → keyedLinks (g (links c))) → Keeps c k (set_links c (g (links c))) k' P.
Proof.
  intros Es Ea Hd Hg. split; [done|intros Hl; by apply (send_spec _ _ _ _ Es)|..].
  - intros Hw. pose proof (Hg Hw). by destruct Hw; split.
  - intros f Hc Hl _ [H1 H2 H3 H4]. destruct (send_spec _ _ _ _ Es Hl) as (_ & Hdone & _). rewrite (Hdone Ea), Hd.
    split; simpl; [done|intros Hln; by rewrite (H2 Hln)|done..].
  - intros f Hc Hl _ _ _. destruct (send_spec _ _ _ _ Es Hl) as (_ & Hdone & _). unfold Exact. by rewrite (Hdone Ea), Hd.
Qed.

Lemma keyed_drops ids : ∀ m : gmap string Link, keyedLinks m → keyedLinks (foldl (λ m id, delete id m) m ids).
Proof. induction ids as [|id ids IH]; intros m Hm; simpl; [done|]. apply IH. by apply map_Forall_delete. Qed.

Lemma keyed_puts ls : ∀ m : gmap string Link, keyedLinks m → keyedLinks (foldl (λ m l, <[LkId l := l]> m) m ls).
Proof. induction ls as [|l ls IH]; intros m Hm; simpl; [done|]. apply IH. by apply map_Forall_insert_2. Qed.

(** The parts of the record that links do not touch. *)
Definition linksOnly (c c' : Core) : Prop :=
  nodes c' = nodes c ∧ forwards c' = forwards c ∧ client c' = client c ∧ line c' = line c ∧ ingresses c' = ingresses c ∧
  network c' = network c ∧ egress c' = egress c ∧ qos c' = qos c ∧ wantedForwards c' = wantedForwards c ∧ blockMainland c' = blockMainland c ∧
  wantedLinks c' = wantedLinks c.

Lemma syncLinks_keeps wanted c k c' k' e P : syncLinks wanted c k = (c', k', e) → Keeps c k c' k' P ∧ linksOnly c c'.
Proof.
  unfold syncLinks. destruct (line c); simpl; [|intros [= <- <- <-]; split; [apply keeps_refl|done]].
  set (remove := changed (links c) wanted). set (add := omap _ _).
  destruct (bool_decide (remove = [])).
  - destruct (bool_decide (add = [])); [intros [= <- <- <-]; split; [apply keeps_refl|done]|].
    destruct (send _ k) as [k1 a] eqn:Es. destruct (errorOf a) as [x|] eqn:Ea; intros [= <- <- <-]; (split; [|done]).
    + apply keeps_record; try done; [|by right..]. by apply (send_refused_same _ _ _ _ _ Es Ea).
    + eapply (keeps_links c k k1 _ a (λ m, foldl (λ m l, <[LkId l := l]> m) m add)); try done. intros Hw. apply keyed_puts, Hw.
  - destruct (send (RemoveLinks remove) k) as [k1 a] eqn:Es. destruct (errorOf a) as [x|] eqn:Ea.
    { intros [= <- <- <-]. split; [|done]. apply keeps_record; try done; [|by right..]. by apply (send_refused_same _ _ _ _ _ Es Ea). }
    assert (Keeps c k (set_links c (foldl (λ m id, delete id m) (links c) remove)) k1 P) as H1.
    { eapply (keeps_links c k k1 _ a (λ m, foldl (λ m id, delete id m) m remove)); try done. intros Hw. apply keyed_drops, Hw. }
    set (c1 := set_links c _) in *.
    destruct (bool_decide (add = [])); [intros [= <- <- <-]; done|].
    destruct (send _ k1) as [k2 b] eqn:Es2. destruct (errorOf b) as [x|] eqn:Eb; intros [= <- <- <-]; (split; [|done]);
      (eapply (held_trans _ _ _ _ _ _ _ _ P P); [exact H1| |done]).
    + apply keeps_record; try done; [|by right..]. by apply (send_refused_same _ _ _ _ _ Es2 Eb).
    + eapply (keeps_links c1 k1 k2 _ b (λ m, foldl (λ m l, <[LkId l := l]> m) m add)); try done. intros Hw. apply keyed_puts, Hw.
Qed.

(** Without an error the links are those wanted. *)
Lemma syncLinks_exact wanted c k c' k' : keyedLinks wanted → line c = true → syncLinks wanted c k = (c', k', None) → links c' = wanted.
Proof.
  intros Hk Hln. unfold syncLinks. rewrite Hln. simpl. set (remove := changed (links c) wanted). set (ids := changed wanted (links c)).
  assert (∀ id, id ∈ ids → is_Some (wanted !! id)) as Hids by (intros id [Hid _]%elem_of_changed; done).
  assert (∀ m, (∀ key, m !! key = if decide (key ∈ remove) then None else links c !! key) →
    foldl (λ m l, <[LkId l := l]> m) m (omap (λ id, wanted !! id) ids) = wanted) as Hall.
  { intros m Hm. apply (changed_synced (links c)). intros key. rewrite links_lookup, Hm by done. done. }
  assert (omap (λ id, wanted !! id) ids = [] → ∀ m, (∀ key, m !! key = if decide (key ∈ remove) then None else links c !! key) → m = wanted) as Hnone.
  { intros E m Hm. apply Hall in Hm. by rewrite E in Hm. }
  destruct (bool_decide (remove = [])) eqn:Hr.
  - apply bool_decide_eq_true in Hr. assert (∀ key, links c !! key = if decide (key ∈ remove) then None else links c !! key) as Hm.
    { intros key. rewrite Hr. by rewrite decide_False by apply not_elem_of_nil. }
    destruct (bool_decide (omap (λ id, wanted !! id) ids = [])) eqn:Ha; [intros [= <- <-]; apply Hnone; [by apply bool_decide_eq_true in Ha|done]|].
    destruct (send _ k) as [k1 a]. destruct (errorOf a); [done|]. intros [= <- <-]. simpl. by apply Hall.
  - destruct (send (RemoveLinks remove) k) as [k1 a]. destruct (errorOf a); [done|]. simpl.
    pose proof (drops_lookup remove (links c)) as Hm.
    destruct (bool_decide (omap (λ id, wanted !! id) ids = [])) eqn:Ha; [intros [= <- <-]; simpl; apply Hnone; [by apply bool_decide_eq_true in Ha|done]|].
    destruct (send _ k1) as [k2 b]. destruct (errorOf b); [done|]. intros [= <- <-]. simpl. by apply Hall.
Qed.

Lemma dropMovedLinks_keeps egresses c k c' k' e P : dropMovedLinks egresses c k = (c', k', e) → Keeps c k c' k' P ∧ linksOnly c c'.
Proof.
  unfold dropMovedLinks. destruct (negb (line c)); [intros [= <- <- <-]; split; [apply keeps_refl|done]|].
  destruct (movedLinks egresses c) as [|id moved]; [intros [= <- <- <-]; split; [apply keeps_refl|done]|].
  destruct (send _ k) as [k1 a] eqn:Es. destruct (errorOf a) as [x|] eqn:Ea; intros [= <- <- <-]; (split; [|done]).
  - apply keeps_record; try done; [|by right..]. by apply (send_refused_same _ _ _ _ _ Es Ea).
  - eapply (keeps_links c k k1 _ a (λ m, foldl (λ m id, delete id m) m (id :: moved))); try done. intros Hw. apply keyed_drops, Hw.
Qed.

(** ** Forwards *)

Lemma wireTag_accepted tag : wireTagPattern tag = true → wireTag tag = tag.
Proof. unfold wireTag. by intros ->. Qed.

(** The parts of the record that forwards do not touch. *)
Definition forwardsOnly (c c' : Core) : Prop :=
  nodes c' = nodes c ∧ links c' = links c ∧ client c' = client c ∧ line c' = line c ∧ ingresses c' = ingresses c ∧ network c' = network c ∧
  egress c' = egress c ∧ qos c' = qos c ∧ wantedForwards c' = wantedForwards c ∧ blockMainland c' = blockMainland c ∧ wantedLinks c' = wantedLinks c.

Lemma forwardsOnly_trans c1 c2 c3 : forwardsOnly c1 c2 → forwardsOnly c2 c3 → forwardsOnly c1 c3.
Proof. unfold forwardsOnly. intros. destruct_and!. split_and!; congruence. Qed.

Lemma keeps_drop_forward c k k' tag a : is_Some (forwards c !! tag) → send (RemoveInbound (wireTag tag)) k = (k', a) →
  errorOf a = None ∨ isStatus a 404 = true → Keeps c k (set_forwards c (delete tag (forwards c))) k' True.
Proof.
  intros [i Hi] Es Ha.
  assert (∀ f, lost k' = false → Follows f c (held k) → forwardTag tag = true ∧ ∃ m', held k' = with_inbounds (held k) m' ∧
    (∀ w, w ≠ tag → m' !! w = hInbounds (held k) !! w) ∧ m' !! tag = None) as Hs.
  { intros f Hl Hf. destruct (runs_forwards _ _ _ _ _ _ (follows_runs _ _ _ _ _ Hf) tag i Hi) as ([Hfo _] & Hp & _).
    rewrite wireTag_accepted in Es by done. split; [done|]. destruct (send_spec _ _ _ _ Es Hl) as (_ & Hd & Hr & Hc).
    destruct Ha as [Ha|Ha].
    - eexists. rewrite (Hd Ha). simpl. split_and!; [done|by intros w Hne; rewrite lookup_delete_ne|by rewrite lookup_delete_eq].
    - destruct Hc as [-> |(st & m & ->)]; [done|]. simpl in Ha. apply Z.eqb_eq in Ha as ->. exists (hInbounds (held k)).
      rewrite (Hr m eq_refl), with_inbounds_same. split_and!; [done..|]. apply (send_absent _ _ m). by rewrite Es. }
  split; [done|intros Hl; by apply (send_spec _ _ _ _ Es)|..].
  - intros [H1 H2 H3 H4 H5]. split; simpl; try done. by apply map_Forall_delete.
  - intros f Hc Hl _ Hf. destruct (Hs f Hl Hf) as (Hfo & m' & -> & Ho & Hno). apply (follows_inbounds _ _ f c); try done. simpl.
    by apply (runs_remove_forward _ _ _ _ _ (hInbounds (held k))); [apply Hf|..].
  - intros f Hc Hl _ Hf _ Hex. destruct (Hs f Hl Hf) as (Hfo & m' & -> & Ho & Hno). unfold Exact. simpl.
    by apply (only_remove_forward _ _ (hInbounds (held k))).
Qed.

Lemma removeForwards_keeps tags : ∀ c k c' k' e, (∀ t, t ∈ tags → is_Some (forwards c !! t)) → NoDup tags →
  removeForwards tags c k = (c', k', e) →
  Keeps c k c' k' True ∧ forwardsOnly c c' ∧ (e = None → forwards c' = foldl (λ m t, delete t m) (forwards c) tags).
Proof.
  induction tags as [|tag tags IH]; intros c k c' k' e Hin Hnd; simpl; [intros [= <- <- <-]; split; [apply keeps_refl|done]|].
  apply NoDup_cons in Hnd as [Hnin Hnd]. destruct (send _ k) as [k1 a] eqn:Es.
  assert ((errorOf a = None ∨ isStatus a 404 = true) → removeForwards tags (set_forwards c (delete tag (forwards c))) k1 = (c', k', e) →
    Keeps c k c' k' True ∧ forwardsOnly c c' ∧ (e = None → forwards c' = foldl (λ m t, delete t m) (delete tag (forwards c)) tags)) as Hgo.
  { intros Ha Hr. assert (is_Some (forwards c !! tag)) as Htag by (apply Hin, list_elem_of_here).
    pose proof (keeps_drop_forward c k k1 tag a Htag Es Ha) as H1. apply IH in Hr as (H2 & H3 & H4); [|..|done].
    - split_and!; [|done|done]. eapply (held_trans _ _ _ _ _ _ _ _ True True); done.
    - intros t Ht. simpl. rewrite lookup_delete_ne by (intros ->; done). apply Hin. by apply list_elem_of_further. }
  destruct (errorOf a) as [x|] eqn:Ea; [|by apply Hgo; left]. destruct (isStatus a 404) eqn:E4; [by apply Hgo; right|].
  intros [= <- <- <-]. split; [|done]. apply keeps_record; try done; [|by right..]. by apply (send_refused_same _ _ _ _ _ Es Ea).
Qed.

Lemma keeps_put_forward c k k' tag i a : forwardOf tag i → send (AddInbound i []) k = (k', a) → errorOf a = None →
  Keeps c k (set_forwards c (<[tag := i]> (forwards c))) k' True.
Proof.
  intros [Hfo Hto] Es Ea. assert (a = Done) as -> by (by destruct a).
  assert (wireTagPattern tag = true) as Hp by (rewrite <- Hto; apply (send_tag i [] k); by rewrite Es).
  assert (lost k' = false → held k' = with_inbounds (held k) (<[tag := (i, ∅)]> (hInbounds (held k)))) as Hd.
  { intros Hl. destruct (send_spec _ _ _ _ Es Hl) as (_ & Hd & _). rewrite (Hd eq_refl). simpl. by rewrite Hto. }
  split; [done|intros Hl; by apply (send_spec _ _ _ _ Es)|..].
  - intros [H1 H2 H3 H4 H5]. split; simpl; try done. by apply map_Forall_insert_2.
  - intros f Hc Hl _ Hf. rewrite (Hd Hl). apply (follows_inbounds _ _ f c); try done. simpl. by apply runs_add_forward; [|apply Hf|..].
  - intros f Hc Hl _ Hf _ Hex. rewrite (Hd Hl). unfold Exact. simpl. by apply only_add_forward.
Qed.

Lemma addForwards_keeps wanted tags : map_Forall forwardOf wanted → ∀ c k c' k' e, (∀ t, t ∈ tags → is_Some (wanted !! t)) →
  addForwards wanted tags c k = (c', k', e) →
  Keeps c k c' k' True ∧ forwardsOnly c c' ∧
  (e = None → ∀ key, forwards c' !! key = if decide (key ∈ tags) then wanted !! key else forwards c !! key).
Proof.
  intros Hw. induction tags as [|tag tags IH]; intros c k c' k' e Hin; cbn [addForwards].
  { intros [= <- <- <-]. split_and!; [apply keeps_refl|done|]. intros _ key. by rewrite decide_False by apply not_elem_of_nil. }
  destruct (Hin tag) as [i Hi]; [apply list_elem_of_here|]. rewrite Hi. cbn [default]. destruct (send _ k) as [k1 a] eqn:Es.
  destruct (errorOf a) as [x|] eqn:Ea.
  - intros [= <- <- <-]. split; [|done]. apply keeps_record; try done; [|by right..]. by apply (send_refused_same _ _ _ _ _ Es Ea).
  - intros Hr. pose proof (keeps_put_forward c k k1 tag i a (Hw tag i Hi) Es Ea) as H1. apply IH in Hr as (H2 & H3 & H4); [|intros t Ht; apply Hin; by apply list_elem_of_further].
    split_and!; [by eapply (held_trans _ _ _ _ _ _ _ _ True True)|done|]. intros He key. rewrite (H4 He), decide_cons.
    destruct (decide (key ∈ tags)); [done|]. cbn [forwards set_forwards].
    destruct (decide (key = tag)) as [->|]; [by rewrite lookup_insert_eq|by rewrite lookup_insert_ne].
Qed.

Lemma syncForwards_keeps wanted c k c' k' e : map_Forall forwardOf wanted → syncForwards wanted c k = (c', k', e) →
  Keeps c k c' k' True ∧ forwardsOnly c c' ∧ (e = None → forwards c' = wanted).
Proof.
  intros Hw. unfold syncForwards. destruct (removeForwards _ c k) as [[c1 k1] e1] eqn:Er.
  apply removeForwards_keeps in Er as (H1 & Ho & Hf1); [|by intros t [Ht _]%elem_of_changed|apply changed_nodup].
  destruct e1 as [x|]; [intros [= <- <- <-]; by split_and!|]. intros (H2 & Ho2 & H4)%addForwards_keeps; [|done|by intros t [Ht _]%elem_of_changed].
  split_and!; [by eapply (held_trans _ _ _ _ _ _ _ _ True True)|by eapply forwardsOnly_trans|].
  intros He. apply (changed_synced (forwards c)). intros key. rewrite (H4 He), (Hf1 eq_refl), drops_lookup. done.
Qed.

(** ** Ingresses *)

Lemma named_ingress tag n i : named known tag n → named known tag (with_ingress n i).
Proof. by intros [H1 H2 H3]; split. Qed.

(** A node is created again with its new ingress; if what it had could not be
    removed, it has the old one. *)
Lemma recreate_keeps c k tag n i n' k' e : nodes c !! tag = Some n → created n = true → recreate c tag (with_ingress n i) k = (n', k', e) →
  (strict = true → e = None) → Keeps c k (set_node c tag n') k' True ∧ ingress n' = i ∧ ninfo n' = ninfo n.
Proof.
  intros Hn Hcr. unfold recreate. destruct (send _ k) as [k1 a] eqn:Es.
  set (n0 := with_created (with_ingress n i) false).
  assert (create c n0 k1 = (n', k', e) → (errorOf a = None ∨ isStatus a 404 = true) → Keeps c k (set_node c tag n') k' True ∧ ingress n' = i ∧ ninfo n' = ninfo n) as Hgo.
  { intros Ec Ha. destruct (create_shape _ _ _ _ _ _ Ec) as [_ Hsh].
    assert (n' = n0 ∨ n' = with_created n0 true) as Hn' by (destruct e; [by left|done]).
    split; [|by destruct Hn' as [-> | ->]].
    assert (Keeps c k (set_node c tag n0) k1 True) as H1.
    { apply keeps_node; [done|intros Hl; by apply (send_spec _ _ _ _ Es)|intros Hw; apply named_created, named_ingress; by apply (wf_nodes _ _ Hw)|].
      intros f _ Hl _ _. destruct (send_spec _ _ _ _ Es Hl) as (_ & Hd & Hr & Hc). destruct Ha as [Ha|Ha].
      - eexists. rewrite (Hd Ha). simpl. split_and!; [done|by intros w Hne; rewrite lookup_delete_ne|done|].
        intros _ _. rewrite lookup_delete_eq. by intros [].
      - destruct Hc as [-> |(st & m & ->)]; [done|]. simpl in Ha. apply Z.eqb_eq in Ha as ->. exists (hInbounds (held k)).
        rewrite (Hr m eq_refl), with_inbounds_same. split_and!; [done..|]. intros _ _. rewrite (send_absent _ _ m) by (by rewrite Es). by intros []. }
    assert (Keeps (set_node c tag n0) k1 (set_node (set_node c tag n0) tag n') k' True) as H2.
    { apply (create_keeps known strict (set_node c tag n0) k1 tag n0 n' k' e); try done.
      - intros Hw. apply (wf_nodes _ _ Hw). simpl. by rewrite lookup_insert_eq.
      - intros x. simpl. rewrite lookup_insert_eq. by intros [= <-].
      - intros Hw. assert (named known tag n0) by (apply (wf_nodes _ _ Hw); simpl; by rewrite lookup_insert_eq).
        destruct Hn' as [-> | ->]; [done|by apply named_created].
      - destruct e; [by rewrite Hsh|done]. }
    assert (set_node (set_node c tag n0) tag n' = set_node c tag n') as E by (unfold set_node, set_nodes; simpl; by rewrite insert_insert_eq).
    rewrite E in H2. by eapply (held_trans _ _ _ _ _ _ _ _ True True). }
  destruct (errorOf a) as [x|] eqn:Ea; [|intros Hx _; apply Hgo; [done|by left]].
  destruct (isStatus a 404) eqn:E4; [intros Hx _; apply Hgo; [done|by right]|]. intros [= <- <- <-] Hst.
  split; [|done]. apply keeps_node; [done|intros Hl; by apply (send_spec _ _ _ _ Es)|intros Hw; apply named_ingress; by apply (wf_nodes _ _ Hw)|].
  intros f _ Hl _ Hf. destruct (send_spec _ _ _ _ Es Hl) as (_ & _ & Hr & _). exists (hInbounds (held k)).
  rewrite (Hr x Ea), with_inbounds_same. split_and!; [done..| |done]. intros _.
  destruct (runs_nodes _ _ _ _ _ _ (follows_runs _ _ _ _ _ Hf) tag n Hn) as [_ Hrun]. specialize (Hrun Hcr).
  destruct (hInbounds (held k) !! wireTag tag) as [[j us]|]; [|done]. destruct Hrun as [-> Hj]. split; [done|].
  destruct strict; [by specialize (Hst eq_refl)|done].
Qed.

Lemma joinError_none a b : joinError a b = None ↔ a = None ∧ b = None.
Proof. clear. destruct a, b; simpl; naive_solver. Qed.

(** The parts of the record that the nodes' inbounds do not touch. *)
Definition nodesOnly (c c' : Core) : Prop :=
  forwards c' = forwards c ∧ links c' = links c ∧ client c' = client c ∧ line c' = line c ∧ ingresses c' = ingresses c ∧ network c' = network c ∧
  egress c' = egress c ∧ qos c' = qos c ∧ wantedForwards c' = wantedForwards c ∧ blockMainland c' = blockMainland c ∧ wantedLinks c' = wantedLinks c.

Lemma nodesOnly_trans c1 c2 c3 : nodesOnly c1 c2 → nodesOnly c2 c3 → nodesOnly c1 c3.
Proof. unfold nodesOnly. intros. destruct_and!. split_and!; congruence. Qed.

Lemma ingressOf_same c c' n n' : ingresses c' = ingresses c → ninfo n' = ninfo n → ingressOf c' n' = ingressOf c n.
Proof. unfold ingressOf. by intros -> ->. Qed.

(** The nodes a loop still has to go over are those of the record. *)
Definition listed (l : list (string * node)) (c : Core) : Prop := NoDup l.*1 ∧ ∀ t n, (t, n) ∈ l → nodes c !! t = Some n.

Lemma listed_all c : listed (map_to_list (nodes c)) c.
Proof. split; [apply NoDup_fst_map_to_list|]. by intros t n Hn%elem_of_map_to_list. Qed.

Lemma listed_next tag n l c n' : listed ((tag, n) :: l) c → nodes c !! tag = Some n ∧ listed l (set_node c tag n').
Proof.
  intros [Hnd Hl]. rewrite fmap_cons in Hnd. apply NoDup_cons in Hnd as [Hnin Hnd]. split; [apply Hl, list_elem_of_here|].
  split; [done|]. intros t x Hx. simpl. rewrite lookup_insert_ne; [apply Hl; by apply list_elem_of_further|].
  intros <-. apply Hnin. apply list_elem_of_fmap. by exists (tag, x).
Qed.

Lemma set_node_same c tag n : nodes c !! tag = Some n → set_node c tag n = c.
Proof. intros Hn. unfold set_node, set_nodes. rewrite insert_id by done. by destruct c. Qed.

Lemma keeps_ingress c k tag n i : nodes c !! tag = Some n → created n = false → Keeps c k (set_node c tag (with_ingress n i)) k True.
Proof.
  intros Hn Hcr. apply keeps_node; [done|done|intros Hw; apply named_ingress; by apply (wf_nodes _ _ Hw)|].
  intros f _ _ Hw Hf. exists (hInbounds (held k)). rewrite with_inbounds_same. split_and!; [done..|simpl; by rewrite Hcr|].
  intros _ Hex Hs. rewrite (exact_absent known strict f c (held k) tag) in Hs; [by destruct Hs|done..|by apply (wf_nodes _ _ Hw tag n Hn)|].
  intros x. rewrite Hn. by intros [= <-].
Qed.

(** One node of the loop. *)
Definition joinNode (tag : string) (n : node) (c : Core) (k : K) : node * K * option string :=
  if decide (ingressOf c n = ingress n) then (n, k, None)
  else if negb (created n) then (with_ingress n (ingressOf c n), k, None)
  else recreate c tag (with_ingress n (ingressOf c n)) k.

Lemma joinIngresses_cons tag n l failed c k : nodes c !! tag = Some n →
  joinIngresses ((tag, n) :: l) failed c k =
  let '(n', k', e) := joinNode tag n c k in
  joinIngresses l (joinError failed (inNode tag <$> e)) (set_node c tag n') k'.
Proof.
  intros Hn. unfold joinNode. cbn [joinIngresses].
  assert (joinError failed None = failed) as E by (by destruct failed). case_decide; [by rewrite set_node_same; simpl; rewrite ?E|].
  destruct (created n) eqn:Hcr; simpl; rewrite Hcr; simpl; [done|by rewrite E].
Qed.

Lemma joinNode_keeps tag n c k n' k' e : nodes c !! tag = Some n → joinNode tag n c k = (n', k', e) → (strict = true → e = None) →
  Keeps c k (set_node c tag n') k' True ∧ ingress n' = ingressOf c n ∧ ninfo n' = ninfo n.
Proof.
  intros Hn. unfold joinNode. case_decide as Hs; [intros [= <- <- <-] _; rewrite set_node_same by done; by split; [apply keeps_refl|]|].
  destruct (created n) eqn:Hcr; simpl; [by apply recreate_keeps|]. intros [= <- <- <-] _. split; [by apply keeps_ingress|done].
Qed.

Lemma joinIngresses_none l : ∀ failed c k c' k', listed l c → joinIngresses l failed c k = (c', k', None) → failed = None.
Proof.
  induction l as [|[tag n] l IH]; intros failed c k c' k' Hl; [by intros [= <- <- ->]|].
  rewrite joinIngresses_cons by (by apply (listed_next tag n l c n)). destruct (joinNode tag n c k) as [[n' k1] e1].
  intros Hj. apply IH in Hj; [by apply joinError_none in Hj as [-> _]|by eapply listed_next].
Qed.

Lemma joinIngresses_keeps l : ∀ failed c k c' k' e, listed l c → joinIngresses l failed c k = (c', k', e) → (strict = true → e = None) →
  Keeps c k c' k' True ∧ nodesOnly c c'.
Proof.
  induction l as [|[tag n] l IH]; intros failed c k c' k' e Hl; [intros [= <- <- <-] _; by split; [apply keeps_refl|]|].
  rewrite joinIngresses_cons by (by apply (listed_next tag n l c n)). destruct (joinNode tag n c k) as [[n' k1] e1] eqn:Ej.
  destruct (listed_next tag n l c n' Hl) as [Hn Hl']. intros Hj Hst.
  assert (strict = true → e1 = None) as Hst1.
  { intros Hs. rewrite (Hst Hs) in Hj. apply joinIngresses_none in Hj as [_ He]%joinError_none; [|done]. by destruct e1. }
  destruct (joinNode_keeps tag n c k n' k1 e1 Hn Ej Hst1) as (H1 & _). apply IH in Hj as [H2 Ho]; [|done..].
  split; [by eapply (held_trans _ _ _ _ _ _ _ _ True True)|by eapply nodesOnly_trans; [|exact Ho]].
Qed.

(** Afterwards each node has the ingress of its port. *)
Lemma joinNode_ingress tag n c k n' k' e : joinNode tag n c k = (n', k', e) → ingress n' = ingressOf c n ∧ ninfo n' = ninfo n.
Proof.
  unfold joinNode. case_decide as Hs; [by intros [= <- <- <-]|]. destruct (created n); simpl; [|by intros [= <- <- <-]].
  unfold recreate. destruct (send _ k) as [k1 a].
  assert (∀ k1, create c (with_created (with_ingress n (ingressOf c n)) false) k1 = (n', k', e) → ingress n' = ingressOf c n ∧ ninfo n' = ninfo n) as Hc.
  { intros k2 [_ Hsh]%create_shape. destruct e; [by rewrite Hsh|by destruct Hsh as [-> | ->]]. }
  destruct (errorOf a); [|apply Hc]. destruct (isStatus a 404); [apply Hc|by intros [= <- <- <-]].
Qed.

Lemma joinIngresses_ingress l : ∀ failed c k c' k' e, listed l c → joinIngresses l failed c k = (c', k', e) →
  (∀ t n, nodes c !! t = Some n → t ∈ l.*1 ∨ ingress n = ingressOf c n) → ∀ t n, nodes c' !! t = Some n → ingress n = ingressOf c' n.
Proof.
  induction l as [|[tag n] l IH]; intros failed c k c' k' e Hl.
  { intros [= <- <- <-] Hall t n Hn. destruct (Hall t n Hn) as [Ht|]; [by apply elem_of_nil in Ht|done]. }
  rewrite joinIngresses_cons by (by apply (listed_next tag n l c n)). destruct (joinNode tag n c k) as [[n' k1] e1] eqn:Ej.
  destruct (listed_next tag n l c n' Hl) as [Hn Hl']. apply joinNode_ingress in Ej as [Hi Hin]. intros Hj Hall. eapply IH; [exact Hl'|exact Hj|].
  intros t x. simpl. destruct (decide (t = tag)) as [->|Hne].
  - rewrite lookup_insert_eq. intros [= <-]. right. rewrite Hi. by apply ingressOf_same.
  - rewrite lookup_insert_ne by done. intros [Ht|Ht]%Hall; [left|by right]. rewrite fmap_cons in Ht. by apply elem_of_cons in Ht as [->|].
Qed.

End Network.
End AnixNetwork.

(** ** Restarts of the kernel, and histories of the core

    [replay] works on a record that says what the previous kernel ran.  Its
    parts read and write only their own fields, so each is followed on a record
    that agrees with the new kernel; at the end both are the same. *)

Module AnixRestart.
Import Limiter NetworkPlan AnxServer AnixInbound AnixPlan AnixCore AnixKernel AnixNetwork.

Section Restart.
Context {K : Type} `{!Kernel K, !KernelLaws K, !InboundCodec, !PlanSDK}.
Context (compiles : string → bool) (mainlandCIDRs : list string).

(** ** Each part on another record *)

Lemma set_links_id c : set_links c (links c) = c.
Proof. by destruct c. Qed.
Lemma set_forwards_id c : set_forwards c (forwards c) = c.
Proof. by destruct c. Qed.
Lemma set_rules_id c : set_rules c (rules c) = c.
Proof. by destruct c. Qed.

Lemma syncLinks_on g c wanted (k : K) : line g = line c → links g = links c →
  syncLinks wanted g k = let '(c', k', e) := syncLinks wanted c k in (set_links g (links c'), k', e).
Proof.
  intros Hln Hl. unfold syncLinks. rewrite Hln, Hl. destruct (line c); simpl; [|by rewrite <- Hl, set_links_id].
  set (remove := changed (links c) wanted). set (add := omap _ _).
  destruct (bool_decide (remove = [])).
  - destruct (bool_decide (add = [])); [by rewrite <- Hl, set_links_id|]. destruct (send _ k) as [k1 a].
    destruct (errorOf a); [by rewrite <- Hl, set_links_id|by rewrite Hl].
  - destruct (send (RemoveLinks remove) k) as [k1 a]. destruct (errorOf a); [by rewrite <- Hl, set_links_id|].
    destruct (bool_decide (add = [])); [done|]. simpl. destruct (send _ k1) as [k2 b]. by destruct (errorOf b).
Qed.

Lemma removeForwards_on tags : ∀ g c (k : K), forwards g = forwards c →
  removeForwards tags g k = let '(c', k', e) := removeForwards tags c k in (set_forwards g (forwards c'), k', e).
Proof.
  induction tags as [|tag tags IH]; intros g c k Hf; simpl; [by rewrite <- Hf, set_forwards_id|].
  destruct (send _ k) as [k1 a].
  assert (removeForwards tags (set_forwards g (delete tag (forwards g))) k1 =
    let '(c', k', e) := removeForwards tags (set_forwards c (delete tag (forwards c))) k1 in (set_forwards g (forwards c'), k', e)) as Hgo.
  { rewrite (IH _ (set_forwards c (delete tag (forwards c)))) by (simpl; by rewrite Hf). by destruct (removeForwards tags _ k1) as [[c' k'] e]. }
  destruct (errorOf a); [|done]. destruct (isStatus a 404); [done|by rewrite <- Hf, set_forwards_id].
Qed.

Lemma addForwards_on wanted tags : ∀ g c (k : K), forwards g = forwards c →
  addForwards wanted tags g k = let '(c', k', e) := addForwards wanted tags c k in (set_forwards g (forwards c'), k', e).
Proof.
  induction tags as [|tag tags IH]; intros g c k Hf; simpl; [by rewrite <- Hf, set_forwards_id|].
  destruct (send _ k) as [k1 a]. destruct (errorOf a); [by rewrite <- Hf, set_forwards_id|].
  rewrite (IH _ (set_forwards c (<[tag := default ∅ (wanted !! tag)]> (forwards c)))) by (simpl; by rewrite Hf).
  by destruct (addForwards wanted tags _ k1) as [[c' k'] e].
Qed.

Lemma syncForwards_on g c wanted (k : K) : forwards g = forwards c →
  syncForwards wanted g k = let '(c', k', e) := syncForwards wanted c k in (set_forwards g (forwards c'), k', e).
Proof.
  intros Hf. unfold syncForwards. rewrite Hf, (removeForwards_on _ g c k Hf).
  destruct (removeForwards _ c k) as [[c1 k1] [e|]]; [done|].
  rewrite (addForwards_on _ _ (set_forwards g (forwards c1)) c1 k1) by done. by destruct (addForwards _ _ c1 k1) as [[c' k'] e].
Qed.

Lemma syncRules_on g c (k : K) : client g = client c → nodes g = nodes c → rules g = rules c → blockMainland g = blockMainland c →
  syncRules compiles mainlandCIDRs g k = let '(c', k', e) := syncRules compiles mainlandCIDRs c k in (set_rules g (rules c'), k', e).
Proof.
  intros Hc Hn Hr Hb. unfold syncRules. assert (wantedRules compiles mainlandCIDRs g = wantedRules compiles mainlandCIDRs c) as ->.
  { unfold wantedRules, byTag. by rewrite Hc, Hn, Hb. }
  rewrite Hc, Hr. destruct (client c) as [f|]; [|by rewrite <- Hr, set_rules_id].
  case_decide; [by rewrite <- Hr, set_rules_id|]. destruct (_ && _); [done|]. destruct (negb _); [done|].
  destruct (send _ k) as [k1 a]. destruct (errorOf a); [by rewrite <- Hr, set_rules_id|done].
Qed.

(** ** The nodes *)

Context (known : string → Prop) `{!Tags known} (strict : bool).
Abbreviation Wf := (AnixKernel.Wf known).
Abbreviation Follows := (AnixKernel.Follows known strict).
Abbreviation Keeps := (AnixKernel.Keeps known strict).

(** A node as a restart leaves it: there unless it waits for users. *)
Definition restored (n n' : node) : Prop := n' = with_created n (negb (bool_decide (waits n))).

#[global] Instance waits_dec n : Decision (waits n).
Proof. unfold waits. apply _. Defined.

Lemma create_restored c f n (k k' : K) n' : client c = Some f → create c (with_created n false) k = (n', k', None) → restored n n'.
Proof.
  intros Hc. unfold create, restored. rewrite Hc. cbn [isShadowsocks ninfo with_created users].
  destruct (isShadowsocks (with_created n false) && bool_decide (users n = ∅)) eqn:Hw.
  - intros [= <- <-]. apply andb_true_iff in Hw as [H1 H2%bool_decide_eq_true]. by rewrite bool_decide_true.
  - destruct (send _ k) as [k1 a]. destruct (errorOf a); [done|]. intros [= <- <-]. rewrite bool_decide_false; [done|].
    intros [H1 H2]. unfold isShadowsocks in *. simpl in Hw. rewrite H1, bool_decide_true in Hw by done. done.
Qed.

(** The loop of [replay] over nodes that are not on the record [g]. *)
Lemma replayNodes_on l : ∀ failed c g (k : K) c' k' e f, client c = Some f → client g = Some f → NoDup l.*1 →
  (∀ t n, (t, n) ∈ l → nodes g !! t = None ∧ named known t n) →
  replayNodes l failed c k = (c', k', e) →
  ∃ g', Keeps g k g' k' True ∧ nodesOnly g g' ∧ nodesOnly c c' ∧ rules g' = rules g ∧
    (∀ t, nodes c' !! t = if decide (t ∈ l.*1) then nodes g' !! t else nodes c !! t) ∧
    (∀ t, t ∉ l.*1 → nodes g' !! t = nodes g !! t) ∧
    (e = None → failed = None ∧ ∀ t n, (t, n) ∈ l → ∃ n', nodes g' !! t = Some n' ∧ restored n n').
Proof.
  induction l as [|[tag n] l IH]; intros failed c g k c' k' e f Hc Hg Hnd Hl; cbn [replayNodes].
  { intros [= <- <- <-]. exists g. split_and!; [apply keeps_refl|done..| |done|].
    - intros t. by rewrite decide_False by apply not_elem_of_nil.
    - intros ->. split; [done|]. by intros t n ?%elem_of_nil. }
  rewrite fmap_cons in Hnd. apply NoDup_cons in Hnd as [Hnin Hnd].
  destruct (create c (with_created n false) k) as [[n' k1] e1] eqn:Ec. intros Hr.
  destruct (Hl tag n (list_elem_of_here _ _)) as [Hfree Hnamed].
  assert (create g (with_created n false) k = (n', k1, e1)) as Ecg by (unfold create in *; by rewrite Hg; rewrite Hc in Ec).
  destruct (create_shape _ _ _ _ _ _ Ecg) as [_ Hsh].
  assert (Keeps g k (set_node g tag n') k1 True) as H1.
  { apply (create_keeps known strict g k tag (with_created n false) n' k1 e1); try done.
    - intros _. by apply named_created.
    - intros x. by rewrite Hfree.
    - intros _. destruct e1; [rewrite Hsh; by apply named_created|destruct Hsh as [-> | ->]; by repeat apply named_created].
    - destruct e1; [by rewrite Hsh|done]. }
  apply (IH _ _ (set_node g tag n') _ _ _ _ f) in Hr as (g' & H2 & Hog & Hoc & Hru & Hcn & Hgn & Hres); [|done..|].
  2: { intros t x Hx. destruct (Hl t x (list_elem_of_further _ _ _ Hx)) as [Hf' Hn']. simpl. rewrite lookup_insert_ne; [done|].
       intros <-. apply Hnin. apply list_elem_of_fmap. by exists (tag, x). }
  exists g'. split_and!; [by eapply (held_trans _ _ _ _ _ _ _ _ True True)|by eapply nodesOnly_trans; [|exact Hog]|by eapply nodesOnly_trans; [|exact Hoc]|done|..].
  - intros t. rewrite Hcn, fmap_cons. cbn [fst]. rewrite decide_cons. destruct (decide (t ∈ l.*1)); [done|]. simpl.
    destruct (decide (t = tag)) as [->|]; [rewrite lookup_insert_eq, (Hgn tag) by done; simpl; by rewrite lookup_insert_eq|by rewrite lookup_insert_ne].
  - intros t Ht. rewrite fmap_cons in Ht. apply not_elem_of_cons in Ht as [Hne Ht]. rewrite (Hgn t Ht). simpl. by rewrite lookup_insert_ne.
  - intros He. destruct (Hres He) as [[Hfa Hfe]%joinError_none Hall]. split; [done|]. intros t x [[= -> ->]|Hx]%elem_of_cons; [|by apply Hall].
    exists n'. rewrite (Hgn tag Hnin). simpl. rewrite lookup_insert_eq. split; [done|]. destruct e1; [done|]. by eapply create_restored.
Qed.

(** ** The plan and the egress routes of the kernel *)

(** Requests other than those that put them leave them. *)
Definition Rest (k k' : K) : Prop :=
  lost k' = false → lost k = false ∧ hNetwork (held k') = hNetwork (held k) ∧ hEgress (held k') = hEgress (held k).

Lemma rest_refl k : Rest k k.
Proof. done. Qed.

Lemma rest_trans k1 k2 k3 : Rest k1 k2 → Rest k2 k3 → Rest k1 k3.
Proof. intros H1 H2 H3. destruct (H2 H3) as (H4 & E1 & E2). destruct (H1 H4) as (H5 & E3 & E4). split_and!; congruence. Qed.

Lemma send_rest r k k' a : send r k = (k', a) → match r with PutNetwork _ | PutEgress _ => False | _ => True end → Rest k k'.
Proof.
  intros Es Hr Hl. destruct (send_spec _ _ _ _ Es Hl) as (Hl' & Hd & Hf & _). split; [done|].
  destruct (errorOf a) as [x|] eqn:Ea; [by rewrite (Hf x)|]. rewrite (Hd eq_refl). by destruct r.
Qed.

(** The cases of a part of the code, down to its requests. *)
Ltac rests :=
  repeat match goal with
  | H : (_, _, _) = (_, _, _) |- _ => injection H; clear H; intros; subst
  | H : send ?r ?k = (_, _) |- _ => apply send_rest in H; [|exact I]
  | |- context [send ?r ?k] => destruct (send r k) eqn:?
  | |- context [match ?x with _ => _ end] => destruct x eqn:?
  end; eauto using rest_refl, rest_trans.

Lemma create_rest c n k : Rest k (create c n k).1.2.
Proof. unfold create. rests. Qed.

Lemma syncLinks_rest wanted c k : Rest k (syncLinks wanted c k).1.2.
Proof.
  unfold syncLinks. destruct (negb (line c)); [done|]. destruct (bool_decide (changed (links c) wanted = [])); [rests|].
  destruct (send (RemoveLinks _) k) as [k1 a] eqn:Es. apply send_rest in Es; [|done]. destruct (errorOf a); [done|].
  eapply rest_trans; [exact Es|]. rests.
Qed.

Lemma removeForwards_rest tags : ∀ c k, Rest k (removeForwards tags c k).1.2.
Proof. induction tags as [|tag tags IH]; intros c k; simpl; [done|]. rests. Qed.

Lemma addForwards_rest wanted tags : ∀ c k, Rest k (addForwards wanted tags c k).1.2.
Proof. induction tags as [|tag tags IH]; intros c k; simpl; [done|]. rests. Qed.

Lemma syncForwards_rest wanted c k : Rest k (syncForwards wanted c k).1.2.
Proof.
  unfold syncForwards. pose proof (removeForwards_rest (changed (forwards c) wanted) c k) as Hr.
  destruct (removeForwards _ c k) as [[c1 k1] [e|]]; [done|]. eapply rest_trans; [exact Hr|apply addForwards_rest].
Qed.

Lemma replayNodes_rest l : ∀ failed c k, Rest k (replayNodes l failed c k).1.2.
Proof.
  induction l as [|[tag n] l IH]; intros failed c k; simpl; [done|]. pose proof (create_rest c (with_created n false) k) as Hr.
  destruct (create _ _ k) as [[n' k1] e]. eapply rest_trans; [exact Hr|apply IH].
Qed.

Lemma syncRules_rest c k : Rest k (syncRules compiles mainlandCIDRs c k).1.2.
Proof. unfold syncRules. rests. Qed.

Lemma putQoS_rest f body c k : Rest k (putQoS f body c k).1.2.
Proof. unfold putQoS. rests. Qed.

Lemma recreate_rest c tag n k : Rest k (recreate c tag n k).1.2.
Proof.
  unfold recreate. destruct (send _ k) as [k1 a] eqn:Es. apply send_rest in Es; [|done].
  destruct (errorOf a); [destruct (isStatus a 404); [|done]|]; (eapply rest_trans; [exact Es|apply create_rest]).
Qed.

Lemma joinIngresses_rest l : ∀ failed c k, Rest k (joinIngresses l failed c k).1.2.
Proof.
  induction l as [|[tag n] l IH]; intros failed c k; simpl; [done|]. case_decide; [apply IH|]. destruct (negb _); [apply IH|].
  pose proof (recreate_rest c tag (with_ingress n (ingressOf c n)) k) as Hr. destruct (recreate _ _ _ k) as [[n' k1] e].
  eapply rest_trans; [exact Hr|apply IH].
Qed.

Lemma putNetwork_spec body k k' r : putNetwork body k = (k', r) → lost k' = false →
  lost k = false ∧ same (held k) (held k') ∧ hEgress (held k') = hEgress (held k) ∧
  hNetwork (held k') = match r with Ok _ => body | Err _ => hNetwork (held k) end.
Proof.
  unfold putNetwork. destruct (send _ k) as [k1 a] eqn:Es. intros E Hl. assert (k1 = k') as -> by (by destruct (errorOf a); injection E).
  destruct (send_spec _ _ _ _ Es Hl) as (Hl' & Hd & Hf & _). split; [done|].
  destruct (errorOf a) as [x|] eqn:Ea; injection E as <-; [by rewrite (Hf x)|by rewrite (Hd eq_refl)].
Qed.

Lemma putEgress_spec body k k' e : putEgress body k = (k', e) → lost k' = false →
  lost k = false ∧ same (held k) (held k') ∧ hNetwork (held k') = hNetwork (held k) ∧ (e = None → hEgress (held k') = body).
Proof.
  unfold putEgress. destruct (send _ k) as [k1 a] eqn:Es. intros [= <- <-] Hl.
  destruct (send_spec _ _ _ _ Es Hl) as (Hl' & Hd & Hf & Ha). split; [done|].
  destruct (errorOf a) as [x|] eqn:Ea; [|by rewrite (Hd eq_refl)]. rewrite (Hf x) by done. split_and!; [done..|].
  destruct Ha as [-> |(st & m & ->)]; [done|]. simpl. by destruct (st =? 404).
Qed.

(** ** Restarting *)

(** The record without what only the previous kernel ran. *)
Definition afresh (c : Core) : Core := set_qos (set_rules (set_forwards (set_links (set_nodes c ∅) ∅) ∅) None) None.

Lemma afresh_follows c f : Follows f (afresh c) fresh ∧ Exact (afresh c) fresh.
Proof.
  split; [split; simpl; [split; intros ??; simpl; by rewrite lookup_empty|done..]|]. intros w. simpl. rewrite lookup_empty. by intros [].
Qed.

Lemma afresh_wf c : Wf c → Wf (afresh c).
Proof. intros [H1 H2 H3 H4 H5]. split; simpl; try done; apply map_Forall_empty. Qed.

(** Two records that say the same of the kernel, but for the priorities. *)
Record agree (g c : Core) : Prop := {
  agree_nodes : nodes g = nodes c; agree_forwards : forwards g = forwards c; agree_links : links g = links c; agree_line : line g = line c;
  agree_client : client g = client c; agree_rules : rules g = rules c; agree_wanted : wantedForwards g = wantedForwards c;
  agree_wantedLinks : wantedLinks g = wantedLinks c
}.

Lemma agree_wf g c : agree g c → Wf g → Wf c.
Proof.
  intros [E1 E2 E3 E4 E5 E6 E7 E8] [H1 H2 H3 H4 H5]. split; [by rewrite <- E1|by rewrite <- E2|by rewrite <- E7|by rewrite <- E3|by rewrite <- E8].
Qed.

Lemma agree_follows g c f h : agree g c → (strict = true → default offQoS (qos g) = default offQoS (qos c)) → Follows f g h → Follows f c h.
Proof.
  intros [E1 E2 E3 E4 E5 E6 E7 E8] Hq [H1 H2 H3 H4].
  split; [by rewrite <- E1, <- E2|by rewrite <- E3, <- E4|by rewrite <- E6|intros Hs; rewrite <- (Hq Hs); by apply H4].
Qed.

Lemma agree_exact g c h : agree g c → Exact g h → Exact c h.
Proof. intros [E1 E2 _ _ _ _ _ _]. unfold Exact. by rewrite E1, E2. Qed.

(** *** The parts of [replay] *)

Definition planAgain (c : Core) (k : K) : K * option string :=
  match network c with
  | Some body => let '(k, r) := putNetwork body k in (k, match r with Ok _ => None | Err e => Some e end)
  | None => (k, None)
  end.

Definition egressAgain (c : Core) (k : K) : K * option string :=
  match egress c with Some body => putEgress body k | None => (k, None) end.

Definition qosAgain (c : Core) (k : K) : Core * K * option string :=
  match qos c, client c with
  | Some body, Some f => if String.eqb body offQoS then (c, k, None) else putQoS f body c k
  | _, _ => (c, k, None)
  end.

Lemma joinError_right a : joinError a None = a.
Proof. by destruct a. Qed.

Lemma replay_parts c k : replay compiles mainlandCIDRs c k =
  let '(c1, k1, e1) := syncLinks (wantedLinks c) (set_links c ∅) k in
  let '(k2, e2) := planAgain c1 k1 in
  let '(c3, k3, e3) := syncForwards (wantedForwards c1) (set_forwards c1 ∅) k2 in
  let '(c4, k4, e4) := replayNodes (map_to_list (nodes c3)) (joinError (joinError e1 e2) e3) c3 k3 in
  let '(k5, e5) := egressAgain c4 k4 in
  let '(c6, k6, e6) := syncRules compiles mainlandCIDRs (set_rules c4 None) k5 in
  let '(c7, k7, e7) := qosAgain c6 k6 in (c7, k7, joinError (joinError (joinError e4 e5) e6) e7).
Proof.
  unfold replay, planAgain, egressAgain, qosAgain. destruct (syncLinks _ _ k) as [[c1 k1] e1].
  assert (∀ (x : K * option string), (let '(k2, e2) := x in (k2, joinError e1 e2)) = (x.1, joinError e1 x.2)) as Ex by (by intros []).
  destruct (network c1) as [body|]; [destruct (putNetwork body k1) as [k2 r]|rewrite joinError_right];
    (destruct (syncForwards _ _ _) as [[c3 k3] e3]; destruct (replayNodes _ _ _ _) as [[c4 k4] e4];
     destruct (egress c4) as [eg|]; [destruct (putEgress eg k4) as [k5 e5]|rewrite joinError_right];
     (destruct (syncRules _ _ _ _) as [[c6 k6] e6]; destruct (qos c6) as [q|]; [|by rewrite joinError_right];
      destruct (client c6) as [f|]; [|by rewrite joinError_right]; destruct (String.eqb q offQoS); [by rewrite joinError_right|];
      by destruct (putQoS f q c6 k6) as [[c7 k7] e7])).
Qed.

Lemma planAgain_spec c k k' e : planAgain c k = (k', e) → lost k' = false →
  lost k = false ∧ same (held k) (held k') ∧ hEgress (held k') = hEgress (held k) ∧
  (e = None → hNetwork (held k') = default (hNetwork (held k)) (network c)).
Proof.
  unfold planAgain. destruct (network c) as [body|]; [|by intros [= <- <-]]. destruct (putNetwork body k) as [k1 r] eqn:Ep.
  intros [= <- <-] Hl. destruct (putNetwork_spec _ _ _ _ Ep Hl) as (H1 & H2 & H3 & H4). split_and!; [done..|]. by destruct r.
Qed.

Lemma egressAgain_spec c k k' e : egressAgain c k = (k', e) → lost k' = false →
  lost k = false ∧ same (held k) (held k') ∧ hNetwork (held k') = hNetwork (held k) ∧
  (e = None → hEgress (held k') = default (hEgress (held k)) (egress c)).
Proof.
  unfold egressAgain. destruct (egress c) as [body|]; [|by intros [= <- <-]]. intros Ep Hl. by apply (putEgress_spec _ _ _ _ Ep Hl).
Qed.

(** The priorities alone change; without an error those of the record run. *)
Lemma qosAgain_on g c k c' k' e P f : client c = Some f → client g = Some f → qos g = None → qosAgain c k = (c', k', e) →
  ∃ q, Keeps g k (set_qos g q) k' P ∧ c' = c ∧ Rest k k' ∧ (e = None → default offQoS q = default offQoS (qos c)).
Proof.
  intros Hc Hg Hn. unfold qosAgain. assert (set_qos g None = g) as Eg by (rewrite <- Hn; by destruct g).
  destruct (qos c) as [body|] eqn:Hq; [|intros [= <- <- <-]; exists None; rewrite Eg; split_and!; [apply keeps_refl|done..]].
  rewrite Hc. destruct (String.eqb_spec body offQoS) as [->|].
  { intros [= <- <- <-]. exists None. rewrite Eg. split_and!; [apply keeps_refl|done..]. }
  intros Ep. assert (set_qos c (Some body) = c) as Ecq by (rewrite <- Hq; by destruct c). pose proof (putQoS_rest f body c k) as Hr. rewrite Ep in Hr.
  destruct (putQoS f body g k) as [[g' k2] e2] eqn:Epg. pose proof (putQoS_keeps known strict f body g k g' k2 e2 P Hg Epg) as Hk.
  unfold putQoS in *. destruct (negb (qosFeature f)); [|destruct (send _ k) as [k3 a]; destruct (errorOf a)];
    injection Ep as <- <- <-; injection Epg as <- <- <-; [exists (Some body)|exists None; rewrite Eg|exists (Some body)]; rewrite ?Ecq; by split_and!.
Qed.

(** ** The links, the plan and the forwards *)

Lemma replay_network c k c1 k1 e1 k2 e2 c3 k3 e3 :
  syncLinks (wantedLinks c) (set_links c ∅) k = (c1, k1, e1) → planAgain c1 k1 = (k2, e2) →
  syncForwards (wantedForwards c1) (set_forwards c1 ∅) k2 = (c3, k3, e3) → Wf c →
  ∃ g, Keeps (afresh c) k g k3 True ∧ nodes g = ∅ ∧ rules g = None ∧ qos g = None ∧ forwards g = forwards c3 ∧ links g = links c3 ∧
    (line g = line c ∧ client g = client c ∧ blockMainland g = blockMainland c ∧ wantedForwards g = wantedForwards c ∧ wantedLinks g = wantedLinks c) ∧
    (nodes c3 = nodes c ∧ line c3 = line c ∧ client c3 = client c ∧ blockMainland c3 = blockMainland c ∧ wantedForwards c3 = wantedForwards c ∧
     wantedLinks c3 = wantedLinks c ∧ egress c3 = egress c ∧ qos c3 = qos c).
Proof.
  intros E1 E2 E3 Hw. set (g1 := set_links (afresh c) (links c1)).
  assert (syncLinks (wantedLinks c) (afresh c) k = (g1, k1, e1)) as G1 by (rewrite (syncLinks_on _ (set_links c ∅)) by done; by rewrite E1).
  apply (syncLinks_keeps known strict _ _ _ _ _ _ True) in G1 as [K1 _]. apply (syncLinks_keeps known strict _ _ _ _ _ _ True) in E1 as [_ Ho1].
  assert (Keeps g1 k1 g1 k2 True) as K2.
  { apply keeps_record; try done; [|by right..]. intros Hl. by destruct (planAgain_spec _ _ _ _ E2 Hl) as (? & ? & _). }
  destruct Ho1 as (O1 & O2 & O3 & O4 & O5 & O6 & O7 & O8 & O9 & O10 & O11). simpl in *.
  set (g3 := set_forwards g1 (forwards c3)).
  assert (syncForwards (wantedForwards c1) g1 k2 = (g3, k3, e3)) as G3 by (rewrite (syncForwards_on _ (set_forwards c1 ∅)) by done; by rewrite E3).
  assert (map_Forall forwardOf (wantedForwards c1)) as Hwf by (rewrite O9; apply Hw).
  apply (syncForwards_keeps known strict) in G3 as (K3 & _); [|done]. apply (syncForwards_keeps known strict) in E3 as (_ & F3 & _); [|done].
  destruct F3 as (F1 & F2 & F3 & F4 & F5 & F6 & F7 & F8 & F9 & F10 & F11). simpl in *.
  exists g3. split; [by eapply (held_trans _ _ _ _ _ _ _ _ True True); [eapply (held_trans _ _ _ _ _ _ _ _ True True); [exact K1|exact K2|done]|exact K3|]|].
  split_and!; simpl; try done; congruence.
Qed.

(** ** All of it *)

(** The run of [replay], with the record [g4] of the new kernel up to the nodes. *)
Ltac replay_run Hc Hw Hr :=
  rewrite replay_parts in Hr; destruct (syncLinks _ _ _) as [[c1 k1] e1] eqn:E1;
  destruct (planAgain c1 k1) as [k2 e2] eqn:E2; destruct (syncForwards _ _ _) as [[c3 k3] e3] eqn:E3;
  destruct (replay_network _ _ _ _ _ _ _ _ _ _ E1 E2 E3 Hw) as
    (g & K3 & G1 & G2 & G3 & G4 & G5 & (G6 & G7 & G8 & G9 & G10) & C1 & C2 & C3 & C4 & C5 & C6 & C7 & C8);
  destruct (replayNodes _ _ _ _) as [[c4 k4] e4] eqn:E4; destruct (egressAgain c4 k4) as [k5 e5] eqn:E5;
  destruct (syncRules _ _ _ k5) as [[c6 k6] e6] eqn:E6; destruct (qosAgain c6 k6) as [[c7 k7] e7] eqn:E7; injection Hr as <- <- He;
  match type of Hc with _ = Some ?f =>
    destruct (replayNodes_on _ _ c3 g k3 c4 k4 e4 f ltac:(congruence) ltac:(congruence) (NoDup_fst_map_to_list _)
      ltac:(intros t n Hn%elem_of_map_to_list; rewrite G1, lookup_empty; split; [done|apply (wf_nodes _ _ Hw); by rewrite <- C1]) E4) as
      (g4 & K4 & (N1 & N2 & N3 & N4 & N5 & N6 & N7 & N8 & N9 & N10 & N11) & (M1 & M2 & M3 & M4 & M5 & M6 & M7 & M8 & M9 & M10 & M11) & R4 & Hcn & Hgn & Hres)
  end.

Lemma replay_follows c k c' k' e f : client c = Some f → Wf c → replay compiles mainlandCIDRs c k = (c', k', e) → (strict = true → e = None) →
  ∃ g, Keeps (afresh c) k g k' True ∧ agree g c' ∧ (strict = true → default offQoS (qos g) = default offQoS (qos c')) ∧
    client c' = client c ∧ line c' = line c ∧ qos c' = qos c.
Proof.
  intros Hc Hw Hr Hst. replay_run Hc Hw Hr.
  assert (nodes g4 = nodes c4) as En.
  { apply map_eq. intros t. rewrite Hcn. case_decide as Ht; [done|]. rewrite (Hgn t Ht), G1, lookup_empty. symmetry.
    apply eq_None_not_Some. intros [n Hn]. apply Ht. apply list_elem_of_fmap. exists (t, n). split; [done|]. by apply elem_of_map_to_list. }
  assert (Keeps g4 k4 g4 k5 True) as K5.
  { apply keeps_record; try done; [|by right..]. intros Hl. by destruct (egressAgain_spec _ _ _ _ E5 Hl) as (? & ? & _). }
  set (g6 := set_rules g4 (rules c6)).
  assert (syncRules compiles mainlandCIDRs g4 k5 = (g6, k6, e6)) as G6'.
  { rewrite (syncRules_on g4 (set_rules c4 None)); [by rewrite E6|simpl; congruence..]. }
  apply (syncRules_keeps _ _ known strict _ _ _ _ _ True) in G6' as [K6 _].
  assert (c6 = set_rules c4 (rules c6)) as Ec6.
  { pose proof (syncRules_on (set_rules c4 None) (set_rules c4 None) k5 eq_refl eq_refl eq_refl eq_refl) as Hx. rewrite E6 in Hx. by injection Hx. }
  destruct (qosAgain_on g6 c6 k6 c7 k7 e7 True f) as (q & K7 & -> & _ & Hq); [rewrite Ec6; simpl; congruence|simpl; congruence..|done|].
  exists (set_qos g6 q). split.
  { by do 4 (eapply (held_trans _ _ _ _ _ _ _ _ True True); [|eassumption|done]). }
  rewrite Ec6. split; [split; simpl; try congruence|]. split_and!; simpl; try congruence.
  intros Hs. rewrite Ec6 in Hq. apply Hq. by apply (joinError_none (joinError (joinError e4 e5) e6) e7); rewrite He; apply Hst.
Qed.

Lemma syncRules_exact c k c' k' f : client c = Some f → syncRules compiles mainlandCIDRs c k = (c', k', None) →
  c' = set_rules c (Some (wantedRules compiles mainlandCIDRs c)).
Proof.
  intros Hc. unfold syncRules. rewrite Hc. case_decide as Hs; [intros [= <- <-]; rewrite <- Hs; by destruct c|].
  destruct (_ && _); [by intros [= <- <-]|]. destruct (negb _); [by intros [= <- <-]|].
  destruct (send _ k) as [k1 a]. by destruct (errorOf a); intros [= <- <-].
Qed.

(** The nodes of a core whose kernel was given them all. *)
Definition restoredNode (n : node) : node := with_created n (negb (bool_decide (waits n))).

(** What the record says after a [replay] without errors. *)
Lemma replay_record c k c' k' f : client c = Some f → Wf c → replay compiles mainlandCIDRs c k = (c', k', None) →
  nodes c' = restoredNode <$> nodes c ∧ forwards c' = wantedForwards c ∧ (if line c then links c' = wantedLinks c else wantedLinks c = ∅) ∧
  rules c' = Some (wantedRules compiles mainlandCIDRs c').
Proof.
  intros Hc Hw Hr. replay_run Hc Hw Hr.
  apply joinError_none in He as [[[-> ->]%joinError_none ->]%joinError_none ->].
  destruct (Hres eq_refl) as [[[-> ->]%joinError_none ->]%joinError_none Hall].
  apply (syncRules_exact _ _ _ _ f) in E6; [|simpl; congruence].
  assert (client c6 = Some f) as Hc6 by (rewrite E6; simpl; congruence).
  destruct (qosAgain_on g c6 k6 c7 k7 None True f Hc6 ltac:(congruence) G3 E7) as (q & _ & -> & _).
  assert (links c4 = links c1 ∧ wantedForwards c1 = wantedForwards c) as [El Ew].
  { apply (syncForwards_keeps known strict) in E3 as (_ & (_ & F2 & _) & _).
    - apply (syncLinks_keeps known strict _ _ _ _ _ _ True) in E1 as [_ (_ & _ & _ & _ & _ & _ & _ & _ & O9 & _)]. simpl in *. split; congruence.
    - apply (syncLinks_keeps known strict _ _ _ _ _ _ True) in E1 as [_ (_ & _ & _ & _ & _ & _ & _ & _ & O9 & _)]. simpl in O9. rewrite O9. apply Hw. }
  rewrite E6. simpl. split_and!.
  - apply map_eq. intros t. rewrite Hcn, lookup_fmap, C1. case_decide as Ht.
    + apply list_elem_of_fmap in Ht as ([t' n] & -> & Hn). destruct (Hall t' n) as (n' & Hn' & Hre); [by rewrite C1|]. simpl. rewrite Hn', Hre.
      apply elem_of_map_to_list in Hn. by rewrite Hn.
    + destruct (nodes c !! t) as [n|] eqn:En; [|done]. destruct Ht. apply list_elem_of_fmap. exists (t, n). split; [done|]. by apply elem_of_map_to_list.
  - apply (syncForwards_keeps known strict) in E3 as (_ & _ & F3); [|rewrite Ew; apply Hw]. rewrite M1, (F3 eq_refl). done.
  - destruct (line c) eqn:Hln.
    + rewrite El. apply (syncLinks_exact _ _ _ _ _ (wf_wantedLinks _ _ Hw)) in E1; done.
    + unfold syncLinks in E1. simpl in E1. rewrite Hln in E1. simpl in E1. injection E1 as _ _ E1. by case_decide.
  - f_equal.
Qed.

(** The plan and the egress routes. *)
Lemma replay_kernel c k c' k' e f : client c = Some f → Wf c → replay compiles mainlandCIDRs c k = (c', k', e) → lost k' = false →
  lost k = false ∧ (e = None → hNetwork (held k') = default (hNetwork (held k)) (network c) ∧ hEgress (held k') = default (hEgress (held k)) (egress c)).
Proof.
  intros Hc Hw Hr Hl. replay_run Hc Hw Hr. clear R4.
  pose proof (replayNodes_rest (map_to_list (nodes c3)) (joinError (joinError e1 e2) e3) c3 k3) as R4. rewrite E4 in R4.
  pose proof (syncForwards_rest (wantedForwards c1) (set_forwards c1 ∅) k2) as R3. rewrite E3 in R3.
  pose proof (syncLinks_rest (wantedLinks c) (set_links c ∅) k) as R1. rewrite E1 in R1.
  pose proof (syncRules_rest (set_rules c4 None) k5) as R6. rewrite E6 in R6. simpl in *.
  assert (client c6 = Some f) as Hc6.
  { pose proof (syncRules_on (set_rules c4 None) (set_rules c4 None) k5 eq_refl eq_refl eq_refl eq_refl) as Hx. rewrite E6 in Hx.
    injection Hx as ->. simpl. congruence. }
  destruct (qosAgain_on g c6 k6 c7 k7 e7 True f Hc6 ltac:(congruence) G3 E7) as (q & _ & -> & R7 & _).
  clear N1 N2 N3 N4 N5 N6 N7.
  destruct (R7 Hl) as (L6 & N7 & Eg7). destruct (R6 L6) as (L5 & N6 & Eg6). destruct (egressAgain_spec _ _ _ _ E5 L5) as (L4 & _ & N5 & Eg5).
  destruct (R4 L4) as (L3 & N4 & Eg4). destruct (R3 L3) as (L2 & N3 & Eg3). destruct (planAgain_spec _ _ _ _ E2 L2) as (L1 & _ & Eg2 & N2).
  destruct (R1 L1) as (L0 & N1 & Eg1). split; [done|]. intros ->.
  apply joinError_none in He as [[[-> ->]%joinError_none ->]%joinError_none ->]. destruct (Hres eq_refl) as [[[-> ->]%joinError_none ->]%joinError_none _].
  apply (syncLinks_keeps known strict _ _ _ _ _ _ True) in E1 as [_ (_ & _ & _ & _ & _ & O6 & _)]. simpl in O6.
  split; [rewrite N7, N6, N5, N4, N3, (N2 eq_refl), N1; congruence|]. rewrite Eg7, Eg6, (Eg5 eq_refl), Eg4, Eg3, Eg2, Eg1. congruence.
Qed.
End Restart.
End AnixRestart.
