(* ===== verification/AnixHistory.v ===== *)
(** * Histories of the anixcore core

    [reach strict exact c k]: the core and its kernel after any operations,
    restarts and exits of the kernel.  [exact] is lost by a removal of a node that
    failed and regained by a restart; [strict] histories are those whose plans
    and restarts had no errors.  As long as every request was answered, the
    kernel runs the record; a restart gives it everything back; a plan that was
    applied is the one that runs.  A restart is one step: the code starts the
    kernel and gives it the record under two holds of its lock, and what an
    operation between them does is in [AnixDemo].
    Module [AnixDemo]: the core on a small kernel. *)

From S2P Require Import Prelude GoStrings GoNet Json Limiter NetworkPlan AnxServer NodeController AnixInbound AnixUsers AnixPlan AnixCore.
From S2P Require Import AnixKernel AnixNetwork.
From Stdlib Require Import Ascii String.

Module AnixHistory.
Import Limiter NetworkPlan AnxServer AnixInbound AnixPlan AnixCore AnixKernel AnixNetwork AnixRestart.

(** ** What a plan asks for *)

Lemma collect_all {A} (tag : A → string) make (P : string → Inbound → Prop) l m :
  (∀ x i, make x = Ok i → P (tag x) i) → collect tag make l = Ok m → map_Forall P m.
Proof.
  intros Hp. unfold collect. assert (∀ acc, (∀ m0, acc = Ok m0 → map_Forall P m0) →
    foldl (λ acc x, let? m := acc in let? i := make x in Ok (<[tag x := i]> m)) acc l = Ok m → map_Forall P m) as Hgo.
  { induction l as [|x l IH]; intros acc Hacc; simpl; [apply Hacc|]. apply IH. intros m0.
    destruct acc as [m1|]; simpl; [|done]. destruct (make x) as [i|] eqn:Em; simpl; [|done]. intros [= <-].
    apply map_Forall_insert_2; [by apply Hp|by apply Hacc]. }
  apply Hgo. intros m0 [= <-]. apply map_Forall_empty.
Qed.

Lemma forwardPolicy_tag p i : forwardPolicy p i !! "tag" = i !! "tag".
Proof. unfold forwardPolicy. destruct p as [p|]; [|done]. rewrite !AnixUsers.when_other by done. destruct (PBreaker p) as [[]|], (PHealth p); rewrite ?lookup_insert_ne by done; by rewrite AnixUsers.when_other by done. Qed.

Lemma withTargets_tag ts i : withTargets ts i !! "tag" = i !! "tag".
Proof. unfold withTargets. destruct ts as [|t [|]]; [| destruct (_ && _)|]; by rewrite !lookup_insert_ne by done. Qed.

Lemma forwardInbounds_tags p m : forwardInbounds p = Ok m → map_Forall forwardOf m.
Proof.
  apply collect_all. intros f i. unfold forwardInbound. destruct (outbound _ _ _ _ _) as [out|]; [|done]. simpl. intros [= <-]. split.
  - unfold forwardTag. by rewrite has_prefix_app.
  - unfold tagOf. by rewrite forwardPolicy_tag, withTargets_tag, lookup_insert_ne, lookup_insert_eq by done.
Qed.

Lemma reverseProxyInbounds_tags p m : reverseProxyInbounds p = Ok m → map_Forall forwardOf m.
Proof.
  apply collect_all. intros f i. unfold reverseProxyInbound. destruct (outbound _ _ _ _ _) as [out|]; [|done]. simpl. intros [= <-]. split.
  - unfold forwardTag. rewrite (has_prefix_app reverseProxyTagPrefix). apply orb_true_r.
  - unfold tagOf. destruct (String.eqb _ _); by rewrite !lookup_insert_ne, lookup_insert_eq by done.
Qed.

Lemma dialLinks_keyed `{!PlanSDK} p ls r : dialLinks p = Ok (ls, r) → map_Forall (λ id l, LkId l = id) ls.
Proof.
  unfold dialLinks. generalize (Relayed (relayPlan p)) as relayed. intros relayed.
  assert (∀ l acc, (∀ a, acc = Ok a → map_Forall (λ id l, LkId l = id) a.1) →
    ∀ a, foldl (dialStep relayed) acc l = Ok a → map_Forall (λ id l, LkId l = id) a.1) as Hgo.
  { induction l as [|t l IH]; intros acc Hacc; simpl; [done|]. apply IH. intros a. unfold dialStep. destruct acc as [a0|]; simpl; [|done].
    destruct (_ || _); [intros [= <-]; by apply Hacc|]. destruct (DialLink t) as [link|]; simpl; [|done].
    destruct (addReverse _ _ _); simpl; [|done]. intros [= <-]. simpl. apply map_Forall_insert_2; [done|by apply Hacc]. }
  intros Hd. apply (Hgo (PlanTransports p) (Ok (∅, noReverse))) in Hd; [done|]. intros a [= <-]. apply map_Forall_empty.
Qed.

Section Histories.
Context {K : Type} `{!Kernel K, !KernelLaws K, !InboundCodec, !PlanSDK}.
Context (compiles : string → bool) (mainlandCIDRs : list string).
Context (known : string → Prop) `{!Tags known} (strict : bool).
Abbreviation Wf := (AnixKernel.Wf known).
Abbreviation Follows := (AnixKernel.Follows known strict).
Abbreviation Keeps := (AnixKernel.Keeps known strict).
Abbreviation ApplyNetwork := (AnixCore.ApplyNetwork compiles mainlandCIDRs).
Abbreviation replay := (AnixCore.replay compiles mainlandCIDRs).
Abbreviation restart := (AnixCore.restart compiles mainlandCIDRs).

(** ** The state *)

Definition State (exact : Prop) (c : Core) (k : K) : Prop :=
  Wf c ∧ (lost k = false → ∃ f, client c = Some f ∧ Follows f c (held k) ∧ (exact → Exact c (held k))).

Lemma keeps_state P Q c k c' k' : Keeps c k c' k' Q → State P c k → State (P ∧ Q) c' k'.
Proof.
  intros Hk [Hw Hs]. split; [by apply Hk|]. intros Hl. destruct (Hs (keeps_lost _ _ _ _ _ _ _ Hk Hl)) as (f & Hc & Hf & He).
  exists f. rewrite (keeps_client _ _ _ _ _ _ _ Hk). split_and!; [done|by eapply keeps_follows|]. intros [HP HQ]. eapply keeps_exact; eauto.
Qed.

Lemma state_weaken (P Q : Prop) c k : State P c k → (Q → P) → State Q c k.
Proof. intros [Hw Hs] HPQ. split; [done|]. intros Hl. destruct (Hs Hl) as (f & Hc & Hf & He). exists f. auto. Qed.

Lemma state_lost P c k : Wf c → lost k = true → State P c k.
Proof. intros Hw Hl. split; [done|]. by rewrite Hl. Qed.

(** A kernel that was started and given the record. *)
Lemma replay_state c k c' k' e : is_Some (client c) → held k = fresh → Wf c → replay c k = (c', k', e) → (strict = true → e = None) →
  State True c' k'.
Proof.
  intros [f Hc] Hk Hw Hr Hst. destruct (replay_follows _ _ known strict _ _ _ _ _ f Hc Hw Hr Hst) as (g & Hkeep & Hag & Hq & Hcl & _).
  pose proof (afresh_wf known c Hw) as Hwa. split; [eapply agree_wf; [exact Hag|by apply Hkeep]|]. intros Hl. exists f. split; [congruence|].
  destruct (afresh_follows known strict c f) as [Hfa Hea]. rewrite <- Hk in Hfa, Hea. split.
  - eapply agree_follows; [exact Hag|exact Hq|]. by apply (keeps_follows _ _ _ _ _ _ _ Hkeep).
  - intros _. eapply agree_exact; [exact Hag|]. by apply (keeps_exact _ _ _ _ _ _ _ Hkeep f).
Qed.

Lemma launchCore_spec c k c' k' e : launchCore c k = (c', k', e) → Wf c →
  Wf c' ∧ match e with
          | None => is_Some (client c') ∧ held k' = fresh ∧ ∃ f, c' = set_started c f true
          | Some _ => lost k' = true
          end.
Proof.
  unfold launchCore. destruct (launch (reverse c) k) as [k1 x] eqn:El. intros E Hw.
  assert (Wf c') as Hw'.
  { destruct Hw as [H1 H2 H3 H4 H5]. destruct x; injection E as <- _ _; split; simpl; try done. destruct (anxLine c); [apply map_Forall_empty|done]. }
  split; [done|]. pose proof (not_launched (reverse c) k) as Hn. pose proof (launched (reverse c) k) as Hu. rewrite El in Hn, Hu. simpl in *.
  destruct x; injection E as <- <- <-; [|by apply Hn..]. destruct (Hu f eq_refl) as [Hh _]. split_and!; [by eexists|done|by eexists].
Qed.

Lemma restart_state c k c' k' up e : Wf c → restart c k = (c', k', up, e) → (strict = true → up = true → e = None) → State True c' k'.
Proof.
  intros Hw. unfold AnixCore.restart. destruct (launchCore c k) as [[c1 k1] e1] eqn:El. destruct (launchCore_spec _ _ _ _ _ El Hw) as [Hw1 Hcase].
  destruct e1 as [x|]; [intros [= <- <- <- <-] _; by apply state_lost|]. destruct Hcase as (Hc & Hh & _).
  destruct (replay c1 k1) as [[c2 k2] e2] eqn:Er. intros [= <- <- <- <-] Hst. apply (replay_state _ _ _ _ _ Hc Hh Hw1 Er). auto.
Qed.

(** What is logged when a listener is opened. *)
Definition logged (listen : reverseListener) (c : Core) (k : K) : option string :=
  if negb (process c) || negb (anxLine c) || bool_decide (reverse c = listen) then None
  else match launchCore (set_reverse c listen) k with
       | (_, _, Some _) => None
       | (c, k, None) => (replay c k).2
       end.

Lemma reopen_state P listen c k c' k' e : State P c k → reopen compiles mainlandCIDRs listen c k = (c', k', e) →
  (strict = true → logged listen c k = None) → State P c' k'.
Proof.
  intros Hs. unfold reopen, logged. destruct (negb (process c) || _ || _); [by intros [= <- <- <-]|].
  destruct (launchCore _ k) as [[c1 k1] e1] eqn:El. apply launchCore_spec in El as [Hw1 Hcase]; [|by destruct Hs as [[]]; split].
  destruct e1 as [x|]; [intros [= <- <- <-] _; by apply state_lost|]. destruct Hcase as (Hc & Hh & _).
  destruct (replay c1 k1) as [[c2 k2] e2] eqn:Er. intros [= <- <- <-] Hst. by eapply state_weaken; [eapply replay_state|].
Qed.

(** ** Plans *)

(** The forwards of a plan, for a kernel with these features. *)
Definition planInbounds (f : Features) (w : Wanted) : gmap string Inbound :=
  if reverseProxy f then WProxies w ∪ WForwards w else WForwards w.

Record wantedWf (w : Wanted) : Prop := {
  wanted_links : map_Forall (λ id l, LkId l = id) (WLinks w);
  wanted_forwards : map_Forall forwardOf (WForwards w);
  wanted_proxies : map_Forall forwardOf (WProxies w)
}.

Lemma planInbounds_tags f w : wantedWf w → map_Forall forwardOf (planInbounds f w).
Proof.
  intros [_ H1 H2]. unfold planInbounds. destruct (reverseProxy f); [|done]. intros t i Hi. apply lookup_union_Some_raw in Hi as [Hi|[_ Hi]]; eauto.
Qed.

(** The plan that runs. *)
Record PlanRuns (p : CorePlan) (w : Wanted) (f : Features) (c : Core) : Prop := {
  applied_links : if line c then links c = WLinks w else WLinks w = ∅;
  applied_forwards : forwards c = planInbounds f w;
  applied_wanted : wantedForwards c = planInbounds f w ∧ wantedLinks c = WLinks w;
  applied_ingresses : ingresses c = userIngresses p;
  applied_nodes : ∀ t n, nodes c !! t = Some n → ingress n = ingressOf c n
}.

Lemma syncLinks_line wanted c k c' k' : syncLinks wanted c k = (c', k', None) → line c = false → wanted = ∅ ∧ c' = c.
Proof. unfold syncLinks. intros E Hl. rewrite Hl in E. simpl in E. injection E as <- _ E. by case_decide. Qed.

Ltac keeps_by lem := eapply (held_trans _ _ _ _ _ _ _ _ True True); [exact lem| |done].

Lemma runNetwork_keeps p w c k c' k' r e f : wantedWf w → client c = Some f → runNetwork p w c k = (c', k', r, e) → (strict = true → e = None) →
  Keeps c k c' k' True ∧ (e = None → PlanRuns p w f c' ∧ (lost k' = false → hNetwork (held k') = WBody w)).
Proof.
  intros Hww Hc. unfold runNetwork. rewrite Hc. fold (planInbounds f w). set (c0 := set_unsupported c _).
  assert (Keeps c k c0 k True) as K0 by (apply keeps_record; try done; by right).
  destruct (dropMovedLinks _ c0 k) as [[c1 k1] e1] eqn:E1. apply (dropMovedLinks_keeps known strict _ _ _ _ _ _ True) in E1 as [K1 O1].
  destruct e1; [intros [= <- <- <- <-] _; split; [by keeps_by K0|done]|].
  destruct (syncLinks _ c1 k1) as [[c2 k2] e2] eqn:E2. pose proof (syncLinks_keeps known strict _ _ _ _ _ _ True E2) as [K2 O2].
  destruct e2; [intros [= <- <- <- <-] _; split; [keeps_by K0; by keeps_by K1|done]|].
  set (c3 := set_wantedLinks c2 _ _). destruct (putNetwork _ k2) as [k3 r3] eqn:E3.
  assert (Keeps c k c3 k3 True) as K3.
  { keeps_by K0. keeps_by K1. keeps_by K2. apply keeps_record; try done; [|by right|left; apply Hww].
    intros Hl. by destruct (putNetwork_spec _ _ _ _ E3 Hl) as (? & ? & _). }
  destruct r3 as [answer|]; [|intros [= <- <- <- <-] _; by split]. set (used := bool_decide _).
  set (c5 := set_wantedForwards _ _). destruct (syncForwards _ c5 k3) as [[c6 k6] e6] eqn:E6.
  pose proof (planInbounds_tags f w Hww) as Hpt. pose proof (syncForwards_rest (planInbounds f w) c5 k3) as R6. rewrite E6 in R6; simpl in R6.
  apply (syncForwards_keeps known strict) in E6 as (K6 & O6 & F6); [|done].
  destruct (planForwards c6 k6) as [fs ps]. set (c7 := set_network c6 _ _). destruct (joinIngresses _ e6 c7 k6) as [[c8 k8] e8] eqn:E8.
  pose proof (joinIngresses_rest (map_to_list (nodes c7)) e6 c7 k6) as R8. rewrite E8 in R8; simpl in R8.
  intros [= <- <- <- <-] Hst. pose proof (listed_all c7) as Hli.
  pose proof E8 as [K8 O8]%(joinIngresses_keeps known strict); [|done..]. split.
  - keeps_by K3. assert (Keeps c3 k3 c5 k3 True) as K5 by (apply keeps_record; try done; [by left|by right]). keeps_by K5. keeps_by K6.
    assert (Keeps c6 k6 c7 k6 True) as K7 by (apply keeps_record; try done; by right). by keeps_by K7.
  - intros ->. pose proof (joinIngresses_none _ _ _ _ _ _ Hli E8) as ->. split.
    + destruct O8 as (A1 & A2 & A3 & A4 & A5 & A6 & A7 & A8 & A9 & A10 & A11). destruct O6 as (B1 & B2 & B3 & B4 & B5 & B6 & B7 & B8 & B9 & B10 & B11).
      destruct O2 as (D1 & D2 & D3 & D4 & _). simpl in *. split.
      * rewrite A4, B4. simpl. rewrite D4. destruct (line c1) eqn:Hln.
        -- rewrite A2, B2. apply (syncLinks_exact _ _ _ _ _ (wanted_links _ Hww) Hln E2).
        -- by apply (syncLinks_line _ _ _ _ _ E2).
      * by rewrite A1, (F6 eq_refl).
      * split; [congruence|congruence].
      * done.
      * eapply (joinIngresses_ingress _ _ _ _ _ _ _ Hli E8). intros t n Hn. left. apply list_elem_of_fmap. exists (t, n).
        split; [done|]. by apply elem_of_map_to_list.
    + intros Hl. destruct (R8 Hl) as (L6 & -> & _). destruct (R6 L6) as (L3 & -> & _). by destruct (putNetwork_spec _ _ _ _ E3 L3) as (_ & _ & _ & ->).
Qed.

(** What [ApplyNetwork] computes of the plan before it touches the kernel. *)
Definition asked (plan : option CorePlan) : result (Wanted * reverseListener) :=
  let p := default noPlan plan in
  let? body := networkBody plan in
  let? x := dialLinks p in
  let? forwards := forwardInbounds p in
  let? proxies := reverseProxyInbounds p in
  Ok (mkWanted body x.1 forwards proxies, x.2).

Lemma asked_wf plan w listen : asked plan = Ok (w, listen) → wantedWf w.
Proof.
  unfold asked. destruct (networkBody plan) as [body|]; simpl; [|done]. destruct (dialLinks _) as [[ls r]|] eqn:Ed; simpl; [|done].
  destruct (forwardInbounds _) as [fs|] eqn:Ef; simpl; [|done]. destruct (reverseProxyInbounds _) as [ps|] eqn:Ep; simpl; [|done].
  intros [= <- <-]. split; simpl; [by eapply dialLinks_keyed|by eapply forwardInbounds_tags|by eapply reverseProxyInbounds_tags].
Qed.

(** A plan without errors was asked for, opened its listener and ran. *)
Lemma ApplyNetwork_runs plan c k c' k' r e : ApplyNetwork plan c k = (c', k', r, e) →
  (∃ x, e = Some x ∧ (c', k') = (c, k)) ∨
  ∃ listen c1 k1 e1, (∃ ls, dialLinks (default noPlan plan) = Ok (ls, listen)) ∧ reopen compiles mainlandCIDRs listen c k = (c1, k1, e1) ∧
    ((∃ x, e = Some x ∧ (c', k') = (c1, k1)) ∨ ∃ w, asked plan = Ok (w, listen) ∧ e1 = None ∧ runNetwork (default noPlan plan) w c1 k1 = (c', k', r, e)).
Proof.
  unfold AnixCore.ApplyNetwork, asked. destruct (networkBody plan) as [body|]; [|intros [= <- <- <- <-]; left; by eexists].
  destruct (dialLinks _) as [[ls listen]|]; [|intros [= <- <- <- <-]; left; by eexists].
  destruct (reopen _ _ listen c k) as [[c1 k1] e1] eqn:Er. intros E. right. exists listen, c1, k1, e1. split_and!; [by eexists|done|].
  destruct e1; [injection E as <- <- <- <-; left; by eexists|].
  destruct (forwardInbounds _) as [fs|]; [|injection E as <- <- <- <-; left; by eexists].
  destruct (reverseProxyInbounds _) as [ps|]; [|injection E as <- <- <- <-; left; by eexists]. right. by eexists.
Qed.

(** The errors of a plan, those that are only logged too. *)
Definition quiet (plan : option CorePlan) (c : Core) (k : K) (e : option string) : Prop :=
  e = None ∧ ∀ ls listen, dialLinks (default noPlan plan) = Ok (ls, listen) → logged listen c k = None.

Lemma ApplyNetwork_state P plan c k c' k' r e : State P c k → ApplyNetwork plan c k = (c', k', r, e) →
  (strict = true → quiet plan c k e) → State P c' k'.
Proof.
  intros Hs Ha Hq. destruct (ApplyNetwork_runs _ _ _ _ _ _ _ Ha) as [(x & -> & [= -> ->])|(listen & c1 & k1 & e1 & [ls Hd] & Er & Hcase)]; [done|].
  assert (State P c1 k1) as Hs1.
  { eapply reopen_state; [exact Hs|exact Er|]. intros Hst. destruct (Hq Hst) as [_ Hl]. by eapply Hl. }
  destruct Hcase as [(x & -> & [= -> ->])|(w & Hw & -> & Hr)]; [done|].
  destruct (client c1) as [f|] eqn:Hc1; [|unfold runNetwork in Hr; rewrite Hc1 in Hr; by injection Hr as <- <- <- <-].
  destruct (runNetwork_keeps _ _ _ _ _ _ _ _ f (asked_wf _ _ _ Hw) Hc1 Hr) as [Hk _]; [intros Hst; by destruct (Hq Hst)|].
  eapply state_weaken; [by eapply keeps_state|done].
Qed.

(** ** Histories *)

(** A kernel that runs on its own runs nothing when the core starts; between the
    operations it is read, or exits. *)
Inductive reach : bool → Core → K → Prop :=
| reach_start line address token lineAddress status c k0 k : Start address token lineAddress status (New line) k0 = (c, k, None) →
    (address ≠ "" → held k = fresh) → reach true c k
| reach_other exact c k k' : reach exact c k → (lost k' = false → lost k = false ∧ held k' = held k) → reach exact c k'
| reach_restart exact c k c' k' up e : reach exact c k → restart c k = (c', k', up, e) → (strict = true → up = true → e = None) → reach true c' k'
| reach_addNode exact c k keyFile tag info o c' k' e : reach exact c k → known tag →
    AddNode compiles mainlandCIDRs keyFile tag info o c k = (c', k', e) → reach exact c' k'
| reach_delNode exact c k tag c' k' e : reach exact c k → DelNode compiles mainlandCIDRs tag c k = (c', k', e) →
    reach (exact && bool_decide (e = None)) c' k'
| reach_addUsers exact c k tag us c' k' r : reach exact c k → AddUsers tag us c k = (c', k', r) → reach exact c' k'
| reach_delUsers exact c k tag us c' k' e : reach exact c k → DelUsers us tag c k = (c', k', e) → reach exact c' k'
| reach_egress exact c k config c' k' e : reach exact c k → ApplyEgress config c k = (c', k', e) → reach exact c' k'
| reach_qos exact c k config c' k' e : reach exact c k → ApplyQoS config c k = (c', k', e) → reach exact c' k'
| reach_policy exact c k block c' k' e : reach exact c k → ApplyExitPolicy compiles mainlandCIDRs block c k = (c', k', e) → reach exact c' k'
| reach_network exact c k plan c' k' r e : reach exact c k → ApplyNetwork plan c k = (c', k', r, e) →
    (strict = true → quiet plan c k e) → reach exact c' k'.

Lemma start_state address token lineAddress status ln c (k0 k : K) : Start address token lineAddress status (New ln) k0 = (c, k, None) →
  (address ≠ "" → held k = fresh) → State True c k.
Proof.
  intros Hs Hk. assert (Wf (New ln)) as Hw by (split; apply map_Forall_empty).
  assert (∃ f own, c = set_started (New ln) f own ∧ held k = fresh) as (f & own & -> & Hh).
  { unfold Start in Hs. destruct (String.eqb_spec address "") as [->|Ha]; simpl in Hs.
    - destruct (negb (String.eqb token "")); [done|]. destruct (launchCore_spec _ _ _ _ _ Hs Hw) as [_ (_ & Hh & f & ->)]. eauto.
    - destruct (negb (String.eqb token "")); [|done]. destruct (ln && _); [done|]. destruct status as [f|]; [|done]. injection Hs as <- <-. eauto. }
  split; [split; simpl; try apply map_Forall_empty; destruct ln; apply map_Forall_empty|]. intros _. exists f. split; [done|]. rewrite Hh.
  destruct (afresh_follows known strict (set_started (New ln) f own) f) as [Hf He].
  split; [destruct Hf as [H1 H2 H3 H4]; split; [done|by destruct ln|done..]|by intros _].
Qed.

Lemma reach_state exact c k : reach exact c k → State (exact = true) c k.
Proof.
  induction 1 as [|exact c k k' _ IH Hk|exact c k c' k' up e _ IH Hr Hst|exact c k keyFile tag info o c' k' e _ IH Hkn Ha|exact c k tag c' k' e _ IH Ha|
    exact c k tag us c' k' r _ IH Ha|exact c k tag us c' k' e _ IH Ha|exact c k config c' k' e _ IH Ha|exact c k config c' k' e _ IH Ha|
    exact c k block c' k' e _ IH Ha|exact c k plan c' k' r e _ IH Ha Hq].
  - by eapply state_weaken; [eapply start_state|].
  - destruct IH as [Hw Hs]. split; [done|]. intros [Hl Hh]%Hk. rewrite Hh. by apply Hs.
  - destruct IH as [Hw _]. by eapply state_weaken; [eapply restart_state|].
  - eapply state_weaken; [eapply keeps_state; [by eapply AddNode_keeps|done]|done].
  - eapply state_weaken; [eapply keeps_state; [by eapply DelNode_keeps|done]|]. by intros [? ?%bool_decide_eq_true]%andb_true_iff.
  - eapply state_weaken; [eapply keeps_state; [by eapply AddUsers_keeps|done]|done].
  - eapply state_weaken; [eapply keeps_state; [by eapply DelUsers_keeps|done]|done].
  - eapply state_weaken; [eapply keeps_state; [by eapply ApplyEgress_keeps|done]|done].
  - eapply state_weaken; [eapply keeps_state; [by eapply ApplyQoS_keeps|done]|done].
  - eapply state_weaken; [eapply keeps_state; [by eapply ApplyExitPolicy_keeps|done]|done].
  - by eapply ApplyNetwork_state.
Qed.


End Histories.

Section Strict.
Context {K : Type} `{!Kernel K, !KernelLaws K, !InboundCodec, !PlanSDK}.
Context (compiles : string → bool) (mainlandCIDRs : list string).
Context (known : string → Prop) `{!Tags known}.
Abbreviation Wf := (AnixKernel.Wf known).
Abbreviation Follows := (AnixKernel.Follows known true).

(** The inbounds of the kernel are these nodes and these forwards. *)
Definition runsInbounds (f : Features) (ns : gmap string node) (fs : gmap string Inbound) (h : Held) : Prop :=
  ∀ w x, hInbounds h !! w = Some x ↔
    (∃ t n, ns !! t = Some n ∧ created n = true ∧ wireTag t = w ∧ x = given f n) ∨ (∃ i, fs !! w = Some i ∧ x = (i, ∅)).

Lemma follows_inbounds_exactly f c h : Follows f c h → Exact c h → runsInbounds f (nodes c) (forwards c) h.
Proof.
  intros [[Hn Hf] _ _ _] He w x. assert (∀ t n, nodes c !! t = Some n → created n = true → hInbounds h !! wireTag t = Some (given f n)) as Hg.
  { intros t n Hx Hcr. destruct (Hn t n Hx) as [_ Hp]. specialize (Hp Hcr). unfold inPlace in Hp.
    destruct (hInbounds h !! wireTag t) as [[i us]|]; [|done]. by destruct Hp as [-> ->]. }
  split.
  - intros Hw. destruct (He w) as [(t & n & Hx & Hcr & <-)|[i Hi]]; [by eexists|left|right].
    + exists t, n. split_and!; [done..|]. rewrite (Hg t n Hx Hcr) in Hw. by injection Hw.
    + exists i. split; [done|]. destruct (Hf w i Hi) as (_ & _ & Hm). rewrite Hm in Hw. by injection Hw.
  - intros [(t & n & Hx & Hcr & <- & ->)|(i & Hi & ->)]; [by apply Hg|]. by apply Hf.
Qed.

(** What a kernel runs that was given everything. *)
Record Restored (c c' : Core) (h : Held) (f : Features) : Prop := {
  restored_inbounds : runsInbounds f (restoredNode <$> nodes c) (wantedForwards c) h;
  restored_links : if line c' then hLinks h = wantedLinks c else wantedLinks c = ∅;
  restored_network : hNetwork h = default offQoS (network c);
  restored_egress : hEgress h = default (mkEgressConfig [] []) (egress c);
  restored_rules : blockRules f = true → hRules h = wantedRules compiles mainlandCIDRs c';
  restored_qos : qosFeature f = true → hQoS h = default offQoS (qos c);
  restored_record : nodes c' = restoredNode <$> nodes c
}.

(** C18: A kernel that exits and is started again is given everything back: when
    the restart reports no error, it runs an inbound with all its users for every
    node that has any (or is not of a kind that waits for users) and for every
    forward of the plan, and no other; the plan, its links, the egress routes,
    the block rules and the priorities are those of before the exit. *)
Theorem restart_restores exact c (k : K) c' k' : reach compiles mainlandCIDRs known false exact c k →
  restart compiles mainlandCIDRs c k = (c', k', true, None) → lost k' = false →
  ∃ f, client c' = Some f ∧ Restored c c' (held k') f.
Proof.
  intros [Hw _]%reach_state Hr Hl. pose proof (restart_state compiles mainlandCIDRs known true _ _ _ _ _ _ Hw Hr ltac:(done)) as [_ Hs].
  destruct (Hs Hl) as (f & Hc & Hf & He). exists f. split; [done|]. unfold restart in Hr.
  destruct (launchCore c k) as [[c1 k1] e1] eqn:El. destruct (launchCore_spec known _ _ _ _ _ El Hw) as [Hw1 Hcase]. destruct e1; [done|].
  destruct Hcase as ([f1 Hc1] & Hh & f2 & ->). destruct (replay _ _ _ k1) as [[c2 k2] e2] eqn:Er. injection Hr as -> -> ->.
  destruct (replay_record _ _ known true _ _ _ _ f1 Hc1 Hw1 Er) as (R1 & R2 & R3 & R4).
  destruct (replay_kernel _ _ known true _ _ _ _ _ f1 Hc1 Hw1 Er Hl) as [_ Hk]. destruct (Hk eq_refl) as [Hn Hg]. rewrite Hh in Hn, Hg.
  destruct (replay_follows _ _ known true _ _ _ _ _ f1 Hc1 Hw1 Er ltac:(done)) as (g & _ & _ & _ & _ & Hln & Hq). simpl in *.
  pose proof Hf as [_ F2 F3 F4]. split; [rewrite <- R1, <- R2; by apply follows_inbounds_exactly; [|apply He]| | | | | |]; try done.
  - rewrite Hln in *. destruct (anxLine c); [|done]. by rewrite F2.
  - intros Hb. by rewrite (F3 Hb), R4.
  - intros Hqf. by rewrite (F4 eq_refl Hqf), Hq.
  - exact _.
Qed.

End Strict.
End AnixHistory.

(** ** The anixcore core on a small kernel

    A kernel that keeps what it is told, refuses what a kernel refuses and the
    requests a schedule names, and does not answer once it exited; the instances
    of the classes, the histories that apply the theorems of AnixUsers.v and
    AnixHistory.v, and what the code does in the cases the theorems exclude. *)

Module AnixDemo.
Import Limiter NetworkPlan AnxServer AnixInbound AnixUsers AnixPlan AnixCore AnixKernel AnixNetwork AnixRestart AnixHistory.

(** ** Instances *)

(** Credentials are taken as they are; no network has settings. *)
#[local] Instance codec : InboundCodec := {|
  decodeTcp _ := None; decodeWs _ := None; decodeUpgrade _ := None; decodeXhttp _ := None; decodeGrpc _ := None;
  parseURL p := Some (p, ""); ParseDuration _ := None; sha256 s := s; hmac k _ := k;
  base64Decode s := if String.eqb s "" then None else Some s; base64Encode s := s
|}.

#[local] Instance sdk : PlanSDK := {|
  MaxTextBytes := 256%nat; MaxForwardTargets := 8%nat; MaxPort := 65535;
  marshalPlan p := Some ("plan of " +:+ itoa (Z.of_nat (List.length (PlanIngresses p))))
|}.

(** [refuse]: whether the next requests are refused with status 500. *)
Record toy := mkToy { th : Held; up : bool; refuse : list bool }.

Definition allFeatures : Features := mkFeatures true true true true true true.

(** Why a kernel does not do a request. *)
Definition refusal (r : request) (h : Held) : option Z :=
  let absent w := bool_decide (hInbounds h !! w = None) in
  match r with
  | AddInbound i _ => if negb (wireTagPattern (tagOf i)) then Some 400 else if absent (tagOf i) then None else Some 409
  | RemoveInbound w | AddUsersOf w _ | RemoveUsersOf w _ => if absent w then Some 404 else None
  | _ => None
  end.

Definition toySend (r : request) (k : toy) : toy * answer :=
  if negb (up k) then (k, Lost "connection refused")
  else
    let rest := mkToy (th k) true (tail (refuse k)) in
    if default false (head (refuse k)) then (rest, Refused 500 "internal error")
    else match refusal r (th k) with
         | Some status => (rest, Refused status "refused")
         | None => (mkToy (doneBy r (th k)) true (tail (refuse k)), Done)
         end.

#[local] Instance toyKernel : Kernel toy := {|
  held := th; lost k := negb (up k); send := toySend;
  launch _ k := (mkToy fresh true (refuse k), Up allFeatures);
  readTraffic _ _ k := (k, Ok []); readOnline _ k := (k, Ok []); readDestinations _ k := (k, Ok []); readBlocked k := (k, Ok 0);
  networkAnswer _ := mkKernelStatus 0 [] []; linkStats _ := Ok ∅; forwardTraffic _ _ := Ok (0, 0); forwardTargets _ _ := None
|}.

(** The cases of a request. *)
Lemma toySend_cases r k :
  (up k = false ∧ toySend r k = (k, Lost "connection refused")) ∨
  (up k = true ∧ (toySend r k = (mkToy (th k) true (tail (refuse k)), Refused 500 "internal error") ∨
    (∃ st, refusal r (th k) = Some st ∧ toySend r k = (mkToy (th k) true (tail (refuse k)), Refused st "refused")) ∨
    (refusal r (th k) = None ∧ toySend r k = (mkToy (doneBy r (th k)) true (tail (refuse k)), Done)))).
Proof.
  unfold toySend. destruct (up k) eqn:Hu; simpl; [right; split; [done|]|by left]. destruct (default false _); [by left|right].
  destruct (refusal r (th k)) as [st|] eqn:Er; [left; by eexists|by right].
Qed.

Ltac toy_cases r k :=
  destruct (toySend_cases r k) as [[Hu E]|[Hu [E|[(st & Hr & E)|[Hr E]]]]]; simpl in *; rewrite ?E in *; simpl in *.

#[local] Instance toyLaws : KernelLaws toy.
Proof.
  split; simpl.
  - intros r k. by toy_cases r k.
  - intros r k status m. by toy_cases r k.
  - intros w k m. toy_cases (RemoveInbound w) k; try done. intros _. destruct (bool_decide _) eqn:Hb; [by apply bool_decide_eq_true in Hb|done].
  - intros i us k. toy_cases (AddInbound i us) k; try done. destruct (wireTagPattern (tagOf i)); done.
  - intros w us k. toy_cases (AddUsersOf w us) k; try done. intros _. destruct (bool_decide _) eqn:Hb; [done|]. apply bool_decide_eq_false in Hb.
    by apply not_eq_None_Some.
  - intros r k. toy_cases r k; by rewrite ?Hu.
  - intros r k m. toy_cases r k; by rewrite ?Hu.
  - done.
  - intros l k Hn. by destruct (Hn allFeatures).
Qed.

Definition tags : list string := ["node-a"; "node-b"].

#[local] Instance toyTags : Tags (λ t, t ∈ tags).
Proof.
  assert (∀ t, t ∈ tags → wireTag t = t) as Hw.
  { intros t Ht. unfold tags in Ht. repeat (apply elem_of_cons in Ht as [->|Ht]; [done|]). by apply elem_of_nil in Ht. }
  split; [intros t t' H1 H2; by rewrite !Hw|]. intros t Ht. rewrite Hw by done. unfold tags in Ht.
  repeat (apply elem_of_cons in Ht as [->|Ht]; [done|]). by apply elem_of_nil in Ht.
Qed.

(** ** Users (AnixUsers.v) *)

Definition protocol (ss : option (string * string)) (trojan : option (string * string)) (port : Z) : Protocol :=
  mkProtocol (Some port) ss trojan None None None None None None.
Definition info (type : string) (p : Protocol) : NodeInfo :=
  NodeController.mkNode 7 type 1 (60 * second) (NodeController.mkRules ["^ads"] ["bittorrent"]) p.
Definition options : InboundOptions := mkInboundOptions "" (Some (NodeController.mkCert "file" "" "/cert.pem" "/key.pem")).
Definition trojanNode : NodeInfo := info "trojan" (protocol None (Some ("", "")) 443).
Definition ssNode : NodeInfo := info "shadowsocks" (protocol (Some ("2022-blake3-aes-128-gcm", "server")) None 8388).

Definition user (id : Z) (uuid key : string) : UserInfo := mkUser id uuid 0 0 "" "" "" (if String.eqb key "" then ∅ else {["ss2022_key" := key]}).
Definition key32 : string := "0123456789abcdef0123456789abcdef".
Definition seven : UserInfo := user 7 "00000000-0000-4000-8000-000000000007" key32.

Definition sevenUsers : list apiUser := match apiUsersFor ssNode seven with Ok us => us | Err _ => [] end.
Definition sevenKey : apiUser := default (mkApiUser "" "" "" "" "" 0 0) (last sevenUsers).

(** The second key of a user. *)
Lemma user_names_witness : Name sevenKey = "7.k" ∧ panelUID (Name sevenKey) = Some 7 ∧ NoDup (Name <$> sevenUsers).
Proof.
  split; [by vm_compute|]. destruct (user_names_come_back ssNode seven sevenUsers sevenKey) as (H1 & H2 & _).
  - by vm_compute.
  - by vm_compute.
  - apply list_elem_of_further, list_elem_of_here.
  - by split.
Defined.

Definition trojanInbound : Inbound := match inboundConfig (Err "") "node-a" (Some trojanNode) options with Ok i => i | Err _ => ∅ end.

Lemma certificate_witness : is_Some (certificate options) ∧ trojanInbound !! "tls" = certificate options.
Proof. apply (certificate_required (Err "") "node-a" trojanNode options trojanInbound); [apply list_elem_of_here|by vm_compute]. Defined.

(** Both names of a user, twice, and another user. *)
Definition counters : list apiTraffic :=
  [mkApiTraffic "7" 10 20; mkApiTraffic "8" 5 5; mkApiTraffic "7.k" 1 2; mkApiTraffic "7" 100 200].

Lemma traffic_billed_witness : billed Upload 7 (trafficSlice counters) = 111 ∧ billed Download 7 (trafficSlice counters) = 222.
Proof.
  destruct (kernel_traffic_billed counters) as [_ Hb].
  - unfold counters. repeat (apply Forall_cons; split; [split; [done|]; split; [done|]|]); [exists seven|exists (user 8 "" "")|exists seven..|done];
      (split; [done|]); vm_compute; first [apply list_elem_of_here|apply list_elem_of_further, list_elem_of_here].
  - by vm_compute.
  - destruct (Hb seven ltac:(done)) as [H1 H2]. split; [etrans; [exact H1|]|etrans; [exact H2|]]; by vm_compute.
Defined.

(** ** Histories (AnixHistory.v) *)

Definition known (t : string) : Prop := t ∈ tags.
Definition every (_ : string) : bool := true.
Definition blocks : list string := ["1.0.1.0/24"].

Abbreviation reach := (AnixHistory.reach every blocks known).
Abbreviation system := (Core * toy)%type.

Lemma parts3 {A B C} (x : A * B * C) : x = (x.1.1, x.1.2, x.2).
Proof. by destruct x as [[]]. Qed.
Lemma parts4 {A B C D} (x : A * B * C * D) : x = (x.1.1.1, x.1.1.2, x.1.2, x.2).
Proof. by destruct x as [[[]]]. Qed.

(** A core with anx-node, a trojan node with a user, a Shadowsocks node without. *)
Definition started : system := (Start "" "" "" (Err "") (New true) (mkToy fresh false [])).1.
Definition add (tag : string) (i : NodeInfo) (s : system) : Core * toy * option string := AddNode every blocks (Err "") tag i options s.1 s.2.
Definition users (tag : string) (us : list UserInfo) (s : system) : Core * toy * result Z := AddUsers tag us s.1 s.2.
Definition served : system := (users "node-a" [seven] (add "node-b" ssNode (add "node-a" trojanNode started).1).1).1.

Lemma served_reach strict : reach strict true served.1 served.2.
Proof.
  unfold served, users, add. eapply reach_addUsers; [|apply parts3]. eapply reach_addNode; [|by apply list_elem_of_further, list_elem_of_here|apply parts3].
  eapply reach_addNode; [|by apply list_elem_of_here|apply parts3].
  apply (reach_start _ _ _ _ true "" "" "" (Err "") _ (mkToy fresh false [])); [by vm_compute|done].
Qed.

(** A plan with an ingress for the users of port 443 and a forward. *)
Definition plan : CorePlan :=
  mkCorePlan [mkEgress "e1" "" "auto" "" 0 0] [] [] [mkPlanIngress "in-443" true 443] []
    [mkPortForward "web" "0.0.0.0" 8080 ["tcp"] "e1" "" [mkTarget "10.0.0.1" 80 0 0] None] [].

Definition apply (p : option CorePlan) (s : system) : Core * toy * result PlanStatus * option string := ApplyNetwork every blocks p s.1 s.2.
Definition planned : system := (apply (Some plan) served).1.1.

Lemma plan_quiet : quiet every blocks (Some plan) served.1 served.2 None.
Proof. split; [done|]. intros ls listen [= <- <-]. by vm_compute. Qed.

Lemma planned_reach strict : reach strict true planned.1 planned.2.
Proof.
  unfold planned, apply. eapply reach_network; [apply served_reach|apply parts4|]. intros _.
  pose proof plan_quiet as [_ Hl]. split; [by vm_compute|done].
Qed.


(** The kernel exits, a user is added meanwhile, and it is started again. *)
Definition exited : system := (planned.1, mkToy (th planned.2) false []).
Definition missed : system := (users "node-a" [user 8 "00000000-0000-4000-8000-000000000008" ""] exited).1.
Definition again : Core * toy * bool * option string := restart every blocks missed.1 missed.2.

Lemma missed_reach strict : reach strict true missed.1 missed.2.
Proof.
  unfold missed, users. eapply reach_addUsers; [|apply parts3]. by eapply reach_other; [apply planned_reach|].
Qed.


(** The node that waits for users is not there, the other and the forward are. *)
Lemma restart_witness : ∃ f, client again.1.1.1 = Some f ∧ Restored every blocks missed.1 again.1.1.1 (held again.1.1.2) f ∧
  sorted_keys (hInbounds (held again.1.1.2)) = ["forward-web"; "node-a"].
Proof.
  destruct (restart_restores every blocks known true missed.1 missed.2 again.1.1.1 again.1.1.2) as (f & Hc & Hr).
  - apply missed_reach.
  - etrans; [apply parts4|]. by vm_compute.
  - by vm_compute.
  - exists f. split_and!; [done..|by vm_compute].
Defined.

(** ** What the theorems exclude *)

(** A node whose removal the kernel refused is forgotten: the kernel serves it
    on, deleting it again does nothing, and adding it is refused. *)
Example failed_removal_left_over :
  let '(c, k, e) := DelNode every blocks "node-a" planned.1 (mkToy (th planned.2) true [true]) in
  let '(c', k', e') := DelNode every blocks "node-a" c k in
  (e, e', bool_decide (is_Some (hInbounds (th k') !! "node-a")), (add "node-a" trojanNode (c', k')).2) =
  (Some "anixcore node node-a: internal error", None, true, Some "anixcore node node-a: refused").
Proof. by vm_compute. Qed.

(** Priorities the kernel refused after a restart are not sent again. *)
Example priorities_not_sent_again :
  let '(c, k, _) := ApplyQoS "{priorities}" started.1 started.2 in
  let '(c, k, _, e) := restart every blocks c (mkToy (th k) false [true]) in
  let '(c', k', e') := ApplyQoS "{priorities}" c k in
  (e, e', qos c', hQoS (th k')) = (Some "anixcore qos: internal error", None, Some "{priorities}", "{}").
Proof. by vm_compute. Qed.

(** A plan that could not take a node's inbound down leaves it on its old
    ingress, and the same plan applied again changes nothing. *)
Example ingress_left_behind :
  let '(c, k, _, e) := ApplyNetwork every blocks (Some plan) served.1 (mkToy (th served.2) true [false; false; true]) in
  is_Some e ∧ let '(c', k', _, e') := ApplyNetwork every blocks (Some plan) c k in
              e' = None ∧ (fst <$> hInbounds (th k') !! "node-a") ≫= (λ i : Inbound, i !! "ingress") = None ∧
              ingress <$> nodes c' !! "node-a" = Some "in-443".
Proof. vm_compute. split; [by eexists|done]. Qed.

(** A node that is added between the start of the new kernel and [replay] is
    sent twice: it is recorded as not created, so its removal leaves it in the
    kernel. *)
Example added_before_replay :
  let '(c, k, _) := launchCore missed.1 missed.2 in
  let '(c, k, e) := add "node-c" trojanNode (c, k) in
  let '(c, k, failed) := replay every blocks c k in
  let '(c, k, e') := DelNode every blocks "node-c" c k in
  (e, failed, e', bool_decide (is_Some (hInbounds (th k) !! "node-c"))) = (None, Some "node-c: refused", None, true).
Proof. by vm_compute. Qed.

(** A node a restart could not create serves nobody, though the next operations
    succeed. *)
Example node_stays_down :
  let '(c, k, _, e) := restart every blocks missed.1 (mkToy (th missed.2) false [false; false; true; true]) in
  is_Some e ∧ let '(c', k', e') := DelUsers [seven] "node-a" c k in e' = None ∧ hInbounds (th k') !! "node-a" = None.
Proof. vm_compute. split; [by eexists|done]. Qed.
End AnixDemo.
